(* ===== verification/_CoqProject ===== *)
-Q . S2P
Prelude.v
GoFloat.v
GoString.v
Cursor.v
PrivacyMode.v
Glob.v
Acl.v
Conflict.v
PolicyDB.v
PolicyStore.v
Promotion.v
Retention.v
Match.v
Merger.v
Reranker.v
PolicyGate.v
Diversifier.v
Pins.v
Handler.v
ScopeKey.v
StageBreaker.v
Retry.v
PipelineTypes.v
Priority.v
Coordinator.v
PipelineSafety.v
ChunkMerger.v
Dedup.v
ChunkGuards.v
CallRetry.v
FetchStage.v
ModelStages.v
Effects.v
ChunkStores.v
StoreStage.v
Kafka.v
Consumer.v
DeadLetter.v
ShardSync.v
Shards.v
Sources.v
Forgetting.v
AuditTrail.v
AuditIntegrity.v
Calendar.v
GoText.v
Cron.v
Schedules.v
Idempotency.v
AutoPause.v
Simulator.v
Backfill.v
ApiKeys.v
GrpcPool.v
Notifications.v
GoTime.v
Json.v
GoUrl.v
ConnectorBase.v
IssueTrackers.v
HelpDesks.v
Workspaces.v
CodeHosts.v
Drives.v
Suites.v
ConnectorSamples.v
SemanticCache.v
WebhookRouter.v
Analytics.v
Experiments.v
TokenRefresh.v
Graph.v
Batch.v
Synonyms.v
Microsoft.v
Chats.v
Google.v
Evaluation.v
Migrations.v
SourceAdmin.v
