(* ===== verification/Prelude.v ===== *)
(** * hunting-fishball: a verification library of the Go context engine

    The program ingests documents from connectors, stores their chunks and answers
    retrieval queries under a privacy policy. This library models the parts that
    decide what a caller may see and what becomes of a document, and proves what
    they promise. Paths below are relative to src/internal.

    ** The program

    - policy/ decides. A snapshot holds a privacy mode, an allow/deny list over
      sources, namespaces and path globs, a recipient policy over skills and a
      chunk list. Drafts of snapshots are checked for conflicts and promoted into
      the live tables, from which the resolver builds the snapshot of a request.
    - retrieval/ answers. A request fans out to vector, BM25, graph and memory
      backends; the ranked lists are fused, deduplicated, reranked, diversified,
      filtered by privacy label and by the snapshot, cut, pinned and cached.
    - connector/ reads. Each connector validates its credentials, lists namespaces,
      iterates over the documents of one, fetches a document and follows changes
      behind a cursor; some accept webhooks.
    - pipeline/ ingests. Events go through an optional priority buffer into four
      stages of workers connected by bounded channels; every stage call is retried
      behind a circuit breaker, and an event ends acknowledged or dead-lettered.
      A retention worker deletes what has outlived its rule.

    ** The files

    Foundations.
    - [Prelude]: results, 64-bit integers, time, Go's string order, list and
      sorting lemmas, transition systems.
    - [GoFloat]: binary32 and binary64 arithmetic on the standard library's
      [spec_float], and the order of its values.
    - [GoString]: byte strings, UTF-8 decoding, trimming, the Unicode tables as a
      class, decimal printing.

    Policy.
    - [PrivacyMode]: policy/privacy_mode.go, policy/device_first.go.
    - [Glob]: the glob translator of policy/acl.go and a matcher for the regular
      expressions it emits, proved against a declarative semantics.
    - [Acl]: policy/acl.go ([ACL]), recipient.go ([Recipient]), chunk_acl.go
      ([ChunkACL]), snapshot.go ([Snapshot]).
    - [Conflict]: policy/simulator_conflict.go.
    - [PolicyDB]: the tables, the class [Database] of what the SQL engine does
      (any statement may fail; a transaction that fails restores the tables) and
      the monad of statements.
    - [PolicyStore]: draft.go ([DraftRepository]), version_history.go
      ([PolicyVersionRepository], [Paging]), live_store.go ([LiveStoreGORM]),
      live_resolver.go ([LiveResolverGORM]), and their theorems ([LiveViews]).
    - [Promotion]: the class [LiveStore] of what promotion needs of the live
      tables, with the instance that discharges it; audit rows and deferred
      notifications ([Audit]: audit/model.go, audit/repository.go,
      admin/notification_audit.go); promotion.go ([Promoter]); a concrete race of
      two promoters ([Race]).
    - [Retention]: policy/retention.go and the sweep of
      pipeline/retention_worker.go.

    Retrieval.
    - [Match]: the record types of hits and their projections (merger.go,
      handler.go, storage/redis_cache.go).
    - [Merger]: merger.go. [Reranker]: reranker.go, as an instance of the class
      [Reranker], and the label filter ([PolicyFilter]). [Diversifier]:
      diversifier.go, as an instance of the class [Diversifier]. [PolicyGate]:
      policy_snapshot.go and privacy_strip.go. [Pins]: pin_apply.go.
    - [Handler]: handler.go, proved for any instances of the two classes.
    - [ScopeKey]: the cache key of handler.go.
    - [Batch]: batch_handler.go, whose goroutines are a step relation over the
      semantic cache they share, and payload_validator.go. [Synonyms]: query_expander.go, synonym_store_gorm.go and
      admin/synonyms_handler.go, both stores being instances of the class
      [SynonymStore].
    - [Evaluation]: eval/, the measuring of retrieval ([Evaluation]), its stored
      suites and endpoints ([Suites]), and feedback_handler.go with the cases made
      of feedback ([Feedback]).

    Ingestion.
    - [StageBreaker]: pipeline/stage_breaker.go.
    - [Retry]: runWithRetry of coordinator.go and retry_analytics.go.
    - [PipelineTypes]: types.go. [Priority]: priority.go.
    - [Coordinator]: coordinator.go and sync_history_hook.go as a transition
      system; [PipelineSafety]: its theorems and an executable scheduler.
    - [CallRetry]: the retry loop the network stages share; [FetchStage]: fetch.go;
      [ModelStages]: parse.go, embed.go, embed_fallback.go.
    - [Effects]: the monad of code that changes a store through calls that may fail
      with or without effect, with its Hoare triples. [ChunkStores]:
      storage/postgres.go and storage/qdrant.go; [StoreStage]: store.go, proved on
      top of them.
    - [Dedup]: dedup.go. [ChunkGuards]: chunk_scorer.go, conflict_resolver.go.
      [ChunkMerger]: retrieval/chunk_merger.go.
    - [Kafka]: keys, envelopes and the producer; [Consumer]: consumer.go as a
      transition system of one member of the group, with its generations and the
      redeliveries they bring; [DeadLetter]: the dlq_*.go files; [Cursor]: the paging by
      descending id that the listings share.
    - [Backfill]: backfill.go and reindex.go.

    Shards, audit and administration.
    - [ShardSync]: shard/delta.go, eviction.go. [Shards]: the manifests, their
      generation, delta sync and the freshness scheduler of shard/. [Forgetting]:
      shard/forget.go, admin/tenant_delete.go, admin/forget_worker.go, and the
      interleaving of several workers ([Fence]).
    - [Sources]: admin/source_model.go, source_repository.go. [SourceAdmin]:
      admin/rbac.go ([Rbac]), credential/encryption.go ([Credential]) over the class
      [AEAD] of what AES-GCM computes, admin/health.go ([Health]), source_handler.go,
      bulk_source_handler.go and pagination.go ([SourceHandler]),
      credential_rotation.go ([Rotation]).
    - [Migrations]: migrate/runner.go, and several processes that run it at once.
    - [AuditTrail]: audit/repository.go, outbox.go; [AuditIntegrity]:
      audit/integrity.go, integrity_worker.go.
    - [Calendar] and [GoText]: what the code uses of Go's time, strings and strconv
      packages. [Cron]: admin/cron.go; [Schedules]: admin/scheduler.go.
    - [Idempotency], [AutoPause], [ApiKeys], [Notifications]: the files of the same
      names in admin/. [Simulator]: policy/simulator.go, simulator_diff.go.
      [GrpcPool]: grpcpool/pool.go.
    - [SemanticCache]: storage/redis_cache.go over the Redis commands it sends, with
      the lives of the keys.
    - [Analytics]: admin/query_analytics.go and its endpoints; [Experiments]:
      admin/abtest.go, abtest_gorm.go, abtest_results.go and retrieval/abtest_apply.go,
      both stores being instances of the class [ABTestStore]; [TokenRefresh]:
      admin/token_refresh.go.
    - [Graph]: the entity graph, byte by byte where a statement is written:
      storage/falkordb.go, retrieval/storage_adapter.go, pipeline/graphrag.go.

    Connectors.
    - [GoTime], [Json], [GoUrl]: what they use of Go's time, encoding/json, net/url
      and net/http; a service is an instance of the class [Server], which answers
      each request given those before it.
    - [ConnectorBase]: connector/source_connector.go, registry.go, webhook_verify.go;
      the two versions of the iterators' Next, over any instance of the class
      [PageSource]; the walks and cursors of change tracking; the classes
      [DeltaSyncer] and [OrderedSyncer] of what it promises to the engine.
    - [IssueTrackers] (Linear, Asana, Trello), [HelpDesks] (Zendesk, Freshdesk,
      Freshservice, Zoho Desk, PagerDuty, ServiceNow, Intercom), [Workspaces]
      (Webex, Bitbucket, BookStack), [CodeHosts] (GitHub, GitLab, Jira), [Drives]
      (Box, Dropbox, OneDrive), [Suites] (HubSpot, Okta, Monday, ClickUp,
      Mattermost): one module per connector, an operation per method, as instances
      of those classes. [ConnectorSamples]: the theorems on concrete services.
    - [Microsoft] (SharePoint, Teams, Outlook, Entra ID over one module for the
      feeds of Graph), [Chats] (Slack, KChat, Discord), [Google] (Drive and its
      shared drives, Gmail, Workspace), each with its concrete services.
    - [WebhookRouter]: admin/webhook_router.go over the optional interfaces of a
      connector, and the GitHub connector behind it.

    ** What is proved

    - No response carries what the policy denies, from the cache or afresh, and
      the entry point fails closed ([Handler], [PolicyGate], [Reranker]).
    - A chunk is refused exactly when a deny rule applies to it, wherever that stands
      among the rules; modes combine to the strictest ([Acl], [PrivacyMode], [Glob]).
    - Promotion is atomic, decides a draft once however calls interleave, makes
      the resolver return the promoted snapshot and touches no other scope
      ([Promotion], [PolicyStore]); conflict reports are exact ([Conflict]); a
      what-if report lists exactly the hits that differ ([Simulator]).
    - Fusion, dedup, merging, filtering and pinning account for every hit
      ([Merger], [ChunkMerger], [Pins], [Reranker], [Handler]).
    - A batch gives every sub-request its own answer for what it read of the cache,
      its own key's entry of another request or of another sub-request, whatever the
      schedule, within its bound on parallelism, in boundedly many steps and under
      its own policy ([Batch]); a query is extended by exactly the first synonyms
      of its words ([Synonyms]); metrics, runs and cases from feedback are what
      their definitions say ([Evaluation]).
    - Retention deletes exactly what is past its limit ([Retention]).
    - Breakers trip and probe as specified and are never stuck; retries are
      bounded ([StageBreaker], [Retry], [CallRetry], [GrpcPool], [Notifications]);
      the priority buffer keeps the order of each bucket and starves no low-priority
      event ([Priority]); the
      pipeline accounts for every event, cannot send on a closed channel, drains
      without deadlock and stores only what its stages produced
      ([PipelineSafety]).
    - Batching is invisible in the embeddings ([ModelStages]); storing a document
      replaces its chunks and vectors, metadata first, whichever call fails
      ([StoreStage]).
    - Offsets are marked only behind completed events over all generations, as long
      as no pending key was in flight when a generation began, and the claims of a
      generation are never stuck ([Consumer]); an emitted event decodes to itself
      ([Kafka]); a dead letter is replayed as its state allows ([DeadLetter]).
    - A generated shard supersedes the older ones and a device that applies deltas
      converges ([Shards], [ShardSync]); forgetting is fenced by its lease
      ([Forgetting]); a removed source stays removed ([Sources]). No request to the
      source endpoints touches another tenant's rows or adds one for it, a rotation
      changes the credentials of one source only, and health rows carry the status of
      their own counters ([SourceAdmin]).
    - A request passes the gate of the admin endpoints exactly with a role that is
      high enough; a sealed credential opens to its plaintext and nothing else opens
      ([SourceAdmin]). However many processes migrate the schema and fail, every
      migration of one list of files runs once and in order, unless a file commits by
      itself ([Migrations]).
    - The outbox delivers every row at least once ([AuditTrail]) and an integrity
      check that stays silent saw an unchanged log ([AuditIntegrity]).
    - A schedule fires only when due and the next run is the soonest minute that
      matches ([Cron], [Schedules]); a successful request is replayed, not run again
      ([Idempotency]); the sliding window counts exactly the recent outcomes
      ([AutoPause]); a key rotation is all or nothing and keys only age forward
      ([ApiKeys]); an event reaches every subscriber and its retries are bounded up to
      the refused updates ([Notifications]).
    - After an invalidation no cached answer with the chunk or source is served, as
      long as no command fails and the entries live equally long; the examples show
      that each condition is needed ([SemanticCache]).
    - The ranking of queries is exact ([Analytics]); an experiment assigns a user the
      same arm while its share grows and cannot lift the policy ([Experiments]); a pass
      renews due tokens and changes nothing else ([TokenRefresh]).
    - No text of a document or a user, no label and no property name changes the
      structure of a graph statement, and a
      document's statements go to its tenant's graph in order ([Graph]).
    - Draining an iterator gives every document of every page and the right end,
      with the Next most connectors have; the other version loses the rest of the
      last page ([ConnectorBase]). A delta reports all changes of all its pages or
      an error; cursors read back, never go back and are behind nothing that was
      reported ([ConnectorBase], for every instance); stopping early loses nothing
      when the service answers newest first ([Workspaces], [HelpDesks]); a feed of
      Graph and a sync of Google Workspace report every page up to their limit
      ([Microsoft], [Google]). A signature with a time is accepted exactly under its
      key and within its window ([Chats]). A signature
      is accepted exactly under its key, and the router accepts nothing its
      connector's own check refuses, leaving an audit row of every outcome ([WebhookRouter]).

    Examples next to the theorems record where the code departs from its comments
    or its purpose.

    ** Conventions, bounds and fuel

    A Go [(T, error)] is [result]; [int64] and [time.Duration] arithmetic that can
    overflow is wrapped with [wrap64]; floats are IEEE values at their width;
    strings are byte strings; maps are [gmap] and an iteration over a map is an
    arbitrary permutation passed to the model. Counters of events are unbounded
    integers. Recursion is structural on the input everywhere except:
    - the regular expression parser, the trimming, field and duration loops, whose
      fuel is the length of their input, each step consuming a byte;
    - the halving loop of [expApprox], which needs five steps since its argument is
      clamped to ten and has sixteen;
    - the MMR selection, the pin loop, the chunk grouping and the embedding batches,
      whose fuel is the number of elements, each round consuming at least one;
    - the retry loops, which recurse on their attempt budget;
    - the paging loops, whose fuel is one more than the number of rows left, each
      page but the last being full;
    - the search of [Cron.Next], which runs on [loop] with a binary fuel of
      4,194,304, above the number of minutes in the four years it looks ahead, and
      the counting loop of a cron field, at most 60 rounds within its range and 256
      allowed, both shown to be enough;
    - the drain of an iterator, which needs one step per document and two more, and
      the walk over the pages of a delta, which needs one more than there are pages.
    Concurrent code is an interleaving of the steps between which other goroutines
    can run, with termination as a bound on the number of steps.

    ** What is not modelled

    Code outside the repository (SQL engine, Redis, Kafka, vector stores, the
    embedding and parsing services, Unicode tables, SHA-256, the regular
    expressions no glob of the supported grammar produces) is a parameter; the rows
    of tables, and the keys of Redis where the code relies on their expiry, are
    state that the commands change as documented, any command being able to fail. HTTP
    binding, tracing, metrics, timings, analytics and configuration loading are
    left out, as are the connectors not named above, the admin handlers that only
    store and render tables, the rate limits (scripts that run inside Redis on numbers
    it keeps as text), streaming retrieval and the wiring of the binaries. A response to a connector arrives whole or not
    at all, its body being a JSON value or not one; objects in which a field occurs
    twice are read by their last one; a cursor returned beside an error is not
    looked at. The goroutines of a bulk request over sources run whole operations in
    any order. The remaining connectors have the shape of those modelled; what they add
    (XML feeds, MIME messages, signed requests) is formats rather than logic. *)

From Stdlib Require Export ZArith Lia Sorted.
From Stdlib Require Import Ascii.
From stdpp Require Export base sorting strings gmap numbers option list.

(** ** Results of fallible Go functions *)

(** A Go function returning [(T, error)]: [Ok] when the error is nil. *)
Inductive result (A E : Type) : Type :=
| Ok (a : A)
| Err (e : E).
Arguments Ok {A E} a.
Arguments Err {A E} e.

Definition result_bind {A B E} (r : result A E) (k : A → result B E) : result B E :=
  match r with Ok a => k a | Err e => Err e end.

Declare Scope go_scope.
Delimit Scope go_scope with go.
Notation "'let!' x ':=' r 'in' k" := (result_bind r (λ x, k))
  (at level 10, x pattern, r at level 100, k at level 200) : go_scope.
Open Scope go_scope.

Lemma result_bind_Ok {A B E} (r : result A E) (k : A → result B E) b :
  result_bind r k = Ok b ↔ ∃ a, r = Ok a ∧ k a = Ok b.
Proof. destruct r; simpl; split; [eauto| |done|]; by intros (? & [= ->] & ?). Qed.

(** ** Machine integers and time *)

Definition int64_min : Z := - 2 ^ 63.
Definition int64_max : Z := 2 ^ 63 - 1.

(** Two's-complement wrap-around of a 64-bit signed operation. *)
Definition wrap64 (z : Z) : Z := (z + 2 ^ 63) `mod` 2 ^ 64 - 2 ^ 63.

Definition in_int64 (z : Z) : Prop := (int64_min ≤ z ≤ int64_max)%Z.

Lemma wrap64_id z : in_int64 z → wrap64 z = z.
Proof.
  unfold in_int64, int64_min, int64_max, wrap64. intros H.
  rewrite Z.mod_small by lia. lia.
Qed.

Lemma wrap64_range z : in_int64 (wrap64 z).
Proof.
  unfold in_int64, int64_min, int64_max, wrap64.
  pose proof (Z.mod_pos_bound (z + 2 ^ 63) (2 ^ 64) ltac:(lia)). lia.
Qed.

(** [time.Time] as nanoseconds since the zero time; [Time.Sub] saturates at
    the bounds of [time.Duration]. *)
Abbreviation Time := Z (only parsing).
Definition time_is_zero (t : Time) : bool := (t =? 0)%Z.
Definition time_sub (a b : Time) : Z := Z.max int64_min (Z.min int64_max (a - b)).

Lemma time_sub_exact a b : in_int64 (a - b) → time_sub a b = (a - b)%Z.
Proof. unfold in_int64, time_sub. lia. Qed.

Definition millisecond : Z := 1000000.
Definition second : Z := 1000000000.
Definition minute : Z := 60 * second.
Definition hour : Z := 60 * minute.

(** ** Byte strings in Go's order *)

(** Go compares strings byte by byte; [str_ltb s t] is [s < t]. *)
Fixpoint str_ltb (s t : string) : bool :=
  match s, t with
  | EmptyString, EmptyString => false
  | EmptyString, String _ _ => true
  | String _ _, EmptyString => false
  | String a s', String b t' =>
      if (N_of_ascii a <? N_of_ascii b)%N then true
      else if (N_of_ascii b <? N_of_ascii a)%N then false
      else str_ltb s' t'
  end.

Definition str_eqb (s t : string) : bool := bool_decide (s = t).
Definition str_empty (s : string) : bool := match s with EmptyString => true | _ => false end.

Lemma N_of_ascii_inj a b : N_of_ascii a = N_of_ascii b → a = b.
Proof. intros H. by rewrite <- (ascii_N_embedding a), <- (ascii_N_embedding b), H. Qed.

Lemma str_ltb_irrefl s : str_ltb s s = false.
Proof. induction s as [|a s IH]; simpl; [done|]. by rewrite N.ltb_irrefl. Qed.

Ltac case_N_ltb :=
  repeat match goal with
  | |- context [(?a <? ?b)%N] => destruct (N.ltb_spec a b)
  | H : context [(?a <? ?b)%N] |- _ => destruct (N.ltb_spec a b)
  end.

Lemma str_ltb_trans s t u : str_ltb s t = true → str_ltb t u = true → str_ltb s u = true.
Proof.
  revert t u. induction s as [|a s IH]; intros [|b t] [|c u]; simpl; try done.
  case_N_ltb; try done; try lia. apply IH.
Qed.

Lemma str_ltb_total s t : str_ltb s t = false → str_ltb t s = false → s = t.
Proof.
  revert t. induction s as [|a s IH]; intros [|b t]; simpl; try done.
  case_N_ltb; try done.
  intros. rewrite (N_of_ascii_inj a b) by lia. f_equal. by apply IH.
Qed.

Lemma str_ltb_asym s t : str_ltb s t = true → str_ltb t s = false.
Proof.
  intros H. destruct (str_ltb t s) eqn:H'; [|done].
  by rewrite <- (str_ltb_irrefl s), (str_ltb_trans s t s).
Qed.

Lemma str_eqb_eq s t : str_eqb s t = true ↔ s = t.
Proof. apply bool_decide_eq_true. Qed.

Lemma str_eqb_neq s t : str_eqb s t = false ↔ s ≠ t.
Proof. apply bool_decide_eq_false. Qed.

Lemma str_eqb_refl s : str_eqb s s = true.
Proof. by apply str_eqb_eq. Qed.

Lemma str_empty_true s : str_empty s = true ↔ s = EmptyString.
Proof. by destruct s. Qed.

Lemma str_empty_false s : str_empty s = false ↔ s ≠ EmptyString.
Proof. by destruct s. Qed.

(** ** Lists *)

Lemma elem_of_skip_second {A} (x y a : A) (l : list A) : a ∈ x :: l → a ∈ x :: y :: l.
Proof. rewrite !elem_of_cons. tauto. Qed.

Lemma exists_elem_of_cons {A} (P : A → Prop) (x : A) (l : list A) :
  (∃ y, y ∈ x :: l ∧ P y) ↔ P x ∨ ∃ y, y ∈ l ∧ P y.
Proof.
  split.
  - intros (y & [->|Hy]%elem_of_cons & HP); [by left|right; eauto].
  - intros [HP|(y & Hy & HP)]; [exists x|exists y]; (split; [|done]); rewrite elem_of_cons; auto.
Qed.

Lemma existsb_elem {A} (f : A → bool) (l : list A) :
  existsb f l = true ↔ ∃ x, x ∈ l ∧ f x = true.
Proof.
  rewrite existsb_exists. split; intros (x & Hx & Hf); exists x; split; try done;
    by apply list_elem_of_In.
Qed.

Lemma existsb_perm {A} (f : A → bool) (l l' : list A) : l ≡ₚ l' → existsb f l = existsb f l'.
Proof.
  intros Hp. apply eq_true_iff_eq. rewrite !existsb_elem. by setoid_rewrite Hp.
Qed.

(** *** Boolean filters *)

Lemma elem_of_filterb {A} (f : A → bool) l x : x ∈ List.filter f l ↔ f x = true ∧ x ∈ l.
Proof. rewrite !list_elem_of_In, filter_In. tauto. Qed.

Lemma filter_filter_eq {A} (f g h : A → bool) l :
  (∀ x, f x && g x = h x) → List.filter f (List.filter g l) = List.filter h l.
Proof.
  intros Hfg. induction l as [|x l IH]; simpl; [done|]. rewrite <- (Hfg x).
  destruct (g x); simpl; rewrite IH, ?andb_true_r, ?andb_false_r; done.
Qed.

Lemma filter_false_nil {A} (f : A → bool) l : (∀ x, f x = false) → List.filter f l = [].
Proof. intros Hf. induction l as [|x l IH]; simpl; [done|]. by rewrite Hf. Qed.

Lemma filter_true_id {A} (f : A → bool) l : Forall (λ x, f x = true) l → List.filter f l = l.
Proof. induction 1 as [|x l Hx _ IH]; simpl; [done|]. by rewrite Hx, IH. Qed.

Lemma filter_subset_perm {A} (f : A → bool) (l l' : list A) :
  l ≡ₚ l' → List.filter f l ≡ₚ List.filter f l'.
Proof.
  induction 1 as [|x l l' _ IH|x y l|l1 l2 l3 _ IH1 _ IH2]; simpl; try done.
  - destruct (f x); by rewrite IH.
  - destruct (f x), (f y); try done. apply perm_swap.
  - by rewrite IH1.
Qed.

Lemma filterb_sublist {A} (f : A → bool) (l : list A) : List.filter f l `sublist_of` l.
Proof. induction l as [|x l IH]; simpl; [done|]. destruct (f x); by constructor. Qed.

Lemma filter_split_length {A} (f : A → bool) l :
  length (List.filter f l) + length (List.filter (λ x, negb (f x)) l) = length l.
Proof. induction l as [|x l IH]; simpl; [done|]. destruct (f x); simpl; lia. Qed.

Lemma sublist_sorted {A} (R : A → A → Prop) l k :
  l `sublist_of` k → StronglySorted R k → StronglySorted R l.
Proof.
  induction 1 as [|x l k Hs IH|x l k Hs IH]; [done| |].
  - intros [H1 H2]%StronglySorted_inv. constructor; [by apply IH|].
    rewrite Forall_forall in H2 |- *. intros y Hy. apply H2. by eapply elem_of_sublist.
  - intros [H1 _]%StronglySorted_inv. by apply IH.
Qed.

Lemma filterb_sorted {A} (R : A → A → Prop) (f : A → bool) l :
  StronglySorted R l → StronglySorted R (List.filter f l).
Proof. apply sublist_sorted, filterb_sublist. Qed.

Lemma sorted_snoc {A} (R : A → A → Prop) l x :
  StronglySorted R l → Forall (λ y, R y x) l → StronglySorted R (l ++ [x]).
Proof.
  induction 1 as [|y l Hs IH Hy]; simpl; [by repeat constructor|].
  intros [Hyx Hl]%Forall_cons. constructor; [by apply IH|].
  apply Forall_app. by repeat constructor.
Qed.

Lemma find_spec {A} (f : A → bool) l :
  match List.find f l with
  | Some x => x ∈ l ∧ f x = true
  | None => Forall (λ x, f x = false) l
  end.
Proof.
  induction l as [|x l IH]; simpl; [constructor|].
  destruct (f x) eqn:E; [by split; [left|]|].
  destruct (List.find f l) as [y|]; [destruct IH; by split; [right|]|by constructor].
Qed.

Lemma seq_sorted m n : StronglySorted lt (seq m n).
Proof.
  revert m. induction n as [|n IH]; intros m; simpl; constructor; [apply IH|].
  apply Forall_forall. intros i Hi%elem_of_seq. lia.
Qed.

Lemma strictly_sorted_seq l n :
  StronglySorted lt l → Forall (λ i, i < n) l → (∀ i, i < n → i ∈ l) → l = seq 0 n.
Proof.
  intros Hs Hr Hall. apply (StronglySorted_unique_strong lt); [intros; lia|done|apply seq_sorted|].
  apply NoDup_Permutation.
  - clear Hr Hall. induction Hs as [|x l _ IH Hx]; constructor; [|done].
    rewrite Forall_forall in Hx. intros H%Hx. lia.
  - apply NoDup_seq.
  - intros i. rewrite elem_of_seq, Forall_forall in *. split; [|intros []; apply Hall; lia].
    intros H%Hr. lia.
Qed.

Lemma lookup_seq_id {A} (l k : list A) :
  Some <$> k = (λ i, l !! i) <$> seq 0 (length l) → k = l.
Proof.
  intros H. apply list_eq. intros i.
  pose proof (f_equal length H) as Hl. rewrite !length_fmap, length_seq in Hl.
  destruct (decide (i < length l)) as [Hi|Hi].
  - assert (E : (Some <$> k) !! i = ((λ i, l !! i) <$> seq 0 (length l)) !! i) by by rewrite H.
    rewrite !list_lookup_fmap, lookup_seq_lt in E by done. simpl in E.
    destruct (k !! i); simpl in E; naive_solver.
  - rewrite !lookup_ge_None_2 by lia. done.
Qed.

Lemma sorted_lookup {A} (R : A → A → Prop) l i j x y :
  StronglySorted R l → j < i → l !! j = Some y → l !! i = Some x → R y x.
Proof.
  intros Hs. revert i j. induction Hs as [|a l _ IH Ha]; intros i j Hj Hy Hx; [done|].
  destruct i as [|i]; [lia|]. destruct j as [|j]; simpl in *; [|by apply (IH i j); [lia|..]].
  injection Hy as ->. rewrite Forall_forall in Ha. apply Ha. by eapply list_elem_of_lookup_2.
Qed.

(** ** Transition systems *)

Lemma rtc_preserves {A} (R : relation A) (P : A → Prop) x y :
  (∀ a b, P a → R a b → P b) → P x → rtc R x y → P y.
Proof. intros HR Hx. induction 1 as [|x y z Hxy _ IH]; eauto. Qed.

(** ** Loops

    A Go [for] loop whose number of iterations is only known by a bound: the bound is a
    binary number, so that a large one costs nothing until it is used. *)

Section Loop.
Context {S R : Type} (body : S → S + R).

Fixpoint loop (fuel : positive) (s : S) : S + R :=
  match fuel with
  | xH => body s
  | xO p => match loop p s with inl s' => loop p s' | inr r => inr r end
  | xI p =>
      match body s with
      | inl s' => match loop p s' with inl s'' => loop p s'' | inr r => inr r end
      | inr r => inr r
      end
  end.

Section Measure.
Context (I : S → Prop) (Q : R → Prop) (mu : S → Z).
Hypothesis body_step : ∀ s, I s →
  match body s with inl s' => I s' ∧ (0 ≤ mu s' < mu s)%Z | inr r => Q r end.

Lemma loop_measure fuel s :
  I s → match loop fuel s with inl s' => I s' ∧ (0 ≤ mu s' ≤ mu s - Z.pos fuel)%Z | inr r => Q r end.
Proof.
  revert s. induction fuel as [p IH|p IH|]; intros s Hs; simpl.
  - pose proof (body_step s Hs) as Hb. destruct (body s) as [s1|r]; [|done]. destruct Hb as [H1 Hm1].
    specialize (IH s1 H1) as IH1. destruct (loop p s1) as [s2|r]; [|done]. destruct IH1 as [H2 Hm2].
    specialize (IH s2 H2). destruct (loop p s2) as [s3|r]; [|done]. split; [apply IH|lia].
  - specialize (IH s Hs) as IH1. destruct (loop p s) as [s1|r]; [|done]. destruct IH1 as [H1 Hm1].
    specialize (IH s1 H1). destruct (loop p s1) as [s2|r]; [|done]. split; [apply IH|lia].
  - pose proof (body_step s Hs) as Hb. destruct (body s) as [s1|r]; [|done]. split; [apply Hb|lia].
Qed.

(** Enough fuel for the measure: the loop returns. *)
Lemma loop_returns fuel s : I s → (mu s < Z.pos fuel)%Z → ∃ r, loop fuel s = inr r ∧ Q r.
Proof.
  intros Hs Hm. pose proof (loop_measure fuel s Hs) as Hl.
  destruct (loop fuel s) as [s'|r]; [lia|]. by exists r.
Qed.
End Measure.
End Loop.

(** ** Sorting with a [less] function *)

(** [sort.SliceStable]: for a strict weak order the stable result is unique, so
    insertion from the right is as good as the block-and-merge of the Go
    library. *)
Section SortBy.
Context {A : Type} (less : A → A → bool).

Fixpoint insert_by (x : A) (l : list A) : list A :=
  match l with
  | [] => [x]
  | y :: ys => if less y x then y :: insert_by x ys else x :: y :: ys
  end.

Fixpoint sort_by (l : list A) : list A :=
  match l with [] => [] | x :: xs => insert_by x (sort_by xs) end.

(** [out] is an admissible result of [sort.Slice] on [l]: Go's unstable sort
    promises a permutation in which no later element is less than an earlier. *)
Definition slice_sorted (l out : list A) : Prop :=
  out ≡ₚ l ∧ StronglySorted (λ a b, less b a = false) out.

Lemma insert_by_perm x l : insert_by x l ≡ₚ x :: l.
Proof.
  induction l as [|y l IH]; simpl; [done|].
  destruct (less y x); [|done]. rewrite IH. apply perm_swap.
Qed.

Lemma sort_by_perm l : sort_by l ≡ₚ l.
Proof. induction l as [|x l IH]; simpl; [done|]. by rewrite insert_by_perm, IH. Qed.

Lemma sort_by_length l : length (sort_by l) = length l.
Proof. by rewrite sort_by_perm. Qed.

Lemma elem_of_sort_by x l : x ∈ sort_by l ↔ x ∈ l.
Proof. by rewrite sort_by_perm. Qed.

(** Inserting keeps a list sorted when [less] is transitive and asymmetric on
    the elements at hand. *)
Lemma insert_by_sorted x l :
  (∀ a b, a ∈ x :: l → b ∈ x :: l → less a b = true → less b a = false) →
  (∀ a b c, a ∈ x :: l → b ∈ x :: l → c ∈ x :: l →
     less b a = false → less c b = false → less c a = false) →
  StronglySorted (λ a b, less b a = false) l →
  StronglySorted (λ a b, less b a = false) (insert_by x l).
Proof.
  intros Has Htr. induction l as [|y l IH]; intros Hs; simpl.
  { repeat constructor. }
  apply StronglySorted_inv in Hs as [Hs Hf].
  destruct (less y x) eqn:E.
  - constructor.
    + apply IH; [| |done].
      * intros a b Ha Hb. apply Has; by apply elem_of_skip_second.
      * intros a b c Ha Hb Hc. apply Htr; by apply elem_of_skip_second.
    + rewrite insert_by_perm. constructor; [|done].
      apply Has; [set_solver +|set_solver +|done].
  - constructor; [by constructor|]. constructor; [done|].
    rewrite Forall_forall in Hf |- *. intros z Hz.
    apply (Htr x y z); [set_solver +|set_solver +|rewrite !elem_of_cons; auto|done|by apply Hf].
Qed.

Definition weak_order_on (l : list A) : Prop :=
  (∀ a b, a ∈ l → b ∈ l → less a b = true → less b a = false) ∧
  (∀ a b c, a ∈ l → b ∈ l → c ∈ l →
     less b a = false → less c b = false → less c a = false).

Lemma sort_by_sorted l :
  weak_order_on l → StronglySorted (λ a b, less b a = false) (sort_by l).
Proof.
  induction l as [|x l IH]; intros [Has Htr]; simpl; [constructor|].
  apply insert_by_sorted.
  - intros a b. rewrite !sort_by_perm. apply Has.
  - intros a b c. rewrite !sort_by_perm. apply Htr.
  - apply IH. split.
    + intros a b ? ?. apply Has; by right.
    + intros a b c ? ? ?. apply Htr; by right.
Qed.

Lemma sort_by_slice_sorted l : weak_order_on l → slice_sorted l (sort_by l).
Proof. intros H. split; [apply sort_by_perm | by apply sort_by_sorted]. Qed.

(** When distinct elements are ordered, the order of the input is irrelevant. *)
Lemma sort_by_unique l l' :
  weak_order_on l →
  (∀ a b, a ∈ l → b ∈ l → less a b = false → less b a = false → a = b) →
  l ≡ₚ l' → sort_by l = sort_by l'.
Proof.
  intros Hw Htot Hp.
  assert (Hw' : weak_order_on l').
  { destruct Hw as [Has Htr]. split; intros *; rewrite <- !Hp; [apply Has | apply Htr]. }
  apply (StronglySorted_unique_strong (λ a b, less b a = false)).
  - intros a b Ha Hb ? ?. apply Htot.
    + by apply elem_of_sort_by.
    + rewrite Hp. by apply elem_of_sort_by.
    + done.
    + done.
  - by apply sort_by_sorted.
  - by apply sort_by_sorted.
  - by rewrite !sort_by_perm.
Qed.

(** Then every admissible result of [sort.Slice] is the same. *)
Lemma slice_sorted_unique l out :
  weak_order_on l →
  (∀ a b, a ∈ l → b ∈ l → less a b = false → less b a = false → a = b) →
  slice_sorted l out → out = sort_by l.
Proof.
  intros Hw Htot [Hp Hs]. apply (StronglySorted_unique_strong (λ a b, less b a = false)); [|done| |].
  - intros a b Ha Hb ? ?. apply Htot; [by rewrite <- Hp|by apply elem_of_sort_by|done..].
  - by apply sort_by_sorted.
  - by rewrite sort_by_perm.
Qed.

End SortBy.

(** Sorting commutes with a map that keeps the order. *)
Lemma sort_by_fmap {A B} (f : A → B) (lessA : A → A → bool) (lessB : B → B → bool) (l : list A) :
  (∀ x y, lessA x y = lessB (f x) (f y)) → f <$> sort_by lessA l = sort_by lessB (f <$> l).
Proof.
  intros Hf. assert (Hi : ∀ x k, f <$> insert_by lessA x k = insert_by lessB (f x) (f <$> k)).
  { intros x k. induction k as [|y k IH]; simpl; [done|]. rewrite <- Hf.
    destruct (lessA y x); rewrite !fmap_cons; [by rewrite IH|done]. }
  induction l as [|x l IH]; simpl; [done|]. by rewrite Hi, IH.
Qed.

(** Elements sorted by a derived key inherit the weak order of the key. *)
Lemma weak_order_key {A K} (less : K → K → bool) (f : A → K) (l : list A) :
  weak_order_on less (f <$> l) → weak_order_on (λ a b, less (f a) (f b)) l.
Proof.
  intros [Has Htr]. split.
  - intros a b Ha Hb. apply Has; by apply list_elem_of_fmap_2.
  - intros a b c Ha Hb Hc. apply Htr; by apply list_elem_of_fmap_2.
Qed.

(** Lexicographic comparison: equal first keys defer to [next]. *)
Lemma lex_weak_order {A} (eq1 lt1 next : A → A → bool) (l : list A) :
  weak_order_on lt1 l →
  (∀ a b, a ∈ l → b ∈ l → eq1 a b = true ↔ lt1 a b = false ∧ lt1 b a = false) →
  weak_order_on next l →
  weak_order_on (λ a b, if eq1 a b then next a b else lt1 a b) l.
Proof.
  intros [Has Htr] Heq [Has' Htr']. split.
  - intros a b Ha Hb. pose proof (Heq a b Ha Hb) as E. pose proof (Heq b a Hb Ha) as E'.
    specialize (Has a b Ha Hb). specialize (Has' a b Ha Hb).
    destruct (eq1 a b), (eq1 b a); naive_solver.
  - intros a b c Ha Hb Hc.
    pose proof (Heq b a Hb Ha) as E1. pose proof (Heq c b Hc Hb) as E2.
    pose proof (Heq c a Hc Ha) as E3.
    pose proof (Htr a b c Ha Hb Hc) as T1. pose proof (Htr c b a Hc Hb Ha) as T2.
    pose proof (Htr b a c Hb Ha Hc) as T3. pose proof (Htr a c b Ha Hc Hb) as T4.
    pose proof (Htr c a b Hc Ha Hb) as T5. pose proof (Htr b c a Hb Hc Ha) as T6.
    pose proof (Htr' a b c Ha Hb Hc) as T7.
    destruct (eq1 b a), (eq1 c b), (eq1 c a), (lt1 a b), (lt1 b a), (lt1 b c), (lt1 c b),
      (lt1 a c), (lt1 c a); intuition congruence.
Qed.

Lemma str_ltb_weak_order (l : list string) : weak_order_on str_ltb l.
Proof.
  split.
  - intros a b _ _. apply str_ltb_asym.
  - intros a b c _ _ _ Hba Hcb.
    destruct (str_ltb c a) eqn:Hca; [|done].
    destruct (str_ltb a b) eqn:Hab.
    + rewrite (str_ltb_trans c a b) in Hcb; done.
    + rewrite (str_ltb_total a b) in Hca by done. congruence.
Qed.

Lemma str_key_eqb {A} (f : A → string) (l : list A) a b :
  a ∈ l → b ∈ l →
  str_eqb (f a) (f b) = true ↔ str_ltb (f a) (f b) = false ∧ str_ltb (f b) (f a) = false.
Proof.
  intros _ _. rewrite str_eqb_eq. split.
  - intros ->. by rewrite str_ltb_irrefl.
  - intros [? ?]. by apply str_ltb_total.
Qed.

Lemma str_key_weak_order {A} (f : A → string) (l : list A) :
  weak_order_on (λ a b, str_ltb (f a) (f b)) l.
Proof. apply weak_order_key, str_ltb_weak_order. Qed.

(** ** Tables by primary key *)

Section Keyed.
Context {A : Type} (ident : A → string).

Definition keyed (t : gmap string A) : Prop := map_Forall (λ i r, ident r = i) t.

Lemma keyed_elem_of (f : A → bool) t r :
  keyed t → r ∈ List.filter f (snd <$> map_to_list t) ↔ t !! ident r = Some r ∧ f r = true.
Proof.
  intros Hk. rewrite elem_of_filterb, list_elem_of_fmap. split.
  - intros [Hf ([i x] & -> & Hx%elem_of_map_to_list)]. simpl. by rewrite (Hk i x Hx).
  - intros [Ht Hf]. split; [done|]. exists (ident r, r). split; [done|]. by apply elem_of_map_to_list.
Qed.

Lemma keyed_NoDup (f : A → bool) t : keyed t → NoDup (ident <$> List.filter f (snd <$> map_to_list t)).
Proof.
  intros Hk. apply (sublist_NoDup _ (ident <$> (snd <$> map_to_list t))); [|apply fmap_sublist, filterb_sublist].
  assert (E : ident <$> (snd <$> map_to_list t) = fst <$> map_to_list t).
  { rewrite <- list_fmap_compose. apply list_fmap_ext. intros i [k x] Hx%list_elem_of_lookup_2%elem_of_map_to_list.
    simpl. by apply Hk. }
  rewrite E. apply NoDup_fst_map_to_list.
Qed.

Lemma keyed_insert t r : keyed t → keyed (<[ident r := r]> t).
Proof. intros Hk. by apply map_Forall_insert_2. Qed.

Lemma keyed_alter (f : A → A) i t : (∀ r, ident (f r) = ident r) → keyed t → keyed (alter f i t).
Proof.
  intros Hf Hk j x. destruct (decide (j = i)) as [->|Hne].
  - rewrite lookup_alter_eq, fmap_Some. intros (r & Hr & ->). by rewrite Hf, (Hk _ _ Hr).
  - rewrite lookup_alter_ne by done. apply Hk.
Qed.

Lemma keyed_delete i t : keyed t → keyed (delete i t).
Proof. intros Hk. by apply map_Forall_delete. Qed.

Lemma keyed_fmap (f : A → A) t : (∀ r, ident (f r) = ident r) → keyed t → keyed (f <$> t).
Proof.
  intros Hf Hk j x. rewrite lookup_fmap, fmap_Some. intros (r & Hr & ->). by rewrite Hf, (Hk _ _ Hr).
Qed.
End Keyed.

Create HintDb golib.
#[export] Hint Resolve str_ltb_irrefl str_ltb_asym sort_by_perm wrap64_range : golib.
#[export] Hint Rewrite str_eqb_refl @sort_by_length : golib.
