(* ===== verification/GoFloat.v ===== *)
(** * Go floating point

    [float32] and [float64] as the IEEE-754 formats of [SpecFloat] (precision 24
    and 53, round to nearest even), with one rounding per operation: the
    compiler does not fuse operations on amd64. Scores, similarities and rates
    of the retrieval and pipeline packages are computed with these operations.
    The second half shows that the comparison of non-NaN numbers is a total
    preorder, which is what the sorting of results relies on. *)

From Stdlib Require Export Floats.SpecFloat.
From S2P Require Import Prelude.

Abbreviation float := spec_float.

Definition f32_add : float → float → float := SFadd 24 128.
Definition f32_sub : float → float → float := SFsub 24 128.
Definition f32_mul : float → float → float := SFmul 24 128.
Definition f32_div : float → float → float := SFdiv 24 128.
Definition f64_add : float → float → float := SFadd 53 1024.
Definition f64_sub : float → float → float := SFsub 53 1024.
Definition f64_mul : float → float → float := SFmul 53 1024.
Definition f64_div : float → float → float := SFdiv 53 1024.
Definition f64_sqrt : float → float := SFsqrt 53 1024.

(** Conversion of an integer: [float32(n)] and [float64(n)]. *)
Definition f32_of_Z (z : Z) : float := binary_normalize 24 128 z 0 false.
Definition f64_of_Z (z : Z) : float := binary_normalize 53 1024 z 0 false.

Definition signed_mantissa (s : bool) (m : positive) : Z := if s then Zneg m else Zpos m.

(** [float32(x)] of a [float64] (rounds) and [float64(x)] of a [float32] (exact). *)
Definition f32_of_f64 (x : float) : float :=
  match x with
  | S754_finite s m e => binary_normalize 24 128 (signed_mantissa s m) e s
  | _ => x
  end.
Definition f64_of_f32 (x : float) : float :=
  match x with
  | S754_finite s m e => binary_normalize 53 1024 (signed_mantissa s m) e s
  | _ => x
  end.

(** Untyped decimal constants: the correctly rounded quotient. *)
Definition f32_const (num den : Z) : float := f32_div (f32_of_Z num) (f32_of_Z den).
Definition f64_const (num den : Z) : float := f64_div (f64_of_Z num) (f64_of_Z den).

Definition f_zero : float := S754_zero false.
Definition f_inf : float := S754_infinity false.
Definition f_neg_inf : float := S754_infinity true.

(** Go's [<], [>], [<=], [>=], [==], [!=]: every comparison with NaN is false
    except [!=]. *)
Definition f_ltb : float → float → bool := SFltb.
Definition f_gtb (x y : float) : bool := SFltb y x.
Definition f_leb : float → float → bool := SFleb.
Definition f_geb (x y : float) : bool := SFleb y x.
Definition f_eqb : float → float → bool := SFeqb.
Definition f_neqb (x y : float) : bool := negb (SFeqb x y).

Definition f_is_nan (x : float) : bool := match x with S754_nan => true | _ => false end.

(** ** Order *)

(** A lexicographic key: class of the number, exponent, mantissa. *)
Definition f_key (x : float) : Z * Z * Z :=
  match x with
  | S754_infinity true => (-2, 0, 0)%Z
  | S754_finite true m e => (-1, - e, Zneg m)%Z
  | S754_zero _ => (0, 0, 0)%Z
  | S754_finite false m e => (1, e, Zpos m)%Z
  | S754_infinity false => (2, 0, 0)%Z
  | S754_nan => (3, 0, 0)%Z
  end.

Definition key_lt (k k' : Z * Z * Z) : Prop :=
  let '(a, b, c) := k in let '(a', b', c') := k' in
  (a < a' ∨ a = a' ∧ (b < b' ∨ b = b' ∧ c < c'))%Z.

Lemma pos_compare_cont_eq m n : Pos.compare_cont Eq m n = (m ?= n)%positive.
Proof. done. Qed.

Lemma SFcompare_key x y :
  f_is_nan x = false → f_is_nan y = false →
  match SFcompare x y with
  | Some Lt => key_lt (f_key x) (f_key y)
  | Some Eq => f_key x = f_key y
  | Some Gt => key_lt (f_key y) (f_key x)
  | None => False
  end.
Proof.
  destruct x as [[]|[]| |[] m e], y as [[]|[]| |[] m' e']; simpl; try done; intros _ _;
    try lia; try (repeat split; lia);
    destruct (Z.compare_spec e e') as [->|?|?];
    rewrite ?pos_compare_cont_eq; try (destruct (Pos.compare_spec m m') as [->|?|?]; simpl); lia || done.
Qed.

Lemma f_ltb_key x y :
  f_is_nan x = false → f_is_nan y = false →
  f_ltb x y = true ↔ key_lt (f_key x) (f_key y).
Proof.
  intros Hx Hy. pose proof (SFcompare_key x y Hx Hy) as H.
  unfold f_ltb, SFltb. destruct (SFcompare x y) as [[]|]; try done;
  destruct (f_key x) as [[??]?], (f_key y) as [[??]?]; simpl in *; split; try done;
  try (injection H as -> -> ->); intros ?; exfalso; lia.
Qed.

Lemma f_ltb_false_key x y :
  f_is_nan x = false → f_is_nan y = false →
  f_ltb x y = false ↔ ¬ key_lt (f_key x) (f_key y).
Proof.
  intros Hx Hy. rewrite <- (f_ltb_key x y) by done.
  by destruct (f_ltb x y).
Qed.

Lemma f_eqb_key x y :
  f_is_nan x = false → f_is_nan y = false →
  f_eqb x y = true ↔ f_key x = f_key y.
Proof.
  intros Hx Hy. pose proof (SFcompare_key x y Hx Hy) as H.
  unfold f_eqb, SFeqb. destruct (SFcompare x y) as [[]|]; [done|..|done];
  split; try done; intros E; rewrite E in H; destruct (f_key y) as [[??]?]; simpl in *; lia.
Qed.

Ltac float_keys :=
  repeat match goal with
  | H : f_ltb ?x ?y = true |- _ => rewrite f_ltb_key in H by done
  | H : f_ltb ?x ?y = false |- _ => rewrite f_ltb_false_key in H by done
  | H : f_eqb ?x ?y = true |- _ => rewrite f_eqb_key in H by done
  | |- f_ltb ?x ?y = true => rewrite f_ltb_key by done
  | |- f_ltb ?x ?y = false => rewrite f_ltb_false_key by done
  | |- f_eqb ?x ?y = true => rewrite f_eqb_key by done
  end;
  repeat match goal with
  | x : float, _ : context [f_key ?y] |- _ =>
      constr_eq x y; destruct (f_key x) as [[??]?]
  | x : float |- context [f_key ?y] =>
      constr_eq x y; destruct (f_key x) as [[??]?]
  end; simpl in *.

Section Order.
Context (x y z : float).
Context (Hx : f_is_nan x = false) (Hy : f_is_nan y = false) (Hz : f_is_nan z = false).

Lemma f_ltb_asym : f_ltb x y = true → f_ltb y x = false.
Proof using All. intros. float_keys. lia. Qed.

Lemma f_ltb_trans : f_ltb x y = true → f_ltb y z = true → f_ltb x z = true.
Proof using All. intros. float_keys. lia. Qed.

Lemma f_nltb_trans : f_ltb x y = false → f_ltb y z = false → f_ltb x z = false.
Proof using All. intros. float_keys. lia. Qed.

Lemma f_ltb_eqb_total : f_ltb x y = false → f_ltb y x = false → f_eqb x y = true.
Proof using All. intros. float_keys. f_equal; [f_equal|]; lia. Qed.

Lemma f_eqb_ltb_l : f_eqb x y = true → f_ltb x z = f_ltb y z.
Proof using All.
  rewrite f_eqb_key by done. intros E. apply eq_true_iff_eq.
  by rewrite !f_ltb_key, E by done.
Qed.

Lemma f_eqb_ltb_r : f_eqb x y = true → f_ltb z x = f_ltb z y.
Proof using All.
  rewrite f_eqb_key by done. intros E. apply eq_true_iff_eq.
  by rewrite !f_ltb_key, E by done.
Qed.

Lemma f_eqb_refl : f_eqb x x = true.
Proof using All. by apply f_eqb_key. Qed.

End Order.

(** The strict comparison is false on NaN, so it is a strict order on all values. *)
Lemma f_ltb_not_nan x y : f_ltb x y = true → f_is_nan x = false ∧ f_is_nan y = false.
Proof. by destruct x as [| |[]|[]], y as [| |[]|[]]. Qed.

Lemma f_ltb_lt_trans x y z : f_ltb x y = true → f_ltb y z = true → f_ltb x z = true.
Proof.
  intros H1 H2. destruct (f_ltb_not_nan _ _ H1), (f_ltb_not_nan _ _ H2).
  by apply (f_ltb_trans x y z).
Qed.

Lemma f_ltb_irreflexive x : f_ltb x x = false.
Proof.
  destruct (f_ltb x x) eqn:E; [|done]. destruct (f_ltb_not_nan _ _ E) as [Hn _].
  by rewrite (f_ltb_asym x x x Hn Hn Hn E) in E.
Qed.

(** On numbers the two comparisons are each other's negation. *)
Lemma f_leb_ltb x y :
  f_is_nan x = false → f_is_nan y = false → f_leb x y = negb (f_ltb y x).
Proof.
  intros Hx Hy. apply eq_true_iff_eq. rewrite negb_true_iff, f_ltb_false_key by done.
  pose proof (SFcompare_key x y Hx Hy) as H. unfold f_leb, SFleb.
  destruct (SFcompare x y) as [[]|]; destruct (f_key x) as [[??]?], (f_key y) as [[??]?];
    simpl in *; try done; try (injection H as -> -> ->); split; try done; intros ?; try lia; exfalso; lia.
Qed.

(** ** Conversion to an integer *)

(** [int(x)] of a [float64] on amd64: truncation towards zero, and the smallest
    integer when the value does not fit. *)
Definition int_of_f64 (x : float) : Z :=
  match x with
  | S754_zero _ => 0
  | S754_finite s m e =>
      let a := if (0 <=? e)%Z then (Zpos m * 2 ^ e)%Z else (Zpos m / 2 ^ (- e))%Z in
      let z := if s then (- a)%Z else a in
      if (int64_min <=? z)%Z && (z <=? int64_max)%Z then z else int64_min
  | _ => int64_min
  end.
