(* ===== verification/GoString.v ===== *)
(** * Go strings

    A Go string is a sequence of bytes, here a [string] of 8-bit characters;
    [range] loops and the [unicode] package see it as UTF-8 with invalid bytes
    read as U+FFFD. This file holds the functions of package [strings] that the
    modelled code calls. The large Unicode tables (letters, numbers, case
    mapping outside ASCII) are the members of a class, with their ASCII part
    fixed by its laws. *)

From Stdlib Require Import Ascii.
From Stdlib Require String.
From S2P Require Import Prelude.

Abbreviation bytes := (list ascii).
Definition to_bytes (s : string) : bytes := String.list_ascii_of_string s.
Definition of_bytes (l : bytes) : string := String.string_of_list_ascii l.

Lemma of_to_bytes s : of_bytes (to_bytes s) = s.
Proof. apply String.string_of_list_ascii_of_string. Qed.

Lemma to_of_bytes l : to_bytes (of_bytes l) = l.
Proof. apply String.list_ascii_of_string_of_list_ascii. Qed.

Lemma to_bytes_inj s t : to_bytes s = to_bytes t → s = t.
Proof. intros H. by rewrite <- (of_to_bytes s), <- (of_to_bytes t), H. Qed.

Lemma of_bytes_inj l k : of_bytes l = of_bytes k → l = k.
Proof. intros H. by rewrite <- (to_of_bytes l), <- (to_of_bytes k), H. Qed.

(** Concatenation [s + t]. *)
Definition str_app (s t : string) : string := String.append s t.

Lemma to_bytes_app s t : to_bytes (str_app s t) = to_bytes s ++ to_bytes t.
Proof. induction s as [|a s IH]; [done|]. unfold to_bytes in *. simpl. by rewrite IH. Qed.

(** [len(s)]. *)
Definition str_len (s : string) : nat := String.length s.

Lemma str_len_bytes s : str_len s = length (to_bytes s).
Proof. induction s as [|a s IH]; [done|]. simpl. by rewrite <- IH. Qed.

Lemma str_len_app s t : str_len (str_app s t) = str_len s + str_len t.
Proof. by rewrite !str_len_bytes, to_bytes_app, length_app. Qed.

(** ** Prefixes, replacement, joining *)

Fixpoint strip_prefix (p l : bytes) : option bytes :=
  match p, l with
  | [], _ => Some l
  | a :: p', b :: l' => if Ascii.eqb a b then strip_prefix p' l' else None
  | _ :: _, [] => None
  end.

Definition has_prefix (s p : string) : bool :=
  match strip_prefix (to_bytes p) (to_bytes s) with Some _ => true | None => false end.

Lemma strip_prefix_spec p l r : strip_prefix p l = Some r ↔ l = p ++ r.
Proof.
  revert l. induction p as [|a p IH]; intros l; simpl; [naive_solver|].
  destruct l as [|b l]; simpl; [naive_solver|].
  destruct (Ascii.eqb_spec a b) as [->|Hn]; [rewrite IH|]; naive_solver.
Qed.

Lemma has_prefix_spec s p : has_prefix s p = true ↔ ∃ r, s = str_app p r.
Proof.
  unfold has_prefix. destruct (strip_prefix _ _) as [r|] eqn:E.
  - split; [|done]. intros _. exists (of_bytes r). apply to_bytes_inj.
    rewrite to_bytes_app, to_of_bytes. by apply strip_prefix_spec.
  - split; [done|]. intros [r ->]. rewrite to_bytes_app in E.
    by rewrite (proj2 (strip_prefix_spec _ _ _) eq_refl) in E.
Qed.

(** [strings.ReplaceAll(s, old, new)] for a non-empty [old]: scan from the left;
    [skip] counts the bytes of a match still to be consumed. *)
Fixpoint replace_all_from (old new : bytes) (skip : nat) (l : bytes) : bytes :=
  match l with
  | [] => []
  | c :: l' =>
      match skip with
      | S k => replace_all_from old new k l'
      | O => match strip_prefix old l with
             | Some _ => new ++ replace_all_from old new (pred (length old)) l'
             | None => c :: replace_all_from old new O l'
             end
      end
  end.

Definition replace_all (old new l : bytes) : bytes := replace_all_from old new O l.

(** [strings.Join]. *)
Definition str_join (l : list string) (sep : string) : string :=
  match l with
  | [] => EmptyString
  | s :: l' => fold_left (λ acc t, str_app (str_app acc sep) t) l' s
  end.

(** ** UTF-8 *)

Definition byte_val (c : ascii) : N := N_of_ascii c.
Definition rune_error : N := 65533.
Definition is_cont (b : N) : bool := (128 <=? b)%N && (b <=? 191)%N.

(** The accepted second bytes of a three- or four-byte encoding. *)
Definition second_ok (b0 b1 : N) : bool :=
  (let lo := if (b0 =? 224)%N then 160 else if (b0 =? 240)%N then 144 else 128 in
   let hi := if (b0 =? 237)%N then 159 else if (b0 =? 244)%N then 143 else 191 in
   (lo <=? b1) && (b1 <=? hi))%N.

(** One decoded rune with a flag telling a well-formed encoding from the
    replacement of an invalid byte. *)
Fixpoint decode_runes (l : bytes) : list (N * bool) :=
  match l with
  | [] => []
  | c0 :: l1 =>
    let b0 := byte_val c0 in
    if (b0 <? 128)%N then (b0, true) :: decode_runes l1
    else match l1 with
    | [] => [(rune_error, false)]
    | c1 :: l2 =>
      let b1 := byte_val c1 in
      if (194 <=? b0)%N && (b0 <=? 223)%N && is_cont b1 then
        ((b0 - 192) * 64 + (b1 - 128), true)%N :: decode_runes l2
      else match l2 with
      | [] => (rune_error, false) :: decode_runes l1
      | c2 :: l3 =>
        let b2 := byte_val c2 in
        if (224 <=? b0)%N && (b0 <=? 239)%N && second_ok b0 b1 && is_cont b2 then
          ((b0 - 224) * 4096 + (b1 - 128) * 64 + (b2 - 128), true)%N :: decode_runes l3
        else match l3 with
        | [] => (rune_error, false) :: decode_runes l1
        | c3 :: l4 =>
          let b3 := byte_val c3 in
          if (240 <=? b0)%N && (b0 <=? 244)%N && second_ok b0 b1 && is_cont b2 && is_cont b3
          then ((b0 - 240) * 262144 + (b1 - 128) * 4096 + (b2 - 128) * 64 + (b3 - 128), true)%N
                 :: decode_runes l4
          else (rune_error, false) :: decode_runes l1
        end
      end
    end
  end.

Definition runes (l : bytes) : list N := fst <$> decode_runes l.
Definition utf8_valid (l : bytes) : bool := forallb snd (decode_runes l).

(** [string(r)] for a code point below 0x800, enough for [string(c)] of a byte. *)
Definition encode_byte_rune (c : ascii) : bytes :=
  let r := byte_val c in
  if (r <? 128)%N then [c]
  else [ascii_of_N (192 + r / 64); ascii_of_N (128 + r `mod` 64)]%N.

Lemma runes_ascii_cons c l :
  (byte_val c < 128)%N → runes (c :: l) = byte_val c :: runes l.
Proof. intros H. unfold runes. simpl. by rewrite (proj2 (N.ltb_lt _ _) H). Qed.

Lemma utf8_valid_ascii_cons c l :
  (byte_val c < 128)%N → utf8_valid (c :: l) = utf8_valid l.
Proof. intros H. unfold utf8_valid. simpl. by rewrite (proj2 (N.ltb_lt _ _) H). Qed.

Lemma runes_ascii l : Forall (λ c, byte_val c < 128)%N l → runes l = byte_val <$> l.
Proof.
  induction 1 as [|c l Hc _ IH]; [done|]. by rewrite runes_ascii_cons, IH.
Qed.

Lemma runes_ascii_app l k :
  Forall (λ c, byte_val c < 128)%N l → runes (l ++ k) = (byte_val <$> l) ++ runes k.
Proof.
  induction 1 as [|c l Hc _ IH]; [done|]. simpl. by rewrite runes_ascii_cons, IH.
Qed.

(** ** White space *)

Definition is_ascii_space (c : ascii) : bool :=
  let b := byte_val c in ((9 <=? b) && (b <=? 13) || (b =? 32))%N.

(** Remove one leading white-space rune ([unicode.IsSpace], all its encodings). *)
Definition strip_space (l : list N) : option (list N) :=
  match l with
  | 9%N :: t | 10%N :: t | 11%N :: t | 12%N :: t | 13%N :: t | 32%N :: t => Some t
  | 194%N :: 133%N :: t | 194%N :: 160%N :: t => Some t
  | 225%N :: 154%N :: 128%N :: t => Some t
  | 226%N :: 128%N :: b :: t =>
      if ((128 <=? b) && (b <=? 138) || (b =? 168) || (b =? 169) || (b =? 175))%N
      then Some t else None
  | 226%N :: 129%N :: 159%N :: t => Some t
  | 227%N :: 128%N :: 128%N :: t => Some t
  | _ => None
  end.

(** The same for a trailing rune, on the reversed bytes. *)
Definition strip_space_rev (l : list N) : option (list N) :=
  match l with
  | 9%N :: t | 10%N :: t | 11%N :: t | 12%N :: t | 13%N :: t | 32%N :: t => Some t
  | 133%N :: 194%N :: t | 160%N :: 194%N :: t => Some t
  | 128%N :: 154%N :: 225%N :: t => Some t
  | b :: 128%N :: 226%N :: t =>
      if ((128 <=? b) && (b <=? 138) || (b =? 168) || (b =? 169) || (b =? 175))%N
      then Some t else None
  | 159%N :: 129%N :: 226%N :: t => Some t
  | 128%N :: 128%N :: 227%N :: t => Some t
  | _ => None
  end.

Fixpoint strip_many (f : list N → option (list N)) (fuel : nat) (l : list N) : list N :=
  match fuel with
  | O => l
  | S n => match f l with Some t => strip_many f n t | None => l end
  end.

(** [strings.TrimSpace]; every round removes at least one byte, so the length
    is enough fuel. *)
Definition trim_space (s : string) : string :=
  let l := byte_val <$> to_bytes s in
  let l := strip_many strip_space (length l) l in
  let r := strip_many strip_space_rev (length l) (rev l) in
  of_bytes (ascii_of_N <$> rev r).

(** [strings.TrimRight(s, " ")]. *)
Fixpoint trim_right_spaces (s : string) : string :=
  match s with
  | EmptyString => EmptyString
  | String c s' =>
      match trim_right_spaces s' with
      | EmptyString => if Ascii.eqb c " "%char then EmptyString else String c EmptyString
      | t => String c t
      end
  end.

(** Up to its first separator a string is determined. *)
Lemma split_at (c : ascii) (a1 a2 r1 r2 : bytes) :
  c ∉ a1 → c ∉ a2 → a1 ++ c :: r1 = a2 ++ c :: r2 → a1 = a2 ∧ r1 = r2.
Proof.
  revert a2. induction a1 as [|x a1 IH]; intros [|y a2] H1 H2 E; simplify_eq/=; try done.
  - set_solver.
  - set_solver.
  - destruct (IH a2) as [-> ->]; [set_solver..|done|done].
Qed.

(** ** Unicode tables *)

Class Unicode := {
  u_to_lower : N → N;
  u_is_letter : N → bool;
  u_is_number : N → bool;
  u_to_lower_ascii (r : N) : (r < 128)%N →
    u_to_lower r = (if (65 <=? r) && (r <=? 90) then r + 32 else r)%N;
  u_is_letter_ascii (r : N) : (r < 128)%N →
    u_is_letter r = ((65 <=? r) && (r <=? 90) || (97 <=? r) && (r <=? 122))%N;
  u_is_number_ascii (r : N) : (r < 128)%N →
    u_is_number r = ((48 <=? r) && (r <=? 57))%N
}.

(** The tables cut down to ASCII, for evaluation on ASCII inputs. *)
Definition ascii_tables : Unicode.
Proof.
  refine {| u_to_lower r := (if (65 <=? r) && (r <=? 90) then r + 32 else r)%N;
            u_is_letter r := ((65 <=? r) && (r <=? 90) || (97 <=? r) && (r <=? 122))%N;
            u_is_number r := ((48 <=? r) && (r <=? 57))%N |}; done.
Defined.

(** Code points of [strings.ToLower(s)]. *)
Definition lower_runes `{Unicode} (s : string) : list N := u_to_lower <$> runes (to_bytes s).

(** ** Decimal rendering *)

Fixpoint digits_of (fuel : nat) (n : N) (acc : bytes) : bytes :=
  match fuel with
  | O => acc
  | S k => if (n =? 0)%N then acc
           else digits_of k (n / 10)%N (ascii_of_N (48 + n `mod` 10)%N :: acc)
  end.

(** [fmt.Sprintf] of a non-negative index; twenty digits cover 64 bits. *)
Definition str_of_nat (n : nat) : string :=
  if (n =? 0)%nat then of_bytes ["0"%char] else of_bytes (digits_of 20 (N.of_nat n) []).
