(* ===== verification/Cursor.v ===== *)
(** * Cursor pagination

    Several tables are listed newest id first, a page at a time, with the id of the
    last row of a page as the cursor of the next. [page] is that scheme with the
    probe for one row more than asked; following the cursors visits every row once,
    in order. *)

From S2P Require Import Prelude GoString.

Module Cursor.

Section Cursor.
Context {A : Type} (id : A → string).

Definition by_id_desc (a b : A) : bool := str_ltb (id b) (id a).

Definition distinct_ids (l : list A) : Prop := NoDup (id <$> l).

(** Rows below the cursor; an empty cursor starts at the top. *)
Definition below (cursor : string) (a : A) : bool := str_empty cursor || str_ltb (id a) cursor.

(** The rows of [l] a predicate selects, newest id first. *)
Definition listing (P : A → bool) (l : list A) : list A := sort_by by_id_desc (List.filter P l).

Definition fetch (P : A → bool) (cursor : string) (limit : nat) (l : list A) : list A :=
  take limit (listing (λ a, P a && below cursor a) l).

(** The page shown and the cursor of the next, empty when there is none. *)
Definition page (P : A → bool) (cursor : string) (n : nat) (l : list A) : list A * string :=
  let rows := fetch P cursor (S n) l in
  if (n <? length rows)%nat then
    (take n rows, match rows !! (n - 1)%nat with Some r => id r | None => EmptyString end)
  else (rows, EmptyString).

(** Follow the cursors. *)
Fixpoint pages (fuel : nat) (P : A → bool) (cursor : string) (n : nat) (l : list A) : list (list A) :=
  match fuel with
  | O => []
  | S k =>
      let '(rows, next) := page P cursor n l in
      rows :: (if str_empty next then [] else pages k P next n l)
  end.

(** ** Facts *)

Lemma by_id_desc_weak_order l : weak_order_on by_id_desc l.
Proof.
  destruct (str_key_weak_order id l) as [Has Htr]. unfold by_id_desc. split.
  - intros a b Ha Hb. by apply Has.
  - intros a b c Ha Hb Hc H1 H2. by apply (Htr c b a).
Qed.

Lemma distinct_ids_inj l a b : distinct_ids l → a ∈ l → b ∈ l → id a = id b → a = b.
Proof.
  intros Hd [i Hi]%list_elem_of_lookup [j Hj]%list_elem_of_lookup E.
  assert (i = j) as ->; [|congruence].
  apply (NoDup_lookup _ i j (id a) Hd); rewrite list_lookup_fmap; [by rewrite Hi|by rewrite Hj, E].
Qed.

Lemma distinct_ids_filter f l : distinct_ids l → distinct_ids (List.filter f l).
Proof.
  unfold distinct_ids. induction l as [|a l IH]; simpl; [done|].
  intros [Hn Hd]%NoDup_cons. destruct (f a); [|by apply IH]. rewrite fmap_cons.
  apply NoDup_cons. split; [|by apply IH].
  intros (b & E & [_ Hb]%elem_of_filterb)%list_elem_of_fmap. apply Hn, list_elem_of_fmap. by exists b.
Qed.

Lemma distinct_ids_sorted l : distinct_ids l → distinct_ids (sort_by by_id_desc l).
Proof. unfold distinct_ids. by rewrite sort_by_perm. Qed.

(** Strictly decreasing ids. *)
Lemma listing_sorted P l :
  distinct_ids l → StronglySorted (λ a b, str_ltb (id b) (id a) = true) (listing P l).
Proof.
  intros Hd. pose proof (sort_by_sorted by_id_desc _ (by_id_desc_weak_order (List.filter P l))) as Hs.
  assert (Hdl : distinct_ids (listing P l)) by by apply distinct_ids_sorted, distinct_ids_filter.
  unfold listing in *. induction Hs as [|a l' Hs IH Ha]; constructor.
  - apply IH. unfold distinct_ids in *. rewrite fmap_cons in Hdl. by apply NoDup_cons in Hdl as [_ ?].
  - rewrite Forall_forall in Ha |- *. intros b Hb. specialize (Ha b Hb). unfold by_id_desc in Ha.
    destruct (str_ltb (id b) (id a)) eqn:E; [done|].
    assert (Eq : id a = id b) by by apply str_ltb_total.
    unfold distinct_ids in Hdl. rewrite fmap_cons in Hdl. apply NoDup_cons in Hdl as [Hn _].
    destruct Hn. rewrite Eq. by apply list_elem_of_fmap_2.
Qed.

Lemma listing_perm P l : listing P l ≡ₚ List.filter P l.
Proof. apply sort_by_perm. Qed.

(** Selecting more narrowly filters the listing. *)
Lemma listing_filter P Q l :
  distinct_ids l → listing (λ a, P a && Q a) l = List.filter Q (listing P l).
Proof.
  intros Hd. apply (StronglySorted_unique_strong (λ a b, str_ltb (id b) (id a) = true)).
  - intros a b _ _ H1 H2. by rewrite (str_ltb_asym _ _ H1) in H2.
  - by apply listing_sorted.
  - by apply filterb_sorted, listing_sorted.
  - rewrite listing_perm.
    assert (Hp : List.filter Q (listing P l) ≡ₚ List.filter Q (List.filter P l)).
    { generalize (listing_perm P l). generalize (listing P l), (List.filter P l).
      induction 1; simpl; try (destruct (Q _)); try (destruct (Q _)); eauto using Permutation. }
    rewrite Hp. clear. induction l as [|a l IH]; simpl; [done|].
    destruct (P a); simpl; [|done]. destruct (Q a); simpl; by rewrite IH.
Qed.

(** Below the id of a row are exactly the rows after it. *)
Lemma below_drops_prefix (l1 : list A) x l2 :
  StronglySorted (λ a b, str_ltb (id b) (id a) = true) (l1 ++ x :: l2) →
  List.filter (λ a, str_ltb (id a) (id x)) (l1 ++ x :: l2) = l2.
Proof.
  intros Hs. apply StronglySorted_app in Hs as (H12 & _ & Hs).
  rewrite List.filter_app. simpl. rewrite str_ltb_irrefl.
  assert (E1 : List.filter (λ a, str_ltb (id a) (id x)) l1 = []).
  { clear Hs. induction l1 as [|a l1 IH]; simpl; [done|].
    rewrite (str_ltb_asym (id x) (id a)); [apply IH|apply (H12 a x); by left].
    intros b c Hb Hc. apply H12; [by right|done]. }
  rewrite E1. simpl. apply StronglySorted_inv in Hs as [_ Hf]. by apply filter_true_id.
Qed.

(** After a page that ends at [x], the next page starts right behind [x]. *)
Lemma listing_next P cursor l l1 x l2 :
  distinct_ids l → id x ≠ EmptyString → (cursor = EmptyString ∨ str_ltb (id x) cursor = true) →
  listing (λ a, P a && below cursor a) l = l1 ++ x :: l2 →
  listing (λ a, P a && below (id x) a) l = l2.
Proof.
  intros Hd Hx Hc Hl.
  pose proof (listing_sorted (λ a, P a && below cursor a) l Hd) as Hs. rewrite Hl in Hs.
  rewrite <- (below_drops_prefix l1 x l2 Hs), <- Hl, <- listing_filter by done.
  unfold listing. f_equal. apply List.filter_ext. intros a. unfold below.
  rewrite (proj2 (str_empty_false _) Hx). simpl. destruct (P a); simpl; [|done].
  destruct (str_ltb (id a) (id x)) eqn:E; [|by rewrite andb_false_r].
  rewrite andb_true_r. destruct Hc as [->|Hc]; [done|].
  by rewrite (str_ltb_trans _ _ _ E Hc), orb_true_r.
Qed.

Lemma pages_from P n l fuel cursor :
  distinct_ids l → (∀ a, a ∈ l → id a ≠ EmptyString) → 0 < n →
  length (listing (λ a, P a && below cursor a) l) < fuel →
  concat (pages fuel P cursor n l) = listing (λ a, P a && below cursor a) l.
Proof.
  intros Hd Hne Hn. revert cursor. induction fuel as [|k IH]; intros cursor Hf; [lia|].
  simpl. unfold page, fetch.
  set (full := listing (λ a, P a && below cursor a) l) in *.
  destruct (Nat.ltb_spec n (length (take (S n) full))) as [Hlt|Hge].
  - rewrite length_take in Hlt. rewrite take_take, Nat.min_l by lia.
    assert (Hx : is_Some (full !! (n - 1))) by (apply lookup_lt_is_Some_2; lia).
    destruct Hx as [x Hx]. rewrite lookup_take_lt, Hx by lia.
    assert (Hin : x ∈ full) by by eapply list_elem_of_lookup_2.
    unfold full, listing in Hin. rewrite elem_of_sort_by in Hin. apply elem_of_filterb in Hin as [Hsel Hin].
    rewrite (proj2 (str_empty_false _) (Hne x Hin)). simpl.
    assert (Hsplit : full = take (n - 1) full ++ x :: drop n full).
    { rewrite <- (take_drop_middle full (n - 1) x Hx) at 1. do 3 f_equal. lia. }
    assert (Hnext : listing (λ a, P a && below (id x) a) l = drop n full).
    { eapply listing_next; [done|by apply Hne| |exact Hsplit].
      apply andb_true_iff in Hsel as [_ Hb]. unfold below in Hb.
      destruct cursor; [by left|right]. done. }
    rewrite IH; rewrite Hnext; [apply take_drop|]. rewrite length_drop. lia.
  - rewrite length_take in Hge. simpl. rewrite app_nil_r. apply take_ge. lia.
Qed.

Lemma below_start P l : listing (λ a, P a && below EmptyString a) l = listing P l.
Proof. unfold listing. f_equal. apply List.filter_ext. intros a. unfold below. simpl. apply andb_true_r. Qed.

(** Following the cursors from the start lists every selected row exactly once,
    newest id first. *)
Lemma pages_cover P n l fuel :
  distinct_ids l → (∀ a, a ∈ l → id a ≠ EmptyString) → 0 < n → length l < fuel →
  concat (pages fuel P EmptyString n l) = listing P l ∧ listing P l ≡ₚ List.filter P l.
Proof.
  intros Hd Hne Hn Hf. split; [|apply listing_perm].
  rewrite pages_from, below_start; [done..|]. rewrite below_start, listing_perm.
  eapply Nat.le_lt_trans; [apply sublist_length, filterb_sublist|done].
Qed.

(** The first page has the newest rows, and a short listing is one page. *)
Lemma first_page P n l : (page P EmptyString n l).1 = take n (listing P l).
Proof.
  unfold page, fetch. rewrite below_start, length_take. destruct (Nat.ltb_spec n (S n `min` length (listing P l))) as [Hl|Hl]; simpl.
  - by rewrite take_take, Nat.min_l by lia.
  - rewrite !take_ge by lia. done.
Qed.

Lemma single_page P n l : length (listing P l) ≤ n → page P EmptyString n l = (listing P l, EmptyString).
Proof.
  intros Hn. unfold page, fetch. rewrite below_start, length_take, (proj2 (Nat.ltb_ge _ _)) by lia.
  by rewrite take_ge by lia.
Qed.
End Cursor.
End Cursor.
