(* ===== verification/PrivacyMode.v ===== *)
(** * Privacy modes and the device-first hint

    internal/policy/privacy_mode.go and internal/policy/device_first.go. A mode
    is a Go string, so unknown values are part of the model. The theorems show
    that the mode a request runs under is the strictest of the tenant, channel
    and namespace modes, that unknown values only ever tighten it, and when the
    server recommends the on-device shard. *)

From Stdlib Require Import Ascii.
From S2P Require Import Prelude GoString.

Module PrivacyMode.

Definition PrivacyModeNoAI : string := "no-ai".
Definition PrivacyModeLocalOnly : string := "local-only".
Definition PrivacyModeLocalAPI : string := "local-api".
Definition PrivacyModeHybrid : string := "hybrid".
Definition PrivacyModeRemote : string := "remote".

(** Strictest first. *)
Definition orderedModes : list string :=
  [PrivacyModeNoAI; PrivacyModeLocalOnly; PrivacyModeLocalAPI; PrivacyModeHybrid;
   PrivacyModeRemote].

(** The loop of [rankOf], starting at index [i]; -1 when the mode is not listed. *)
Fixpoint rank_from (i : Z) (modes : list string) (m : string) : Z :=
  match modes with
  | [] => -1
  | om :: rest => if str_eqb om m then i else rank_from (i + 1) rest m
  end.
Definition rankOf (m : string) : Z := rank_from 0 orderedModes m.

Definition EffectiveMode (tenantMode channelMode : string) : string :=
  let tIdx := rankOf tenantMode in
  let cIdx := rankOf channelMode in
  if ((tIdx <? 0) || (cIdx <? 0))%Z then PrivacyModeNoAI
  else if (tIdx <=? cIdx)%Z then tenantMode
  else channelMode.

(** A nil namespace map reads like an empty one. *)
Definition EffectiveModeForNamespace (tenantMode channelMode : string)
    (namespaces : gmap string string) (namespaceID : string) : string :=
  let base := EffectiveMode tenantMode channelMode in
  if str_empty namespaceID then base
  else match namespaces !! namespaceID with
       | None => base
       | Some nsMode => EffectiveMode base nsMode
       end.

Definition AllowsAtLeast (actual required : string) : bool :=
  let a := rankOf actual in
  let r := rankOf required in
  if ((a <? 0) || (r <? 0))%Z then false else (r <=? a)%Z.

Section Parse.
Context `{Unicode}.

(** [strings.ToLower(strings.ReplaceAll(strings.TrimSpace(s), "_", "-"))] compared
    with each known mode; the comparison is on code points. *)
Definition normalisePrivacyMode (s : string) : option string :=
  let canon :=
    lower_runes (of_bytes (replace_all ["_"%char] ["-"%char] (to_bytes (trim_space s)))) in
  list_find (λ m, runes (to_bytes m) = canon) orderedModes ≫= λ p, Some p.2.

Definition ParsePrivacyMode (s : string) : option string := normalisePrivacyMode s.
Definition IsValidPrivacyMode (s : string) : bool :=
  match normalisePrivacyMode s with Some _ => true | None => false end.
End Parse.

(** ** Device-first decision *)

Definition DeviceTierLow : string := "low".
Definition DeviceTierMid : string := "mid".
Definition DeviceTierHigh : string := "high".

Record DeviceFirstInputs := {
  DeviceTier : string;
  AllowLocalRetrieval : bool;
  InPrivacyMode : string;
  InLocalShardVersion : Z
}.

Record DeviceFirstDecision := {
  PreferLocal : bool;
  LocalShardVersion : Z;
  Reason : string
}.

Definition permitsLocalRetrieval (mode : string) : bool :=
  if str_eqb mode PrivacyModeNoAI then false
  else if str_eqb mode PrivacyModeLocalOnly || str_eqb mode PrivacyModeLocalAPI
       || str_eqb mode PrivacyModeHybrid || str_eqb mode PrivacyModeRemote then true
  else false.

Definition Decide (inp : DeviceFirstInputs) : DeviceFirstDecision :=
  let out b reason := {| PreferLocal := b; LocalShardVersion := InLocalShardVersion inp;
                         Reason := reason |} in
  if negb (str_eqb (DeviceTier inp) DeviceTierMid || str_eqb (DeviceTier inp) DeviceTierHigh)
  then out false "device_tier_too_low"
  else if negb (AllowLocalRetrieval inp) then out false "channel_disallowed"
  else if negb (permitsLocalRetrieval (InPrivacyMode inp)) then out false "privacy_blocks_local"
  else if (InLocalShardVersion inp <=? 0)%Z then out false "no_local_shard"
  else out true "prefer_local".

(** ** Lemmas *)

Lemma rank_from_bounds i modes m :
  rank_from i modes m = (-1)%Z ∨ (i ≤ rank_from i modes m < i + Z.of_nat (length modes))%Z.
Proof.
  revert i. induction modes as [|om modes IH]; intros i; cbn [rank_from length]; [lia|].
  destruct (str_eqb om m); [lia|]. specialize (IH (i + 1)%Z). lia.
Qed.

Lemma rank_from_elem i modes m :
  (0 ≤ i)%Z → (0 ≤ rank_from i modes m)%Z ↔ m ∈ modes.
Proof.
  revert i. induction modes as [|om modes IH]; intros i Hi; cbn [rank_from].
  - split; [lia|]. by intros ?%not_elem_of_nil.
  - rewrite elem_of_cons. destruct (str_eqb om m) eqn:E.
    + apply str_eqb_eq in E as ->. split; [by left|lia].
    + apply str_eqb_neq in E. rewrite IH by lia. naive_solver.
Qed.

Lemma rankOf_bounds m : (-1 ≤ rankOf m ≤ 4)%Z.
Proof. unfold rankOf. pose proof (rank_from_bounds 0 orderedModes m). simpl in *. lia. Qed.

Lemma rankOf_known m : (0 ≤ rankOf m)%Z ↔ m ∈ orderedModes.
Proof. by apply rank_from_elem. Qed.

Lemma rankOf_inj m m' : m ∈ orderedModes → rankOf m = rankOf m' → m = m'.
Proof.
  intros Hm E. assert (Hm' : m' ∈ orderedModes).
  { apply rankOf_known. rewrite <- E. by apply rankOf_known. }
  revert Hm Hm' E. unfold orderedModes. rewrite !elem_of_cons, !elem_of_nil.
  intros Hm Hm'. repeat destruct Hm as [->|Hm]; try done; repeat destruct Hm' as [->|Hm'];
    try done; by vm_compute.
Qed.

Lemma rankOf_EffectiveMode t c :
  rankOf (EffectiveMode t c) = Z.max 0 (Z.min (rankOf t) (rankOf c)).
Proof.
  unfold EffectiveMode. pose proof (rankOf_bounds t). pose proof (rankOf_bounds c).
  destruct (Z.ltb_spec (rankOf t) 0), (Z.ltb_spec (rankOf c) 0); cbn [orb];
    try (change (rankOf PrivacyModeNoAI) with 0%Z; lia).
  destruct (Z.leb_spec (rankOf t) (rankOf c)); lia.
Qed.

Lemma AllowsAtLeast_rank a r :
  AllowsAtLeast a r = true ↔ (0 ≤ rankOf r ≤ rankOf a)%Z.
Proof.
  unfold AllowsAtLeast.
  destruct (Z.ltb_spec (rankOf a) 0), (Z.ltb_spec (rankOf r) 0); simpl; rewrite ?Z.leb_le;
    split; intros; try done; lia.
Qed.

Lemma EffectiveMode_known t c : EffectiveMode t c ∈ orderedModes.
Proof. apply rankOf_known. rewrite rankOf_EffectiveMode. lia. Qed.

Lemma rankOf_above_NoAI r : rankOf r ≠ 0%Z ↔ r ≠ PrivacyModeNoAI.
Proof.
  split; [by intros H ->|]. intros Hne E. apply Hne. symmetry. apply rankOf_inj; [|by rewrite E].
  by apply rankOf_known.
Qed.

(** ** Properties *)

(** A request is granted a mode beyond "no-ai" exactly when the tenant, the
    channel and (for a classified chunk) the namespace override all grant it, so
    an override or an unknown value can tighten the effective mode but never
    widen it. *)
Theorem EffectiveModeForNamespace_strictest_wins t c ns n r :
  r ≠ PrivacyModeNoAI →
  AllowsAtLeast (EffectiveModeForNamespace t c ns n) r = true ↔
  AllowsAtLeast t r = true ∧ AllowsAtLeast c r = true ∧
  (∀ m, n ≠ EmptyString → ns !! n = Some m → AllowsAtLeast m r = true).
Proof.
  intros Hr%rankOf_above_NoAI. unfold EffectiveModeForNamespace.
  destruct (str_empty n) eqn:En.
  { apply str_empty_true in En. setoid_rewrite AllowsAtLeast_rank.
    rewrite rankOf_EffectiveMode. split; [intros; split_and!; naive_solver lia | lia]. }
  apply str_empty_false in En. destruct (ns !! n) as [m|] eqn:Em.
  - setoid_rewrite AllowsAtLeast_rank. rewrite !rankOf_EffectiveMode. split.
    + intros. split_and!; try lia. intros m' _ [= ->]. lia.
    + intros (? & ? & Hm). specialize (Hm m En eq_refl). lia.
  - setoid_rewrite AllowsAtLeast_rank. rewrite rankOf_EffectiveMode.
    split; [intros; split_and!; naive_solver lia | lia].
Qed.

Lemma EffectiveModeForNamespace_strictest_wins_witness :
  AllowsAtLeast (EffectiveModeForNamespace "remote" "hybrid" {[ "eng" := "local-api" ]} "eng")
    "local-api" = true.
Proof.
  apply EffectiveModeForNamespace_strictest_wins; [done|]. split_and!; [done..|].
  intros m _ Hm. assert (m = "local-api"%string) as -> by (vm_compute in Hm; congruence). done.
Defined.

(** [EffectiveMode] is commutative, idempotent and associative on every
    string (known or not) once its result is compared by rank, and always
    returns one of the five known modes. *)
Theorem EffectiveMode_meet t c d :
  EffectiveMode t c ∈ orderedModes ∧
  EffectiveMode t c = EffectiveMode c t ∧
  EffectiveMode (EffectiveMode t c) d = EffectiveMode t (EffectiveMode c d) ∧
  (t ∈ orderedModes → EffectiveMode t t = t).
Proof.
  assert (Hc : ∀ a b a' b', Z.max 0 (Z.min (rankOf a) (rankOf b)) =
                            Z.max 0 (Z.min (rankOf a') (rankOf b')) →
                            EffectiveMode a b = EffectiveMode a' b').
  { intros a b a' b' E. apply rankOf_inj; [apply EffectiveMode_known|].
    by rewrite !rankOf_EffectiveMode. }
  split_and!.
  - apply EffectiveMode_known.
  - apply Hc. lia.
  - apply Hc. rewrite !rankOf_EffectiveMode. lia.
  - intros Ht. apply rankOf_inj; [apply EffectiveMode_known|].
    apply rankOf_known in Ht. rewrite rankOf_EffectiveMode. lia.
Qed.

Lemma EffectiveMode_meet_witness : EffectiveMode "hybrid" "hybrid" = "hybrid"%string.
Proof. apply (EffectiveMode_meet "hybrid" "remote" "remote"). apply rankOf_known. by vm_compute. Defined.

(** The device-first hint recommends the local shard exactly for a mid or
    high tier device on an allowing channel under a known mode other than no-ai
    with a shard already generated; the shard version is always echoed. *)
Theorem Decide_prefer_local inp :
  LocalShardVersion (Decide inp) = InLocalShardVersion inp ∧
  (PreferLocal (Decide inp) = true ↔
     (DeviceTier inp = DeviceTierMid ∨ DeviceTier inp = DeviceTierHigh) ∧
     AllowLocalRetrieval inp = true ∧
     InPrivacyMode inp ∈ orderedModes ∧ InPrivacyMode inp ≠ PrivacyModeNoAI ∧
     (0 < InLocalShardVersion inp)%Z) ∧
  (PreferLocal (Decide inp) = true ↔ Reason (Decide inp) = "prefer_local"%string).
Proof.
  assert (Hp : permitsLocalRetrieval (InPrivacyMode inp) = true ↔
    InPrivacyMode inp ∈ orderedModes ∧ InPrivacyMode inp ≠ PrivacyModeNoAI).
  { unfold permitsLocalRetrieval, orderedModes. rewrite !elem_of_cons, elem_of_nil.
    destruct (str_eqb _ PrivacyModeNoAI) eqn:E0.
    - apply str_eqb_eq in E0. naive_solver.
    - apply str_eqb_neq in E0.
      destruct (_ || _) eqn:E; [|split; [done|]].
      + rewrite !orb_true_iff, !str_eqb_eq in E. naive_solver.
      + rewrite !orb_false_iff, !str_eqb_neq in E. naive_solver. }
  unfold Decide.
  destruct (str_eqb _ DeviceTierMid || str_eqb _ DeviceTierHigh) eqn:Et; simpl.
  2:{ rewrite orb_false_iff, !str_eqb_neq in Et. naive_solver. }
  rewrite orb_true_iff, !str_eqb_eq in Et.
  destruct (AllowLocalRetrieval inp); simpl; [|naive_solver].
  destruct (permitsLocalRetrieval _) eqn:Em; simpl.
  2:{ split_and!; [done| |naive_solver]. split; [done|]. naive_solver. }
  destruct (Z.leb_spec (InLocalShardVersion inp) 0); simpl; split_and!; try done.
  - split; [done|]. intros. lia.
  - naive_solver.
Qed.

(** Parsing accepts exactly names that normalise to a known mode: the result
    is always a known mode and every known mode parses to itself. *)
Theorem ParsePrivacyMode_known `{Unicode} s :
  (∀ m, ParsePrivacyMode s = Some m → m ∈ orderedModes) ∧
  (s ∈ orderedModes → ParsePrivacyMode s = Some s).
Proof.
  split.
  - intros m. unfold ParsePrivacyMode, normalisePrivacyMode.
    destruct (list_find _ _) as [[i m']|] eqn:E; simpl; [|done]. intros [= <-].
    apply list_find_Some in E as (E & _ & _). by eapply list_elem_of_lookup_2.
  - intros Hs.
    assert (Hl : ∀ l, Forall (λ r, r < 65 ∨ 90 < r < 128)%N l → u_to_lower <$> l = l).
    { induction 1 as [|r l Hr _ IH]; [done|]. rewrite fmap_cons, IH, u_to_lower_ascii by lia.
      destruct (N.leb_spec 65 r), (N.leb_spec r 90); simpl; lia || done. }
    unfold ParsePrivacyMode, normalisePrivacyMode, lower_runes.
    repeat (apply elem_of_cons in Hs as [->|Hs];
      [rewrite Hl by (vm_compute; repeat constructor; lia); by vm_compute|]).
    by apply not_elem_of_nil in Hs.
Qed.

Lemma ParsePrivacyMode_known_witness :
  @ParsePrivacyMode ascii_tables "hybrid" = Some "hybrid"%string.
Proof. apply (@ParsePrivacyMode_known ascii_tables). apply rankOf_known. by vm_compute. Defined.

Example parse_variants :
  (@ParsePrivacyMode ascii_tables " Local_API ", @ParsePrivacyMode ascii_tables "public") =
  (Some "local-api"%string, None).
Proof. reflexivity. Qed.

End PrivacyMode.
