(* ===== verification/Glob.v ===== *)
(** * Path globs

    [globMatch], [compileGlob] and [globToRegex] of internal/policy/acl.go: the
    byte-level translation of a glob to the text of a regular expression, and
    the part of Go's regexp package that such a text exercises (literals,
    escapes, classes, non-capturing groups, [*] and [?], matching over the code
    points of the target). A class with a backslash or a bracketed name is
    outside the fragment; the result on those is the parameter [regexp_other]. *)

From Stdlib Require Import Ascii.
From S2P Require Import Prelude GoString.

Module Glob.

(** ** Translation to regular-expression text *)

Definition nul : ascii := "000"%char.
Definition tokDoubleSlash : bytes := [nul; "d"%char; nul].
Definition tokDoubleSlashLeading : bytes := [nul; "l"%char; nul].
Definition tokDoubleSlashTrailing : bytes := [nul; "t"%char; nul].
Definition tokDoubleStar : bytes := [nul; "s"%char; nul].

(** What the second pass writes for the sentinel with middle byte [c]. *)
Definition token_text (c : ascii) : bytes :=
  if Ascii.eqb c "d" then to_bytes "/(?:.*/)?"
  else if Ascii.eqb c "l" then to_bytes "(?:.*/)?"
  else if Ascii.eqb c "t" then to_bytes "(?:/.*)?"
  else if Ascii.eqb c "s" then to_bytes ".*"
  else [].

(** [regexp.QuoteMeta]. *)
Definition is_meta (c : ascii) : bool :=
  existsb (Ascii.eqb c) (to_bytes "\.+*?()|[]{}^$").
Definition quote_meta (l : bytes) : bytes :=
  flat_map (λ c, if is_meta c then ["\"%char; c] else [c]) l.

(** [strings.IndexByte]. *)
Fixpoint index_byte (c : ascii) (l : bytes) : option nat :=
  match l with
  | [] => None
  | b :: l' => if Ascii.eqb b c then Some 0 else S <$> index_byte c l'
  end.

(** The middle byte when the text at hand starts with a sentinel token. *)
Definition sentinel (c : ascii) (rest : bytes) : option ascii :=
  match rest with
  | x :: z :: _ => if Ascii.eqb c nul && Ascii.eqb z nul then Some x else None
  | _ => None
  end.

Definition class_text (cls : bytes) : bytes :=
  "["%char :: (match cls with
               | "!"%char :: cls' => "^"%char :: cls'
               | _ => cls
               end) ++ ["]"%char].

(** The byte-by-byte walk; [skip] bytes belong to an element already written. *)
Fixpoint glob_walk (skip : nat) (p : bytes) : bytes :=
  match p with
  | [] => []
  | c :: p' =>
      match skip with
      | S k => glob_walk k p'
      | O =>
          match sentinel c p' with
          | Some x => token_text x ++ glob_walk 2 p'
          | None =>
              if Ascii.eqb c "*" then to_bytes "[^/]*" ++ glob_walk 0 p'
              else if Ascii.eqb c "?" then to_bytes "[^/]" ++ glob_walk 0 p'
              else if Ascii.eqb c "[" then
                match index_byte "]" p' with
                | None => to_bytes "\[" ++ glob_walk 0 p'
                | Some e => class_text (take e p') ++ glob_walk (S e) p'
                end
              else quote_meta (encode_byte_rune c) ++ glob_walk 0 p'
          end
      end
  end.

Definition globToRegex (pattern : bytes) : bytes :=
  let p := replace_all (to_bytes "/**/") tokDoubleSlash pattern in
  let p := replace_all (to_bytes "**/") tokDoubleSlashLeading p in
  let p := replace_all (to_bytes "/**") tokDoubleSlashTrailing p in
  let p := replace_all (to_bytes "**") tokDoubleStar p in
  glob_walk 0 p.

(** ** Regular expressions over code points *)

Inductive regex :=
| RNone
| REmpty
| RLit (r : N)
| RAny
| RClass (neg : bool) (ranges : list (N * N))
| RSeq (a b : regex)
| RAlt (a b : regex)
| RStar (a : regex).

Definition ROpt (a : regex) : regex := RAlt a REmpty.
Definition RSeqs (l : list regex) : regex := foldr RSeq REmpty l.

Definition in_ranges (r : N) (ranges : list (N * N)) : bool :=
  existsb (λ '(lo, hi), (lo <=? r)%N && (r <=? hi)%N) ranges.

(** One code point; [.] excludes the newline, a negated class does not. *)
Definition rune_matches (re : regex) (r : N) : bool :=
  match re with
  | RLit x => (x =? r)%N
  | RAny => negb (r =? 10)%N
  | RClass neg ranges => xorb neg (in_ranges r ranges)
  | _ => false
  end.

Fixpoint nullable (re : regex) : bool :=
  match re with
  | REmpty | RStar _ => true
  | RSeq a b => nullable a && nullable b
  | RAlt a b => nullable a || nullable b
  | _ => false
  end.

Fixpoint deriv (x : N) (re : regex) : regex :=
  match re with
  | RNone | REmpty => RNone
  | RLit _ | RAny | RClass _ _ => if rune_matches re x then REmpty else RNone
  | RSeq a b => if nullable a then RAlt (RSeq (deriv x a) b) (deriv x b) else RSeq (deriv x a) b
  | RAlt a b => RAlt (deriv x a) (deriv x b)
  | RStar a => RSeq (deriv x a) (RStar a)
  end.

(** Whole-text match, as the anchors [^] and [$] demand. *)
Fixpoint regex_match (re : regex) (w : list N) : bool :=
  match w with
  | [] => nullable re
  | x :: w' => regex_match (deriv x re) w'
  end.

Inductive parsed (A : Type) :=
| POk (a : A)
| PSyntax
| PUnsupported.
Arguments POk {A} a.
Arguments PSyntax {A}.
Arguments PUnsupported {A}.

Definition is_alnum (r : N) : bool :=
  ((48 <=? r) && (r <=? 57) || (65 <=? r) && (r <=? 90) || (97 <=? r) && (r <=? 122))%N.

(** The items of a class after the opening bracket and the optional [^]; an
    unescaped closing bracket is literal when it comes first. *)
Fixpoint parse_class (fuel : nat) (first : bool) (l : list N) (acc : list (N * N))
  : parsed (list (N * N) * list N) :=
  match fuel with
  | O => PUnsupported
  | S k =>
    match l with
    | [] => PSyntax
    | lo :: t =>
        if (lo =? 93)%N && negb first then POk (rev acc, t)
        else if (lo =? 92)%N then PUnsupported
        else if (lo =? 91)%N && match t with x :: _ => (x =? 58)%N | [] => false end
        then PUnsupported
        else match t with
             | d :: hi :: t' =>
                 if (d =? 45)%N && negb (hi =? 93)%N then
                   if (hi =? 92)%N then PUnsupported
                   else if (hi <? lo)%N then PSyntax
                   else parse_class k false t' ((lo, hi) :: acc)
                 else parse_class k false t ((lo, lo) :: acc)
             | _ => parse_class k false t ((lo, lo) :: acc)
             end
    end
  end.

(** A sequence of repeated atoms up to the end of the text or an unmatched
    closing parenthesis. *)
Fixpoint parse_seq (fuel : nat) (l : list N) : parsed (list regex * list N) :=
  match fuel with
  | O => PUnsupported
  | S k =>
    let repeat a rest :=
      let continue a rest :=
        match parse_seq k rest with
        | POk (items, rest') => POk (a :: items, rest')
        | PSyntax => PSyntax
        | PUnsupported => PUnsupported
        end in
      match rest with
      | [] => continue a rest
      | x :: rest' =>
          if (x =? 43)%N || (x =? 123)%N || (x =? 124)%N then PUnsupported
          else if (x =? 42)%N then continue (RStar a) rest'
          else if (x =? 63)%N then continue (ROpt a) rest'
          else continue a rest
      end in
    match l with
    | [] => POk ([], [])
    | x :: t =>
        if (x =? 41)%N then POk ([], l)
        else if (x =? 92)%N then
          match t with
          | r :: t' => if (r <? 128)%N && negb (is_alnum r) then repeat (RLit r) t' else PUnsupported
          | [] => PSyntax
          end
        else if (x =? 46)%N then repeat RAny t
        else if (x =? 40)%N then
          match t with
          | q :: c :: t' =>
              if (q =? 63)%N && (c =? 58)%N then
                match parse_seq k t' with
                | POk (items, p :: t'') =>
                    if (p =? 41)%N then repeat (RSeqs items) t'' else PSyntax
                | POk (_, []) => PSyntax
                | PSyntax => PSyntax
                | PUnsupported => PUnsupported
                end
              else PUnsupported
          | _ => PUnsupported
          end
        else if (x =? 91)%N then
          let '(neg, t') := match t with
                            | n :: t' => if (n =? 94)%N then (true, t') else (false, t)
                            | [] => (false, t)
                            end in
          match parse_class (S (length t')) true t' [] with
          | POk (ranges, t'') => repeat (RClass neg ranges) t''
          | PSyntax => PSyntax
          | PUnsupported => PUnsupported
          end
        else if (x =? 42)%N || (x =? 63)%N || (x =? 43)%N then PSyntax
        else if (x =? 124)%N || (x =? 94)%N || (x =? 36)%N then PUnsupported
        else repeat (RLit x) t
    end
  end.

(** [regexp.Compile("^" + text + "$")]. *)
Definition compile_text (text : bytes) : parsed regex :=
  if negb (utf8_valid text) then PSyntax
  else let l := runes text in
       match parse_seq (S (length l)) l with
       | POk (items, []) => POk (RSeqs items)
       | POk (_, _ :: _) => PSyntax
       | PSyntax => PSyntax
       | PUnsupported => PUnsupported
       end.

Section Match.
Context (regexp_other : bytes → bytes → bool).

(** [compileGlob] followed by [MatchString]; the per-process cache is a memo
    table of the same function. *)
Definition globMatch (pattern target : string) : bool :=
  if str_empty pattern then true
  else let text := globToRegex (to_bytes pattern) in
       match compile_text text with
       | POk re => regex_match re (runes (to_bytes target))
       | PSyntax => false
       | PUnsupported => regexp_other text (to_bytes target)
       end.

Example glob_examples :
  map (λ '(p, t), globMatch p t)
    [("drive/secret/**", "drive/secret/2024/q1"); ("drive/secret/**", "drive/secret");
     ("drive/secret/**", "drive/secrets"); ("a/**/b", "a/b"); ("a/**/b", "a/x/y/b");
     ("a/*", "a/b"); ("a/*", "a/b/c"); ("**/x", "x"); ("f[!0-9].go", "fa.go");
     ("f[!0-9].go", "f3.go"); ("f[", "f["); ("a+b(c)", "a+b(c)"); ("[]x", "]x")]%string
  = [true; true; false; true; true; true; false; true; true; false; true; true; false].
Proof. vm_compute. reflexivity. Qed.
End Match.

(** ** Meaning of a regular expression *)

Inductive matches : regex → list N → Prop :=
| M_empty : matches REmpty []
| M_rune re r : rune_matches re r = true → matches re [r]
| M_seq a b u v : matches a u → matches b v → matches (RSeq a b) (u ++ v)
| M_alt_l a b u : matches a u → matches (RAlt a b) u
| M_alt_r a b u : matches b u → matches (RAlt a b) u
| M_star_nil a : matches (RStar a) []
| M_star_cons a u v : matches a u → matches (RStar a) v → matches (RStar a) (u ++ v).
#[local] Hint Constructors matches : glob.

Lemma nullable_spec re : nullable re = true ↔ matches re [].
Proof.
  induction re as [| |x| |neg rs|a IHa b IHb|a IHa b IHb|a IHa]; simpl; split; intros H;
    try done; try (inversion H; subst; done); auto with glob.
  - apply andb_true_iff in H as [Ha Hb].
    apply (M_seq a b [] []); [by apply IHa | by apply IHb].
  - inversion H as [| |? ? u v Hu Hv E1 E2| | | |]; subst.
    apply app_nil in E2 as [-> ->]. by rewrite (proj2 IHa), (proj2 IHb).
  - apply orb_true_iff in H as [H|H]; [apply M_alt_l|apply M_alt_r]; naive_solver.
  - inversion H as [| | |? ? ? Hu|? ? ? Hu| |]; subst;
      apply orb_true_iff; naive_solver.
Qed.

Lemma star_cons_inv a x w :
  matches (RStar a) (x :: w) → ∃ u v, w = u ++ v ∧ matches a (x :: u) ∧ matches (RStar a) v.
Proof.
  remember (RStar a) as re eqn:E. remember (x :: w) as xw eqn:E'. intros H.
  revert x w E'. induction H as [|re r Hr| | | |b|b u v Hu IHu Hv IHv]; intros x w E';
    simplify_eq/=; try done.
  destruct u as [|y u]; simplify_eq/=; [by apply IHv|]. eauto.
Qed.

Definition is_rune_class (re : regex) : bool :=
  match re with RLit _ | RAny | RClass _ _ => true | _ => false end.

Lemma deriv_rune x re w :
  is_rune_class re = true →
  matches (if rune_matches re x then REmpty else RNone) w ↔ matches re (x :: w).
Proof.
  intros Hc. assert (Hre : matches re (x :: w) ↔ w = [] ∧ rune_matches re x = true).
  { split; [|intros [-> ?]; by apply M_rune]. intros H. by inversion H; subst. }
  rewrite Hre. destruct (rune_matches re x); split; intros H; try (inversion H; subst; done).
  destruct H as [-> _]. constructor.
Qed.

Lemma deriv_spec x re w : matches (deriv x re) w ↔ matches re (x :: w).
Proof.
  revert w. induction re as [| |y| |neg rs|a IHa b IHb|a IHa b IHb|a IHa]; intros w; cbn [deriv].
  - split; intros H; by inversion H.
  - split; intros H; by inversion H.
  - by apply deriv_rune.
  - by apply deriv_rune.
  - by apply deriv_rune.
  - assert (Hseq : matches (RSeq (deriv x a) b) w ↔
      ∃ u v, w = u ++ v ∧ matches a (x :: u) ∧ matches b v).
    { split.
      - intros H. inversion H as [|?? Hr|? ? u v Hu Hv| | | |]; subst; [done|].
        exists u, v. by rewrite <- IHa.
      - intros (u & v & -> & Hu & Hv). apply M_seq; [by apply IHa|done]. }
    assert (Hab : matches (RSeq a b) (x :: w) ↔
      (∃ u v, w = u ++ v ∧ matches a (x :: u) ∧ matches b v) ∨
      (matches a [] ∧ matches b (x :: w))).
    { split.
      - intros H. inversion H as [|?? Hr|? ? u v Hu Hv E1 E2| | | |]; subst; [done|].
        destruct u as [|y u]; simplify_eq/=; [by right|left; eauto].
      - intros [(u & v & -> & Hu & Hv)|[Hu Hv]]; [by apply (M_seq a b (x :: u))|].
        by apply (M_seq a b []). }
    rewrite Hab, <- Hseq. destruct (nullable a) eqn:Na.
    + apply nullable_spec in Na. split.
      * intros H. inversion H as [|?? Hr| |? ? ? Hu|? ? ? Hu| |]; subst; [done|by left|].
        right. by rewrite <- IHb.
      * intros [H|[_ H]]; [by apply M_alt_l|]. apply M_alt_r. by apply IHb.
    + split; [by left|]. intros [H|[Hn _]]; [done|]. apply nullable_spec in Hn. congruence.
  - split; intros H; inversion H as [|?? Hr| |? ? ? Hu|? ? ? Hu| |]; subst; try done;
      (apply M_alt_l; by apply IHa) || (apply M_alt_r; by apply IHb).
  - split.
    + intros H. inversion H as [|?? Hr|? ? u v Hu Hv| | | |]; subst; [done|].
      apply (M_star_cons a (x :: u)); [by apply IHa|done].
    + intros (u & v & -> & Hu & Hv)%star_cons_inv. apply M_seq; [by apply IHa|done].
Qed.

(** The derivative-based matcher decides the declarative semantics. *)
Lemma regex_match_spec re w : regex_match re w = true ↔ matches re w.
Proof.
  revert re. induction w as [|x w IH]; intros re; simpl; [apply nullable_spec|].
  by rewrite IH, deriv_spec.
Qed.

Lemma matches_seq a b w : matches (RSeq a b) w ↔ ∃ u v, w = u ++ v ∧ matches a u ∧ matches b v.
Proof.
  split; [|intros (u & v & -> & ? & ?); by apply M_seq].
  intros H. inversion H as [|?? Hr|? ? u v Hu Hv| | | |]; subst; [done|eauto].
Qed.

Lemma matches_empty w : matches REmpty w ↔ w = [].
Proof. split; [|intros ->; constructor]. intros H. by inversion H; subst. Qed.

Lemma matches_lit x w : matches (RLit x) w ↔ w = [x].
Proof.
  split; [|intros ->; apply M_rune; apply N.eqb_refl].
  intros H. inversion H as [|?? Hr| | | | |]; subst. by apply N.eqb_eq in Hr as ->.
Qed.

Lemma matches_opt a w : matches (ROpt a) w ↔ matches a w ∨ w = [].
Proof.
  rewrite <- (matches_empty w). split.
  - intros H. inversion H as [|?? Hr| |? ? ? Hu|? ? ? Hu| |]; subst; [done|by left|by right].
  - intros [H|H]; [by apply M_alt_l|by apply M_alt_r].
Qed.

Lemma matches_lits ls rest w :
  matches (RSeqs ((RLit <$> ls) ++ rest)) w ↔ ∃ v, w = ls ++ v ∧ matches (RSeqs rest) v.
Proof.
  revert w. induction ls as [|x ls IH]; intros w; simpl; [naive_solver|].
  rewrite matches_seq. split.
  - intros (u & v & -> & Hu & Hv). apply IH in Hv as (v' & -> & Hv').
    inversion Hu as [|?? Hr| | | | |]; subst. simpl in Hr. apply N.eqb_eq in Hr as ->. eauto.
  - intros (v & -> & Hv). exists [x], (ls ++ v). split_and!; [done| |apply IH; eauto].
    apply M_rune. simpl. apply N.eqb_refl.
Qed.

Lemma matches_dotstar w : matches (RStar RAny) w ↔ Forall (λ r, r ≠ 10%N) w.
Proof.
  split.
  - remember (RStar RAny) as re eqn:E. induction 1; simplify_eq/=; try done.
    match goal with H : matches RAny _ |- _ => inversion H as [|?? Hr| | | | |]; subst end.
    simpl in Hr. apply negb_true_iff, N.eqb_neq in Hr. simpl. constructor; auto.
  - induction 1 as [|r w Hr _ IH]; [constructor|].
    apply (M_star_cons RAny [r]); [|done]. apply M_rune. simpl.
    by apply negb_true_iff, N.eqb_neq.
Qed.

(** The optional group that stands for a trailing slash and double star. *)
Lemma matches_subtree_tail v :
  matches (RSeqs [ROpt (RSeqs [RLit 47; RStar RAny])]) v ↔
  v = [] ∨ ∃ u, v = 47%N :: u ∧ Forall (λ r, r ≠ 10%N) u.
Proof.
  cbn [RSeqs foldr]. rewrite matches_seq. split.
  - intros (u & v' & -> & Hu & ->%matches_empty). rewrite app_nil_r.
    apply matches_opt in Hu as [Hu|Hu]; [right|by left].
    apply matches_seq in Hu as (u1 & u2 & -> & ->%matches_lit & Hu).
    apply matches_seq in Hu as (u3 & u4 & -> & Hu%matches_dotstar & ->%matches_empty).
    rewrite app_nil_r. eauto.
  - intros Hv. exists v, []. rewrite app_nil_r. split_and!; [done| |constructor].
    apply matches_opt. destruct Hv as [->|(u & -> & Hu)]; [by right|left].
    apply (M_seq _ _ [47%N] u); [by apply matches_lit|].
    rewrite <- (app_nil_r u). apply M_seq; [by apply matches_dotstar|constructor].
Qed.

(** ** Literal text *)

(** A byte with no glob meaning; NUL is excluded because it spells sentinels. *)
Definition plain (c : ascii) : bool :=
  negb (Ascii.eqb c "*" || Ascii.eqb c "?" || Ascii.eqb c "[" || Ascii.eqb c nul).

Definition esc (r : ascii) : list N :=
  if is_meta r then [92%N; byte_val r] else [byte_val r].

(** Case analysis over the 256 bytes, for facts closed by computation. *)
Ltac all_bytes c := destruct c as [[] [] [] [] [] [] [] []].

Lemma runes_quote c l : runes (quote_meta (encode_byte_rune c) ++ l) = esc c ++ runes l.
Proof. all_bytes c; reflexivity. Qed.

Lemma valid_quote c l : utf8_valid (quote_meta (encode_byte_rune c) ++ l) = utf8_valid l.
Proof. all_bytes c; reflexivity. Qed.

Lemma glob_walk_plain p r :
  forallb plain p = true →
  glob_walk 0 (p ++ r) = flat_map (λ c, quote_meta (encode_byte_rune c)) p ++ glob_walk 0 r.
Proof.
  induction p as [|c p IH]; [done|]. simpl. intros [Hc Hp]%andb_true_iff.
  unfold plain in Hc. rewrite !negb_true_iff, !orb_false_iff in Hc. destruct Hc as [[[H1 H2] H3] H4].
  assert (sentinel c (p ++ r) = None) as ->.
  { unfold sentinel. destruct (p ++ r) as [|x [|z ?]]; [done..|]. by rewrite H4. }
  rewrite H1, H2, H3, IH by done. by rewrite <- app_assoc.
Qed.

Lemma runes_literal p l :
  runes (flat_map (λ c, quote_meta (encode_byte_rune c)) p ++ l) = flat_map esc p ++ runes l.
Proof.
  induction p as [|c p IH]; [done|]. simpl. by rewrite <- app_assoc, runes_quote, IH, app_assoc.
Qed.

Lemma valid_literal p l :
  utf8_valid (flat_map (λ c, quote_meta (encode_byte_rune c)) p ++ l) = utf8_valid l.
Proof. induction p as [|c p IH]; [done|]. simpl. by rewrite <- app_assoc, valid_quote. Qed.

(** A code point after which an atom is not repeated. *)
Definition no_repeat (l : list N) : bool :=
  match l with
  | [] => true
  | x :: _ => negb ((x =? 43) || (x =? 123) || (x =? 124) || (x =? 42) || (x =? 63))%N
  end.

Lemma no_repeat_esc c l : no_repeat (esc c ++ l) = true.
Proof. all_bytes c; reflexivity. Qed.

Lemma no_repeat_literal p l : no_repeat l = true → no_repeat (flat_map esc p ++ l) = true.
Proof. destruct p as [|c p]; [done|]. intros _. simpl. rewrite <- app_assoc. apply no_repeat_esc. Qed.

Lemma parse_literal_one c k l :
  no_repeat l = true →
  parse_seq (S k) (esc c ++ l) =
  match parse_seq k l with
  | POk (items, rest) => POk (RLit (byte_val c) :: items, rest)
  | PSyntax => PSyntax
  | PUnsupported => PUnsupported
  end.
Proof.
  intros Hl. assert (Hrep : ∀ a,
    (match l with
     | [] => match parse_seq k l with
             | POk (items, rest') => POk (a :: items, rest')
             | PSyntax => PSyntax | PUnsupported => PUnsupported end
     | x :: rest' =>
       if (x =? 43)%N || (x =? 123)%N || (x =? 124)%N then PUnsupported
       else if (x =? 42)%N then
         match parse_seq k rest' with
         | POk (items, rest') => POk (RStar a :: items, rest')
         | PSyntax => PSyntax | PUnsupported => PUnsupported end
       else if (x =? 63)%N then
         match parse_seq k rest' with
         | POk (items, rest') => POk (ROpt a :: items, rest')
         | PSyntax => PSyntax | PUnsupported => PUnsupported end
       else match parse_seq k l with
            | POk (items, rest') => POk (a :: items, rest')
            | PSyntax => PSyntax | PUnsupported => PUnsupported end
     end) =
    match parse_seq k l with
    | POk (items, rest) => POk (a :: items, rest)
    | PSyntax => PSyntax | PUnsupported => PUnsupported end).
  { intros a. destruct l as [|x l]; [done|]. cbn [no_repeat] in Hl.
    rewrite negb_true_iff, !orb_false_iff in Hl. destruct Hl as [[[[-> ->] ->] ->] ->]. done. }
  rewrite <- (Hrep (RLit (byte_val c))). all_bytes c; reflexivity.
Qed.

Lemma parse_literal p k l :
  no_repeat l = true →
  parse_seq (length p + k) (flat_map esc p ++ l) =
  match parse_seq k l with
  | POk (items, rest) => POk ((RLit <$> (byte_val <$> p)) ++ items, rest)
  | PSyntax => PSyntax
  | PUnsupported => PUnsupported
  end.
Proof.
  intros Hl. induction p as [|c p IH].
  { simpl. by destruct (parse_seq k l) as [[]| |]. }
  change (length (c :: p) + k) with (S (length p + k)). cbn [flat_map].
  rewrite <- app_assoc, parse_literal_one, IH by by apply no_repeat_literal.
  by destruct (parse_seq k l) as [[]| |].
Qed.

Lemma length_esc p : length p ≤ length (flat_map esc p).
Proof.
  induction p as [|c p IH]; simpl; [lia|]. rewrite length_app.
  assert (1 ≤ length (esc c)) by (unfold esc; case_match; simpl; lia). lia.
Qed.

(** Replacing a text that needs a star leaves a plain prefix alone. *)
Lemma replace_plain old new p s :
  (∃ o, old = "*"%char :: o) ∨
  (∃ o, old = "/"%char :: "*"%char :: o) ∧ (∀ s', s ≠ "*"%char :: s') →
  forallb plain p = true →
  replace_all_from old new 0 (p ++ s) = p ++ replace_all_from old new 0 s.
Proof.
  intros Hold. induction p as [|c p IH]; [done|]. simpl. intros [Hc Hp]%andb_true_iff.
  enough (strip_prefix old (c :: p ++ s) = None) as -> by by rewrite IH.
  apply eq_None_not_Some. intros [r Hr%strip_prefix_spec].
  destruct Hold as [[o ->]|[[o ->] Hs]]; simplify_eq/=.
  destruct p as [|d p]; simplify_eq/=; by eapply Hs.
Qed.

Lemma globToRegex_plain p :
  forallb plain p = true →
  globToRegex p = flat_map (λ c, quote_meta (encode_byte_rune c)) p.
Proof.
  intros Hp. unfold globToRegex, replace_all.
  rewrite <- (app_nil_r p) at 1.
  rewrite (replace_plain _ _ p []) by (eauto || (right; split; [by eexists|done])).
  rewrite (replace_plain _ _ p []) by (eauto || (left; by eexists)).
  rewrite (replace_plain _ _ p []) by (eauto || (right; split; [by eexists|done])).
  rewrite (replace_plain _ _ p []) by (eauto || (left; by eexists)).
  by rewrite glob_walk_plain, app_nil_r.
Qed.

Lemma globToRegex_subtree p :
  forallb plain p = true →
  globToRegex (p ++ to_bytes "/**") =
  flat_map (λ c, quote_meta (encode_byte_rune c)) p ++ to_bytes "(?:/.*)?".
Proof.
  intros Hp. unfold globToRegex, replace_all.
  rewrite (replace_plain _ _ p (to_bytes "/**")) by (eauto || (right; split; [by eexists|done])).
  rewrite (replace_plain _ _ p _) by (eauto || (left; by eexists)).
  rewrite (replace_plain _ _ p _) by (eauto || (right; split; [by eexists|done])).
  rewrite (replace_plain _ _ p _) by (eauto || (left; by eexists)).
  by rewrite glob_walk_plain.
Qed.

Lemma compile_literal p l items :
  no_repeat (runes l) = true → utf8_valid l = true →
  (∀ k, parse_seq (S (length (runes l)) + k) (runes l) = POk (items, [])) →
  compile_text (flat_map (λ c, quote_meta (encode_byte_rune c)) p ++ l) =
  POk (RSeqs ((RLit <$> (byte_val <$> p)) ++ items)).
Proof.
  intros Hn Hv Hk. unfold compile_text. rewrite valid_literal, Hv. cbn [negb].
  rewrite runes_literal, length_app.
  pose proof (length_esc p) as Hlen.
  replace (S (length (flat_map esc p) + length (runes l))) with
    (length p + (S (length (runes l)) + (length (flat_map esc p) - length p))) by lia.
  by rewrite parse_literal, Hk by done.
Qed.

(** Code points are single bytes exactly for ASCII text. *)
Lemma second_ok_bounds b0 b1 :
  second_ok b0 b1 = true →
  (128 ≤ b1 ∧ (b0 = 224 → 160 ≤ b1) ∧ (b0 = 240 → 144 ≤ b1))%N.
Proof.
  unfold second_ok. rewrite andb_true_iff, !N.leb_le.
  destruct (N.eqb_spec b0 224), (N.eqb_spec b0 240); lia.
Qed.

Lemma decode_cons c l :
  ∃ r l', decode_runes (c :: l) = r :: decode_runes l' ∧
    ((byte_val c < 128)%N ∧ r.1 = byte_val c ∧ l' = l ∨
     (128 ≤ byte_val c)%N ∧ r.1 = rune_error ∧ l' = l ∨
     (128 ≤ r.1)%N ∧ length l' < length l).
Proof.
  cbn [decode_runes]. destruct (N.ltb_spec (byte_val c) 128); [by eexists _, _; eauto|].
  destruct l as [|c1 l]; [by eexists _, []; split; [done|]; right; left|].
  destruct (_ && _) eqn:E2.
  { eexists _, _; split; [done|]. right; right. rewrite !andb_true_iff, !N.leb_le in E2.
    simpl. lia. }
  destruct l as [|c2 l]; [by eexists _, _; split; [done|]; right; left|].
  destruct (_ && _) eqn:E3 in |- *.
  { eexists _, _; split; [done|]. right; right. rewrite !andb_true_iff, !N.leb_le in E3.
    destruct E3 as [[[? ?] Hs%second_ok_bounds] ?]. simpl. lia. }
  destruct l as [|c3 l]; [by eexists _, _; split; [done|]; right; left|].
  destruct (_ && _) eqn:E4 in |- *.
  { eexists _, _; split; [done|]. right; right. rewrite !andb_true_iff, !N.leb_le in E4.
    destruct E4 as [[[[? ?] Hs%second_ok_bounds] ?] ?]. simpl. lia. }
  by eexists _, _; split; [done|]; right; left.
Qed.

Lemma decode_length l : length (decode_runes l) ≤ length l.
Proof.
  induction l as [l IH] using (induction_ltof1 _ (@length ascii)). unfold ltof in IH.
  destruct l as [|c l]; [simpl; lia|].
  destruct (decode_cons c l) as (r & l' & -> & Hl'). simpl.
  assert (length l' ≤ length l) by (destruct Hl' as [(? & ? & ->)|[(? & ? & ->)|[? ?]]]; lia).
  specialize (IH l' ltac:(simpl; lia)). lia.
Qed.

Lemma byte_val_lt c : (byte_val c < 256)%N.
Proof. by all_bytes c. Qed.

Lemma runes_latin1_ascii l :
  runes l = byte_val <$> l → Forall (λ c, byte_val c < 128)%N l.
Proof.
  unfold runes. induction l as [|c l IH]; [by constructor|].
  destruct (decode_cons c l) as (r & l' & -> & Hl').
  rewrite !fmap_cons. intros [= Hr E].
  destruct Hl' as [(? & ? & ->)|[(? & Hr' & ->)|[? Hlt]]].
  - constructor; auto.
  - pose proof (byte_val_lt c). unfold rune_error in Hr'. lia.
  - pose proof (decode_length l') as Hlen. apply (f_equal length) in E.
    rewrite !length_fmap in E. lia.
Qed.

Lemma runes_ascii_app_inv p l v :
  Forall (λ c, byte_val c < 128)%N p → runes l = (byte_val <$> p) ++ v →
  ∃ k, l = p ++ k ∧ runes k = v.
Proof.
  unfold runes. intros Hp. revert l. induction Hp as [|c p Hc _ IH]; intros l; [by exists l|].
  destruct l as [|d l]; [done|].
  destruct (decode_cons d l) as (r & l' & -> & Hl').
  rewrite !fmap_cons, <- app_comm_cons. intros [= Hr E].
  destruct Hl' as [(? & Hr' & ->)|[(? & Hr' & ->)|[? Hlt]]].
  - destruct (IH l E) as (k & -> & Hk). exists k. split; [|done]. simpl. f_equal.
    apply N_of_ascii_inj. unfold byte_val in *. congruence.
  - unfold rune_error in Hr'. lia.
  - lia.
Qed.

Lemma runes_nil_inv l : runes l = [] → l = [].
Proof.
  destruct l as [|c l]; [done|]. unfold runes.
  by destruct (decode_cons c l) as (r & l' & -> & _).
Qed.

Lemma runes_ascii_inv p l :
  Forall (λ c, byte_val c < 128)%N p → runes l = byte_val <$> p → l = p.
Proof.
  intros Hp E. destruct (runes_ascii_app_inv p l []) as (k & -> & Hk%runes_nil_inv).
  - done.
  - by rewrite app_nil_r.
  - by rewrite Hk, app_nil_r.
Qed.

(** ** Properties *)

Section GlobProperties.
Context (regexp_other : bytes → bytes → bool).

Lemma globMatch_plain_runes p t :
  p ≠ EmptyString → forallb plain (to_bytes p) = true →
  globMatch regexp_other p t = true ↔ runes (to_bytes t) = byte_val <$> to_bytes p.
Proof.
  intros Hne Hp. unfold globMatch. rewrite (proj2 (str_empty_false p) Hne).
  rewrite globToRegex_plain by done.
  rewrite <- (app_nil_r (flat_map _ _)), (compile_literal (to_bytes p) [] []) by done.
  rewrite regex_match_spec, matches_lits. split.
  - intros (v & -> & Hv). inversion Hv; subst; [by rewrite app_nil_r|done].
  - intros ->. exists []. split; [by rewrite app_nil_r|constructor].
Qed.

(** An ASCII glob without metacharacters is a literal: it matches the path it
    spells and no other path, punctuation included. *)
Theorem globMatch_literal p t :
  p ≠ EmptyString → forallb plain (to_bytes p) = true →
  Forall (λ c, byte_val c < 128)%N (to_bytes p) →
  globMatch regexp_other p t = true ↔ t = p.
Proof.
  intros Hne Hp Ha. rewrite globMatch_plain_runes by done. split.
  - intros E. apply to_bytes_inj. by apply runes_ascii_inv.
  - intros ->. by apply runes_ascii.
Qed.

(** For an ASCII literal directory [d], the glob [d/**] covers [d] itself and
    everything below it (any path without a newline), and nothing else: in
    particular no sibling that merely starts with the same text. *)
Theorem globMatch_subtree d t :
  forallb plain (to_bytes d) = true → Forall (λ c, byte_val c < 128)%N (to_bytes d) →
  globMatch regexp_other (str_app d "/**") t = true ↔
  t = d ∨ ∃ rest, t = str_app d (str_app "/" rest) ∧
                  Forall (λ r, r ≠ 10%N) (runes (to_bytes rest)).
Proof.
  intros Hp Ha. unfold globMatch.
  assert (str_empty (str_app d "/**") = false) as -> by by destruct d.
  rewrite to_bytes_app, globToRegex_subtree by done.
  rewrite (compile_literal (to_bytes d) (to_bytes "(?:/.*)?")
             [ROpt (RSeqs [RLit 47; RStar RAny])]) by done.
  rewrite regex_match_spec, matches_lits.
  assert (Htail : ∀ v, matches (RSeqs [ROpt (RSeqs [RLit 47; RStar RAny])]) v ↔
    v = [] ∨ ∃ u, v = 47%N :: u ∧ Forall (λ r, r ≠ 10%N) u).
  { apply matches_subtree_tail. }
  setoid_rewrite Htail. split.
  - intros (v & E & Hv). destruct (runes_ascii_app_inv _ _ v Ha E) as (k & Ek & Hk).
    destruct Hv as [->|(u & -> & Hu)].
    + left. apply to_bytes_inj. by rewrite Ek, (runes_nil_inv k), app_nil_r.
    + right. destruct (runes_ascii_app_inv ["/"%char] k u) as (k' & -> & Hk').
      { by repeat constructor. } { done. }
      exists (of_bytes k'). rewrite to_of_bytes, Hk'. split; [|done].
      apply to_bytes_inj. by rewrite !to_bytes_app, to_of_bytes, Ek.
  - intros [->|(rest & -> & Hrest)].
    + exists []. rewrite app_nil_r. split; [by apply runes_ascii|by left].
    + exists (47%N :: runes (to_bytes rest)). rewrite !to_bytes_app, runes_ascii_app by done.
      split; [done|]. right. eauto.
Qed.

(** A literal glob with a byte outside ASCII does not match even the path it
    spells: each byte is translated as a code point of its own, so a rule
    written for such a path never applies to it. *)
Theorem globMatch_non_ascii_literal p :
  forallb plain (to_bytes p) = true → ¬ Forall (λ c, byte_val c < 128)%N (to_bytes p) →
  globMatch regexp_other p p = false.
Proof.
  intros Hp Hn. assert (p ≠ EmptyString) by (intros ->; apply Hn; constructor).
  destruct (globMatch _ p p) eqn:E; [|done].
  apply globMatch_plain_runes, runes_latin1_ascii in E; done.
Qed.

End GlobProperties.

Lemma globMatch_literal_witness :
  globMatch (λ _ _, false) "docs/a+b.(txt)" "docs/a+b.(txt)" = true.
Proof.
  apply globMatch_literal; [done|by vm_compute| |done].
  vm_compute. repeat constructor.
Defined.

Lemma globMatch_subtree_witness :
  globMatch (λ _ _, false) "drive/secret/**" "drive/secret/q1/plan" = true.
Proof.
  apply (globMatch_subtree (λ _ _, false) "drive/secret").
  - by vm_compute.
  - vm_compute. repeat constructor.
  - right. exists "q1/plan"%string. split; [done|]. vm_compute. repeat constructor; done.
Defined.

Lemma globMatch_non_ascii_literal_witness :
  globMatch (λ _ _, false) "café/menu" "café/menu" = false.
Proof.
  apply globMatch_non_ascii_literal; [by vm_compute|].
  intros H. rewrite Forall_forall in H. specialize (H "195"%char). vm_compute in H.
  discriminate H. set_solver.
Defined.

End Glob.
