(* ===== verification/Acl.v ===== *)
(** * Allow and deny lists

    internal/policy/acl.go (source-level rules), internal/policy/chunk_acl.go
    (per-chunk tags), internal/policy/recipient.go (downstream skills) and the
    [PolicySnapshot] of internal/policy/snapshot.go that carries the three.
    A nil pointer is [None]; actions are Go strings, so values other than
    "allow" and "deny" are part of the model. *)

From S2P Require Import Prelude GoString Glob.

Definition ACLActionAllow : string := "allow".
Definition ACLActionDeny : string := "deny".

Module ACL.

Record ACLRule := {
  SourceID : string;
  NamespaceID : string;
  PathGlob : string;
  Action : string;
  ComputeTier : string
}.

Record AllowDenyList := {
  TenantID : string;
  ChannelID : string;
  Rules : list ACLRule
}.

Record ChunkAttrs := {
  attr_SourceID : string;
  attr_NamespaceID : string;
  attr_Path : string
}.

Record ChunkVerdict := {
  Allowed : bool;
  v_ComputeTier : string;
  MatchedRule : Z
}.

Section Evaluate.
Context (regexp_other : bytes → bytes → bool).

Definition ruleMatches (r : ACLRule) (attrs : ChunkAttrs) : bool :=
  if negb (str_empty (SourceID r)) && negb (str_eqb (SourceID r) (attr_SourceID attrs)) then false
  else if negb (str_empty (NamespaceID r)) && negb (str_eqb (NamespaceID r) (attr_NamespaceID attrs))
  then false
  else if str_empty (PathGlob r) then true
  else Glob.globMatch regexp_other (PathGlob r) (attr_Path attrs).

(** The loop of [Evaluate] from rule index [i] on, with the first allowing rule
    seen so far. *)
Fixpoint eval_loop (attrs : ChunkAttrs) (i : nat) (firstAllow : option (nat * string))
    (rules : list ACLRule) : ChunkVerdict :=
  match rules with
  | [] =>
      match firstAllow with
      | Some (j, tier) => {| Allowed := true; v_ComputeTier := tier; MatchedRule := Z.of_nat j |}
      | None => {| Allowed := true; v_ComputeTier := ""; MatchedRule := -1 |}
      end
  | r :: rest =>
      if negb (ruleMatches r attrs) then eval_loop attrs (S i) firstAllow rest
      else if str_eqb (Action r) ACLActionDeny then
        {| Allowed := false; v_ComputeTier := ""; MatchedRule := Z.of_nat i |}
      else eval_loop attrs (S i)
             (match firstAllow with Some _ => firstAllow | None => Some (i, ComputeTier r) end) rest
  end.

Definition Evaluate (l : option AllowDenyList) (attrs : ChunkAttrs) : ChunkVerdict :=
  match l with
  | None => {| Allowed := true; v_ComputeTier := ""; MatchedRule := -1 |}
  | Some l => eval_loop attrs 0 None (Rules l)
  end.

End Evaluate.

(** The [less] of [SortRules]. *)
Definition rule_less (a b : ACLRule) : bool :=
  if negb (str_eqb (Action a) (Action b)) then str_eqb (Action a) ACLActionDeny
  else if negb (str_eqb (SourceID a) (SourceID b)) then str_ltb (SourceID a) (SourceID b)
  else if negb (str_eqb (NamespaceID a) (NamespaceID b)) then str_ltb (NamespaceID a) (NamespaceID b)
  else str_ltb (PathGlob a) (PathGlob b).

Definition SortRules (rules : list ACLRule) : list ACLRule := sort_by rule_less rules.

(** ** The contract: deny wins, then the first allow, then default allow *)

Section Spec.
Context (regexp_other : bytes → bytes → bool).
Abbreviation hits := (ruleMatches regexp_other).

Definition denies (attrs : ChunkAttrs) (r : ACLRule) : bool :=
  hits r attrs && str_eqb (Action r) ACLActionDeny.
Definition allows (attrs : ChunkAttrs) (r : ACLRule) : bool :=
  hits r attrs && negb (str_eqb (Action r) ACLActionDeny).

Fixpoint first_index (f : ACLRule → bool) (i : nat) (rules : list ACLRule)
  : option (nat * ACLRule) :=
  match rules with
  | [] => None
  | r :: rest => if f r then Some (i, r) else first_index f (S i) rest
  end.

Lemma eval_loop_spec attrs rules i fa :
  eval_loop regexp_other attrs i fa rules =
  match first_index (denies attrs) i rules with
  | Some (j, _) => {| Allowed := false; v_ComputeTier := ""; MatchedRule := Z.of_nat j |}
  | None =>
      match fa with
      | Some (j, tier) => {| Allowed := true; v_ComputeTier := tier; MatchedRule := Z.of_nat j |}
      | None =>
          match first_index (allows attrs) i rules with
          | Some (j, r) =>
              {| Allowed := true; v_ComputeTier := ComputeTier r; MatchedRule := Z.of_nat j |}
          | None => {| Allowed := true; v_ComputeTier := ""; MatchedRule := -1 |}
          end
      end
  end.
Proof.
  revert i fa. induction rules as [|r rules IH]; intros i fa; simpl; [by destruct fa as [[]|]|].
  unfold denies at 1, allows at 1.
  destruct (hits r attrs); simpl; [|apply IH].
  destruct (str_eqb (Action r) ACLActionDeny); simpl; [done|].
  rewrite IH. by destruct (first_index _ _ _) as [[]|], fa as [[]|].
Qed.

Lemma first_index_None f i rules : first_index f i rules = None ↔ existsb f rules = false.
Proof.
  revert i. induction rules as [|r rules IH]; intros i; simpl; [done|].
  destruct (f r); simpl; [done|apply IH].
Qed.

Lemma Allowed_existsb l attrs :
  Allowed (Evaluate regexp_other (Some l) attrs) = negb (existsb (denies attrs) (Rules l)).
Proof.
  simpl. rewrite eval_loop_spec.
  destruct (first_index _ _ _) as [[i r]|] eqn:E.
  - destruct (existsb _ _) eqn:Ex; [done|]. apply first_index_None with (i := 0) in Ex. congruence.
  - apply first_index_None in E. rewrite E. by destruct (first_index _ _ _) as [[]|].
Qed.

End Spec.

(** ** Properties *)

Section Properties.
Context (regexp_other : bytes → bytes → bool).

(** When a rule applies to a chunk. *)
Lemma ruleMatches_iff r attrs :
  ruleMatches regexp_other r attrs = true ↔
  (SourceID r = EmptyString ∨ SourceID r = attr_SourceID attrs) ∧
  (NamespaceID r = EmptyString ∨ NamespaceID r = attr_NamespaceID attrs) ∧
  (PathGlob r = EmptyString ∨ Glob.globMatch regexp_other (PathGlob r) (attr_Path attrs) = true).
Proof.
  unfold ruleMatches. rewrite <- !str_empty_true, <- !str_eqb_eq.
  destruct (str_empty (SourceID r)), (str_eqb (SourceID r) (attr_SourceID attrs)),
    (str_empty (NamespaceID r)), (str_eqb (NamespaceID r) (attr_NamespaceID attrs)),
    (str_empty (PathGlob r)); simpl; naive_solver.
Qed.

Lemma Allowed_perm l l' attrs :
  Rules l ≡ₚ Rules l' →
  Allowed (Evaluate regexp_other (Some l) attrs) = Allowed (Evaluate regexp_other (Some l') attrs).
Proof. intros Hp. rewrite !Allowed_existsb. f_equal. by apply existsb_perm. Qed.


End Properties.


(** The rest of the verdict does depend on the order: two allow rules that match
    the same chunk hand out the compute tier of whichever comes first. *)
Example tier_depends_on_order :
  let r tier := {| SourceID := ""; NamespaceID := ""; PathGlob := ""; Action := "allow";
                   ComputeTier := tier |} in
  let mk rules := Some {| TenantID := "t"; ChannelID := "c"; Rules := rules |} in
  let attrs := {| attr_SourceID := "s"; attr_NamespaceID := ""; attr_Path := "p" |} in
  v_ComputeTier (Evaluate (λ _ _, false) (mk [r "light"; r "heavy"]%string) attrs) = "light"%string ∧
  v_ComputeTier (Evaluate (λ _ _, false) (mk [r "heavy"; r "light"]%string) attrs) = "heavy"%string.
Proof. by vm_compute. Qed.

(** A deny rule whose glob does not translate to a valid expression never fires,
    so the chunk is allowed. *)
Example invalid_deny_glob_allows :
  let r := {| SourceID := ""; NamespaceID := ""; PathGlob := "secret/[]"; Action := "deny";
              ComputeTier := "" |} in
  let attrs := {| attr_SourceID := "s"; attr_NamespaceID := ""; attr_Path := "secret/[]" |} in
  Allowed (Evaluate (λ _ _, false)
    (Some {| TenantID := "t"; ChannelID := "c"; Rules := [r] |}) attrs) = true.
Proof. by vm_compute. Qed.

End ACL.

Module Recipient.

Record RecipientRule := { SkillID : string; Action : string }.

Record RecipientPolicy := {
  TenantID : string;
  ChannelID : string;
  Rules : list RecipientRule;
  DefaultAllow : bool
}.

Fixpoint allowed_loop (skillID : string) (matchedAllow dflt : bool) (rules : list RecipientRule)
  : bool :=
  match rules with
  | [] => if matchedAllow then true else dflt
  | r :: rest =>
      if negb (str_empty (SkillID r)) && negb (str_eqb (SkillID r) skillID)
      then allowed_loop skillID matchedAllow dflt rest
      else if str_eqb (Action r) ACLActionDeny then false
      else if str_eqb (Action r) ACLActionAllow then allowed_loop skillID true dflt rest
      else allowed_loop skillID matchedAllow dflt rest
  end.

Definition IsAllowed (p : option RecipientPolicy) (skillID : string) : bool :=
  match p with
  | None => true
  | Some p => allowed_loop skillID false (DefaultAllow p) (Rules p)
  end.

Definition AllowedSkills (p : option RecipientPolicy) (skillIDs : list string) : list string :=
  List.filter (IsAllowed p) skillIDs.

Definition covers (skillID : string) (r : RecipientRule) : bool :=
  str_empty (SkillID r) || str_eqb (SkillID r) skillID.
Definition fires (skillID action : string) (r : RecipientRule) : bool :=
  covers skillID r && str_eqb (Action r) action.

Lemma allowed_loop_spec skillID ma dflt rules :
  allowed_loop skillID ma dflt rules =
  negb (existsb (fires skillID ACLActionDeny) rules) &&
  (ma || existsb (fires skillID ACLActionAllow) rules || dflt).
Proof.
  revert ma. induction rules as [|r rules IH]; intros ma; simpl; [by destruct ma|].
  unfold fires at 1 3, covers.
  destruct (str_empty (SkillID r)), (str_eqb (SkillID r) skillID); simpl; try apply IH;
    (destruct (str_eqb (Action r) ACLActionDeny) eqn:Ed; [done|];
     destruct (str_eqb (Action r) ACLActionAllow) eqn:Ea; rewrite IH; simpl;
     [by rewrite orb_true_r|done]).
Qed.

(** A skill receives a channel's results exactly when no deny rule covers it
    and either an allow rule covers it or the channel is open by default; the
    order of the rules is irrelevant, and a missing policy admits everyone. *)
Theorem IsAllowed_contract p skillID :
  IsAllowed None skillID = true ∧
  (IsAllowed (Some p) skillID = true ↔
     (∀ r, r ∈ Rules p → covers skillID r = true → Action r ≠ ACLActionDeny) ∧
     ((∃ r, r ∈ Rules p ∧ covers skillID r = true ∧ Action r = ACLActionAllow) ∨
      DefaultAllow p = true)) ∧
  (∀ rules', rules' ≡ₚ Rules p →
     IsAllowed (Some {| TenantID := TenantID p; ChannelID := ChannelID p; Rules := rules';
                        DefaultAllow := DefaultAllow p |}) skillID
     = IsAllowed (Some p) skillID).
Proof.
  split; [done|]. split.
  - simpl. rewrite allowed_loop_spec. cbn [orb]. rewrite andb_true_iff, negb_true_iff, orb_true_iff.
    rewrite existsb_elem, <- not_true_iff_false, existsb_elem. unfold fires.
    setoid_rewrite andb_true_iff. setoid_rewrite str_eqb_eq. naive_solver.
  - intros rules' Hp. simpl. rewrite !allowed_loop_spec.
    by rewrite (existsb_perm _ _ _ Hp), (existsb_perm _ _ _ Hp).
Qed.

End Recipient.

Module ChunkACL.

Inductive Decision := DecisionAllow | DecisionDeny.

#[global] Instance Decision_eq_dec : EqDecision Decision.
Proof. solve_decision. Defined.

Record Tag := { ChunkID : string; TagPrefix : string; TagDecision : Decision }.
Record Attrs := { a_ChunkID : string; a_Tags : list string }.

(** The container is its rule slice; the mutex makes each method atomic. *)
Definition NewChunkACL (rules : list Tag) : list Tag := rules.
Definition Add (c : list Tag) (rules : list Tag) : list Tag := c ++ rules.
Definition Len (c : option (list Tag)) : nat := match c with None => 0 | Some c => length c end.
Definition Clone (c : option (list Tag)) : option (list Tag) := c.

Definition chunkRuleMatches (r : Tag) (attrs : Attrs) : bool :=
  if negb (str_empty (ChunkID r)) && str_eqb (ChunkID r) (a_ChunkID attrs) then true
  else if str_empty (TagPrefix r) then false
  else existsb (λ t, has_prefix t (TagPrefix r)) (a_Tags attrs).

Fixpoint eval_loop (attrs : Attrs) (rows : list Tag) : Decision :=
  match rows with
  | [] => DecisionAllow
  | r :: rest =>
      if negb (chunkRuleMatches r attrs) then eval_loop attrs rest
      else match TagDecision r with
           | DecisionDeny => DecisionDeny
           | DecisionAllow => eval_loop attrs rest
           end
  end.

Definition Evaluate (c : option (list Tag)) (attrs : Attrs) : Decision :=
  match c with None => DecisionAllow | Some rows => eval_loop attrs rows end.

Lemma eval_loop_deny attrs rows :
  eval_loop attrs rows = DecisionDeny ↔
  ∃ r, r ∈ rows ∧ chunkRuleMatches r attrs = true ∧ TagDecision r = DecisionDeny.
Proof.
  induction rows as [|r rows IH]; simpl.
  - split; [done|]. intros (r & ?%not_elem_of_nil & _). done.
  - rewrite exists_elem_of_cons, <- IH.
    destruct (chunkRuleMatches r attrs); [destruct (TagDecision r)|]; simpl; intuition congruence.
Qed.

(** The chunk-level gate denies a chunk exactly when a deny tag targets its
    id or a prefix of one of its tags; adding rules can only deny more chunks,
    and allow tags never change a decision. *)
Theorem Evaluate_deny_only rows extra attrs :
  (Evaluate (Some rows) attrs = DecisionDeny ↔
     ∃ r, r ∈ rows ∧ chunkRuleMatches r attrs = true ∧ TagDecision r = DecisionDeny) ∧
  (Evaluate (Some rows) attrs = DecisionDeny →
     Evaluate (Some (Add rows extra)) attrs = DecisionDeny) ∧
  (Forall (λ r, TagDecision r = DecisionAllow) extra →
     Evaluate (Some (Add rows extra)) attrs = Evaluate (Some rows) attrs).
Proof.
  split; [apply eval_loop_deny|]. split.
  - simpl. rewrite !eval_loop_deny. intros (r & Hr & Hm). exists r. split; [|done].
    apply elem_of_app. by left.
  - intros Ha. rewrite Forall_forall in Ha.
    assert (Evaluate (Some (Add rows extra)) attrs = DecisionDeny ↔
            Evaluate (Some rows) attrs = DecisionDeny) as Hiff.
    { simpl. rewrite !eval_loop_deny. unfold Add. setoid_rewrite elem_of_app.
      split; [|naive_solver]. intros (r & [Hr|Hr] & Hm & Hd); [eauto|].
      specialize (Ha r Hr). congruence. }
    destruct (Evaluate (Some (Add rows extra)) attrs), (Evaluate (Some rows) attrs);
      naive_solver.
Qed.

Lemma Evaluate_deny_only_witness :
  let d := {| ChunkID := "c1"; TagPrefix := ""; TagDecision := DecisionDeny |} in
  let a := {| ChunkID := ""; TagPrefix := "team."; TagDecision := DecisionAllow |} in
  let attrs := {| a_ChunkID := "c1"; a_Tags := ["team.eng"]%string |} in
  Evaluate (Some (Add [d] [a])) attrs = DecisionDeny.
Proof.
  intros d a attrs.
  assert (Evaluate (Some (Add [d] [a])) attrs = Evaluate (Some [d]) attrs) as ->.
  { apply (Evaluate_deny_only [d] [a] attrs). by repeat constructor. }
  reflexivity.
Defined.

End ChunkACL.

Module Snapshot.

(** A nil and an empty namespace map are read alike, so both are [∅]. *)
Record PolicySnapshot := {
  EffectiveMode : string;
  ACL : option ACL.AllowDenyList;
  ChunkACL : option (list ChunkACL.Tag);
  Recipient : option Recipient.RecipientPolicy;
  DenyLocalRetrieval : bool;
  NamespacePolicies : gmap string string
}.

Definition empty : PolicySnapshot :=
  {| EffectiveMode := ""; ACL := None; ChunkACL := None; Recipient := None;
     DenyLocalRetrieval := false; NamespacePolicies := ∅ |}.

End Snapshot.
