(* ===== verification/Conflict.v ===== *)
(** * Policy conflict detection

    internal/policy/simulator_conflict.go: the checks a draft snapshot must pass
    before promotion. The theorems characterise the snapshots that are blocked
    and relate a clean report to what the gates will actually decide.
    [strconv.Quote], used only in descriptions, is a parameter. *)

From S2P Require Import Prelude GoString PrivacyMode Glob Acl.
Import Snapshot.

Module Conflict.

Definition ConflictSeverityError : string := "error".
Definition ConflictSeverityWarning : string := "warning".
Definition ConflictTypePrivacyModeOverride : string := "privacy_mode_override".
Definition ConflictTypeACLOverlap : string := "acl_overlap".
Definition ConflictTypeRecipientContradiction : string := "recipient_contradiction".

Record PolicyConflict := {
  Severity : string;
  CType : string;
  Description : string;
  RuleA : string;
  RuleB : string
}.

Infix "+++" := str_app (right associativity, at level 60).

Definition formatACLRef (idx : nat) (r : ACL.ACLRule) : string :=
  let glob := if str_empty (ACL.PathGlob r) then "*"%string else ACL.PathGlob r in
  "acl[" +++ str_of_nat idx +++ "]:" +++ ACL.Action r +++ "/" +++ glob.

Definition formatRecipientRef (idx : nat) (r : Recipient.RecipientRule) : string :=
  let skill := if str_empty (Recipient.SkillID r) then "*"%string else Recipient.SkillID r in
  "recipient[" +++ str_of_nat idx +++ "]:" +++ Recipient.Action r +++ ":" +++ skill.

Definition aclScopesOverlap (a b : ACL.ACLRule) : bool :=
  if negb (str_empty (ACL.SourceID a)) && negb (str_empty (ACL.SourceID b))
     && negb (str_eqb (ACL.SourceID a) (ACL.SourceID b)) then false
  else if negb (str_empty (ACL.NamespaceID a)) && negb (str_empty (ACL.NamespaceID b))
     && negb (str_eqb (ACL.NamespaceID a) (ACL.NamespaceID b)) then false
  else true.

Definition identicalScope (a b : ACL.ACLRule) : bool :=
  str_eqb (ACL.SourceID a) (ACL.SourceID b) && str_eqb (ACL.NamespaceID a) (ACL.NamespaceID b)
  && str_eqb (ACL.PathGlob a) (ACL.PathGlob b).

Definition detectPrivacyModeOverride (draft : PolicySnapshot) : list PolicyConflict :=
  if negb (str_eqb (EffectiveMode draft) PrivacyMode.PrivacyModeNoAI) then []
  else
    let hasACL := match ACL draft with Some l => negb (length (ACL.Rules l) =? 0) | None => false end in
    let hasRecipient :=
      match Recipient draft with
      | Some p => negb (length (Recipient.Rules p) =? 0) | None => false end in
    if negb hasACL && negb hasRecipient then []
    else [{| Severity := ConflictSeverityWarning;
             CType := ConflictTypePrivacyModeOverride;
             Description := "effective mode 'no-ai' will short-circuit retrieval before ACL and recipient rules apply; the rules below are dead config";
             RuleA := "tenant:no-ai"; RuleB := "" |}].

Section Detect.
Context (regexp_other : bytes → bytes → bool) (quote : string → string).

Definition nestedGlob (outer inner : string) : bool :=
  if str_empty outer || str_empty inner then false
  else if str_eqb outer inner then false
  else Glob.globMatch regexp_other outer inner || Glob.globMatch regexp_other inner outer.

(** The body of the inner loop for the pair of rules at indices [i] and [j]. *)
Definition pair_conflicts (i : nat) (a : ACL.ACLRule) (j : nat) (b : ACL.ACLRule)
  : list PolicyConflict :=
  if negb (aclScopesOverlap a b) then []
  else if identicalScope a b && negb (str_eqb (ACL.Action a) (ACL.Action b)) then
    [{| Severity := ConflictSeverityError; CType := ConflictTypeACLOverlap;
        Description := "ACL rules at index " +++ str_of_nat i +++ " and " +++ str_of_nat j
          +++ " cover identical attributes with opposing actions; deny-over-allow makes the allow dead";
        RuleA := formatACLRef i a; RuleB := formatACLRef j b |}]
  else if nestedGlob (ACL.PathGlob a) (ACL.PathGlob b)
          && negb (str_eqb (ACL.Action a) (ACL.Action b)) then
    [{| Severity := ConflictSeverityWarning; CType := ConflictTypeACLOverlap;
        Description := "ACL rules at index " +++ str_of_nat i +++ " and " +++ str_of_nat j
          +++ " have nested path globs with opposing actions; the inner rule may be partially shadowed";
        RuleA := formatACLRef i a; RuleB := formatACLRef j b |}]
  else [].

Fixpoint inner_loop (i : nat) (a : ACL.ACLRule) (j : nat) (rest : list ACL.ACLRule)
  : list PolicyConflict :=
  match rest with
  | [] => []
  | b :: rest' => pair_conflicts i a j b ++ inner_loop i a (S j) rest'
  end.

Fixpoint outer_loop (i : nat) (rules : list ACL.ACLRule) : list PolicyConflict :=
  match rules with
  | [] => []
  | a :: rest => inner_loop i a (S i) rest ++ outer_loop (S i) rest
  end.

Definition detectACLConflicts (draft : PolicySnapshot) : list PolicyConflict :=
  match ACL draft with
  | None => []
  | Some l => if length (ACL.Rules l) <? 2 then [] else outer_loop 0 (ACL.Rules l)
  end.

(** Index of the first catch-all rule with the given action. *)
Fixpoint catch_all (action : string) (i : nat) (rules : list Recipient.RecipientRule)
  : option (nat * Recipient.RecipientRule) :=
  match rules with
  | [] => None
  | r :: rest =>
      if str_empty (Recipient.SkillID r) && str_eqb (Recipient.Action r) action then Some (i, r)
      else catch_all action (S i) rest
  end.

Definition recipient_conflict (caAllow caDeny : option (nat * Recipient.RecipientRule))
    (i : nat) (r : Recipient.RecipientRule) : list PolicyConflict :=
  if str_empty (Recipient.SkillID r) then []
  else if str_eqb (Recipient.Action r) ACLActionAllow then
    match caDeny with
    | None => []
    | Some (d, rd) =>
        [{| Severity := ConflictSeverityError; CType := ConflictTypeRecipientContradiction;
            Description := "recipient rule at index " +++ str_of_nat i +++ " explicitly allows skill "
              +++ quote (Recipient.SkillID r) +++ " but a catch-all deny at index " +++ str_of_nat d
              +++ " denies it first (deny-over-allow)";
            RuleA := formatRecipientRef i r; RuleB := formatRecipientRef d rd |}]
    end
  else if str_eqb (Recipient.Action r) ACLActionDeny then
    match caAllow with
    | None => []
    | Some (d, rd) =>
        [{| Severity := ConflictSeverityWarning; CType := ConflictTypeRecipientContradiction;
            Description := "recipient rule at index " +++ str_of_nat i +++ " denies skill "
              +++ quote (Recipient.SkillID r) +++ " while a catch-all allow at index " +++ str_of_nat d
              +++ " covers everyone; deny-over-allow handles the override but the allow rule is partially shadowed";
            RuleA := formatRecipientRef i r; RuleB := formatRecipientRef d rd |}]
    end
  else [].

Fixpoint recipient_loop (caAllow caDeny : option (nat * Recipient.RecipientRule)) (i : nat)
    (rules : list Recipient.RecipientRule) : list PolicyConflict :=
  match rules with
  | [] => []
  | r :: rest => recipient_conflict caAllow caDeny i r ++ recipient_loop caAllow caDeny (S i) rest
  end.

Definition detectRecipientConflicts (draft : PolicySnapshot) : list PolicyConflict :=
  match Recipient draft with
  | None => []
  | Some p =>
      let rules := Recipient.Rules p in
      if length rules <? 2 then []
      else recipient_loop (catch_all ACLActionAllow 0 rules) (catch_all ACLActionDeny 0 rules) 0 rules
  end.

Definition conflict_less (a b : PolicyConflict) : bool :=
  if negb (str_eqb (Severity a) (Severity b)) then str_eqb (Severity a) ConflictSeverityError
  else if negb (str_eqb (CType a) (CType b)) then str_ltb (CType a) (CType b)
  else str_ltb (Description a) (Description b).

Definition DetectConflicts (draft : PolicySnapshot) : list PolicyConflict :=
  sort_by conflict_less
    (detectPrivacyModeOverride draft ++ detectACLConflicts draft ++ detectRecipientConflicts draft).

Definition is_error (c : PolicyConflict) : bool := str_eqb (Severity c) ConflictSeverityError.
Definition HasErrors (conflicts : list PolicyConflict) : bool := existsb is_error conflicts.

(** ** Which snapshots are blocked *)

Definition opposing (a b : ACL.ACLRule) : Prop :=
  ACL.SourceID a = ACL.SourceID b ∧ ACL.NamespaceID a = ACL.NamespaceID b ∧
  ACL.PathGlob a = ACL.PathGlob b ∧ ACL.Action a ≠ ACL.Action b.

Lemma identicalScope_opposing a b :
  identicalScope a b && negb (str_eqb (ACL.Action a) (ACL.Action b)) = true ↔ opposing a b.
Proof.
  unfold identicalScope, opposing.
  rewrite !andb_true_iff, negb_true_iff, !str_eqb_eq, str_eqb_neq. tauto.
Qed.

Lemma opposing_overlap a b : opposing a b → aclScopesOverlap a b = true.
Proof.
  intros (E1 & E2 & _). unfold aclScopesOverlap. rewrite E1, E2, !str_eqb_refl.
  by rewrite !andb_false_r.
Qed.

Lemma pair_conflicts_error i a j b : HasErrors (pair_conflicts i a j b) = true ↔ opposing a b.
Proof.
  unfold pair_conflicts. rewrite <- identicalScope_opposing.
  pose proof (opposing_overlap a b) as Ho. rewrite <- identicalScope_opposing in Ho.
  destruct (identicalScope a b && _); [by rewrite Ho|].
  by destruct (negb (aclScopesOverlap a b)),
    (nestedGlob (ACL.PathGlob a) (ACL.PathGlob b) && negb (str_eqb (ACL.Action a) (ACL.Action b))).
Qed.

Lemma inner_loop_error i a j rest :
  HasErrors (inner_loop i a j rest) = true ↔ ∃ b, b ∈ rest ∧ opposing a b.
Proof.
  revert j. induction rest as [|b rest IH]; intros j; simpl.
  { split; [done|]. by intros (? & ?%not_elem_of_nil & _). }
  unfold HasErrors in *. rewrite existsb_app, orb_true_iff, IH, exists_elem_of_cons.
  by rewrite (pair_conflicts_error i a j b).
Qed.

Lemma outer_loop_error i rules :
  HasErrors (outer_loop i rules) = true ↔
  ∃ n m a b, n < m ∧ rules !! n = Some a ∧ rules !! m = Some b ∧ opposing a b.
Proof.
  revert i. induction rules as [|r rules IH]; intros i; cbn [outer_loop].
  { split; [done|]. by intros (n & m & a & b & _ & ? & _). }
  unfold HasErrors in *. rewrite existsb_app, orb_true_iff, IH.
  rewrite (inner_loop_error i r (S i) rules). split.
  - intros [(b & [m Hm]%list_elem_of_lookup & Ho)|(n & m & a & b & ? & ? & ? & ?)].
    + exists 0, (S m), r, b. simpl. auto with lia.
    + exists (S n), (S m), a, b. simpl. auto with lia.
  - intros ([|n] & [|m] & a & b & ? & Hn & Hm & Ho); simplify_eq/=; try lia.
    + left. exists b. split; [|done]. by eapply list_elem_of_lookup_2.
    + right. exists n, m, a, b. auto with lia.
Qed.

Lemma detectPrivacyModeOverride_no_error s : HasErrors (detectPrivacyModeOverride s) = false.
Proof. unfold detectPrivacyModeOverride. by repeat case_match. Qed.

Lemma catch_all_Some action i rules :
  is_Some (catch_all action i rules) ↔
  ∃ r, r ∈ rules ∧ Recipient.SkillID r = EmptyString ∧ Recipient.Action r = action.
Proof.
  revert i. induction rules as [|r rules IH]; intros i; simpl.
  { split; [by intros [? ?]|]. by intros (? & ?%not_elem_of_nil & _). }
  rewrite exists_elem_of_cons, <- (IH (S i)), <- str_empty_true, <- str_eqb_eq, <- andb_true_iff.
  destruct (_ && _); [|naive_solver]. split; [by left|]. by eexists.
Qed.

Lemma recipient_loop_error caA caD i rules :
  HasErrors (recipient_loop caA caD i rules) = true ↔
  is_Some caD ∧ ∃ r, r ∈ rules ∧ Recipient.SkillID r ≠ EmptyString ∧
                     Recipient.Action r = ACLActionAllow.
Proof.
  revert i. induction rules as [|r rules IH]; intros i; simpl.
  { split; [done|]. by intros (_ & ? & ?%not_elem_of_nil & _). }
  unfold HasErrors in *. rewrite existsb_app, orb_true_iff, IH, exists_elem_of_cons.
  assert (existsb is_error (recipient_conflict caA caD i r) = true ↔
    is_Some caD ∧ Recipient.SkillID r ≠ EmptyString ∧ Recipient.Action r = ACLActionAllow) as ->;
    [|tauto].
  unfold recipient_conflict. rewrite <- str_empty_false, <- (str_eqb_eq (Recipient.Action r)).
  destruct (str_empty (Recipient.SkillID r)), (str_eqb (Recipient.Action r) ACLActionAllow),
    (str_eqb (Recipient.Action r) ACLActionDeny), caA as [[]|],
    caD as [[]|]; simpl; split; try done; try naive_solver.
Qed.

Definition acl_rules (s : PolicySnapshot) : list ACL.ACLRule := from_option ACL.Rules [] (ACL s).
Definition recipient_rules (s : PolicySnapshot) : list Recipient.RecipientRule :=
  from_option Recipient.Rules [] (Recipient s).

Lemma detectACLConflicts_error s :
  HasErrors (detectACLConflicts s) = true ↔
  ∃ n m a b, n < m ∧ acl_rules s !! n = Some a ∧ acl_rules s !! m = Some b ∧ opposing a b.
Proof.
  unfold detectACLConflicts, acl_rules. destruct (ACL s) as [l|]; simpl.
  - destruct (Nat.ltb_spec (length (ACL.Rules l)) 2); [|apply outer_loop_error].
    split; [done|]. intros (n & m & a & b & ? & ? & ?%lookup_lt_Some & _). lia.
  - split; [done|]. by intros (n & m & a & b & _ & ? & _).
Qed.

Lemma two_elements {A} (l : list A) x y : x ∈ l → y ∈ l → x ≠ y → 2 ≤ length l.
Proof.
  intros Hx Hy Hn. destruct l as [|a [|b l]]; simpl; [|set_solver|lia].
  by apply not_elem_of_nil in Hx.
Qed.

Lemma detectRecipientConflicts_error s :
  HasErrors (detectRecipientConflicts s) = true ↔
  (∃ r, r ∈ recipient_rules s ∧ Recipient.SkillID r = EmptyString ∧
        Recipient.Action r = ACLActionDeny) ∧
  (∃ r, r ∈ recipient_rules s ∧ Recipient.SkillID r ≠ EmptyString ∧
        Recipient.Action r = ACLActionAllow).
Proof.
  unfold detectRecipientConflicts, recipient_rules. destruct (Recipient s) as [p|]; simpl.
  - destruct (Nat.ltb_spec (length (Recipient.Rules p)) 2) as [Hl|_].
    + split; [done|]. intros [(d & Hd & Hd1 & _) (r & Hr & Hr1 & _)].
      assert (2 ≤ length (Recipient.Rules p)); [|lia].
      apply (two_elements _ d r); congruence.
    + rewrite recipient_loop_error. by rewrite catch_all_Some.
  - split; [done|]. by intros [(? & ?%not_elem_of_nil & _) _].
Qed.

(** A draft is blocked by conflict detection exactly when two of its ACL
    rules have the same source, namespace and path glob but different actions, or
    when it explicitly allows a skill while a catch-all rule denies every skill.
    Glob nesting and a no-ai mode only ever produce warnings. *)
Theorem DetectConflicts_errors s :
  HasErrors (DetectConflicts s) = true ↔
  (∃ n m a b, n < m ∧ acl_rules s !! n = Some a ∧ acl_rules s !! m = Some b ∧ opposing a b) ∨
  ((∃ r, r ∈ recipient_rules s ∧ Recipient.SkillID r = EmptyString ∧
         Recipient.Action r = ACLActionDeny) ∧
   (∃ r, r ∈ recipient_rules s ∧ Recipient.SkillID r ≠ EmptyString ∧
         Recipient.Action r = ACLActionAllow)).
Proof.
  rewrite <- detectACLConflicts_error, <- detectRecipientConflicts_error.
  unfold DetectConflicts, HasErrors. rewrite (existsb_perm _ _ _ (sort_by_perm _ _)).
  rewrite !existsb_app, !orb_true_iff.
  pose proof (detectPrivacyModeOverride_no_error s) as H. unfold HasErrors in H. rewrite H.
  naive_solver.
Qed.

(** A clean report is a promise about the recipient gate: when no error is
    reported, every skill the draft allows by name, and does not also deny by
    name, will be admitted. *)
Theorem no_errors_allow_effective s p r :
  HasErrors (DetectConflicts s) = false →
  Recipient s = Some p → r ∈ Recipient.Rules p →
  Recipient.SkillID r ≠ EmptyString → Recipient.Action r = ACLActionAllow →
  (∀ d, d ∈ Recipient.Rules p → Recipient.SkillID d = Recipient.SkillID r →
        Recipient.Action d ≠ ACLActionDeny) →
  Recipient.IsAllowed (Recipient s) (Recipient.SkillID r) = true.
Proof.
  unfold DetectConflicts, HasErrors. rewrite (existsb_perm _ _ _ (sort_by_perm _ _)).
  rewrite !existsb_app, !orb_false_iff. intros (_ & _ & He) Hp Hr Hs Ha Hnd.
  rewrite <- not_true_iff_false in He.
  change (¬ HasErrors (detectRecipientConflicts s) = true) in He.
  rewrite detectRecipientConflicts_error in He. unfold recipient_rules in He.
  rewrite Hp in He |- *. simpl in *. rewrite Recipient.allowed_loop_spec. simpl.
  apply andb_true_iff; split.
  - apply negb_true_iff, not_true_iff_false. rewrite existsb_elem.
    intros (d & Hd & [Hc Hda]%andb_true_iff). apply str_eqb_eq in Hda.
    apply orb_true_iff in Hc as [Hc|Hc].
    + apply str_empty_true in Hc. naive_solver.
    + apply str_eqb_eq in Hc. by eapply Hnd.
  - apply orb_true_iff; left. apply existsb_elem. exists r. split; [done|].
    unfold Recipient.fires, Recipient.covers. by rewrite str_eqb_refl, orb_true_r, Ha.
Qed.

End Detect.

Lemma no_errors_allow_effective_witness :
  let r := {| Recipient.SkillID := "summary"; Recipient.Action := "allow" |} in
  let p := {| Recipient.TenantID := "t"; Recipient.ChannelID := "c"; Recipient.DefaultAllow := false;
              Recipient.Rules := [{| Recipient.SkillID := "search"; Recipient.Action := "deny" |}; r] |} in
  let s := {| EffectiveMode := ""; ACL := None; ChunkACL := None; Recipient := Some p;
              DenyLocalRetrieval := false; NamespacePolicies := ∅ |} in
  Recipient.IsAllowed (Recipient s) (Recipient.SkillID r) = true.
Proof.
  intros r p s.
  apply (no_errors_allow_effective (λ _ _, false) (λ q, q) s p r); try done.
  - right. left.
  - intros d [->|[->|[]%not_elem_of_nil]%elem_of_cons]%elem_of_cons; done.
Defined.

End Conflict.
