(* ===== verification/PolicyDB.v ===== *)
(** * The policy tables and the database they live in

    The tables of migrations/004, 005, 016 and 017 as the GORM models of
    internal/policy declare them, and the effect of a SQL statement on them. The
    database itself is not part of the repository: [Database] is what the code
    relies on. Any statement may fail, ULIDs and timestamps come from outside,
    rows come back in an arbitrary order unless one is requested, and a
    transaction restores the tables when its body or its commit fails.

    The [created_at] and [updated_at] columns of the live tables, which nothing
    in the repository reads back, are left out. *)

From S2P Require Import Prelude GoString Acl Conflict.
Import Snapshot.

(** ** Errors *)

Inductive error :=
| ErrSQL
| ErrDraftNotFound
| ErrDraftTerminal
| ErrPromotionBlocked (conflicts : list Conflict.PolicyConflict)
| ErrInvalid (msg : string).

(** ** Rows *)

Definition DraftStatusDraft : string := "draft".
Definition DraftStatusPromoted : string := "promoted".
Definition DraftStatusRejected : string := "rejected".

Record Draft := {
  ID : string;
  TenantID : string;
  ChannelID : string;
  Payload : PolicySnapshot;
  Status : string;
  CreatedBy : string;
  CreatedAt : Time;
  PromotedAt : option Time;
  PromotedBy : string;
  RejectReason : string
}.

Record channelPolicyRow := {
  cp_PrivacyMode : string;
  cp_RecipientDefault : string;
  cp_DenyLocalRetrieval : bool
}.

(** [channel_id] is nullable in policy_acl_rules. *)
Record aclRuleRow := {
  ar_ID : string;
  ar_TenantID : string;
  ar_ChannelID : option string;
  ar_SourceID : string;
  ar_NamespaceID : string;
  ar_PathGlob : string;
  ar_Action : string;
  ar_ComputeTier : string
}.

Record recipientRuleRow := {
  rr_ID : string;
  rr_TenantID : string;
  rr_ChannelID : string;
  rr_SkillID : string;
  rr_Action : string
}.

Record PolicyVersion := {
  pv_ID : string;
  pv_TenantID : string;
  pv_ChannelID : string;
  pv_DraftID : string;
  pv_Action : string;
  pv_ActorID : string;
  pv_Snapshot : PolicySnapshot;
  pv_CreatedAt : Time
}.

(** Metadata values: strings, formatted timestamps and counts. *)
Inductive meta_value := MStr (s : string) | MTime (t : Time) | MInt (n : Z).

Record AuditLog := {
  al_ID : string;
  al_TenantID : string;
  al_ActorID : string;
  al_Action : string;
  al_ResourceType : string;
  al_ResourceID : string;
  al_Metadata : list (string * meta_value);
  al_TraceID : string;
  al_CreatedAt : Time
}.

(** Tables with a natural primary key are maps on it; the rule, version and audit
    tables are bags of rows. *)
Record Tables := {
  policy_drafts : gmap string Draft;
  tenant_policies : gmap string string;
  channel_policies : gmap (string * string) channelPolicyRow;
  namespace_policies : gmap (string * string) string;
  policy_acl_rules : list aclRuleRow;
  recipient_policies : list recipientRuleRow;
  policy_versions : list PolicyVersion;
  audit_logs : list AuditLog
}.

Definition set_drafts (f : gmap string Draft → gmap string Draft) (t : Tables) : Tables :=
  {| policy_drafts := f (policy_drafts t); tenant_policies := tenant_policies t;
     channel_policies := channel_policies t; namespace_policies := namespace_policies t;
     policy_acl_rules := policy_acl_rules t; recipient_policies := recipient_policies t;
     policy_versions := policy_versions t; audit_logs := audit_logs t |}.
Definition set_tenants (f : gmap string string → gmap string string) (t : Tables) : Tables :=
  {| policy_drafts := policy_drafts t; tenant_policies := f (tenant_policies t);
     channel_policies := channel_policies t; namespace_policies := namespace_policies t;
     policy_acl_rules := policy_acl_rules t; recipient_policies := recipient_policies t;
     policy_versions := policy_versions t; audit_logs := audit_logs t |}.
Definition set_channels
    (f : gmap (string * string) channelPolicyRow → gmap (string * string) channelPolicyRow)
    (t : Tables) : Tables :=
  {| policy_drafts := policy_drafts t; tenant_policies := tenant_policies t;
     channel_policies := f (channel_policies t); namespace_policies := namespace_policies t;
     policy_acl_rules := policy_acl_rules t; recipient_policies := recipient_policies t;
     policy_versions := policy_versions t; audit_logs := audit_logs t |}.
Definition set_namespaces (f : gmap (string * string) string → gmap (string * string) string)
    (t : Tables) : Tables :=
  {| policy_drafts := policy_drafts t; tenant_policies := tenant_policies t;
     channel_policies := channel_policies t; namespace_policies := f (namespace_policies t);
     policy_acl_rules := policy_acl_rules t; recipient_policies := recipient_policies t;
     policy_versions := policy_versions t; audit_logs := audit_logs t |}.
Definition set_acl (f : list aclRuleRow → list aclRuleRow) (t : Tables) : Tables :=
  {| policy_drafts := policy_drafts t; tenant_policies := tenant_policies t;
     channel_policies := channel_policies t; namespace_policies := namespace_policies t;
     policy_acl_rules := f (policy_acl_rules t); recipient_policies := recipient_policies t;
     policy_versions := policy_versions t; audit_logs := audit_logs t |}.
Definition set_recipients (f : list recipientRuleRow → list recipientRuleRow) (t : Tables)
  : Tables :=
  {| policy_drafts := policy_drafts t; tenant_policies := tenant_policies t;
     channel_policies := channel_policies t; namespace_policies := namespace_policies t;
     policy_acl_rules := policy_acl_rules t; recipient_policies := f (recipient_policies t);
     policy_versions := policy_versions t; audit_logs := audit_logs t |}.
Definition set_versions (f : list PolicyVersion → list PolicyVersion) (t : Tables) : Tables :=
  {| policy_drafts := policy_drafts t; tenant_policies := tenant_policies t;
     channel_policies := channel_policies t; namespace_policies := namespace_policies t;
     policy_acl_rules := policy_acl_rules t; recipient_policies := recipient_policies t;
     policy_versions := f (policy_versions t); audit_logs := audit_logs t |}.
Definition set_audit (f : list AuditLog → list AuditLog) (t : Tables) : Tables :=
  {| policy_drafts := policy_drafts t; tenant_policies := tenant_policies t;
     channel_policies := channel_policies t; namespace_policies := namespace_policies t;
     policy_acl_rules := policy_acl_rules t; recipient_policies := recipient_policies t;
     policy_versions := policy_versions t; audit_logs := f (audit_logs t) |}.

(** ** The database *)

Class Database := {
  sql_fails : nat → bool;              (** does the n-th statement fail? *)
  ulid : nat → nat → string;           (** k-th [ulid.Make] at the n-th instant *)
  clock : nat → Time;                  (** [time.Now] at the n-th instant *)
  scan {A : Type} : list A → list A;   (** row order of an unordered [Find] *)
  scan_perm {A : Type} (l : list A) : scan l ≡ₚ l;
  ulid_nonempty n k : ulid n k ≠ EmptyString
}.

(** A database that never fails and returns rows in insertion order. *)
Definition steady : Database.
Proof.
  refine {| sql_fails := λ _, false;
            ulid := λ n k, str_app "ulid" (str_app (str_of_nat n) (str_app "." (str_of_nat k)));
            clock := λ n, Z.of_nat n; scan := λ A l, l |}; done.
Defined.

(** The tables, the instant, and the notifications an audit writer has buffered
    for the running transaction and has sent. *)
Record World := {
  tables : Tables;
  tick : nat;
  pending : list AuditLog;
  sent : list AuditLog
}.

Definition set_tables (f : Tables → Tables) (w : World) : World :=
  {| tables := f (tables w); tick := tick w; pending := pending w; sent := sent w |}.
Definition tick_on (w : World) : World :=
  {| tables := tables w; tick := S (tick w); pending := pending w; sent := sent w |}.

Definition M (A : Type) : Type := World → result A error * World.

Definition ret {A} (a : A) : M A := λ w, (Ok a, w).
Definition throw {A} (e : error) : M A := λ w, (Err e, w).
Definition bind {A B} (m : M A) (k : A → M B) : M B := λ w,
  match m w with
  | (Ok a, w') => k a w'
  | (Err e, w') => (Err e, w')
  end.
Notation "'let*' x ':=' m 'in' k" := (bind m (λ x, k))
  (at level 10, x pattern, m at level 100, k at level 200) : go_scope.

Section Statements.
Context `{Database}.

(** [ulid.Make] and [time.Now] read without a database round trip. *)
Definition now : M Time := λ w, (Ok (clock (tick w)), w).
Definition make_ulid (k : nat) : M string := λ w, (Ok (ulid (tick w) k), w).

Definition query {A} (f : Tables → A) : M A := λ w,
  if sql_fails (tick w) then (Err ErrSQL, tick_on w) else (Ok (f (tables w)), tick_on w).

Definition exec (f : Tables → Tables) : M unit := λ w,
  if sql_fails (tick w) then (Err ErrSQL, tick_on w) else (Ok tt, tick_on (set_tables f w)).

(** [db.Transaction(body)]: the second component tells whether the body ran, that
    is, whether the caller captured the transaction handle. *)
Definition Transaction {A} (body : M A) (w : World) : result A error * bool * World :=
  if sql_fails (tick w) then (Err ErrSQL, false, tick_on w)
  else match body (tick_on w) with
       | (Err e, w') => (Err e, true, set_tables (λ _, tables w) w')
       | (Ok a, w') =>
           if sql_fails (tick w') then (Err ErrSQL, true, tick_on (set_tables (λ _, tables w) w'))
           else (Ok a, true, tick_on w')
       end.

End Statements.

(** ** Reasoning about the monad *)

Lemma bind_Ok {A B} (m : M A) (k : A → M B) w b w' :
  bind m k w = (Ok b, w') ↔ ∃ a w1, m w = (Ok a, w1) ∧ k a w1 = (Ok b, w').
Proof.
  unfold bind. destruct (m w) as [[a|e] w1]; split; [eauto| |done|]; naive_solver.
Qed.

Lemma ret_Ok {A} (a b : A) w w' : ret a w = (Ok b, w') ↔ b = a ∧ w' = w.
Proof. unfold ret. naive_solver. Qed.

Lemma query_Ok `{Database} {A} (f : Tables → A) w a w' :
  query f w = (Ok a, w') ↔
  sql_fails (tick w) = false ∧ a = f (tables w) ∧ w' = tick_on w.
Proof. unfold query. destruct (sql_fails _); naive_solver. Qed.

Lemma exec_Ok `{Database} (f : Tables → Tables) w u w' :
  exec f w = (Ok u, w') ↔
  sql_fails (tick w) = false ∧ w' = tick_on (set_tables f w).
Proof. unfold exec. destruct u, (sql_fails _); naive_solver. Qed.

Lemma query_total `{Database} {A} (f : Tables → A) w :
  (∀ n, sql_fails n = false) → query f w = (Ok (f (tables w)), tick_on w).
Proof. intros Hn. unfold query. by rewrite Hn. Qed.

Lemma exec_total `{Database} (f : Tables → Tables) w :
  (∀ n, sql_fails n = false) → exec f w = (Ok tt, tick_on (set_tables f w)).
Proof. intros Hn. unfold exec. by rewrite Hn. Qed.

(** A read leaves the tables alone; statements never touch the notifications. *)
Definition reads {A} (m : M A) : Prop := ∀ w, tables (m w).2 = tables w.
Definition quiet {A} (m : M A) : Prop :=
  ∀ w, pending (m w).2 = pending w ∧ sent (m w).2 = sent w.

Lemma reads_ret {A} (a : A) : reads (ret a). Proof. by intros w. Qed.
Lemma reads_throw {A} e : reads (A:=A) (throw e). Proof. by intros w. Qed.
Lemma reads_query `{Database} {A} (f : Tables → A) : reads (query f).
Proof. intros w. unfold query. by destruct (sql_fails _). Qed.
Lemma reads_now `{Database} : reads now. Proof. by intros w. Qed.
Lemma reads_make_ulid `{Database} k : reads (make_ulid k). Proof. by intros w. Qed.
Lemma reads_bind {A B} (m : M A) (k : A → M B) :
  reads m → (∀ a, reads (k a)) → reads (bind m k).
Proof.
  intros Hm Hk w. unfold bind. specialize (Hm w). destruct (m w) as [[a|e] w1]; simpl in *; [|done].
  by rewrite Hk.
Qed.

Lemma quiet_ret {A} (a : A) : quiet (ret a). Proof. by intros w. Qed.
Lemma quiet_throw {A} e : quiet (A:=A) (throw e). Proof. by intros w. Qed.
Lemma quiet_query `{Database} {A} (f : Tables → A) : quiet (query f).
Proof. intros w. unfold query. by destruct (sql_fails _). Qed.
Lemma quiet_exec `{Database} (f : Tables → Tables) : quiet (exec f).
Proof. intros w. unfold exec. by destruct (sql_fails _). Qed.
Lemma quiet_now `{Database} : quiet now. Proof. by intros w. Qed.
Lemma quiet_make_ulid `{Database} k : quiet (make_ulid k). Proof. by intros w. Qed.
Lemma quiet_bind {A B} (m : M A) (k : A → M B) :
  quiet m → (∀ a, quiet (k a)) → quiet (bind m k).
Proof.
  intros Hm Hk w. unfold bind. specialize (Hm w). destruct (m w) as [[a|e] w1]; simpl in *; [|done].
  destruct (Hk a w1) as [-> ->]. done.
Qed.

Create HintDb db.
#[export] Hint Resolve reads_ret reads_throw reads_query reads_now reads_make_ulid
  quiet_ret quiet_throw quiet_query quiet_exec quiet_now quiet_make_ulid : db.
#[export] Hint Extern 2 (reads (bind _ _)) => (apply reads_bind; [|intros ?]) : db.
#[export] Hint Extern 2 (quiet (bind _ _)) => (apply quiet_bind; [|intros ?]) : db.

(** Walk through a successful run, statement by statement. *)
Ltac run_ok :=
  repeat match goal with
  | H : bind _ _ _ = (Ok _, _) |- _ =>
      apply bind_Ok in H; destruct H as (? & ? & ? & H)
  | H : query _ _ = (Ok _, _) |- _ => apply query_Ok in H; destruct H as (? & -> & ->)
  | H : exec _ _ = (Ok _, _) |- _ => apply exec_Ok in H; destruct H as (? & ->)
  | H : ret _ _ = (Ok _, _) |- _ => apply ret_Ok in H; destruct H as [? ->]; try subst
  | H : now _ = (Ok _, _) |- _ => injection H as <- <-
  | H : make_ulid _ _ = (Ok _, _) |- _ => injection H as <- <-
  | H : throw _ _ = (Ok _, _) |- _ => discriminate H
  end.

(** What a transaction promises: all of the body or nothing. *)
Lemma Transaction_cases `{Database} {A} (body : M A) w :
  match Transaction body w with
  | (Ok a, began, w') =>
      began = true ∧ ∃ w1, body (tick_on w) = (Ok a, w1) ∧ w' = tick_on w1
  | (Err _, began, w') =>
      tables w' = tables w ∧
      (if began
       then pending w' = pending (body (tick_on w)).2 ∧ sent w' = sent (body (tick_on w)).2
       else pending w' = pending w ∧ sent w' = sent w)
  end.
Proof.
  unfold Transaction. destruct (sql_fails (tick w)); [done|].
  destruct (body (tick_on w)) as [[a|e] w1] eqn:Eb; [|done].
  destruct (sql_fails (tick w1)); [done|]. eauto.
Qed.
