(* ===== verification/PolicyStore.v ===== *)
(** * Drafts, live policy tables and version history

    internal/policy/draft.go (Module [DraftRepository]), live_store.go
    ([LiveStoreGORM]), live_resolver.go ([LiveResolverGORM]) and
    version_history.go ([PolicyVersionRepository]). The theorems relate what
    [ApplySnapshot] writes to what [Resolve] reads back, keep tenants apart, and
    describe the paged listings. *)

From S2P Require Import Prelude GoString Cursor PrivacyMode Glob Acl Conflict PolicyDB.
Import Snapshot.

Module DraftRepository.

Section Drafts.
Context `{Database}.

(** What a snapshot looks like after [DraftPayload.Value] and [Scan]: the fields of
    a [ChunkACL] are unexported, so its rows do not survive the JSON column. *)
Definition payload_roundtrip (s : PolicySnapshot) : PolicySnapshot :=
  {| EffectiveMode := EffectiveMode s; ACL := ACL s;
     ChunkACL := (λ _, []) <$> ChunkACL s; Recipient := Recipient s;
     DenyLocalRetrieval := DenyLocalRetrieval s; NamespacePolicies := NamespacePolicies s |}.

Definition NewDraft (tenantID channelID createdBy : string) (snap : PolicySnapshot) : M Draft :=
  let* id := make_ulid 0 in
  let* t := now in
  ret {| ID := id; TenantID := tenantID; ChannelID := channelID; Payload := snap;
         Status := DraftStatusDraft; CreatedBy := createdBy; CreatedAt := t;
         PromotedAt := None; PromotedBy := ""; RejectReason := "" |}.

Definition Validate (d : Draft) : result unit error :=
  if str_empty (ID d) then Err (ErrInvalid "policy: missing draft ID")
  else if str_empty (TenantID d) then Err (ErrInvalid "policy: missing draft tenant_id")
  else if str_eqb (Status d) DraftStatusDraft || str_eqb (Status d) DraftStatusPromoted
          || str_eqb (Status d) DraftStatusRejected then Ok tt
  else Err (ErrInvalid "policy: invalid draft status").

(** The row a draft becomes: the payload passes through its JSON column. *)
Definition draft_row (d : Draft) : Draft :=
  {| ID := ID d; TenantID := TenantID d; ChannelID := ChannelID d;
     Payload := payload_roundtrip (Payload d); Status := Status d; CreatedBy := CreatedBy d;
     CreatedAt := CreatedAt d; PromotedAt := PromotedAt d; PromotedBy := PromotedBy d;
     RejectReason := RejectReason d |}.

(** [AfterFind]. *)
Definition after_find (d : Draft) : Draft :=
  {| ID := ID d; TenantID := TenantID d; ChannelID := trim_right_spaces (ChannelID d);
     Payload := Payload d; Status := Status d; CreatedBy := CreatedBy d;
     CreatedAt := CreatedAt d; PromotedAt := PromotedAt d; PromotedBy := PromotedBy d;
     RejectReason := RejectReason d |}.

(** The insert violates the primary key when the id is taken. *)
Definition Create (d : option Draft) : M unit :=
  match d with
  | None => throw (ErrInvalid "policy: nil draft")
  | Some d =>
      match Validate d with
      | Err e => throw e
      | Ok _ =>
          let* clash := query (λ t, bool_decide (is_Some (policy_drafts t !! ID d))) in
          if clash : bool then throw ErrSQL
          else exec (set_drafts <[ID d := draft_row d]>)
      end
  end.

Definition find (tenantID id : string) (t : Tables) : option Draft :=
  match policy_drafts t !! id with
  | Some d => if str_eqb (TenantID d) tenantID then Some (after_find d) else None
  | None => None
  end.

Definition Get (tenantID id : string) : M Draft :=
  if str_empty tenantID || str_empty id then throw ErrDraftNotFound
  else
    let* od := query (find tenantID id) in
    match od with None => throw ErrDraftNotFound | Some d => ret d end.

Record DraftListFilter := { f_TenantID : string; f_Status : string; f_PageSize : Z }.

Definition clampPageSize (n : Z) : Z :=
  let n := if (n <=? 0)%Z then 50%Z else n in
  if (200 <? n)%Z then 200%Z else n.

Definition id_desc (a b : Draft) : bool := str_ltb (ID b) (ID a).

Definition List (f : DraftListFilter) : M (list Draft) :=
  if str_empty (f_TenantID f)
  then throw (ErrInvalid "policy: DraftListFilter.TenantID is required")
  else query (λ t,
    after_find <$>
    take (Z.to_nat (clampPageSize (f_PageSize f)))
      (sort_by id_desc
        (List.filter (λ d, str_eqb (TenantID d) (f_TenantID f)
                      && (str_empty (f_Status f) || str_eqb (Status d) (f_Status f)))
           (snd <$> map_to_list (policy_drafts t))))).

Inductive transitionApply :=
| transitionMarkPromoted (actor : string)
| transitionMarkRejected (actor reason : string).

Definition apply (t : transitionApply) (now : Time) (d : Draft) : Draft :=
  match t with
  | transitionMarkPromoted actor =>
      {| ID := ID d; TenantID := TenantID d; ChannelID := ChannelID d; Payload := Payload d;
         Status := DraftStatusPromoted; CreatedBy := CreatedBy d; CreatedAt := CreatedAt d;
         PromotedAt := Some now; PromotedBy := actor; RejectReason := RejectReason d |}
  | transitionMarkRejected actor reason =>
      {| ID := ID d; TenantID := TenantID d; ChannelID := ChannelID d; Payload := Payload d;
         Status := DraftStatusRejected; CreatedBy := CreatedBy d; CreatedAt := CreatedAt d;
         PromotedAt := Some now; PromotedBy := actor; RejectReason := reason |}
  end.

(** The row is locked by SELECT ... FOR UPDATE, so nothing runs between the read and
    the [Save] of the same transaction. *)
Definition transition (tenantID id : string) (tr : transitionApply) : M Draft :=
  if str_empty tenantID || str_empty id then throw ErrDraftNotFound
  else
    let* od := query (find tenantID id) in
    match od with
    | None => throw ErrDraftNotFound
    | Some d =>
        if negb (str_eqb (Status d) DraftStatusDraft) then throw ErrDraftTerminal
        else
          let* t := now in
          let d' := apply tr t d in
          let* _ := exec (set_drafts <[ID d' := draft_row d']>) in
          ret d'
    end.

Definition MarkPromoted (tenantID id actorID : string) : M Draft :=
  transition tenantID id (transitionMarkPromoted actorID).
Definition MarkRejected (tenantID id actorID reason : string) : M Draft :=
  transition tenantID id (transitionMarkRejected actorID reason).

End Drafts.

End DraftRepository.

Module PolicyVersionRepository.

Section Versions.
Context `{Database}.

Definition Insert (v : option PolicyVersion) : M unit :=
  match v with
  | None => throw (ErrInvalid "policy: PolicyVersionRepository.Insert nil row")
  | Some v =>
      let* id := (if str_empty (pv_ID v) then make_ulid 0 else ret (pv_ID v)) in
      let* t := (if time_is_zero (pv_CreatedAt v) then now else ret (pv_CreatedAt v)) in
      exec (set_versions (λ rows, rows ++
        [{| pv_ID := id; pv_TenantID := pv_TenantID v; pv_ChannelID := pv_ChannelID v;
            pv_DraftID := pv_DraftID v; pv_Action := pv_Action v; pv_ActorID := pv_ActorID v;
            pv_Snapshot := DraftRepository.payload_roundtrip (pv_Snapshot v);
            pv_CreatedAt := t |}]))
  end.

Record VersionListFilter := {
  f_TenantID : string; f_ChannelID : string; f_Limit : Z; f_Cursor : string
}.

Definition clampLimit (n : Z) : Z :=
  let n := if (n <=? 0)%Z then 50%Z else n in
  if (201 <? n)%Z then 201%Z else n.

Definition selected (f : VersionListFilter) (v : PolicyVersion) : bool :=
  str_eqb (pv_TenantID v) (f_TenantID f)
  && (str_empty (f_ChannelID f) || str_eqb (pv_ChannelID v) (f_ChannelID f))
  && (str_empty (f_Cursor f) || str_ltb (pv_ID v) (f_Cursor f)).

Definition id_desc (a b : PolicyVersion) : bool := str_ltb (pv_ID b) (pv_ID a).

Definition page (f : VersionListFilter) (t : Tables) : list PolicyVersion :=
  take (Z.to_nat (clampLimit (f_Limit f)))
    (sort_by id_desc (List.filter (selected f) (policy_versions t))).

Definition List (f : VersionListFilter) : M (list PolicyVersion) :=
  if str_empty (f_TenantID f) then throw (ErrInvalid "policy: VersionListFilter requires TenantID")
  else query (page f).

Definition Get (tenantID id : string) : M PolicyVersion :=
  if str_empty tenantID
  then throw (ErrInvalid "policy: PolicyVersionRepository.Get requires tenantID")
  else if str_empty id
  then throw (ErrInvalid "policy: PolicyVersionRepository.Get requires id")
  else
    let* ov := query (λ t,
      head (List.filter (λ v, str_eqb (pv_TenantID v) tenantID && str_eqb (pv_ID v) id)
              (policy_versions t))) in
    match ov with None => throw ErrSQL | Some v => ret v end.

End Versions.

End PolicyVersionRepository.

Module LiveStoreGORM.

Section Live.
Context `{Database} `{Unicode}.

Definition recipientDefault (r : option Recipient.RecipientPolicy) : string :=
  match r with
  | None => "allow"
  | Some p => if Recipient.DefaultAllow p then "allow" else "deny"
  end.

Definition upsertTenantPolicy (tenantID mode : string) : M unit :=
  exec (set_tenants <[tenantID := mode]>).

Definition upsertChannelPolicy (tenantID channelID mode recipientDefault : string)
    (denyLocal : bool) : M unit :=
  exec (set_channels <[(tenantID, channelID) :=
    {| cp_PrivacyMode := mode; cp_RecipientDefault := recipientDefault;
       cp_DenyLocalRetrieval := denyLocal |}]>).

(** Rows of exactly this scope: the tenant-wide rows for an empty channel. *)
Definition acl_scope (tenantID channelID : string) (r : aclRuleRow) : bool :=
  str_eqb (ar_TenantID r) tenantID
  && (if str_empty channelID
      then match ar_ChannelID r with None => true | Some c => str_empty c end
      else match ar_ChannelID r with None => false | Some c => str_eqb c channelID end).

Definition acl_rows (fresh : nat → string) (tenantID channelID : string)
    (rules : list ACL.ACLRule) : list aclRuleRow :=
  imap (λ i r,
    {| ar_ID := fresh i; ar_TenantID := tenantID; ar_ChannelID := Some channelID;
       ar_SourceID := ACL.SourceID r; ar_NamespaceID := ACL.NamespaceID r;
       ar_PathGlob := ACL.PathGlob r; ar_Action := ACL.Action r;
       ar_ComputeTier := ACL.ComputeTier r |}) rules.

Definition replaceACLRules (tenantID channelID : string) (l : option ACL.AllowDenyList) : M unit :=
  let* _ := exec (set_acl (List.filter (λ r, negb (acl_scope tenantID channelID r)))) in
  match l with
  | None => ret tt
  | Some l =>
      if length (ACL.Rules l) =? 0 then ret tt
      else λ w, exec (set_acl (λ rows, rows ++ acl_rows (ulid (tick w)) tenantID channelID
                                                 (ACL.Rules l))) w
  end.

Definition recipient_scope (tenantID channelID : string) (r : recipientRuleRow) : bool :=
  str_eqb (rr_TenantID r) tenantID && str_eqb (rr_ChannelID r) channelID.

Definition recipient_rows (fresh : nat → string) (tenantID channelID : string)
    (rules : list Recipient.RecipientRule) : list recipientRuleRow :=
  imap (λ i r,
    {| rr_ID := fresh i; rr_TenantID := tenantID; rr_ChannelID := channelID;
       rr_SkillID := Recipient.SkillID r; rr_Action := Recipient.Action r |}) rules.

Definition replaceRecipientRules (tenantID channelID : string)
    (l : option Recipient.RecipientPolicy) : M unit :=
  let* _ := exec (set_recipients (List.filter (λ r, negb (recipient_scope tenantID channelID r)))) in
  match l with
  | None => ret tt
  | Some p =>
      if length (Recipient.Rules p) =? 0 then ret tt
      else λ w, exec (set_recipients (λ rows,
                  rows ++ recipient_rows (ulid (tick w)) tenantID channelID (Recipient.Rules p))) w
  end.

Definition ApplySnapshot (tenantID channelID : string) (snap : PolicySnapshot) : M unit :=
  if str_empty tenantID then throw (ErrInvalid "policy: ApplySnapshot requires tenantID")
  else
    let* _ :=
      (if str_empty channelID then upsertTenantPolicy tenantID (EffectiveMode snap)
       else upsertChannelPolicy tenantID channelID (EffectiveMode snap)
              (recipientDefault (Recipient snap)) (DenyLocalRetrieval snap)) in
    let* _ := replaceACLRules tenantID channelID (ACL snap) in
    replaceRecipientRules tenantID channelID (Recipient snap).

Definition UpsertNamespacePolicy (tenantID namespaceID mode : string) : M unit :=
  if str_empty tenantID then throw (ErrInvalid "policy: UpsertNamespacePolicy requires tenantID")
  else if str_empty namespaceID
  then throw (ErrInvalid "policy: UpsertNamespacePolicy requires namespaceID")
  else if negb (PrivacyMode.IsValidPrivacyMode mode)
  then throw (ErrInvalid "policy: invalid privacy mode")
  else exec (set_namespaces <[(tenantID, namespaceID) := mode]>).

Definition DeleteNamespacePolicy (tenantID namespaceID : string) : M unit :=
  if str_empty tenantID || str_empty namespaceID
  then throw (ErrInvalid "policy: DeleteNamespacePolicy requires tenantID and namespaceID")
  else exec (set_namespaces (delete (tenantID, namespaceID))).

End Live.

End LiveStoreGORM.

Module LiveResolverGORM.

Section Resolve.
Context `{Database} `{Unicode}.

(** The body of the row loop of [loadNamespacePolicies]; the id is trimmed by
    [AfterFind] and again by the loop. *)
Definition add_namespace (row : (string * string) * string) (out : gmap string string)
  : gmap string string :=
  let '((_, nsID), mode) := row in
  match PrivacyMode.ParsePrivacyMode mode with
  | None => out
  | Some m =>
      let ns := trim_right_spaces (trim_right_spaces nsID) in
      if str_empty ns then out else <[ns := m]> out
  end.

Definition loadNamespacePolicies (tenantID : string) : M (gmap string string) :=
  query (λ t,
    foldl (λ out row, add_namespace row out) ∅
      (scan (List.filter (λ row, str_eqb row.1.1 tenantID) (map_to_list (namespace_policies t))))).

Definition ListNamespacePolicies (tenantID : string) : M (gmap string string) :=
  if str_empty tenantID then throw (ErrInvalid "policy: ListNamespacePolicies requires tenantID")
  else loadNamespacePolicies tenantID.

(** A missing row scans into the zero value, whose mode is empty. *)
Definition loadTenantMode (tenantID : string) : M string :=
  query (λ t, default EmptyString (tenant_policies t !! tenantID)).

Record ChannelMode := {
  cm_mode : string; cm_recipientDefault : string; cm_denyLocal : bool; cm_present : bool
}.
Definition no_channel : ChannelMode :=
  {| cm_mode := ""; cm_recipientDefault := ""; cm_denyLocal := false; cm_present := false |}.

Definition channel_mode (row : option channelPolicyRow) : ChannelMode :=
  match row with
  | None => no_channel
  | Some r =>
      if str_empty (cp_PrivacyMode r) then no_channel
      else {| cm_mode := cp_PrivacyMode r; cm_recipientDefault := cp_RecipientDefault r;
              cm_denyLocal := cp_DenyLocalRetrieval r; cm_present := true |}
  end.

Definition loadChannelMode (tenantID channelID : string) : M ChannelMode :=
  query (λ t, channel_mode (channel_policies t !! (tenantID, channelID))).

Definition resolveEffectiveMode (tenantMode channelMode : string) (hasChannel : bool) : string :=
  if negb (str_empty tenantMode) && hasChannel
  then PrivacyMode.EffectiveMode tenantMode channelMode
  else if negb (str_empty tenantMode) then tenantMode
  else if hasChannel then channelMode
  else EmptyString.

Definition acl_visible (tenantID channelID : string) (r : aclRuleRow) : bool :=
  str_eqb (ar_TenantID r) tenantID
  && match ar_ChannelID r with
     | None => true
     | Some c => str_empty c || (negb (str_empty channelID) && str_eqb c channelID)
     end.

(** [AfterFind] trims the source id before the row becomes a rule. *)
Definition acl_of_row (r : aclRuleRow) : ACL.ACLRule :=
  {| ACL.SourceID := trim_right_spaces (ar_SourceID r); ACL.NamespaceID := ar_NamespaceID r;
     ACL.PathGlob := ar_PathGlob r; ACL.Action := ar_Action r;
     ACL.ComputeTier := ar_ComputeTier r |}.

Definition loadACLRules (tenantID channelID : string) : M (option ACL.AllowDenyList) :=
  let* rows := query (λ t, scan (List.filter (acl_visible tenantID channelID) (policy_acl_rules t))) in
  ret (if length rows =? 0 then None
       else Some {| ACL.TenantID := tenantID; ACL.ChannelID := channelID;
                    ACL.Rules := acl_of_row <$> rows |}).

Definition recipient_visible (tenantID channelID : string) (r : recipientRuleRow) : bool :=
  str_eqb (rr_TenantID r) tenantID
  && (str_empty (rr_ChannelID r)
      || (negb (str_empty channelID) && str_eqb (rr_ChannelID r) channelID)).

Definition recipient_of_row (r : recipientRuleRow) : Recipient.RecipientRule :=
  {| Recipient.SkillID := rr_SkillID r; Recipient.Action := rr_Action r |}.

Definition loadRecipientRules (tenantID channelID channelRecipDef : string) (hasChannel : bool)
  : M (option Recipient.RecipientPolicy) :=
  let* rows := query (λ t,
    scan (List.filter (recipient_visible tenantID channelID) (recipient_policies t))) in
  let defaultAllow := negb hasChannel || negb (str_eqb channelRecipDef "deny") in
  ret (if (length rows =? 0) && defaultAllow then None
       else Some {| Recipient.TenantID := tenantID; Recipient.ChannelID := channelID;
                    Recipient.DefaultAllow := defaultAllow;
                    Recipient.Rules := recipient_of_row <$> rows |}).

Definition Resolve (tenantID channelID : string) : M PolicySnapshot :=
  if str_empty tenantID then throw (ErrInvalid "policy: Resolve requires tenantID")
  else
    let* tenantMode := loadTenantMode tenantID in
    let* ch := (if str_empty channelID then ret no_channel
                else loadChannelMode tenantID channelID) in
    let effective := resolveEffectiveMode tenantMode (cm_mode ch) (cm_present ch) in
    let* acl := loadACLRules tenantID channelID in
    let* recipient := loadRecipientRules tenantID channelID (cm_recipientDefault ch)
                        (cm_present ch) in
    let* namespaces := loadNamespacePolicies tenantID in
    ret {| EffectiveMode := effective; ACL := acl; ChunkACL := None; Recipient := recipient;
           DenyLocalRetrieval := cm_denyLocal ch; NamespacePolicies := namespaces |}.

End Resolve.

End LiveResolverGORM.

(** ** What [Resolve] reads *)

Module LiveViews.
Import LiveStoreGORM LiveResolverGORM.

Section Views.
Context `{Database} `{Unicode} (regexp_other : bytes → bytes → bool).

Definition visible_acl (tenantID channelID : string) (t : Tables) : list ACL.ACLRule :=
  acl_of_row <$> List.filter (acl_visible tenantID channelID) (policy_acl_rules t).
Definition visible_recipients (tenantID channelID : string) (t : Tables)
  : list Recipient.RecipientRule :=
  recipient_of_row <$> List.filter (recipient_visible tenantID channelID) (recipient_policies t).
Definition channel_view (tenantID channelID : string) (t : Tables) : ChannelMode :=
  if str_empty channelID then no_channel
  else channel_mode (channel_policies t !! (tenantID, channelID)).
Definition default_allow (ch : ChannelMode) : bool :=
  negb (cm_present ch) || negb (str_eqb (cm_recipientDefault ch) "deny").

(** Whether a rule list lets a chunk through, and a skill. *)
Definition admits (attrs : ACL.ChunkAttrs) (rules : list ACL.ACLRule) : bool :=
  negb (existsb (ACL.denies regexp_other attrs) rules).
Definition skill_admitted (skill : string) (dflt : bool) (rules : list Recipient.RecipientRule)
  : bool :=
  negb (existsb (Recipient.fires skill ACLActionDeny) rules)
  && (existsb (Recipient.fires skill ACLActionAllow) rules || dflt).

Lemma acl_gate tenantID channelID (rows : list aclRuleRow) attrs :
  ACL.Allowed (ACL.Evaluate regexp_other
    (if length (scan rows) =? 0 then None
     else Some {| ACL.TenantID := tenantID; ACL.ChannelID := channelID;
                  ACL.Rules := acl_of_row <$> scan rows |}) attrs)
  = admits attrs (acl_of_row <$> rows).
Proof.
  rewrite scan_perm. unfold admits. destruct rows as [|r rows]; [done|].
  cbn [length Nat.eqb]. rewrite ACL.Allowed_existsb. cbn [ACL.Rules].
  by rewrite (existsb_perm _ _ _ (fmap_Permutation acl_of_row _ _ (scan_perm (r :: rows)))).
Qed.

Lemma recipient_gate tenantID channelID (rows : list recipientRuleRow) dflt skill :
  Recipient.IsAllowed
    (if (length (scan rows) =? 0) && dflt then None
     else Some {| Recipient.TenantID := tenantID; Recipient.ChannelID := channelID;
                  Recipient.DefaultAllow := dflt;
                  Recipient.Rules := recipient_of_row <$> scan rows |}) skill
  = skill_admitted skill dflt (recipient_of_row <$> rows).
Proof.
  rewrite scan_perm. unfold skill_admitted.
  destruct ((length rows =? 0) && dflt) eqn:E.
  - apply andb_true_iff in E as [E ->]. destruct rows; done.
  - cbn [Recipient.IsAllowed Recipient.Rules Recipient.DefaultAllow].
    rewrite Recipient.allowed_loop_spec. simpl.
    by rewrite !(existsb_perm _ _ _ (fmap_Permutation recipient_of_row _ _ (scan_perm rows))).
Qed.

Definition resolved (tenantID channelID : string) (t : Tables) (s : PolicySnapshot) : Prop :=
  let ch := channel_view tenantID channelID t in
  EffectiveMode s =
    resolveEffectiveMode (default EmptyString (tenant_policies t !! tenantID))
      (cm_mode ch) (cm_present ch) ∧
  DenyLocalRetrieval s = cm_denyLocal ch ∧
  (∀ attrs, ACL.Allowed (ACL.Evaluate regexp_other (ACL s) attrs)
            = admits attrs (visible_acl tenantID channelID t)) ∧
  (∀ skill, Recipient.IsAllowed (Recipient s) skill
            = skill_admitted skill (default_allow ch) (visible_recipients tenantID channelID t)).

Lemma Resolve_Ok tenantID channelID w s w' :
  Resolve tenantID channelID w = (Ok s, w') → resolved tenantID channelID (tables w) s.
Proof.
  unfold Resolve, loadTenantMode, loadChannelMode, loadACLRules, loadRecipientRules,
    loadNamespacePolicies.
  destruct (str_empty tenantID); [done|].
  set (cm := if str_empty channelID then ret no_channel else _). intros Hr. run_ok.
  rename x1 into ch, x2 into w1.
  assert (tables w1 = tables w ∧ ch = channel_view tenantID channelID (tables w)) as [Ht Hch].
  { unfold cm, channel_view in *. destruct (str_empty channelID); by run_ok. }
  unfold resolved. rewrite <- Hch, <- Ht. simpl. split_and!; try done.
  - intros attrs. apply acl_gate.
  - intros skill. apply recipient_gate.
Qed.

Lemma Resolve_total tenantID channelID w :
  (∀ n, sql_fails n = false) → tenantID ≠ EmptyString →
  ∃ s w', Resolve tenantID channelID w = (Ok s, w').
Proof.
  intros Hn Ht. apply str_empty_false in Ht.
  unfold Resolve, loadTenantMode, loadChannelMode, loadACLRules, loadRecipientRules,
    loadNamespacePolicies. rewrite Ht.
  destruct (str_empty channelID); unfold bind, ret; rewrite !(query_total _ _ Hn); eauto.
Qed.

(** ** What [ApplySnapshot] writes *)

Definition snap_acl (s : PolicySnapshot) : list ACL.ACLRule := from_option ACL.Rules [] (ACL s).
Definition snap_recipients (s : PolicySnapshot) : list Recipient.RecipientRule :=
  from_option Recipient.Rules [] (Recipient s).

Definition snap_channel (s : PolicySnapshot) : channelPolicyRow :=
  {| cp_PrivacyMode := EffectiveMode s; cp_RecipientDefault := recipientDefault (Recipient s);
     cp_DenyLocalRetrieval := DenyLocalRetrieval s |}.

Definition applied (fa fr : nat → string) (tenantID channelID : string) (s : PolicySnapshot)
    (t : Tables) : Tables :=
  {| policy_drafts := policy_drafts t;
     tenant_policies :=
       if str_empty channelID then <[tenantID := EffectiveMode s]> (tenant_policies t)
       else tenant_policies t;
     channel_policies :=
       if str_empty channelID then channel_policies t
       else <[(tenantID, channelID) := snap_channel s]> (channel_policies t);
     namespace_policies := namespace_policies t;
     policy_acl_rules :=
       List.filter (λ r, negb (acl_scope tenantID channelID r)) (policy_acl_rules t)
       ++ acl_rows fa tenantID channelID (snap_acl s);
     recipient_policies :=
       List.filter (λ r, negb (recipient_scope tenantID channelID r)) (recipient_policies t)
       ++ recipient_rows fr tenantID channelID (snap_recipients s);
     policy_versions := policy_versions t; audit_logs := audit_logs t |}.

Lemma replaceACLRules_Ok tenantID channelID l w u w' :
  replaceACLRules tenantID channelID l w = (Ok u, w') →
  ∃ f, tables w' = set_acl (λ rows,
         List.filter (λ r, negb (acl_scope tenantID channelID r)) rows
         ++ acl_rows f tenantID channelID (from_option ACL.Rules [] l)) (tables w).
Proof.
  unfold replaceACLRules. intros Hr. run_ok. destruct l as [l|]; [|run_ok].
  - destruct (ACL.Rules l) as [|r rs] eqn:E; simpl in Hr; run_ok.
    + exists (λ _, EmptyString). simpl. rewrite E. unfold set_acl; simpl. by rewrite app_nil_r.
    + eexists. simpl. by rewrite E.
  - exists (λ _, EmptyString). unfold set_acl; simpl. by rewrite app_nil_r.
Qed.

Lemma replaceRecipientRules_Ok tenantID channelID l w u w' :
  replaceRecipientRules tenantID channelID l w = (Ok u, w') →
  ∃ f, tables w' = set_recipients (λ rows,
         List.filter (λ r, negb (recipient_scope tenantID channelID r)) rows
         ++ recipient_rows f tenantID channelID (from_option Recipient.Rules [] l)) (tables w).
Proof.
  unfold replaceRecipientRules. intros Hr. run_ok. destruct l as [l|]; [|run_ok].
  - destruct (Recipient.Rules l) as [|r rs] eqn:E; simpl in Hr; run_ok.
    + exists (λ _, EmptyString). simpl. rewrite E. unfold set_recipients; simpl. by rewrite app_nil_r.
    + eexists. simpl. by rewrite E.
  - exists (λ _, EmptyString). unfold set_recipients; simpl. by rewrite app_nil_r.
Qed.

Lemma ApplySnapshot_Ok tenantID channelID s w u w' :
  ApplySnapshot tenantID channelID s w = (Ok u, w') →
  tenantID ≠ EmptyString ∧ ∃ fa fr, tables w' = applied fa fr tenantID channelID s (tables w).
Proof.
  unfold ApplySnapshot. destruct (str_empty tenantID) eqn:Et; [done|]. intros Hr. run_ok.
  apply replaceRecipientRules_Ok in Hr as [fr Hr].
  match goal with H' : replaceACLRules _ _ _ _ = _ |- _ =>
    apply replaceACLRules_Ok in H' as [fa Ha] end.
  split; [by apply str_empty_false|]. exists fa, fr. rewrite Hr, Ha. unfold applied.
  destruct (str_empty channelID); unfold upsertTenantPolicy, upsertChannelPolicy in *; by run_ok.
Qed.

Lemma replaceACLRules_total tenantID channelID l w :
  (∀ n, sql_fails n = false) → ∃ w', replaceACLRules tenantID channelID l w = (Ok tt, w').
Proof.
  intros Hn. unfold replaceACLRules, bind, ret. rewrite exec_total by done.
  destruct l as [l|]; [|by eexists]. destruct (_ =? _); [by eexists|].
  rewrite exec_total by done. by eexists.
Qed.

Lemma replaceRecipientRules_total tenantID channelID l w :
  (∀ n, sql_fails n = false) → ∃ w', replaceRecipientRules tenantID channelID l w = (Ok tt, w').
Proof.
  intros Hn. unfold replaceRecipientRules, bind, ret. rewrite exec_total by done.
  destruct l as [l|]; [|by eexists]. destruct (_ =? _); [by eexists|].
  rewrite exec_total by done. by eexists.
Qed.

Lemma ApplySnapshot_total tenantID channelID s w :
  (∀ n, sql_fails n = false) → tenantID ≠ EmptyString →
  ∃ w', ApplySnapshot tenantID channelID s w = (Ok tt, w').
Proof.
  intros Hn Ht. apply str_empty_false in Ht.
  unfold ApplySnapshot, upsertTenantPolicy, upsertChannelPolicy. rewrite Ht. unfold bind.
  destruct (str_empty channelID); rewrite exec_total by done;
    (match goal with |- context [replaceACLRules ?t ?c ?l ?w'] =>
       destruct (replaceACLRules_total t c l w' Hn) as [w1 ->] end);
    by apply replaceRecipientRules_total.
Qed.

(** ** Round trip *)

(** What a rule becomes on its way through the table. *)
Definition stored_rule (r : ACL.ACLRule) : ACL.ACLRule :=
  {| ACL.SourceID := trim_right_spaces (ACL.SourceID r); ACL.NamespaceID := ACL.NamespaceID r;
     ACL.PathGlob := ACL.PathGlob r; ACL.Action := ACL.Action r;
     ACL.ComputeTier := ACL.ComputeTier r |}.

Lemma acl_rows_rules f tenantID channelID rules :
  acl_of_row <$> acl_rows f tenantID channelID rules = stored_rule <$> rules.
Proof.
  unfold acl_rows. revert f. induction rules as [|r rules IH]; intros f; simpl; [done|].
  f_equal. apply (IH (λ i, f (S i))).
Qed.

Lemma recipient_rows_rules f tenantID channelID rules :
  recipient_of_row <$> recipient_rows f tenantID channelID rules = rules.
Proof.
  unfold recipient_rows. revert f. induction rules as [|[sk a] rules IH]; intros f; simpl; [done|].
  f_equal. apply (IH (λ i, f (S i))).
Qed.

Lemma acl_rows_owner f tenantID channelID rules :
  Forall (λ r, ar_TenantID r = tenantID ∧ ar_ChannelID r = Some channelID)
    (acl_rows f tenantID channelID rules).
Proof.
  unfold acl_rows. revert f. induction rules as [|r rules IH]; intros f; simpl; constructor;
    [done|apply (IH (λ i, f (S i)))].
Qed.

Lemma recipient_rows_owner f tenantID channelID rules :
  Forall (λ r, rr_TenantID r = tenantID ∧ rr_ChannelID r = channelID)
    (recipient_rows f tenantID channelID rules).
Proof.
  unfold recipient_rows. revert f. induction rules as [|r rules IH]; intros f; simpl; constructor;
    [done|apply (IH (λ i, f (S i)))].
Qed.

Lemma acl_rows_visible f tenantID channelID rules :
  Forall (λ r, acl_visible tenantID channelID r = true) (acl_rows f tenantID channelID rules).
Proof.
  eapply Forall_impl; [apply acl_rows_owner|]. intros r [Ht Hc]. unfold acl_visible.
  rewrite Ht, Hc, !str_eqb_refl. by destruct (str_empty channelID).
Qed.

Lemma recipient_rows_visible f tenantID channelID rules :
  Forall (λ r, recipient_visible tenantID channelID r = true)
    (recipient_rows f tenantID channelID rules).
Proof.
  eapply Forall_impl; [apply recipient_rows_owner|]. intros r [Ht Hc]. unfold recipient_visible.
  rewrite Ht, Hc, !str_eqb_refl. by destruct (str_empty channelID).
Qed.

(** Replacing a channel's rules leaves the tenant-wide ones visible; replacing the
    tenant-wide rules leaves none of them. *)
Lemma acl_visible_kept tenantID channelID r :
  acl_visible tenantID channelID r && negb (acl_scope tenantID channelID r)
  = negb (str_empty channelID) && acl_visible tenantID EmptyString r.
Proof.
  unfold acl_visible, acl_scope. destruct (str_eqb (ar_TenantID r) tenantID); simpl;
    [|by rewrite andb_false_r].
  destruct (str_empty channelID) eqn:Ec, (ar_ChannelID r) as [c|]; simpl; try done;
    destruct (str_empty c) eqn:E; simpl; try done.
  - apply str_empty_true in E as ->. destruct channelID; done.
  - by destruct (str_eqb c channelID).
Qed.

Lemma recipient_visible_kept tenantID channelID r :
  recipient_visible tenantID channelID r && negb (recipient_scope tenantID channelID r)
  = negb (str_empty channelID) && recipient_visible tenantID EmptyString r.
Proof.
  unfold recipient_visible, recipient_scope.
  destruct (str_eqb (rr_TenantID r) tenantID); simpl; [|by rewrite andb_false_r].
  destruct (str_empty (rr_ChannelID r)) eqn:E; simpl.
  - apply str_empty_true in E as ->. destruct channelID; done.
  - destruct (str_empty channelID); simpl; [done|].
    by destruct (str_eqb (rr_ChannelID r) channelID).
Qed.

Lemma visible_acl_applied fa fr tenantID channelID s t :
  visible_acl tenantID channelID (applied fa fr tenantID channelID s t) =
  (if str_empty channelID then [] else visible_acl tenantID EmptyString t)
  ++ (stored_rule <$> snap_acl s).
Proof.
  unfold visible_acl, applied. cbn [policy_acl_rules].
  rewrite List.filter_app, fmap_app, (filter_true_id _ (acl_rows _ _ _ _)) by apply acl_rows_visible.
  rewrite acl_rows_rules. f_equal.
  rewrite (filter_filter_eq _ _ _ _ (acl_visible_kept tenantID channelID)).
  destruct (str_empty channelID); simpl; [|done]. by rewrite filter_false_nil.
Qed.

Lemma visible_recipients_applied fa fr tenantID channelID s t :
  visible_recipients tenantID channelID (applied fa fr tenantID channelID s t) =
  (if str_empty channelID then [] else visible_recipients tenantID EmptyString t)
  ++ snap_recipients s.
Proof.
  unfold visible_recipients, applied. cbn [recipient_policies].
  rewrite List.filter_app, fmap_app, (filter_true_id _ (recipient_rows _ _ _ _))
    by apply recipient_rows_visible.
  rewrite recipient_rows_rules. f_equal.
  rewrite (filter_filter_eq _ _ _ _ (recipient_visible_kept tenantID channelID)).
  destruct (str_empty channelID); simpl; [|done]. by rewrite filter_false_nil.
Qed.

(** C9: applying a channel's snapshot that names a privacy mode, on a database whose
    statements do not fail, and resolving the channel again gives back the snapshot's
    mode, local-retrieval flag, access rules and recipient rules on top of the tenant's baseline:
    the mode is the strictest of the tenant's and the snapshot's (the snapshot's when
    the tenant has none), local retrieval is denied exactly as the snapshot says, a
    chunk passes the access rules exactly when both the baseline's and the snapshot's let it pass, the
    latter with the trailing spaces of their source ids trimmed, and a skill is
    judged by the union of the recipient rules with the snapshot's own default. The
    snapshot's chunk ACL and namespace policies have no table among those written and
    are not part of the claim; nor is a snapshot without a mode, which reads back as
    no channel policy. *)
Theorem ApplySnapshot_Resolve_channel tenantID channelID s w :
  (∀ n, sql_fails n = false) →
  tenantID ≠ EmptyString → channelID ≠ EmptyString → EffectiveMode s ≠ EmptyString →
  ∃ w1 w2 s' base wb,
    ApplySnapshot tenantID channelID s w = (Ok tt, w1) ∧
    Resolve tenantID channelID w1 = (Ok s', w2) ∧
    Resolve tenantID EmptyString w = (Ok base, wb) ∧
    EffectiveMode s' =
      (if str_empty (EffectiveMode base) then EffectiveMode s
       else PrivacyMode.EffectiveMode (EffectiveMode base) (EffectiveMode s)) ∧
    DenyLocalRetrieval s' = DenyLocalRetrieval s ∧
    (∀ attrs, ACL.Allowed (ACL.Evaluate regexp_other (ACL s') attrs)
       = ACL.Allowed (ACL.Evaluate regexp_other (ACL base) attrs)
         && admits attrs (stored_rule <$> snap_acl s)) ∧
    (∀ skill, Recipient.IsAllowed (Recipient s') skill
       = skill_admitted skill (from_option Recipient.DefaultAllow true (Recipient s))
           (visible_recipients tenantID EmptyString (tables w) ++ snap_recipients s)).
Proof.
  intros Hn Ht Hc Hm.
  destruct (ApplySnapshot_total tenantID channelID s w Hn Ht) as [w1 Ha].
  destruct (Resolve_total tenantID channelID w1 Hn Ht) as (s' & w2 & Hr).
  destruct (Resolve_total tenantID EmptyString w Hn Ht) as (base & wb & Hb).
  exists w1, w2, s', base, wb. do 3 (split; [done|]).
  apply ApplySnapshot_Ok in Ha as (_ & fa & fr & Ha).
  apply Resolve_Ok in Hr as (Hr1 & Hr2 & Hr3 & Hr4).
  apply Resolve_Ok in Hb as (Hb1 & Hb2 & Hb3 & Hb4).
  apply str_empty_false in Hc, Hm. rewrite Ha in Hr1, Hr2, Hr3, Hr4.
  unfold channel_view in Hb1, Hr1, Hr2, Hr4.
  cbn [applied channel_policies tenant_policies] in Hr1, Hr2, Hr4.
  rewrite Hc, lookup_insert_eq in Hr1, Hr2, Hr4. cbn [channel_mode] in Hr1, Hr2, Hr4.
  cbn [snap_channel cp_PrivacyMode] in Hr1, Hr2, Hr4. rewrite Hm in Hr1, Hr2, Hr4.
  split_and!.
  - rewrite Hr1, Hb1. unfold resolveEffectiveMode. simpl.
    by destruct (default _ _) as [|c r]; simpl.
  - done.
  - intros attrs. rewrite Hr3, Hb3, visible_acl_applied, Hc. unfold admits.
    by rewrite existsb_app, negb_orb.
  - intros skill. rewrite Hr4, visible_recipients_applied, Hc. f_equal.
    unfold default_allow, recipientDefault. simpl. by destruct (Recipient s) as [[? ? ? []]|].
Qed.

(** Applying a tenant-wide snapshot makes the tenant-wide view exactly the
    snapshot's mode and rule lists, whatever was there before; the recipient
    default and the local-retrieval flag have no tenant-wide column, so the view
    always admits by default and never denies local retrieval. *)
Theorem ApplySnapshot_Resolve_tenant tenantID s w :
  (∀ n, sql_fails n = false) → tenantID ≠ EmptyString →
  ∃ w1 w2 s',
    ApplySnapshot tenantID EmptyString s w = (Ok tt, w1) ∧
    Resolve tenantID EmptyString w1 = (Ok s', w2) ∧
    EffectiveMode s' = EffectiveMode s ∧ DenyLocalRetrieval s' = false ∧
    (∀ attrs, ACL.Allowed (ACL.Evaluate regexp_other (ACL s') attrs)
       = admits attrs (stored_rule <$> snap_acl s)) ∧
    (∀ skill, Recipient.IsAllowed (Recipient s') skill
       = skill_admitted skill true (snap_recipients s)).
Proof.
  intros Hn Ht.
  destruct (ApplySnapshot_total tenantID EmptyString s w Hn Ht) as [w1 Ha].
  destruct (Resolve_total tenantID EmptyString w1 Hn Ht) as (s' & w2 & Hr).
  exists w1, w2, s'. do 2 (split; [done|]).
  apply ApplySnapshot_Ok in Ha as (_ & fa & fr & Ha).
  apply Resolve_Ok in Hr as (Hr1 & Hr2 & Hr3 & Hr4). rewrite Ha in Hr1, Hr2, Hr3, Hr4.
  split_and!.
  - rewrite Hr1. simpl. rewrite lookup_insert_eq. by destruct (EffectiveMode s).
  - done.
  - intros attrs. by rewrite Hr3, visible_acl_applied.
  - intros skill. by rewrite Hr4, visible_recipients_applied.
Qed.

(** ** Isolation *)

Definition resolve_value (tenantID channelID : string) (t : Tables) : PolicySnapshot :=
  let ch := channel_view tenantID channelID t in
  let arows := scan (List.filter (acl_visible tenantID channelID) (policy_acl_rules t)) in
  let rrows := scan (List.filter (recipient_visible tenantID channelID) (recipient_policies t)) in
  {| EffectiveMode :=
       resolveEffectiveMode (default EmptyString (tenant_policies t !! tenantID))
         (cm_mode ch) (cm_present ch);
     ACL := if length arows =? 0 then None
            else Some {| ACL.TenantID := tenantID; ACL.ChannelID := channelID;
                         ACL.Rules := acl_of_row <$> arows |};
     ChunkACL := None;
     Recipient := if (length rrows =? 0) && default_allow ch then None
                  else Some {| Recipient.TenantID := tenantID; Recipient.ChannelID := channelID;
                               Recipient.DefaultAllow := default_allow ch;
                               Recipient.Rules := recipient_of_row <$> rrows |};
     DenyLocalRetrieval := cm_denyLocal ch;
     NamespacePolicies := foldl (λ out row, add_namespace row out) ∅
       (scan (List.filter (λ row, str_eqb row.1.1 tenantID)
                (map_to_list (namespace_policies t)))) |}.

Lemma Resolve_value tenantID channelID w s w' :
  Resolve tenantID channelID w = (Ok s, w') → s = resolve_value tenantID channelID (tables w).
Proof.
  unfold Resolve, loadTenantMode, loadChannelMode, loadACLRules, loadRecipientRules,
    loadNamespacePolicies, resolve_value, channel_view.
  destruct (str_empty tenantID); [done|].
  set (cm := if str_empty channelID then ret no_channel else _). intros Hr. run_ok.
  unfold cm in *. by destruct (str_empty channelID); run_ok.
Qed.

Lemma filter_swap_scope {A} (keep scope : A → bool) (new rows : list A) :
  (∀ r, keep r = true → scope r = false) → (∀ r, r ∈ new → keep r = false) →
  List.filter keep (List.filter (λ r, negb (scope r)) rows ++ new) = List.filter keep rows.
Proof.
  intros Hs Hn. rewrite List.filter_app.
  rewrite (filter_filter_eq keep _ keep).
  - induction new as [|x new IH]; simpl; [by rewrite app_nil_r|].
    rewrite (Hn x) by left. apply IH. intros r Hr. apply Hn. by right.
  - intros r. specialize (Hs r). destruct (keep r); simpl; [|done]. by rewrite Hs.
Qed.

(** The scope a reader sees and the scope a writer replaces, when they differ. *)
Definition foreign (tenantID channelID tenantID' channelID' : string) : Prop :=
  tenantID' ≠ tenantID ∨ (channelID ≠ EmptyString ∧ channelID' ≠ channelID).

Lemma foreign_row tenantID channelID tenantID' channelID' t c :
  foreign tenantID channelID tenantID' channelID' →
  t = tenantID → c = channelID →
  str_eqb t tenantID'
  && (str_empty c || (negb (str_empty channelID') && str_eqb c channelID')) = false.
Proof.
  intros [Hd|[Hc Hd]] -> ->.
  - apply andb_false_intro1, str_eqb_neq. congruence.
  - apply andb_false_intro2. apply str_empty_false in Hc as ->. simpl.
    apply andb_false_intro2, str_eqb_neq. congruence.
Qed.

Lemma foreign_acl fa fr tenantID channelID s t tenantID' channelID' :
  foreign tenantID channelID tenantID' channelID' →
  List.filter (acl_visible tenantID' channelID')
    (policy_acl_rules (applied fa fr tenantID channelID s t))
  = List.filter (acl_visible tenantID' channelID') (policy_acl_rules t).
Proof.
  intros Hd. apply filter_swap_scope.
  - intros x Hx. apply not_true_iff_false. intros Hs. revert Hx. apply not_true_iff_false.
    unfold acl_scope, acl_visible in *. apply andb_true_iff in Hs as [Ht%str_eqb_eq Hc].
    destruct (ar_ChannelID x) as [c|]; [|destruct Hd as [Hd|[Hd _]]].
    + apply (foreign_row tenantID channelID); [done|done|].
      destruct (str_empty channelID) eqn:E; [|by apply str_eqb_eq].
      apply str_empty_true in E as ->. by apply str_empty_true.
    + apply andb_false_intro1, str_eqb_neq. congruence.
    + apply str_empty_false in Hd. by rewrite Hd in Hc.
  - intros x Hx. pose proof (acl_rows_owner fa tenantID channelID (snap_acl s)) as Ho.
    rewrite Forall_forall in Ho. destruct (Ho x Hx) as [Ht Hc]. unfold acl_visible. rewrite Hc.
    by apply (foreign_row tenantID channelID).
Qed.

Lemma foreign_recipients fa fr tenantID channelID s t tenantID' channelID' :
  foreign tenantID channelID tenantID' channelID' →
  List.filter (recipient_visible tenantID' channelID')
    (recipient_policies (applied fa fr tenantID channelID s t))
  = List.filter (recipient_visible tenantID' channelID') (recipient_policies t).
Proof.
  intros Hd. apply filter_swap_scope.
  - intros x Hx. apply not_true_iff_false. intros Hs. revert Hx. apply not_true_iff_false.
    apply andb_true_iff in Hs as [Ht%str_eqb_eq Hc%str_eqb_eq].
    by apply (foreign_row tenantID channelID).
  - intros x Hx. pose proof (recipient_rows_owner fr tenantID channelID (snap_recipients s)) as Ho.
    rewrite Forall_forall in Ho. destruct (Ho x Hx) as [Ht Hc].
    by apply (foreign_row tenantID channelID).
Qed.

(** A promotion touches nothing outside its scope: another tenant's snapshot,
    and for a channel-scoped promotion also every other channel's and the
    tenant-wide one, resolves to the very same value before and after. *)
Theorem ApplySnapshot_isolated tenantID channelID s w w1 tenantID' channelID' r r' wr wr' :
  ApplySnapshot tenantID channelID s w = (Ok tt, w1) →
  (tenantID' ≠ tenantID ∨ (channelID ≠ EmptyString ∧ channelID' ≠ channelID)) →
  Resolve tenantID' channelID' w = (Ok r, wr) →
  Resolve tenantID' channelID' w1 = (Ok r', wr') →
  r' = r.
Proof.
  intros (_ & fa & fr & Ha)%ApplySnapshot_Ok Hd ->%Resolve_value ->%Resolve_value.
  rewrite Ha. unfold resolve_value.
  rewrite (foreign_acl _ _ _ _ _ _ _ _ Hd), (foreign_recipients _ _ _ _ _ _ _ _ Hd).
  assert (tenant_policies (applied fa fr tenantID channelID s (tables w)) !! tenantID'
          = tenant_policies (tables w) !! tenantID') as ->.
  { simpl. destruct (str_empty channelID) eqn:E; [|done]. apply lookup_insert_ne.
    apply str_empty_true in E. destruct Hd as [?|[? _]]; congruence. }
  assert (channel_view tenantID' channelID' (applied fa fr tenantID channelID s (tables w))
          = channel_view tenantID' channelID' (tables w)) as ->; [|done].
  unfold channel_view. simpl. destruct (str_empty channelID), (str_empty channelID'); try done.
  rewrite lookup_insert_ne; [done|]. destruct Hd as [?|[_ ?]]; congruence.
Qed.

End Views.

(** ** Witnesses on a database that does not fail *)

Definition no_tables : Tables :=
  {| policy_drafts := ∅; tenant_policies := ∅; channel_policies := ∅; namespace_policies := ∅;
     policy_acl_rules := []; recipient_policies := []; policy_versions := []; audit_logs := [] |}.
Definition fresh_world : World :=
  {| tables := no_tables; tick := 0; pending := []; sent := [] |}.

Definition sample_snapshot : PolicySnapshot :=
  {| EffectiveMode := "local-only";
     ACL := Some {| ACL.TenantID := "t"; ACL.ChannelID := "c"; ACL.Rules :=
       [{| ACL.SourceID := "src "; ACL.NamespaceID := ""; ACL.PathGlob := "";
           ACL.Action := "deny"; ACL.ComputeTier := "" |}] |};
     ChunkACL := None;
     Recipient := Some {| Recipient.TenantID := "t"; Recipient.ChannelID := "c";
       Recipient.Rules := []; Recipient.DefaultAllow := false |};
     DenyLocalRetrieval := true; NamespacePolicies := ∅ |}.

Lemma ApplySnapshot_Resolve_channel_witness :
  ∃ s' w1, (@Resolve steady ascii_tables "t" "c" w1).1 = Ok s' ∧ EffectiveMode s' = "local-only"%string
    ∧ DenyLocalRetrieval s' = true.
Proof.
  destruct (@ApplySnapshot_Resolve_channel steady ascii_tables (λ _ _, false) "t" "c"
    sample_snapshot fresh_world) as (w1 & w2 & s' & base & wb & _ & Hr & Hb & Hm & Hd & _);
    [done..|].
  exists s', w1. rewrite Hr. split; [done|]. split; [|done].
  rewrite Hm. vm_compute in Hb. by injection Hb as <- <-.
Defined.

Lemma ApplySnapshot_Resolve_tenant_witness :
  ∃ s' w1, (@Resolve steady ascii_tables "t" "" w1).1 = Ok s' ∧
    EffectiveMode s' = "local-only"%string ∧
    Recipient.IsAllowed (Recipient s') "any-skill" = true.
Proof.
  destruct (@ApplySnapshot_Resolve_tenant steady ascii_tables (λ _ _, false) "t"
    sample_snapshot fresh_world) as (w1 & w2 & s' & _ & Hr & Hm & _ & _ & Hs); [done..|].
  exists s', w1. rewrite Hr, Hm, Hs. done.
Defined.

Lemma ApplySnapshot_isolated_witness :
  let w1 := (@LiveStoreGORM.ApplySnapshot steady "t" "c" sample_snapshot fresh_world).2 in
  (@Resolve steady ascii_tables "t2" "c" w1).1 = (@Resolve steady ascii_tables "t2" "c" fresh_world).1.
Proof.
  intros w1.
  destruct (@Resolve steady ascii_tables "t2" "c" fresh_world) as [[r|e] wr] eqn:E;
    [|vm_compute in E; discriminate E].
  destruct (@Resolve steady ascii_tables "t2" "c" w1) as [[r'|e] wr'] eqn:E';
    [|vm_compute in E'; discriminate E'].
  simpl. f_equal.
  refine (@ApplySnapshot_isolated steady ascii_tables "t" "c" sample_snapshot fresh_world w1
    "t2" "c" r r' wr wr' _ _ E E'); [reflexivity|by left].
Defined.

End LiveViews.

(** ** Paged listing of the version history *)

Module Paging.
Import PolicyVersionRepository.

(** The rows a filter selects whatever its cursor. *)
Definition in_scope (f : VersionListFilter) (v : PolicyVersion) : bool :=
  str_eqb (pv_TenantID v) (f_TenantID f)
  && (str_empty (f_ChannelID f) || str_eqb (pv_ChannelID v) (f_ChannelID f)).

(** The whole listing a filter selects, newest id first. *)
Definition listing (f : VersionListFilter) (t : Tables) : list PolicyVersion :=
  Cursor.listing pv_ID (λ v, in_scope f v && Cursor.below pv_ID (f_Cursor f) v) (policy_versions t).

Definition with_cursor (f : VersionListFilter) (c : string) : VersionListFilter :=
  {| f_TenantID := f_TenantID f; f_ChannelID := f_ChannelID f; f_Limit := f_Limit f;
     f_Cursor := c |}.

Lemma page_of_listing f t : page f t = take (Z.to_nat (clampLimit (f_Limit f))) (listing f t).
Proof. done. Qed.

(** Paging through the version history loses and repeats nothing: when a page
    ends with the version [v], asking again with [v]'s id as the cursor continues
    the listing exactly where the page stopped. *)
Theorem page_cursor_continues f t vs v :
  Cursor.distinct_ids pv_ID (policy_versions t) → (∀ u, u ∈ policy_versions t → pv_ID u ≠ EmptyString) →
  page f t = vs ++ [v] →
  listing f t = page f t ++ listing (with_cursor f (pv_ID v)) t.
Proof.
  intros Hd Hne Hp. rewrite page_of_listing in *.
  pose proof (take_drop (Z.to_nat (clampLimit (f_Limit f))) (listing f t)) as Hspl.
  rewrite Hp in *. set (rest := drop _ _) in *. rewrite <- app_assoc in Hspl. simpl in Hspl.
  assert (Hv : v ∈ listing f t) by (rewrite <- Hspl; set_solver +).
  apply elem_of_sort_by, elem_of_filterb in Hv as [Hsel Hv].
  assert (Hn : listing (with_cursor f (pv_ID v)) t = rest).
  { eapply (Cursor.listing_next pv_ID (in_scope f)); [done|by apply Hne| |symmetry; exact Hspl].
    apply andb_true_iff in Hsel as [_ Hsel].
    apply orb_true_iff in Hsel as [?|?]; [left; by apply str_empty_true|by right]. }
  by rewrite Hn, <- Hspl, <- app_assoc.
Qed.

Lemma page_cursor_continues_witness :
  let v id := {| pv_ID := id; pv_TenantID := "t"; pv_ChannelID := "c"; pv_DraftID := "d";
                 pv_Action := "policy.promoted"; pv_ActorID := "a"; pv_Snapshot := empty;
                 pv_CreatedAt := 0 |} in
  let t := set_versions (λ _, [v "01"; v "03"; v "02"]%string) LiveViews.no_tables in
  let f := {| f_TenantID := "t"; f_ChannelID := ""; f_Limit := 2; f_Cursor := "" |} in
  listing f t = page f t ++ listing (with_cursor f "02") t.
Proof.
  intros v t f. apply (page_cursor_continues f t [v "03"%string] (v "02"%string)).
  - apply (bool_decide_unpack (NoDup (pv_ID <$> policy_versions t))). by vm_compute.
  - intros u Hu. repeat (apply elem_of_cons in Hu as [->|Hu]; [done|]).
    by apply not_elem_of_nil in Hu.
  - by vm_compute.
Defined.

End Paging.
