(* ===== verification/Promotion.v ===== *)
(** * The promotion workflow

    internal/policy/promotion.go together with the audit writers it is wired to
    (internal/audit/repository.go and the buffering wrapper of
    internal/admin/notification_audit.go). [PromoteDraft] and [RejectDraft] are
    atomic: whatever statement fails, either everything they do happens, or
    nothing does and no subscriber is notified. A step relation over concurrent
    calls shows that a draft is decided at most once. *)

From S2P Require Import Prelude GoString PrivacyMode Glob Acl Conflict PolicyDB PolicyStore.
Import Snapshot.

(** What the workflow asks of the store behind [LiveStore.ApplySnapshot]: it stays
    inside the live tables and sends no notification. *)
Class LiveStore `{Database} := {
  ls_ApplySnapshot : string → string → PolicySnapshot → M unit;
  ls_quiet tenantID channelID s : quiet (ls_ApplySnapshot tenantID channelID s);
  ls_frame tenantID channelID s w w' :
    ls_ApplySnapshot tenantID channelID s w = (Ok tt, w') →
    policy_drafts (tables w') = policy_drafts (tables w) ∧
    policy_versions (tables w') = policy_versions (tables w) ∧
    audit_logs (tables w') = audit_logs (tables w)
}.

Lemma LiveStoreGORM_quiet `{Database} tenantID channelID s :
  quiet (LiveStoreGORM.ApplySnapshot tenantID channelID s).
Proof.
  unfold LiveStoreGORM.ApplySnapshot, LiveStoreGORM.replaceACLRules,
    LiveStoreGORM.replaceRecipientRules, LiveStoreGORM.upsertTenantPolicy,
    LiveStoreGORM.upsertChannelPolicy.
  destruct (str_empty tenantID); [auto with db|].
  apply quiet_bind; [destruct (str_empty channelID); auto with db|intros _].
  apply quiet_bind; intros; (apply quiet_bind; [auto with db|intros _]);
    case_match; auto with db; case_match; auto with db; intros w; apply quiet_exec.
Qed.

#[export] Program Instance LiveStoreGORM_store `{Database} : LiveStore := {|
  ls_ApplySnapshot := LiveStoreGORM.ApplySnapshot;
  ls_quiet := LiveStoreGORM_quiet
|}.
Next Obligation.
  intros ? tenantID channelID s w w' (_ & fa & fr & ->)%LiveViews.ApplySnapshot_Ok. done.
Qed.

Module Audit.

Definition ActionPolicyPromoted : string := "policy.promoted".
Definition ActionPolicyRejected : string := "policy.rejected".

Section Audit.
Context `{Database}.

(** The ULID of an audit row is the second one minted at its instant. *)
Definition NewAuditLog (tenantID actorID action resourceType resourceID : string)
    (metadata : list (string * meta_value)) (traceID : string) : M AuditLog :=
  let* id := make_ulid 1 in
  let* t := now in
  ret {| al_ID := id; al_TenantID := tenantID; al_ActorID := actorID; al_Action := action;
         al_ResourceType := resourceType; al_ResourceID := resourceID; al_Metadata := metadata;
         al_TraceID := traceID; al_CreatedAt := t |}.

Definition Validate (a : AuditLog) : result unit error :=
  if str_empty (al_ID a) then Err (ErrInvalid "audit: missing ID")
  else if str_empty (al_TenantID a) then Err (ErrInvalid "audit: missing tenant_id")
  else if str_empty (al_Action a) then Err (ErrInvalid "audit: missing action")
  else if str_empty (al_ResourceType a) then Err (ErrInvalid "audit: missing resource_type")
  else Ok tt.

Definition Repository_CreateInTx (log : AuditLog) : M unit :=
  match Validate log with
  | Err e => throw e
  | Ok _ => exec (set_audit (λ rows, rows ++ [log]))
  end.

(** The two writers the promoter is wired to: the plain repository, and the
    notifying wrapper around it, with or without a dispatcher. *)
Inductive Writer := Repository | Notifying (dispatcher : bool).

(** The wrapper's buffer is keyed by the transaction handle; [pending] is the entry
    of the running transaction. *)
Definition buffer (log : AuditLog) (w : World) : World :=
  {| tables := tables w; tick := tick w; pending := pending w ++ [log]; sent := sent w |}.

Definition CreateInTx (aw : Writer) (log : AuditLog) : M unit :=
  match aw with
  | Repository => Repository_CreateInTx log
  | Notifying dispatcher =>
      let* _ := Repository_CreateInTx log in
      if dispatcher then λ w, (Ok tt, buffer log w) else ret tt
  end.

Definition Flush (w : World) : World :=
  {| tables := tables w; tick := tick w; pending := []; sent := sent w ++ pending w |}.
Definition Discard (w : World) : World :=
  {| tables := tables w; tick := tick w; pending := []; sent := sent w |}.

(** The notification an appended row leads to. *)
Definition notified (aw : Writer) (log : AuditLog) : list AuditLog :=
  match aw with Notifying true => [log] | _ => [] end.

Lemma CreateInTx_Ok aw log w w' :
  CreateInTx aw log w = (Ok tt, w') →
  tables w' = set_audit (λ rows, rows ++ [log]) (tables w) ∧
  pending w' = pending w ++ notified aw log ∧ sent w' = sent w.
Proof.
  unfold CreateInTx, Repository_CreateInTx. destruct (Validate log); intros Hr.
  - destruct aw as [|[]]; simpl in Hr; run_ok; simplify_eq/=; by rewrite ?app_nil_r.
  - destruct aw; simpl in Hr; run_ok.
Qed.

(** Running [m], whatever its outcome, sends no notification. *)
Definition silent {A} (m : M A) : Prop := ∀ w, sent (m w).2 = sent w.

Lemma silent_quiet {A} (m : M A) : quiet m → silent m.
Proof. intros Hq w. apply Hq. Qed.

Lemma silent_bind {A B} (m : M A) (k : A → M B) :
  silent m → (∀ a, silent (k a)) → silent (bind m k).
Proof.
  intros Hm Hk w. unfold bind. specialize (Hm w). destruct (m w) as [[a|e] w1]; simpl in *; [|done].
  by rewrite Hk.
Qed.

Lemma Repository_quiet log : quiet (CreateInTx Repository log).
Proof. simpl. unfold Repository_CreateInTx. destruct (Validate log); auto with db. Qed.

Lemma CreateInTx_silent aw log : silent (CreateInTx aw log).
Proof.
  intros w. unfold CreateInTx, Repository_CreateInTx, bind, exec, throw.
  destruct aw as [|[]], (Validate log); try done; by destruct (sql_fails (tick w)).
Qed.

End Audit.
End Audit.

Module Promoter.

Section Promoter.
Context `{LiveStore} (regexp_other : bytes → bytes → bool) (quote : string → string).

Record PromotionConfig := { cfg_Audit : Audit.Writer; cfg_Versions : bool }.
Context (cfg : PromotionConfig).

Definition flushAuditNotifications {A} (began : bool) (txErr : result A error) (w : World) : World :=
  if negb began then w
  else match cfg_Audit cfg with
       | Audit.Repository => w
       | Audit.Notifying _ =>
           match txErr with Ok _ => Audit.Flush w | Err _ => Audit.Discard w end
       end.

(** Run a body in a transaction and settle its notifications. *)
Definition settled {A} (body : M A) : M A := λ w,
  let '(r, began, w') := Transaction body w in
  (r, flushAuditNotifications began r w').

(** The optional version row of a decision. *)
Definition record_version (tenantID channelID draftID action actorID : string)
    (snap : PolicySnapshot) : M unit :=
  if cfg_Versions cfg then
    PolicyVersionRepository.Insert (Some
      {| pv_ID := ""; pv_TenantID := tenantID; pv_ChannelID := channelID; pv_DraftID := draftID;
         pv_Action := action; pv_ActorID := actorID; pv_Snapshot := snap; pv_CreatedAt := 0 |})
  else ret tt.

(** The checks of [PromoteDraft] before its transaction. *)
Definition promote_check (tenantID draftID : string)
  : M (Draft * list Conflict.PolicyConflict) :=
  if str_empty tenantID then throw (ErrInvalid "policy: PromoteDraft requires tenantID")
  else if str_empty draftID then throw (ErrInvalid "policy: PromoteDraft requires draftID")
  else
    let* d := DraftRepository.Get tenantID draftID in
    if negb (str_eqb (Status d) DraftStatusDraft) then throw ErrDraftTerminal
    else
      let conflicts := Conflict.DetectConflicts regexp_other quote (Payload d) in
      if Conflict.HasErrors conflicts then throw (ErrPromotionBlocked conflicts)
      else ret (d, conflicts).

(** The body of the transaction of [PromoteDraft]. *)
Definition promote_body (tenantID draftID actorID : string) (d : Draft)
    (conflicts : list Conflict.PolicyConflict) : M Draft :=
  let* _ := ls_ApplySnapshot (TenantID d) (ChannelID d) (Payload d) in
  let* updated := DraftRepository.MarkPromoted tenantID draftID actorID in
  let* t := now in
  let* log := Audit.NewAuditLog tenantID actorID Audit.ActionPolicyPromoted "policy_draft" draftID
    [("channel_id"%string, MStr (ChannelID d)); ("created_by"%string, MStr (CreatedBy d));
     ("promoted_at"%string, MTime t);
     ("warnings"%string, MInt (Z.of_nat (length conflicts)))] "" in
  let* _ := Audit.CreateInTx (cfg_Audit cfg) log in
  let* _ := record_version tenantID (ChannelID d) draftID Audit.ActionPolicyPromoted actorID
              (Payload d) in
  ret updated.

Definition promote_commit (tenantID draftID actorID : string) (d : Draft)
    (conflicts : list Conflict.PolicyConflict) : M Draft :=
  settled (promote_body tenantID draftID actorID d conflicts).

Definition PromoteDraft (tenantID draftID actorID : string) : M Draft :=
  let* dc := promote_check tenantID draftID in
  promote_commit tenantID draftID actorID dc.1 dc.2.

Definition reject_body (tenantID draftID actorID reason : string) : M Draft :=
  let* updated := DraftRepository.MarkRejected tenantID draftID actorID reason in
  let* log := Audit.NewAuditLog tenantID actorID Audit.ActionPolicyRejected "policy_draft" draftID
    [("channel_id"%string, MStr (ChannelID updated)); ("reason"%string, MStr reason)] "" in
  let* _ := Audit.CreateInTx (cfg_Audit cfg) log in
  let* _ := record_version tenantID (ChannelID updated) draftID Audit.ActionPolicyRejected actorID
              (Payload updated) in
  ret updated.

Definition RejectDraft (tenantID draftID actorID reason : string) : M Draft :=
  if str_empty tenantID then throw (ErrInvalid "policy: RejectDraft requires tenantID")
  else if str_empty draftID then throw (ErrInvalid "policy: RejectDraft requires draftID")
  else settled (reject_body tenantID draftID actorID reason).


(** ** Atomicity *)

Lemma find_Some tenantID id t d :
  DraftRepository.find tenantID id t = Some d →
  ∃ row, policy_drafts t !! id = Some row ∧ TenantID row = tenantID ∧
         d = DraftRepository.after_find row.
Proof.
  unfold DraftRepository.find. destruct (policy_drafts t !! id) as [row|]; [|done].
  destruct (str_eqb (TenantID row) tenantID) eqn:E; [|done]. intros [= <-].
  apply str_eqb_eq in E. eauto.
Qed.

Lemma transition_Ok tenantID id tr w d w' :
  DraftRepository.transition tenantID id tr w = (Ok d, w') →
  ∃ row t, policy_drafts (tables w) !! id = Some row ∧ TenantID row = tenantID ∧
    Status row = DraftStatusDraft ∧
    d = DraftRepository.apply tr t (DraftRepository.after_find row) ∧
    tables w' = set_drafts <[ID d := DraftRepository.draft_row d]> (tables w) ∧
    pending w' = pending w ∧ sent w' = sent w.
Proof.
  unfold DraftRepository.transition. destruct (_ || _); [done|]. intros Hr. run_ok.
  destruct (DraftRepository.find _ _ _) as [d0|] eqn:E; [|run_ok].
  apply find_Some in E as (row & Hrow & Ht & ->).
  destruct (str_eqb _ _) eqn:Es; [|done]. apply str_eqb_eq in Es. simpl in Hr. run_ok.
  exists row. eexists. by split_and!.
Qed.

Lemma transition_quiet tenantID id tr : quiet (DraftRepository.transition tenantID id tr).
Proof.
  unfold DraftRepository.transition. destruct (_ || _); [auto with db|].
  apply quiet_bind; [auto with db|]. intros [d|]; [|auto with db].
  destruct (negb _); auto with db.
Qed.

Lemma record_version_Ok tenantID channelID draftID action actorID snap w u w' :
  record_version tenantID channelID draftID action actorID snap w = (Ok u, w') →
  ∃ vs, tables w' = set_versions (λ rows, rows ++ vs) (tables w) ∧
    length vs = (if cfg_Versions cfg then 1 else 0) ∧
    Forall (λ v, pv_DraftID v = draftID ∧ pv_TenantID v = tenantID ∧ pv_Action v = action) vs ∧
    pending w' = pending w ∧ sent w' = sent w.
Proof.
  unfold record_version. destruct (cfg_Versions cfg); simpl; intros Hr; run_ok.
  - eexists [_]. split_and!; try done. by repeat constructor.
  - exists []. split_and!; try done. unfold set_versions. rewrite app_nil_r. by destruct (tables w).
Qed.

Lemma record_version_quiet tenantID channelID draftID action actorID snap :
  quiet (record_version tenantID channelID draftID action actorID snap).
Proof. unfold record_version. destruct (cfg_Versions cfg); simpl; auto with db. Qed.

(** A decision on a draft: the row flips, one audit row and at most one version row
    are appended. *)
Definition decided (tenantID draftID status action : string) (t t' : Tables) (log : AuditLog)
    (d : Draft) : Prop :=
  (∃ row, policy_drafts t !! draftID = Some row ∧ TenantID row = tenantID ∧
     Status row = DraftStatusDraft ∧ ID d = ID row ∧ Payload d = Payload row ∧
     policy_drafts t' = <[ID row := DraftRepository.draft_row d]> (policy_drafts t)) ∧
  Status d = status ∧
  audit_logs t' = audit_logs t ++ [log] ∧ al_ResourceID log = draftID ∧ al_Action log = action ∧
  ∃ vs, policy_versions t' = policy_versions t ++ vs ∧
    length vs = (if cfg_Versions cfg then 1 else 0) ∧ Forall (λ v, pv_DraftID v = draftID) vs.

(** The live tables of [t'] are those [ApplySnapshot] produces from [t]. *)
Definition live_applied (tenantID channelID : string) (s : PolicySnapshot) (t t' : Tables) : Prop :=
  ∃ wa wb, tables wa = t ∧ ls_ApplySnapshot tenantID channelID s wa = (Ok tt, wb) ∧
    tenant_policies t' = tenant_policies (tables wb) ∧
    channel_policies t' = channel_policies (tables wb) ∧
    namespace_policies t' = namespace_policies (tables wb) ∧
    policy_acl_rules t' = policy_acl_rules (tables wb) ∧
    recipient_policies t' = recipient_policies (tables wb).

Lemma promote_body_Ok tenantID draftID actorID d conflicts w d' w' :
  promote_body tenantID draftID actorID d conflicts w = (Ok d', w') →
  ∃ log, decided tenantID draftID DraftStatusPromoted Audit.ActionPolicyPromoted
           (tables w) (tables w') log d' ∧
    live_applied (TenantID d) (ChannelID d) (Payload d) (tables w) (tables w') ∧
    pending w' = pending w ++ Audit.notified (cfg_Audit cfg) log ∧ sent w' = sent w.
Proof.
  unfold promote_body, DraftRepository.MarkPromoted, Audit.NewAuditLog. intros Hr. run_ok.
  repeat match goal with u : unit |- _ => destruct u end.
  match goal with H : ls_ApplySnapshot _ _ _ _ = (_, ?w1) |- _ =>
    rename H into Hls; rename w1 into wl end.
  pose proof (ls_frame _ _ _ _ _ Hls) as (F1 & F2 & F3).
  pose proof (ls_quiet (TenantID d) (ChannelID d) (Payload d) w) as Q. rewrite Hls in Q.
  match goal with H : DraftRepository.transition _ _ _ _ = _ |- _ =>
    apply transition_Ok in H as (row & t & R1 & R2 & R3 & -> & R5 & R6 & R7) end.
  match goal with H : Audit.CreateInTx _ ?l _ = _ |- _ =>
    set (log := l) in *; apply Audit.CreateInTx_Ok in H as (A1 & A2 & A3) end.
  match goal with H : record_version _ _ _ _ _ _ _ = _ |- _ =>
    apply record_version_Ok in H as (vs & V1 & V2 & V3 & V4 & V5) end.
  exists log. rewrite V1, A1, R5. destruct Q as [Q1 Q2]. simpl in *.
  split; [|split; [|split]].
  - unfold decided. simpl. split; [|split_and!; try done].
    + exists row. rewrite <- F1. done.
    + by rewrite F3.
    + exists vs. rewrite F2. split_and!; [done|done|]. eapply Forall_impl; [exact V3|]. naive_solver.
  - by exists w, wl.
  - by rewrite V4, A2, R6, Q1.
  - by rewrite V5, A3, R7.
Qed.

Lemma promote_body_silent tenantID draftID actorID d conflicts :
  Audit.silent (promote_body tenantID draftID actorID d conflicts).
Proof.
  apply Audit.silent_bind; [apply Audit.silent_quiet, ls_quiet|intros _].
  apply Audit.silent_bind; [apply Audit.silent_quiet, transition_quiet|intros u].
  apply Audit.silent_bind; [apply Audit.silent_quiet; auto with db|intros t].
  apply Audit.silent_bind; [apply Audit.silent_quiet; unfold Audit.NewAuditLog; auto with db|intros log].
  apply Audit.silent_bind; [apply Audit.CreateInTx_silent|intros _].
  apply Audit.silent_bind; [apply Audit.silent_quiet, record_version_quiet|intros _].
  apply Audit.silent_quiet; auto with db.
Qed.

Lemma promote_body_quiet tenantID draftID actorID d conflicts :
  cfg_Audit cfg = Audit.Repository →
  quiet (promote_body tenantID draftID actorID d conflicts).
Proof.
  intros Ha. unfold promote_body, Audit.NewAuditLog. rewrite Ha.
  pose proof ls_quiet. pose proof transition_quiet. pose proof record_version_quiet.
  pose proof Audit.Repository_quiet. unfold DraftRepository.MarkPromoted. eauto 20 with db.
Qed.

Lemma reject_body_Ok tenantID draftID actorID reason w d' w' :
  reject_body tenantID draftID actorID reason w = (Ok d', w') →
  ∃ log, decided tenantID draftID DraftStatusRejected Audit.ActionPolicyRejected
           (tables w) (tables w') log d' ∧
    pending w' = pending w ++ Audit.notified (cfg_Audit cfg) log ∧ sent w' = sent w.
Proof.
  unfold reject_body, DraftRepository.MarkRejected, Audit.NewAuditLog. intros Hr. run_ok.
  repeat match goal with u : unit |- _ => destruct u end.
  match goal with H : DraftRepository.transition _ _ _ _ = _ |- _ =>
    apply transition_Ok in H as (row & t & R1 & R2 & R3 & -> & R5 & R6 & R7) end.
  match goal with H : Audit.CreateInTx _ ?l _ = _ |- _ =>
    set (log := l) in *; apply Audit.CreateInTx_Ok in H as (A1 & A2 & A3) end.
  match goal with H : record_version _ _ _ _ _ _ _ = _ |- _ =>
    apply record_version_Ok in H as (vs & V1 & V2 & V3 & V4 & V5) end.
  exists log. rewrite V1, A1, R5. simpl in *.
  split; [|split].
  - unfold decided. simpl. split; [by exists row|split_and!; try done].
    exists vs. split_and!; [done|done|]. eapply Forall_impl; [exact V3|]. naive_solver.
  - by rewrite V4, A2, R6.
  - by rewrite V5, A3, R7.
Qed.

Lemma reject_body_silent tenantID draftID actorID reason :
  Audit.silent (reject_body tenantID draftID actorID reason).
Proof.
  apply Audit.silent_bind; [apply Audit.silent_quiet, transition_quiet|intros u].
  apply Audit.silent_bind; [apply Audit.silent_quiet; unfold Audit.NewAuditLog; auto with db|intros log].
  apply Audit.silent_bind; [apply Audit.CreateInTx_silent|intros _].
  apply Audit.silent_bind; [apply Audit.silent_quiet, record_version_quiet|intros _].
  apply Audit.silent_quiet; auto with db.
Qed.

Lemma reject_body_quiet tenantID draftID actorID reason :
  cfg_Audit cfg = Audit.Repository → quiet (reject_body tenantID draftID actorID reason).
Proof.
  intros Ha. unfold reject_body, Audit.NewAuditLog. rewrite Ha.
  pose proof transition_quiet. pose proof record_version_quiet.
  pose proof Audit.Repository_quiet. unfold DraftRepository.MarkRejected. eauto 20 with db.
Qed.

(** A body run by [settled]: all of it and its notifications, or nothing at all. *)
Lemma settled_cases {A} (body : M A) w :
  pending w = [] → Audit.silent body → (cfg_Audit cfg = Audit.Repository → quiet body) →
  (∀ w1 w2 a, body w1 = (Ok a, w2) →
     ∃ log, pending w2 = pending w1 ++ Audit.notified (cfg_Audit cfg) log ∧ sent w2 = sent w1) →
  match settled body w with
  | (Ok a, w') =>
      ∃ w1, body (tick_on w) = (Ok a, w1) ∧ tables w' = tables w1 ∧ pending w' = [] ∧
        sent w' = sent w ++ pending w1
  | (Err _, w') =>
      tables w' = tables w ∧ sent w' = sent w ∧ pending w' = []
  end.
Proof.
  intros Hp Hs Hq Hb. unfold settled. pose proof (Transaction_cases body w) as HT.
  destruct (Transaction body w) as [[[a|e] began] w'].
  - destruct HT as (-> & w1 & E & ->).
    destruct (Hb _ _ _ E) as (log & P1 & P2). simpl in P1, P2. rewrite Hp in P1.
    exists w1. split; [done|]. unfold flushAuditNotifications. simpl.
    destruct (cfg_Audit cfg) eqn:Ea; simpl in *; rewrite ?P1, ?P2; simpl; by rewrite ?app_nil_r.
  - destruct HT as (HT & Hpp). pose proof (Hs (tick_on w)) as Hs'. simpl in Hs'.
    unfold flushAuditNotifications. destruct began; simpl.
    + destruct Hpp as [Hp1 Hp2]. destruct (cfg_Audit cfg) eqn:Ea; simpl; split_and!; try congruence.
      destruct (Hq eq_refl (tick_on w)) as [Hq1 _]. simpl in Hq1. congruence.
    + destruct Hpp as [Hp1 Hp2]. split_and!; congruence.
Qed.

Lemma promote_check_cases tenantID draftID w :
  let w' := (promote_check tenantID draftID w).2 in
  tables w' = tables w ∧ pending w' = pending w ∧ sent w' = sent w.
Proof.
  assert (Hr : reads (promote_check tenantID draftID) ∧ quiet (promote_check tenantID draftID)).
  { unfold promote_check, DraftRepository.Get.
    destruct (str_empty tenantID), (str_empty draftID); simpl; auto with db.
    split; (apply reads_bind || apply quiet_bind).
    all: try ((apply reads_bind || apply quiet_bind); [auto with db|intros []; auto with db]).
    all: intros d; destruct (negb _); [auto with db|]; destruct (Conflict.HasErrors _); auto with db. }
  destruct Hr as [Hr Hq]. split; [apply Hr|apply Hq].
Qed.

Lemma promote_check_Ok tenantID draftID w d conflicts w' :
  promote_check tenantID draftID w = (Ok (d, conflicts), w') →
  DraftRepository.find tenantID draftID (tables w) = Some d ∧
  Status d = DraftStatusDraft ∧
  conflicts = Conflict.DetectConflicts regexp_other quote (Payload d) ∧
  Conflict.HasErrors conflicts = false.
Proof.
  unfold promote_check, DraftRepository.Get.
  destruct (str_empty tenantID), (str_empty draftID); try done. simpl. intros Hr. run_ok.
  destruct (DraftRepository.find _ _ _) as [d0|] eqn:E; run_ok.
  destruct (str_eqb _ _) eqn:Es; [|done]. simpl in Hr.
  destruct (Conflict.HasErrors _) eqn:Ee; run_ok. simplify_eq. apply str_eqb_eq in Es. done.
Qed.

(** C5: a promotion is all or nothing. Whatever statement fails, a call that
    returns an error has changed no table and notified nobody. A call that
    succeeds found an undecided, conflict-free draft, made the live tables what
    [ApplySnapshot] makes of it, flipped the draft, appended exactly one audit row
    and one version row where the history is wired, and sent at most the one
    notification of that audit row. *)
Theorem PromoteDraft_atomic tenantID draftID actorID w :
  pending w = [] →
  match PromoteDraft tenantID draftID actorID w with
  | (Ok d', w') =>
      ∃ d log,
        DraftRepository.find tenantID draftID (tables w) = Some d ∧ Status d = DraftStatusDraft ∧
        Conflict.HasErrors (Conflict.DetectConflicts regexp_other quote (Payload d)) = false ∧
        live_applied (TenantID d) (ChannelID d) (Payload d) (tables w) (tables w') ∧
        decided tenantID draftID DraftStatusPromoted Audit.ActionPolicyPromoted
          (tables w) (tables w') log d' ∧
        sent w' = sent w ++ Audit.notified (cfg_Audit cfg) log ∧ pending w' = []
  | (Err _, w') => tables w' = tables w ∧ sent w' = sent w ∧ pending w' = []
  end.
Proof.
  intros Hp. unfold PromoteDraft, bind.
  pose proof (promote_check_cases tenantID draftID w) as Hc. simpl in Hc.
  destruct (promote_check tenantID draftID w) as [[[d conflicts]|e] w1] eqn:E; simpl in *;
    [|destruct Hc as (-> & -> & ->); done].
  destruct Hc as (Ht & Hp1 & Hs1). apply promote_check_Ok in E as (E1 & E2 & -> & E3).
  rewrite <- Hp1 in Hp. unfold promote_commit.
  pose proof (settled_cases (promote_body tenantID draftID actorID d
    (Conflict.DetectConflicts regexp_other quote (Payload d))) w1 Hp
    (promote_body_silent _ _ _ _ _) (promote_body_quiet _ _ _ _ _)) as Hcases.
  destruct (settled _ _) as [[d'|e] w'].
  - destruct Hcases as (w2 & Eb & Ht' & Hp' & Hs').
    { intros ? ? ? (log & _ & _ & ?)%promote_body_Ok. by exists log. }
    apply promote_body_Ok in Eb as (log & Hd & Hl & Hp2 & _). simpl in Hp2. rewrite Hp in Hp2.
    exists d, log. simpl in *. rewrite Ht in *. rewrite Ht', Hs', Hp2, Hs1. done.
  - destruct Hcases as (Ht' & Hs' & Hp').
    { intros ? ? ? (log & _ & _ & ?)%promote_body_Ok. by exists log. }
    by rewrite Ht', Hs'.
Qed.

(** ** Concurrent calls *)

(** A promotion that has passed its checks and not yet run its transaction. *)
Record call := {
  c_tenantID : string; c_draftID : string; c_actorID : string;
  c_draft : Draft; c_conflicts : list Conflict.PolicyConflict
}.

(** The steps of a system in which drafts are created, promoted and rejected
    concurrently: the row lock makes each transaction one step, while any number
    of other steps may run between a promotion's checks and its transaction. A
    failing step also moves the world on. *)
Inductive step : World * list call → World * list call → Prop :=
| step_create tenantID channelID createdBy snap w calls :
    step (w, calls)
      (((let* d := DraftRepository.NewDraft tenantID channelID createdBy snap in
         DraftRepository.Create (Some d)) w).2, calls)
| step_check tenantID draftID actorID w calls d conflicts w' :
    promote_check tenantID draftID w = (Ok (d, conflicts), w') →
    step (w, calls)
      (w', {| c_tenantID := tenantID; c_draftID := draftID; c_actorID := actorID;
              c_draft := d; c_conflicts := conflicts |} :: calls)
| step_check_fails tenantID draftID w calls e w' :
    promote_check tenantID draftID w = (Err e, w') →
    step (w, calls) (w', calls)
| step_commit w calls1 c calls2 :
    step (w, calls1 ++ c :: calls2)
      ((promote_commit (c_tenantID c) (c_draftID c) (c_actorID c) (c_draft c) (c_conflicts c) w).2,
       calls1 ++ calls2)
| step_reject tenantID draftID actorID reason w calls :
    step (w, calls) ((RejectDraft tenantID draftID actorID reason w).2, calls).

Definition terminal (id : string) (t : Tables) : bool :=
  match policy_drafts t !! id with
  | Some d => negb (str_eqb (Status d) DraftStatusDraft)
  | None => false
  end.
Definition decisions (id : string) (t : Tables) : list AuditLog :=
  List.filter (λ l, str_eqb (al_ResourceID l) id) (audit_logs t).
Definition versions (id : string) (t : Tables) : list PolicyVersion :=
  List.filter (λ v, str_eqb (pv_DraftID v) id) (policy_versions t).

Record consistent (w : World) : Prop := {
  con_pending : pending w = [];
  con_key id d : policy_drafts (tables w) !! id = Some d → ID d = id;
  con_decisions id : length (decisions id (tables w)) = if terminal id (tables w) then 1 else 0;
  con_versions id : length (versions id (tables w)) =
    if cfg_Versions cfg && terminal id (tables w) then 1 else 0
}.

Lemma length_filter_own {A} (f : A → string) id l :
  Forall (λ x, f x = id) l → List.filter (λ x, str_eqb (f x) id) l = l.
Proof.
  intros Hl. apply filter_true_id. eapply Forall_impl; [exact Hl|]. intros x <-. apply str_eqb_refl.
Qed.

Lemma length_filter_other {A} (f : A → string) id id' l :
  Forall (λ x, f x = id') l → id ≠ id' → List.filter (λ x, str_eqb (f x) id) l = [].
Proof.
  intros Hl Hn. induction Hl as [|x l Hx _ IH]; simpl; [done|].
  rewrite (proj2 (str_eqb_neq (f x) id)) by congruence. done.
Qed.

Lemma decided_consistent tenantID draftID status action w w' log d :
  consistent w → pending w' = [] → status ≠ DraftStatusDraft →
  decided tenantID draftID status action (tables w) (tables w') log d →
  consistent w'.
Proof.
  intros [Hp Hk Hdec Hver] Hp' Hst
    [(row & R1 & R2 & R3 & R4 & R5 & R6) (S1 & S2 & S3 & S4 & vs & V1 & V2 & V3)].
  pose proof (Hk _ _ R1) as Hid.
  assert (Hterm : terminal draftID (tables w) = false).
  { unfold terminal. by rewrite R1, R3. }
  assert (Hterm' : ∀ id, terminal id (tables w') =
            if str_eqb draftID id then true else terminal id (tables w)).
  { intros id. unfold terminal. rewrite R6, Hid. destruct (str_eqb draftID id) eqn:E.
    - apply str_eqb_eq in E as <-. rewrite lookup_insert_eq. simpl. rewrite S1.
      by rewrite (proj2 (str_eqb_neq _ _) Hst).
    - apply str_eqb_neq in E. by rewrite lookup_insert_ne. }
  split; [done| | |].
  - intros id d0. rewrite R6, Hid. destruct (decide (draftID = id)) as [<-|Hn].
    + rewrite lookup_insert_eq. intros [= <-]. simpl. congruence.
    + rewrite lookup_insert_ne by done. apply Hk.
  - intros id. specialize (Hdec id). unfold decisions in *.
    rewrite S2, List.filter_app, length_app, Hdec, Hterm'. simpl. rewrite S3.
    destruct (str_eqb draftID id) eqn:E; simpl; [|lia].
    apply str_eqb_eq in E as <-. by rewrite Hterm.
  - intros id. specialize (Hver id). unfold versions in *.
    rewrite V1, List.filter_app, length_app, Hver, Hterm'.
    destruct (str_eqb draftID id) eqn:E.
    + apply str_eqb_eq in E as <-. rewrite Hterm, andb_false_r, andb_true_r.
      by rewrite length_filter_own, V2.
    + apply str_eqb_neq in E. rewrite (length_filter_other _ id draftID) by (done || congruence).
      simpl. lia.
Qed.

Lemma same_tables_consistent w w' :
  consistent w → tables w' = tables w → pending w' = [] → consistent w'.
Proof. intros [] Ht Hp. split; rewrite ?Ht; done. Qed.

Lemma promote_commit_cases tenantID draftID actorID d conflicts w :
  pending w = [] →
  match promote_commit tenantID draftID actorID d conflicts w with
  | (Ok d', w') =>
      pending w' = [] ∧ ∃ log, decided tenantID draftID DraftStatusPromoted
        Audit.ActionPolicyPromoted (tables w) (tables w') log d'
  | (Err _, w') => tables w' = tables w ∧ pending w' = []
  end.
Proof.
  intros Hp. unfold promote_commit.
  pose proof (settled_cases (promote_body tenantID draftID actorID d conflicts) w Hp
    (promote_body_silent _ _ _ _ _) (promote_body_quiet _ _ _ _ _)) as Hc.
  destruct (settled _ _) as [[d'|e] w'].
  - destruct Hc as (w2 & Eb & Ht' & Hp' & _).
    { intros ? ? ? (log & _ & _ & ?)%promote_body_Ok. by exists log. }
    split; [done|]. apply promote_body_Ok in Eb as (log & Hd & _). exists log. by rewrite Ht'.
  - destruct Hc as (? & _ & ?); [|done].
    intros ? ? ? (log & _ & _ & ?)%promote_body_Ok. by exists log.
Qed.

Lemma RejectDraft_cases tenantID draftID actorID reason w :
  pending w = [] →
  match RejectDraft tenantID draftID actorID reason w with
  | (Ok d', w') =>
      pending w' = [] ∧ ∃ log, decided tenantID draftID DraftStatusRejected
        Audit.ActionPolicyRejected (tables w) (tables w') log d' ∧
        sent w' = sent w ++ Audit.notified (cfg_Audit cfg) log
  | (Err _, w') => tables w' = tables w ∧ pending w' = [] ∧ sent w' = sent w
  end.
Proof.
  intros Hp. unfold RejectDraft.
  destruct (str_empty tenantID), (str_empty draftID); try done.
  pose proof (settled_cases (reject_body tenantID draftID actorID reason) w Hp
    (reject_body_silent _ _ _ _) (reject_body_quiet _ _ _ _)) as Hc.
  destruct (settled _ _) as [[d'|e] w'].
  - destruct Hc as (w2 & Eb & Ht' & Hp' & Hs').
    { intros ? ? ? (log & _ & ?)%reject_body_Ok. by exists log. }
    split; [done|]. apply reject_body_Ok in Eb as (log & Hd & Hp2 & _). exists log.
    simpl in Hp2. rewrite Hp in Hp2. by rewrite Ht', Hs', Hp2.
  - destruct Hc as (? & ? & ?); [|done].
    intros ? ? ? (log & _ & ?)%reject_body_Ok. by exists log.
Qed.

(** What a created row does to the tables: a fresh undecided draft, or nothing. *)
Lemma create_cases tenantID channelID createdBy snap w :
  let w' := ((let* d := DraftRepository.NewDraft tenantID channelID createdBy snap in
              DraftRepository.Create (Some d)) w).2 in
  pending w' = pending w ∧
  (tables w' = tables w ∨
   ∃ d, Status d = DraftStatusDraft ∧ policy_drafts (tables w) !! ID d = None ∧
        tables w' = set_drafts <[ID d := d]> (tables w)).
Proof.
  unfold DraftRepository.NewDraft, bind, make_ulid, now, ret. simpl.
  unfold DraftRepository.Create. destruct (DraftRepository.Validate _); [|by auto].
  unfold bind, query, exec, throw. simpl.
  destruct (sql_fails (tick w)); simpl; [by auto|].
  destruct (bool_decide _) eqn:E; simpl; [by auto|].
  destruct (sql_fails _); simpl; [by auto|]. split; [done|]. right.
  apply bool_decide_eq_false, eq_None_not_Some in E.
  match goal with |- context [DraftRepository.draft_row ?d] => by exists (DraftRepository.draft_row d) end.
Qed.

Lemma step_cases s s' :
  step s s' → pending s.1 = [] →
  pending s'.1 = [] ∧
  (tables s'.1 = tables s.1 ∨
   (∃ d, Status d = DraftStatusDraft ∧ policy_drafts (tables s.1) !! ID d = None ∧
         tables s'.1 = set_drafts <[ID d := d]> (tables s.1)) ∨
   ∃ tenantID draftID status action log d,
     status ≠ DraftStatusDraft ∧
     decided tenantID draftID status action (tables s.1) (tables s'.1) log d).
Proof.
  destruct 1 as [tenantID channelID createdBy snap w calls
    |tenantID draftID actorID w calls d conflicts w' E|tenantID draftID w calls e w' E
    |w calls1 c calls2|tenantID draftID actorID reason w calls]; cbn [fst]; intros Hp.
  - destruct (create_cases tenantID channelID createdBy snap w) as [-> [?|?]]; auto.
  - pose proof (promote_check_cases tenantID draftID w) as Hc. rewrite E in Hc. simpl in Hc.
    destruct Hc as (? & -> & _); auto.
  - pose proof (promote_check_cases tenantID draftID w) as Hc. rewrite E in Hc. simpl in Hc.
    destruct Hc as (? & -> & _); auto.
  - pose proof (promote_commit_cases (c_tenantID c) (c_draftID c) (c_actorID c) (c_draft c)
      (c_conflicts c) w Hp) as Hc.
    destruct (promote_commit _ _ _ _ _ w) as [[d'|e] w']; simpl.
    + destruct Hc as (? & log & Hd). split; [done|]. right; right.
      do 6 eexists. split; [|exact Hd]. done.
    + destruct Hc; auto.
  - pose proof (RejectDraft_cases tenantID draftID actorID reason w Hp) as Hc.
    destruct (RejectDraft _ _ _ _ w) as [[d'|e] w']; simpl.
    + destruct Hc as (? & log & Hd & _). split; [done|]. right; right.
      do 6 eexists. split; [|exact Hd]. done.
    + destruct Hc as (? & ? & _); auto.
Qed.

Lemma step_consistent s s' : step s s' → consistent s.1 → consistent s'.1.
Proof.
  intros Hs Hc. destruct (step_cases s s' Hs (con_pending _ Hc))
    as (Hp & [Ht|[(d & D1 & D2 & Ht)|(tid & did & st & act & log & d & Hst & Hd)]]).
  - by eapply same_tables_consistent.
  - destruct Hc as [_ Hk Hdec Hver].
    assert (Hterm : ∀ id, terminal id (tables s'.1) = terminal id (tables s.1)).
    { intros id. unfold terminal. rewrite Ht. simpl. destruct (decide (ID d = id)) as [<-|Hn].
      - by rewrite lookup_insert_eq, D1, D2.
      - by rewrite lookup_insert_ne. }
    split; [done| | |]; rewrite ?Ht; simpl.
    + intros id d0. destruct (decide (ID d = id)) as [<-|Hn].
      * rewrite lookup_insert_eq. by intros [= ->].
      * rewrite lookup_insert_ne by done. apply Hk.
    + intros id. rewrite <- Ht, Hterm, <- Hdec. by rewrite Ht.
    + intros id. rewrite <- Ht, Hterm, <- Hver. by rewrite Ht.
  - by eapply decided_consistent.
Qed.

Definition initial : World := LiveViews.fresh_world.

Lemma reachable_consistent w calls : rtc step (initial, []) (w, calls) → consistent w.
Proof.
  intros Hr. assert (consistent initial) as Hi.
  { split; [done| |done|]; intros id; simpl.
    - intros d. unfold initial, LiveViews.fresh_world, LiveViews.no_tables. simpl.
      by rewrite lookup_empty.
    - by rewrite andb_false_r. }
  change (consistent (w, calls).1). change (consistent (initial, @nil call).1) in Hi.
  revert Hi. generalize (initial, @nil call), (w, calls), Hr. clear.
  induction 1; eauto using step_consistent.
Qed.

(** C7: however promotions, rejections and creations interleave, and whatever
    statements fail, every draft is decided at most once: the audit log holds
    exactly one decision for a promoted or rejected draft and none for any other,
    and so does the version history when it is wired. *)
Theorem draft_decided_at_most_once w calls id :
  rtc step (initial, []) (w, calls) →
  length (decisions id (tables w)) = (if terminal id (tables w) then 1 else 0) ∧
  length (versions id (tables w)) = (if cfg_Versions cfg && terminal id (tables w) then 1 else 0).
Proof. intros Hr. destruct (reachable_consistent w calls Hr). auto. Qed.

(** A promoted or rejected draft is immutable: from any reachable state, no
    sequence of steps changes its row. *)
Theorem terminal_draft_immutable w calls w' calls' id d :
  rtc step (initial, []) (w, calls) → rtc step (w, calls) (w', calls') →
  policy_drafts (tables w) !! id = Some d → Status d ≠ DraftStatusDraft →
  policy_drafts (tables w') !! id = Some d.
Proof.
  intros Hc%reachable_consistent Hr Hd Hst.
  change (policy_drafts (tables (w', calls').1) !! id = Some d).
  change (consistent (w, calls).1) in Hc.
  change (policy_drafts (tables (w, calls).1) !! id = Some d) in Hd.
  revert Hc Hd. generalize (w, calls), (w', calls'), Hr. clear -Hst.
  induction 1 as [|s1 s2 s3 Hs _ IH]; [done|]. intros Hc Hd.
  apply IH; [by eapply step_consistent|].
  destruct (step_cases s1 s2 Hs (con_pending _ Hc))
    as (_ & [->|[(d' & D1 & D2 & ->)|(tid & did & st & act & log & d' & _ & Hdec)]]); [done| |].
  - simpl. rewrite lookup_insert_ne; [done|]. congruence.
  - destruct Hdec as [(row & R1 & _ & R3 & _ & _ & R6) _]. rewrite R6.
    pose proof (con_key _ Hc _ _ R1) as ->.
    rewrite lookup_insert_ne; [done|]. intros ->. congruence.
Qed.

End Promoter.
End Promoter.

(** ** A concrete run: one draft, two racing promotions *)

Module Race.
Import Promoter.

Definition cfg : PromotionConfig := {| cfg_Audit := Audit.Notifying true; cfg_Versions := true |}.
Definition the_store : @LiveStore steady := @LiveStoreGORM_store steady.

Definition created : World :=
  ((let* d := @DraftRepository.NewDraft steady "t" "c" "alice" LiveViews.sample_snapshot in
    @DraftRepository.Create steady (Some d)) initial).2.
Definition draftID : string := "ulid0.0".

Definition checked (w : World) := @promote_check steady (λ _ _, false) (λ q, q) "t" draftID w.
Definition the_call (w : World) (actor : string) : call :=
  match checked w with
  | (Ok (d, cs), _) =>
      {| c_tenantID := "t"; c_draftID := draftID; c_actorID := actor; c_draft := d;
         c_conflicts := cs |}
  | (Err _, _) =>
      {| c_tenantID := ""; c_draftID := ""; c_actorID := ""; c_conflicts := [];
         c_draft := {| ID := ""; TenantID := ""; ChannelID := ""; Payload := empty; Status := "";
                       CreatedBy := ""; CreatedAt := 0; PromotedAt := None; PromotedBy := "";
                       RejectReason := "" |} |}
  end.
Definition commit (c : call) (w : World) : World :=
  (@promote_commit steady the_store cfg (c_tenantID c) (c_draftID c) (c_actorID c) (c_draft c)
     (c_conflicts c) w).2.

Definition bob : call := the_call created "bob".
Definition w_bob : World := (checked created).2.
Definition carol : call := the_call w_bob "carol".
Definition w_carol : World := (checked w_bob).2.
Definition won : World := commit bob w_carol.
Definition lost : World := commit carol won.

Abbreviation race_step := (@step steady the_store (λ _ _, false) (λ q, q) cfg).

Lemma race_won : rtc race_step (initial, []) (won, [carol]).
Proof.
  apply (rtc_l _ _ (created, [])); [apply (step_create _ _ _ "t" "c" "alice" LiveViews.sample_snapshot)|].
  apply (rtc_l _ _ (w_bob, [bob])).
  { apply (step_check _ _ _ "t" draftID "bob"). by vm_compute. }
  apply (rtc_l _ _ (w_carol, [carol; bob])).
  { apply (step_check _ _ _ "t" draftID "carol"). by vm_compute. }
  apply rtc_once. apply (step_commit _ _ _ w_carol [carol] bob []).
Defined.

Lemma race_lost : rtc race_step (won, [carol]) (lost, []).
Proof. apply rtc_once. apply (step_commit _ _ _ won [] carol []). Defined.

Lemma PromoteDraft_atomic_witness :
  ∃ log, sent (@PromoteDraft steady the_store (λ _ _, false) (λ q, q) cfg "t" draftID "bob" created).2
         = [log].
Proof.
  pose proof (@PromoteDraft_atomic steady the_store (λ _ _, false) (λ q, q) cfg "t" draftID "bob"
    created eq_refl) as Hp.
  destruct (@PromoteDraft _ _ _ _ _ _ _ _ created) as [[d'|e] w'] eqn:E;
    [|exfalso; vm_compute in E; discriminate E].
  destruct Hp as (d & log & _ & _ & _ & _ & _ & Hs & _). exists log. apply Hs.
Defined.

Lemma draft_decided_at_most_once_witness :
  length (decisions draftID (tables lost)) = 1 ∧ length (versions draftID (tables lost)) = 1.
Proof.
  assert (Hr : rtc race_step (initial, []) (lost, [])) by (etrans; [apply race_won|apply race_lost]).
  destruct (@draft_decided_at_most_once steady the_store (λ _ _, false) (λ q, q) cfg lost []
    draftID Hr) as [Hd Hv].
  assert (Ht : terminal draftID (tables lost) = true) by (vm_compute; reflexivity).
  rewrite Ht in Hd, Hv. split; [exact Hd|exact Hv].
Defined.

Lemma terminal_draft_immutable_witness :
  ∃ d, policy_drafts (tables lost) !! draftID = Some d ∧ PromotedBy d = "bob"%string.
Proof.
  destruct (policy_drafts (tables won) !! draftID) as [d|] eqn:E;
    [|vm_compute in E; discriminate E].
  exists d. split.
  - apply (@terminal_draft_immutable steady the_store (λ _ _, false) (λ q, q) cfg won [carol] lost
      [] draftID d race_won race_lost E).
    vm_compute in E. injection E as <-. discriminate.
  - vm_compute in E. injection E as <-. reflexivity.
Defined.

End Race.
