(* ===== verification/Retention.v ===== *)
(** * Retention

    internal/policy/retention.go and the sweep of
    internal/pipeline/retention_worker.go. [MaxAgeDays] is a Go [int], and the age
    limit [time.Duration(MaxAgeDays)*24*time.Hour] is a 64-bit product that wraps.
    The chunk and policy tables, the deleter, and the cancellation of the context
    are what the worker is given. *)

From S2P Require Import Prelude GoString.

Module Retention.

Definition RetentionScopeTenant : string := "tenant".
Definition RetentionScopeSource : string := "source".
Definition RetentionScopeNamespace : string := "namespace".

Record RetentionPolicy := {
  ID : string;
  TenantID : string;
  Scope : string;
  ScopeValue : string;
  MaxAgeDays : Z
}.

Record ChunkScope := { cs_TenantID : string; cs_SourceID : string; cs_NamespaceID : string }.

Inductive error := MissingTenant | InvalidScope | MissingScopeValue | NegativeAge | ErrStore | Cancelled.

Definition validate_scope (s : string) : result unit error :=
  if str_eqb s RetentionScopeTenant || str_eqb s RetentionScopeSource
     || str_eqb s RetentionScopeNamespace then Ok tt
  else Err InvalidScope.

Definition Validate (p : RetentionPolicy) : result unit error :=
  if str_empty (TenantID p) then Err MissingTenant
  else
    let! _ := validate_scope (Scope p) in
    if negb (str_eqb (Scope p) RetentionScopeTenant) && str_empty (ScopeValue p)
    then Err MissingScopeValue
    else if (MaxAgeDays p <? 0)%Z then Err NegativeAge
    else Ok tt.

Definition age_limit (days : Z) : Z := wrap64 (wrap64 (days * 24) * hour).

Definition policy_IsExpired (p : RetentionPolicy) (now ingestedAt : Time) : bool :=
  if (MaxAgeDays p <=? 0)%Z then false
  else if time_is_zero ingestedAt then false
  else (age_limit (MaxAgeDays p) <? time_sub now ingestedAt)%Z.

Definition appliesTo (p : RetentionPolicy) (scope : ChunkScope) : bool :=
  if str_eqb (Scope p) RetentionScopeTenant then true
  else if str_eqb (Scope p) RetentionScopeSource then str_eqb (ScopeValue p) (cs_SourceID scope)
  else if str_eqb (Scope p) RetentionScopeNamespace
  then str_eqb (ScopeValue p)
         (str_app (cs_SourceID scope) (str_app "/" (cs_NamespaceID scope)))
  else false.

(** The loop of [Effective] with the best rule so far. *)
Fixpoint effective_loop (scope : ChunkScope) (best : option RetentionPolicy)
    (policies : list RetentionPolicy) : option RetentionPolicy :=
  match policies with
  | [] => best
  | p :: rest =>
      if negb (str_eqb (TenantID p) (cs_TenantID scope)) || (MaxAgeDays p <=? 0)%Z
      then effective_loop scope best rest
      else if negb (appliesTo p scope) then effective_loop scope best rest
      else match best with
           | None => effective_loop scope (Some p) rest
           | Some b =>
               if (MaxAgeDays p <? MaxAgeDays b)%Z then effective_loop scope (Some p) rest
               else effective_loop scope best rest
           end
  end.

Definition Effective (scope : ChunkScope) (policies : list RetentionPolicy)
  : option RetentionPolicy := effective_loop scope None policies.

Definition IsExpired (scope : ChunkScope) (now ingestedAt : Time)
    (policies : list RetentionPolicy) : bool :=
  match Effective scope policies with
  | None => false
  | Some p => policy_IsExpired p now ingestedAt
  end.

(** ** The worker *)

Record ChunkRecord := {
  c_ID : string;
  c_TenantID : string;
  c_SourceID : string;
  c_DocumentID : string;
  c_NamespaceID : string;
  c_IngestedAt : Time
}.

Record SweepResult := {
  TenantsScanned : nat; ChunksScanned : nat; ChunksExpired : nat; ChunksDeleted : nat
}.

(** What a sweep does to the outside: a delete call with its outcome, and the
    chunk.expired audit event. *)
Inductive effect :=
| Deleted (c : ChunkRecord) (ok : bool)
| Audited (c : ChunkRecord) (maxAgeDays : Z).

Definition scope_of (c : ChunkRecord) : ChunkScope :=
  {| cs_TenantID := c_TenantID c; cs_SourceID := c_SourceID c;
     cs_NamespaceID := c_NamespaceID c |}.

Definition bump_scanned (r : SweepResult) : SweepResult :=
  {| TenantsScanned := TenantsScanned r; ChunksScanned := S (ChunksScanned r);
     ChunksExpired := ChunksExpired r; ChunksDeleted := ChunksDeleted r |}.
Definition bump_expired (ok : bool) (r : SweepResult) : SweepResult :=
  {| TenantsScanned := TenantsScanned r; ChunksScanned := ChunksScanned r;
     ChunksExpired := S (ChunksExpired r);
     ChunksDeleted := if ok then S (ChunksDeleted r) else ChunksDeleted r |}.
Definition bump_tenant (r : SweepResult) : SweepResult :=
  {| TenantsScanned := S (TenantsScanned r); ChunksScanned := ChunksScanned r;
     ChunksExpired := ChunksExpired r; ChunksDeleted := ChunksDeleted r |}.

Section Worker.
Context (list_policies : string → result (list RetentionPolicy) error)
        (list_chunks : string → result (list ChunkRecord) error)
        (delete_chunk : ChunkRecord → bool)
        (has_audit : bool) (now : Time)
        (cancelled : string → nat → bool).

(** The condition under which the loop body skips the chunk. *)
Definition due (rules : list RetentionPolicy) (c : ChunkRecord) : option RetentionPolicy :=
  match Effective (scope_of c) rules with
  | None => None
  | Some eff =>
      if (MaxAgeDays eff <=? 0)%Z then None
      else if time_is_zero (c_IngestedAt c)
              || (time_sub now (c_IngestedAt c) <=? age_limit (MaxAgeDays eff))%Z then None
      else Some eff
  end.

(** The chunk loop of [sweepTenant]; [i] counts the polls of the context. *)
Fixpoint sweep_chunks (tenantID : string) (rules : list RetentionPolicy) (i : nat)
    (chunks : list ChunkRecord) (res : SweepResult)
  : result unit error * SweepResult * list effect :=
  match chunks with
  | [] => (Ok tt, res, [])
  | c :: rest =>
      if cancelled tenantID i then (Err Cancelled, res, [])
      else
        let res := bump_scanned res in
        match due rules c with
        | None => sweep_chunks tenantID rules (S i) rest res
        | Some eff =>
            let ok := delete_chunk c in
            let '(r, res', effs) := sweep_chunks tenantID rules (S i) rest (bump_expired ok res) in
            (r, res', Deleted c ok
                      :: (if ok && has_audit then [Audited c (MaxAgeDays eff)] else []) ++ effs)
        end
  end.

Definition sweepTenant (tenantID : string) (res : SweepResult)
  : result unit error * SweepResult * list effect :=
  match list_policies tenantID with
  | Err e => (Err e, res, [])
  | Ok rules =>
      if length rules =? 0 then (Ok tt, res, [])
      else match list_chunks tenantID with
           | Err e => (Err e, res, [])
           | Ok chunks => sweep_chunks tenantID rules 1 chunks res
           end
  end.

(** The tenant loop of [Sweep]: one tenant's failure does not stop the others. *)
Fixpoint sweep_tenants (tenants : list string) (res : SweepResult)
  : result unit error * SweepResult * list effect :=
  match tenants with
  | [] => (Ok tt, res, [])
  | t :: rest =>
      if cancelled t 0 then (Err Cancelled, res, [])
      else
        let '(_, res', effs) := sweepTenant t (bump_tenant res) in
        let '(r, res'', effs') := sweep_tenants rest res' in
        (r, res'', effs ++ effs')
  end.

Definition Sweep (tenants : result (list string) error)
  : result unit error * SweepResult * list effect :=
  let res := {| TenantsScanned := 0; ChunksScanned := 0; ChunksExpired := 0; ChunksDeleted := 0 |} in
  match tenants with
  | Err e => (Err e, res, [])
  | Ok ts => sweep_tenants ts res
  end.

(** ** Lemmas *)

Definition applicable (scope : ChunkScope) (p : RetentionPolicy) : Prop :=
  TenantID p = cs_TenantID scope ∧ (0 < MaxAgeDays p)%Z ∧ appliesTo p scope = true.

Definition minimal_in (scope : ChunkScope) (l : list RetentionPolicy) (b : RetentionPolicy) : Prop :=
  b ∈ l ∧ applicable scope b ∧ ∀ p, p ∈ l → applicable scope p → (MaxAgeDays b ≤ MaxAgeDays p)%Z.

Lemma effective_loop_spec scope best policies seen :
  match best with
  | Some b => minimal_in scope seen b
  | None => ∀ p, p ∈ seen → ¬ applicable scope p
  end →
  match effective_loop scope best policies with
  | Some b => minimal_in scope (seen ++ policies) b
  | None => ∀ p, p ∈ seen ++ policies → ¬ applicable scope p
  end.
Proof.
  revert best seen. induction policies as [|p policies IH]; intros best seen Hb; simpl.
  { by rewrite app_nil_r. }
  replace (seen ++ p :: policies) with ((seen ++ [p]) ++ policies) by (by rewrite <- app_assoc).
  assert (Hno : ¬ applicable scope p →
    match best with
    | Some b => minimal_in scope (seen ++ [p]) b
    | None => ∀ q, q ∈ seen ++ [p] → ¬ applicable scope q
    end).
  { intros Hn. unfold minimal_in in *. destruct best; [destruct Hb as (Hb1 & Hb2 & Hb3)|].
    - split_and!; [set_solver +Hb1|done|].
      intros q [Hq|Hq%list_elem_of_singleton]%elem_of_app ?; [auto|by subst].
    - intros q [Hq|Hq%list_elem_of_singleton]%elem_of_app; [auto|by subst]. }
  destruct (negb _ || _) eqn:E1; [apply IH, Hno|].
  { intros (Ht & Hd & _). apply orb_true_iff in E1 as [E1|E1]; [|lia].
    apply negb_true_iff, str_eqb_neq in E1. done. }
  destruct (appliesTo p scope) eqn:E2; simpl; [|apply IH, Hno; by intros (_ & _ & ?); congruence].
  apply orb_false_iff in E1 as [Et%negb_false_iff%str_eqb_eq Ed%Z.leb_gt].
  assert (Hp : applicable scope p) by done.
  destruct best as [b|].
  - destruct Hb as (Hb1 & Hb2 & Hb3). destruct (Z.ltb_spec (MaxAgeDays p) (MaxAgeDays b)); apply IH.
    + split_and!; [set_solver +|done|].
      intros q [Hq|Hq%list_elem_of_singleton]%elem_of_app ?; [|by subst].
      specialize (Hb3 q Hq ltac:(done)). lia.
    + split_and!; [set_solver +Hb1|done|].
      intros q [Hq|Hq%list_elem_of_singleton]%elem_of_app ?; [auto|by subst].
  - apply IH. split_and!; [set_solver +|done|].
    intros q [Hq|Hq%list_elem_of_singleton]%elem_of_app ?; [by destruct (Hb q)|by subst].
Qed.

Lemma Effective_spec scope policies :
  match Effective scope policies with
  | Some b => minimal_in scope policies b
  | None => ∀ p, p ∈ policies → ¬ applicable scope p
  end.
Proof.
  apply (effective_loop_spec scope None policies []). intros p Hp. by apply not_elem_of_nil in Hp.
Qed.

(** The largest number of days whose limit fits in a [time.Duration]. *)
Definition max_days : Z := 106751.

Lemma age_limit_exact d : (0 ≤ d ≤ max_days)%Z → age_limit d = (d * 24 * hour)%Z.
Proof.
  unfold max_days, age_limit, hour, minute, second. intros Hd.
  rewrite (wrap64_id (d * 24)) by (unfold in_int64, int64_min, int64_max; lia).
  apply wrap64_id. unfold in_int64, int64_min, int64_max. lia.
Qed.

(** [time.Sub] saturates, but never across a limit that fits. *)
Lemma past_limit d now' t :
  (0 ≤ d ≤ max_days)%Z →
  (age_limit d <? time_sub now' t)%Z = (d * 24 * hour <? now' - t)%Z.
Proof.
  intros Hd. rewrite age_limit_exact by done. apply eq_true_iff_eq. rewrite !Z.ltb_lt.
  unfold time_sub, int64_min, int64_max, max_days, hour, minute, second in *. lia.
Qed.

(** A chunk is past a rule when the rule applies and its age exceeds the rule's. *)
Definition past (scope : ChunkScope) (now' ingestedAt : Time) (p : RetentionPolicy) : Prop :=
  applicable scope p ∧ (MaxAgeDays p * 24 * hour < now' - ingestedAt)%Z.

Definition sane (l : list RetentionPolicy) : Prop := ∀ p, p ∈ l → (MaxAgeDays p ≤ max_days)%Z.

Lemma minimal_past scope now' t l b :
  minimal_in scope l b → sane l →
  (age_limit (MaxAgeDays b) <? time_sub now' t)%Z = true ↔ ∃ p, p ∈ l ∧ past scope now' t p.
Proof.
  intros (Hb & Ha & Hm) Hs. pose proof (Hs b Hb). destruct Ha as (? & ? & ?).
  rewrite past_limit, Z.ltb_lt by lia. split.
  - intros Hp. by exists b.
  - intros (p & Hp & Hap & Hlt). specialize (Hm p Hp Hap). unfold hour, minute, second in *. lia.
Qed.

Lemma due_spec rules c :
  sane rules →
  is_Some (due rules c) ↔
  c_IngestedAt c ≠ 0%Z ∧ ∃ p, p ∈ rules ∧ past (scope_of c) now (c_IngestedAt c) p.
Proof.
  intros Hs. unfold due. pose proof (Effective_spec (scope_of c) rules) as He.
  destruct (Effective _ _) as [b|].
  - rewrite <- (minimal_past _ now (c_IngestedAt c) _ _ He Hs).
    destruct He as (_ & (_ & Hpos & _) & _). destruct (Z.leb_spec (MaxAgeDays b) 0); [lia|].
    unfold time_is_zero. rewrite Z.leb_antisym.
    destruct (Z.eqb_spec (c_IngestedAt c) 0) as [->|Hn]; simpl.
    + split; [by intros [? ?]|]. by intros [? _].
    + destruct (_ <? _)%Z; simpl; (split; [intros [? ?]|intros [? ?]]); try done.
  - split; [by intros [? ?]|]. intros (_ & p & Hp & Ha & _). by destruct (He p Hp).
Qed.

Lemma sweep_chunks_effects tenantID rules i chunks res c ok :
  Deleted c ok ∈ (sweep_chunks tenantID rules i chunks res).2 →
  c ∈ chunks ∧ ok = delete_chunk c ∧ is_Some (due rules c).
Proof.
  revert i res. induction chunks as [|c0 chunks IH]; intros i res; simpl.
  { by intros ?%not_elem_of_nil. }
  destruct (cancelled tenantID i); [by intros ?%not_elem_of_nil|].
  destruct (due rules c0) as [eff|] eqn:Ed.
  - specialize (IH (S i) (bump_expired (delete_chunk c0) (bump_scanned res))).
    destruct (sweep_chunks _ _ _ _ _) as [[r res'] effs]. simpl in *.
    intros [E|[E|E]%elem_of_app]%elem_of_cons.
    + injection E as -> ->. split_and!; [by left|done|by eexists].
    + destruct (_ && _); [|by apply not_elem_of_nil in E].
      by apply list_elem_of_singleton in E.
    + destruct (IH E) as (? & ? & ?). split_and!; [by right|done|done].
  - intros E. destruct (IH _ _ E) as (? & ? & ?). split_and!; [by right|done|done].
Qed.

Lemma sweep_chunks_complete tenantID rules i chunks res :
  (∀ j, cancelled tenantID j = false) →
  ∃ res' effs, sweep_chunks tenantID rules i chunks res = (Ok tt, res', effs) ∧
    ∀ c, c ∈ chunks → is_Some (due rules c) → Deleted c (delete_chunk c) ∈ effs.
Proof.
  intros Hc. revert i res. induction chunks as [|c0 chunks IH]; intros i res; simpl.
  { do 2 eexists. split; [done|]. by intros c ?%not_elem_of_nil. }
  rewrite Hc. destruct (due rules c0) as [eff|] eqn:Ed.
  - destruct (IH (S i) (bump_expired (delete_chunk c0) (bump_scanned res)))
      as (res' & effs & -> & Hall). do 2 eexists. split; [done|].
    intros c [->|Hin]%elem_of_cons Hd; [by left|]. right. apply elem_of_app. right. auto.
  - destruct (IH (S i) (bump_scanned res)) as (res' & effs & -> & Hall).
    do 2 eexists. split; [done|].
    intros c [->|Hin]%elem_of_cons Hd; [by rewrite Ed in Hd; destruct Hd|auto].
Qed.

(** The rule chosen for a chunk is the strictest one: it is one of the tenant's
    rules that apply, and no applicable rule has a smaller limit; no rule is
    chosen exactly when none applies. *)
Theorem Effective_strictest scope policies :
  match Effective scope policies with
  | Some b => b ∈ policies ∧ applicable scope b ∧
      ∀ p, p ∈ policies → applicable scope p → (MaxAgeDays b ≤ MaxAgeDays p)%Z
  | None => ∀ p, p ∈ policies → ¬ applicable scope p
  end.
Proof. apply Effective_spec. Qed.

(** An uninterrupted sweep of a tenant calls the deleter on exactly the chunks
    that have an ingestion time and are older than the limit of some applicable
    rule, as long as no rule exceeds the 106751 days a [time.Duration] can hold. A
    failing delete does not stop the others. *)
Theorem sweepTenant_exact tenantID rules chunks res :
  list_policies tenantID = Ok rules → list_chunks tenantID = Ok chunks → sane rules →
  (∀ i, cancelled tenantID i = false) →
  ∃ res' effs, sweepTenant tenantID res = (Ok tt, res', effs) ∧
    ∀ c ok, Deleted c ok ∈ effs ↔
      c ∈ chunks ∧ ok = delete_chunk c ∧ c_IngestedAt c ≠ 0%Z ∧
      ∃ p, p ∈ rules ∧ past (scope_of c) now (c_IngestedAt c) p.
Proof.
  intros Hp Hl Hs Hc. unfold sweepTenant. rewrite Hp, Hl.
  destruct rules as [|r rules]; simpl.
  { do 2 eexists. split; [done|]. intros c ok. split; [by intros ?%not_elem_of_nil|].
    by intros (_ & _ & _ & p & ?%not_elem_of_nil & _). }
  destruct (sweep_chunks_complete tenantID (r :: rules) 1 chunks res Hc)
    as (res' & effs & E & Hall). exists res', effs. split; [done|]. intros c ok.
  rewrite <- due_spec by done. split.
  - intros Hin. apply (sweep_chunks_effects tenantID (r :: rules) 1 chunks res). by rewrite E.
  - intros (? & -> & ?). auto.
Qed.

(** Whatever fails and whenever the sweep is cancelled, a chunk is only ever
    deleted when its tenant was swept and one of that tenant's rules has run out
    for it. *)
Theorem Sweep_only_expired tenants c ok :
  (∀ t rules, list_policies t = Ok rules → sane rules) →
  Deleted c ok ∈ (Sweep tenants).2 →
  ∃ ts t rules chunks p, tenants = Ok ts ∧ t ∈ ts ∧ list_policies t = Ok rules ∧
    list_chunks t = Ok chunks ∧ c ∈ chunks ∧ p ∈ rules ∧ past (scope_of c) now (c_IngestedAt c) p.
Proof.
  intros Hs. destruct tenants as [ts|e]; simpl; [|by intros ?%not_elem_of_nil].
  intros Hin. cut (∃ t rules chunks p, t ∈ ts ∧ list_policies t = Ok rules ∧
    list_chunks t = Ok chunks ∧ c ∈ chunks ∧ p ∈ rules ∧
    past (scope_of c) now (c_IngestedAt c) p); [naive_solver|].
  revert Hin. generalize {| TenantsScanned := 0; ChunksScanned := 0; ChunksExpired := 0;
    ChunksDeleted := 0 |}. induction ts as [|t ts IH]; intros res; simpl.
  { by intros ?%not_elem_of_nil. }
  destruct (cancelled t 0); [by intros ?%not_elem_of_nil|].
  destruct (sweepTenant t (bump_tenant res)) as [[r res'] effs] eqn:E. specialize (IH res').
  destruct (sweep_tenants ts res') as [[r' res''] effs']. simpl in *.
  intros [Hin|Hin]%elem_of_app; [|destruct (IH Hin) as (t' & rs & cs & p & ? & ?);
    exists t', rs, cs, p; split; [by right|done]].
  unfold sweepTenant in E. destruct (list_policies t) as [rules|] eqn:El; simplify_eq;
    [|by apply not_elem_of_nil in Hin].
  destruct (length rules =? 0); simplify_eq; [by apply not_elem_of_nil in Hin|].
  destruct (list_chunks t) as [chunks|] eqn:Ec; simplify_eq; [|by apply not_elem_of_nil in Hin].
  destruct (sweep_chunks_effects t rules 1 chunks (bump_tenant res) c ok) as (Hc & _ & Hd);
    [by rewrite E|].
  apply due_spec in Hd as (_ & p & Hp & Hpast); [|by eapply Hs].
  exists t, rules, chunks, p. split; [by left|done].
Qed.

End Worker.

(** One day over the largest representable limit, the product wraps to a negative
    duration and the rule expires a chunk the moment it is ingested. *)
Example age_limit_wraps :
  let p := {| ID := "r"; TenantID := "t"; Scope := "tenant"; ScopeValue := "";
              MaxAgeDays := max_days + 1 |} in
  Validate p = Ok tt ∧ (age_limit (max_days + 1) < 0)%Z ∧
  policy_IsExpired p 1700000000000000000 1700000000000000000 = true.
Proof. by vm_compute. Qed.

Definition sample_rules : list RetentionPolicy :=
  [{| ID := "a"; TenantID := "t"; Scope := "tenant"; ScopeValue := ""; MaxAgeDays := 365 |};
   {| ID := "b"; TenantID := "t"; Scope := "source"; ScopeValue := "s"; MaxAgeDays := 30 |}].
Definition sample_chunk : ChunkRecord :=
  {| c_ID := "c"; c_TenantID := "t"; c_SourceID := "s"; c_DocumentID := "d"; c_NamespaceID := "n";
     c_IngestedAt := hour |}.

Lemma sample_sane : sane sample_rules.
Proof.
  intros p Hp. repeat (apply elem_of_cons in Hp as [->|Hp]; [done|]). by apply not_elem_of_nil in Hp.
Qed.

Lemma sweepTenant_exact_witness :
  ∃ res' effs,
    sweepTenant (λ _, Ok sample_rules) (λ _, Ok [sample_chunk]) (λ _, true) true (40 * 24 * hour)
      (λ _ _, false) "t"
      {| TenantsScanned := 0; ChunksScanned := 0; ChunksExpired := 0; ChunksDeleted := 0 |}
    = (Ok tt, res', effs) ∧ Deleted sample_chunk true ∈ effs.
Proof.
  destruct (sweepTenant_exact (λ _, Ok sample_rules) (λ _, Ok [sample_chunk]) (λ _, true) true
    (40 * 24 * hour) (λ _ _, false) "t" sample_rules [sample_chunk]
    {| TenantsScanned := 0; ChunksScanned := 0; ChunksExpired := 0; ChunksDeleted := 0 |}
    eq_refl eq_refl sample_sane (λ _, eq_refl)) as (res' & effs & E & Hiff).
  exists res', effs. split; [exact E|]. apply Hiff. split_and!; [by left|done|done|].
  eexists. split; [by right; left|]. done.
Defined.

Lemma Sweep_only_expired_witness :
  ∃ p, p ∈ sample_rules ∧
    past (scope_of sample_chunk) (40 * 24 * hour) (c_IngestedAt sample_chunk) p.
Proof.
  destruct (Sweep_only_expired (λ _, Ok sample_rules) (λ _, Ok [sample_chunk]) (λ _, true) true
    (40 * 24 * hour) (λ _ _, false) (Ok ["t"%string]) sample_chunk true)
    as (ts & t & rules & chunks & p & _ & _ & [= <-] & _ & _ & Hp & Hpast).
  - intros t rules [= <-]. apply sample_sane.
  - vm_compute. left.
  - by exists p.
Defined.

End Retention.
