(* ===== verification/Match.v ===== *)
(** * Matches, hits and cached hits

    The data the retrieval path passes around: [Match] of
    internal/retrieval/merger.go, [RetrieveHit] of handler.go, [CachedHit] of
    internal/storage/redis_cache.go, and the projections between them. A slice of
    pointers is a list of options, [None] being a nil pointer; a nil and an empty
    metadata map are read alike, so both are the empty map. *)

From S2P Require Import Prelude GoFloat GoString.

(** The dynamic types of metadata values the code distinguishes. *)
Inductive any :=
| AString (s : string)
| AStrings (l : list string)
| AList (l : list any)
| AInt (n : Z)
| AOther (repr : string).

Definition SourceVector : string := "vector".
Definition SourceBM25 : string := "bm25".
Definition SourceGraph : string := "graph".
Definition SourceMemory : string := "memory".

Record Match := {
  ID : string;
  Source : string;
  Score : float;
  OriginalScore : float;
  Rank : Z;
  PrivacyLabel : string;
  IngestedAt : Time;
  TenantID : string;
  SourceID : string;
  DocumentID : string;
  BlockID : string;
  Title : string;
  URI : string;
  Text : string;
  Connector : string;
  Metadata : gmap string any;
  Sources : list string
}.

Definition set_Score (s : float) (m : Match) : Match :=
  {| ID := ID m; Source := Source m; Score := s; OriginalScore := OriginalScore m; Rank := Rank m;
     PrivacyLabel := PrivacyLabel m; IngestedAt := IngestedAt m; TenantID := TenantID m;
     SourceID := SourceID m; DocumentID := DocumentID m; BlockID := BlockID m; Title := Title m;
     URI := URI m; Text := Text m; Connector := Connector m; Metadata := Metadata m;
     Sources := Sources m |}.
Definition set_OriginalScore (s : float) (m : Match) : Match :=
  {| ID := ID m; Source := Source m; Score := Score m; OriginalScore := s; Rank := Rank m;
     PrivacyLabel := PrivacyLabel m; IngestedAt := IngestedAt m; TenantID := TenantID m;
     SourceID := SourceID m; DocumentID := DocumentID m; BlockID := BlockID m; Title := Title m;
     URI := URI m; Text := Text m; Connector := Connector m; Metadata := Metadata m;
     Sources := Sources m |}.
Definition set_Sources (l : list string) (m : Match) : Match :=
  {| ID := ID m; Source := Source m; Score := Score m; OriginalScore := OriginalScore m;
     Rank := Rank m; PrivacyLabel := PrivacyLabel m; IngestedAt := IngestedAt m;
     TenantID := TenantID m; SourceID := SourceID m; DocumentID := DocumentID m;
     BlockID := BlockID m; Title := Title m; URI := URI m; Text := Text m;
     Connector := Connector m; Metadata := Metadata m; Sources := l |}.

(** A zero [Match] with the given id, as composite literals build it. *)
Definition bare_Match (id : string) : Match :=
  {| ID := id; Source := ""; Score := f_zero; OriginalScore := f_zero; Rank := 0;
     PrivacyLabel := ""; IngestedAt := 0; TenantID := ""; SourceID := ""; DocumentID := "";
     BlockID := ""; Title := ""; URI := ""; Text := ""; Connector := ""; Metadata := ∅;
     Sources := [] |}.

(** ** The response shape *)

Record PrivacyStrip := {
  Mode : string;
  ProcessedWhere : string;
  ModelTier : string;
  DataSources : list string;
  PolicyApplied : list string
}.
Definition no_strip : PrivacyStrip :=
  {| Mode := ""; ProcessedWhere := ""; ModelTier := ""; DataSources := []; PolicyApplied := [] |}.

(** The [Explain] block of a hit, a debug projection, is left out. *)
Record RetrieveHit := {
  h_ID : string;
  h_Score : float;
  h_TenantID : string;
  h_SourceID : string;
  h_DocumentID : string;
  h_BlockID : string;
  h_Title : string;
  h_URI : string;
  h_PrivacyLabel : string;
  h_Text : string;
  h_Connector : string;
  h_Metadata : gmap string any;
  h_Sources : list string;
  h_PrivacyStrip : PrivacyStrip
}.

Record CachedHit := {
  k_ID : string;
  k_Score : float;
  k_TenantID : string;
  k_SourceID : string;
  k_DocumentID : string;
  k_BlockID : string;
  k_Title : string;
  k_URI : string;
  k_PrivacyLabel : string;
  k_Text : string;
  k_Connector : string;
  k_Metadata : gmap string any
}.

Record CachedResult := { Hits : list CachedHit; CachedAt : Time; ChunkIDs : list string }.

Definition hitFromMatch (m : Match) : RetrieveHit :=
  {| h_ID := ID m; h_Score := Score m; h_TenantID := TenantID m; h_SourceID := SourceID m;
     h_DocumentID := DocumentID m; h_BlockID := BlockID m; h_Title := Title m; h_URI := URI m;
     h_PrivacyLabel := PrivacyLabel m; h_Text := Text m; h_Connector := Connector m;
     h_Metadata := Metadata m; h_Sources := Sources m; h_PrivacyStrip := no_strip |}.

Definition with_strip (s : PrivacyStrip) (h : RetrieveHit) : RetrieveHit :=
  {| h_ID := h_ID h; h_Score := h_Score h; h_TenantID := h_TenantID h; h_SourceID := h_SourceID h;
     h_DocumentID := h_DocumentID h; h_BlockID := h_BlockID h; h_Title := h_Title h;
     h_URI := h_URI h; h_PrivacyLabel := h_PrivacyLabel h; h_Text := h_Text h;
     h_Connector := h_Connector h; h_Metadata := h_Metadata h; h_Sources := h_Sources h;
     h_PrivacyStrip := s |}.

(** The bodies of the loops of [cachedFromResponse] and [responseFromCache]. *)
Definition cached_of_hit (h : RetrieveHit) : CachedHit :=
  {| k_ID := h_ID h; k_Score := h_Score h; k_TenantID := h_TenantID h; k_SourceID := h_SourceID h;
     k_DocumentID := h_DocumentID h; k_BlockID := h_BlockID h; k_Title := h_Title h;
     k_URI := h_URI h; k_PrivacyLabel := h_PrivacyLabel h; k_Text := h_Text h;
     k_Connector := h_Connector h; k_Metadata := h_Metadata h |}.

Definition hit_of_cached (h : CachedHit) : RetrieveHit :=
  {| h_ID := k_ID h; h_Score := k_Score h; h_TenantID := k_TenantID h; h_SourceID := k_SourceID h;
     h_DocumentID := k_DocumentID h; h_BlockID := k_BlockID h; h_Title := k_Title h;
     h_URI := k_URI h; h_PrivacyLabel := k_PrivacyLabel h; h_Text := k_Text h;
     h_Connector := k_Connector h; h_Metadata := k_Metadata h; h_Sources := [];
     h_PrivacyStrip := no_strip |}.

Definition matchFromCachedHit (h : RetrieveHit) : Match :=
  {| ID := h_ID h; Source := ""; Score := h_Score h; OriginalScore := f_zero; Rank := 0;
     PrivacyLabel := h_PrivacyLabel h; IngestedAt := 0; TenantID := h_TenantID h;
     SourceID := h_SourceID h; DocumentID := h_DocumentID h; BlockID := h_BlockID h;
     Title := h_Title h; URI := h_URI h; Text := h_Text h; Connector := h_Connector h;
     Metadata := h_Metadata h; Sources := h_Sources h |}.

(** ** Metadata access *)

Definition metadataString (m : gmap string any) (key : string) : option string :=
  match m !! key with Some (AString s) => Some s | _ => None end.

(** The probe of one key in the loop of [matchPath]. *)
Definition path_probe (m : Match) (key : string) : option string :=
  match metadataString (Metadata m) key with
  | Some s => if str_empty s then None else Some s
  | None => None
  end.

Fixpoint probe_keys (m : Match) (keys : list string) : option string :=
  match keys with
  | [] => None
  | k :: rest => match path_probe m k with Some s => Some s | None => probe_keys m rest end
  end.

Definition matchPath (m : Match) : string :=
  match probe_keys m ["path"; "uri_path"; "doc_path"]%string with
  | Some s => s
  | None => URI m
  end.

Definition appendUnique (slice : list string) (v : string) : list string :=
  if str_empty v then slice
  else if existsb (str_eqb v) slice then slice
  else slice ++ [v].

Lemma appendUnique_NoDup slice v : NoDup slice → NoDup (appendUnique slice v).
Proof.
  unfold appendUnique. intros Hn. destruct (str_empty v); [done|].
  destruct (existsb _ _) eqn:E; [done|]. apply NoDup_app. split_and!; [done| |apply NoDup_singleton].
  intros x Hx ->%list_elem_of_singleton. apply not_true_iff_false in E. apply E, existsb_elem.
  exists v. split; [done|apply str_eqb_refl].
Qed.

Lemma elem_of_appendUnique slice v x :
  x ∈ appendUnique slice v ↔ x ∈ slice ∨ (x = v ∧ v ≠ EmptyString).
Proof.
  unfold appendUnique. destruct (str_empty v) eqn:Ev.
  { apply str_empty_true in Ev. naive_solver. }
  apply str_empty_false in Ev. destruct (existsb _ _) eqn:E.
  - apply existsb_elem in E as (y & Hy & ->%str_eqb_eq). naive_solver.
  - rewrite elem_of_app, list_elem_of_singleton. naive_solver.
Qed.
