(* ===== verification/Merger.v ===== *)
(** * Reciprocal rank fusion

    internal/retrieval/merger.go. The accumulator is a Go map, whose iteration
    order is arbitrary: [iterate] stands for it. The theorems say what each merged
    match is made of, that the output is a duplicate-free ranking that does not
    depend on the iteration order, and that the defensive [Dedup] pass keeps one
    match per id and leaves a merged ranking alone. *)

From S2P Require Import Prelude GoFloat GoString Match.

Module Merger.

Record MergerConfig := { K : Z; PerSourceWeight : gmap string float }.

Definition NewMerger (cfg : MergerConfig) : MergerConfig :=
  if (K cfg <=? 0)%Z then {| K := 60; PerSourceWeight := PerSourceWeight cfg |} else cfg.

Definition fill (dst src : string) : string := if str_empty dst then src else dst.

(** Metadata keys of [dst] win over those of [src]. *)
Definition fillMissing (dst src : Match) : Match :=
  {| ID := ID dst; Source := Source dst; Score := Score dst; OriginalScore := OriginalScore dst;
     Rank := Rank dst;
     PrivacyLabel := fill (PrivacyLabel dst) (PrivacyLabel src);
     IngestedAt := if time_is_zero (IngestedAt dst) then IngestedAt src else IngestedAt dst;
     TenantID := fill (TenantID dst) (TenantID src);
     SourceID := fill (SourceID dst) (SourceID src);
     DocumentID := fill (DocumentID dst) (DocumentID src);
     BlockID := fill (BlockID dst) (BlockID src);
     Title := fill (Title dst) (Title src);
     URI := fill (URI dst) (URI src);
     Text := fill (Text dst) (Text src);
     Connector := fill (Connector dst) (Connector src);
     Metadata := Metadata dst ∪ Metadata src;
     Sources := Sources dst |}.

(** Matches are values here, so the copy is the match itself. *)
Definition cloneMatch (m : Match) : Match := m.

Section Merge.
Context (cfg : MergerConfig) (iterate : list Match → list Match).

Definition effective_rank (i : nat) (hit : Match) : Z :=
  if (Rank hit <=? 0)%Z then (Z.of_nat i + 1)%Z else Rank hit.

Definition weight_of (hit : Match) : float :=
  match PerSourceWeight cfg !! Source hit with Some w => w | None => f32_of_Z 1 end.

Definition contribution (i : nat) (hit : Match) : float :=
  f32_div (weight_of hit) (f32_of_Z (wrap64 (K cfg + effective_rank i hit))).

(** The accumulator entry [existing] after the hit at index [i] of its stream. *)
Definition accumulate (i : nat) (hit existing : Match) : Match :=
  let e1 := set_Score (f32_add (Score existing) (contribution i hit)) existing in
  let e2 := set_Sources (appendUnique (Sources e1) (Source hit)) e1 in
  let e3 := if f_neqb (OriginalScore hit) f_zero && f_eqb (OriginalScore e2) f_zero
            then set_OriginalScore (OriginalScore hit) e2 else e2 in
  fillMissing e3 hit.

Definition fresh_entry (hit : Match) : Match := set_Sources [] (set_Score f_zero (cloneMatch hit)).

Definition merge_hit (i : nat) (oh : option Match) (scored : gmap string Match)
  : gmap string Match :=
  match oh with
  | None => scored
  | Some hit =>
      if str_empty (ID hit) then scored
      else
        let existing := default (fresh_entry hit) (scored !! ID hit) in
        <[ID hit := accumulate i hit existing]> scored
  end.

Fixpoint merge_stream (i : nat) (stream : list (option Match)) (scored : gmap string Match)
  : gmap string Match :=
  match stream with
  | [] => scored
  | oh :: rest => merge_stream (S i) rest (merge_hit i oh scored)
  end.

Definition merge_all (streams : list (list (option Match))) : gmap string Match :=
  foldl (λ scored stream, merge_stream 0 stream scored) ∅ streams.

(** Higher score first, ties by id. *)
Definition ranks_before (a b : Match) : bool :=
  if f_eqb (Score a) (Score b) then str_ltb (ID a) (ID b) else f_gtb (Score a) (Score b).

Definition Merge (streams : list (list (option Match))) : list Match :=
  sort_by ranks_before (iterate (snd <$> map_to_list (merge_all streams))).

End Merge.

(** ** Dedup *)

(** The survivor at an index after a later duplicate [m]. *)
Definition fold_duplicate (winner m : Match) : Match :=
  let w := set_Sources (foldl appendUnique (Sources winner) (Sources m)) winner in
  if f_gtb (Score m) (Score w) then set_Sources (Sources w) m else w.

(** The loop over the matches still to come. *)
Fixpoint dedup_loop (indexByID : gmap string nat) (out : list (option Match))
    (matches : list (option Match)) : list (option Match) :=
  match matches with
  | [] => out
  | None :: rest => dedup_loop indexByID (out ++ [None]) rest
  | Some m :: rest =>
      if str_empty (ID m) then dedup_loop indexByID (out ++ [Some m]) rest
      else match indexByID !! ID m with
           | Some idx =>
               let out' :=
                 match out !! idx with
                 | Some (Some winner) => <[idx := Some (fold_duplicate winner m)]> out
                 | _ => out
                 end in
               dedup_loop indexByID out' rest
           | None => dedup_loop (<[ID m := length out]> indexByID) (out ++ [Some m]) rest
           end
  end.

Definition Dedup (matches : list (option Match)) : list (option Match) :=
  if length matches <=? 1 then matches else dedup_loop ∅ [] matches.

(** ** What a merged match is made of *)

Section Properties.
Context (cfg : MergerConfig).

(** The valid hits of the streams with the given id, each with its index, in the
    order the loops visit them. *)
Fixpoint stream_hits (id : string) (i : nat) (stream : list (option Match)) : list (nat * Match) :=
  match stream with
  | [] => []
  | Some hit :: rest =>
      if negb (str_empty (ID hit)) && str_eqb (ID hit) id
      then (i, hit) :: stream_hits id (S i) rest
      else stream_hits id (S i) rest
  | None :: rest => stream_hits id (S i) rest
  end.
Definition hits_for (id : string) (streams : list (list (option Match))) : list (nat * Match) :=
  concat (stream_hits id 0 <$> streams).

(** Folding an id's hits into its entry. *)
Definition fold_hits (start : option Match) (hits : list (nat * Match)) : option Match :=
  foldl (λ e h, Some (accumulate cfg h.1 h.2 (default (fresh_entry h.2) e))) start hits.

Lemma merge_stream_lookup id i stream scored :
  merge_stream cfg i stream scored !! id = fold_hits (scored !! id) (stream_hits id i stream).
Proof.
  revert i scored. induction stream as [|[hit|] stream IH]; intros i scored; simpl; [done| |apply IH].
  rewrite IH. destruct (str_empty (ID hit)) eqn:Ee; simpl; [done|].
  destruct (str_eqb (ID hit) id) eqn:Ei.
  - apply str_eqb_eq in Ei as <-. by rewrite lookup_insert_eq.
  - apply str_eqb_neq in Ei. by rewrite lookup_insert_ne.
Qed.

Lemma merge_all_lookup id streams :
  merge_all cfg streams !! id = fold_hits None (hits_for id streams).
Proof.
  unfold merge_all, hits_for.
  cut (∀ scored : gmap string Match,
    foldl (λ scored stream, merge_stream cfg 0 stream scored) scored streams !! id
    = fold_hits (scored !! id) (concat (stream_hits id 0 <$> streams))).
  { intros Hc. by rewrite Hc, lookup_empty. }
  induction streams as [|s streams IH]; intros scored; simpl; [done|].
  rewrite IH, merge_stream_lookup. unfold fold_hits. by rewrite foldl_app.
Qed.

Lemma stream_hits_ID id i stream h : h ∈ stream_hits id i stream → ID h.2 = id ∧ id ≠ EmptyString.
Proof.
  revert i. induction stream as [|[hit|] stream IH]; intros i; simpl;
    [by intros ?%not_elem_of_nil| |apply IH].
  destruct (str_empty (ID hit)) eqn:Ee; simpl; [apply IH|].
  destruct (str_eqb (ID hit) id) eqn:Ei; [|apply IH].
  intros [->|?]%elem_of_cons; [|by eapply IH]. simpl.
  apply str_eqb_eq in Ei as <-. apply str_empty_false in Ee. done.
Qed.

Lemma hits_for_ID id streams h : h ∈ hits_for id streams → ID h.2 = id ∧ id ≠ EmptyString.
Proof.
  unfold hits_for. intros (l & Hl & Hh)%list_elem_of_In%in_concat.
  apply list_elem_of_In, list_elem_of_fmap in Hl as (s & -> & _).
  apply list_elem_of_In in Hh. by eapply stream_hits_ID.
Qed.

(** The fields of a folded entry. *)
Definition first_nonempty (f : Match → string) (hits : list (nat * Match)) : string :=
  foldr (λ h acc, if str_empty (f h.2) then acc else f h.2) EmptyString hits.

Lemma fold_hits_Some e hits :
  fold_hits (Some e) hits =
  Some (foldl (λ e h, accumulate cfg h.1 h.2 e) e hits).
Proof. revert e. induction hits as [|h hits IH]; intros e; simpl; [done|]. apply IH. Qed.

Lemma fold_accumulate_fields e hits :
  let r := foldl (λ e h, accumulate cfg h.1 h.2 e) e hits in
  ID r = ID e ∧
  Score r = foldl f32_add (Score e) ((λ h, contribution cfg h.1 h.2) <$> hits) ∧
  Sources r = foldl appendUnique (Sources e) ((λ h, Source h.2) <$> hits) ∧
  PrivacyLabel r = fill (PrivacyLabel e) (first_nonempty PrivacyLabel hits).
Proof.
  revert e. induction hits as [|h hits IH]; intros e; simpl.
  { split_and!; try done. unfold fill. by destruct (PrivacyLabel e). }
  destruct (IH (accumulate cfg h.1 h.2 e)) as (-> & -> & -> & ->).
  unfold accumulate. destruct (_ && _); simpl; split_and!; try done;
    unfold fill; destruct (PrivacyLabel e); simpl; try done; by destruct (PrivacyLabel h.2).
Qed.

(** The entry an id ends up with. *)
Definition merged_entry (id : string) (streams : list (list (option Match))) (m : Match) : Prop :=
  let hits := hits_for id streams in
  hits ≠ [] ∧ ID m = id ∧
  Score m = foldl f32_add f_zero ((λ h, contribution cfg h.1 h.2) <$> hits) ∧
  Sources m = foldl appendUnique [] ((λ h, Source h.2) <$> hits) ∧
  PrivacyLabel m = first_nonempty PrivacyLabel hits.

Lemma merge_all_Some id streams m :
  merge_all cfg streams !! id = Some m → merged_entry id streams m.
Proof.
  rewrite merge_all_lookup. unfold merged_entry.
  pose proof (hits_for_ID id streams) as Hid.
  destruct (hits_for id streams) as [|[i hit] hits]; [done|]. simpl.
  rewrite fold_hits_Some. intros [= <-].
  pose proof (fold_accumulate_fields (fresh_entry hit) ((i, hit) :: hits)) as Hf.
  cbn [foldl fst snd fmap list_fmap] in Hf. destruct Hf as (E1 & E2 & E3 & E4).
  destruct (Hid (i, hit)) as [Hh _]; [by left|].
  split_and!; [done|by rewrite E1|by rewrite E2|by rewrite E3|].
  rewrite E4. unfold fill, first_nonempty, fresh_entry, cloneMatch. simpl. by destruct (PrivacyLabel hit).
Qed.

Lemma merge_all_None id streams :
  merge_all cfg streams !! id = None ↔ hits_for id streams = [].
Proof.
  rewrite merge_all_lookup. destruct (hits_for id streams) as [|h hits]; simpl; [done|].
  by rewrite fold_hits_Some.
Qed.

Lemma merge_all_ID streams id m : merge_all cfg streams !! id = Some m → ID m = id.
Proof. by intros (_ & ? & _)%merge_all_Some. Qed.

Lemma merged_values_IDs streams :
  ID <$> (snd <$> map_to_list (merge_all cfg streams)) = fst <$> map_to_list (merge_all cfg streams).
Proof.
  rewrite <- list_fmap_compose. apply list_fmap_ext. intros i [id m] Hm. simpl.
  apply (merge_all_ID streams). apply elem_of_map_to_list. by eapply list_elem_of_lookup_2.
Qed.

Lemma elem_of_merged_values streams m :
  m ∈ (snd <$> map_to_list (merge_all cfg streams)) ↔ merge_all cfg streams !! ID m = Some m.
Proof.
  rewrite list_elem_of_fmap. split.
  - intros ([id m'] & -> & Hm). apply elem_of_map_to_list in Hm. simpl.
    by rewrite (merge_all_ID _ _ _ Hm).
  - intros Hm. exists (ID m, m). split; [done|]. by apply elem_of_map_to_list.
Qed.

Section Iterate.
Context (iterate : list Match → list Match).
Context (iterate_perm : ∀ l, iterate l ≡ₚ l).

Lemma Merge_perm streams :
  Merge cfg iterate streams ≡ₚ (snd <$> map_to_list (merge_all cfg streams)).
Proof. unfold Merge. by rewrite sort_by_perm, iterate_perm. Qed.

(** C39: fusion accounts for every hit and invents none. The output has one match
    per non-empty id that some stream returned; its score is the sum, in visiting
    order, of [weight / (K + rank)] over exactly the hits with that id, its
    sources are the backends of those hits without repetition, and its privacy
    label is the first non-empty one. *)
Theorem Merge_entries streams :
  NoDup (ID <$> Merge cfg iterate streams) ∧
  (∀ id, id ∈ (ID <$> Merge cfg iterate streams) ↔ hits_for id streams ≠ []) ∧
  (∀ m, m ∈ Merge cfg iterate streams → merged_entry (ID m) streams m ∧ NoDup (Sources m)).
Proof.
  split_and!.
  - rewrite Merge_perm, merged_values_IDs. apply NoDup_fst_map_to_list.
  - intros id. rewrite Merge_perm, merged_values_IDs, list_elem_of_fmap. rewrite <- merge_all_None.
    split.
    + intros ([id' m] & -> & Hm%elem_of_map_to_list). simpl. by rewrite Hm.
    + destruct (merge_all cfg streams !! id) as [m|] eqn:E; [|done]. intros _.
      exists (id, m). split; [done|]. by apply elem_of_map_to_list.
  - intros m. rewrite Merge_perm, elem_of_merged_values. intros Hm.
    apply merge_all_Some in Hm. split; [done|]. destruct Hm as (_ & _ & _ & -> & _).
    generalize (NoDup_nil_2 (A:=string)). generalize (@nil string).
    induction (hits_for _ _) as [|h hits IH]; intros l Hl; simpl; [done|].
    by apply IH, appendUnique_NoDup.
Qed.

Definition no_nan (l : list Match) : Prop := ∀ m, m ∈ l → f_is_nan (Score m) = false.

Lemma ranks_before_weak_order l : no_nan l → weak_order_on ranks_before l.
Proof.
  intros Hn. apply (lex_weak_order (λ a b, f_eqb (Score a) (Score b))
    (λ a b, f_gtb (Score a) (Score b)) (λ a b, str_ltb (ID a) (ID b))).
  - unfold f_gtb. split.
    + intros a b Ha Hb. eapply (f_ltb_asym (Score b) (Score a) (Score a)); auto.
    + intros a b c Ha Hb Hc H1 H2. apply (f_nltb_trans (Score a) (Score b) (Score c)); auto.
  - intros a b Ha Hb. unfold f_gtb. split.
    + intros He. change SFltb with f_ltb.
      rewrite (f_eqb_ltb_r (Score a) (Score b) (Score b)), (f_eqb_ltb_l (Score a) (Score b) (Score b))
        by auto.
      destruct (f_ltb (Score b) (Score b)) eqn:E; [|done].
      by rewrite (f_ltb_asym (Score b) (Score b) (Score b)) in E by auto.
    + intros [H1 H2]. apply (f_ltb_eqb_total (Score a) (Score b) (Score a)); auto.
  - apply str_key_weak_order.
Qed.

Lemma ranks_before_total l a b :
  no_nan l → NoDup (ID <$> l) → a ∈ l → b ∈ l →
  ranks_before a b = false → ranks_before b a = false → a = b.
Proof.
  intros Hn Hd Ha Hb. unfold ranks_before, f_gtb. change SFltb with f_ltb.
  destruct (f_eqb (Score a) (Score b)) eqn:E1, (f_eqb (Score b) (Score a)) eqn:E2; intros H1 H2.
  - assert (Hid : ID a = ID b) by (by apply str_ltb_total).
    apply list_elem_of_lookup in Ha as [i Hi], Hb as [j Hj].
    assert (i = j) as ->; [|congruence].
    apply (NoDup_lookup _ i j (ID a) Hd); rewrite list_lookup_fmap; [by rewrite Hi|].
    by rewrite Hj, Hid.
  - exfalso. rewrite f_eqb_key in E1 by auto.
    assert (f_eqb (Score b) (Score a) = true) by (apply f_eqb_key; auto). congruence.
  - exfalso. rewrite f_eqb_key in E2 by auto.
    assert (f_eqb (Score a) (Score b) = true) by (apply f_eqb_key; auto). congruence.
  - rewrite (f_ltb_eqb_total (Score a) (Score b) (Score a)) in E1; auto. congruence.
Qed.

(** With ordinary (non-NaN) scores the output is a ranking: no match is
    followed by one with a higher score, or with the same score and a smaller id;
    and the ranking is the same whatever order the map is iterated in. *)
Theorem Merge_ranked streams (iterate' : list Match → list Match) :
  (∀ l, iterate' l ≡ₚ l) →
  (∀ id m, merge_all cfg streams !! id = Some m → f_is_nan (Score m) = false) →
  StronglySorted (λ a b, ranks_before b a = false) (Merge cfg iterate streams) ∧
  Merge cfg iterate' streams = Merge cfg iterate streams.
Proof.
  intros Hp' Hn. set (vals := snd <$> map_to_list (merge_all cfg streams)).
  assert (Hnn : no_nan vals).
  { intros m Hm%elem_of_merged_values. by eapply Hn. }
  assert (Hw : weak_order_on ranks_before (iterate vals)).
  { apply ranks_before_weak_order. intros m. rewrite iterate_perm. apply Hnn. }
  split; [by apply sort_by_sorted|]. symmetry. apply sort_by_unique; [done| |].
  - intros a b. rewrite !iterate_perm. intros Ha Hb. eapply ranks_before_total; [exact Hnn| |done|done].
    unfold vals. rewrite merged_values_IDs. apply NoDup_fst_map_to_list.
  - by rewrite iterate_perm, Hp'.
Qed.

End Iterate.
End Properties.

(** ** Dedup keeps the best of each id *)

Record dedup_inv (index : gmap string nat) (out seen : list (option Match)) : Prop := {
  inv_index id idx : index !! id = Some idx →
    ∃ m, out !! idx = Some (Some m) ∧ ID m = id;
  inv_out idx m : out !! idx = Some (Some m) → ID m ≠ EmptyString → index !! ID m = Some idx;
  inv_best x : Some x ∈ seen → ID x ≠ EmptyString →
    ∃ idx w, index !! ID x = Some idx ∧ out !! idx = Some (Some w) ∧
             f_ltb (Score w) (Score x) = false;
  inv_from w : Some w ∈ out → ∃ x, Some x ∈ seen ∧ ID x = ID w ∧ Score x = Score w
}.

Lemma fold_duplicate_ID w m : ID w = ID m → ID (fold_duplicate w m) = ID m.
Proof. intros E. unfold fold_duplicate. by destruct (f_gtb _ _). Qed.

Lemma fold_duplicate_Score w m :
  Score (fold_duplicate w m) = if f_ltb (Score w) (Score m) then Score m else Score w.
Proof. unfold fold_duplicate, f_gtb. simpl. change SFltb with f_ltb. by destruct (f_ltb _ _). Qed.

Definition scores_ordinary (l : list (option Match)) : Prop :=
  ∀ m, Some m ∈ l → f_is_nan (Score m) = false.

Lemma dedup_inv_push index out seen o :
  dedup_inv index out seen →
  (∀ m, o = Some m → ID m = EmptyString) →
  dedup_inv index (out ++ [o]) (seen ++ [o]).
Proof.
  intros [H1 H2 H3 H4] Ho. split.
  - intros id idx Hi. destruct (H1 _ _ Hi) as (m & Hm & ?). exists m. split; [|done].
    by apply lookup_app_l_Some.
  - intros idx m [Hm|[Hl Hm]]%lookup_app_Some Hne; [by apply H2|].
    apply list_lookup_singleton_Some in Hm as [_ ->]. by destruct (Hne (Ho m eq_refl)).
  - intros x [Hx| <-%list_elem_of_singleton]%elem_of_app Hne; [|by destruct (Hne (Ho x eq_refl))].
    destruct (H3 x Hx Hne) as (idx & w & ? & ? & ?). exists idx, w.
    split_and!; [done|by apply lookup_app_l_Some|done].
  - intros w [Hw| <-%list_elem_of_singleton]%elem_of_app.
    + destruct (H4 w Hw) as (x & ? & ? & ?). exists x. rewrite elem_of_app. auto.
    + exists w. rewrite elem_of_app, list_elem_of_singleton. auto.
Qed.

Lemma dedup_inv_new index out seen m :
  dedup_inv index out seen → index !! ID m = None → f_is_nan (Score m) = false →
  dedup_inv (<[ID m := length out]> index) (out ++ [Some m]) (seen ++ [Some m]).
Proof.
  intros [H1 H2 H3 H4] Hn Hnan.
  assert (Hlast : (out ++ [Some m]) !! length out = Some (Some m)) by (by apply list_lookup_middle).
  split.
  - intros id idx. destruct (decide (ID m = id)) as [<-|Hne].
    + rewrite lookup_insert_eq. intros [= <-]. by exists m.
    + rewrite lookup_insert_ne by done. intros (m' & Hm & ?)%H1. exists m'. split; [|done].
      by apply lookup_app_l_Some.
  - intros idx m' [Hm|[Hl Hm]]%lookup_app_Some Hne.
    + specialize (H2 _ _ Hm Hne). rewrite lookup_insert_ne; [done|]. congruence.
    + apply list_lookup_singleton_Some in Hm as [Hi [= <-]]. rewrite lookup_insert_eq. f_equal. lia.
  - intros x [Hx| [= ->]%list_elem_of_singleton]%elem_of_app Hne.
    + destruct (H3 x Hx Hne) as (idx & w & Hi & Hw & ?). exists idx, w.
      rewrite lookup_insert_ne by congruence. split_and!; [done|by apply lookup_app_l_Some|done].
    + exists (length out), m. rewrite lookup_insert_eq. split_and!; [done|done|].
      destruct (f_ltb (Score m) (Score m)) eqn:E; [|done].
      by rewrite (f_ltb_asym (Score m) (Score m) (Score m)) in E.
  - intros w [Hw| [= ->]%list_elem_of_singleton]%elem_of_app.
    + destruct (H4 w Hw) as (x & ? & ? & ?). exists x. rewrite elem_of_app. auto.
    + exists m. rewrite elem_of_app, list_elem_of_singleton. auto.
Qed.

Lemma dedup_inv_dup index out seen m idx w :
  dedup_inv index out seen → ID m ≠ EmptyString → scores_ordinary (seen ++ [Some m]) →
  index !! ID m = Some idx → out !! idx = Some (Some w) →
  dedup_inv index (<[idx := Some (fold_duplicate w m)]> out) (seen ++ [Some m]).
Proof.
  intros Hinv Hne Hord Hi Hw. pose proof (lookup_lt_Some _ _ _ Hw) as Hlt.
  assert (HidW : ID w = ID m).
  { destruct (inv_index _ _ _ Hinv _ _ Hi) as (w' & Hw' & ?). congruence. }
  assert (Hid : ID (fold_duplicate w m) = ID m) by (by apply fold_duplicate_ID).
  assert (Hnw : f_is_nan (Score w) = false).
  { destruct (inv_from _ _ _ Hinv w) as (x & Hx & _ & <-); [by eapply list_elem_of_lookup_2|].
    apply Hord. rewrite elem_of_app. auto. }
  assert (Hnm : f_is_nan (Score m) = false).
  { apply Hord. rewrite elem_of_app, list_elem_of_singleton. auto. }
  destruct Hinv as [H1 H2 H3 H4]. split.
  - intros id idx' (m' & Hm' & ?)%H1. destruct (decide (idx = idx')) as [<-|Hn].
    + eexists. rewrite list_lookup_insert_eq by done. split; [done|]. congruence.
    + exists m'. by rewrite list_lookup_insert_ne.
  - intros idx' m' Hm' Hne'. destruct (decide (idx = idx')) as [<-|Hn].
    + rewrite list_lookup_insert_eq in Hm' by done. injection Hm' as <-. congruence.
    + rewrite list_lookup_insert_ne in Hm' by done. by apply H2.
  - intros x Hx Hnx. apply elem_of_app in Hx as [Hx| [= ->]%list_elem_of_singleton].
    + destruct (H3 x Hx Hnx) as (i & w' & Hi' & Hw' & Hs). destruct (decide (idx = i)) as [<-|Hn].
      * assert (w' = w) as -> by congruence. eexists _, _.
        rewrite list_lookup_insert_eq by done. split_and!; [done|done|].
        rewrite fold_duplicate_Score. destruct (f_ltb (Score w) (Score m)) eqn:E; [|done].
        assert (f_is_nan (Score x) = false) by (apply Hord; rewrite elem_of_app; auto).
        apply (f_nltb_trans (Score m) (Score w) (Score x)); auto.
        by apply (f_ltb_asym (Score w) (Score m) (Score m)).
      * exists i, w'. by rewrite list_lookup_insert_ne.
    + eexists idx, _. rewrite list_lookup_insert_eq by done. split_and!; [done|done|].
      rewrite fold_duplicate_Score. destruct (f_ltb (Score w) (Score m)) eqn:E; [|done].
      destruct (f_ltb (Score m) (Score m)) eqn:E'; [|done].
      by rewrite (f_ltb_asym (Score m) (Score m) (Score m)) in E'.
  - intros w' Hw'%list_elem_of_lookup. destruct Hw' as [j Hj].
    destruct (decide (idx = j)) as [<-|Hn].
    + rewrite list_lookup_insert_eq in Hj by done. injection Hj as <-.
      rewrite fold_duplicate_Score, Hid. destruct (f_ltb _ _).
      * exists m. rewrite elem_of_app, list_elem_of_singleton. auto.
      * destruct (H4 w) as (x & ? & ? & ?); [by eapply list_elem_of_lookup_2|].
        exists x. rewrite elem_of_app. split_and!; [auto|congruence|done].
    + rewrite list_lookup_insert_ne in Hj by done.
      destruct (H4 w') as (x & ? & ? & ?); [by eapply list_elem_of_lookup_2|].
      exists x. rewrite elem_of_app. auto.
Qed.

Lemma dedup_loop_inv index out seen rest :
  dedup_inv index out seen → scores_ordinary (seen ++ rest) →
  ∃ index', dedup_inv index' (dedup_loop index out rest) (seen ++ rest).
Proof.
  revert index out seen. induction rest as [|o rest IH]; intros index out seen Hinv Hord; simpl.
  { exists index. by rewrite app_nil_r. }
  rewrite (cons_middle o seen rest), app_assoc in Hord |- *.
  assert (Hpre : scores_ordinary (seen ++ [o])).
  { intros x Hx. apply Hord. rewrite elem_of_app. auto. }
  destruct o as [m|]; [|apply IH; [by apply dedup_inv_push|done]].
  destruct (str_empty (ID m)) eqn:Ee.
  { apply IH; [|done]. apply dedup_inv_push; [done|]. intros ? [= <-]. by apply str_empty_true. }
  apply str_empty_false in Ee. destruct (index !! ID m) as [idx|] eqn:Ei.
  - destruct (inv_index _ _ _ Hinv _ _ Ei) as (w & Hw & _). rewrite Hw.
    apply IH; [by apply dedup_inv_dup|done].
  - apply IH; [|done]. apply dedup_inv_new; [done|done|].
    apply Hpre. rewrite elem_of_app, list_elem_of_singleton. auto.
Qed.

Lemma dedup_loop_distinct index out rest :
  (∀ m, Some m ∈ rest → ID m ≠ EmptyString → index !! ID m = None) →
  (∀ i j a b, rest !! i = Some (Some a) → rest !! j = Some (Some b) → ID a ≠ EmptyString →
     ID a = ID b → i = j) →
  dedup_loop index out rest = out ++ rest.
Proof.
  revert index out. induction rest as [|o rest IH]; intros index out Hi Hd; simpl.
  { by rewrite app_nil_r. }
  assert (Hd' : ∀ i j a b, rest !! i = Some (Some a) → rest !! j = Some (Some b) →
    ID a ≠ EmptyString → ID a = ID b → i = j).
  { intros i j a b H1 H2 H3 H4. specialize (Hd (S i) (S j) a b H1 H2 H3 H4). lia. }
  assert (Hi' : ∀ m, Some m ∈ rest → ID m ≠ EmptyString → index !! ID m = None).
  { intros m Hm. apply Hi. by right. }
  rewrite (cons_middle o out rest), app_assoc. destruct o as [m|]; [|by apply IH].
  destruct (str_empty (ID m)) eqn:Ee; [by apply IH|]. apply str_empty_false in Ee.
  rewrite (Hi m) by (done || by left). apply IH; [|done]. intros m' Hm' Hne.
  rewrite lookup_insert_ne; [by apply Hi'|]. intros E.
  apply list_elem_of_lookup in Hm' as [j Hj]. by specialize (Hd 0 (S j) m m' eq_refl Hj Ee E).
Qed.

(** [Dedup] leaves exactly one match per non-empty id of its input, at least as
    good as every match of that id, and changes nothing when the ids were distinct
    already, as they are in the output of [Merge]. *)
Theorem Dedup_contract l :
  scores_ordinary l →
  (∀ i j a b, Dedup l !! i = Some (Some a) → Dedup l !! j = Some (Some b) →
     ID a ≠ EmptyString → ID a = ID b → i = j) ∧
  (∀ x, Some x ∈ l → ID x ≠ EmptyString →
     ∃ w, Some w ∈ Dedup l ∧ ID w = ID x ∧ f_ltb (Score w) (Score x) = false) ∧
  (∀ w, Some w ∈ Dedup l → ∃ x, Some x ∈ l ∧ ID x = ID w ∧ Score x = Score w) ∧
  ((∀ i j a b, l !! i = Some (Some a) → l !! j = Some (Some b) →
      ID a ≠ EmptyString → ID a = ID b → i = j) → Dedup l = l).
Proof.
  intros Hord. unfold Dedup. destruct (Nat.leb_spec (length l) 1) as [Hl|_].
  - split_and!; try done.
    + intros i j a b Hi%lookup_lt_Some Hj%lookup_lt_Some _ _. lia.
    + intros x Hx _. exists x. split_and!; try done. specialize (Hord x Hx).
      destruct (f_ltb (Score x) (Score x)) eqn:E; [|done].
      by rewrite (f_ltb_asym (Score x) (Score x) (Score x)) in E.
    + intros w Hw. by exists w.
  - destruct (dedup_loop_inv ∅ [] [] l) as [index' [H1 H2 H3 H4]]; [|done|].
    { split; intros *; try (by intros ?%not_elem_of_nil); rewrite ?lookup_empty; done. }
    simpl in *. split_and!.
    + intros i j a b Hi Hj Hne E. pose proof (H2 _ _ Hi Hne) as Ha. rewrite E in Ha, Hne.
      pose proof (H2 _ _ Hj Hne). congruence.
    + intros x Hx Hne. destruct (H3 x Hx Hne) as (idx & w & Hi & Hw & ?).
      destruct (H1 _ _ Hi) as (w' & Hw' & ?). exists w. split_and!; [|congruence|done].
      by eapply list_elem_of_lookup_2.
    + exact H4.
    + intros Hd. by rewrite dedup_loop_distinct.
Qed.

(** ** Witnesses *)

Definition bm25_hit (id : string) (score : Z) : Match :=
  set_Score (f32_of_Z score)
    {| ID := id; Source := SourceBM25; Score := f_zero; OriginalScore := f_zero; Rank := 0;
       PrivacyLabel := "internal"; IngestedAt := 0; TenantID := "t"; SourceID := "s";
       DocumentID := "d"; BlockID := "b"; Title := ""; URI := "u"; Text := "x"; Connector := "";
       Metadata := ∅; Sources := [] |}.

Definition sample_streams : list (list (option Match)) :=
  [[Some (bm25_hit "a" 3); Some (bm25_hit "b" 2)]; [None; Some (bm25_hit "b" 1)]].
Definition sample_cfg : MergerConfig := NewMerger {| K := 0; PerSourceWeight := ∅ |}.

Lemma Merge_entries_witness :
  "b"%string ∈ (ID <$> Merge sample_cfg id sample_streams) ∧
  NoDup (ID <$> Merge sample_cfg id sample_streams).
Proof.
  destruct (Merge_entries sample_cfg id (λ l, reflexivity l) sample_streams) as (Hn & Hi & _).
  split; [|exact Hn]. apply Hi. vm_compute. discriminate.
Defined.

Lemma Merge_ranked_witness :
  Merge sample_cfg (λ l, reverse l) sample_streams = Merge sample_cfg id sample_streams.
Proof.
  apply (Merge_ranked sample_cfg id (λ l, reflexivity l) sample_streams (λ l, reverse l)).
  - intros l. apply reverse_Permutation.
  - apply (bool_decide_unpack (map_Forall (λ _ m, f_is_nan (Score m) = false)
      (merge_all sample_cfg sample_streams))). vm_compute. exact I.
Defined.

Lemma Dedup_contract_witness :
  ∃ w, Some w ∈ Dedup [Some (bm25_hit "a" 1); Some (bm25_hit "a" 2)] ∧ ID w = "a"%string ∧
       f_ltb (Score w) (f32_of_Z 2) = false.
Proof.
  destruct (Dedup_contract [Some (bm25_hit "a" 1); Some (bm25_hit "a" 2)]) as (_ & Hb & _).
  - intros m [[= ->]| [[= ->]|[]%not_elem_of_nil]%elem_of_cons]%elem_of_cons; reflexivity.
  - apply (Hb (bm25_hit "a" 2)); [by right; left|done].
Defined.

End Merger.
