(* ===== verification/Reranker.v ===== *)
(** * The in-process reranker and the privacy-label filter

    internal/retrieval/reranker.go. Scores are computed with the float operations
    of [GoFloat]. A nil pointer among several matches makes the sort dereference
    it, which is the [Panic] outcome. The context is reduced to whether it was
    cancelled. *)

From S2P Require Import Prelude GoFloat GoString Match.

Inductive rerank_error := Cancelled | Panic | Remote (msg : string).

(** Apply [f] behind every non-nil pointer. *)
Definition on_matches (f : Match → Match) (ms : list (option Match)) : list (option Match) :=
  option_map f <$> ms.

Definition erase_score (m : Match) : Match := set_Score f_zero m.

(** What the handler relies on: a reranker re-scores and reorders, it neither drops
    nor invents matches, nor changes anything but the score. *)
Class Reranker := {
  Rerank : list (option Match) → result (list (option Match)) rerank_error;
  Rerank_perm ms out : Rerank ms = Ok out →
    (on_matches erase_score out) ≡ₚ (on_matches erase_score ms)
}.

Module LinearReranker.

Record LinearRerankerConfig := {
  FusionWeight : float;
  BM25Weight : float;
  FreshnessWeight : float;
  FreshnessHalfLifeHours : float
}.

Definition NewLinearReranker (cfg : LinearRerankerConfig) : LinearRerankerConfig :=
  {| FusionWeight := if f_eqb (FusionWeight cfg) f_zero then f32_const 6 10 else FusionWeight cfg;
     BM25Weight := if f_eqb (BM25Weight cfg) f_zero then f32_const 3 10 else BM25Weight cfg;
     FreshnessWeight :=
       if f_eqb (FreshnessWeight cfg) f_zero then f32_const 1 10 else FreshnessWeight cfg;
     FreshnessHalfLifeHours :=
       if f_eqb (FreshnessHalfLifeHours cfg) f_zero then f64_of_Z 168
       else FreshnessHalfLifeHours cfg |}.

Definition hasSource (m : Match) (s : string) : bool :=
  existsb (str_eqb s) (Sources m) || str_eqb (Source m) s.

(** The halving loop: [x] is clamped to [-10, 10], so five halvings bring it below
    one half; the fuel leaves room. *)
Fixpoint halve (fuel : nat) (x : float) (steps : nat) : float * nat :=
  match fuel with
  | O => (x, steps)
  | S fuel' =>
      if f_gtb x (f64_const 1 2) || f_ltb x (f64_const (-1) 2)
      then halve fuel' (f64_div x (f64_of_Z 2)) (S steps)
      else (x, steps)
  end.

Definition expApprox (x : float) : float :=
  let x := if f_gtb x (f64_of_Z 10) then f64_of_Z 10 else x in
  let x := if f_ltb x (f64_of_Z (-10)) then f64_of_Z (-10) else x in
  let '(x, steps) := halve 16 x 0 in
  let x2 := f64_mul x x in
  let x3 := f64_mul x2 x in
  let x4 := f64_mul x3 x in
  let r := f64_add (f64_add (f64_add (f64_add (f64_of_Z 1) x) (f64_div x2 (f64_of_Z 2)))
                      (f64_div x3 (f64_of_Z 6))) (f64_div x4 (f64_of_Z 24)) in
  Nat.iter steps (λ r, f64_mul r r) r.

Definition pow2 (x : float) : float :=
  expApprox (f64_mul x (f64_const 6931471805599453 10000000000000000)).

(** [Duration.Hours]. *)
Definition duration_hours (d : Z) : float :=
  f64_add (f64_of_Z (Z.quot d hour)) (f64_div (f64_of_Z (Z.rem d hour)) (f64_of_Z hour)).

Definition f64_opp (x : float) : float := SFopp x.

Definition freshnessTerm (ingested now : Time) (halfLife : float) : float :=
  if time_is_zero ingested || f_leb halfLife f_zero then f_zero
  else
    let ageHours := duration_hours (time_sub now ingested) in
    if f_leb ageHours f_zero then f32_of_Z 1
    else f32_of_f64 (pow2 (f64_div (f64_opp ageHours) halfLife)).

Section Rerank.
Context (cfg : LinearRerankerConfig) (now : Time) (cancelled : bool).

Definition rescore (m : Match) : Match :=
  let bm25 := if hasSource m SourceBM25 then OriginalScore m else f_zero in
  let freshness := freshnessTerm (IngestedAt m) now (FreshnessHalfLifeHours cfg) in
  set_Score
    (f32_add (f32_add (f32_mul (FusionWeight cfg) (Score m)) (f32_mul (BM25Weight cfg) bm25))
       (f32_mul (FreshnessWeight cfg) freshness)) m.

Definition score_desc (a b : Match) : bool := f_gtb (Score a) (Score b).

(** The slice without its nil pointers, or the panic of the comparison. *)
Fixpoint derefs (ms : list (option Match)) : option (list Match) :=
  match ms with
  | [] => Some []
  | None :: _ => None
  | Some m :: rest => (m ::.) <$> derefs rest
  end.

Definition linear_rerank (matches : list (option Match))
  : result (list (option Match)) rerank_error :=
  if cancelled then Err Cancelled
  else
    let rescored := on_matches rescore matches in
    if length rescored <? 2 then Ok rescored
    else match derefs rescored with
         | None => Err Panic
         | Some ms => Ok (Some <$> sort_by score_desc ms)
         end.

Lemma derefs_Some l ms : derefs l = Some ms → l = Some <$> ms.
Proof.
  revert ms. induction l as [|[m|] l IH]; intros ms; simpl; [by intros [= <-]| |done].
  destruct (derefs l) as [ms'|]; simpl; [|done]. intros [= <-]. simpl. by rewrite (IH ms').
Qed.

Lemma derefs_total ms : derefs (Some <$> ms) = Some ms.
Proof.
  induction ms as [|m ms IH]; [done|].
  change (derefs (Some <$> m :: ms)) with ((m ::.) <$> derefs (Some <$> ms)). by rewrite IH.
Qed.

Lemma rescore_erase (ms : list (option Match)) :
  on_matches erase_score (on_matches rescore ms) = on_matches erase_score ms.
Proof. unfold on_matches. rewrite <- list_fmap_compose. apply list_fmap_ext. by intros i [m|] _. Qed.

Lemma linear_rerank_perm ms out :
  linear_rerank ms = Ok out → (on_matches erase_score out) ≡ₚ (on_matches erase_score ms).
Proof.
  unfold linear_rerank. destruct cancelled; [done|]. destruct (_ <? _).
  { intros [= <-]. by rewrite rescore_erase. }
  destruct (derefs _) as [ms'|] eqn:E; [|done]. intros [= <-].
  unfold on_matches at 1. rewrite sort_by_perm. fold (on_matches erase_score (Some <$> ms')). apply derefs_Some in E. by rewrite <- E, rescore_erase.
Qed.

Definition linear : Reranker := {| Rerank := linear_rerank; Rerank_perm := linear_rerank_perm |}.

Lemma score_desc_weak_order l :
  (∀ m, m ∈ l → f_is_nan (Score m) = false) → weak_order_on score_desc l.
Proof.
  intros Hn. unfold score_desc, f_gtb. change SFltb with f_ltb. split.
  - intros a b Ha Hb. eapply (f_ltb_asym (Score b) (Score a) (Score a)); auto.
  - intros a b c Ha Hb Hc H1 H2. apply (f_nltb_trans (Score a) (Score b) (Score c)); auto.
Qed.

(** On a merged ranking (no nil pointers) the reranker always answers unless the
    context is cancelled; the answer holds exactly the rescored matches, best
    score first when none of the new scores is NaN. *)
Theorem linear_rerank_total ms :
  cancelled = false →
  ∃ out, linear_rerank (Some <$> ms) = Ok (Some <$> out) ∧ out ≡ₚ (rescore <$> ms) ∧
    ((∀ m, m ∈ ms → f_is_nan (Score (rescore m)) = false) →
     StronglySorted (λ a b, score_desc b a = false) out).
Proof.
  intros Hc. unfold linear_rerank. rewrite Hc.
  assert (Hr : on_matches rescore (Some <$> ms) = Some <$> (rescore <$> ms)).
  { unfold on_matches. rewrite <- !list_fmap_compose. by apply list_fmap_ext. }
  rewrite Hr, derefs_total. destruct (Nat.ltb_spec (length (Some <$> (rescore <$> ms))) 2) as [Hl|_].
  - exists (rescore <$> ms). split_and!; [done|done|]. intros _.
    destruct ms as [|m [|m' ms]]; simpl in *; [constructor|repeat constructor|lia].
  - exists (sort_by score_desc (rescore <$> ms)). split_and!; [done|apply sort_by_perm|].
    intros Hn. apply sort_by_sorted, score_desc_weak_order.
    intros m (m' & -> & Hm)%list_elem_of_fmap. auto.
Qed.

End Rerank.

Definition sample_cfg : LinearRerankerConfig :=
  NewLinearReranker {| FusionWeight := f_zero; BM25Weight := f_zero; FreshnessWeight := f_zero;
                       FreshnessHalfLifeHours := f_zero |}.

Lemma linear_rerank_total_witness :
  ∃ out, linear_rerank sample_cfg 0 false (Some <$> [bare_Match "a"; bare_Match "b"])
         = Ok (Some <$> out) ∧ length out = 2.
Proof.
  destruct (linear_rerank_total sample_cfg 0 false [bare_Match "a"; bare_Match "b"] eq_refl)
    as (out & Ho & Hp & _).
  exists out. split; [exact Ho|]. by rewrite Hp.
Defined.

End LinearReranker.

Module PolicyFilter.

(** [NewPolicyFilter]: the default order replaces an empty one. *)
Definition default_order : list string :=
  ["public"; "internal"; "confidential"; "restricted"; "secret"]%string.
Definition NewPolicyFilter (order : list string) : list string :=
  if length order =? 0 then default_order else order.

Record PolicyResult := {
  Allowed : list Match;
  BlockedCount : nat;
  BlockedLabels : list string
}.

Section Filter.
Context (order : list string).

Fixpoint index_from (i : nat) (l : list string) (label : string) : option nat :=
  match l with
  | [] => None
  | x :: rest => if str_eqb x label then Some i else index_from (S i) rest label
  end.

Definition idxOf (label : string) : nat :=
  match index_from 0 order label with Some i => i | None => length order + 1 end.

(** [order[0]]; the constructor never leaves the order empty. *)
Definition lowest : string := match order with l :: _ => l | [] => EmptyString end.
Definition or_lowest (label : string) : string := if str_empty label then lowest else label.

Fixpoint apply_loop (maxIdx : nat) (res : PolicyResult) (matches : list (option Match))
  : PolicyResult :=
  match matches with
  | [] => res
  | None :: rest => apply_loop maxIdx res rest
  | Some m :: rest =>
      let label := or_lowest (PrivacyLabel m) in
      if maxIdx <? idxOf label
      then apply_loop maxIdx
             {| Allowed := Allowed res; BlockedCount := S (BlockedCount res);
                BlockedLabels := appendUnique (BlockedLabels res) label |} rest
      else apply_loop maxIdx
             {| Allowed := Allowed res ++ [m]; BlockedCount := BlockedCount res;
                BlockedLabels := BlockedLabels res |} rest
  end.

Definition Apply (matches : list (option Match)) (channelPrivacyMode : string) : PolicyResult :=
  apply_loop (idxOf (or_lowest channelPrivacyMode))
    {| Allowed := []; BlockedCount := 0; BlockedLabels := [] |} matches.

(** A match passes under a mode. *)
Definition passes (mode : string) (m : Match) : bool :=
  idxOf (or_lowest (PrivacyLabel m)) <=? idxOf (or_lowest mode).

Definition present (matches : list (option Match)) : list Match := omap id matches.

Lemma apply_loop_spec mode res matches :
  let r := apply_loop (idxOf (or_lowest mode)) res matches in
  Allowed r = Allowed res ++ List.filter (passes mode) (present matches) ∧
  BlockedCount r + length (List.filter (passes mode) (present matches))
    = BlockedCount res + length (present matches).
Proof.
  revert res. induction matches as [|[m|] matches IH]; intros res; cbn [apply_loop];
    [simpl; rewrite app_nil_r; split; [done|lia]| |apply IH].
  cbn [present omap list_omap id]. fold (present matches). cbn [List.filter length].
  destruct (passes mode m) eqn:E; unfold passes in E; rewrite Nat.leb_antisym in E.
  - apply negb_true_iff in E. rewrite E.
    destruct (IH {| Allowed := Allowed res ++ [m]; BlockedCount := BlockedCount res;
      BlockedLabels := BlockedLabels res |}) as [-> Hc]. simpl in *.
    rewrite <- app_assoc. split; [done|lia].
  - apply negb_false_iff in E. rewrite E.
    destruct (IH {| Allowed := Allowed res; BlockedCount := S (BlockedCount res);
      BlockedLabels := appendUnique (BlockedLabels res) (or_lowest (PrivacyLabel m)) |}) as [-> Hc]. simpl in *. split; [done|lia].
Qed.

Lemma Apply_spec matches mode :
  let r := Apply matches mode in
  Allowed r = List.filter (passes mode) (present matches) ∧
  BlockedCount r + length (Allowed r) = length (present matches).
Proof.
  destruct (apply_loop_spec mode {| Allowed := []; BlockedCount := 0; BlockedLabels := [] |} matches)
    as [Ha Hb]. cbn zeta. unfold Apply. rewrite Ha. simpl in *.
  split; [done|lia].
Qed.

Lemma apply_labels_blocked mode res matches l :
  (∀ l, l ∈ BlockedLabels res → idxOf (or_lowest mode) < idxOf l) →
  l ∈ BlockedLabels (apply_loop (idxOf (or_lowest mode)) res matches) →
  idxOf (or_lowest mode) < idxOf l.
Proof.
  revert res. induction matches as [|[m|] matches IH]; intros res Hr; cbn [apply_loop];
    [apply Hr| |by apply IH].
  destruct (Nat.ltb_spec (idxOf (or_lowest mode)) (idxOf (or_lowest (PrivacyLabel m)))); apply IH;
    [|done]. cbn [BlockedLabels]. intros l' [?|[-> _]]%elem_of_appendUnique; auto.
Qed.

(** The privacy filter partitions the matches: it keeps, in order, exactly those
    whose label is at or below the channel's mode, counts every other one, and
    only reports labels above the mode as blocked. *)
Theorem Apply_partition matches mode :
  let r := Apply matches mode in
  Allowed r = List.filter (passes mode) (present matches) ∧
  BlockedCount r + length (Allowed r) = length (present matches) ∧
  (∀ l, l ∈ BlockedLabels r → idxOf (or_lowest mode) < idxOf l).
Proof.
  destruct (Apply_spec matches mode) as [Ha Hb]. split_and!; [done|done|].
  intros l. apply apply_labels_blocked. by intros ? ?%not_elem_of_nil.
Qed.

Lemma index_from_bound i l label j :
  index_from i l label = Some j → i ≤ j < i + length l.
Proof.
  revert i. induction l as [|x l IH]; intros i; simpl; [done|].
  destruct (str_eqb x label); [intros [= <-]; lia|]. intros ?%IH. lia.
Qed.

Lemma index_from_None i l label : index_from i l label = None ↔ label ∉ l.
Proof.
  revert i. induction l as [|x l IH]; intros i; simpl; [set_solver|].
  destruct (str_eqb x label) eqn:E; rewrite not_elem_of_cons.
  - apply str_eqb_eq in E. naive_solver.
  - apply str_eqb_neq in E. rewrite IH. naive_solver.
Qed.

Lemma idxOf_max label : idxOf label ≤ length order + 1.
Proof.
  unfold idxOf. destruct (index_from 0 order label) eqn:E; [|lia].
  apply index_from_bound in E. lia.
Qed.

(** The label is one of the order's and not above the mode: it is the mode or stands
    before the mode's first occurrence. *)
Definition at_or_below (mode label : string) : Prop :=
  ∃ before after, order = before ++ or_lowest mode :: after ∧ or_lowest mode ∉ before ∧
    or_lowest label ∈ before ++ [or_lowest mode].

Lemma index_from_Some i l label j :
  index_from i l label = Some j →
  ∃ before after, l = before ++ label :: after ∧ label ∉ before ∧ j = i + length before.
Proof.
  revert i. induction l as [|x l IH]; intros i; simpl; [done|].
  destruct (str_eqb x label) eqn:E.
  - apply str_eqb_eq in E as ->. intros [= <-]. exists [], l.
    split_and!; [done|by intros ?%not_elem_of_nil|simpl; lia].
  - apply str_eqb_neq in E. intros (before & after & -> & Hni & ->)%IH.
    exists (x :: before), after. split_and!; [done| |simpl; lia].
    rewrite not_elem_of_cons. split; [congruence|done].
Qed.

(** Under a mode the order lists, what passes is listed and not above the mode. *)
Lemma passes_at_or_below mode m :
  or_lowest mode ∈ order → passes mode m = true → at_or_below mode (PrivacyLabel m).
Proof.
  unfold passes, idxOf. intros Hin Hle%Nat.leb_le.
  destruct (index_from 0 order (or_lowest mode)) as [j|] eqn:Ej; [|by apply index_from_None in Ej].
  apply index_from_Some in Ej as (before & after & Ho & Hni & ->).
  exists before, after. split_and!; [done|done|].
  destruct (index_from 0 order (or_lowest (PrivacyLabel m))) as [i|] eqn:Ei; cbn in Hle.
  - apply index_from_Some in Ei as (b2 & a2 & Ho2 & Hni2 & ->). simpl in Hle.
    assert (Hl : order !! length b2 = Some (or_lowest (PrivacyLabel m)))
      by (rewrite Ho2; by apply list_lookup_middle).
    apply list_elem_of_lookup_2 with (length b2).
    rewrite Ho, cons_middle, app_assoc, lookup_app_l in Hl; [done|].
    rewrite length_app. simpl. lia.
  - rewrite Ho, length_app in Hle. simpl in Hle. lia.
Qed.

(** A mode that is not one of the filter's labels blocks nothing at all: its
    index is above every label's, known or unknown. The strict modes of a tenant
    policy ("no-ai", "local-only") are such modes for the standard order. *)
Theorem Apply_unknown_mode matches mode :
  mode ≠ EmptyString → mode ∉ order →
  Allowed (Apply matches mode) = present matches ∧ BlockedCount (Apply matches mode) = 0.
Proof.
  intros Hne Hni. destruct (Apply_spec matches mode) as [Ha Hb].
  assert (Hall : List.filter (passes mode) (present matches) = present matches).
  { apply filter_true_id, Forall_forall. intros m _. unfold passes.
    apply str_empty_false in Hne. unfold or_lowest at 2. rewrite Hne.
    unfold idxOf at 2. rewrite (proj2 (index_from_None 0 order mode) Hni).
    apply Nat.leb_le, idxOf_max. }
  rewrite Hall in Ha. rewrite Ha in Hb |- *. split; [done|lia].
Qed.

End Filter.

Lemma Apply_unknown_mode_witness :
  let secret := {| ID := "c"; Source := ""; Score := f_zero; OriginalScore := f_zero; Rank := 1;
    PrivacyLabel := "secret"; IngestedAt := 0; TenantID := "t"; SourceID := "s"; DocumentID := "d";
    BlockID := "b"; Title := ""; URI := ""; Text := ""; Connector := ""; Metadata := ∅;
    Sources := [] |} in
  Allowed (Apply default_order [Some secret] "no-ai") = [secret] ∧
  Allowed (Apply default_order [Some secret] "internal") = [].
Proof.
  intros secret. split; [|reflexivity].
  apply (Apply_unknown_mode default_order [Some secret] "no-ai"); [done|].
  apply (bool_decide_unpack ("no-ai"%string ∉ default_order)). vm_compute. exact I.
Defined.

End PolicyFilter.
