(* ===== verification/PolicyGate.v ===== *)
(** * Policy gates on fresh and cached results

    internal/retrieval/policy_snapshot.go and the disclosure of privacy_strip.go.
    The theorems pin down what survives the recipient, source and chunk gates, and
    show that a cached result is judged by the policy in force when it is served,
    exactly as the matches it was built from would be. *)

From S2P Require Import Prelude GoFloat GoString PrivacyMode Glob Acl Conflict Match Reranker.
Import Snapshot.

Module PolicyGate.

(** The strings of a [chunk_tags] value: all of a []string, the non-empty strings of
    a []any. *)
Definition tag_strings (v : any) : list string :=
  match v with
  | AStrings l => l
  | AList l =>
      omap (λ item, match item with
                    | AString s => if str_empty s then None else Some s
                    | _ => None end) l
  | _ => []
  end.

Definition chunkTags (m : Match) : list string :=
  (if str_empty (SourceID m) then [] else [str_app "source." (SourceID m)])
  ++ match Metadata m !! "chunk_tags"%string with Some v => tag_strings v | None => [] end.

Section Gates.
Context (regexp_other : bytes → bytes → bool).

Definition attrs_of (m : Match) : ACL.ChunkAttrs :=
  {| ACL.attr_SourceID := SourceID m;
     ACL.attr_NamespaceID := default EmptyString (metadataString (Metadata m) "namespace_id");
     ACL.attr_Path := matchPath m |}.

Definition no_source_acl (snap : PolicySnapshot) : bool :=
  match ACL snap with None => true | Some l => length (ACL.Rules l) =? 0 end.
Definition no_chunk_acl (snap : PolicySnapshot) : bool :=
  match ChunkACL snap with None => true | Some c => ChunkACL.Len (Some c) =? 0 end.

(** The loop of [applyPolicySnapshot]. *)
Fixpoint gate_loop (snap : PolicySnapshot) (allowed : list (option Match))
  : list (option Match) * nat :=
  match allowed with
  | [] => ([], 0)
  | None :: rest => gate_loop snap rest
  | Some m :: rest =>
      let '(out, blocked) := gate_loop snap rest in
      if negb (no_source_acl snap)
         && negb (ACL.Allowed (ACL.Evaluate regexp_other (ACL snap) (attrs_of m)))
      then (out, S blocked)
      else if negb (no_chunk_acl snap)
              && bool_decide (ChunkACL.Evaluate (ChunkACL snap)
                   {| ChunkACL.a_ChunkID := ID m; ChunkACL.a_Tags := chunkTags m |}
                   = ChunkACL.DecisionDeny)
      then (out, S blocked)
      else (Some m :: out, blocked)
  end.

(** Returns (kept, blocked by ACL, blocked by recipient). *)
Definition applyPolicySnapshot (allowed : list (option Match)) (snap : PolicySnapshot)
    (skillID : string) : list (option Match) * nat * nat :=
  if length allowed =? 0 then (allowed, 0, 0)
  else if match Recipient snap with
          | Some p => negb (Recipient.IsAllowed (Some p) skillID)
          | None => false end
  then ([], 0, length allowed)
  else if no_source_acl snap && no_chunk_acl snap then (allowed, 0, 0)
  else let '(out, blocked) := gate_loop snap allowed in (out, blocked, 0).

(** ** Cached results *)

Definition privacy_shadow (h : CachedHit) : Match :=
  {| ID := k_ID h; Source := ""; Score := f_zero; OriginalScore := f_zero; Rank := 0;
     PrivacyLabel := k_PrivacyLabel h; IngestedAt := 0; TenantID := ""; SourceID := "";
     DocumentID := ""; BlockID := ""; Title := ""; URI := ""; Text := ""; Connector := "";
     Metadata := ∅; Sources := [] |}.

Definition gate_shadow (h : CachedHit) : Match :=
  {| ID := k_ID h; Source := ""; Score := f_zero; OriginalScore := f_zero; Rank := 0;
     PrivacyLabel := ""; IngestedAt := 0; TenantID := ""; SourceID := k_SourceID h;
     DocumentID := ""; BlockID := ""; Title := ""; URI := k_URI h; Text := ""; Connector := "";
     Metadata := k_Metadata h; Sources := [] |}.

(** Rebuild a result from the hits whose id is in [keep]. *)
Definition keep_ids (c : CachedResult) (keep : list string) : CachedResult :=
  let kept := List.filter (λ h, existsb (str_eqb (k_ID h)) keep) (Hits c) in
  {| Hits := kept; CachedAt := CachedAt c; ChunkIDs := k_ID <$> kept |}.

Definition filterCachedByPrivacyMode (c : CachedResult) (order : option (list string))
    (privacyMode : string) : CachedResult * nat :=
  match order with
  | None => (c, 0)
  | Some order =>
      if length (Hits c) =? 0 then (c, 0)
      else
        let pres := PolicyFilter.Apply order (Some <$> (privacy_shadow <$> Hits c)) privacyMode in
        if PolicyFilter.BlockedCount pres =? 0 then (c, 0)
        else (keep_ids c (ID <$> PolicyFilter.Allowed pres), PolicyFilter.BlockedCount pres)
  end.

Definition filterCachedBySnapshot (c : CachedResult) (snap : PolicySnapshot) (skillID : string)
  : CachedResult * nat * nat :=
  if length (Hits c) =? 0 then (c, 0, 0)
  else
    let '(kept, blockedACL, blockedRecip) :=
      applyPolicySnapshot (Some <$> (gate_shadow <$> Hits c)) snap skillID in
    if (blockedACL =? 0) && (blockedRecip =? 0) then (c, 0, 0)
    else (keep_ids c (ID <$> PolicyFilter.present kept), blockedACL, blockedRecip).

(** ** The disclosure strip *)

Definition resolved_label (label mode : string) : string := if str_empty label then mode else label.

Definition classifyProcessedWhere (label mode : string) : string :=
  let r := resolved_label label mode in
  if str_eqb r PrivacyMode.PrivacyModeNoAI then "blocked"
  else if str_eqb r PrivacyMode.PrivacyModeLocalOnly then "on-device"
  else if str_eqb r PrivacyMode.PrivacyModeLocalAPI then "local-api"
  else if str_eqb r PrivacyMode.PrivacyModeHybrid then "local-api"
  else if str_eqb r PrivacyMode.PrivacyModeRemote then "remote"
  else "unknown".

Definition classifyModelTier (label mode : string) : string :=
  let r := resolved_label label mode in
  if str_eqb r PrivacyMode.PrivacyModeNoAI then "none"
  else if str_eqb r PrivacyMode.PrivacyModeLocalOnly || str_eqb r PrivacyMode.PrivacyModeLocalAPI
  then "local-slm"
  else if str_eqb r PrivacyMode.PrivacyModeHybrid || str_eqb r PrivacyMode.PrivacyModeRemote
  then "remote-llm"
  else "none".

Definition dataSourcesFromMatch (m : Match) : list string :=
  if negb (str_empty (Connector m)) then [Connector m] else sort_by str_ltb (Sources m).

Definition appliedRulesForMatch (m : Match) (snap : PolicySnapshot) : list string :=
  match ACL snap with
  | None => []
  | Some l =>
      let attrs := {| ACL.attr_SourceID := SourceID m; ACL.attr_NamespaceID := "";
                      ACL.attr_Path := matchPath m |} in
      let i := ACL.MatchedRule (ACL.Evaluate regexp_other (Some l) attrs) in
      if ((0 <=? i) && (i <? Z.of_nat (length (ACL.Rules l))))%Z then
        match ACL.Rules l !! Z.to_nat i with
        | Some r => [Conflict.formatACLRef (Z.to_nat i) r]
        | None => []
        end
      else []
  end
  ++ match Recipient snap with
     | None => []
     | Some p => if negb (length (Recipient.Rules p) =? 0) then ["recipient_policy:active"%string]
                 else []
     end.

Definition BuildPrivacyStrip (m : Match) (snap : PolicySnapshot) : PrivacyStrip :=
  {| Mode := if str_empty (EffectiveMode snap) then "unknown" else EffectiveMode snap;
     ProcessedWhere := classifyProcessedWhere (PrivacyLabel m) (EffectiveMode snap);
     ModelTier := classifyModelTier (PrivacyLabel m) (EffectiveMode snap);
     DataSources := dataSourcesFromMatch m;
     PolicyApplied := appliedRulesForMatch m snap |}.

(** ** Specification *)

(** The verdict of the three gates on one match. *)
Definition admitted (snap : PolicySnapshot) (m : Match) : bool :=
  ACL.Allowed (ACL.Evaluate regexp_other (ACL snap) (attrs_of m))
  && negb (bool_decide (ChunkACL.Evaluate (ChunkACL snap)
             {| ChunkACL.a_ChunkID := ID m; ChunkACL.a_Tags := chunkTags m |}
             = ChunkACL.DecisionDeny)).

Lemma no_source_acl_allows snap attrs :
  no_source_acl snap = true → ACL.Allowed (ACL.Evaluate regexp_other (ACL snap) attrs) = true.
Proof.
  unfold no_source_acl. destruct (ACL snap) as [l|]; [|done]. intros E%Nat.eqb_eq.
  rewrite ACL.Allowed_existsb. by destruct (ACL.Rules l).
Qed.

Lemma no_chunk_acl_allows snap attrs :
  no_chunk_acl snap = true → ChunkACL.Evaluate (ChunkACL snap) attrs = ChunkACL.DecisionAllow.
Proof.
  unfold no_chunk_acl. destruct (ChunkACL snap) as [[|r c]|]; [done| |done].
  by intros E%Nat.eqb_eq.
Qed.

Lemma gate_loop_spec snap ms :
  gate_loop snap (Some <$> ms) =
  (Some <$> List.filter (admitted snap) ms,
   length ms - length (List.filter (admitted snap) ms)).
Proof.
  induction ms as [|m ms IH]; [done|].
  change (Some <$> m :: ms) with (Some m :: (Some <$> ms)). cbn [gate_loop]. rewrite IH.
  pose proof (filter_length_le (admitted snap) ms) as Hl. cbn [List.filter].
  assert (Hs : negb (no_source_acl snap)
               && negb (ACL.Allowed (ACL.Evaluate regexp_other (ACL snap) (attrs_of m)))
             = negb (ACL.Allowed (ACL.Evaluate regexp_other (ACL snap) (attrs_of m)))).
  { destruct (no_source_acl snap) eqn:E; [|done]. by rewrite no_source_acl_allows. }
  rewrite Hs. set (d := {| ChunkACL.a_ChunkID := ID m; ChunkACL.a_Tags := chunkTags m |}).
  assert (Hk : negb (no_chunk_acl snap)
               && bool_decide (ChunkACL.Evaluate (ChunkACL snap) d = ChunkACL.DecisionDeny)
             = bool_decide (ChunkACL.Evaluate (ChunkACL snap) d = ChunkACL.DecisionDeny)).
  { destruct (no_chunk_acl snap) eqn:E; [|done]. by rewrite no_chunk_acl_allows. }
  assert (Ha : admitted snap m =
    ACL.Allowed (ACL.Evaluate regexp_other (ACL snap) (attrs_of m))
    && negb (bool_decide (ChunkACL.Evaluate (ChunkACL snap) d = ChunkACL.DecisionDeny))) by done.
  rewrite Hk, Ha. destruct (ACL.Allowed _), (bool_decide _); cbn [negb andb length]; f_equal; lia.
Qed.

Lemma admitted_ungated snap ms :
  no_source_acl snap && no_chunk_acl snap = true → List.filter (admitted snap) ms = ms.
Proof.
  intros [Hs Hk]%andb_true_iff. apply filter_true_id, Forall_forall. intros m _.
  unfold admitted. by rewrite no_source_acl_allows, no_chunk_acl_allows.
Qed.

Lemma applyPolicySnapshot_spec ms snap skillID :
  applyPolicySnapshot (Some <$> ms) snap skillID =
  (if Recipient.IsAllowed (Recipient snap) skillID
   then (Some <$> List.filter (admitted snap) ms,
         length ms - length (List.filter (admitted snap) ms), 0)
   else ([], 0, length ms)).
Proof.
  unfold applyPolicySnapshot. rewrite length_fmap. destruct (Nat.eqb_spec (length ms) 0) as [E|_].
  { destruct ms; [|done]. by destruct (Recipient.IsAllowed _ _). }
  assert (Hr : match Recipient snap with
               | Some p => negb (Recipient.IsAllowed (Some p) skillID) | None => false end
             = negb (Recipient.IsAllowed (Recipient snap) skillID)).
  { by destruct (Recipient snap). }
  rewrite Hr. destruct (Recipient.IsAllowed _ _); [|done]. cbn [negb].
  destruct (no_source_acl snap && no_chunk_acl snap) eqn:E.
  - rewrite admitted_ungated by done. by rewrite Nat.sub_diag.
  - by rewrite gate_loop_spec.
Qed.

(** The snapshot gates are exact. A denied recipient gets nothing and every
    match counts as blocked by the recipient policy; an admitted one gets, in
    order, exactly the matches that no source rule and no chunk tag denies, and
    every other match counts as blocked by the ACL. *)
Theorem applyPolicySnapshot_exact ms snap skillID :
  let '(kept, blockedACL, blockedRecip) := applyPolicySnapshot (Some <$> ms) snap skillID in
  kept = (if Recipient.IsAllowed (Recipient snap) skillID
          then Some <$> List.filter (admitted snap) ms else []) ∧
  length kept + blockedACL + blockedRecip = length ms ∧
  (Recipient.IsAllowed (Recipient snap) skillID = true → blockedRecip = 0).
Proof.
  rewrite applyPolicySnapshot_spec. pose proof (filter_length_le (admitted snap) ms).
  destruct (Recipient.IsAllowed _ _); [|by simpl]. rewrite length_fmap. split_and!; [done|lia|done].
Qed.

(** The shadow of a cached hit is judged like the match the hit was made from. *)
Lemma shadow_admitted snap m :
  admitted snap (gate_shadow (cached_of_hit (hitFromMatch m))) = admitted snap m.
Proof. done. Qed.

Lemma shadow_passes order mode m :
  PolicyFilter.passes order mode (privacy_shadow (cached_of_hit (hitFromMatch m)))
  = PolicyFilter.passes order mode m.
Proof. done. Qed.

Lemma present_Some (ms : list Match) : PolicyFilter.present (Some <$> ms) = ms.
Proof.
  unfold PolicyFilter.present. induction ms as [|m ms IH]; [done|].
  change (omap id (Some <$> m :: ms)) with (m :: omap id (Some <$> ms)). by rewrite IH.
Qed.

Definition distinct (c : CachedResult) : Prop := NoDup (k_ID <$> Hits c).

(** With distinct ids, keeping by id is keeping by hit. *)
Lemma keep_ids_filter (shadow : CachedHit → Match) (p : Match → bool) (c : CachedResult) :
  (∀ h, ID (shadow h) = k_ID h) → distinct c →
  Hits (keep_ids c (ID <$> List.filter p (shadow <$> Hits c)))
  = List.filter (λ h, p (shadow h)) (Hits c).
Proof.
  intros Hid Hd. simpl. apply List.filter_ext_in. intros h Hh. apply list_elem_of_In in Hh.
  apply eq_true_iff_eq. rewrite existsb_elem. split.
  - intros (id & (m & -> & [Hp Hm]%elem_of_filterb)%list_elem_of_fmap & E%str_eqb_eq).
    apply list_elem_of_fmap in Hm as (h' & -> & Hh'). rewrite Hid in E.
    assert (h = h') as ->; [|done].
    apply list_elem_of_lookup in Hh as [i Hi], Hh' as [j Hj].
    assert (i = j) as ->; [|congruence].
    apply (NoDup_lookup _ i j (k_ID h) Hd); rewrite list_lookup_fmap; [by rewrite Hi|].
    by rewrite Hj, E.
  - intros Hp. exists (ID (shadow h)). split; [|by rewrite Hid, str_eqb_refl].
    apply list_elem_of_fmap_2, elem_of_filterb. split; [done|]. by apply list_elem_of_fmap_2.
Qed.

Lemma filter_all_id {A} (p : A → bool) (l : list A) :
  length (List.filter p l) = length l → List.filter p l = l.
Proof.
  intros Hl. apply filter_true_id. induction l as [|x l IH]; [constructor|]. simpl in Hl.
  pose proof (filter_length_le p l). destruct (p x) eqn:E; simpl in Hl; [|lia].
  constructor; [done|]. apply IH. lia.
Qed.

Lemma filter_fmap_length {A B} (f : A → B) (p : B → bool) (l : list A) :
  length (List.filter p (f <$> l)) = length (List.filter (λ x, p (f x)) l).
Proof.
  induction l as [|x l IH]; [done|]. cbn [fmap list_fmap List.filter].
  fold (fmap (M:=list) f l). destruct (p (f x)); cbn [length]; by rewrite IH.
Qed.

Lemma filterCachedByPrivacyMode_spec c order mode :
  distinct c →
  Hits (filterCachedByPrivacyMode c (Some order) mode).1
  = List.filter (λ h, PolicyFilter.passes order mode (privacy_shadow h)) (Hits c).
Proof.
  intros Hd. unfold filterCachedByPrivacyMode.
  destruct (Nat.eqb_spec (length (Hits c)) 0) as [E|_]; [by simpl; destruct (Hits c)|].
  destruct (PolicyFilter.Apply_spec order (Some <$> (privacy_shadow <$> Hits c)) mode) as [Ha Hb].
  rewrite present_Some in Ha, Hb. set (pres := PolicyFilter.Apply _ _ _) in *.
  destruct (Nat.eqb_spec (PolicyFilter.BlockedCount pres) 0) as [E|_]; cbn [fst].
  - symmetry. apply filter_all_id. rewrite <- (filter_fmap_length privacy_shadow), <- Ha.
    rewrite E, length_fmap in Hb. simpl in Hb. done.
  - rewrite Ha. by apply (keep_ids_filter privacy_shadow).
Qed.

Lemma filterCachedBySnapshot_spec c snap skillID :
  distinct c →
  Hits (filterCachedBySnapshot c snap skillID).1.1
  = if Recipient.IsAllowed (Recipient snap) skillID
    then List.filter (λ h, admitted snap (gate_shadow h)) (Hits c) else [].
Proof.
  intros Hd. unfold filterCachedBySnapshot.
  destruct (Nat.eqb_spec (length (Hits c)) 0) as [E|Hne].
  { simpl. destruct (Hits c); [|done]. by destruct (Recipient.IsAllowed _ _). }
  rewrite applyPolicySnapshot_spec, length_fmap.
  destruct (Recipient.IsAllowed _ _); cbn [fst snd].
  - pose proof (filter_length_le (admitted snap) (gate_shadow <$> Hits c)) as Hl.
    rewrite length_fmap in Hl.
    destruct (Nat.eqb_spec (length (Hits c) - length (List.filter (admitted snap)
      (gate_shadow <$> Hits c))) 0) as [E|_]; simpl.
    + symmetry. apply filter_all_id. rewrite <- (filter_fmap_length gate_shadow). lia.
    + rewrite present_Some. by apply (keep_ids_filter gate_shadow).
  - rewrite (proj2 (Nat.eqb_neq _ _) Hne). simpl. by apply filter_false_nil.
Qed.

(** C13: serving from the cache is as strict as computing afresh. When the cached
    hits were made from matches [ms] with distinct ids, the two cache filters keep
    exactly the hits of those matches that pass the privacy filter and the gates
    of the snapshot in force now, whatever was in force when they were cached. *)
Theorem cached_hits_regated ms cachedAt ids order mode snap skillID :
  NoDup (ID <$> ms) →
  let c := {| Hits := (λ m, cached_of_hit (hitFromMatch m)) <$> ms; CachedAt := cachedAt;
              ChunkIDs := ids |} in
  Hits (filterCachedBySnapshot (filterCachedByPrivacyMode c (Some order) mode).1 snap skillID).1.1
  = (λ m, cached_of_hit (hitFromMatch m)) <$>
      (if Recipient.IsAllowed (Recipient snap) skillID
       then List.filter (λ m, PolicyFilter.passes order mode m && admitted snap m) ms else []).
Proof.
  intros Hd c.
  assert (Hc : distinct c).
  { unfold distinct, c. simpl. rewrite <- list_fmap_compose. apply Hd. }
  assert (Hp : Hits (filterCachedByPrivacyMode c (Some order) mode).1
    = (λ m, cached_of_hit (hitFromMatch m)) <$> List.filter (PolicyFilter.passes order mode) ms).
  { rewrite filterCachedByPrivacyMode_spec by done. unfold c. simpl. clear.
    induction ms as [|m ms IH]; [done|]. cbn [fmap list_fmap List.filter]. rewrite shadow_passes.
    fold (fmap (M:=list) (λ m, cached_of_hit (hitFromMatch m)) ms). rewrite IH.
    by destruct (PolicyFilter.passes order mode m). }
  rewrite filterCachedBySnapshot_spec.
  - rewrite Hp. destruct (Recipient.IsAllowed _ _); [|done]. clear.
    induction ms as [|m ms IH]; [done|]. cbn [fmap list_fmap List.filter].
    destruct (PolicyFilter.passes order mode m); cbn [andb]; [|done].
    cbn [fmap list_fmap List.filter]. rewrite shadow_admitted.
    fold (fmap (M:=list) (λ m, cached_of_hit (hitFromMatch m))
            (List.filter (PolicyFilter.passes order mode) ms)). rewrite IH.
    by destruct (admitted snap m).
  - unfold distinct. rewrite Hp, <- list_fmap_compose. cbn.
    eapply sublist_NoDup; [exact Hd|]. apply (fmap_sublist ID). clear.
    induction ms as [|m ms IH]; [done|]. simpl.
    destruct (PolicyFilter.passes order mode m); by constructor.
Qed.

End Gates.

Lemma cached_hits_regated_witness :
  let m := {| ID := "c1"; Source := ""; Score := f_zero; OriginalScore := f_zero; Rank := 1;
    PrivacyLabel := "internal"; IngestedAt := 0; TenantID := "t"; SourceID := "s";
    DocumentID := "d"; BlockID := "b"; Title := ""; URI := "drive/a"; Text := ""; Connector := "";
    Metadata := ∅; Sources := [] |} in
  let c := {| Hits := (λ m, cached_of_hit (hitFromMatch m)) <$> [m]; CachedAt := 0;
              ChunkIDs := ["c1"%string] |} in
  Hits (filterCachedBySnapshot (λ _ _, false)
    (filterCachedByPrivacyMode c (Some PolicyFilter.default_order) "public").1 empty "skill").1.1 = [].
Proof.
  intros m c.
  refine (eq_trans (cached_hits_regated (λ _ _, false) [m] 0 ["c1"%string]
    PolicyFilter.default_order "public" empty "skill" _) _); [apply NoDup_singleton|reflexivity].
Defined.

(** The filters key on the hit id only: when two cached hits share an id, the one
    the policy admits readmits the one it denies. *)
Example duplicate_ids_share_a_verdict :
  let h src := {| k_ID := "dup"; k_Score := f_zero; k_TenantID := "t"; k_SourceID := src;
    k_DocumentID := ""; k_BlockID := ""; k_Title := ""; k_URI := ""; k_PrivacyLabel := "";
    k_Text := ""; k_Connector := ""; k_Metadata := ∅ |} in
  let c := {| Hits := [h "open"; h "secret"; h "secret"]%string; CachedAt := 0; ChunkIDs := [] |} in
  let deny := {| ACL.SourceID := "secret"; ACL.NamespaceID := ""; ACL.PathGlob := "";
                 ACL.Action := "deny"; ACL.ComputeTier := "" |} in
  let snap := {| EffectiveMode := ""; ACL := Some {| ACL.TenantID := "t"; ACL.ChannelID := "";
                   ACL.Rules := [deny] |}; ChunkACL := None; Recipient := None;
                 DenyLocalRetrieval := false; NamespacePolicies := ∅ |} in
  Hits (filterCachedBySnapshot (λ _ _, false) c snap "skill").1.1 = Hits c.
Proof. reflexivity. Qed.

End PolicyGate.
