(* ===== verification/Diversifier.v ===== *)
(** * Maximal marginal relevance

    internal/retrieval/diversifier.go. The greedy selection is modelled with the
    float arithmetic of the code, so a candidate whose score is NaN or minus
    infinity is never picked. The interface the handler relies on is that
    diversification only selects and reorders. *)

From S2P Require Import Prelude GoFloat GoString Match.

Class Diversifier := {
  Diversify : list (option Match) → float → Z → list (option Match);
  Diversify_selects ms lambda topK : ∃ rest, Diversify ms lambda topK ++ rest ≡ₚ ms
}.

Module MMR.

(** Running minimum and maximum of the non-nil scores. *)
Definition min_max (ms : list (option Match)) : float * float :=
  foldl (λ acc o, match o with
                  | None => acc
                  | Some m =>
                      (if f_ltb (Score m) acc.1 then Score m else acc.1,
                       if f_gtb (Score m) acc.2 then Score m else acc.2)
                  end) (f_inf, f_neg_inf) ms.

Definition normalisedScores (ms : list (option Match)) : list float :=
  let '(minScore, maxScore) := min_max ms in
  if f_eqb maxScore minScore then (λ _, f32_of_Z 1) <$> ms
  else (λ o, match o with
             | None => f_zero
             | Some m => f32_div (f32_sub (Score m) minScore) (f32_sub maxScore minScore)
             end) <$> ms.

(** ** Token Jaccard similarity *)

Section Tokens.
Context `{Unicode}.

(** [strings.FieldsFunc(strings.ToLower(s), field)] as lists of code points. *)
Fixpoint fields (cur : list N) (l : list N) : list (list N) :=
  match l with
  | [] => if length cur =? 0 then [] else [cur]
  | r :: rest =>
      if negb (u_is_letter r) && negb (u_is_number r)
      then (if length cur =? 0 then [] else [cur]) ++ fields [] rest
      else fields (cur ++ [r]) rest
  end.
Definition tokenSet (s : string) : gset (list N) := list_to_set (fields [] (lower_runes s)).

Definition matchText (m : Match) : string :=
  if negb (str_empty (trim_space (Text m))) then Text m else Title m.

Definition jaccardSimilarity (a b : Match) : float :=
  if str_eqb (ID a) (ID b) then f32_of_Z 1
  else
    let ta := tokenSet (matchText a) in
    let tb := tokenSet (matchText b) in
    if (size ta =? 0) || (size tb =? 0) then f_zero
    else
      let intersect := size (ta ∩ tb) in
      let union := size ta + size tb - intersect in
      if union =? 0 then f_zero
      else f32_div (f32_of_Z (Z.of_nat intersect)) (f32_of_Z (Z.of_nat union)).
End Tokens.

Section Diversify.
Context (similarity : Match → Match → float) (cancelled : bool).

Definition max_similarity (ms : list (option Match)) (selectedIdx : list nat) (m : Match) : float :=
  foldl (λ maxSim j, match ms !! j with
                     | Some (Some x) =>
                         let s := similarity m x in if f_gtb s maxSim then s else maxSim
                     | _ => maxSim
                     end) f_zero selectedIdx.

Definition mmr_score (lambda rel maxSim : float) : float :=
  f32_sub (f32_mul (f32_sub (f32_of_Z 1) lambda) rel) (f32_mul lambda maxSim).

(** The scan for the best candidate not yet picked; [i] is the index of the head. *)
Fixpoint best_scan (ms : list (option Match)) (rel : list float) (lambda : float)
    (selectedIdx : list nat) (i : nat) (rest : list (option Match))
    (best : option nat) (bestScore : float) : option nat :=
  match rest with
  | [] => best
  | o :: rest' =>
      match o with
      | Some m =>
          if bool_decide (i ∈ selectedIdx)
          then best_scan ms rel lambda selectedIdx (S i) rest' best bestScore
          else
            let score := mmr_score lambda (default f_zero (rel !! i))
                           (max_similarity ms selectedIdx m) in
            if f_gtb score bestScore
            then best_scan ms rel lambda selectedIdx (S i) rest' (Some i) score
            else best_scan ms rel lambda selectedIdx (S i) rest' best bestScore
      | None => best_scan ms rel lambda selectedIdx (S i) rest' best bestScore
      end
  end.

(** At most [limit] picks. *)
Fixpoint pick (ms : list (option Match)) (rel : list float) (lambda : float) (limit : nat)
    (selectedIdx : list nat) : list nat :=
  match limit with
  | O => selectedIdx
  | S limit' =>
      match best_scan ms rel lambda selectedIdx 0 ms None f_neg_inf with
      | None => selectedIdx
      | Some i => pick ms rel lambda limit' (selectedIdx ++ [i])
      end
  end.

Definition truncated (ms : list (option Match)) (topK : Z) : list (option Match) :=
  if ((0 <? topK) && (topK <? Z.of_nat (length ms)))%Z then take (Z.to_nat topK) ms else ms.

Definition mmr_diversify (ms : list (option Match)) (lambda : float) (topK : Z)
  : list (option Match) :=
  if cancelled then ms
  else if f_leb lambda f_zero || (length ms <? 2) then truncated ms topK
  else
    let lambda := if f_gtb lambda (f32_of_Z 1) then f32_of_Z 1 else lambda in
    let limit := if ((0 <? topK) && (topK <? Z.of_nat (length ms)))%Z then Z.to_nat topK
                 else length ms in
    omap (λ i, ms !! i) (pick ms (normalisedScores ms) lambda limit []).

(** ** Selection *)

Lemma best_scan_fresh ms rel lambda sel i rest best bestScore j :
  best_scan ms rel lambda sel i rest best bestScore = Some j →
  best = Some j ∨ (j ∉ sel ∧ i ≤ j < i + length rest).
Proof.
  revert i best bestScore. induction rest as [|o rest IH]; intros i best bestScore; simpl; [by left|].
  intros Hs.
  assert (Hstep : ∀ best' bs', best_scan ms rel lambda sel (S i) rest best' bs' = Some j →
    best' = Some j ∨ (j ∉ sel ∧ i ≤ j < i + S (length rest))).
  { intros best' bs' [?|[? ?]]%IH; [by left|right; split; [done|lia]]. }
  destruct o as [m|]; [|by eapply Hstep]. case_bool_decide as Hin; [by eapply Hstep|].
  destruct (f_gtb _ _); [|by eapply Hstep].
  apply Hstep in Hs as [[= <-]|?]; [|by right]. right. split; [done|lia].
Qed.

Definition valid_selection (n : nat) (sel : list nat) : Prop := NoDup sel ∧ ∀ j, j ∈ sel → j < n.

Lemma pick_valid ms rel lambda limit sel :
  valid_selection (length ms) sel → valid_selection (length ms) (pick ms rel lambda limit sel).
Proof.
  revert sel. induction limit as [|limit IH]; intros sel Hs; simpl; [done|].
  destruct (best_scan _ _ _ _ _ _ _ _) as [i|] eqn:E; [|done]. apply IH.
  apply best_scan_fresh in E as [?|[Hni Hlt]]; [done|]. destruct Hs as [Hn Hb]. split.
  - apply NoDup_app. split_and!; [done| |apply NoDup_singleton].
    intros x Hx ->%list_elem_of_singleton. done.
  - intros j [?| ->%list_elem_of_singleton]%elem_of_app; [auto|lia].
Qed.

Lemma omap_seq_lookup {A} (pre l : list A) :
  omap (λ i, (pre ++ l) !! i) (seq (length pre) (length l)) = l.
Proof.
  revert pre. induction l as [|x l IH]; intros pre; [done|].
  cbn [length seq]. cbn [omap list_omap]. rewrite list_lookup_middle by done. f_equal.
  specialize (IH (pre ++ [x])). rewrite <- app_assoc, length_app in IH. simpl in IH.
  by replace (length pre + 1) with (S (length pre)) in IH by lia.
Qed.

Lemma selection_perm (ms : list (option Match)) (sel : list nat) :
  valid_selection (length ms) sel → ∃ rest, omap (λ i, ms !! i) sel ++ rest ≡ₚ ms.
Proof.
  intros [Hn Hb]. set (others := filter (λ i, i ∉ sel) (seq 0 (length ms))).
  exists (omap (λ i, ms !! i) others). rewrite <- omap_app.
  assert (Hp : sel ++ others ≡ₚ seq 0 (length ms)).
  { apply NoDup_Permutation.
    - apply NoDup_app. split_and!; [done| |apply NoDup_filter, NoDup_seq].
      intros x Hx [? _]%list_elem_of_filter. done.
    - apply NoDup_seq.
    - intros x. unfold others. rewrite elem_of_app, list_elem_of_filter, elem_of_seq.
      destruct (decide (x ∈ sel)) as [Hx|]; naive_solver lia. }
  rewrite Hp. pose proof (omap_seq_lookup [] ms) as E. simpl in E. by rewrite E.
Qed.

Lemma mmr_selects_perm ms lambda topK : ∃ rest, mmr_diversify ms lambda topK ++ rest ≡ₚ ms.
Proof.
  unfold mmr_diversify, truncated. destruct cancelled; [exists []; by rewrite app_nil_r|].
  destruct (_ || _).
  - destruct (_ && _)%Z; [|exists []; by rewrite app_nil_r].
    exists (drop (Z.to_nat topK) ms). by rewrite take_drop.
  - apply selection_perm, pick_valid. split; [constructor|]. by intros j ?%not_elem_of_nil.
Qed.

(** Diversification neither invents nor repeats a match: its output is part of
    a permutation of its input. It returns the input order untouched when lambda
    is not positive and no limit is set. *)
Theorem mmr_selects ms lambda topK :
  (∃ rest, mmr_diversify ms lambda topK ++ rest ≡ₚ ms) ∧
  (f_leb lambda f_zero = true → (topK ≤ 0)%Z → mmr_diversify ms lambda topK = ms).
Proof.
  split; [apply mmr_selects_perm|]. intros Hl Hk. unfold mmr_diversify, truncated. rewrite Hl. destruct cancelled; [done|]. simpl.
    by rewrite (proj2 (Z.ltb_ge 0 topK) Hk).
Qed.

End Diversify.

Lemma mmr_selects_witness :
  mmr_diversify (λ _ _, f_zero) false [Some (bare_Match "a"); Some (bare_Match "b")] f_zero 0
  = [Some (bare_Match "a"); Some (bare_Match "b")].
Proof.
  apply (mmr_selects (λ _ _, f_zero) false [Some (bare_Match "a"); Some (bare_Match "b")] f_zero 0);
    [reflexivity|done].
Defined.

(** The default diversifier satisfies the handler's interface. *)
#[export] Instance MMRDiversifier `{Unicode} (cancelled : bool) : Diversifier := {|
  Diversify := mmr_diversify jaccardSimilarity cancelled;
  Diversify_selects := mmr_selects_perm jaccardSimilarity cancelled
|}.

End MMR.
