(* ===== verification/Pins.v ===== *)
(** * Operator pins

    internal/retrieval/pin_apply.go. [sort.Slice] is not stable, so its result on
    equal positions is left open: [slice_sort] is any function that meets its
    contract. With distinct non-negative positions the theorem says that the
    output interleaves the pins in position order with the unpinned hits in their
    own order, dropping none; the examples show what equal positions do. *)

From S2P Require Import Prelude GoFloat GoString Match.

Module Pins.

Record Pin := { ChunkID : string; Position : Z }.

Definition position_less (a b : Pin) : bool := (Position a <? Position b)%Z.

(** [RetrieveHit{ID: id, Score: 1.0}]. *)
Definition synthetic (id : string) : RetrieveHit :=
  {| h_ID := id; h_Score := f32_of_Z 1; h_TenantID := ""; h_SourceID := ""; h_DocumentID := "";
     h_BlockID := ""; h_Title := ""; h_URI := ""; h_PrivacyLabel := ""; h_Text := "";
     h_Connector := ""; h_Metadata := ∅; h_Sources := []; h_PrivacyStrip := no_strip |}.

Section Apply.
Context (slice_sort : list Pin → list Pin).

(** Later entries overwrite earlier ones in both maps. *)
Definition known_hits (hits : list RetrieveHit) : gmap string RetrieveHit :=
  foldl (λ k h, <[h_ID h := h]> k) ∅ hits.
Definition pin_set (pinned : list Pin) : gmap string Z :=
  foldl (λ s p, <[ChunkID p := Position p]> s) ∅ pinned.

Definition pin_hit (known : gmap string RetrieveHit) (p : Pin) : RetrieveHit :=
  match known !! ChunkID p with Some h => h | None => synthetic (ChunkID p) end.

(** The inner loop: skip hits pinned elsewhere, emit the next one. *)
Fixpoint next_dynamic (pinSet : gmap string Z) (i : Z) (hits : list RetrieveHit)
  : option RetrieveHit * list RetrieveHit :=
  match hits with
  | [] => (None, [])
  | h :: rest =>
      match pinSet !! h_ID h with
      | Some pos => if negb (pos =? i)%Z then next_dynamic pinSet i rest else (Some h, rest)
      | None => (Some h, rest)
      end
  end.

(** The main loop, with [n] iterations to go at index [i]; [pinned] and [hits] are
    what remains of the two inputs. *)
Fixpoint pin_loop (known : gmap string RetrieveHit) (pinSet : gmap string Z) (n : nat) (i : Z)
    (pinned : list Pin) (hits : list RetrieveHit) : list RetrieveHit :=
  match n with
  | O => []
  | S n' =>
      match pinned with
      | p :: rest =>
          if (Position p =? i)%Z
          then pin_hit known p :: pin_loop known pinSet n' (i + 1) rest hits
          else match hits with
               | [] => pin_loop known pinSet n' (i + 1) pinned hits
               | _ :: _ =>
                   let '(o, hits') := next_dynamic pinSet i hits in
                   option_list o ++ pin_loop known pinSet n' (i + 1) pinned hits'
               end
      | [] =>
          match hits with
          | [] => []
          | _ :: _ =>
              let '(o, hits') := next_dynamic pinSet i hits in
              option_list o ++ pin_loop known pinSet n' (i + 1) pinned hits'
          end
      end
  end.

Definition last_position (pinned : list Pin) : Z :=
  match last pinned with Some p => Position p | None => -1 end.

Definition ApplyPins (hits : list RetrieveHit) (pins : list Pin) : list RetrieveHit :=
  if length pins =? 0 then hits
  else
    let pinned := slice_sort pins in
    let maxIdx := Z.max (Z.of_nat (length hits + length pinned)) (last_position pinned + 1) in
    pin_loop (known_hits hits) (pin_set pinned) (Z.to_nat maxIdx) 0 pinned hits.

(** ** Properties *)

Definition pinned_id (pins : list Pin) (h : RetrieveHit) : bool :=
  existsb (λ p, str_eqb (ChunkID p) (h_ID h)) pins.

Section Loop.
Context (all : list Pin) (known : gmap string RetrieveHit).
Context (known_ID : ∀ id h, known !! id = Some h → h_ID h = id).
Context (pinSet : gmap string Z).
Context (pinSet_all : ∀ id, is_Some (pinSet !! id) ↔ ∃ p, p ∈ all ∧ ChunkID p = id).
Context (pinSet_pos : ∀ p, p ∈ all → pinSet !! ChunkID p = Some (Position p)).

Definition unpinned (h : RetrieveHit) : bool := negb (pinned_id all h).

Lemma pinned_id_true h : pinned_id all h = true ↔ ∃ p, p ∈ all ∧ ChunkID p = h_ID h.
Proof.
  unfold pinned_id. rewrite existsb_elem. by setoid_rewrite str_eqb_eq.
Qed.

Lemma pin_hit_ID p : h_ID (pin_hit known p) = ChunkID p.
Proof.
  unfold pin_hit. destruct (known !! ChunkID p) as [h|] eqn:E; [|done]. by apply known_ID.
Qed.

(** No pin sits at the current index, so a dynamic hit is emitted iff unpinned. *)
Lemma next_dynamic_spec i hits o hits' :
  (∀ p, p ∈ all → Position p ≠ i) →
  next_dynamic pinSet i hits = (o, hits') →
  List.filter unpinned hits = option_list o ++ List.filter unpinned hits' ∧
  (hits ≠ [] → length hits' < length hits) ∧
  (∀ h, o = Some h → unpinned h = true) ∧ (o = None → hits' = []).
Proof.
  intros Hp. revert o hits'. induction hits as [|h hits IH]; intros o hits'; simpl.
  { intros [= <- <-]. done. }
  destruct (pinSet !! h_ID h) as [pos|] eqn:E.
  - assert (Hpin : ∃ p, p ∈ all ∧ ChunkID p = h_ID h) by (apply pinSet_all; by eexists).
    assert (unpinned h = false) as Hu.
    { unfold unpinned. apply negb_false_iff. by apply pinned_id_true. }
    assert ((pos =? i)%Z = false) as ->.
    { destruct Hpin as (p & Hin & Hid). apply Z.eqb_neq. rewrite <- Hid in E.
      rewrite pinSet_pos in E by done. injection E as <-. auto. }
    simpl. rewrite Hu. intros Hn. destruct (IH _ _ Hn) as (H1 & H2 & H3 & H4).
    split_and!; try done. intros _. destruct hits as [|h' hits]; [|specialize (H2 ltac:(done)); lia].
    simpl in Hn. injection Hn as <- <-. simpl. lia.
  - intros [= <- <-]. assert (unpinned h = true) as Hu.
    { unfold unpinned. apply negb_true_iff, not_true_iff_false. rewrite pinned_id_true.
      rewrite <- pinSet_all, E. by intros [? ?]. }
    rewrite Hu. simpl. split_and!; try done; [lia|]. by intros ? [= <-].
Qed.

(** The pins still to come: sorted, not before [i], and within the bound. *)
Definition ahead (i : Z) (n : nat) (pinned : list Pin) : Prop :=
  StronglySorted (λ a b, (Position a < Position b)%Z) pinned ∧
  ∀ p, p ∈ pinned → (i ≤ Position p < i + Z.of_nat n)%Z.

Lemma pin_loop_spec n i pinned hits :
  ahead i n pinned → pinned ⊆ all →
  (∀ p, p ∈ all → (i ≤ Position p)%Z → p ∈ pinned) →
  (hits = [] ∨ length hits + length pinned ≤ n) →
  let out := pin_loop known pinSet n i pinned hits in
  List.filter unpinned out = List.filter unpinned hits ∧
  h_ID <$> List.filter (pinned_id all) out = ChunkID <$> pinned.
Proof.
  revert i pinned hits. induction n as [|n IH]; intros i pinned hits [Hs Hb] Hsub Hcov Hlen.
  { assert (pinned = []) as ->.
    { destruct pinned as [|p ?]; [done|]. specialize (Hb p ltac:(left)). lia. }
    destruct Hlen as [->|Hl]; [done|]. destruct hits; [done|]. simpl in Hl. lia. }
  cbn [pin_loop].
  assert (Hdyn : (∀ p, p ∈ pinned → (i + 1 ≤ Position p)%Z) → hits ≠ [] →
    let '(o, hits') := next_dynamic pinSet i hits in
    let out := option_list o ++ pin_loop known pinSet n (i + 1) pinned hits' in
    List.filter unpinned out = List.filter unpinned hits ∧
    h_ID <$> List.filter (pinned_id all) out = ChunkID <$> pinned).
  { intros Hlate Hne. destruct (next_dynamic pinSet i hits) as [o hits'] eqn:En.
    apply next_dynamic_spec in En as (E1 & E2 & E3 & E4).
    2:{ intros p Hp Hi. specialize (Hlate p). rewrite Hi in Hlate.
        specialize (Hlate (Hcov p Hp ltac:(lia))). lia. }
    destruct (IH (i + 1)%Z pinned hits') as [F1 F2].
    - split; [done|]. intros p Hp. specialize (Hb p Hp). specialize (Hlate p Hp). lia.
    - done.
    - intros p Hp Hi. apply Hcov; [done|lia].
    - destruct Hlen as [->|Hl]; [done|]. specialize (E2 Hne). right. lia.
    - cbn zeta. rewrite !List.filter_app, fmap_app, F1, F2, E1.
      destruct o as [h|]; simpl; [|done]. rewrite (E3 h eq_refl).
      pose proof (E3 h eq_refl) as Hu. unfold unpinned in Hu. apply negb_true_iff in Hu.
      by rewrite Hu. }
  destruct pinned as [|p rest].
  - destruct hits as [|h hits]; [done|]. specialize (Hdyn ltac:(by intros ? ?%not_elem_of_nil) ltac:(done)).
    by destruct (next_dynamic pinSet i (h :: hits)).
  - apply StronglySorted_inv in Hs as [Hs Hf]. rewrite Forall_forall in Hf.
    destruct (Z.eqb_spec (Position p) i) as [Hi|Hi].
    + destruct (IH (i + 1)%Z rest hits) as [F1 F2].
      * split; [done|]. intros q Hq. specialize (Hb q ltac:(by right)). specialize (Hf q Hq). lia.
      * intros q Hq. apply Hsub. by right.
      * intros q Hq Hqi. specialize (Hcov q Hq ltac:(lia)).
        apply elem_of_cons in Hcov as [->|?]; [lia|done].
      * destruct Hlen as [->|Hl]; [by left|right]. simpl in Hl. lia.
      * assert (Hp : pinned_id all (pin_hit known p) = true).
        { apply pinned_id_true. exists p. rewrite pin_hit_ID. split; [|done]. apply Hsub. left. }
        cbn zeta in *. cbn [List.filter]. unfold unpinned at 1. rewrite Hp. cbn [negb].
        by rewrite !fmap_cons, F1, F2, pin_hit_ID.
    + destruct hits as [|h hits].
      * apply IH; [|done|intros q Hq Hqi; apply Hcov; [done|lia]|by left].
        split; [by constructor; [|apply Forall_forall]|].
        intros q Hq. pose proof (Hb q Hq). pose proof (Hb p ltac:(left)).
        apply elem_of_cons in Hq as [->|Hq]; [lia|]. specialize (Hf q Hq). lia.
      * assert (Hlate : ∀ q, q ∈ p :: rest → (i + 1 ≤ Position q)%Z).
        { intros q Hq. specialize (Hb p ltac:(left)). apply elem_of_cons in Hq as [->|Hq]; [lia|].
          specialize (Hf q Hq). lia. }
        specialize (Hdyn Hlate ltac:(done)). by destruct (next_dynamic pinSet i (h :: hits)).
Qed.

End Loop.

(** ** The maps built before the loop *)

Lemma known_hits_ID hits id h : known_hits hits !! id = Some h → h_ID h = id ∧ h ∈ hits.
Proof.
  unfold known_hits.
  assert (Hg : ∀ k0 : gmap string RetrieveHit,
    foldl (λ k h, <[h_ID h := h]> k) k0 hits !! id = Some h →
    (h_ID h = id ∧ h ∈ hits) ∨ k0 !! id = Some h).
  { induction hits as [|h0 hits IH]; intros k0; simpl; [by right|].
    intros [[? ?]|Hk]%IH; [left; split; [done|by right]|].
    destruct (decide (h_ID h0 = id)) as [<-|Hn].
    - rewrite lookup_insert_eq in Hk. injection Hk as <-. left. split; [done|left].
    - rewrite lookup_insert_ne in Hk by done. by right. }
  intros [?|Hk]%Hg; [done|]. by rewrite lookup_empty in Hk.
Qed.

Lemma pin_set_lookup pinned p :
  NoDup (ChunkID <$> pinned) → p ∈ pinned → pin_set pinned !! ChunkID p = Some (Position p).
Proof.
  unfold pin_set.
  assert (Hkeep : ∀ (l : list Pin) (s0 : gmap string Z) id, id ∉ (ChunkID <$> l) →
    foldl (λ s p, <[ChunkID p := Position p]> s) s0 l !! id = s0 !! id).
  { induction l as [|q l IH]; intros s0 id Hid; simpl; [done|].
    rewrite fmap_cons, not_elem_of_cons in Hid. destruct Hid as [Hq Hid].
    rewrite IH by done. by rewrite lookup_insert_ne. }
  generalize (∅ : gmap string Z). induction pinned as [|q pinned IH]; intros s0 Hd Hp; simpl.
  { by apply not_elem_of_nil in Hp. }
  rewrite fmap_cons in Hd. apply NoDup_cons in Hd as [Hq Hd].
  apply elem_of_cons in Hp as [->|Hp]; [|by apply IH].
  rewrite Hkeep by done. by rewrite lookup_insert_eq.
Qed.

Lemma pin_set_dom pinned id :
  is_Some (pin_set pinned !! id) ↔ ∃ p, p ∈ pinned ∧ ChunkID p = id.
Proof.
  unfold pin_set.
  assert (Hg : ∀ s0 : gmap string Z,
    is_Some (foldl (λ s p, <[ChunkID p := Position p]> s) s0 pinned !! id) ↔
    (∃ p, p ∈ pinned ∧ ChunkID p = id) ∨ is_Some (s0 !! id)).
  { induction pinned as [|q pinned IH]; intros s0; simpl; [set_solver|].
    rewrite IH, exists_elem_of_cons. destruct (decide (ChunkID q = id)) as [<-|Hn].
    - rewrite lookup_insert_eq. split; [by left; left|]. intros _. right. by eexists.
    - rewrite lookup_insert_ne by done. tauto. }
  rewrite Hg, lookup_empty. split; [|by left]. intros [?|[? ?]]; done.
Qed.

(** The last pin has the largest position. *)
Lemma last_position_max pinned p :
  StronglySorted (λ a b, (Position a < Position b)%Z) pinned → p ∈ pinned →
  (Position p ≤ last_position pinned)%Z.
Proof.
  unfold last_position. induction pinned as [|q pinned IH] using rev_ind; [by intros _ ?%not_elem_of_nil|].
  rewrite last_snoc. intros (H12 & _ & _)%StronglySorted_app [Hp| ->%list_elem_of_singleton]%elem_of_app;
    [|done]. specialize (H12 p q Hp ltac:(left)). simpl in H12. lia.
Qed.

Context (slice_sort_ok : ∀ l, slice_sorted position_less l (slice_sort l)).

Lemma slice_sort_strict pins :
  NoDup (Position <$> pins) →
  StronglySorted (λ a b, (Position a < Position b)%Z) (slice_sort pins).
Proof.
  intros Hd. destruct (slice_sort_ok pins) as [Hp Hs].
  assert (Hd' : NoDup (Position <$> slice_sort pins)) by (by rewrite Hp).
  revert Hd' Hs. generalize (slice_sort pins). clear.
  induction l as [|p l IH]; intros Hd Hs; [constructor|].
  rewrite fmap_cons in Hd. apply NoDup_cons in Hd as [Hn Hd].
  apply StronglySorted_inv in Hs as [Hs Hf]. constructor; [by apply IH|].
  rewrite Forall_forall in *. intros q Hq. specialize (Hf q Hq). unfold position_less in Hf.
  apply Z.ltb_ge in Hf. assert (Position p ≠ Position q); [|lia].
  intros E. apply Hn. rewrite E. by apply list_elem_of_fmap_2.
Qed.

(** Pinning interleaves without losing anything. When the pins have distinct
    non-negative positions and distinct chunks, the unpinned hits come out all and
    in their original order, and the pinned chunks come out once each, in position
    order, whether or not the backends returned them. *)
Theorem ApplyPins_interleaves hits pins :
  NoDup (Position <$> pins) → NoDup (ChunkID <$> pins) →
  (∀ p, p ∈ pins → (0 ≤ Position p)%Z) →
  List.filter (unpinned pins) (ApplyPins hits pins) = List.filter (unpinned pins) hits ∧
  h_ID <$> List.filter (pinned_id pins) (ApplyPins hits pins) = ChunkID <$> slice_sort pins.
Proof.
  intros Hd Hc Hpos. unfold ApplyPins. destruct (Nat.eqb_spec (length pins) 0) as [E|_].
  { destruct pins; [|done]. destruct (slice_sort_ok []) as [->%Permutation_nil_r _].
    split; [done|]. by rewrite filter_false_nil. }
  pose proof (slice_sort_strict pins Hd) as Hs. destruct (slice_sort_ok pins) as [Hp _].
  assert (Hid : ∀ h, pinned_id pins h = pinned_id (slice_sort pins) h).
  { intros h. symmetry. by apply existsb_perm. }
  assert (Hu : ∀ h, unpinned pins h = unpinned (slice_sort pins) h).
  { intros h. unfold unpinned. by rewrite Hid. }
  rewrite !(List.filter_ext _ _ Hu), (List.filter_ext _ _ Hid).
  apply pin_loop_spec.
  - intros id h Hk. by apply known_hits_ID in Hk as [? _].
  - apply pin_set_dom.
  - intros p. apply pin_set_lookup. by rewrite Hp.
  - split; [done|]. intros p Hin. pose proof (last_position_max _ _ Hs Hin).
    rewrite Hp in Hin. specialize (Hpos p Hin). lia.
  - done.
  - done.
  - right. lia.
Qed.

End Apply.

Definition sort_pins (l : list Pin) : list Pin := sort_by position_less l.

Lemma sort_pins_ok l : slice_sorted position_less l (sort_pins l).
Proof.
  apply sort_by_slice_sorted. unfold position_less. split.
  - intros a b _ _ H%Z.ltb_lt. apply Z.ltb_ge. lia.
  - intros a b c _ _ _ H1%Z.ltb_ge H2%Z.ltb_ge. apply Z.ltb_ge. lia.
Qed.

Lemma ApplyPins_interleaves_witness :
  let hits := [synthetic "a"; synthetic "b"; synthetic "c"]%string in
  let pins := [{| ChunkID := "c"; Position := 0 |}; {| ChunkID := "z"; Position := 2 |}] in
  List.filter (unpinned pins) (ApplyPins sort_pins hits pins) = [synthetic "a"; synthetic "b"]%string.
Proof.
  intros hits pins.
  destruct (ApplyPins_interleaves sort_pins sort_pins_ok hits pins) as [Hu _].
  - apply (bool_decide_unpack (NoDup (Position <$> pins))). vm_compute. exact I.
  - apply (bool_decide_unpack (NoDup (ChunkID <$> pins))). vm_compute. exact I.
  - intros p Hp. repeat (apply elem_of_cons in Hp as [->|Hp]; [done|]). by apply not_elem_of_nil in Hp.
  - rewrite Hu. reflexivity.
Defined.

(** Two pins on the same position: the second never matches an index again, and
    neither does any pin after it; the hits they refer to are dropped. *)
Example equal_positions_lose_pins :
  h_ID <$> ApplyPins sort_pins [synthetic "a"; synthetic "b"; synthetic "c"]%string
    [{| ChunkID := "x"; Position := 0 |}; {| ChunkID := "b"; Position := 0 |};
     {| ChunkID := "c"; Position := 1 |}]
  = ["x"; "a"]%string.
Proof. reflexivity. Qed.

End Pins.
