(* ===== verification/Handler.v ===== *)
(** * The retrieval handler

    internal/retrieval/handler.go: the fan-out, the pipeline from ranked streams to
    a response, the cache-aware entry points, and the cache key. Backends, the
    embedder, the cache, the policy resolver, the shard registry and the synonym
    expander are outside the repository or behind ports; their answers are inputs.
    A request is the one the experiment router hands on.
    Timings, the explain block, metrics and query analytics are left out. *)

From S2P Require Import Prelude GoFloat GoString PrivacyMode Glob Acl Match Merger.
From S2P Require Import Reranker Diversifier PolicyGate Pins.
Import Snapshot.

Module Handler.

Record RetrieveRequest := {
  Query : string;
  TopK : Z;
  rq_Sources : list string;
  Channels : list string;
  Documents : list string;
  PrivacyMode : string;
  SkillID : string;
  DeviceTier : string;
  Diversity : float;
  ExperimentName : string;
  ExperimentBucketKey : string
}.

Record RetrievePolicy := {
  Applied : list string;
  Degraded : list string;
  BlockedCount : nat;
  CacheHit : bool;
  p_PrivacyMode : string
}.

Record RetrieveResponse := {
  r_Hits : list RetrieveHit;
  Policy : RetrievePolicy;
  PreferLocal : bool;
  LocalShardVersion : Z;
  PreferLocalReason : string
}.

Record HandlerConfig := {
  DefaultTopK : Z;
  MaxTopK : Z;
  DefaultPrivacyMode : string;
  PrivacyOrder : list string;
  MergerCfg : Merger.MergerConfig
}.

(** The defaults of [NewHandler]. *)
Definition NewHandler (cfg : HandlerConfig) : HandlerConfig :=
  {| DefaultTopK := if (DefaultTopK cfg =? 0)%Z then 10 else DefaultTopK cfg;
     MaxTopK := if (MaxTopK cfg =? 0)%Z then 100 else MaxTopK cfg;
     DefaultPrivacyMode :=
       if str_empty (DefaultPrivacyMode cfg) then "internal" else DefaultPrivacyMode cfg;
     PrivacyOrder := PolicyFilter.NewPolicyFilter (PrivacyOrder cfg);
     MergerCfg := Merger.NewMerger (MergerCfg cfg) |}.

Inductive error :=
| MissingTenant | MissingQuery | BadTopK | EmbedFailed | RerankFailed (e : rerank_error).

Definition firstNonEmpty (slice : list string) : string :=
  match List.find (λ s, negb (str_empty (trim_space s))) slice with
  | Some s => s
  | None => EmptyString
  end.

(** ** Fan-out *)

Inductive backend := BVector | BBM25 | BGraph | BMemory.
Definition backend_name (b : backend) : string :=
  match b with
  | BVector => SourceVector | BBM25 => SourceBM25 | BGraph => SourceGraph | BMemory => SourceMemory
  end.

Definition set_Rank (r : Z) (m : Match) : Match :=
  {| ID := ID m; Source := Source m; Score := Score m; OriginalScore := OriginalScore m; Rank := r;
     PrivacyLabel := PrivacyLabel m; IngestedAt := IngestedAt m; TenantID := TenantID m;
     SourceID := SourceID m; DocumentID := DocumentID m; BlockID := BlockID m; Title := Title m;
     URI := URI m; Text := Text m; Connector := Connector m; Metadata := Metadata m;
     Sources := Sources m |}.
Definition set_Source (s : string) (m : Match) : Match :=
  {| ID := ID m; Source := s; Score := Score m; OriginalScore := OriginalScore m; Rank := Rank m;
     PrivacyLabel := PrivacyLabel m; IngestedAt := IngestedAt m; TenantID := TenantID m;
     SourceID := SourceID m; DocumentID := DocumentID m; BlockID := BlockID m; Title := Title m;
     URI := URI m; Text := Text m; Connector := Connector m; Metadata := Metadata m;
     Sources := Sources m |}.

(** The vector stream is ranked by position; the others keep what the backend set. *)
Definition label_hit (b : backend) (i : nat) (m : Match) : Match :=
  match b with
  | BVector => set_Rank (Z.of_nat i + 1) m
  | _ =>
      let m := if str_empty (Source m) then set_Source (backend_name b) m else m in
      if (Rank m =? 0)%Z then set_Rank (Z.of_nat i + 1) m else m
  end.

(** The backends in the order their goroutines finish, each with its answer:
    [None] is an error or a missed deadline. *)
Definition fanOut (answers : list (backend * option (list Match)))
  : list (list (option Match)) * list string :=
  (omap (λ a, (λ hits, imap (λ i m, Some (label_hit a.1 i m)) hits) <$> a.2) answers,
   omap (λ a, match a.2 with None => Some (backend_name a.1) | Some _ => None end) answers).

Fixpoint applied_loop (seen out : list string) (ms : list (option Match)) : list string * list string :=
  match ms with
  | [] => (seen, out)
  | None :: rest => applied_loop seen out rest
  | Some m :: rest =>
      if str_empty (Source m) || existsb (str_eqb (Source m)) seen then applied_loop seen out rest
      else applied_loop (Source m :: seen) (out ++ [Source m]) rest
  end.
Definition appliedSources (streams : list (list (option Match))) : list string :=
  (foldl (λ acc s, applied_loop acc.1 acc.2 s) ([], []) streams).2.

(** A Qdrant hit: the recognised payload keys become fields, the rest metadata.
    [parse_time] is [time.Parse(time.RFC3339, s)]. *)
Definition payload_string (p : gmap string any) (k : string) : string :=
  match p !! k with Some (AString s) => s | _ => EmptyString end.
Definition payload_keys : list string :=
  ["tenant_id"; "source_id"; "document_id"; "block_id"; "title"; "uri"; "privacy_label"; "text";
   "connector"; "ingested_at"]%string.
Definition matchFromQdrant (parse_time : string → option Time) (id : string) (score : float)
    (payload : gmap string any) : Match :=
  {| ID := id; Source := SourceVector; Score := score; OriginalScore := f_zero; Rank := 0;
     PrivacyLabel := payload_string payload "privacy_label";
     IngestedAt := match payload !! "ingested_at"%string with
                   | Some (AString s) => default 0%Z (parse_time s) | _ => 0%Z end;
     TenantID := payload_string payload "tenant_id"; SourceID := payload_string payload "source_id";
     DocumentID := payload_string payload "document_id";
     BlockID := payload_string payload "block_id"; Title := payload_string payload "title";
     URI := payload_string payload "uri"; Text := payload_string payload "text";
     Connector := payload_string payload "connector";
     Metadata := filter (λ kv, kv.1 ∉ payload_keys) payload; Sources := [] |}.

(** ** The pipeline *)

Section Pipeline.
Context `{Reranker} `{Diversifier}.
Context (cfg : HandlerConfig) (regexp_other : bytes → bytes → bool)
        (iterate : list Match → list Match).

Definition resolveTopKAndPrivacy (req : RetrieveRequest) (snapshot : PolicySnapshot)
  : result (Z * string) error :=
  let topK := if (TopK req =? 0)%Z then DefaultTopK cfg else TopK req in
  if (topK <? 0)%Z then Err BadTopK
  else
    let topK := if (MaxTopK cfg <? topK)%Z then MaxTopK cfg else topK in
    let mode := if str_empty (PrivacyMode req) then DefaultPrivacyMode cfg else PrivacyMode req in
    let mode := if str_empty (EffectiveMode snapshot) then mode else EffectiveMode snapshot in
    Ok (topK, mode).

(** [s[:topK]] when it is longer; a negative bound would panic. *)
Definition truncate {A} (topK : Z) (l : list A) : list A := take (Z.to_nat topK) l.

Definition merged (streams : list (list (option Match))) : list (option Match) :=
  Merger.Dedup (Some <$> Merger.Merge (MergerCfg cfg) iterate streams).

Definition gated_hit (snapshot : PolicySnapshot) (m : Match) : RetrieveHit :=
  with_strip (PolicyGate.BuildPrivacyStrip regexp_other m snapshot) (hitFromMatch m).

Definition runPipelineFromVec (req : RetrieveRequest) (snapshot : PolicySnapshot) (topK : Z)
    (privacyMode : string) (answers : list (backend * option (list Match)))
  : result RetrieveResponse error :=
  let '(streams, degraded) := fanOut answers in
  match Rerank (merged streams) with
  | Err e => Err (RerankFailed e)
  | Ok reranked =>
      let reranked := if f_gtb (Diversity req) f_zero then Diversify reranked (Diversity req) 0
                      else reranked in
      let pres := PolicyFilter.Apply (PrivacyOrder cfg) reranked privacyMode in
      let '(kept, blockedByACL, blockedByRecipient) :=
        PolicyGate.applyPolicySnapshot regexp_other (Some <$> PolicyFilter.Allowed pres) snapshot
          (SkillID req) in
      let allowed := truncate topK (PolicyFilter.present kept) in
      Ok {| r_Hits := gated_hit snapshot <$> allowed;
            Policy := {| Applied := appliedSources streams; Degraded := degraded;
                         BlockedCount := PolicyFilter.BlockedCount pres
                                         + (blockedByACL + blockedByRecipient);
                         CacheHit := false; p_PrivacyMode := privacyMode |};
            PreferLocal := false; LocalShardVersion := 0; PreferLocalReason := "" |}
  end.

(** [shard] is the registry's answer, [None] when there is none or it failed. *)
Definition applyDeviceFirst (shard : option Z) (privacyMode deviceTier : string)
    (snapshot : PolicySnapshot) (resp : RetrieveResponse) : RetrieveResponse :=
  let d := PrivacyMode.Decide
    {| PrivacyMode.DeviceTier := deviceTier;
       PrivacyMode.AllowLocalRetrieval := negb (DenyLocalRetrieval snapshot);
       PrivacyMode.InPrivacyMode := privacyMode;
       PrivacyMode.InLocalShardVersion := default 0%Z shard |} in
  {| r_Hits := r_Hits resp; Policy := Policy resp; PreferLocal := PrivacyMode.PreferLocal d;
     LocalShardVersion := PrivacyMode.LocalShardVersion d;
     PreferLocalReason := PrivacyMode.Reason d |}.

Definition responseFromCache (c : CachedResult) (privacyMode : string) (topK : Z)
  : RetrieveResponse :=
  let hits := if (0 <? topK)%Z then truncate topK (Hits c) else Hits c in
  {| r_Hits := hit_of_cached <$> hits;
     Policy := {| Applied := []; Degraded := []; BlockedCount := 0; CacheHit := true;
                  p_PrivacyMode := privacyMode |};
     PreferLocal := false; LocalShardVersion := 0; PreferLocalReason := "" |}.

Definition cachedFromResponse (resp : RetrieveResponse) : CachedResult :=
  {| Hits := cached_of_hit <$> r_Hits resp; CachedAt := 0; ChunkIDs := h_ID <$> r_Hits resp |}.

(** The cache-hit branch shared by the two cache-aware entry points. *)
Definition serve_cached (req : RetrieveRequest) (snapshot : PolicySnapshot) (topK : Z)
    (privacyMode : string) (shard : option Z) (cached : CachedResult) : RetrieveResponse :=
  let '(c1, blockedByPrivacy) :=
    PolicyGate.filterCachedByPrivacyMode cached (Some (PrivacyOrder cfg)) privacyMode in
  let '(c2, blockedByACL, blockedByRecipient) :=
    PolicyGate.filterCachedBySnapshot regexp_other c1 snapshot (SkillID req) in
  let resp := responseFromCache c2 privacyMode topK in
  let p := Policy resp in
  applyDeviceFirst shard privacyMode (DeviceTier req) snapshot
    {| r_Hits := (λ h, with_strip
         (PolicyGate.BuildPrivacyStrip regexp_other (matchFromCachedHit h) snapshot) h)
         <$> r_Hits resp;
       Policy := {| Applied := Applied p; Degraded := Degraded p;
                    BlockedCount := blockedByPrivacy + blockedByACL + blockedByRecipient;
                    CacheHit := CacheHit p; p_PrivacyMode := p_PrivacyMode p |};
       PreferLocal := false; LocalShardVersion := 0; PreferLocalReason := "" |}.

(** What the outside answers to one request. *)
Record Environment := {
  e_embed : bool;                                      (** the embedder succeeds *)
  e_answers : list (backend * option (list Match));    (** the fan-out *)
  e_cache : option (option CachedResult);              (** no cache; miss or error; hit *)
  e_shard : option Z
}.

(** Returns the response and the entry written to the cache, if any. *)
Definition RetrieveWithSnapshotCached (tenantID : string) (req : RetrieveRequest)
    (snapshot : PolicySnapshot) (env : Environment)
  : result (RetrieveResponse * option CachedResult) error :=
  if str_empty tenantID then Err MissingTenant
  else if str_empty (Query req) then Err MissingQuery
  else
    let! (topK, privacyMode) := resolveTopKAndPrivacy req snapshot in
    if negb (e_embed env) then Err EmbedFailed
    else match e_cache env with
         | Some (Some cached) =>
             Ok (serve_cached req snapshot topK privacyMode (e_shard env) cached, None)
         | cache =>
             let! resp := runPipelineFromVec req snapshot topK privacyMode (e_answers env) in
             let write := match cache with
                          | Some None => if negb (length (r_Hits resp) =? 0)
                                         then Some (cachedFromResponse resp) else None
                          | _ => None
                          end in
             Ok (applyDeviceFirst (e_shard env) privacyMode (DeviceTier req) snapshot resp, write)
         end.

Definition RetrieveWithSnapshot (tenantID : string) (req : RetrieveRequest)
    (snapshot : PolicySnapshot) (env : Environment) : result RetrieveResponse error :=
  if str_empty tenantID then Err MissingTenant
  else if str_empty (Query req) then Err MissingQuery
  else
    let! (topK, privacyMode) := resolveTopKAndPrivacy req snapshot in
    if negb (e_embed env) then Err EmbedFailed
    else runPipelineFromVec req snapshot topK privacyMode (e_answers env).

(** POST /v1/retrieve after the body has been bound and validated. *)
Inductive http_response :=
| Unauthorized
| BadRequest
| Unavailable (resp : RetrieveResponse)
| InternalError
| OK (resp : RetrieveResponse) (cache_write : option CachedResult).

Definition retrieve (slice_sort : list Pins.Pin → list Pins.Pin) (tenantID : option string)
    (req : RetrieveRequest) (resolved : result PolicySnapshot unit) (env : Environment)
    (pins : list Pins.Pin) : http_response :=
  match tenantID with
  | None => Unauthorized
  | Some _ =>
      match resolveTopKAndPrivacy req empty with
      | Err _ => BadRequest
      | Ok _ =>
          match resolved with
          | Err _ =>
              Unavailable {| r_Hits := [];
                Policy := {| Applied := []; Degraded := []; BlockedCount := 0; CacheHit := false;
                             p_PrivacyMode := PrivacyMode.PrivacyModeNoAI |};
                PreferLocal := false; LocalShardVersion := 0; PreferLocalReason := "" |}
          | Ok snapshot =>
              match resolveTopKAndPrivacy req snapshot with
              | Err _ => BadRequest
              | Ok (topK, privacyMode) =>
                  if negb (e_embed env) then InternalError
                  else match e_cache env with
                       | Some (Some cached) =>
                           OK (serve_cached req snapshot topK privacyMode (e_shard env) cached) None
                       | cache =>
                           match runPipelineFromVec req snapshot topK privacyMode (e_answers env) with
                           | Err _ => InternalError
                           | Ok resp =>
                               let hits := if length pins =? 0 then r_Hits resp
                                           else truncate topK (Pins.ApplyPins slice_sort (r_Hits resp) pins) in
                               let resp := {| r_Hits := hits; Policy := Policy resp;
                                  PreferLocal := false; LocalShardVersion := 0;
                                  PreferLocalReason := "" |} in
                               let write := match cache with
                                            | Some None => if negb (length hits =? 0)
                                                           then Some (cachedFromResponse resp) else None
                                            | _ => None
                                            end in
                               OK (applyDeviceFirst (e_shard env) privacyMode (DeviceTier req)
                                     snapshot resp) write
                           end
                       end
              end
          end
      end
  end.

(** ** Lemmas *)

Lemma resolveTopKAndPrivacy_Ok req snapshot topK mode :
  (0 ≤ DefaultTopK cfg)%Z → (0 ≤ MaxTopK cfg)%Z →
  resolveTopKAndPrivacy req snapshot = Ok (topK, mode) →
  (0 ≤ topK ≤ MaxTopK cfg)%Z ∧
  (EffectiveMode snapshot ≠ EmptyString → mode = EffectiveMode snapshot).
Proof.
  intros Hd Hm. unfold resolveTopKAndPrivacy. destruct (_ <? 0)%Z eqn:E; [done|].
  apply Z.ltb_ge in E. intros [= <- <-]. split.
  - destruct (Z.ltb_spec (MaxTopK cfg) (if (TopK req =? 0)%Z then DefaultTopK cfg else TopK req)); lia.
  - intros Hne%str_empty_false. by rewrite Hne.
Qed.

Lemma merged_distinct streams (iterate_perm : ∀ l, iterate l ≡ₚ l) :
  merged streams = Some <$> Merger.Merge (MergerCfg cfg) iterate streams.
Proof.
  unfold merged, Merger.Dedup. destruct (_ <=? _); [done|].
  assert (Hn : NoDup (ID <$> Merger.Merge (MergerCfg cfg) iterate streams)).
  { rewrite Merger.Merge_perm, Merger.merged_values_IDs by done. apply NoDup_fst_map_to_list. }
  rewrite Merger.dedup_loop_distinct; [done| |].
  - intros m _ _. apply lookup_empty.
  - intros i j a b Hi Hj _ E. rewrite list_lookup_fmap in Hi, Hj.
    apply fmap_Some in Hi as (a' & Ha & [= <-]). apply fmap_Some in Hj as (b' & Hb & [= <-]).
    apply (NoDup_lookup _ i j (ID a) Hn); rewrite list_lookup_fmap; [by rewrite Ha|by rewrite Hb, E].
Qed.

(** What reaches the policy filter: a selection of the merged matches, re-scored. *)
Definition ranked (req : RetrieveRequest) (reranked : list (option Match)) : list (option Match) :=
  if f_gtb (Diversity req) f_zero then Diversify reranked (Diversity req) 0 else reranked.

Lemma ranked_selects req ms : ∃ rest, ranked req ms ++ rest ≡ₚ ms.
Proof.
  unfold ranked. destruct (f_gtb _ _); [apply Diversify_selects|]. exists []. by rewrite app_nil_r.
Qed.

Lemma present_perm (l l' : list (option Match)) :
  l ≡ₚ l' → PolicyFilter.present l ≡ₚ PolicyFilter.present l'.
Proof. unfold PolicyFilter.present. by intros ->. Qed.

Lemma present_erase l :
  PolicyFilter.present (on_matches erase_score l) = erase_score <$> PolicyFilter.present l.
Proof.
  unfold PolicyFilter.present, on_matches. induction l as [|[m|] l IH]; [done| |done].
  cbn [fmap list_fmap option_map omap list_omap id]. f_equal. apply IH.
Qed.

Lemma runPipeline_Ok req snapshot topK mode answers resp :
  runPipelineFromVec req snapshot topK mode answers = Ok resp →
  ∃ reranked, Rerank (merged (fanOut answers).1) = Ok reranked ∧
    let candidates := PolicyFilter.present (ranked req reranked) in
    let kept := if Recipient.IsAllowed (Recipient snapshot) (SkillID req)
                then List.filter (PolicyGate.admitted regexp_other snapshot)
                       (List.filter (PolicyFilter.passes (PrivacyOrder cfg) mode) candidates)
                else [] in
    r_Hits resp = gated_hit snapshot <$> take (Z.to_nat topK) kept ∧
    BlockedCount (Policy resp) + length kept = length candidates.
Proof.
  unfold runPipelineFromVec. destruct (fanOut answers) as [streams degraded]. cbn [fst].
  destruct (Rerank (merged streams)) as [reranked|e]; [|done].
  fold (ranked req reranked).
  destruct (PolicyFilter.Apply_spec (PrivacyOrder cfg) (ranked req reranked) mode) as [Ha Hb].
  set (pres := PolicyFilter.Apply _ _ _) in *. rewrite PolicyGate.applyPolicySnapshot_spec.
  intros E. exists reranked. split; [done|]. cbn zeta. rewrite <- Ha.
  pose proof (filter_length_le (PolicyGate.admitted regexp_other snapshot) (PolicyFilter.Allowed pres)).
  destruct (Recipient.IsAllowed _ _); cbn in E; injection E as <-; cbn [r_Hits Policy BlockedCount].
  - rewrite PolicyGate.present_Some. split; [done|lia].
  - unfold truncate. rewrite !take_nil. split; [done|]. simpl. lia.
Qed.

(** A hit is clean under a mode, a snapshot and a skill. *)
Definition clean (mode : string) (snapshot : PolicySnapshot) (skillID : string) (h : RetrieveHit)
  : Prop :=
  Recipient.IsAllowed (Recipient snapshot) skillID = true ∧
  PolicyFilter.passes (PrivacyOrder cfg) mode (matchFromCachedHit h) = true ∧
  PolicyGate.admitted regexp_other snapshot (matchFromCachedHit h) = true.

Lemma runPipeline_clean req snapshot topK mode answers resp h :
  runPipelineFromVec req snapshot topK mode answers = Ok resp → h ∈ r_Hits resp →
  clean mode snapshot (SkillID req) h.
Proof.
  intros (reranked & _ & -> & _)%runPipeline_Ok (m & -> & Hm)%list_elem_of_fmap.
  apply elem_of_take in Hm as (i & Hm & _). apply list_elem_of_lookup_2 in Hm.
  destruct (Recipient.IsAllowed _ _) eqn:Er; [|by apply not_elem_of_nil in Hm].
  apply elem_of_filterb in Hm as [Ha Hm]. apply elem_of_filterb in Hm as [Hp _]. done.
Qed.

Lemma serve_cached_clean req snapshot topK mode shard cached h :
  PolicyGate.distinct cached →
  h ∈ r_Hits (serve_cached req snapshot topK mode shard cached) →
  clean mode snapshot (SkillID req) h.
Proof.
  intros Hd. unfold serve_cached.
  pose proof (PolicyGate.filterCachedByPrivacyMode_spec cached (PrivacyOrder cfg) mode Hd) as H1.
  destruct (PolicyGate.filterCachedByPrivacyMode _ _ _) as [c1 n1]. cbn [fst] in H1.
  assert (Hd1 : PolicyGate.distinct c1).
  { unfold PolicyGate.distinct in *. rewrite H1. eapply sublist_NoDup; [exact Hd|].
    apply (fmap_sublist k_ID). apply filterb_sublist. }
  pose proof (PolicyGate.filterCachedBySnapshot_spec regexp_other c1 snapshot (SkillID req) Hd1) as H2.
  destruct (PolicyGate.filterCachedBySnapshot _ _ _ _) as [[c2 n2] n3]. cbn [fst] in H2.
  cbn [applyDeviceFirst r_Hits responseFromCache].
  intros (h0 & -> & (k & -> & Hk)%list_elem_of_fmap)%list_elem_of_fmap.
  assert (k ∈ Hits c2) as Hk2.
  { destruct (0 <? topK)%Z; [|done]. apply elem_of_take in Hk as (i & Hk & _).
    by eapply list_elem_of_lookup_2. }
  rewrite H2 in Hk2. unfold clean. destruct (Recipient.IsAllowed _ _); [|by apply not_elem_of_nil in Hk2].
  apply elem_of_filterb in Hk2 as [Ha Hk2]. rewrite H1 in Hk2.
  apply elem_of_filterb in Hk2 as [Hp _]. done.
Qed.

(** What a successful retrieval holds. *)
Lemma RetrieveWithSnapshotCached_clean tenantID req snapshot env resp write :
  (0 ≤ DefaultTopK cfg)%Z → (0 < MaxTopK cfg)%Z →
  (∀ c, e_cache env = Some (Some c) → PolicyGate.distinct c) →
  RetrieveWithSnapshotCached tenantID req snapshot env = Ok (resp, write) →
  ∃ topK mode, resolveTopKAndPrivacy req snapshot = Ok (topK, mode) ∧
    (EffectiveMode snapshot ≠ EmptyString → mode = EffectiveMode snapshot) ∧
    (∀ h, h ∈ r_Hits resp → clean mode snapshot (SkillID req) h) ∧
    (0 < topK → Z.of_nat (length (r_Hits resp)) ≤ topK ≤ MaxTopK cfg)%Z.
Proof.
  intros Hdk Hmk Hd. unfold RetrieveWithSnapshotCached.
  destruct (str_empty tenantID), (str_empty (Query req)); try done.
  destruct (resolveTopKAndPrivacy req snapshot) as [[topK mode]|] eqn:Er; [|done]. simpl.
  destruct (negb (e_embed env)); [done|]. intros Hres. exists topK, mode.
  split; [done|]. apply resolveTopKAndPrivacy_Ok in Er as [Hk Hm]; [|done|lia]. split; [done|].
  assert (Hfresh : ∀ resp0, runPipelineFromVec req snapshot topK mode (e_answers env) = Ok resp0 →
    (∀ h, h ∈ r_Hits resp0 → clean mode snapshot (SkillID req) h) ∧
    (0 < topK → Z.of_nat (length (r_Hits resp0)) ≤ topK ≤ MaxTopK cfg)%Z).
  { intros resp0 Hp. split; [intros h; by eapply runPipeline_clean|].
    apply runPipeline_Ok in Hp as (reranked & _ & -> & _). rewrite length_fmap, length_take. lia. }
  destruct (e_cache env) as [[cached|]|] eqn:Ec.
  - injection Hres as <- <-. split; [intros h; apply serve_cached_clean; by apply Hd|].
    unfold serve_cached. destruct (PolicyGate.filterCachedByPrivacyMode _ _ _) as [c1 n1].
    destruct (PolicyGate.filterCachedBySnapshot _ _ _ _) as [[c2 n2] n3].
    cbn [applyDeviceFirst r_Hits responseFromCache]. intros Hpos.
    apply Z.ltb_lt in Hpos as Hpos'. rewrite Hpos', !length_fmap.
    unfold truncate. rewrite length_take. lia.
  - apply result_bind_Ok in Hres as (resp0 & Hp & [= <- <-]). exact (Hfresh _ Hp).
  - apply result_bind_Ok in Hres as (resp0 & Hp & [= <- <-]). exact (Hfresh _ Hp).
Qed.

(** What the policy asks of a hit that is handed out: the skill is an admitted
    recipient, the rules of the snapshot admit the chunk and, when the effective mode
    is one of the filter's labels, the hit's label is listed and not above it. *)
Definition permitted (mode : string) (snapshot : PolicySnapshot) (skillID : string)
    (h : RetrieveHit) : Prop :=
  Recipient.IsAllowed (Recipient snapshot) skillID = true ∧
  PolicyGate.admitted regexp_other snapshot (matchFromCachedHit h) = true ∧
  (PolicyFilter.or_lowest (PrivacyOrder cfg) mode ∈ PrivacyOrder cfg →
   PolicyFilter.at_or_below (PrivacyOrder cfg) mode (PrivacyLabel (matchFromCachedHit h))).

Lemma clean_permitted mode snapshot skillID h :
  clean mode snapshot skillID h → permitted mode snapshot skillID h.
Proof.
  intros (Hr & Hp & Ha). split_and!; [done|done|].
  intros Hin. by apply PolicyFilter.passes_at_or_below.
Qed.

(** C1: no response carries a hit the policy denies. Whether it is computed or
    served from the cache, for every hit of a successful retrieval the calling skill
    is an admitted recipient, the source and chunk rules of the snapshot in force
    admit the chunk and, when the effective mode is one of the labels of the
    privacy order, the hit's label is listed there too, at or before the mode; the mode is
    the administrator's when one is set, and for a positive top-k at most that many
    hits come back, never more than [MaxTopK]. For a mode the order does not list no
    claim is made on labels: the filter then blocks none of them. The configured
    [DefaultTopK] is not negative and [MaxTopK] is positive, as the constructor's
    defaults are, and cached entries hold distinct ids. *)
Theorem RetrieveWithSnapshotCached_safe tenantID req snapshot env resp write :
  (0 ≤ DefaultTopK cfg)%Z → (0 < MaxTopK cfg)%Z →
  (∀ c, e_cache env = Some (Some c) → PolicyGate.distinct c) →
  RetrieveWithSnapshotCached tenantID req snapshot env = Ok (resp, write) →
  ∃ topK mode, resolveTopKAndPrivacy req snapshot = Ok (topK, mode) ∧
    (EffectiveMode snapshot ≠ EmptyString → mode = EffectiveMode snapshot) ∧
    (∀ h, h ∈ r_Hits resp → permitted mode snapshot (SkillID req) h) ∧
    (0 < topK → Z.of_nat (length (r_Hits resp)) ≤ topK ≤ MaxTopK cfg)%Z.
Proof.
  intros Hdk Hmk Hd Hres.
  destruct (RetrieveWithSnapshotCached_clean tenantID req snapshot env resp write Hdk Hmk Hd Hres)
    as (topK & mode & Hr & Hm & Hc & Hn).
  exists topK, mode. split_and!; [done|done| |done]. intros h Hh. by apply clean_permitted, Hc.
Qed.

(** The ids of the fused streams: distinct, and each returned by a backend. *)
Lemma Merge_ids streams :
  (∀ l, iterate l ≡ₚ l) →
  let ms := Merger.Merge (MergerCfg cfg) iterate streams in
  NoDup (ID <$> ms) ∧ ∀ id, id ∈ (ID <$> ms) → Merger.hits_for id streams ≠ [].
Proof.
  intros Hit ms. unfold ms. split; [|intros id];
    rewrite Merger.Merge_perm, Merger.merged_values_IDs by done;
    [apply NoDup_fst_map_to_list|].
  intros ([id' m] & -> & Hm%elem_of_map_to_list)%list_elem_of_fmap. simpl.
  by apply Merger.merge_all_Some in Hm as [? _].
Qed.

(** Reranking permutes the ids. *)
Lemma reranked_ids streams reranked :
  (∀ l, iterate l ≡ₚ l) → Rerank (merged streams) = Ok reranked →
  ID <$> PolicyFilter.present reranked
  ≡ₚ ID <$> Merger.Merge (MergerCfg cfg) iterate streams.
Proof.
  intros Hit Hrr. rewrite merged_distinct in Hrr by done. apply Rerank_perm in Hrr as Hp.
  apply present_perm in Hp. rewrite !present_erase, PolicyGate.present_Some in Hp.
  apply (fmap_Permutation ID) in Hp. by rewrite <- !list_fmap_compose in Hp.
Qed.

(** Diversification selects among the reranked ids. *)
Lemma candidate_ids req reranked (ids : list string) :
  ID <$> PolicyFilter.present reranked ≡ₚ ids → NoDup ids →
  let cand := PolicyFilter.present (ranked req reranked) in
  NoDup (ID <$> cand) ∧ ∀ id, id ∈ (ID <$> cand) → id ∈ ids.
Proof.
  intros Hids Hnd cand.
  destruct (ranked_selects req reranked) as [rest Hrest]. apply present_perm in Hrest.
  unfold PolicyFilter.present in Hrest at 1. rewrite omap_app in Hrest.
  apply (fmap_Permutation ID) in Hrest. rewrite Hids, fmap_app in Hrest. split.
  - rewrite <- Hrest in Hnd. by apply NoDup_app in Hnd as [? _].
  - intros id Hid. rewrite <- Hrest, elem_of_app. by left.
Qed.

(** The pipeline accounts for every candidate. Each hit comes from a backend
    that returned its id, ids are not repeated, and when no diversification is
    asked for, every merged match is either among the admitted ones, of which the
    best [topK] are returned, or counted as blocked. *)
Theorem runPipeline_accounts req snapshot topK mode answers resp :
  (∀ l, iterate l ≡ₚ l) →
  runPipelineFromVec req snapshot topK mode answers = Ok resp →
  let streams := (fanOut answers).1 in
  (∀ h, h ∈ r_Hits resp → Merger.hits_for (h_ID h) streams ≠ []) ∧
  NoDup (h_ID <$> r_Hits resp) ∧
  (f_gtb (Diversity req) f_zero = false →
   ∃ admitted_n, length (r_Hits resp) = min (Z.to_nat topK) admitted_n ∧
     BlockedCount (Policy resp) + admitted_n
     = length (Merger.Merge (MergerCfg cfg) iterate streams)).
Proof.
  intros Hit (reranked & Hrr & Hh & Hc)%runPipeline_Ok. cbn zeta in *.
  set (streams := (fanOut answers).1) in *.
  destruct (Merge_ids streams Hit) as [Hnd Hsrc].
  pose proof (reranked_ids streams reranked Hit Hrr) as Hids.
  destruct (candidate_ids req reranked _ Hids Hnd) as [Hcn Hcm].
  set (cand := PolicyFilter.present (ranked req reranked)) in *.
  set (kept := if Recipient.IsAllowed _ _ then _ else _) in *.
  assert (Htake : take (Z.to_nat topK) kept `sublist_of` cand).
  { etrans; [apply sublist_take|]. unfold kept.
    destruct (Recipient.IsAllowed _ _); [|apply sublist_nil_l]. etrans; apply filterb_sublist. }
  assert (Hhits : h_ID <$> r_Hits resp = ID <$> take (Z.to_nat topK) kept).
  { rewrite Hh, <- list_fmap_compose. by apply list_fmap_ext. }
  split_and!.
  - intros h Hin. apply Hsrc, Hcm.
    apply (list_elem_of_fmap_2 h_ID) in Hin. rewrite Hhits in Hin.
    apply list_elem_of_fmap in Hin as (m & -> & Hm). apply list_elem_of_fmap_2.
    by eapply elem_of_sublist.
  - rewrite Hhits. eapply sublist_NoDup; [exact Hcn|]. by apply (fmap_sublist ID).
  - intros Hdiv. exists (length kept). split.
    + rewrite Hh, length_fmap, length_take. done.
    + rewrite Hc. unfold cand, ranked. rewrite Hdiv.
      transitivity (length (ID <$> PolicyFilter.present reranked)); [by rewrite length_fmap|].
      by rewrite Hids, length_fmap.
Qed.

(** A hit that only names a pinned chunk carries no content. *)
Definition pin_only (h : RetrieveHit) : Prop := ∃ id, h = Pins.synthetic id.

Lemma next_dynamic_elems pinSet i hits o hits' :
  Pins.next_dynamic pinSet i hits = (o, hits') →
  (∀ h, o = Some h → h ∈ hits) ∧ (∀ h, h ∈ hits' → h ∈ hits).
Proof.
  revert o hits'. induction hits as [|h0 hits IH]; intros o hits'; simpl.
  { by intros [= <- <-]. }
  assert (Hstop : (Some h0, hits) = (o, hits') →
    (∀ h, o = Some h → h ∈ h0 :: hits) ∧ (∀ h, h ∈ hits' → h ∈ h0 :: hits)).
  { intros [= <- <-]. split; [intros ? [= <-]; left|intros h ?; by right]. }
  destruct (pinSet !! h_ID h0) as [pos|]; [|done]. destruct (negb _); [|done].
  intros [H1 H2]%IH. split; intros h Hh; right; auto.
Qed.

Lemma pin_loop_elems known pinSet n i pinned hits h :
  h ∈ Pins.pin_loop known pinSet n i pinned hits →
  h ∈ hits ∨ (∃ id, known !! id = Some h) ∨ pin_only h.
Proof.
  revert i pinned hits. induction n as [|n IH]; intros i pinned hits; simpl;
    [by intros ?%not_elem_of_nil|].
  assert (Hdyn : (let '(o, hits') := Pins.next_dynamic pinSet i hits in
      h ∈ option_list o ++ Pins.pin_loop known pinSet n (i + 1) pinned hits') →
    h ∈ hits ∨ (∃ id, known !! id = Some h) ∨ pin_only h).
  { destruct (Pins.next_dynamic pinSet i hits) as [o hits'] eqn:E.
    apply next_dynamic_elems in E as [H1 H2]. intros [Ho|Ho]%elem_of_app.
    - destruct o as [h'|]; simpl in Ho; [|by apply not_elem_of_nil in Ho].
      apply list_elem_of_singleton in Ho as ->. auto.
    - destruct (IH _ _ _ Ho) as [?|?]; auto. }
  destruct pinned as [|p rest].
  - destruct hits as [|h0 hits]; [by intros ?%not_elem_of_nil|].
    by destruct (Pins.next_dynamic pinSet i (h0 :: hits)).
  - destruct (_ =? _)%Z.
    + intros [->|Hh]%elem_of_cons; [|by eapply IH]. right. unfold Pins.pin_hit.
      destruct (known !! Pins.ChunkID p) eqn:E; [left; by eexists|right; by eexists].
    + destruct hits as [|h0 hits]; [apply IH|]. by destruct (Pins.next_dynamic pinSet i (h0 :: hits)).
Qed.

Lemma ApplyPins_elems slice_sort hits pins h :
  h ∈ Pins.ApplyPins slice_sort hits pins → h ∈ hits ∨ pin_only h.
Proof.
  unfold Pins.ApplyPins. destruct (_ =? _); [by left|].
  intros [?|[(id & Hk)|?]]%pin_loop_elems; [by left| |by right].
  left. by apply Pins.known_hits_ID in Hk as [_ ?].
Qed.

(** C40: the HTTP entry point fails closed. Without a tenant there is no answer; a
    policy that cannot be resolved gives an empty result in no-ai mode; and every
    hit of a 200 response is permitted by the resolved policy (the skill is an admitted
    recipient, the snapshot's source and chunk rules admit the chunk and, under a
    mode the privacy order lists, its label is listed at or before the mode; for
    a mode the order does not list no claim is made on labels) or is a bare reference
    to a pinned chunk, carrying nothing but its id and a fixed score. Cached entries
    hold distinct ids. *)
Theorem retrieve_fails_closed slice_sort tenantID req resolved env pins :
  (∀ c, e_cache env = Some (Some c) → PolicyGate.distinct c) →
  match retrieve slice_sort tenantID req resolved env pins with
  | OK resp _ => is_Some tenantID ∧ ∃ snapshot topK mode, resolved = Ok snapshot ∧
      resolveTopKAndPrivacy req snapshot = Ok (topK, mode) ∧
      ∀ h, h ∈ r_Hits resp → permitted mode snapshot (SkillID req) h ∨ pin_only h
  | Unavailable resp => is_Some tenantID ∧ resolved = Err tt ∧ r_Hits resp = [] ∧
      p_PrivacyMode (Policy resp) = PrivacyMode.PrivacyModeNoAI
  | Unauthorized => tenantID = None
  | BadRequest | InternalError => is_Some tenantID
  end.
Proof.
  intros Hd. unfold retrieve. destruct tenantID as [tid|]; [|done].
  destruct (resolveTopKAndPrivacy req empty) as [[k0 m0]|]; [|done].
  destruct resolved as [snapshot|[]]; [|done].
  destruct (resolveTopKAndPrivacy req snapshot) as [[topK mode]|] eqn:Er; [|done].
  destruct (negb (e_embed env)); [done|].
  assert (Hfresh : ∀ resp0 shard hits, runPipelineFromVec req snapshot topK mode (e_answers env) = Ok resp0 →
    hits = (if length pins =? 0 then r_Hits resp0
            else truncate topK (Pins.ApplyPins slice_sort (r_Hits resp0) pins)) →
    ∀ h, h ∈ r_Hits (applyDeviceFirst shard mode (DeviceTier req) snapshot
      {| r_Hits := hits; Policy := Policy resp0; PreferLocal := false; LocalShardVersion := 0;
         PreferLocalReason := "" |}) → permitted mode snapshot (SkillID req) h ∨ pin_only h).
  { intros resp0 shard hits Hp -> h Hh. cbn [applyDeviceFirst r_Hits] in Hh.
    destruct (_ =? _); [left; eapply clean_permitted, runPipeline_clean; eauto|].
    apply elem_of_take in Hh as (i & Hi & _). apply list_elem_of_lookup_2 in Hi.
    apply ApplyPins_elems in Hi as [?|?]; [left; eapply clean_permitted, runPipeline_clean; eauto|by right]. }
  destruct (e_cache env) as [[cached|]|] eqn:Ec.
  - split; [by eexists|]. exists snapshot, topK, mode. split_and!; [done|done|].
    intros h Hh. left. eapply clean_permitted, serve_cached_clean; [|exact Hh]. by apply Hd.
  - destruct (runPipelineFromVec _ _ _ _ _) as [resp0|] eqn:Ep; [|done].
    split; [by eexists|]. exists snapshot, topK, mode. split_and!; [done|done|]. by eapply Hfresh.
  - destruct (runPipelineFromVec _ _ _ _ _) as [resp0|] eqn:Ep; [|done].
    split; [by eexists|]. exists snapshot, topK, mode. split_and!; [done|done|]. by eapply Hfresh.
Qed.

End Pipeline.

(** ** Witnesses *)

Definition sample_cfg : HandlerConfig :=
  NewHandler {| DefaultTopK := 0; MaxTopK := 0; DefaultPrivacyMode := ""; PrivacyOrder := [];
                MergerCfg := {| Merger.K := 0; Merger.PerSourceWeight := ∅ |} |}.
Definition sample_req : RetrieveRequest :=
  {| Query := "q"; TopK := 0; rq_Sources := []; Channels := []; Documents := []; PrivacyMode := "";
     SkillID := "s"; DeviceTier := ""; Diversity := f_zero; ExperimentName := "";
     ExperimentBucketKey := "" |}.
Definition sample_env : Environment :=
  {| e_embed := true; e_cache := Some None; e_shard := None;
     e_answers := [(BBM25, Some [Merger.bm25_hit "a" 3; Merger.bm25_hit "b" 2]); (BGraph, None)] |}.
Definition the_reranker : Reranker :=
  LinearReranker.linear LinearReranker.sample_cfg 0 false.
Definition the_diversifier : Diversifier := @MMR.MMRDiversifier ascii_tables false.

Lemma RetrieveWithSnapshotCached_safe_witness :
  ∃ resp w, @RetrieveWithSnapshotCached the_reranker the_diversifier sample_cfg (λ _ _, false) id "t"
              sample_req empty sample_env = Ok (resp, w) ∧
    length (r_Hits resp) = 2 ∧
    (∀ h, h ∈ r_Hits resp → permitted sample_cfg (λ _ _, false) "internal" empty "s" h).
Proof.
  destruct (@RetrieveWithSnapshotCached the_reranker the_diversifier sample_cfg (λ _ _, false) id "t"
    sample_req empty sample_env) as [[resp w]|e] eqn:E; [|vm_compute in E; discriminate E].
  exists resp, w. split; [reflexivity|].
  split; [vm_compute in E; injection E as <- _; reflexivity|].
  destruct (@RetrieveWithSnapshotCached_safe the_reranker the_diversifier sample_cfg (λ _ _, false) id
    "t" sample_req empty sample_env resp w) as (topK & mode & Hr & _ & Hc & _); [done|done|done|exact E|].
  injection Hr as <- <-. exact Hc.
Defined.

Lemma runPipeline_accounts_witness :
  ∃ resp, @runPipelineFromVec the_reranker the_diversifier sample_cfg (λ _ _, false) id sample_req
            empty 10 "internal" (e_answers sample_env) = Ok resp ∧ NoDup (h_ID <$> r_Hits resp).
Proof.
  destruct (@runPipelineFromVec the_reranker the_diversifier sample_cfg (λ _ _, false) id sample_req
    empty 10 "internal" (e_answers sample_env)) as [resp|e] eqn:E; [|vm_compute in E; discriminate E].
  exists resp. split; [reflexivity|].
  apply (@runPipeline_accounts the_reranker the_diversifier sample_cfg (λ _ _, false) id sample_req
    empty 10 "internal" (e_answers sample_env) resp (λ l, reflexivity l) E).
Defined.

(** A pinned reference first, then the two permitted hits; and an unresolved policy. *)
Definition sample_pins : list Pins.Pin := [{| Pins.ChunkID := "p"; Pins.Position := 0 |}].

Lemma retrieve_fails_closed_witness :
  (∃ resp w, @retrieve the_reranker the_diversifier sample_cfg (λ _ _, false) id Pins.sort_pins
      (Some "t"%string) sample_req (Ok empty) sample_env sample_pins = OK resp w ∧
    h_ID <$> r_Hits resp = ["p"; "a"; "b"]%string ∧
    ∀ h, h ∈ r_Hits resp →
      permitted sample_cfg (λ _ _, false) "internal" empty "s" h ∨ pin_only h) ∧
  match @retrieve the_reranker the_diversifier sample_cfg (λ _ _, false) id Pins.sort_pins
          (Some "t"%string) sample_req (Err tt) sample_env [] with
  | Unavailable resp => r_Hits resp = []
  | _ => False
  end.
Proof.
  split.
  - pose proof (@retrieve_fails_closed the_reranker the_diversifier sample_cfg (λ _ _, false) id
      Pins.sort_pins (Some "t"%string) sample_req (Ok empty) sample_env sample_pins ltac:(done)) as H.
    destruct (@retrieve the_reranker the_diversifier sample_cfg (λ _ _, false) id Pins.sort_pins
      (Some "t"%string) sample_req (Ok empty) sample_env sample_pins) as [| | | |resp w] eqn:E;
      try (vm_compute in E; discriminate E).
    exists resp, w. split; [reflexivity|].
    split; [vm_compute in E; injection E as <- _; reflexivity|].
    destruct H as (_ & snapshot & topK & mode & [= <-] & Hr & H). injection Hr as <- <-. exact H.
  - pose proof (@retrieve_fails_closed the_reranker the_diversifier sample_cfg (λ _ _, false) id
      Pins.sort_pins (Some "t"%string) sample_req (Err tt) sample_env [] ltac:(done)) as H.
    destruct H as (_ & _ & H & _). exact H.
Defined.

End Handler.
