(* ===== verification/ScopeKey.v ===== *)
(** * The cache key of a request

    scopeHashFor of internal/retrieval/handler.go: the bytes fed to SHA-256, with
    the digest itself a parameter. The theorem gives conditions under which the
    bytes determine every field that shapes the result; the example shows two
    requests outside those conditions that share a key. *)

From Stdlib Require Import Ascii.
From S2P Require Import Prelude GoFloat GoString Handler.

Module ScopeKey.
Import Handler.

Definition nul : ascii := "000"%char.
Definition bar : ascii := "|"%char.

(** [binary.BigEndian.PutUint64] and [PutUint32]: [n] bytes, most significant first. *)
Fixpoint be_bytes (n : nat) (z : Z) : bytes :=
  match n with
  | O => []
  | S n' => be_bytes n' (z / 256) ++ [ascii_of_N (Z.to_N (z mod 256))]
  end.

(** [math.Float32bits]. *)
Definition f32_bits (x : float) : Z :=
  let sign (s : bool) := if s then (2 ^ 31)%Z else 0%Z in
  match x with
  | S754_zero s => sign s
  | S754_infinity s => (sign s + 255 * 2 ^ 23)%Z
  | S754_nan => (255 * 2 ^ 23 + 2 ^ 22)%Z
  | S754_finite s m e =>
      if (Zpos m <? 2 ^ 23)%Z then (sign s + Zpos m)%Z
      else (sign s + (e + 150) * 2 ^ 23 + (Zpos m - 2 ^ 23))%Z
  end.

Definition entries (l : list string) : bytes := concat ((λ v, to_bytes v ++ [nul]) <$> l).

Definition scope_bytes (req : RetrieveRequest) (topK : Z) (privacyMode : string) : bytes :=
  entries (rq_Sources req) ++ to_bytes "|channels|" ++ entries (Channels req)
  ++ to_bytes "|documents|" ++ entries (Documents req)
  ++ to_bytes "|privacy|" ++ to_bytes privacyMode ++ to_bytes "|skill|" ++ to_bytes (SkillID req)
  ++ to_bytes "|topk|" ++ be_bytes 8 topK
  ++ to_bytes "|diversity|" ++ be_bytes 4 (f32_bits (Diversity req))
  ++ to_bytes "|experiment|" ++ to_bytes (ExperimentName req) ++ [nul]
  ++ to_bytes (ExperimentBucketKey req).

Definition scopeHashFor (sha256_hex : bytes → string) (req : RetrieveRequest) (topK : Z)
    (privacyMode : string) : string := sha256_hex (scope_bytes req topK privacyMode).

(** ** Parsing the key back *)

Definition avoids (c : ascii) (s : string) : Prop := c ∉ to_bytes s.

(** An entry can be told apart from the marker that ends its list. *)
Definition plain_entry (s : string) : Prop :=
  avoids nul s ∧ match to_bytes s with c :: _ => c ≠ bar | [] => True end.

Record plain (req : RetrieveRequest) (topK : Z) (privacyMode : string) : Prop := {
  pl_sources : Forall plain_entry (rq_Sources req);
  pl_channels : Forall plain_entry (Channels req);
  pl_documents : Forall plain_entry (Documents req);
  pl_mode : avoids bar privacyMode;
  pl_skill : avoids bar (SkillID req);
  pl_topk : (0 ≤ topK < 2 ^ 64)%Z;
  pl_experiment : avoids nul (ExperimentName req)
}.

Lemma entries_split l1 l2 r1 r2 :
  Forall plain_entry l1 → Forall plain_entry l2 →
  entries l1 ++ bar :: r1 = entries l2 ++ bar :: r2 → l1 = l2 ∧ r1 = r2.
Proof.
  intros H1. revert l2. induction H1 as [|v1 l1 [Hn1 Hb1] _ IH]; intros l2 H2 E.
  - destruct H2 as [|v2 l2 [Hn2 Hb2] _]; [by injection E|].
    unfold entries in E. rewrite fmap_cons in E. cbn [concat fmap list_fmap app] in E.
    destruct (to_bytes v2) as [|c w]; simpl in E; injection E as E1 _; [discriminate E1|].
    by destruct Hb2.
  - destruct H2 as [|v2 l2 [Hn2 Hb2] Hf].
    + unfold entries in E. rewrite fmap_cons in E. cbn [concat fmap list_fmap app] in E.
      destruct (to_bytes v1) as [|c w]; simpl in E; injection E as E1 _; [discriminate E1|].
      by destruct Hb1.
    + unfold entries in E. rewrite !fmap_cons in E. cbn [concat] in E.
      rewrite <- !app_assoc in E. cbn [app] in E.
      apply split_at in E as [Ev E]; [|done|done].
      apply to_bytes_inj in Ev as ->. destruct (IH l2 Hf E) as [-> ->]. done.
Qed.

Lemma be_bytes_length n z : length (be_bytes n z) = n.
Proof. revert z. induction n as [|n IH]; intros z; simpl; [done|]. rewrite length_app, IH. simpl. lia. Qed.

Lemma be_bytes_inj n z1 z2 :
  (0 ≤ z1 < 256 ^ Z.of_nat n)%Z → (0 ≤ z2 < 256 ^ Z.of_nat n)%Z →
  be_bytes n z1 = be_bytes n z2 → z1 = z2.
Proof.
  revert z1 z2. induction n as [|n IH]; intros z1 z2 H1 H2 E; simpl in E; [lia|].
  apply app_inj_2 in E as [Ed Em]; [|done]. injection Em as Em.
  assert (z1 mod 256 = z2 mod 256)%Z as Hm.
  { assert (∀ z : Z, N_of_ascii (ascii_of_N (Z.to_N (z mod 256))) = Z.to_N (z mod 256)) as Hid.
    { intros z. apply N_ascii_embedding. pose proof (Z.mod_pos_bound z 256 ltac:(lia)). lia. }
    apply (f_equal N_of_ascii) in Em. rewrite !Hid in Em.
    pose proof (Z.mod_pos_bound z1 256 ltac:(lia)). pose proof (Z.mod_pos_bound z2 256 ltac:(lia)).
    apply (f_equal Z.of_N) in Em. rewrite !Z2N.id in Em by lia. done. }
  rewrite Nat2Z.inj_succ, Z.pow_succ_r in H1, H2 by lia.
  assert (z1 / 256 = z2 / 256)%Z as Hd.
  { apply IH; [..|done]; (split; [apply Z.div_pos; lia|apply Z.div_lt_upper_bound; lia]). }
  rewrite (Z.div_mod z1 256), (Z.div_mod z2 256), Hd, Hm by lia. done.
Qed.

(** The cache key pins the request down. When the request's ids, mode and skill
    do not use the key's own separators, two requests with the same key bytes agree
    on the sources, channels, documents, effective mode, skill, result size,
    diversity bits and experiment. *)
Theorem scope_bytes_injective r1 k1 m1 r2 k2 m2 :
  plain r1 k1 m1 → plain r2 k2 m2 → scope_bytes r1 k1 m1 = scope_bytes r2 k2 m2 →
  rq_Sources r1 = rq_Sources r2 ∧ Channels r1 = Channels r2 ∧ Documents r1 = Documents r2 ∧
  m1 = m2 ∧ SkillID r1 = SkillID r2 ∧ k1 = k2 ∧
  be_bytes 4 (f32_bits (Diversity r1)) = be_bytes 4 (f32_bits (Diversity r2)) ∧
  ExperimentName r1 = ExperimentName r2 ∧ ExperimentBucketKey r1 = ExperimentBucketKey r2.
Proof.
  intros [S1 C1 D1 M1 K1 T1 X1] [S2 C2 D2 M2 K2 T2 X2] E. unfold scope_bytes in E.
  apply entries_split in E as [-> E]; [|done|done]. apply (app_inv_head (to_bytes "channels|")) in E.
  apply entries_split in E as [-> E]; [|done|done]. apply (app_inv_head (to_bytes "documents|")) in E.
  apply entries_split in E as [-> E]; [|done|done]. apply (app_inv_head (to_bytes "privacy|")) in E.
  apply split_at in E as [Em E]; [|done|done]. apply to_bytes_inj in Em as ->.
  apply (app_inv_head (to_bytes "skill|")) in E.
  apply split_at in E as [Ek E]; [|done|done]. apply to_bytes_inj in Ek as ->.
  apply (app_inv_head (to_bytes "topk|")) in E.
  apply app_inj_1 in E as [Et E]; [|by rewrite !be_bytes_length].
  apply be_bytes_inj in Et as ->; [|done|done].
  apply (app_inv_head (to_bytes "|diversity|")) in E.
  apply app_inj_1 in E as [Ed E]; [|by rewrite !be_bytes_length].
  apply (app_inv_head (to_bytes "|experiment|")) in E.
  apply split_at in E as [En E]; [|done|done]. apply to_bytes_inj in En. apply to_bytes_inj in E.
  done.
Qed.

#[local] Instance plain_entry_dec s : Decision (plain_entry s).
Proof. unfold plain_entry, avoids. destruct (to_bytes s); apply _. Defined.

Definition with_skill (s : string) (b : string) : RetrieveRequest :=
  {| Query := "q"; TopK := 0; rq_Sources := ["drive"%string]; Channels := ["eng"%string];
     Documents := []; PrivacyMode := ""; SkillID := s; DeviceTier := ""; Diversity := f_zero;
     ExperimentName := ""; ExperimentBucketKey := b |}.

Lemma with_skill_plain s b : avoids bar s → plain (with_skill s b) 10 "remote".
Proof.
  intros Hs. split; try exact Hs; try (apply (bool_decide_unpack _); vm_compute; exact I).
Qed.

Lemma scope_bytes_injective_witness :
  scope_bytes (with_skill "qa" "") 10 "remote" ≠ scope_bytes (with_skill "summarizer" "") 10 "remote".
Proof.
  intros E.
  destruct (scope_bytes_injective (with_skill "qa" "") 10 "remote" (with_skill "summarizer" "") 10
    "remote") as (_ & _ & _ & _ & Hs & _).
  - apply with_skill_plain. apply (bool_decide_unpack _). vm_compute. exact I.
  - apply with_skill_plain. apply (bool_decide_unpack _). vm_compute. exact I.
  - exact E.
  - discriminate Hs.
Defined.

(** The skill and the experiment bucket are not delimited: a skill that spells out
    the rest of the key shares the slot of another skill. *)
Definition tail_of_key : string :=
  of_bytes (to_bytes "|topk|" ++ be_bytes 8 10 ++ to_bytes "|diversity|" ++ be_bytes 4 0
            ++ to_bytes "|experiment|" ++ [nul]).

Example skills_share_a_key :
  let r1 := with_skill "qa" tail_of_key in
  let r2 := with_skill (str_app "qa" tail_of_key) "" in
  SkillID r1 ≠ SkillID r2 ∧ scope_bytes r1 10 "remote" = scope_bytes r2 10 "remote".
Proof. vm_compute. split; [discriminate|reflexivity]. Qed.

End ScopeKey.
