(* ===== verification/StageBreaker.v ===== *)
(** * The per-stage circuit breaker of the ingest pipeline

    internal/pipeline/stage_breaker.go. Every method holds the mutex of the
    breaker from its first line to its last, so a run of the breaker is a
    sequence of whole method calls, whatever the goroutines calling it do. The
    clock is an argument of the calls that read it. The Prometheus counters
    are not part of the state. *)

From S2P Require Import Prelude GoString.

Module StageBreaker.

Inductive StageBreakerState := StageBreakerClosed | StageBreakerOpen | StageBreakerHalfOpen.

#[export] Instance StageBreakerState_eq : EqDecision StageBreakerState.
Proof. solve_decision. Defined.

Definition State_String (s : StageBreakerState) : string :=
  match s with
  | StageBreakerOpen => "open"
  | StageBreakerHalfOpen => "half-open"
  | StageBreakerClosed => "closed"
  end.

Record StageCircuitBreakerConfig := {
  Stage : string;
  Threshold : Z;
  OpenFor : Z
}.

Record StageCircuitBreaker := {
  cfg : StageCircuitBreakerConfig;
  state : StageBreakerState;
  fails : Z;
  openAt : Time;
  probeInFlight : bool
}.

Definition NewStageCircuitBreaker (c : StageCircuitBreakerConfig)
    : result StageCircuitBreaker string :=
  if str_empty (Stage c) then Err "stage breaker: Stage required"
  else if (Threshold c <=? 0)%Z then Err "stage breaker: Threshold must be positive"
  else
    let c' := {| Stage := Stage c; Threshold := Threshold c;
                 OpenFor := if (OpenFor c <=? 0)%Z then (30 * second)%Z else OpenFor c |} in
    Ok {| cfg := c'; state := StageBreakerClosed; fails := 0; openAt := 0;
          probeInFlight := false |}.

(** What the admin dashboard shows of a breaker. The zero [openAt] of a breaker
    that never opened stays the zero [OpenedAt]; the cooldown is kept as a
    duration rather than printed. *)
Record StageBreakerSnapshot := {
  snap_Stage : string;
  snap_State : string;
  snap_FailCount : Z;
  snap_OpenedAt : Time;
  snap_ProbeInFlight : bool;
  snap_Threshold : Z;
  snap_OpenFor : Z
}.

Definition Snapshot (b : StageCircuitBreaker) : StageBreakerSnapshot :=
  {| snap_Stage := Stage (cfg b); snap_State := State_String (state b);
     snap_FailCount := fails b;
     snap_OpenedAt := if time_is_zero (openAt b) then 0%Z else openAt b;
     snap_ProbeInFlight := probeInFlight b;
     snap_Threshold := Threshold (cfg b); snap_OpenFor := OpenFor (cfg b) |}.

(** The registry holds pointers to breakers in registration order and reads their
    live state; [heap] is what the pointers point to now. *)
Definition StageBreakerRegistry : Type := list nat.
Definition NewStageBreakerRegistry : StageBreakerRegistry := [].
Definition Registry_Add (b : option nat) (r : StageBreakerRegistry) : StageBreakerRegistry :=
  match b with None => r | Some p => r ++ [p] end.
Definition Registry_Snapshot (heap : nat → StageCircuitBreaker) (r : StageBreakerRegistry)
    : list StageBreakerSnapshot := (λ p, Snapshot (heap p)) <$> r.

(** [Allow]: the new breaker, and whether the caller may go on ([true]: a nil
    error, [false]: ErrStageBreakerOpen). *)
Definition Allow (now : Time) (b : StageCircuitBreaker) : bool * StageCircuitBreaker :=
  match state b with
  | StageBreakerOpen =>
      if (OpenFor (cfg b) <=? time_sub now (openAt b))%Z then
        (true, {| cfg := cfg b; state := StageBreakerHalfOpen; fails := fails b;
                  openAt := openAt b; probeInFlight := true |})
      else (false, b)
  | StageBreakerHalfOpen => (negb (probeInFlight b), b)
  | StageBreakerClosed => (true, b)
  end.

Definition OnSuccess (b : StageCircuitBreaker) : StageCircuitBreaker :=
  {| cfg := cfg b; state := StageBreakerClosed; fails := 0; openAt := openAt b;
     probeInFlight := false |}.

Definition OnFailure (now : Time) (b : StageCircuitBreaker) : StageCircuitBreaker :=
  match state b with
  | StageBreakerHalfOpen =>
      {| cfg := cfg b; state := StageBreakerOpen; fails := fails b; openAt := now;
         probeInFlight := false |}
  | _ =>
      let n := wrap64 (fails b + 1) in
      if (Threshold (cfg b) <=? n)%Z && bool_decide (state b = StageBreakerClosed) then
        {| cfg := cfg b; state := StageBreakerOpen; fails := n; openAt := now;
           probeInFlight := probeInFlight b |}
      else
        {| cfg := cfg b; state := state b; fails := n; openAt := openAt b;
           probeInFlight := probeInFlight b |}
  end.

(** ** Runs of the breaker *)

Inductive event :=
| CallAllow (now : Time)
| CallSuccess
| CallFailure (now : Time).

Definition apply_event (e : event) (b : StageCircuitBreaker) : StageCircuitBreaker :=
  match e with
  | CallAllow now => snd (Allow now b)
  | CallSuccess => OnSuccess b
  | CallFailure now => OnFailure now b
  end.

Definition run (es : list event) (b : StageCircuitBreaker) : StageCircuitBreaker :=
  fold_left (λ b e, apply_event e b) es b.

Lemma run_app es es' b : run (es ++ es') b = run es' (run es b).
Proof. apply fold_left_app. Qed.

(** The answers of a sequence of [Allow] calls at the given times. *)
Fixpoint admissions (ts : list Time) (b : StageCircuitBreaker) : list bool :=
  match ts with
  | [] => []
  | t :: ts' => let '(ok, b') := Allow t b in ok :: admissions ts' b'
  end.

(** ** Invariant *)

(** The failure counter stays below the threshold while the breaker is closed,
    and the probe gate is up exactly in the half-open state. *)
Definition wf (b : StageCircuitBreaker) : Prop :=
  (0 < Threshold (cfg b) ≤ int64_max)%Z ∧ (0 < OpenFor (cfg b))%Z ∧
  (state b = StageBreakerClosed → 0 ≤ fails b < Threshold (cfg b))%Z ∧
  (probeInFlight b = true ↔ state b = StageBreakerHalfOpen).

Lemma New_wf c b :
  (Threshold c ≤ int64_max)%Z → NewStageCircuitBreaker c = Ok b → wf b.
Proof.
  unfold NewStageCircuitBreaker, wf, second. intros Hm.
  destruct (str_empty _); [done|]. destruct (Z.leb_spec (Threshold c) 0); [done|].
  intros [= <-]; simpl. repeat split; try done; try lia.
  destruct (Z.leb_spec (OpenFor c) 0); lia.
Qed.

Lemma apply_event_cfg e b : cfg (apply_event e b) = cfg b.
Proof.
  destruct e; simpl; [unfold Allow| |unfold OnFailure]; repeat case_match; simplify_eq/=; done.
Qed.

Lemma run_cfg es b : cfg (run es b) = cfg b.
Proof.
  revert b. induction es as [|e es IH]; intros b; simpl; [done|].
  by rewrite IH, apply_event_cfg.
Qed.

Lemma apply_event_wf e b : wf b → wf (apply_event e b).
Proof.
  intros (HT & HO & Hf & Hp). unfold wf. rewrite apply_event_cfg.
  split; [done|]. split; [done|].
  destruct e as [now| |now]; simpl.
  - unfold Allow. destruct (state b) eqn:Hs; simpl; rewrite ?Hs; try done.
    destruct (Z.leb _ _); simpl; rewrite ?Hs; done.
  - split; [lia|done].
  - unfold OnFailure. destruct (state b) eqn:Hs; simpl.
    + specialize (Hf eq_refl).
      rewrite wrap64_id by (unfold in_int64, int64_min, int64_max in *; lia).
      rewrite andb_true_r. destruct (Z.leb_spec (Threshold (cfg b)) (fails b + 1)); simpl.
      * split; [done|]. by rewrite Hp.
      * split; [lia|]. by rewrite Hp.
    + rewrite andb_false_r; simpl. split; [done|]. by rewrite Hp.
    + done.
Qed.

Lemma run_wf es b : wf b → wf (run es b).
Proof. revert b. induction es as [|e es IH]; intros b H; simpl; [done|]. by apply IH, apply_event_wf. Qed.

Create HintDb breaker.
#[export] Hint Resolve apply_event_wf run_wf : breaker.

(** ** Tripping *)

(** The reports that reach a closed breaker: what it counts. *)
Fixpoint trailing_failures (es : list event) (n : Z) : Z :=
  match es with
  | [] => n
  | CallAllow _ :: es' => trailing_failures es' n
  | CallSuccess :: es' => trailing_failures es' 0
  | CallFailure _ :: es' => trailing_failures es' (n + 1)
  end.

Lemma trailing_failures_app es es' n :
  trailing_failures (es ++ es') n = trailing_failures es' (trailing_failures es n).
Proof. revert n. induction es as [|[] es IH]; intros n; simpl; auto. Qed.

Lemma closed_step e b :
  wf b → state b = StageBreakerClosed →
  let n := trailing_failures [e] (fails b) in
  if (n <? Threshold (cfg b))%Z
  then state (apply_event e b) = StageBreakerClosed ∧ fails (apply_event e b) = n
  else state (apply_event e b) = StageBreakerOpen.
Proof.
  intros (HT & HO & Hf & Hp) Hs. specialize (Hf Hs).
  destruct e as [now| |now]; simpl.
  - unfold Allow. rewrite Hs; simpl. by rewrite (proj2 (Z.ltb_lt _ _)) by lia.
  - by rewrite (proj2 (Z.ltb_lt _ _)) by lia.
  - unfold OnFailure. rewrite Hs, bool_decide_true, andb_true_r by done.
    rewrite wrap64_id by (unfold in_int64, int64_min, int64_max in *; lia).
    destruct (Z.leb_spec (Threshold (cfg b)) (fails b + 1)),
      (Z.ltb_spec (fails b + 1) (Threshold (cfg b))); simpl; try lia; done.
Qed.

(** A breaker stays closed through [es] exactly when no prefix of [es] ends in
    [Threshold] consecutive failures. *)
Lemma closed_run es b :
  wf b → state b = StageBreakerClosed →
  (∀ es1 es2, es = es1 ++ es2 → trailing_failures es1 (fails b) < Threshold (cfg b))%Z →
  state (run es b) = StageBreakerClosed ∧ fails (run es b) = trailing_failures es (fails b).
Proof.
  induction es as [|e es IH] using rev_ind; intros Hw Hs Hall; simpl; [done|].
  destruct IH as [Hs' Hf']; [done|done| |].
  { intros es1 es2 ->. apply (Hall es1 (es2 ++ [e])). by rewrite app_assoc. }
  pose proof (closed_step e (run es b) (run_wf _ _ Hw) Hs') as Hstep; simpl in Hstep.
  rewrite run_app, trailing_failures_app; simpl.
  rewrite Hf', run_cfg in Hstep.
  pose proof (Hall (es ++ [e]) [] (eq_sym (app_nil_r _))) as Hlt.
  rewrite trailing_failures_app in Hlt. simpl in Hlt.
  rewrite (proj2 (Z.ltb_lt _ _) Hlt) in Hstep. done.
Qed.

(** ** Properties *)

(** Before its first trip a breaker is closed; it trips on the report that makes
    [Threshold] failures in a row, and on no other. *)
Theorem breaker_trips_exactly c b es e :
  (Threshold c ≤ int64_max)%Z →
  NewStageCircuitBreaker c = Ok b →
  (∀ es1 es2, es = es1 ++ es2 → trailing_failures es1 0 < Threshold c)%Z →
  state (run es b) = StageBreakerClosed ∧
  (state (run (es ++ [e]) b) = StageBreakerOpen ↔
     Threshold c ≤ trailing_failures (es ++ [e]) 0)%Z.
Proof.
  intros HT HN Hall. pose proof (New_wf c b HT HN) as Hw.
  assert (Hb : state b = StageBreakerClosed ∧ fails b = 0%Z ∧ Threshold (cfg b) = Threshold c).
  { unfold NewStageCircuitBreaker in HN. repeat case_match; simplify_eq/=; done. }
  destruct Hb as (Hs & Hf & Hc).
  destruct (closed_run es b Hw Hs) as [Hs' Hf']; [by rewrite Hf, Hc|].
  split; [done|].
  pose proof (closed_step e (run es b) (run_wf _ _ Hw) Hs') as Hstep; simpl in Hstep.
  rewrite Hf', Hf, run_cfg, Hc in Hstep. rewrite run_app, trailing_failures_app. simpl.
  match type of Hstep with context [(?n <? _)%Z] => destruct (Z.ltb_spec n (Threshold c)) end;
    [destruct Hstep as [-> _]; split; [done|lia]|done].
Qed.

Definition sample_config : StageCircuitBreakerConfig :=
  {| Stage := "parse"; Threshold := 2; OpenFor := 10 |}.
Definition sample_breaker : StageCircuitBreaker :=
  {| cfg := sample_config; state := StageBreakerClosed; fails := 0; openAt := 0;
     probeInFlight := false |}.

Lemma breaker_trips_exactly_witness :
  state (run [CallFailure 1; CallSuccess; CallFailure 2; CallAllow 3] sample_breaker)
    = StageBreakerClosed ∧
  state (run ([CallFailure 1; CallSuccess; CallFailure 2; CallAllow 3] ++ [CallFailure 4])
           sample_breaker) = StageBreakerOpen.
Proof.
  destruct (breaker_trips_exactly sample_config sample_breaker
    [CallFailure 1; CallSuccess; CallFailure 2; CallAllow 3] (CallFailure 4)) as [H1 H2].
  - by vm_compute.
  - reflexivity.
  - intros es1 es2 H.
    destruct es1 as [|? [|? [|? [|? [|? es1]]]]]; simplify_eq/=; lia.
  - split; [exact H1|]. apply H2. by vm_compute.
Defined.

(** *** The open state *)

(** An [Allow] before the cooldown has elapsed. *)
Definition too_early (b : StageCircuitBreaker) (t : Time) : Prop :=
  (time_sub t (openAt b) < OpenFor (cfg b))%Z.

Definition quiet (b : StageCircuitBreaker) (e : event) : Prop :=
  match e with
  | CallAllow t => too_early b t
  | CallSuccess => False
  | CallFailure _ => True
  end.

Lemma open_step e b :
  state b = StageBreakerOpen → quiet b e →
  state (apply_event e b) = StageBreakerOpen ∧ openAt (apply_event e b) = openAt b.
Proof.
  unfold quiet, too_early. intros Hs Hq. destruct e as [t| |t]; simpl; [|done|].
  - unfold Allow. rewrite Hs. by rewrite (proj2 (Z.leb_gt _ _) Hq).
  - unfold OnFailure. rewrite Hs; simpl. by rewrite andb_false_r.
Qed.

Lemma open_run es b :
  state b = StageBreakerOpen → Forall (quiet b) es →
  state (run es b) = StageBreakerOpen ∧ openAt (run es b) = openAt b.
Proof.
  revert b. induction es as [|e es IH]; intros b Hs Hq; simpl; [done|].
  apply Forall_cons in Hq as [He Hes]. destruct (open_step e b Hs He) as [Hs' Ho].
  destruct (IH _ Hs') as [-> ->]; [|done].
  eapply Forall_impl; [exact Hes|]. intros [t| |t]; simpl; [|done|done].
  unfold too_early. by rewrite Ho, apply_event_cfg.
Qed.

Lemma half_open_admits_none ts b :
  state b = StageBreakerHalfOpen → probeInFlight b = true →
  admissions ts b = replicate (length ts) false.
Proof.
  intros Hs Hp. induction ts as [|t ts IH]; simpl; [done|].
  unfold Allow. rewrite Hs, Hp; simpl. by rewrite IH.
Qed.

(** Short-circuit and probe: an open breaker keeps refusing calls, whatever
    further failures are reported, until [OpenFor] has passed since it opened;
    the first call after that is let through, and no other call is until an
    outcome is reported. *)
Theorem open_breaker_admits_one_probe b es t :
  state b = StageBreakerOpen → Forall (quiet b) es →
  (too_early b t → Allow t (run es b) = (false, run es b)) ∧
  (¬ too_early b t → ∃ b', Allow t (run es b) = (true, b') ∧
     ∀ ts, admissions ts b' = replicate (length ts) false).
Proof.
  intros Hs Hq. destruct (open_run es b Hs Hq) as [Hs' Ho].
  unfold too_early, Allow. rewrite Hs', Ho, run_cfg. split; intros Ht.
  - by rewrite (proj2 (Z.leb_gt _ _) Ht).
  - rewrite (proj2 (Z.leb_le _ _)) by lia.
    eexists; split; [reflexivity|]. intros ts. by apply half_open_admits_none.
Qed.

Lemma open_breaker_admits_one_probe_witness :
  let b := run [CallFailure 5; CallFailure 7] sample_breaker in
  ∃ b', Allow 17 (run [CallFailure 8; CallAllow 16] b) = (true, b') ∧
     ∀ ts, admissions ts b' = replicate (length ts) false.
Proof.
  intros b.
  destruct (open_breaker_admits_one_probe b [CallFailure 8; CallAllow 16] 17) as [_ H].
  - reflexivity.
  - repeat constructor.
  - apply H. unfold too_early. vm_compute. congruence.
Defined.

(** A call admitted while the breaker was closed may report after the trip: its
    success closes the open breaker at once, without the cooldown. *)
Example late_success_skips_cooldown :
  let b := run [CallAllow 1; CallAllow 1; CallAllow 1; CallFailure 2; CallFailure 3]
             sample_breaker in
  state b = StageBreakerOpen ∧ fst (Allow 4 b) = false ∧
  fst (Allow 4 (OnSuccess b)) = true.
Proof. repeat split; vm_compute; reflexivity. Qed.

(** Likewise a late failure that arrives during the probe re-opens the breaker
    and drops the gate while the probe is still running. *)
Example late_failure_drops_the_gate :
  let b := run [CallAllow 1; CallAllow 1; CallAllow 1; CallFailure 2; CallFailure 3;
                CallAllow 13; CallFailure 14] sample_breaker in
  state b = StageBreakerOpen ∧ probeInFlight b = false ∧ fst (Allow 24 b) = true.
Proof. repeat split; vm_compute; reflexivity. Qed.

End StageBreaker.
