(* ===== verification/Retry.v ===== *)
(** * Bounded retries and their analytics

    [Analytics] is internal/pipeline/retry_analytics.go; [Retry] is
    [Coordinator.runWithRetry] of internal/pipeline/coordinator.go with the stage
    breaker it consults. A stage call is code outside this file: [call_env] says
    what its k-th call returned and whether the context was done while the loop
    slept after it. Between the admission by the breaker and the report to it the
    other workers of the stage use the same breaker; [others] is what they did. *)

From S2P Require Import Prelude GoString StageBreaker.
Import StageBreaker.

(** ** Errors of a stage *)

(** An error value: its text, and the sentinels [errors.Is] finds in its chain. *)
Inductive sentinel := ErrUnchanged | ErrPoisonMessage | ErrStageBreakerOpen | CtxDone.

#[export] Instance sentinel_eq : EqDecision sentinel.
Proof. solve_decision. Defined.

Record error := { text : string; chain : list sentinel }.

Definition errors_Is (e : error) (s : sentinel) : bool := bool_decide (s ∈ chain e).

Definition breaker_open_error : error :=
  {| text := "stage breaker open"; chain := [ErrStageBreakerOpen] |}.

(** [fmt.Errorf("retries exhausted: %w", lastErr)]; a nil error prints as below
    and adds nothing to the chain. *)
Definition retries_exhausted (lastErr : option error) : error :=
  match lastErr with
  | Some e => {| text := "retries exhausted: " ++ text e; chain := chain e |}
  | None => {| text := "retries exhausted: %!w(<nil>)"; chain := [] |}
  end.

Module Analytics.

Definition RetryOutcomeSuccess : string := "success".
Definition RetryOutcomeRetry : string := "retry".
Definition RetryOutcomeFailed : string := "failed".

Record StageRetryStats := {
  Stage : string;
  Attempts : Z;
  Successes : Z;
  Retries : Z;
  Failures : Z;
  SuccessAfterRtry : Z;
  FailureReasons : gmap string Z
}.

Record RetryAnalytics := {
  stages : gmap string StageRetryStats;
  retriesByDoc : gmap string Z
}.

Definition NewRetryAnalytics : RetryAnalytics := {| stages := ∅; retriesByDoc := ∅ |}.

Definition fresh_stats (stage : string) : StageRetryStats :=
  {| Stage := stage; Attempts := 0; Successes := 0; Retries := 0; Failures := 0;
     SuccessAfterRtry := 0; FailureReasons := ∅ |}.

(** A missing key of a Go map of ints reads as zero. *)
Definition get0 (m : gmap string Z) (k : string) : Z := default 0%Z (m !! k).

Definition bump_reason (reason : string) (m : gmap string Z) : gmap string Z :=
  if str_empty reason then m else <[reason := (get0 m reason + 1)%Z]> m.

Definition doc_key (stage docKey : string) : string := stage ++ ":" ++ docKey.

Definition RecordAttempt (stage docKey outcome reason : string) (a : RetryAnalytics)
    : result RetryAnalytics string :=
  if str_empty stage then Err "retry analytics: missing stage"
  else if str_empty outcome then Err "retry analytics: missing outcome"
  else
    let st := default (fresh_stats stage) (stages a !! stage) in
    let key := doc_key stage docKey in
    let '(st', docs) :=
      if str_eqb outcome RetryOutcomeSuccess then
        ({| Stage := Stage st; Attempts := Attempts st + 1; Successes := Successes st + 1;
            Retries := Retries st; Failures := Failures st;
            SuccessAfterRtry := if (0 <? get0 (retriesByDoc a) key)%Z
                                then (SuccessAfterRtry st + 1)%Z else SuccessAfterRtry st;
            FailureReasons := FailureReasons st |},
         delete key (retriesByDoc a))
      else if str_eqb outcome RetryOutcomeRetry then
        ({| Stage := Stage st; Attempts := Attempts st + 1; Successes := Successes st;
            Retries := Retries st + 1; Failures := Failures st;
            SuccessAfterRtry := SuccessAfterRtry st;
            FailureReasons := bump_reason reason (FailureReasons st) |},
         <[key := (get0 (retriesByDoc a) key + 1)%Z]> (retriesByDoc a))
      else if str_eqb outcome RetryOutcomeFailed then
        ({| Stage := Stage st; Attempts := Attempts st + 1; Successes := Successes st;
            Retries := Retries st; Failures := Failures st + 1;
            SuccessAfterRtry := SuccessAfterRtry st;
            FailureReasons := bump_reason reason (FailureReasons st) |},
         delete key (retriesByDoc a))
      else
        ({| Stage := Stage st; Attempts := Attempts st + 1; Successes := Successes st;
            Retries := Retries st; Failures := Failures st;
            SuccessAfterRtry := SuccessAfterRtry st; FailureReasons := FailureReasons st |},
         retriesByDoc a) in
    Ok {| stages := <[stage := st']> (stages a); retriesByDoc := docs |}.

(** [Snapshot]: the statistics of every stage, by stage name. *)
Definition Snapshot (a : RetryAnalytics) : list StageRetryStats :=
  sort_by (λ x y, str_ltb (Stage x) (Stage y)) (snd <$> map_to_list (stages a)).

(** The callers ignore the error of [RecordAttempt], which leaves the aggregator
    as it was. *)
Definition record (stage docKey : string) (r : string * string) (a : RetryAnalytics)
    : RetryAnalytics :=
  match RecordAttempt stage docKey (fst r) (snd r) a with Ok a' => a' | Err _ => a end.

Definition record_all (stage docKey : string) (rs : list (string * string))
    (a : RetryAnalytics) : RetryAnalytics :=
  fold_left (λ a r, record stage docKey r a) rs a.

(** The counters of a stage add up. *)
Definition balanced (st : StageRetryStats) : Prop :=
  (Attempts st = Successes st + Retries st + Failures st)%Z ∧
  (0 ≤ SuccessAfterRtry st ≤ Successes st)%Z ∧ (0 ≤ Retries st)%Z ∧ (0 ≤ Failures st)%Z.

Definition wf (a : RetryAnalytics) : Prop :=
  map_Forall (λ stage st, Stage st = stage ∧ balanced st) (stages a).

Definition known_outcome (o : string) : Prop :=
  o = RetryOutcomeSuccess ∨ o = RetryOutcomeRetry ∨ o = RetryOutcomeFailed.

Lemma RecordAttempt_wf stage docKey outcome reason a a' :
  wf a → known_outcome outcome →
  RecordAttempt stage docKey outcome reason a = Ok a' → wf a'.
Proof.
  unfold RecordAttempt. intros Hw Ho.
  destruct (str_empty stage); [done|]. destruct (str_empty outcome); [done|].
  assert (Hst : let st := default (fresh_stats stage) (stages a !! stage) in
            Stage st = stage ∧ balanced st).
  { destruct (stages a !! stage) as [st|] eqn:E; simpl; [by apply Hw in E|].
    repeat split; simpl; lia. }
  simpl in Hst. revert Hst.
  generalize (default (fresh_stats stage) (stages a !! stage)) as st.
  intros st (Hn & HA & HS & HR & HF).
  destruct Ho as [->|[->| ->]]; simpl; intros [= <-]; apply map_Forall_insert_2; try done;
    (split; [done|]); unfold balanced; simpl; repeat split; try case_match; lia.
Qed.

End Analytics.

Module Retry.

Section Retry.
Context {A : Type}.

Record call_env := {
  fn : nat → result A error;
  cancelled : nat → bool;
  ctx_err : error
}.

Record RetryConfig := {
  MaxAttempts : Z;
  InitialBackoff : Z;
  MaxBackoff : Z
}.

(** The retry part of [CoordinatorConfig.defaults]. *)
Definition defaults (c : RetryConfig) : RetryConfig :=
  {| MaxAttempts := if (MaxAttempts c =? 0)%Z then 3 else MaxAttempts c;
     InitialBackoff := if (InitialBackoff c =? 0)%Z then (200 * millisecond)%Z
                       else InitialBackoff c;
     MaxBackoff := if (MaxBackoff c =? 0)%Z then (5 * second)%Z else MaxBackoff c |}.

(** [backoff *= 2], capped. *)
Definition next_backoff (c : RetryConfig) (backoff : Z) : Z :=
  let b := wrap64 (backoff * 2) in
  if (MaxBackoff c <? b)%Z then MaxBackoff c else b.

(** What the retry loop leaves behind: the result, whether the breaker is told
    about a healthy stage, the [RecordAttempt] calls in order, the backoff timers
    in order and the number of calls of the stage. *)
Record loop_out := {
  out : result A error;
  healthy : bool;
  records : list (string * string);
  sleeps : list Z;
  calls : nat
}.

(** The loop with [n] attempts left before the k-th call (from zero). *)
Fixpoint attempts (c : RetryConfig) (env : call_env) (n k : nat) (backoff : Z) : loop_out :=
  match n with
  | O => {| out := Err (retries_exhausted None); healthy := false; records := [];
            sleeps := []; calls := 0 |}
  | S n' =>
      match fn env k with
      | Ok v => {| out := Ok v; healthy := true;
                   records := [(Analytics.RetryOutcomeSuccess, EmptyString)];
                   sleeps := []; calls := 1 |}
      | Err e =>
          if errors_Is e ErrUnchanged then
            {| out := Err e; healthy := true; records := []; sleeps := []; calls := 1 |}
          else if errors_Is e ErrPoisonMessage then
            {| out := Err e; healthy := true;
               records := [(Analytics.RetryOutcomeFailed, text e)];
               sleeps := []; calls := 1 |}
          else
            match n' with
            | O => {| out := Err (retries_exhausted (Some e)); healthy := false;
                      records := [(Analytics.RetryOutcomeFailed, text e)];
                      sleeps := []; calls := 1 |}
            | S _ =>
                if cancelled env k then
                  {| out := Err (ctx_err env); healthy := false;
                     records := [(Analytics.RetryOutcomeRetry, text e)];
                     sleeps := [backoff]; calls := 1 |}
                else
                  let r := attempts c env n' (S k) (next_backoff c backoff) in
                  {| out := out r; healthy := healthy r;
                     records := (Analytics.RetryOutcomeRetry, text e) :: records r;
                     sleeps := backoff :: sleeps r; calls := S (calls r) |}
            end
      end
  end.

Definition retry_loop (c : RetryConfig) (env : call_env) : loop_out :=
  attempts c env (Z.to_nat (MaxAttempts c)) 0 (InitialBackoff c).

(** [runWithRetry]: the breaker of the stage, if one is configured, gates the
    loop (clock reading [t0]) and gets one report at its end (clock reading
    [t1]). *)
Definition runWithRetry (c : RetryConfig) (env : call_env)
    (others : StageCircuitBreaker → StageCircuitBreaker) (t0 t1 : Time)
    (breaker : option StageCircuitBreaker) : loop_out * option StageCircuitBreaker :=
  match breaker with
  | None => (retry_loop c env, None)
  | Some b =>
      let '(ok, b1) := Allow t0 b in
      if ok then
        let r := retry_loop c env in
        (r, Some (if healthy r then OnSuccess (others b1) else OnFailure t1 (others b1)))
      else
        ({| out := Err breaker_open_error; healthy := false;
            records := [(Analytics.RetryOutcomeFailed, text breaker_open_error)];
            sleeps := []; calls := 0 |}, Some b1)
  end.

(** ** The reference behaviour *)

(** A transient outcome: an error that is neither "unchanged" nor poison. *)
Definition transient (r : result A error) : bool :=
  match r with
  | Ok _ => false
  | Err e => negb (errors_Is e ErrUnchanged) && negb (errors_Is e ErrPoisonMessage)
  end.

(** The loop goes past call [k] when it failed transiently, attempts are left
    and the context outlived the sleep. *)
Definition goes_on (env : call_env) (n k : nat) : bool :=
  transient (fn env k) && (S k <? n) && negb (cancelled env k).

(** The result when call [k] is the last of a budget of [n]. *)
Definition settled (env : call_env) (n k : nat) : result A error :=
  match fn env k with
  | Ok v => Ok v
  | Err e => if transient (Err e)
             then Err (if S k <? n then ctx_err env else retries_exhausted (Some e))
             else Err e
  end.

(** The k-th backoff, from zero. *)
Fixpoint schedule (c : RetryConfig) (backoff : Z) (k : nat) : Z :=
  match k with O => backoff | S k' => schedule c (next_backoff c backoff) k' end.

Lemma schedule_S c backoff k :
  schedule c backoff (S k) = next_backoff c (schedule c backoff k).
Proof. revert backoff. induction k as [|k IH]; intros b; simpl; [done|]. by rewrite <- IH. Qed.

(** Without overflow the backoff doubles up to the cap. *)
Lemma schedule_closed c backoff k :
  (0 < backoff ≤ 2 ^ 61)%Z → (0 ≤ MaxBackoff c ≤ 2 ^ 61)%Z →
  schedule c backoff (S k) = Z.min (backoff * 2 ^ Z.of_nat (S k)) (MaxBackoff c).
Proof.
  intros Hb Hm. induction k as [|k IH].
  - simpl. unfold next_backoff.
    rewrite wrap64_id by (unfold in_int64, int64_min, int64_max; lia).
    destruct (Z.ltb_spec (MaxBackoff c) (backoff * 2)); lia.
  - rewrite schedule_S, IH. unfold next_backoff.
    rewrite wrap64_id.
    2: { unfold in_int64, int64_min, int64_max.
         assert (0 < backoff * 2 ^ Z.of_nat (S k))%Z by (apply Z.mul_pos_pos; lia). lia. }
    replace (Z.of_nat (S (S k))) with (Z.of_nat (S k) + 1)%Z by lia.
    rewrite Z.pow_add_r by lia.
    match goal with |- context [(?a <? ?b)%Z] => destruct (Z.ltb_spec a b) end; lia.
Qed.

Lemma transient_spec e :
  transient (Err e) = negb (errors_Is e ErrUnchanged) && negb (errors_Is e ErrPoisonMessage).
Proof. done. Qed.

Lemma schedule_seq c backoff m :
  backoff :: (schedule c (next_backoff c backoff) <$> seq 0 m)
  = schedule c backoff <$> seq 0 (S m).
Proof.
  change (seq 0 (S m)) with (0 :: seq 1 m). rewrite fmap_cons. f_equal.
  rewrite <- seq_shift. change (map S (seq 0 m)) with (S <$> seq 0 m).
  by rewrite <- list_fmap_compose.
Qed.

Lemma attempts_goes_on c env n k backoff e :
  fn env k = Err e → transient (Err e) = true → cancelled env k = false →
  attempts c env (S (S n)) k backoff =
  let r := attempts c env (S n) (S k) (next_backoff c backoff) in
  {| out := out r; healthy := healthy r;
     records := (Analytics.RetryOutcomeRetry, text e) :: records r;
     sleeps := backoff :: sleeps r; calls := S (calls r) |}.
Proof.
  rewrite transient_spec. intros Hf [Hu%negb_true_iff Hp%negb_true_iff]%andb_true_iff Hc.
  remember (S n) as m eqn:Hm. simpl. rewrite Hf, Hu, Hp, Hc. by subst m.
Qed.

(** The loop from call [k0], with [n] attempts left of a budget of [k0 + n]. *)
Lemma attempts_spec c env n k0 backoff :
  0 < n →
  ∃ d, d < n ∧
    (∀ j, j < d → goes_on env (k0 + n) (k0 + j) = true) ∧
    goes_on env (k0 + n) (k0 + d) = false ∧
    let r := attempts c env n k0 backoff in
    calls r = S d ∧ out r = settled env (k0 + n) (k0 + d) ∧
    healthy r = negb (transient (fn env (k0 + d))) ∧
    sleeps r = schedule c backoff <$>
      seq 0 (if transient (fn env (k0 + d)) && (S d <? n) then S d else d).
Proof.
  revert k0 backoff. induction n as [|n IH]; intros k0 backoff Hn; [lia|].
  destruct (goes_on env (k0 + S n) k0) eqn:Hgo.
  - unfold goes_on in Hgo. apply andb_true_iff in Hgo as [[Ht Hlt]%andb_true_iff Hc].
    apply Nat.ltb_lt in Hlt. apply negb_true_iff in Hc.
    destruct (IH (S k0) (next_backoff c backoff) ltac:(lia)) as (d & Hd & Hgos & Hstop & Hr).
    exists (S d). split; [lia|].
    replace (k0 + S n) with (S k0 + n) by lia. replace (k0 + S d) with (S k0 + d) by lia.
    split.
    { intros [|j] Hj.
      - unfold goes_on. rewrite Nat.add_0_r, Ht, Hc. simpl.
        rewrite (proj2 (Nat.ltb_lt _ _)); [done|lia].
      - replace (k0 + S j) with (S k0 + j) by lia. apply Hgos. lia. }
    split; [done|]. destruct (fn env k0) as [v|e] eqn:Hfn; [done|].
    destruct n as [|n']; [lia|]. rewrite (attempts_goes_on c env n' k0 backoff e) by done.
    cbv zeta in Hr |- *. cbn [out healthy sleeps calls].
    destruct Hr as (-> & -> & -> & ->). repeat split.
    change (S (S d) <? S (S n')) with (S d <? S n').
    destruct (transient _ && _); apply schedule_seq.
  - exists 0. rewrite Nat.add_0_r. split; [lia|]. split; [intros j Hj; lia|].
    split; [done|]. simpl. unfold goes_on in Hgo. unfold settled.
    destruct (fn env k0) as [v|e] eqn:Hfn; [done|]. rewrite transient_spec in Hgo |- *.
    destruct (errors_Is e ErrUnchanged); simpl in *; [done|].
    destruct (errors_Is e ErrPoisonMessage); simpl in *; [done|].
    destruct n as [|n']; simpl.
    + rewrite (proj2 (Nat.ltb_ge _ _)) by lia. done.
    + rewrite (proj2 (Nat.ltb_lt _ _)) in Hgo |- * by lia. simpl in Hgo.
      destruct (cancelled env k0); done.
Qed.

Definition budget (c : RetryConfig) : nat := Z.to_nat (MaxAttempts c).

(** The backoff before retry [j + 1]. *)
Definition backoff_at (c : RetryConfig) (j : nat) : Z :=
  if (j =? 0)%nat then InitialBackoff c
  else Z.min (InitialBackoff c * 2 ^ Z.of_nat j) (MaxBackoff c).

Lemma schedule_backoff_at c j :
  (0 < InitialBackoff c ≤ 2 ^ 61)%Z → (0 ≤ MaxBackoff c ≤ 2 ^ 61)%Z →
  schedule c (InitialBackoff c) j = backoff_at c j.
Proof. intros. destruct j as [|j]; [done|]. by apply schedule_closed. Qed.

Definition admitted (t0 : Time) (br : option StageCircuitBreaker) : bool :=
  match br with None => true | Some b => fst (Allow t0 b) end.

Lemma runWithRetry_admitted c env others t0 t1 br :
  admitted t0 br = true → fst (runWithRetry c env others t0 t1 br) = retry_loop c env.
Proof.
  unfold admitted, runWithRetry. destruct br as [b|]; [|done].
  destruct (Allow t0 b) as [ok b1]; simpl. by intros ->.
Qed.

Lemma runWithRetry_refused c env others t0 t1 br :
  admitted t0 br = false →
  let r := fst (runWithRetry c env others t0 t1 br) in
  calls r = 0 ∧ sleeps r = [] ∧ out r = Err breaker_open_error.
Proof.
  unfold admitted, runWithRetry. destruct br as [b|]; [|done].
  destruct (Allow t0 b) as [ok b1]; simpl. by intros ->.
Qed.

(** Bounded retries: an admitted document gets between one and [MaxAttempts]
    calls; every call but the last failed transiently, and the result is that of
    the last one: a success, "unchanged" or poison at once, "retries exhausted"
    when the budget is spent, the context's error when it ended during a sleep.
    The sleeps double from [InitialBackoff] and never exceed [MaxBackoff] after
    the first; a refused document is not tried at all. *)
Theorem runWithRetry_contract c env others t0 t1 br :
  (1 ≤ MaxAttempts c)%Z → (0 < InitialBackoff c ≤ 2 ^ 61)%Z → (0 ≤ MaxBackoff c ≤ 2 ^ 61)%Z →
  let r := fst (runWithRetry c env others t0 t1 br) in
  if admitted t0 br then
    ∃ k, k < budget c ∧
      (∀ j, j < k → goes_on env (budget c) j = true) ∧ goes_on env (budget c) k = false ∧
      calls r = S k ∧ out r = settled env (budget c) k ∧
      sleeps r = backoff_at c <$>
        seq 0 (if transient (fn env k) && (S k <? budget c) then S k else k)
  else calls r = 0 ∧ sleeps r = [] ∧ out r = Err breaker_open_error.
Proof.
  intros HM HI HB. destruct (admitted t0 br) eqn:Ha; [|by apply runWithRetry_refused].
  rewrite runWithRetry_admitted by done.
  destruct (attempts_spec c env (budget c) 0 (InitialBackoff c)) as
    (k & Hk & Hgo & Hstop & Hcalls & Hout & _ & Hs); [unfold budget; lia|].
  exists k. unfold retry_loop. fold (budget c). simpl in *.
  repeat (split; [done|]). rewrite Hs. apply list_fmap_ext.
  intros _ j _. by apply schedule_backoff_at.
Qed.

(** ** The breaker's view *)

Lemma OnSuccess_wf b : wf b → wf (OnSuccess b).
Proof. apply (apply_event_wf CallSuccess). Qed.

Lemma OnFailure_wf t b : wf b → wf (OnFailure t b).
Proof. apply (apply_event_wf (CallFailure t)). Qed.

Lemma OnFailure_drops_gate t b : wf b → probeInFlight (OnFailure t b) = false.
Proof.
  intros (_ & _ & _ & Hp). unfold OnFailure. destruct (state b) eqn:Hs; simpl; [| |done];
    (destruct (probeInFlight b); [by discriminate (proj1 Hp eq_refl)|]); by case_match.
Qed.

Lemma Allow_wf t b : wf b → wf (snd (Allow t b)).
Proof. apply (apply_event_wf (CallAllow t)). Qed.

(** Every admission is reported: once a document was admitted the breaker
    ends with the probe gate down whatever the stage, the context and the other
    workers did in between, and closed when the stage was healthy (success,
    "unchanged" or poison); a refused document leaves the breaker as it was. So a
    half-open breaker is never stuck. *)
Theorem runWithRetry_releases_probe c env others t0 t1 b :
  wf b → (∀ b, wf b → wf (others b)) →
  ∃ b', snd (runWithRetry c env others t0 t1 (Some b)) = Some b' ∧
    if fst (Allow t0 b)
    then wf b' ∧ probeInFlight b' = false ∧
      (healthy (retry_loop c env) = true → state b' = StageBreakerClosed ∧ fails b' = 0%Z)
    else b' = b.
Proof.
  intros Hw Ho. unfold runWithRetry. pose proof (Allow_wf t0 b Hw) as Hw1.
  destruct (Allow t0 b) as [[] b1] eqn:Ha; simpl in *.
  - specialize (Ho b1 Hw1). destruct (healthy (retry_loop c env)); eexists;
      (split; [reflexivity|]).
    + split; [by apply OnSuccess_wf|done].
    + split; [by apply OnFailure_wf|]. split; [by apply OnFailure_drops_gate|done].
  - exists b1. split; [done|]. unfold Allow in Ha. repeat case_match; simplify_eq/=; done.
Qed.

(** ** What the analytics see *)

Lemma attempts_success_records c env n k backoff v :
  out (attempts c env n k backoff) = Ok v →
  ∃ texts, records (attempts c env n k backoff) =
      ((λ t, (Analytics.RetryOutcomeRetry, t)) <$> texts)
      ++ [(Analytics.RetryOutcomeSuccess, EmptyString)] ∧
    calls (attempts c env n k backoff) = S (length texts).
Proof.
  revert k backoff. induction n as [|n IH]; intros k backoff; simpl; [done|].
  destruct (fn env k) as [w|e]; simpl; [intros _; by exists []|].
  destruct (errors_Is e ErrUnchanged); [done|].
  destruct (errors_Is e ErrPoisonMessage); [done|].
  destruct n as [|n']; [done|]. destruct (cancelled env k); [done|].
  cbv zeta. cbn [out records calls]. intros H.
  destruct (IH _ _ H) as (texts & -> & ->). by exists (text e :: texts).
Qed.

End Retry.
Arguments call_env A : clear implicits.
Arguments loop_out A : clear implicits.

Import Analytics.

Definition stats_of (stage : string) (a : RetryAnalytics) : StageRetryStats :=
  default (fresh_stats stage) (stages a !! stage).

Lemma record_retry stage docKey t a :
  str_empty stage = false →
  let a' := record stage docKey (RetryOutcomeRetry, t) a in
  Attempts (stats_of stage a') = (Attempts (stats_of stage a) + 1)%Z ∧
  SuccessAfterRtry (stats_of stage a') = SuccessAfterRtry (stats_of stage a) ∧
  get0 (retriesByDoc a') (doc_key stage docKey)
    = (get0 (retriesByDoc a) (doc_key stage docKey) + 1)%Z.
Proof.
  intros Hs. unfold record, RecordAttempt. rewrite Hs. simpl.
  unfold stats_of, get0; simpl. rewrite !lookup_insert_eq. simpl. repeat split; reflexivity.
Qed.

Lemma record_success stage docKey a :
  str_empty stage = false →
  let a' := record stage docKey (RetryOutcomeSuccess, EmptyString) a in
  Attempts (stats_of stage a') = (Attempts (stats_of stage a) + 1)%Z ∧
  SuccessAfterRtry (stats_of stage a') =
    (SuccessAfterRtry (stats_of stage a) +
     if (0 <? get0 (retriesByDoc a) (doc_key stage docKey))%Z then 1 else 0)%Z ∧
  get0 (retriesByDoc a') (doc_key stage docKey) = 0%Z.
Proof.
  intros Hs. unfold record, RecordAttempt. rewrite Hs. simpl.
  unfold stats_of, get0; simpl. rewrite !lookup_insert_eq, lookup_delete_eq. simpl.
  repeat split. case_match; lia.
Qed.

Lemma record_retries stage docKey texts a :
  str_empty stage = false →
  let a' := record_all stage docKey ((λ t, (RetryOutcomeRetry, t)) <$> texts) a in
  Attempts (stats_of stage a') = (Attempts (stats_of stage a) + Z.of_nat (length texts))%Z ∧
  SuccessAfterRtry (stats_of stage a') = SuccessAfterRtry (stats_of stage a) ∧
  get0 (retriesByDoc a') (doc_key stage docKey)
    = (get0 (retriesByDoc a) (doc_key stage docKey) + Z.of_nat (length texts))%Z.
Proof.
  intros Hs. revert a. induction texts as [|t texts IH]; intros a; [simpl; lia|].
  destruct (record_retry stage docKey t a Hs) as (H1 & H2 & H3).
  destruct (IH (record stage docKey (RetryOutcomeRetry, t) a)) as (H4 & H5 & H6).
  rewrite fmap_cons. cbv zeta.
  change (record_all stage docKey ((RetryOutcomeRetry, t) :: ?l) a)
    with (record_all stage docKey l (record stage docKey (RetryOutcomeRetry, t) a)).
  rewrite H4, H5, H6, H1, H2, H3. cbn [length]. lia.
Qed.

(** A document that succeeds is counted once per call, and as a "success after
    retry" exactly when it took more than one call, provided no retries of an
    earlier run of the same document were left uncounted. *)
Theorem success_after_retry_exact {A} c (env : call_env A) stage docKey a v :
  str_empty stage = false →
  get0 (retriesByDoc a) (doc_key stage docKey) = 0%Z →
  out (retry_loop c env) = Ok v →
  let n := calls (retry_loop c env) in
  let a' := record_all stage docKey (records (retry_loop c env)) a in
  Attempts (stats_of stage a') = (Attempts (stats_of stage a) + Z.of_nat n)%Z ∧
  SuccessAfterRtry (stats_of stage a')
    = (SuccessAfterRtry (stats_of stage a) + if (1 <? n)%nat then 1 else 0)%Z ∧
  get0 (retriesByDoc a') (doc_key stage docKey) = 0%Z.
Proof.
  intros Hs H0 Hok. destruct (attempts_success_records _ _ _ _ _ _ Hok) as (texts & Hr & Hn).
  fold (retry_loop c env) in Hr, Hn. cbv zeta. rewrite Hr, Hn. unfold record_all.
  rewrite fold_left_app. simpl.
  destruct (record_retries stage docKey texts a Hs) as (H1 & H2 & H3).
  unfold record_all in *.
  destruct (record_success stage docKey
    (fold_left (λ a r, record stage docKey r a)
       ((λ t, (RetryOutcomeRetry, t)) <$> texts) a) Hs) as (H4 & H5 & H6).
  simpl in *. rewrite H3, H0 in H5.
  destruct texts as [|t texts]; simpl in *; lia.
Qed.

(** ** Witnesses *)

Definition sample_cfg : RetryConfig :=
  {| MaxAttempts := 3; InitialBackoff := 100; MaxBackoff := 150 |}.
Definition io_error : error := {| text := "connection reset"; chain := [] |}.
Definition sample_env : call_env nat :=
  {| fn := λ k, if (k <? 2)%nat then Err io_error else Ok 7; cancelled := λ _, false;
     ctx_err := {| text := "context canceled"; chain := [CtxDone] |} |}.

Lemma runWithRetry_contract_witness :
  let r := fst (runWithRetry sample_cfg sample_env id 0 0 None) in
  ∃ k, k < 3 ∧ calls r = S k ∧ sleeps r = [100; 150]%Z.
Proof.
  destruct (runWithRetry_contract sample_cfg sample_env id 0 0 None)
    as (k & Hk & _ & _ & Hc & _ & _); [by vm_compute..|].
  exists k. split; [exact Hk|]. split; [exact Hc|reflexivity].
Defined.

Lemma runWithRetry_releases_probe_witness :
  ∃ b', snd (runWithRetry sample_cfg sample_env (OnFailure 3) 2 9 (Some sample_breaker)) = Some b'
    ∧ probeInFlight b' = false.
Proof.
  destruct (runWithRetry_releases_probe sample_cfg sample_env (OnFailure 3) 2 9 sample_breaker)
    as (b' & H1 & _ & H2 & _).
  - repeat split; simpl; try done; try lia; by vm_compute.
  - intros b. apply OnFailure_wf.
  - by exists b'.
Defined.

Lemma success_after_retry_exact_witness :
  let a' := record_all "fetch" "t:d" (records (retry_loop sample_cfg sample_env))
              NewRetryAnalytics in
  Attempts (stats_of "fetch" a') = 3%Z ∧ SuccessAfterRtry (stats_of "fetch" a') = 1%Z.
Proof.
  destruct (success_after_retry_exact sample_cfg sample_env "fetch" "t:d" NewRetryAnalytics 7)
    as (H1 & H2 & _); [reflexivity..|].
  split; [exact H1|exact H2].
Defined.

(** A negative budget passes [defaults] and never calls the stage. *)
Example negative_budget_never_calls :
  let c := defaults {| MaxAttempts := -1; InitialBackoff := 0; MaxBackoff := 0 |} in
  calls (retry_loop c sample_env) = 0 ∧
  out (retry_loop c sample_env) = Err (retries_exhausted None).
Proof. split; reflexivity. Qed.

(** "Unchanged" after a retry is not recorded at all, so the retry stays on the
    document's account and its next first-attempt success counts as one after
    retry. *)
Example unchanged_leaks_retries :
  let unchanged := {| text := "pipeline: content unchanged"; chain := [ErrUnchanged] |} in
  let env := {| fn := λ k, if (k =? 0)%nat then Err io_error else Err unchanged;
                cancelled := λ _, false; ctx_err := io_error |} : call_env nat in
  let fast := {| fn := λ _, Ok 7; cancelled := λ _, false; ctx_err := io_error |} in
  let a := record_all "fetch" "t:d" (records (retry_loop sample_cfg env)) NewRetryAnalytics in
  let a' := record_all "fetch" "t:d" (records (retry_loop sample_cfg fast)) a in
  calls (retry_loop sample_cfg fast) = 1 ∧ SuccessAfterRtry (stats_of "fetch" a') = 1%Z.
Proof. split; reflexivity. Qed.

End Retry.
