(* ===== verification/PipelineTypes.v ===== *)
(** * The data of the ingestion pipeline

    internal/pipeline/types.go and [IsKickoffEvent] of producer.go: the Kafka
    envelope, the fetched document and the parsed block. [EventKind] and
    [SyncMode] are string types in the source and stay strings here, since an
    envelope may carry any value. *)

From S2P Require Import Prelude GoString.

Definition EventDocumentChanged : string := "source.document_changed".
Definition EventDocumentDeleted : string := "source.document_deleted".
Definition EventReindex : string := "source.reindex".
Definition EventPurge : string := "source.purge".

Definition SyncModeSteady : string := "steady".
Definition SyncModeBackfill : string := "backfill".

Record IngestEvent := {
  ev_Kind : string;
  ev_TenantID : string;
  ev_SourceID : string;
  ev_DocumentID : string;
  ev_NamespaceID : string;
  ev_FetchURL : string;
  ev_Title : string;
  ev_MIMEType : string;
  ev_ContentType : string;
  ev_PrivacyLabel : string;
  ev_PreviousHash : string;
  ev_Metadata : gmap string string;
  ev_Force : bool;
  ev_InlineContent : string;
  ev_SyncMode : string;
  ev_RequestID : string
}.

Record Document := {
  doc_TenantID : string;
  doc_SourceID : string;
  doc_DocumentID : string;
  doc_NamespaceID : string;
  doc_Title : string;
  doc_MIMEType : string;
  doc_ContentType : string;
  doc_Content : string;
  doc_ContentHash : string;
  doc_PreviousHash : string;
  doc_PrivacyLabel : string;
  doc_IngestedAt : Time;
  doc_Metadata : gmap string string;
  doc_Force : bool
}.

Record Block := {
  BlockID : string;
  blk_Text : string;
  blk_Type : string;
  HeadingLevel : Z;
  Page : Z;
  Position : Z;
  blk_PrivacyLabel : string
}.

#[export] Instance IngestEvent_eq : EqDecision IngestEvent.
Proof. solve_decision. Defined.

(** The zero [Document] with its identifiers set, as Stage 1 builds it for a
    deletion. *)
Definition deletion_doc (evt : IngestEvent) : Document :=
  {| doc_TenantID := ev_TenantID evt; doc_SourceID := ev_SourceID evt;
     doc_DocumentID := ev_DocumentID evt; doc_NamespaceID := EmptyString;
     doc_Title := EmptyString; doc_MIMEType := EmptyString; doc_ContentType := EmptyString;
     doc_Content := EmptyString; doc_ContentHash := EmptyString;
     doc_PreviousHash := EmptyString; doc_PrivacyLabel := EmptyString; doc_IngestedAt := 0;
     doc_Metadata := ∅; doc_Force := false |}.

(** [evt.Kind == EventDocumentDeleted || evt.Kind == EventPurge]. *)
Definition is_deletion (evt : IngestEvent) : bool :=
  str_eqb (ev_Kind evt) EventDocumentDeleted || str_eqb (ev_Kind evt) EventPurge.

Definition IsKickoffEvent (evt : IngestEvent) : bool :=
  str_eqb (ev_Kind evt) EventReindex && String.prefix "source:" (ev_DocumentID evt)
  && str_eqb (ev_SyncMode evt) SyncModeBackfill.

(** An envelope that only names a tenant, a source and a document. *)
Definition plain_event (kind tenant source document : string) : IngestEvent :=
  {| ev_Kind := kind; ev_TenantID := tenant; ev_SourceID := source;
     ev_DocumentID := document; ev_NamespaceID := EmptyString; ev_FetchURL := EmptyString;
     ev_Title := EmptyString; ev_MIMEType := EmptyString; ev_ContentType := EmptyString;
     ev_PrivacyLabel := EmptyString; ev_PreviousHash := EmptyString; ev_Metadata := ∅;
     ev_Force := false; ev_InlineContent := EmptyString; ev_SyncMode := SyncModeSteady;
     ev_RequestID := EmptyString |}.
