(* ===== verification/Priority.v ===== *)
(** * The priority buffer in front of Stage 1

    internal/pipeline/priority.go. [Drain] is one goroutine; any number of
    others [Push] and one may [Close]. The atomic actions are the ones of the Go
    memory model: a test of the [closed] flag, a send, a receive. [Push] is two
    steps, its test of [closed] and its [select]; [Drain] is a program counter
    over its try-receives. [allClosed] reads the flag and three lengths one
    after the other; only [Drain] removes events, so when all reads succeed they
    all held at the first, and one step is exact. *)

From S2P Require Import Prelude GoString PipelineTypes.

Module Priority.

(** [type Priority int]: any integer, of which three are named. *)
Definition PriorityHigh : Z := 0.
Definition PriorityNormal : Z := 1.
Definition PriorityLow : Z := 2.

Record DefaultPriorityClassifier := {
  Overrides : gmap string Z;
  SteadyKindIsHigh : bool
}.

Definition Classify (d : DefaultPriorityClassifier) (evt : IngestEvent) : Z :=
  match Overrides d !! ev_SourceID evt with
  | Some p => p
  | None =>
      if str_eqb (ev_Kind evt) EventReindex || str_eqb (ev_Kind evt) EventDocumentDeleted
         || str_eqb (ev_Kind evt) EventPurge
      then PriorityHigh
      else if str_eqb (ev_Kind evt) EventDocumentChanged
      then if SteadyKindIsHigh d then PriorityHigh else PriorityNormal
      else PriorityNormal
  end.

Record PriorityBufferConfig := {
  HighCapacity : Z;
  NormalCapacity : Z;
  LowCapacity : Z;
  NormalAfter : Z;
  LowAfter : Z
}.

Definition or_default (z d : Z) : Z := if (z <=? 0)%Z then d else z.

(** The normalisation of the configuration by [NewPriorityBuffer]. *)
Definition with_defaults (c : PriorityBufferConfig) : PriorityBufferConfig :=
  {| HighCapacity := or_default (HighCapacity c) 256;
     NormalCapacity := or_default (NormalCapacity c) 256;
     LowCapacity := or_default (LowCapacity c) 256;
     NormalAfter := or_default (NormalAfter c) 4;
     LowAfter := or_default (LowAfter c) 8 |}.

(** The three channels. *)
Inductive Bucket := High | Normal | Low.

#[export] Instance Bucket_eq : EqDecision Bucket.
Proof. solve_decision. Defined.

Definition bucket (prio : Z) : Bucket :=
  if (prio =? PriorityHigh)%Z then High
  else if (prio =? PriorityLow)%Z then Low
  else Normal.

Definition capacity (c : PriorityBufferConfig) (b : Bucket) : Z :=
  match b with High => HighCapacity c | Normal => NormalCapacity c | Low => LowCapacity c end.

(** Where [Drain] is: before the loop body with its forced low pick, the forced
    normal pick, the three picks in priority order, the closed test, the
    blocking [select], or returned. *)
Inductive location :=
| AtTop | AtForcedNormal | AtHigh | AtNormal | AtLow | AtClosed | AtSelect | Returned.

#[export] Instance location_eq : EqDecision location.
Proof. solve_decision. Defined.

Record State := {
  queue : Bucket → list IngestEvent;
  closed : bool;
  ctx_done : bool;
  pushing : list (Bucket * IngestEvent);
  pc : location;
  consecHigh : Z;
  consecNonLow : Z;
  stats : Bucket → Z;
  sunk : list (Bucket * IngestEvent);
  accepted : list (Bucket * IngestEvent)
}.

Definition NewPriorityBuffer : State :=
  {| queue := λ _, []; closed := false; ctx_done := false; pushing := []; pc := AtTop;
     consecHigh := 0; consecNonLow := 0; stats := λ _, 0%Z; sunk := []; accepted := [] |}.

Definition upd {A} (f : Bucket → A) (b : Bucket) (x : A) : Bucket → A :=
  λ b', if decide (b' = b) then x else f b'.

Definition goto (l : location) (s : State) : State :=
  {| queue := queue s; closed := closed s; ctx_done := ctx_done s; pushing := pushing s;
     pc := l; consecHigh := consecHigh s; consecNonLow := consecNonLow s; stats := stats s;
     sunk := sunk s; accepted := accepted s |}.

(** The anti-starvation counters after a pick. *)
Definition count_high (b : Bucket) (n : Z) : Z := match b with High => n + 1 | _ => 0 end.
Definition count_non_low (b : Bucket) (n : Z) : Z := match b with Low => 0 | _ => n + 1 end.

(** A pick, a successful receive from [b], with what [Drain] does before it looks at a
    bucket again: the statistics, the hand-over to the sink, the counters. Nobody
    else reads the counters, so the pick is the step that others can see, and [sunk]
    records the picks in order. [None] when the bucket is empty. *)
Definition deliver (b : Bucket) (s : State) : option State :=
  match queue s b with
  | [] => None
  | e :: es => Some
      {| queue := upd (queue s) b es; closed := closed s; ctx_done := ctx_done s;
         pushing := pushing s; pc := AtTop;
         consecHigh := count_high b (consecHigh s);
         consecNonLow := count_non_low b (consecNonLow s);
         stats := upd (stats s) b (stats s b + 1)%Z;
         sunk := sunk s ++ [(b, e)]; accepted := accepted s |}
  end.

Definition try (b : Bucket) (next : location) (s : State) : State :=
  default (goto next s) (deliver b s).

Definition allClosed (s : State) : bool :=
  closed s && forallb (λ b, match queue s b with [] => true | _ => false end) [High; Normal; Low].

(** One step of [Drain] where it does not block. *)
Definition drain_step (c : PriorityBufferConfig) (s : State) : State :=
  match pc s with
  | AtTop =>
      if ctx_done s then goto Returned s
      else if (LowAfter c <=? consecNonLow s)%Z then try Low AtForcedNormal s
      else goto AtForcedNormal s
  | AtForcedNormal =>
      if (NormalAfter c <=? consecHigh s)%Z then try Normal AtHigh s else goto AtHigh s
  | AtHigh => try High AtNormal s
  | AtNormal => try Normal AtLow s
  | AtLow => try Low AtClosed s
  | AtClosed => if allClosed s then goto Returned s else goto AtSelect s
  | AtSelect | Returned => s
  end.

Definition set_pushing (l : list (Bucket * IngestEvent)) (s : State) : State :=
  {| queue := queue s; closed := closed s; ctx_done := ctx_done s; pushing := l;
     pc := pc s; consecHigh := consecHigh s; consecNonLow := consecNonLow s;
     stats := stats s; sunk := sunk s; accepted := accepted s |}.

(** A send that went through. *)
Definition land (b : Bucket) (e : IngestEvent) (s : State) : State :=
  {| queue := upd (queue s) b (queue s b ++ [e]); closed := closed s; ctx_done := ctx_done s;
     pushing := pushing s; pc := pc s; consecHigh := consecHigh s;
     consecNonLow := consecNonLow s; stats := stats s; sunk := sunk s;
     accepted := accepted s ++ [(b, e)] |}.

Definition Close (s : State) : State :=
  {| queue := queue s; closed := true; ctx_done := ctx_done s; pushing := pushing s;
     pc := pc s; consecHigh := consecHigh s; consecNonLow := consecNonLow s;
     stats := stats s; sunk := sunk s; accepted := accepted s |}.

Definition cancel (s : State) : State :=
  {| queue := queue s; closed := closed s; ctx_done := true; pushing := pushing s;
     pc := pc s; consecHigh := consecHigh s; consecNonLow := consecNonLow s;
     stats := stats s; sunk := sunk s; accepted := accepted s |}.

(** The steps of [Drain], its blocking [select] included. *)
Inductive drain (c : PriorityBufferConfig) (s : State) : State → Prop :=
| drain_go : pc s ≠ AtSelect → pc s ≠ Returned → drain c s (drain_step c s)
| drain_recv b s' : pc s = AtSelect → deliver b s = Some s' → drain c s s'
| drain_woken : pc s = AtSelect → closed s = true → drain c s (goto AtTop s)
| drain_cancelled : pc s = AtSelect → ctx_done s = true → drain c s (goto Returned s).

(** The steps of everybody. A [Push] that passed the test of [closed] may send,
    or give up because the buffer closed or its own context ended. *)
Inductive step (c : PriorityBufferConfig) (s : State) : State → Prop :=
| step_drain s' : drain c s s' → step c s s'
| step_push prio e : closed s = false →
    step c s (set_pushing ((bucket prio, e) :: pushing s) s)
| step_send l1 b e l2 : pushing s = l1 ++ (b, e) :: l2 →
    (Z.of_nat (length (queue s b)) < capacity c b)%Z →
    step c s (land b e (set_pushing (l1 ++ l2) s))
| step_give_up l1 b e l2 : pushing s = l1 ++ (b, e) :: l2 →
    step c s (set_pushing (l1 ++ l2) s)
| step_close : step c s (Close s)
| step_cancel : step c s (cancel s).

Definition reachable (c : PriorityBufferConfig) (s : State) : Prop :=
  rtc (step c) NewPriorityBuffer s.

(** ** Lemmas *)

Definition of_bucket (b : Bucket) (l : list (Bucket * IngestEvent)) : list IngestEvent :=
  snd <$> List.filter (λ x, bool_decide (fst x = b)) l.

Lemma of_bucket_app b l l' : of_bucket b (l ++ l') = of_bucket b l ++ of_bucket b l'.
Proof. unfold of_bucket. by rewrite List.filter_app, fmap_app. Qed.

Lemma of_bucket_one b b' e :
  of_bucket b [(b', e)] = if decide (b = b') then [e] else [].
Proof.
  unfold of_bucket. simpl. destruct (decide (b = b')) as [->|]; case_bool_decide; naive_solver.
Qed.

Lemma deliver_Some b s s' :
  deliver b s = Some s' ↔ ∃ e es, queue s b = e :: es ∧ s' =
      {| queue := upd (queue s) b es; closed := closed s; ctx_done := ctx_done s;
         pushing := pushing s; pc := AtTop;
         consecHigh := count_high b (consecHigh s);
         consecNonLow := count_non_low b (consecNonLow s);
         stats := upd (stats s) b (stats s b + 1)%Z;
         sunk := sunk s ++ [(b, e)]; accepted := accepted s |}.
Proof. unfold deliver. destruct (queue s b) as [|e es]; naive_solver. Qed.

Lemma deliver_None b s : deliver b s = None ↔ queue s b = [].
Proof. unfold deliver. by destruct (queue s b). Qed.

(** A step of [Drain] is a jump or a delivery. *)
Lemma drain_cases c s s' :
  drain c s s' → (∃ l, s' = goto l s) ∨ (∃ b, deliver b s = Some s').
Proof.
  assert (Htry : ∀ b l, (∃ l', try b l s = goto l' s) ∨ ∃ b', deliver b' s = Some (try b l s)).
  { intros b l. unfold try. destruct (deliver b s) eqn:E; simpl; eauto. }
  destruct 1 as [H1 H2|b s'| |]; eauto.
  unfold drain_step. destruct (pc s); repeat case_match; eauto; done.
Qed.

(** ** Invariant *)

Definition fifo (c : PriorityBufferConfig) (s : State) : Prop :=
  ∀ b, of_bucket b (accepted s) = of_bucket b (sunk s) ++ queue s b ∧
       (Z.of_nat (length (queue s b)) ≤ capacity c b)%Z ∧
       stats s b = Z.of_nat (length (of_bucket b (sunk s))).

Lemma fifo_deliver c b s s' : fifo c s → deliver b s = Some s' → fifo c s'.
Proof.
  intros Hf (e & es & Hq & ->)%deliver_Some b'. destruct (Hf b') as (H1 & H2 & H3).
  simpl. rewrite of_bucket_app, of_bucket_one. unfold upd.
  destruct (decide (b' = b)) as [->|Hne].
  - rewrite H1, H3, Hq in *. simpl in H2. rewrite length_app, <- app_assoc. simpl.
    repeat split; lia.
  - by rewrite app_nil_r.
Qed.

Lemma fifo_step c s s' : fifo c s → step c s s' → fifo c s'.
Proof.
  intros Hf. destruct 1 as [s' Hd| | l1 b e l2 Hp Hlt| | |]; try exact Hf.
  - destruct (drain_cases c s s' Hd) as [[l ->]|[b Hb]]; [exact Hf|by eapply fifo_deliver].
  - intros b'. destruct (Hf b') as (H1 & H2 & H3). simpl.
    rewrite of_bucket_app, of_bucket_one, H1. unfold upd.
    destruct (decide (b' = b)) as [->|Hne]; [|by rewrite app_nil_r].
    rewrite length_app, <- app_assoc. simpl. repeat split; [lia|done].
Qed.

Lemma capacities_positive c b : (0 < capacity (with_defaults c) b)%Z.
Proof. destruct b; simpl; unfold or_default; case_match; lia. Qed.

Lemma fifo_init c : fifo (with_defaults c) NewPriorityBuffer.
Proof. intros b. pose proof (capacities_positive c b). repeat split; simpl; lia. Qed.

(** Nothing is lost, duplicated or reordered: in every reachable state the
    events accepted by a bucket are, in order, those its consumer received
    followed by those still queued; no bucket exceeds its capacity, and the
    statistics count the deliveries. (An event pushed after [Drain] returned stays queued.) *)
Theorem buffer_is_fifo c s b :
  reachable (with_defaults c) s →
  of_bucket b (accepted s) = of_bucket b (sunk s) ++ queue s b ∧
  (Z.of_nat (length (queue s b)) ≤ capacity (with_defaults c) b)%Z ∧
  stats s b = Z.of_nat (length (of_bucket b (sunk s))).
Proof.
  intros Hr. revert b. change (fifo (with_defaults c) s).
  eapply rtc_preserves; [apply fifo_step | apply fifo_init | exact Hr].
Qed.

(** ** Anti-starvation *)

(** Past the forced low pick of the current iteration. *)
Definition past_check (l : location) : bool :=
  match l with AtTop | Returned => false | _ => true end.

(** The picks that may still come before a queued low event. *)
Definition patience (c : PriorityBufferConfig) (s : State) : Z :=
  Z.max (LowAfter c - consecNonLow s) (if past_check (pc s) then 1 else 0).

Definition is_low (x : Bucket * IngestEvent) : Prop := fst x = Low.

Lemma patience_deliver c b s s' :
  b ≠ Low → past_check (pc s) = true → deliver b s = Some s' →
  (1 + patience c s' ≤ patience c s)%Z ∧ queue s' Low = queue s Low ∧
  ∃ e, sunk s' = sunk s ++ [(b, e)].
Proof.
  intros Hb Hp (e & es & Hq & ->)%deliver_Some. unfold patience. rewrite Hp. simpl.
  split; [destruct b; simpl; done || lia|]. split; [|eauto].
  unfold upd. by destruct (decide (Low = b)).
Qed.

(** A step of [Drain] past the check delivers or stays within patience. *)
Definition patient (c : PriorityBufferConfig) (s s' : State) : Prop :=
  (∃ e, sunk s' = sunk s ++ [(Low, e)]) ∨
  (queue s' Low = queue s Low ∧
   ∃ l, sunk s' = sunk s ++ l ∧ Forall (λ x, ¬ is_low x) l ∧
        (Z.of_nat (length l) + patience c s' ≤ patience c s)%Z).

Lemma patient_goto c s l :
  (patience c (goto l s) ≤ patience c s)%Z → patient c s (goto l s).
Proof.
  intros H. right. split; [done|]. exists []. simpl.
  rewrite app_nil_r. split; [done|]. by split; [constructor|].
Qed.

Lemma patient_deliver c b s s' :
  past_check (pc s) = true → deliver b s = Some s' → patient c s s'.
Proof.
  intros Hp Hd. destruct (decide (b = Low)) as [->|Hb].
  - left. apply deliver_Some in Hd as (e & es & _ & ->). by exists e.
  - destruct (patience_deliver c b s s' Hb Hp Hd) as (Hle & Hq & e & He).
    right. split; [done|]. exists [(b, e)]. split; [done|]. simpl.
    split; [by repeat constructor|lia].
Qed.

Lemma patient_try c b l s :
  past_check (pc s) = true → past_check l = true → patient c s (try b l s).
Proof.
  intros Hp Hl. unfold try. destruct (deliver b s) eqn:E; simpl; [by eapply patient_deliver|].
  apply patient_goto. unfold patience. simpl. by rewrite Hp, Hl.
Qed.

Lemma patient_top c s : pc s = AtTop → queue s Low ≠ [] → patient c s (drain_step c s).
Proof.
  intros Hpc Hq. unfold drain_step. rewrite Hpc.
  assert (H1 : ∀ l, patient c s (goto l s) ∨ (past_check l = true ∧
                 (LowAfter c ≤ consecNonLow s)%Z)).
  { intros l. destruct (Z.leb_spec (LowAfter c) (consecNonLow s)), (past_check l) eqn:E;
      try (left; apply patient_goto; unfold patience; simpl; rewrite Hpc, E; simpl; lia).
    by right. }
  destruct (ctx_done s); [destruct (H1 Returned) as [|[? _]]; done|].
  destruct (Z.leb_spec (LowAfter c) (consecNonLow s)) as [Hle|Hlt].
  - unfold try. destruct (deliver Low s) as [s'|] eqn:E; [|by apply deliver_None in E].
    left. apply deliver_Some in E as (e & es & _ & ->). by exists e.
  - destruct (H1 AtForcedNormal) as [|[_ ?]]; [done|lia].
Qed.

Lemma drain_patient c s s' : drain c s s' → queue s Low ≠ [] → patient c s s'.
Proof.
  intros Hd Hq. destruct Hd as [H1 H2|b s' Hs Hb|Hs _|Hs _].
  - destruct (pc s) eqn:Hpc; try done; [by apply patient_top|..];
      unfold drain_step; rewrite Hpc;
      repeat case_match; try (apply patient_try; by rewrite ?Hpc);
      apply patient_goto; unfold patience; simpl; rewrite Hpc; simpl; lia.
  - apply (patient_deliver c b); [by rewrite Hs|done].
  - apply patient_goto. unfold patience. rewrite Hs. simpl. lia.
  - apply patient_goto. unfold patience. rewrite Hs. simpl. lia.
Qed.

(** What a whole run can do while a low event waits. *)
Definition waited (c : PriorityBufferConfig) (s s' : State) : Prop :=
  ∃ l, sunk s' = sunk s ++ l ∧
    (Exists is_low l ∨
     (queue s' Low ≠ [] ∧ (Z.of_nat (length l) + patience c s' ≤ patience c s)%Z)).

Lemma waited_step c s a b : waited c s a → step c a b → waited c s b.
Proof.
  intros (l & Hl & Hcase) Hstep.
  assert (Hsunk : ∃ l', sunk b = sunk a ++ l').
  { destruct Hstep as [b Hd| | | | |]; simpl; try (exists []; by rewrite app_nil_r).
    destruct (drain_cases c a b Hd) as [[l' ->]|[b' (e & es & _ & ->)%deliver_Some]]; simpl;
      [exists []; by rewrite app_nil_r|by eexists]. }
  destruct Hcase as [Hlow|(Hq & Hle)].
  { destruct Hsunk as [l' Hl']. exists (l ++ l'). rewrite Hl', Hl, app_assoc. split; [done|].
    left. apply Exists_app. by left. }
  destruct Hstep as [b Hd|prio e Hc|l1 b e l2 Hp Hlt|l1 b e l2 Hp| |].
  1: { destruct (drain_patient c a b Hd Hq) as [[e He]|(Hq' & l' & Hl' & _ & Hle')].
    - exists (l ++ [(Low, e)]). rewrite He, Hl, app_assoc. split; [done|].
      left. apply Exists_app. right. by left.
    - exists (l ++ l'). rewrite Hl', Hl, app_assoc. split; [done|]. right.
      rewrite Hq', length_app. split; [done|lia]. }
  2: { exists l. split; [done|]. right. split; [|done]. simpl. unfold upd.
       case_decide as Hb; [|done]. by destruct (queue a b). }
  all: exists l; split; [done|]; right; by split.
Qed.

Lemma consec_nonneg c s : reachable c s → (0 ≤ consecNonLow s)%Z.
Proof.
  apply (rtc_preserves _ (λ s, 0 ≤ consecNonLow s)%Z); [|done]. intros a b Ha Hstep.
  destruct Hstep as [b Hd| | | | |]; simpl; try done.
  destruct (drain_cases c a b Hd) as [[l ->]|[b' (e & es & _ & ->)%deliver_Some]]; simpl; [done|].
  destruct b'; simpl; lia.
Qed.

(** C17: no starvation. From any reachable state of a buffer with the defaults filled in
    in which a low-priority event is queued, and along any continuation, whatever is
    pushed, closed or cancelled in the meantime, at most [LowAfter] high and normal
    events are picked before the next low one. *)
Theorem low_is_not_starved c s s' l :
  reachable (with_defaults c) s → queue s Low ≠ [] →
  rtc (step (with_defaults c)) s s' →
  sunk s' = sunk s ++ l → Forall (λ x, ¬ is_low x) l →
  (Z.of_nat (length l) ≤ LowAfter (with_defaults c))%Z.
Proof.
  intros Hr Hq Hrun Hl Hnl. pose proof (consec_nonneg _ _ Hr) as Hc.
  assert (Hw : waited (with_defaults c) s s').
  { eapply rtc_preserves; [apply waited_step| |exact Hrun].
    exists []. rewrite app_nil_r. split; [done|]. right. split; [done|]. simpl. lia. }
  destruct Hw as (l' & Hl' & Hcase). rewrite Hl in Hl'. simplify_list_eq.
  destruct Hcase as [Hlow|[_ Hle]].
  - apply Exists_exists in Hlow as (x & Hx & Hlx).
    by apply (proj1 (Forall_forall _ _) Hnl x Hx) in Hlx.
  - assert (1 ≤ LowAfter (with_defaults c))%Z
      by (simpl; unfold or_default; case_match; lia).
    unfold patience in Hle.
    destruct (past_check (pc s)), (past_check (pc s')); simpl in *; lia.
Qed.

(** ** Shutdown *)

Definition queued (s : State) : nat :=
  length (queue s High) + length (queue s Normal) + length (queue s Low).

Definition empty (l : list IngestEvent) : bool := match l with [] => true | _ => false end.

(** [Drain] already looked at a bucket of this iteration that has events again. *)
Definition missed (s : State) : bool :=
  match pc s with
  | AtNormal => negb (empty (queue s High))
  | AtLow => negb (empty (queue s High) && empty (queue s Normal))
  | AtClosed => negb (empty (queue s High) && empty (queue s Normal) && empty (queue s Low))
  | _ => false
  end.

Definition rank (s : State) : nat :=
  match pc s with
  | AtTop => 7 | AtForcedNormal => 6 | AtHigh => 5 | AtNormal => 4 | AtLow => 3
  | AtClosed => 2 | AtSelect => 8 | Returned => 0
  end + (if missed s then 10 else 0).

Definition work (s : State) : nat := 20 * queued s + rank s.

Definition shutting_down (s : State) : Prop := closed s = true ∧ ctx_done s = false.

Lemma deliver_work b s s' : deliver b s = Some s' → work s' < work s.
Proof.
  intros (e & es & Hq & ->)%deliver_Some. unfold work, rank, missed, queued. simpl.
  pose proof (f_equal length Hq) as Hlen. simpl in Hlen. unfold upd.
  destruct b; simpl; lia.
Qed.

Lemma try_work b l s :
  (deliver b s = None → work (goto l s) < work s) → work (try b l s) < work s.
Proof.
  intros H. unfold try. destruct (deliver b s) eqn:E; simpl; [by eapply deliver_work|auto].
Qed.

Lemma allClosed_true s :
  allClosed s = closed s && (empty (queue s High) && empty (queue s Normal) && empty (queue s Low)).
Proof.
  unfold allClosed, empty. simpl. destruct (queue s High), (queue s Normal), (queue s Low); simpl;
    by rewrite ?andb_true_r, ?andb_false_r.
Qed.

Lemma drain_step_work c s :
  shutting_down s → pc s ≠ AtSelect → pc s ≠ Returned → work (drain_step c s) < work s.
Proof.
  intros [Hcl Hctx] H1 H2. unfold drain_step. rewrite Hctx, allClosed_true, Hcl. simpl.
  destruct (pc s) eqn:Hpc; try done; repeat case_match;
    try apply try_work; unfold work, rank, missed, queued; simpl; rewrite Hpc; simpl;
    try (intros ->%deliver_None); simpl; repeat case_match; simpl in *; try lia; try congruence.
  all: try (destruct (empty (queue s High)), (empty (queue s Normal)), (empty (queue s Low));
    simpl in *; congruence).
Qed.

Lemma drain_work c s s' : shutting_down s → drain c s s' → work s' < work s.
Proof.
  intros Hsd [H1 H2|b s'' Hs Hb|Hs _|Hs Hc].
  - by apply drain_step_work.
  - by eapply deliver_work.
  - unfold work, rank, missed, queued. rewrite Hs. simpl. lia.
  - destruct Hsd. congruence.
Qed.

Lemma drain_shutting_down c s s' : shutting_down s → drain c s s' → shutting_down s'.
Proof.
  intros H Hd. destruct (drain_cases c s s' Hd) as [[l ->]|[b (e & es & _ & ->)%deliver_Some]];
    exact H.
Qed.

(** [Drain] gives up only with nothing queued. *)
Definition done_is_empty (s : State) : Prop := pc s = Returned → ∀ b, queue s b = [].

Lemma drain_done_is_empty c s s' :
  shutting_down s → done_is_empty s → drain c s s' → done_is_empty s'.
Proof.
  intros [Hcl Hctx] He [H1 H2|b s'' Hs Hb|Hs _|Hs Hc]; intros Hr.
  - revert Hr. unfold drain_step. rewrite Hctx.
    assert (Htry : ∀ b l, l ≠ Returned → pc (try b l s) ≠ Returned).
    { intros b l Hl. unfold try. destruct (deliver b s) eqn:E; simpl; [|done].
      by apply deliver_Some in E as (? & ? & _ & ->). }
    destruct (pc s) eqn:Hpc; try done; repeat case_match;
      try (intros Hr; by apply Htry in Hr); try done.
    intros _ b. match goal with H : allClosed s = true |- _ => rename H into Ha end.
    rewrite allClosed_true, !andb_true_iff in Ha. destruct Ha as (_ & [HH HN] & HL).
    simpl. unfold empty in *. destruct b; by repeat case_match.
  - apply deliver_Some in Hb as (? & ? & _ & ->). done.
  - done.
  - congruence.
Qed.

(** Shutdown: once the buffer is closed, when no push lands any more and the
    context lives, [Drain] returns after boundedly many steps, is never blocked
    before it returns, and returns with every bucket empty. *)
Theorem drain_finishes c s :
  shutting_down s → done_is_empty s →
  (∀ n s', nsteps (drain c) n s s' → n ≤ work s) ∧
  (∀ s', rtc (drain c) s s' →
     if decide (pc s' = Returned) then ∀ b, queue s' b = [] else ∃ s'', drain c s' s'').
Proof.
  intros Hsd He. split.
  - intros n s' Hn. cut (n + work s' ≤ work s); [lia|].
    revert Hsd. clear He. induction Hn as [x|n x y z Hxy _ IH]; intros Hsd; [lia|].
    pose proof (drain_work c x y Hsd Hxy).
    specialize (IH (drain_shutting_down c x y Hsd Hxy)). lia.
  - intros s' Hrun.
    assert (HI : shutting_down s' ∧ done_is_empty s').
    { eapply (rtc_preserves _ (λ x, shutting_down x ∧ done_is_empty x)); [|done|exact Hrun].
      intros a b [Ha Ha'] Hab. eauto using drain_shutting_down, drain_done_is_empty. }
    destruct HI as [[Hcl _] He']. destruct (decide (pc s' = Returned)) as [Hr|Hr]; [by apply He'|].
    destruct (decide (pc s' = AtSelect)); eexists; [by apply drain_woken|by apply drain_go].
Qed.

(** ** Witnesses *)

Definition sample_cfg : PriorityBufferConfig :=
  {| HighCapacity := 0; NormalCapacity := 0; LowCapacity := 0; NormalAfter := 0; LowAfter := 0 |}.
Definition upsert : IngestEvent := plain_event EventDocumentChanged "t" "s" "d1".
Definition purge : IngestEvent := plain_event EventPurge "t" "s" "d2".

(** A push that lands. *)
Definition pushed (b : Bucket) (e : IngestEvent) (s : State) : State :=
  land b e (set_pushing [] (set_pushing [(b, e)] s)).

Lemma push_steps c prio e s :
  closed s = false → pushing s = [] →
  (Z.of_nat (length (queue s (bucket prio))) < capacity c (bucket prio))%Z →
  rtc (step c) s (pushed (bucket prio) e s).
Proof.
  intros Hc Hp Hlt.
  apply (rtc_l _ _ (set_pushing [(bucket prio, e)] s)).
  { rewrite <- Hp at 1. by apply step_push. }
  apply rtc_once, (step_send _ _ [] (bucket prio) e []); [reflexivity|exact Hlt].
Qed.

Definition waiting : State := pushed Low upsert NewPriorityBuffer.
Definition overtaken : State :=
  let s := pushed High purge waiting in
  drain_step (with_defaults sample_cfg) (drain_step (with_defaults sample_cfg)
    (drain_step (with_defaults sample_cfg) s)).

Lemma waiting_reachable : reachable (with_defaults sample_cfg) waiting.
Proof. apply (push_steps _ PriorityLow upsert NewPriorityBuffer); done. Defined.

Lemma go_step c s : pc s ≠ AtSelect → pc s ≠ Returned → step c s (drain_step c s).
Proof. intros. by apply step_drain, drain_go. Qed.

Lemma overtaken_run : rtc (step (with_defaults sample_cfg)) waiting overtaken.
Proof.
  etrans; [apply (push_steps _ PriorityHigh purge waiting); done|].
  unfold overtaken. do 3 (eapply rtc_l; [by apply go_step|]). apply rtc_refl.
Defined.

Lemma buffer_is_fifo_witness :
  of_bucket High (accepted overtaken) = of_bucket High (sunk overtaken) ++ queue overtaken High.
Proof.
  apply (buffer_is_fifo sample_cfg overtaken High).
  exact (transitivity waiting_reachable overtaken_run).
Defined.

Lemma low_is_not_starved_witness :
  sunk overtaken = [(High, purge)] ∧ (1 ≤ LowAfter (with_defaults sample_cfg))%Z.
Proof.
  split; [reflexivity|].
  apply (low_is_not_starved sample_cfg waiting overtaken [(High, purge)]).
  - exact waiting_reachable.
  - done.
  - exact overtaken_run.
  - reflexivity.
  - repeat constructor. done.
Defined.

Lemma drain_finishes_witness :
  work (Close waiting) = 27 ∧
  ∀ n s', nsteps (drain (with_defaults sample_cfg)) n (Close waiting) s' → n ≤ 27.
Proof.
  split; [reflexivity|].
  apply (drain_finishes (with_defaults sample_cfg) (Close waiting)); [done|done].
Defined.

(** The race of [Push] and [Close]: a push that tested [closed] before [Close] may
    send after [Drain] returned. [Push] reports success and the event is never
    delivered. *)
Example push_after_drain_returned :
  ∃ s, reachable (with_defaults sample_cfg) s ∧ pc s = Returned ∧ ctx_done s = false ∧
    accepted s = [(Normal, upsert)] ∧ sunk s = [].
Proof.
  pose (c := with_defaults sample_cfg).
  pose (s1 := Close (set_pushing [(Normal, upsert)] NewPriorityBuffer)).
  pose (s2 := Nat.iter 6 (drain_step c) s1).
  exists (land Normal upsert (set_pushing [] s2)). split; [|done].
  apply (rtc_l _ _ (set_pushing [(Normal, upsert)] NewPriorityBuffer)).
  { by apply (step_push _ NewPriorityBuffer PriorityNormal upsert). }
  apply (rtc_l _ _ s1); [apply step_close|].
  transitivity s2.
  { unfold s2. simpl Nat.iter. do 6 (eapply rtc_l; [by apply go_step|]). apply rtc_refl. }
  apply rtc_once, (step_send _ s2 [] Normal upsert []); done.
Qed.

(** A deletion overtakes the upserts of its source unless the source has an
    override. *)
Lemma Classify_deletion d evt :
  is_deletion evt = true → Overrides d !! ev_SourceID evt = None →
  bucket (Classify d evt) = High.
Proof.
  unfold is_deletion, Classify. intros H ->. rewrite <- orb_assoc, H, orb_true_r. done.
Qed.

End Priority.
