(* ===== verification/Coordinator.v ===== *)
(** * The four-stage ingestion coordinator

    internal/pipeline/coordinator.go and sync_history_hook.go. [SyncRuns] is the
    bookkeeping of backfill runs; [Coordinator] the pipeline: bounded channels
    between four pools of workers, each worker receiving an item, calling its
    stage through [runWithRetry] and forwarding, completing or dead-lettering it.
    A state of the pipeline holds the metrics, the channels, what every worker
    is doing and the breakers; [step] interleaves submitters, workers, the
    goroutines that close channels and the end of the context.

    The pipeline is the one without a priority buffer (its [Drain] feeds stage 1
    the way [Submit] does, and is the subject of [Priority]); the retry analytics,
    which the coordinator only writes to, are the subject of [Retry]. The backfill
    hooks are atomic here: the source updates the counters of the run it looked
    up after releasing the lock on the map of runs. The flag that refuses a second
    concurrent [Run] is left out. *)

From S2P Require Import Prelude GoString StageBreaker Retry PipelineTypes.

Module SyncRuns.

Definition SyncStatusSucceeded : string := "succeeded".
Definition SyncStatusFailed : string := "failed".

Record syncRunState := { runID : string; processed : Z; failed : Z }.

(** The calls made to the [SyncHistoryRecorder], whose errors are ignored. *)
Inductive history_call :=
| Start (tenantID sourceID run : string)
| Finish (tenantID sourceID run status : string) (n_processed n_failed : Z).

Record SyncState := { syncRuns : gmap string syncRunState; history : list history_call }.

Definition empty_sync : SyncState := {| syncRuns := ∅; history := [] |}.

Definition syncRunKey (tenantID sourceID : string) : string := tenantID ++ ":" ++ sourceID.

(** [fresh] is the identifier minted by [SyncRunIDGen]; [enabled] says whether a
    recorder is configured. *)
Definition recordSyncStart (enabled : bool) (fresh : string) (evt : IngestEvent)
    (s : SyncState) : SyncState :=
  if negb enabled || negb (IsKickoffEvent evt) then s
  else
    let key := syncRunKey (ev_TenantID evt) (ev_SourceID evt) in
    let finish := match syncRuns s !! key with
                  | Some prev => [Finish (ev_TenantID evt) (ev_SourceID evt) (runID prev)
                                    SyncStatusSucceeded (processed prev) (failed prev)]
                  | None => []
                  end in
    {| syncRuns := <[key := {| runID := fresh; processed := 0; failed := 0 |}]> (syncRuns s);
       history := history s ++ finish ++ [Start (ev_TenantID evt) (ev_SourceID evt) fresh] |}.

Definition recordSyncOutcome (enabled : bool) (evt : IngestEvent) (success : bool)
    (s : SyncState) : SyncState :=
  if negb enabled || negb (str_eqb (ev_SyncMode evt) SyncModeBackfill) || IsKickoffEvent evt
  then s
  else
    let key := syncRunKey (ev_TenantID evt) (ev_SourceID evt) in
    match syncRuns s !! key with
    | None => s
    | Some r =>
        let r' := if success
                  then {| runID := runID r; processed := processed r + 1; failed := failed r |}
                  else {| runID := runID r; processed := processed r; failed := failed r + 1 |} in
        {| syncRuns := <[key := r']> (syncRuns s); history := history s |}
    end.

Definition FinishBackfillRun (enabled : bool) (tenantID sourceID status : string)
    (s : SyncState) : SyncState :=
  if negb enabled then s
  else
    let key := syncRunKey tenantID sourceID in
    match syncRuns s !! key with
    | None => s
    | Some r =>
        {| syncRuns := delete key (syncRuns s);
           history := history s ++ [Finish tenantID sourceID (runID r) status
                                      (processed r) (failed r)] |}
    end.

(** The documents of a run: those [recordSyncOutcome] counts. *)
Definition counts_for (tenantID sourceID : string) (evt : IngestEvent) : bool :=
  str_eqb (ev_SyncMode evt) SyncModeBackfill && negb (IsKickoffEvent evt)
  && str_eqb (syncRunKey (ev_TenantID evt) (ev_SourceID evt)) (syncRunKey tenantID sourceID).

Definition record_outcomes (os : list (IngestEvent * bool)) (s : SyncState) : SyncState :=
  fold_left (λ s o, recordSyncOutcome true (fst o) (snd o) s) os s.

Definition tally (tenantID sourceID : string) (ok : bool) (os : list (IngestEvent * bool)) : Z :=
  Z.of_nat (length (List.filter
    (λ o, counts_for tenantID sourceID (fst o) && Bool.eqb (snd o) ok) os)).

Lemma recordSyncOutcome_run tenantID sourceID evt ok s r :
  syncRuns s !! syncRunKey tenantID sourceID = Some r →
  history (recordSyncOutcome true evt ok s) = history s ∧
  syncRuns (recordSyncOutcome true evt ok s) !! syncRunKey tenantID sourceID =
    Some {| runID := runID r; processed := processed r + tally tenantID sourceID true [(evt, ok)];
            failed := failed r + tally tenantID sourceID false [(evt, ok)] |}.
Proof.
  intros Hr. unfold recordSyncOutcome, tally, counts_for. simpl.
  destruct (str_eqb (ev_SyncMode evt) SyncModeBackfill), (IsKickoffEvent evt); simpl;
    try (rewrite Hr, !Z.add_0_r; by destruct r).
  destruct (str_eqb _ (syncRunKey tenantID sourceID)) eqn:E; simpl.
  - apply str_eqb_eq in E. rewrite E, Hr. simpl. rewrite lookup_insert_eq.
    destruct ok; simpl; by rewrite ?Z.add_0_r.
  - apply str_eqb_neq in E. rewrite !Z.add_0_r.
    destruct (syncRuns s !! syncRunKey (ev_TenantID evt) _) as [r'|]; simpl;
      rewrite ?lookup_insert_ne, Hr by done; by destruct r.
Qed.

Lemma tally_cons tenantID sourceID ok o os :
  tally tenantID sourceID ok (o :: os)
  = (tally tenantID sourceID ok [o] + tally tenantID sourceID ok os)%Z.
Proof. unfold tally. simpl. case_match; simpl; lia. Qed.

Lemma record_outcomes_run tenantID sourceID os s r :
  syncRuns s !! syncRunKey tenantID sourceID = Some r →
  history (record_outcomes os s) = history s ∧
  syncRuns (record_outcomes os s) !! syncRunKey tenantID sourceID =
    Some {| runID := runID r; processed := processed r + tally tenantID sourceID true os;
            failed := failed r + tally tenantID sourceID false os |}.
Proof.
  revert s r. induction os as [|[evt ok] os IH]; intros s r Hr.
  { simpl. unfold tally. simpl. rewrite Hr, !Z.add_0_r. by destruct r. }
  destruct (recordSyncOutcome_run tenantID sourceID evt ok s r Hr) as [Hh Hl].
  destruct (IH _ _ Hl) as [Hh' Hl']. simpl.
  rewrite (tally_cons _ _ true), (tally_cons _ _ false).
  split; [by rewrite <- Hh|]. rewrite !Z.add_assoc. exact Hl'.
Qed.

(** The row of a backfill run is closed with the truth: between the kickoff
    and [FinishBackfillRun], the processed and failed counts reported are those
    of the documents of that tenant and source that completed and that were
    dead-lettered. *)
Theorem backfill_run_counts fresh kickoff os status s :
  IsKickoffEvent kickoff = true →
  let t := ev_TenantID kickoff in
  let src := ev_SourceID kickoff in
  let s' := FinishBackfillRun true t src status
              (record_outcomes os (recordSyncStart true fresh kickoff s)) in
  last (history s') =
    Some (Finish t src fresh status (tally t src true os) (tally t src false os)) ∧
  syncRuns s' !! syncRunKey t src = None.
Proof.
  intros Hk t src. unfold FinishBackfillRun. simpl.
  destruct (record_outcomes_run t src os (recordSyncStart true fresh kickoff s)
              {| runID := fresh; processed := 0; failed := 0 |}) as [Hh Hl].
  { unfold recordSyncStart. rewrite Hk. simpl. apply lookup_insert_eq. }
  rewrite Hl. simpl. rewrite last_snoc, lookup_delete_eq. done.
Qed.

Definition kickoff : IngestEvent :=
  {| ev_Kind := EventReindex; ev_TenantID := "t"; ev_SourceID := "s";
     ev_DocumentID := "source:s"; ev_NamespaceID := EmptyString; ev_FetchURL := EmptyString;
     ev_Title := EmptyString; ev_MIMEType := EmptyString; ev_ContentType := EmptyString;
     ev_PrivacyLabel := EmptyString; ev_PreviousHash := EmptyString; ev_Metadata := ∅;
     ev_Force := false; ev_InlineContent := EmptyString; ev_SyncMode := SyncModeBackfill;
     ev_RequestID := EmptyString |}.
Definition backfilled (t s d : string) : IngestEvent :=
  {| ev_Kind := EventDocumentChanged; ev_TenantID := t; ev_SourceID := s;
     ev_DocumentID := d; ev_NamespaceID := EmptyString; ev_FetchURL := EmptyString;
     ev_Title := EmptyString; ev_MIMEType := EmptyString; ev_ContentType := EmptyString;
     ev_PrivacyLabel := EmptyString; ev_PreviousHash := EmptyString; ev_Metadata := ∅;
     ev_Force := false; ev_InlineContent := EmptyString; ev_SyncMode := SyncModeBackfill;
     ev_RequestID := EmptyString |}.

Lemma backfill_run_counts_witness :
  let os := [(backfilled "t" "s" "d1", true); (backfilled "t" "s" "d2", false);
             (backfilled "t" "other" "d3", true)] in
  last (history (FinishBackfillRun true "t" "s" SyncStatusSucceeded
          (record_outcomes os (recordSyncStart true "r1" kickoff empty_sync))))
  = Some (Finish "t" "s" "r1" SyncStatusSucceeded 1 1).
Proof.
  intros os.
  exact (proj1 (backfill_run_counts "r1" kickoff os SyncStatusSucceeded empty_sync eq_refl)).
Defined.

(** Identifiers with a colon share a run: a document of tenant "a", source "b:c"
    is counted for the run of tenant "a:b", source "c". *)
Example run_keys_collide :
  counts_for "a:b" "c" (backfilled "a" "b:c" "d") = true.
Proof. reflexivity. Qed.

End SyncRuns.

Module Coordinator.

Import Retry.
Import SyncRuns (SyncState, recordSyncStart, recordSyncOutcome, FinishBackfillRun).

(** ** Configuration *)

Inductive Stage := S1 | S2 | S3 | S4.

#[export] Instance Stage_eq : EqDecision Stage.
Proof. solve_decision. Defined.

Definition next (k : Stage) : option Stage :=
  match k with S1 => Some S2 | S2 => Some S3 | S3 => Some S4 | S4 => None end.

Record CoordinatorConfig := {
  QueueSize : Z;
  Workers : Stage → Z;
  RetryCfg : RetryConfig;
  SyncHistory : bool
}.

(** The sizing part of [CoordinatorConfig.defaults] with [StageConfig.defaults]. *)
Definition defaults (c : CoordinatorConfig) : CoordinatorConfig :=
  {| QueueSize := if (QueueSize c =? 0)%Z then 8 else QueueSize c;
     Workers := λ k, if (Workers c k <? 1)%Z then 1%Z else Workers c k;
     RetryCfg := Retry.defaults (RetryCfg c);
     SyncHistory := SyncHistory c |}.

Section Pipeline.
Context {vector : Type}.

Record stagedItem := {
  evt : IngestEvent;
  doc : option Document;
  blocks : list Block;
  embeddings : list vector;
  modelID : string
}.

(** The item of Stage 1 carries its event only. *)
Definition stagedEvent (e : IngestEvent) : stagedItem :=
  {| evt := e; doc := None; blocks := []; embeddings := []; modelID := EmptyString |}.

(** What the four stage implementations may return when they succeed. *)
Class Stages := {
  fetches : IngestEvent → Document → Prop;
  parses : Document → list Block → Prop;
  embeds : IngestEvent → list Block → list vector * string → Prop
}.

Definition value (k : Stage) : Type :=
  match k with
  | S1 => Document
  | S2 => list Block
  | S3 => list vector * string
  | S4 => unit
  end.

Definition returns `{Stages} (k : Stage) (it : stagedItem) : value k → Prop :=
  match k with
  | S1 => fetches (evt it)
  | S2 => λ bs, ∃ d, doc it = Some d ∧ parses d bs
  | S3 => embeds (evt it) (blocks it)
  | S4 => λ _, True
  end.

(** ** The decisions of the workers *)

(** What becomes of an item: it goes to the next stage, it is done without
    further stages ([paused]: because its source is paused), it is done, or it
    goes to the dead-letter queue. *)
Inductive verdict :=
| Forward (it : stagedItem)
| Skip (paused : bool)
| Complete
| Dead (e : Retry.error).

(** A worker settles the item it received, or calls the named stage. *)
Inductive decision := Settle (v : verdict) | Call (stage : string).

Definition with_doc (d : Document) (it : stagedItem) : stagedItem :=
  {| evt := evt it; doc := Some d; blocks := blocks it; embeddings := embeddings it;
     modelID := modelID it |}.
Definition with_blocks (bs : list Block) (it : stagedItem) : stagedItem :=
  {| evt := evt it; doc := doc it; blocks := bs; embeddings := embeddings it;
     modelID := modelID it |}.
Definition with_embeddings (em : list vector * string) (it : stagedItem) : stagedItem :=
  {| evt := evt it; doc := doc it; blocks := blocks it; embeddings := fst em;
     modelID := snd em |}.

Definition received (k : Stage) (paused : bool) (it : stagedItem) : decision :=
  match k with
  | S1 => if paused then Settle (Skip true)
          else if is_deletion (evt it) then Settle (Forward (with_doc (deletion_doc (evt it)) it))
          else Call "fetch"
  | S2 => if is_deletion (evt it) then Settle (Forward it) else Call "parse"
  | S3 => match blocks it with [] => Settle (Forward it) | _ => Call "embed" end
  | S4 => if is_deletion (evt it) then Call "delete" else Call "store"
  end.

(** The item after [runWithRetry] returned [r]. *)
Definition returned (k : Stage) (it : stagedItem) : result (value k) Retry.error → verdict :=
  match k with
  | S1 => λ r, match r with
               | Ok d => Forward (with_doc d it)
               | Err e => if errors_Is e ErrUnchanged then Skip false else Dead e
               end
  | S2 => λ r, match r with Ok bs => Forward (with_blocks bs it) | Err e => Dead e end
  | S3 => λ r, match r with Ok em => Forward (with_embeddings em it) | Err e => Dead e end
  | S4 => λ r, match r with Ok _ => Complete | Err e => Dead e end
  end.

(** ** State *)

(** Calls to the outside, in order. *)
Inductive effect :=
| OnSuccess (e : IngestEvent)
| OnDLQ (e : IngestEvent) (err : Retry.error)
| GraphDelete (tenantID documentID : string)
| GraphEnrich (it : stagedItem)
| ScoreBlocks (it : stagedItem)
| Stored (it : stagedItem)
| Deleted (it : stagedItem).

(** A worker has received an item, is inside [runWithRetry] past the breaker, or
    waits to send the item on. *)
Inductive phase := Got | Running | Sending.

Record task := { at_stage : Stage; doing : phase; item : stagedItem }.

Record CoordinatorMetrics := { Submitted : Z; Completed : Z; Skipped : Z; DLQ : Z }.

Record State := {
  Metrics : CoordinatorMetrics;
  queue : Stage → list stagedItem;
  tasks : list task;
  alive : Stage → nat;
  closed : Stage → bool;
  cancelled : bool;
  breakers : gmap string StageBreaker.StageCircuitBreaker;
  sync : SyncState;
  submitting : list IngestEvent;
  log : list effect;
  accepted : list IngestEvent;
  aborted : list IngestEvent;
  dropped : list IngestEvent
}.

Definition upd {A} (f : Stage → A) (k : Stage) (x : A) : Stage → A :=
  λ k', if decide (k' = k) then x else f k'.

Definition set_tasks (ts : list task) (s : State) : State :=
  {| Metrics := Metrics s; queue := queue s; tasks := ts; alive := alive s;
     closed := closed s; cancelled := cancelled s; breakers := breakers s; sync := sync s;
     submitting := submitting s; log := log s; accepted := accepted s; aborted := aborted s;
     dropped := dropped s |}.
Definition set_queue (k : Stage) (l : list stagedItem) (s : State) : State :=
  {| Metrics := Metrics s; queue := upd (queue s) k l; tasks := tasks s; alive := alive s;
     closed := closed s; cancelled := cancelled s; breakers := breakers s; sync := sync s;
     submitting := submitting s; log := log s; accepted := accepted s; aborted := aborted s;
     dropped := dropped s |}.
Definition set_alive (k : Stage) (n : nat) (s : State) : State :=
  {| Metrics := Metrics s; queue := queue s; tasks := tasks s; alive := upd (alive s) k n;
     closed := closed s; cancelled := cancelled s; breakers := breakers s; sync := sync s;
     submitting := submitting s; log := log s; accepted := accepted s; aborted := aborted s;
     dropped := dropped s |}.
Definition set_closed (k : Stage) (s : State) : State :=
  {| Metrics := Metrics s; queue := queue s; tasks := tasks s; alive := alive s;
     closed := upd (closed s) k true; cancelled := cancelled s; breakers := breakers s;
     sync := sync s; submitting := submitting s; log := log s; accepted := accepted s;
     aborted := aborted s; dropped := dropped s |}.
Definition set_cancelled (s : State) : State :=
  {| Metrics := Metrics s; queue := queue s; tasks := tasks s; alive := alive s;
     closed := closed s; cancelled := true; breakers := breakers s; sync := sync s;
     submitting := submitting s; log := log s; accepted := accepted s; aborted := aborted s;
     dropped := dropped s |}.
Definition set_breakers (bs : gmap string StageBreaker.StageCircuitBreaker) (s : State) : State :=
  {| Metrics := Metrics s; queue := queue s; tasks := tasks s; alive := alive s;
     closed := closed s; cancelled := cancelled s; breakers := bs; sync := sync s;
     submitting := submitting s; log := log s; accepted := accepted s; aborted := aborted s;
     dropped := dropped s |}.
Definition set_sync (f : SyncState → SyncState) (s : State) : State :=
  {| Metrics := Metrics s; queue := queue s; tasks := tasks s; alive := alive s;
     closed := closed s; cancelled := cancelled s; breakers := breakers s; sync := f (sync s);
     submitting := submitting s; log := log s; accepted := accepted s; aborted := aborted s;
     dropped := dropped s |}.
Definition emit (es : list effect) (s : State) : State :=
  {| Metrics := Metrics s; queue := queue s; tasks := tasks s; alive := alive s;
     closed := closed s; cancelled := cancelled s; breakers := breakers s; sync := sync s;
     submitting := submitting s; log := log s ++ es; accepted := accepted s;
     aborted := aborted s; dropped := dropped s |}.
Definition set_metrics (f : CoordinatorMetrics → CoordinatorMetrics) (s : State) : State :=
  {| Metrics := f (Metrics s); queue := queue s; tasks := tasks s; alive := alive s;
     closed := closed s; cancelled := cancelled s; breakers := breakers s; sync := sync s;
     submitting := submitting s; log := log s; accepted := accepted s; aborted := aborted s;
     dropped := dropped s |}.
Definition set_submits (sub acc ab : list IngestEvent) (s : State) : State :=
  {| Metrics := Metrics s; queue := queue s; tasks := tasks s; alive := alive s;
     closed := closed s; cancelled := cancelled s; breakers := breakers s; sync := sync s;
     submitting := sub; log := log s; accepted := acc; aborted := ab; dropped := dropped s |}.
Definition set_dropped (l : list IngestEvent) (s : State) : State :=
  {| Metrics := Metrics s; queue := queue s; tasks := tasks s; alive := alive s;
     closed := closed s; cancelled := cancelled s; breakers := breakers s; sync := sync s;
     submitting := submitting s; log := log s; accepted := accepted s; aborted := aborted s;
     dropped := l |}.

(** [NewCoordinator] followed by the start of [Run]: every worker is up. *)
Definition NewCoordinator (c : CoordinatorConfig)
    (bs : gmap string StageBreaker.StageCircuitBreaker) : State :=
  {| Metrics := {| Submitted := 0; Completed := 0; Skipped := 0; DLQ := 0 |};
     queue := λ _, []; tasks := []; alive := λ k, Z.to_nat (Workers (defaults c) k);
     closed := λ _, false; cancelled := false; breakers := bs; sync := SyncRuns.empty_sync;
     submitting := []; log := []; accepted := []; aborted := []; dropped := [] |}.

(** ** Operations *)

Definition add_submitted (m : CoordinatorMetrics) : CoordinatorMetrics :=
  {| Submitted := Submitted m + 1; Completed := Completed m; Skipped := Skipped m; DLQ := DLQ m |}.
Definition add_completed (m : CoordinatorMetrics) : CoordinatorMetrics :=
  {| Submitted := Submitted m; Completed := Completed m + 1; Skipped := Skipped m; DLQ := DLQ m |}.
Definition add_skipped (m : CoordinatorMetrics) : CoordinatorMetrics :=
  {| Submitted := Submitted m; Completed := Completed m; Skipped := Skipped m + 1; DLQ := DLQ m |}.
Definition add_dlq (m : CoordinatorMetrics) : CoordinatorMetrics :=
  {| Submitted := Submitted m; Completed := Completed m; Skipped := Skipped m; DLQ := DLQ m + 1 |}.

Definition routeDLQ (c : CoordinatorConfig) (e : IngestEvent) (err : Retry.error) (s : State)
    : State :=
  emit [OnDLQ e err]
    (set_sync (recordSyncOutcome (SyncHistory c) e false) (set_metrics add_dlq s)).

(** The common tail of an item that needs no further work. *)
Definition complete (c : CoordinatorConfig) (e : IngestEvent) (s : State) : State :=
  emit [OnSuccess e]
    (set_sync (recordSyncOutcome (SyncHistory c) e true) (set_metrics add_completed s)).

(** The worker at [k] acts on the verdict of its item; [ts] are the tasks of the
    other workers. *)
Definition act (c : CoordinatorConfig) (k : Stage) (it : stagedItem) (v : verdict)
    (ts : list task) (s : State) : State :=
  match v with
  | Forward it' => set_tasks ({| at_stage := k; doing := Sending; item := it' |} :: ts) s
  | Complete => complete c (evt it) (set_tasks ts s)
  | Dead e => routeDLQ c (evt it) e (set_tasks ts s)
  | Skip paused =>
      let s' := complete c (evt it) (set_metrics add_skipped (set_tasks ts s)) in
      if paused && IsKickoffEvent (evt it)
      then set_sync (FinishBackfillRun (SyncHistory c) (ev_TenantID (evt it))
                       (ev_SourceID (evt it)) SyncRuns.SyncStatusSucceeded) s'
      else s'
  end.

(** The best-effort hooks a worker runs before it decides. *)
Definition hooks_before (k : Stage) (it : stagedItem) : list effect :=
  match k with
  | S3 => if is_deletion (evt it)
          then [GraphDelete (ev_TenantID (evt it)) (ev_DocumentID (evt it))] else []
  | S4 => if is_deletion (evt it) then [] else [ScoreBlocks it]
  | _ => []
  end.

(** Admission by the breaker of the named stage, if one is configured. *)
Definition gate (now : Time) (stage : string)
    (bs : gmap string StageBreaker.StageCircuitBreaker)
    : bool * gmap string StageBreaker.StageCircuitBreaker :=
  match bs !! stage with
  | None => (true, bs)
  | Some b => let '(ok, b') := StageBreaker.Allow now b in (ok, <[stage := b']> bs)
  end.

Definition report (now : Time) (stage : string) (healthy : bool)
    (bs : gmap string StageBreaker.StageCircuitBreaker)
    : gmap string StageBreaker.StageCircuitBreaker :=
  match bs !! stage with
  | None => bs
  | Some b => <[stage := if healthy then StageBreaker.OnSuccess b
                         else StageBreaker.OnFailure now b]> bs
  end.

(** A worker that received [it]: the start of its loop body. *)
Definition begin (c : CoordinatorConfig) (k : Stage) (paused : bool) (fresh : string)
    (now : Time) (it : stagedItem) (ts : list task) (s : State) : State :=
  let s1 := match k with
            | S1 => set_sync (recordSyncStart (SyncHistory c) fresh (evt it)) s
            | _ => s
            end in
  let s2 := emit (hooks_before k it) s1 in
  match received k paused it with
  | Settle v => act c k it v ts s2
  | Call stage =>
      let '(ok, bs) := gate now stage (breakers s2) in
      let s3 := set_breakers bs s2 in
      if ok then set_tasks ({| at_stage := k; doing := Running; item := it |} :: ts) s3
      else act c k it (returned k it (Err breaker_open_error)) ts s3
  end.

(** The stage a running worker called. *)
Definition stage_name (k : Stage) (it : stagedItem) : string :=
  match k with
  | S1 => "fetch"
  | S2 => "parse"
  | S3 => "embed"
  | S4 => if is_deletion (evt it) then "delete" else "store"
  end.

(** What a successful stage call did outside, the graph enrichment included. *)
Definition hooks_after (k : Stage) (it : stagedItem) : result (value k) Retry.error → list effect :=
  match k with
  | S3 => λ r, match r with
               | Ok em => if is_deletion (evt it) then [] else [GraphEnrich (with_embeddings em it)]
               | Err _ => []
               end
  | S4 => λ r, match r with
               | Ok _ => [if is_deletion (evt it) then Deleted it else Stored it]
               | Err _ => []
               end
  | _ => λ _, []
  end.

(** The end of the loop body after the stage was called. *)
Definition finish (c : CoordinatorConfig) (k : Stage) (env : call_env (value k)) (now : Time)
    (it : stagedItem) (ts : list task) (s : State) : State :=
  let r := retry_loop (RetryCfg (defaults c)) env in
  let s1 := set_breakers (report now (stage_name k it) (healthy r) (breakers s)) s in
  act c k it (returned k it (out r)) ts (emit (hooks_after k it (out r)) s1).

(** The workers of stage [k] that hold an item. *)
Definition held (k : Stage) (s : State) : list stagedItem :=
  item <$> List.filter (λ t, bool_decide (at_stage t = k)) (tasks s).

Definition has_room (c : CoordinatorConfig) (k : Stage) (s : State) : Prop :=
  (Z.of_nat (length (queue s k)) < QueueSize (defaults c))%Z.

(** ** The interleaved system *)

(** The steps of the goroutines [Run] started, while the context lives. *)
Inductive worker `{Stages} (c : CoordinatorConfig) (s : State) : State → Prop :=
| worker_receive k it rest :
    queue s k = it :: rest → length (held k s) < alive s k →
    worker c s (set_tasks ({| at_stage := k; doing := Got; item := it |} :: tasks s)
                  (set_queue k rest s))
| worker_begin ts1 ts2 k it paused fresh now :
    tasks s = ts1 ++ {| at_stage := k; doing := Got; item := it |} :: ts2 →
    worker c s (begin c k paused fresh now it (ts1 ++ ts2) s)
| worker_finish ts1 ts2 k it (env : call_env (value k)) now :
    tasks s = ts1 ++ {| at_stage := k; doing := Running; item := it |} :: ts2 →
    (∀ n v, fn env n = Ok v → returns k it v) →
    worker c s (finish c k env now it (ts1 ++ ts2) s)
| worker_send ts1 ts2 k k' it :
    tasks s = ts1 ++ {| at_stage := k; doing := Sending; item := it |} :: ts2 →
    next k = Some k' → has_room c k' s →
    worker c s (set_queue k' (queue s k' ++ [it]) (set_tasks (ts1 ++ ts2) s))
| worker_exit k n :
    alive s k = S n → length (held k s) ≤ n → closed s k = true → queue s k = [] →
    worker c s (set_alive k n s)
| worker_close k k' :
    alive s k = 0 → next k = Some k' → closed s k' = false →
    worker c s (set_closed k' s).

Inductive step `{Stages} (c : CoordinatorConfig) (s : State) : State → Prop :=
| step_worker s' : worker c s s' → step c s s'
| step_submit e : closed s S1 = false →
    step c s (set_submits (e :: submitting s) (accepted s) (aborted s)
                (set_metrics add_submitted s))
| step_submitted l1 e l2 : submitting s = l1 ++ e :: l2 → closed s S1 = false → has_room c S1 s →
    step c s (set_queue S1 (queue s S1 ++ [stagedEvent e])
                (set_submits (l1 ++ l2) (accepted s ++ [e]) (aborted s) s))
| step_submit_aborted l1 e l2 : submitting s = l1 ++ e :: l2 →
    step c s (set_submits (l1 ++ l2) (accepted s) (aborted s ++ [e]) s)
| step_close_inputs : closed s S1 = false → step c s (set_closed S1 s)
| step_finish_run t src status :
    step c s (set_sync (FinishBackfillRun (SyncHistory c) t src status) s)
| step_cancel : step c s (set_cancelled s)
| step_cancelled_drop ts1 ts2 k it :
    cancelled s = true →
    tasks s = ts1 ++ {| at_stage := k; doing := Sending; item := it |} :: ts2 →
    step c s (set_dropped (dropped s ++ [evt it]) (set_tasks (ts1 ++ ts2) s))
| step_cancelled_exit k n :
    cancelled s = true → alive s k = S n → length (held k s) ≤ n →
    step c s (set_alive k n s).

Definition reachable `{Stages} (c : CoordinatorConfig)
    (bs : gmap string StageBreaker.StageCircuitBreaker) (s : State) : Prop :=
  rtc (step c) (NewCoordinator c bs) s.

(** ** One call of [runWithRetry] *)

(** The gate, whatever the others do to the breakers, the loop and the report are
    [runWithRetry]. *)
Lemma gate_report_runWithRetry {A} rc (env : call_env A) others t0 t1 stage bs :
  let '(ok, bs1) := gate t0 stage bs in
  let bs2 := alter others stage bs1 in
  let r := retry_loop rc env in
  (if ok then out r else Err breaker_open_error)
    = out (fst (runWithRetry rc env others t0 t1 (bs !! stage))) ∧
  (if ok then report t1 stage (healthy r) bs2 else bs1) !! stage
    = snd (runWithRetry rc env others t0 t1 (bs !! stage)).
Proof.
  unfold gate, report, runWithRetry. destruct (bs !! stage) as [b|] eqn:E; simpl.
  - destruct (StageBreaker.Allow t0 b) as [[] b1]; simpl.
    + rewrite lookup_alter_eq, lookup_insert_eq. simpl. by rewrite lookup_insert_eq.
    + by rewrite lookup_insert_eq.
  - split; [done|]. rewrite lookup_alter_eq, E. simpl. by rewrite lookup_alter_eq, E.
Qed.

End Pipeline.
End Coordinator.
