(* ===== verification/PipelineSafety.v ===== *)
(** * What the ingestion coordinator guarantees

    Theorems about the transition system of [Coordinator]: every submitted event
    is accounted for exactly once, no goroutine sends on a closed channel, a
    pipeline whose input was closed drains completely, and what Stage 4 writes is
    what the earlier stages produced for that event. *)

From S2P Require Import Prelude GoString StageBreaker Retry PipelineTypes Coordinator.
Import Retry Coordinator.

Module PipelineSafety.

Section Safety.
Context {vector : Type} `{St : @Stages vector}.
Implicit Types s : @State vector.
Implicit Types it : @stagedItem vector.
Implicit Types v : @verdict vector.

(** ** Counting events *)

Definition occ (e : IngestEvent) (l : list IngestEvent) : nat :=
  count_occ (λ x y, decide (x = y)) l e.

#[local] Arguments occ : simpl never.

Lemma occ_nil e : occ e [] = 0.
Proof. done. Qed.

Lemma occ_app e l l' : occ e (l ++ l') = occ e l + occ e l'.
Proof. apply count_occ_app. Qed.

Lemma occ_cons e x l : occ e (x :: l) = occ e [x] + occ e l.
Proof. apply (count_occ_app _ [x]). Qed.

Lemma occ_perm l l' : (∀ e, occ e l = occ e l') → l ≡ₚ l'.
Proof. intros H. by apply (Permutation_count_occ (λ x y, decide (x = y))). Qed.

Definition success_of (f : @effect vector) : option IngestEvent :=
  match f with OnSuccess e => Some e | _ => None end.
Definition dead_of (f : @effect vector) : option IngestEvent :=
  match f with OnDLQ e _ => Some e | _ => None end.

(** The events acknowledged to the consumer, and those dead-lettered. *)
Definition successes s : list IngestEvent := omap success_of (log s).
Definition deads s : list IngestEvent := omap dead_of (log s).

Definition queued s : list stagedItem := queue s S1 ++ queue s S2 ++ queue s S3 ++ queue s S4.

(** The events inside the pipeline: in a channel or in the hands of a worker. *)
Definition in_flight s : list IngestEvent :=
  (evt <$> queued s) ++ ((evt ∘ item) <$> tasks s).

Definition tot (e : IngestEvent) s : nat :=
  occ e (successes s) + occ e (deads s) + occ e (in_flight s) + occ e (dropped s).

(** The counters agree with the log. *)
Definition metered s : Prop :=
  Completed (Metrics s) = Z.of_nat (length (successes s)) ∧
  DLQ (Metrics s) = Z.of_nat (length (deads s)) ∧
  (0 ≤ Skipped (Metrics s) ≤ Completed (Metrics s))%Z ∧
  Submitted (Metrics s)
    = Z.of_nat (length (accepted s) + length (submitting s) + length (aborted s)).

Definition keeps_event (it : @stagedItem vector) (v : @verdict vector) : Prop :=
  match v with Forward it' => evt it' = evt it | _ => True end.

Lemma received_keeps k paused it v :
  received k paused it = Settle v → keeps_event it v.
Proof. destruct k; simpl; repeat case_match; intros; simplify_eq/=; done. Qed.

Lemma returned_keeps k it r : keeps_event it (returned k it r).
Proof. destruct k, r; simpl; try case_match; done. Qed.

Lemma occ_task e t ts : occ e ((evt ∘ item) <$> t :: ts)
  = occ e [evt (@item vector t)] + occ e ((evt ∘ item) <$> ts).
Proof. rewrite fmap_cons. apply occ_cons. Qed.

Lemma act_tot e c k it v ts s :
  keeps_event it v → tot e (act c k it v ts s) = tot e (set_tasks ts s) + occ e [evt it].
Proof.
  intros Hk. unfold tot, successes, deads, in_flight, queued.
  destruct v as [it'|paused| |err].
  - unfold act. cbn [tasks set_tasks log queue dropped]. simpl in Hk.
    rewrite !occ_app, occ_task. cbn [item]. rewrite Hk. lia.
  - simpl. case_match; simpl; rewrite !omap_app, !occ_app; simpl; rewrite ?occ_nil; lia.
  - simpl. rewrite !omap_app, !occ_app; simpl; rewrite ?occ_nil; lia.
  - simpl. rewrite !omap_app, !occ_app; simpl; rewrite ?occ_nil; lia.
Qed.

Lemma act_metered c k it v ts s :
  metered s → metered (act c k it v ts s).
Proof.
  unfold metered, successes, deads. intros (H1 & H2 & H3 & H4).
  destruct v as [it'|paused| |err]; simpl in *; [done|..]; try case_match; simpl;
    rewrite !omap_app, !length_app; simpl; lia.
Qed.

Definition silent (f : @effect vector) : bool :=
  match f with OnSuccess _ | OnDLQ _ _ => false | _ => true end.

Lemma omap_silent fs :
  forallb silent fs = true → omap success_of fs = [] ∧ omap dead_of fs = [].
Proof. induction fs as [|[] fs IH]; simpl; try done; intros H; by apply IH in H. Qed.

Lemma emit_silent fs s :
  forallb silent fs = true →
  successes (emit fs s) = successes s ∧ deads (emit fs s) = deads s.
Proof.
  intros [H1 H2]%omap_silent. unfold successes, deads. simpl.
  by rewrite !omap_app, H1, H2, !app_nil_r.
Qed.

Lemma hooks_before_silent k it : forallb silent (@hooks_before vector k it) = true.
Proof. destruct k; simpl; try case_match; done. Qed.

Lemma hooks_after_silent k it r : forallb silent (@hooks_after vector k it r) = true.
Proof. destruct k, r; simpl; try case_match; done. Qed.

(** [begin] and [finish] are [act] on a state that differs in the breakers, the
    backfill runs and silent effects only, or just mark the worker. *)
Definition same_books s s' : Prop :=
  queue s' = queue s ∧ tasks s' = tasks s ∧ alive s' = alive s ∧ closed s' = closed s ∧
  cancelled s' = cancelled s ∧ submitting s' = submitting s ∧ accepted s' = accepted s ∧
  aborted s' = aborted s ∧ dropped s' = dropped s ∧ Metrics s' = Metrics s ∧
  successes s' = successes s ∧ deads s' = deads s.

Lemma begin_cases c k paused fresh now it ts s :
  ∃ s0, same_books s s0 ∧
    ((∃ v, keeps_event it v ∧ begin c k paused fresh now it ts s = act c k it v ts s0) ∨
     begin c k paused fresh now it ts s
       = set_tasks ({| at_stage := k; doing := Running; item := it |} :: ts) s0).
Proof.
  unfold begin.
  set (s1 := match k with S1 => set_sync _ s | _ => s end).
  assert (H1 : same_books s (emit (hooks_before k it) s1)).
  { destruct (emit_silent (hooks_before k it) s1 (hooks_before_silent k it)) as [Ha Hb].
    subst s1. unfold same_books. destruct k; rewrite Ha, Hb; done. }
  set (s2 := emit _ s1) in *. clearbody s2. clear s1.
  destruct (received k paused it) as [v|stage] eqn:E.
  { exists s2. split; [done|]. left. exists v. split; [by eapply received_keeps|done]. }
  destruct (gate now stage (breakers s2)) as [[] bs]; exists (set_breakers bs s2); (split; [done|]).
  - by right.
  - left. eexists. split; [apply returned_keeps|done].
Qed.

Lemma finish_cases c k env now it ts s :
  ∃ s0 v, same_books s s0 ∧ keeps_event it v ∧ finish c k env now it ts s = act c k it v ts s0.
Proof.
  unfold finish. eexists _, _. split; [|split; [apply returned_keeps|reflexivity]].
  match goal with |- same_books _ (emit ?fs ?s1) =>
    destruct (emit_silent fs s1 (hooks_after_silent k it _)) as [Ha Hb] end.
  unfold same_books. rewrite Ha, Hb. done.
Qed.

Lemma same_books_tot e ts s s0 : same_books s s0 → tot e (set_tasks ts s0) = tot e (set_tasks ts s).
Proof.
  intros (Hq & _ & _ & _ & _ & _ & _ & _ & Hd & _ & Hs & Hx).
  unfold tot, in_flight, queued. simpl. rewrite Hq, Hd.
  change (successes (set_tasks ts s0)) with (successes s0).
  change (successes (set_tasks ts s)) with (successes s).
  change (deads (set_tasks ts s0)) with (deads s0).
  change (deads (set_tasks ts s)) with (deads s). by rewrite Hs, Hx.
Qed.

Lemma same_books_metered s s0 : same_books s s0 → metered s → metered s0.
Proof.
  intros (_ & _ & _ & _ & _ & H1 & H2 & H3 & _ & H4 & H5 & H6). unfold metered.
  by rewrite H1, H2, H3, H4, H5, H6.
Qed.

(** Taking a task out of the list. *)
Lemma tot_take e ts1 t ts2 s :
  tasks s = ts1 ++ t :: ts2 → tot e s = tot e (set_tasks (ts1 ++ ts2) s) + occ e [evt (item t)].
Proof.
  intros H. unfold tot, in_flight, queued. simpl. rewrite H.
  rewrite !fmap_app, fmap_cons, !occ_app, (occ_cons e ((evt ∘ item) t)). simpl.
  change (successes (set_tasks (ts1 ++ ts2) s)) with (successes s).
  change (deads (set_tasks (ts1 ++ ts2) s)) with (deads s). lia.
Qed.

Lemma tot_set_queue e k l s :
  tot e (set_queue k l s) + occ e (evt <$> queue s k) = tot e s + occ e (evt <$> l).
Proof.
  unfold tot, in_flight, queued. simpl.
  change (successes (set_queue k l s)) with (successes s).
  change (deads (set_queue k l s)) with (deads s).
  rewrite !fmap_app, !occ_app. unfold upd. destruct k; simpl; lia.
Qed.

Lemma worker_tot e c s s' : worker c s s' → tot e s' = tot e s.
Proof.
  destruct 1 as [k it rest Hq _|ts1 ts2 k it paused fresh now Ht|ts1 ts2 k it env now Ht _
    |ts1 ts2 k k' it Ht _ _| | ].
  - pose proof (tot_set_queue e k rest s) as H. rewrite Hq, fmap_cons, occ_cons in H.
    rewrite (tot_take e [] {| at_stage := k; doing := Got; item := it |} (tasks s)) by done.
    simpl in *. change (set_tasks (tasks s) _) with (set_queue k rest s). lia.
  - destruct (begin_cases c k paused fresh now it (ts1 ++ ts2) s)
      as (s0 & Hb & [(v & Hv & ->)| ->]).
    + rewrite act_tot by done. rewrite (same_books_tot e _ _ _ Hb). symmetry.
      exact (tot_take e ts1 _ ts2 s Ht).
    + rewrite (same_books_tot e _ _ _ Hb).
      rewrite (tot_take e ts1 _ ts2 s Ht).
      exact (tot_take e [] {| at_stage := k; doing := Running; item := it |} (ts1 ++ ts2)
               (set_tasks _ s) eq_refl).
  - destruct (finish_cases c k env now it (ts1 ++ ts2) s) as (s0 & v & Hb & Hv & ->).
    rewrite act_tot by done. rewrite (same_books_tot e _ _ _ Hb). symmetry.
    exact (tot_take e ts1 _ ts2 s Ht).
  - pose proof (tot_set_queue e k' (queue s k' ++ [it]) (set_tasks (ts1 ++ ts2) s)) as H.
    rewrite fmap_app, occ_app in H. simpl in H.
    rewrite (tot_take e ts1 _ ts2 s Ht). simpl. simpl in H. lia.
  - done.
  - done.
Qed.

(** ** Accounting *)

Definition account s : Prop := (∀ e, occ e (accepted s) = tot e s) ∧ metered s.

Lemma worker_metered c s s' : metered s → worker c s s' → metered s'.
Proof.
  intros Hm. destruct 1 as [| ts1 ts2 k it paused fresh now Ht|ts1 ts2 k it env now Ht _| | |];
    try exact Hm.
  - destruct (begin_cases c k paused fresh now it (ts1 ++ ts2) s)
      as (s0 & Hb & [(v & Hv & ->)| ->]); [apply act_metered|];
      exact (same_books_metered _ _ Hb Hm).
  - destruct (finish_cases c k env now it (ts1 ++ ts2) s) as (s0 & v & Hb & Hv & ->).
    apply act_metered. exact (same_books_metered _ _ Hb Hm).
Qed.

Lemma worker_accepted c s s' :
  worker c s s' →
  accepted s' = accepted s ∧ submitting s' = submitting s ∧ cancelled s' = cancelled s ∧
  closed s' S1 = closed s S1 ∧ dropped s' = dropped s.
Proof.
  assert (Hact : ∀ k it v ts s0, same_books s s0 →
    accepted (act c k it v ts s0) = accepted s ∧
    submitting (act c k it v ts s0) = submitting s ∧
    cancelled (act c k it v ts s0) = cancelled s ∧
    closed (act c k it v ts s0) S1 = closed s S1 ∧
    dropped (act c k it v ts s0) = dropped s).
  { intros k it v ts s0 (_ & _ & _ & Hc & Hx & Hs & Ha & _ & Hd & _).
    rewrite <- Hc, <- Hx, <- Hs, <- Ha, <- Hd. destruct v; simpl; try case_match; done. }
  destruct 1 as [|ts1 ts2 k it paused fresh now Ht|ts1 ts2 k it env now Ht _| | |k k' _ Hn _];
    try done.
  - destruct (begin_cases c k paused fresh now it (ts1 ++ ts2) s)
      as (s0 & Hb & [(v & Hv & ->)| ->]); [by apply Hact|].
    destruct Hb as (_ & _ & _ & Hc & Hx & Hs & Ha & _ & Hd & _). simpl.
    by rewrite Hc, Hx, Hs, Ha, Hd.
  - destruct (finish_cases c k env now it (ts1 ++ ts2) s) as (s0 & v & Hb & Hv & ->).
    by apply Hact.
  - simpl. unfold upd. destruct k; simplify_eq/=; done.
Qed.

Lemma step_account c s s' : account s → step c s s' → account s'.
Proof.
  intros [Ht Hm] Hstep.
  destruct Hstep as [s' Hw|e Hc|l1 e l2 Hs _ _|l1 e l2 Hs| | | |ts1 ts2 k it _ Hts|];
    try (by split).
  - split; [|by eapply worker_metered].
    intros e. rewrite (worker_tot e c s s' Hw).
    by destruct (worker_accepted c s s' Hw) as [-> _].
  - split; [exact Ht|]. destruct Hm as (H1 & H2 & H3 & H4). unfold metered. simpl.
    repeat split; try done; lia.
  - split.
    + intros e'. pose proof (tot_set_queue e' S1 (queue s S1 ++ [stagedEvent e])
        (set_submits (l1 ++ l2) (accepted s ++ [e]) (aborted s) s)) as H. simpl in *.
      rewrite fmap_app, occ_app in H. simpl in H. rewrite occ_app, Ht.
      change (tot e' (set_submits _ _ _ s)) with (tot e' s) in H. lia.
    + destruct Hm as (H1 & H2 & H3 & H4). unfold metered. simpl.
      rewrite Hs, !length_app in *. simpl in *. repeat split; try done; lia.
  - split; [exact Ht|]. destruct Hm as (H1 & H2 & H3 & H4). unfold metered. simpl.
    rewrite Hs, !length_app in *. simpl in *. repeat split; try done; lia.
  - split; [|exact Hm]. intros e. rewrite Ht, (tot_take e ts1 _ ts2 s Hts).
    unfold tot. simpl. rewrite occ_app.
    change (successes (set_dropped _ _)) with (successes (set_tasks (ts1 ++ ts2) s)).
    change (deads (set_dropped _ _)) with (deads (set_tasks (ts1 ++ ts2) s)).
    change (in_flight (set_dropped _ _)) with (in_flight (set_tasks (ts1 ++ ts2) s)). lia.
Qed.

Lemma reachable_account c bs s : reachable c bs s → account s.
Proof.
  apply rtc_preserves; [apply step_account|]. split; [done|]. repeat split; simpl; lia.
Qed.

(** C3: Every event is accounted for: the events accepted by [Submit] are, as a
    multiset, those acknowledged with [OnSuccess], those handed to [OnDLQ], those
    still in a channel or with a worker, and those dropped after the context
    ended; none is both acknowledged and dead-lettered or reported twice. The
    metrics count exactly these events. *)
Theorem coordinator_accounts c bs s :
  reachable c bs s →
  accepted s ≡ₚ successes s ++ deads s ++ in_flight s ++ dropped s ∧
  Completed (Metrics s) = Z.of_nat (length (successes s)) ∧
  DLQ (Metrics s) = Z.of_nat (length (deads s)) ∧
  (Skipped (Metrics s) ≤ Completed (Metrics s))%Z ∧
  Submitted (Metrics s)
    = Z.of_nat (length (accepted s) + length (submitting s) + length (aborted s)).
Proof.
  intros Hr. destruct (reachable_account c bs s Hr) as [Ht (H1 & H2 & H3 & H4)].
  split; [|by repeat split; try lia].
  apply occ_perm. intros e. rewrite Ht, !occ_app. unfold tot. lia.
Qed.

(** ** Channels and workers *)

Definition nheld (k : Stage) (ts : list (@task vector)) : nat :=
  length (List.filter (λ t, bool_decide (at_stage t = k)) ts).

Lemma held_nheld k s : length (held k s) = nheld k (tasks s).
Proof. apply length_fmap. Qed.

Lemma nheld_app k ts ts' : nheld k (ts ++ ts') = nheld k ts + nheld k ts'.
Proof. unfold nheld. by rewrite List.filter_app, length_app. Qed.

Lemma nheld_cons k t ts :
  nheld k (t :: ts) = (if decide (at_stage t = k) then 1 else 0) + nheld k ts.
Proof. unfold nheld. simpl. case_bool_decide; case_decide; simpl; done. Qed.

(** No channel is closed while a worker upstream may still send on it, and a
    stage without workers has, unless the context ended, emptied its channel. *)
Record shape s : Prop := {
  shape_held : ∀ k, nheld k (tasks s) ≤ alive s k;
  shape_closed : ∀ k k', next k = Some k' → closed s k' = true → alive s k = 0;
  shape_gone : ∀ k, alive s k = 0 → cancelled s = true ∨ (closed s k = true ∧ queue s k = []);
  shape_dropped : dropped s ≠ [] → cancelled s = true
}.

(** States that differ in the tasks, and in books without influence here. *)
Lemma shape_tasks s s' :
  shape s → queue s' = queue s → alive s' = alive s → closed s' = closed s →
  cancelled s' = cancelled s → dropped s' = dropped s →
  (∀ k, nheld k (tasks s') ≤ nheld k (tasks s)) → shape s'.
Proof.
  intros [H1 H2 H3 H4] Hq Ha Hc Hx Hd Hn.
  split; rewrite ?Hq, ?Ha, ?Hc, ?Hx, ?Hd; try done.
  intros k. etrans; [apply Hn|apply H1].
Qed.

Lemma act_tasks c k it v ts s :
  tasks (act c k it v ts s) =
  match v with
  | Forward it' => {| at_stage := k; doing := Sending; item := it' |} :: ts
  | _ => ts
  end.
Proof. destruct v; simpl; try case_match; done. Qed.

Lemma act_shape c k it v ts1 ts2 d it0 s s0 :
  shape s → same_books s s0 →
  tasks s = ts1 ++ {| at_stage := k; doing := d; item := it0 |} :: ts2 →
  shape (act c k it v (ts1 ++ ts2) s0).
Proof.
  intros Hs (Hq & _ & Ha & Hc & Hx & _ & _ & _ & Hd & _) Ht.
  eapply (shape_tasks s); [done|..];
    try (by destruct v; simpl; try case_match).
  intros k'. rewrite Ht, !nheld_app, nheld_cons. cbn [at_stage].
  rewrite act_tasks.
  destruct v as [it'|p| |e]; rewrite ?nheld_cons, nheld_app; cbn [at_stage]; lia.
Qed.

Lemma next_inj k1 k2 k : next k1 = Some k → next k2 = Some k → k1 = k2.
Proof. destruct k1, k2; simpl; congruence. Qed.

Lemma receive_shape s k it rest :
  shape s → queue s k = it :: rest → length (held k s) < alive s k →
  shape (set_tasks ({| at_stage := k; doing := Got; item := it |} :: tasks s)
           (set_queue k rest s)).
Proof.
  intros [H1 H2 H3 H4] Hq Hlt. rewrite held_nheld in Hlt. split; simpl; try done.
  - intros k'. rewrite nheld_cons. cbn [at_stage]. case_decide; subst; [lia|]. apply H1.
  - intros k' Ha. unfold upd. case_decide; subst; [lia|]. by apply H3.
Qed.

Lemma send_shape s ts1 ts2 k k' it :
  shape s → tasks s = ts1 ++ {| at_stage := k; doing := Sending; item := it |} :: ts2 →
  next k = Some k' →
  shape (set_queue k' (queue s k' ++ [it]) (set_tasks (ts1 ++ ts2) s)).
Proof.
  intros [H1 H2 H3 H4] Ht Hn.
  assert (Hk : 0 < alive s k).
  { specialize (H1 k). rewrite Ht, nheld_app, nheld_cons in H1. cbn [at_stage] in H1.
    case_decide; [lia|done]. }
  split; simpl; try done.
  - intros j. specialize (H1 j). rewrite Ht, nheld_app, nheld_cons in H1. rewrite nheld_app. lia.
  - intros j Hj. unfold upd. destruct (H3 j Hj) as [?|[Hc Hq]]; [by left|right].
    case_decide; [|done]. subst. specialize (H2 k k' Hn Hc). lia.
Qed.

Lemma exit_shape s k n :
  shape s → alive s k = S n → length (held k s) ≤ n →
  (cancelled s = true ∨ closed s k = true ∧ queue s k = []) → shape (set_alive k n s).
Proof.
  intros [H1 H2 H3 H4] Ha Hh Hgo. rewrite held_nheld in Hh. split; simpl; try done; unfold upd.
  - intros j. case_decide; subst; [done|apply H1].
  - intros j k' Hn Hc. specialize (H2 j k' Hn Hc). case_decide; subst; [lia|done].
  - intros j. case_decide; subst; [done|apply H3].
Qed.

Lemma closed_shape s k' :
  shape s → (∀ k, next k = Some k' → alive s k = 0) → shape (set_closed k' s).
Proof.
  intros [H1 H2 H3 H4] Ha. split; simpl; try done; unfold upd.
  - intros j j' Hn. case_decide; subst; [by intros _; apply Ha|by apply H2].
  - intros j Hj. destruct (H3 j Hj) as [?|[??]]; [by left|right]. by case_decide.
Qed.

Lemma worker_shape c s s' : shape s → worker c s s' → shape s'.
Proof.
  intros Hs.
  destruct 1 as [k it rest Hq Hlt|ts1 ts2 k it paused fresh now Ht|ts1 ts2 k it env now Ht _
    |ts1 ts2 k k' it Ht Hn _|k n Ha Hh Hc Hq|k k' Ha Hn _].
  - by apply receive_shape.
  - destruct (begin_cases c k paused fresh now it (ts1 ++ ts2) s)
      as (s0 & Hb & [(v & Hv & ->)| ->]); [by eapply act_shape|].
    destruct Hb as (Hq & _ & Ha & Hc & Hx & _ & _ & _ & Hd & _).
    apply (shape_tasks s); try done. intros k'. simpl. rewrite Ht.
    rewrite nheld_cons, !nheld_app, nheld_cons. cbn [at_stage]. lia.
  - destruct (finish_cases c k env now it (ts1 ++ ts2) s) as (s0 & v & Hb & Hv & ->).
    by eapply act_shape.
  - by eapply send_shape.
  - apply exit_shape; auto.
  - apply closed_shape; [done|]. intros k2 Hk2. by rewrite (next_inj k2 k k').
Qed.

Lemma step_shape c s s' : shape s → step c s s' → shape s'.
Proof.
  intros Hs Hstep.
  destruct Hstep as [s' Hw|e Hc|l1 e l2 _ Hc _|l1 e l2 _|Hc|t src st| |ts1 ts2 k it Hx Ht|k n Hx Ha Hh].
  - by eapply worker_shape.
  - by apply (shape_tasks s).
  - destruct Hs as [H1 H2 H3 H4]. split; simpl; try done. intros k Hk. unfold upd.
    destruct (H3 k Hk) as [?|[Hc' Hq]]; [by left|right]. case_decide; [congruence|done].
  - by apply (shape_tasks s).
  - apply closed_shape; [done|]. by intros [].
  - by apply (shape_tasks s).
  - destruct Hs as [H1 H2 H3 H4]. split; simpl; auto.
  - destruct Hs as [H1 H2 H3 H4]. split; simpl; auto. intros k'. specialize (H1 k').
    rewrite Ht, nheld_app, nheld_cons in H1. rewrite nheld_app. lia.
  - apply exit_shape; auto.
Qed.

Lemma reachable_shape c bs s : reachable c bs s → shape s.
Proof.
  apply rtc_preserves; [apply step_shape|]. split; simpl; try done.
  - intros k. apply Nat.le_0_l.
  - intros k Hk. case_match eqn:E; simpl in *; [done|]. apply Z.ltb_ge in E. lia.
Qed.

(** A worker has an item to send on the channel of [k']. *)
Definition about_to_send (k' : Stage) s : Prop :=
  ∃ t, t ∈ tasks s ∧ doing t = Sending ∧ next (at_stage t) = Some k'.

(** No panic: whenever a worker is about to send an item downstream, the
    channel it sends on is open. *)
Theorem no_send_on_closed_channel c bs s k' :
  reachable c bs s → about_to_send k' s → closed s k' = false.
Proof.
  intros Hr (t & Ht & _ & Hn). destruct (reachable_shape c bs s Hr) as [H1 H2 _ _].
  destruct (closed s k') eqn:Hc; [|done].
  specialize (H1 (at_stage t)). rewrite (H2 _ k' Hn Hc) in H1.
  apply list_elem_of_split in Ht as (ts1 & ts2 & Ht).
  rewrite Ht, nheld_app, nheld_cons in H1. case_decide; [lia|done].
Qed.

(** ** Draining *)

(** Stage 4 has nothing to send on. *)
Definition senders_ok s : Prop :=
  Forall (λ t, doing t = Sending → next (at_stage t) ≠ None) (tasks s).

Definition moves_on (k : Stage) v : Prop :=
  match v with Forward _ => next k ≠ None | _ => True end.

Lemma received_moves k paused it v : received k paused it = Settle v → moves_on k v.
Proof. destruct k; simpl; repeat case_match; intros; simplify_eq/=; done. Qed.

Lemma returned_moves k it r : moves_on k (returned k it r).
Proof. destruct k, r; simpl; try case_match; done. Qed.

Lemma act_senders c k it v ts s :
  Forall (λ t, doing t = Sending → next (at_stage t) ≠ None) ts → moves_on k v →
  senders_ok (act c k it v ts s).
Proof.
  intros Hts Hv. unfold senders_ok. rewrite act_tasks.
  destruct v; try done. by constructor.
Qed.

(** The tasks after [begin]: the item is settled, or the worker is running. *)
Lemma begin_tasks c k paused fresh now it ts s :
  (∃ v, moves_on k v ∧ tasks (begin c k paused fresh now it ts s) =
     match v with
     | Forward it' => {| at_stage := k; doing := Sending; item := it' |} :: ts
     | _ => ts
     end) ∨
  tasks (begin c k paused fresh now it ts s)
    = {| at_stage := k; doing := Running; item := it |} :: ts.
Proof.
  unfold begin. destruct (received k paused it) as [v|stage] eqn:E.
  - left. exists v. rewrite act_tasks. split; [by eapply received_moves|done].
  - destruct (gate _ _ _) as [[] bs]; [by right|left].
    eexists. rewrite act_tasks. split; [apply returned_moves|done].
Qed.

Lemma step_senders c s s' : senders_ok s → step c s s' → senders_ok s'.
Proof.
  unfold senders_ok. intros Hs Hstep.
  destruct Hstep as [s' Hw| | | | | | |ts1 ts2 k it _ Ht|]; try exact Hs.
  2: { rewrite Ht, Forall_app, Forall_cons in Hs. simpl. apply Forall_app. tauto. }
  destruct Hw as [k it rest Hq Hlt|ts1 ts2 k it paused fresh now Ht|ts1 ts2 k it env now Ht _
    |ts1 ts2 k k' it Ht Hn _|k n Ha Hh Hc Hq|k k' Ha Hn _]; try exact Hs.
  - simpl. by constructor.
  - rewrite Ht, Forall_app, Forall_cons in Hs. destruct Hs as (Hs1 & _ & Hs2).
    destruct (begin_tasks c k paused fresh now it (ts1 ++ ts2) s) as [(v & Hv & ->)| ->].
    + pose proof (Forall_app_2 _ _ _ Hs1 Hs2). destruct v; try done. by constructor.
    + constructor; [done|by apply Forall_app_2].
  - rewrite Ht, Forall_app, Forall_cons in Hs. destruct Hs as (Hs1 & _ & Hs2).
    apply act_senders; [by apply Forall_app_2|apply returned_moves].
  - rewrite Ht, Forall_app, Forall_cons in Hs. simpl. apply Forall_app. tauto.
Qed.

Lemma reachable_senders c bs s : reachable c bs s → senders_ok s.
Proof. apply rtc_preserves; [apply step_senders|]. constructor. Qed.

(** The steps an item in the channel of a stage, or with its worker, has left. *)
Definition weight (k : Stage) : nat :=
  match k with S1 => 16 | S2 => 12 | S3 => 8 | S4 => 4 end.
Definition task_weight (t : @task vector) : nat :=
  weight (at_stage t) - match doing t with Got => 1 | Running => 2 | Sending => 3 end.
Definition still_open (b : bool) : nat := if b then 0 else 1.

Definition work s : nat :=
  16 * length (queue s S1) + 12 * length (queue s S2)
  + 8 * length (queue s S3) + 4 * length (queue s S4)
  + sum_list_with task_weight (tasks s)
  + (alive s S1 + alive s S2 + alive s S3 + alive s S4)
  + (still_open (closed s S2) + still_open (closed s S3) + still_open (closed s S4)).

Lemma sum_take ts1 t ts2 :
  sum_list_with task_weight (ts1 ++ t :: ts2)
  = sum_list_with task_weight (ts1 ++ ts2) + task_weight t.
Proof. rewrite !sum_list_with_app. simpl. lia. Qed.

(** The part of [work] outside the tasks. *)
Definition rest_work s : nat :=
  16 * length (queue s S1) + 12 * length (queue s S2)
  + 8 * length (queue s S3) + 4 * length (queue s S4)
  + (alive s S1 + alive s S2 + alive s S3 + alive s S4)
  + (still_open (closed s S2) + still_open (closed s S3) + still_open (closed s S4)).

Lemma work_split s : work s = rest_work s + sum_list_with task_weight (tasks s).
Proof. unfold work, rest_work. lia. Qed.

Lemma act_rest c k it v ts s : rest_work (act c k it v ts s) = rest_work s.
Proof. destruct v; simpl; try case_match; done. Qed.

(** Settling an item takes weight off its worker. *)
Lemma settle_weight k v d it ts :
  d ≠ Sending → moves_on k v →
  sum_list_with task_weight
    match v with
    | Forward it' => {| at_stage := k; doing := Sending; item := it' |} :: ts
    | _ => ts
    end
  < sum_list_with task_weight ts + task_weight {| at_stage := k; doing := d; item := it |}.
Proof.
  intros Hd Hv.
  assert (Hw : ∀ it', next k ≠ None →
    task_weight {| at_stage := k; doing := Sending; item := it' |}
    < task_weight {| at_stage := k; doing := d; item := it |}).
  { intros it' Hn. unfold task_weight. cbn [at_stage doing]. destruct k, d; simpl; lia || done. }
  assert (Hp : 0 < task_weight {| at_stage := k; doing := d; item := it |}).
  { unfold task_weight. cbn [at_stage doing]. destruct k, d; simpl in *; lia || congruence. }
  destruct v as [it'|p| |e]; simpl in *; [specialize (Hw it' Hv)|..]; lia.
Qed.

Lemma act_work c k it v ts1 ts2 d s s0 :
  rest_work s0 = rest_work s → d ≠ Sending → moves_on k v →
  tasks s = ts1 ++ {| at_stage := k; doing := d; item := it |} :: ts2 →
  work (act c k it v (ts1 ++ ts2) s0) < work s.
Proof.
  intros Hb Hd Hv Ht. rewrite !work_split, act_rest, act_tasks, Hb, Ht, sum_take.
  pose proof (settle_weight k v d it (ts1 ++ ts2) Hd Hv). lia.
Qed.

Lemma rest_set_queue k l s :
  rest_work (set_queue k l s) + weight k * length (queue s k)
  = rest_work s + weight k * length l.
Proof. unfold rest_work. simpl. unfold upd. destruct k; simpl; lia. Qed.

Lemma running_lighter k it :
  task_weight {| at_stage := k; doing := Running; item := it |}
  < task_weight {| at_stage := k; doing := Got; item := it |}.
Proof. unfold task_weight. destruct k; simpl; lia. Qed.

Lemma worker_work c s s' : worker c s s' → work s' < work s.
Proof.
  destruct 1 as [k it rest Hq Hlt|ts1 ts2 k it paused fresh now Ht|ts1 ts2 k it env now Ht _
    |ts1 ts2 k k' it Ht Hn _|k n Ha Hh Hc Hq|k k' Ha Hn Hc].
  - pose proof (rest_set_queue k rest s) as H. rewrite Hq in H.
    rewrite !work_split. change (rest_work (set_tasks _ ?x)) with (rest_work x). simpl in *.
    unfold task_weight at 1. cbn [at_stage doing]. destruct k; simpl in *; lia.
  - unfold begin.
    set (s2 := emit _ _).
    assert (H2 : rest_work s2 = rest_work s) by (by destruct k).
    destruct (received k paused it) as [v|stage] eqn:E.
    + eapply (act_work _ _ _ _ _ _ Got); [exact H2|done|by eapply received_moves|exact Ht].
    + destruct (gate _ _ _) as [[] bs].
      * rewrite !work_split, Ht, sum_take. change (rest_work (set_tasks _ _)) with (rest_work s2).
        rewrite H2. cbn [tasks set_tasks sum_list_with].
        pose proof (running_lighter k it). lia.
      * eapply (act_work _ _ _ _ _ _ Got); [exact H2|done|apply returned_moves|exact Ht].
  - unfold finish. by eapply (act_work _ _ _ _ _ _ Running); [|done|apply returned_moves|exact Ht].
  - pose proof (rest_set_queue k' (queue s k' ++ [it]) s) as H. rewrite length_app in H.
    rewrite !work_split. cbn [set_queue set_tasks tasks].
    change (rest_work _) with (rest_work (set_queue k' (queue s k' ++ [it]) s)) at 1.
    rewrite Ht, sum_take. unfold task_weight at 3. cbn [at_stage doing].
    destruct k; simplify_eq/=; lia.
  - unfold work. simpl. unfold upd. destruct k; simpl; rewrite Ha; lia.
  - unfold work. simpl. unfold upd. destruct k; simplify_eq/=; rewrite Hc; simpl; lia.
Qed.

(** *** Progress *)

Section Progress.
Context (c : CoordinatorConfig) (s : @State vector).
Hypothesis Hshape : shape s.
Hypothesis Hsenders : senders_ok s.
Hypothesis Hlive : cancelled s = false.
Hypothesis Hroom : (0 < QueueSize (defaults c))%Z.

Definition can_move : Prop := ∃ s', worker c s s'.

Lemma nonempty_has_worker k : queue s k ≠ [] → 0 < alive s k.
Proof.
  intros Hq. destruct (alive s k) eqn:Ha; [|lia].
  destruct (shape_gone _ Hshape k Ha) as [?|[_ ?]]; congruence.
Qed.

Lemma nheld_task k : nheld k (tasks s) ≠ 0 → ∃ t, t ∈ tasks s ∧ at_stage t = k.
Proof.
  unfold nheld. intros Hn.
  destruct (List.filter _ (tasks s)) as [|t l] eqn:E; [done|].
  assert (Ht : t ∈ List.filter (λ t, bool_decide (at_stage t = k)) (tasks s))
    by (rewrite E; by left).
  apply elem_of_filterb in Ht as [Hb%bool_decide_eq_true Ht]. eauto.
Qed.

(** A channel with something in it is received from, or its workers are busy. *)
Lemma queue_moves k :
  (∀ t, t ∈ tasks s → at_stage t = k → can_move) → queue s k ≠ [] → can_move.
Proof.
  intros Ht Hq. pose proof (nonempty_has_worker k Hq) as Ha.
  destruct (decide (nheld k (tasks s) < alive s k)) as [Hlt|Hge].
  - destruct (queue s k) as [|it rest] eqn:E; [done|].
    eexists. eapply worker_receive; [exact E|]. by rewrite held_nheld.
  - destruct (nheld_task k) as (t & Hin & Hk); [lia|]. by eapply Ht.
Qed.

Lemma task_moves k :
  (∀ k' t, next k = Some k' → t ∈ tasks s → at_stage t = k' → can_move) →
  ∀ t, t ∈ tasks s → at_stage t = k → can_move.
Proof.
  intros Hdown [k0 d it] Hin <-; simpl in *.
  pose proof Hin as (ts1 & ts2 & Ht)%list_elem_of_split.
  destruct d.
  - eexists. by apply (worker_begin c s ts1 ts2 k0 it false EmptyString 0).
  - eexists. apply (worker_finish c s ts1 ts2 k0 it
      (Build_call_env (λ _, Err breaker_open_error) (λ _, false) breaker_open_error) 0); done.
  - pose proof (proj1 (Forall_forall _ _) Hsenders _ Hin eq_refl) as Hn; simpl in Hn.
    destruct (next k0) as [k'|] eqn:Hnext; [|done].
    destruct (decide (Z.of_nat (length (queue s k')) < QueueSize (defaults c))%Z) as [Hr|Hr].
    + eexists. by eapply worker_send.
    + apply (queue_moves k'); [by intros t; apply Hdown|].
      intros Hnil. rewrite Hnil in Hr. simpl in Hr. lia.
Qed.

Lemma any_task_moves t : t ∈ tasks s → can_move.
Proof.
  assert (H4 : ∀ t, t ∈ tasks s → at_stage t = S4 → can_move) by (by apply task_moves).
  assert (H3 : ∀ t, t ∈ tasks s → at_stage t = S3 → can_move)
    by (apply task_moves; intros k' t' [= <-]; apply H4).
  assert (H2 : ∀ t, t ∈ tasks s → at_stage t = S2 → can_move)
    by (apply task_moves; intros k' t' [= <-]; apply H3).
  assert (H1 : ∀ t, t ∈ tasks s → at_stage t = S1 → can_move)
    by (apply task_moves; intros k' t' [= <-]; apply H2).
  intros Hin. destruct (at_stage t) eqn:E; eauto.
Qed.

(** With nothing in flight, the workers of a closed channel leave, and the
    channel downstream of a stage without workers is closed. *)
Lemma idle_moves k :
  tasks s = [] → queue s k = [] → closed s k = true → alive s k ≠ 0 → can_move.
Proof.
  intros Ht Hq Hc Ha. destruct (alive s k) as [|n] eqn:E; [done|].
  eexists. eapply worker_exit; [exact E| |done|done]. rewrite held_nheld, Ht. apply Nat.le_0_l.
Qed.

Lemma idle_next k k' :
  next k = Some k' → tasks s = [] → queue s k' = [] → alive s k = 0 → alive s k' ≠ 0 → can_move.
Proof.
  intros Hn Ht Hq Ha Ha'. destruct (closed s k') eqn:Hc; [by apply (idle_moves k')|].
  eexists. by eapply worker_close.
Qed.

Lemma progress k : closed s S1 = true → alive s k ≠ 0 → can_move.
Proof.
  intros Hc Ha. destruct (tasks s) as [|t ts] eqn:Ht.
  2: { apply (any_task_moves t). rewrite Ht. by left. }
  assert (Hq : ∀ k, queue s k = [] ∨ can_move).
  { intros j. destruct (queue s j) eqn:E; [by left|right].
    apply (queue_moves j); [|by rewrite E]. intros t. rewrite Ht. by intros ?%elem_of_nil. }
  destruct (Hq S1) as [Q1|]; [|done]. destruct (Hq S2) as [Q2|]; [|done].
  destruct (Hq S3) as [Q3|]; [|done]. destruct (Hq S4) as [Q4|]; [|done].
  destruct (decide (alive s S1 = 0)) as [A1|]; [|by apply (idle_moves S1)].
  destruct (decide (alive s S2 = 0)) as [A2|]; [|by apply (idle_next S1 S2)].
  destruct (decide (alive s S3 = 0)) as [A3|]; [|by apply (idle_next S2 S3)].
  apply (idle_next S3 S4); try done. by destruct k.
Qed.

End Progress.

(** All workers returned. *)
Definition all_returned s : Prop :=
  alive s S1 = 0 ∧ alive s S2 = 0 ∧ alive s S3 = 0 ∧ alive s S4 = 0.

#[export] Instance all_returned_dec s : Decision (all_returned s).
Proof. apply _. Defined.

Lemma returned_empty s : shape s → cancelled s = false → all_returned s → in_flight s = [].
Proof.
  intros Hs Hx (A1 & A2 & A3 & A4). unfold in_flight, queued.
  assert (HQ : ∀ k, alive s k = 0 → queue s k = []).
  { intros k Ha. destruct (shape_gone _ Hs k Ha) as [?|[_ ?]]; congruence. }
  rewrite !HQ by done. simpl. destruct (tasks s) as [|t ts] eqn:Ht; [done|].
  pose proof (shape_held _ Hs (at_stage t)) as H. rewrite Ht, nheld_cons in H.
  case_decide; [|done]. destruct (at_stage t); lia.
Qed.

(** C11: Shutdown loses nothing: after [CloseInputs], with a live context, the
    goroutines of [Run] take boundedly many steps; until all workers have
    returned one of them can always move (back-pressure never deadlocks the
    pipeline); and when they have, every accepted event was either acknowledged
    or dead-lettered. *)
Theorem closed_pipeline_drains c bs s :
  reachable c bs s → cancelled s = false → closed s S1 = true →
  (0 < QueueSize (defaults c))%Z →
  (∀ n s', nsteps (worker c) n s s' → n ≤ work s) ∧
  (∀ s', rtc (worker c) s s' →
     if decide (all_returned s') then accepted s' ≡ₚ successes s' ++ deads s'
     else ∃ s'', worker c s' s'').
Proof.
  intros Hr Hx Hc HQ. split.
  - intros n s' Hn. cut (n + work s' ≤ work s); [lia|].
    clear -Hn. induction Hn as [x|n x y z Hxy _ IH]; [lia|].
    pose proof (worker_work c x y Hxy). lia.
  - intros s' Hrun.
    assert (HI : reachable c bs s' ∧ cancelled s' = false ∧ closed s' S1 = true).
    { apply (rtc_preserves (worker c)
        (λ x, reachable c bs x ∧ cancelled x = false ∧ closed x S1 = true) s s'); [|done|done].
      intros a b (Ha & Ha1 & Ha2) Hab.
      destruct (worker_accepted c a b Hab) as (_ & _ & -> & -> & _).
      split; [|done]. eapply rtc_r; [exact Ha|by apply step_worker]. }
    destruct HI as (Hr' & Hx' & Hc'). pose proof (reachable_shape c bs s' Hr') as Hs.
    destruct (decide (all_returned s')) as [Hall|Hno].
    + apply occ_perm. intros e. destruct (reachable_account c bs s' Hr') as [Ht _].
      rewrite Ht. unfold tot. rewrite returned_empty by done.
      assert (Hd : dropped s' = []).
      { destruct (dropped s') eqn:E; [done|]. rewrite (shape_dropped _ Hs) in Hx'; [done|].
        by rewrite E. }
      rewrite Hd, occ_app, !occ_nil. lia.
    + assert (Hk : ∃ k, alive s' k ≠ 0).
      { destruct (decide (alive s' S1 = 0)); [|by exists S1].
        destruct (decide (alive s' S2 = 0)); [|by exists S2].
        destruct (decide (alive s' S3 = 0)); [|by exists S3].
        exists S4. intros ?. by apply Hno. }
      destruct Hk as [k Hk].
      by apply (progress c s' Hs (reachable_senders c bs s' Hr') Hx' HQ k).
Qed.

(** ** Provenance *)

Definition fetched it : Prop :=
  if is_deletion (evt it) then doc it = Some (deletion_doc (evt it))
  else ∃ d, doc it = Some d ∧ fetches (evt it) d.

Definition parsed it : Prop :=
  if is_deletion (evt it) then blocks it = []
  else ∃ d, doc it = Some d ∧ fetches (evt it) d ∧ parses d (blocks it).

Definition embedded it : Prop :=
  (blocks it = [] ∧ embeddings it = []) ∨
  embeds (evt it) (blocks it) (embeddings it, modelID it).

(** What an item carries when it reaches a stage. *)
Definition good (k : Stage) it : Prop :=
  match k with
  | S1 => it = stagedEvent (evt it)
  | S2 => fetched it ∧ blocks it = [] ∧ embeddings it = []
  | S3 => parsed it ∧ embeddings it = []
  | S4 => parsed it ∧ embedded it
  end.

Definition good_next (k : Stage) it : Prop := ∀ k', next k = Some k' → good k' it.

Definition good_task (t : @task vector) : Prop :=
  match doing t with
  | Got => good (at_stage t) (item t)
  | Running => good (at_stage t) (item t) ∧
               ∃ stage, received (at_stage t) false (item t) = Call stage
  | Sending => good_next (at_stage t) (item t)
  end.

Definition good_effect (f : @effect vector) : Prop :=
  match f with
  | Stored it => is_deletion (evt it) = false ∧ good S4 it
  | Deleted it => is_deletion (evt it) = true
  | _ => True
  end.

Record provenance s : Prop := {
  prov_queue : ∀ k, Forall (good k) (queue s k);
  prov_tasks : Forall good_task (tasks s);
  prov_log : Forall good_effect (log s)
}.

Definition good_verdict (k : Stage) v : Prop :=
  match v with Forward it' => good_next k it' | _ => True end.

Lemma received_good k paused it v :
  good k it → received k paused it = Settle v → good_verdict k v.
Proof.
  intros Hg. destruct k; simpl; repeat case_match; intros; simplify_eq/=; try done;
    intros k' [= <-]; simpl in *.
  - rewrite Hg. unfold fetched. simpl. repeat split.
    match goal with H : is_deletion _ = true |- _ => by rewrite H end.
  - destruct Hg as (_ & Hb & He). unfold parsed. split; [|done].
    match goal with H : is_deletion _ = true |- _ => by rewrite H end.
  - destruct Hg as [Hp He]. split; [done|]. by left.
Qed.

Lemma received_paused k paused it stage :
  received k paused it = Call stage → received k false it = Call stage.
Proof. destruct k; simpl; try done. by destruct paused. Qed.

Lemma returned_good k it (r : result (value k) Retry.error) :
  good k it → (∃ stage, received k false it = Call stage) →
  (∀ x, r = Ok x → returns k it x) → good_verdict k (returned k it r).
Proof.
  intros Hg [stage Hc] Hr.
  destruct k, r as [v|e]; simpl in *; repeat case_match; simplify_eq/=; try done;
    specialize (Hr _ eq_refl); intros k' [= <-]; simpl in *.
  - rewrite Hg. unfold fetched; simpl. rewrite Hg in *; simpl in *.
    match goal with H : is_deletion _ = false |- _ => rewrite H end. by eauto.
  - destruct Hg as (Hf & _ & He). unfold parsed, fetched in *; simpl in *.
    match goal with H : is_deletion _ = false |- _ => rewrite H in * end.
    split; [|done]. destruct Hf as (d & Hd & Hf), Hr as (d' & Hd' & Hp).
    exists d. by simplify_eq.
  - destruct Hg as (Hp & _). split; [exact Hp|]. right. unfold embedded. simpl.
    match goal with H : blocks it = _ |- _ => rewrite H end. by destruct v.
Qed.

Lemma attempts_Ok {A} rc (env : call_env A) n k b x :
  out (attempts rc env n k b) = Ok x → ∃ j, fn env j = Ok x.
Proof.
  revert k b. induction n as [|n IH]; intros k b; simpl; [done|].
  destruct (fn env k) as [w|e] eqn:E; simpl; [intros [= <-]; eauto|].
  repeat (case_match; try done). simpl. apply IH.
Qed.

Lemma act_provenance c k it v ts s :
  provenance s → Forall good_task ts → good_verdict k v → provenance (act c k it v ts s).
Proof.
  intros [H1 H2 H3] Hts Hv. split.
  - destruct v; simpl; try case_match; done.
  - rewrite act_tasks. destruct v; try done. by constructor.
  - destruct v; simpl; try case_match; simpl; try done; apply Forall_app_2; try done;
      by repeat constructor.
Qed.

Lemma provenance_books s s0 :
  provenance s → queue s0 = queue s → tasks s0 = tasks s → Forall good_effect (log s0) →
  provenance s0.
Proof. intros [H1 H2 H3] Hq Ht Hl. split; by rewrite ?Hq, ?Ht. Qed.

Lemma hooks_before_good k it : Forall good_effect (@hooks_before vector k it).
Proof. destruct k; simpl; try case_match; by repeat constructor. Qed.

Lemma hooks_after_good k it r : good k it → Forall good_effect (@hooks_after vector k it r).
Proof.
  intros Hg. destruct k, r; simpl; try case_match; try apply Forall_nil_2;
    apply Forall_singleton; simpl; auto.
Qed.

Lemma begin_provenance c k paused fresh now it ts1 ts2 s :
  provenance s → tasks s = ts1 ++ {| at_stage := k; doing := Got; item := it |} :: ts2 →
  provenance (begin c k paused fresh now it (ts1 ++ ts2) s).
Proof.
  intros Hp Ht. pose proof (prov_tasks _ Hp) as Hts.
  rewrite Ht, Forall_app, Forall_cons in Hts. destruct Hts as (Ht1 & Hg & Ht2).
  assert (Hts : Forall good_task (ts1 ++ ts2)) by (by apply Forall_app_2).
  unfold begin. set (s2 := emit _ _).
  assert (Hp2 : provenance s2).
  { apply (provenance_books s); [done|by destruct k|by destruct k|].
    apply Forall_app_2; [destruct k; apply (prov_log _ Hp)|apply hooks_before_good]. }
  clearbody s2. destruct (received k paused it) as [v|stage] eqn:E.
  - apply act_provenance; [done|done|exact (received_good k paused it v Hg E)].
  - apply received_paused in E. destruct (gate _ _ _) as [[] bs].
    + destruct Hp2 as [H1 H2 H3]. split; [done| |done]. simpl.
      constructor; [|done]. split; [done|]. by exists stage.
    + apply act_provenance; [destruct Hp2; by split|done|].
      apply returned_good; [exact Hg|eauto|done].
Qed.

Lemma finish_provenance c k env now it ts1 ts2 s :
  provenance s → tasks s = ts1 ++ {| at_stage := k; doing := Running; item := it |} :: ts2 →
  (∀ n x, fn env n = Ok x → returns k it x) →
  provenance (finish c k env now it (ts1 ++ ts2) s).
Proof.
  intros Hp Ht Henv. pose proof (prov_tasks _ Hp) as Hts.
  rewrite Ht, Forall_app, Forall_cons in Hts. destruct Hts as (Ht1 & [Hg Hc] & Ht2).
  unfold finish. apply act_provenance; [|by apply Forall_app_2|].
  - apply (provenance_books s); [done|done|done|]. simpl.
    apply Forall_app_2; [apply (prov_log _ Hp)|]. by apply hooks_after_good.
  - apply returned_good; [done|done|]. intros v Hv.
    apply attempts_Ok in Hv as [j Hj]. by eapply Henv.
Qed.

Lemma worker_provenance c s s' : provenance s → worker c s s' → provenance s'.
Proof.
  intros Hp.
  destruct 1 as [k it rest Hq Hlt|ts1 ts2 k it paused fresh now Ht|ts1 ts2 k it env now Ht He
    |ts1 ts2 k k' it Ht Hn _|k n Ha Hh Hc Hq|k k' Ha Hn Hc].
  - destruct Hp as [H1 H2 H3]. pose proof (H1 k) as Hk. rewrite Hq, Forall_cons in Hk.
    destruct Hk as [Hit Hrest]. split; simpl; [|by constructor|done].
    intros j. unfold upd. by case_decide; subst.
  - by apply begin_provenance.
  - by apply finish_provenance.
  - destruct Hp as [H1 H2 H3]. rewrite Ht, Forall_app, Forall_cons in H2.
    destruct H2 as (Ht1 & Hg & Ht2). split; simpl; [|by apply Forall_app_2|done].
    intros j. unfold upd. case_decide; subst; [|done].
    apply Forall_app_2; [done|]. repeat constructor. by apply Hg.
  - destruct Hp as [H1 H2 H3]. by split.
  - destruct Hp as [H1 H2 H3]. by split.
Qed.

Lemma step_provenance c s s' : provenance s → step c s s' → provenance s'.
Proof.
  intros Hp Hstep.
  destruct Hstep as [s' Hw| |l1 e l2 _ _ _| | | | |ts1 ts2 k it _ Ht|];
    try (by eapply worker_provenance); destruct Hp as [Pq Pt Pl]; split; simpl; try done.
  - intros j. unfold upd. case_decide; subst; [|done].
    apply Forall_app_2; [done|]. by repeat constructor.
  - rewrite Ht, Forall_app, Forall_cons in Pt. apply Forall_app_2; tauto.
Qed.

Lemma reachable_provenance c bs s : reachable c bs s → provenance s.
Proof. apply rtc_preserves; [apply step_provenance|]. by split. Qed.

(** What is written is what was produced: every successful [Store.Store] call
    got the document the fetch stage returned for that event, the blocks the
    parse stage returned for that document and the embeddings the embed stage
    returned for those blocks, and belongs to no deletion; [Store.Delete] is
    called for deletions and purges only. *)
Theorem stored_provenance c bs s :
  reachable c bs s →
  (∀ it, Stored it ∈ log s →
     is_deletion (evt it) = false ∧
     (∃ d, doc it = Some d ∧ fetches (evt it) d ∧ parses d (blocks it)) ∧
     embedded it) ∧
  (∀ it, Deleted it ∈ log s → is_deletion (evt it) = true).
Proof.
  intros Hr. pose proof (prov_log _ (reachable_provenance c bs s Hr)) as Hl.
  rewrite Forall_forall in Hl. split; intros it Hit; specialize (Hl _ Hit); simpl in Hl; [|done].
  destruct Hl as (Hd & Hp & He). unfold parsed in Hp. rewrite Hd in Hp. done.
Qed.

(** ** An executable scheduler *)

(** The steps of a schedule; a worker step concerns the task that came last. *)
Inductive action :=
| ASubmit (e : IngestEvent)
| ASubmitted
| ACloseInputs
| AReceive (k : Stage)
| ABegin (paused : bool)
| AFinish
| ASend
| AExit (k : Stage)
| AClose (k : Stage).

Section Scheduler.
Context (c : CoordinatorConfig) (oracle : ∀ k, @stagedItem vector → call_env (@value vector k)).

Definition room (k : Stage) s : bool :=
  (Z.of_nat (length (queue s k)) <? QueueSize (defaults c))%Z.

Definition exec (a : action) s : option State :=
  match a with
  | ASubmit e => if closed s S1 then None else
      Some (set_submits (e :: submitting s) (accepted s) (aborted s)
              (set_metrics add_submitted s))
  | ASubmitted =>
      match submitting s with
      | e :: l2 => if closed s S1 then None else if room S1 s
          then Some (set_queue S1 (queue s S1 ++ [stagedEvent e])
                       (set_submits l2 (accepted s ++ [e]) (aborted s) s))
          else None
      | [] => None
      end
  | ACloseInputs => if closed s S1 then None else Some (set_closed S1 s)
  | AReceive k =>
      match queue s k with
      | it :: rest => if length (held k s) <? alive s k
          then Some (set_tasks ({| at_stage := k; doing := Got; item := it |} :: tasks s)
                       (set_queue k rest s))
          else None
      | [] => None
      end
  | ABegin paused =>
      match tasks s with
      | {| at_stage := k; doing := Got; item := it |} :: ts =>
          Some (begin c k paused "run" 0 it ts s)
      | _ => None
      end
  | AFinish =>
      match tasks s with
      | {| at_stage := k; doing := Running; item := it |} :: ts =>
          Some (finish c k (oracle k it) 0 it ts s)
      | _ => None
      end
  | ASend =>
      match tasks s with
      | {| at_stage := k; doing := Sending; item := it |} :: ts =>
          match next k with
          | Some k' => if room k' s then Some (set_queue k' (queue s k' ++ [it]) (set_tasks ts s))
                       else None
          | None => None
          end
      | _ => None
      end
  | AExit k =>
      match alive s k, queue s k with
      | S n, [] => if (length (held k s) <=? n) && closed s k then Some (set_alive k n s) else None
      | _, _ => None
      end
  | AClose k =>
      match alive s k, next k with
      | O, Some k' => if closed s k' then None else Some (set_closed k' s)
      | _, _ => None
      end
  end.

Definition exec_all (acts : list action) s : option State :=
  foldl (λ o a, o ≫= exec a) (Some s) acts.

Hypothesis oracle_ok : ∀ k it n x, fn (oracle k it) n = Ok x → returns k it x.

Lemma exec_sound a s s' : exec a s = Some s' → step c s s'.
Proof.
  destruct a as [e| | |k|paused| | |k|k]; simpl.
  - destruct (closed s S1) eqn:E; [done|]. intros [= <-]. by apply step_submit.
  - destruct (submitting s) as [|e l] eqn:Es; [done|]. destruct (closed s S1) eqn:E; [done|].
    destruct (room S1 s) eqn:Er; [|done]. intros [= <-].
    apply (step_submitted c s [] e l); [done|done|by apply Z.ltb_lt].
  - destruct (closed s S1) eqn:E; [done|]. intros [= <-]. by apply step_close_inputs.
  - destruct (queue s k) as [|it rest] eqn:Eq; [done|].
    destruct (Nat.ltb_spec (length (held k s)) (alive s k)); [|done]. intros [= <-].
    by apply step_worker, worker_receive.
  - destruct (tasks s) as [|[k [] it] ts] eqn:Et; try done. intros [= <-].
    by apply step_worker, (worker_begin c s [] ts).
  - destruct (tasks s) as [|[k [] it] ts] eqn:Et; try done. intros [= <-].
    apply step_worker, (worker_finish c s [] ts); [done|apply oracle_ok].
  - destruct (tasks s) as [|[k [] it] ts] eqn:Et; try done.
    destruct (next k) as [k'|] eqn:En; [|done]. destruct (room k' s) eqn:Er; [|done].
    intros [= <-]. apply step_worker, (worker_send c s [] ts k k'); [done|done|by apply Z.ltb_lt].
  - destruct (alive s k) as [|n] eqn:Ea, (queue s k) eqn:Eq; try done.
    destruct (Nat.leb_spec (length (held k s)) n); [|done].
    destruct (closed s k) eqn:Ec; [|done]. intros [= <-].
    by apply step_worker, worker_exit.
  - destruct (alive s k) as [|n] eqn:Ea, (next k) as [k'|] eqn:En; try done.
    destruct (closed s k') eqn:Ec; [done|]. intros [= <-].
    by apply step_worker, (worker_close c s k k').
Qed.

Lemma exec_all_None acts : foldl (λ o a, o ≫= exec a) None acts = None.
Proof. by induction acts. Qed.

Lemma exec_all_sound acts s s' : exec_all acts s = Some s' → rtc (step c) s s'.
Proof.
  unfold exec_all. revert s. induction acts as [|a acts IH]; intros s; simpl.
  - by intros [= ->].
  - destruct (exec a s) as [s1|] eqn:E; simpl; [|by rewrite exec_all_None].
    intros H. eapply rtc_l; [by apply exec_sound in E|by apply IH].
Qed.

(** The state after a schedule; the start when some action was not enabled. *)
Definition after (acts : list action) s : State := default s (exec_all acts s).

Definition enabled (acts : list action) s : bool :=
  match exec_all acts s with Some _ => true | None => false end.

Lemma after_sound acts s : enabled acts s = true → rtc (step c) s (after acts s).
Proof.
  unfold enabled, after. destruct (exec_all acts s) eqn:E; [|done]. intros _.
  by eapply exec_all_sound.
Qed.

End Scheduler.
End Safety.

(** ** Witnesses *)

Definition sample_block : Block :=
  {| BlockID := "b"; blk_Text := "hello"; blk_Type := "paragraph"; HeadingLevel := 0;
     Page := 0; Position := 0; blk_PrivacyLabel := EmptyString |}.

#[local] Instance sample_stages : @Stages Z :=
  {| fetches := λ e d, d = deletion_doc e;
     parses := λ _ bs, bs = [sample_block];
     embeds := λ _ _ em, em = ([7]%Z, "model") |}.

Definition sample_value (k : Stage) (it : @stagedItem Z) : @value Z k :=
  match k with
  | S1 => deletion_doc (evt it)
  | S2 => [sample_block]
  | S3 => ([7]%Z, "model")
  | S4 => tt
  end.

(** Parsing fails on an item without a document; all other calls succeed. *)
Definition sample_oracle (k : Stage) (it : @stagedItem Z) : call_env (value k) :=
  Build_call_env
    (λ n, match k, doc it with
          | S2, None => Err io_error
          | _, _ => Ok (sample_value k it)
          end)
    (λ _, false) io_error.

Lemma sample_oracle_ok k it n x : fn (sample_oracle k it) n = Ok x → returns k it x.
Proof.
  destruct k; simpl; [intros [= <-]; done| |intros [= <-]; done|done].
  destruct (doc it) as [d|] eqn:E; [|done]. intros [= <-]. by exists d.
Qed.

Definition sample_cfg : CoordinatorConfig :=
  {| QueueSize := 1; Workers := λ _, 0%Z; SyncHistory := true;
     RetryCfg := {| MaxAttempts := 0; InitialBackoff := 0; MaxBackoff := 0 |} |}.
Definition changed : IngestEvent := plain_event EventDocumentChanged "t" "s" "d1".
Definition purged : IngestEvent := plain_event EventPurge "t" "s" "d2".

Definition start : @State Z := NewCoordinator sample_cfg ∅.

Definition one_stage (k : Stage) : list action := [AReceive k; ABegin false; AFinish; ASend].

(** [changed] goes through the whole pipeline, [purged] waits before Stage 2. *)
Definition schedule : list action :=
  [ASubmit changed; ASubmitted] ++ one_stage S1 ++ one_stage S2 ++ one_stage S3
  ++ [AReceive S4; ABegin false; AFinish; ASubmit purged; ASubmitted; AReceive S1; ABegin false].

Definition midway : @State Z := after sample_cfg sample_oracle schedule start.
Definition closing : @State Z :=
  after sample_cfg sample_oracle (schedule ++ [ACloseInputs]) start.

Lemma midway_reachable : reachable sample_cfg ∅ midway.
Proof.
  apply (after_sound sample_cfg sample_oracle sample_oracle_ok). vm_compute. reflexivity.
Qed.

Lemma closing_reachable : reachable sample_cfg ∅ closing.
Proof.
  apply (after_sound sample_cfg sample_oracle sample_oracle_ok). vm_compute. reflexivity.
Qed.

Lemma coordinator_accounts_witness :
  accepted midway = [changed; purged] ∧
  accepted midway ≡ₚ successes midway ++ deads midway ++ in_flight midway ++ dropped midway.
Proof.
  split; [vm_compute; reflexivity|].
  exact (proj1 (coordinator_accounts sample_cfg ∅ midway midway_reachable)).
Defined.

Lemma no_send_on_closed_channel_witness : closed midway S2 = false.
Proof.
  apply (no_send_on_closed_channel sample_cfg ∅ midway S2); [exact midway_reachable|].
  exists {| at_stage := S1; doing := Sending;
            item := with_doc (deletion_doc purged) (stagedEvent purged) |}.
  split; [|done]. apply list_elem_of_In. vm_compute. auto.
Defined.

Lemma closed_pipeline_drains_witness :
  work closing = 20 ∧ ∀ n s', nsteps (worker sample_cfg) n closing s' → n ≤ 20.
Proof.
  assert (Hw : work closing = 20) by (vm_compute; reflexivity).
  split; [exact Hw|]. rewrite <- Hw.
  apply (closed_pipeline_drains sample_cfg ∅ closing closing_reachable);
    vm_compute; reflexivity.
Defined.

Lemma stored_provenance_witness :
  ∃ it, Stored it ∈ log midway ∧ embeddings it = [7]%Z ∧ is_deletion (evt it) = false.
Proof.
  exists {| evt := changed; doc := Some (deletion_doc changed); blocks := [sample_block];
            embeddings := [7]%Z; modelID := "model" |}.
  assert (Hin : Stored {| evt := changed; doc := Some (deletion_doc changed);
            blocks := [sample_block]; embeddings := [7]%Z; modelID := "model" |} ∈ log midway).
  { apply list_elem_of_In. vm_compute. auto 10. }
  split; [exact Hin|]. split; [reflexivity|].
  exact (proj1 (proj1 (stored_provenance sample_cfg ∅ midway midway_reachable) _ Hin)).
Defined.

End PipelineSafety.
