(* ===== verification/ChunkMerger.v ===== *)
(** * Merging of short chunks

    internal/retrieval/chunk_merger.go. Adjacent short matches of one document are
    glued into one match. The theorems say that the merger partitions its input in
    order, joins nothing but short matches of the same document, keeps the text of a
    merged match within the configured bound, joins as long as it may, and keeps a
    ranked list ranked. The order in which the code ranges over its set of sources
    is arbitrary: [iterate] stands for it. *)

From Stdlib Require Import Ascii.
From S2P Require Import Prelude GoFloat GoString Match.

Module ChunkMerger.

Local Open Scope Z_scope.

Record ChunkMergerConfig := {
  Enabled : bool;
  MinTextChars : Z;
  MaxMergedTextChars : Z;
  MaxGroupSize : Z;
  Separator : string
}.

Definition newline : ascii := ascii_of_N 10.

Definition NewChunkMerger (cfg : ChunkMergerConfig) : ChunkMergerConfig :=
  {| Enabled := Enabled cfg;
     MinTextChars := if MinTextChars cfg =? 0 then 256 else MinTextChars cfg;
     MaxMergedTextChars := if MaxMergedTextChars cfg =? 0 then 4096 else MaxMergedTextChars cfg;
     MaxGroupSize := if MaxGroupSize cfg =? 0 then 8 else MaxGroupSize cfg;
     Separator := if str_empty (Separator cfg) then String newline (String newline EmptyString)
                  else Separator cfg |}.

Definition text_len (m : Match) : Z := Z.of_nat (str_len (Text m)).

(** ** One group *)

Definition max_by (f : Match → float) (m0 : float) (group : list Match) : float :=
  foldl (λ mx g, if f_gtb (f g) mx then f g else mx) m0 group.

Definition set_merged (text : string) (score orig : float) (sources : list string)
    (meta : gmap string any) (m : Match) : Match :=
  {| ID := ID m; Source := Source m; Score := score; OriginalScore := orig; Rank := Rank m;
     PrivacyLabel := PrivacyLabel m; IngestedAt := IngestedAt m; TenantID := TenantID m;
     SourceID := SourceID m; DocumentID := DocumentID m; BlockID := BlockID m; Title := Title m;
     URI := URI m; Text := text; Connector := Connector m; Metadata := meta;
     Sources := sources |}.

Definition bodies (group : list Match) : list string :=
  List.filter (λ t, negb (str_empty t)) (Text <$> group).
Definition memberIDs (group : list Match) : list string :=
  List.filter (λ t, negb (str_empty t)) (ID <$> group).

Section Merge.
Context (iterate : gset string → list string).

(** [mergeGroup] for the group [head :: rest]. *)
Definition mergeGroup (head : Match) (rest : list Match) (sep : string) : Match :=
  let group := head :: rest in
  let sources : gset string := list_to_set (Sources head ++ (group ≫= Sources)) in
  set_merged (str_join (bodies group) sep)
    (max_by Score (Score head) group) (max_by OriginalScore (OriginalScore head) group)
    (iterate sources)
    (<["chunk_merger_member_ids" := AStrings (memberIDs group)]>
       (<["chunk_merger_group_size" := AInt (Z.of_nat (length group))]> (Metadata head)))
    head.

(** ** The scan *)

(** A match that can start a group. *)
Definition candidate (cfg : ChunkMergerConfig) (m : Match) : bool :=
  negb (str_empty (DocumentID m) || str_empty (TenantID m) || (text_len m >=? MinTextChars cfg)).

(** The guards of the inner loop: may [cand] join a group of [size] members whose
    text so far is [total] bytes? *)
Definition joins (cfg : ChunkMergerConfig) (base : Match) (size total : Z) (cand : Match) : bool :=
  (size <? MaxGroupSize cfg)
  && str_eqb (TenantID cand) (TenantID base) && str_eqb (DocumentID cand) (DocumentID base)
  && (text_len cand <? MinTextChars cfg)
  && (total + Z.of_nat (str_len (Separator cfg)) + text_len cand <=? MaxMergedTextChars cfg).

(** The inner loop: the matches that join, and what is left. *)
Fixpoint extend (cfg : ChunkMergerConfig) (base : Match) (size total : Z) (l : list Match)
    : list Match * list Match :=
  match l with
  | [] => ([], [])
  | cand :: l' =>
      if joins cfg base size total cand then
        let '(taken, rem) :=
          extend cfg base (size + 1)
            (total + Z.of_nat (str_len (Separator cfg)) + text_len cand) l' in
        (cand :: taken, rem)
      else ([], l)
  end.

(** The outer loop; every round consumes at least one match, so the length of the
    input is enough fuel. *)
Fixpoint merge_loop (fuel : nat) (cfg : ChunkMergerConfig) (l : list Match) : list Match :=
  match fuel, l with
  | S n, base :: l' =>
      if candidate cfg base then
        match extend cfg base 1 (text_len base) l' with
        | ([], _) => base :: merge_loop n cfg l'
        | (g :: gs, rem) => mergeGroup base (g :: gs) (Separator cfg) :: merge_loop n cfg rem
        end
      else base :: merge_loop n cfg l'
  | _, _ => []
  end.

(** [None] is the nil receiver. *)
Definition Merge (m : option ChunkMergerConfig) (l : list Match) : list Match :=
  match m with
  | None => l
  | Some cfg =>
      if negb (Enabled cfg) || (Z.of_nat (length l) =? 0) then l
      else merge_loop (length l) cfg l
  end.

(** ** Facts about the inner loop *)

Lemma extend_splits cfg base size total l taken rem :
  extend cfg base size total l = (taken, rem) → l = taken ++ rem.
Proof.
  revert size total taken. induction l as [|c l IH]; intros size total taken; simpl.
  - by intros [= <- <-].
  - case_match; [|by intros [= <- <-]].
    destruct (extend _ _ _ _ l) as [tk lf] eqn:He. intros [= <- <-].
    by rewrite (IH _ _ _ He).
Qed.

(** Text of a group as the loop accounts for it. *)
Definition tail_len (cfg : ChunkMergerConfig) (l : list Match) : Z :=
  foldr (λ m acc, Z.of_nat (str_len (Separator cfg)) + text_len m + acc) 0 l.

Lemma tail_len_nonneg cfg l : 0 ≤ tail_len cfg l.
Proof. induction l; simpl; unfold text_len in *; lia. Qed.

Lemma joins_spec cfg base size total c :
  joins cfg base size total c = true ↔
  size < MaxGroupSize cfg ∧ TenantID c = TenantID base ∧ DocumentID c = DocumentID base ∧
  text_len c < MinTextChars cfg ∧
  total + Z.of_nat (str_len (Separator cfg)) + text_len c ≤ MaxMergedTextChars cfg.
Proof. unfold joins. rewrite !andb_true_iff, !str_eqb_eq, !Z.ltb_lt, Z.leb_le. tauto. Qed.

(** What the inner loop promises about the members it takes. *)
Record grown (cfg : ChunkMergerConfig) (base : Match) (size total : Z) (taken rem : list Match)
    : Prop := {
  gr_same : Forall (λ c, TenantID c = TenantID base ∧ DocumentID c = DocumentID base ∧
                         text_len c < MinTextChars cfg) taken;
  gr_bound : taken ≠ [] → total + tail_len cfg taken ≤ MaxMergedTextChars cfg;
  gr_size : taken ≠ [] → size + Z.of_nat (length taken) ≤ MaxGroupSize cfg;
  gr_stops : ∀ c rem', rem = c :: rem' →
    joins cfg base (size + Z.of_nat (length taken)) (total + tail_len cfg taken) c = false
}.

Lemma extend_grown cfg base size total l taken rem :
  extend cfg base size total l = (taken, rem) → grown cfg base size total taken rem.
Proof.
  revert size total taken. induction l as [|c l IH]; intros size total taken; simpl.
  { intros [= <- <-]. by constructor. }
  destruct (joins cfg base size total c) eqn:Hj.
  - destruct (extend _ _ _ _ l) as [tk lf] eqn:He. intros [= <- <-].
    apply joins_spec in Hj as (Hs & Ht & Hd & Hl & Hm).
    destruct (IH _ _ _ He) as [G1 G2 G3 G4]. constructor; simpl.
    + by constructor.
    + intros _. destruct tk; simpl in *; [lia|]. specialize (G2 ltac:(done)). lia.
    + intros _. destruct tk; simpl in *; [lia|]. specialize (G3 ltac:(done)). lia.
    + intros c' l'' E. rewrite <- (G4 c' l'' E). f_equal; lia.
  - intros [= <- <-]. constructor; simpl; [done|done|done|].
    intros c' l' [= <- <-]. by rewrite !Z.add_0_r.
Qed.

(** ** Facts about a merged match *)

Lemma str_join_len sep l :
  Z.of_nat (str_len (str_join l sep)) ≤
  foldr (λ s acc, Z.of_nat (str_len sep) + Z.of_nat (str_len s) + acc) 0 l
    - (if bool_decide (l = []) then 0 else Z.of_nat (str_len sep)).
Proof.
  destruct l as [|s l]; simpl; [done|].
  enough (∀ s, Z.of_nat (str_len (fold_left (λ acc t, str_app (str_app acc sep) t) l s)) ≤
               Z.of_nat (str_len s) +
               foldr (λ s acc, Z.of_nat (str_len sep) + Z.of_nat (str_len s) + acc) 0 l) as Hf.
  { specialize (Hf s). lia. }
  clear s. induction l as [|t l IH]; intros s; simpl; [lia|].
  etransitivity; [apply IH|]. rewrite !str_len_app. lia.
Qed.

Lemma bodies_cons m l :
  bodies (m :: l) = if str_empty (Text m) then bodies l else Text m :: bodies l.
Proof. unfold bodies. rewrite fmap_cons. simpl. by destruct (str_empty (Text m)). Qed.

Lemma bodies_len sep (l : list Match) :
  foldr (λ s acc, Z.of_nat (str_len sep) + Z.of_nat (str_len s) + acc) 0 (bodies l) ≤
  foldr (λ m acc, Z.of_nat (str_len sep) + text_len m + acc) 0 l.
Proof.
  induction l as [|m l IH]; [done|]. rewrite bodies_cons, foldr_cons. unfold text_len at 1.
  destruct (str_empty (Text m)); simpl; lia.
Qed.

(** The merged text is never longer than the inner loop accounted for. *)
Lemma mergeGroup_text_len cfg base rest :
  text_len (mergeGroup base rest (Separator cfg)) ≤ text_len base + tail_len cfg rest.
Proof.
  unfold text_len at 1. simpl Text.
  etransitivity; [apply str_join_len|].
  pose proof (bodies_len (Separator cfg) (base :: rest)) as Hb.
  pose proof (tail_len_nonneg cfg rest) as Hn.
  case_bool_decide as He.
  - rewrite He. simpl. unfold text_len. lia.
  - etransitivity; [apply Z.sub_le_mono_r, Hb|]. simpl. unfold tail_len. lia.
Qed.

Lemma max_by_ge_start f m0 l : f_gtb m0 (max_by f m0 l) = false.
Proof.
  unfold f_gtb. revert m0. induction l as [|g l IH]; intros m0; simpl.
  - apply f_ltb_irreflexive.
  - destruct (f_gtb (f g) m0) eqn:Hg; [|apply IH].
    destruct (f_ltb (max_by f (f g) l) m0) eqn:Hx; [|done].
    pose proof (f_ltb_lt_trans _ _ _ Hx Hg) as Ht. by rewrite IH in Ht.
Qed.

Lemma max_by_nan f m0 l : f_is_nan m0 = true → max_by f m0 l = m0.
Proof.
  intros Hn. induction l as [|a l IH]; simpl; [done|].
  destruct (f_gtb (f a) m0) eqn:Ha; [|done].
  apply f_ltb_not_nan in Ha as [Hm _]. by rewrite Hm in Hn.
Qed.

Lemma max_by_upper f m0 l g : g ∈ l → f_gtb (f g) (max_by f m0 l) = false.
Proof.
  revert m0. induction l as [|a l IH]; intros m0; [by intros ?%elem_of_nil|].
  intros [->|Hg]%elem_of_cons; simpl; [|by apply IH].
  destruct (f_gtb (f a) m0) eqn:Ha; [apply max_by_ge_start|].
  destruct (f_gtb (f a) (max_by f m0 l)) eqn:Hx; [|done].
  destruct (f_is_nan m0) eqn:Hn; [by rewrite max_by_nan, Ha in Hx|].
  unfold f_gtb in *. destruct (f_ltb_not_nan _ _ Hx) as [Hm Hf].
  rewrite <- Hx. apply (f_nltb_trans _ m0 _); try done. apply (max_by_ge_start f m0 l).
Qed.

Lemma max_by_attained f m0 l : max_by f m0 l = m0 ∨ ∃ g, g ∈ l ∧ max_by f m0 l = f g.
Proof.
  revert m0. induction l as [|a l IH]; intros m0; simpl; [by left|].
  destruct (f_gtb (f a) m0).
  - destruct (IH (f a)) as [->|(g & Hg & ->)]; right; [by exists a; split; [left|]|].
    exists g. by split; [right|].
  - destruct (IH m0) as [->|(g & Hg & ->)]; [by left|right; exists g; by split; [right|]].
Qed.

(** A ranked group keeps the score of its head. *)
Lemma max_by_head f m0 l : Forall (λ g, f_gtb (f g) m0 = false) l → max_by f m0 l = m0.
Proof. induction 1 as [|g l Hg _ IH]; simpl; [done|]. by rewrite Hg. Qed.

(** ** The partition *)

(** A group of consecutive matches, by its head. *)
Abbreviation group := (Match * list Match)%type (only parsing).
Definition members (g : group) : list Match := g.1 :: g.2.

Record represents (cfg : ChunkMergerConfig) (g : group) (out : Match) : Prop := {
  rp_single : g.2 = [] → out = g.1;
  rp_merged : g.2 ≠ [] → out = mergeGroup g.1 g.2 (Separator cfg);
  rp_candidate : g.2 ≠ [] → candidate cfg g.1 = true;
  rp_same : Forall (λ c, TenantID c = TenantID g.1 ∧ DocumentID c = DocumentID g.1 ∧
                         text_len c < MinTextChars cfg) g.2;
  rp_bound : g.2 ≠ [] → text_len out ≤ MaxMergedTextChars cfg;
  rp_size : g.2 ≠ [] → Z.of_nat (length (members g)) ≤ MaxGroupSize cfg
}.

(** Between neighbouring groups the guards of the inner loop are false. *)
Fixpoint greedy (cfg : ChunkMergerConfig) (gs : list group) : Prop :=
  match gs with
  | g :: ((g' :: _) as gs') =>
      (candidate cfg g.1 = true →
       joins cfg g.1 (1 + Z.of_nat (length g.2)) (text_len g.1 + tail_len cfg g.2) g'.1 = false)
      ∧ greedy cfg gs'
  | _ => True
  end.

Lemma represents_alone cfg m : represents cfg (m, []) m.
Proof. by constructor. Qed.

Lemma represents_grown cfg base taken rem :
  candidate cfg base = true → taken ≠ [] → grown cfg base 1 (text_len base) taken rem →
  represents cfg (base, taken) (mergeGroup base taken (Separator cfg)).
Proof.
  intros Hc Hne [G1 G2 G3 _]. constructor; simpl; try done.
  - intros _. etransitivity; [apply mergeGroup_text_len|]. by apply G2.
  - intros _. specialize (G3 Hne). lia.
Qed.

Lemma merge_loop_partitions fuel cfg l :
  (length l ≤ fuel)%nat →
  ∃ gs, (gs ≫= members) = l ∧ Forall2 (represents cfg) gs (merge_loop fuel cfg l) ∧ greedy cfg gs.
Proof.
  revert l. induction fuel as [|n IH]; intros [|base l] Hf; simpl in *; try lia;
    [by exists []; repeat constructor..|].
  destruct (extend cfg base 1 (text_len base) l) as [taken rem] eqn:He.
  pose proof (extend_splits _ _ _ _ _ _ _ He) as Hl.
  pose proof (extend_grown _ _ _ _ _ _ _ He) as Hg.
  assert (Hstep : ∀ left' out, (length left' ≤ n)%nat →
    ∀ tk, represents cfg (base, tk) out → l = tk ++ left' →
    (candidate cfg base = true → tk = taken ∧ left' = rem) →
    ∃ gs, (gs ≫= members) = base :: l ∧ Forall2 (represents cfg) gs (out :: merge_loop n cfg left')
          ∧ greedy cfg gs).
  { intros left' out Hn tk Hr -> Hcand. destruct (IH left' Hn) as (gs & <- & Hf2 & Hgr).
    exists ((base, tk) :: gs). split; [done|split; [by constructor|]].
    destruct gs as [|g' gs]; [done|]. split; [|done]. intros Hc; simpl.
    destruct (Hcand Hc) as [-> <-]. by eapply (gr_stops _ _ _ _ _ _ Hg). }
  destruct (candidate cfg base) eqn:Hc.
  - destruct taken as [|g gs]; simpl in Hl; subst.
    + apply (Hstep rem base ltac:(lia) []); [apply represents_alone|done|done].
    + simpl in Hf. rewrite length_app in Hf. apply (Hstep rem _ ltac:(lia) (g :: gs)); [|done|done].
      by eapply represents_grown.
  - apply (Hstep l base ltac:(lia) []); [apply represents_alone|done|done].
Qed.

Lemma Merge_groups cfg l :
  Enabled cfg = true →
  ∃ gs, (gs ≫= members) = l ∧ Forall2 (represents cfg) gs (Merge (Some cfg) l) ∧ greedy cfg gs.
Proof.
  intros He. unfold Merge. rewrite He. simpl.
  destruct l as [|m l]; [by exists []; repeat constructor|]. by apply merge_loop_partitions.
Qed.

(** An enabled merger splits its input, in order, into runs of consecutive
    matches and returns one match per run: a run of one as it is, a longer run as
    its merged match. A longer run holds only short matches of one tenant and one
    document, is within the group size, and its text, separators included, is within
    MaxMergedTextChars; and a run ends only where the next match may not join it. *)
Theorem Merge_partitions cfg l :
  Enabled cfg = true →
  ∃ gs, (gs ≫= members) = l ∧ Forall2 (represents cfg) gs (Merge (Some cfg) l) ∧ greedy cfg gs.
Proof. apply Merge_groups. Qed.

(** A merged match carries the best score of its group, and a group member's. *)
Theorem mergeGroup_best_score head rest sep :
  let out := mergeGroup head rest sep in
  (∀ g, g ∈ head :: rest → f_gtb (Score g) (Score out) = false
                         ∧ f_gtb (OriginalScore g) (OriginalScore out) = false)
  ∧ (∃ g, g ∈ head :: rest ∧ Score out = Score g).
Proof.
  split.
  - intros g Hg. split; by apply max_by_upper.
  - destruct (max_by_attained Score (Score head) (head :: rest)) as [E|(g & Hg & E)].
    + exists head. by split; [left|].
    + by exists g.
Qed.

(** Nothing a member was found by is lost: the sources of a merged match are those
    of its members, each once. *)
Theorem mergeGroup_sources head rest sep s :
  (∀ X, iterate X ≡ₚ elements X) →
  (s ∈ Sources (mergeGroup head rest sep) ↔ ∃ g, g ∈ head :: rest ∧ s ∈ Sources g)
  ∧ NoDup (Sources (mergeGroup head rest sep)).
Proof.
  intros Hit. simpl. rewrite (Hit _). split; [|apply NoDup_elements].
  rewrite elem_of_elements, elem_of_list_to_set, elem_of_app, elem_of_app, list_elem_of_bind.
  setoid_rewrite elem_of_cons. naive_solver.
Qed.

(** ** Ranking *)

Definition ranked (l : list Match) : Prop :=
  StronglySorted (λ a b, f_gtb (Score b) (Score a) = false) l.

Lemma represents_score cfg g out :
  represents cfg g out → ranked (members g) → Score out = Score g.1.
Proof.
  intros Hr Hs. destruct g as [b [|c r]]; simpl.
  - by rewrite (rp_single _ _ _ Hr).
  - rewrite (rp_merged _ _ _ Hr) by done. simpl.
    apply (max_by_head Score (Score b) (b :: c :: r)). constructor; [apply f_ltb_irreflexive|].
    by apply StronglySorted_inv in Hs as [_ Hs].
Qed.

Lemma ranked_app l k : ranked (l ++ k) → ranked l ∧ ranked k.
Proof.
  intros H. split; refine (sublist_sorted _ _ _ _ H).
  - by apply sublist_inserts_r.
  - by apply sublist_inserts_l.
Qed.

Lemma represents_scores cfg gs outs :
  Forall2 (represents cfg) gs outs → ranked (gs ≫= members) →
  Score <$> outs = Score ∘ fst <$> gs.
Proof.
  induction 1 as [|g out gs outs Hr _ IH]; [done|]. intros Hs.
  apply (ranked_app (members g)) in Hs as [Hg Hs]. rewrite !fmap_cons, IH by done.
  f_equal. by eapply represents_score.
Qed.

Lemma heads_sublist (gs : list group) : gs.*1 `sublist_of` (gs ≫= members).
Proof. induction gs as [|g gs IH]; simpl; [done|]. constructor. by apply sublist_inserts_l. Qed.

Definition scores_ranked (l : list float) : Prop :=
  StronglySorted (λ a b, f_gtb b a = false) l.

Lemma ranked_scores l : ranked l ↔ scores_ranked (Score <$> l).
Proof.
  unfold ranked, scores_ranked. induction l as [|a l IH]; [by split; constructor|].
  rewrite fmap_cons. split; intros [H1 H2]%StronglySorted_inv; constructor; try by apply IH.
  - by rewrite Forall_fmap.
  - by rewrite Forall_fmap in H2.
Qed.

(** Merging a list ranked by score leaves it ranked, and the first result keeps
    its identity and its score. *)
Theorem Merge_keeps_ranking m l :
  ranked l →
  ranked (Merge m l) ∧
  (head (Merge m l) = None ∧ l = [] ∨
   ∃ a b, head l = Some a ∧ head (Merge m l) = Some b ∧ ID b = ID a ∧ Score b = Score a).
Proof.
  intros Hr.
  assert (Hid : ranked l ∧ (head l = None ∧ l = [] ∨
    ∃ a b, head l = Some a ∧ head l = Some b ∧ ID b = ID a ∧ Score b = Score a)).
  { split; [done|]. destruct l as [|a l]; [by left|right]. by exists a, a. }
  destruct m as [cfg|]; [|done].
  destruct (Enabled cfg) eqn:He; [|unfold Merge; by rewrite He].
  destruct (Merge_groups cfg l He) as (gs & <- & Hf & _).
  pose proof (represents_scores cfg _ _ Hf Hr) as Hsc. split.
  - rewrite ranked_scores, Hsc, list_fmap_compose, <- ranked_scores.
    eapply sublist_sorted; [apply heads_sublist|done].
  - destruct Hf as [|g out gs outs Hg]; [by left|right].
    exists g.1, out. split_and!; [done|done| |by injection Hsc].
    destruct (decide (g.2 = [])) as [E|E]; [by rewrite (rp_single _ _ _ Hg E)|].
    by rewrite (rp_merged _ _ _ Hg E).
Qed.
End Merge.

(** ** A concrete run *)

Definition sample_match (id doc text : string) (score : Z) : Match :=
  {| ID := id; Source := SourceVector; Score := f32_of_Z score; OriginalScore := f32_of_Z score;
     Rank := 1; PrivacyLabel := ""; IngestedAt := 0; TenantID := "t"; SourceID := "s";
     DocumentID := doc; BlockID := id; Title := ""; URI := ""; Text := text; Connector := "";
     Metadata := ∅; Sources := [SourceVector] |}.

Definition sample_cfg : ChunkMergerConfig :=
  NewChunkMerger {| Enabled := true; MinTextChars := 10; MaxMergedTextChars := 12;
                    MaxGroupSize := 0; Separator := "" |}.

Definition sample_matches : list Match :=
  [sample_match "1" "d" "abcd" 9; sample_match "2" "d" "efgh" 8; sample_match "3" "d" "ijkl" 7;
   sample_match "4" "e" "mnop" 6].

Example sample_merge :
  Text <$> Merge elements (Some sample_cfg) sample_matches =
    [String.append "abcd" (String.append (Separator sample_cfg) "efgh"); "ijkl"; "mnop"].
Proof. vm_compute. reflexivity. Qed.

Lemma sample_ranked : ranked sample_matches.
Proof. repeat (constructor; [|repeat (constructor; [vm_compute; reflexivity|]); constructor]). constructor. Qed.

Lemma Merge_partitions_witness :
  Enabled sample_cfg = true ∧
  ∃ gs, (gs ≫= members) = sample_matches ∧
        Forall2 (represents elements sample_cfg) gs (Merge elements (Some sample_cfg) sample_matches) ∧
        greedy sample_cfg gs.
Proof. split; [reflexivity|]. apply (Merge_partitions elements sample_cfg sample_matches). reflexivity. Defined.

Lemma Merge_keeps_ranking_witness :
  ranked sample_matches ∧ ranked (Merge elements (Some sample_cfg) sample_matches).
Proof.
  split; [exact sample_ranked|].
  exact (proj1 (Merge_keeps_ranking elements (Some sample_cfg) sample_matches sample_ranked)).
Defined.
End ChunkMerger.
