(* ===== verification/Dedup.v ===== *)
(** * Semantic deduplication of chunks

    internal/pipeline/dedup.go. Stage 4 may drop blocks whose embedding is close to
    that of a block already kept. The cosine is computed with the float arithmetic
    of the code. The theorems say which blocks survive, that blocks and embeddings
    stay aligned, and that every dropped block was close to an earlier kept one. *)

From S2P Require Import Prelude GoFloat GoString PipelineTypes.

Module Dedup.

Abbreviation embedding := (list float) (only parsing).

Record DedupConfig := {
  Enabled : bool;
  Threshold : float;
  has_audit : bool;      (** [Audit != nil] *)
  Connector : string
}.

Definition default_threshold : float := f32_const 95 100.

(** The environment and [strconv.ParseFloat(_, 32)] are arguments. *)
Definition LoadDedupConfigFromEnv (getenv : string → string) (ParseFloat32 : string → option float)
    : DedupConfig :=
  {| Enabled := existsb (str_eqb (getenv "CONTEXT_ENGINE_DEDUP_ENABLED"))
                  ["1"; "true"; "TRUE"; "True"];
     Threshold :=
       let raw := getenv "CONTEXT_ENGINE_DEDUP_THRESHOLD" in
       if str_empty raw then default_threshold
       else match ParseFloat32 raw with
            | Some v => if f_gtb v f_zero && f_leb v (f64_of_Z 1) then f32_of_f64 v
                        else default_threshold
            | None => default_threshold
            end;
     has_audit := false; Connector := EmptyString |}.

Definition NewDeduplicator (cfg : DedupConfig) : DedupConfig :=
  {| Enabled := Enabled cfg;
     Threshold := if f_leb (Threshold cfg) f_zero then default_threshold else Threshold cfg;
     has_audit := has_audit cfg; Connector := Connector cfg |}.

(** ** The cosine *)

(** The three running sums of the loop. *)
Fixpoint sums (a b : embedding) (dot normA normB : float) : float * float * float :=
  match a, b with
  | x :: a', y :: b' =>
      let ai := f64_of_f32 x in
      let bi := f64_of_f32 y in
      sums a' b' (f64_add dot (f64_mul ai bi)) (f64_add normA (f64_mul ai ai))
        (f64_add normB (f64_mul bi bi))
  | _, _ => (dot, normA, normB)
  end.

Definition cosineSimilarity (a b : embedding) : float :=
  if (length a =? 0) || (length b =? 0) || negb (length a =? length b) then f_zero
  else
    let '(dot, normA, normB) := sums a b f_zero f_zero f_zero in
    if f_eqb normA f_zero || f_eqb normB f_zero then f_zero
    else f32_of_f64 (f64_div dot (f64_mul (f64_sqrt normA) (f64_sqrt normB))).

(** ** The pass *)

(** What [recordDedup] hands to the audit sink. *)
Record DedupAudit := {
  da_TenantID : string;
  da_DocumentID : string;
  da_SourceID : string;
  da_BlockID : string;
  da_duplicate_of_idx : nat;
  da_similarity : float;
  da_connector : string;
  da_threshold : float
}.

Definition recordDedup (cfg : DedupConfig) (doc : option Document) (b : Block) (dupOf : nat)
    (sim : float) : list DedupAudit :=
  match doc with
  | Some d =>
      if has_audit cfg then
        [{| da_TenantID := doc_TenantID d; da_DocumentID := doc_DocumentID d;
            da_SourceID := doc_SourceID d; da_BlockID := BlockID b; da_duplicate_of_idx := dupOf;
            da_similarity := sim; da_connector := Connector cfg; da_threshold := Threshold cfg |}]
      else []
  | None => []
  end.

Record DedupResult := {
  Blocks : list Block;
  Embeddings : list embedding;
  Removed : nat
}.

(** The variables of the outer loop. *)
Record pass := {
  keptBlocks : list Block;
  keptEmbeds : list embedding;
  keptIdx : list nat;
  removed : nat;
  audited : list DedupAudit
}.
Definition empty_pass : pass :=
  {| keptBlocks := []; keptEmbeds := []; keptIdx := []; removed := 0; audited := [] |}.

Section Pass.
Context (cfg : DedupConfig) (doc : option Document) (embeddings : list embedding).

Definition emb (i : nat) : embedding := default [] (embeddings !! i).
Definition close (i j : nat) : bool :=
  f_geb (cosineSimilarity (emb i) (emb j)) (Threshold cfg).

(** The inner loop: the first kept index the chunk duplicates, and the similarity. *)
Definition duplicate_of (i : nat) (kept : list nat) : option nat := List.find (close i) kept.

(** The body of the outer loop on the block at index [i]. *)
Definition visit (st : pass) (i : nat) (b : Block) : pass :=
  match duplicate_of i (keptIdx st) with
  | Some j =>
      {| keptBlocks := keptBlocks st; keptEmbeds := keptEmbeds st; keptIdx := keptIdx st;
         removed := S (removed st);
         audited := audited st ++ recordDedup cfg doc b j (cosineSimilarity (emb i) (emb j)) |}
  | None =>
      {| keptBlocks := keptBlocks st ++ [b]; keptEmbeds := keptEmbeds st ++ [emb i];
         keptIdx := keptIdx st ++ [i]; removed := removed st; audited := audited st |}
  end.

Fixpoint walk (i : nat) (bs : list Block) (st : pass) : pass :=
  match bs with
  | [] => st
  | b :: bs' => walk (S i) bs' (visit st i b)
  end.
End Pass.

Definition mismatch_error (n m : nat) : string :=
  str_app "dedup: block / embedding count mismatch "
    (str_app (str_of_nat n) (str_app " vs " (str_of_nat m))).

(** [Apply]: the result and the audit calls. *)
Definition Apply (d : option DedupConfig) (doc : option Document) (blocks : list Block)
    (embeddings : list embedding) : result DedupResult string * list DedupAudit :=
  let verbatim := (Ok {| Blocks := blocks; Embeddings := embeddings; Removed := 0 |}, []) in
  match d with
  | None => verbatim
  | Some cfg =>
      if negb (Enabled cfg) || (length blocks <? 2)%nat then verbatim
      else if negb (length blocks =? length embeddings)%nat then
        (Err (mismatch_error (length blocks) (length embeddings)), [])
      else
        let st := walk cfg doc embeddings 0 blocks empty_pass in
        (Ok {| Blocks := keptBlocks st; Embeddings := keptEmbeds st; Removed := removed st |},
         audited st)
  end.

(** ** The invariant of the pass *)

Section Invariant.
Context (cfg : DedupConfig) (doc : option Document).
Context (blocks : list Block) (embeddings : list embedding).

Definition unit_close := close cfg embeddings.

Record sound (n : nat) (st : pass) : Prop := {
  sd_blocks : Some <$> keptBlocks st = (λ i, blocks !! i) <$> keptIdx st;
  sd_embeds : keptEmbeds st = emb embeddings <$> keptIdx st;
  sd_sorted : StronglySorted lt (keptIdx st);
  sd_range : Forall (λ i, i < n) (keptIdx st);
  sd_apart : StronglySorted (λ j i, unit_close i j = false) (keptIdx st);
  sd_dropped : ∀ i, i < n → i ∉ keptIdx st →
    ∃ j, j ∈ keptIdx st ∧ j < i ∧ unit_close i j = true;
  sd_count : length (keptIdx st) + removed st = n;
  sd_audit : length (audited st) =
    match doc with Some _ => if has_audit cfg then removed st else 0 | None => 0 end
}.

Lemma visit_sound n st b :
  blocks !! n = Some b → sound n st → sound (S n) (visit cfg doc embeddings st n b).
Proof.
  intros Hb [S1 S2 S3 S4 S5 S6 S7 S8]. unfold visit, duplicate_of.
  pose proof (find_spec (close cfg embeddings n) (keptIdx st)) as Hf.
  destruct (List.find _ _) as [j|].
  - destruct Hf as [Hj Hc]. constructor; simpl; try done; try lia.
    + eapply Forall_impl; [exact S4|]. simpl. lia.
    + intros i Hi Hn. destruct (decide (i = n)) as [->|]; [|apply S6; [lia|done]].
      exists j. rewrite Forall_forall in S4. by specialize (S4 _ Hj).
    + rewrite length_app, S8. unfold recordDedup.
      destruct doc; simpl; [destruct (has_audit cfg); simpl; lia|lia].
  - constructor; simpl; try done.
    + rewrite !fmap_app, S1. simpl. by rewrite Hb.
    + by rewrite fmap_app, S2.
    + apply sorted_snoc; [done|]. eapply Forall_impl; [exact S4|]. simpl. lia.
    + apply Forall_app. split; [|by repeat constructor].
      eapply Forall_impl; [exact S4|]. simpl. lia.
    + by apply sorted_snoc.
    + intros i Hi Hn. rewrite not_elem_of_app, list_elem_of_singleton in Hn.
      destruct Hn as [Hn Hne]. destruct (S6 i ltac:(lia) Hn) as (j & Hj & ? & ?).
      exists j. by split; [apply elem_of_app; left|].
    + rewrite length_app. simpl. lia.
Qed.

Lemma walk_sound n bs st :
  drop n blocks = bs → sound n st →
  sound (n + length bs) (walk cfg doc embeddings n bs st).
Proof.
  revert n st. induction bs as [|b bs IH]; intros n st Hd Hs; simpl.
  - by rewrite Nat.add_0_r.
  - rewrite Nat.add_succ_r. apply (IH (S n)).
    + change (S n) with (1 + n). rewrite Nat.add_comm, <- drop_drop, Hd. done.
    + apply visit_sound; [|done]. by rewrite <- (Nat.add_0_r n), <- lookup_drop, Hd.
Qed.

Lemma empty_lsh_sound : sound 0 empty_pass.
Proof. constructor; simpl; try constructor; try done; try lia. by destruct doc, (has_audit cfg). Qed.

End Invariant.

(** ** What survives *)

(** [kept] describes a pass: the surviving indices, in order. *)
Record survivors (cfg : DedupConfig) (blocks : list Block) (embeddings : list embedding)
    (kept : list nat) (r : DedupResult) : Prop := {
  sv_blocks : Some <$> Blocks r = (λ i, blocks !! i) <$> kept;
  sv_embeds : Some <$> Embeddings r = (λ i, embeddings !! i) <$> kept;
  sv_sorted : StronglySorted lt kept;
  sv_first : head kept = Some 0;
  sv_apart : StronglySorted (λ j i, close cfg embeddings i j = false) kept;
  sv_dropped : ∀ i, i < length blocks → i ∉ kept →
    ∃ j, j ∈ kept ∧ j < i ∧ close cfg embeddings i j = true;
  sv_count : length (Blocks r) + Removed r = length blocks
}.

Lemma sorted_head_zero kept : StronglySorted lt kept → 0 ∈ kept → head kept = Some 0.
Proof.
  destruct 1 as [|x l _ Hx]; [by intros ?%elem_of_nil|].
  intros [->|H]%elem_of_cons; [done|]. rewrite Forall_forall in Hx. by apply Hx in H; lia.
Qed.

Lemma walk_survivors cfg doc blocks embeddings :
  blocks ≠ [] → length blocks = length embeddings →
  let st := walk cfg doc embeddings 0 blocks empty_pass in
  survivors cfg blocks embeddings (keptIdx st)
    {| Blocks := keptBlocks st; Embeddings := keptEmbeds st; Removed := removed st |}.
Proof.
  intros Hne Hlen st.
  destruct (walk_sound cfg doc blocks embeddings 0 blocks empty_pass) as [S1 S2 S3 S4 S5 S6 S7 _];
    [done|apply empty_lsh_sound|]. fold st in S1, S2, S3, S4, S5, S6, S7. simpl in *.
  constructor; simpl; try done.
  - rewrite S2, <- list_fmap_compose. apply list_fmap_ext. intros k i Hi. simpl.
    rewrite Forall_forall in S4. specialize (S4 i ltac:(by eapply list_elem_of_lookup_2)).
    unfold emb. destruct (lookup_lt_is_Some_2 embeddings i) as [e ->]; [lia|done].
  - apply sorted_head_zero; [done|]. destruct (decide (0 ∈ keptIdx st)) as [|Hn]; [done|].
    destruct (S6 0) as (j & _ & Hj & _); [destruct blocks; [done|simpl; lia]|done|lia].
  - pose proof (f_equal length S1) as Hl. rewrite !length_fmap in Hl. lia.
Qed.

Lemma Apply_pass cfg doc blocks embeddings :
  Enabled cfg = true → 2 ≤ length blocks → length blocks = length embeddings →
  ∃ r kept audits, Apply (Some cfg) doc blocks embeddings = (Ok r, audits) ∧
    survivors cfg blocks embeddings kept r.
Proof.
  intros He Hl Hm. unfold Apply. rewrite He. simpl.
  rewrite (proj2 (Nat.ltb_ge _ _) Hl), Hm, Nat.eqb_refl. simpl.
  do 3 eexists. split; [done|]. apply walk_survivors; [|done]. by destruct blocks; simpl in *; [lia|].
Qed.

(** C25: an enabled pass over at least two blocks with one embedding each succeeds; the first
    block survives, the survivors keep their order and their embeddings, the similarity
    of no survivor to an earlier one reaches the threshold, every dropped block
    reaches it with an earlier survivor, and the number removed is exact. *)
Theorem Apply_survivors cfg doc blocks embeddings :
  Enabled cfg = true → 2 ≤ length blocks → length blocks = length embeddings →
  ∃ r kept audits, Apply (Some cfg) doc blocks embeddings = (Ok r, audits) ∧
    survivors cfg blocks embeddings kept r.
Proof. apply Apply_pass. Qed.

(** Every suppressed chunk is audited, once, when there is a sink and a document. *)
Theorem Apply_audits cfg doc blocks embeddings r audits :
  Enabled cfg = true → has_audit cfg = true → 2 ≤ length blocks →
  Apply (Some cfg) (Some doc) blocks embeddings = (Ok r, audits) → length audits = Removed r.
Proof.
  intros He Ha Hl. unfold Apply. rewrite He. simpl. rewrite (proj2 (Nat.ltb_ge _ _) Hl).
  case_match; [done|]. intros [= <- <-]. simpl.
  destruct (walk_sound cfg (Some doc) blocks embeddings 0 blocks empty_pass) as [_ _ _ _ _ _ _ S8];
    [done|apply empty_lsh_sound|]. by rewrite Ha in S8.
Qed.

(** When no two embeddings are close, nothing is dropped. *)
Lemma survivors_all cfg blocks embeddings kept r :
  length blocks = length embeddings →
  (∀ i j, j < i → i < length blocks → close cfg embeddings i j = false) →
  survivors cfg blocks embeddings kept r →
  r = {| Blocks := blocks; Embeddings := embeddings; Removed := 0 |}.
Proof.
  intros Hlen Hfar [V1 V2 V3 V4 V5 V6 V7].
  assert (Hk : kept = seq 0 (length blocks)).
  { apply strictly_sorted_seq; [done| |].
    - apply Forall_forall. intros i Hi. apply list_elem_of_lookup in Hi as [k Hk].
      assert (E : (Some <$> Blocks r) !! k = ((λ i, blocks !! i) <$> kept) !! k) by by rewrite V1.
      rewrite !list_lookup_fmap, Hk in E. destruct (Blocks r !! k); simpl in E; [|done].
      injection E as E. by apply eq_sym, lookup_lt_Some in E.
    - intros i Hi. destruct (decide (i ∈ kept)) as [|Hn]; [done|].
      destruct (V6 i Hi Hn) as (j & _ & Hj & Hc). by rewrite Hfar in Hc. }
  subst kept. apply lookup_seq_id in V1. rewrite Hlen in V2. apply lookup_seq_id in V2.
  destruct r; simpl in *; subst. f_equal. lia.
Qed.

(** The closeness of survivors is that of their original positions. *)
Lemma survivors_apart cfg blocks embeddings kept r i j :
  survivors cfg blocks embeddings kept r → j < i → i < length (Blocks r) →
  close cfg (Embeddings r) i j = false.
Proof.
  intros [V1 V2 _ _ V5 _ _] Hj Hi.
  pose proof (f_equal length V1) as Hl. rewrite !length_fmap in Hl.
  destruct (lookup_lt_is_Some_2 kept i) as [p Hp]; [lia|].
  destruct (lookup_lt_is_Some_2 kept j) as [q Hq]; [lia|].
  assert (Hemb : ∀ k p, kept !! k = Some p → emb (Embeddings r) k = emb embeddings p).
  { intros k p' Hk. unfold emb.
    assert (E : (Some <$> Embeddings r) !! k = ((λ i, embeddings !! i) <$> kept) !! k)
      by by rewrite V2.
    rewrite !list_lookup_fmap, Hk in E. simpl in E. destruct (Embeddings r !! k); simpl in *; [|done].
    by injection E as <-. }
  unfold close. rewrite (Hemb i p Hp), (Hemb j q Hq).
  exact (sorted_lookup _ _ _ _ _ _ V5 Hj Hq Hp).
Qed.

(** A second pass with the same settings removes nothing. *)
Theorem Apply_idempotent cfg doc blocks embeddings r audits :
  Apply (Some cfg) doc blocks embeddings = (Ok r, audits) → length blocks = length embeddings →
  ∃ audits', Apply (Some cfg) doc (Blocks r) (Embeddings r) =
    (Ok {| Blocks := Blocks r; Embeddings := Embeddings r; Removed := 0 |}, audits').
Proof.
  intros H Hlen. unfold Apply at 1.
  destruct (negb (Enabled cfg) || (length (Blocks r) <? 2)%nat) eqn:Hg; [by eexists|].
  apply orb_false_iff in Hg as [He%negb_false_iff H2%Nat.ltb_ge].
  assert (Hb : 2 ≤ length blocks).
  { destruct (decide (2 ≤ length blocks)); [done|]. exfalso. revert H. unfold Apply. rewrite He.
    rewrite (proj2 (Nat.ltb_lt _ _)) by lia. intros [= <- _]. simpl in H2. lia. }
  destruct (Apply_pass cfg doc blocks embeddings He Hb Hlen) as (r' & kept & au & Ha & Hs).
  rewrite H in Ha. injection Ha as <- <-.
  assert (Hl : length (Blocks r) = length (Embeddings r)).
  { pose proof (f_equal length (sv_blocks _ _ _ _ _ Hs)) as E1.
    pose proof (f_equal length (sv_embeds _ _ _ _ _ Hs)) as E2. rewrite !length_fmap in *. lia. }
  rewrite Hl, Nat.eqb_refl. simpl. eexists. f_equal. f_equal.
  eapply survivors_all; [exact Hl| |apply walk_survivors; [|exact Hl]].
  - intros i j Hj Hi. by eapply survivors_apart.
  - by destruct (Blocks r); simpl in *; [lia|].
Qed.

(** Aligned inputs never fail; misaligned ones fail before anything is dropped. *)
Theorem Apply_error cfg doc blocks embeddings e audits :
  Apply (Some cfg) doc blocks embeddings = (Err e, audits) ↔
  Enabled cfg = true ∧ 2 ≤ length blocks ∧ length blocks ≠ length embeddings ∧
  e = mismatch_error (length blocks) (length embeddings) ∧ audits = [].
Proof.
  unfold Apply. destruct (Enabled cfg); simpl; [|naive_solver].
  destruct (Nat.ltb_spec (length blocks) 2); simpl; [naive_solver lia|].
  destruct (Nat.eqb_spec (length blocks) (length embeddings)); simpl; naive_solver.
Qed.

(** ** A concrete pass *)

Definition sample_block (id : string) : Block :=
  {| BlockID := id; blk_Text := id; blk_Type := ""; HeadingLevel := 0; Page := 0; Position := 0;
     blk_PrivacyLabel := "" |}.
Definition sample_cfg : DedupConfig :=
  NewDeduplicator {| Enabled := true; Threshold := f_zero; has_audit := true; Connector := "" |}.
Definition unit_x : embedding := [f32_of_Z 1; f_zero].
Definition unit_y : embedding := [f_zero; f32_of_Z 1].
Definition sample_blocks : list Block := [sample_block "a"; sample_block "b"; sample_block "c"].
Definition sample_embeddings : list embedding := [unit_x; unit_y; unit_x].

Example sample_pass :
  (Apply (Some sample_cfg) None sample_blocks sample_embeddings).1 =
    Ok {| Blocks := [sample_block "a"; sample_block "b"]; Embeddings := [unit_x; unit_y];
          Removed := 1 |}.
Proof. vm_compute. reflexivity. Qed.

Lemma Apply_survivors_witness :
  Enabled sample_cfg = true ∧ 2 ≤ length sample_blocks ∧
  ∃ r kept audits, Apply (Some sample_cfg) None sample_blocks sample_embeddings = (Ok r, audits) ∧
    survivors sample_cfg sample_blocks sample_embeddings kept r.
Proof.
  split; [reflexivity|split; [simpl; lia|]].
  apply (Apply_survivors sample_cfg None sample_blocks sample_embeddings);
    [reflexivity|simpl; lia|reflexivity].
Defined.

Lemma Apply_idempotent_witness :
  ∃ audits', Apply (Some sample_cfg) None [sample_block "a"; sample_block "b"] [unit_x; unit_y] =
    (Ok {| Blocks := [sample_block "a"; sample_block "b"]; Embeddings := [unit_x; unit_y];
           Removed := 0 |}, audits').
Proof.
  apply (Apply_idempotent sample_cfg None sample_blocks sample_embeddings
           {| Blocks := [sample_block "a"; sample_block "b"]; Embeddings := [unit_x; unit_y];
              Removed := 1 |} []); vm_compute; reflexivity.
Defined.
End Dedup.
