(* ===== verification/ChunkGuards.v ===== *)
(** * Quality scores and version conflicts of chunks

    [ChunkScorer] is internal/pipeline/chunk_scorer.go, [ConflictResolver]
    internal/pipeline/conflict_resolver.go. The resolver is proved against the
    interface [VersionStore]; the in-memory store is the instance the repository
    has. *)

From S2P Require Import Prelude GoFloat GoString.

Module ChunkScorer.

Record ChunkScore := {
  Length : float;
  Language : float;
  Embedding : float;
  Duplicate : bool;
  Overall : float
}.

Record ChunkScorerInput := {
  in_Text : string;
  in_Embedding : list float;
  in_Language : string;
  in_LangConf : float;
  in_Duplicate : bool
}.

Record ChunkScorer := { MinLength : Z; MaxLength : Z }.
Definition NewChunkScorer : ChunkScorer := {| MinLength := 100; MaxLength := 4000 |}.

(** [unicode.IsControl]: the C0 and C1 controls and DEL. *)
Definition is_control (r : N) : bool := ((r <? 32) || ((127 <=? r) && (r <=? 159)))%N.

Definition visible (s : string) : Z :=
  Z.of_nat (length (List.filter (λ r, negb (is_control r)) (runes (to_bytes s)))).

Definition one : float := f64_of_Z 1.
Definition half : float := f64_const 1 2.
Definition quarter : float := f64_const 1 4.

(** [scoreLength] on the number of visible characters. *)
Definition length_score (s : ChunkScorer) (n : Z) : float :=
  if (n <? MinLength s)%Z then f64_div (f64_of_Z n) (f64_of_Z (MinLength s))
  else if (MaxLength s <? n)%Z then
    let excess := f64_div (f64_of_Z (n - MaxLength s)) (f64_of_Z (MaxLength s)) in
    let val := f64_sub one (f64_mul half excess) in
    if f_ltb val quarter then quarter else val
  else one.
Definition scoreLength (s : ChunkScorer) (text : string) : float := length_score s (visible text).

Definition scoreLanguage (i : ChunkScorerInput) : float :=
  if f_leb (in_LangConf i) f_zero then
    (if str_empty (trim_space (in_Text i)) then f_zero else half)
  else if f_gtb (in_LangConf i) one then one
  else in_LangConf i.

Definition sum_squares (emb : list float) : float :=
  foldl (λ sum v, f64_add sum (f64_mul (f64_of_f32 v) (f64_of_f32 v))) f_zero emb.

Definition scoreEmbedding (emb : list float) : float :=
  match emb with
  | [] => f_zero
  | _ =>
      let mag := f64_sqrt (sum_squares emb) in
      if f_ltb mag (f64_const 1 100) then f_zero
      else if f_ltb mag half then f64_mul mag (f64_of_Z 2)
      else one
  end.

Definition Score (s : ChunkScorer) (i : ChunkScorerInput) : ChunkScore :=
  let len := scoreLength s (in_Text i) in
  let lang := scoreLanguage i in
  let emb := scoreEmbedding (in_Embedding i) in
  let overall := f64_div (f64_add (f64_add len lang) emb) (f64_of_Z 3) in
  {| Length := len; Language := lang; Embedding := emb; Duplicate := in_Duplicate i;
     Overall := if in_Duplicate i then (if f_gtb overall half then half else overall)
                else overall |}.

(** A value is within [lo] and [hi]; NaN is within nothing. *)
Definition within (lo hi x : float) : bool := f_leb lo x && f_leb x hi.

(** The length axis of the default scorer, for every count below the upper bound. *)
Lemma length_score_short n :
  (0 ≤ n ≤ 4000)%Z → within f_zero one (length_score NewChunkScorer n) = true.
Proof.
  intros Hn. unfold length_score, NewChunkScorer; simpl.
  destruct (Z.ltb_spec n 100) as [H|H].
  - assert (Hall : forallb (λ k, within f_zero one (f64_div (f64_of_Z (Z.of_nat k)) (f64_of_Z 100)))
                     (seq 0 100) = true) by (vm_compute; reflexivity).
    rewrite forallb_forall in Hall. specialize (Hall (Z.to_nat n)).
    rewrite Z2Nat.id in Hall by lia. apply Hall, in_seq. lia.
  - rewrite (proj2 (Z.ltb_ge 4000 n)) by lia. vm_compute. reflexivity.
Qed.

(** A long chunk never scores below the floor. *)
Lemma length_score_floor n :
  (4000 < n)%Z → f_ltb (length_score NewChunkScorer n) quarter = false.
Proof.
  intros Hn. unfold length_score, NewChunkScorer; simpl.
  rewrite (proj2 (Z.ltb_ge n 100)), (proj2 (Z.ltb_lt 4000 n)) by lia.
  case_match; [apply f_ltb_irreflexive|done].
Qed.

(** The language axis is in range for every confidence that is a number. *)
Lemma scoreLanguage_range i :
  f_is_nan (in_LangConf i) = false → within f_zero one (scoreLanguage i) = true.
Proof.
  intros Hn. unfold scoreLanguage, within.
  destruct (f_leb (in_LangConf i) f_zero) eqn:Hz;
    [destruct (str_empty _); vm_compute; reflexivity|].
  destruct (f_gtb (in_LangConf i) one) eqn:H1; [vm_compute; reflexivity|].
  rewrite f_leb_ltb in Hz by done. apply negb_false_iff in Hz.
  change (f_ltb one (in_LangConf i) = false) in H1. rewrite !f_leb_ltb, H1 by done.
  by rewrite (f_ltb_asym f_zero (in_LangConf i) f_zero eq_refl Hn eq_refl Hz).
Qed.

(** A duplicate never scores above one half, and the axes that are within 0 and 1
    for any input that is a number stay there. *)
Theorem Score_caps_duplicates s i :
  f_gtb (Overall (Score s (
    {| in_Text := in_Text i; in_Embedding := in_Embedding i; in_Language := in_Language i;
       in_LangConf := in_LangConf i; in_Duplicate := true |}))) half = false.
Proof. simpl. case_match; [apply f_ltb_irreflexive|done]. Qed.

(** A confidence that is not a number is passed on, so the overall score of the
    chunk is not a number either; a NaN in the embedding counts as a perfect vector. *)
Example nan_confidence_spoils_score :
  f_is_nan (Overall (Score NewChunkScorer
    {| in_Text := "a"; in_Embedding := [f32_of_Z 1]; in_Language := "en";
       in_LangConf := S754_nan; in_Duplicate := false |})) = true.
Proof. vm_compute. reflexivity. Qed.

Example nan_embedding_scores_one : scoreEmbedding [S754_nan] = one.
Proof. vm_compute. reflexivity. Qed.

End ChunkScorer.

(** ** The interface of the version store *)

(** What [Resolve] relies on, on success: [Put] never lowers a recorded version and
    records at least the one it is given. Either call may fail; a failed [Put]
    leaves the store as it was. *)
Class VersionStore (S : Type) := {
  Get : S → string → string → result Z string;
  Put : S → string → string → Z → result S string;
  version_of : S → string → string → Z;
  Get_reads s t d v : Get s t d = Ok v → v = version_of s t d;
  Put_monotone s t d v s' t' d' : Put s t d v = Ok s' → (version_of s t' d' ≤ version_of s' t' d')%Z;
  Put_records s t d v s' : Put s t d v = Ok s' → (v ≤ version_of s' t d)%Z
}.

Module ConflictResolver.

Inductive ConflictDecision := ConflictDecisionAccept | ConflictDecisionDrop.

Record ConflictResolverInput := {
  TenantID : string;
  DocumentID : string;
  ChunkID : string;
  ContentVersion : Z
}.

(** [NewConflictResolver]: [None] is a nil store. *)
Definition NewConflictResolver {S} (store : option S) : result S string :=
  match store with Some s => Ok s | None => Err "conflict_resolver: nil store" end.

Section Resolve.
Context {S : Type} `{VersionStore S}.
Local Open Scope Z_scope.

(** [Resolve]: the decision, the error and the store afterwards. *)
Definition Resolve (s : S) (i : ConflictResolverInput)
    : ConflictDecision * option string * S :=
  if str_empty (TenantID i) || str_empty (DocumentID i) then
    (ConflictDecisionAccept, Some "conflict_resolver: missing tenant/document"%string, s)
  else
    match Get s (TenantID i) (DocumentID i) with
    | Err e => (ConflictDecisionAccept, Some e, s)
    | Ok current =>
        if ContentVersion i <? current then (ConflictDecisionDrop, None, s)
        else
          match Put s (TenantID i) (DocumentID i) (ContentVersion i) with
          | Err e => (ConflictDecisionAccept, Some e, s)
          | Ok s' => (ConflictDecisionAccept, None, s')
          end
    end.

(** A sequence of calls; the accepted writes in order. *)
Fixpoint resolve_all (s : S) (ws : list ConflictResolverInput)
    : list ConflictResolverInput * S :=
  match ws with
  | [] => ([], s)
  | i :: ws' =>
      let '(d, e, s') := Resolve s i in
      let '(acc, s'') := resolve_all s' ws' in
      (match d, e with ConflictDecisionAccept, None => i :: acc | _, _ => acc end, s'')
  end.

Lemma Resolve_spec s i d e s' :
  Resolve s i = (d, e, s') →
  (∀ t doc, version_of s t doc ≤ version_of s' t doc) ∧
  (d = ConflictDecisionDrop →
     e = None ∧ s' = s ∧ ContentVersion i < version_of s (TenantID i) (DocumentID i)) ∧
  (d = ConflictDecisionAccept → e = None →
     version_of s (TenantID i) (DocumentID i) ≤ ContentVersion i ∧
     ContentVersion i ≤ version_of s' (TenantID i) (DocumentID i)) ∧
  (e ≠ None → s' = s).
Proof.
  unfold Resolve. case_match; [intros [= <- <- <-]; naive_solver lia|].
  destruct (Get s _ _) as [cur|] eqn:Hg; [|intros [= <- <- <-]; naive_solver lia].
  apply Get_reads in Hg. subst cur.
  destruct (Z.ltb_spec (ContentVersion i) (version_of s (TenantID i) (DocumentID i))).
  { intros [= <- <- <-]. naive_solver lia. }
  destruct (Put s _ _ _) as [s1|] eqn:Hp; intros [= <- <- <-]; [|naive_solver lia].
  split_and!; try done; [intros; by eapply Put_monotone|].
  intros _ _. split; [done|by eapply Put_records].
Qed.

Lemma resolve_all_above s ws t doc i :
  i ∈ (resolve_all s ws).1 → TenantID i = t → DocumentID i = doc →
  version_of s t doc ≤ ContentVersion i.
Proof.
  revert s. induction ws as [|j ws IH]; intros s; simpl; [by intros ?%elem_of_nil|].
  destruct (Resolve s j) as [[d e] s'] eqn:Hr. apply Resolve_spec in Hr as (Hm & _ & Ha & _).
  destruct (resolve_all s' ws) as [acc s''] eqn:Hall. simpl. intros Hi Ht Hd.
  assert (Hin : i ∈ acc → version_of s t doc ≤ ContentVersion i).
  { intros Hin. etransitivity; [apply (Hm t doc)|].
    apply (IH s'); [by rewrite Hall|done|done]. }
  destruct d, e; auto. apply elem_of_cons in Hi as [->|Hi]; [|auto].
  subst. by apply Ha.
Qed.

(** However many writes are offered, and whichever store calls fail, the versions
    accepted for a document never decrease, and the recorded versions never regress. *)
Theorem resolve_all_monotone s ws t doc :
  StronglySorted Z.le
    (ContentVersion <$> List.filter
       (λ i, str_eqb (TenantID i) t && str_eqb (DocumentID i) doc) (resolve_all s ws).1)
  ∧ version_of s t doc ≤ version_of (resolve_all s ws).2 t doc.
Proof.
  revert s. induction ws as [|j ws IH]; intros s; simpl; [split; [constructor|done]|].
  destruct (Resolve s j) as [[d e] s'] eqn:Hr. apply Resolve_spec in Hr as (Hm & _ & Ha & _).
  destruct (IH s') as [IH1 IH2]. pose proof (resolve_all_above s' ws t doc) as Habove.
  destruct (resolve_all s' ws) as [acc s'']. simpl in *.
  split; [|etransitivity; [apply Hm|done]].
  destruct d, e; try done. simpl.
  destruct (str_eqb (TenantID j) t && str_eqb (DocumentID j) doc) eqn:Hk; [|done].
  apply andb_true_iff in Hk as [Ht%str_eqb_eq Hd%str_eqb_eq].
  rewrite fmap_cons. constructor; [done|]. rewrite Forall_fmap, Forall_forall.
  intros i [Hi Hin]%elem_of_filterb. apply andb_true_iff in Hi as [Ht'%str_eqb_eq Hd'%str_eqb_eq].
  simpl. etransitivity; [apply (Ha eq_refl eq_refl)|]. rewrite Ht, Hd. by apply Habove.
Qed.
End Resolve.

(** ** The in-memory store *)

Abbreviation versions := (gmap string Z) (only parsing).
Definition version_key (tenantID documentID : string) : string :=
  str_app tenantID (str_app "|" documentID).

Definition mem_Get (s : versions) (t d : string) : Z := default 0%Z (s !! version_key t d).
Definition mem_Put (s : versions) (t d : string) (version : Z) : versions :=
  let cur := default 0%Z (s !! version_key t d) in
  if (cur <? version)%Z then <[version_key t d := version]> s else s.

#[export] Program Instance InMemoryConflictVersionStore : VersionStore versions := {
  Get := λ s t d, Ok (mem_Get s t d);
  Put := λ s t d v, Ok (mem_Put s t d v);
  version_of := mem_Get
}.
Next Obligation. by intros s t d v [= <-]. Qed.
Next Obligation.
  intros s t d v s' t' d' [= <-]. unfold mem_Put, mem_Get.
  destruct (Z.ltb_spec (default 0%Z (s !! version_key t d)) v) as [Hv|]; [|lia].
  destruct (decide (version_key t d = version_key t' d')) as [E|E].
  - rewrite <- E, lookup_insert_eq. simpl. lia.
  - rewrite lookup_insert_ne by done. lia.
Qed.
Next Obligation.
  intros s t d v s' [= <-]. unfold mem_Put, mem_Get.
  destruct (Z.ltb_spec (default 0%Z (s !! version_key t d)) v); [|lia].
  by rewrite lookup_insert_eq.
Qed.

Definition write (t d : string) (v : Z) : ConflictResolverInput :=
  {| TenantID := t; DocumentID := d; ChunkID := ""; ContentVersion := v |}.

Example sample_writes :
  (resolve_all (∅ : versions) [write "t" "d" 1; write "t" "d" 3; write "t" "d" 2; write "t" "d" 3]).1 =
  [write "t" "d" 1; write "t" "d" 3; write "t" "d" 3].
Proof. vm_compute. reflexivity. Qed.

(** The key joins tenant and document with a bar and escapes nothing, so a document
    of one tenant can make the first write of another tenant's document stale. *)
Example keys_collide :
  version_key "a|b" "c" = version_key "a" "b|c" ∧
  let s := (Resolve (∅ : versions) (write "a|b" "c" 5)).2 in
  (Resolve s (write "a" "b|c" 1)).1.1 = ConflictDecisionDrop.
Proof. vm_compute. split; reflexivity. Qed.

(** [Resolve] reads and writes the store in two calls. When two calls for one
    document both read before either writes, both are accepted, the older one last. *)
Example concurrent_writes_both_accepted :
  let read := mem_Get ∅ "t" "d" in
  (5 <? read = false ∧ 6 <? read = false)%Z ∧
  mem_Get (mem_Put (mem_Put ∅ "t" "d" 6) "t" "d" 5) "t" "d" = 6%Z.
Proof. vm_compute. repeat split; reflexivity. Qed.

End ConflictResolver.
