(* ===== verification/CallRetry.v ===== *)
(** * The retry loop of the stage workers

    [fetchHTTP] of internal/pipeline/fetch.go, [Parser.Parse] of parse.go and
    [Embedder.callLocal] of embed.go run one loop: call, return on success or on a
    fatal error, otherwise sleep and double the backoff up to a cap, at most
    [MaxAttempts] times. The loop is modelled once, over what differs: which errors
    are transient, how errors are wrapped and how long a sleep is. The k-th call and
    whether the context ended during the k-th sleep come from outside. *)

From S2P Require Import Prelude GoString StageBreaker Retry.

(** [fmt.Errorf(prefix + ": %w", e)]; a nil error prints as below. *)
Definition wrap_error (prefix : string) (e : option error) : error :=
  match e with
  | Some e => {| text := str_app prefix (text e); chain := chain e |}
  | None => {| text := str_app prefix "%!w(<nil>)"; chain := [] |}
  end.

(** [fmt.Errorf("%w: detail", ErrPoisonMessage)]. *)
Definition poison (detail : string) : error :=
  {| text := str_app "pipeline: poison message: " detail; chain := [ErrPoisonMessage] |}.

Lemma poison_is_poison d : errors_Is (poison d) ErrPoisonMessage = true.
Proof. apply bool_decide_eq_true_2. by left. Qed.

Module CallRetry.

Record RetryPolicy := {
  MaxAttempts : Z;
  InitialBackoff : Z;
  MaxBackoff : Z
}.

(** The retry fields of the [defaults] methods; [initial] is the stage's default. *)
Definition with_defaults (initial : Z) (c : RetryPolicy) : RetryPolicy :=
  {| MaxAttempts := if (MaxAttempts c =? 0)%Z then 3 else MaxAttempts c;
     InitialBackoff := if (InitialBackoff c =? 0)%Z then initial else InitialBackoff c;
     MaxBackoff := if (MaxBackoff c =? 0)%Z then (5 * second)%Z else MaxBackoff c |}.

Definition double (c : RetryPolicy) (backoff : Z) : Z :=
  let b := wrap64 (backoff * 2) in
  if (MaxBackoff c <? b)%Z then MaxBackoff c else b.

(** How one call of the remote side ended. *)
Inductive outcome (A E : Type) :=
| Done (a : A)
| Fatal (e : E)
| Transient (e : E).
Arguments Done {A E} a.
Arguments Fatal {A E} e.
Arguments Transient {A E} e.

Section Loop.
Context {A E : Type}.
Context (call : nat → outcome A E).
(** The sleep before retry [k], from the backoff; [None] when computing it panics. *)
Context (sleep : nat → Z → option Z).
Context (cancelled : nat → bool) (ctx_err : E) (exhausted : option E → E).

(** What the loop leaves behind; a result of [None] is a panic. *)
Record trace := {
  out : option (result A E);
  sleeps : list Z;
  calls : nat
}.

Fixpoint attempts (c : RetryPolicy) (n k : nat) (backoff : Z) (lastErr : option E) : trace :=
  match n with
  | O => {| out := Some (Err (exhausted lastErr)); sleeps := []; calls := 0 |}
  | S n' =>
      match call k with
      | Done v => {| out := Some (Ok v); sleeps := []; calls := 1 |}
      | Fatal e => {| out := Some (Err e); sleeps := []; calls := 1 |}
      | Transient e =>
          match n' with
          | O => {| out := Some (Err (exhausted (Some e))); sleeps := []; calls := 1 |}
          | S _ =>
              match sleep k backoff with
              | None => {| out := None; sleeps := []; calls := 1 |}
              | Some d =>
                  if cancelled k then
                    {| out := Some (Err ctx_err); sleeps := [d]; calls := 1 |}
                  else
                    let r := attempts c n' (S k) (double c backoff) (Some e) in
                    {| out := out r; sleeps := d :: sleeps r; calls := S (calls r) |}
              end
          end
      end
  end.

Definition run (c : RetryPolicy) : trace :=
  attempts c (Z.to_nat (MaxAttempts c)) 0 (InitialBackoff c) None.

(** ** The contract *)

Definition is_transient (o : outcome A E) : bool :=
  match o with Transient _ => true | _ => false end.

(** The result when call [k] was the last of a budget of [n] calls. *)
Definition final (n k : nat) : result A E :=
  match call k with
  | Done v => Ok v
  | Fatal e => Err e
  | Transient e => Err (if (S k <? n)%nat then ctx_err else exhausted (Some e))
  end.

Record meets (n k0 : nat) (r : trace) (k : nat) : Prop := {
  mt_budget : k0 ≤ k < n;
  mt_transient : ∀ j, k0 ≤ j → j < k → is_transient (call j) = true ∧ cancelled j = false;
  mt_stop : is_transient (call k) = true → S k < n → cancelled k = true;
  mt_out : out r = Some (final n k);
  mt_calls : k0 + calls r = S k
}.

(** Transient failures and then an answer within the budget: the answer is returned. *)
Lemma attempts_answer c n k0 backoff lastErr k v :
  (∀ k b, sleep k b ≠ None) → k0 ≤ k < k0 + n →
  (∀ j, k0 ≤ j < k → is_transient (call j) = true ∧ cancelled j = false) → call k = Done v →
  out (attempts c n k0 backoff lastErr) = Some (Ok v).
Proof.
  intros Hs. revert k0 backoff lastErr. induction n as [|n IH]; intros k0 backoff lastErr Hk Ht Hv; [lia|].
  simpl. destruct (decide (k = k0)) as [->|Hne]; [by rewrite Hv|].
  destruct (Ht k0) as [Ht0 Hc0]; [lia|]. destruct (call k0) as [w|e|e]; [done|done|].
  destruct n as [|n]; [lia|]. destruct (sleep k0 backoff) as [d|] eqn:Hsl; [|by destruct (Hs k0 backoff)].
  rewrite Hc0. cbn [out]. apply IH; [lia| |done]. intros j Hj. apply Ht. lia.
Qed.

(** Backoffs the loop can reach without a panic: [safe] holds of the current one, is
    kept by doubling and lets every sleep be computed. *)
Context (safe : Z → Prop).

(** When no sleep panics, the loop makes between one call and the whole budget,
    goes on only after transient failures, and ends as its last call says. *)
Lemma attempts_meets c n k0 backoff lastErr :
  (∀ k b, safe b → sleep k b ≠ None) → (∀ b, safe b → safe (double c b)) → safe backoff → 0 < n →
  ∃ k, meets (k0 + n) k0 (attempts c n k0 backoff lastErr) k.
Proof.
  intros Hs Hd. revert k0 backoff lastErr. induction n as [|n IH]; intros k0 backoff lastErr Hb Hn; [lia|].
  simpl. destruct (call k0) as [v|e|e] eqn:Hc.
  1,2: exists k0; constructor; unfold final; rewrite ?Hc; simpl; try done; lia.
  destruct n as [|n].
  { exists k0. constructor; unfold final; rewrite ?Hc; simpl; try done; try lia.
    by rewrite (proj2 (Nat.ltb_ge _ _)) by lia. }
  destruct (sleep k0 backoff) as [d|] eqn:Hsl; [|by destruct (Hs k0 backoff)].
  destruct (cancelled k0) eqn:Hk.
  { exists k0. constructor; unfold final; rewrite ?Hc; simpl; try done; try lia.
    by rewrite (proj2 (Nat.ltb_lt _ _)) by lia. }
  destruct (IH (S k0) (double c backoff) (Some e) (Hd _ Hb) ltac:(lia)) as (k & [M1 M2 M3 M4 M5]).
  replace (S k0 + S n) with (k0 + S (S n)) in * by lia.
  exists k. constructor; simpl in *; try done; try lia.
  intros j Hj1 Hj2. destruct (decide (j = k0)) as [->|]; [by rewrite Hc|]. apply M2; lia.
Qed.

Lemma run_meets c :
  (∀ k b, safe b → sleep k b ≠ None) → (∀ b, safe b → safe (double c b)) →
  safe (InitialBackoff c) → (1 ≤ MaxAttempts c)%Z →
  ∃ k, meets (Z.to_nat (MaxAttempts c)) 0 (run c) k.
Proof.
  intros Hs Hd Hi Hm. apply (attempts_meets c (Z.to_nat (MaxAttempts c)) 0); try done. lia.
Qed.

(** Every sleep is one the policy computed for its backoff. *)
Lemma attempts_sleeps c n k0 backoff lastErr (P : Z → Prop) :
  (∀ k b d, sleep k b = Some d → P d) → Forall P (sleeps (attempts c n k0 backoff lastErr)).
Proof.
  intros HP. revert k0 backoff lastErr. induction n as [|n IH]; intros; simpl; [constructor|].
  destruct (call k0); simpl; try constructor. destruct n; simpl; [constructor|].
  destruct (sleep k0 backoff) as [d|] eqn:Hd; simpl; [|constructor].
  destruct (cancelled k0); simpl; apply Forall_cons; (split; [by apply (HP _ _ _ Hd)|]); [constructor|]. exact (IH (S k0) (double c backoff) (Some e)).
Qed.
End Loop.

Arguments out {A E} t.
Arguments sleeps {A E} t.
Arguments calls {A E} t.

(** The sleep of [Parse] and [callLocal]: the backoff itself. *)
Definition plain_sleep (_ : nat) (backoff : Z) : option Z := Some backoff.

Lemma plain_sleep_total k b : plain_sleep k b ≠ None.
Proof. done. Qed.

End CallRetry.
