(* ===== verification/FetchStage.v ===== *)
(** * Stage 1: fetching a document

    internal/pipeline/fetch.go. A document comes inline, over HTTP with retries, or
    from an object store. The HTTP client, the object store, URL parsing, the hash
    and the random source are outside: they are arguments. A result of [None] is a
    panic. *)

From Stdlib Require Import Ascii.
From S2P Require Import Prelude GoString StageBreaker Retry CallRetry PipelineTypes.

Module FetchStage.

Import CallRetry.

Record FetchConfig := {
  policy : RetryPolicy;
  MaxBodyBytes : Z;
  Concurrency : Z;
  has_s3 : bool        (** [S3Fetcher != nil] *)
}.

Definition defaults (c : FetchConfig) : FetchConfig :=
  {| policy := with_defaults (100 * millisecond) (policy c);
     MaxBodyBytes := if (MaxBodyBytes c =? 0)%Z then Z.shiftl 64 20 else MaxBodyBytes c;
     Concurrency := if (Concurrency c =? 0)%Z then 8 else Concurrency c;
     has_s3 := has_s3 c |}.

(** ** Reading a body *)

(** An [io.Reader]: what it yields before its error, [None] being the end of file. *)
Record reader := { data : string; read_err : option error }.

Definition take_bytes (n : Z) (s : string) : string := of_bytes (take (Z.to_nat n) (to_bytes s)).

(** [io.ReadAll]. *)
Definition ReadAll (r : reader) : result string error :=
  match read_err r with None => Ok (data r) | Some e => Err e end.

(** [io.LimitedReader]: the end of file after [n] bytes, so a later error is not
    seen. *)
Definition limited (r : reader) (n : Z) : reader :=
  if (n <=? Z.of_nat (str_len (data r)))%Z then {| data := take_bytes n (data r); read_err := None |}
  else r.

Definition body_exceeds (limit : Z) : error :=
  {| text := str_app "fetch: body exceeds " (str_app (str_of_nat (Z.to_nat limit)) " bytes");
     chain := [] |}.

Definition readBounded (r : reader) (limit : Z) : result string error :=
  if (limit <=? 0)%Z then ReadAll r
  else
    let! body := ReadAll (limited r (wrap64 (limit + 1))) in
    if (limit <? Z.of_nat (str_len body))%Z then Err (body_exceeds limit) else Ok body.

(** ** One HTTP attempt *)

(** How [HTTPClient.Do] ended. *)
Inductive http_result :=
| BadRequest (e : error)                  (** the request could not be built *)
| NetworkError (e : error)
| Response (status : Z) (body : reader).

Definition status_error (status : Z) : error :=
  {| text := str_app "fetch: status " (str_of_nat (Z.to_nat status)); chain := [] |}.

Definition httpAttempt (c : FetchConfig) (r : http_result) : outcome string error :=
  match r with
  | BadRequest e => Fatal e
  | NetworkError e => Transient e
  | Response status body =>
      if (500 <=? status)%Z then Transient (status_error status)
      else if (400 <=? status)%Z then Fatal (status_error status)
      else match readBounded body (MaxBodyBytes c) with
           | Ok b => Done b
           | Err e => Fatal e
           end
  end.

(** [rand.Int64N(n)] panics unless [n] is positive; [rnd] is its draw. *)
Definition jitter (base rnd : Z) : option Z :=
  if (base <=? 0)%Z then Some 0%Z
  else
    let n := (base `quot` 4)%Z in
    if (n <=? 0)%Z then None else Some (rnd `mod` n)%Z.

(** The sleep before a retry: backoff and jitter, capped. *)
Definition retry_sleep (c : RetryPolicy) (rnd : nat → Z) (k : nat) (backoff : Z) : option Z :=
  match jitter backoff (rnd k) with
  | None => None
  | Some j =>
      let sleep := wrap64 (backoff + j) in
      Some (if (MaxBackoff c <? sleep)%Z then MaxBackoff c else sleep)
  end.

Record url := { Scheme : string; Host : string; Path : string; Full : string }.

(** [strings.TrimPrefix(path, "/")]. *)
Definition trim_slash (p : string) : string :=
  match p with String "/"%char p' => p' | _ => p end.

(** What the worker finds outside. *)
Record world := {
  http_do : string → nat → http_result;
  rnd : nat → Z;
  cancelled : nat → bool;          (** did the context end during the k-th sleep? *)
  ctx_err : error;
  s3_fetch : string → string → result string error;
  parse_url : string → result url error;
  hash : string → string;
  slot : bool;                     (** the semaphore was acquired, not the context done *)
  now : Time
}.

Section Fetch.
Context `{Unicode} (c : FetchConfig) (w : world).

Definition fetchHTTP (target : string) : trace :=
  run (λ k, httpAttempt c (http_do w target k)) (retry_sleep (policy c) (rnd w)) (cancelled w)
    (ctx_err w) (wrap_error "fetch: exhausted retries: ") (policy c).

Definition fetchS3 (u : url) : result string error :=
  let bucket := Host u in
  let key := trim_slash (Path u) in
  if str_empty bucket || str_empty key then Err (poison "malformed s3 url")
  else if negb (has_s3 c) then
    Err {| text := str_app "fetch: S3 fetcher not configured for " (Full u); chain := [] |}
  else s3_fetch w bucket key.

Definition scheme_is (u : url) (s : string) : bool :=
  bool_decide (lower_runes (Scheme u) = runes (to_bytes s)).

Definition fetchBytes (evt : IngestEvent) : option (result string error) :=
  if negb (str_empty (ev_InlineContent evt)) then Some (Ok (ev_InlineContent evt))
  else if str_empty (ev_FetchURL evt) then Some (Err (poison "missing fetch_url"))
  else
    match parse_url w (ev_FetchURL evt) with
    | Err e => Some (Err (poison (str_app "parse fetch_url: " (text e))))
    | Ok u =>
        if scheme_is u "http" || scheme_is u "https" then out (fetchHTTP (ev_FetchURL evt))
        else if scheme_is u "s3" then Some (fetchS3 u)
        else Some (Err (poison (str_app "unsupported scheme " (Scheme u))))
    end.

Definition unchanged_error : error :=
  {| text := "pipeline: content unchanged"; chain := [ErrUnchanged] |}.

Definition document_of (evt : IngestEvent) (body : string) : Document :=
  {| doc_TenantID := ev_TenantID evt; doc_SourceID := ev_SourceID evt;
     doc_DocumentID := ev_DocumentID evt; doc_NamespaceID := ev_NamespaceID evt;
     doc_Title := ev_Title evt; doc_MIMEType := ev_MIMEType evt; doc_ContentType := EmptyString;
     doc_Content := body; doc_ContentHash := hash w body; doc_PreviousHash := ev_PreviousHash evt;
     doc_PrivacyLabel := ev_PrivacyLabel evt; doc_IngestedAt := now w;
     doc_Metadata := ev_Metadata evt; doc_Force := ev_Force evt |}.

(** Does the content count as unchanged? *)
Definition same_content (evt : IngestEvent) (body : string) : bool :=
  negb (ev_Force evt) && negb (str_empty (ev_PreviousHash evt))
  && str_eqb (hash w body) (ev_PreviousHash evt).

Definition FetchEvent (evt : IngestEvent) : option (result Document error) :=
  if str_empty (ev_TenantID evt) || str_empty (ev_DocumentID evt) then
    Some (Err (poison "tenant_id and document_id required"))
  else if negb (slot w) then Some (Err (ctx_err w))
  else
    match fetchBytes evt with
    | None => None
    | Some (Err e) => Some (Err e)
    | Some (Ok body) =>
        if same_content evt body then Some (Err unchanged_error)
        else Some (Ok (document_of evt body))
    end.
End Fetch.

(** ** Reading *)

Lemma take_bytes_len n s : (0 ≤ n)%Z → (Z.of_nat (str_len (take_bytes n s)) ≤ n)%Z.
Proof.
  intros Hn. unfold take_bytes. rewrite str_len_bytes, to_of_bytes, length_take. lia.
Qed.

(** A bounded read returns at most [limit] bytes; a body that fits comes back whole,
    a larger one is refused. *)
Lemma readBounded_bound r limit b :
  (0 < limit)%Z → readBounded r limit = Ok b → (Z.of_nat (str_len b) ≤ limit)%Z.
Proof.
  intros Hl. unfold readBounded. rewrite (proj2 (Z.leb_gt limit 0)) by lia.
  rewrite result_bind_Ok. intros (body & _ & Hb).
  destruct (Z.ltb_spec limit (Z.of_nat (str_len body))); [done|]. by injection Hb as <-.
Qed.

Lemma readBounded_exact s limit :
  (0 < limit < int64_max)%Z →
  readBounded {| data := s; read_err := None |} limit =
  if (Z.of_nat (str_len s) <=? limit)%Z then Ok s else Err (body_exceeds limit).
Proof.
  intros Hl. unfold readBounded. rewrite (proj2 (Z.leb_gt limit 0)) by lia.
  rewrite wrap64_id by (unfold in_int64, int64_min, int64_max in *; lia).
  unfold limited; simpl. destruct (Z.leb_spec (limit + 1) (Z.of_nat (str_len s))) as [H1|H1]; simpl.
  - rewrite (proj2 (Z.leb_gt _ _)) by lia.
    unfold take_bytes. rewrite str_len_bytes, to_of_bytes, length_take, <- str_len_bytes.
    rewrite (proj2 (Z.ltb_lt _ _)) by lia. done.
  - rewrite (proj2 (Z.leb_le _ _)), (proj2 (Z.ltb_ge _ _)) by lia. done.
Qed.

Lemma ReadAll_errors r e : ReadAll r = Err e → read_err r = Some e.
Proof. unfold ReadAll. destruct (read_err r); [by intros [= ->]|done]. Qed.

Lemma readBounded_errors r limit e :
  readBounded r limit = Err e → read_err r = Some e ∨ e = body_exceeds limit.
Proof.
  unfold readBounded. case_match; [left; by apply ReadAll_errors|].
  destruct (ReadAll _) as [b|e'] eqn:Hr; simpl.
  - case_match; [|done]. intros [= <-]. by right.
  - intros [= <-]. left. apply ReadAll_errors in Hr. revert Hr. unfold limited. by case_match.
Qed.

(** At the largest limit [limit + 1] wraps around and every body reads as empty. *)
Example readBounded_max_limit :
  readBounded {| data := "body"; read_err := None |} int64_max = Ok EmptyString.
Proof. vm_compute. reflexivity. Qed.

(** ** The retry loop *)

(** Backoffs that neither overflow when doubled nor are too small for [jitter]. *)
Definition safe_backoff (b : Z) : Prop := (4 ≤ b ≤ 2 ^ 61)%Z.

Lemma jitter_safe b r : safe_backoff b → ∃ j, jitter b r = Some j ∧ (0 ≤ j < b)%Z.
Proof.
  unfold safe_backoff, jitter. intros Hb. rewrite (proj2 (Z.leb_gt b 0)) by lia.
  rewrite Z.quot_div_nonneg by lia.
  assert (1 ≤ b / 4 < b)%Z by (split; [apply Z.div_le_lower_bound|apply Z.div_lt]; lia).
  rewrite (proj2 (Z.leb_gt _ _)) by lia. eexists. split; [done|].
  pose proof (Z.mod_pos_bound r (b / 4)). lia.
Qed.

Lemma double_safe c b :
  safe_backoff (MaxBackoff c) → safe_backoff b → safe_backoff (double c b).
Proof.
  unfold safe_backoff, double. intros HM Hb.
  rewrite wrap64_id by (unfold in_int64, int64_min, int64_max; lia).
  destruct (Z.ltb_spec (MaxBackoff c) (b * 2)); lia.
Qed.

Lemma retry_sleep_safe c rnd k b :
  safe_backoff (MaxBackoff c) → safe_backoff b →
  ∃ d, retry_sleep c rnd k b = Some d ∧ (0 ≤ d ≤ MaxBackoff c)%Z.
Proof.
  intros HM Hb. unfold retry_sleep. destruct (jitter_safe b (rnd k) Hb) as (j & -> & Hj).
  eexists. split; [done|]. unfold safe_backoff in *.
  rewrite wrap64_id by (unfold in_int64, int64_min, int64_max; lia).
  destruct (Z.ltb_spec (MaxBackoff c) (b + j)); lia.
Qed.

Lemma retry_sleep_capped c rnd k b d : retry_sleep c rnd k b = Some d → (d ≤ MaxBackoff c)%Z.
Proof.
  unfold retry_sleep. destruct (jitter b (rnd k)); [|done]. intros [= <-]. case_match; lia.
Qed.

(** An HTTP fetch with usable backoffs returns after at least one and at most
    MaxAttempts requests, goes on only after a network error or a 5xx answer, never
    sleeps longer than MaxBackoff, and on success returns the body of its last
    answer, which is within MaxBodyBytes when a cap is set. *)
Theorem fetchHTTP_contract c w target :
  (1 ≤ MaxAttempts (policy c))%Z → safe_backoff (InitialBackoff (policy c)) →
  safe_backoff (MaxBackoff (policy c)) →
  let r := fetchHTTP c w target in
  (∃ k, meets (λ k, httpAttempt c (http_do w target k)) (cancelled w) (ctx_err w)
          (wrap_error "fetch: exhausted retries: ") (Z.to_nat (MaxAttempts (policy c))) 0 r k)
  ∧ Forall (λ d, d ≤ MaxBackoff (policy c))%Z (sleeps r)
  ∧ ∀ b, out r = Some (Ok b) → (0 < MaxBodyBytes c)%Z → (Z.of_nat (str_len b) ≤ MaxBodyBytes c)%Z.
Proof.
  intros Hn Hi Hm r.
  assert (Hrun : ∃ k, meets (λ k, httpAttempt c (http_do w target k)) (cancelled w) (ctx_err w)
    (wrap_error "fetch: exhausted retries: ") (Z.to_nat (MaxAttempts (policy c))) 0 r k).
  { apply (run_meets _ _ _ _ _ safe_backoff); [|by intros; apply double_safe|done|done].
    intros k b Hb. by destruct (retry_sleep_safe (policy c) (rnd w) k b Hm Hb) as (d & -> & _). }
  split; [done|]. split; [apply attempts_sleeps; apply retry_sleep_capped|].
  intros b Hb Hpos. destruct Hrun as (k & M). rewrite (mt_out _ _ _ _ _ _ _ _ M) in Hb.
  unfold final in Hb. destruct (httpAttempt c (http_do w target k)) eqn:Ha; try done.
  injection Hb as ->. revert Ha. unfold httpAttempt. destruct (http_do w target k); try done.
  repeat case_match; try done. intros [= ->]. by eapply readBounded_bound.
Qed.

(** A backoff below four nanoseconds makes the random source panic. *)
Example tiny_backoff_panics : retry_sleep {| MaxAttempts := 3; InitialBackoff := 3; MaxBackoff := 9 |} (λ _, 0%Z) 0 3 = None.
Proof. vm_compute. reflexivity. Qed.

(** ** What a fetch can end with *)

Section Classify.
Context `{Unicode} (c : FetchConfig) (w : world).

(** Errors from outside carry none of the pipeline's own sentinels. *)
Definition foreign (e : error) : Prop := ErrUnchanged ∉ chain e ∧ ErrPoisonMessage ∉ chain e.

Record plain_world : Prop := {
  pw_http t k : match http_do w t k with
                | BadRequest e | NetworkError e => foreign e
                | Response _ b => match read_err b with Some e => foreign e | None => True end
                end;
  pw_s3 b k e : s3_fetch w b k = Err e → foreign e;
  pw_ctx : foreign (ctx_err w)
}.

(** The event cannot be fetched whatever the outside does. *)
Definition malformed (evt : IngestEvent) : bool :=
  str_empty (ev_TenantID evt) || str_empty (ev_DocumentID evt) ||
  (str_empty (ev_InlineContent evt) &&
   (str_empty (ev_FetchURL evt) ||
    match parse_url w (ev_FetchURL evt) with
    | Err _ => true
    | Ok u =>
        negb (scheme_is u "http" || scheme_is u "https") &&
        (negb (scheme_is u "s3") || str_empty (Host u) || str_empty (trim_slash (Path u)))
    end)).

Lemma foreign_not e : foreign e → errors_Is e ErrUnchanged = false ∧ errors_Is e ErrPoisonMessage = false.
Proof. intros [H1 H2]. split; by apply bool_decide_eq_false_2. Qed.

Lemma foreign_plain t : foreign {| text := t; chain := [] |}.
Proof. split; apply not_elem_of_nil. Qed.

Lemma foreign_wrap p e : (∀ x, e = Some x → foreign x) → foreign (wrap_error p e).
Proof. intros He. destruct e as [x|]; [exact (He x eq_refl)|apply foreign_plain]. Qed.

Lemma httpAttempt_foreign t k :
  plain_world → match httpAttempt c (http_do w t k) with Done _ => True | Fatal e | Transient e => foreign e end.
Proof.
  intros Hw. pose proof (pw_http Hw t k) as Hh. unfold httpAttempt.
  destruct (http_do w t k) as [e|e|st b]; try done.
  destruct (500 <=? st)%Z; [apply foreign_plain|]. destruct (400 <=? st)%Z; [apply foreign_plain|].
  destruct (readBounded b (MaxBodyBytes c)) as [x|e] eqn:Hr; [done|].
  apply readBounded_errors in Hr as [Hr| ->]; [by rewrite Hr in Hh|apply foreign_plain].
Qed.

Lemma attempts_foreign t n k b l e :
  plain_world → (∀ x, l = Some x → foreign x) →
  out (attempts (λ k, httpAttempt c (http_do w t k)) (retry_sleep (policy c) (rnd w)) (cancelled w)
         (ctx_err w) (wrap_error "fetch: exhausted retries: ") (policy c) n k b l) = Some (Err e) →
  foreign e.
Proof.
  intros Hw. revert k b l. induction n as [|n IH]; intros k b l Hl; simpl.
  { intros [= <-]. by apply foreign_wrap. }
  pose proof (httpAttempt_foreign t k Hw) as Hh.
  destruct (httpAttempt c (http_do w t k)) as [v|e'|e']; simpl; [done|by intros [= <-]|].
  destruct n as [|n]; [simpl; intros [= <-]; exact Hh|].
  destruct (retry_sleep _ _ k b); [|done].
  destruct (cancelled w k); simpl; [intros [= <-]; apply Hw|].
  apply (IH (S k) _ (Some e')). by intros ? [= <-].
Qed.

(** A body, or an error that is poison exactly when the event is malformed. *)
Lemma fetchBytes_errors evt e :
  plain_world → str_empty (ev_TenantID evt) = false → str_empty (ev_DocumentID evt) = false →
  fetchBytes c w evt = Some (Err e) →
  errors_Is e ErrUnchanged = false ∧ errors_Is e ErrPoisonMessage = malformed evt.
Proof.
  intros Hw Ht Hd. unfold fetchBytes, malformed. rewrite Ht, Hd. simpl.
  destruct (str_empty (ev_InlineContent evt)); simpl; [|done].
  destruct (str_empty (ev_FetchURL evt)); simpl; [by intros [= <-]|].
  destruct (parse_url w (ev_FetchURL evt)) as [u|pe]; simpl; [|by intros [= <-]].
  destruct (scheme_is u "http" || scheme_is u "https") eqn:Hs; simpl.
  { intros Ho. apply foreign_not. revert Ho. apply attempts_foreign; [done|]. done. }
  destruct (scheme_is u "s3"); simpl; [|by intros [= <-]].
  unfold fetchS3. destruct (str_empty (Host u) || str_empty (trim_slash (Path u))) eqn:Hk.
  { by intros [= <-]. }
  destruct (has_s3 c); simpl.
  - intros [= He]. apply foreign_not. by eapply (pw_s3 Hw).
  - intros [= <-]. apply foreign_not, foreign_plain.
Qed.

Lemma fetchBytes_malformed evt body :
  str_empty (ev_TenantID evt) = false → str_empty (ev_DocumentID evt) = false →
  malformed evt = true → fetchBytes c w evt ≠ Some (Ok body) ∧ fetchBytes c w evt ≠ None.
Proof.
  intros Ht Hd. unfold fetchBytes, malformed. rewrite Ht, Hd. simpl.
  destruct (str_empty (ev_InlineContent evt)); simpl; [|done].
  destruct (str_empty (ev_FetchURL evt)); simpl; [done|].
  destruct (parse_url w (ev_FetchURL evt)) as [u|pe]; simpl; [|done].
  destruct (scheme_is u "http" || scheme_is u "https"); simpl; [done|].
  destruct (scheme_is u "s3"); simpl; [|done]. unfold fetchS3. by intros ->.
Qed.

(** The three ways a fetch matters to the coordinator. *)
Definition ends_with (s : sentinel) (r : option (result Document error)) : Prop :=
  ∃ e, r = Some (Err e) ∧ errors_Is e s = true.

(** C20: a fetch is reported as poison exactly when the event is malformed, as
    unchanged exactly when the fetched content has the previous hash and the event
    does not force, and otherwise yields the document with the event's identity, the
    fetched bytes and their hash; no transient failure is mistaken for either. This is for
    a fetch that got its slot before the context ended, and for HTTP and S3 clients whose
    own errors do not wrap the sentinels of the pipeline. *)
Theorem FetchEvent_classifies evt :
  plain_world → slot w = true →
  (ends_with ErrPoisonMessage (FetchEvent c w evt) ↔ malformed evt = true) ∧
  (ends_with ErrUnchanged (FetchEvent c w evt) ↔
     malformed evt = false ∧
     ∃ body, fetchBytes c w evt = Some (Ok body) ∧ same_content w evt body = true) ∧
  (∀ d, FetchEvent c w evt = Some (Ok d) ↔
     malformed evt = false ∧
     ∃ body, fetchBytes c w evt = Some (Ok body) ∧ same_content w evt body = false ∧
             d = document_of w evt body).
Proof.
  intros Hw Hs. unfold FetchEvent, ends_with. rewrite Hs. simpl.
  destruct (str_empty (ev_TenantID evt) || str_empty (ev_DocumentID evt)) eqn:Hids.
  { assert (Hm : malformed evt = true) by (unfold malformed; by rewrite Hids).
    rewrite Hm. split_and!.
    - split; [done|]. intros _. by eexists.
    - split; [by intros (e & [= <-] & He)|by intros [? _]].
    - intros d. split; [done|by intros [? _]]. }
  pose proof Hids as [Ht Hd]%orb_false_iff.
  pose proof (λ body, fetchBytes_malformed evt body Ht Hd) as Hmal.
  destruct (fetchBytes c w evt) as [[body|e]|] eqn:Hf.
  - assert (Hm : malformed evt = false).
    { destruct (malformed evt) eqn:E; [|done]. by destruct (Hmal body eq_refl). }
    rewrite Hm. destruct (same_content w evt body) eqn:Hsc; split_and!.
    + split; [by intros (e & [= <-] & He)|done].
    + split; [intros _; split; [done|by exists body]|intros _; by eexists].
    + intros d. split; [done|]. intros (_ & b & [= <-] & Hn & _). by rewrite Hsc in Hn.
    + split; [by intros (e & [=] & _)|done].
    + split; [by intros (e & [=] & _)|]. intros (_ & b & [= <-] & Hn). by rewrite Hsc in Hn.
    + intros d. split; [intros [= <-]; split; [done|by exists body]|].
      by intros (_ & b & [= <-] & _ & ->).
  - destruct (fetchBytes_errors evt e Hw Ht Hd Hf) as [He1 He2]. rewrite <- He2. split_and!.
    + split; [by intros (x & [= <-] & Hx)|by exists e].
    + split; [intros (x & [= <-] & Hx); by rewrite He1 in Hx|by intros (_ & b & [=] & _)].
    + intros d. split; [done|by intros (_ & b & [=] & _)].
  - assert (Hm : malformed evt = false).
    { destruct (malformed evt) eqn:E; [|done]. by destruct (Hmal EmptyString eq_refl). }
    rewrite Hm. split_and!.
    + split; [by intros (e & [=] & _)|done].
    + split; [by intros (e & [=] & _)|by intros (_ & b & [=] & _)].
    + intros d. split; [done|by intros (_ & b & [=] & _)].
Qed.
End Classify.

(** ** The in-memory object store *)

Abbreviation objects := (gmap string string) (only parsing).
Definition object_key (bucket key : string) : string := str_app bucket (str_app "/" key).
Definition mem_Put (bucket key body : string) (m : objects) : objects :=
  <[object_key bucket key := body]> m.
Definition mem_Fetch (m : objects) (bucket key : string) : result string error :=
  match m !! object_key bucket key with
  | Some b => Ok b
  | None => Err {| text := "memory s3: object not found"; chain := [] |}
  end.

Lemma mem_Put_Fetch bucket key body m : mem_Fetch (mem_Put bucket key body m) bucket key = Ok body.
Proof. unfold mem_Fetch, mem_Put. by rewrite lookup_insert_eq. Qed.

(** ** Concrete fetches *)

Definition sample_config : FetchConfig :=
  defaults {| policy := {| MaxAttempts := 0; InitialBackoff := 0; MaxBackoff := 0 |};
              MaxBodyBytes := 0; Concurrency := 0; has_s3 := false |}.

(** A server that fails once, then answers; the hash is the identity. *)
Definition sample_world : world :=
  {| http_do := λ _ k, match k with
                       | O => Response 503 {| data := ""; read_err := None |}
                       | _ => Response 200 {| data := "body"; read_err := None |}
                       end;
     rnd := λ _, 7%Z; cancelled := λ _, false; ctx_err := {| text := "done"; chain := [CtxDone] |};
     s3_fetch := λ b k, mem_Fetch (mem_Put "b" "k" "x" ∅) b k;
     parse_url := λ s, Ok {| Scheme := "http"; Host := "h"; Path := "/p"; Full := s |};
     hash := λ s, s; slot := true; now := 5%Z |}.

Definition sample_event : IngestEvent :=
  {| ev_Kind := EventDocumentChanged; ev_TenantID := "t"; ev_SourceID := "s";
     ev_DocumentID := "d"; ev_NamespaceID := ""; ev_FetchURL := "http://h/p"; ev_Title := "";
     ev_MIMEType := ""; ev_ContentType := ""; ev_PrivacyLabel := ""; ev_PreviousHash := "";
     ev_Metadata := ∅; ev_Force := false; ev_InlineContent := ""; ev_SyncMode := SyncModeSteady;
     ev_RequestID := "" |}.

Example sample_fetch :
  FetchEvent (H := ascii_tables) sample_config sample_world sample_event =
    Some (Ok (document_of sample_world sample_event "body")).
Proof. vm_compute. reflexivity. Qed.

Lemma fetchHTTP_contract_witness :
  out (fetchHTTP sample_config sample_world "u") = Some (Ok "body") ∧
  Forall (λ d, d ≤ MaxBackoff (policy sample_config))%Z
    (sleeps (fetchHTTP sample_config sample_world "u")).
Proof.
  split; [vm_compute; reflexivity|].
  apply (fetchHTTP_contract sample_config sample_world "u");
    unfold safe_backoff; vm_compute; repeat split; discriminate.
Defined.

Lemma sample_world_plain : plain_world sample_world.
Proof.
  constructor.
  - intros t [|k]; simpl; exact I.
  - intros b k e. simpl. unfold mem_Fetch. destruct (_ !! _); [discriminate|].
    intros [= <-]. apply foreign_plain.
  - split; simpl; by intros [|?%elem_of_nil]%elem_of_cons.
Qed.

Lemma FetchEvent_classifies_witness :
  malformed (H := ascii_tables) sample_world sample_event = false ∧
  ¬ ends_with ErrPoisonMessage
      (FetchEvent (H := ascii_tables) sample_config sample_world sample_event).
Proof.
  split; [vm_compute; reflexivity|].
  intros Hp. apply (FetchEvent_classifies (H := ascii_tables) sample_config sample_world sample_event
                      sample_world_plain eq_refl) in Hp.
  vm_compute in Hp. discriminate Hp.
Defined.
End FetchStage.
