(* ===== verification/ModelStages.v ===== *)
(** * Stages 2 and 3: parsing and embedding

    [ParseStage] is internal/pipeline/parse.go, [EmbedStage] embed.go and
    [Fallback] embed_fallback.go. The parsing and embedding services are outside:
    the k-th call's answer is an argument. Embedding is proved to give the same
    vectors however the chunks are batched. *)

From Stdlib Require Import Ascii.
From S2P Require Import Prelude GoFloat GoString StageBreaker Retry CallRetry PipelineTypes Diversifier.

Import CallRetry.

(** ** gRPC errors *)

(** An error of a client call with its status code, if it has one. *)
Record call_error := { cause : error; code : option Z }.

Definition codes_DeadlineExceeded : Z := 4.
Definition codes_ResourceExhausted : Z := 8.
Definition codes_Aborted : Z := 10.
Definition codes_Unavailable : Z := 14.

Definition isRetryable (e : call_error) : bool :=
  match code e with
  | None => true
  | Some c => bool_decide (c ∈ [codes_Unavailable; codes_DeadlineExceeded;
                                codes_ResourceExhausted; codes_Aborted])
  end.

(** The loop body of [Parse] and [callLocal]: the answer of one client call. *)
Definition grpc_outcome {A B} (prefix : string) (f : A → B) (r : result A call_error)
    : outcome B error :=
  match r with
  | Ok a => Done (f a)
  | Err e => if isRetryable e then Transient (cause e)
             else Fatal (wrap_error prefix (Some (cause e)))
  end.

(** The result of a loop whose sleeps cannot panic. *)
Definition result_of {A E} (ctx_err : E) (r : trace (A := A) (E := E)) : result A E :=
  match out r with Some x => x | None => Err ctx_err end.

Module ParseStage.

(** The fields of a parsed block as the service returns them. *)
Record wire_block := {
  w_BlockId : string;
  w_Text : string;
  w_Type : Z;
  w_HeadingLevel : Z;
  w_PageNumber : Z;
  w_Position : Z
}.

Definition blockTypeName (t : Z) : string :=
  match t with
  | 1 => "paragraph" | 2 => "heading" | 3 => "list_item" | 4 => "table" | 5 => "figure"
  | 6 => "caption" | 7 => "code" | 8 => "footnote" | _ => "unknown"
  end%Z.

(** [adapt]; a nil response is an empty one. *)
Definition adapt_block (doc : Document) (b : wire_block) : Block :=
  {| BlockID := w_BlockId b; blk_Text := w_Text b; blk_Type := blockTypeName (w_Type b);
     HeadingLevel := w_HeadingLevel b; Page := w_PageNumber b; Position := w_Position b;
     blk_PrivacyLabel := doc_PrivacyLabel doc |}.
Definition adapt (doc : Document) (resp : option (list wire_block)) : list Block :=
  match resp with None => [] | Some bs => adapt_block doc <$> bs end.

Record ParseConfig := { policy : RetryPolicy; Timeout : Z }.
Definition defaults (c : ParseConfig) : ParseConfig :=
  {| policy := with_defaults (200 * millisecond) (policy c);
     Timeout := if (Timeout c =? 0)%Z then (30 * second)%Z else Timeout c |}.

Definition nil_client : error := {| text := "parse: nil Client"; chain := [] |}.
Definition NewParser (has_client : bool) (c : ParseConfig) : result ParseConfig error :=
  if has_client then Ok (defaults c) else Err nil_client.

(** What [Parse] sends. *)
Record ParseDocumentRequest := {
  rq_TenantId : string;
  rq_DocumentId : string;
  rq_Content : string;
  rq_ContentType : string;
  rq_Metadata : gmap string string
}.
Definition request_of (doc : Document) : ParseDocumentRequest :=
  {| rq_TenantId := doc_TenantID doc; rq_DocumentId := doc_DocumentID doc;
     rq_Content := doc_Content doc; rq_ContentType := doc_MIMEType doc;
     rq_Metadata := doc_Metadata doc |}.

Section Parse.
Context (c : ParseConfig) (cancelled : nat → bool) (ctx_err : error).
Context (ParseDocument : ParseDocumentRequest → nat → result (option (list wire_block)) call_error).

Definition parse_run (doc : Document) : trace :=
  run (λ k, grpc_outcome "parse: " (adapt doc) (ParseDocument (request_of doc) k)) plain_sleep
    cancelled ctx_err (wrap_error "parse: exhausted retries: ") (policy c).

Definition Parse (doc : option Document) : result (list Block) error :=
  match doc with
  | None => Err {| text := "parse: nil doc"; chain := [] |}
  | Some d => result_of ctx_err (parse_run d)
  end.

(** Every parsed block carries the privacy label of its document, and the blocks
    are those of one answer of the service, in its order. *)
Theorem Parse_blocks doc bs :
  (1 ≤ MaxAttempts (policy c))%Z → Parse (Some doc) = Ok bs →
  (∃ k resp, k < Z.to_nat (MaxAttempts (policy c)) ∧
     ParseDocument (request_of doc) k = Ok resp ∧ bs = adapt doc resp) ∧
  Forall (λ b, blk_PrivacyLabel b = doc_PrivacyLabel doc) bs.
Proof.
  intros Hn. unfold Parse, result_of, parse_run.
  destruct (run_meets (λ k, grpc_outcome "parse: " (adapt doc) (ParseDocument (request_of doc) k))
    plain_sleep cancelled ctx_err (wrap_error "parse: exhausted retries: ") (λ _, True) (policy c))
    as (k & M); [done|done|done|done|].
  rewrite (mt_out _ _ _ _ _ _ _ _ M). unfold final, grpc_outcome.
  destruct (ParseDocument (request_of doc) k) as [resp|e] eqn:Hp.
  - intros [= <-]. split.
    + exists k, resp. split; [apply M|done].
    + unfold adapt. destruct resp as [ws|]; [|constructor]. by apply Forall_fmap, Forall_true.
  - by destruct (isRetryable e).
Qed.

(** A refusal of the service that is not transient is reported at once. *)
Theorem Parse_permanent doc e :
  (1 ≤ MaxAttempts (policy c))%Z → ParseDocument (request_of doc) 0 = Err e →
  isRetryable e = false →
  Parse (Some doc) = Err (wrap_error "parse: " (Some (cause e))) ∧ calls (parse_run doc) = 1.
Proof.
  intros Hn He Hr. unfold Parse, result_of, parse_run, run.
  destruct (Z.to_nat (MaxAttempts (policy c))) as [|n] eqn:En; [lia|].
  simpl. unfold grpc_outcome. by rewrite He, Hr.
Qed.
End Parse.
End ParseStage.

Module EmbedStage.

Abbreviation embedding := (list float) (only parsing).

Record EmbedConfig := {
  policy : RetryPolicy;
  BatchSize : Z;
  Timeout : Z;
  ModelID : string
}.
Definition defaults (c : EmbedConfig) : EmbedConfig :=
  {| policy := with_defaults (200 * millisecond) (policy c);
     BatchSize := if (BatchSize c =? 0)%Z then 32 else BatchSize c;
     Timeout := if (Timeout c =? 0)%Z then (30 * second)%Z else Timeout c;
     ModelID := ModelID c |}.

Definition NewEmbedder (has_local : bool) (c : EmbedConfig) : result EmbedConfig error :=
  if has_local then Ok (defaults c) else Err {| text := "embed: nil Local client"; chain := [] |}.

Record ComputeEmbeddingsRequest := { eq_TenantId : string; eq_Chunks : list string; eq_ModelId : string }.
Record ComputeEmbeddingsResponse := { er_Embeddings : list embedding; er_ModelId : string }.

Section Embed.
Context (c : EmbedConfig).
(** The local service: the k-th call of the b-th batch; the remote one; the policy
    that allows it; the per-source model; the context during each batch's sleeps. *)
Context (local : ComputeEmbeddingsRequest → nat → result ComputeEmbeddingsResponse call_error).
Context (remote : option (string → list string → result (list embedding * string) error)).
Context (AllowRemote : string → bool).
Context (resolver : option (string → string → string)).
Context (cancelled : nat → bool) (ctx_err : error).

(** [callLocal]: the vectors and the model of one batch. *)
Definition callLocal (tenantID : string) (batch : list string) (modelID : string)
    : result (list embedding * string) error :=
  let req := {| eq_TenantId := tenantID; eq_Chunks := batch; eq_ModelId := modelID |} in
  result_of ctx_err
    (run (λ k, grpc_outcome "embed: " (λ r, (er_Embeddings r, er_ModelId r)) (local req k))
       plain_sleep cancelled ctx_err (wrap_error "embed: exhausted retries: ") (policy c)).

(** The batch loop; [None] is the panic of a slice with a negative bound. Every
    round consumes a batch, so the number of chunks is enough fuel. *)
Fixpoint batches (fuel : nat) (tenantID modelID : string) (chunks : list string)
    (acc : list embedding) (model : string) : option (result (list embedding * string) error) :=
  match fuel, chunks with
  | _, [] => Some (Ok (acc, model))
  | O, _ => None
  | S n, _ =>
      if (BatchSize c <? 0)%Z then None
      else
        let size := Z.to_nat (BatchSize c) in
        match callLocal tenantID (take size chunks) modelID with
        | Err e => Some (Err e)
        | Ok (em, m) =>
            batches n tenantID modelID (drop size chunks) (acc ++ em)
              (if str_empty model then m else model)
        end
  end.

Definition embed_local (tenantID modelID : string) (chunks : list string)
    : option (result (list embedding * string) error) :=
  batches (length chunks) tenantID modelID chunks [] EmptyString.

Definition embedWithModel (tenantID : string) (chunks : list string) (modelID : string)
    : option (result (list embedding * string) error) :=
  match chunks with
  | [] => Some (Ok ([], EmptyString))
  | _ =>
      match remote with
      | Some r =>
          if AllowRemote tenantID then
            match r tenantID chunks with
            | Ok out => Some (Ok out)
            | Err _ => embed_local tenantID modelID chunks
            end
          else embed_local tenantID modelID chunks
      | None => embed_local tenantID modelID chunks
      end
  end.

Definition model_for (tenantID sourceID : string) : string :=
  match resolver with
  | Some f => if negb (str_empty sourceID) && negb (str_empty (f tenantID sourceID))
              then f tenantID sourceID else ModelID c
  | None => ModelID c
  end.

Definition EmbedBlocksForSource (tenantID sourceID : string) (blocks : list Block)
    : option (result (list embedding * string) error) :=
  embedWithModel tenantID (blk_Text <$> blocks) (model_for tenantID sourceID).
Definition EmbedBlocks (tenantID : string) (blocks : list Block) := EmbedBlocksForSource tenantID EmptyString blocks.
Definition EmbedTexts (tenantID : string) (chunks : list string) :=
  embedWithModel tenantID chunks (ModelID c).

(** ** Batching is invisible *)

(** A service that answers every request within the retry budget, after any number of
    transient failures, with one vector per chunk that depends on that chunk only, and
    that names one model; the context does not end during a backoff. *)
Record faithful (embed_one : string → embedding) (model : string) : Prop := {
  fa_answers req : ∃ k, (Z.of_nat k < MaxAttempts (policy c))%Z ∧
    (∀ j, j < k → ∃ e, local req j = Err e ∧ isRetryable e = true) ∧
    local req k = Ok {| er_Embeddings := embed_one <$> eq_Chunks req; er_ModelId := model |};
  fa_running k : cancelled k = false
}.

Lemma callLocal_faithful embed_one model tenantID batch modelID :
  faithful embed_one model → callLocal tenantID batch modelID = Ok (embed_one <$> batch, model).
Proof.
  intros Hf. unfold callLocal, result_of, run.
  set (req := {| eq_TenantId := tenantID; eq_Chunks := batch; eq_ModelId := modelID |}).
  destruct (fa_answers _ _ Hf req) as (k & Hk & Ht & Ha).
  erewrite (attempts_answer _ _ _ _ _ _ _ _ _ _ k); [reflexivity|done|lia| |].
  - intros j [_ Hj]. destruct (Ht j Hj) as (e & He & Hr). unfold grpc_outcome. rewrite He, Hr.
    split; [done|apply (fa_running _ _ Hf)].
  - unfold grpc_outcome. by rewrite Ha.
Qed.

Lemma batches_faithful embed_one model fuel tenantID modelID chunks acc m :
  faithful embed_one model → (0 < BatchSize c)%Z →
  length chunks ≤ fuel → (m = EmptyString ∨ m = model) →
  batches fuel tenantID modelID chunks acc m =
    Some (Ok (acc ++ (embed_one <$> chunks), if str_empty m then (if length chunks =? 0 then m else model)%nat else m)).
Proof.
  intros Hf Hb. revert chunks acc m. induction fuel as [|n IH]; intros chunks acc m Hl Hm.
  { destruct chunks; [|simpl in Hl; lia]. simpl. rewrite app_nil_r. by destruct (str_empty m). }
  destruct chunks as [|x chunks]; simpl batches.
  { simpl. rewrite app_nil_r. by destruct (str_empty m). }
  rewrite (proj2 (Z.ltb_ge _ _)) by lia.
  destruct (Z.to_nat (BatchSize c)) as [|s] eqn:Es; [lia|].
  rewrite (callLocal_faithful embed_one model) by done.
  rewrite IH.
  - rewrite <- app_assoc, <- fmap_app, take_drop. do 3 f_equal.
    destruct Hm as [->| ->]; simpl; destruct (str_empty model) eqn:E; simpl; rewrite ?E; try done;
      apply str_empty_true in E; subst; by case_match.
  - rewrite length_drop. simpl in *. lia.
  - destruct (str_empty m); [by right|destruct Hm as [->| ->]; auto].
Qed.

(** C24: with a positive batch size, and against a local service that embeds each chunk
    by itself and answers every request within the retry budget, possibly after
    transient failures, the embedder returns one vector per block, in the order of the
    blocks, whatever that batch size, and the service's model (none for no blocks).
    The remote service is absent, not allowed for the tenant, or fails, and the context does
    not end during a backoff. *)
Theorem EmbedBlocks_batching_invisible embed_one model tenantID sourceID blocks :
  faithful embed_one model → (0 < BatchSize c)%Z →
  (∀ r, remote = Some r → AllowRemote tenantID = true →
     ∃ e, r tenantID (blk_Text <$> blocks) = Err e) →
  EmbedBlocksForSource tenantID sourceID blocks =
    Some (Ok ((λ b, embed_one (blk_Text b)) <$> blocks,
              if (length blocks =? 0)%nat then EmptyString else model)).
Proof.
  intros Hf Hb Hr. unfold EmbedBlocksForSource, embedWithModel, embed_local.
  destruct blocks as [|b bs]; [done|]. rewrite fmap_cons.
  rewrite (batches_faithful embed_one model) by (done || by left).
  assert (Hout : Some (Ok ([] ++ (embed_one <$> blk_Text b :: (blk_Text <$> bs)),
      if str_empty EmptyString then (if length (blk_Text b :: (blk_Text <$> bs)) =? 0 then EmptyString else model)%nat
      else EmptyString)) =
    Some (@Ok _ error ((λ b, embed_one (blk_Text b)) <$> b :: bs,
              if (length (b :: bs) =? 0)%nat then EmptyString else model)))
    by (simpl; by rewrite <- list_fmap_compose).
  destruct remote as [r|]; [|done]. destruct (AllowRemote tenantID); [|done].
  destruct (Hr r eq_refl eq_refl) as [e He]. rewrite fmap_cons in He. by rewrite He.
Qed.

(** Requests to the local service: never more than [BatchSize] chunks, and together
    exactly the chunks, in order. *)
Fixpoint batch_list (fuel : nat) (chunks : list string) : list (list string) :=
  match fuel, chunks with
  | S n, _ :: _ =>
      take (Z.to_nat (BatchSize c)) chunks :: batch_list n (drop (Z.to_nat (BatchSize c)) chunks)
  | _, _ => []
  end.

Lemma batch_list_spec fuel chunks :
  (0 < BatchSize c)%Z → length chunks ≤ fuel →
  concat (batch_list fuel chunks) = chunks ∧
  Forall (λ b, (Z.of_nat (length b) ≤ BatchSize c)%Z) (batch_list fuel chunks).
Proof.
  intros Hb. revert chunks. induction fuel as [|n IH]; intros [|x chunks] Hl; simpl in Hl; try lia;
    try by split; [|constructor].
  destruct (IH (drop (Z.to_nat (BatchSize c)) (x :: chunks))) as [H1 H2].
  { rewrite length_drop. simpl. lia. }
  cbn [batch_list]. split.
  - simpl concat. by rewrite H1, take_drop.
  - constructor; [|done]. rewrite length_take. lia.
Qed.

(** The local path as a fold over that list of requests. *)
Fixpoint call_all (tenantID modelID : string) (bs : list (list string)) (acc : list embedding)
    (model : string) : result (list embedding * string) error :=
  match bs with
  | [] => Ok (acc, model)
  | b :: bs' =>
      let! (em, m) := callLocal tenantID b modelID in
      call_all tenantID modelID bs' (acc ++ em) (if str_empty model then m else model)
  end.

Lemma batches_call_all fuel tenantID modelID chunks acc model :
  (0 < BatchSize c)%Z → length chunks ≤ fuel →
  batches fuel tenantID modelID chunks acc model =
    Some (call_all tenantID modelID (batch_list fuel chunks) acc model).
Proof.
  intros Hb. revert chunks acc model. induction fuel as [|n IH]; intros [|x chunks] acc model Hl;
    try done; [simpl in Hl; lia|].
  cbn [batches batch_list call_all]. rewrite (proj2 (Z.ltb_ge _ _)) by lia.
  destruct (callLocal tenantID _ modelID) as [[em m]|e]; simpl; [|done].
  apply IH. rewrite length_drop. simpl in *. lia.
Qed.

(** The local path returns, whatever the service answers: it sends the chunks in
    order, split into requests of at most BatchSize chunks, and stops at the first
    request that fails. *)
Theorem embed_local_requests tenantID modelID chunks :
  (0 < BatchSize c)%Z →
  ∃ bs, concat bs = chunks ∧ Forall (λ b, (Z.of_nat (length b) ≤ BatchSize c)%Z) bs ∧
    embed_local tenantID modelID chunks = Some (call_all tenantID modelID bs [] EmptyString).
Proof.
  intros Hb. exists (batch_list (length chunks) chunks).
  destruct (batch_list_spec (length chunks) chunks Hb) as [H1 H2]; [done|].
  split_and!; [done|done|]. by apply batches_call_all.
Qed.
End Embed.

(** ** A concrete service *)

Definition sample_config : EmbedConfig :=
  {| policy := {| MaxAttempts := 3; InitialBackoff := 1; MaxBackoff := 1 |}; BatchSize := 2;
     Timeout := 1; ModelID := "m" |}.
(** The vector of a chunk is its length. *)
Definition sample_one (s : string) : embedding := [f32_of_Z (Z.of_nat (str_len s))].
Definition sample_local (req : ComputeEmbeddingsRequest) (k : nat)
    : result ComputeEmbeddingsResponse call_error :=
  Ok {| er_Embeddings := sample_one <$> eq_Chunks req; er_ModelId := eq_ModelId req |}.
Definition sample_fixed (req : ComputeEmbeddingsRequest) (k : nat)
    : result ComputeEmbeddingsResponse call_error :=
  Ok {| er_Embeddings := sample_one <$> eq_Chunks req; er_ModelId := "m" |}.
Definition sample_blocks : list Block :=
  (λ t, {| BlockID := t; blk_Text := t; blk_Type := ""; HeadingLevel := 0; Page := 0; Position := 0;
           blk_PrivacyLabel := "" |}) <$> ["a"; "bb"; "ccc"].
Definition no_error : error := {| text := ""; chain := [] |}.

(** The first attempt of every request is refused as unavailable; the remote service
    is down. *)
Definition sample_flaky (req : ComputeEmbeddingsRequest) (k : nat)
    : result ComputeEmbeddingsResponse call_error :=
  if (k =? 0)%nat then Err {| cause := no_error; code := Some codes_Unavailable |}
  else sample_fixed req k.

Lemma EmbedBlocks_batching_invisible_witness :
  faithful sample_config sample_flaky (λ _, false) sample_one "m" ∧
  EmbedBlocksForSource sample_config sample_flaky (Some (λ _ _, Err no_error)) (λ _, true) None
    (λ _, false) no_error "t" "s" sample_blocks =
    Some (Ok ((λ b, sample_one (blk_Text b)) <$> sample_blocks, "m")).
Proof.
  assert (Hf : faithful sample_config sample_flaky (λ _, false) sample_one "m").
  { constructor; [|reflexivity]. intros req. exists 1. split; [reflexivity|]. split; [|reflexivity].
    intros j Hj. assert (j = 0) as -> by lia. eexists. split; reflexivity. }
  split; [exact Hf|].
  apply (EmbedBlocks_batching_invisible sample_config sample_flaky (Some (λ _ _, Err no_error))
           (λ _, true) None (λ _, false) no_error sample_one "m" "t" "s" sample_blocks).
  - exact Hf.
  - reflexivity.
  - intros r [= <-] _. eexists. reflexivity.
Defined.

Lemma embed_local_requests_witness :
  ∃ bs, concat bs = ["a"; "bb"; "ccc"] ∧
    Forall (λ b, (Z.of_nat (length b) ≤ BatchSize sample_config)%Z) bs ∧
    embed_local sample_config sample_local (λ _, false) no_error "t" "m" ["a"; "bb"; "ccc"] =
    Some (call_all sample_config sample_local (λ _, false) no_error "t" "m" bs [] EmptyString).
Proof.
  apply (embed_local_requests sample_config sample_local (λ _, false) no_error "t" "m"
           ["a"; "bb"; "ccc"]). reflexivity.
Defined.
End EmbedStage.

Module Fallback.

Local Open Scope Z_scope.

Definition FallbackDim : nat := 256.
Definition FallbackModelID : string := "hf-fallback-v1".
Definition ErrFallbackDisabled : string := "pipeline: embedding fallback disabled".

(** [utf8.AppendRune]. *)
Definition encode_rune (r : N) : bytes :=
  let r := if ((1114111 <? r) || ((55296 <=? r) && (r <=? 57343)))%N then rune_error else r in
  let b n := ascii_of_N n in
  if (r <? 128)%N then [b r]
  else if (r <? 2048)%N then [b (192 + r / 64); b (128 + r `mod` 64)]%N
  else if (r <? 65536)%N then
    [b (224 + r / 4096); b (128 + (r / 64) `mod` 64); b (128 + r `mod` 64)]%N
  else [b (240 + r / 262144); b (128 + (r / 4096) `mod` 64); b (128 + (r / 64) `mod` 64);
        b (128 + r `mod` 64)]%N.

(** [hash/fnv.New32a]. *)
Definition fnv32a (l : bytes) : Z :=
  foldl (λ h c, (Z.lxor h (Z.of_N (byte_val c)) * 16777619) `mod` 2 ^ 32) 2166136261 l.

Definition bucket (tok : list N) : nat :=
  Z.to_nat (fnv32a (tok ≫= encode_rune) `mod` Z.of_nat FallbackDim).

Definition zeros : list float := replicate FallbackDim f_zero.

Definition add_token (vec : list float) (tok : list N) : list float :=
  alter (λ v, f32_add v (f32_of_Z 1)) (bucket tok) vec.

Definition sum_squares (vec : list float) : float :=
  foldl (λ s v, f64_add s (f64_mul (f64_of_f32 v) (f64_of_f32 v))) f_zero vec.

Definition normalise (vec : list float) : list float :=
  let sumSq := sum_squares vec in
  if f_eqb sumSq f_zero then vec
  else
    let norm := f32_of_f64 (f64_div (f64_of_Z 1) (f64_sqrt sumSq)) in
    (λ v, f32_mul v norm) <$> vec.

Definition embed_tokens (tokens : list (list N)) : list float :=
  normalise (foldl add_token zeros tokens).

Section Tables.
Context `{Unicode}.

(** [tokenize]: the lower-cased runs of letters and numbers. *)
Definition tokenize (s : string) : list (list N) := MMR.fields [] (lower_runes s).

Definition hashEmbed (text : string) : list float := embed_tokens (tokenize text).

(** [EmbedWithReason]; [Embed] is the same with the reason "unknown". [None] is the
    nil embedder. *)
Definition EmbedWithReason (f : option bool) (chunks : list string)
    : result (list (list float) * string) string :=
  match f with
  | Some true => Ok (hashEmbed <$> chunks, FallbackModelID)
  | _ => Err ErrFallbackDisabled
  end.
End Tables.

Lemma bucket_range tok : (bucket tok < FallbackDim)%nat.
Proof.
  unfold bucket. pose proof (Z.mod_pos_bound (fnv32a (tok ≫= encode_rune)) (Z.of_nat FallbackDim)).
  unfold FallbackDim in *. lia.
Qed.

Lemma fold_add_length tokens vec : length (foldl add_token vec tokens) = length vec.
Proof.
  revert vec. induction tokens as [|t l IH]; intros vec; simpl; [done|].
  rewrite IH. apply length_alter.
Qed.

Lemma add_token_comm vec a b : add_token (add_token vec a) b = add_token (add_token vec b) a.
Proof.
  unfold add_token. destruct (decide (bucket a = bucket b)) as [->|Hne]; [done|].
  by apply list_alter_alter_ne.
Qed.

Lemma fold_add_perm tokens tokens' vec :
  tokens ≡ₚ tokens' → foldl add_token vec tokens = foldl add_token vec tokens'.
Proof.
  intros Hp. revert vec. induction Hp as [|t l l' _ IH|a b l|l1 l2 l3 _ IH1 _ IH2]; intros vec; simpl;
    [done|apply IH| |].
  - by rewrite add_token_comm.
  - by rewrite IH1.
Qed.

(** Every vector of the fallback has exactly FallbackDim entries, and it does not
    depend on the order of the words of the text. *)
Theorem embed_tokens_shape tokens tokens' :
  length (embed_tokens tokens) = FallbackDim ∧
  (tokens ≡ₚ tokens' → embed_tokens tokens = embed_tokens tokens').
Proof.
  split.
  - unfold embed_tokens, normalise. case_match; rewrite ?length_fmap, fold_add_length;
      apply length_replicate.
  - intros Hp. unfold embed_tokens. by rewrite (fold_add_perm _ _ _ Hp).
Qed.

(** A text without words gets the zero vector, which is similar to nothing. *)
Lemma embed_tokens_nil : embed_tokens [] = zeros.
Proof. vm_compute. reflexivity. Qed.

(** The reference values of the hash. *)
Example fnv32a_empty : fnv32a [] = 2166136261.
Proof. reflexivity. Qed.
Example fnv32a_a : fnv32a (to_bytes "a") = 3826002220.
Proof. vm_compute. reflexivity. Qed.
Example fnv32a_foobar : fnv32a (to_bytes "foobar") = 3214735720.
Proof. vm_compute. reflexivity. Qed.

Lemma embed_tokens_shape_witness :
  embed_tokens [[97%N]; [98%N]] = embed_tokens [[98%N]; [97%N]].
Proof. apply (embed_tokens_shape [[97%N]; [98%N]] [[98%N]; [97%N]]). constructor. Defined.
End Fallback.
