(* ===== verification/Effects.v ===== *)
(** * State and failure

    The monad of code that changes a store through calls that may fail. A call to a
    database or a service ends in one of three ways: it took effect, it failed
    without effect, or it reports a failure although it took effect (a lost reply).
    Which one, and the readings of the clock before the call, are decided outside, by
    the number of the call. *)

From S2P Require Import Prelude.

Inductive Fate := Performed | Refused | ReplyLost.

#[export] Instance Fate_eq : EqDecision Fate.
Proof. solve_decision. Defined.

Class Outside := {
  fate : nat → Fate;
  clock : nat → nat → Time   (** the k-th reading before the n-th call *)
}.

(** Nothing fails and the clock advances. *)
Definition calm : Outside := {| fate := λ _, Performed; clock := λ n _, Z.of_nat n |}.

Section Monad.
Context {S E : Type}.

(** The store and the number of the next call. *)
Record Env := { store : S; calls_made : nat }.

Definition Eff (A : Type) : Type := Env → result A E * Env.

Definition eret {A} (a : A) : Eff A := λ w, (Ok a, w).
Definition ethrow {A} (e : E) : Eff A := λ w, (Err e, w).
Definition ebind {A B} (m : Eff A) (k : A → Eff B) : Eff B := λ w,
  match m w with
  | (Ok a, w') => k a w'
  | (Err e, w') => (Err e, w')
  end.

(** A call: the answer and the change it makes, and the error it reports. *)
Definition ecall `{Outside} {A} (err : E) (f : S → A * S) : Eff A := λ w,
  let '(a, s') := f (store w) in
  let n := Datatypes.S (calls_made w) in
  match fate (calls_made w) with
  | Performed => (Ok a, {| store := s'; calls_made := n |})
  | Refused => (Err err, {| store := store w; calls_made := n |})
  | ReplyLost => (Err err, {| store := s'; calls_made := n |})
  end.

(** A call that only reads. *)
Definition eread `{Outside} {A} (err : E) (f : S → A) : Eff A := ecall err (λ s, (f s, s)).
Definition ewrite `{Outside} (err : E) (f : S → S) : Eff unit := ecall err (λ s, (tt, f s)).

(** [fmt.Errorf] around the error of a call. *)
Definition emap_err {A} (f : E → E) (m : Eff A) : Eff A := λ w,
  match m w with
  | (Ok a, w') => (Ok a, w')
  | (Err e, w') => (Err (f e), w')
  end.

(** ** Reasoning *)

(** A Hoare triple: from a store with [P], a success leaves [Q] and a failure, at
    whichever call, leaves [R]. *)
Definition triple {A} (P : S → Prop) (m : Eff A) (Q : A → S → Prop) (R : S → Prop) : Prop :=
  ∀ w, P (store w) →
    match m w with
    | (Ok a, w') => Q a (store w')
    | (Err _, w') => R (store w')
    end.

Lemma triple_ret {A} (P : S → Prop) (a : A) (Q : A → S → Prop) R :
  (∀ s, P s → Q a s) → triple P (eret a) Q R.
Proof. intros HQ w Hw. by apply HQ. Qed.

Lemma triple_throw {A} (P : S → Prop) e (Q : A → S → Prop) R :
  (∀ s, P s → R s) → triple P (ethrow e) Q R.
Proof. intros HR w Hw. by apply HR. Qed.

Lemma triple_bind {A B} P (m : Eff A) (k : A → Eff B) Q Q' R :
  triple P m Q R → (∀ a, triple (Q a) (k a) Q' R) → triple P (ebind m k) Q' R.
Proof.
  intros Hm Hk w Hw. unfold ebind. specialize (Hm w Hw).
  destruct (m w) as [[a|e] w']; [|done]. by apply (Hk a w').
Qed.

Lemma triple_call `{Outside} {A} (P : S → Prop) err (f : S → A * S) (Q : A → S → Prop) (R : S → Prop) :
  (∀ s, P s → Q (f s).1 (f s).2 ∧ R s ∧ R (f s).2) → triple P (ecall err f) Q R.
Proof.
  intros Hf w Hw. unfold ecall. specialize (Hf (store w) Hw).
  destruct (f (store w)) as [a s']. destruct (fate (calls_made w)); naive_solver.
Qed.

Lemma triple_read `{Outside} {A} (P : S → Prop) err (f : S → A) (Q : A → S → Prop) (R : S → Prop) :
  (∀ s, P s → Q (f s) s ∧ R s) → triple P (eread err f) Q R.
Proof. intros Hf. apply triple_call. intros s Hs. simpl. naive_solver. Qed.

Lemma triple_write `{Outside} (P : S → Prop) err (f : S → S) (Q : unit → S → Prop) (R : S → Prop) :
  (∀ s, P s → Q tt (f s) ∧ R s ∧ R (f s)) → triple P (ewrite err f) Q R.
Proof. intros Hf. by apply triple_call. Qed.

(** A computation that first looks at the state of the world, as the clock does. *)
Lemma triple_here {A} (P : S → Prop) (m : Env → Eff A) (Q : A → S → Prop) (R : S → Prop) :
  (∀ w, triple P (m w) Q R) → triple P (λ w, m w w) Q R.
Proof. intros Hm w Hw. by apply (Hm w w). Qed.

Lemma triple_emap {A} (P : S → Prop) (f : E → E) (m : Eff A) (Q : A → S → Prop) R :
  triple P m Q R → triple P (emap_err f m) Q R.
Proof.
  intros Hm w Hw. specialize (Hm w Hw). unfold emap_err. by destruct (m w) as [[a|e] w'].
Qed.

Lemma triple_weaken {A} (P P' : S → Prop) (m : Eff A) (Q Q' : A → S → Prop) (R R' : S → Prop) :
  triple P m Q R → (∀ s, P' s → P s) → (∀ a s, Q a s → Q' a s) → (∀ s, R s → R' s) →
  triple P' m Q' R'.
Proof.
  intros Hm HP HQ HR w Hw. specialize (Hm w (HP _ Hw)). destruct (m w) as [[a|e] w']; auto.
Qed.

(** A run that succeeded, step by step. *)
Lemma ebind_Ok {A B} (m : Eff A) (k : A → Eff B) w b w' :
  ebind m k w = (Ok b, w') ↔ ∃ a w1, m w = (Ok a, w1) ∧ k a w1 = (Ok b, w').
Proof.
  unfold ebind. destruct (m w) as [[a|e] w1]; [naive_solver|].
  split; [done|]. by intros (? & ? & [=] & _).
Qed.

Lemma ecall_Ok `{Outside} {A} err (f : S → A * S) w a w' :
  ecall err f w = (Ok a, w') →
  a = (f (store w)).1 ∧ store w' = (f (store w)).2 ∧ fate (calls_made w) = Performed.
Proof.
  unfold ecall. destruct (f (store w)) as [x s']. destruct (fate (calls_made w)); try done.
  by intros [= <- <-].
Qed.

Lemma eread_store `{Outside} {A} e (f : S → A) w r w' :
  eread e f w = (r, w') → store w' = store w.
Proof. unfold eread, ecall. by destruct (fate (calls_made w)); intros [= <- <-]. Qed.

Lemma eread_Ok `{Outside} {A} err (f : S → A) w a w' :
  eread err f w = (Ok a, w') → a = f (store w) ∧ store w' = store w.
Proof. unfold eread. intros (-> & -> & _)%ecall_Ok. done. Qed.

Lemma ewrite_Ok `{Outside} err (f : S → S) w a w' :
  ewrite err f w = (Ok a, w') → store w' = f (store w).
Proof. unfold ewrite. intros (_ & -> & _)%ecall_Ok. done. Qed.

Lemma emap_Ok {A} (f : E → E) (m : Eff A) w a w' :
  emap_err f m w = (Ok a, w') ↔ m w = (Ok a, w').
Proof. unfold emap_err. destruct (m w) as [[x|e] w1]; naive_solver. Qed.

Lemma ethrow_Ok {A} (e : E) w (a : A) w' : ethrow e w = (Ok a, w') ↔ False.
Proof. done. Qed.
End Monad.

Arguments Env : clear implicits.
Arguments Eff S E A : clear implicits.

Notation "'let@' x ':=' m 'in' k" := (ebind m (λ x, k))
  (at level 10, x pattern, m at level 100, k at level 200) : go_scope.
