(* ===== verification/ChunkStores.v ===== *)
(** * The stores of chunks

    [PostgresStore] of internal/storage/postgres.go, which keeps one metadata row per
    chunk, and [QdrantClient] of internal/storage/qdrant.go, which keeps one vector
    per chunk in a collection per tenant. The database and the vector engine are
    outside; what is relied on is that a save or an upsert replaces by id, that a
    transaction is atomic, and that a search returns points of the collection that
    satisfy the filter it was given. *)

From S2P Require Import Prelude GoFloat GoString StageBreaker Retry CallRetry Effects.

Module ChunkStores.

Record Chunk := {
  ck_ID : string;
  ck_TenantID : string;
  ck_SourceID : string;
  ck_DocumentID : string;
  ck_NamespaceID : string;
  ck_BlockID : string;
  ck_ContentHash : string;
  ck_Title : string;
  ck_URI : string;
  ck_Connector : string;
  ck_PrivacyLabel : string;
  ck_Text : string;
  ck_Model : string;
  ck_CreatedAt : Time;
  ck_UpdatedAt : Time
}.

Record QdrantPoint := {
  pt_ID : string;
  pt_Vector : list float;
  pt_Payload : gmap string string
}.

Record Stores := {
  rows : gmap string Chunk;
  collections : gmap string (gmap string QdrantPoint)
}.
Definition set_rows (f : gmap string Chunk → gmap string Chunk) (s : Stores) : Stores :=
  {| rows := f (rows s); collections := collections s |}.
Definition points_of (s : Stores) (col : string) : gmap string QdrantPoint :=
  default ∅ (collections s !! col).
Definition set_points (col : string) (f : gmap string QdrantPoint → gmap string QdrantPoint)
    (s : Stores) : Stores :=
  {| rows := rows s; collections := <[col := f (points_of s col)]> (collections s) |}.

Definition ErrMissingTenantScope : error := {| text := "storage: missing tenant_scope"; chain := [] |}.
Definition sql_error (op : string) : error := {| text := str_app "postgres: " op; chain := [] |}.
Definition http_error (op : string) : error := {| text := str_app "qdrant: " op; chain := [] |}.

Abbreviation M := (Eff Stores error) (only parsing).

Section Stores.
Context `{Outside}.

(** ** Metadata *)

(** The first chunk of another tenant. *)
Fixpoint mismatch (i : nat) (tenantID : string) (cs : list Chunk) : option nat :=
  match cs with
  | [] => None
  | c :: cs' => if str_eqb (ck_TenantID c) tenantID then mismatch (S i) tenantID cs' else Some i
  end.

Definition stamp (now : Time) (c : Chunk) : Chunk :=
  {| ck_ID := ck_ID c; ck_TenantID := ck_TenantID c; ck_SourceID := ck_SourceID c;
     ck_DocumentID := ck_DocumentID c; ck_NamespaceID := ck_NamespaceID c;
     ck_BlockID := ck_BlockID c; ck_ContentHash := ck_ContentHash c; ck_Title := ck_Title c;
     ck_URI := ck_URI c; ck_Connector := ck_Connector c; ck_PrivacyLabel := ck_PrivacyLabel c;
     ck_Text := ck_Text c; ck_Model := ck_Model c;
     ck_CreatedAt := if time_is_zero (ck_CreatedAt c) then now else ck_CreatedAt c;
     ck_UpdatedAt := now |}.
Definition stamp_all (nows : nat → Time) (cs : list Chunk) : list Chunk :=
  imap (λ i c, stamp (nows i) c) cs.

(** [Save] of each chunk in turn. *)
Definition save_all (cs : list Chunk) (m : gmap string Chunk) : gmap string Chunk :=
  foldl (λ m c, <[ck_ID c := c]> m) m cs.

Definition UpsertChunks (tenantID : string) (cs : list Chunk) : M unit :=
  if str_empty tenantID then ethrow ErrMissingTenantScope
  else match cs with
       | [] => eret tt
       | _ =>
           match mismatch 0 tenantID cs with
           | Some i => ethrow (sql_error (str_app "chunk " (str_app (str_of_nat i) " tenant mismatch")))
           | None => λ w, ewrite (sql_error "save chunk")
                            (set_rows (save_all (stamp_all (clock (calls_made w)) cs))) w
           end
       end.

Definition row_of (tenantID documentID : string) (c : Chunk) : bool :=
  str_eqb (ck_TenantID c) tenantID && str_eqb (ck_DocumentID c) documentID.

Definition doc_rows (tenantID documentID : string) (m : gmap string Chunk) : gmap string Chunk :=
  filter (λ kv, row_of tenantID documentID kv.2 = true) m.

Definition FetchChunks (tenantID : string) (ids : list string) : M (list Chunk) :=
  if str_empty tenantID then ethrow ErrMissingTenantScope
  else match ids with
       | [] => eret []
       | _ => eread (sql_error "fetch chunks") (λ s,
                snd <$> map_to_list (filter (λ kv, ck_TenantID kv.2 = tenantID ∧ kv.1 ∈ ids) (rows s)))
       end.

(** [ORDER BY updated_at DESC, id LIMIT 1]. *)
Definition newer (a b : Chunk) : bool :=
  (ck_UpdatedAt b <? ck_UpdatedAt a)%Z
  || (ck_UpdatedAt a =? ck_UpdatedAt b)%Z && str_ltb (ck_ID a) (ck_ID b).
Definition latest (m : gmap string Chunk) : option Chunk :=
  head (sort_by newer (snd <$> map_to_list m)).

Definition LatestHashForDocument (tenantID documentID : string) : M string :=
  if str_empty tenantID then ethrow ErrMissingTenantScope
  else if str_empty documentID then ethrow (sql_error "document_id required")
  else eread (sql_error "latest hash") (λ s,
         match latest (doc_rows tenantID documentID (rows s)) with
         | Some c => ck_ContentHash c
         | None => EmptyString
         end).

Definition ids_of (m : gmap string Chunk) : list string := fst <$> map_to_list m.

Definition DeleteByDocument (tenantID documentID : string) : M (list string) :=
  if str_empty tenantID then ethrow ErrMissingTenantScope
  else
    let@ ids := eread (sql_error "collect ids") (λ s, ids_of (doc_rows tenantID documentID (rows s))) in
    let@ _ := ewrite (sql_error "delete by document")
                (set_rows (filter (λ kv, row_of tenantID documentID kv.2 = false))) in
    eret ids.

(** ** Vectors *)

Context (CollectionPrefix : string).

Definition CollectionFor (tenantID : string) : string := str_app CollectionPrefix tenantID.

(** The engine creates a collection without points. *)
Definition EnsureCollection (tenantID : string) : M unit :=
  if str_empty tenantID then ethrow ErrMissingTenantScope
  else ewrite (http_error "create collection") (set_points (CollectionFor tenantID) (λ m, m)).

Definition tag (tenantID : string) (p : QdrantPoint) : QdrantPoint :=
  {| pt_ID := pt_ID p; pt_Vector := pt_Vector p;
     pt_Payload := <["tenant_id" := tenantID]> (pt_Payload p) |}.
Definition put_all (ps : list QdrantPoint) (m : gmap string QdrantPoint) : gmap string QdrantPoint :=
  foldl (λ m p, <[pt_ID p := p]> m) m ps.

Definition Upsert (tenantID : string) (points : list QdrantPoint) : M unit :=
  if str_empty tenantID then ethrow ErrMissingTenantScope
  else match points with
       | [] => eret tt
       | _ => ewrite (http_error "upsert points")
                (set_points (CollectionFor tenantID) (put_all (tag tenantID <$> points)))
       end.

Definition drop_all (ids : list string) (m : gmap string QdrantPoint) : gmap string QdrantPoint :=
  filter (λ kv, kv.1 ∉ ids) m.

Definition Delete (tenantID : string) (ids : list string) : M unit :=
  if str_empty tenantID then ethrow ErrMissingTenantScope
  else match ids with
       | [] => eret tt
       | _ => ewrite (http_error "delete points") (set_points (CollectionFor tenantID) (drop_all ids))
       end.

(** ** Search *)

(** The filters the client builds, around those of the caller. *)
Inductive qfilter :=
| MatchKey (key value : string)
| Must (l : list qfilter)
| Custom (accepts : QdrantPoint → bool).

Fixpoint accepts (f : qfilter) (p : QdrantPoint) : bool :=
  match f with
  | MatchKey k v => bool_decide (pt_Payload p !! k = Some v)
  | Must l => forallb (λ g, accepts g p) l
  | Custom a => a p
  end.

Record SearchOpts := { Limit : Z; ScoreThreshold : float; Filter : option qfilter }.
Record QdrantHit := { hit_ID : string; hit_Score : float; hit_Payload : gmap string string }.

Record search_request := { sr_limit : Z; sr_filter : qfilter; sr_threshold : option float }.

Definition build_search (tenantID : string) (opts : SearchOpts) : search_request :=
  let tenantFilter := Must [MatchKey "tenant_id" tenantID] in
  {| sr_limit := if (Limit opts <=? 0)%Z then 10 else Limit opts;
     sr_filter := match Filter opts with
                  | None => tenantFilter
                  | Some f => Must [tenantFilter; f]
                  end;
     sr_threshold := if f_gtb (ScoreThreshold opts) f_zero then Some (ScoreThreshold opts) else None |}.

(** The engine: scored points of a collection. *)
Context (engine : gmap string QdrantPoint → list float → search_request → list (QdrantPoint * float)).
Definition engine_filters : Prop := ∀ m v req p sc,
  (p, sc) ∈ engine m v req → (∃ k, m !! k = Some p) ∧ accepts (sr_filter req) p = true.

Definition Search (tenantID : string) (vector : list float) (opts : SearchOpts) : M (list QdrantHit) :=
  if str_empty tenantID then ethrow ErrMissingTenantScope
  else match vector with
       | [] => ethrow (http_error "empty vector")
       | _ => eread (http_error "search") (λ s,
                (λ ps, {| hit_ID := pt_ID ps.1; hit_Score := ps.2; hit_Payload := pt_Payload ps.1 |})
                <$> engine (points_of s (CollectionFor tenantID)) vector (build_search tenantID opts))
       end.

(** A search never runs without a tenant and returns only points tagged with that
    tenant, whatever filter the caller adds and whatever the collection holds. *)
Theorem Search_tenant_scoped tenantID vector opts w hits w' :
  engine_filters → Search tenantID vector opts w = (Ok hits, w') →
  tenantID ≠ EmptyString ∧ Forall (λ h, hit_Payload h !! "tenant_id" = Some tenantID) hits.
Proof.
  intros He. unfold Search. destruct (str_empty tenantID) eqn:Ht; [done|].
  destruct vector as [|x v]; [done|]. intros [-> _]%eread_Ok.
  split; [by apply str_empty_false|]. apply Forall_fmap, Forall_forall. intros [p sc] Hp.
  apply He in Hp as [_ Ha]. revert Ha. unfold build_search. simpl. destruct (Filter opts); simpl.
  - rewrite !andb_true_iff. intros [[H1 _] _]. by apply bool_decide_eq_true in H1.
  - rewrite andb_true_iff. intros [H1 _]. by apply bool_decide_eq_true in H1.
Qed.
End Stores.
End ChunkStores.
