(* ===== verification/StoreStage.v ===== *)
(** * Stage 4: storing a document

    internal/pipeline/store.go over the stores of [ChunkStores] and the deduplicator
    of [Dedup]. A successful store or delete is proved to keep metadata and vectors
    in lock step, to replace what a document had, and to touch no other document;
    examples at the end show what a failure between the two stores leaves behind. *)

From Stdlib Require Import Ascii.
From S2P Require Import Prelude GoFloat GoString StageBreaker Retry CallRetry Effects ChunkStores PipelineTypes Dedup.

Module StoreStage.

Import ChunkStores.

Record StoreConfig := {
  Connector : string;
  Deduplicator : option Dedup.DedupConfig;
  DryRun : bool
}.

Definition NewStorer (has_vector has_metadata : bool) (cfg : StoreConfig) : result StoreConfig error :=
  if negb has_vector then Err {| text := "store: nil VectorStore"; chain := [] |}
  else if negb has_metadata then Err {| text := "store: nil MetadataStore"; chain := [] |}
  else Ok cfg.

Definition uriFromMetadata (md : gmap string string) : string :=
  let get k := default EmptyString (md !! k) in
  if negb (str_empty (get "uri")) then get "uri"
  else if negb (str_empty (get "url")) then get "url"
  else get "path".

Definition composite (tenantID documentID blockID : string) : string :=
  str_app tenantID (str_app ":" (str_app documentID (str_app ":" blockID))).

Section Store.
Context `{Outside} (prefix : string).
(** [uuid.NewSHA1] over the fixed namespace. *)
Context (uuid : string → string).
Context (cfg : StoreConfig).

Definition chunkID (tenantID documentID blockID : string) : string :=
  uuid (composite tenantID documentID blockID).

Definition chunk_of (doc : Document) (modelID : string) (b : Block) : Chunk :=
  {| ck_ID := chunkID (doc_TenantID doc) (doc_DocumentID doc) (BlockID b);
     ck_TenantID := doc_TenantID doc; ck_SourceID := doc_SourceID doc;
     ck_DocumentID := doc_DocumentID doc; ck_NamespaceID := doc_NamespaceID doc;
     ck_BlockID := BlockID b; ck_ContentHash := doc_ContentHash doc; ck_Title := doc_Title doc;
     ck_URI := uriFromMetadata (doc_Metadata doc); ck_Connector := Connector cfg;
     ck_PrivacyLabel := doc_PrivacyLabel doc; ck_Text := blk_Text b; ck_Model := modelID;
     ck_CreatedAt := 0; ck_UpdatedAt := 0 |}.

Definition payload_of (doc : Document) (b : Block) : gmap string string :=
  list_to_map
    [("document_id", doc_DocumentID doc); ("source_id", doc_SourceID doc);
     ("namespace_id", doc_NamespaceID doc); ("block_id", BlockID b); ("title", doc_Title doc);
     ("uri", uriFromMetadata (doc_Metadata doc)); ("connector", Connector cfg);
     ("privacy_label", doc_PrivacyLabel doc); ("text", blk_Text b);
     ("content_hash", doc_ContentHash doc)].

Definition point_of (doc : Document) (be : Block * list float) : QdrantPoint :=
  {| pt_ID := chunkID (doc_TenantID doc) (doc_DocumentID doc) (BlockID be.1);
     pt_Vector := be.2; pt_Payload := payload_of doc be.1 |}.

Definition chunks_of (doc : Document) (modelID : string) (blocks : list Block) : list Chunk :=
  chunk_of doc modelID <$> blocks.
Definition points_for (doc : Document) (blocks : list Block) (embeddings : list (list float))
    : list QdrantPoint := point_of doc <$> zip blocks embeddings.

Definition in_store (op : string) {A} (m : Eff Stores error A) : Eff Stores error A :=
  emap_err (λ e, wrap_error (str_app "store: " op) (Some e)) m.

(** Metadata first, then the vectors of the rows that went. *)
Definition drop_document (tenantID documentID meta_op vec_op : string) : Eff Stores error unit :=
  let@ ids := in_store meta_op (DeleteByDocument tenantID documentID) in
  match ids with
  | [] => eret tt
  | _ => in_store vec_op (Delete prefix tenantID ids)
  end.

(** The writes of [Store] for blocks that passed deduplication. *)
Definition write_document (doc : Document) (blocks : list Block) (embeddings : list (list float))
    (modelID : string) : Eff Stores error unit :=
  let t := doc_TenantID doc in
  let@ _ := in_store "ensure collection: " (EnsureCollection prefix t) in
  let@ prevHash := in_store "latest hash: " (LatestHashForDocument t (doc_DocumentID doc)) in
  let@ _ :=
    (if negb (str_empty prevHash) && negb (str_eqb prevHash (doc_ContentHash doc))
     then drop_document t (doc_DocumentID doc) "delete previous: " "vector delete previous: "
     else eret tt) in
  let@ _ := in_store "upsert metadata: " (UpsertChunks t (chunks_of doc modelID blocks)) in
  in_store "upsert vectors: " (Upsert prefix t (points_for doc blocks embeddings)).

Definition dedup_enabled : bool :=
  match Deduplicator cfg with Some d => Dedup.Enabled d | None => false end.

(** The blocks and embeddings [Store] goes on with. *)
Definition deduplicated (doc : Document) (blocks : list Block) (embeddings : list (list float))
    : result (list Block * list (list float)) error :=
  if dedup_enabled then
    match (Dedup.Apply (Deduplicator cfg) (Some doc) blocks embeddings).1 with
    | Ok r => Ok (Dedup.Blocks r, Dedup.Embeddings r)
    | Err e => Err {| text := str_app "store: dedup: " e; chain := [] |}
    end
  else Ok (blocks, embeddings).

Definition count_mismatch (n m : nat) : error :=
  {| text := str_app "store: block / embedding count mismatch: "
               (str_app (str_of_nat n) (str_app " vs " (str_of_nat m))); chain := [] |}.

Definition Store (doc : option Document) (blocks : list Block) (embeddings : list (list float))
    (modelID : string) : Eff Stores error unit :=
  match doc with
  | None => ethrow {| text := "store: nil doc"; chain := [] |}
  | Some d =>
      if str_empty (doc_TenantID d) || str_empty (doc_DocumentID d) then
        ethrow (poison "tenant_id + document_id required")
      else if negb (length blocks =? length embeddings)%nat then
        ethrow (count_mismatch (length blocks) (length embeddings))
      else
        match deduplicated d blocks embeddings with
        | Err e => ethrow e
        | Ok (blocks', embeddings') =>
            if DryRun cfg then eret tt else write_document d blocks' embeddings' modelID
        end
  end.

Definition Delete_document (tenantID documentID : string) : Eff Stores error unit :=
  if str_empty tenantID || str_empty documentID then
    ethrow (poison "tenant_id + document_id required")
  else drop_document tenantID documentID "delete metadata: " "delete vectors: ".

(** ** The effect of a successful run *)

(** Two states with the same rows and the same points; a collection that does not
    exist and an empty one are alike. *)
#[export] Instance stores_equiv : Equiv Stores := λ s s',
  rows s = rows s' ∧ ∀ col, points_of s col = points_of s' col.

#[export] Instance stores_equivalence : Equivalence (≡@{Stores}).
Proof.
  split.
  - by intros s.
  - intros s s' [H1 H2]. by split.
  - intros s1 s2 s3 [H1 H2] [H3 H4]. split; [by rewrite H1|intros col; by rewrite H2].
Qed.

Lemma points_of_set s col col' f :
  points_of (set_points col f s) col' = if decide (col = col') then f (points_of s col) else points_of s col'.
Proof.
  unfold points_of, set_points. simpl. case_decide as Hc; [subst; by rewrite lookup_insert_eq|].
  by rewrite lookup_insert_ne.
Qed.

#[export] Instance set_rows_proper f : Proper ((≡) ==> (≡)) (set_rows f).
Proof. intros s s' [H1 H2]. split; [simpl; by rewrite H1|done]. Qed.

#[export] Instance set_points_proper col f : Proper ((≡) ==> (≡)) (set_points col f).
Proof.
  intros s s' [H1 H2]. split; [done|]. intros col'. by rewrite !points_of_set, !H2.
Qed.

Lemma set_points_id s col f : f (points_of s col) = points_of s col → set_points col f s ≡ s.
Proof.
  intros Hf. split; [done|]. intros col'. rewrite points_of_set. case_decide; [by subst|done].
Qed.

(** Drop a document from both stores. *)
Definition purged (t d : string) (s : Stores) : Stores :=
  set_points (CollectionFor prefix t) (drop_all (ids_of (doc_rows t d (rows s))))
    (set_rows (filter (λ kv, row_of t d kv.2 = false)) s).

#[export] Instance purged_proper t d : Proper ((≡) ==> (≡)) (purged t d).
Proof. intros s s' Hs. unfold purged. rewrite (proj1 Hs). by rewrite Hs. Qed.

Definition written (doc : Document) (blocks : list Block) (embeddings : list (list float))
    (modelID : string) (nows : nat → Time) (s : Stores) : Stores :=
  set_points (CollectionFor prefix (doc_TenantID doc))
    (put_all (tag (doc_TenantID doc) <$> points_for doc blocks embeddings))
    (set_rows (save_all (stamp_all nows (chunks_of doc modelID blocks))) s).

Lemma drop_all_nil m : drop_all [] m = m.
Proof.
  unfold drop_all. apply map_filter_id. intros k x _. simpl. apply not_elem_of_nil.
Qed.

Lemma drop_document_Ok t d op1 op2 w w' :
  drop_document t d op1 op2 w = (Ok tt, w') → store w' ≡ purged t d (store w).
Proof.
  unfold drop_document, in_store. rewrite ebind_Ok. intros (ids & w1 & H1 & H2).
  rewrite emap_Ok in H1. unfold DeleteByDocument in H1.
  destruct (str_empty t) eqn:Ht; [done|].
  rewrite ebind_Ok in H1. destruct H1 as (ids' & wa & [Hids Ha]%eread_Ok & H1).
  rewrite ebind_Ok in H1. destruct H1 as (u & wb & Hb%ewrite_Ok & [= <- <-]).
  assert (Hw1 : store wb = set_rows (filter (λ kv, row_of t d kv.2 = false)) (store w))
    by by rewrite Hb, Ha.
  unfold purged. rewrite <- Hids, <- Hw1. destruct ids' as [|i ids'].
  - injection H2 as <-. symmetry. apply set_points_id, drop_all_nil.
  - rewrite emap_Ok in H2. unfold Delete in H2. rewrite Ht in H2.
    apply ewrite_Ok in H2. by rewrite H2.
Qed.

(** The hash [LatestHashForDocument] reads. *)
Definition latest_hash (t d : string) (s : Stores) : string :=
  match latest (doc_rows t d (rows s)) with Some c => ck_ContentHash c | None => EmptyString end.

(** Does [Store] drop what is there first? *)
Definition outdated (doc : Document) (s : Stores) : bool :=
  let prev := latest_hash (doc_TenantID doc) (doc_DocumentID doc) s in
  negb (str_empty prev) && negb (str_eqb prev (doc_ContentHash doc)).

Definition cleared (doc : Document) (s : Stores) : Stores :=
  if outdated doc s then purged (doc_TenantID doc) (doc_DocumentID doc) s else s.

Lemma mismatch_chunks i doc modelID blocks :
  mismatch i (doc_TenantID doc) (chunks_of doc modelID blocks) = None.
Proof.
  revert i. induction blocks as [|b bs IH]; intros i; simpl; [done|]. by rewrite str_eqb_refl, IH.
Qed.

Lemma UpsertChunks_Ok doc modelID blocks w w' :
  UpsertChunks (doc_TenantID doc) (chunks_of doc modelID blocks) w = (Ok tt, w') →
  ∃ nows, store w' = set_rows (save_all (stamp_all nows (chunks_of doc modelID blocks))) (store w).
Proof.
  unfold UpsertChunks. destruct (str_empty (doc_TenantID doc)); [done|].
  destruct (chunks_of doc modelID blocks) as [|c cs] eqn:Ec.
  { intros [= <-]. exists (λ _, 0%Z). by destruct (store w). }
  rewrite <- Ec, mismatch_chunks. intros Hw%ewrite_Ok. by eexists.
Qed.

Lemma Upsert_Ok t ps w w' :
  Upsert prefix t ps w = (Ok tt, w') →
  store w' ≡ set_points (CollectionFor prefix t) (put_all (tag t <$> ps)) (store w).
Proof.
  unfold Upsert. destruct (str_empty t); [done|]. destruct ps as [|p ps].
  - intros [= <-]. symmetry. by apply set_points_id.
  - intros Hw%ewrite_Ok. by rewrite Hw.
Qed.

Lemma EnsureCollection_Ok t w w' :
  EnsureCollection prefix t w = (Ok tt, w') → store w' ≡ store w.
Proof.
  unfold EnsureCollection. destruct (str_empty t); [done|]. intros Hw%ewrite_Ok.
  rewrite Hw. by apply set_points_id.
Qed.

Lemma LatestHash_Ok t d w h w' :
  LatestHashForDocument t d w = (Ok h, w') → h = latest_hash t d (store w) ∧ store w' = store w.
Proof.
  unfold LatestHashForDocument. destruct (str_empty t); [done|]. destruct (str_empty d); [done|].
  by intros [-> ->]%eread_Ok.
Qed.

(** A successful write is: clear what is outdated, then put the new chunks. *)
Lemma write_document_Ok doc blocks embeddings modelID w w' :
  write_document doc blocks embeddings modelID w = (Ok tt, w') →
  ∃ nows, store w' ≡ written doc blocks embeddings modelID nows (cleared doc (store w)).
Proof.
  unfold write_document, in_store. rewrite ebind_Ok. intros (u1 & w1 & H1 & H2).
  rewrite emap_Ok in H1. destruct u1. apply EnsureCollection_Ok in H1.
  rewrite ebind_Ok in H2. destruct H2 as (prev & w2 & H2 & H3). rewrite emap_Ok in H2.
  apply LatestHash_Ok in H2 as [-> E2].
  rewrite ebind_Ok in H3. destruct H3 as (u3 & w3 & H3 & H4). destruct u3.
  rewrite ebind_Ok in H4. destruct H4 as (u4 & w4 & H4 & H5). destruct u4.
  rewrite emap_Ok in H4, H5. apply UpsertChunks_Ok in H4 as [nows H4]. apply Upsert_Ok in H5.
  assert (Hr : rows (store w1) = rows (store w)) by apply H1.
  assert (E3 : store w3 ≡ cleared doc (store w)).
  { unfold cleared, outdated. unfold latest_hash in H3 |- *. rewrite Hr in H3.
    destruct (negb _ && negb _).
    - apply drop_document_Ok in H3. rewrite H3, E2. by rewrite H1.
    - injection H3 as <-. by rewrite E2. }
  exists nows. rewrite H5, H4. unfold written. by rewrite E3.
Qed.

(** ** The invariant of the two stores *)

(** Identifiers the composite key can separate. *)
Definition plain (s : string) : Prop := ":"%char ∉ to_bytes s.

(** Every row is under the id of its tenant, document and block. *)
Definition keyed (s : Stores) : Prop := ∀ id c, rows s !! id = Some c →
  id = chunkID (ck_TenantID c) (ck_DocumentID c) (ck_BlockID c)
  ∧ plain (ck_TenantID c) ∧ plain (ck_DocumentID c).

(** Every vector has a row of its tenant. *)
Definition covered (s : Stores) : Prop := ∀ t id,
  is_Some (points_of s (CollectionFor prefix t) !! id) → ∃ c, rows s !! id = Some c ∧ ck_TenantID c = t.

Record consistent (s : Stores) : Prop := {
  cs_keyed : keyed s;
  cs_lockstep t id : is_Some (points_of s (CollectionFor prefix t) !! id) ↔
    ∃ c, rows s !! id = Some c ∧ ck_TenantID c = t;
  cs_uniform id c id' c' : rows s !! id = Some c → rows s !! id' = Some c' →
    ck_TenantID c = ck_TenantID c' → ck_DocumentID c = ck_DocumentID c' →
    ck_ContentHash c = ck_ContentHash c';
  cs_hashed id c : rows s !! id = Some c → ck_ContentHash c ≠ EmptyString
}.

#[export] Instance consistent_proper : Proper ((≡) ==> iff) consistent.
Proof.
  assert (Himp : ∀ s s', s ≡ s' → consistent s → consistent s').
  { intros s s' [Hr Hp] [C1 C2 C3 C4]. constructor; unfold keyed; rewrite <- ?Hr; try done.
    intros t id. by rewrite <- Hp. }
  intros s s' Hs. split; by apply Himp.
Qed.

Lemma row_of_spec t d c : row_of t d c = true ↔ ck_TenantID c = t ∧ ck_DocumentID c = d.
Proof. unfold row_of. by rewrite andb_true_iff, !str_eqb_eq. Qed.

Lemma row_of_false t d c : row_of t d c = false ↔ ¬ (ck_TenantID c = t ∧ ck_DocumentID c = d).
Proof. rewrite <- row_of_spec. by destruct (row_of t d c). Qed.

Lemma doc_rows_lookup t d m id c :
  doc_rows t d m !! id = Some c ↔ m !! id = Some c ∧ ck_TenantID c = t ∧ ck_DocumentID c = d.
Proof. unfold doc_rows. rewrite map_lookup_filter_Some. simpl. by rewrite row_of_spec. Qed.

Lemma elem_of_ids id m : id ∈ ids_of m ↔ is_Some (m !! id).
Proof.
  unfold ids_of. rewrite list_elem_of_fmap. split.
  - intros ([k c] & -> & Hk%elem_of_map_to_list). by eexists.
  - intros [c Hc]. exists (id, c). by split; [|apply elem_of_map_to_list].
Qed.

Lemma CollectionFor_inj t t' : CollectionFor prefix t = CollectionFor prefix t' → t = t'.
Proof.
  unfold CollectionFor. intros E. apply to_bytes_inj. apply (f_equal to_bytes) in E.
  rewrite !to_bytes_app in E. by apply app_inv_head in E.
Qed.

Lemma points_of_set_tenant s t t' f :
  points_of (set_points (CollectionFor prefix t) f s) (CollectionFor prefix t') =
  if decide (t = t') then f (points_of s (CollectionFor prefix t))
  else points_of s (CollectionFor prefix t').
Proof.
  rewrite points_of_set. destruct (decide (t = t')) as [->|Hne]; [by rewrite decide_True|].
  rewrite decide_False; [done|]. by intros ?%CollectionFor_inj.
Qed.

Lemma drop_all_lookup ids m id :
  is_Some (drop_all ids m !! id) ↔ is_Some (m !! id) ∧ id ∉ ids.
Proof.
  unfold drop_all. split.
  - intros [p [Hp Hn]%map_lookup_filter_Some]. by split; [eexists|].
  - intros [[p Hp] Hn]. exists p. by apply map_lookup_filter_Some.
Qed.

Lemma purged_rows t d s id c :
  rows (purged t d s) !! id = Some c ↔
  rows s !! id = Some c ∧ ¬ (ck_TenantID c = t ∧ ck_DocumentID c = d).
Proof. simpl. rewrite map_lookup_filter_Some. simpl. by rewrite row_of_false. Qed.

Lemma purged_consistent t d s : consistent s → consistent (purged t d s).
Proof.
  intros [C1 C2 C3 C4]. constructor.
  - intros id c [Hc _]%purged_rows. by apply C1.
  - intros t' id. unfold purged. rewrite points_of_set_tenant.
    change (points_of (set_rows ?f s)) with (points_of s).
    setoid_rewrite purged_rows. case_decide as Ht; [subst t'|].
    + rewrite drop_all_lookup, elem_of_ids, C2. split.
      * intros [(c & Hc & Htc) Hn]. exists c. split_and!; [done| |done].
        intros [_ Hd]. apply Hn. exists c. by apply doc_rows_lookup.
      * intros (c & [Hc Hn] & Htc). split; [by exists c|]. intros [c' Hc'].
        apply doc_rows_lookup in Hc' as (Hc' & ? & ?). rewrite Hc in Hc'. naive_solver.
    + rewrite C2. naive_solver.
  - intros id c id' c' [Hc _]%purged_rows [Hc' _]%purged_rows. by eapply C3.
  - intros id c [Hc _]%purged_rows. by eapply C4.
Qed.

(** Saving a list of rows: the row under an id is one of the list, or the old one. *)
Lemma save_all_lookup cs m id c :
  save_all cs m !! id = Some c →
  (c ∈ cs ∧ ck_ID c = id) ∨ (m !! id = Some c ∧ id ∉ ck_ID <$> cs).
Proof.
  unfold save_all. revert m. induction cs as [|x cs IH]; intros m Hc; simpl in *.
  { right. split; [done|apply not_elem_of_nil]. }
  destruct (IH _ Hc) as [[Hin Hid]|[Hm Hn]]; [left; by split; [right|]|].
  destruct (decide (ck_ID x = id)) as [Hx|Hx].
  - rewrite Hx, lookup_insert_eq in Hm. injection Hm as ->. left. by split; [left|].
  - rewrite lookup_insert_ne in Hm by done. right. split; [done|].
    rewrite not_elem_of_cons. by split; [apply not_eq_sym|].
Qed.

Lemma save_all_mono cs m id : is_Some (m !! id) → is_Some (save_all cs m !! id).
Proof.
  unfold save_all. revert m. induction cs as [|x cs IH]; intros m Hm; simpl; [done|].
  apply IH. by apply lookup_insert_is_Some'; right.
Qed.

Lemma save_all_in cs m c : c ∈ cs → is_Some (save_all cs m !! ck_ID c).
Proof.
  unfold save_all. revert m. induction cs as [|x cs IH]; intros m; [by intros ?%elem_of_nil|].
  intros [->|Hc]%elem_of_cons; simpl; [|by apply IH].
  apply (save_all_mono cs). by rewrite lookup_insert_eq.
Qed.

Lemma put_all_lookup ps m id :
  is_Some (put_all ps m !! id) ↔ id ∈ pt_ID <$> ps ∨ is_Some (m !! id).
Proof.
  unfold put_all. revert m. induction ps as [|p ps IH]; intros m; simpl.
  - split; [by right|]. by intros [?%elem_of_nil|].
  - rewrite IH, lookup_insert_is_Some', elem_of_cons. naive_solver.
Qed.

(** Splitting at the first separator is unambiguous. *)
Lemma split_first {A} (x : A) l1 l2 r1 r2 :
  x ∉ l1 → x ∉ l2 → l1 ++ x :: r1 = l2 ++ x :: r2 → l1 = l2 ∧ r1 = r2.
Proof.
  revert l2. induction l1 as [|a l1 IH]; intros [|b l2] H1 H2 E; simplify_eq/=;
    rewrite ?not_elem_of_cons in *; [done|naive_solver..|].
  destruct (IH l2) as [-> ->]; naive_solver.
Qed.

Lemma composite_inj t d b t' d' b' :
  plain t → plain t' → plain d → plain d' → composite t d b = composite t' d' b' →
  t = t' ∧ d = d' ∧ b = b'.
Proof.
  unfold plain, composite. intros Ht Ht' Hd Hd' E%(f_equal to_bytes).
  rewrite !to_bytes_app in E. simpl in E.
  apply split_first in E as [E1 E]; [|done|done].
  apply split_first in E as [E2 E3]; [|done|done]. by split_and!; apply to_bytes_inj.
Qed.

(** ** Writing a document *)

Context (uuid_inj : ∀ a b, uuid a = uuid b → a = b).

Lemma stamp_all_ids nows cs : ck_ID <$> stamp_all nows cs = ck_ID <$> cs.
Proof.
  unfold stamp_all. rewrite fmap_imap. revert nows. induction cs as [|c cs IH]; intros nows; simpl; [done|].
  f_equal. apply (IH (λ i, nows (S i))).
Qed.

Lemma elem_of_stamp_all c nows cs : c ∈ stamp_all nows cs → ∃ i c0, c0 ∈ cs ∧ c = stamp (nows i) c0.
Proof.
  unfold stamp_all. intros (i & c0 & -> & Hc0)%elem_of_lookup_imap_1.
  exists i, c0. split; [by eapply list_elem_of_lookup_2|done].
Qed.

Lemma points_for_ids doc blocks embeddings :
  length blocks = length embeddings →
  pt_ID <$> (tag (doc_TenantID doc) <$> points_for doc blocks embeddings) =
  (λ b, chunkID (doc_TenantID doc) (doc_DocumentID doc) (BlockID b)) <$> blocks.
Proof.
  intros Hl. unfold points_for. rewrite <- !list_fmap_compose.
  rewrite <- (fst_zip blocks embeddings) at 2 by lia. rewrite <- list_fmap_compose.
  by apply list_fmap_ext.
Qed.

(** An id of a chunk of a document belongs to no other document. *)
Lemma keyed_own s t d b c :
  keyed s → plain t → plain d → rows s !! chunkID t d b = Some c →
  ck_TenantID c = t ∧ ck_DocumentID c = d.
Proof.
  intros Hk Ht Hd Hc. destruct (Hk _ _ Hc) as (E & Pt & Pd).
  apply uuid_inj, composite_inj in E as (? & ? & ?); done.
Qed.

Section Written.
Context (doc : Document) (blocks : list Block) (embeddings : list (list float)) (modelID : string).
Context (nows : nat → Time) (s : Stores).
Context (Hs : consistent s) (Hlen : length blocks = length embeddings).
Context (Ht : plain (doc_TenantID doc)) (Hd : plain (doc_DocumentID doc)).
Context (Hh : doc_ContentHash doc ≠ EmptyString).
(** What the document still has is of the same content. *)
Context (Hold : ∀ id c, rows s !! id = Some c → ck_TenantID c = doc_TenantID doc →
                  ck_DocumentID c = doc_DocumentID doc → ck_ContentHash c = doc_ContentHash doc).

Let s' := written doc blocks embeddings modelID nows s.
Let new_id (b : Block) := chunkID (doc_TenantID doc) (doc_DocumentID doc) (BlockID b).

(** A row after the write is a new chunk of the document or an untouched row. *)
Lemma written_rows id c :
  rows s' !! id = Some c →
  (∃ b now, b ∈ blocks ∧ c = stamp now (chunk_of doc modelID b) ∧ id = new_id b)
  ∨ (rows s !! id = Some c ∧ id ∉ new_id <$> blocks).
Proof.
  simpl. intros [[Hc Hid]|[Hm Hn]]%save_all_lookup.
  - left. apply elem_of_stamp_all in Hc as (i & c0 & Hc0 & ->).
    apply list_elem_of_fmap in Hc0 as (b & -> & Hb). exists b, (nows i). by split_and!.
  - right. split; [done|]. rewrite stamp_all_ids in Hn. unfold chunks_of in Hn.
    by rewrite <- list_fmap_compose in Hn.
Qed.

Lemma written_new b : b ∈ blocks → is_Some (rows s' !! new_id b).
Proof.
  intros Hb. simpl.
  assert (Hin : new_id b ∈ ck_ID <$> stamp_all nows (chunks_of doc modelID blocks)).
  { rewrite stamp_all_ids. unfold chunks_of. rewrite <- list_fmap_compose.
    apply list_elem_of_fmap. by exists b. }
  apply list_elem_of_fmap in Hin as (c & -> & Hc). by apply save_all_in.
Qed.

Lemma new_id_own b c :
  rows s !! new_id b = Some c → ck_TenantID c = doc_TenantID doc ∧ ck_DocumentID c = doc_DocumentID doc.
Proof. intros Hc. by eapply keyed_own; [apply Hs|..]. Qed.

Lemma written_old id c :
  rows s !! id = Some c → ¬ (ck_TenantID c = doc_TenantID doc ∧ ck_DocumentID c = doc_DocumentID doc) →
  rows s' !! id = Some c.
Proof.
  intros Hc Hno. assert (Hn : id ∉ new_id <$> blocks).
  { intros (b & -> & Hb)%list_elem_of_fmap. by apply Hno, (new_id_own b). }
  simpl. destruct (save_all_mono (stamp_all nows (chunks_of doc modelID blocks)) (rows s) id) as [c' Hc'];
    [by eexists|].
  destruct (written_rows id c' Hc') as [(b & now & Hb & _ & ->)|[Hc'' _]].
  - exfalso. by apply Hno, (new_id_own b).
  - rewrite Hc'. congruence.
Qed.

Lemma written_lockstep t id :
  is_Some (points_of s' (CollectionFor prefix t) !! id) ↔
  ∃ c, rows s' !! id = Some c ∧ ck_TenantID c = t.
Proof.
  unfold s', written. rewrite points_of_set_tenant.
  change (points_of (set_rows ?f s)) with (points_of s). case_decide as Hdec; [subst t|].
  - rewrite put_all_lookup, points_for_ids by done. rewrite (cs_lockstep _ Hs). split.
    + intros [(b & -> & Hb)%list_elem_of_fmap|(c & Hc & Htc)].
      * destruct (written_new b Hb) as [c Hc]. exists c. split; [done|].
        destruct (written_rows _ _ Hc) as [(b' & now & _ & -> & _)|[_ Hn]]; [done|].
        destruct Hn. apply list_elem_of_fmap. by exists b.
      * destruct (save_all_mono (stamp_all nows (chunks_of doc modelID blocks)) (rows s) id) as [c' Hc'];
          [by eexists|].
        exists c'. split; [done|].
        destruct (written_rows id c' Hc') as [(b & now & _ & -> & _)|[Hc'' _]]; [done|congruence].
    + intros (c & Hc & Htc). destruct (written_rows _ _ Hc) as [(b & now & Hb & _ & ->)|[Hc' _]].
      * left. apply list_elem_of_fmap. by exists b.
      * right. by exists c.
  - rewrite (cs_lockstep _ Hs). split.
    + intros (c & Hc & Htc). exists c. split; [|done]. apply written_old; [done|]. naive_solver.
    + intros (c & Hc & Htc). destruct (written_rows _ _ Hc) as [(b & now & Hb & -> & ->)|[Hc' _]].
      * by destruct Hdec.
      * by exists c.
Qed.

Lemma written_consistent : consistent s'.
Proof.
  assert (Hhash : ∀ id c, rows s' !! id = Some c → ck_TenantID c = doc_TenantID doc →
                    ck_DocumentID c = doc_DocumentID doc → ck_ContentHash c = doc_ContentHash doc).
  { intros id c Hc Htc Hdc.
    destruct (written_rows _ _ Hc) as [(b & now & _ & -> & _)|[Hc' _]]; [done|by eapply Hold]. }
  constructor.
  - intros id c Hc. destruct (written_rows _ _ Hc) as [(b & now & _ & -> & ->)|[Hc' _]]; [done|].
    by apply (cs_keyed _ Hs).
  - apply written_lockstep.
  - intros id c id' c' Hc Hc' Et Ed.
    destruct (decide (ck_TenantID c = doc_TenantID doc ∧ ck_DocumentID c = doc_DocumentID doc))
      as [[H1 H2]|Hno].
    + rewrite (Hhash id c), (Hhash id' c') by congruence. done.
    + destruct (written_rows _ _ Hc) as [(b & now & _ & -> & _)|[Ho _]]; [by destruct Hno|].
      destruct (written_rows _ _ Hc') as [(b & now & _ & -> & _)|[Ho' _]].
      { destruct Hno. by split. }
      by eapply (cs_uniform _ Hs).
  - intros id c Hc. destruct (written_rows _ _ Hc) as [(b & now & _ & -> & _)|[Hc' _]]; [done|].
    by eapply (cs_hashed _ Hs).
Qed.
End Written.

(** ** Clearing what is outdated *)

Lemma latest_row_spec m :
  match latest m with Some c => ∃ id, m !! id = Some c | None => m = ∅ end.
Proof.
  unfold latest. destruct (sort_by newer (snd <$> map_to_list m)) as [|c l] eqn:E; simpl.
  - pose proof (sort_by_length newer (snd <$> map_to_list m)) as Hl.
    rewrite E, length_fmap in Hl. simpl in Hl. apply map_to_list_empty_iff.
    by destruct (map_to_list m).
  - assert (Hc : c ∈ snd <$> map_to_list m) by (rewrite <- (elem_of_sort_by newer), E; by left).
    apply list_elem_of_fmap in Hc as ([id c'] & -> & Hc%elem_of_map_to_list). by exists id.
Qed.

Lemma cleared_consistent doc s : consistent s → consistent (cleared doc s).
Proof. unfold cleared. case_match; [apply purged_consistent|done]. Qed.

(** After clearing, what the document still has is of the content to be stored. *)
Lemma cleared_same doc s id c :
  consistent s → rows (cleared doc s) !! id = Some c →
  ck_TenantID c = doc_TenantID doc → ck_DocumentID c = doc_DocumentID doc →
  ck_ContentHash c = doc_ContentHash doc.
Proof.
  intros Hs Hc Ht Hd. unfold cleared, outdated, latest_hash in Hc.
  pose proof (latest_row_spec (doc_rows (doc_TenantID doc) (doc_DocumentID doc) (rows s))) as Hl.
  destruct (latest _) as [cl|].
  - destruct Hl as [idl (Hcl & Htl & Hdl)%doc_rows_lookup].
    rewrite (proj2 (str_empty_false _)) in Hc by by eapply (cs_hashed _ Hs). simpl in Hc.
    destruct (str_eqb (ck_ContentHash cl) (doc_ContentHash doc)) eqn:E; simpl in Hc.
    + apply str_eqb_eq in E. rewrite <- E. eapply (cs_uniform _ Hs); [exact Hc|exact Hcl| |]; congruence.
    + apply purged_rows in Hc as [_ Hn]. by destruct Hn.
  - simpl in Hc. exfalso.
    assert (Hx : doc_rows (doc_TenantID doc) (doc_DocumentID doc) (rows s) !! id = Some c)
      by by apply doc_rows_lookup.
    by rewrite Hl, lookup_empty in Hx.
Qed.

Lemma cleared_other doc s id c :
  ¬ (ck_TenantID c = doc_TenantID doc ∧ ck_DocumentID c = doc_DocumentID doc) →
  rows (cleared doc s) !! id = Some c ↔ rows s !! id = Some c.
Proof. intros Hno. unfold cleared. case_match; [rewrite purged_rows; naive_solver|done]. Qed.

Lemma deduplicated_aligned doc blocks embeddings bs es :
  length blocks = length embeddings → deduplicated doc blocks embeddings = Ok (bs, es) →
  length bs = length es.
Proof.
  intros Hl. unfold deduplicated, dedup_enabled.
  destruct (Deduplicator cfg) as [d|]; [|by intros [= <- <-]].
  destruct (Dedup.Enabled d) eqn:He; [|by intros [= <- <-]].
  destruct (decide (2 ≤ length blocks)) as [H2|H2].
  - destruct (Dedup.Apply_pass d (Some doc) blocks embeddings He H2 Hl) as (r & kept & au & -> & Hsv).
    intros [= <- <-]. pose proof (f_equal length (Dedup.sv_blocks _ _ _ _ _ Hsv)) as E1.
    pose proof (f_equal length (Dedup.sv_embeds _ _ _ _ _ Hsv)) as E2.
    rewrite !length_fmap in E1. rewrite !length_fmap in E2. lia.
  - unfold Dedup.Apply. rewrite He, (proj2 (Nat.ltb_lt _ _)) by lia. simpl. by intros [= <- <-].
Qed.

(** What a successful store leaves of a document. *)
Record replaced (doc : Document) (blocks : list Block) (modelID : string) (s s' : Stores) : Prop := {
  rp_new b : b ∈ blocks →
    is_Some (rows s' !! chunkID (doc_TenantID doc) (doc_DocumentID doc) (BlockID b));
  rp_rows id c : doc_rows (doc_TenantID doc) (doc_DocumentID doc) (rows s') !! id = Some c →
    ck_ContentHash c = doc_ContentHash doc ∧
    ((∃ b now, b ∈ blocks ∧ c = stamp now (chunk_of doc modelID b))
     ∨ rows s !! id = Some c);
  rp_others t d : (t, d) ≠ (doc_TenantID doc, doc_DocumentID doc) →
    doc_rows t d (rows s') = doc_rows t d (rows s)
}.

Lemma written_replaced doc blocks embeddings modelID nows s :
  consistent s → length blocks = length embeddings →
  plain (doc_TenantID doc) → plain (doc_DocumentID doc) → doc_ContentHash doc ≠ EmptyString →
  replaced doc blocks modelID s (written doc blocks embeddings modelID nows (cleared doc s)).
Proof.
  intros Hs Hlen Ht Hd Hh. pose proof (cleared_consistent doc s Hs) as Hcl.
  pose proof (λ id c, cleared_same doc s id c Hs) as Hsame.
  constructor.
  - by apply written_new.
  - intros id c (Hc & Htc & Hdc)%doc_rows_lookup.
    destruct (written_rows doc blocks embeddings modelID nows (cleared doc s) id c Hc)
      as [(b & now & Hb & -> & _)|[Ho _]].
    + split; [done|left]. by exists b, now.
    + split; [by eapply Hsame|right]. revert Ho. unfold cleared. case_match; [|done].
      by intros [? _]%purged_rows.
  - intros t d Hne. apply map_eq. intros id. apply option_eq. intros c.
    rewrite !doc_rows_lookup. split; intros (Hc & <- & <-); (split_and!; [|done|done]);
      assert (Hno : ¬ (ck_TenantID c = doc_TenantID doc ∧ ck_DocumentID c = doc_DocumentID doc))
        by (intros [E1 E2]; by rewrite E1, E2 in Hne).
    + destruct (written_rows doc blocks embeddings modelID nows (cleared doc s) id c Hc)
        as [(b & now & _ & -> & _)|[Ho _]]; [by destruct Hne|].
      by apply (cleared_other doc s id c Hno) in Ho.
    + apply written_old; try done. by apply cleared_other.
Qed.

Lemma Store_effect doc blocks embeddings modelID w w' :
  consistent (store w) → plain (doc_TenantID doc) → plain (doc_DocumentID doc) →
  doc_ContentHash doc ≠ EmptyString → DryRun cfg = false →
  Store (Some doc) blocks embeddings modelID w = (Ok tt, w') →
  ∃ bs es, deduplicated doc blocks embeddings = Ok (bs, es) ∧
    consistent (store w') ∧ replaced doc bs modelID (store w) (store w').
Proof.
  intros Hs Ht Hd Hh Hdry. unfold Store.
  destruct (str_empty (doc_TenantID doc) || str_empty (doc_DocumentID doc)); [done|].
  destruct (Nat.eqb_spec (length blocks) (length embeddings)) as [Hlen|]; [|done]. simpl.
  destruct (deduplicated doc blocks embeddings) as [[bs es]|e] eqn:Hded; [|done].
  rewrite Hdry. intros Hw. exists bs, es. split; [done|].
  pose proof (deduplicated_aligned doc blocks embeddings bs es Hlen Hded) as Hl.
  apply write_document_Ok in Hw as [nows Hw].
  split.
  - rewrite Hw. apply written_consistent; try done; [by apply cleared_consistent|].
    intros id c Hc. by eapply cleared_same.
  - pose proof (written_replaced doc bs es modelID nows (store w) Hs Hl Ht Hd Hh) as [R1 R2 R3].
    destruct Hw as [Hr _]. constructor; rewrite Hr; done.
Qed.

(** C2: a store that succeeds keeps the two stores consistent (one vector per row,
    one content per document), leaves a row for every block that survived
    deduplication, leaves rows of the new content only, and changes no row of any
    other document. This holds for a store that is not a dry run, of a document with a
    content hash and a tenant and document id without a colon, over stores that
    were consistent before, which includes that the ids in their rows have no colon,
    and supposes that UUIDv5 gives different keys different ids. Ids with colons can
    share a chunk id. *)
Theorem Store_replaces doc blocks embeddings modelID w w' :
  consistent (store w) → plain (doc_TenantID doc) → plain (doc_DocumentID doc) →
  doc_ContentHash doc ≠ EmptyString → DryRun cfg = false →
  Store (Some doc) blocks embeddings modelID w = (Ok tt, w') →
  ∃ bs es, deduplicated doc blocks embeddings = Ok (bs, es) ∧
    consistent (store w') ∧ replaced doc bs modelID (store w) (store w').
Proof. apply Store_effect. Qed.

(** A delete that succeeds removes every row and every vector of the document and
    nothing else, and keeps the stores consistent. *)
Theorem Delete_document_exact t d w w' :
  consistent (store w) → Delete_document t d w = (Ok tt, w') →
  consistent (store w') ∧
  (∀ id c, rows (store w') !! id = Some c ↔
           rows (store w) !! id = Some c ∧ ¬ (ck_TenantID c = t ∧ ck_DocumentID c = d)) ∧
  (∀ t' id, is_Some (points_of (store w') (CollectionFor prefix t') !! id) ↔
     ∃ c, rows (store w) !! id = Some c ∧ ck_TenantID c = t' ∧ ¬ (t' = t ∧ ck_DocumentID c = d)).
Proof.
  intros Hs. unfold Delete_document. destruct (str_empty t || str_empty d); [done|].
  intros Hw%drop_document_Ok. pose proof (purged_consistent t d _ Hs) as Hc.
  split; [by rewrite Hw|]. destruct Hw as [Hr Hp]. split.
  - intros id c. rewrite Hr. apply purged_rows.
  - intros t' id. rewrite Hp, (cs_lockstep _ Hc). setoid_rewrite purged_rows.
    split; [intros (c & [H1 H2] & <-)|intros (c & H1 & <- & H2)]; by exists c.
Qed.

(** ** Failures *)

Definition sound_rows (s : Stores) : Prop := keyed s ∧ covered s.

Lemma sound_rows_points s col f :
  sound_rows s → f (points_of s col) = points_of s col → sound_rows (set_points col f s).
Proof.
  intros [Hk Hc] Hf. split; [done|]. intros t id. rewrite (proj2 (set_points_id s col f Hf)). apply Hc.
Qed.

(** Saving rows of a document loses the row of no vector. *)
Lemma sound_rows_saved doc modelID nows blocks s :
  plain (doc_TenantID doc) → plain (doc_DocumentID doc) → sound_rows s →
  sound_rows (set_rows (save_all (stamp_all nows (chunks_of doc modelID blocks))) s).
Proof.
  intros Ht Hd [Hk Hc].
  assert (Hrows : ∀ id c, save_all (stamp_all nows (chunks_of doc modelID blocks)) (rows s) !! id = Some c →
    (∃ b, ck_TenantID c = doc_TenantID doc ∧ ck_DocumentID c = doc_DocumentID doc ∧ ck_BlockID c = b
          ∧ id = chunkID (doc_TenantID doc) (doc_DocumentID doc) b) ∨ rows s !! id = Some c).
  { intros id c [[Hin Hid]|[Hm _]]%save_all_lookup; [left|by right].
    apply elem_of_stamp_all in Hin as (i & c0 & Hc0 & ->).
    apply list_elem_of_fmap in Hc0 as (b & -> & _). by exists (BlockID b). }
  split.
  - intros id c Hr. destruct (Hrows id c Hr) as [(b & -> & -> & -> & ->)|Ho]; [done|by apply Hk].
  - intros t id Hp. destruct (Hc t id Hp) as (c & Hr & Htc).
    destruct (save_all_mono (stamp_all nows (chunks_of doc modelID blocks)) (rows s) id) as [c' Hc'];
      [by eexists|].
    exists c'. split; [done|]. destruct (Hrows id c' Hc') as [(b & Ht' & _ & _ & ->)|Ho]; [|congruence].
    rewrite Ht'. by destruct (keyed_own _ _ _ _ _ Hk Ht Hd Hr) as [<- _].
Qed.

Definition rows_present (doc : Document) (blocks : list Block) (s : Stores) : Prop :=
  ∀ b, b ∈ blocks → ∃ c,
    rows s !! chunkID (doc_TenantID doc) (doc_DocumentID doc) (BlockID b) = Some c
    ∧ ck_TenantID c = doc_TenantID doc.

Lemma rows_present_saved doc modelID nows blocks s :
  rows_present doc blocks (set_rows (save_all (stamp_all nows (chunks_of doc modelID blocks))) s).
Proof.
  intros b Hb. destruct (written_new doc blocks [] modelID nows s b Hb) as [c Hc].
  exists c. split; [exact Hc|].
  destruct (written_rows doc blocks [] modelID nows s _ _ Hc) as [(b' & now & _ & -> & _)|[_ Hn]]; [done|].
  destruct Hn. apply list_elem_of_fmap. by exists b.
Qed.

Lemma UpsertChunks_triple doc modelID blocks :
  plain (doc_TenantID doc) → plain (doc_DocumentID doc) →
  triple sound_rows (UpsertChunks (doc_TenantID doc) (chunks_of doc modelID blocks))
    (λ _ s, sound_rows s ∧ rows_present doc blocks s) sound_rows.
Proof.
  intros Ht Hd. unfold UpsertChunks. destruct (str_empty (doc_TenantID doc)); [by apply triple_throw|].
  destruct (chunks_of doc modelID blocks) as [|c cs] eqn:Ec.
  { apply triple_ret. intros s Hs. split; [done|]. intros b Hb. by destruct blocks; [apply elem_of_nil in Hb|]. }
  rewrite <- Ec, mismatch_chunks. intros w Hw.
  refine (triple_write sound_rows _ _ (λ _ s, sound_rows s ∧ rows_present doc blocks s) sound_rows _ w Hw).
  intros s Hs. split_and!; [by apply sound_rows_saved|apply rows_present_saved|done|by apply sound_rows_saved].
Qed.

Lemma Upsert_triple doc blocks embeddings :
  length blocks = length embeddings →
  triple (λ s, sound_rows s ∧ rows_present doc blocks s)
    (Upsert prefix (doc_TenantID doc) (points_for doc blocks embeddings)) (λ _, sound_rows) sound_rows.
Proof.
  intros Hl. unfold Upsert. destruct (str_empty (doc_TenantID doc)); [by apply triple_throw; intros s [? _]|].
  destruct (points_for doc blocks embeddings) as [|p ps] eqn:Ep; [by apply triple_ret; intros s [? _]|].
  rewrite <- Ep. apply triple_write. intros s [[Hk Hc] Hp].
  assert (Hnew : sound_rows (set_points (CollectionFor prefix (doc_TenantID doc))
    (put_all (tag (doc_TenantID doc) <$> points_for doc blocks embeddings)) s)).
  { split; [done|]. intros t id. rewrite points_of_set_tenant. case_decide as Hdec; [subst t|apply Hc].
    rewrite put_all_lookup, points_for_ids by done.
    intros [(b & -> & Hb)%list_elem_of_fmap|Hold]; [by apply Hp|by apply Hc]. }
  done.
Qed.

(** Every vector has a row of its tenant, or is one of those [left] names. *)
Definition covered_but (left : string → string → Prop) (s : Stores) : Prop := ∀ t id,
  is_Some (points_of s (CollectionFor prefix t) !! id) →
  (∃ c, rows s !! id = Some c ∧ ck_TenantID c = t) ∨ left t id.

(** The vectors of the rows [m], which were the document's. *)
Definition leftover (doc : Document) (m : gmap string Chunk) (t id : string) : Prop :=
  t = doc_TenantID doc ∧ is_Some (m !! id).

Definition sound_but (left : string → string → Prop) (s : Stores) : Prop :=
  keyed s ∧ covered_but left s.

Lemma sound_but_intro left s : sound_rows s → sound_but left s.
Proof. intros [Hk Hc]. split; [done|]. intros t id Hp. left. by apply Hc. Qed.

Lemma sound_but_none left s : sound_but left s → (∀ t id, ¬ left t id) → sound_rows s.
Proof. intros [Hk Hc] Hn. split; [done|]. intros t id Hp. destruct (Hc t id Hp) as [?|[]%Hn]. done. Qed.

(** Deleting a document's rows leaves at most their vectors without a row, and
    deleting those by id leaves none. *)
Lemma sound_but_deleted doc s :
  sound_rows s →
  sound_but (leftover doc (doc_rows (doc_TenantID doc) (doc_DocumentID doc) (rows s)))
    (set_rows (filter (λ kv, row_of (doc_TenantID doc) (doc_DocumentID doc) kv.2 = false)) s).
Proof.
  intros [Hk Hc]. split.
  - intros id c [Hr _]%map_lookup_filter_Some. by apply Hk.
  - intros t id Hp. destruct (Hc t id Hp) as (c & Hr & Htc).
    destruct (row_of (doc_TenantID doc) (doc_DocumentID doc) c) eqn:Eo.
    + right. apply row_of_spec in Eo as [Et Ed]. split; [congruence|].
      exists c. by apply doc_rows_lookup.
    + left. exists c. split; [|done]. by apply map_lookup_filter_Some.
Qed.

Lemma sound_rows_dropped doc m s :
  sound_but (leftover doc m) s →
  sound_rows (set_points (CollectionFor prefix (doc_TenantID doc)) (drop_all (ids_of m)) s).
Proof.
  intros [Hk Hc]. split; [done|]. intros t id. rewrite points_of_set_tenant.
  case_decide as Hdec; [subst t|].
  - rewrite drop_all_lookup, elem_of_ids. intros [Hp Hn].
    by destruct (Hc _ id Hp) as [?|[_ ?]].
  - intros Hp. destruct (Hc t id Hp) as [?|[-> _]]; done.
Qed.

Lemma drop_document_triple doc m op1 op2 :
  triple (λ s, sound_rows s ∧ doc_rows (doc_TenantID doc) (doc_DocumentID doc) (rows s) = m)
    (drop_document (doc_TenantID doc) (doc_DocumentID doc) op1 op2)
    (λ _, sound_rows) (sound_but (leftover doc m)).
Proof.
  unfold drop_document, in_store.
  apply (triple_bind _ _ _ (λ ids s, ids = ids_of m ∧ sound_but (leftover doc m) s)).
  { apply triple_emap. unfold DeleteByDocument.
    destruct (str_empty _); [by apply triple_throw; intros s [? _]; apply sound_but_intro|].
    apply (triple_bind _ _ _ (λ ids s, ids = ids_of m ∧ sound_rows s ∧
      doc_rows (doc_TenantID doc) (doc_DocumentID doc) (rows s) = m)).
    { apply triple_read. intros s [Hs <-]. split; [done|by apply sound_but_intro]. }
    intros ids. apply (triple_bind _ _ _ (λ _ s, ids = ids_of m ∧ sound_but (leftover doc m) s));
      [|intros _; by apply triple_ret].
    apply triple_write. intros s (-> & Hs & <-).
    pose proof (sound_but_deleted doc s Hs). split_and!; try done. by apply sound_but_intro. }
  intros ids. destruct ids as [|i ids].
  - apply triple_ret. intros s [Hnil Hs]. eapply sound_but_none; [exact Hs|].
    intros t id [_ Hid%elem_of_ids]. rewrite <- Hnil in Hid. by apply not_elem_of_nil in Hid.
  - apply triple_emap. unfold Delete.
    destruct (str_empty _); [by apply triple_throw; intros s [_ ?]|].
    apply triple_write. intros s [-> Hs]. pose proof (sound_rows_dropped doc m s Hs).
    split_and!; try done. by apply sound_but_intro.
Qed.

Lemma write_document_triple doc bs es modelID m o :
  plain (doc_TenantID doc) → plain (doc_DocumentID doc) → length bs = length es →
  triple (λ s, sound_rows s ∧ outdated doc s = o ∧
               doc_rows (doc_TenantID doc) (doc_DocumentID doc) (rows s) = m)
    (write_document doc bs es modelID) (λ _, sound_rows)
    (sound_but (λ t id, o = true ∧ leftover doc m t id)).
Proof.
  intros Ht Hd Hl. unfold write_document, in_store.
  apply (triple_bind _ _ _ (λ _ s, sound_rows s ∧ outdated doc s = o ∧
    doc_rows (doc_TenantID doc) (doc_DocumentID doc) (rows s) = m)).
  { apply triple_emap. unfold EnsureCollection.
    destruct (str_empty _); [by apply triple_throw; intros s [? _]; apply sound_but_intro|].
    apply triple_write. intros s (H1 & H2 & H3).
    split_and!; try done; try apply sound_but_intro; try done; by apply sound_rows_points. }
  intros _. apply (triple_bind _ _ _ (λ h s, (sound_rows s ∧
      doc_rows (doc_TenantID doc) (doc_DocumentID doc) (rows s) = m) ∧
    negb (str_empty h) && negb (str_eqb h (doc_ContentHash doc)) = o)).
  { apply triple_emap. unfold LatestHashForDocument.
    destruct (str_empty (doc_TenantID doc)); [by apply triple_throw; intros s [? _]; apply sound_but_intro|].
    destruct (str_empty (doc_DocumentID doc)); [by apply triple_throw; intros s [? _]; apply sound_but_intro|].
    apply triple_read. intros s (H1 & H2 & H3). split_and!; try done. by apply sound_but_intro. }
  intros h. apply (triple_bind _ _ _ (λ _, sound_rows)).
  { intros w1 [H1 H2]. rewrite H2. destruct o; [|exact (proj1 H1)].
    eapply triple_weaken; [apply (drop_document_triple doc m)|done|done| |exact H1].
    intros s [Hk Hc]. split; [done|]. intros t id Hp. destruct (Hc t id Hp); auto. }
  intros _. apply (triple_weaken sound_rows sound_rows _ (λ _, sound_rows) _ sound_rows);
    [|done|done|apply sound_but_intro].
  apply (triple_bind _ _ _ (λ _ s, sound_rows s ∧ rows_present doc bs s));
    [by apply triple_emap, UpsertChunks_triple|].
  intros _. by apply triple_emap, Upsert_triple.
Qed.

(** C6: whatever call fails, and even when the reply to a call that took effect is
    lost, a store that began with a metadata row for every vector ends with one when
    it succeeds; when it fails, the only vectors without their row are, if the store was
    replacing a version with another content hash, those of the rows this very
    document had before, and none if the document was new or had the same content
    hash. The tenant and document ids are without a colon, as are those in the stored
    rows, each row is under the id of its tenant, document and block,
    and UUIDv5 is supposed to give different keys different ids. *)
Theorem Store_metadata_first doc blocks embeddings modelID w :
  sound_rows (store w) → plain (doc_TenantID doc) → plain (doc_DocumentID doc) →
  match Store (Some doc) blocks embeddings modelID w with
  | (Ok _, w') => sound_rows (store w')
  | (Err _, w') =>
      keyed (store w') ∧
      covered_but (λ t id, outdated doc (store w) = true ∧ t = doc_TenantID doc ∧
        is_Some (doc_rows (doc_TenantID doc) (doc_DocumentID doc) (rows (store w)) !! id)) (store w')
  end.
Proof.
  intros Hs Ht Hd. unfold Store.
  destruct (str_empty (doc_TenantID doc) || str_empty (doc_DocumentID doc)); [by apply sound_but_intro|].
  destruct (Nat.eqb_spec (length blocks) (length embeddings)) as [Hlen|]; [|by apply sound_but_intro]. simpl.
  destruct (deduplicated doc blocks embeddings) as [[bs es]|e] eqn:Hded; [|by apply sound_but_intro].
  destruct (DryRun cfg); [done|].
  pose proof (deduplicated_aligned doc blocks embeddings bs es Hlen Hded) as Hl.
  apply (write_document_triple doc bs es modelID _ _ Ht Hd Hl w (conj Hs (conj eq_refl eq_refl))).
Qed.
End Store.

(** ** Concrete runs *)

(** The [n]-th call fails, the others succeed. *)
Definition fails_at (n : nat) : Outside :=
  {| fate := λ k, if (k =? n)%nat then Refused else Performed; clock := λ k _, Z.of_nat (S k) |}.

Definition sample_cfg : StoreConfig := {| Connector := "c"; Deduplicator := None; DryRun := false |}.
Definition sample_doc (hash : string) : Document :=
  {| doc_TenantID := "t"; doc_SourceID := "s"; doc_DocumentID := "d"; doc_NamespaceID := "";
     doc_Title := ""; doc_MIMEType := ""; doc_ContentType := ""; doc_Content := "";
     doc_ContentHash := hash; doc_PreviousHash := ""; doc_PrivacyLabel := "remote";
     doc_IngestedAt := 0; doc_Metadata := ∅; doc_Force := false |}.
Definition sample_block (id : string) : Block :=
  {| BlockID := id; blk_Text := id; blk_Type := ""; HeadingLevel := 0; Page := 0; Position := 0;
     blk_PrivacyLabel := "" |}.
Definition empty_env : Env Stores :=
  {| store := {| rows := ∅; collections := ∅ |}; calls_made := 0 |}.
Definition store_as (o : Outside) (hash : string) (ids : list string) : Eff Stores error unit :=
  @Store o "" (λ x, x) sample_cfg (Some (sample_doc hash)) (sample_block <$> ids)
    ((λ _, [f32_of_Z 1]) <$> ids) "m".

Lemma empty_consistent : consistent "" (λ x, x) (store empty_env).
Proof.
  assert (Hno : ∀ id, rows (store empty_env) !! id = None) by done.
  constructor.
  - intros id c Hc. by rewrite Hno in Hc.
  - intros t id. split; [by intros [p Hp]|]. intros (c & Hc & _). by rewrite Hno in Hc.
  - intros id c id' c' Hc. by rewrite Hno in Hc.
  - intros id c Hc. by rewrite Hno in Hc.
Qed.

Definition stored : Env Stores := (store_as calm "h1" ["b1"; "b2"] empty_env).2.

Lemma plain_sample : plain "t" ∧ plain "d".
Proof. split; unfold plain; simpl; intros [H|H%elem_of_nil]%elem_of_cons; done. Qed.

Lemma stored_consistent : consistent "" (λ x, x) (store stored).
Proof.
  destruct plain_sample as [Ht Hd].
  destruct (Store_effect (H := calm) "" (λ x, x) sample_cfg (λ a b E, E) (sample_doc "h1")
    (sample_block <$> ["b1"; "b2"]) ((λ _, [f32_of_Z 1]) <$> ["b1"; "b2"]) "m" empty_env stored)
    as (bs & es & _ & Hc & _); try done; apply empty_consistent.
Qed.

(** A new version over an old one. *)
Definition restored : Env Stores := (store_as calm "h2" ["b2"; "b3"] stored).2.

Lemma Store_replaces_witness :
  size (rows (store stored)) = 2 ∧
  ∃ bs es, deduplicated sample_cfg (sample_doc "h2") (sample_block <$> ["b2"; "b3"])
             ((λ _, [f32_of_Z 1]) <$> ["b2"; "b3"]) = Ok (bs, es) ∧
    consistent "" (λ x, x) (store restored) ∧
    replaced (λ x, x) sample_cfg (sample_doc "h2") bs "m" (store stored) (store restored).
Proof.
  split; [vm_compute; reflexivity|].
  apply (Store_replaces (H := calm) "" (λ x, x) sample_cfg (λ a b E, E) (sample_doc "h2")
    (sample_block <$> ["b2"; "b3"]) ((λ _, [f32_of_Z 1]) <$> ["b2"; "b3"]) "m" stored restored).
  - exact stored_consistent.
  - exact (proj1 plain_sample).
  - exact (proj2 plain_sample).
  - discriminate.
  - reflexivity.
  - vm_compute. reflexivity.
Defined.

Lemma Delete_document_exact_witness :
  consistent "" (λ x, x) (store (@Delete_document calm "" "t" "d" stored).2).
Proof.
  apply (Delete_document_exact (H := calm) "" (λ x, x) "t" "d" stored
           (@Delete_document calm "" "t" "d" stored).2).
  - exact stored_consistent.
  - vm_compute. reflexivity.
Defined.

Lemma empty_sound : sound_rows "" (λ x, x) (store empty_env).
Proof. split; [apply empty_consistent|]. intros t id Hp. by apply (cs_lockstep _ _ _ empty_consistent). Qed.

Lemma stored_sound : sound_rows "" (λ x, x) (store stored).
Proof. split; [apply stored_consistent|]. intros t id Hp. by apply (cs_lockstep _ _ _ stored_consistent). Qed.

(** The vector upsert of a first version fails; then the vector delete of a replacement. *)
Lemma Store_metadata_first_witness :
  match store_as (fails_at 3) "h1" ["b1"; "b2"] empty_env with
  | (Ok _, _) => False
  | (Err _, w') => covered_but "" (λ t id, false = true ∧ t = "t"%string ∧ is_Some ((∅ : gmap string Chunk) !! id)) (store w')
  end ∧
  outdated (sample_doc "h2") (store stored) = true ∧
  match store_as (fails_at 8) "h2" ["b3"] stored with
  | (Ok _, _) => False
  | (Err _, w') => covered_but "" (λ t id, true = true ∧ t = "t"%string ∧
      is_Some (doc_rows "t" "d" (rows (store stored)) !! id)) (store w')
  end.
Proof.
  split; [|split; [vm_compute; reflexivity|]].
  - pose proof (Store_metadata_first (H := fails_at 3) "" (λ x, x) sample_cfg (λ a b E, E)
      (sample_doc "h1") (sample_block <$> ["b1"; "b2"]) ((λ _, [f32_of_Z 1]) <$> ["b1"; "b2"]) "m"
      empty_env empty_sound (proj1 plain_sample) (proj2 plain_sample)) as Hm.
    change (Store _ _ _ _ _ _ _ empty_env) with (store_as (fails_at 3) "h1" ["b1"; "b2"] empty_env) in Hm.
    destruct (store_as (fails_at 3) "h1" ["b1"; "b2"] empty_env) as [[u|e] w'] eqn:E;
      [vm_compute in E; discriminate E|exact (proj2 Hm)].
  - pose proof (Store_metadata_first (H := fails_at 8) "" (λ x, x) sample_cfg (λ a b E, E)
      (sample_doc "h2") (sample_block <$> ["b3"]) ((λ _, [f32_of_Z 1]) <$> ["b3"]) "m"
      stored stored_sound (proj1 plain_sample) (proj2 plain_sample)) as Hm.
    change (Store _ _ _ _ _ _ _ stored) with (store_as (fails_at 8) "h2" ["b3"] stored) in Hm.
    destruct (store_as (fails_at 8) "h2" ["b3"] stored) as [[u|e] w'] eqn:E;
      [vm_compute in E; discriminate E|].
    replace (outdated (sample_doc "h2") (store stored)) with true in Hm by (vm_compute; reflexivity).
    exact (proj2 Hm).
Defined.

Definition counts (w : Env Stores) : nat * nat :=
  (size (rows (store w)), size (points_of (store w) "t")).

(** A delete whose vector call fails is retried by the coordinator; the retry finds
    no rows, deletes no vectors and reports success, so the vectors stay for good. *)
Example delete_retry_orphans_vectors :
  let o := fails_at 6 in
  let first := @Delete_document o "" "t" "d" stored in
  let second := @Delete_document o "" "t" "d" first.2 in
  (∃ e, first.1 = Err e) ∧ second.1 = Ok tt ∧ counts second.2 = (0, 2).
Proof. vm_compute. repeat split. by eexists. Qed.

(** The same happens when a new version of a document replaces an old one. *)
Example store_retry_orphans_vectors :
  let o := fails_at 8 in
  let first := store_as o "h2" ["b3"] stored in
  let second := store_as o "h2" ["b3"] first.2 in
  (∃ e, first.1 = Err e) ∧ second.1 = Ok tt ∧ counts second.2 = (1, 3).
Proof. vm_compute. repeat split. by eexists. Qed.

(** Storing the same content with fewer blocks keeps the chunks of the others. *)
Example same_hash_keeps_old_blocks :
  counts (store_as calm "h1" ["b1"] stored).2 = (2, 2).
Proof. vm_compute. reflexivity. Qed.

(** Chunk ids of different documents of a tenant can coincide. *)
Example chunk_ids_collide : composite "t" "a:b" "c" = composite "t" "a" "b:c".
Proof. reflexivity. Qed.
End StoreStage.
