(* ===== verification/Kafka.v ===== *)
(** * The Kafka envelope

    The partition key and [decodeEvent] of internal/pipeline/consumer.go and the
    producer of producer.go. JSON and Unicode case folding are outside: they are
    arguments. The theorems are that parsing inverts key formatting, with the exact
    condition under which it does, and that what the producer emits the consumer
    decodes to the same event. *)

From Stdlib Require Import Ascii.
From S2P Require Import Prelude GoString PipelineTypes.

Module Kafka.

Definition PartitionKeySeparator : string := "||".
Definition legacyPartitionKeySeparator : string := "|".

Definition PartitionKey (tenantID sourceID : string) : string :=
  str_app tenantID (str_app PartitionKeySeparator sourceID).

(** [strings.Index]: the prefix before the first occurrence, and what follows it. *)
Fixpoint cut (sep l : bytes) : option (bytes * bytes) :=
  match strip_prefix sep l with
  | Some r => Some ([], r)
  | None =>
      match l with
      | [] => None
      | a :: l' => match cut sep l' with Some (p, r) => Some (a :: p, r) | None => None end
      end
  end.

(** Both halves are required. *)
Definition both_halves (legacy : bool) (tenant source : bytes) : option (string * string * bool) :=
  match tenant, source with
  | _ :: _, _ :: _ => Some (of_bytes tenant, of_bytes source, legacy)
  | _, _ => None
  end.

(** [ParsePartitionKeyDetailed]: tenant, source and the legacy flag. *)
Definition ParsePartitionKeyDetailed (key : string) : option (string * string * bool) :=
  match cut (to_bytes PartitionKeySeparator) (to_bytes key) with
  | Some (t, s) => both_halves false t s
  | None =>
      match cut (to_bytes legacyPartitionKeySeparator) (to_bytes key) with
      | Some (t, s) => both_halves true t s
      | None => None
      end
  end.

Definition ParsePartitionKey (key : string) : option (string * string) :=
  match ParsePartitionKeyDetailed key with Some (t, s, _) => Some (t, s) | None => None end.

(** ** Cutting *)

Lemma cut_sound sep l p r : cut sep l = Some (p, r) → l = p ++ sep ++ r.
Proof.
  revert p r. induction l as [|a l IH]; intros p r; simpl.
  - destruct (strip_prefix sep []) as [r'|] eqn:E; [|done]. intros [= <- <-].
    by apply strip_prefix_spec in E.
  - destruct (strip_prefix sep (a :: l)) as [r'|] eqn:E.
    + intros [= <- <-]. by apply strip_prefix_spec in E.
    + destruct (cut sep l) as [[p' r']|]; [|done]. intros [= <- <-]. simpl. f_equal. by apply IH.
Qed.

(** No occurrence of [sep] starts inside [p] when [sep ++ r] follows. *)
Lemma cut_at sep p r :
  (∀ q, suffix q p → q ≠ [] → strip_prefix sep (q ++ sep ++ r) = None) →
  cut sep (p ++ sep ++ r) = Some (p, r).
Proof.
  induction p as [|a p IH]; intros Hq; simpl.
  - destruct sep as [|x sep]; simpl; [by destruct r|].
    assert (E : strip_prefix (x :: sep) (x :: sep ++ r) = Some r) by by apply strip_prefix_spec.
    simpl in E. by rewrite E.
  - pose proof (Hq (a :: p)) as H1. simpl in H1. rewrite H1 by done.
    rewrite IH; [done|]. intros q Hs. apply Hq. by apply suffix_cons_r.
Qed.

(** A tenant id the separator cannot be confused with: it holds no double bar and
    does not end with a bar. *)
Definition bar : ascii := ascii_of_N 124.
Fixpoint bar_safe (l : bytes) : bool :=
  match l with
  | [] => true
  | [a] => negb (bool_decide (a = bar))
  | a :: ((b :: _) as l') => negb (bool_decide (a = bar) && bool_decide (b = bar)) && bar_safe l'
  end.

Lemma bar_safe_cons a l : bar_safe (a :: l) = true → bar_safe l = true.
Proof. destruct l as [|b l]; simpl; [done|]. by intros [_ ?]%andb_true_iff. Qed.

Lemma bar_safe_strip p r :
  p ≠ [] → bar_safe p = true → strip_prefix (to_bytes PartitionKeySeparator) (p ++ bar :: bar :: r) = None.
Proof.
  intros Hp Hs. destruct (strip_prefix _ _) as [k|] eqn:E; [|done]. exfalso.
  apply strip_prefix_spec in E. destruct p as [|a [|b p]]; [done| |]; simplify_eq/=.
Qed.

Lemma bar_safe_suffix q p : suffix q p → bar_safe p = true → bar_safe q = true.
Proof.
  intros [k ->]. induction k as [|a k IH]; simpl; [done|]. intros H%bar_safe_cons. by apply IH.
Qed.

Lemma cut_partition_key t s :
  bar_safe (to_bytes t) = true →
  cut (to_bytes PartitionKeySeparator) (to_bytes (PartitionKey t s)) = Some (to_bytes t, to_bytes s).
Proof.
  intros Ht. unfold PartitionKey. rewrite !to_bytes_app.
  apply cut_at. intros q Hq Hne. apply bar_safe_strip; [done|]. by eapply bar_safe_suffix.
Qed.

Lemma both_halves_ok legacy t s :
  t ≠ EmptyString → s ≠ EmptyString → both_halves legacy (to_bytes t) (to_bytes s) = Some (t, s, legacy).
Proof.
  intros Ht Hs. unfold both_halves.
  destruct (to_bytes t) as [|a l] eqn:Et; [destruct Ht; by apply to_bytes_inj|].
  destruct (to_bytes s) as [|b k] eqn:Es; [destruct Hs; by apply to_bytes_inj|].
  by rewrite <- Et, <- Es, !of_to_bytes.
Qed.

Lemma parse_partition_key t s :
  t ≠ EmptyString → s ≠ EmptyString → bar_safe (to_bytes t) = true →
  ParsePartitionKeyDetailed (PartitionKey t s) = Some (t, s, false).
Proof.
  intros Ht Hs Hb. unfold ParsePartitionKeyDetailed. rewrite cut_partition_key by done.
  by apply both_halves_ok.
Qed.

(** A tenant that ends with a bar takes part of the separator with it. *)
Example trailing_bar_misparses : ParsePartitionKey (PartitionKey "a|" "s") = Some ("a", "|s").
Proof. vm_compute. reflexivity. Qed.

Example legacy_key : ParsePartitionKeyDetailed "a|s" = Some ("a", "s", true).
Proof. vm_compute. reflexivity. Qed.

(** ** Messages *)

Record message := {
  msg_Topic : string;
  msg_Key : string;
  msg_Value : string;
  msg_Headers : list (string * string)
}.

Definition KafkaRequestIDHeader : string := "x-request-id".

Definition set_ids (tenant source request : string) (e : IngestEvent) : IngestEvent :=
  {| ev_Kind := ev_Kind e; ev_TenantID := tenant; ev_SourceID := source;
     ev_DocumentID := ev_DocumentID e; ev_NamespaceID := ev_NamespaceID e;
     ev_FetchURL := ev_FetchURL e; ev_Title := ev_Title e; ev_MIMEType := ev_MIMEType e;
     ev_ContentType := ev_ContentType e; ev_PrivacyLabel := ev_PrivacyLabel e;
     ev_PreviousHash := ev_PreviousHash e; ev_Metadata := ev_Metadata e; ev_Force := ev_Force e;
     ev_InlineContent := ev_InlineContent e; ev_SyncMode := ev_SyncMode e; ev_RequestID := request |}.

Section Codec.
Context (Marshal : IngestEvent → result string string).
Context (Unmarshal : string → result IngestEvent string).
Context (EqualFold : string → string → bool).

Definition RequestIDFromKafkaMessage (m : message) : string :=
  match List.find (λ h, EqualFold h.1 KafkaRequestIDHeader) (msg_Headers m) with
  | Some h => h.2
  | None => EmptyString
  end.

(** A field of the body against its half of the key: the body wins when equal, the
    key fills a missing one. *)
Definition reconcile (what key body : string) : result string string :=
  if str_empty body then Ok key
  else if str_eqb body key then Ok body
  else Err (str_app what " mismatch").

Definition keyed_ids (m : message) (e : IngestEvent) : result (string * string * bool) string :=
  if str_empty (msg_Key m) then Ok (ev_TenantID e, ev_SourceID e, false)
  else
    match ParsePartitionKeyDetailed (msg_Key m) with
    | None => Err "malformed partition key"
    | Some (keyTenant, keySource, legacy) =>
        let! t := reconcile "tenant_id" keyTenant (ev_TenantID e) in
        let! s := reconcile "source_id" keySource (ev_SourceID e) in
        Ok (t, s, legacy)
    end.

(** [decodeEvent]: the event and the legacy flag. *)
Definition decodeEvent (m : message) : result (IngestEvent * bool) string :=
  let! e := Unmarshal (msg_Value m) in
  let hid := RequestIDFromKafkaMessage m in
  let request := if negb (str_empty hid) && str_empty (ev_RequestID e) then hid else ev_RequestID e in
  let! (t, s, legacy) := keyed_ids m e in
  if str_empty t || str_empty (ev_DocumentID e) then Err "missing tenant_id or document_id"
  else Ok (set_ids t s request e, legacy).

(** [EmitEvent]: the message sent; [ctx_request] is the request id of the context. *)
Definition EmitEvent (topic ctx_request : string) (e : IngestEvent) : result message string :=
  if str_empty (ev_TenantID e) || str_empty (ev_SourceID e) then Err "producer: missing tenant/source"
  else if str_empty (ev_DocumentID e) then Err "producer: missing document_id"
  else
    let request := if str_empty (ev_RequestID e) then ctx_request else ev_RequestID e in
    let e' := set_ids (ev_TenantID e) (ev_SourceID e) request e in
    let! body := Marshal e' in
    Ok {| msg_Topic := topic; msg_Key := PartitionKey (ev_TenantID e) (ev_SourceID e);
          msg_Value := body;
          msg_Headers := if str_empty request then [] else [(KafkaRequestIDHeader, request)] |}.

Definition KickoffDocumentID (sourceID : string) : string := str_app "source:" sourceID.

Definition kickoff_event (tenantID sourceID connectorType : string) : IngestEvent :=
  {| ev_Kind := EventReindex; ev_TenantID := tenantID; ev_SourceID := sourceID;
     ev_DocumentID := KickoffDocumentID sourceID; ev_NamespaceID := EmptyString;
     ev_FetchURL := EmptyString; ev_Title := EmptyString; ev_MIMEType := EmptyString;
     ev_ContentType := EmptyString; ev_PrivacyLabel := EmptyString; ev_PreviousHash := EmptyString;
     ev_Metadata := list_to_map [("connector_type", connectorType); ("sync_mode", SyncModeBackfill)];
     ev_Force := false; ev_InlineContent := EmptyString; ev_SyncMode := SyncModeBackfill;
     ev_RequestID := EmptyString |}.

Definition EmitSourceConnected (topic ctx_request tenantID sourceID connectorType : string)
    : result message string :=
  if str_empty tenantID || str_empty sourceID then Err "producer: missing tenant/source"
  else EmitEvent topic ctx_request (kickoff_event tenantID sourceID connectorType).

(** ** What is decoded *)

Lemma reconcile_Ok what key body x :
  reconcile what key body = Ok x → x = key ∧ (body = EmptyString ∨ body = key).
Proof.
  unfold reconcile. destruct (str_empty body) eqn:E.
  - intros [= <-]. split; [done|left]. by apply str_empty_true.
  - destruct (str_eqb body key) eqn:E2; [|done]. apply str_eqb_eq in E2 as ->. intros [= <-]. auto.
Qed.

(** A decoded event has a tenant and a document; when the message has a key, the
    tenant and source of the event are those of the key, and the body agreed with the
    key wherever it named them, so a message cannot carry an event of another tenant. *)
Theorem decodeEvent_scoped m e legacy :
  decodeEvent m = Ok (e, legacy) →
  ev_TenantID e ≠ EmptyString ∧ ev_DocumentID e ≠ EmptyString ∧
  (msg_Key m ≠ EmptyString →
   ParsePartitionKeyDetailed (msg_Key m) = Some (ev_TenantID e, ev_SourceID e, legacy) ∧
   ∃ body, Unmarshal (msg_Value m) = Ok body ∧
     (ev_TenantID body = EmptyString ∨ ev_TenantID body = ev_TenantID e) ∧
     (ev_SourceID body = EmptyString ∨ ev_SourceID body = ev_SourceID e)).
Proof.
  unfold decodeEvent. rewrite result_bind_Ok. intros (body & Hu & H).
  rewrite result_bind_Ok in H. destruct H as ([[t s] lg] & Hk & H).
  destruct (str_empty t || str_empty (ev_DocumentID body)) eqn:He; [done|].
  injection H as <- <-. apply orb_false_iff in He as [Ht%str_empty_false Hd%str_empty_false].
  simpl. split_and!; [done|done|]. intros Hkey. revert Hk. unfold keyed_ids.
  rewrite (proj2 (str_empty_false _) Hkey).
  destruct (ParsePartitionKeyDetailed (msg_Key m)) as [[[kt ks] l]|]; [|done].
  rewrite result_bind_Ok. intros (t' & [-> Ht']%reconcile_Ok & Hk).
  rewrite result_bind_Ok in Hk. destruct Hk as (s' & [-> Hs']%reconcile_Ok & [= <- <- <-]).
  split; [done|]. by exists body.
Qed.

(** The event as the producer stamps it. *)
Definition stamped (ctx_request : string) (e : IngestEvent) : IngestEvent :=
  set_ids (ev_TenantID e) (ev_SourceID e)
    (if str_empty (ev_RequestID e) then ctx_request else ev_RequestID e) e.

(** C19: what the producer sends, the consumer decodes: the same event, with the
    request id the producer stamped, and not as a legacy key. This holds for an event
    the JSON codec gives back unchanged, as it does when its text is valid UTF-8, and a
    tenant id with no double bar that does not end with a bar (one that does shifts
    the separator of the partition key); comparing header names without case
    finds the producer's own header. *)
Theorem emitted_events_decode topic ctx_request e m :
  (∀ y, Marshal (stamped ctx_request e) = Ok y → Unmarshal y = Ok (stamped ctx_request e)) →
  EqualFold KafkaRequestIDHeader KafkaRequestIDHeader = true →
  bar_safe (to_bytes (ev_TenantID e)) = true →
  EmitEvent topic ctx_request e = Ok m →
  decodeEvent m = Ok (stamped ctx_request e, false).
Proof.
  intros Hcodec Hfold Hbar. unfold EmitEvent.
  destruct (str_empty (ev_TenantID e) || str_empty (ev_SourceID e)) eqn:E1; [done|].
  destruct (str_empty (ev_DocumentID e)) eqn:E2; [done|].
  apply orb_false_iff in E1 as [Et Es].
  set (req := if str_empty (ev_RequestID e) then ctx_request else ev_RequestID e).
  rewrite result_bind_Ok. intros (body & Hm & [= <-]).
  unfold decodeEvent. simpl msg_Value. rewrite (Hcodec _ Hm). simpl.
  unfold keyed_ids. simpl msg_Key. rewrite parse_partition_key by (done || by apply str_empty_false).
  assert (Hne : str_empty (PartitionKey (ev_TenantID e) (ev_SourceID e)) = false).
  { apply str_empty_false in Et. unfold PartitionKey. by destruct (ev_TenantID e). }
  rewrite Hne. unfold reconcile. simpl. rewrite Et, Es, !str_eqb_refl. simpl. rewrite Et, E2. simpl.
  unfold RequestIDFromKafkaMessage. simpl.
  unfold stamped. fold req. destruct (str_empty req) eqn:Er; simpl; [done|]. by rewrite Hfold; simpl; rewrite andb_false_r.
Qed.
End Codec.

(** The consumer recognises the event of a newly connected source. *)
Lemma kickoff_recognised tenantID sourceID connectorType :
  IsKickoffEvent (kickoff_event tenantID sourceID connectorType) = true.
Proof.
  unfold IsKickoffEvent, kickoff_event, KickoffDocumentID, str_app. simpl.
  by destruct sourceID.
Qed.

Section Sample.
(** A codec on one event. *)
Definition sample_event : IngestEvent := plain_event EventDocumentChanged "t" "s" "d".
Definition sample_Marshal (e : IngestEvent) : result string string :=
  if bool_decide (e = sample_event) then Ok "e" else Err "unsupported".
Definition sample_Unmarshal (s : string) : result IngestEvent string :=
  if str_eqb s "e" then Ok sample_event else Err "bad json".

Lemma sample_codec x y : sample_Marshal x = Ok y → sample_Unmarshal y = Ok x.
Proof. unfold sample_Marshal. case_bool_decide; [|done]. by intros [= <-]; subst. Qed.

Lemma emitted_events_decode_witness :
  decodeEvent sample_Unmarshal str_eqb
    {| msg_Topic := "ingest"; msg_Key := "t||s"; msg_Value := "e"; msg_Headers := [] |} =
    Ok (sample_event, false).
Proof.
  apply (emitted_events_decode sample_Marshal sample_Unmarshal str_eqb "ingest" "" sample_event).
  - intros y. apply sample_codec.
  - reflexivity.
  - reflexivity.
  - vm_compute. reflexivity.
Defined.

Lemma decodeEvent_scoped_witness :
  decodeEvent sample_Unmarshal str_eqb
    {| msg_Topic := "ingest"; msg_Key := "t||s"; msg_Value := "e"; msg_Headers := [] |} =
    Ok (sample_event, false) ∧ ev_TenantID sample_event ≠ EmptyString.
Proof.
  split; [vm_compute; reflexivity|].
  apply (decodeEvent_scoped sample_Unmarshal str_eqb
    {| msg_Topic := "ingest"; msg_Key := "t||s"; msg_Value := "e"; msg_Headers := [] |} sample_event false).
  vm_compute. reflexivity.
Defined.
End Sample.
End Kafka.
