(* ===== verification/Consumer.v ===== *)
(** * When an offset is marked

    internal/pipeline/consumer.go: the generations [Run] goes through, [Setup],
    [ConsumeClaim] of every partition, the pending table [register], [complete] and
    [markDone] maintain, and the coordinator's success and dead-letter callbacks, as
    actions that interleave freely. A claim that gives up waiting leaves its event
    in the coordinator, and the next generation delivers the message again. A message is
    identified by its partition and its place there; the consumer is the only member
    of its group, and the broker starts a claim anywhere up to the last offset
    marked. The theorem is that an offset is marked only after the event of that very
    message ended, provided events with the same pending key arrive on one partition
    and no event with that key was left over from an earlier generation; examples
    show what happens without the two provisos and when the dead-letter topic
    refuses a message. *)

From S2P Require Import Prelude GoString PipelineTypes.

Module Consumer.

(** ** Configuration *)

Record ConsumerConfig := {
  Topics : list string;
  DLQTopic : string;
  MaxInFlightPerPartition : Z;
  CommitTimeout : Z
}.
Definition defaults (c : ConsumerConfig) : ConsumerConfig :=
  {| Topics := match Topics c with [] => ["ingest"; "reindex"; "purge"] | ts => ts end;
     DLQTopic := if str_empty (DLQTopic c) then "ingest.dlq" else DLQTopic c;
     MaxInFlightPerPartition := if (MaxInFlightPerPartition c =? 0)%Z then 1 else MaxInFlightPerPartition c;
     CommitTimeout := if (CommitTimeout c =? 0)%Z then (30 * second)%Z else CommitTimeout c |}.

Record ConsumerTuning := { SessionTimeout : Z; MaxPollInterval : Z; RebalanceStrategy : string }.
Definition tuning_defaults (t : ConsumerTuning) : ConsumerTuning :=
  {| SessionTimeout := if (SessionTimeout t =? 0)%Z then (30 * second)%Z else SessionTimeout t;
     MaxPollInterval := if (MaxPollInterval t =? 0)%Z then (5 * minute)%Z else MaxPollInterval t;
     RebalanceStrategy := if str_empty (RebalanceStrategy t) then "sticky" else RebalanceStrategy t |}.

Inductive strategy := Range | RoundRobin | Sticky.
Definition strategy_of (t : ConsumerTuning) : strategy :=
  if str_eqb (RebalanceStrategy (tuning_defaults t)) "range" then Range
  else if str_eqb (RebalanceStrategy (tuning_defaults t)) "roundrobin" then RoundRobin
  else Sticky.

Definition NewConsumer (has_group has_coordinator has_dlq : bool) (groupID : string)
    (c : ConsumerConfig) : result ConsumerConfig string :=
  if negb has_group then Err "consumer: nil ConsumerGroup"
  else if negb has_coordinator then Err "consumer: nil Coordinator"
  else if negb has_dlq then Err "consumer: nil DLQProducer"
  else if str_empty groupID then Err "consumer: GroupID required"
  else Ok (defaults c).

(** [IdempotencyKey] of types.go. *)
Definition IdempotencyKey (tenantID documentID contentHash : string) : string :=
  str_app tenantID (str_app "|" (str_app documentID (str_app "|" contentHash))).
Definition pendingKey (evt : IngestEvent) : string :=
  IdempotencyKey (ev_TenantID evt) (str_app (ev_SourceID evt) (str_app ":" (ev_DocumentID evt))) EmptyString.

(** The lag reported after a commit. *)
Definition lag (highWaterMark offset : Z) : Z := Z.max 0 (highWaterMark - offset - 1).

(** ** Partitions and the coordinator *)

Section Protocol.
Context {msg : Type} (decode : msg → result IngestEvent string).
(** What the broker holds for each partition, from the group's first offset on. *)
Context (logs : gmap string (list msg)).

(** A claim: [before] is what precedes the offset it started at, [marked] what it
    marked since, [waiting] the message it waits on, its event and whether the completion
    channel was signalled, [pending] the keys of [partitionState]. *)
Record part := {
  before : list msg;
  marked : list msg;
  waiting : option (msg * IngestEvent * bool);
  remaining : list msg;
  pending : gset string;
  stopped : bool
}.

Inductive how := Succeeded | DeadLettered (err : string).

(** An event in the coordinator, and the claim and generation that submitted it. *)
Record flight := { fl_gen : nat; fl_part : string; fl_msg : msg; fl_evt : IngestEvent }.

(** [marks] counts the messages marked on each partition over all generations;
    [stale] collects the pending keys that were in flight when a generation began. *)
Record State := {
  gen : nat;
  parts : gmap string part;
  inflight : list flight;
  ended : list (flight * how);
  dlq : list (option IngestEvent * string);
  marks : gmap string nat;
  stale : gset string
}.

Inductive action :=
| Generation (from : gmap string nat)
| Receive (p : string) (submit_ok dlq_ok : bool)
| Finish (i : nat) (h : how) (dlq_ok : bool)
| Commit (p : string)
| Stop (p : string).

Definition mark_of (s : State) (p : string) : nat := default 0 (marks s !! p).

(** The claim of a partition from an offset on. *)
Definition claim_at (p : string) (k : nat) : option part :=
  l ← logs !! p;
  Some {| before := take k l; marked := []; waiting := None; remaining := drop k l;
          pending := ∅; stopped := false |}.

(** The next turn of [Run]: every claim has returned; [Setup] drops the pending
    tables; the broker assigns partitions, each from an offset not above its mark. *)
Definition generation (from : gmap string nat) (s : State) : option State :=
  if decide (map_Forall (λ _ q, stopped q = true) (parts s) ∧
             map_Forall (λ p k, k ≤ mark_of s p) from)
  then Some {| gen := S (gen s); parts := map_imap claim_at from; inflight := inflight s;
               ended := ended s; dlq := dlq s; marks := marks s;
               stale := stale s ∪ list_to_set ((λ x, pendingKey (fl_evt x)) <$> inflight s) |}
  else None.

(** [complete] on one partition. *)
Definition complete (key : string) (q : part) : part :=
  if decide (key ∈ pending q) then
    {| before := before q; marked := marked q;
       waiting := match waiting q with
                  | Some (m, evt, b) => Some (m, evt, b || str_eqb (pendingKey evt) key)
                  | None => None
                  end;
       remaining := remaining q; pending := pending q ∖ {[key]}; stopped := stopped q |}
  else q.

Definition markDone (evt : IngestEvent) (ps : gmap string part) : gmap string part :=
  complete (pendingKey evt) <$> ps.

Definition publish (ok : bool) (evt : option IngestEvent) (err : string)
    (l : list (option IngestEvent * string)) : list (option IngestEvent * string) :=
  if ok then l ++ [(evt, err)] else l.

(** [MarkMessage]: the claim's next offset, kept when an earlier claim went further. *)
Definition mark (p : string) (n : nat) (s : State) : gmap string nat :=
  <[p := max n (mark_of s p)]> (marks s).

(** One turn of the loop of [ConsumeClaim] up to the wait. *)
Definition receive (p : string) (submit_ok dlq_ok : bool) (s : State) : option State :=
  match parts s !! p with
  | Some q =>
      match stopped q, waiting q, remaining q with
      | false, None, m :: rest =>
          match decode m with
          | Err e =>
              Some {| gen := gen s;
                      parts := <[p := {| before := before q; marked := marked q ++ [m]; waiting := None;
                                         remaining := rest; pending := pending q; stopped := false |}]> (parts s);
                      inflight := inflight s; ended := ended s;
                      dlq := publish dlq_ok None (str_app "decode: " e) (dlq s);
                      marks := mark p (length (before q ++ marked q ++ [m])) s; stale := stale s |}
          | Ok evt =>
              Some {| gen := gen s;
                      parts := <[p := {| before := before q; marked := marked q;
                                         waiting := Some (m, evt, false); remaining := rest;
                                         pending := {[pendingKey evt]} ∪ pending q;
                                         stopped := negb submit_ok |}]> (parts s);
                      inflight := if submit_ok
                                  then inflight s ++ [{| fl_gen := gen s; fl_part := p; fl_msg := m; fl_evt := evt |}]
                                  else inflight s;
                      ended := ended s; dlq := dlq s; marks := marks s; stale := stale s |}
          end
      | _, _, _ => None
      end
  | None => None
  end.

(** The coordinator ends its i-th event: for a dead letter, publish first, then signal. *)
Definition finish (i : nat) (h : how) (dlq_ok : bool) (s : State) : option State :=
  match inflight s !! i with
  | Some x =>
      Some {| gen := gen s; parts := markDone (fl_evt x) (parts s);
              inflight := delete i (inflight s);
              ended := ended s ++ [(x, h)];
              dlq := match h with
                     | Succeeded => dlq s
                     | DeadLettered e => publish dlq_ok (Some (fl_evt x)) e (dlq s)
                     end;
              marks := marks s; stale := stale s |}
  | None => None
  end.

(** The signal arrived: mark the message. *)
Definition commit (p : string) (s : State) : option State :=
  match parts s !! p with
  | Some q =>
      match stopped q, waiting q with
      | false, Some (m, evt, true) =>
          Some {| gen := gen s;
                  parts := <[p := {| before := before q; marked := marked q ++ [m]; waiting := None;
                                     remaining := remaining q; pending := pending q; stopped := false |}]> (parts s);
                  inflight := inflight s; ended := ended s; dlq := dlq s;
                  marks := mark p (length (before q ++ marked q ++ [m])) s; stale := stale s |}
      | _, _ => None
      end
  | None => None
  end.

(** The claim returns: the session ended or the commit timeout fired. *)
Definition stop (p : string) (s : State) : option State :=
  match parts s !! p with
  | Some q =>
      Some {| gen := gen s;
              parts := <[p := {| before := before q; marked := marked q; waiting := waiting q;
                                 remaining := remaining q; pending := pending q; stopped := true |}]> (parts s);
              inflight := inflight s; ended := ended s; dlq := dlq s; marks := marks s; stale := stale s |}
  | None => None
  end.

Definition act (s : State) (a : action) : option State :=
  match a with
  | Generation from => generation from s
  | Receive p ok d => receive p ok d s
  | Finish i h d => finish i h d s
  | Commit p => commit p s
  | Stop p => stop p s
  end.

Definition step (s s' : State) : Prop := ∃ a, act s a = Some s'.

Definition init : State :=
  {| gen := 0; parts := ∅; inflight := []; ended := []; dlq := []; marks := ∅; stale := ∅ |}.

Fixpoint run (s : State) (acts : list action) : option State :=
  match acts with
  | [] => Some s
  | a :: acts' => match act s a with Some s' => run s' acts' | None => None end
  end.

Lemma run_rtc s acts s' : run s acts = Some s' → rtc step s s'.
Proof.
  revert s. induction acts as [|a acts IH]; intros s; simpl; [by intros [= <-]; constructor|].
  destruct (act s a) as [s1|] eqn:Ha; [|done]. intros H. eapply rtc_l; [by exists a|by apply IH].
Qed.

(** ** The invariant *)

Definition decodable (m : msg) : bool := match decode m with Ok _ => true | Err _ => false end.

(** A message whose event no earlier generation left in the coordinator. *)
Definition fresh (st : gset string) (m : msg) : bool :=
  match decode m with Ok evt => bool_decide (pendingKey evt ∉ st) | Err _ => false end.

(** Submitted by the claim of a partition in this generation, with a fresh key. *)
Definition own (g : nat) (st : gset string) (p : string) (x : flight) : Prop :=
  fl_gen x = g ∧ fl_part x = p ∧ pendingKey (fl_evt x) ∉ st.
#[local] Instance own_dec g st p x : Decision (own g st p x).
Proof. unfold own. apply _. Defined.

Definition own_flight (s : State) (p : string) : list flight :=
  filter (own (gen s) (stale s) p) (inflight s).
(** The messages whose events ended, in the order in which they did. *)
Definition own_ended (s : State) (p : string) : list msg :=
  fl_msg <$> filter (own (gen s) (stale s) p) (ended s).*1.

Definition waiting_msg (q : part) : list msg :=
  match waiting q with Some (m, _, _) => [m] | None => [] end.
Definition signalled_msg (q : part) : list msg :=
  match waiting q with Some (m, _, true) => [m] | _ => [] end.

(** An ended event answers for a message: it is the message's own, or has the
    message's key, which was left over from an earlier generation. *)
Definition accounted (s : State) (p : string) (m : msg) : Prop :=
  ∀ evt, decode m = Ok evt → ∃ x h, (x, h) ∈ ended s ∧
    (fl_part x = p ∧ fl_msg x = m ∨
     pendingKey evt ∈ stale s ∧ pendingKey (fl_evt x) = pendingKey evt).

Lemma accounted_mono s s' p m :
  ended s ⊆ ended s' → stale s ⊆ stale s' → accounted s p m → accounted s' p m.
Proof.
  intros He Hs Ha evt Hd. destruct (Ha evt Hd) as (x & h & Hx & Hor). exists x, h.
  split; [by apply He|]. destruct Hor as [?|[Hst ?]]; [by left|right]. split; [by apply Hs|done].
Qed.

(** What completing a key does to a claim. *)
Lemma complete_waiting key q m evt b :
  waiting (complete key q) = Some (m, evt, b) →
  ∃ b', waiting q = Some (m, evt, b') ∧ (b' = true → b = true) ∧
        (b = false → key ∈ pending q → pendingKey evt ≠ key).
Proof.
  unfold complete. case_decide as Hk; simpl; [|intros Hw; by exists b].
  destruct (waiting q) as [[[m' evt'] b']|]; [|done]. intros [= -> -> <-]. exists b'.
  split_and!; [done|by intros ->|]. intros [_ Hn]%orb_false_iff _. by apply str_eqb_neq in Hn.
Qed.

Lemma waiting_msg_complete key q : waiting_msg (complete key q) = waiting_msg q.
Proof.
  unfold complete, waiting_msg. case_decide; [|done]. simpl. by destruct (waiting q) as [[[? ?] ?]|].
Qed.

Lemma signalled_complete key q :
  signalled_msg (complete key q) = signalled_msg q ∨
  ∃ m evt, waiting q = Some (m, evt, false) ∧ pendingKey evt = key ∧ signalled_msg (complete key q) = [m].
Proof.
  unfold complete, signalled_msg. case_decide; [|by left]. simpl.
  destruct (waiting q) as [[[m evt] [|]]|]; [by left| |by left]. simpl.
  destruct (str_eqb (pendingKey evt) key) eqn:E; [|by left].
  right. apply str_eqb_eq in E. by exists m, evt.
Qed.

Lemma complete_fields key q :
  before (complete key q) = before q ∧ marked (complete key q) = marked q ∧
  remaining (complete key q) = remaining q ∧ stopped (complete key q) = stopped q ∧
  pending (complete key q) ⊆ pending q.
Proof. unfold complete. case_decide; split_and!; try done. simpl. set_solver. Qed.

Lemma complete_other key q : key ∉ pending q → complete key q = q.
Proof. intros Hk. unfold complete. by rewrite decide_False. Qed.

Lemma filter_delete {A} (P : A → Prop) `{∀ x, Decision (P x)} (l : list A) i x :
  l !! i = Some x →
  ∃ l1 l2, filter P l = l1 ++ (if decide (P x) then [x] else []) ++ l2 ∧ filter P (delete i l) = l1 ++ l2.
Proof.
  intros Hx. exists (filter P (take i l)), (filter P (drop (S i) l)).
  rewrite delete_take_drop, filter_app. split; [|done].
  rewrite <- (take_drop_middle l i x Hx) at 1. rewrite filter_app, filter_cons. by case_decide.
Qed.

Lemma filter_none {A} (P : A → Prop) `{∀ x, Decision (P x)} (l : list A) :
  (∀ x, x ∈ l → ¬ P x) → filter P l = [].
Proof.
  induction l as [|a l IH]; intros Hn; [done|]. rewrite filter_cons, decide_False by (apply Hn; left).
  apply IH. intros x Hx. apply Hn. by right.
Qed.

Lemma elem_of_delete_ne {A} (l : list A) i x y : l !! i = Some x → y ∈ l → y ≠ x → y ∈ delete i l.
Proof.
  intros Hx Hy Hne. rewrite <- (take_drop_middle l i x Hx) in Hy. rewrite delete_take_drop.
  set_solver.
Qed.

Section Invariant.
(** Where events with a given pending key arrive. *)
Context (home : string → string).
Context (homed : ∀ p l m evt, logs !! p = Some l → m ∈ l → decode m = Ok evt → home (pendingKey evt) = p).

Record part_ok (s : State) (p : string) (q : part) : Prop := {
  po_log : logs !! p = Some (before q ++ marked q ++ waiting_msg q ++ remaining q);
  po_marks : length (before q ++ marked q) ≤ mark_of s p;
  po_decoded m evt b : waiting q = Some (m, evt, b) → decode m = Ok evt;
  po_ended : own_ended s p = List.filter (fresh (stale s)) (marked q ++ signalled_msg q);
  po_flight : own_flight s p = [] ∨ ∃ x evt, waiting q = Some (fl_msg x, evt, false) ∧ own_flight s p = [x];
  po_active m evt : waiting q = Some (m, evt, false) → stopped q = false →
    ∃ x, x ∈ inflight s ∧ fl_part x = p ∧ fl_msg x = m ∧ fl_evt x = evt;
  po_registered m evt : waiting q = Some (m, evt, false) → pendingKey evt ∈ pending q;
  po_keys k : k ∈ pending q → home k = p;
  po_accounted m : m ∈ marked q ++ signalled_msg q → accounted s p m
}.

Record inv (s : State) : Prop := {
  inv_parts p q : parts s !! p = Some q → part_ok s p q;
  inv_flight x : x ∈ inflight s → decode (fl_msg x) = Ok (fl_evt x) ∧ fl_gen x ≤ gen s ∧
    (pendingKey (fl_evt x) ∈ stale s ∨
     fl_gen x = gen s ∧ is_Some (parts s !! fl_part x) ∧ home (pendingKey (fl_evt x)) = fl_part x);
  inv_ended x h : (x, h) ∈ ended s → fl_gen x ≤ gen s;
  inv_marks p l m : logs !! p = Some l → m ∈ take (mark_of s p) l → accounted s p m
}.

Lemma init_inv : inv init.
Proof.
  constructor; simpl; try done.
  - by intros x ?%elem_of_nil.
  - by intros x h ?%elem_of_nil.
  - intros p l m _. unfold mark_of. simpl. rewrite lookup_empty. simpl. by intros ?%elem_of_nil.
Qed.

(** What a partition knows survives the steps of the others. *)
Lemma part_ok_frame s s' p q :
  part_ok s p q → gen s' = gen s → stale s' = stale s → mark_of s' p = mark_of s p →
  own_flight s' p = own_flight s p → own_ended s' p = own_ended s p → ended s ⊆ ended s' →
  (∀ x, x ∈ inflight s → fl_part x = p → x ∈ inflight s') → part_ok s' p q.
Proof.
  intros [O1 O2 O3 O4 O5 O6 O7 O8 O9] Hg Hst Hm Hf He Hin Hfl.
  constructor; rewrite ?Hm, ?Hf, ?He, ?Hst; try done.
  - intros m evt Hw Hs. destruct (O6 m evt Hw Hs) as (x & Hx & Hp & ? & ?). exists x. auto.
  - intros m Hm'. eapply accounted_mono; [done|by rewrite Hst|auto].
Qed.

(** A step of partition [p] only. *)
Lemma inv_update s s' p q' :
  inv s → parts s' = <[p := q']> (parts s) → gen s' = gen s → stale s' = stale s → ended s' = ended s →
  part_ok s' p q' →
  (∀ p', p' ≠ p → mark_of s' p' = mark_of s p' ∧ own_flight s' p' = own_flight s p') →
  inflight s ⊆ inflight s' →
  (∀ x, x ∈ inflight s' → x ∈ inflight s ∨
     decode (fl_msg x) = Ok (fl_evt x) ∧ fl_gen x = gen s ∧ fl_part x = p ∧
     home (pendingKey (fl_evt x)) = p) →
  (∀ l m, logs !! p = Some l → m ∈ take (mark_of s' p) l → accounted s' p m) → inv s'.
Proof.
  intros [Ip If Ie Im] Hp Hg Hst He Hok Hoth Hsub Hin Hmk.
  assert (Hacc : ∀ p' m, accounted s p' m → accounted s' p' m)
    by (intros p' m; apply accounted_mono; by rewrite ?He, ?Hst).
  constructor.
  - intros p' q. rewrite Hp. destruct (decide (p = p')) as [<-|Hne].
    + rewrite lookup_insert_eq. by intros [= <-].
    + rewrite lookup_insert_ne by done. intros Hq. destruct (Hoth p' (not_eq_sym Hne)) as [Hm Hf].
      eapply part_ok_frame; [by apply Ip|done|done|done|done| |by rewrite He|auto].
      unfold own_ended. by rewrite Hg, Hst, He.
  - intros x Hx. rewrite Hp, Hg, Hst. destruct (Hin x Hx) as [Hx'|(Hd & Hgen & Hpx & Hhome)].
    + destruct (If x Hx') as (Hd & Hle & [Hk|(Hgen & Hk & Hhome)]); split_and!; auto. right.
      split_and!; [done| |done]. by apply lookup_insert_is_Some'; right.
    + split_and!; [done|lia|right]. rewrite Hpx. split_and!; [done| |done]. by apply lookup_insert_is_Some'; left.
  - intros x h. rewrite He, Hg. apply Ie.
  - intros p' l m Hl. destruct (decide (p = p')) as [<-|Hne]; [by apply Hmk|].
    destruct (Hoth p' (not_eq_sym Hne)) as [-> _]. intros Hm. by eapply Hacc, Im.
Qed.

Lemma mark_of_mark s s' p p' n :
  marks s' = mark p n s → mark_of s' p' = if decide (p = p') then max n (mark_of s p) else mark_of s p'.
Proof.
  unfold mark_of at 1, mark. intros ->. case_decide as Hp; [subst; by rewrite lookup_insert_eq|].
  by rewrite lookup_insert_ne.
Qed.

(** Marking one more message whose event is accounted for. *)
Lemma marks_accounted s s' p q m l :
  inv s → parts s !! p = Some q → ended s' = ended s → stale s' = stale s →
  logs !! p = Some (before q ++ (marked q ++ [m]) ++ l) → accounted s p m →
  marks s' = mark p (length (before q ++ marked q ++ [m])) s →
  ∀ log m', logs !! p = Some log → m' ∈ take (mark_of s' p) log → accounted s' p m'.
Proof.
  intros Hs Hq He Hst Hlog Hm Hmk log m' Hl. rewrite Hlog in Hl. injection Hl as <-.
  rewrite (mark_of_mark s s' p p _ Hmk), decide_True by done.
  assert (Hacc : accounted s p m' → accounted s' p m')
    by (apply accounted_mono; by rewrite ?He, ?Hst).
  pose proof (inv_parts s Hs p q Hq) as [_ Hk _ _ _ _ _ _ Ha]. intros Hin. apply Hacc.
  destruct (decide (length (before q ++ marked q ++ [m]) ≤ mark_of s p)) as [Hle|Hgt].
  { rewrite Nat.max_r in Hin by done. by eapply (inv_marks s Hs). }
  rewrite Nat.max_l, (app_assoc (before q) (marked q ++ [m]) l), take_app_length in Hin by lia.
  apply elem_of_app in Hin as [Hin|Hin].
  - eapply (inv_marks s Hs); [exact Hlog|]. rewrite take_app_ge by (rewrite length_app in Hk; lia).
    apply elem_of_app. by left.
  - apply elem_of_app in Hin as [Hin|Hin%list_elem_of_singleton]; [|by subst].
    apply Ha, elem_of_app. by left.
Qed.

Lemma receive_inv p ok d s s' : inv s → receive p ok d s = Some s' → inv s'.
Proof.
  intros Hs. unfold receive. destruct (parts s !! p) as [q|] eqn:Hq; [|done].
  pose proof (inv_parts s Hs p q Hq) as [O1 O2 O3 O4 O5 O6 O7 O8 O9].
  destruct (stopped q) eqn:Hst; [done|]. destruct (waiting q) as [[[? ?] ?]|] eqn:Hw; [done|].
  destruct (remaining q) as [|m rest] eqn:Hr; [done|].
  assert (Hnone : waiting_msg q = [] ∧ signalled_msg q = [])
    by (unfold waiting_msg, signalled_msg; by rewrite Hw).
  destruct Hnone as [Hwm Hsm]. rewrite Hwm in O1. rewrite Hsm, app_nil_r in O4, O9. simpl in O1.
  assert (Hno : own_flight s p = []) by (destruct O5 as [|(? & ? & ? & _)]; done).
  destruct (decode m) as [evt|e] eqn:Hd; intros [= <-].
  - assert (Hhome : home (pendingKey evt) = p) by (eapply homed; [exact O1| |exact Hd]; set_solver).
    set (x := {| fl_gen := gen s; fl_part := p; fl_msg := m; fl_evt := evt |}).
    eapply (inv_update s _ p); [done|reflexivity|done|done|done| | | | |]; simpl.
    + constructor; unfold waiting_msg, signalled_msg; simpl; rewrite ?app_nil_r; try done.
      * by intros m' evt' b [= <- <- <-].
      * unfold own_flight. simpl. destruct ok; [|by left].
        rewrite filter_app. fold (own_flight s p). rewrite Hno. simpl.
        rewrite filter_cons, filter_nil. case_decide as Hown; [right; by exists x, evt|by left].
      * intros m' evt' [= <- <-] Hok. destruct ok; [|done]. exists x. split; [|done].
        apply elem_of_app. right. by apply list_elem_of_singleton.
      * intros m' evt' [= <- <-]. set_solver.
      * intros k [Hk%elem_of_singleton|Hk]%elem_of_union; [by subst|by apply O8].
    + intros p' Hne. split; [done|]. unfold own_flight. simpl. destruct ok; [|done].
      rewrite filter_app, filter_cons, filter_nil, decide_False; [by rewrite app_nil_r|].
      intros (_ & Hp & _). by apply Hne.
    + destruct ok; set_solver.
    + intros y Hy. destruct ok; [|by left].
      apply elem_of_app in Hy as [Hy|Hy%list_elem_of_singleton]; [by left|right; by subst].
    + intros l m' Hl Hm'. by eapply (inv_marks s Hs).
  - assert (Hacc : accounted s p m) by (intros evt Hd'; congruence).
    eapply (inv_update s _ p); [done|reflexivity|done|done|done| | |done|by left|]; simpl.
    + constructor; unfold waiting_msg, signalled_msg; simpl; rewrite ?app_nil_r; try done.
      * by rewrite O1, <- app_assoc.
      * erewrite mark_of_mark by reflexivity. rewrite decide_True by done. lia.
      * rewrite List.filter_app. simpl. unfold fresh at 2. by rewrite Hd, app_nil_r.
      * intros m' [Hm'|Hm'%list_elem_of_singleton]%elem_of_app; [by apply O9|by subst].
    + intros p' Hne. split; [|done]. erewrite mark_of_mark by reflexivity. by rewrite decide_False.
    + eapply (marks_accounted s _ p q m rest); try done. by rewrite O1, <- app_assoc.
Qed.

Lemma commit_inv p s s' : inv s → commit p s = Some s' → inv s'.
Proof.
  intros Hs. unfold commit. destruct (parts s !! p) as [q|] eqn:Hq; [|done].
  pose proof (inv_parts s Hs p q Hq) as [O1 O2 O3 O4 O5 O6 O7 O8 O9].
  destruct (stopped q) eqn:Hst; [done|]. destruct (waiting q) as [[[m evt] [|]]|] eqn:Hw; try done.
  intros [= <-].
  assert (Hm : waiting_msg q = [m] ∧ signalled_msg q = [m])
    by (unfold waiting_msg, signalled_msg; by rewrite Hw).
  destruct Hm as [Hwm Hsm]. rewrite Hwm in O1. rewrite Hsm in O4, O9.
  assert (Hno : own_flight s p = []) by (destruct O5 as [|(? & ? & ? & _)]; done).
  assert (Hlog : logs !! p = Some (before q ++ (marked q ++ [m]) ++ remaining q))
    by (by rewrite O1, <- app_assoc).
  eapply (inv_update s _ p); [done|reflexivity|done|done|done| | |done|by left|]; simpl.
  - constructor; unfold waiting_msg, signalled_msg; simpl; rewrite ?app_nil_r; try done.
    + erewrite mark_of_mark by reflexivity. rewrite decide_True by done. lia.
    + by left.
  - intros p' Hne. split; [|done]. erewrite mark_of_mark by reflexivity. by rewrite decide_False.
  - eapply (marks_accounted s _ p q m (remaining q)); try done.
    apply O9, elem_of_app. right. by apply list_elem_of_singleton.
Qed.

Lemma stop_inv p s s' : inv s → stop p s = Some s' → inv s'.
Proof.
  intros Hs. unfold stop. destruct (parts s !! p) as [q|] eqn:Hq; [|done]. intros [= <-].
  destruct (inv_parts s Hs p q Hq) as [O1 O2 O3 O4 O5 O6 O7 O8 O9].
  eapply (inv_update s _ p); [done|reflexivity|done|done|done|by constructor|done|done|by left|].
  simpl. intros l m Hl Hm. by eapply (inv_marks s Hs).
Qed.

(** A finished event that is not the claim's own changes nothing about its own ones;
    if it signals the claim, the key is a stale one. *)
Lemma finish_part s s' x i h p q :
  part_ok s p q → inflight s !! i = Some x →
  gen s' = gen s → stale s' = stale s → marks s' = marks s →
  inflight s' = delete i (inflight s) → ended s' = ended s ++ [(x, h)] →
  (own (gen s) (stale s) p x → waiting q = Some (fl_msg x, fl_evt x, false)) →
  (pendingKey (fl_evt x) ∈ pending q → pendingKey (fl_evt x) ∈ stale s ∨ own (gen s) (stale s) p x) →
  (∀ y, y ∈ inflight s → decode (fl_msg y) = Ok (fl_evt y)) →
  part_ok s' p (complete (pendingKey (fl_evt x)) q).
Proof.
  intros Hok Hi Hg Hst Hmk Hfl Hen Hown Hkey Hdec. pose proof Hok as [O1 O2 O3 O4 O5 O6 O7 O8 O9].
  pose proof (Hdec x ltac:(by eapply list_elem_of_lookup_2)) as Hdx.
  set (K := pendingKey (fl_evt x)) in *.
  destruct (complete_fields K q) as (F1 & F2 & F3 & F4 & F5).
  pose proof (signalled_complete K q) as Hsig.
  destruct (filter_delete (own (gen s) (stale s) p) (inflight s) i x Hi) as (l1 & l2 & E1 & E2).
  assert (Hflight : own_flight s' p = l1 ++ l2) by (unfold own_flight; by rewrite Hg, Hst, Hfl).
  assert (Hended : own_ended s' p = own_ended s p ++ if decide (own (gen s) (stale s) p x) then [fl_msg x] else []).
  { unfold own_ended. rewrite Hg, Hst, Hen, fmap_app, filter_app, fmap_app. simpl.
    rewrite filter_cons, filter_nil. by case_decide. }
  assert (Hin : (x, h) ∈ ended s') by (rewrite Hen; apply elem_of_app; right; by apply list_elem_of_singleton).
  assert (Hback : ∀ m evt, waiting (complete K q) = Some (m, evt, false) →
    waiting q = Some (m, evt, false) ∧ pendingKey evt ≠ K).
  { intros m evt (b' & Hw & Hb & Hne)%complete_waiting.
    assert (b' = false) as -> by (destruct b'; [by specialize (Hb eq_refl)|done]).
    split; [done|]. destruct (decide (K ∈ pending q)) as [Hk|Hk]; [by apply Hne|].
    intros <-. by apply Hk, (O7 m evt). }
  constructor; rewrite ?F1, ?F2, ?F3, ?F4, ?waiting_msg_complete; try done.
  - unfold mark_of. by rewrite Hmk.
  - intros m evt b (b' & Hw & _)%complete_waiting. by eapply O3.
  - rewrite Hended, O4, Hst, !List.filter_app, <- app_assoc. f_equal. case_decide as Ho.
    + unfold signalled_msg at 1. rewrite (Hown Ho). simpl.
      assert (Hk : K ∈ pending q) by by eapply O7, Hown.
      unfold complete, signalled_msg. rewrite decide_True by done. simpl.
      rewrite (Hown Ho). simpl. unfold K. rewrite str_eqb_refl. simpl. unfold fresh. rewrite Hdx.
      rewrite bool_decide_eq_true_2; [done|apply Ho].
    + rewrite app_nil_r. destruct Hsig as [->|(m & evt & Hw & HK & ->)]; [done|].
      unfold signalled_msg. rewrite Hw. simpl. unfold fresh. rewrite (O3 _ _ _ Hw), HK.
      rewrite bool_decide_eq_false_2; [done|]. intros Hn.
      destruct (Hkey ltac:(rewrite <- HK; by eapply O7)); done.
  - rewrite Hflight. unfold own_flight in O5. rewrite E1 in O5. case_decide as Ho.
    + left. apply nil_length_inv. assert (Hlen : length (l1 ++ [x] ++ l2) ≤ 1)
        by (destruct O5 as [->|(y & evt & _ & ->)]; simpl; lia).
      rewrite !length_app in Hlen |- *. simpl in Hlen. lia.
    + destruct O5 as [O5|(y & evt & Hw & O5)]; [by left|right]. exists y, evt. split; [|done].
      assert (Hy : y ∈ filter (own (gen s) (stale s) p) (inflight s)) by (rewrite E1, O5; by left).
      destruct (decide (K ∈ pending q)) as [Hk|Hk]; [|by rewrite complete_other].
      destruct (Hkey Hk) as [HKs|]; [|done].
      assert (Hne : pendingKey evt ≠ K).
      { intros E. apply list_elem_of_filter in Hy as [(_ & _ & Hns) Hy].
        pose proof (Hdec y Hy) as Hdy. rewrite (O3 _ _ _ Hw) in Hdy. injection Hdy as Hdy.
        apply Hns. by rewrite <- Hdy, E. }
      unfold complete. rewrite decide_True by done. simpl. rewrite Hw.
      apply str_eqb_neq in Hne. by rewrite Hne.
  - intros m evt (Hw & HK)%Hback Hs. destruct (O6 m evt Hw Hs) as (y & Hy & Hp & Hm & He).
    exists y. split_and!; try done. rewrite Hfl. eapply elem_of_delete_ne; [exact Hi|exact Hy|].
    intros ->. by apply HK; rewrite <- He.
  - intros m evt (Hw & HK)%Hback. pose proof (O7 m evt Hw).
    destruct (decide (K ∈ pending q)) as [Hk|Hk]; [|by rewrite complete_other].
    unfold complete. rewrite decide_True by done. simpl.
    apply elem_of_difference. split; [done|]. by rewrite elem_of_singleton.
  - intros k Hk. apply O8. by apply F5.
  - assert (Hmono : ∀ m, m ∈ marked q ++ signalled_msg q → accounted s' p m).
    { intros m Hm. apply (accounted_mono s); [rewrite Hen; intros y Hy; apply elem_of_app; by left|by rewrite Hst|by apply O9]. }
    intros m [Hm|Hm]%elem_of_app; [apply Hmono, elem_of_app; by left|].
    destruct Hsig as [Hsig|(m' & evt & Hw & HK & Hsig)]; rewrite Hsig in Hm;
      [apply Hmono, elem_of_app; by right|].
    apply list_elem_of_singleton in Hm as ->. intros evt' Hd. rewrite (O3 _ _ _ Hw) in Hd.
    injection Hd as <-. exists x, h. split; [done|].
    destruct (Hkey ltac:(rewrite <- HK; by eapply O7)) as [HKs|Ho].
    + right. split; [|done]. by rewrite Hst, HK.
    + left. split; [apply Ho|]. specialize (Hown Ho). rewrite Hw in Hown. by injection Hown as -> _.
Qed.

Lemma finish_inv i h d s s' : inv s → finish i h d s = Some s' → inv s'.
Proof.
  intros Hs. unfold finish. destruct (inflight s !! i) as [x|] eqn:Hi; [|done]. intros [= <-].
  pose proof (list_elem_of_lookup_2 _ _ _ Hi) as Hxin. pose proof Hs as [Ip If Ie Im].
  destruct (If x Hxin) as (Hdx & Hgx & Hx). constructor; simpl.
  - intros p q. unfold markDone. intros (q0 & <- & Hq0)%lookup_fmap_Some.
    eapply (finish_part s _ x i h p q0); try done; [by apply Ip| | |intros y Hy; by apply If].
    + intros (_ & <- & Hns). destruct Hx as [|(Hg & Hk & Hhome)]; [done|].
      destruct (po_flight s _ q0 (Ip _ q0 Hq0)) as [Hno|(y & evt & Hw & Hfl)].
      * assert (Hin : x ∈ own_flight s (fl_part x)) by by apply list_elem_of_filter.
        rewrite Hno in Hin. by apply not_elem_of_nil in Hin.
      * assert (Hin : x ∈ own_flight s (fl_part x)) by by apply list_elem_of_filter.
        rewrite Hfl in Hin. apply list_elem_of_singleton in Hin as ->.
        pose proof (po_decoded s _ q0 (Ip _ q0 Hq0) _ _ _ Hw) as Hd. rewrite Hdx in Hd. by injection Hd as ->.
    + intros Hk%(po_keys s p q0 (Ip p q0 Hq0)). destruct Hx as [|(Hg & _ & Hhome)]; [by left|].
      destruct (decide (pendingKey (fl_evt x) ∈ stale s)); [by left|right].
      split_and!; [done| |done]. congruence.
  - intros y Hy%list_elem_of_delete_inv. destruct (If y Hy) as (Hd & Hgy & Hor). split_and!; [done|done|].
    destruct Hor as [|(Hg & Hk & Hhome)]; [by left|right]. split_and!; [done| |done].
    unfold markDone. by rewrite lookup_fmap, fmap_is_Some.
  - intros y h' [Hy|Hy%list_elem_of_singleton]%elem_of_app; [by eapply Ie|].
    by injection Hy as -> ->.
  - intros p l m Hl Hm. apply (accounted_mono s); [|done|by eapply Im].
    intros y Hy. apply elem_of_app. by left.
Qed.

Lemma generation_inv from s s' : inv s → generation from s = Some s' → inv s'.
Proof.
  intros Hs. unfold generation. case_decide as Hg; [|done]. destruct Hg as [_ Hfrom]. intros [= <-].
  set (st := stale s ∪ _).
  assert (Hst : ∀ x, x ∈ inflight s → pendingKey (fl_evt x) ∈ st).
  { intros x Hx. apply elem_of_union_r, elem_of_list_to_set, list_elem_of_fmap. by exists x. }
  assert (Hacc : ∀ p m, accounted s p m → accounted {| gen := S (gen s); parts := map_imap claim_at from;
    inflight := inflight s; ended := ended s; dlq := dlq s; marks := marks s; stale := st |} p m)
    by (intros p m; apply accounted_mono; simpl; [done|set_solver]).
  constructor; simpl.
  - intros p q. rewrite map_lookup_imap. intros (k & Hk & Hq)%bind_Some. unfold claim_at in Hq.
    destruct (logs !! p) as [l|] eqn:Hl; [|done]. simpl in Hq. injection Hq as <-.
    specialize (Hfrom p k Hk). simpl in Hfrom.
    constructor; unfold waiting_msg, signalled_msg; simpl; try done.
    + by rewrite take_drop.
    + rewrite app_nil_r, length_take. unfold mark_of in *. simpl. lia.
    + unfold own_ended. simpl. rewrite filter_none; [done|].
      intros x ([x' h] & -> & Hx)%list_elem_of_fmap (Hgx & _). simpl in Hgx.
      pose proof (inv_ended s Hs x' h Hx). lia.
    + left. unfold own_flight. simpl. apply filter_none. intros x Hx (_ & _ & Hn). by apply Hn, Hst.
    + by intros m ?%not_elem_of_nil.
  - intros x Hx. destruct (inv_flight s Hs x Hx) as (Hd & Hgx & _).
    split_and!; [done|lia|left; by apply Hst].
  - intros x h Hx. pose proof (inv_ended s Hs x h Hx). lia.
  - intros p l m Hl Hm. by eapply Hacc, (inv_marks s Hs).
Qed.

Lemma act_inv s a s' : inv s → act s a = Some s' → inv s'.
Proof.
  destruct a; simpl; eauto using generation_inv, receive_inv, finish_inv, commit_inv, stop_inv.
Qed.

Lemma reachable_inv s : rtc step init s → inv s.
Proof.
  apply rtc_preserves; [|apply init_inv]. intros a b Ha [x Hx]. by eapply act_inv.
Qed.

(** C4: over any number of generations, with commit timeouts, failed submissions and
    redelivery, when the events of a pending key arrive on one partition: a claim has
    marked the messages from its start on, in order and without a gap, and
    it starts no later than the last mark; the marked messages whose key was not left in
    flight when some generation began are exactly, in order, those whose own event,
    submitted by that claim, the coordinator ended, but for the one just signalled; and
    for every message below the mark that decodes, its own event ended or, if its key was
    left in flight when a generation began, an event with that key did. So no offset is
    marked before its own event succeeded or was dead-lettered, but for a document with an
    event left over from an earlier generation ([redelivery_commits_early]). *)
Theorem commits_follow_completion s p :
  rtc step init s →
  (∀ q, parts s !! p = Some q →
     logs !! p = Some (before q ++ marked q ++ waiting_msg q ++ remaining q) ∧
     length (before q) ≤ mark_of s p ∧
     own_ended s p = List.filter (fresh (stale s)) (marked q ++ signalled_msg q)) ∧
  (∀ l m, logs !! p = Some l → m ∈ take (mark_of s p) l → accounted s p m).
Proof.
  intros Hr%reachable_inv. split; [|intros l m; by apply (inv_marks s Hr)].
  intros q Hq. destruct (inv_parts s Hr p q Hq) as [O1 O2 _ O4 _ _ _ _ _].
  split_and!; [done| |done]. rewrite length_app in O2. lia.
Qed.
End Invariant.

(** ** Progress *)

(** What a claim waits on is registered and, while the claim runs, in flight. *)
Definition live (s : State) : Prop := ∀ p q m evt,
  parts s !! p = Some q → waiting q = Some (m, evt, false) →
  pendingKey evt ∈ pending q ∧ (stopped q = false → ∃ x, x ∈ inflight s ∧ fl_evt x = evt).

Lemma live_update s s' p q' :
  live s → parts s' = <[p := q']> (parts s) → inflight s ⊆ inflight s' →
  (∀ m evt, waiting q' = Some (m, evt, false) →
     pendingKey evt ∈ pending q' ∧ (stopped q' = false → ∃ x, x ∈ inflight s' ∧ fl_evt x = evt)) →
  live s'.
Proof.
  intros Hl Hp Hin Hq' p' q m evt. rewrite Hp. destruct (decide (p = p')) as [<-|Hne].
  - rewrite lookup_insert_eq. intros [= <-]. apply Hq'.
  - rewrite lookup_insert_ne by done. intros Hq Hw. destruct (Hl p' q m evt Hq Hw) as [Hk Hx].
    split; [done|]. intros Hs. destruct (Hx Hs) as (x & Hx' & He). exists x. auto.
Qed.

Lemma finish_live i h d s s' : live s → finish i h d s = Some s' → live s'.
Proof.
  intros Hl. unfold finish. destruct (inflight s !! i) as [x|] eqn:Hi; [|done]. intros [= <-].
  intros p q m evt. simpl. unfold markDone. intros (q0 & <- & Hq0)%lookup_fmap_Some Hw.
  destruct (complete_fields (pendingKey (fl_evt x)) q0) as (_ & _ & _ & Hst & _). rewrite Hst.
  apply complete_waiting in Hw as (b' & Hw & Hb & Hne).
  assert (b' = false) as -> by (destruct b'; [by specialize (Hb eq_refl)|done]).
  destruct (Hl p q0 m evt Hq0 Hw) as [Hk Hx].
  destruct (decide (pendingKey (fl_evt x) ∈ pending q0)) as [HK|HK].
  - specialize (Hne eq_refl HK). split.
    + unfold complete. rewrite decide_True by done. simpl.
      apply elem_of_difference. split; [done|]. by rewrite elem_of_singleton.
    + intros Hs. destruct (Hx Hs) as (y & Hy & He). exists y. split; [|done].
      eapply elem_of_delete_ne; [exact Hi|exact Hy|]. intros ->. by rewrite He in Hne.
  - rewrite complete_other by done. split; [done|]. intros Hs. destruct (Hx Hs) as (y & Hy & He).
    exists y. split; [|done]. eapply elem_of_delete_ne; [exact Hi|exact Hy|].
    intros ->. by rewrite <- He in Hk.
Qed.

Lemma act_live s a s' : live s → act s a = Some s' → live s'.
Proof.
  intros Hl. destruct a as [from|p ok d|i h d|p|p]; simpl; [| |by apply finish_live| |].
  - unfold generation. case_decide; [|done]. intros [= <-] p q m evt. simpl.
    rewrite map_lookup_imap. intros (k & _ & Hq)%bind_Some. unfold claim_at in Hq.
    destruct (logs !! p); [|done]. simpl in Hq. by injection Hq as <-.
  - unfold receive. destruct (parts s !! p) as [q|] eqn:Hq; [|done].
    destruct (stopped q), (waiting q), (remaining q) as [|m rest]; try done.
    destruct (decode m) as [evt|e]; intros [= <-]; eapply live_update; try done; simpl; [destruct ok; set_solver|].
    intros m' evt' [= <- <-]. split; [set_solver|]. destruct ok; [|done]. intros _.
    eexists. split; [apply elem_of_app; right; by apply list_elem_of_singleton|done].
  - unfold commit. destruct (parts s !! p) as [q|]; [|done].
    destruct (stopped q), (waiting q) as [[[m evt] [|]]|]; try done. intros [= <-].
    by eapply live_update.
  - unfold stop. destruct (parts s !! p) as [q|] eqn:Hq; [|done]. intros [= <-].
    eapply live_update; try done. simpl. intros m evt Hw. by destruct (Hl p q m evt Hq Hw).
Qed.

Lemma reachable_live s : rtc step init s → live s.
Proof. apply rtc_preserves; [|done]. intros a b Ha [x Hx]. by eapply act_live. Qed.

(** C18: no running claim gets stuck, over any number of generations and with no
    proviso on keys: it has consumed its log, or can mark the message it
    waited on, or can take the next one whatever the coordinator or the dead-letter
    topic answer, or waits on an event that is in flight, and when that one ends,
    in whichever way, the message can be marked. *)
Theorem idle_partitions_progress s p q :
  rtc step init s → parts s !! p = Some q → stopped q = false →
  (remaining q = [] ∧ waiting q = None) ∨
  is_Some (act s (Commit p)) ∨
  (∀ ok d, is_Some (act s (Receive p ok d))) ∨
  ∃ i, ∀ h d, ∃ s', act s (Finish i h d) = Some s' ∧ is_Some (act s' (Commit p)).
Proof.
  intros Hl%reachable_live Hq Hst.
  destruct (waiting q) as [[[m evt] [|]]|] eqn:Hw; simpl; unfold commit, receive; rewrite ?Hq, ?Hst, ?Hw.
  - right. left. by eexists.
  - right. right. right. destruct (Hl p q m evt Hq Hw) as [Hk Hx].
    destruct (Hx Hst) as (x & [i Hi]%list_elem_of_lookup_1 & He). exists i. intros h d.
    unfold finish. rewrite Hi. eexists. split; [reflexivity|]. simpl.
    unfold markDone. rewrite lookup_fmap, Hq, He. simpl.
    unfold complete. rewrite decide_True by done. simpl. rewrite Hst, Hw, str_eqb_refl. by eexists.
  - destruct (remaining q) as [|m rest]; [by left|]. right. right. left.
    intros ok d. by destruct (decode m); eexists.
Qed.
End Protocol.
Arguments State msg : clear implicits.
Arguments part msg : clear implicits.

(** ** Concrete interleavings *)

(** Messages are events; a document name without letters does not decode. *)
Definition sample_decode (m : IngestEvent) : result IngestEvent string :=
  if str_empty (ev_DocumentID m) then Err "missing document_id" else Ok m.
Definition doc_event (d : string) : IngestEvent := plain_event EventDocumentChanged "t" "s" d.

Definition one_partition : gmap string (list IngestEvent) :=
  {["ingest-0" := [doc_event "a"; doc_event ""; doc_event "b"]]}.
Definition from_the_start : gmap string nat := {["ingest-0" := 0]}.

(** The first claim gives up after the undecodable message; the second is given that
    one again and waits on the last. *)
Definition sample_actions : list action :=
  [Generation from_the_start; Receive "ingest-0" true true; Finish 0 Succeeded true;
   Commit "ingest-0"; Receive "ingest-0" true true; Stop "ingest-0";
   Generation {["ingest-0" := 1]}; Receive "ingest-0" true true; Receive "ingest-0" true true].
Definition sample_run : option (State IngestEvent) :=
  run sample_decode one_partition init sample_actions.

Definition sample_state : State IngestEvent := default init sample_run.
Definition sample_part : part IngestEvent :=
  {| before := [doc_event "a"]; marked := [doc_event ""];
     waiting := Some (doc_event "b", doc_event "b", false); remaining := [];
     pending := {[pendingKey (doc_event "b")]}; stopped := false |}.

Example sample_run_marks :
  mark_of sample_state "ingest-0" = 2 ∧ length (inflight sample_state) = 1.
Proof. vm_compute. split; reflexivity. Qed.

Lemma sample_reachable : rtc (step sample_decode one_partition) init sample_state.
Proof. apply (run_rtc sample_decode one_partition init sample_actions). vm_compute. reflexivity. Qed.

Lemma sample_homed p l m evt :
  one_partition !! p = Some l → m ∈ l → sample_decode m = Ok evt → "ingest-0" = p.
Proof. unfold one_partition. intros [<- _]%lookup_singleton_Some _ _. done. Qed.

Lemma commits_follow_completion_witness :
  own_ended sample_state "ingest-0" =
    List.filter (fresh sample_decode (stale sample_state)) (marked sample_part ++ signalled_msg sample_part) ∧
  accounted sample_decode sample_state "ingest-0" (doc_event "a").
Proof.
  destruct (commits_follow_completion sample_decode one_partition (λ _, "ingest-0") sample_homed
    sample_state "ingest-0" sample_reachable) as [H1 H2]. split.
  - apply (H1 sample_part). vm_compute. reflexivity.
  - apply (H2 [doc_event "a"; doc_event ""; doc_event "b"] (doc_event "a")).
    + vm_compute. reflexivity.
    + replace (mark_of sample_state "ingest-0") with 2 by (vm_compute; reflexivity). left.
Defined.

(** The claim of the second generation waits on the event in flight. *)
Lemma idle_partitions_progress_witness :
  ∃ i, ∀ h d, ∃ s', act sample_decode one_partition sample_state (Finish i h d) = Some s' ∧
    is_Some (act sample_decode one_partition s' (Commit "ingest-0")).
Proof.
  destruct (idle_partitions_progress sample_decode one_partition sample_state "ingest-0" sample_part)
    as [[_ H]|[[s' H]|[H|H]]].
  - exact sample_reachable.
  - vm_compute. reflexivity.
  - reflexivity.
  - discriminate H.
  - vm_compute in H. discriminate H.
  - destruct (H true true) as [s' Hs]. vm_compute in Hs. discriminate Hs.
  - exact H.
Defined.

(** The same document on the ingest and on the reindex topic: ending the first event
    signals both partitions, and the second marks while its event is in flight. *)
Definition two_topics : gmap string (list IngestEvent) :=
  {["ingest-0" := [doc_event "a"]; "reindex-0" := [doc_event "a"]]}.

Example other_topic_commits_early :
  match run sample_decode two_topics init
          [Generation {["ingest-0" := 0; "reindex-0" := 0]};
           Receive "ingest-0" true true; Receive "reindex-0" true true; Finish 0 Succeeded true;
           Commit "reindex-0"] with
  | Some s => (marked <$> parts s !! "reindex-0" = Some [doc_event "a"]) ∧
              fl_part <$> inflight s = ["reindex-0"]
  | None => False
  end.
Proof. vm_compute. split; reflexivity. Qed.

(** A document changed and then deleted. The wait for the change times out and it is
    delivered again; the first copy ends and marks it; the second copy ends and marks
    the deletion, whose event is still in flight. *)
Definition deletion : IngestEvent := plain_event EventDocumentDeleted "t" "s" "a".
Definition two_versions : gmap string (list IngestEvent) :=
  {["ingest-0" := [doc_event "a"; deletion]]}.

Example redelivery_commits_early :
  match run sample_decode two_versions init
          [Generation from_the_start; Receive "ingest-0" true true; Stop "ingest-0";
           Generation from_the_start; Receive "ingest-0" true true; Finish 0 Succeeded true;
           Commit "ingest-0"; Receive "ingest-0" true true; Finish 0 Succeeded true;
           Commit "ingest-0"] with
  | Some s => (marked <$> parts s !! "ingest-0" = Some [doc_event "a"; deletion]) ∧
              fl_msg <$> inflight s = [deletion]
  | None => False
  end.
Proof. vm_compute. split; reflexivity. Qed.

(** When the dead-letter topic refuses the message, the offset is marked all the
    same: the event is neither processed nor dead-lettered. *)
Example refused_dead_letter_is_lost :
  match run sample_decode one_partition init
          [Generation from_the_start; Receive "ingest-0" true true;
           Finish 0 (DeadLettered "poison") false; Commit "ingest-0"] with
  | Some s => (marked <$> parts s !! "ingest-0" = Some [doc_event "a"]) ∧ dlq s = []
  | None => False
  end.
Proof. vm_compute. split; reflexivity. Qed.
End Consumer.
