(* ===== verification/DeadLetter.v ===== *)
(** * Dead letters and their replay

    internal/pipeline: the envelope of dlq_observer.go, the persisting consumer and
    the replayer of dlq_consumer.go, the table of dlq_store_gorm.go, the automatic
    replay worker of dlq_auto_replay.go, the age of dlq_age_monitor.go, and the
    paging of internal/admin/dlq_handler.go. The database, the Kafka producer and
    JSON are outside. The theorems say what a replay does and that a row is not
    replayed twice, which rows the worker picks, and that paging visits every row
    once; the examples record where the parts do not fit together. *)

From S2P Require Import Prelude GoString StageBreaker Retry CallRetry Effects PipelineTypes Kafka Cursor.

Module DeadLetter.

Import Kafka.

(** ** Rows and categories *)

Record DLQEnvelope := {
  env_Event : IngestEvent;
  env_Error : string;
  env_FailedAt : Time;
  env_AttemptCount : Z
}.

Record DLQMessage := {
  ID : string;
  TenantID : string;
  SourceID : string;
  DocumentID : string;
  OriginalTopic : string;
  PartitionKey_ : string;
  Payload : string;
  ErrorText : string;
  FailedAt : Time;
  AttemptCount : Z;
  ReplayedAt : option Time;
  ReplayError : string;
  CreatedAt : Time;
  Category : string
}.

Definition set_replay (at_ : option Time) (err : string) (attempts : Z) (m : DLQMessage) : DLQMessage :=
  {| ID := ID m; TenantID := TenantID m; SourceID := SourceID m; DocumentID := DocumentID m;
     OriginalTopic := OriginalTopic m; PartitionKey_ := PartitionKey_ m; Payload := Payload m;
     ErrorText := ErrorText m; FailedAt := FailedAt m; AttemptCount := attempts;
     ReplayedAt := at_; ReplayError := err; CreatedAt := CreatedAt m; Category := Category m |}.

Definition DLQCategoryTransient : string := "transient".
Definition DLQCategoryPermanent : string := "permanent".
Definition DLQCategoryUnknown : string := "unknown".

(** [strings.Contains] on code points. *)
Fixpoint has_infix (k l : list N) : bool :=
  bool_decide (k `prefix_of` l) || match l with [] => false | _ :: l' => has_infix k l' end.

Section Category.
Context `{Unicode}.

Definition contains_any (lower : list N) (ks : list string) : bool :=
  existsb (λ k, has_infix (runes (to_bytes k)) lower) ks.

Definition CategoriseDLQError (errText : string) : string :=
  if str_empty errText then DLQCategoryUnknown
  else
    let lower := lower_runes errText in
    if contains_any lower ["parse"; "poison"; "schema"; "validation"; "decode"] then DLQCategoryPermanent
    else if contains_any lower
              ["timeout"; "connection refused"; "429"; "503"; "502"; "504"; "deadline"; "unavailable"; "dns"]
         then DLQCategoryTransient
    else DLQCategoryUnknown.
End Category.

(** ** The store *)

Inductive dlq_error :=
| ErrDLQNotFound
| ErrAlreadyReplayed
| ErrMaxRetriesExceeded
| DLQError (msg : string).

(** The table and the messages on Kafka topics, oldest first. *)
Record World := { rows : gmap string DLQMessage; sent : list message }.
Definition set_table (f : gmap string DLQMessage → gmap string DLQMessage) (w : World) : World :=
  {| rows := f (rows w); sent := sent w |}.

Abbreviation M := (Eff World dlq_error) (only parsing).

Record DLQListFilter := {
  f_TenantID : string;
  f_OriginalTopic : string;
  f_IncludeReplayed : bool;
  f_SourceID : string;
  f_MinCreatedAt : Time;
  f_MaxCreatedAt : Time;
  f_Category : string;
  f_PageSize : Z;
  f_PageToken : string
}.

Definition DefaultDLQPageSize : Z := 50.
Definition MaxDLQPageSize : Z := 200.
Definition EffectiveDLQPageSize (requested : Z) : Z :=
  if (requested <=? 0)%Z then DefaultDLQPageSize
  else if (MaxDLQPageSize <? requested)%Z then MaxDLQPageSize
  else requested.

Section Store.
Context `{Outside}.

(** The id is the primary key: a second row under it is an error of the database. *)
Definition Insert (msg : DLQMessage) : M unit :=
  if str_empty (TenantID msg) then ethrow (DLQError "dlq store: missing tenant_id")
  else
    let@ fresh := ecall (DLQError "insert")
                    (λ s, match rows s !! ID msg with
                          | None => (true, set_table (insert (ID msg) msg) s)
                          | Some _ => (false, s)
                          end) in
    if fresh then eret tt else ethrow (DLQError "duplicate key").

(** An optional equality of the filter. *)
Definition opt_eq (want have : string) : bool := str_empty want || str_eqb have want.

Definition is_unreplayed (m : DLQMessage) : bool :=
  match ReplayedAt m with None => true | Some _ => false end.

Definition selected (f : DLQListFilter) (m : DLQMessage) : bool :=
  str_eqb (TenantID m) (f_TenantID f)
  && opt_eq (f_OriginalTopic f) (OriginalTopic m) && opt_eq (f_SourceID f) (SourceID m)
  && (time_is_zero (f_MinCreatedAt f) || (f_MinCreatedAt f <=? CreatedAt m)%Z)
  && (time_is_zero (f_MaxCreatedAt f) || (CreatedAt m <? f_MaxCreatedAt f)%Z)
  && opt_eq (f_Category f) (Category m)
  && (f_IncludeReplayed f || is_unreplayed m).

Definition table_rows (t : gmap string DLQMessage) : list DLQMessage := snd <$> map_to_list t.

Definition page_size (f : DLQListFilter) : nat := Z.to_nat (EffectiveDLQPageSize (f_PageSize f)).

(** One row more than the page shows. *)
Definition list_rows (f : DLQListFilter) (t : gmap string DLQMessage) : list DLQMessage :=
  Cursor.fetch ID (selected f) (f_PageToken f) (S (page_size f)) (table_rows t).

Definition List_ (f : DLQListFilter) : M (list DLQMessage) :=
  if str_empty (f_TenantID f) then ethrow (DLQError "dlq store: missing tenant_id")
  else eread (DLQError "dlq store: list") (λ w, list_rows f (rows w)).

(** The page of the admin handler and its next token. *)
Definition list_page (f : DLQListFilter) (t : gmap string DLQMessage) : list DLQMessage * string :=
  Cursor.page ID (selected f) (f_PageToken f) (page_size f) (table_rows t).

Definition scoped (tenantID id : string) (t : gmap string DLQMessage) : option DLQMessage :=
  match t !! id with
  | Some m => if str_eqb (TenantID m) tenantID then Some m else None
  | None => None
  end.

Definition Get (tenantID id : string) : M DLQMessage :=
  if str_empty tenantID || str_empty id then ethrow ErrDLQNotFound
  else
    let@ r := eread (DLQError "dlq store: get") (λ w, scoped tenantID id (rows w)) in
    match r with Some m => eret m | None => ethrow ErrDLQNotFound end.

(** [MarkReplayed]: stamps the row whether or not the replay failed; [err] is empty
    for a nil error. An update that matches no row is reported as not found. *)
Definition MarkReplayed (id err : string) : M unit :=
  if str_empty id then ethrow ErrDLQNotFound
  else
    let@ n := (λ w, ecall (DLQError "dlq store: mark replayed")
                (λ s, (bool_decide (is_Some (rows s !! id)),
                       set_table (alter (λ m, set_replay (Some (clock (calls_made w) 0)) err (AttemptCount m) m) id) s)) w) in
    if n then eret tt else ethrow ErrDLQNotFound.

Definition BumpAttemptCount (id : string) : M Z :=
  if str_empty id then ethrow ErrDLQNotFound
  else
    let@ n := ecall (DLQError "dlq store: bump")
                (λ s, (bool_decide (is_Some (rows s !! id)),
                       set_table (alter (λ m, set_replay (ReplayedAt m) (ReplayError m) (AttemptCount m + 1)%Z m) id) s)) in
    if n then eread (DLQError "dlq store: read after bump")
                (λ w, match rows w !! id with Some m => AttemptCount m | None => 0%Z end)
    else ethrow ErrDLQNotFound.

(** ** Replay *)

Context (UnmarshalEnvelope : string → result DLQEnvelope string).
Context (MarshalEvent : IngestEvent → result string string).

Definition send (m : message) : M unit :=
  ewrite (DLQError "kafka send") (λ w, {| rows := rows w; sent := sent w ++ [m] |}).

Definition error_text (e : dlq_error) : string :=
  match e with
  | ErrDLQNotFound => "dlq: message not found"
  | ErrAlreadyReplayed => "dlq: already replayed"
  | ErrMaxRetriesExceeded => "dlq: max replay attempts exceeded"
  | DLQError m => m
  end.

(** The message a row is replayed as. *)
Definition replay_message (topic : string) (m : DLQMessage) : result message string :=
  let! env := UnmarshalEnvelope (Payload m) in
  let! body := MarshalEvent (env_Event env) in
  Ok {| msg_Topic := topic; msg_Key := PartitionKey (ev_TenantID (env_Event env)) (ev_SourceID (env_Event env));
        msg_Value := body; msg_Headers := [] |}.

(** Ignore the error of a call. *)
Definition best_effort (m : M unit) : M unit := λ w, (Ok tt, (m w).2).

(** On a failed send, mark the row and return the error; otherwise go on. *)
Definition send_or_mark (id : string) (msg : message) : M unit := λ w,
  match send msg w with
  | (Ok _, w') => (Ok tt, w')
  | (Err e, w') =>
      let w'' := (best_effort (MarkReplayed id (error_text e)) w').2 in
      (Err (DLQError (str_app "replayer: send: " (error_text e))), w'')
  end.

Definition Replay (maxAttempts : Z) (tenantID id topic : string) (force : bool) : M unit :=
  if str_empty topic then ethrow (DLQError "replayer: empty topic")
  else
    let@ row := Get tenantID id in
    if negb (is_unreplayed row) && negb force then ethrow ErrAlreadyReplayed
    else if (maxAttempts <=? AttemptCount row)%Z then ethrow ErrMaxRetriesExceeded
    else
      match replay_message topic row with
      | Err e => ethrow (DLQError (str_app "replayer: " e))
      | Ok msg =>
          let@ _ := send_or_mark id msg in
          let@ _ := emap_err (λ e, DLQError (str_app "replayer: mark replayed: " (error_text e))) (MarkReplayed id EmptyString) in
          let@ _ := emap_err (λ e, DLQError (str_app "replayer: bump attempts: " (error_text e))) (BumpAttemptCount id) in
          eret tt
      end.

(** ** The automatic replay worker *)

Definition DefaultAutoReplayMaxRetries : Z := 3.
Definition AutoReplayBackoff : list Z := [(1 * minute)%Z; (5 * minute)%Z; (30 * minute)%Z].

Definition BackoffFor (n : Z) : option Z :=
  if (n <? 0)%Z || (Z.of_nat (length AutoReplayBackoff) <=? n)%Z then None
  else AutoReplayBackoff !! Z.to_nat n.

Record DLQAutoReplayConfig := { Interval : Z; BatchSize : Z; MaxAutoRetries : Z }.

Definition NewDLQAutoReplayer (c : DLQAutoReplayConfig) : DLQAutoReplayConfig :=
  let n := Z.of_nat (length AutoReplayBackoff) in
  let m := if (MaxAutoRetries c <=? 0)%Z then DefaultAutoReplayMaxRetries else MaxAutoRetries c in
  {| Interval := if (Interval c <=? 0)%Z then (30 * second)%Z else Interval c;
     BatchSize := if (BatchSize c <=? 0)%Z then 100 else BatchSize c;
     MaxAutoRetries := if (n <? m)%Z then n else m |}.

(** [ListAutoReplayable]: oldest failure first. *)
Definition auto_candidate (now maxAutoRetries : Z) (m : DLQMessage) : bool :=
  is_unreplayed m && (AttemptCount m <? maxAutoRetries)%Z
  && (FailedAt m <=? now - 1 * minute)%Z.
Definition older (a b : DLQMessage) : bool := (FailedAt a <? FailedAt b)%Z.
Definition auto_rows (now limit maxAutoRetries : Z) (t : gmap string DLQMessage) : list DLQMessage :=
  let limit := if (limit <=? 0)%Z then 100%Z else limit in
  let budget := if (maxAutoRetries <=? 0)%Z then DefaultAutoReplayMaxRetries else maxAutoRetries in
  take (Z.to_nat limit) (sort_by older (List.filter (auto_candidate now budget) (table_rows t))).
Definition ListAutoReplayable (now limit maxAutoRetries : Z) : M (list DLQMessage) :=
  eread (DLQError "list auto-replayable") (λ w, auto_rows now limit maxAutoRetries (rows w)).

(** What the worker does with a row. *)
Inductive verdict := SkipPermanent | SkipMaxRetries | NotYet | TryReplay.
Definition judge (c : DLQAutoReplayConfig) (now : Time) (m : DLQMessage) : verdict :=
  if str_eqb (Category m) DLQCategoryPermanent then SkipPermanent
  else if (MaxAutoRetries c <=? AttemptCount m)%Z then SkipMaxRetries
  else match BackoffFor (AttemptCount m) with
       | None => SkipMaxRetries
       | Some wait => if (now <? FailedAt m + wait)%Z then NotYet else TryReplay
       end.

(** The loop over the rows; a failed replay is logged and the loop goes on. *)
Fixpoint replay_rows (c : DLQAutoReplayConfig) (maxAttempts : Z) (now : Time) (l : list DLQMessage)
    : M unit :=
  match l with
  | [] => eret tt
  | m :: l' =>
      match judge c now m with
      | TryReplay =>
          let@ _ := best_effort (Replay maxAttempts (TenantID m) (ID m) (OriginalTopic m) false) in
          replay_rows c maxAttempts now l'
      | _ => replay_rows c maxAttempts now l'
      end
  end.

Definition Tick (c : DLQAutoReplayConfig) (maxAttempts : Z) (now : Time) : M unit :=
  let@ l := ListAutoReplayable now (BatchSize c) (MaxAutoRetries c) in
  replay_rows c maxAttempts now l.

(** ** Publishing, persisting and the age gauge *)

Context (MarshalEnvelope : DLQEnvelope → string).
Context (ulid : nat → string).

(** [Consumer.publishDLQ]: the envelope has no attempt count and the message no
    headers. *)
Definition dead_letter (dlqTopic : string) (evt : IngestEvent) (err : string) (now : Time) : message :=
  {| msg_Topic := dlqTopic; msg_Key := trim_space (PartitionKey (ev_TenantID evt) (ev_SourceID evt));
     msg_Value := MarshalEnvelope {| env_Event := evt; env_Error := err; env_FailedAt := now;
                                     env_AttemptCount := 0 |};
     msg_Headers := [] |}.

Definition headerValue (m : message) (key : string) : string :=
  match List.find (λ h, str_eqb h.1 key) (msg_Headers m) with Some h => h.2 | None => EmptyString end.

Definition persisted_row `{Unicode} (n : nat) (m : message) (env : DLQEnvelope) : DLQMessage :=
  let original := headerValue m "original_topic" in
  {| ID := ulid n; TenantID := ev_TenantID (env_Event env); SourceID := ev_SourceID (env_Event env);
     DocumentID := ev_DocumentID (env_Event env);
     OriginalTopic := if str_empty original then msg_Topic m else original;
     PartitionKey_ := msg_Key m; Payload := msg_Value m; ErrorText := env_Error env;
     FailedAt := if time_is_zero (env_FailedAt env) then clock n 1 else env_FailedAt env;
     AttemptCount := env_AttemptCount env; ReplayedAt := None; ReplayError := EmptyString;
     CreatedAt := clock n 0; Category := CategoriseDLQError (env_Error env) |}.

(** [persist]: a message that does not decode or insert is only logged. *)
Definition persist `{Unicode} (m : message) : M unit := λ w,
  match UnmarshalEnvelope (msg_Value m) with
  | Err _ => (Ok tt, w)
  | Ok env => best_effort (Insert (persisted_row (calls_made w) m env)) w
  end.

(** [ConsumeClaim] of the dead-letter consumer: persist, then mark, whatever happened. *)
Definition consume_dead_letters `{Unicode} (ms : list message) : M (list message) := λ w,
  foldl (λ acc m, let '(marked, w) := acc in
                  (match marked with Ok l => Ok (l ++ [m]) | Err e => Err e end, (persist m w).2))
    (Ok [], w) ms.

Definition OldestUnresolved (t : gmap string DLQMessage) : option Time :=
  FailedAt <$> head (sort_by older (List.filter is_unreplayed (table_rows t))).

(** The gauge after one poll that could read the table, in nanoseconds. *)
Definition oldest_age (now : Time) (t : gmap string DLQMessage) : Z :=
  match OldestUnresolved t with
  | None => 0
  | Some at_ => if time_is_zero at_ then 0 else Z.max 0 (time_sub now at_)
  end.

(** ** What a replay does *)

Lemma Get_spec tenantID id w r w' :
  Get tenantID id w = (r, w') →
  store w' = store w ∧ (calls_made w ≤ calls_made w')%nat ∧
  ∀ m, r = Ok m → scoped tenantID id (rows (store w)) = Some m ∧ calls_made w' = S (calls_made w).
Proof.
  unfold Get. destruct (str_empty tenantID || str_empty id); [intros [= <- <-]; by split_and!|].
  unfold ebind, eread, ecall. destruct (fate (calls_made w)); simpl;
    [|intros [= <- <-]; simpl; split_and!; [done|lia|done]..].
  destruct (scoped tenantID id (rows (store w))) as [m|]; intros [= <- <-]; simpl; split_and!; try lia; try done.
  by intros ? [= <-].
Qed.

Lemma scoped_row tenantID id t m :
  scoped tenantID id t = Some m → t !! id = Some m ∧ TenantID m = tenantID.
Proof.
  unfold scoped. destruct (t !! id) as [x|]; [|done]. destruct (str_eqb (TenantID x) tenantID) eqn:E; [|done].
  intros [= <-]. by apply str_eqb_eq in E.
Qed.

(** A call that changes only the row [id]. *)
Definition marks (id : string) (w w' : Env World) : Prop :=
  sent (store w') = sent (store w) ∧ (calls_made w ≤ calls_made w')%nat ∧
  (∀ id', id' ≠ id → rows (store w') !! id' = rows (store w) !! id').

(** The row is marked as replayed, or the [n]-th call was made and refused. *)
Definition marked_or_refused (id : string) (n : nat) (w' : Env World) : Prop :=
  (∃ m, rows (store w') !! id = Some m ∧ is_unreplayed m = false)
  ∨ (n < calls_made w')%nat ∧ fate n = Refused.

Lemma alter_row (f : DLQMessage → DLQMessage) (id : string) (t : gmap string DLQMessage) m :
  t !! id = Some m →
  (∀ id', id' ≠ id → alter f id t !! id' = t !! id') ∧ alter f id t !! id = Some (f m).
Proof.
  intros Hm. split; [intros id' Hne; by rewrite lookup_alter_ne|]. by rewrite lookup_alter_eq, Hm.
Qed.

Lemma MarkReplayed_spec id err w m :
  id ≠ EmptyString → rows (store w) !! id = Some m →
  let '(r, w') := MarkReplayed id err w in
  marks id w w' ∧ marked_or_refused id (calls_made w) w' ∧
  (r = Ok tt → ∃ t, rows (store w') !! id = Some (set_replay (Some t) err (AttemptCount m) m)).
Proof.
  intros Hid Hm. unfold MarkReplayed. rewrite (proj2 (str_empty_false _) Hid).
  unfold ebind, ecall. rewrite bool_decide_eq_true_2 by by eexists.
  destruct (alter_row (λ m, set_replay (Some (clock (calls_made w) 0)) err (AttemptCount m) m) id
              (rows (store w)) m Hm) as [Ho Hn].
  unfold marked_or_refused.
  destruct (fate (calls_made w)) eqn:Hf; simpl; (split; [split_and!; simpl; try done; lia|]); split; try done.
  - left. by eexists.
  - intros _. by eexists.
  - right. split; [lia|done].
  - left. by eexists.
Qed.

Lemma BumpAttemptCount_spec id w m :
  id ≠ EmptyString → rows (store w) !! id = Some m → is_unreplayed m = false →
  let '(r, w') := BumpAttemptCount id w in
  marks id w w' ∧ (∃ m', rows (store w') !! id = Some m' ∧ is_unreplayed m' = false) ∧
  ((∃ n, r = Ok n) → rows (store w') !! id = Some (set_replay (ReplayedAt m) (ReplayError m) (AttemptCount m + 1) m)).
Proof.
  intros Hid Hm Hu. unfold BumpAttemptCount. rewrite (proj2 (str_empty_false _) Hid).
  unfold ebind, ecall. rewrite bool_decide_eq_true_2 by by eexists.
  destruct (alter_row (λ m, set_replay (ReplayedAt m) (ReplayError m) (AttemptCount m + 1) m) id
              (rows (store w)) m Hm) as [Ho Hn].
  destruct (fate (calls_made w)) eqn:Hf; simpl.
  - unfold eread, ecall. simpl. destruct (fate (S (calls_made w))); simpl;
      (split; [split_and!; simpl; try done; lia|split; [by eexists|]]); try done; by intros [n [=]].
  - split; [split_and!; simpl; try done; lia|split; [by exists m|by intros [n [=]]]].
  - split; [split_and!; simpl; try done; lia|split; [by eexists|by intros [n [=]]]].
Qed.

(** A replay that got past its guards, for the row [row] and the message [msg]. *)
Record replay_effect (maxAttempts : Z) (tenantID id topic : string) (force : bool)
    (w w' : Env World) (row : DLQMessage) (msg : message) : Prop := {
  re_found : scoped tenantID id (rows (store w)) = Some row;
  re_fresh : is_unreplayed row = true ∨ force = true;
  re_budget : (AttemptCount row < maxAttempts)%Z;
  re_message : replay_message topic row = Ok msg;
  re_sent : sent (store w') = sent (store w) ∨ sent (store w') = sent (store w) ++ [msg];
  re_others : ∀ id', id' ≠ id → rows (store w') !! id' = rows (store w) !! id';
  (* the calls are the lookup, the send and the update that marks *)
  re_marked : marked_or_refused id (S (S (calls_made w))) w'
}.

(** The bookkeeping after a send: mark, then bump. *)
Lemma bookkeeping_spec id w m :
  id ≠ EmptyString → rows (store w) !! id = Some m →
  let '(r, w') :=
    (let@ _ := emap_err (λ e, DLQError (str_app "replayer: mark replayed: " (error_text e))) (MarkReplayed id EmptyString) in
     let@ _ := emap_err (λ e, DLQError (str_app "replayer: bump attempts: " (error_text e))) (BumpAttemptCount id) in
     eret tt) w in
  marks id w w' ∧ marked_or_refused id (calls_made w) w' ∧
  (r = Ok tt → ∃ t, rows (store w') !! id = Some (set_replay (Some t) EmptyString (AttemptCount m + 1) m)).
Proof.
  intros Hid Hm. pose proof (MarkReplayed_spec id EmptyString w m Hid Hm) as H1.
  unfold ebind, emap_err. destruct (MarkReplayed id EmptyString w) as [[[]|e] w1]; [|by destruct H1 as (? & ? & _)].
  destruct H1 as ((S1 & C1 & O1) & _ & H1). destruct (H1 eq_refl) as [t Ht].
  pose proof (BumpAttemptCount_spec id w1 _ Hid Ht eq_refl) as H2.
  destruct (BumpAttemptCount id w1) as [[n|e] w2]; destruct H2 as ((S2 & C2 & O2) & M2 & H2); simpl;
    (split; [split_and!; [by rewrite S2|lia|intros id' Hne; by rewrite O2, O1]|split; [by left|]]); [|done].
  intros _. exists t. apply H2. by exists n.
Qed.

(** A send that fails marks the row all the same. *)
Lemma send_or_mark_spec id msg w row :
  id ≠ EmptyString → rows (store w) !! id = Some row →
  let '(r, w') := send_or_mark id msg w in
  (calls_made w ≤ calls_made w')%nat ∧
  match r with
  | Ok _ => rows (store w') = rows (store w) ∧ sent (store w') = sent (store w) ++ [msg] ∧
            calls_made w' = S (calls_made w)
  | Err _ =>
      (sent (store w') = sent (store w) ∨ sent (store w') = sent (store w) ++ [msg]) ∧
      (∀ id', id' ≠ id → rows (store w') !! id' = rows (store w) !! id') ∧
      marked_or_refused id (S (calls_made w)) w'
  end.
Proof.
  intros Hid Hrow. unfold send_or_mark.
  destruct (send msg w) as [[[]|e] w1] eqn:Hsend; unfold send, ewrite, ecall in Hsend; simpl in Hsend.
  { destruct (fate (calls_made w)); try done. injection Hsend as <-. simpl. split; [lia|done]. }
  assert (Hw1 : rows (store w1) = rows (store w)
                ∧ (sent (store w1) = sent (store w) ∨ sent (store w1) = sent (store w) ++ [msg])
                ∧ calls_made w1 = S (calls_made w)).
  { destruct (fate (calls_made w)); try done; injection Hsend as _ <-; simpl; split_and!; auto; lia. }
  destruct Hw1 as (R1 & T1 & C1). assert (Hr1 : rows (store w1) !! id = Some row) by by rewrite R1.
  pose proof (MarkReplayed_spec id (error_text e) w1 row Hid Hr1) as Hm.
  unfold best_effort. destruct (MarkReplayed id (error_text e) w1) as [rm w2]. simpl.
  destruct Hm as ((S2 & C2 & O2) & M2 & _). rewrite C1 in M2, C2.
  split_and!; [lia|by rewrite S2|intros id' Hne; by rewrite O2, R1|done].
Qed.

Lemma Replay_guarded maxAttempts tenantID id topic force w r w' :
  Replay maxAttempts tenantID id topic force w = (r, w') →
  (store w' = store w ∧ r ≠ Ok tt) ∨
  ∃ row msg, replay_effect maxAttempts tenantID id topic force w w' row msg ∧
    (r = Ok tt → sent (store w') = sent (store w) ++ [msg] ∧
       ∃ t, rows (store w') = <[id := set_replay (Some t) EmptyString (AttemptCount row + 1) row]> (rows (store w))).
Proof.
  unfold Replay. destruct (str_empty topic); [by intros [= <- <-]; left|].
  unfold ebind at 1. destruct (Get tenantID id w) as [rg w1] eqn:Hg.
  destruct (Get_spec _ _ _ _ _ Hg) as (Es & Ec & Hsc).
  destruct rg as [row|e]; [|by intros [= <- <-]; left].
  destruct (Hsc row eq_refl) as [Hsc' Ec1]. pose proof (scoped_row _ _ _ _ Hsc') as [Hrow _].
  destruct (negb (is_unreplayed row) && negb force) eqn:Hfresh; [by intros [= <- <-]; left|].
  destruct (Z.leb_spec maxAttempts (AttemptCount row)); [by intros [= <- <-]; left|].
  destruct (replay_message topic row) as [msg|e] eqn:Hmsg; [|by intros [= <- <-]; left].
  assert (Hid : id ≠ EmptyString).
  { intros ->. unfold Get in Hg. rewrite orb_true_r in Hg. discriminate Hg. }
  assert (Hfr : is_unreplayed row = true ∨ force = true) by (destruct (is_unreplayed row), force; auto).
  intros Hrun. right. exists row, msg. unfold ebind at 1 in Hrun.
  rewrite <- Es in Hrow. pose proof (send_or_mark_spec id msg w1 row Hid Hrow) as Hs.
  destruct (send_or_mark id msg w1) as [[[]|e] w2]; destruct Hs as [C2 Hs]; rewrite ?Es in Hs.
  - destruct Hs as (R2 & T2 & C2'). assert (Hr2 : rows (store w2) !! id = Some row) by (rewrite R2; congruence).
    pose proof (bookkeeping_spec id w2 row Hid Hr2) as Hb. rewrite Hrun in Hb.
    destruct Hb as ((S3 & C3 & O3) & M3 & Hok). rewrite C2', Ec1 in M3. split.
    + constructor; try done; [right; by rewrite S3, T2|intros id' Hne; by rewrite O3, R2].
    + intros Hr. split; [by rewrite S3, T2|]. destruct (Hok Hr) as [t Ht]. exists t.
      apply map_eq. intros id'. destruct (decide (id' = id)) as [->|Hne].
      * by rewrite Ht, lookup_insert_eq.
      * by rewrite O3, R2, lookup_insert_ne.
  - injection Hrun as <- <-. destruct Hs as (T2 & O2 & M2). split; [|done]. rewrite Ec1 in M2.
    constructor; try done.
Qed.

(** C21: a replay changes nothing and fails, or its row belongs to the tenant, was not
    replayed (or the caller forces) and is within its budget. Then it sends at most
    one message, the row's event on the given topic, touches no other row, and
    leaves the row marked as replayed, also when Kafka refuses the send, unless its
    third call, the database update that marks the row, was refused. On success
    exactly that message was sent and the row is marked with one attempt more. *)
Theorem Replay_contract maxAttempts tenantID id topic force w r w' :
  Replay maxAttempts tenantID id topic force w = (r, w') →
  (store w' = store w ∧ r ≠ Ok tt) ∨
  ∃ row msg, replay_effect maxAttempts tenantID id topic force w w' row msg ∧
    (r = Ok tt → sent (store w') = sent (store w) ++ [msg] ∧
       ∃ t, rows (store w') = <[id := set_replay (Some t) EmptyString (AttemptCount row + 1) row]> (rows (store w))).
Proof. apply Replay_guarded. Qed.

(** ** No row is replayed twice *)

Record request := { rq_tenant : string; rq_id : string; rq_topic : string }.

(** Replays without force, whatever each returns. *)
Fixpoint replays (maxAttempts : Z) (qs : list request) (w : Env World) : Env World :=
  match qs with
  | [] => w
  | q :: qs' => replays maxAttempts qs' (Replay maxAttempts (rq_tenant q) (rq_id q) (rq_topic q) false w).2
  end.

Definition unreplayed (s : World) : gmap string DLQMessage :=
  filter (λ kv, is_unreplayed kv.2 = true) (rows s).

Lemma Replay_calls maxAttempts tenantID id topic force w :
  (calls_made w ≤ calls_made (Replay maxAttempts tenantID id topic force w).2)%nat.
Proof.
  unfold Replay. destruct (str_empty topic); [done|]. unfold ebind at 1.
  destruct (Get tenantID id w) as [rg w1] eqn:Hg. destruct (Get_spec _ _ _ _ _ Hg) as (Es & Ec & Hsc).
  destruct rg as [row|e]; [|done]. destruct (scoped_row _ _ _ _ (proj1 (Hsc row eq_refl))) as [Hrow _].
  destruct (negb (is_unreplayed row) && negb force); [done|]. case_match; [done|].
  destruct (replay_message topic row) as [msg|e]; [|done].
  assert (Hid : id ≠ EmptyString).
  { intros ->. unfold Get in Hg. rewrite orb_true_r in Hg. discriminate Hg. }
  rewrite <- Es in Hrow. unfold ebind at 1. pose proof (send_or_mark_spec id msg w1 row Hid Hrow) as Hs.
  destruct (send_or_mark id msg w1) as [[[]|e] w2]; destruct Hs as [C2 Hs]; [|simpl; lia].
  destruct Hs as (R2 & _). assert (Hr2 : rows (store w2) !! id = Some row) by (rewrite R2; congruence).
  pose proof (bookkeeping_spec id w2 row Hid Hr2) as Hb.
  destruct (ebind _ _ w2) as [r w3]. destruct Hb as ((_ & C3 & _) & _). simpl. lia.
Qed.

(** Each send uses up a row that was not replayed. *)
Lemma Replay_consumes maxAttempts q w :
  let w' := (Replay maxAttempts (rq_tenant q) (rq_id q) (rq_topic q) false w).2 in
  (∀ n, (calls_made w ≤ n < calls_made w')%nat → fate n ≠ Refused) →
  (length (sent (store w')) + size (unreplayed (store w')) ≤
   length (sent (store w)) + size (unreplayed (store w)))%nat.
Proof.
  intros w' Hok. destruct (Replay maxAttempts (rq_tenant q) (rq_id q) (rq_topic q) false w) as [r w1] eqn:E.
  simpl in w'. subst w'. destruct (Replay_guarded _ _ _ _ _ _ _ _ E) as [[-> _]|(row & msg & [F1 F2 F3 F4 F5 F6 F7] & _)];
    [done|].
  destruct F2 as [F2|]; [|done]. apply scoped_row in F1 as [F1 _].
  destruct F7 as [(m & Hm & Hu)|[Hn Hf]]; [|by destruct (Hok _ (conj (Nat.le_trans _ _ _ (Nat.le_succ_diag_r _) (Nat.le_succ_diag_r _)) Hn))].
  assert (Hdel : unreplayed (store w1) = delete (rq_id q) (unreplayed (store w))).
  { unfold unreplayed. apply map_eq. intros k. destruct (decide (k = rq_id q)) as [->|Hne].
    - rewrite lookup_delete_eq. apply map_lookup_filter_None_2. right. intros x Hx.
      rewrite Hm in Hx. injection Hx as <-. simpl. by rewrite Hu.
    - rewrite lookup_delete_ne by done. apply option_eq. intros x.
      rewrite !map_lookup_filter_Some, F6 by done. done. }
  rewrite Hdel, map_size_delete_Some.
  2: { exists row. apply map_lookup_filter_Some. by split. }
  assert (Hpos : (0 < size (unreplayed (store w)))%nat).
  { apply Nat.neq_0_lt_0. intros Hz%map_size_empty_iff.
    assert (Hx : unreplayed (store w) !! rq_id q = Some row) by by apply map_lookup_filter_Some.
    by rewrite Hz in Hx. }
  destruct F5 as [-> | ->]; rewrite ?length_app; simpl; lia.
Qed.

(** However often and in whatever order replays are requested, as long as no call
    is refused without effect, they send at most one message per row that was not yet
    replayed. *)
Theorem replays_send_once maxAttempts qs w :
  (∀ n, (calls_made w ≤ n < calls_made (replays maxAttempts qs w))%nat → fate n ≠ Refused) →
  (length (sent (store (replays maxAttempts qs w))) ≤
   length (sent (store w)) + size (unreplayed (store w)))%nat.
Proof.
  assert (Hcalls : ∀ qs w, (calls_made w ≤ calls_made (replays maxAttempts qs w))%nat).
  { clear. induction qs as [|q qs IH]; intros w; simpl; [done|].
    etransitivity; [apply Replay_calls|apply IH]. }
  assert (Hgen : ∀ qs w, (∀ n, (calls_made w ≤ n < calls_made (replays maxAttempts qs w))%nat → fate n ≠ Refused) →
    (length (sent (store (replays maxAttempts qs w))) + size (unreplayed (store (replays maxAttempts qs w))) ≤
     length (sent (store w)) + size (unreplayed (store w)))%nat).
  { clear -Hcalls. induction qs as [|q qs IH]; intros w Hok; simpl in *; [done|].
    set (w1 := (Replay maxAttempts (rq_tenant q) (rq_id q) (rq_topic q) false w).2) in *.
    pose proof (Replay_calls maxAttempts (rq_tenant q) (rq_id q) (rq_topic q) false w) as H1.
    pose proof (Hcalls qs w1) as H2. fold w1 in H1.
    etransitivity; [apply IH; intros n Hn; apply Hok; lia|].
    apply Replay_consumes. fold w1. intros n Hn. apply Hok. lia. }
  intros Hok. specialize (Hgen qs w Hok). lia.
Qed.

(** ** What the worker picks *)

Definition wf (t : gmap string DLQMessage) : Prop := map_Forall (λ id m, ID m = id) t.

Lemma elem_of_table_rows m t : m ∈ table_rows t ↔ ∃ id, t !! id = Some m.
Proof.
  unfold table_rows. rewrite list_elem_of_fmap. split.
  - intros ([id x] & -> & Hx%elem_of_map_to_list). by exists id.
  - intros [id Hid]. exists (id, m). by rewrite elem_of_map_to_list.
Qed.

Lemma table_rows_ids t : wf t → ID <$> table_rows t = fst <$> map_to_list t.
Proof.
  intros Hw. unfold table_rows. rewrite <- list_fmap_compose. apply list_fmap_ext.
  intros i [id m] Hi%list_elem_of_lookup_2%elem_of_map_to_list. by apply Hw in Hi.
Qed.

Lemma table_rows_distinct t : wf t → Cursor.distinct_ids ID (table_rows t).
Proof. intros Hw. unfold Cursor.distinct_ids. rewrite table_rows_ids by done. apply NoDup_fst_map_to_list. Qed.

Lemma table_rows_wf m t : wf t → m ∈ table_rows t → t !! ID m = Some m.
Proof. intros Hw [id Hid]%elem_of_table_rows. by rewrite (Hw _ _ Hid). Qed.

Definition eligible (c : DLQAutoReplayConfig) (now : Time) (m : DLQMessage) : Prop :=
  is_unreplayed m = true ∧ Category m ≠ DLQCategoryPermanent ∧ (AttemptCount m < MaxAutoRetries c)%Z ∧
  ∃ wait, BackoffFor (AttemptCount m) = Some wait ∧ (FailedAt m + wait ≤ now)%Z.

Lemma judge_eligible c now m :
  judge c now m = TryReplay → is_unreplayed m = true → eligible c now m.
Proof.
  unfold judge, eligible. intros Hj Hu.
  destruct (str_eqb (Category m) DLQCategoryPermanent) eqn:E1; [done|]. apply str_eqb_neq in E1.
  destruct (Z.leb_spec (MaxAutoRetries c) (AttemptCount m)); [done|].
  destruct (BackoffFor (AttemptCount m)) as [wait|]; [|done].
  destruct (Z.ltb_spec now (FailedAt m + wait)%Z); [done|].
  split_and!; [done|done|lia|]. by exists wait.
Qed.

Lemma replay_rows_sends c maxAttempts now l w r w' :
  replay_rows c maxAttempts now l w = (r, w') → NoDup (ID <$> l) →
  Forall (λ m, rows (store w) !! ID m = Some m ∧ is_unreplayed m = true) l →
  ∃ ms, sent (store w') = sent (store w) ++ ms ∧
    Forall (λ msg, ∃ m, m ∈ l ∧ eligible c now m ∧ replay_message (OriginalTopic m) m = Ok msg) ms.
Proof.
  revert w. induction l as [|m l IH]; intros w; simpl.
  { intros [= <- <-] _ _. exists []. by rewrite app_nil_r. }
  intros Hrun [Hn Hd]%NoDup_cons [[Hm Hu] Hl]%Forall_cons.
  assert (Hskip : replay_rows c maxAttempts now l w = (r, w') → ∃ ms, sent (store w') = sent (store w) ++ ms ∧
    Forall (λ msg, ∃ m0, m0 ∈ m :: l ∧ eligible c now m0 ∧ replay_message (OriginalTopic m0) m0 = Ok msg) ms).
  { intros H1. destruct (IH w H1 Hd Hl) as (ms & E & Hms). exists ms. split; [done|].
    eapply Forall_impl; [exact Hms|]. intros msg (m0 & H0 & ?). exists m0. by split; [right|]. }
  destruct (judge c now m) eqn:Hj; [by apply Hskip..|].
  unfold ebind, best_effort in Hrun.
  destruct (Replay maxAttempts (TenantID m) (ID m) (OriginalTopic m) false w) as [r1 w1] eqn:E1. simpl in Hrun.
  destruct (Replay_guarded _ _ _ _ _ _ _ _ E1) as [[Es _]|(row & msg & [F1 F2 F3 F4 F5 F6 F7] & _)].
  { destruct (IH w1 Hrun Hd) as (ms & E & Hms); [by rewrite Es|]. exists ms. rewrite Es in E. split; [done|].
    eapply Forall_impl; [exact Hms|]. intros msg (m0 & H0 & ?). exists m0. by split; [right|]. }
  apply scoped_row in F1 as [F1 _]. rewrite Hm in F1. injection F1 as <-.
  destruct (IH w1 Hrun Hd) as (ms & E & Hms).
  { rewrite Forall_forall in Hl |- *. intros m0 H0. rewrite F6; [by apply Hl|].
    intros E0. apply Hn. rewrite <- E0. by apply list_elem_of_fmap_2. }
  assert (Hms' : Forall (λ msg, ∃ m0, m0 ∈ m :: l ∧ eligible c now m0 ∧ replay_message (OriginalTopic m0) m0 = Ok msg) ms).
  { eapply Forall_impl; [exact Hms|]. intros msg' (m0 & H0 & ?). exists m0. by split; [right|]. }
  destruct F5 as [F5|F5]; rewrite F5 in E.
  - by exists ms.
  - exists (msg :: ms). rewrite <- app_assoc in E. split; [done|]. constructor; [|done].
    exists m. split_and!; [by left|by apply judge_eligible|done].
Qed.

(** Whatever fails, a tick of the worker sends only events of rows that were not
    replayed, are not classified as permanent, are within the retry budget and whose
    backoff since the failure has passed, each at most once. *)
Theorem Tick_sends_eligible c maxAttempts now w r w' :
  wf (rows (store w)) → Tick c maxAttempts now w = (r, w') →
  ∃ ms, sent (store w') = sent (store w) ++ ms ∧
    Forall (λ msg, ∃ m, rows (store w) !! ID m = Some m ∧ eligible c now m ∧
                        replay_message (OriginalTopic m) m = Ok msg) ms.
Proof.
  intros Hw. unfold Tick, ebind. destruct (ListAutoReplayable _ _ _ w) as [[l|e] w1] eqn:El.
  - apply eread_Ok in El as [-> Es]. intros Hrun.
    assert (Hall : Forall (λ m, rows (store w) !! ID m = Some m ∧ is_unreplayed m = true)
                     (auto_rows now (BatchSize c) (MaxAutoRetries c) (rows (store w)))).
    { apply Forall_forall. intros m Hm. unfold auto_rows in Hm. apply elem_of_take in Hm as (i & Hi & _).
      apply list_elem_of_lookup_2 in Hi. rewrite elem_of_sort_by in Hi.
      apply elem_of_filterb in Hi as [Hc Hin]. split; [by apply table_rows_wf|].
      unfold auto_candidate in Hc. by apply andb_true_iff in Hc as [[? _]%andb_true_iff _]. }
    destruct (replay_rows_sends _ _ _ _ _ _ _ Hrun) as (ms & E & Hms).
    + unfold auto_rows. eapply sublist_NoDup; [|apply fmap_sublist, sublist_take].
      rewrite sort_by_perm. eapply sublist_NoDup; [|apply fmap_sublist, filterb_sublist].
      by apply table_rows_distinct.
    + by rewrite Es.
    + exists ms. rewrite Es in E. split; [done|]. eapply Forall_impl; [exact Hms|].
      intros msg (m & Hm & He & Hr). exists m. split_and!; [|done|done].
      rewrite Forall_forall in Hall. by apply Hall.
  - intros [= <- <-]. exists []. rewrite app_nil_r. split; [|done]. by rewrite (eread_store _ _ _ _ _ El).
Qed.

(** A batch of permanent rows makes the tick do nothing: the rows behind them in the
    table are not looked at, then or later. *)
Theorem permanent_batch_stalls c maxAttempts now w :
  Forall (λ m, Category m = DLQCategoryPermanent)
    (auto_rows now (BatchSize c) (MaxAutoRetries c) (rows (store w))) →
  store (Tick c maxAttempts now w).2 = store w.
Proof.
  intros Hp. unfold Tick, ebind. destruct (ListAutoReplayable _ _ _ w) as [[l|e] w1] eqn:El.
  - apply eread_Ok in El as [El Es]. rewrite <- El in Hp. rewrite <- Es. clear El Es.
    induction l as [|m l IH]; [done|]. apply Forall_cons in Hp as [Hm Hl]. simpl. unfold judge.
    rewrite Hm. by apply IH.
  - by apply eread_store in El.
Qed.

(** ** Paging *)

(** Follow the tokens of the admin listing. *)
Definition list_pages (fuel : nat) (f : DLQListFilter) (t : gmap string DLQMessage) : list (list DLQMessage) :=
  Cursor.pages ID fuel (selected f) EmptyString (page_size f) (table_rows t).

(** Whatever page size was asked for, a page has at least one row and at most
    [MaxDLQPageSize]. *)
Lemma page_size_range f : (1 ≤ page_size f ≤ Z.to_nat MaxDLQPageSize)%nat.
Proof.
  unfold page_size, EffectiveDLQPageSize, DefaultDLQPageSize, MaxDLQPageSize.
  repeat case_match; lia.
Qed.

(** Following the page tokens lists exactly the rows of the tenant that the filter
    selects, each once, newest first, whatever page size was asked for. *)
Theorem list_pages_cover f t fuel :
  wf t → t !! EmptyString = None → (size t < fuel)%nat →
  concat (list_pages fuel f t) = Cursor.listing ID (selected f) (table_rows t) ∧
  (∀ m, m ∈ concat (list_pages fuel f t) ↔ t !! ID m = Some m ∧ selected f m = true) ∧
  NoDup (ID <$> concat (list_pages fuel f t)).
Proof.
  intros Hw He Hf. unfold list_pages.
  destruct (Cursor.pages_cover ID (selected f) (page_size f) (table_rows t) fuel) as [-> Hp].
  - by apply table_rows_distinct.
  - intros m Hm%table_rows_wf E; [|done]. rewrite E in Hm. congruence.
  - pose proof (page_size_range f). lia.
  - unfold table_rows. by rewrite length_fmap, length_map_to_list.
  - split_and!; [done| |].
    + intros m. rewrite Hp, elem_of_filterb, elem_of_table_rows. split.
      * intros [Hs [id Hid]]. by rewrite (Hw _ _ Hid).
      * intros [Hm Hs]. split; [done|by exists (ID m)].
    + rewrite Hp. apply Cursor.distinct_ids_filter. by apply table_rows_distinct.
Qed.

(** ** What the parts do together *)

(** The budget of the worker never leaves its backoff table: each attempt below it
    has a wait. *)
Lemma NewDLQAutoReplayer_budget c n :
  (0 ≤ n < MaxAutoRetries (NewDLQAutoReplayer c))%Z → is_Some (BackoffFor n).
Proof.
  unfold NewDLQAutoReplayer. cbn [MaxAutoRetries]. intros Hn.
  assert (Hn3 : (n = 0 ∨ n = 1 ∨ n = 2)%Z).
  { change (Z.of_nat (length AutoReplayBackoff)) with 3%Z in Hn. unfold DefaultAutoReplayMaxRetries in Hn.
    destruct (Z.leb_spec (MaxAutoRetries c) 0); [change (3 <? 3)%Z with false in Hn; lia|].
    destruct (Z.ltb_spec 3 (MaxAutoRetries c)); lia. }
  destruct Hn3 as [->|[->| ->]]; by eexists.
Qed.

(** A dead letter published by the pipeline is stored with the dead-letter topic as
    its origin and without attempts: the worker will send it back to that topic, and
    the row that comes of it starts with a full budget again. *)
Theorem dead_letter_forgets `{Unicode} dlqTopic evt err now n :
  let m := dead_letter dlqTopic evt err now in
  let env := {| env_Event := evt; env_Error := err; env_FailedAt := now; env_AttemptCount := 0 |} in
  OriginalTopic (persisted_row n m env) = dlqTopic ∧ AttemptCount (persisted_row n m env) = 0%Z.
Proof. done. Qed.

(** An event without a tenant is never persisted: the insert refuses the row and the
    consumer marks the message all the same. *)
Theorem tenantless_dead_letter_dropped `{Unicode} m env w :
  UnmarshalEnvelope (msg_Value m) = Ok env → ev_TenantID (env_Event env) = EmptyString →
  consume_dead_letters [m] w = (Ok [m], w).
Proof.
  intros Hd Ht. unfold consume_dead_letters, persist, best_effort, Insert. simpl. by rewrite Hd; simpl; rewrite Ht.
Qed.
End Store.

(** ** Samples *)

Definition sample_event : IngestEvent := plain_event EventDocumentChanged "t" "s" "d".
Definition sample_decode (s : string) : result DLQEnvelope string :=
  if str_eqb s "p" then Ok {| env_Event := sample_event; env_Error := "timeout"; env_FailedAt := 5; env_AttemptCount := 0 |}
  else Err "bad json".
Definition sample_encode (e : IngestEvent) : result string string := Ok "e".

Definition sample_row (id category : string) : DLQMessage :=
  {| ID := id; TenantID := "t"; SourceID := "s"; DocumentID := "d"; OriginalTopic := "ingest";
     PartitionKey_ := "t||s"; Payload := "p"; ErrorText := "timeout"; FailedAt := 5; AttemptCount := 0;
     ReplayedAt := None; ReplayError := EmptyString; CreatedAt := 6; Category := category |}.

Definition sample_world : Env World :=
  {| store := {| rows := {["a" := sample_row "a" "transient"]}; sent := [] |}; calls_made := 0 |}.

Definition sample_message : message :=
  {| msg_Topic := "ingest"; msg_Key := "t||s"; msg_Value := "e"; msg_Headers := [] |}.

Definition sample_config : DLQAutoReplayConfig := {| Interval := 0; BatchSize := 1; MaxAutoRetries := 3 |}.

Lemma sample_world_wf : wf (rows (store sample_world)).
Proof. apply map_Forall_singleton. done. Qed.

Lemma Replay_contract_witness :
  let w' := (@Replay calm sample_decode sample_encode 5 "t" "a" "ingest" false sample_world).2 in
  sent (store w') = [sample_message].
Proof.
  intros w'. destruct (@Replay_contract calm sample_decode sample_encode 5 "t" "a" "ingest" false sample_world
    (Ok tt) w') as [[_ Hr]|(row & msg & _ & Hok)].
  - vm_compute. reflexivity.
  - done.
  - destruct (Hok eq_refl) as [Hs _]. rewrite Hs. vm_compute in Hs. by injection Hs as <-.
Defined.

(** Asked five times, the replayer sends once. *)
Lemma replays_send_once_witness :
  let q := {| rq_tenant := "t"; rq_id := "a"; rq_topic := "ingest" |} in
  (length (sent (store (@replays calm sample_decode sample_encode 5 [q; q; q; q; q] sample_world))) ≤ 1)%nat.
Proof.
  intros q. apply (@replays_send_once calm sample_decode sample_encode 5 [q; q; q; q; q] sample_world).
  intros n _. done.
Defined.

Lemma Tick_sends_eligible_witness :
  ∃ ms, sent (store (@Tick calm sample_decode sample_encode sample_config 5 (5 * minute) sample_world).2) = [] ++ ms
        ∧ length ms = 1%nat.
Proof.
  destruct (@Tick_sends_eligible calm sample_decode sample_encode sample_config 5 (5 * minute)%Z sample_world
    (Ok tt) (@Tick calm sample_decode sample_encode sample_config 5 (5 * minute) sample_world).2)
    as (ms & E & _); [exact sample_world_wf|vm_compute; reflexivity|].
  exists ms. split; [exact E|]. vm_compute in E. by rewrite <- E.
Defined.

Definition sample_filter : DLQListFilter :=
  {| f_TenantID := "t"; f_OriginalTopic := ""; f_IncludeReplayed := false; f_SourceID := "";
     f_MinCreatedAt := 0; f_MaxCreatedAt := 0; f_Category := ""; f_PageSize := 1; f_PageToken := "" |}.

Lemma list_pages_cover_witness :
  NoDup (ID <$> concat (list_pages 2 sample_filter (rows (store sample_world)))) ∧
  sample_row "a" "transient" ∈ concat (list_pages 2 sample_filter (rows (store sample_world))).
Proof.
  destruct (list_pages_cover sample_filter (rows (store sample_world)) 2 sample_world_wf) as (_ & Hin & Hnd).
  - reflexivity.
  - vm_compute. lia.
  - split; [exact Hnd|]. apply Hin. split; reflexivity.
Defined.

(** A refused send marks the row: asked again, the replayer reports it as replayed
    although nothing was ever sent. *)
Definition refuse_second : Outside :=
  {| fate := λ n, if (n =? 1)%nat then Refused else Performed; clock := λ n _, Z.of_nat n |}.
Example failed_send_marks_row :
  let q := {| rq_tenant := "t"; rq_id := "a"; rq_topic := "ingest" |} in
  let w1 := (@Replay refuse_second sample_decode sample_encode 5 "t" "a" "ingest" false sample_world).2 in
  let '(r, w2) := @Replay refuse_second sample_decode sample_encode 5 "t" "a" "ingest" false w1 in
  r = Err ErrAlreadyReplayed ∧ sent (store w2) = [].
Proof. vm_compute. done. Qed.

(** One permanent row, older than the rest, in a batch of one: the eligible row is
    never sent. *)
Example permanent_row_starves :
  let w := {| store := {| rows := {["a" := sample_row "a" "permanent"; "b" := set_replay None "" 0 (sample_row "b" "transient")]};
                          sent := [] |}; calls_made := 0 |} in
  store (@Tick calm sample_decode sample_encode sample_config 5 (5 * minute) w).2 = store w.
Proof. apply permanent_batch_stalls. vm_compute. repeat constructor. Qed.

(** An outage of the parsing service counts as permanent because of the stage name in
    the error. *)
Example parse_outage_is_permanent :
  @CategoriseDLQError ascii_tables "parse: rpc error: code = Unavailable" = DLQCategoryPermanent.
Proof. reflexivity. Qed.
End DeadLetter.
