(* ===== verification/ShardSync.v ===== *)
(** * What a device synchronises and keeps

    internal/shard: the delta between two shard versions (delta.go) and the eviction
    policy of a device (eviction.go). A delta turns the old set of chunks into the
    new one whatever order the maps were walked in; eviction is monotone, and under
    the shipped policies heat never keeps what a cool device would drop. *)

From S2P Require Import Prelude GoFloat.

Module Delta.

Inductive DeltaKind := DeltaAdd | DeltaRemove.

#[export] Instance DeltaKind_eq : EqDecision DeltaKind.
Proof. solve_decision. Defined.

Record DeltaOp := { Kind : DeltaKind; ChunkID : string }.

#[export] Instance DeltaOp_eq : EqDecision DeltaOp.
Proof. solve_decision. Defined.

(** Empty ids are skipped and duplicates collapse. *)
Definition id_set (ids : list string) : gset string :=
  list_to_set (List.filter (λ id, negb (str_empty id)) ids).

Definition raw_ops (prev curr : gset string) : list DeltaOp :=
  ((λ id, {| Kind := DeltaAdd; ChunkID := id |}) <$> elements (curr ∖ prev))
  ++ ((λ id, {| Kind := DeltaRemove; ChunkID := id |}) <$> elements (prev ∖ curr)).

Definition op_less (a b : DeltaOp) : bool :=
  if bool_decide (Kind a = Kind b) then str_ltb (ChunkID a) (ChunkID b)
  else bool_decide (Kind a = DeltaAdd).

Definition ComputeDelta (prev curr : list string) : list DeltaOp :=
  sort_by op_less (raw_ops (id_set prev) (id_set curr)).

(** A client applies the operations in order. *)
Definition apply_op (s : gset string) (o : DeltaOp) : gset string :=
  match Kind o with
  | DeltaAdd => {[ChunkID o]} ∪ s
  | DeltaRemove => s ∖ {[ChunkID o]}
  end.
Definition apply_ops (ops : list DeltaOp) (s : gset string) : gset string := foldl apply_op s ops.

Lemma elem_of_id_set id ids : id ∈ id_set ids ↔ id ≠ EmptyString ∧ id ∈ ids.
Proof.
  unfold id_set. rewrite elem_of_list_to_set, elem_of_filterb, negb_true_iff, str_empty_false. done.
Qed.

Lemma elem_of_raw_ops o prev curr :
  o ∈ raw_ops prev curr ↔
  match Kind o with
  | DeltaAdd => ChunkID o ∈ curr ∧ ChunkID o ∉ prev
  | DeltaRemove => ChunkID o ∈ prev ∧ ChunkID o ∉ curr
  end.
Proof.
  unfold raw_ops. rewrite elem_of_app, !list_elem_of_fmap. setoid_rewrite elem_of_elements.
  setoid_rewrite elem_of_difference. destruct o as [[] id]; simpl; naive_solver.
Qed.

Lemma raw_ops_NoDup prev curr : NoDup (raw_ops prev curr).
Proof.
  unfold raw_ops. apply NoDup_app. split_and!.
  - apply NoDup_fmap_2; [by intros ?? [= ->]|apply NoDup_elements].
  - intros o (id & -> & _)%list_elem_of_fmap (id' & [=] & _)%list_elem_of_fmap.
  - apply NoDup_fmap_2; [by intros ?? [= ->]|apply NoDup_elements].
Qed.

Lemma op_less_weak_order l : weak_order_on op_less l.
Proof.
  destruct (str_key_weak_order ChunkID l) as [Has Htr]. unfold op_less. split.
  - intros [[] x] [[] y] Hx Hy; simpl; try done; by apply (Has _ _ Hx Hy).
  - intros [[] x] [[] y] [[] z] Hx Hy Hz; simpl; try done;
      by apply (Htr _ _ _ Hx Hy Hz).
Qed.

Lemma op_less_total a b : op_less a b = false → op_less b a = false → a = b.
Proof.
  destruct a as [[] x], b as [[] y]; unfold op_less; simpl; try done; intros; f_equal; by apply str_ltb_total.
Qed.

(** The delta does not depend on the order in which Go walks its two maps, nor on how
    its unstable sort arranges things. *)
Lemma delta_deterministic prev curr raw out :
  raw ≡ₚ raw_ops (id_set prev) (id_set curr) → slice_sorted op_less raw out → out = ComputeDelta prev curr.
Proof.
  intros Hp Hs. unfold ComputeDelta.
  rewrite <- (sort_by_unique op_less raw _ (op_less_weak_order _) (λ a b _ _, op_less_total a b) Hp).
  by apply slice_sorted_unique; [apply op_less_weak_order|intros a b _ _; apply op_less_total|].
Qed.

(** Operations that agree on each id can be applied in any order. *)
Definition wanted (ops : list DeltaOp) (id : string) (dflt : Prop) : Prop :=
  {| Kind := DeltaAdd; ChunkID := id |} ∈ ops
  ∨ {| Kind := DeltaRemove; ChunkID := id |} ∉ ops ∧ dflt.

Lemma apply_ops_wanted ops s id :
  (∀ i, {| Kind := DeltaAdd; ChunkID := i |} ∈ ops → {| Kind := DeltaRemove; ChunkID := i |} ∉ ops) →
  id ∈ apply_ops ops s ↔ wanted ops id (id ∈ s).
Proof.
  unfold apply_ops, wanted. revert s. induction ops as [|[k x] ops IH]; intros s Hc; simpl.
  { rewrite !elem_of_nil. naive_solver. }
  rewrite IH.
  2: { intros i Hi Hr. apply (Hc i); by right. }
  specialize (Hc x). rewrite !elem_of_cons in Hc |- *. unfold apply_op. destruct k; simpl.
  - rewrite elem_of_union, elem_of_singleton. destruct (decide (id = x)) as [->|]; naive_solver.
  - rewrite elem_of_difference, elem_of_singleton. destruct (decide (id = x)) as [->|]; naive_solver.
Qed.

Lemma ComputeDelta_applies prev curr : apply_ops (ComputeDelta prev curr) (id_set prev) = id_set curr.
Proof.
  apply set_eq. intros id.
  rewrite apply_ops_wanted; unfold wanted, ComputeDelta; [|intros i]; rewrite !elem_of_sort_by, !elem_of_raw_ops; simpl.
  - destruct (decide (id ∈ id_set curr)), (decide (id ∈ id_set prev)); naive_solver.
  - naive_solver.
Qed.

(** The delta between two versions, applied in its order, turns the chunk set of
    the old version into that of the new one; it lists adds before removes, each in
    the order of the ids, has no operation twice and none that changes nothing, and
    does not depend on how Go walks its maps or breaks ties. *)
Theorem ComputeDelta_exact prev curr :
  apply_ops (ComputeDelta prev curr) (id_set prev) = id_set curr ∧
  (∀ o, o ∈ ComputeDelta prev curr ↔
     match Kind o with
     | DeltaAdd => ChunkID o ∈ id_set curr ∧ ChunkID o ∉ id_set prev
     | DeltaRemove => ChunkID o ∈ id_set prev ∧ ChunkID o ∉ id_set curr
     end) ∧
  NoDup (ComputeDelta prev curr) ∧
  StronglySorted (λ a b, op_less b a = false) (ComputeDelta prev curr) ∧
  ∀ raw out, raw ≡ₚ raw_ops (id_set prev) (id_set curr) → slice_sorted op_less raw out →
    out = ComputeDelta prev curr.
Proof.
  split_and!; [apply ComputeDelta_applies| | | |].
  - intros o. unfold ComputeDelta. by rewrite elem_of_sort_by, elem_of_raw_ops.
  - unfold ComputeDelta. rewrite sort_by_perm. apply raw_ops_NoDup.
  - apply sort_by_sorted, op_less_weak_order.
  - apply delta_deterministic.
Qed.
End Delta.

Module Eviction.

(** [DeviceTier] is a string; the empty one is unknown. *)
Definition DeviceTierUnknown : string := "".
Definition DeviceTierLow : string := "low".
Definition DeviceTierMid : string := "mid".
Definition DeviceTierHigh : string := "high".

Record EvictionPolicy := {
  Tier : string;
  MaxShardSizeMB : Z;
  MinFreeMemoryMB : Z;
  ThermalEvictMultiplier : float
}.

Record EvictionInputs := {
  ShardSizeMB : Z;
  inTier : string;
  AvailableMemoryMB : Z;
  ThermalThrottled : bool
}.

Record EvictionDecision := { Evict : bool; Reason : string }.

Definition size_limit (p : EvictionPolicy) (throttled : bool) : Z :=
  if throttled && f_gtb (ThermalEvictMultiplier p) f_zero
  then int_of_f64 (f64_mul (f64_of_Z (MaxShardSizeMB p)) (ThermalEvictMultiplier p))
  else MaxShardSizeMB p.

Definition ShouldEvict (p : EvictionPolicy) (i : EvictionInputs) : EvictionDecision :=
  if str_eqb (inTier i) DeviceTierUnknown then {| Evict := true; Reason := "unknown_tier" |}
  else
    let maxShard := size_limit p (ThermalThrottled i) in
    if (0 <? maxShard)%Z && (maxShard <? ShardSizeMB i)%Z then {| Evict := true; Reason := "shard_too_large" |}
    else if (0 <? MinFreeMemoryMB p)%Z && (AvailableMemoryMB i <? MinFreeMemoryMB p)%Z
    then {| Evict := true; Reason := "memory_pressure" |}
    else {| Evict := false; Reason := "keep" |}.

Fixpoint build (t : gmap string EvictionPolicy) (policies : list EvictionPolicy)
  : result (gmap string EvictionPolicy) string :=
  match policies with
  | [] => Ok t
  | p :: rest =>
      if str_eqb (Tier p) DeviceTierUnknown then Err "eviction: tier required"
      else match t !! Tier p with
           | Some _ => Err "eviction: duplicate tier"
           | None => build (<[Tier p := p]> t) rest
           end
  end.
Definition NewEvictionPolicyTable (policies : list EvictionPolicy) : result (gmap string EvictionPolicy) string :=
  build ∅ policies.

Definition half : float := f64_const 1 2.

Definition strictest : EvictionPolicy :=
  {| Tier := DeviceTierLow; MaxShardSizeMB := 64; MinFreeMemoryMB := 256; ThermalEvictMultiplier := half |}.

Definition Resolve (t : gmap string EvictionPolicy) (tier : string) : EvictionPolicy :=
  match t !! tier with
  | Some p => p
  | None => match t !! DeviceTierLow with Some p => p | None => strictest end
  end.

Definition TierRank (t : string) : Z :=
  if str_eqb t DeviceTierLow then 0
  else if str_eqb t DeviceTierMid then 1
  else if str_eqb t DeviceTierHigh then 2
  else -1.

Definition All (t : gmap string EvictionPolicy) : list EvictionPolicy :=
  sort_by (λ a b, (TierRank (Tier a) <? TierRank (Tier b))%Z) (snd <$> map_to_list t).

Definition DefaultEvictionPolicies : list EvictionPolicy :=
  [strictest;
   {| Tier := DeviceTierMid; MaxShardSizeMB := 256; MinFreeMemoryMB := 512; ThermalEvictMultiplier := half |};
   {| Tier := DeviceTierHigh; MaxShardSizeMB := 1024; MinFreeMemoryMB := 1024; ThermalEvictMultiplier := half |}].

(** ** Facts *)

(** The decision in one line. *)
Lemma ShouldEvict_iff p i :
  Evict (ShouldEvict p i) = true ↔
  inTier i = DeviceTierUnknown
  ∨ (0 < size_limit p (ThermalThrottled i) < ShardSizeMB i)%Z
  ∨ (0 < MinFreeMemoryMB p ∧ AvailableMemoryMB i < MinFreeMemoryMB p)%Z.
Proof.
  unfold ShouldEvict. destruct (str_eqb (inTier i) DeviceTierUnknown) eqn:E1; simpl.
  { apply str_eqb_eq in E1. naive_solver. }
  apply str_eqb_neq in E1. destruct (0 <? size_limit p _)%Z eqn:E2, (size_limit p _ <? _)%Z eqn:E3,
    (0 <? MinFreeMemoryMB p)%Z eqn:E4, (AvailableMemoryMB i <? _)%Z eqn:E5; simpl; split; intros; try done;
    try lia; destruct_or?; try done; try lia; right; lia.
Qed.

(** The shipped policies halve their limit under heat. *)
Lemma default_size_limit p throttled :
  p ∈ DefaultEvictionPolicies →
  (0 < size_limit p throttled ≤ size_limit p false)%Z ∧ (2 * size_limit p true = size_limit p false)%Z.
Proof.
  intros [->|[->|[->|[]%not_elem_of_nil]%elem_of_cons]%elem_of_cons]%elem_of_cons;
    destruct throttled; vm_compute; done.
Qed.

(** On the shipped policies a larger shard, less free memory or heat never turns
    an eviction into a keep, a device that has not reported its tier always evicts,
    and heat halves the size limit. *)
Theorem eviction_monotone p i j :
  p ∈ DefaultEvictionPolicies → inTier j = inTier i ∨ inTier j = DeviceTierUnknown →
  (ShardSizeMB i ≤ ShardSizeMB j)%Z → (AvailableMemoryMB j ≤ AvailableMemoryMB i)%Z →
  (ThermalThrottled i = true → ThermalThrottled j = true) →
  (Evict (ShouldEvict p i) = true → Evict (ShouldEvict p j) = true) ∧
  (2 * size_limit p true = size_limit p false)%Z.
Proof.
  intros Hp Ht Hs Hm Hth. split; [|by apply (default_size_limit p false)].
  rewrite !ShouldEvict_iff. intros [Hu|[Hz|Hf]].
  - left. destruct Ht as [->| ->]; done.
  - right; left. destruct (default_size_limit p (ThermalThrottled j) Hp) as [[H1 H2] H3].
    destruct (default_size_limit p (ThermalThrottled i) Hp) as [[H4 H5] _].
    destruct (ThermalThrottled i), (ThermalThrottled j); naive_solver lia.
  - right; right. lia.
Qed.

Lemma eviction_monotone_witness :
  let i := {| ShardSizeMB := 60; inTier := "low"; AvailableMemoryMB := 100; ThermalThrottled := false |} in
  let j := {| ShardSizeMB := 70; inTier := "low"; AvailableMemoryMB := 90; ThermalThrottled := true |} in
  Evict (ShouldEvict strictest j) = true.
Proof.
  intros i j. apply (eviction_monotone strictest i j).
  - apply elem_of_cons. by left.
  - by left.
  - vm_compute. done.
  - vm_compute. done.
  - done.
  - reflexivity.
Defined.

Lemma build_lookup policies t t' tier p :
  build t policies = Ok t' → t !! tier = Some p → t' !! tier = Some p.
Proof.
  revert t. induction policies as [|q rest IH]; intros t; simpl; [by intros [= ->]|].
  destruct (str_eqb (Tier q) DeviceTierUnknown); [done|]. destruct (t !! Tier q) eqn:E; [done|].
  intros Hb Ht. apply (IH _ Hb). rewrite lookup_insert_ne; [done|congruence].
Qed.

(** A table resolves every tier it was built from to its policy. *)
Lemma NewEvictionPolicyTable_resolves policies t p :
  NewEvictionPolicyTable policies = Ok t → p ∈ policies → Resolve t (Tier p) = p.
Proof.
  unfold NewEvictionPolicyTable, Resolve. generalize (∅ : gmap string EvictionPolicy).
  induction policies as [|q rest IH]; intros t0; simpl; [by intros _ ?%not_elem_of_nil|].
  destruct (str_eqb (Tier q) DeviceTierUnknown); [done|]. destruct (t0 !! Tier q); [done|].
  intros Hb [->|Hp]%elem_of_cons; [|by apply (IH _ Hb)].
  by rewrite (build_lookup _ _ _ _ _ Hb (lookup_insert_eq _ _ _)).
Qed.

(** The listing of the shipped policies, strictest first. *)
Example default_table :
  match NewEvictionPolicyTable DefaultEvictionPolicies with
  | Ok t => All t = DefaultEvictionPolicies
  | Err _ => False
  end.
Proof. vm_compute. done. Qed.

(** A limit that the multiplier rounds to zero is no limit: the hot device keeps a
    shard that the cool one drops. *)
Example heat_lifts_small_limit :
  let p := {| Tier := "low"; MaxShardSizeMB := 1; MinFreeMemoryMB := 0; ThermalEvictMultiplier := half |} in
  let i hot := {| ShardSizeMB := 900; inTier := "low"; AvailableMemoryMB := 100; ThermalThrottled := hot |} in
  Evict (ShouldEvict p (i false)) = true ∧ Evict (ShouldEvict p (i true)) = false.
Proof. vm_compute. done. Qed.
End Eviction.
