(* ===== verification/Shards.v ===== *)
(** * Shards: versions, generation and the sync endpoints

    internal/shard: the manifests and chunk rows of model.go and repository.go, the
    generator of generator.go over the chunks of postgres_chunk_source.go, the delta
    and coverage endpoints of handler.go with coverage_repo.go, the adapter of
    version_lookup.go and the pre-generation pass of scheduler.go. SQL, the policy
    resolver and the identifier source are outside. A successful generation
    publishes exactly the eligible chunks as the newest and only ready version of
    its scope, and a device that follows the delta endpoint ends with the chunks of
    that version. *)

From S2P Require Import Prelude GoFloat GoString Acl Effects ChunkStores ShardSync.

Module Shards.

Import ACL ChunkACL Snapshot.

(** ** Rows *)

Definition ShardStatusPending : string := "pending".
Definition ShardStatusReady : string := "ready".
Definition ShardStatusFailed : string := "failed".
Definition ShardStatusSuperseded : string := "superseded".

Record ShardManifest := {
  ID : string;
  TenantID : string;
  UserID : string;
  ChannelID : string;
  PrivacyMode : string;
  ShardVersion : Z;
  ChunksCount : Z;
  Status : string;
  CreatedAt : Time;
  UpdatedAt : Time
}.

Definition set_status (status : string) (count : Z) (at_ : Time) (m : ShardManifest) : ShardManifest :=
  {| ID := ID m; TenantID := TenantID m; UserID := UserID m; ChannelID := ChannelID m;
     PrivacyMode := PrivacyMode m; ShardVersion := ShardVersion m; ChunksCount := count;
     Status := status; CreatedAt := CreatedAt m; UpdatedAt := at_ |}.

(** [Validate] completes an empty status. *)
Definition Validate (m : ShardManifest) : result ShardManifest string :=
  if str_empty (ID m) then Err "shard: ID required"
  else if str_empty (TenantID m) then Err "shard: TenantID required"
  else if str_empty (PrivacyMode m) then Err "shard: PrivacyMode required"
  else if (ShardVersion m <=? 0)%Z then Err "shard: ShardVersion must be > 0"
  else if bool_decide (Status m ∈ [ShardStatusPending; ShardStatusReady; ShardStatusFailed; ShardStatusSuperseded])
  then Ok m
  else if str_empty (Status m) then Ok (set_status ShardStatusPending (ChunksCount m) (UpdatedAt m) m)
  else Err "shard: unknown Status".

(** The shards table by id, and the shard_chunks table: (shard, chunk) to tenant. *)
Record Tables := {
  manifests : gmap string ShardManifest;
  chunk_rows : gmap (string * string) string
}.
Definition on_manifests (f : gmap string ShardManifest → gmap string ShardManifest) (t : Tables) : Tables :=
  {| manifests := f (manifests t); chunk_rows := chunk_rows t |}.
Definition on_chunk_rows (f : gmap (string * string) string → gmap (string * string) string) (t : Tables) : Tables :=
  {| manifests := manifests t; chunk_rows := f (chunk_rows t) |}.

Record ScopeFilter := {
  f_TenantID : string;
  f_UserID : string;
  f_ChannelID : string;
  f_Status : string;
  f_PrivacyMode : string
}.

Inductive shard_error :=
| ErrShardNotFound
| ErrMissingTenantScope
| ShardError (msg : string).

Abbreviation M := (Eff Tables shard_error) (only parsing).

Definition wrap (op : string) (e : shard_error) : shard_error :=
  match e with ShardError m => ShardError (str_app op m) | _ => e end.

(** ** Repository *)

(** A narrowed column must match; otherwise it must be empty. *)
Definition exact_or_empty (want have : string) : bool :=
  if str_empty want then str_empty have else str_eqb have want.
Definition in_scope (f : ScopeFilter) (m : ShardManifest) : bool :=
  str_eqb (TenantID m) (f_TenantID f) && str_eqb (PrivacyMode m) (f_PrivacyMode f)
  && exact_or_empty (f_UserID f) (UserID m) && exact_or_empty (f_ChannelID f) (ChannelID m).

Definition opt_eq (want have : string) : bool := str_empty want || str_eqb have want.
Definition listed (f : ScopeFilter) (m : ShardManifest) : bool :=
  str_eqb (TenantID m) (f_TenantID f) && opt_eq (f_UserID f) (UserID m) && opt_eq (f_ChannelID f) (ChannelID m)
  && opt_eq (f_Status f) (Status m) && opt_eq (f_PrivacyMode f) (PrivacyMode m).

Definition rows_of (t : Tables) : list ShardManifest := snd <$> map_to_list (manifests t).

(** The unique key of the table. *)
Definition same_key (a b : ShardManifest) : bool :=
  str_eqb (TenantID a) (TenantID b) && str_eqb (UserID a) (UserID b) && str_eqb (ChannelID a) (ChannelID b)
  && str_eqb (PrivacyMode a) (PrivacyMode b) && (ShardVersion a =? ShardVersion b)%Z.

Section Repository.
Context `{Outside}.
Context (ulid : nat → string).

Definition stamped (n : nat) (m : ShardManifest) : ShardManifest :=
  {| ID := if str_empty (ID m) then ulid n else ID m; TenantID := TenantID m; UserID := UserID m;
     ChannelID := ChannelID m; PrivacyMode := PrivacyMode m; ShardVersion := ShardVersion m;
     ChunksCount := ChunksCount m; Status := Status m;
     CreatedAt := if time_is_zero (CreatedAt m) then clock n 0 else CreatedAt m; UpdatedAt := clock n 0 |}.

Definition taken (m : ShardManifest) (t : Tables) : bool :=
  bool_decide (is_Some (manifests t !! ID m)) || existsb (same_key m) (rows_of t).

Definition Create (m : ShardManifest) : M unit := λ w,
  if str_empty (TenantID m) then ethrow ErrMissingTenantScope w
  else match Validate (stamped (calls_made w) m) with
       | Err e => ethrow (ShardError e) w
       | Ok m' =>
           (let@ ok := ecall (ShardError "insert")
                         (λ t, if taken m' t then (false, t)
                               else (true, on_manifests (insert (ID m') m') t)) in
            if ok then eret tt else ethrow (ShardError "duplicate key")) w
       end.

Definition newer_version (a b : ShardManifest) : bool := (ShardVersion b <? ShardVersion a)%Z.

Definition List_ (f : ScopeFilter) (pageSize : Z) : M (list ShardManifest) :=
  if str_empty (f_TenantID f) then ethrow ErrMissingTenantScope
  else
    let pageSize := if (pageSize <=? 0)%Z then 50%Z else pageSize in
    eread (ShardError "shard: list")
      (λ t, take (Z.to_nat pageSize) (sort_by newer_version (List.filter (listed f) (rows_of t)))).

Definition by_id (a b : ShardManifest) : bool := str_ltb (ID a) (ID b).
Definition first_row (P : ShardManifest → bool) (t : Tables) : option ShardManifest :=
  head (sort_by by_id (List.filter P (rows_of t))).

Definition found {A} (r : option A) : M A :=
  match r with Some a => eret a | None => ethrow ErrShardNotFound end.

Definition owned (tenantID : string) (m : ShardManifest) : bool := str_eqb (TenantID m) tenantID.

Definition Get (tenantID id : string) : M ShardManifest :=
  if str_empty tenantID then ethrow ErrMissingTenantScope
  else
    let@ r := eread (ShardError "shard: get")
                (λ t, first_row (λ m, owned tenantID m && str_eqb (ID m) id) t) in
    found r.

Definition at_version (f : ScopeFilter) (version : Z) (m : ShardManifest) : bool :=
  in_scope f m && (ShardVersion m =? version)%Z.

Definition GetByVersion (f : ScopeFilter) (version : Z) : M ShardManifest :=
  if str_empty (f_TenantID f) then ethrow ErrMissingTenantScope
  else
    let@ r := eread (ShardError "shard: get by version") (first_row (at_version f version)) in
    found r.

(** [COALESCE(MAX(shard_version), 0)] *)
Definition max_version (ms : list ShardManifest) : Z :=
  match ms with
  | [] => 0
  | m :: rest => foldr (λ x, Z.max (ShardVersion x)) (ShardVersion m) rest
  end.
Definition latest_of (f : ScopeFilter) (t : Tables) : Z := max_version (List.filter (in_scope f) (rows_of t)).

Definition LatestVersion (f : ScopeFilter) : M Z :=
  if str_empty (f_TenantID f) then ethrow ErrMissingTenantScope
  else eread (ShardError "shard: latest version") (latest_of f).

Definition keeps (tenantID shardID : string) (kv : string * string * string) : bool :=
  negb (str_eqb kv.2 tenantID && str_eqb kv.1.1 shardID).
Definition cleared (tenantID shardID : string) (rows : gmap (string * string) string) : gmap (string * string) string :=
  filter (λ kv, keeps tenantID shardID kv = true) rows.

(** Insert the rows one by one; a key that exists fails the transaction. *)
Fixpoint add_rows (tenantID shardID : string) (ids : list string) (rows : gmap (string * string) string)
  : option (gmap (string * string) string) :=
  match ids with
  | [] => Some rows
  | id :: rest =>
      match rows !! (shardID, id) with
      | Some _ => None
      | None => add_rows tenantID shardID rest (<[(shardID, id) := tenantID]> rows)
      end
  end.

Definition SetChunkIDs (tenantID shardID : string) (chunkIDs : list string) : M unit :=
  if str_empty tenantID then ethrow ErrMissingTenantScope
  else
    let@ ok := ecall (ShardError "shard: clear chunks")
                 (λ t, match add_rows tenantID shardID chunkIDs (cleared tenantID shardID (chunk_rows t)) with
                       | Some rows => (true, on_chunk_rows (λ _, rows) t)
                       | None => (false, t)
                       end) in
    if ok then eret tt else ethrow (ShardError "shard: insert chunks").

Definition shard_ids (tenantID shardID : string) (t : Tables) : list string :=
  sort_by str_ltb ((λ kv, kv.1.2) <$>
    map_to_list (filter (λ kv, keeps tenantID shardID kv = false) (chunk_rows t))).

Definition ChunkIDs (tenantID shardID : string) : M (list string) :=
  if str_empty tenantID then ethrow ErrMissingTenantScope
  else eread (ShardError "shard: chunk ids") (shard_ids tenantID shardID).

(** Update the rows a condition selects. *)
Definition update_rows (P : ShardManifest → bool) (f : ShardManifest → ShardManifest)
    (ms : gmap string ShardManifest) : gmap string ShardManifest :=
  (λ m, if P m then f m else m) <$> ms.

(** [UPDATE] of the row of the tenant with the id; none is reported as not found. *)
Definition update_one (err tenantID shardID : string) (f : Time → ShardManifest → ShardManifest) : M unit :=
  if str_empty tenantID then ethrow ErrMissingTenantScope
  else λ w,
    (let P := λ m, owned tenantID m && str_eqb (ID m) shardID in
     let@ n := ecall (ShardError err)
                 (λ t, (existsb P (rows_of t), on_manifests (update_rows P (f (clock (calls_made w) 0))) t)) in
     if n then eret tt else ethrow ErrShardNotFound) w.

Definition MarkReady (tenantID shardID : string) (count : Z) : M unit :=
  update_one "shard: mark ready" tenantID shardID (λ now, set_status ShardStatusReady count now).

Definition MarkFailed (tenantID shardID : string) : M unit :=
  update_one "shard: mark failed" tenantID shardID
    (λ now m, set_status ShardStatusFailed (ChunksCount m) now m).

Definition outdated (f : ScopeFilter) (version : Z) (m : ShardManifest) : bool :=
  in_scope f m && (ShardVersion m <? version)%Z && str_eqb (Status m) ShardStatusReady.

Definition MarkSuperseded (f : ScopeFilter) (currentVersion : Z) : M unit :=
  if str_empty (f_TenantID f) then ethrow ErrMissingTenantScope
  else λ w, ewrite (ShardError "shard: mark superseded")
              (on_manifests (update_rows (outdated f currentVersion)
                 (λ m, set_status ShardStatusSuperseded (ChunksCount m) (clock (calls_made w) 0) m))) w.

(** ** Generation *)

Record ChunkScope := {
  sc_ChunkID : string;
  sc_DocumentID : string;
  sc_NamespaceID : string;
  sc_SourceID : string;
  sc_URI : string;
  sc_PrivacyLabel : string;
  sc_Connector : string;
  sc_Tags : list string
}.

(** [PostgresChunkSource.ListChunks]; the tags stay empty. *)
Definition scope_of_chunk (c : ChunkStores.Chunk) : ChunkScope :=
  {| sc_ChunkID := ChunkStores.ck_ID c; sc_DocumentID := ChunkStores.ck_DocumentID c;
     sc_NamespaceID := ChunkStores.ck_NamespaceID c; sc_SourceID := ChunkStores.ck_SourceID c;
     sc_URI := ChunkStores.ck_URI c; sc_PrivacyLabel := ChunkStores.ck_PrivacyLabel c;
     sc_Connector := ChunkStores.ck_Connector c; sc_Tags := [] |}.
Definition ListChunks_of (rows : gmap string ChunkStores.Chunk) (tenantID : string) : list ChunkScope :=
  scope_of_chunk <$> sort_by (λ a b, str_ltb (ChunkStores.ck_ID a) (ChunkStores.ck_ID b))
    (List.filter (λ c, str_eqb (ChunkStores.ck_TenantID c) tenantID) (snd <$> map_to_list rows)).

Definition privacy_rank (v : string) : option Z :=
  (list_to_map [("no-ai", 0); ("no_ai", 0); ("local-only", 1); ("local", 1); ("local-api", 2); ("hybrid", 3);
                ("internal", 3); ("remote", 4); ("public", 4)]%Z : gmap string Z) !! v.

Definition privacyAllows (mode label : string) : bool :=
  if str_empty mode || str_empty label then true
  else match privacy_rank mode, privacy_rank label with
       | Some m, Some l => (m <=? l)%Z
       | _, _ => true
       end.

Context (regexp_other : bytes → bytes → bool).

Definition aclAllows (snap : PolicySnapshot) (ch : ChunkScope) : bool :=
  match Snapshot.ACL snap with
  | None => true
  | Some acl => Allowed (ACL.Evaluate regexp_other (Some acl)
                  {| attr_SourceID := sc_SourceID ch; attr_NamespaceID := sc_NamespaceID ch; attr_Path := sc_URI ch |})
  end.

Definition chunkACLAllows (snap : PolicySnapshot) (ch : ChunkScope) : bool :=
  match Snapshot.ChunkACL snap with
  | None => true
  | Some acl => negb (bool_decide
      (ChunkACL.Evaluate (Some acl) {| a_ChunkID := sc_ChunkID ch; a_Tags := sc_Tags ch |} = DecisionDeny))
  end.

Definition eligible (snap : PolicySnapshot) (mode : string) (ch : ChunkScope) : bool :=
  privacyAllows mode (sc_PrivacyLabel ch) && aclAllows snap ch && chunkACLAllows snap ch.

Definition eligibleIDs (snap : PolicySnapshot) (mode : string) (candidates : list ChunkScope) : list string :=
  sort_by str_ltb (sc_ChunkID <$> List.filter (eligible snap mode) candidates).

Context (Resolve : string → string → result PolicySnapshot string).
Context (ListChunks : string → result (list ChunkScope) string).

Record GenerateRequest := { g_TenantID : string; g_UserID : string; g_ChannelID : string; g_PrivacyMode : string }.

Definition scope_of (req : GenerateRequest) : ScopeFilter :=
  {| f_TenantID := g_TenantID req; f_UserID := g_UserID req; f_ChannelID := g_ChannelID req;
     f_Status := EmptyString; f_PrivacyMode := g_PrivacyMode req |}.

Definition new_manifest (req : GenerateRequest) (version count : Z) (n : nat) : ShardManifest :=
  {| ID := ulid n; TenantID := g_TenantID req; UserID := g_UserID req; ChannelID := g_ChannelID req;
     PrivacyMode := g_PrivacyMode req; ShardVersion := version; ChunksCount := count;
     Status := ShardStatusPending; CreatedAt := clock n 1; UpdatedAt := clock n 2 |}.

(** Chunk rows, or the manifest marked failed. *)
Definition persist_ids (tenantID shardID : string) (ids : list string) : M unit := λ w,
  match SetChunkIDs tenantID shardID ids w with
  | (Ok _, w') => (Ok tt, w')
  | (Err e, w') => (Err (wrap "shard: persist chunk ids: " e), (MarkFailed tenantID shardID w').2)
  end.

Definition publish (req : GenerateRequest) (ids : list string) (version : Z) : M ShardManifest := λ w,
  let m := new_manifest req version (Z.of_nat (length ids)) (calls_made w) in
  (let@ _ := emap_err (wrap "shard: create manifest: ") (Create m) in
   let@ _ := persist_ids (g_TenantID req) (ID m) ids in
   let@ _ := MarkReady (g_TenantID req) (ID m) (Z.of_nat (length ids)) in
   let@ _ := MarkSuperseded (scope_of req) version in
   let m' := stamped (calls_made w) m in
   eret (set_status ShardStatusReady (Z.of_nat (length ids)) (UpdatedAt m') m')) w.

(** The manifest and its chunk ids; the embeddings the caller may also get are only
    looked up and never fail the run. *)
Definition Generate (req : GenerateRequest) : M (ShardManifest * list string) :=
  if str_empty (g_TenantID req) then ethrow ErrMissingTenantScope
  else if str_empty (g_PrivacyMode req) then ethrow (ShardError "shard: PrivacyMode required")
  else match Resolve (g_TenantID req) (g_ChannelID req) with
       | Err e => ethrow (ShardError (str_app "shard: resolve policy: " e))
       | Ok snap =>
           match ListChunks (g_TenantID req) with
           | Err e => ethrow (ShardError (str_app "shard: list chunks: " e))
           | Ok candidates =>
               let ids := eligibleIDs snap (g_PrivacyMode req) candidates in
               let@ prev := LatestVersion (scope_of req) in
               let@ m := publish req ids (wrap64 (prev + 1)) in
               eret (m, ids)
           end
       end.

(** ** Facts about the tables *)

(** What the keys of the table and its columns guarantee. *)
Record wf (t : Tables) : Prop := {
  wf_ids : map_Forall (λ id m, ID m = id) (manifests t);
  wf_versions : map_Forall (λ _ m, (0 < ShardVersion m ≤ int64_max)%Z) (manifests t);
  wf_unique : ∀ a b, a ∈ rows_of t → b ∈ rows_of t → same_key a b = true → a = b
}.

Lemma elem_of_rows m t : m ∈ rows_of t ↔ ∃ id, manifests t !! id = Some m.
Proof.
  unfold rows_of. rewrite list_elem_of_fmap. split.
  - intros ([id x] & -> & Hx%elem_of_map_to_list). by exists id.
  - intros [id Hid]. exists (id, m). by rewrite elem_of_map_to_list.
Qed.

Lemma rows_wf m t : wf t → m ∈ rows_of t ↔ manifests t !! ID m = Some m.
Proof.
  intros Hw. rewrite elem_of_rows. split; [|by eexists].
  intros [id Hid]. by rewrite (wf_ids t Hw _ _ Hid).
Qed.

Lemma exact_or_empty_eq want have : exact_or_empty want have = true ↔ have = want.
Proof.
  unfold exact_or_empty. destruct (str_empty want) eqn:E.
  - apply str_empty_true in E as ->. apply str_empty_true.
  - apply str_eqb_eq.
Qed.

(** The scope of a filter is an exact match of its four columns. *)
Lemma in_scope_eq f m :
  in_scope f m = true ↔
  TenantID m = f_TenantID f ∧ PrivacyMode m = f_PrivacyMode f ∧ UserID m = f_UserID f ∧ ChannelID m = f_ChannelID f.
Proof. unfold in_scope. rewrite !andb_true_iff, !str_eqb_eq, !exact_or_empty_eq. tauto. Qed.

Lemma same_key_scope f a b :
  in_scope f a = true → in_scope f b = true → ShardVersion a = ShardVersion b → same_key a b = true.
Proof.
  rewrite !in_scope_eq. intros (A1 & A2 & A3 & A4) (B1 & B2 & B3 & B4) E.
  unfold same_key. by rewrite A1, A2, A3, A4, B1, B2, B3, B4, E, !str_eqb_refl, Z.eqb_refl.
Qed.

Lemma max_version_ge m ms : m ∈ ms → (ShardVersion m ≤ max_version ms)%Z.
Proof.
  destruct ms as [|x rest]; [by intros ?%not_elem_of_nil|]. simpl.
  intros [->|Hm]%elem_of_cons.
  - induction rest as [|y rest IH]; simpl; lia.
  - induction rest as [|y rest IH]; simpl; [by apply not_elem_of_nil in Hm|].
    apply elem_of_cons in Hm as [->|Hm]; [lia|]. specialize (IH Hm). lia.
Qed.

Lemma max_version_in ms : ms = [] ∧ max_version ms = 0%Z ∨ ∃ m, m ∈ ms ∧ ShardVersion m = max_version ms.
Proof.
  destruct ms as [|x rest]; [by left|right]. simpl. induction rest as [|y rest IH]; simpl.
  { exists x. split; [by left|done]. }
  destruct IH as (m & Hm & E).
  destruct (Z.max_spec (ShardVersion y) (foldr (λ x, Z.max (ShardVersion x)) (ShardVersion x) rest)) as [[_ ->]|[_ ->]].
  - exists m. split; [|done]. apply elem_of_cons in Hm as [->|Hm]; [by left|right; by right].
  - exists y. split; [right; by left|done].
Qed.

Lemma latest_ge f t m : m ∈ rows_of t → in_scope f m = true → (ShardVersion m ≤ latest_of f t)%Z.
Proof. intros Hm Hs. apply max_version_ge, elem_of_filterb. done. Qed.

Lemma latest_in f t :
  (∀ m, m ∈ rows_of t → in_scope f m = false) ∧ latest_of f t = 0%Z
  ∨ ∃ m, m ∈ rows_of t ∧ in_scope f m = true ∧ ShardVersion m = latest_of f t.
Proof.
  unfold latest_of. destruct (max_version_in (List.filter (in_scope f) (rows_of t))) as [[E ->]|(m & Hm & E)].
  - left. split; [|done]. intros m Hm. destruct (in_scope f m) eqn:Hs; [|done].
    assert (Hin : m ∈ List.filter (in_scope f) (rows_of t)) by by apply elem_of_filterb.
    rewrite E in Hin. by apply not_elem_of_nil in Hin.
  - right. apply elem_of_filterb in Hm as [??]. by exists m.
Qed.

(** The first row by id of a condition that at most one row meets. *)
Lemma first_row_unique P t m :
  m ∈ rows_of t → P m = true → (∀ x, x ∈ rows_of t → P x = true → x = m) → first_row P t = Some m.
Proof.
  intros Hm HP Hu. unfold first_row.
  assert (Hin : m ∈ sort_by by_id (List.filter P (rows_of t))) by by apply elem_of_sort_by, elem_of_filterb.
  assert (Hall : ∀ x, x ∈ sort_by by_id (List.filter P (rows_of t)) → x = m).
  { intros x. rewrite elem_of_sort_by, elem_of_filterb. intros [??]. by apply Hu. }
  destruct (sort_by by_id (List.filter P (rows_of t))) as [|x l]; [by apply not_elem_of_nil in Hin|].
  simpl. f_equal. apply Hall. by left.
Qed.

Lemma first_row_in P t m : first_row P t = Some m → m ∈ rows_of t ∧ P m = true.
Proof.
  unfold first_row. intros Hh. assert (Hin : m ∈ sort_by by_id (List.filter P (rows_of t))).
  { destruct (sort_by by_id (List.filter P (rows_of t))); [done|]. injection Hh as ->. by left. }
  rewrite elem_of_sort_by, elem_of_filterb in Hin. tauto.
Qed.

Lemma at_version_row f v t m :
  wf t → m ∈ rows_of t → in_scope f m = true → ShardVersion m = v → first_row (at_version f v) t = Some m.
Proof.
  intros Hw Hm Hs Hv. unfold at_version. apply first_row_unique; [done| |].
  - by rewrite Hs, Hv, Z.eqb_refl.
  - intros x Hx [Hxs Hxv%Z.eqb_eq]%andb_true_iff. apply (wf_unique t Hw); [done..|].
    apply (same_key_scope f); congruence.
Qed.

(** ** Chunk rows *)

Lemma add_rows_lookup tenantID shardID ids rows rows' :
  add_rows tenantID shardID ids rows = Some rows' →
  NoDup ids ∧
  (∀ k, rows' !! k = if bool_decide (k.1 = shardID ∧ k.2 ∈ ids) then Some tenantID else rows !! k) ∧
  (∀ id, id ∈ ids → rows !! (shardID, id) = None).
Proof.
  revert rows. induction ids as [|id ids IH]; intros rows; simpl.
  { intros [= ->]. split_and!; [constructor| |by intros ??%not_elem_of_nil].
    intros k. rewrite bool_decide_eq_false_2; [done|]. by intros [_ ?%not_elem_of_nil]. }
  destruct (rows !! (shardID, id)) eqn:E; [done|]. intros (Hn & Hl & Hf)%IH.
  assert (Hid : id ∉ ids).
  { intros Hin. specialize (Hf id Hin). by rewrite lookup_insert_eq in Hf. }
  split_and!; [by constructor| |].
  - intros k. rewrite Hl. destruct (decide (k = (shardID, id))) as [->|Hne]; simpl.
    + rewrite bool_decide_eq_false_2 by (by intros [_ ?]). rewrite lookup_insert_eq.
      by rewrite bool_decide_eq_true_2 by (split; [done|by left]).
    + rewrite lookup_insert_ne by done.
      rewrite (bool_decide_ext (k.1 = shardID ∧ k.2 ∈ id :: ids) (k.1 = shardID ∧ k.2 ∈ ids)); [done|].
      destruct k as [a b]; simpl in *. rewrite elem_of_cons. naive_solver.
  - intros x [->|Hx]%elem_of_cons; [done|]. specialize (Hf x Hx).
    rewrite lookup_insert_ne in Hf; [done|]. intros [= ->]. done.
Qed.

Lemma keeps_false tenantID shardID kv : keeps tenantID shardID kv = false ↔ kv.2 = tenantID ∧ kv.1.1 = shardID.
Proof. unfold keeps. by rewrite negb_false_iff, andb_true_iff, !str_eqb_eq. Qed.

Lemma cleared_lookup tenantID shardID rows k :
  cleared tenantID shardID rows !! k =
  if bool_decide (rows !! k = Some tenantID ∧ k.1 = shardID) then None else rows !! k.
Proof.
  unfold cleared. apply option_eq. intros v. rewrite map_lookup_filter_Some. case_bool_decide as Hb.
  - split; [|done]. intros [Hv Hk]. destruct Hb as [Hv' Hk']. rewrite Hv in Hv'. injection Hv' as ->.
    pose proof (proj2 (keeps_false tenantID shardID (k, tenantID)) (conj eq_refl Hk')). congruence.
  - split; [by intros []|]. intros Hv. split; [done|]. destruct (keeps tenantID shardID (k, v)) eqn:E; [done|].
    apply keeps_false in E as [E ?]. simpl in E. subst v. by destruct Hb.
Qed.

Lemma elem_of_shard_ids tenantID shardID t c :
  c ∈ shard_ids tenantID shardID t ↔ chunk_rows t !! (shardID, c) = Some tenantID.
Proof.
  unfold shard_ids. rewrite elem_of_sort_by, list_elem_of_fmap. split.
  - intros ([[a b] v] & -> & Hx%elem_of_map_to_list). simpl.
    apply map_lookup_filter_Some in Hx as [Hx [E1 E2]%keeps_false]. simpl in *. by subst.
  - intros Hc. exists ((shardID, c), tenantID). split; [done|]. apply elem_of_map_to_list, map_lookup_filter_Some.
    split; [done|]. by apply keeps_false.
Qed.

Lemma shard_ids_NoDup tenantID shardID t : NoDup (shard_ids tenantID shardID t).
Proof.
  unfold shard_ids. rewrite sort_by_perm. apply NoDup_fmap_2_strong; [|apply NoDup_map_to_list].
  intros [[a b] v] [[a' b'] v'] H1%elem_of_map_to_list H2%elem_of_map_to_list. simpl. intros ->.
  apply map_lookup_filter_Some in H1 as [_ [E1 E2]%keeps_false].
  apply map_lookup_filter_Some in H2 as [_ [E3 E4]%keeps_false]. simpl in *. by subst.
Qed.

(** The sorted chunk ids are determined by the rows. *)
Lemma shard_ids_spec tenantID shardID t ids :
  NoDup ids → (∀ c, chunk_rows t !! (shardID, c) = Some tenantID ↔ c ∈ ids) →
  shard_ids tenantID shardID t = sort_by str_ltb ids.
Proof.
  intros Hn Hin. rewrite <- (sort_by_unique str_ltb (shard_ids tenantID shardID t) ids).
  - unfold shard_ids at 1.
    apply sort_by_unique; [apply str_ltb_weak_order|intros ?? _ _; apply str_ltb_total|].
    unfold shard_ids. by rewrite sort_by_perm.
  - apply str_ltb_weak_order.
  - intros ?? _ _. apply str_ltb_total.
  - apply NoDup_Permutation; [apply shard_ids_NoDup|done|]. intros c. by rewrite elem_of_shard_ids.
Qed.

Lemma sort_strings_idem (ids : list string) : sort_by str_ltb (sort_by str_ltb ids) = sort_by str_ltb ids.
Proof.
  apply sort_by_unique; [apply str_ltb_weak_order|intros ?? _ _; apply str_ltb_total|apply sort_by_perm].
Qed.

Lemma shard_ids_ext tenantID shardID t t' :
  (∀ c, chunk_rows t !! (shardID, c) = chunk_rows t' !! (shardID, c)) →
  shard_ids tenantID shardID t = shard_ids tenantID shardID t'.
Proof.
  intros He. rewrite (shard_ids_spec _ _ t (shard_ids tenantID shardID t')); [|apply shard_ids_NoDup|].
  - apply sort_strings_idem.
  - intros c. by rewrite elem_of_shard_ids, He.
Qed.

(** Replacing the chunk rows of a shard. *)
Lemma replaced_ids tenantID shardID ids t rows :
  add_rows tenantID shardID ids (cleared tenantID shardID (chunk_rows t)) = Some rows →
  let t' := on_chunk_rows (λ _, rows) t in
  shard_ids tenantID shardID t' = sort_by str_ltb ids ∧
  ∀ tenantID' shardID', shardID' ≠ shardID → shard_ids tenantID' shardID' t' = shard_ids tenantID' shardID' t.
Proof.
  intros (Hn & Hl & _)%add_rows_lookup t'. split.
  - apply shard_ids_spec; [done|]. intros c. simpl. rewrite Hl. simpl. case_bool_decide as Hb; [naive_solver|].
    rewrite cleared_lookup. simpl. case_bool_decide as Hc; [naive_solver|]. naive_solver.
  - intros tn sh Hne. apply shard_ids_ext. intros c. simpl. rewrite Hl, cleared_lookup. simpl.
    rewrite !bool_decide_eq_false_2 by naive_solver. done.
Qed.

(** ** The invariant *)

(** A published manifest records how many chunks its shard has. *)
Definition counted (t : Tables) (m : ShardManifest) : Prop :=
  Status m = ShardStatusReady ∨ Status m = ShardStatusSuperseded →
  ChunksCount m = Z.of_nat (length (shard_ids (TenantID m) (ID m) t)).

Definition consistent (t : Tables) : Prop := wf t ∧ ∀ m, m ∈ rows_of t → counted t m.

Lemma elem_of_update P f ms t m :
  m ∈ rows_of (on_manifests (λ _, update_rows P f ms) t) ↔
  ∃ x, (∃ id, ms !! id = Some x) ∧ m = if P x then f x else x.
Proof.
  rewrite elem_of_rows. simpl. unfold update_rows. split.
  - intros [id Hid]. rewrite lookup_fmap in Hid. destruct (ms !! id) as [x|] eqn:E; [|done].
    injection Hid as <-. exists x. eauto.
  - intros (x & [id Hid] & ->). exists id. by rewrite lookup_fmap, Hid.
Qed.

(** A change of status, count and time stamp only. *)
Definition restatus (f : ShardManifest → ShardManifest) : Prop := ∀ m, ∃ s c u, f m = set_status s c u m.

Lemma update_wf P f t : restatus f → wf t → wf (on_manifests (update_rows P f) t).
Proof.
  intros Hf Hw. assert (Hg : ∀ x, ∃ s c u, (if P x then f x else x) = set_status s c u x).
  { intros x. destruct (P x); [apply Hf|]. exists (Status x), (ChunksCount x), (UpdatedAt x). by destruct x. }
  constructor.
  - intros id m Hm. simpl in Hm. unfold update_rows in Hm. rewrite lookup_fmap in Hm.
    destruct (manifests t !! id) as [x|] eqn:E; [|done]. injection Hm as <-.
    destruct (Hg x) as (s & c & u & ->). by apply (wf_ids t Hw) in E.
  - intros id m Hm. simpl in Hm. unfold update_rows in Hm. rewrite lookup_fmap in Hm.
    destruct (manifests t !! id) as [x|] eqn:E; [|done]. injection Hm as <-.
    destruct (Hg x) as (s & c & u & ->). by apply (wf_versions t Hw) in E.
  - intros a b (x & [i Hx] & ->)%elem_of_update (y & [j Hy] & ->)%elem_of_update.
    destruct (Hg x) as (s & c & u & Ex). destruct (Hg y) as (s' & c' & u' & Ey).
    rewrite Ex, Ey. intros Hk. assert (x = y) as <-.
    { apply (wf_unique t Hw); [apply elem_of_rows; by eexists..|]. done. }
    congruence.
Qed.

Lemma insert_wf m t :
  wf t → taken m t = false → (0 < ShardVersion m ≤ int64_max)%Z → wf (on_manifests (insert (ID m) m) t).
Proof.
  intros Hw Ht Hv. unfold taken in Ht. apply orb_false_iff in Ht as [Hf Hk].
  apply bool_decide_eq_false in Hf. rewrite <- eq_None_not_Some in Hf.
  assert (Hnk : ∀ x, x ∈ rows_of t → same_key m x = false).
  { intros x Hx. destruct (same_key m x) eqn:E; [|done].
    assert (existsb (same_key m) (rows_of t) = true) by (apply existsb_elem; eauto). congruence. }
  assert (Hsym : ∀ x y, same_key x y = same_key y x).
  { intros x y. unfold same_key. rewrite Z.eqb_sym. unfold str_eqb.
    repeat (f_equal; try (apply bool_decide_ext; naive_solver)). }
  assert (Hin : ∀ x, x ∈ rows_of (on_manifests (insert (ID m) m) t) ↔ x = m ∨ x ∈ rows_of t).
  { intros x. rewrite !elem_of_rows. simpl. split.
    - intros [id [[_ ->]|[_ Hid]]%lookup_insert_Some]; [by left|right; by exists id].
    - intros [->|[id Hid]]; [exists (ID m); by rewrite lookup_insert_eq|].
      exists id. rewrite lookup_insert_ne; [done|congruence]. }
  constructor.
  - simpl. apply map_Forall_insert_2; [done|apply (wf_ids t Hw)].
  - simpl. apply map_Forall_insert_2; [done|apply (wf_versions t Hw)].
  - intros a b [->|Ha]%Hin [->|Hb]%Hin Hab; [done| | |by apply (wf_unique t Hw)].
    + rewrite Hnk in Hab; done.
    + rewrite Hsym, Hnk in Hab; done.
Qed.

(** ** A successful generation, step by step *)

Lemma Create_Ok m w w' :
  Create m w = (Ok tt, w') →
  ∃ m', Validate (stamped (calls_made w) m) = Ok m' ∧ taken m' (store w) = false ∧
        store w' = on_manifests (insert (ID m') m') (store w).
Proof.
  unfold Create. destruct (str_empty (TenantID m)); [done|].
  destruct (Validate (stamped (calls_made w) m)) as [m'|e]; [|done].
  intros (ok & w1 & Hc & Hk)%ebind_Ok. apply ecall_Ok in Hc as (-> & Es & _).
  destruct (taken m' (store w)) eqn:Et; simpl in *; [done|]. injection Hk as <-. by exists m'.
Qed.

Lemma SetChunkIDs_Ok tenantID shardID ids w w' :
  SetChunkIDs tenantID shardID ids w = (Ok tt, w') →
  ∃ rows, add_rows tenantID shardID ids (cleared tenantID shardID (chunk_rows (store w))) = Some rows ∧
          store w' = on_chunk_rows (λ _, rows) (store w).
Proof.
  unfold SetChunkIDs. destruct (str_empty tenantID); [done|].
  intros (ok & w1 & Hc & Hk)%ebind_Ok. apply ecall_Ok in Hc as (-> & Es & _).
  destruct (add_rows tenantID shardID ids _) as [rows|] eqn:E; simpl in *; [|done].
  injection Hk as <-. by exists rows.
Qed.

Lemma update_one_Ok err tenantID shardID f w w' :
  update_one err tenantID shardID f w = (Ok tt, w') →
  store w' = on_manifests (update_rows (λ m, owned tenantID m && str_eqb (ID m) shardID) (f (clock (calls_made w) 0))) (store w).
Proof.
  unfold update_one. destruct (str_empty tenantID); [done|].
  intros (ok & w1 & Hc & Hk)%ebind_Ok. apply ecall_Ok in Hc as (-> & Es & _). simpl in *.
  destruct (existsb _ _); [|done]. by injection Hk as <-.
Qed.

Lemma MarkSuperseded_Ok f version w w' :
  MarkSuperseded f version w = (Ok tt, w') →
  store w' = on_manifests (update_rows (outdated f version)
    (λ m, set_status ShardStatusSuperseded (ChunksCount m) (clock (calls_made w) 0) m)) (store w).
Proof. unfold MarkSuperseded. destruct (str_empty (f_TenantID f)); [done|]. apply ewrite_Ok. Qed.

Lemma Validate_Ok m m' :
  Validate m = Ok m' → str_empty (Status m) = false →
  m' = m ∧ ID m ≠ EmptyString ∧ (0 < ShardVersion m)%Z.
Proof.
  unfold Validate. intros Hv Hs. destruct (str_empty (ID m)) eqn:E1; [done|]. apply str_empty_false in E1.
  destruct (str_empty (TenantID m)); [done|]. destruct (str_empty (PrivacyMode m)); [done|].
  destruct (Z.leb_spec (ShardVersion m) 0); [done|]. rewrite Hs in Hv.
  case_bool_decide; [|done]. by injection Hv as <-.
Qed.

(** The tables after a successful publication of [m]. *)
Record published (f : ScopeFilter) (ids : list string) (m : ShardManifest) (t t' : Tables) : Prop := {
  pub_fresh : taken m t = false;
  pub_manifests : ∃ now1 now2,
    manifests t' = update_rows (outdated f (ShardVersion m)) (λ x, set_status ShardStatusSuperseded (ChunksCount x) now2 x)
      (update_rows (λ x, owned (TenantID m) x && str_eqb (ID x) (ID m))
         (set_status ShardStatusReady (Z.of_nat (length ids)) now1)
         (<[ID m := set_status ShardStatusPending (ChunksCount m) (UpdatedAt m) m]> (manifests t)));
  pub_rows : ∃ rows, add_rows (TenantID m) (ID m) ids (cleared (TenantID m) (ID m) (chunk_rows t)) = Some rows ∧
    chunk_rows t' = rows
}.

Lemma publish_Ok req ids version w m w' :
  publish req ids version w = (Ok m, w') →
  TenantID m = g_TenantID req ∧ in_scope (scope_of req) m = true ∧ ShardVersion m = version ∧
  (0 < version)%Z ∧ Status m = ShardStatusReady ∧ ChunksCount m = Z.of_nat (length ids) ∧
  published (scope_of req) ids m (store w) (store w').
Proof.
  unfold publish. set (m0 := new_manifest _ _ _ _).
  intros ([] & w1 & Hc & H1)%ebind_Ok. apply emap_Ok in Hc. apply Create_Ok in Hc as (m1 & Hv & Ht & E1).
  apply Validate_Ok in Hv as (-> & Hid & Hpos); [|done].
  apply ebind_Ok in H1 as ([] & w2 & Hp & H2). unfold persist_ids in Hp.
  destruct (SetChunkIDs (g_TenantID req) (ID m0) ids w1) as [[[]|e] w2'] eqn:Hset; [|done]. injection Hp as ->.
  apply SetChunkIDs_Ok in Hset as (rows & Hadd & E2).
  apply ebind_Ok in H2 as ([] & w3 & Hr & H3). apply update_one_Ok in Hr.
  apply ebind_Ok in H3 as ([] & w4 & Hsup & H4). apply MarkSuperseded_Ok in Hsup.
  injection H4 as <- <-. rewrite E1 in E2, Hadd. rewrite E2 in Hr. rewrite Hr in Hsup.
  assert (Hsc : in_scope (scope_of req) (stamped (calls_made w) m0) = true) by by apply in_scope_eq.
  split_and!; try done.
  constructor; [done| |].
  - exists (clock (calls_made w2) 0), (clock (calls_made w3) 0). rewrite Hsup. unfold stamped, m0. simpl.
    by destruct (str_empty (ulid (calls_made w))).
  - exists rows. rewrite Hsup. revert Hadd. unfold stamped, m0. simpl.
    by destruct (str_empty (ulid (calls_made w))).
Qed.

Lemma published_rows f ids m t t' :
  wf t → in_scope f m = true → published f ids m t t' →
  (∃ now, manifests t' !! ID m = Some (set_status ShardStatusReady (Z.of_nat (length ids)) now m)) ∧
  ∃ now, ∀ id, id ≠ ID m → manifests t' !! id =
    (λ x, if outdated f (ShardVersion m) x then set_status ShardStatusSuperseded (ChunksCount x) now x else x)
    <$> manifests t !! id.
Proof.
  intros Hw Hs [Ht (n1 & n2 & ->) _]. unfold update_rows. split.
  - exists n1. rewrite !lookup_fmap, lookup_insert_eq. simpl. unfold owned, outdated. simpl.
    rewrite !str_eqb_refl. simpl. by rewrite Z.ltb_irrefl, andb_false_r.
  - exists n2. intros id Hne. rewrite !lookup_fmap, lookup_insert_ne by done.
    destruct (manifests t !! id) as [x|] eqn:E; simpl; [|done].
    assert (str_eqb (ID x) (ID m) = false) as ->.
    { apply str_eqb_neq. by rewrite (wf_ids t Hw _ _ E). }
    by rewrite andb_false_r.
Qed.

Lemma latest_range f t : wf t → (0 ≤ latest_of f t ≤ int64_max)%Z.
Proof.
  intros Hw. destruct (latest_in f t) as [[_ ->]|(x & Hx & _ & <-)]; [done|].
  apply elem_of_rows in Hx as [id Hid]. pose proof (wf_versions _ Hw _ _ Hid). simpl in *. lia.
Qed.

(** The next version does not wrap around when it is valid. *)
Lemma next_version f t : wf t → (0 < wrap64 (latest_of f t + 1))%Z → wrap64 (latest_of f t + 1) = (latest_of f t + 1)%Z.
Proof.
  intros Hw Hpos. pose proof (latest_range f t Hw). apply wrap64_id. unfold in_int64.
  destruct (decide (latest_of f t = int64_max)) as [E|]; [|unfold int64_min; lia].
  rewrite E in Hpos. by vm_compute in Hpos.
Qed.

Section Published.
Context (f : ScopeFilter) (ids : list string) (m : ShardManifest) (t t' : Tables).
Context (Hw : wf t) (Hs : in_scope f m = true) (Hpub : published f ids m t t').

Lemma published_elem : ∃ now1 now2, ∀ x, x ∈ rows_of t' ↔
  x = set_status ShardStatusReady (Z.of_nat (length ids)) now1 m ∨
  ∃ id y, id ≠ ID m ∧ manifests t !! id = Some y ∧
    x = if outdated f (ShardVersion m) y then set_status ShardStatusSuperseded (ChunksCount y) now2 y else y.
Proof.
  destruct (published_rows _ _ _ _ _ Hw Hs Hpub) as [[now1 Hm] [now2 Ho]]. exists now1, now2.
  intros x. rewrite elem_of_rows. split.
  - intros [id Hid]. destruct (decide (id = ID m)) as [->|Hne]; [left; congruence|right].
    rewrite Ho in Hid by done. destruct (manifests t !! id) as [y|] eqn:E; [|done].
    injection Hid as <-. by exists id, y.
  - intros [->|(id & y & Hne & Hy & ->)]; [by exists (ID m)|]. exists id. by rewrite Ho, Hy.
Qed.

Lemma published_chunks :
  shard_ids (TenantID m) (ID m) t' = sort_by str_ltb ids ∧ NoDup ids ∧
  (∀ k, k.1 ≠ ID m → chunk_rows t' !! k = chunk_rows t !! k).
Proof.
  destruct Hpub as [_ _ (rows & Hadd & Hrows)].
  destruct (replaced_ids _ _ _ _ _ Hadd) as [Hids _]. destruct (add_rows_lookup _ _ _ _ _ Hadd) as (Hnd & Hlk & _).
  split_and!; [|done|].
  - rewrite <- Hids. apply shard_ids_ext. intros c. simpl. by rewrite Hrows.
  - intros k Hk. rewrite Hrows, Hlk, cleared_lookup. rewrite !bool_decide_eq_false_2 by naive_solver. done.
Qed.

Lemma published_others x : in_scope f x = false → x ∈ rows_of t' ↔ x ∈ rows_of t.
Proof.
  destruct published_elem as (now1 & now2 & Hnew). intros Hx. rewrite Hnew, elem_of_rows.
  assert (Hid : manifests t !! ID m = None).
  { destruct Hpub as [Hfresh _ _]. unfold taken in Hfresh.
    apply orb_false_iff in Hfresh as [H1%bool_decide_eq_false _]. by apply eq_None_not_Some. }
  assert (Hsame : ∀ y s c n, in_scope f (set_status s c n y) = in_scope f y) by done. split.
  - intros [->|(id & y & Hne & Hy & ->)]; [by rewrite Hsame, Hs in Hx|].
    destruct (outdated f (ShardVersion m) y) eqn:Eo; [|by exists id].
    rewrite Hsame in Hx. unfold outdated in Eo. by rewrite Hx in Eo.
  - intros [id Hidx]. right. exists id, x. split_and!; [congruence|done|]. unfold outdated. by rewrite Hx.
Qed.

Context (Hver : ShardVersion m = (latest_of f t + 1)%Z).

Lemma published_latest : latest_of f t' = ShardVersion m.
Proof.
  destruct published_elem as (now1 & now2 & Hnew). pose proof (latest_range f t Hw). apply Z.le_antisymm.
  - destruct (latest_in f t') as [[_ ->]|(x & Hx & Hsx & <-)]; [lia|].
    apply Hnew in Hx as [->|(id & y & Hne & Hy & ->)]; [done|].
    assert (Hy2 : y ∈ rows_of t) by (apply elem_of_rows; by eexists).
    destruct (outdated f (ShardVersion m) y); simpl; pose proof (latest_ge f _ y Hy2 Hsx); lia.
  - change (ShardVersion m) with (ShardVersion (set_status ShardStatusReady (Z.of_nat (length ids)) now1 m)).
    apply latest_ge; [|done]. apply Hnew. by left.
Qed.

Lemma published_ready x :
  x ∈ rows_of t' → in_scope f x = true → Status x = ShardStatusReady ↔ ID x = ID m.
Proof.
  destruct published_elem as (now1 & now2 & Hnew). intros Hx Hsx. split.
  - apply Hnew in Hx as [->|(id & y & Hne & Hy & ->)]; [done|]. intros Hr.
    assert (Hy2 : y ∈ rows_of t) by (apply elem_of_rows; by eexists).
    destruct (outdated f (ShardVersion m) y) eqn:Eo; [done|]. exfalso.
    unfold outdated in Eo. rewrite Hsx, Hr, str_eqb_refl in Eo. simpl in Eo. rewrite andb_true_r in Eo.
    apply Z.ltb_ge in Eo. pose proof (latest_ge f _ y Hy2 Hsx). lia.
  - intros E. apply Hnew in Hx as [->|(id & y & Hne & Hy & ->)]; [done|]. exfalso. apply Hne.
    rewrite <- E, <- (wf_ids _ Hw _ _ Hy). by destruct (outdated f (ShardVersion m) y).
Qed.
End Published.

(** C10: a generation that succeeds publishes, as the next version of its scope,
    exactly the chunks that the privacy mode, the access list and the chunk rules
    admit, in order; it becomes the newest and the only ready version of the scope,
    and the rows and chunks of every other shard scope stay as they were. *)
Theorem Generate_publishes req w m ids w' :
  wf (store w) → Generate req w = (Ok (m, ids), w') →
  let f := scope_of req in
  (∃ snap candidates, Resolve (g_TenantID req) (g_ChannelID req) = Ok snap ∧
     ListChunks (g_TenantID req) = Ok candidates ∧
     ids = sort_by str_ltb (sc_ChunkID <$> List.filter (eligible snap (g_PrivacyMode req)) candidates)) ∧
  ShardVersion m = (latest_of f (store w) + 1)%Z ∧ latest_of f (store w') = ShardVersion m ∧
  shard_ids (TenantID m) (ID m) (store w') = ids ∧ NoDup ids ∧
  (∀ x, x ∈ rows_of (store w') → in_scope f x = true → Status x = ShardStatusReady ↔ ID x = ID m) ∧
  (∀ x, in_scope f x = false → x ∈ rows_of (store w') ↔ x ∈ rows_of (store w)) ∧
  (∀ k, k.1 ≠ ID m → chunk_rows (store w') !! k = chunk_rows (store w) !! k).
Proof.
  intros Hw Hgen f. unfold Generate in Hgen.
  destruct (str_empty (g_TenantID req)); [done|]. destruct (str_empty (g_PrivacyMode req)); [done|].
  destruct (Resolve _ _) as [snap|e] eqn:ER; [|done]. destruct (ListChunks _) as [cands|e] eqn:EL; [|done].
  apply ebind_Ok in Hgen as (prev & w1 & Hl & Hgen). unfold LatestVersion in Hl.
  destruct (str_empty (f_TenantID (scope_of req))); [done|]. apply eread_Ok in Hl as [-> Es].
  apply ebind_Ok in Hgen as (m' & w2 & Hp & [= -> <- ->]).
  apply publish_Ok in Hp as (Ht & Hs & Hv & Hpos & Hst & Hc & Hpub). rewrite Es in Hpub. fold f in Hpos, Hs, Hv, Hpub.
  assert (Hver : ShardVersion m = (latest_of f (store w) + 1)%Z) by (rewrite Hv; by apply next_version).
  destruct (published_chunks _ _ _ _ _ Hpub) as (Hids & Hnd & Hk). split_and!; [by exists snap, cands|done| | |done| | |done].
  - by apply (published_latest _ _ _ _ _ Hw Hs Hpub).
  - rewrite Hids. apply sort_strings_idem.
  - by apply (published_ready _ _ _ _ _ Hw Hs Hpub).
  - intros x. apply (published_others _ _ _ _ _ Hw Hs Hpub).
Qed.

(** ** Generation keeps the tables consistent, whatever fails *)

Lemma update_consistent P f t :
  restatus f → consistent t →
  (∀ x, x ∈ rows_of t → P x = true → counted t (f x)) → consistent (on_manifests (update_rows P f) t).
Proof.
  intros Hf [Hw Hc] HP. split; [by apply update_wf|].
  intros m (x & Hx & ->)%elem_of_update.
  assert (Hin : x ∈ rows_of t) by by apply elem_of_rows.
  destruct (P x) eqn:E; [by apply HP|by apply Hc].
Qed.

(** Marking a manifest failed or superseded asks nothing of its chunks. *)
Lemma update_one_consistent err tenantID shardID f :
  (∀ now, restatus (f now)) →
  (∀ t now x, consistent t → x ∈ rows_of t → owned tenantID x && str_eqb (ID x) shardID = true → counted t (f now x)) →
  triple consistent (update_one err tenantID shardID f) (λ _, consistent) consistent.
Proof.
  intros Hf Hc. unfold update_one. destruct (str_empty tenantID); [by apply triple_throw|].
  intros w Hw.
  apply (triple_bind consistent _ _ (λ _, consistent) (λ _, consistent) consistent); [|by intros []; apply triple_ret || apply triple_throw|done].
  apply triple_call. intros t Ht. simpl.
  assert (Hu : consistent (on_manifests (update_rows (λ m, owned tenantID m && str_eqb (ID m) shardID) (f (clock (calls_made w) 0))) t)).
  { apply update_consistent; [apply Hf|done|]. intros x Hx HP. by apply Hc. }
  done.
Qed.

Lemma MarkFailed_consistent tenantID shardID :
  triple consistent (MarkFailed tenantID shardID) (λ _, consistent) consistent.
Proof.
  apply update_one_consistent.
  - intros now m. by eexists _, _, _.
  - intros t now x _ _ _ [|]; done.
Qed.

Lemma MarkSuperseded_consistent f version :
  triple consistent (MarkSuperseded f version) (λ _, consistent) consistent.
Proof.
  unfold MarkSuperseded. destruct (str_empty (f_TenantID f)); [by apply triple_throw|]. intros w Hw.
  apply (triple_write consistent); [|done]. intros t Ht.
  assert (Hu : consistent (on_manifests (update_rows (outdated f version)
    (λ m, set_status ShardStatusSuperseded (ChunksCount m) (clock (calls_made w) 0) m)) t)).
  { apply update_consistent; [|done|].
    - intros m. by eexists _, _, _.
    - intros x Hx [_ Hr%str_eqb_eq]%andb_true_iff _. destruct Ht as [_ Hc]. apply (Hc x Hx). by left. }
  done.
Qed.

(** The new manifest waits for its chunks. *)
Definition pending_row (m : ShardManifest) (t : Tables) : Prop :=
  consistent t ∧ manifests t !! ID m = Some m ∧ Status m = ShardStatusPending.
Definition filled_row (n : nat) (m : ShardManifest) (t : Tables) : Prop :=
  pending_row m t ∧ length (shard_ids (TenantID m) (ID m) t) = n.

Lemma Create_pending m :
  Status m = ShardStatusPending → (ShardVersion m ≤ int64_max)%Z → ID m ≠ EmptyString →
  triple consistent (Create m)
    (λ _ t, ∃ m', pending_row m' t ∧ ID m' = ID m ∧ TenantID m' = TenantID m) consistent.
Proof.
  intros Hst Hver Hid w Hw. unfold Create.
  destruct (str_empty (TenantID m)); [done|].
  destruct (Validate (stamped (calls_made w) m)) as [m'|e] eqn:Hv; [|done].
  apply Validate_Ok in Hv as (-> & _ & Hpos); [|simpl; by rewrite Hst]. set (m' := stamped (calls_made w) m) in *.
  assert (Hid' : ID m' = ID m) by (simpl; by rewrite (proj2 (str_empty_false _) Hid)).
  apply (triple_bind consistent _ _
    (λ ok t, if ok : bool then pending_row m' t else consistent t)
    (λ _ t, ∃ m', pending_row m' t ∧ ID m' = ID m ∧ TenantID m' = TenantID m) consistent).
  - apply triple_call. intros t [Hwf Hc]. destruct (taken m' t) eqn:Et; simpl; [done|].
    assert (Hok : pending_row m' (on_manifests (insert (ID m') m') t)).
    { split_and!; [split|simpl; by rewrite lookup_insert_eq|done]; [by apply insert_wf|].
      intros x [id Hx]%elem_of_rows. simpl in Hx.
      apply lookup_insert_Some in Hx as [[_ <-]|[_ Hx]]; [by intros [H1|H1]; simpl in H1; rewrite Hst in H1|].
      apply Hc, elem_of_rows. by exists id. }
    split; [done|]. split; [done|]. apply Hok.
  - intros []; [|apply triple_throw; done]. apply triple_ret. intros t Ht. by exists m'.
  - done.
Qed.

Lemma SetChunkIDs_fills m ids :
  triple (pending_row m) (SetChunkIDs (TenantID m) (ID m) ids) (λ _, filled_row (length ids) m) consistent.
Proof.
  unfold SetChunkIDs. destruct (str_empty (TenantID m)); [apply triple_throw; by intros ? []|].
  apply (triple_bind _ _ _ (λ ok t, if ok : bool then filled_row (length ids) m t else consistent t)).
  - apply triple_call. intros t (Hc & Hm & Hst).
    destruct (add_rows (TenantID m) (ID m) ids _) as [rows|] eqn:E; simpl; [|done].
    destruct (replaced_ids _ _ _ _ _ E) as [Hids Hoth]. destruct Hc as [Hw Hc].
    assert (Hcons : consistent (on_chunk_rows (λ _, rows) t)).
    { split; [by destruct Hw|]. intros x Hx Hr.
      destruct (decide (ID x = ID m)) as [E1|Hne].
      - change (x ∈ rows_of t) in Hx. apply (rows_wf _ _ Hw) in Hx. rewrite E1, Hm in Hx. injection Hx as <-.
        destruct Hr as [Hr|Hr]; rewrite Hst in Hr; done.
      - rewrite Hoth by done. by apply Hc. }
    split_and!; [|done|done]. split; [by split_and!|]. by rewrite Hids, sort_by_length.
  - intros []; [by apply triple_ret|apply triple_throw; done].
Qed.

Lemma persist_ids_fills m ids :
  triple (pending_row m) (persist_ids (TenantID m) (ID m) ids) (λ _, filled_row (length ids) m) consistent.
Proof.
  intros w Hw. unfold persist_ids. pose proof (SetChunkIDs_fills m ids w Hw) as H1.
  destruct (SetChunkIDs (TenantID m) (ID m) ids w) as [[[]|e] w1]; [done|]. simpl.
  pose proof (MarkFailed_consistent (TenantID m) (ID m) w1 H1) as H2.
  by destruct (MarkFailed (TenantID m) (ID m) w1) as [[[]|e2] w2].
Qed.

Lemma MarkReady_consistent m n :
  triple (filled_row n m) (MarkReady (TenantID m) (ID m) (Z.of_nat n)) (λ _, consistent) consistent.
Proof.
  unfold MarkReady, update_one. destruct (str_empty (TenantID m)); [apply triple_throw; by intros ? [[? _] _]|].
  intros w Hw.
  apply (triple_bind (filled_row n m) _ _ (λ _, consistent) (λ _, consistent) consistent); [|by intros []; apply triple_ret || apply triple_throw|done].
  apply triple_call. intros t [(Hc & Hm & Hst) Hn]. simpl.
  assert (Hu : consistent (on_manifests (update_rows (λ x, owned (TenantID m) x && str_eqb (ID x) (ID m))
    (set_status ShardStatusReady (Z.of_nat n) (clock (calls_made w) 0))) t)).
  { apply update_consistent; [by intros x; eexists _, _, _|done|].
    intros x Hx [Ho%str_eqb_eq Hid%str_eqb_eq]%andb_true_iff _. simpl. by rewrite Ho, Hid, Hn. }
  done.
Qed.

Lemma Generate_keeps req :
  (∀ n, ulid n ≠ EmptyString) →
  triple consistent (Generate req) (λ _, consistent) consistent.
Proof.
  intros Hulid. unfold Generate.
  destruct (str_empty (g_TenantID req)); [by apply triple_throw|].
  destruct (str_empty (g_PrivacyMode req)); [by apply triple_throw|].
  destruct (Resolve _ _) as [snap|e]; [|by apply triple_throw].
  destruct (ListChunks _) as [cands|e]; [|by apply triple_throw].
  set (ids := eligibleIDs snap (g_PrivacyMode req) cands).
  apply (triple_bind _ _ _ (λ _, consistent)).
  { unfold LatestVersion. destruct (str_empty _); [by apply triple_throw|by apply triple_read]. }
  intros prev. apply (triple_bind _ _ _ (λ _, consistent)); [|intros m; by apply triple_ret].
  intros w Hw. unfold publish. set (m0 := new_manifest _ _ _ _).
  revert w Hw m0. intros w Hw m0.
  assert (Hv : (ShardVersion m0 ≤ int64_max)%Z) by apply wrap64_range.
  apply (triple_bind consistent _ _
    (λ _ t, ∃ m', pending_row m' t ∧ ID m' = ID m0 ∧ TenantID m' = TenantID m0) (λ _, consistent) consistent).
  - apply triple_emap, Create_pending; [done|done|apply Hulid].
  - intros [] w1 (m' & Hp & Hid & Ht). change (g_TenantID req) with (TenantID m0). rewrite <- Hid, <- Ht.
    revert w1 Hp. apply (triple_bind _ _ _ (λ _, filled_row (length ids) m')); [apply persist_ids_fills|].
    intros []. apply (triple_bind _ _ _ (λ _, consistent)); [apply MarkReady_consistent|].
    intros []. apply (triple_bind _ _ _ (λ _, consistent)); [apply MarkSuperseded_consistent|].
    intros []. by apply triple_ret.
  - done.
Qed.

(** Whichever database call of a generation fails, with or without effect, the
    tables stay consistent: ids, versions and keys are unique and in range, and every
    published manifest has the count of the chunks stored for it. *)
Theorem Generate_consistent req :
  (∀ n, ulid n ≠ EmptyString) →
  triple consistent (Generate req) (λ _, consistent) consistent.
Proof. apply Generate_keeps. Qed.

Lemma Generate_wf req w :
  (∀ n, ulid n ≠ EmptyString) → consistent (store w) → wf (store (Generate req w).2).
Proof.
  intros Hu Hc. pose proof (Generate_keeps req Hu w Hc) as H1. destruct (Generate req w) as [[a|e] w']; apply H1.
Qed.

(** ** The sync endpoints *)

(** [tenantFromPath]: the tenant or the status of the refusal; [auth] is the tenant of
    the authenticated context. *)
Definition tenantFromPath (path : string) (auth : option string) : result string Z :=
  if str_empty path then Err 400%Z
  else match auth with
       | None => Err 401%Z
       | Some a => if str_empty a || negb (str_eqb a path) then Err 403%Z else Ok path
       end.

Record deltaResponse := {
  From : Z;
  To : Z;
  d_PrivacyMode : string;
  d_Manifest : option ShardManifest;
  Operations : list Delta.DeltaOp;
  IsFullSync : bool
}.

Definition no_ops (since to_ : Z) (mode : string) : deltaResponse :=
  {| From := since; To := to_; d_PrivacyMode := mode; d_Manifest := None; Operations := []; IsFullSync := false |}.

(** The chunks of the client's version, and whether that version is unknown. *)
Definition previous (f : ScopeFilter) (since : Z) : M (list string * bool) := λ w,
  match GetByVersion f since w with
  | (Ok m, w') => (let@ ids := ChunkIDs (f_TenantID f) (ID m) in eret (ids, false)) w'
  | (Err ErrShardNotFound, w') => (Ok ([], true), w')
  | (Err e, w') => (Err e, w')
  end.

(** [delta] after the tenant guard, for a [since] that parsed as an integer. An error
    is a 500 unless it is [BadRequest]. *)
Definition BadRequest (msg : string) : shard_error := ShardError (str_app "400: " msg).

Definition delta (f : ScopeFilter) (since : Z) : M deltaResponse :=
  if (since <? 0)%Z then ethrow (BadRequest "since must be a non-negative integer")
  else if str_empty (f_PrivacyMode f) then ethrow (BadRequest "privacy_mode is required")
  else
    let@ latest := LatestVersion f in
    if (latest =? 0)%Z then eret (no_ops since 0 (f_PrivacyMode f))
    else if (0 <? since)%Z && (latest <=? since)%Z then eret (no_ops since latest (f_PrivacyMode f))
    else
      let@ curr := GetByVersion f latest in
      let@ currChunks := ChunkIDs (f_TenantID f) (ID curr) in
      let@ prev := if (0 <? since)%Z && (since <? latest)%Z then previous f since else eret ([], false) in
      let '(prevChunks, unknown) := prev in
      eret {| From := since; To := latest; d_PrivacyMode := f_PrivacyMode f; d_Manifest := Some curr;
              Operations := Delta.ComputeDelta prevChunks currChunks;
              IsFullSync := (since =? 0)%Z || unknown |}.

(** What a device holds after a response: a full sync starts over. *)
Definition device_after (r : deltaResponse) (held : gset string) : gset string :=
  Delta.apply_ops (Operations r) (if IsFullSync r then ∅ else held).

(** The chunks of a version of a scope. *)
Definition version_chunks (f : ScopeFilter) (version : Z) (t : Tables) : option (list string) :=
  (λ m, shard_ids (f_TenantID f) (ID m) t) <$> first_row (at_version f version) t.

Lemma found_Ok {A} (r : option A) w a w' : found r w = (Ok a, w') → r = Some a ∧ w' = w.
Proof. destruct r; [|done]. by intros [= <- <-]. Qed.

Lemma GetByVersion_Ok f v w m w' :
  GetByVersion f v w = (Ok m, w') → first_row (at_version f v) (store w) = Some m ∧ store w' = store w.
Proof.
  unfold GetByVersion. destruct (str_empty (f_TenantID f)); [done|].
  intros (r & w1 & Hr & Hf)%ebind_Ok. apply eread_Ok in Hr as [-> Es]. by apply found_Ok in Hf as [-> ->].
Qed.

Lemma GetByVersion_missing f v w w' :
  GetByVersion f v w = (Err ErrShardNotFound, w') → first_row (at_version f v) (store w) = None ∧ store w' = store w.
Proof.
  unfold GetByVersion. destruct (str_empty (f_TenantID f)); [done|]. unfold ebind.
  destruct (eread _ _ w) as [[r|e] w1] eqn:Hr.
  - apply eread_Ok in Hr as [-> Es]. destruct (first_row (at_version f v) (store w)); [done|]. by intros [= <-].
  - intros [= -> <-]. unfold eread, ecall in Hr. by destruct (fate (calls_made w)).
Qed.

Lemma ChunkIDs_Ok tenantID shardID w ids w' :
  ChunkIDs tenantID shardID w = (Ok ids, w') → ids = shard_ids tenantID shardID (store w) ∧ store w' = store w.
Proof. unfold ChunkIDs. destruct (str_empty tenantID); [done|]. apply eread_Ok. Qed.

Lemma previous_Ok f since w ids unknown w' :
  previous f since w = (Ok (ids, unknown), w') →
  store w' = store w ∧
  (ids, unknown) = match version_chunks f since (store w) with Some ids => (ids, false) | None => ([], true) end.
Proof.
  unfold previous, version_chunks. destruct (GetByVersion f since w) as [[m|e] w1] eqn:Hg.
  - apply GetByVersion_Ok in Hg as [-> Es]. intros (c & w2 & Hc & [= <- <- <-])%ebind_Ok.
    apply ChunkIDs_Ok in Hc as [-> Es2]. simpl. split; congruence.
  - destruct e; try done. apply GetByVersion_missing in Hg as [-> Es]. by intros [= <- <- <-].
Qed.

(** The response to a request that was not refused. *)
Lemma delta_Ok f since w r w' :
  delta f since w = (Ok r, w') → let t := store w in
  store w' = t ∧ (0 ≤ since)%Z ∧ From r = since ∧ To r = latest_of f t ∧
  (To r = 0%Z ∧ r = no_ops since 0 (f_PrivacyMode f)
   ∨ (0 < since)%Z ∧ (To r ≤ since)%Z ∧ r = no_ops since (To r) (f_PrivacyMode f)
   ∨ (since < To r ∨ since = 0)%Z ∧ ∃ curr, version_chunks f (To r) t = Some curr ∧
     let '(prev, full) := if (0 <? since)%Z && (since <? To r)%Z
                          then match version_chunks f since t with Some ids => (ids, false) | None => ([], true) end
                          else ([], false) in
     Operations r = Delta.ComputeDelta prev curr ∧ IsFullSync r = ((since =? 0)%Z || full)).
Proof.
  intros Hd t. unfold delta in Hd. destruct (Z.ltb_spec since 0); [done|]. destruct (str_empty (f_PrivacyMode f)); [done|].
  apply ebind_Ok in Hd as (latest & w1 & Hl & H1). unfold LatestVersion in Hl. destruct (str_empty (f_TenantID f)); [done|].
  apply eread_Ok in Hl as [-> Es]. fold t in H1, Es |- *.
  destruct (Z.eqb_spec (latest_of f t) 0) as [E0|E0].
  { injection H1 as <- <-. rewrite E0. split_and!; try done. by left. }
  destruct (Z.ltb_spec 0 since), (Z.leb_spec (latest_of f t) since); simpl in H1.
  { injection H1 as <- <-. split_and!; try done. right; left. by split_and!. }
  all: apply ebind_Ok in H1 as (curr & w2 & Hc & H1); apply GetByVersion_Ok in Hc as [Hc E2];
    apply ebind_Ok in H1 as (ids & w3 & Hi & H1); apply ChunkIDs_Ok in Hi as [-> E3];
    apply ebind_Ok in H1 as ([prev full] & w4 & Hp & [= <- <-]); rewrite Es in E2, Hc; rewrite E2 in E3.
  - destruct (Z.ltb_spec since (latest_of f t)) as [Hlt|]; [|lia]. apply previous_Ok in Hp as [E4 Hp]. simpl.
    split_and!; [congruence|done|done|done|]. right; right. split; [by left|].
    exists (shard_ids (f_TenantID f) (ID curr) t). unfold version_chunks at 1. rewrite Hc. split; [simpl; congruence|].
    destruct (Z.ltb_spec since (latest_of f t)); [|lia]. rewrite E3 in Hp.
    destruct (Z.ltb_spec 0 since); [simpl|lia]. rewrite <- Hp. by rewrite E2.
  - injection Hp as <- <- <-. simpl. split_and!; [congruence|done|done|done|]. right; right.
    split; [right; lia|]. exists (shard_ids (f_TenantID f) (ID curr) t). unfold version_chunks. rewrite Hc.
    split; [simpl; congruence|]. by rewrite E2.
  - injection Hp as <- <- <-. simpl. split_and!; [congruence|done|done|done|]. right; right.
    split; [right; lia|]. exists (shard_ids (f_TenantID f) (ID curr) t). unfold version_chunks. rewrite Hc.
    split; [simpl; congruence|]. by rewrite E2.
Qed.

Lemma latest_chunks f t : wf t → latest_of f t ≠ 0%Z → ∃ ids, version_chunks f (latest_of f t) t = Some ids.
Proof.
  intros Hw Hne. destruct (latest_in f t) as [[_ ?]|(m & Hm & Hs & Hv)]; [done|].
  unfold version_chunks. rewrite (at_version_row f _ t m); [|done..]. by eexists.
Qed.

Lemma delta_serves f since held w r w' :
  wf (store w) → delta f since w = (Ok r, w') → To r ≠ 0%Z → (since ≤ To r)%Z →
  (∀ ids, version_chunks f since (store w) = Some ids → held = Delta.id_set ids) →
  ∃ ids, version_chunks f (To r) (store w) = Some ids ∧ device_after r held = Delta.id_set ids.
Proof.
  intros Hw Hd Hto Hle Hheld. apply delta_Ok in Hd as (Es & H0 & Hf & Ht & Hr).
  destruct Hr as [[? _]|[(Hs & Hs2 & ->)|(Hs & curr & Hcurr & Hops)]]; [done| |].
  - simpl in *. assert (since = latest_of f (store w)) as -> by lia.
    destruct (latest_chunks f _ Hw) as [ids Hids]; [lia|]. exists ids. simpl in Ht |- *. split; [congruence|].
    unfold device_after. simpl. by apply Hheld.
  - exists curr. split; [done|]. unfold device_after.
    destruct (Z.ltb_spec 0 since), (Z.ltb_spec since (To r)); simpl in Hops.
    + destruct (version_chunks f since (store w)) as [prev|] eqn:Ep; destruct Hops as [-> ->].
      * rewrite (proj2 (Z.eqb_neq since 0)) by lia. simpl. rewrite (Hheld prev eq_refl).
        apply Delta.ComputeDelta_applies.
      * rewrite orb_true_r. apply (Delta.ComputeDelta_applies [] curr).
    + lia.
    + destruct Hops as [-> ->]. assert (since = 0%Z) as -> by lia. apply (Delta.ComputeDelta_applies [] curr).
    + destruct Hops as [-> ->]. assert (since = 0%Z) as -> by lia. apply (Delta.ComputeDelta_applies [] curr).
Qed.

(** C12: a delta that is answered changes nothing on the server and names the newest
    version. When there is one, a device that names no version (zero), the newest, or an
    older one, known or not, and, if the server knows that version, holds its chunks,
    holds the chunks of the newest version after applying the response. When there is
    no version yet, or the device names one above the newest, it is told to change
    nothing. The manifest table satisfies its keys: ids are primary keys, versions are
    positive 64-bit numbers and unique in their scope. *)
Theorem delta_converges f since held w r w' :
  wf (store w) → delta f since w = (Ok r, w') →
  store w' = store w ∧ To r = latest_of f (store w) ∧
  (To r ≠ 0%Z → (since ≤ To r)%Z →
   (∀ ids, version_chunks f since (store w) = Some ids → held = Delta.id_set ids) →
   ∃ ids, version_chunks f (To r) (store w) = Some ids ∧ device_after r held = Delta.id_set ids) ∧
  (To r = 0%Z ∨ (To r < since)%Z → device_after r held = held).
Proof.
  intros Hw Hd. split_and!; [..|intros Hto Hle; by eapply delta_serves|];
    apply delta_Ok in Hd as (Es & H0 & Hf & Ht & Hr); [done|done|].
  intros Hor. destruct Hr as [[_ ->]|[(_ & _ & ->)|(Hs & curr & Hcurr & _)]]; [done|done|].
  exfalso. unfold version_chunks in Hcurr.
  destruct (first_row (at_version f (To r)) (store w)) as [m|] eqn:Em; [|done].
  apply first_row_in in Em as [Hm Hv]. apply elem_of_rows in Hm as [id Hid].
  pose proof (wf_versions _ Hw id m Hid) as Hpos. simpl in Hpos.
  unfold at_version in Hv. apply andb_true_iff in Hv as [_ Hv%Z.eqb_eq]. lia.
Qed.

(** ** Coverage and the version lookup *)

Record CoverageResponse := {
  c_TenantID : string;
  c_PrivacyMode : string;
  c_ShardVersion : Z;
  ShardChunks : Z;
  CorpusChunks : Z;
  CoverageRatio : float;
  IsAuthoritative : bool;
  c_Reason : string
}.

(** [CorpusChunkCount] on the chunks table. *)
Definition CorpusChunkCount (f : ScopeFilter) (rows : gmap string ChunkStores.Chunk) : Z :=
  Z.of_nat (length (List.filter
    (λ c, str_eqb (ChunkStores.ck_TenantID c) (f_TenantID f) && opt_eq (f_PrivacyMode f) (ChunkStores.ck_PrivacyLabel c))
    (snd <$> map_to_list rows))).

Definition ratio (count corpus : Z) : float :=
  let r := f64_div (f64_of_Z count) (f64_of_Z corpus) in
  if f_gtb r (f64_of_Z 1) then f64_of_Z 1 else r.

(** [coverage] after the tenant guard; [corpus] is the count of the wired repository. *)
Definition coverage (f : ScopeFilter) (corpus : option (result Z string)) : M CoverageResponse :=
  let resp v n c rt auth why :=
    {| c_TenantID := f_TenantID f; c_PrivacyMode := f_PrivacyMode f; c_ShardVersion := v; ShardChunks := n;
       CorpusChunks := c; CoverageRatio := rt; IsAuthoritative := auth; c_Reason := why |} in
  if str_empty (f_PrivacyMode f) then ethrow (BadRequest "privacy_mode is required")
  else
    let@ latest := LatestVersion f in
    if (latest =? 0)%Z then eret (resp 0%Z 0%Z 0%Z f_zero false "no_shard"%string)
    else
      let@ m := GetByVersion f latest in
      match corpus with
      | None => eret (resp (ShardVersion m) (ChunksCount m) 0%Z f_zero false "corpus_size_unknown"%string)
      | Some (Err e) => ethrow (ShardError e)
      | Some (Ok c) =>
          eret (if (0 <? c)%Z then resp (ShardVersion m) (ChunksCount m) c (ratio (ChunksCount m) c) true ""%string
                else resp (ShardVersion m) (ChunksCount m) c f_zero false ""%string)
      end.

Definition LatestShardVersion (has_repo : bool) (tenantID channelID privacyMode : string) : M Z :=
  if has_repo
  then LatestVersion {| f_TenantID := tenantID; f_UserID := ""; f_ChannelID := channelID; f_Status := "";
                        f_PrivacyMode := privacyMode |}
  else eret 0%Z.
End Repository.

(** ** Pre-generation *)

Module Scheduler.

Record ManifestSummary := { ShardKind : string; s_UpdatedAt : Time }.
Record SchedulerStats := { Passes : Z; StaleDetected : Z; Submitted : Z; SkippedFresh : Z }.

Record SchedulerConfig := { FreshnessWindow : Z; Tick : Z; ShardKinds : list string }.
Definition NewScheduler (c : SchedulerConfig) : SchedulerConfig :=
  {| FreshnessWindow := if (FreshnessWindow c <=? 0)%Z then (24 * hour)%Z else FreshnessWindow c;
     Tick := if (Tick c <=? 0)%Z then (1 * hour)%Z else Tick c;
     ShardKinds := match ShardKinds c with [] => ["base"] | l => l end |}.

Section RunOnce.
Context (LatestByTenant : string → result (list (option ManifestSummary)) string).
Context (submit_ok : string → string → bool).

(** The newest time stamp per kind. *)
Definition refresh (acc : gmap string Time) (m : option ManifestSummary) : gmap string Time :=
  match m with
  | None => acc
  | Some m =>
      match acc !! ShardKind m with
      | Some t => if (t <? s_UpdatedAt m)%Z then <[ShardKind m := s_UpdatedAt m]> acc else acc
      | None => <[ShardKind m := s_UpdatedAt m]> acc
      end
  end.
Definition freshness (l : list (option ManifestSummary)) : gmap string Time := foldl refresh ∅ l.

Definition is_fresh (cutoff : Time) (seen : gmap string Time) (kind : string) : bool :=
  match seen !! kind with Some t => (cutoff <? t)%Z | None => false end.

(** The requests a tenant causes, and whether its manifests could be read. *)
Definition tenant_requests (kinds : list string) (cutoff : Time) (tenantID : string) : list (string * string) :=
  match LatestByTenant tenantID with
  | Err _ => []
  | Ok l => (λ k, (tenantID, k)) <$> List.filter (λ k, negb (is_fresh cutoff (freshness l) k)) kinds
  end.
Definition tenant_fresh (kinds : list string) (cutoff : Time) (tenantID : string) : list string :=
  match LatestByTenant tenantID with
  | Err _ => []
  | Ok l => List.filter (is_fresh cutoff (freshness l)) kinds
  end.

(** One pass: the requests submitted, in order, and the new counters. *)
Definition RunOnce (c : SchedulerConfig) (tenants : result (list string) string) (now : Time) (st : SchedulerStats)
  : result (list (string * string) * SchedulerStats) string :=
  match tenants with
  | Err e => Err e
  | Ok ts =>
      let cutoff := (now - FreshnessWindow c)%Z in
      let reqs := ts ≫= tenant_requests (ShardKinds c) cutoff in
      let fresh := ts ≫= tenant_fresh (ShardKinds c) cutoff in
      Ok (reqs,
          {| Passes := (Passes st + 1)%Z;
             StaleDetected := (StaleDetected st + Z.of_nat (length reqs))%Z;
             Submitted := (Submitted st + Z.of_nat (length (List.filter (λ r, submit_ok r.1 r.2) reqs)))%Z;
             SkippedFresh := (SkippedFresh st + Z.of_nat (length fresh))%Z |})
  end.

Definition newer_than (cutoff : Time) (kind : string) (m : option ManifestSummary) : bool :=
  match m with Some m => str_eqb (ShardKind m) kind && (cutoff <? s_UpdatedAt m)%Z | None => false end.

Lemma is_fresh_refresh cutoff acc m kind :
  is_fresh cutoff (refresh acc m) kind = is_fresh cutoff acc kind || newer_than cutoff kind m.
Proof.
  destruct m as [m|]; simpl; [|by rewrite orb_false_r]. unfold is_fresh.
  destruct (str_eqb (ShardKind m) kind) eqn:E; simpl.
  - apply str_eqb_eq in E as <-. destruct (acc !! ShardKind m) as [t|] eqn:Ea; simpl; [|by rewrite lookup_insert_eq].
    destruct (Z.ltb_spec t (s_UpdatedAt m)); [rewrite lookup_insert_eq|rewrite Ea];
      destruct (Z.ltb_spec cutoff t), (Z.ltb_spec cutoff (s_UpdatedAt m)); done || lia.
  - apply str_eqb_neq in E. rewrite orb_false_r.
    destruct (acc !! ShardKind m) as [t|]; [destruct (t <? s_UpdatedAt m)%Z; [|done]|]; by rewrite lookup_insert_ne.
Qed.

Lemma is_fresh_freshness cutoff l kind :
  is_fresh cutoff (freshness l) kind = existsb (newer_than cutoff kind) l.
Proof.
  induction l as [|m l IH] using rev_ind; [done|]. unfold freshness in *.
  rewrite foldl_app. simpl. rewrite is_fresh_refresh, IH, existsb_app. simpl. by rewrite orb_false_r.
Qed.

Definition readable (t : string) : bool := match LatestByTenant t with Ok _ => true | Err _ => false end.

Lemma pass_counts kinds cutoff ts :
  length (ts ≫= tenant_requests kinds cutoff) + length (ts ≫= tenant_fresh kinds cutoff) =
  length kinds * length (List.filter readable ts).
Proof.
  induction ts as [|t ts IH]; [simpl; lia|]. rewrite !bind_cons, !length_app. simpl.
  unfold tenant_requests at 1, tenant_fresh at 1, readable at 1.
  destruct (LatestByTenant t) as [l|]; [|simpl; lia]. rewrite length_fmap. simpl length.
  pose proof (filter_split_length (is_fresh cutoff (freshness l)) kinds). lia.
Qed.

(** A pass requests exactly the kinds of the tenants whose manifests it could
    read that have no manifest newer than the freshness window, and every kind of
    every such tenant is counted once, as stale or as fresh. *)
Theorem RunOnce_requests c ts now st reqs st' :
  RunOnce c (Ok ts) now st = Ok (reqs, st') →
  (∀ tenantID kind, (tenantID, kind) ∈ reqs ↔
     tenantID ∈ ts ∧ kind ∈ ShardKinds c ∧
     ∃ l, LatestByTenant tenantID = Ok l ∧ ∀ m, Some m ∈ l → ShardKind m = kind →
       (s_UpdatedAt m ≤ now - FreshnessWindow c)%Z) ∧
  (StaleDetected st' - StaleDetected st + (SkippedFresh st' - SkippedFresh st) =
   Z.of_nat (length (ShardKinds c)) * Z.of_nat (length (List.filter
     readable ts)))%Z.
Proof.
  unfold RunOnce. intros [= <- <-]. set (cutoff := (now - FreshnessWindow c)%Z). split.
  - intros tenantID kind. rewrite list_elem_of_bind. split.
    + intros (t & Hk & Ht). unfold tenant_requests in Hk.
      destruct (LatestByTenant t) as [l|] eqn:El; [|by apply not_elem_of_nil in Hk].
      apply list_elem_of_fmap in Hk as (k & [= -> ->] & [Hn Hin]%elem_of_filterb).
      split_and!; [done|done|]. exists l. split; [done|]. intros m Hm Hkd.
      rewrite is_fresh_freshness, negb_true_iff in Hn. destruct (Z.le_gt_cases (s_UpdatedAt m) cutoff); [done|].
      assert (existsb (newer_than cutoff k) l = true); [|congruence].
      apply existsb_elem. exists (Some m). split; [done|]. simpl. rewrite Hkd, str_eqb_refl. simpl. by apply Z.ltb_lt.
    + intros (Ht & Hin & l & El & Hall). exists tenantID. split; [|done]. unfold tenant_requests. rewrite El.
      apply list_elem_of_fmap. exists kind. split; [done|]. apply elem_of_filterb. split; [|done].
      rewrite is_fresh_freshness, negb_true_iff. apply not_true_is_false. intros (x & Hx & Hn)%existsb_elem.
      destruct x as [m|]; [|done]. apply andb_true_iff in Hn as [E%str_eqb_eq Hlt%Z.ltb_lt].
      specialize (Hall m Hx E). lia.
  - pose proof (pass_counts (ShardKinds c) cutoff ts) as Hn. rewrite <- Nat2Z.inj_mul. cbn [StaleDetected SkippedFresh]. lia.
Qed.
End RunOnce.

Lemma RunOnce_requests_witness :
  let latest := λ _ : string, Ok [Some {| ShardKind := "base"; s_UpdatedAt := 90 |}] : result _ string in
  let c := {| FreshnessWindow := 20; Tick := 1; ShardKinds := ["base"; "extra"] |} in
  ("t"%string, "extra"%string) ∈ [("t"%string, "extra"%string)].
Proof.
  intros latest c.
  apply (proj1 (RunOnce_requests latest (λ _ _, true) c ["t"] 100
    {| Passes := 0; StaleDetected := 0; Submitted := 0; SkippedFresh := 0 |} [("t", "extra")]%string
    {| Passes := 1; StaleDetected := 1; Submitted := 1; SkippedFresh := 1 |} eq_refl)).
  split_and!; [by left|right; by left|]. eexists. split; [reflexivity|].
  intros m [[= ->]|?%not_elem_of_nil]%elem_of_cons; done.
Defined.
End Scheduler.

(** ** Samples *)

Definition sample_scope : ScopeFilter :=
  {| f_TenantID := "t"; f_UserID := ""; f_ChannelID := ""; f_Status := ""; f_PrivacyMode := "hybrid" |}.
Definition sample_req : GenerateRequest :=
  {| g_TenantID := "t"; g_UserID := ""; g_ChannelID := ""; g_PrivacyMode := "hybrid" |}.
Definition sample_chunk (id label : string) : ChunkScope :=
  {| sc_ChunkID := id; sc_DocumentID := "d"; sc_NamespaceID := ""; sc_SourceID := "s"; sc_URI := "u";
     sc_PrivacyLabel := label; sc_Connector := ""; sc_Tags := [] |}.
Definition sample_ulid (n : nat) : string := str_app "m" (str_of_nat n).
Definition sample_resolve (_ _ : string) : result PolicySnapshot string := Ok Snapshot.empty.
Definition sample_chunks (_ : string) : result (list ChunkScope) string :=
  Ok [sample_chunk "b" "remote"; sample_chunk "a" ""; sample_chunk "c" "no-ai"].

Definition no_tables : Env Tables := {| store := {| manifests := ∅; chunk_rows := ∅ |}; calls_made := 0 |}.

(** A generation from empty tables under the outcomes of [o]. *)
Definition sample_generate (o : Outside) : Env Tables → result (ShardManifest * list string) shard_error * Env Tables :=
  @Generate o sample_ulid (λ _ _, false) sample_resolve sample_chunks sample_req.

Lemma no_tables_consistent : consistent (store no_tables).
Proof.
  split; [constructor; [apply map_Forall_empty..|]|].
  - by intros a b [id Hid]%elem_of_rows.
  - by intros m [id Hid]%elem_of_rows.
Qed.

Lemma sample_ulid_nonempty n : sample_ulid n ≠ EmptyString.
Proof. done. Qed.

Lemma Generate_publishes_witness :
  let '(r, w') := sample_generate calm no_tables in
  match r with
  | Ok (m, ids) => ids = ["a"; "b"]%string ∧ shard_ids "t" (ID m) (store w') = ["a"; "b"]%string
  | Err _ => False
  end.
Proof.
  destruct (sample_generate calm no_tables) as [[[m ids]|e] w'] eqn:E.
  - destruct (@Generate_publishes calm sample_ulid (λ _ _, false) sample_resolve sample_chunks sample_req no_tables m ids w'
      (proj1 no_tables_consistent) E) as ((snap & cands & [= <-] & [= <-] & ->) & _ & _ & Hids & _).
    split; [vm_compute; reflexivity|]. vm_compute in E. injection E as <- <-. vm_compute. reflexivity.
  - vm_compute in E. discriminate E.
Defined.

Lemma Generate_consistent_witness : consistent (store (sample_generate calm no_tables).2).
Proof.
  pose proof (@Generate_consistent calm sample_ulid (λ _ _, false) sample_resolve sample_chunks sample_req
    sample_ulid_nonempty no_tables no_tables_consistent) as Hc.
  fold (sample_generate calm no_tables) in Hc.
  unfold sample_generate in *. destruct (@Generate _ _ _ _ _ _ no_tables) as [[x|e] w']; exact Hc.
Defined.

(** The tables after one generation, with the call counter. *)
Definition one_version : Env Tables := (sample_generate calm no_tables).2.

Lemma one_version_wf : wf (store one_version).
Proof.
  pose proof (@Generate_wf calm sample_ulid (λ _ _, false) sample_resolve sample_chunks sample_req
    no_tables sample_ulid_nonempty no_tables_consistent) as Hc. exact Hc.
Qed.

Lemma delta_converges_witness :
  ∃ ids, version_chunks sample_scope 1 (store one_version) = Some ids ∧
    device_after (match (@delta calm sample_scope 0 one_version).1 with Ok r => r | Err _ => no_ops 0 0 "" end) ∅
    = Delta.id_set ids.
Proof.
  set (w := one_version). destruct (@delta calm sample_scope 0 w) as [[r|e] w'] eqn:E.
  - assert (Hto : To r = 1%Z) by (vm_compute in E; by injection E as <- _).
    destruct (@delta_converges calm sample_scope 0 ∅ w r w' one_version_wf E) as (_ & _ & Hc & _).
    destruct Hc as (ids & Hids & Hdev).
    + by rewrite Hto.
    + by rewrite Hto.
    + intros ids Hids. vm_compute in Hids. discriminate Hids.
    + exists ids. rewrite Hto in Hids. split; [exact Hids|exact Hdev].
  - vm_compute in E. discriminate E.
Defined.

(** The chunk rows of the second generation are refused: its failed
    manifest is the newest version, so the delta tells a device to drop everything it
    holds. *)
Definition refuse_second_chunks : Outside :=
  {| fate := λ n, if (n =? 7)%nat then Refused else Performed; clock := λ n _, Z.of_nat n |}.
Definition failed_second : Env Tables := (sample_generate refuse_second_chunks one_version).2.
Example failed_generation_empties_devices :
  (Status <$> first_row (at_version sample_scope 2) (store failed_second)) = Some ShardStatusFailed ∧
  match (@delta calm sample_scope 1 failed_second).1 with
  | Ok r => To r = 2%Z ∧ device_after r {["a"; "b"]} = ∅
  | Err _ => False
  end.
Proof. vm_compute. done. Qed.

(** Coverage divides the chunks the shard admits by the chunks whose label equals the
    mode: here half of what counts is missing from the shard and the ratio is one. *)
Example coverage_counts_other_chunks :
  let chunk id label :=
    {| ChunkStores.ck_ID := id; ChunkStores.ck_TenantID := "t"; ChunkStores.ck_SourceID := "s";
       ChunkStores.ck_DocumentID := "d"; ChunkStores.ck_NamespaceID := ""; ChunkStores.ck_BlockID := "";
       ChunkStores.ck_ContentHash := ""; ChunkStores.ck_Title := ""; ChunkStores.ck_URI := "";
       ChunkStores.ck_Connector := ""; ChunkStores.ck_PrivacyLabel := label; ChunkStores.ck_Text := "";
       ChunkStores.ck_Model := ""; ChunkStores.ck_CreatedAt := 1; ChunkStores.ck_UpdatedAt := 1 |}%string in
  let corpus := {["a"%string := chunk "a" "remote"; "b"%string := chunk "b" "remote"; "h"%string := chunk "h" "hybrid"]}%string in
  match (@coverage calm sample_scope (Some (Ok (CorpusChunkCount sample_scope corpus))) one_version).1 with
  | Ok r => ShardChunks r = 2%Z ∧ CorpusChunks r = 1%Z ∧ CoverageRatio r = f64_of_Z 1 ∧ IsAuthoritative r = true
  | Err _ => False
  end.
Proof. vm_compute. done. Qed.

(** An empty privacy mode does not widen the lookup: it finds no version. *)
Example empty_mode_finds_nothing :
  (@LatestShardVersion calm true "t" "" "" one_version).1 = Ok 0%Z ∧
  (@LatestShardVersion calm true "t" "" "hybrid" one_version).1 = Ok 1%Z.
Proof. vm_compute. done. Qed.

(** The chunks read from the table have no tags, so a rule that denies a tag never
    keeps a chunk out of a shard. *)
Theorem tag_rules_never_apply rows tenantID ch snap rules :
  ch ∈ ListChunks_of rows tenantID → Snapshot.ChunkACL snap = Some rules →
  Forall (λ r, ChunkACL.ChunkID r = EmptyString) rules → chunkACLAllows snap ch = true.
Proof.
  intros (c & -> & _)%list_elem_of_fmap Hs Hr. unfold chunkACLAllows. rewrite Hs.
  apply negb_true_iff, bool_decide_eq_false. simpl. rewrite eval_loop_deny. intros (r & Hin & Hm & _).
  rewrite Forall_forall in Hr. specialize (Hr r Hin). unfold chunkRuleMatches in Hm. rewrite Hr in Hm. simpl in Hm.
  by destruct (str_empty (TagPrefix r)).
Qed.
End Shards.
