(* ===== verification/Sources.v ===== *)
(** * Sources

    internal/admin: the source rows of source_model.go and the repository of
    source_repository.go. SQL and JSON columns are outside: a config is any value.
    Whatever calls are made and however they fail, a source that is being removed is
    never revived, patched or handed new credentials; the listing visits every row of
    the tenant once. *)

From S2P Require Import Prelude GoString Effects Cursor.

Module Sources.

Definition SourceStatusActive : string := "active".
Definition SourceStatusPaused : string := "paused".
Definition SourceStatusRemoving : string := "removing".
Definition SourceStatusRemoved : string := "removed".

Section Sources.
Context {Config : Type}.

Record Source := {
  ID : string;
  TenantID : string;
  ConnectorType : string;
  SourceConfig : Config;
  Scopes : list string;
  Status : string;
  CreatedAt : Time;
  UpdatedAt : Time
}.

Definition amend (cfg : Config) (scopes : list string) (status : string) (at_ : Time) (s : Source) : Source :=
  {| ID := ID s; TenantID := TenantID s; ConnectorType := ConnectorType s; SourceConfig := cfg; Scopes := scopes;
     Status := status; CreatedAt := CreatedAt s; UpdatedAt := at_ |}.

Definition NewSource (id tenantID connectorType : string) (config : Config) (scopes : list string) (now : Time) : Source :=
  {| ID := id; TenantID := tenantID; ConnectorType := connectorType; SourceConfig := config; Scopes := scopes;
     Status := SourceStatusActive; CreatedAt := now; UpdatedAt := now |}.

Definition Validate (s : Source) : result unit string :=
  if str_empty (ID s) then Err "admin: missing ID"
  else if str_empty (TenantID s) then Err "admin: missing tenant_id"
  else if str_empty (ConnectorType s) then Err "admin: missing connector_type"
  else if bool_decide (Status s ∈ [SourceStatusActive; SourceStatusPaused; SourceStatusRemoving; SourceStatusRemoved])
  then Ok tt else Err "admin: invalid status".

Inductive source_error :=
| ErrSourceNotFound
| ErrSourceTerminal
| SourceError (msg : string).

(** The table by id. *)
Abbreviation Table := (gmap string Source) (only parsing).
Abbreviation M := (Eff (gmap string Source) source_error) (only parsing).

Section Repository.
Context `{Outside}.

Definition Create (s : Source) : M unit :=
  match Validate s with
  | Err e => ethrow (SourceError e)
  | Ok _ =>
      let@ fresh := ecall (SourceError "admin: insert source")
                      (λ t : gmap string Source, match t !! ID s with None => (true, <[ID s := s]> t) | Some _ => (false, t) end) in
      if fresh then eret tt else ethrow (SourceError "admin: insert source: duplicate key")
  end.

Definition owned (tenantID id : string) (t : gmap string Source) : option Source :=
  match t !! id with
  | Some s => if str_eqb (TenantID s) tenantID then Some s else None
  | None => None
  end.

Definition found (r : option Source) : M Source :=
  match r with Some s => eret s | None => ethrow ErrSourceNotFound end.

Definition Get (tenantID id : string) : M Source :=
  if str_empty tenantID || str_empty id then ethrow ErrSourceNotFound
  else let@ r := eread (SourceError "admin: get source") (owned tenantID id) in found r.

Definition GetByID (id : string) : M Source :=
  if str_empty id then ethrow ErrSourceNotFound
  else let@ r := eread (SourceError "admin: get source by id") (λ t : gmap string Source, t !! id) in found r.

(** *** Listings *)

Record ListFilter := { f_TenantID : string; f_Status : string; f_PageSize : Z; f_Cursor : string }.

Definition effectivePageSize (requested : Z) : Z :=
  if (requested <=? 0)%Z then 50%Z else if (200 <? requested)%Z then 200%Z else requested.

Definition table_rows (t : gmap string Source) : list Source := snd <$> map_to_list t.
Definition selected (f : ListFilter) (s : Source) : bool :=
  str_eqb (TenantID s) (f_TenantID f) && (str_empty (f_Status f) || str_eqb (Status s) (f_Status f)).
Definition page_size (f : ListFilter) : nat := Z.to_nat (effectivePageSize (f_PageSize f)).

Definition List_ (f : ListFilter) : M (list Source * string) :=
  if str_empty (f_TenantID f) then ethrow (SourceError "admin: ListFilter.TenantID is required")
  else eread (SourceError "admin: list sources")
         (λ t, Cursor.page ID (selected f) (f_Cursor f) (page_size f) (table_rows t)).

Definition by_id (a b : Source) : bool := str_ltb (ID a) (ID b).

Definition ListAllActive : M (list Source) :=
  eread (SourceError "admin: list all active sources")
    (λ t, sort_by by_id (List.filter (λ s, str_eqb (Status s) SourceStatusActive) (table_rows t))).

Definition ListAllForTenant (tenantID : string) : M (list Source) :=
  if str_empty tenantID then ethrow (SourceError "admin: empty tenant_id")
  else eread (SourceError "admin: list tenant sources")
         (λ t, sort_by by_id (List.filter (λ s, str_eqb (TenantID s) tenantID) (table_rows t))).

(** *** Changes *)

Definition terminal (s : Source) : bool :=
  str_eqb (Status s) SourceStatusRemoving || str_eqb (Status s) SourceStatusRemoved.

(** [UPDATE] of the row of the tenant with the id if the condition holds; whether a
    row was affected. *)
Definition update_where (err tenantID id : string) (P : Source → bool) (f : Time → Source → Source) : M bool := λ w,
  ecall (SourceError err)
    (λ t, match owned tenantID id t with
          | Some s => if P s then (true, <[id := f (clock (calls_made w) 0) s]> t) else (false, t)
          | None => (false, t)
          end) w.

Record UpdatePatch := { p_Status : option string; p_Scopes : option (list string) }.

Definition patched (patch : UpdatePatch) (now : Time) (s : Source) : Source :=
  amend (SourceConfig s) (default (Scopes s) (p_Scopes patch)) (default (Status s) (p_Status patch)) now s.

Definition patchable (patch : UpdatePatch) : bool :=
  match p_Status patch with
  | None => true
  | Some s => str_eqb s SourceStatusActive || str_eqb s SourceStatusPaused
  end.

Definition Update (tenantID id : string) (patch : UpdatePatch) : M Source :=
  if str_empty tenantID || str_empty id then ethrow ErrSourceNotFound
  else if negb (patchable patch) then ethrow (SourceError "admin: status not patchable via Update")
  else
    let@ n := update_where "admin: update source" tenantID id (λ s, negb (terminal s)) (patched patch) in
    if n then Get tenantID id
    else
      let@ r := eread (SourceError "admin: update source lookup") (owned tenantID id) in
      match r with Some _ => ethrow ErrSourceTerminal | None => ethrow ErrSourceNotFound end.

Definition UpdateConfig (tenantID id : string) (cfg : Config) : M unit :=
  if str_empty tenantID || str_empty id then ethrow ErrSourceNotFound
  else
    let@ n := update_where "admin: update source config" tenantID id (λ s, negb (terminal s))
                (λ now s, amend cfg (Scopes s) (Status s) now s) in
    if n then eret tt else ethrow ErrSourceNotFound.

Definition set_status (status : string) (now : Time) (s : Source) : Source :=
  amend (SourceConfig s) (Scopes s) status now s.

Definition MarkRemoving (tenantID id : string) : M Source :=
  if str_empty tenantID || str_empty id then ethrow ErrSourceNotFound
  else
    let@ _ := update_where "admin: mark removing" tenantID id (λ s, negb (terminal s)) (set_status SourceStatusRemoving) in
    Get tenantID id.

Definition MarkRemoved (tenantID id : string) : M unit :=
  if str_empty tenantID || str_empty id then ethrow ErrSourceNotFound
  else
    let@ n := update_where "admin: mark removed" tenantID id (λ _, true) (set_status SourceStatusRemoved) in
    if n then eret tt else ethrow ErrSourceNotFound.

(** ** No source comes back *)

Inductive op :=
| OpCreate (s : Source)
| OpGet (tenantID id : string)
| OpList (f : ListFilter)
| OpUpdate (tenantID id : string) (patch : UpdatePatch)
| OpUpdateConfig (tenantID id : string) (cfg : Config)
| OpMarkRemoving (tenantID id : string)
| OpMarkRemoved (tenantID id : string).

(** A call, whatever it returns. *)
Definition call (o : op) (w : Env (gmap string Source)) : Env (gmap string Source) :=
  match o with
  | OpCreate s => (Create s w).2
  | OpGet tn id => (Get tn id w).2
  | OpList f => (List_ f w).2
  | OpUpdate tn id p => (Update tn id p w).2
  | OpUpdateConfig tn id cfg => (UpdateConfig tn id cfg w).2
  | OpMarkRemoving tn id => (MarkRemoving tn id w).2
  | OpMarkRemoved tn id => (MarkRemoved tn id w).2
  end.

Definition rank (status : string) : nat :=
  if str_eqb status SourceStatusRemoved then 2 else if str_eqb status SourceStatusRemoving then 1 else 0.

(** What may become of a row: its identity stays, its removal only advances, and a
    row that is being removed keeps its config and scopes. *)
Definition evolves (s s' : Source) : Prop :=
  ID s' = ID s ∧ TenantID s' = TenantID s ∧ ConnectorType s' = ConnectorType s ∧ CreatedAt s' = CreatedAt s ∧
  rank (Status s) ≤ rank (Status s') ∧
  (terminal s = true → SourceConfig s' = SourceConfig s ∧ Scopes s' = Scopes s).

#[local] Instance evolves_preorder : PreOrder evolves.
Proof.
  split.
  - intros s. unfold evolves. split_and!; try done.
  - intros a b c (A1 & A2 & A3 & A4 & A5 & A6) (B1 & B2 & B3 & B4 & B5 & B6).
    split_and!; try congruence; try lia. intros Ht.
    assert (Hb : terminal b = true).
    { unfold terminal in *. unfold rank in A5. destruct (str_eqb (Status a) SourceStatusRemoved) eqn:E1,
        (str_eqb (Status a) SourceStatusRemoving) eqn:E2, (str_eqb (Status b) SourceStatusRemoved),
        (str_eqb (Status b) SourceStatusRemoving); simpl in *; done || lia. }
    specialize (A6 Ht). specialize (B6 Hb). intuition congruence.
Qed.

Definition grows (t t' : gmap string Source) : Prop :=
  ∀ id s, t !! id = Some s → ∃ s', t' !! id = Some s' ∧ evolves s s'.

#[local] Instance grows_preorder : PreOrder grows.
Proof.
  split.
  - intros t id s Hs. exists s. by split.
  - intros a b c H1 H2 id s Hs. destruct (H1 id s Hs) as (s1 & Hs1 & E1).
    destruct (H2 id s1 Hs1) as (s2 & Hs2 & E2). exists s2. split; [done|by transitivity s1].
Qed.

(** A computation that only lets the table grow, failed or not. *)
Definition growing {A} (m : M A) : Prop := ∀ w, grows (store w) (store (m w).2).

Lemma growing_ret {A} (r : A) : growing (eret r).
Proof. intros w. reflexivity. Qed.
Lemma growing_throw {A} e : growing (ethrow (A := A) e).
Proof. intros w. reflexivity. Qed.
Lemma growing_bind {A B} (m : M A) (k : A → M B) : growing m → (∀ a, growing (k a)) → growing (ebind m k).
Proof.
  intros Hm Hk w. unfold ebind. specialize (Hm w). destruct (m w) as [[a|e] w1]; [|done].
  etransitivity; [exact Hm|]. apply Hk.
Qed.
Lemma growing_call {A} err (f : gmap string Source → A * gmap string Source) :
  (∀ t, grows t (f t).2) → growing (ecall err f).
Proof.
  intros Hf w. unfold ecall. specialize (Hf (store w)). destruct (f (store w)) as [a t'].
  destruct (fate (calls_made w)); simpl; [done|reflexivity|done].
Qed.
Lemma growing_read {A} err (f : gmap string Source → A) : growing (eread err f).
Proof. apply growing_call. intros t. reflexivity. Qed.

Lemma growing_update err tenantID id P f :
  (∀ now s, P s = true → evolves s (f now s)) → growing (update_where err tenantID id P f).
Proof.
  intros Hf w. unfold update_where. apply growing_call. intros t. unfold owned.
  destruct (t !! id) as [s|] eqn:Es; [|reflexivity]. destruct (str_eqb (TenantID s) tenantID); [|reflexivity].
  destruct (P s) eqn:EP; [|reflexivity]. simpl. intros id' s' Hs'. destruct (decide (id' = id)) as [->|Hne].
  - rewrite lookup_insert_eq. rewrite Es in Hs'. injection Hs' as <-. eexists. split; [done|by apply Hf].
  - rewrite lookup_insert_ne by done. exists s'. by split.
Qed.

#[local] Hint Resolve growing_ret growing_throw growing_bind growing_read : growing.
#[local] Hint Extern 5 (growing (if ?b then _ else _)) => destruct b : growing.
#[local] Hint Extern 5 (growing (match ?b with _ => _ end)) => destruct b : growing.
#[local] Hint Unfold found Get : growing.

Lemma terminal_rank s : terminal s = false → rank (Status s) = 0.
Proof. unfold terminal, rank. by intros [-> ->]%orb_false_iff. Qed.

Lemma open_evolves cfg scopes status now s :
  negb (terminal s) = true → evolves s (amend cfg scopes status now s).
Proof.
  intros Ht%negb_true_iff. unfold evolves. rewrite (terminal_rank s Ht). split_and!; try done; [simpl; lia|congruence].
Qed.

Lemma call_grows o w : grows (store w) (store (call o w)).
Proof.
  assert (HG : ∀ tn id, growing (Get tn id)).
  { intros tn id. unfold Get. destruct (_ || _); [auto with growing|]. apply growing_bind; [auto with growing|].
    intros []; [apply growing_ret|apply growing_throw]. }
  destruct o as [s|tn id|f|tn id p|tn id cfg|tn id|tn id]; simpl; revert w;
    match goal with |- ∀ w, grows _ (store (?m w).2) => change (growing m) end.
  - unfold Create. destruct (Validate s); [|auto with growing]. apply growing_bind; [|auto with growing].
    apply growing_call. intros t. destruct (t !! ID s) as [x|] eqn:E; [reflexivity|]. simpl.
    intros id s' Hs'. exists s'. split; [|reflexivity]. rewrite lookup_insert_ne; [done|congruence].
  - apply HG.
  - unfold List_. auto with growing.
  - unfold Update. destruct (str_empty tn || str_empty id); [auto with growing|].
    destruct (negb (patchable p)); [auto with growing|]. apply growing_bind; [|intros []; eauto with growing].
    apply growing_update. intros now s. apply open_evolves.
  - unfold UpdateConfig. destruct (str_empty tn || str_empty id); [auto with growing|].
    apply growing_bind; [|auto with growing]. apply growing_update. intros now s. apply open_evolves.
  - unfold MarkRemoving. destruct (str_empty tn || str_empty id); [auto with growing|].
    apply growing_bind; [|auto]. apply growing_update. intros now s. apply open_evolves.
  - unfold MarkRemoved. destruct (str_empty tn || str_empty id); [auto with growing|].
    apply growing_bind; [|auto with growing]. apply growing_update. intros now s _.
    unfold evolves, set_status. simpl. split_and!; try done. unfold rank at 2. rewrite str_eqb_refl.
    unfold rank. repeat case_match; lia.
Qed.

(** C23: whatever sequence of calls is made on the repository and however each ends, no
    source disappears or changes identity, tenant or connector; once its removal has
    begun it never becomes active or paused again, and its config and scopes, so its
    credentials, stay as they were. *)
Theorem removal_is_final ops w id s :
  store w !! id = Some s →
  ∃ s', store (foldl (λ w o, call o w) w ops) !! id = Some s' ∧ evolves s s'.
Proof.
  revert id s. change (grows (store w) (store (foldl (λ w o, call o w) w ops))).
  revert w. induction ops as [|o ops IH]; intros w; simpl; [reflexivity|].
  etransitivity; [apply call_grows|apply IH].
Qed.

(** ** Listing *)

Definition wf (t : gmap string Source) : Prop := map_Forall (λ id s, ID s = id ∧ ID s ≠ EmptyString) t.

(** Follow the cursors. *)
Definition list_pages (fuel : nat) (f : ListFilter) (t : gmap string Source) : list (list Source) :=
  Cursor.pages ID fuel (selected f) EmptyString (page_size f) (table_rows t).

Lemma source_page_size_range f : 1 ≤ page_size f ≤ 200.
Proof. unfold page_size, effectivePageSize. repeat case_match; lia. Qed.

Lemma elem_of_source_rows s t : wf t → s ∈ table_rows t ↔ t !! ID s = Some s.
Proof.
  intros Hw. unfold table_rows. rewrite list_elem_of_fmap. split.
  - intros ([id x] & -> & Hx%elem_of_map_to_list). simpl. by destruct (Hw _ _ Hx) as [-> _].
  - intros Hs. exists (ID s, s). by rewrite elem_of_map_to_list.
Qed.

(** Following the cursors lists the selected sources of the tenant, each once, newest
    first. *)
Theorem source_pages_cover f t fuel :
  wf t → (size t < fuel)%nat →
  concat (list_pages fuel f t) = Cursor.listing ID (selected f) (table_rows t) ∧
  ∀ s, s ∈ concat (list_pages fuel f t) ↔ t !! ID s = Some s ∧ selected f s = true.
Proof.
  intros Hw Hf. unfold list_pages.
  destruct (Cursor.pages_cover ID (selected f) (page_size f) (table_rows t) fuel) as [-> Hp].
  - unfold Cursor.distinct_ids, table_rows. rewrite <- list_fmap_compose.
    rewrite (list_fmap_ext _ fst); [apply NoDup_fst_map_to_list|].
    intros i [id s] Hi%list_elem_of_lookup_2%elem_of_map_to_list. apply (Hw _ _ Hi).
  - intros s Hs%elem_of_source_rows; [|done]. by destruct (Hw _ _ Hs).
  - pose proof (source_page_size_range f). lia.
  - unfold table_rows. by rewrite length_fmap, length_map_to_list.
  - split; [done|]. intros s. rewrite Hp, elem_of_filterb, elem_of_source_rows by done. tauto.
Qed.
End Repository.
End Sources.

(** ** Samples *)

Definition sample_source (id status : string) : Source :=
  {| ID := id; TenantID := "t"; ConnectorType := "slack"; SourceConfig := 0; Scopes := []; Status := status;
     CreatedAt := 1; UpdatedAt := 1 |}.
Definition sample_table : Env (gmap string Source) :=
  {| store := {["a"%string := sample_source "a" "removing"]}; calls_made := 0 |}.

Lemma removal_is_final_witness :
  ∃ s', store (foldl (λ w o, @call nat calm o w) sample_table
          [OpUpdate "t" "a" {| p_Status := Some "active"%string; p_Scopes := None |}; OpUpdateConfig "t" "a" 7]) !! "a"%string
        = Some s' ∧ evolves (sample_source "a" "removing") s'.
Proof.
  apply (@removal_is_final nat calm
    [OpUpdate "t" "a" {| p_Status := Some "active"%string; p_Scopes := None |}; OpUpdateConfig "t" "a" 7] sample_table "a"%string).
  reflexivity.
Defined.

(** [MarkRemoved] asks for no particular status: an active source is gone at once. *)
Example active_source_removed_directly :
  Status <$> store (call (Config := nat) (H := calm) (OpMarkRemoved "t" "a")
    {| store := {["a"%string := sample_source "a" "active"]}; calls_made := 0 |}) !! "a"%string = Some SourceStatusRemoved.
Proof. reflexivity. Qed.
End Sources.
