(* ===== verification/Forgetting.v ===== *)
(** * Forgetting a tenant or a source

    internal/shard/forget.go with the lifecycle rows of repository.go, the tenant
    deletion of internal/admin/tenant_delete.go and the worker of
    internal/admin/forget_worker.go. The storage tiers are outside: a tier is any
    state and a sweeper any change of it. A run that succeeds has applied every
    sweeper in order; nothing is recorded as deleted before that; and a run never
    touches a lease it does not hold. [Fence] is the same protocol for several
    workers, with the expiry of the lease. *)

From S2P Require Import Prelude GoString Effects Sources.

(** ** A fenced lease *)

Section Lease.
Context {S E : Type} `{Outside}.
Context (leases : S → gmap string string) (set_leases : (gmap string string → gmap string string) → S → S).

Definition SetNX (err : E) (key token : string) : Eff S E bool :=
  ecall err (λ s, match leases s !! key with
                  | None => (true, set_leases (insert key token) s)
                  | Some _ => (false, s)
                  end).

(** The release script: delete only under the caller's token. *)
Definition release (err : E) (key token : string) : Eff S E unit :=
  ewrite err (λ s, if bool_decide (leases s !! key = Some token) then set_leases (delete key) s else s).

(** Run [body] under the lease; the release is deferred and its error ignored. *)
Definition fenced {A} (acquire_err held_err : E) (key token : string) (body : Eff S E A) : Eff S E A := λ w,
  match SetNX acquire_err key token w with
  | (Err e, w1) => (Err e, w1)
  | (Ok false, w1) => (Err held_err, w1)
  | (Ok true, w1) =>
      let '(r, w2) := body w1 in
      (r, (release acquire_err key token w2).2)
  end.

Lemma fenced_spec {A} acquire_err held_err key token (body : Eff S E A) w r w' :
  fenced acquire_err held_err key token body w = (r, w') →
  (** the lease was not obtained *)
  (∃ e, r = Err e ∧ (is_Some (leases (store w) !! key) → store w' = store w) ∧
        (store w' = store w ∨ store w' = set_leases (insert key token) (store w)))
  (** the body ran while the lease was ours *)
  ∨ leases (store w) !! key = None ∧
    ∃ w1 w2, store w1 = set_leases (insert key token) (store w) ∧ body w1 = (r, w2) ∧
      (store w' = store w2 ∨ leases (store w2) !! key = Some token ∧ store w' = set_leases (delete key) (store w2)).
Proof.
  unfold fenced. destruct (SetNX acquire_err key token w) as [[b|e] w1] eqn:Ha; unfold SetNX in Ha.
  - apply ecall_Ok in Ha as (-> & Es & _). destruct (leases (store w) !! key) as [t|] eqn:El; simpl in *.
    + intros [= <- <-]. left. exists held_err. split_and!; [done|done|by left].
    + destruct (body w1) as [r2 w2] eqn:Eb. intros [= <- <-]. right. split; [done|]. exists w1, w2. split_and!; [done|done|].
      unfold release, ewrite, ecall. destruct (fate (calls_made w2)); simpl; [|by left|];
        (case_bool_decide; [right; by split|by left]).
  - intros [= <- <-]. left. exists e. split; [done|]. unfold ecall in Ha.
    destruct (leases (store w) !! key) as [t|] eqn:El; destruct (fate (calls_made w)); try done; injection Ha as <- <-;
      simpl; split; try (by left); try (by right); try done; by intros [? [=]].
Qed.
End Lease.

Module TenantForget.

Definition LifecyclePendingDeletion : string := "pending_deletion".
Definition LifecycleDeleted : string := "deleted".

Record TenantLifecycle := {
  State : string;
  RequestedBy : string;
  RequestedAt : Time;
  DeletedAt : option Time
}.

Inductive forget_error :=
| ErrMissingTenantScope
| ErrLeaseHeld
| Cancelled
| ForgetError (msg : string).

Section Tenant.
Context {T : Type}.

(** The lifecycle rows, the status column, the leases, the storage tiers and the
    audit trail: tenant, actor and action. *)
Record World := {
  lifecycle : gmap string TenantLifecycle;
  statuses : gmap string string;
  leases : gmap string string;
  tiers : T;
  trail : list (string * string * string)
}.
Definition set_lifecycle f (s : World) : World :=
  {| lifecycle := f (lifecycle s); statuses := statuses s; leases := leases s; tiers := tiers s; trail := trail s |}.
Definition set_statuses f (s : World) : World :=
  {| lifecycle := lifecycle s; statuses := f (statuses s); leases := leases s; tiers := tiers s; trail := trail s |}.
Definition set_leases f (s : World) : World :=
  {| lifecycle := lifecycle s; statuses := statuses s; leases := f (leases s); tiers := tiers s; trail := trail s |}.
Definition set_tiers f (s : World) : World :=
  {| lifecycle := lifecycle s; statuses := statuses s; leases := leases s; tiers := f (tiers s); trail := trail s |}.
Definition log_event e (s : World) : World :=
  {| lifecycle := lifecycle s; statuses := statuses s; leases := leases s; tiers := tiers s; trail := trail s ++ [e] |}.

Abbreviation M := (Eff World forget_error) (only parsing).

Context `{Outside}.
Context (sweepers : list (string → T → T)).

(** [FirstOrCreate] with [Assign]: an existing row keeps the time of its request. *)
Definition lifecycle_row (now : Time) (state by_ : string) (old : option TenantLifecycle) : TenantLifecycle :=
  {| State := state; RequestedBy := by_;
     RequestedAt := match old with Some r => RequestedAt r | None => now end;
     DeletedAt := if str_eqb state LifecycleDeleted then Some now else None |}.

Definition MarkLifecycle (tenantID state requestedBy : string) : M unit :=
  if str_empty tenantID then ethrow ErrMissingTenantScope
  else λ w, ewrite (ForgetError "lifecycle")
              (set_lifecycle (λ m, <[tenantID := lifecycle_row (clock (calls_made w) 0) state requestedBy (m !! tenantID)]> m)) w.

Definition LifecycleState (tenantID : string) : M string :=
  if str_empty tenantID then ethrow ErrMissingTenantScope
  else eread (ForgetError "shard: lifecycle state")
         (λ s, match lifecycle s !! tenantID with Some r => State r | None => EmptyString end).

(** The audit write is best effort. *)
Definition emitAudit (has_audit : bool) (tenantID actor action : string) : M unit :=
  if has_audit then λ w, (Ok tt, (ewrite (ForgetError "audit") (log_event (tenantID, actor, action)) w).2) else eret tt.

(** The sweepers in order; the first error stops. *)
Fixpoint sweep_from (tenantID : string) (l : list (string → T → T)) : M unit :=
  match l with
  | [] => eret tt
  | sw :: rest =>
      let@ _ := ewrite (ForgetError "sweeper") (set_tiers (sw tenantID)) in
      sweep_from tenantID rest
  end.

(** Wait for the drain, or give up when the context ends. *)
Definition drain (drained : bool) : M unit := if drained then eret tt else ethrow Cancelled.

Definition wrap (op : string) (e : forget_error) : forget_error :=
  match e with ForgetError m => ForgetError (str_app op m) | _ => e end.

Definition lease_key (prefix tenantID : string) : string :=
  str_app (if str_empty prefix then "hf:forget:tenant:"%string else prefix) tenantID.

(** [Forget.Forget]; [token] is the random lease token. *)
Definition Forget (prefix : string) (has_audit drained : bool) (token : nat → string) (tenantID requestedBy : string) : M unit :=
  if str_empty tenantID then ethrow ErrMissingTenantScope
  else
    let@ _ := emap_err (wrap "shard: mark pending: ") (MarkLifecycle tenantID LifecyclePendingDeletion requestedBy) in
    let@ _ := emitAudit has_audit tenantID requestedBy "tenant.deletion_requested" in
    let@ _ := drain drained in
    λ w, fenced leases set_leases (ForgetError "shard: lease acquire") ErrLeaseHeld (lease_key prefix tenantID) (token (calls_made w))
      (let@ _ := emap_err (wrap "shard: ") (sweep_from tenantID sweepers) in
       let@ _ := emap_err (wrap "shard: mark deleted: ") (MarkLifecycle tenantID LifecycleDeleted requestedBy) in
       emitAudit has_audit tenantID requestedBy "tenant.deleted") w.

(** *** Deletion through the admin surface *)

Definition TenantStatusActive : string := "active".
Definition TenantStatusPendingDeletion : string := "pending_deletion".
Definition TenantStatusDeleted : string := "deleted".

Definition UpsertStatus (tenantID status : string) : M unit :=
  if str_empty tenantID then ethrow (ForgetError "admin: empty tenant_id")
  else ewrite (ForgetError "status") (set_statuses (insert tenantID status)).

Definition GetStatus (tenantID : string) : M string :=
  if str_empty tenantID then ethrow (ForgetError "admin: empty tenant_id")
  else eread (ForgetError "status")
         (λ s, match statuses s !! tenantID with
               | None => TenantStatusActive
               | Some st => if str_empty st then TenantStatusActive else st
               end).

Definition Delete (has_audit drained : bool) (tenantID requestedBy : string) : M unit :=
  if str_empty tenantID then ethrow (ForgetError "admin: tenant deleter: empty tenant_id")
  else
    let@ _ := emap_err (wrap "admin: mark pending: ") (UpsertStatus tenantID TenantStatusPendingDeletion) in
    let@ _ := emitAudit has_audit tenantID requestedBy "tenant.deletion_requested" in
    let@ _ := drain drained in
    let@ _ := emap_err (wrap "admin: ") (sweep_from tenantID sweepers) in
    let@ _ := emap_err (wrap "admin: mark deleted: ") (UpsertStatus tenantID TenantStatusDeleted) in
    emitAudit has_audit tenantID requestedBy "tenant.deleted".

(** The endpoint: the status of the response. *)
Definition delete_endpoint (has_audit drained : bool) (path : string) (auth : option string) (actor : string)
    (w : Env World) : Z * Env World :=
  if str_empty path then (400%Z, w)
  else match auth with
       | None => (401%Z, w)
       | Some a =>
           if negb (str_eqb a path) then (403%Z, w)
           else match Delete has_audit drained path actor w with
                | (Ok _, w') => (202%Z, w')
                | (Err _, w') => (500%Z, w')
                end
       end.

(** ** What a run does *)

Definition swept (tenantID : string) (l : list (string → T → T)) (t : T) : T := foldl (λ t sw, sw tenantID t) t l.

Lemma sweep_from_triple tenantID l (G : World → Prop) t :
  (∀ f s, G s → G (set_tiers f s)) →
  triple (λ s, G s ∧ tiers s = t) (sweep_from tenantID l)
    (λ _ s, G s ∧ tiers s = swept tenantID l t) (λ s, G s).
Proof.
  intros HG. revert t. induction l as [|sw l IH]; intros t; simpl; [by apply triple_ret|].
  apply (triple_bind _ _ _ (λ _ s, G s ∧ tiers s = sw tenantID t)); [|intros []; apply IH].
  apply triple_write. intros s [Hs <-]. split_and!; auto.
Qed.

Lemma emitAudit_triple (P R : World → Prop) has_audit tenantID actor action :
  (∀ e s, P s → P (log_event e s)) → triple P (emitAudit has_audit tenantID actor action) (λ _, P) R.
Proof.
  intros HP. unfold emitAudit. destruct has_audit; [|by apply triple_ret].
  intros w Hw. unfold ewrite, ecall. simpl. destruct (fate (calls_made w)); simpl; auto.
Qed.

Definition state_of (tenantID : string) (s : World) : string :=
  match lifecycle s !! tenantID with Some r => State r | None => EmptyString end.

(** The lifecycle rows of other tenants are those of [s0]. *)
Definition others_kept (tenantID : string) (s0 s : World) : Prop :=
  ∀ tn, tn ≠ tenantID → lifecycle s !! tn = lifecycle s0 !! tn.

Lemma MarkLifecycle_triple tenantID state by_ s0 (L : gmap string string) t (R : World → Prop) :
  (∀ s, others_kept tenantID s0 s ∧ leases s = L ∧ tiers s = t → state_of tenantID s = state → R s) →
  triple (λ s, (others_kept tenantID s0 s ∧ leases s = L ∧ tiers s = t) ∧ R s) (MarkLifecycle tenantID state by_)
    (λ _ s, (others_kept tenantID s0 s ∧ leases s = L ∧ tiers s = t) ∧ state_of tenantID s = state) R.
Proof.
  intros HR. unfold MarkLifecycle. destruct (str_empty tenantID); [apply triple_throw; by intros s [_ ?]|].
  apply (triple_here _ (λ w, ewrite _ _)). intros w. apply triple_write. intros s [(Ho & Hl & Ht) HRs].
  assert (Hnew : ∀ row : TenantLifecycle, State row = state →
    let s' := set_lifecycle (λ m, <[tenantID := row]> m) s in
    (others_kept tenantID s0 s' ∧ leases s' = L ∧ tiers s' = t) ∧ state_of tenantID s' = state).
  { intros row Hrow. simpl. split; [split_and!; [|done|done]|].
    - intros tn Hne. simpl. rewrite lookup_insert_ne by done. by apply Ho.
    - unfold state_of. simpl. by rewrite lookup_insert_eq. }
  pose proof (Hnew (lifecycle_row (clock (calls_made w) 0) state by_ (lifecycle s !! tenantID)) eq_refl) as H1.
  split; [exact H1|]. split; [done|]. apply HR; apply H1.
Qed.

(** Before the lease: only the lifecycle row changes. *)
Definition untouched (tenantID : string) (s0 s : World) : Prop :=
  others_kept tenantID s0 s ∧ leases s = leases s0 ∧ tiers s = tiers s0.

(** Under the lease: nothing is deleted before every tier is swept. *)
Definition in_progress (tenantID : string) (s0 : World) (L : gmap string string) (s : World) : Prop :=
  others_kept tenantID s0 s ∧ leases s = L ∧
  (state_of tenantID s = LifecycleDeleted → tiers s = swept tenantID sweepers (tiers s0)).

Lemma body_triple has_audit tenantID by_ s0 L :
  triple (λ s, others_kept tenantID s0 s ∧ leases s = L ∧ tiers s = tiers s0 ∧ state_of tenantID s = LifecyclePendingDeletion)
    (let@ _ := emap_err (wrap "shard: ") (sweep_from tenantID sweepers) in
     let@ _ := emap_err (wrap "shard: mark deleted: ") (MarkLifecycle tenantID LifecycleDeleted by_) in
     emitAudit has_audit tenantID by_ "tenant.deleted")
    (λ _ s, in_progress tenantID s0 L s ∧ state_of tenantID s = LifecycleDeleted) (in_progress tenantID s0 L).
Proof.
  set (G := λ s : World, (others_kept tenantID s0 s ∧ leases s = L) ∧ state_of tenantID s = LifecyclePendingDeletion).
  apply (triple_bind _ _ _ (λ _ s, G s ∧ tiers s = swept tenantID sweepers (tiers s0))).
  { eapply triple_weaken; [apply triple_emap, (sweep_from_triple tenantID sweepers G (tiers s0)); by intros f s| | |].
    - intros s (? & ? & ? & ?). unfold G. by split_and!.
    - done.
    - intros s ((Ho & Hl) & Hp). split_and!; [done|done|]. rewrite Hp. done. }
  intros []. apply (triple_bind _ _ _ (λ _ s, in_progress tenantID s0 L s ∧ state_of tenantID s = LifecycleDeleted)).
  - eapply triple_weaken; [apply triple_emap, (MarkLifecycle_triple tenantID LifecycleDeleted by_ s0 L
      (swept tenantID sweepers (tiers s0)) (in_progress tenantID s0 L)); intros s (? & ? & ?) ?; by split_and!| | |done].
    + intros s [((Ho & Hl) & Hp) Ht]. split_and!; try done.
    + intros [] s [(Ho & Hl & Ht) Hd]. split; [by split_and!|done].
  - intros []. apply emitAudit_triple. intros e s Hs. exact Hs.
Qed.

Lemma prepare_triple has_audit drained tenantID by_ s0 {A} (k : unit → M A) Q R :
  (∀ s, untouched tenantID s0 s ∧ (lifecycle s = lifecycle s0 ∨ state_of tenantID s = LifecyclePendingDeletion) → R s) →
  triple (λ s, untouched tenantID s0 s ∧ state_of tenantID s = LifecyclePendingDeletion) (k tt) Q R →
  triple (λ s, s = s0)
    (let@ _ := emap_err (wrap "shard: mark pending: ") (MarkLifecycle tenantID LifecyclePendingDeletion by_) in
     let@ _ := emitAudit has_audit tenantID by_ "tenant.deletion_requested" in
     let@ _ := drain drained in k tt) Q R.
Proof.
  intros HR Hk.
  set (P := λ s, untouched tenantID s0 s ∧ state_of tenantID s = LifecyclePendingDeletion).
  set (R0 := λ s, untouched tenantID s0 s ∧ (lifecycle s = lifecycle s0 ∨ state_of tenantID s = LifecyclePendingDeletion)).
  apply (triple_bind _ _ _ (λ _, P)).
  { eapply triple_weaken; [apply triple_emap, (MarkLifecycle_triple tenantID LifecyclePendingDeletion by_ s0
      (leases s0) (tiers s0) R0); intros s ? ?; split; [done|by right]| | |exact HR].
    - intros s ->. unfold R0, untouched. split_and!; try done. by left.
    - intros [] s Hs. exact Hs. }
  intros []. apply (triple_bind _ _ _ (λ _, P)); [apply emitAudit_triple; intros e s Hs; exact Hs|].
  intros []. apply (triple_bind _ _ _ (λ _, P)).
  - unfold drain. destruct drained; [by apply triple_ret|]. apply triple_throw. intros s [? ?]. apply HR. split; [done|by right].
  - intros []. exact Hk.
Qed.

(** The outcome of a run from [s0]. *)
Record run_spec (key tenantID : string) (s0 s : World) : Prop := {
  rs_tenants : others_kept tenantID s0 s;
  rs_leases : ∀ k, k ≠ key → leases s !! k = leases s0 !! k;
  rs_foreign : ∀ t, leases s0 !! key = Some t → leases s !! key = Some t ∧ tiers s = tiers s0;
  rs_deleted : state_of tenantID s = LifecycleDeleted →
    tiers s = swept tenantID sweepers (tiers s0) ∨ lifecycle s = lifecycle s0
}.

Lemma prepared_spec key tenantID s0 s :
  untouched tenantID s0 s ∧ (lifecycle s = lifecycle s0 ∨ state_of tenantID s = LifecyclePendingDeletion) →
  run_spec key tenantID s0 s.
Proof.
  intros [(Ho & Hl & Ht) Hs]. constructor; [done|by rewrite Hl|by rewrite Hl, Ht|].
  destruct Hs as [?| ->]; [by right|done].
Qed.

Lemma fenced_run has_audit key token tenantID by_ s0 :
  triple (λ s, untouched tenantID s0 s ∧ state_of tenantID s = LifecyclePendingDeletion)
    (fenced leases set_leases (ForgetError "shard: lease acquire") ErrLeaseHeld key token
      (let@ _ := emap_err (wrap "shard: ") (sweep_from tenantID sweepers) in
       let@ _ := emap_err (wrap "shard: mark deleted: ") (MarkLifecycle tenantID LifecycleDeleted by_) in
       emitAudit has_audit tenantID by_ "tenant.deleted"))
    (λ _ s, run_spec key tenantID s0 s ∧ leases s0 !! key = None ∧ state_of tenantID s = LifecycleDeleted ∧
            tiers s = swept tenantID sweepers (tiers s0))
    (run_spec key tenantID s0).
Proof.
  intros w [(Ho & Hl & Ht) Hp]. destruct (fenced _ _ _ _ _ _ _ w) as [r w'] eqn:Ef.
  apply fenced_spec in Ef as [(e & -> & Hheld & Hs)|(Hfree & w1 & w2 & E1 & Eb & E2)].
  - assert (Hst : state_of tenantID (store w') = LifecyclePendingDeletion) by by destruct Hs as [->| ->].
    constructor.
    + destruct Hs as [->| ->]; done.
    + intros k Hne. rewrite <- Hl. destruct Hs as [->| ->]; [done|]. simpl. by rewrite lookup_insert_ne.
    + intros t Hk. rewrite <- Hl in Hk. rewrite Hheld by by eexists. by rewrite <- Ht.
    + rewrite Hst. done.
  - pose proof (body_triple has_audit tenantID by_ s0 (<[key := token]> (leases s0)) w1) as Hb.
    rewrite Eb in Hb.
    assert (Hpre : others_kept tenantID s0 (store w1) ∧ leases (store w1) = <[key := token]> (leases s0) ∧
      tiers (store w1) = tiers s0 ∧ state_of tenantID (store w1) = LifecyclePendingDeletion).
    { rewrite E1. simpl. rewrite Hl. done. }
    specialize (Hb Hpre). rewrite Hl in Hfree.
    assert (Hw2 : in_progress tenantID s0 (<[key := token]> (leases s0)) (store w2)).
    { destruct r; [apply Hb|done]. }
    assert (Hsame : state_of tenantID (store w') = state_of tenantID (store w2) ∧ tiers (store w') = tiers (store w2)
      ∧ lifecycle (store w') = lifecycle (store w2)) by by destruct E2 as [->|[_ ->]].
    destruct Hsame as (S1 & S2 & S3). destruct Hw2 as (O2 & L2 & D2).
    assert (Hrun : run_spec key tenantID s0 (store w')).
    { constructor.
      - intros tn Hne. rewrite S3. by apply O2.
      - intros k Hne. destruct E2 as [->|[_ ->]]; simpl; rewrite ?lookup_delete_ne by done;
          by rewrite L2, lookup_insert_ne.
      - intros t Hk. congruence.
      - rewrite S1, S2. intros Hd. left. by apply D2. }
    destruct r as [[]|e]; [|done]. destruct Hb as [_ Hdel].
    split_and!; [done|done|congruence|]. rewrite S2. by apply D2.
Qed.

(** C22: forgetting a tenant changes no other tenant's lifecycle and no lease but its
    own; while another worker holds the tenant's lease it leaves that lease and the
    storage alone; the tenant is recorded as deleted only when every sweeper has been
    applied, in order; and a run that succeeds has done exactly that. *)
Theorem Forget_contract prefix has_audit drained token tenantID by_ w r w' :
  Forget prefix has_audit drained token tenantID by_ w = (r, w') →
  run_spec (lease_key prefix tenantID) tenantID (store w) (store w') ∧
  (r = Ok tt → leases (store w) !! lease_key prefix tenantID = None ∧
     state_of tenantID (store w') = LifecycleDeleted ∧
     tiers (store w') = swept tenantID sweepers (tiers (store w))).
Proof.
  intros Hrun. unfold Forget in Hrun. destruct (str_empty tenantID); [injection Hrun as <- <-|].
  { split; [|done]. constructor; [done|done|done|by right]. }
  set (key := lease_key prefix tenantID) in *.
  set (body := λ w : Env World, fenced leases set_leases (ForgetError "shard: lease acquire") ErrLeaseHeld key (token (calls_made w))
      (let@ _ := emap_err (wrap "shard: ") (sweep_from tenantID sweepers) in
       let@ _ := emap_err (wrap "shard: mark deleted: ") (MarkLifecycle tenantID LifecycleDeleted by_) in
       emitAudit has_audit tenantID by_ "tenant.deleted")).
  pose proof (prepare_triple has_audit drained tenantID by_ (store w) (λ _ w, body w w) _ (run_spec key tenantID (store w))
    (prepared_spec key tenantID (store w))
    (triple_here _ body _ _ (λ w1, fenced_run has_audit key (token (calls_made w1)) tenantID by_ (store w))) w eq_refl) as Htr.
  unfold body in Htr. cbv beta in Htr. rewrite Hrun in Htr. destruct r as [[]|e]; [|by split].
  destruct Htr as (H1 & H2 & H3 & H4). by split.
Qed.

(** However the sweepers interact, if each cleans its own tier and none undoes
    another's work, nothing of the tenant is left. *)
Lemma swept_clean (clean : nat → string → T → Prop) tenantID t :
  (∀ i sw t, sweepers !! i = Some sw → clean i tenantID (sw tenantID t)) →
  (∀ i j sw t, sweepers !! j = Some sw → clean i tenantID t → clean i tenantID (sw tenantID t)) →
  ∀ i, i < length sweepers → clean i tenantID (swept tenantID sweepers t).
Proof.
  intros Hc Hk i Hi. unfold swept. rewrite <- (take_drop (S i) sweepers), foldl_app.
  destruct (lookup_lt_is_Some_2 sweepers i Hi) as [sw Hsw].
  rewrite (take_S_r _ _ _ Hsw), foldl_app. simpl.
  assert (Hrest : ∀ l t', (∀ sw, sw ∈ l → sw ∈ sweepers) → clean i tenantID t' →
                    clean i tenantID (foldl (λ t sw, sw tenantID t) t' l)).
  { induction l as [|x l IH]; intros t' Hl Ht'; simpl; [done|]. apply IH; [intros y Hy; apply Hl; by right|].
    destruct (list_elem_of_lookup_1 sweepers x) as [j Hj]; [apply Hl; by left|]. by apply (Hk i j). }
  apply Hrest; [|by apply Hc]. intros x Hx. eapply elem_of_sublist; [exact Hx|apply sublist_drop].
Qed.

(** Deleting through the admin surface: on success every tier is swept. *)
Lemma Delete_sweeps has_audit drained tenantID by_ w w' :
  Delete has_audit drained tenantID by_ w = (Ok tt, w') →
  tiers (store w') = swept tenantID sweepers (tiers (store w)) ∧
  statuses (store w') !! tenantID = Some TenantStatusDeleted.
Proof.
  unfold Delete. destruct (str_empty tenantID) eqn:Et; [done|]. intros Hrun.
  assert (Haudit : ∀ a w1 w2, emitAudit has_audit tenantID by_ a w1 = (Ok tt, w2) →
            tiers (store w2) = tiers (store w1) ∧ statuses (store w2) = statuses (store w1)).
  { intros a w1 w2. unfold emitAudit, ewrite, ecall. destruct has_audit; [|by intros [= <-]].
    simpl. by destruct (fate (calls_made w1)); intros [= <-]. }
  assert (Hup : ∀ st w1 w2, UpsertStatus tenantID st w1 = (Ok tt, w2) → store w2 = set_statuses (insert tenantID st) (store w1)).
  { intros st w1 w2. unfold UpsertStatus. rewrite Et. apply ewrite_Ok. }
  apply ebind_Ok in Hrun as ([] & w1 & H1%emap_Ok%Hup & Hrun).
  apply ebind_Ok in Hrun as ([] & w2 & [A2 _]%Haudit & Hrun).
  apply ebind_Ok in Hrun as ([] & w3 & Hd & Hrun). destruct drained; [injection Hd as <-|done].
  apply ebind_Ok in Hrun as ([] & w4 & Hs%emap_Ok & Hrun).
  apply ebind_Ok in Hrun as ([] & w5 & H5%emap_Ok%Hup & [A6 S6]%Haudit).
  pose proof (sweep_from_triple tenantID sweepers (λ _, True) (tiers (store w2)) (λ _ _ _, I) w2 (conj I eq_refl)) as Hsw.
  rewrite Hs in Hsw. destruct Hsw as [_ Hsw]. rewrite A6, S6, H5. simpl. rewrite Hsw, A2, H1. simpl.
  split; [done|by rewrite lookup_insert_eq].
Qed.
End Tenant.
End TenantForget.

Module SourceForget.

Import Sources.

Inductive worker_error :=
| ErrLeaseHeld
| RefuseSweep (status : string)
| WorkerError (msg : string).

Section Worker.
Context {Config T : Type}.

Record World := {
  sources : gmap string (Source (Config := Config));
  leases : gmap string string;
  tiers : T;
  trail : list (string * string * string)
}.
Definition set_sources f (s : World) : World :=
  {| sources := f (sources s); leases := leases s; tiers := tiers s; trail := trail s |}.
Definition set_leases f (s : World) : World :=
  {| sources := sources s; leases := f (leases s); tiers := tiers s; trail := trail s |}.
Definition set_tiers f (s : World) : World :=
  {| sources := sources s; leases := leases s; tiers := f (tiers s); trail := trail s |}.
Definition log_event e (s : World) : World :=
  {| sources := sources s; leases := leases s; tiers := tiers s; trail := trail s ++ [e] |}.

Abbreviation M := (Eff World worker_error) (only parsing).

Context `{Outside}.
Context (sweepers : list (string → string → T → T)).

(** A call of the source repository on the sources of this world. *)
Definition on_sources {A} (op : string) (m : Eff (gmap string (Source (Config := Config))) source_error A) : M A := λ w,
  let '(r, w') := m {| store := sources (store w); calls_made := calls_made w |} in
  (match r with Ok a => Ok a | Err _ => Err (WorkerError op) end,
   {| store := set_sources (λ _, store w') (store w); calls_made := calls_made w' |}).

Record ForgetJob := { j_TenantID : string; j_SourceID : string; j_Actor : string }.

Fixpoint sweep_from (job : ForgetJob) (l : list (string → string → T → T)) : M unit :=
  match l with
  | [] => eret tt
  | sw :: rest =>
      let@ _ := ewrite (WorkerError "forget: sweeper") (set_tiers (sw (j_TenantID job) (j_SourceID job))) in
      sweep_from job rest
  end.

Definition worker_key (prefix : string) (job : ForgetJob) : string :=
  str_app (if str_empty prefix then "hf:forget:"%string else prefix)
    (str_app (j_TenantID job) (str_app ":" (j_SourceID job))).

Definition purge (has_audit : bool) (job : ForgetJob) : M unit :=
  let@ current := on_sources "forget: load source" (Get (j_TenantID job) (j_SourceID job)) in
  if negb (str_eqb (Status current) SourceStatusRemoving) then ethrow (RefuseSweep (Status current))
  else
    let@ _ := sweep_from job sweepers in
    let@ _ := on_sources "forget: mark removed" (MarkRemoved (j_TenantID job) (j_SourceID job)) in
    if has_audit
    then λ w, (Ok tt, (ewrite (WorkerError "audit") (log_event (j_TenantID job, j_SourceID job, "source.purged"%string)) w).2)
    else eret tt.

Definition Run (prefix : string) (has_audit : bool) (token : nat → string) (job : ForgetJob) : M unit :=
  if str_empty (j_TenantID job) || str_empty (j_SourceID job) then ethrow (WorkerError "forget: missing tenant/source")
  else λ w, fenced leases set_leases (WorkerError "forget: lease acquire") ErrLeaseHeld (worker_key prefix job)
              (token (calls_made w)) (purge has_audit job) w.

(** ** What a run does *)

Definition swept (job : ForgetJob) (l : list (string → string → T → T)) (t : T) : T :=
  foldl (λ t sw, sw (j_TenantID job) (j_SourceID job) t) t l.

Lemma sweep_Ok job l w w' :
  sweep_from job l w = (Ok tt, w') →
  tiers (store w') = swept job l (tiers (store w)) ∧ sources (store w') = sources (store w) ∧ leases (store w') = leases (store w).
Proof.
  revert w. induction l as [|sw l IH]; intros w; simpl; [by intros [= <-]|].
  intros ([] & w1 & H1%ewrite_Ok & H2)%ebind_Ok. destruct (IH w1 H2) as (-> & -> & ->). by rewrite H1.
Qed.

Lemma on_sources_Ok {A} op (m : Eff _ _ A) w a w' :
  on_sources op m w = (Ok a, w') →
  ∃ w1, m {| store := sources (store w); calls_made := calls_made w |} = (Ok a, w1) ∧
        store w' = set_sources (λ _, store w1) (store w).
Proof.
  unfold on_sources. destruct (m _) as [[x|e] w1]; [|done]. intros [= <- <-]. by exists w1.
Qed.

(** The source a purge loads, and nothing changes unless it is being removed. *)
Lemma purge_guard has_audit job w r w' :
  purge has_audit job w = (r, w') →
  tiers (store w') = tiers (store w) ∧ sources (store w') = sources (store w)
  ∨ ∃ src, owned (j_TenantID job) (j_SourceID job) (sources (store w)) = Some src ∧ Status src = SourceStatusRemoving.
Proof.
  unfold purge, ebind at 1. destruct (on_sources _ (Get _ _) w) as [[src|e] w1] eqn:Hg.
  - apply on_sources_Ok in Hg as (w2 & Hget & Es). unfold Get in Hget.
    destruct (str_empty (j_TenantID job) || str_empty (j_SourceID job)); [done|].
    apply ebind_Ok in Hget as (o & w3 & [-> E3]%eread_Ok & Hf). simpl in *.
    destruct (owned _ _ (sources (store w))) as [x|] eqn:Ex; [|done]. injection Hf as -> ->.
    destruct (str_eqb (Status src) SourceStatusRemoving) eqn:Est; simpl.
    + intros _. right. exists src. split; [done|by apply str_eqb_eq].
    + intros [= <- <-]. left. rewrite Es. simpl. by rewrite E3.
  - intros [= <- <-]. left. unfold on_sources, Get in Hg.
    destruct (str_empty (j_TenantID job) || str_empty (j_SourceID job)); [by injection Hg as _ <-|].
    unfold ebind, eread, ecall in Hg. simpl in Hg.
    destruct (fate (calls_made w)); [destruct (owned _ _ _)|..]; injection Hg as <- <- || done; done.
Qed.

Lemma purge_Ok has_audit job w w' :
  purge has_audit job w = (Ok tt, w') →
  tiers (store w') = swept job sweepers (tiers (store w)) ∧
  ∃ src now, owned (j_TenantID job) (j_SourceID job) (sources (store w)) = Some src ∧ Status src = SourceStatusRemoving ∧
    sources (store w') = <[j_SourceID job := set_status SourceStatusRemoved now src]> (sources (store w)).
Proof.
  intros Hp. pose proof (purge_guard _ _ _ _ _ Hp) as Hguard. unfold purge in Hp.
  apply ebind_Ok in Hp as (src & w1 & Hg & Hp). apply on_sources_Ok in Hg as (w1' & Hget & E1).
  destruct (str_eqb (Status src) SourceStatusRemoving) eqn:Est; [apply str_eqb_eq in Est|done]. simpl in Hp.
  assert (Hsrc : owned (j_TenantID job) (j_SourceID job) (sources (store w)) = Some src ∧ sources (store w1) = sources (store w)).
  { unfold Get in Hget. destruct (str_empty (j_TenantID job) || str_empty (j_SourceID job)); [done|].
    apply ebind_Ok in Hget as (o & w3 & [-> E3]%eread_Ok & Hf). simpl in *.
    destruct (owned _ _ (sources (store w))) as [x|]; [|done]. injection Hf as -> ->. rewrite E1. simpl. by rewrite E3. }
  destruct Hsrc as [Hsrc Es1].
  apply ebind_Ok in Hp as ([] & w2 & (T2 & S2 & _)%sweep_Ok & Hp).
  apply ebind_Ok in Hp as ([] & w3 & Hm & Hlast). apply on_sources_Ok in Hm as (w3' & Hmr & E3).
  assert (Hw' : tiers (store w') = tiers (store w3) ∧ sources (store w') = sources (store w3)).
  { revert Hlast. destruct has_audit; [|by intros [= <-]]. unfold ewrite, ecall. simpl.
    by destruct (fate (calls_made w3)); intros [= <-]. }
  destruct Hw' as [-> ->]. rewrite E3. simpl. split; [by rewrite T2, E1|].
  unfold MarkRemoved in Hmr. destruct (str_empty (j_TenantID job) || str_empty (j_SourceID job)); [done|].
  apply ebind_Ok in Hmr as (n & w4 & Hu & Hk). unfold update_where in Hu. apply ecall_Ok in Hu as (-> & E4 & _).
  simpl in *. rewrite S2, Es1 in *. rewrite Hsrc in *. simpl in *. injection Hk as <-.
  exists src, (clock (calls_made w2) 0). split_and!; [done|done|]. by rewrite E4.
Qed.

(** The worker purges a source only while the row of that tenant is being removed
    and no other worker holds its lease; otherwise tiers and rows stay untouched. When
    it succeeds every sweeper has been applied, in order, and the row is marked as
    removed. *)
Theorem Run_contract prefix has_audit token job w r w' :
  Run prefix has_audit token job w = (r, w') →
  (is_Some (leases (store w) !! worker_key prefix job) → store w' = store w ∧ r ≠ Ok tt) ∧
  (tiers (store w') = tiers (store w) ∧ sources (store w') = sources (store w)
   ∨ ∃ src, owned (j_TenantID job) (j_SourceID job) (sources (store w)) = Some src ∧ Status src = SourceStatusRemoving) ∧
  (r = Ok tt → tiers (store w') = swept job sweepers (tiers (store w)) ∧
     ∃ src now, owned (j_TenantID job) (j_SourceID job) (sources (store w)) = Some src ∧ Status src = SourceStatusRemoving ∧
       sources (store w') = <[j_SourceID job := set_status SourceStatusRemoved now src]> (sources (store w))).
Proof.
  intros Hrun. unfold Run in Hrun. destruct (str_empty (j_TenantID job) || str_empty (j_SourceID job)).
  { injection Hrun as <- <-. split_and!; [done|by left|done]. }
  apply fenced_spec in Hrun as [(e & -> & Hheld & Hs)|(Hfree & w1 & w2 & E1 & Eb & E2)].
  - split_and!; [intros Hk; by rewrite Hheld|left; by destruct Hs as [->| ->]|done].
  - assert (Hsame : tiers (store w') = tiers (store w2) ∧ sources (store w') = sources (store w2)) by by destruct E2 as [->|[_ ->]].
    destruct Hsame as [-> ->]. split_and!.
    + rewrite Hfree. by intros [? [=]].
    + pose proof (purge_guard _ _ _ _ _ Eb) as Hg. rewrite E1 in Hg. exact Hg.
    + intros ->. pose proof (purge_Ok _ _ _ _ Eb) as Hok. rewrite E1 in Hok. exact Hok.
Qed.
End Worker.
End SourceForget.

(** ** Several workers *)

Module Fence.

(** A run of [Forget] for one tenant by one of several workers, at the grain of its
    external calls: mark pending, acquire, one step per sweeper, mark deleted,
    release. The lease may expire while it is held. *)
Inductive phase := Start | Marked | Sweeping (done_ : nat) | Finished | Gone.

#[export] Instance phase_eq : EqDecision phase.
Proof. solve_decision. Defined.

Inductive tenant_state := Unmarked | Pending | Deleted.

#[export] Instance tenant_state_eq : EqDecision tenant_state.
Proof. solve_decision. Defined.

Record State := {
  phases : gmap nat phase;
  lease : option nat;           (** the worker whose token the lease carries *)
  tenant : tenant_state;
  log : list (nat * nat)        (** worker and sweeper, oldest first *)
}.

Inductive action :=
| Mark (i : nat)
| Acquire (i : nat)
| Sweep (i : nat) (ok : bool)
| MarkDeleted (i : nat)
| Release (i : nat)
| Expire.

Section Fence.
Context (n : nat).   (** number of sweepers *)

Definition set_phase (i : nat) (p : phase) (s : State) : gmap nat phase := <[i := p]> (phases s).

Definition unlock (i : nat) (l : option nat) : option nat := if bool_decide (l = Some i) then None else l.

Definition act (s : State) (a : action) : option State :=
  match a with
  | Mark i =>
      match phases s !! i with
      | Some Start => Some {| phases := set_phase i Marked s; lease := lease s; tenant := Pending; log := log s |}
      | _ => None
      end
  | Acquire i =>
      match phases s !! i, lease s with
      | Some Marked, None => Some {| phases := set_phase i (Sweeping 0) s; lease := Some i; tenant := tenant s; log := log s |}
      | Some Marked, Some _ => Some {| phases := set_phase i Gone s; lease := lease s; tenant := tenant s; log := log s |}
      | _, _ => None
      end
  | Sweep i ok =>
      match phases s !! i with
      | Some (Sweeping k) =>
          if (k <? n)%nat then
            if ok then Some {| phases := set_phase i (Sweeping (S k)) s; lease := lease s; tenant := tenant s; log := log s ++ [(i, k)] |}
            else Some {| phases := set_phase i Finished s; lease := lease s; tenant := tenant s; log := log s |}
          else None
      | _ => None
      end
  | MarkDeleted i =>
      match phases s !! i with
      | Some (Sweeping k) =>
          if (k =? n)%nat then Some {| phases := set_phase i Finished s; lease := lease s; tenant := Deleted; log := log s |} else None
      | _ => None
      end
  | Release i =>
      match phases s !! i with
      | Some Finished => Some {| phases := set_phase i Gone s; lease := unlock i (lease s); tenant := tenant s; log := log s |}
      | _ => None
      end
  | Expire => Some {| phases := phases s; lease := None; tenant := tenant s; log := log s |}
  end.

Definition step (s s' : State) : Prop := ∃ a, act s a = Some s'.
Definition step_no_expiry (s s' : State) : Prop := ∃ a, a ≠ Expire ∧ act s a = Some s'.

Definition init (workers : list nat) : State :=
  {| phases := list_to_map ((λ i, (i, Start)) <$> workers); lease := None; tenant := Unmarked; log := [] |}.

Fixpoint run (s : State) (l : list action) : option State :=
  match l with [] => Some s | a :: l' => s' ← act s a; run s' l' end.

(** Between acquisition and release. *)
Definition holding (p : phase) : bool := match p with Sweeping _ | Finished => true | _ => false end.

Definition sweeps_of (i : nat) (l : list (nat * nat)) : list nat := snd <$> List.filter (λ x, x.1 =? i) l.

Lemma sweeps_of_snoc i j k l : sweeps_of i (l ++ [(j, k)]) = sweeps_of i l ++ (if j =? i then [k] else []).
Proof. unfold sweeps_of. rewrite List.filter_app, fmap_app. simpl. by destruct (j =? i). Qed.

(** A worker that has done [k] sweeps did the first [k], in order; a deletion on record
    has a worker that did them all. *)
Record inv (s : State) : Prop := {
  inv_progress : ∀ i k, phases s !! i = Some (Sweeping k) → k ≤ n ∧ sweeps_of i (log s) = seq 0 k;
  inv_early : ∀ i p, phases s !! i = Some p → (p = Start ∨ p = Marked) → sweeps_of i (log s) = [];
  inv_lease : ∀ i, lease s = Some i → ∃ p, phases s !! i = Some p ∧ holding p = true;
  inv_deleted : tenant s = Deleted → ∃ i, sweeps_of i (log s) = seq 0 n
}.

Lemma fence_init_inv workers : inv (init workers).
Proof.
  constructor; simpl; try done.
  intros i k Hk%elem_of_list_to_map_2. by apply list_elem_of_fmap in Hk as (? & [=] & _).
Qed.

Ltac split_phase i j := destruct (decide (i = j)) as [->|]; [rewrite lookup_insert_eq in *|rewrite lookup_insert_ne in * by done].

(** A worker changes phase without sweeping. *)
Lemma move_inv s i p p' l t :
  inv s → phases s !! i = Some p →
  (∀ k, p' = Sweeping k → k ≤ n ∧ sweeps_of i (log s) = seq 0 k) →
  (p' = Start ∨ p' = Marked → p = Start ∨ p = Marked) →
  (∀ j, l = Some j → j = i ∧ holding p' = true ∨ j ≠ i ∧ lease s = Some j) →
  (t = Deleted → tenant s = Deleted ∨ sweeps_of i (log s) = seq 0 n) →
  inv {| phases := set_phase i p' s; lease := l; tenant := t; log := log s |}.
Proof.
  intros [Hp He Hl Hd] Hi H1 H2 H3 H4. constructor; simpl; unfold set_phase.
  - intros j k. split_phase i j; [intros [= ->]; by apply H1|apply Hp].
  - intros j q. split_phase i j; [intros [= <-] Hq; apply (He j p); [done|by apply H2]|apply He].
  - intros j Hj. destruct (H3 j Hj) as [[-> Hh]|[Hne Hold]].
    + exists p'. by rewrite lookup_insert_eq.
    + rewrite lookup_insert_ne by done. by apply Hl.
  - intros [?|?]%H4; [by apply Hd|by exists i].
Qed.

Lemma sweep_inv s i k :
  inv s → phases s !! i = Some (Sweeping k) → k < n →
  inv {| phases := set_phase i (Sweeping (S k)) s; lease := lease s; tenant := tenant s; log := log s ++ [(i, k)] |}.
Proof.
  intros [Hp He Hl Hd] Ei Hk. destruct (Hp i k Ei) as [_ Hseq]. constructor; simpl; unfold set_phase.
  - intros j k'. rewrite sweeps_of_snoc. split_phase i j.
    + intros [= <-]. rewrite Nat.eqb_refl, Hseq. split; [lia|]. by rewrite seq_S.
    + rewrite (proj2 (Nat.eqb_neq i j)), app_nil_r by done. apply Hp.
  - intros j p. rewrite sweeps_of_snoc. split_phase i j; [intros [= <-]; by intros [|]|].
    rewrite (proj2 (Nat.eqb_neq i j)), app_nil_r by done. apply He.
  - intros j Hj. destruct (Hl j Hj) as (p & Hp1 & Hp2). split_phase i j; [by eexists|]. by exists p.
  - intros Hdel. destruct (Hd Hdel) as [j Hj]. exists j. rewrite sweeps_of_snoc, Hj.
    destruct (Nat.eqb_spec i j) as [->|]; [|by rewrite app_nil_r]. rewrite Hj in Hseq.
    apply (f_equal length) in Hseq. rewrite !length_seq in Hseq. lia.
Qed.

(** The lease of a worker that is not holding is somebody else's. *)
Lemma lease_other s i p j :
  inv s → phases s !! i = Some p → holding p = false → lease s = Some j → j ≠ i ∧ lease s = Some j.
Proof.
  intros Hs Hi Hh Hj. split; [|done]. intros ->. destruct (inv_lease s Hs i Hj) as (q & Hq & Hq2). congruence.
Qed.

Lemma fence_act_inv s a s' : inv s → act s a = Some s' → inv s'.
Proof.
  intros Hs Ha. destruct a as [i|i|i ok|i|i|]; simpl in Ha.
  - destruct (phases s !! i) as [[]|] eqn:Ei; try done. injection Ha as <-.
    apply (move_inv s i Start); try done; [by left|]. intros j Hj. right. by eapply lease_other.
  - destruct (phases s !! i) as [[]|] eqn:Ei; try done. destruct (lease s) as [h|] eqn:Eh; injection Ha as <-.
    + apply (move_inv s i Marked); try done; [by intros [|]| |by left]. intros j Hj. right. rewrite <- Eh in *. by eapply lease_other.
    + apply (move_inv s i Marked); try done; [|by right|intros j [= <-]; by left|by left].
      intros k [= <-]. split; [lia|]. apply (inv_early s Hs i Marked); [done|by right].
  - destruct (phases s !! i) as [[| |k| |]|] eqn:Ei; try done. destruct (Nat.ltb_spec k n) as [Hk|]; [|done].
    destruct ok; injection Ha as <-; [by apply sweep_inv|].
    apply (move_inv s i (Sweeping k)); try done; [by intros [|]| |by left].
    intros j Hj. destruct (decide (j = i)); [by left|by right].
  - destruct (phases s !! i) as [[| |k| |]|] eqn:Ei; try done. destruct (Nat.eqb_spec k n) as [->|]; [|done].
    injection Ha as <-. apply (move_inv s i (Sweeping n)); try done; [by intros [|]| |].
    + intros j Hj. destruct (decide (j = i)); [by left|by right].
    + intros _. right. by apply (inv_progress s Hs).
  - destruct (phases s !! i) as [[| | | |]|] eqn:Ei; try done. injection Ha as <-.
    apply (move_inv s i Finished); try done; [by intros [|]| |by left].
    intros j Hj. unfold unlock in Hj. case_bool_decide as Hb; [done|]. right. split; [congruence|done].
  - injection Ha as <-. destruct Hs. by constructor.
Qed.

Lemma fence_reachable_inv workers s : rtc step (init workers) s → inv s.
Proof.
  apply rtc_preserves; [|apply fence_init_inv]. intros a b Ha [x Hx]. by eapply fence_act_inv.
Qed.

(** Without expiry, whoever is between acquisition and release holds the lease. *)
Lemma exclusive_inv workers s :
  rtc step_no_expiry (init workers) s →
  inv s ∧ ∀ i p, phases s !! i = Some p → holding p = true → lease s = Some i.
Proof.
  apply (rtc_preserves _ (λ s, inv s ∧ ∀ i p, phases s !! i = Some p → holding p = true → lease s = Some i)).
  - intros a b [Ha Hh] (x & Hx & Hact). split; [by eapply fence_act_inv|].
    destruct x as [i|i|i ok|i|i|]; simpl in Hact; [| | | | |done]; destruct (phases a !! i) as [q|] eqn:Ei; try done.
    + destruct q; try done. injection Hact as <-. simpl. unfold set_phase.
      intros j p. split_phase i j; [by intros [= <-]|]. apply Hh.
    + destruct q; try done. destruct (lease a) as [h|] eqn:El; injection Hact as <-; simpl; unfold set_phase; intros j p.
      * split_phase i j; [by intros [= <-]|]. apply Hh.
      * split_phase i j; [done|]. intros H1 H2. specialize (Hh j p H1 H2). congruence.
    + destruct q as [| |k| |]; try done. destruct (k <? n); [|done]. pose proof (Hh i _ Ei eq_refl) as Hi.
      destruct ok; injection Hact as <-; simpl; unfold set_phase; intros j p; (split_phase i j; [done|apply Hh]).
    + destruct q as [| |k| |]; try done. destruct (k =? n); [|done]. pose proof (Hh i _ Ei eq_refl) as Hi.
      injection Hact as <-. simpl. unfold set_phase. intros j p. split_phase i j; [done|apply Hh].
    + destruct q; try done. pose proof (Hh i _ Ei eq_refl) as Hi. injection Hact as <-. simpl. unfold set_phase.
      intros j p. split_phase i j; [by intros [= <-]|]. intros H1 H2. specialize (Hh j p H1 H2). congruence.
  - split; [apply fence_init_inv|]. intros i p Hp%elem_of_list_to_map_2 Hh. simpl in Hp.
    by apply list_elem_of_fmap in Hp as (? & [= _ ->] & _).
Qed.

(** C8: however many workers forget the same tenant and however their calls
    interleave, expiry of the lease included: the tenant is recorded as deleted only
    after some worker has applied all sweepers in order; a lease is released only by
    its holder or by expiry; and as long as no lease expires, at most one worker is
    between acquisition and release. *)
Theorem forgetting_is_fenced workers s :
  (rtc step (init workers) s →
     (tenant s = Deleted → ∃ i, sweeps_of i (log s) = seq 0 n) ∧
     (∀ a s' j, act s a = Some s' → lease s = Some j → lease s' = Some j ∨ a = Release j ∨ a = Expire)) ∧
  (rtc step_no_expiry (init workers) s →
     ∀ i j p q, phases s !! i = Some p → phases s !! j = Some q → holding p = true → holding q = true → i = j).
Proof.
  split.
  - intros Hr%fence_reachable_inv. split; [apply (inv_deleted s Hr)|].
    intros a s' j Ha Hj. destruct a as [i|i|i ok|i|i|]; simpl in Ha; [| | | | |by right; right];
      repeat (case_match; try done); simplify_eq; simpl; try (by left).
    unfold unlock. case_bool_decide; [right; left; congruence|by left].
  - intros [_ Hh]%exclusive_inv i j p q Hi Hj Hp Hq. pose proof (Hh i p Hi Hp). pose proof (Hh j q Hj Hq). congruence.
Qed.
End Fence.

(** Once the lease has expired a second worker sweeps beside the first. *)
Example expired_lease_two_sweepers :
  match run 2 (init [1; 2]) [Mark 1; Acquire 1; Sweep 1 true; Expire; Mark 2; Acquire 2; Sweep 2 true] with
  | Some s => phases s !! 1 = Some (Sweeping 1) ∧ phases s !! 2 = Some (Sweeping 1)
  | None => False
  end.
Proof. vm_compute. done. Qed.

(** A second request that marks the tenant after the first has finished its work but
    not released its lease is turned away, and leaves the tenant pending for good. *)
Example late_request_reopens_tenant :
  match run 1 (init [1; 2]) [Mark 1; Acquire 1; Sweep 1 true; MarkDeleted 1; Mark 2; Acquire 2; Release 1] with
  | Some s => tenant s = Pending ∧ phases s !! 1 = Some Gone ∧ phases s !! 2 = Some Gone ∧ lease s = None
  | None => False
  end.
Proof. vm_compute. done. Qed.

Lemma run_reaches n s l s' : run n s l = Some s' → rtc (step n) s s'.
Proof.
  revert s. induction l as [|a l IH]; intros s; simpl; [by intros [= ->]|].
  destruct (act n s a) as [s1|] eqn:E; simpl; [|done]. intros Hr. eapply rtc_l; [by exists a|by apply IH].
Qed.

Definition sample_actions : list action := [Mark 1; Acquire 1; Sweep 1 true; MarkDeleted 1; Release 1].
Definition sample_end : State := default (init [1]) (run 1 (init [1]) sample_actions).

Lemma forgetting_is_fenced_witness : tenant sample_end = Deleted ∧ ∃ i, sweeps_of i (log sample_end) = seq 0 1.
Proof.
  split; [reflexivity|]. apply (forgetting_is_fenced 1 [1] sample_end).
  - apply (run_reaches 1 _ sample_actions). reflexivity.
  - reflexivity.
Defined.
End Fence.

(** ** Samples *)

Module ForgetSamples.

Definition sample_sweepers : list (string → list nat → list nat) := [λ _ t, t ++ [1]; λ _ t, t ++ [2]].
Definition sample_world : Env (TenantForget.World (T := list nat)) :=
  {| store := {| TenantForget.lifecycle := ∅; TenantForget.statuses := ∅; TenantForget.leases := ∅; TenantForget.tiers := [];
                 TenantForget.trail := [] |}; calls_made := 0 |}.

Lemma Forget_contract_witness :
  let w' := (@TenantForget.Forget _ calm sample_sweepers "" true true (λ _, "tok"%string) "t" "admin" sample_world).2 in
  TenantForget.tiers (store w') = [1; 2] ∧ TenantForget.leases (store w') = ∅.
Proof.
  intros w'. destruct (@TenantForget.Forget_contract _ calm sample_sweepers "" true true (λ _, "tok"%string) "t" "admin"
    sample_world (Ok tt) w') as [_ Hok]; [vm_compute; reflexivity|].
  destruct (Hok eq_refl) as (_ & _ & Ht). split; [exact Ht|vm_compute; reflexivity].
Defined.

Definition source_sweepers : list (string → string → list nat → list nat) := [λ _ _ t, t ++ [1]].
Definition source_world : Env (SourceForget.World (Config := nat) (T := list nat)) :=
  {| store := {| SourceForget.sources := {["a"%string := Sources.sample_source "a" "removing"]}; SourceForget.leases := ∅;
                 SourceForget.tiers := []; SourceForget.trail := [] |}; calls_made := 0 |}.
Definition sample_job : SourceForget.ForgetJob :=
  {| SourceForget.j_TenantID := "t"; SourceForget.j_SourceID := "a"; SourceForget.j_Actor := "admin" |}.

Lemma Run_contract_witness :
  SourceForget.tiers (store (@SourceForget.Run _ _ calm source_sweepers "" true (λ _, "tok"%string) sample_job source_world).2) = [1].
Proof.
  apply (@SourceForget.Run_contract _ _ calm source_sweepers "" true (λ _, "tok"%string) sample_job source_world (Ok tt)).
  - vm_compute. reflexivity.
  - reflexivity.
Defined.
End ForgetSamples.
