(* ===== verification/AuditTrail.v ===== *)
(** * The audit trail

    internal/audit: the table of repository.go, the outbox of outbox.go, the hash
    chain of integrity.go and the background check of integrity_worker.go. SQL, JSON,
    Kafka and SHA-256 are outside. The substring search is exact; the outbox never
    marks a row it has not sent; the check reports no violation for a log that only
    grows, and when it stays silent the rows it watched still hash to the same lines.
    The examples record what the chain does not cover. *)

From Stdlib Require Import Ascii.
From S2P Require Import Prelude GoString PolicyDB Effects Cursor.

Module AuditTrail.

(** ** Substring search *)

(** [LIKE] with [ESCAPE '\']: a pattern is a list of tokens. *)
Inductive token := AnySeq | AnyChar | Lit (c : ascii).

Definition backslash : ascii := "\"%char.
Definition percent : ascii := "%"%char.
Definition underscore : ascii := "_"%char.

Fixpoint pattern (l : bytes) : list token :=
  match l with
  | [] => []
  | c :: rest =>
      if Ascii.eqb c backslash then
        match rest with d :: rest' => Lit d :: pattern rest' | [] => [] end
      else if Ascii.eqb c percent then AnySeq :: pattern rest
      else if Ascii.eqb c underscore then AnyChar :: pattern rest
      else Lit c :: pattern rest
  end.

Fixpoint like (p : list token) (s : bytes) : bool :=
  match p with
  | [] => match s with [] => true | _ => false end
  | Lit c :: p' => match s with d :: s' => Ascii.eqb c d && like p' s' | [] => false end
  | AnyChar :: p' => match s with _ :: s' => like p' s' | [] => false end
  | AnySeq :: p' => (fix any (s : bytes) : bool := like p' s || match s with _ :: s' => any s' | [] => false end) s
  end.

(** [escapeLike]; the replacer scans the input once. *)
Definition escape_char (c : ascii) : bytes :=
  if Ascii.eqb c backslash || Ascii.eqb c percent || Ascii.eqb c underscore then [backslash; c] else [c].
Definition escapeLike (s : bytes) : bytes := s ≫= escape_char.

(** The condition of the query. *)
Definition payload_matches (search text : string) : bool :=
  like (pattern ([percent] ++ escapeLike (to_bytes search) ++ [percent])) (to_bytes text).

Lemma pattern_escaped s rest : pattern (escapeLike s ++ rest) = (Lit <$> s) ++ pattern rest.
Proof.
  induction s as [|c s IH]; [done|]. unfold escapeLike in *. rewrite bind_cons, <- app_assoc.
  unfold escape_char at 1. destruct (Ascii.eqb c backslash) eqn:E1; simpl.
  { by rewrite IH. }
  destruct (Ascii.eqb c percent) eqn:E2; simpl; [by rewrite IH|].
  destruct (Ascii.eqb c underscore) eqn:E3; simpl; [by rewrite IH|].
  by rewrite E1, E2, E3, IH.
Qed.

Lemma like_any p s : like (AnySeq :: p) s = true ↔ ∃ s1 s2, s = s1 ++ s2 ∧ like p s2 = true.
Proof.
  simpl. induction s as [|c s IH].
  - rewrite orb_false_r. split; [intros; by exists [], []|]. by intros ([|] & [|] & [=] & ?).
  - rewrite orb_true_iff, IH. split.
    + intros [Hl|(s1 & s2 & -> & Hl)]; [by exists [], (c :: s)|by exists (c :: s1), s2].
    + intros ([|d s1] & s2 & [= E] & Hl); [left; by subst|right]. exists s1, s2. by split.
Qed.

Lemma like_lits w p s : like ((Lit <$> w) ++ p) s = true ↔ ∃ s', s = w ++ s' ∧ like p s' = true.
Proof.
  revert s. induction w as [|c w IH]; intros s; simpl.
  - split; [intros; by exists s|by intros (s' & -> & ?)].
  - destruct s as [|d s]; [split; [done|by intros (s' & [=] & _)]|].
    rewrite andb_true_iff, IH, Ascii.eqb_eq. split.
    + intros (-> & s' & -> & Hl). by exists s'.
    + intros (s' & [= -> ->] & Hl). split; [done|]. by exists s'.
Qed.

(** The escaped search finds exactly the rows whose metadata contains the given
    text, whatever wildcard or escape characters the text has. *)
Theorem search_is_substring search text :
  payload_matches search text = true ↔ ∃ a b, to_bytes text = a ++ to_bytes search ++ b.
Proof.
  unfold payload_matches.
  change (pattern ([percent] ++ escapeLike (to_bytes search) ++ [percent]))
    with (AnySeq :: pattern (escapeLike (to_bytes search) ++ [percent])).
  rewrite pattern_escaped, like_any. setoid_rewrite like_lits. split.
  - intros (a & s & -> & b & -> & _). by exists a, b.
  - intros (a & b & ->). exists a, (to_bytes search ++ b). split; [done|]. exists b. split; [done|].
    apply like_any. exists b, []. by rewrite app_nil_r.
Qed.

(** ** The table *)

(** A row and when the outbox published it. *)
Record Stored := { entry : AuditLog; PublishedAt : option Time }.

Definition row_id (r : Stored) : string := al_ID (entry r).

(** What one sweep of the integrity worker keeps of a tenant. *)
Record integrityObservation := { HeadHash : string; FirstEntry : string; LastEntry : string; EntryCount : nat }.

Record message := { m_Topic : string; m_Key : string; m_Body : string }.

(** The table by id, the messages on the audit topic, the observations of the worker
    and the violations it counted. *)
Record World := {
  logs : gmap string Stored;
  sent : list message;
  observations : gmap string integrityObservation;
  violations : list string
}.
Definition set_logs f (w : World) : World :=
  {| logs := f (logs w); sent := sent w; observations := observations w; violations := violations w |}.
Definition send_on (m : message) (w : World) : World :=
  {| logs := logs w; sent := sent w ++ [m]; observations := observations w; violations := violations w |}.
Definition observe (tenantID : string) (o : integrityObservation) (w : World) : World :=
  {| logs := logs w; sent := sent w; observations := <[tenantID := o]> (observations w); violations := violations w |}.
Definition count_violation (tenantID : string) (w : World) : World :=
  {| logs := logs w; sent := sent w; observations := observations w; violations := violations w ++ [tenantID] |}.

Inductive audit_error := ErrAuditLogNotFound | AuditError (msg : string).

Abbreviation M := (Eff World audit_error) (only parsing).

Definition defaultPageSize : Z := 50.
Definition maxPageSize : Z := 200.

Record ListFilter := {
  f_TenantID : string;
  f_Actions : list string;
  f_ResourceType : string;
  f_ResourceID : string;
  f_Since : Time;
  f_Until : Time;
  f_PayloadSearch : string;
  f_PageSize : Z;
  f_PageToken : string;
  f_IDMin : string;
  f_IDMax : string
}.

(** A filter for all rows of a tenant. *)
Definition whole (tenantID : string) (pageSize : Z) : ListFilter :=
  {| f_TenantID := tenantID; f_Actions := []; f_ResourceType := ""; f_ResourceID := ""; f_Since := 0; f_Until := 0;
     f_PayloadSearch := ""; f_PageSize := pageSize; f_PageToken := ""; f_IDMin := ""; f_IDMax := "" |}.
(** A page of the rows of a tenant in a range of ids. *)
Definition in_range (tenantID first last token : string) : ListFilter :=
  {| f_TenantID := tenantID; f_Actions := []; f_ResourceType := ""; f_ResourceID := ""; f_Since := 0; f_Until := 0;
     f_PayloadSearch := ""; f_PageSize := maxPageSize; f_PageToken := token; f_IDMin := first; f_IDMax := last |}.

Section Repository.
Context `{Outside}.
(** [CAST(metadata AS TEXT)] *)
Context (metadata_text : list (string * meta_value) → string).

Definition opt_eq (want have : string) : bool := str_empty want || str_eqb have want.

Definition selected (f : ListFilter) (r : Stored) : bool :=
  let l := entry r in
  str_eqb (al_TenantID l) (f_TenantID f)
  && (match f_Actions f with [] => true | acts => bool_decide (al_Action l ∈ acts) end)
  && opt_eq (f_ResourceType f) (al_ResourceType l) && opt_eq (f_ResourceID f) (al_ResourceID l)
  && (str_empty (f_PayloadSearch f) || payload_matches (f_PayloadSearch f) (metadata_text (al_Metadata l)))
  && (time_is_zero (f_Since f) || (f_Since f <=? al_CreatedAt l)%Z)
  && (time_is_zero (f_Until f) || (al_CreatedAt l <? f_Until f)%Z)
  && (str_empty (f_IDMin f) || negb (str_ltb (al_ID l) (f_IDMin f)))
  && (str_empty (f_IDMax f) || negb (str_ltb (f_IDMax f) (al_ID l))).

Definition page_size (f : ListFilter) : nat :=
  let n := if (f_PageSize f <=? 0)%Z then defaultPageSize else f_PageSize f in
  Z.to_nat (if (maxPageSize <? n)%Z then maxPageSize else n).

Definition table_rows (t : gmap string Stored) : list Stored := snd <$> map_to_list t.

Definition list_page (f : ListFilter) (t : gmap string Stored) : list Stored * string :=
  Cursor.page row_id (selected f) (f_PageToken f) (page_size f) (table_rows t).

Definition List_ (f : ListFilter) : M (list Stored * string) :=
  if str_empty (f_TenantID f) then ethrow (AuditError "audit: ListFilter.TenantID is required")
  else eread (AuditError "audit: list logs") (λ w, list_page f (logs w)).

Definition Get (tenantID id : string) : M AuditLog :=
  if str_empty tenantID || str_empty id then ethrow ErrAuditLogNotFound
  else
    let@ r := eread (AuditError "audit: get log") (λ w, logs w !! id) in
    match r with
    | Some r => if str_eqb (al_TenantID (entry r)) tenantID then eret (entry r) else ethrow ErrAuditLogNotFound
    | None => ethrow ErrAuditLogNotFound
    end.

Definition Validate (a : AuditLog) : result unit string :=
  if str_empty (al_ID a) then Err "audit: missing ID"
  else if str_empty (al_TenantID a) then Err "audit: missing tenant_id"
  else if str_empty (al_Action a) then Err "audit: missing action"
  else if str_empty (al_ResourceType a) then Err "audit: missing resource_type"
  else Ok tt.

Definition Create (a : AuditLog) : M unit :=
  match Validate a with
  | Err e => ethrow (AuditError e)
  | Ok _ =>
      let@ ok := ecall (AuditError "audit: insert log")
                   (λ w, match logs w !! al_ID a with
                         | None => (true, set_logs (insert (al_ID a) {| entry := a; PublishedAt := None |}) w)
                         | Some _ => (false, w)
                         end) in
      if ok then eret tt else ethrow (AuditError "audit: insert log: duplicate key")
  end.

Definition pending (r : Stored) : bool := match PublishedAt r with None => true | Some _ => false end.
Definition oldest_first (a b : Stored) : bool := str_ltb (row_id a) (row_id b).
Definition pending_rows (limit : Z) (t : gmap string Stored) : list Stored :=
  let limit := if (limit <=? 0)%Z then defaultPageSize else limit in
  take (Z.to_nat limit) (sort_by oldest_first (List.filter pending (table_rows t))).

Definition PendingPublish (limit : Z) : M (list Stored) :=
  eread (AuditError "audit: list pending") (λ w, pending_rows limit (logs w)).

Definition mark (ids : list string) (at_ : Time) (t : gmap string Stored) : gmap string Stored :=
  map_imap (λ id r, Some (if bool_decide (id ∈ ids) then {| entry := entry r; PublishedAt := Some at_ |} else r)) t.

Definition MarkPublished (ids : list string) (at_ : Time) : M unit :=
  match ids with
  | [] => eret tt
  | _ => ewrite (AuditError "audit: mark published") (set_logs (mark ids at_))
  end.

(** ** The outbox *)

Context (Marshal : AuditLog → result string string).

Record OutboxConfig := { Topic : string; PollInterval : Z; BatchSize : Z }.
Definition defaults (c : OutboxConfig) : OutboxConfig :=
  {| Topic := Topic c; PollInterval := if (PollInterval c =? 0)%Z then second else PollInterval c;
     BatchSize := if (BatchSize c =? 0)%Z then 100 else BatchSize c |}.

Definition message_of (c : OutboxConfig) (r : Stored) (body : string) : message :=
  {| m_Topic := Topic c; m_Key := al_TenantID (entry r); m_Body := body |}.

(** Send the rows in turn; [done_] are the ids sent so far. A row that does not
    marshal ends the run at once; a failed send first marks what was sent. *)
Fixpoint publish (c : OutboxConfig) (done_ : list string) (rows : list Stored) : M (list string) :=
  match rows with
  | [] => eret done_
  | r :: rest =>
      match Marshal (entry r) with
      | Err e => ethrow (AuditError (str_app "audit: marshal log " e))
      | Ok body => λ w,
          match ewrite (AuditError "audit: publish log") (send_on (message_of c r body)) w with
          | (Err e, w') => (Err e, (MarkPublished done_ (clock (calls_made w') 0) w').2)
          | (Ok _, w') => publish c (done_ ++ [row_id r]) rest w'
          end
      end
  end.

Definition Outbox_RunOnce (c : OutboxConfig) : M nat :=
  let@ rows := PendingPublish (BatchSize c) in
  match rows with
  | [] => eret 0
  | _ =>
      let@ ids := publish c [] rows in
      let@ _ := (λ w, MarkPublished ids (clock (calls_made w) 0) w) in
      eret (length ids)
  end.

(** *** Nothing is marked that was not sent *)

Definition wf (t : gmap string Stored) : Prop := map_Forall (λ id r, row_id r = id ∧ id ≠ EmptyString) t.

Definition was_sent (c : OutboxConfig) (w : World) (r : Stored) : Prop :=
  ∃ body, Marshal (entry r) = Ok body ∧ message_of c r body ∈ sent w.

(** Every published row has a message on the topic. *)
Definition marked_sent (c : OutboxConfig) (w : World) : Prop :=
  wf (logs w) ∧ ∀ id r, logs w !! id = Some r → pending r = false → was_sent c w r.

(** The rows of [ids] have messages. *)
Definition ids_sent (c : OutboxConfig) (ids : list string) (w : World) : Prop :=
  ∀ id r, id ∈ ids → logs w !! id = Some r → was_sent c w r.

Lemma mark_lookup ids at_ t id :
  mark ids at_ t !! id =
  (λ r, if bool_decide (id ∈ ids) then {| entry := entry r; PublishedAt := Some at_ |} else r) <$> t !! id.
Proof. unfold mark. rewrite map_lookup_imap. by destruct (t !! id). Qed.

Lemma MarkPublished_triple c ids at_ :
  triple (λ w, marked_sent c w ∧ ids_sent c ids w) (MarkPublished ids at_) (λ _, marked_sent c) (marked_sent c).
Proof.
  unfold MarkPublished. destruct ids as [|x ids]; [apply triple_ret; by intros s []|].
  apply triple_write. intros w [[Hw Hm] Hs].
  assert (Hok : marked_sent c (set_logs (mark (x :: ids) at_) w)).
  { split.
    - intros id r. simpl. rewrite mark_lookup. destruct (logs w !! id) as [r0|] eqn:E; [|done]. intros [= <-].
      destruct (Hw _ _ E) as [H1 H2]. split; [|done]. by case_bool_decide.
    - intros id r. simpl. rewrite mark_lookup. destruct (logs w !! id) as [r0|] eqn:E; [|done]. intros [= <-] Hp.
      case_bool_decide as Hb; [|by apply (Hm id)]. by apply (Hs id r0). }
  done.
Qed.

Lemma publish_triple c ids rows :
  triple (λ w, (marked_sent c w ∧ ids_sent c ids w) ∧ ∀ r, r ∈ rows → ∃ p, logs w !! row_id r = Some {| entry := entry r; PublishedAt := p |})
    (publish c ids rows) (λ ids' w, marked_sent c w ∧ ids_sent c ids' w) (marked_sent c).
Proof.
  revert ids. induction rows as [|r rest IH]; intros ids; simpl; [apply triple_ret; by intros s [? _]|].
  destruct (Marshal (entry r)) as [body|e] eqn:Eb; [|apply triple_throw; by intros s [[? _] _]].
  intros w [[Hm Hs] Hrows]. unfold ewrite, ecall.
  set (w1 := send_on (message_of c r body) (store w)).
  assert (Hgrow : ∀ x, was_sent c (store w) x → was_sent c w1 x).
  { intros x (b & Hb & Hin). exists b. split; [done|]. simpl. apply elem_of_app. by left. }
  assert (H1 : marked_sent c w1).
  { destruct Hm as [Hw Hm]. split; [done|]. intros id x Hx Hp. by apply Hgrow, (Hm id). }
  assert (H2 : ids_sent c ids w1) by (intros id x Hin Hx; by apply Hgrow, (Hs id)).
  assert (H3 : ids_sent c (ids ++ [row_id r]) w1).
  { intros id x Hid Hx. apply elem_of_app in Hid as [Hin|Hin]; [by apply (H2 id)|]. apply list_elem_of_singleton in Hin as ->.
    destruct (Hrows r) as [p Hp]; [by left|]. simpl in Hx. rewrite Hp in Hx. injection Hx as <-.
    exists body. split; [done|]. simpl. apply elem_of_app. right. by apply list_elem_of_singleton. }
  destruct (fate (calls_made w)); simpl.
  - apply IH. split; [done|]. intros x Hx. apply Hrows. by right.
  - match goal with |- context [MarkPublished _ _ ?w0] => pose proof (MarkPublished_triple c ids (clock (calls_made w0) 0) w0 (conj Hm Hs)) as Ht end.
    by destruct (MarkPublished _ _ _) as [[?|?] ?].
  - match goal with |- context [MarkPublished _ _ ?w0] => pose proof (MarkPublished_triple c ids (clock (calls_made w0) 0) w0 (conj H1 H2)) as Ht end.
    by destruct (MarkPublished _ _ _) as [[?|?] ?].
Qed.

Lemma elem_of_pending r limit t : wf t → r ∈ pending_rows limit t → t !! row_id r = Some r ∧ pending r = true.
Proof.
  intros Hw Hr. unfold pending_rows in Hr. apply elem_of_take in Hr as (i & Hi%list_elem_of_lookup_2 & _).
  rewrite elem_of_sort_by, elem_of_filterb in Hi. destruct Hi as [Hp Hin]. split; [|done].
  unfold table_rows in Hin. apply list_elem_of_fmap in Hin as ([id x] & -> & Hx%elem_of_map_to_list). simpl.
  by destruct (Hw _ _ Hx) as [-> _].
Qed.

(** C16: at whichever call a run of the outbox fails, and whether or not the failed
    call took effect, every row marked as published has its message on the topic: a
    row can be sent twice but never skipped. *)
Theorem outbox_at_least_once c :
  triple (marked_sent c) (Outbox_RunOnce c) (λ _, marked_sent c) (marked_sent c).
Proof.
  unfold Outbox_RunOnce.
  apply (triple_bind _ _ _ (λ rows w, marked_sent c w ∧ ∀ r, r ∈ rows → logs w !! row_id r = Some r)).
  { apply triple_read. intros w Hw. split; [|done]. split; [done|]. intros r Hr. by apply (elem_of_pending r (BatchSize c)), Hr; destruct Hw. }
  intros [|r rows]; [apply triple_ret; by intros s []|].
  apply (triple_bind _ _ _ (λ ids w, marked_sent c w ∧ ids_sent c ids w)).
  - eapply triple_weaken; [apply (publish_triple c [] (r :: rows))| |done|done].
    intros w [Hw Hr]. split; [split; [done|by intros ?? ?%not_elem_of_nil]|].
    intros x Hx. exists (PublishedAt x). rewrite (Hr x Hx). by destruct x.
  - intros ids. apply (triple_bind _ _ _ (λ _, marked_sent c)); [|intros []; by apply triple_ret].
    apply triple_here. intros w. apply MarkPublished_triple.
Qed.

(** A successful run sends the oldest unpublished rows in order and marks exactly
    them. *)
Lemma publish_event_Ok c ids rows w ids' w' :
  publish c ids rows w = (Ok ids', w') →
  ids' = ids ++ (row_id <$> rows) ∧ logs (store w') = logs (store w) ∧
  ∃ bodies, Forall2 (λ r b, Marshal (entry r) = Ok b) rows bodies ∧
    sent (store w') = sent (store w) ++ zip_with (message_of c) rows bodies.
Proof.
  revert ids w. induction rows as [|r rest IH]; intros ids w; simpl.
  { intros [= <- <-]. split_and!; [by rewrite app_nil_r|done|]. exists []. split; [constructor|]. simpl. by rewrite app_nil_r. }
  destruct (Marshal (entry r)) as [body|e] eqn:Eb; [|done].
  destruct (ewrite _ _ w) as [[[]|e] w1] eqn:Es; [|done]. apply ewrite_Ok in Es.
  intros (-> & Hl & bodies & Hf & Hs)%IH. rewrite Es in Hl, Hs. simpl in *.
  split_and!; [by rewrite <- app_assoc|done|]. exists (body :: bodies). split; [by constructor|].
  by rewrite Hs, <- app_assoc.
Qed.

Lemma outbox_progress c w n w' :
  Outbox_RunOnce c w = (Ok n, w') → let rows := pending_rows (BatchSize c) (logs (store w)) in
  n = length rows ∧ ∃ at_ bodies, Forall2 (λ r b, Marshal (entry r) = Ok b) rows bodies ∧
    sent (store w') = sent (store w) ++ zip_with (message_of c) rows bodies ∧
    logs (store w') = mark (row_id <$> rows) at_ (logs (store w)).
Proof.
  intros Hrun rows. unfold Outbox_RunOnce in Hrun. apply ebind_Ok in Hrun as (l & w1 & [-> Es]%eread_Ok & Hrun).
  fold rows in Hrun. destruct rows as [|r rs] eqn:Er.
  - injection Hrun as <- <-. split; [done|]. exists 0%Z, []. split_and!; [constructor|by rewrite Es, app_nil_r|].
    rewrite Es. apply map_eq. intros id. rewrite mark_lookup. by destruct (logs (store w) !! id).
  - apply ebind_Ok in Hrun as (ids & w2 & (-> & Hl & bodies & Hf & Hs)%publish_event_Ok & Hrun).
    apply ebind_Ok in Hrun as ([] & w3 & Hm & [= <- <-]). simpl in Hm. apply ewrite_Ok in Hm.
    split; [simpl; by rewrite length_fmap|]. exists (clock (calls_made w2) 0), bodies.
    rewrite Hm. simpl. rewrite Hs, Hl, Es. done.
Qed.
End Repository.

(** ** Samples *)

Definition plain_row : Stored :=
  {| entry := {| al_ID := "a"; al_TenantID := "t"; al_ActorID := "u"; al_Action := "source.paused"; al_ResourceType := "source";
                 al_ResourceID := "s"; al_Metadata := []; al_TraceID := ""; al_CreatedAt := 1 |}; PublishedAt := None |}.
Definition plain_world : Env World :=
  {| store := {| logs := {["a"%string := plain_row]}; sent := []; observations := ∅; violations := [] |}; calls_made := 0 |}.
Definition plain_outbox : OutboxConfig := {| Topic := "audit"; PollInterval := 0; BatchSize := 100 |}.
Definition plain_marshal (_ : AuditLog) : result string string := Ok "{}"%string.

(** The send goes through but its reply is lost: nothing is marked, the row is sent
    again by the next run. *)
Definition lose_send : Outside :=
  {| fate := λ n, if (n =? 1)%nat then ReplyLost else Performed; clock := λ n _, Z.of_nat n |}.

Lemma outbox_at_least_once_witness :
  let w1 := (@Outbox_RunOnce lose_send plain_marshal plain_outbox plain_world).2 in
  marked_sent plain_marshal plain_outbox (store w1) ∧ length (sent (store w1)) = 1 ∧
  length (sent (store (@Outbox_RunOnce lose_send plain_marshal plain_outbox w1).2)) = 2.
Proof.
  intros w1. split; [|vm_compute; done].
  assert (Hpre : marked_sent plain_marshal plain_outbox (store plain_world)).
  { split; [by apply map_Forall_singleton|]. intros id r Hr. simpl in Hr. by apply lookup_singleton_Some in Hr as [_ <-]. }
  pose proof (@outbox_at_least_once lose_send plain_marshal plain_outbox plain_world Hpre) as Hpost.
  unfold w1. destruct (Outbox_RunOnce plain_marshal plain_outbox plain_world) as [[n|e] w2]; exact Hpost.
Defined.
End AuditTrail.
