(* ===== verification/AuditIntegrity.v ===== *)
(** * The hash chain over the audit trail

    internal/audit: the chain of integrity.go and the periodic check of
    integrity_worker.go. SHA-256 is outside. The check does not take a growing log
    for a violated one, and while it stays silent every row it watched is still there
    as far as the hash covers it. *)

From Stdlib Require Import Ascii.
From S2P Require Import Prelude GoString PolicyDB Effects Cursor AuditTrail.

Module AuditIntegrity.

Import AuditTrail.

(** ** The chain *)

Definition bar : ascii := "|"%char.

Definition hex_digit (n : N) : ascii := ascii_of_N (if (n <? 10)%N then 48 + n else 87 + n)%N.
Definition hex_byte (a : ascii) : bytes := [hex_digit (N_of_ascii a / 16); hex_digit (N_of_ascii a mod 16)].
(** [hex.EncodeToString] *)
Definition hex (l : bytes) : bytes := l ≫= hex_byte.

Definition digit_value (c : ascii) : N := let n := N_of_ascii c in (if n <? 58 then n - 48 else n - 87)%N.
Fixpoint unhex (l : bytes) : bytes :=
  match l with
  | a :: b :: rest => ascii_of_N (16 * digit_value a + digit_value b)%N :: unhex rest
  | _ => []
  end.

Section Chain.
Context (sha256 : bytes → bytes).

Definition zero_digest : bytes := replicate 32 Ascii.zero.

(** What a row contributes. *)
Definition line (a : AuditLog) : bytes :=
  to_bytes (al_ID a) ++ [bar] ++ to_bytes (al_TenantID a) ++ [bar] ++ to_bytes (al_ActorID a) ++ [bar]
  ++ to_bytes (al_Action a) ++ [bar] ++ to_bytes (al_ResourceType a) ++ [bar] ++ to_bytes (al_ResourceID a).

Definition link (prev : bytes) (r : Stored) : bytes := sha256 (hex prev ++ [bar] ++ line (entry r)).
Definition chain (rows : list Stored) : bytes := foldl link zero_digest rows.

Record IntegrityResponse := {
  i_TenantID : string;
  i_EntryCount : nat;
  i_HeadHash : string;
  i_FirstEntry : string;
  i_LastEntry : string;
  Algorithm : string
}.

Definition id_at (o : option Stored) : string := match o with Some r => row_id r | None => EmptyString end.

Definition ComputeIntegrity (tenantID : string) (rows : list Stored) : IntegrityResponse :=
  match rows with
  | [] =>
      {| i_TenantID := tenantID; i_EntryCount := 0;
         i_HeadHash := of_bytes (hex (sha256 (to_bytes (str_app "audit-chain-empty:" tenantID))));
         i_FirstEntry := EmptyString; i_LastEntry := EmptyString; Algorithm := "sha256" |}
  | _ =>
      let ordered := sort_by oldest_first rows in
      {| i_TenantID := tenantID; i_EntryCount := length ordered; i_HeadHash := of_bytes (hex (chain ordered));
         i_FirstEntry := id_at (head ordered); i_LastEntry := id_at (last ordered); Algorithm := "sha256" |}
  end.

Lemma head_nonempty tenantID rows :
  rows ≠ [] → i_HeadHash (ComputeIntegrity tenantID rows) = of_bytes (hex (chain (sort_by oldest_first rows))).
Proof. by destruct rows. Qed.

Lemma count_nonempty tenantID rows : rows ≠ [] → i_EntryCount (ComputeIntegrity tenantID rows) = length rows.
Proof. destruct rows as [|r l]; [done|]. intros _. exact (sort_by_length oldest_first (r :: l)). Qed.

(** *** What the head determines *)

Lemma unhex_hex l : unhex (hex l) = l.
Proof.
  induction l as [|a l IH]; [done|]. unfold hex in *. rewrite bind_cons. simpl. rewrite IH. f_equal.
  destruct a as [[] [] [] [] [] [] [] []]; reflexivity.
Qed.

Lemma hex_inj l k : hex l = hex k → l = k.
Proof. intros E. by rewrite <- (unhex_hex l), E, unhex_hex. Qed.

Lemma hex_alphabet c l : c ∈ hex l → (digit_value c < 16)%N ∧ (48 ≤ N_of_ascii c ≤ 57 ∨ 97 ≤ N_of_ascii c ≤ 102)%N.
Proof.
  unfold hex. rewrite list_elem_of_bind. intros (a & Hc & _). unfold hex_byte in Hc.
  apply elem_of_cons in Hc as [->|Hc]; [|apply list_elem_of_singleton in Hc as ->];
    destruct a as [[] [] [] [] [] [] [] []]; vm_compute; intuition congruence.
Qed.

Lemma hex_no_bar l : bar ∉ hex l.
Proof. intros [_ [?|?]]%hex_alphabet; vm_compute in *; intuition congruence. Qed.

Section Ideal.
Context (sha256_inj : ∀ x y, sha256 x = sha256 y → x = y).

Lemma link_inj p r p' r' : link p r = link p' r' → p = p' ∧ line (entry r) = line (entry r').
Proof.
  unfold link. intros E%sha256_inj. apply split_at in E as [E1%hex_inj E2]; [done|apply hex_no_bar..].
Qed.

Context (sha256_not_zero : ∀ x, sha256 x ≠ zero_digest).

Lemma chain_inj l l' : chain l = chain l' → (λ r, line (entry r)) <$> l = (λ r, line (entry r)) <$> l'.
Proof.
  unfold chain. revert l'. induction l as [|r l IH] using rev_ind; intros l' E; destruct l' as [|r' l' _] using rev_ind.
  - done.
  - rewrite foldl_app in E. simpl in E. symmetry in E. by apply sha256_not_zero in E.
  - rewrite foldl_app in E. simpl in E. by apply sha256_not_zero in E.
  - rewrite !foldl_app in E. simpl in E. apply link_inj in E as [E1 E2].
    rewrite !fmap_app, (IH l' E1). simpl. by rewrite E2.
Qed.

(** The head of the empty chain is not the head of any other. *)
Lemma empty_head_distinct tenantID rows :
  rows ≠ [] → sha256 (to_bytes (str_app "audit-chain-empty:" tenantID)) ≠ chain rows.
Proof.
  destruct rows as [|r l _] using rev_ind; [done|]. intros _ E. unfold chain in E. rewrite foldl_app in E. simpl in E.
  apply sha256_inj in E. set (p := foldl link zero_digest l) in E. destruct p as [|a p]; [discriminate E|].
  unfold hex in E. rewrite bind_cons in E. simpl in E. injection E as _ E2 _.
  assert (Hu : hex_digit (N_of_ascii a mod 16) ∈ hex [a]) by (unfold hex; rewrite bind_cons; simpl; right; by left).
  rewrite <- E2 in Hu. apply hex_alphabet in Hu as [_ [?|?]]; vm_compute in *; intuition congruence.
Qed.

Lemma same_head tenantID rows rows' :
  i_HeadHash (ComputeIntegrity tenantID rows) = i_HeadHash (ComputeIntegrity tenantID rows') → rows' ≠ [] →
  (λ r, line (entry r)) <$> sort_by oldest_first rows = (λ r, line (entry r)) <$> sort_by oldest_first rows'.
Proof.
  intros E Hne. rewrite (head_nonempty _ rows' Hne) in E. destruct (decide (rows = [])) as [->|Hr].
  - apply of_bytes_inj, hex_inj, empty_head_distinct in E; [done|]. intros Es%(f_equal length).
    rewrite sort_by_length in Es. by destruct rows'.
  - rewrite (head_nonempty _ rows Hr) in E. by apply of_bytes_inj, hex_inj, chain_inj in E.
Qed.
End Ideal.

(** Rows with the same entries have the same chain. *)
Lemma chain_entries l : chain l = foldl (λ p a, sha256 (hex p ++ [bar] ++ line a)) zero_digest (entry <$> l).
Proof. unfold chain. generalize zero_digest. induction l as [|r l IH]; intros z; [done|]. apply IH. Qed.

Definition entry_less (a b : AuditLog) : bool := str_ltb (al_ID a) (al_ID b).

Lemma sorted_entries rows rows' :
  Cursor.distinct_ids row_id rows → Cursor.distinct_ids row_id rows' →
  (∀ a, a ∈ entry <$> rows ↔ a ∈ entry <$> rows') →
  entry <$> sort_by oldest_first rows = entry <$> sort_by oldest_first rows'.
Proof.
  intros Hd Hd' Hin. rewrite !(sort_by_fmap entry _ entry_less) by done.
  assert (Hnd : ∀ l, Cursor.distinct_ids row_id l → NoDup (entry <$> l)).
  { intros l Hl. unfold Cursor.distinct_ids in Hl.
    assert (E : row_id <$> l = al_ID <$> (entry <$> l)) by by rewrite <- list_fmap_compose.
    rewrite E in Hl. by apply NoDup_fmap_1 in Hl. }
  apply sort_by_unique; [apply (str_key_weak_order al_ID)| |].
  - intros a b (r & -> & Hr)%list_elem_of_fmap (q & -> & Hq)%list_elem_of_fmap H1 H2.
    f_equal. apply (Cursor.distinct_ids_inj row_id rows); [done..|]. by apply str_ltb_total.
  - apply NoDup_Permutation; [by apply Hnd..|done].
Qed.

Lemma same_entries_head tenantID rows rows' :
  rows ≠ [] → rows' ≠ [] → entry <$> sort_by oldest_first rows = entry <$> sort_by oldest_first rows' →
  i_HeadHash (ComputeIntegrity tenantID rows) = i_HeadHash (ComputeIntegrity tenantID rows').
Proof.
  intros H1 H2 E. by rewrite !head_nonempty, !chain_entries, E.
Qed.

(** The hash does not see metadata, trace or time. *)
Theorem metadata_not_covered a b :
  al_ID a = al_ID b → al_TenantID a = al_TenantID b → al_ActorID a = al_ActorID b → al_Action a = al_Action b →
  al_ResourceType a = al_ResourceType b → al_ResourceID a = al_ResourceID b → line a = line b.
Proof. intros E1 E2 E3 E4 E5 E6. unfold line. by rewrite E1, E2, E3, E4, E5, E6. Qed.

(** ** The worker *)

Section Worker.
Context `{Outside}.
Context (metadata_text : list (string * meta_value) → string).
Context (ulid : nat → string).

Definition observation_of (i : IntegrityResponse) : integrityObservation :=
  {| HeadHash := i_HeadHash i; FirstEntry := i_FirstEntry i; LastEntry := i_LastEntry i; EntryCount := i_EntryCount i |}.

(** The pages of the range seen last time, until the last one or one too many. *)
Fixpoint collect (fuel : nat) (tenantID : string) (prev : integrityObservation) (token : string) (acc : list Stored)
  : M (option (list Stored)) :=
  match fuel with
  | O => eret None
  | S k =>
      let@ p := List_ metadata_text (in_range tenantID (FirstEntry prev) (LastEntry prev) token) in
      let acc' := acc ++ p.1 in
      if str_empty p.2 then eret (Some acc')
      else if (EntryCount prev * 2 + Z.to_nat maxPageSize <? length acc')%nat then eret None
      else collect k tenantID prev p.2 acc'
  end.

(** A page that is not the last has at least one row, so this many pages suffice. *)
Definition page_budget (prev : integrityObservation) : nat := EntryCount prev * 2 + Z.to_nat maxPageSize + 2.

Definition tailMatches (tenantID : string) (prev : integrityObservation) : M bool :=
  if str_empty (LastEntry prev) || str_empty (HeadHash prev) || str_empty (FirstEntry prev) then eret false
  else
    let@ r := collect (page_budget prev) tenantID prev EmptyString [] in
    match r with
    | None => eret false
    | Some rows =>
        if (0 <? EntryCount prev)%nat && negb (length rows =? EntryCount prev)%nat then eret false
        else eret (str_eqb (i_HeadHash (ComputeIntegrity tenantID rows)) (HeadHash prev))
    end.

Definition violation_log (tenantID id prev head : string) (now : Time) : AuditLog :=
  {| al_ID := id; al_TenantID := tenantID; al_ActorID := "system"; al_Action := "audit.integrity_violation";
     al_ResourceType := "audit_log"; al_ResourceID := tenantID;
     al_Metadata := [("previous_head", MStr prev); ("current_head", MStr head)]%string; al_TraceID := EmptyString;
     al_CreatedAt := now |}.

(** The counter and the audit row; a failed insert is only logged. *)
Definition reportViolation (tenantID prev head : string) : M unit := λ w,
  let w1 := {| store := count_violation tenantID (store w); calls_made := calls_made w |} in
  (Ok tt, (Create (violation_log tenantID (ulid (calls_made w)) prev head (clock (calls_made w) 0)) w1).2).

(** Keep the observation in memory. *)
Definition remember (tenantID : string) (o : integrityObservation) : M (option integrityObservation) := λ w,
  (Ok (observations (store w) !! tenantID), {| store := observe tenantID o (store w); calls_made := calls_made w |}).

Definition checkOne (tenantID : string) : M bool :=
  let@ p := List_ metadata_text (whole tenantID maxPageSize) in
  let resp := ComputeIntegrity tenantID p.1 in
  let@ seen := remember tenantID (observation_of resp) in
  match seen with
  | None => eret false
  | Some prev =>
      if str_eqb (HeadHash prev) (i_HeadHash resp) then eret false
      else λ w,
        let '(r, w1) := tailMatches tenantID prev w in
        match r with
        | Ok true => (Ok false, w1)
        | _ => (let@ _ := reportViolation tenantID (HeadHash prev) (i_HeadHash resp) in eret true) w1
        end
  end.

(** One sweep; a tenant whose check fails is skipped. *)
Fixpoint RunOnce (tenants : list string) : M nat :=
  match tenants with
  | [] => eret 0
  | t :: rest => λ w,
      let '(r, w1) := checkOne t w in
      (let@ n := RunOnce rest in eret (match r with Ok true => S n | _ => n end)) w1
  end.

(** *** What it reads *)

(** The rows a sweep looks at: the newest of the tenant. *)
Definition watched (tenantID : string) (t : gmap string Stored) : list Stored :=
  (list_page metadata_text (whole tenantID maxPageSize) t).1.

(** The rows of a range. *)
Definition range_rows (tenantID first last_ : string) (t : gmap string Stored) : list Stored :=
  Cursor.listing row_id (selected metadata_text (in_range tenantID first last_ EmptyString)) (table_rows t).

Lemma rows_distinct t : wf t → Cursor.distinct_ids row_id (table_rows t).
Proof.
  intros Hw. unfold Cursor.distinct_ids, table_rows. rewrite <- list_fmap_compose.
  rewrite (list_fmap_ext _ fst); [apply NoDup_fst_map_to_list|].
  intros i [id r] Hi%list_elem_of_lookup_2%elem_of_map_to_list. apply (Hw _ _ Hi).
Qed.

Lemma elem_of_audit_rows r t : wf t → r ∈ table_rows t ↔ t !! row_id r = Some r.
Proof.
  intros Hw. unfold table_rows. rewrite list_elem_of_fmap. split.
  - intros ([id x] & -> & Hx%elem_of_map_to_list). simpl. by destruct (Hw _ _ Hx) as [-> _].
  - intros Hr. exists (row_id r, r). by rewrite elem_of_map_to_list.
Qed.

Lemma List_Ok f w p w' : List_ metadata_text f w = (Ok p, w') → p = list_page metadata_text f (logs (store w)) ∧ store w' = store w.
Proof. unfold List_. destruct (str_empty (f_TenantID f)); [done|]. by intros [-> ?]%eread_Ok. Qed.

Lemma collect_Some fuel tenantID prev token acc w rows w' :
  collect fuel tenantID prev token acc w = (Ok (Some rows), w') →
  store w' = store w ∧ ∀ fuel', fuel ≤ fuel' →
    rows = acc ++ concat (Cursor.pages row_id fuel'
      (selected metadata_text (in_range tenantID (FirstEntry prev) (LastEntry prev) EmptyString)) token
      (Z.to_nat maxPageSize) (table_rows (logs (store w)))).
Proof.
  revert token acc w. induction fuel as [|k IH]; intros token acc w; simpl; [done|].
  intros ([rs next] & w1 & [Ep Es]%List_Ok & Hrun)%ebind_Ok. simpl in Hrun.
  change (list_page metadata_text (in_range tenantID (FirstEntry prev) (LastEntry prev) token) (logs (store w)))
    with (Cursor.page row_id (selected metadata_text (in_range tenantID (FirstEntry prev) (LastEntry prev) EmptyString)) token
      (Z.to_nat maxPageSize) (table_rows (logs (store w)))) in Ep.
  destruct (str_empty next) eqn:En.
  - injection Hrun as <- <-. split; [done|]. intros [|f'] Hf; [lia|]. cbn [Cursor.pages]. rewrite <- Ep, En. simpl.
    by rewrite app_nil_r.
  - destruct (_ <? length _)%nat; [done|]. destruct (IH _ _ _ Hrun) as [Es2 Hrows]. rewrite Es in Es2, Hrows.
    split; [done|]. intros [|f'] Hf; [lia|]. cbn [Cursor.pages]. rewrite <- Ep, En. simpl.
    rewrite (Hrows f') by lia. by rewrite app_assoc.
Qed.

Lemma page_nonempty P token l rows next :
  Cursor.page row_id P token (Z.to_nat maxPageSize) l = (rows, next) → str_empty next = false → 0 < length rows.
Proof.
  unfold Cursor.page. destruct (Nat.ltb_spec (Z.to_nat maxPageSize) (length (Cursor.fetch row_id P token (S (Z.to_nat maxPageSize)) l))) as [Hl|];
    [|by intros [= _ <-]]. intros [= <- _] _. rewrite length_take. unfold maxPageSize in *. lia.
Qed.

(** The budget of pages is never what ends the loop. *)
Lemma collect_enough tenantID prev fuel fuel' token acc w :
  page_budget prev ≤ fuel + length acc → length acc ≤ EntryCount prev * 2 + Z.to_nat maxPageSize → fuel ≤ fuel' →
  collect fuel tenantID prev token acc w = collect fuel' tenantID prev token acc w.
Proof.
  unfold page_budget. revert fuel' token acc w. induction fuel as [|k IH]; intros [|k'] token acc w Hb Ha Hf; try lia.
  cbn [collect]. unfold ebind. destruct (List_ _ _ w) as [[[rs next]|e] w1] eqn:El; [|done].
  apply List_Ok in El as [El _]. symmetry in El. cbn [fst snd]. destruct (str_empty next) eqn:En; [done|].
  apply page_nonempty in El; [|done].
  destruct (Nat.ltb_spec (EntryCount prev * 2 + Z.to_nat maxPageSize) (length (acc ++ rs))) as [|Hle]; [done|].
  apply IH; [rewrite length_app; lia|done|lia].
Qed.

Lemma collect_range fuel tenantID prev w rows w' :
  wf (logs (store w)) → collect fuel tenantID prev EmptyString [] w = (Ok (Some rows), w') →
  rows = range_rows tenantID (FirstEntry prev) (LastEntry prev) (logs (store w)).
Proof.
  intros Hw Hc. destruct (collect_Some _ _ _ _ _ _ _ _ Hc) as [_ Hrows].
  rewrite (Hrows (fuel + S (length (table_rows (logs (store w)))))) by lia. simpl.
  apply Cursor.pages_cover; [by apply rows_distinct| |unfold maxPageSize; lia|lia].
  intros r Hr%elem_of_audit_rows; [|done]. by destruct (Hw _ _ Hr).
Qed.

Lemma tailMatches_true tenantID prev w w' :
  wf (logs (store w)) → tailMatches tenantID prev w = (Ok true, w') →
  let rows := range_rows tenantID (FirstEntry prev) (LastEntry prev) (logs (store w)) in
  i_HeadHash (ComputeIntegrity tenantID rows) = HeadHash prev.
Proof.
  intros Hw. unfold tailMatches. destruct (_ || _); [done|].
  intros (r & w1 & Hc & Hrun)%ebind_Ok. destruct r as [rows|]; [|done].
  apply collect_range in Hc as ->; [|done]. destruct (_ && _); [done|].
  injection Hrun as Hrun _. by apply str_eqb_eq in Hrun.
Qed.

Lemma watched_elem tenantID t r : wf t → r ∈ watched tenantID t → r ∈ table_rows t ∧ al_TenantID (entry r) = tenantID.
Proof.
  intros Hw. unfold watched, list_page. change (f_PageToken (whole tenantID maxPageSize)) with EmptyString.
  rewrite Cursor.first_page. intros (i & Hi%list_elem_of_lookup_2 & _)%elem_of_take.
  rewrite Cursor.listing_perm, elem_of_filterb in Hi. destruct Hi as [Hs Hin]. split; [done|].
  unfold selected in Hs. repeat (apply andb_true_iff in Hs as [Hs _]). by apply str_eqb_eq in Hs.
Qed.

(** A sweep that reports nothing for a tenant it has seen. *)
Lemma silent_sweep tenantID w w' prev :
  wf (logs (store w)) → observations (store w) !! tenantID = Some prev → checkOne tenantID w = (Ok false, w') →
  ∃ rows, i_HeadHash (ComputeIntegrity tenantID rows) = HeadHash prev ∧
    (∀ r, r ∈ rows → r ∈ table_rows (logs (store w)) ∧ al_TenantID (entry r) = tenantID).
Proof.
  intros Hw Hobs Hrun. unfold checkOne in Hrun. apply ebind_Ok in Hrun as (p & w1 & [-> Es]%List_Ok & Hrun).
  apply ebind_Ok in Hrun as (seen & w2 & Hrem & Hrun). unfold remember in Hrem. injection Hrem as <- <-.
  rewrite Es, Hobs in Hrun. fold (watched tenantID (logs (store w))) in Hrun.
  destruct (str_eqb (HeadHash prev) _) eqn:Eh.
  - apply str_eqb_eq in Eh. exists (watched tenantID (logs (store w))). split; [done|]. intros r. by apply watched_elem.
  - match type of Hrun with context [tailMatches tenantID prev ?w0] => destruct (tailMatches tenantID prev w0) as [r w3] eqn:Et; set (wx := w0) in * end.
    assert (Hlogs : logs (store wx) = logs (store w)) by (unfold wx; simpl; by rewrite ?Es).
    destruct r as [[]|]; [|by apply ebind_Ok in Hrun as (? & ? & _ & [=])..].
    apply tailMatches_true in Et; [|by rewrite Hlogs]. rewrite Hlogs in Et. eexists. split; [exact Et|].
    intros r. unfold range_rows. rewrite Cursor.listing_perm, elem_of_filterb. intros [Hs Hin]. split; [done|].
    unfold selected in Hs. repeat (apply andb_true_iff in Hs as [Hs _]). by apply str_eqb_eq in Hs.
Qed.

(** C14: for a hash without collisions, a sweep that reports no violation for a tenant
    shows that every row the previous sweep watched is still in the table with the
    same id, tenant, actor, action and resource, as far as their joined line tells
    them apart. *)
Theorem silence_means_unchanged tenantID t0 prev w w' r :
  (∀ x y, sha256 x = sha256 y → x = y) → (∀ x, sha256 x ≠ zero_digest) →
  wf (logs (store w)) → observations (store w) !! tenantID = Some prev →
  HeadHash prev = i_HeadHash (ComputeIntegrity tenantID (watched tenantID t0)) →
  checkOne tenantID w = (Ok false, w') → r ∈ watched tenantID t0 →
  ∃ r', r' ∈ table_rows (logs (store w)) ∧ al_TenantID (entry r') = tenantID ∧ line (entry r') = line (entry r).
Proof.
  intros Hinj Hnz Hw Hobs Hprev Hrun Hr.
  destruct (silent_sweep _ _ _ _ Hw Hobs Hrun) as (rows & Hh & Hrows). rewrite Hprev in Hh.
  apply (same_head Hinj Hnz) in Hh; [|intros E; rewrite E in Hr; by apply not_elem_of_nil in Hr].
  assert (Hl : line (entry r) ∈ (λ r, line (entry r)) <$> sort_by oldest_first (watched tenantID t0)).
  { apply list_elem_of_fmap. exists r. split; [done|]. by apply elem_of_sort_by. }
  rewrite <- Hh in Hl. apply list_elem_of_fmap in Hl as (r' & E & Hr'). rewrite elem_of_sort_by in Hr'.
  exists r'. destruct (Hrows r' Hr'). by split_and!.
Qed.

(** *** Growth is no violation *)

(** Since [t0] rows of the tenant were only added, behind [last_]; rows may have been
    published in between. *)
Record grown (tenantID last_ : string) (t0 t : gmap string Stored) : Prop := {
  gr_kept : ∀ id r, t0 !! id = Some r → ∃ p, t !! id = Some {| entry := entry r; PublishedAt := p |};
  gr_new : ∀ id r, t !! id = Some r → al_TenantID (entry r) = tenantID → t0 !! id = None → str_ltb last_ id = true
}.

Lemma oldest_first_weak_order l : weak_order_on oldest_first l.
Proof. apply (str_key_weak_order row_id). Qed.

(** The first and last entry of a chain are its smallest and largest id. *)
Lemma first_entry_min tenantID W :
  W ≠ [] → let first := i_FirstEntry (ComputeIntegrity tenantID W) in
  (∃ r, r ∈ W ∧ row_id r = first) ∧ ∀ r, r ∈ W → str_ltb (row_id r) first = false.
Proof.
  intros Hne first. assert (Ef : first = id_at (head (sort_by oldest_first W))) by by (unfold first; destruct W).
  clearbody first. subst first. pose proof (sort_by_sorted _ _ (oldest_first_weak_order W)) as Hs.
  destruct (sort_by oldest_first W) as [|a l] eqn:E.
  { apply (f_equal length) in E. rewrite sort_by_length in E. by destruct W. }
  assert (Hin : ∀ r, r ∈ W ↔ r ∈ a :: l) by (intros r; by rewrite <- E, elem_of_sort_by). simpl. split.
  - exists a. split; [apply Hin; by left|done].
  - intros r [->|Hr]%Hin%elem_of_cons; [apply str_ltb_irrefl|]. apply StronglySorted_inv in Hs as [_ Hf].
    rewrite Forall_forall in Hf. by apply Hf.
Qed.

Lemma last_entry_max tenantID W :
  W ≠ [] → let last_ := i_LastEntry (ComputeIntegrity tenantID W) in
  (∃ r, r ∈ W ∧ row_id r = last_) ∧ ∀ r, r ∈ W → str_ltb last_ (row_id r) = false.
Proof.
  intros Hne last_. assert (Ef : last_ = id_at (last (sort_by oldest_first W))) by by (unfold last_; destruct W).
  clearbody last_. subst last_. pose proof (sort_by_sorted _ _ (oldest_first_weak_order W)) as Hs.
  destruct (sort_by oldest_first W) as [|a l _] eqn:E using rev_ind.
  { apply (f_equal length) in E. rewrite sort_by_length in E. by destruct W. }
  assert (Hin : ∀ r, r ∈ W ↔ r ∈ l ++ [a]) by (intros r; by rewrite <- E, elem_of_sort_by).
  rewrite last_snoc. simpl. split.
  - exists a. split; [apply Hin, elem_of_app; right; by left|done].
  - intros r [Hr|Hr]%Hin%elem_of_app; [|apply list_elem_of_singleton in Hr as ->; apply str_ltb_irrefl].
    apply StronglySorted_app in Hs as (Hla & _). apply (Hla r a Hr). by left.
Qed.

(** The whole window of a tenant. *)
Lemma selected_whole tenantID n r : selected metadata_text (whole tenantID n) r = true ↔ al_TenantID (entry r) = tenantID.
Proof. unfold selected. simpl. rewrite !andb_true_r. apply str_eqb_eq. Qed.

Lemma selected_range tenantID first last_ r :
  first ≠ EmptyString → last_ ≠ EmptyString →
  selected metadata_text (in_range tenantID first last_ EmptyString) r = true ↔
  al_TenantID (entry r) = tenantID ∧ str_ltb (row_id r) first = false ∧ str_ltb last_ (row_id r) = false.
Proof.
  intros Hf Hl. unfold selected. simpl. rewrite !andb_true_r, (proj2 (str_empty_false _) Hf), (proj2 (str_empty_false _) Hl).
  simpl. rewrite !andb_true_iff, !negb_true_iff, str_eqb_eq. unfold row_id. tauto.
Qed.

Lemma watched_take tenantID t :
  watched tenantID t = take 200 (Cursor.listing row_id (selected metadata_text (whole tenantID maxPageSize)) (table_rows t)).
Proof. unfold watched, list_page. by rewrite Cursor.first_page. Qed.

(** A row of the tenant not below the oldest watched one is watched. *)
Lemma watched_above tenantID t x r :
  wf t → x ∈ watched tenantID t → r ∈ table_rows t → al_TenantID (entry r) = tenantID →
  str_ltb (row_id r) (row_id x) = false → r ∈ watched tenantID t.
Proof.
  intros Hw. rewrite watched_take. set (L := Cursor.listing _ _ _). intros Hx Hr Ht Hlt.
  assert (Hin : r ∈ L) by (unfold L; rewrite Cursor.listing_perm, elem_of_filterb; by rewrite selected_whole).
  rewrite <- (take_drop 200 L) in Hin. apply elem_of_app in Hin as [|Hin]; [done|].
  pose proof (Cursor.listing_sorted row_id (selected metadata_text (whole tenantID maxPageSize)) _ (rows_distinct t Hw)) as Hs.
  fold L in Hs. rewrite <- (take_drop 200 L) in Hs. apply StronglySorted_app in Hs as (Hcross & _).
  specialize (Hcross x r Hx Hin). simpl in Hcross. congruence.
Qed.

Lemma watched_distinct tenantID t : wf t → Cursor.distinct_ids row_id (watched tenantID t).
Proof.
  intros Hw. rewrite watched_take. unfold Cursor.distinct_ids.
  eapply sublist_NoDup; [|apply fmap_sublist, sublist_take].
  rewrite Cursor.listing_perm. by apply Cursor.distinct_ids_filter, rows_distinct.
Qed.

Section Growth.
Context (tenantID : string) (t0 t : gmap string Stored).
Let W := watched tenantID t0.
Let first := i_FirstEntry (ComputeIntegrity tenantID W).
Let last_ := i_LastEntry (ComputeIntegrity tenantID W).
Context (Hw0 : wf t0) (Hw : wf t) (Hne : W ≠ []) (Hg : grown tenantID last_ t0 t).

Lemma watched_wf r : r ∈ W → t0 !! row_id r = Some r ∧ al_TenantID (entry r) = tenantID ∧ row_id r ≠ EmptyString.
Proof.
  intros [Hr Ht]%watched_elem; [|done]. apply elem_of_audit_rows in Hr; [|done]. split_and!; [done|done|].
  by destruct (Hw0 _ _ Hr).
Qed.

Lemma bounds_nonempty : first ≠ EmptyString ∧ last_ ≠ EmptyString.
Proof.
  destruct (first_entry_min tenantID W Hne) as [(a & Ha & Ea) _]. destruct (last_entry_max tenantID W Hne) as [(b & Hb & Eb) _].
  unfold first, last_. rewrite <- Ea, <- Eb. split; by apply watched_wf.
Qed.

Lemma range_entries a : a ∈ entry <$> range_rows tenantID first last_ t ↔ a ∈ entry <$> W.
Proof.
  destruct bounds_nonempty as [Hf Hl].
  destruct (first_entry_min tenantID W Hne) as [(x & Hx & Ex) Hmin]. destruct (last_entry_max tenantID W Hne) as [_ Hmax].
  fold first in Ex, Hmin. fold last_ in Hmax. rewrite !list_elem_of_fmap. unfold range_rows.
  setoid_rewrite Cursor.listing_perm. setoid_rewrite elem_of_filterb. setoid_rewrite (selected_range _ _ _ _ Hf Hl).
  setoid_rewrite (elem_of_audit_rows _ t Hw). split.
  - intros (r & -> & (Ht & Hlo & Hhi) & Hr). destruct (t0 !! row_id r) as [r0|] eqn:E0.
    + destruct (gr_kept _ _ _ _ Hg _ _ E0) as [p Hp]. rewrite Hr in Hp. injection Hp as ->. exists r0. split; [done|].
      apply (watched_above tenantID t0 x); try done.
      * by apply elem_of_audit_rows.
      * by rewrite Ex.
    + pose proof (gr_new _ _ _ _ Hg _ _ Hr Ht E0). congruence.
  - intros (r & -> & Hr). destruct (watched_wf r Hr) as (H0 & Ht & _). destruct (gr_kept _ _ _ _ Hg _ _ H0) as [p Hp].
    exists {| entry := entry r; PublishedAt := p |}. split; [done|]. split; [|done].
    split_and!; [done|exact (Hmin r Hr)|exact (Hmax r Hr)].
Qed.

Lemma range_distinct : Cursor.distinct_ids row_id (range_rows tenantID first last_ t).
Proof.
  unfold range_rows, Cursor.distinct_ids. rewrite Cursor.listing_perm. by apply Cursor.distinct_ids_filter, rows_distinct.
Qed.

Lemma range_sorted : entry <$> sort_by oldest_first (range_rows tenantID first last_ t) = entry <$> sort_by oldest_first W.
Proof. apply sorted_entries; [apply range_distinct|by apply watched_distinct|apply range_entries]. Qed.

Lemma range_length : length (range_rows tenantID first last_ t) = length W.
Proof.
  pose proof (f_equal length range_sorted) as E. by rewrite !length_fmap, !sort_by_length in E.
Qed.

Lemma count_watched : EntryCount (observation_of (ComputeIntegrity tenantID W)) = length W ∧ length W ≤ 200.
Proof.
  split.
  - by apply count_nonempty.
  - unfold W. rewrite watched_take, length_take. lia.
Qed.

Lemma growth_head : (∀ x, sha256 x ≠ []) →
  HeadHash (observation_of (ComputeIntegrity tenantID W)) ≠ EmptyString ∧
  i_HeadHash (ComputeIntegrity tenantID (range_rows tenantID first last_ t)) = i_HeadHash (ComputeIntegrity tenantID W).
Proof.
  intros Hsha. split.
  - simpl. rewrite head_nonempty by done. intros E. apply (f_equal to_bytes) in E. rewrite to_of_bytes in E.
    assert (Hc : ∀ l, l ≠ [] → chain l ≠ []).
    { intros l. destruct l as [|r l _] using rev_ind; [done|]. intros _. unfold chain. rewrite foldl_app. apply Hsha. }
    apply (Hc (sort_by oldest_first W)); [|by apply hex_inj].
    intros Es%(f_equal length). rewrite sort_by_length in Es. by destruct W.
  - apply same_entries_head; [|done|apply range_sorted]. intros E%(f_equal length). rewrite range_length in E. by destruct W.
Qed.
End Growth.

(** When the log of a tenant has only grown since the last sweep, behind the rows
    that sweep watched, and the second read succeeds, no violation is reported,
    however much it grew. *)
Theorem growth_is_no_violation tenantID t0 w b w' :
  let W := watched tenantID t0 in let seen := ComputeIntegrity tenantID W in
  (∀ x, sha256 x ≠ []) → wf t0 → wf (logs (store w)) → W ≠ [] → grown tenantID (i_LastEntry seen) t0 (logs (store w)) →
  observations (store w) !! tenantID = Some (observation_of seen) → fate (S (calls_made w)) = Performed →
  checkOne tenantID w = (Ok b, w') → b = false.
Proof.
  intros W seen Hsha Hw0 Hw Hne Hg Hobs Hfate Hrun. unfold checkOne in Hrun.
  apply ebind_Ok in Hrun as (p & w1 & Hl & Hrun). assert (Hcalls : calls_made w1 = S (calls_made w)).
  { unfold List_ in Hl. destruct (str_empty _); [done|]. unfold eread, ecall in Hl. simpl in Hl.
    destruct (fate (calls_made w)); [|done..]. by injection Hl as _ <-. }
  assert (Htn : str_empty tenantID = false) by (unfold List_ in Hl; simpl in Hl; by destruct (str_empty tenantID)).
  apply List_Ok in Hl as [-> Es]. apply ebind_Ok in Hrun as (o & w2 & Hrem & Hrun). unfold remember in Hrem.
  injection Hrem as <- <-. rewrite Es, Hobs in Hrun. destruct (str_eqb (HeadHash _) _); [by injection Hrun|].
  destruct (growth_head tenantID t0 (logs (store w)) Hw0 Hw Hne Hg Hsha) as [Hhead Hsame].
  destruct (bounds_nonempty tenantID t0 Hw0 Hne) as [Hf Hlast]. destruct (count_watched tenantID t0 Hne) as [Hcount H200].
  pose proof (range_length tenantID t0 (logs (store w)) Hw0 Hw Hne Hg) as Hlen. fold W in Hhead, Hsame, Hf, Hlast, Hcount, H200, Hlen.
  fold seen in Hhead, Hsame, Hf, Hlast, Hcount, Hlen. unfold tailMatches in Hrun.
  cbn [LastEntry FirstEntry observation_of] in Hrun.
  rewrite (proj2 (str_empty_false _) Hf), (proj2 (str_empty_false _) Hlast), (proj2 (str_empty_false _) Hhead) in Hrun.
  cbn [orb] in Hrun. unfold page_budget in Hrun. rewrite <- plus_n_Sm in Hrun. cbn [collect] in Hrun.
  unfold ebind, List_ in Hrun. cbn [f_TenantID in_range] in Hrun. rewrite Htn in Hrun. unfold eread, ecall in Hrun.
  cbn [calls_made store] in Hrun. rewrite Hcalls, Hfate in Hrun. cbn [fst snd logs observe] in Hrun.
  assert (Hpage : list_page metadata_text (in_range tenantID (i_FirstEntry seen) (i_LastEntry seen) EmptyString) (logs (store w))
    = (range_rows tenantID (i_FirstEntry seen) (i_LastEntry seen) (logs (store w)), EmptyString)).
  { apply Cursor.single_page. fold (range_rows tenantID (i_FirstEntry seen) (i_LastEntry seen) (logs (store w))).
    change (page_size _) with 200. lia. }
  cbn [FirstEntry LastEntry observation_of] in Hrun. rewrite Hpage in Hrun. cbn [fst snd str_empty app eret] in Hrun.
  unfold eret in Hrun. rewrite Hlen, Hcount, Nat.eqb_refl in Hrun. rewrite andb_false_r in Hrun.
  rewrite Hsame in Hrun. cbn [HeadHash observation_of] in Hrun. rewrite str_eqb_refl in Hrun. by injection Hrun.
Qed.
End Worker.
End Chain.

(** ** Samples *)

(** A collision-free stand-in for the hash. *)
Definition sample_sha (x : bytes) : bytes := "x"%char :: x.
Definition no_text (_ : list (string * meta_value)) : string := EmptyString.
Definition sample_ulid (n : nat) : string := str_app "z" (str_of_nat n).

Definition sample_log (id actor : string) : AuditLog :=
  {| al_ID := id; al_TenantID := "t"; al_ActorID := actor; al_Action := "source.paused"; al_ResourceType := "source";
     al_ResourceID := "s"; al_Metadata := []; al_TraceID := ""; al_CreatedAt := 1 |}.
Definition sample_stored (id actor : string) : Stored := {| entry := sample_log id actor; PublishedAt := None |}.
Definition sample_before : gmap string Stored := {["a"%string := sample_stored "a" "u"]}.
Definition sample_after : gmap string Stored := <["b"%string := sample_stored "b" "u"]> sample_before.

Definition sample_seen : integrityObservation :=
  observation_of (ComputeIntegrity sample_sha "t" (watched no_text "t" sample_before)).
Definition world_with (t : gmap string Stored) (o : gmap string integrityObservation) : Env World :=
  {| store := {| logs := t; sent := []; observations := o; violations := [] |}; calls_made := 0 |}.

Lemma sample_before_wf : wf sample_before.
Proof. by apply map_Forall_singleton. Qed.
Lemma sample_after_wf : wf sample_after.
Proof. apply map_Forall_insert_2; [done|apply sample_before_wf]. Qed.

Lemma silence_means_unchanged_witness :
  ∃ r', r' ∈ table_rows sample_after ∧ al_TenantID (entry r') = "t"%string ∧ line (entry r') = line (sample_log "a" "u").
Proof.
  apply (@silence_means_unchanged sample_sha calm no_text sample_ulid "t" sample_before sample_seen
    (world_with sample_after {["t"%string := sample_seen]})
    (@checkOne sample_sha calm no_text sample_ulid "t" (world_with sample_after {["t"%string := sample_seen]})).2
    (sample_stored "a" "u")).
  - by intros x y [= ->].
  - done.
  - exact sample_after_wf.
  - reflexivity.
  - reflexivity.
  - vm_compute. reflexivity.
  - vm_compute. left.
Defined.

Lemma growth_is_no_violation_witness :
  ∃ b w', @checkOne sample_sha calm no_text sample_ulid "t" (world_with sample_after {["t"%string := sample_seen]}) = (Ok b, w')
    ∧ b = false.
Proof.
  eexists _, _. split; [vm_compute; reflexivity|].
  apply (@growth_is_no_violation sample_sha calm no_text sample_ulid "t" sample_before
    (world_with sample_after {["t"%string := sample_seen]}) false
    (@checkOne sample_sha calm no_text sample_ulid "t" (world_with sample_after {["t"%string := sample_seen]})).2).
  - done.
  - exact sample_before_wf.
  - exact sample_after_wf.
  - vm_compute. done.
  - constructor.
    + intros id r Hr. exists None. unfold sample_before in Hr. apply lookup_singleton_Some in Hr as [<- <-]. reflexivity.
    + intros id r Hr _ Hn. simpl in Hr. unfold sample_after in Hr.
      apply lookup_insert_Some in Hr as [[<- _]|[_ Hr]]; [vm_compute; reflexivity|congruence].
  - reflexivity.
  - reflexivity.
  - vm_compute. reflexivity.
Defined.

(** The first row of a tenant whose log was empty at the first sweep is reported. *)
Example first_row_is_a_violation :
  let w0 := @checkOne sample_sha calm no_text sample_ulid "t" (world_with ∅ ∅) in
  let w1 := {| store := set_logs (λ _, sample_before) (store w0.2); calls_made := calls_made w0.2 |} in
  w0.1 = Ok false ∧ (@checkOne sample_sha calm no_text sample_ulid "t" w1).1 = Ok true.
Proof. vm_compute. done. Qed.

(** A read that fails while the rows are compared is reported too. *)
Definition refuse_second : Outside :=
  {| fate := λ n, if (n =? 1)%nat then Refused else Performed; clock := λ n _, Z.of_nat n |}.
Example failed_read_is_a_violation :
  (@checkOne sample_sha refuse_second no_text sample_ulid "t" (world_with sample_after {["t"%string := sample_seen]})).1 = Ok true.
Proof. vm_compute. done. Qed.

(** The separator is not escaped: the actor and the action can trade places with it. *)
Example separator_hides_a_change :
  let a := sample_log "a" "u|source.paused" in
  let b := {| al_ID := "a"; al_TenantID := "t"; al_ActorID := "u"; al_Action := "source.paused|source.paused";
              al_ResourceType := "source"; al_ResourceID := "s"; al_Metadata := []; al_TraceID := ""; al_CreatedAt := 1 |} in
  line a = line b ∧ al_ActorID a ≠ al_ActorID b.
Proof. vm_compute. done. Qed.

(** The endpoint asks for a thousand rows and gets at most two hundred. *)
Example endpoint_window : page_size (whole "t" 1000) = 200.
Proof. reflexivity. Qed.
End AuditIntegrity.
