(* ===== verification/Calendar.v ===== *)
(** * The civil calendar of Go's time package

    A [Time] is a number of nanoseconds since the first of January of year one, UTC.
    Months are numbered from that date too, so that [month_start k] is the day on
    which month [k] begins and the parts of a date are found by locating its month. *)

From S2P Require Import Prelude.

Local Open Scope Z_scope.

Module Calendar.

Definition day : Z := 24 * hour.

Definition leap (year : Z) : bool :=
  (year `mod` 4 =? 0) && (negb (year `mod` 100 =? 0) || (year `mod` 400 =? 0)).

(** Days of the year before its month [m], counted from zero. *)
Definition before_month (m : Z) (is_leap : bool) : Z :=
  nth (Z.to_nat m) [0; 31; 59; 90; 120; 151; 181; 212; 243; 273; 304; 334] 0
  + (if is_leap && (2 <=? m) then 1 else 0).

(** The first day of month [k]; month 0 is January of year 1. *)
Definition month_start (k : Z) : Z :=
  let y := k / 12 in
  365 * y + y / 4 - y / 100 + y / 400 + before_month (k `mod` 12) (leap (y + 1)).

(** The month of a day: the average length of a month over the 400-year cycle is off
    by at most one month. *)
Definition month_of (d : Z) : Z :=
  let k := d * 4800 / 146097 in
  if d <? month_start k then k - 1
  else if month_start (k + 1) <=? d then k + 1 else k.

Definition day_of (t : Time) : Z := t / day.
Definition month_index (t : Time) : Z := month_of (day_of t).

Definition Year (t : Time) : Z := month_index t / 12 + 1.
Definition Month (t : Time) : Z := month_index t `mod` 12 + 1.
Definition Day (t : Time) : Z := day_of t - month_start (month_index t) + 1.
Definition Hour (t : Time) : Z := t `mod` day / hour.
Definition Minute (t : Time) : Z := t `mod` hour / minute.
Definition Second (t : Time) : Z := t `mod` minute / second.
Definition Nanosecond (t : Time) : Z := t `mod` second.

(** [time.Weekday], Sunday is 0; the first of January of year 1 was a Monday. *)
Definition Weekday (t : Time) : Z := (day_of t + 1) `mod` 7.

(** [time.Date] in UTC: parts outside their range carry over. *)
Definition Date (y mo d h mi s ns : Z) : Time :=
  (month_start (12 * (y - 1) + (mo - 1)) + (d - 1)) * day + h * hour + mi * minute + s * second + ns.

Definition AddDate (years months days : Z) (t : Time) : Time :=
  Date (Year t + years) (Month t + months) (Day t + days) (Hour t) (Minute t) (Second t) (Nanosecond t).

(** [Time.Truncate(time.Minute)]. *)
Definition truncate_minute (t : Time) : Time := t - t `mod` minute.

(** ** The months tile the days *)

(** The calendar repeats after 400 years. *)
Lemma month_start_period k q : month_start (k + 4800 * q) = month_start k + 146097 * q.
Proof.
  unfold month_start.
  replace (k + 4800 * q) with (k + 400 * q * 12) by lia.
  rewrite Z.div_add, Z.mod_add by lia. set (y := k / 12).
  replace ((y + 400 * q) / 4) with (y / 4 + 100 * q)
    by (replace (y + 400 * q) with (y + 100 * q * 4) by lia; by rewrite Z.div_add by lia).
  replace ((y + 400 * q) / 100) with (y / 100 + 4 * q)
    by (replace (y + 400 * q) with (y + 4 * q * 100) by lia; by rewrite Z.div_add by lia).
  replace ((y + 400 * q) / 400) with (y / 400 + q)
    by (replace (y + 400 * q) with (y + q * 400) by lia; by rewrite Z.div_add by lia).
  assert (leap (y + 400 * q + 1) = leap (y + 1)) as ->; [|lia].
  unfold leap.
  replace (y + 400 * q + 1) with (y + 1 + 400 * q) by lia.
  replace ((y + 1 + 400 * q) `mod` 4) with ((y + 1) `mod` 4)
    by (replace (y + 1 + 400 * q) with (y + 1 + 100 * q * 4) by lia; by rewrite Z.mod_add by lia).
  replace ((y + 1 + 400 * q) `mod` 100) with ((y + 1) `mod` 100)
    by (replace (y + 1 + 400 * q) with (y + 1 + 4 * q * 100) by lia; by rewrite Z.mod_add by lia).
  replace ((y + 1 + 400 * q) `mod` 400) with ((y + 1) `mod` 400)
    by (replace (y + 1 + 400 * q) with (y + 1 + q * 400) by lia; by rewrite Z.mod_add by lia).
  done.
Qed.

(** What is checked of the months of one cycle: their lengths, and that the average
    locates them within four days. *)
Definition month_ok (r : Z) : bool :=
  (28 <=? month_start (r + 1) - month_start r) && (month_start (r + 1) - month_start r <=? 31)
  && (Z.abs (146097 * r - 4800 * month_start r) <=? 16800).

Lemma cycle_ok : forallb month_ok (Z.of_nat <$> seq 0 4800) = true.
Proof. vm_compute. reflexivity. Qed.

Lemma month_facts k :
  28 ≤ month_start (k + 1) - month_start k ≤ 31 ∧
  Z.abs (146097 * k - 4800 * month_start k) ≤ 16800.
Proof.
  pose proof (Z.div_mod k 4800 ltac:(lia)) as Hk. pose proof (Z.mod_pos_bound k 4800 ltac:(lia)) as Hr.
  set (q := k / 4800) in *. set (r := k `mod` 4800) in *.
  assert (Hok : month_ok r = true).
  { pose proof cycle_ok as Hc. rewrite forallb_forall in Hc. apply Hc.
    apply list_elem_of_In, list_elem_of_fmap. exists (Z.to_nat r). split; [lia|].
    apply elem_of_seq. lia. }
  assert (E1 : month_start k = month_start r + 146097 * q)
    by (rewrite <- month_start_period; f_equal; lia).
  assert (E2 : month_start (k + 1) = month_start (r + 1) + 146097 * q)
    by (rewrite <- month_start_period; f_equal; lia).
  unfold month_ok in Hok. rewrite !andb_true_iff, !Z.leb_le in Hok. lia.
Qed.

Lemma month_start_lt j k : j < k → month_start j < month_start k.
Proof.
  intros Hjk. replace k with (j + 1 + Z.of_nat (Z.to_nat (k - j - 1))) by lia.
  induction (Z.to_nat (k - j - 1)) as [|n IH].
  - pose proof (month_facts j). replace (j + 1 + Z.of_nat 0) with (j + 1) by lia. lia.
  - pose proof (month_facts (j + 1 + Z.of_nat n)).
    replace (j + 1 + Z.of_nat (S n)) with (j + 1 + Z.of_nat n + 1) by lia. lia.
Qed.

Lemma month_start_le j k : j ≤ k → month_start j ≤ month_start k.
Proof. intros [?| ->]%Zle_lt_or_eq; [|done]. by apply Z.lt_le_incl, month_start_lt. Qed.

Lemma month_start_span k n : month_start (k + Z.of_nat n) - month_start k ≤ 31 * Z.of_nat n.
Proof.
  induction n as [|n IH]; [by rewrite Z.add_0_r, Z.sub_diag|].
  pose proof (month_facts (k + Z.of_nat n)).
  replace (k + Z.of_nat (S n)) with (k + Z.of_nat n + 1) by lia. lia.
Qed.

Lemma month_of_spec d : month_start (month_of d) ≤ d < month_start (month_of d + 1).
Proof.
  unfold month_of. set (k := d * 4800 / 146097).
  pose proof (Z.div_mod (d * 4800) 146097 ltac:(lia)) as Hk.
  pose proof (Z.mod_pos_bound (d * 4800) 146097 ltac:(lia)).
  fold k in Hk. pose proof (month_facts (k - 1)) as [_ H1]. pose proof (month_facts (k + 2)) as [_ H2].
  destruct (Z.ltb_spec d (month_start k)).
  - replace (k - 1 + 1) with k by lia. lia.
  - destruct (Z.leb_spec (month_start (k + 1)) d); [|lia].
    replace (k + 1 + 1) with (k + 2) by lia. lia.
Qed.

Lemma month_of_unique d k : month_start k ≤ d < month_start (k + 1) → month_of d = k.
Proof.
  intros Hd. pose proof (month_of_spec d) as Hs.
  destruct (Z.lt_trichotomy (month_of d) k) as [Hl|[E|Hl]]; [|done|].
  - pose proof (month_start_le (month_of d + 1) k). lia.
  - pose proof (month_start_le (k + 1) (month_of d)). lia.
Qed.

(** ** Dates and their parts *)

Lemma month_parts t : 12 * (Year t - 1) + (Month t - 1) = month_index t.
Proof. unfold Year, Month. pose proof (Z.div_mod (month_index t) 12). lia. Qed.

Lemma Month_range t : 1 ≤ Month t ≤ 12.
Proof. unfold Month. pose proof (Z.mod_pos_bound (month_index t) 12). lia. Qed.

Lemma Day_range t : 1 ≤ Day t ≤ 31.
Proof.
  unfold Day. pose proof (month_of_spec (day_of t)). pose proof (month_facts (month_index t)).
  unfold month_index in *. lia.
Qed.

Lemma time_units : day = 24 * hour ∧ hour = 60 * minute ∧ minute = 60 * second ∧ 0 < second.
Proof. done. Qed.

(** Splitting by a unit and then by a multiple of it. *)
Lemma mod_mod_mul t n u : 0 < n → 0 < u → t `mod` (n * u) `mod` u = t `mod` u.
Proof.
  intros Hn Hu. rewrite (Z.mul_comm n), Z.rem_mul_r by lia.
  by rewrite Z.mul_comm, Z.mod_add, Z.mod_mod by lia.
Qed.

Lemma split_unit t n u : 0 < n → 0 < u → t `mod` (n * u) / u * u + t `mod` u = t `mod` (n * u).
Proof.
  intros Hn Hu. pose proof (Z.div_mod (t `mod` (n * u)) u ltac:(lia)) as D.
  rewrite mod_mod_mul in D by done. lia.
Qed.

(** A time is its parts. *)
Lemma Date_parts t :
  Date (Year t) (Month t) (Day t) (Hour t) (Minute t) (Second t) (Nanosecond t) = t.
Proof.
  unfold Date. rewrite month_parts. unfold Day, Hour, Minute, Second, Nanosecond.
  pose proof (split_unit t 24 hour eq_refl eq_refl) as D1.
  pose proof (split_unit t 60 minute eq_refl eq_refl) as D2.
  pose proof (split_unit t 60 second eq_refl eq_refl) as D3.
  change (24 * hour) with day in *. change (60 * minute) with hour in *. change (60 * second) with minute in *.
  pose proof (Z.div_mod t day ltac:(done)) as D0. fold (day_of t) in D0.
  replace (month_start (month_index t) + _) with (day_of t) by lia.
  rewrite (Z.mul_comm day) in D0. lia.
Qed.
(** Adding whole years moves the month and keeps the rest. *)
Lemma AddDate_years n t :
  AddDate n 0 0 t = t + (month_start (month_index t + 12 * n) - month_start (month_index t)) * day.
Proof.
  trans (Date (Year t) (Month t) (Day t) (Hour t) (Minute t) (Second t) (Nanosecond t)
         + (month_start (month_index t + 12 * n) - month_start (month_index t)) * day);
    [|f_equal; apply Date_parts].
  unfold AddDate, Date. rewrite month_parts, !Z.add_0_r.
  replace (12 * (Year t + n - 1) + (Month t - 1)) with (month_index t + 12 * n)
    by (rewrite <- month_parts; lia).
  generalize (month_start (month_index t + 12 * n)), (month_start (month_index t)), (Day t), (Hour t), (Minute t),
    (Second t), (Nanosecond t), day, hour, minute, second. intros. ring.
Qed.
End Calendar.
