(* ===== verification/GoText.v ===== *)
(** * Numbers and fields in text

    What the admin code uses of Go's strings, strconv and time packages to read text:
    splitting, fields, decimal integers and durations. *)

From Stdlib Require Import Ascii.
From S2P Require Import Prelude GoFloat GoString.

Local Open Scope Z_scope.

(** ** Splitting *)

(** The bytes before the first [c] and those behind it. *)
Fixpoint cut_at (c : ascii) (l : bytes) : option (bytes * bytes) :=
  match l with
  | [] => None
  | a :: r => if Ascii.eqb a c then Some ([], r)
              else match cut_at c r with Some (x, y) => Some (a :: x, y) | None => None end
  end.

(** [strings.Split] by a one-byte separator; there is always at least one part. *)
Fixpoint split_on (c : ascii) (l : bytes) : list bytes :=
  match l with
  | [] => [[]]
  | a :: r =>
      if Ascii.eqb a c then [] :: split_on c r
      else match split_on c r with p :: ps => (a :: p) :: ps | [] => [[a]] end
  end.

(** [strings.Fields]; every round consumes at least one byte. *)
Fixpoint fields_from (fuel : nat) (cur : list N) (l : list N) : list (list N) :=
  let flush := match cur with [] => [] | _ => [cur] end in
  match fuel with
  | O => flush
  | S n =>
      match strip_space l with
      | Some l' => flush ++ fields_from n [] l'
      | None => match l with [] => flush | b :: l' => fields_from n (cur ++ [b]) l' end
      end
  end.

Definition fields (s : string) : list bytes :=
  let l := map byte_val (to_bytes s) in
  map (map ascii_of_N) (fields_from (S (length l)) [] l).

(** ** Decimal integers *)

Definition digit (c : ascii) : option Z :=
  let b := byte_val c in
  if ((48 <=? b) && (b <=? 57))%N then Some (Z.of_N b - 48) else None.

Fixpoint digits (acc : Z) (l : bytes) : option Z :=
  match l with
  | [] => Some acc
  | c :: r => match digit c with Some d => digits (10 * acc + d) r | None => None end
  end.

Definition number (l : bytes) : option Z := match l with [] => None | _ => digits 0 l end.

(** [strconv.Atoi] on a 64-bit machine: an optional sign, digits, and a range check. *)
Definition Atoi (l : bytes) : option Z :=
  let v := match l with
           | "-"%char :: r => option_map Z.opp (number r)
           | "+"%char :: r => number r
           | _ => number l
           end in
  match v with
  | Some n => if (int64_min <=? n) && (n <=? int64_max) then Some n else None
  | None => None
  end.

(** ** Durations *)

Definition time_unit (u : bytes) : option Z :=
  let named (s : string) := bool_decide (u = to_bytes s) in
  if named "ns"%string then Some 1
  else if named "us"%string || bool_decide (u = map ascii_of_N [194; 181; 115]%N)
          || bool_decide (u = map ascii_of_N [206; 188; 115]%N) then Some 1000
  else if named "ms"%string then Some millisecond
  else if named "s"%string then Some second
  else if named "m"%string then Some minute
  else if named "h"%string then Some hour
  else None.

(** [leadingInt]: the digits in front; an error beyond 2^63. *)
Fixpoint leading_int (acc : Z) (l : bytes) : option (Z * bytes) :=
  match l with
  | c :: r =>
      match digit c with
      | Some d =>
          if 2 ^ 63 / 10 <? acc then None
          else let x := acc * 10 + d in if 2 ^ 63 <? x then None else leading_int x r
      | None => Some (acc, l)
      end
  | [] => Some (acc, [])
  end.

(** [leadingFraction]: digits that no longer fit are dropped. *)
Fixpoint leading_fraction (f : Z) (scale : float) (overflow : bool) (l : bytes) : Z * float * bytes :=
  match l with
  | c :: r =>
      match digit c with
      | Some d =>
          if overflow then leading_fraction f scale true r
          else if (2 ^ 63 - 1) / 10 <? f then leading_fraction f scale true r
          else let y := f * 10 + d in
               if 2 ^ 63 <? y then leading_fraction f scale true r
               else leading_fraction y (f64_mul scale (f64_of_Z 10)) false r
      | None => (f, scale, l)
      end
  | [] => (f, scale, [])
  end.

Definition starts_number (c : ascii) : bool :=
  Ascii.eqb c "." || match digit c with Some _ => true | None => false end.

(** The letters of a unit and what follows. *)
Fixpoint take_unit (l : bytes) : bytes * bytes :=
  match l with
  | c :: r => if starts_number c then ([], l) else let '(u, r') := take_unit r in (c :: u, r')
  | [] => ([], [])
  end.

Definition bad_duration : string := "time: invalid duration".

(** One [<number><unit>] in front: its nanoseconds and the rest. *)
Definition duration_part (l : bytes) : result (Z * bytes) string :=
  match l with
  | [] => Err bad_duration
  | c :: _ =>
      if negb (starts_number c) then Err bad_duration
      else
        match leading_int 0 l with
        | None => Err bad_duration
        | Some (v, l1) =>
            let pre := negb (length l =? length l1)%nat in
            let '(f, scale, l2, post) :=
              match l1 with
              | "."%char :: l1' =>
                  let '(f, scale, l2) := leading_fraction 0 (f64_of_Z 1) false l1' in
                  (f, scale, l2, negb (length l1' =? length l2)%nat)
              | _ => (0, f64_of_Z 1, l1, false)
              end in
            if negb pre && negb post then Err bad_duration
            else
              let '(u, rest) := take_unit l2 in
              match u with
              | [] => Err "time: missing unit in duration"%string
              | _ =>
                  match time_unit u with
                  | None => Err "time: unknown unit in duration"%string
                  | Some unit =>
                      if 2 ^ 63 / unit <? v then Err bad_duration
                      else
                        let v' := v * unit
                          + (if 0 <? f then int_of_f64 (f64_mul (f64_of_Z f) (f64_div (f64_of_Z unit) scale)) else 0) in
                        if 2 ^ 63 <? v' then Err bad_duration else Ok (v', rest)
                  end
              end
        end
  end.

(** Every part consumes at least its unit. *)
Fixpoint duration_parts (fuel : nat) (d : Z) (l : bytes) : result Z string :=
  match l, fuel with
  | [], _ => Ok d
  | _, O => Err bad_duration
  | _, S n =>
      let! part := duration_part l in
      let d' := d + part.1 in
      if 2 ^ 63 <? d' then Err bad_duration else duration_parts n d' part.2
  end.

(** [time.ParseDuration]. *)
Definition ParseDuration (s : string) : result Z string :=
  let l := to_bytes s in
  let '(neg, l') := match l with "-"%char :: r => (true, r) | "+"%char :: r => (false, r) | _ => (false, l) end in
  if bool_decide (l' = ["0"%char]) then Ok 0
  else match l' with
       | [] => Err bad_duration
       | _ =>
           let! d := duration_parts (length l') 0 l' in
           if neg then Ok (- d) else if 2 ^ 63 - 1 <? d then Err bad_duration else Ok d
       end.

Example duration_1h30m : ParseDuration "1h30m" = Ok (90 * minute).
Proof. reflexivity. Qed.

Example duration_fraction : ParseDuration "1.5s" = Ok (1500 * millisecond).
Proof. vm_compute. reflexivity. Qed.

Example duration_no_unit : ParseDuration "5" = Err "time: missing unit in duration"%string.
Proof. reflexivity. Qed.

(** ** Printing and reading a number *)

(** [strconv.Itoa] of a non-negative number. *)
Definition Itoa (z : Z) : bytes := to_bytes (str_of_nat (Z.to_nat z)).

Lemma digit_of_value (d : N) : (d < 10)%N → digit (ascii_of_N (48 + d)) = Some (Z.of_N d).
Proof.
  intros Hd. unfold digit, byte_val. rewrite N_ascii_embedding by lia.
  rewrite (proj2 (N.leb_le 48 (48 + d))), (proj2 (N.leb_le (48 + d) 57)) by lia. simpl. f_equal. lia.
Qed.

Lemma digits_digits_of fuel n acc :
  (n < 10 ^ N.of_nat fuel)%N → digits 0 (digits_of fuel n acc) = digits (Z.of_N n) acc.
Proof.
  revert n acc. induction fuel as [|k IH]; intros n acc Hn; cbn [digits_of].
  - assert (n = 0)%N as ->; [|done]. simpl in Hn. lia.
  - destruct (N.eqb_spec n 0) as [->|Hz]; [done|]. rewrite IH.
    + cbn [digits]. rewrite digit_of_value by (apply N.mod_lt; lia). f_equal.
      pose proof (N.div_mod n 10 ltac:(lia)). lia.
    + rewrite Nat2N.inj_succ, N.pow_succ_r' in Hn. apply N.Div0.div_lt_upper_bound. lia.
Qed.

Lemma digits_of_keeps fuel n acc : acc ≠ [] → digits_of fuel n acc ≠ [].
Proof.
  revert n acc. induction fuel as [|k IH]; intros n acc Ha; cbn [digits_of]; [done|].
  destruct (n =? 0)%N; [done|]. by apply IH.
Qed.

Lemma number_Itoa z : 0 ≤ z < 10 ^ 20 → number (Itoa z) = Some z.
Proof.
  intros Hz. unfold Itoa, str_of_nat. destruct (Nat.eqb_spec (Z.to_nat z) 0) as [E|E].
  - rewrite to_of_bytes. simpl. f_equal. lia.
  - rewrite to_of_bytes. unfold number.
    assert (Hne : digits_of 20 (N.of_nat (Z.to_nat z)) [] ≠ []).
    { cbn [digits_of]. destruct (N.eqb_spec (N.of_nat (Z.to_nat z)) 0); [lia|]. by apply (digits_of_keeps 19). }
    pose proof (digits_digits_of 20 (N.of_nat (Z.to_nat z)) []) as Hd.
    destruct (digits_of 20 (N.of_nat (Z.to_nat z)) []) as [|c l]; [done|].
    rewrite Hd; [simpl; f_equal; lia|]. change (10 ^ N.of_nat 20)%N with (Z.to_N (10 ^ 20)). lia.
Qed.

Lemma Atoi_number l z : number l = Some z → in_int64 z → Atoi l = Some z.
Proof.
  intros Hn [Hlo Hhi]. unfold Atoi.
  assert (Hv : match l with
               | "-"%char :: r => option_map Z.opp (number r)
               | "+"%char :: r => number r
               | _ => number l
               end = Some z).
  { destruct l as [|c r]; [done|].
    destruct (decide (c = "-"%char)) as [->|H1]; [done|]. destruct (decide (c = "+"%char)) as [->|H2]; [done|].
    destruct c as [[] [] [] [] [] [] [] []]; done. }
  rewrite Hv, (proj2 (Z.leb_le _ _) Hlo), (proj2 (Z.leb_le _ _) Hhi). done.
Qed.

Lemma Atoi_Itoa z : 0 ≤ z ≤ int64_max → Atoi (Itoa z) = Some z.
Proof.
  intros Hz. assert (int64_max < 10 ^ 20) by done. apply Atoi_number; [apply number_Itoa; lia|].
  unfold in_int64, int64_min. lia.
Qed.

(** Only digits are printed. *)
Lemma digits_elem acc l z c : digits acc l = Some z → c ∈ l → is_Some (digit c).
Proof.
  revert acc. induction l as [|x l IH]; intros acc Hd Hc; [by apply not_elem_of_nil in Hc|].
  simpl in Hd. destruct (digit x) as [d|] eqn:Hx; [|done].
  apply elem_of_cons in Hc as [->|Hc]; [by rewrite Hx|by eapply IH].
Qed.

Lemma Itoa_no z c : 0 ≤ z < 10 ^ 20 → digit c = None → c ∉ Itoa z.
Proof.
  intros Hz Hc Hin. pose proof (number_Itoa z Hz) as Hn. unfold number in Hn.
  destruct (Itoa z) as [|x l] eqn:E; [done|].
  destruct (digits_elem 0 (x :: l) z c Hn Hin) as [d Hd]. by rewrite Hd in Hc.
Qed.

(** The first separator is found where the text before it has none. *)
Lemma cut_at_app c l r : c ∉ l → cut_at c (l ++ c :: r) = Some (l, r).
Proof.
  induction l as [|a l IH]; intros Hn; simpl.
  - by rewrite Ascii.eqb_refl.
  - destruct (Ascii.eqb_spec a c) as [->|_]; [set_solver|]. rewrite IH by set_solver. done.
Qed.
