(* ===== verification/Cron.v ===== *)
(** * Cron expressions (admin/cron.go)

    The parser of one field and of a whole expression, and the search for the next
    firing time. The search jumps over months, days and hours; it is proved to return
    the soonest matching minute. Schedules are evaluated in UTC, as every caller does. *)

From Stdlib Require Import Ascii.
From S2P Require Import Prelude GoFloat GoString GoText Calendar.

Local Open Scope Z_scope.

Module Cron.
Import Calendar.

Record fieldRange := { fr_min : Z; fr_max : Z }.
Definition rangeMinute : fieldRange := {| fr_min := 0; fr_max := 59 |}.
Definition rangeHour : fieldRange := {| fr_min := 0; fr_max := 23 |}.
Definition rangeDOM : fieldRange := {| fr_min := 1; fr_max := 31 |}.
Definition rangeMonth : fieldRange := {| fr_min := 1; fr_max := 12 |}.
Definition rangeDOW : fieldRange := {| fr_min := 0; fr_max := 6 |}.

Inductive field_error :=
| EmptyField | EmptyElement | BadStep (s : bytes) | BadRangeStart (s : bytes) | BadRangeEnd (s : bytes)
| BadValue (s : bytes) | OutOfRange (fr : fieldRange) (part : bytes).

(** ** Fields *)

Record part := { lo : Z; hi : Z; step : Z }.

(** The step of a list element and what stands before it. *)
Definition split_step (p : bytes) : result (bytes * Z) field_error :=
  match cut_at "/" p with
  | Some (before, after) =>
      match Atoi after with
      | Some n => if n <=? 0 then Err (BadStep after) else Ok (before, n)
      | None => Err (BadStep after)
      end
  | None => Ok (p, 1)
  end.

Definition bounds (p : bytes) (fr : fieldRange) : result (Z * Z) field_error :=
  if bool_decide (p = ["*"%char]) then Ok (fr_min fr, fr_max fr)
  else match cut_at "-" p with
       | Some (a, b) =>
           match Atoi a, Atoi b with
           | Some x, Some y => Ok (x, y)
           | None, _ => Err (BadRangeStart a)
           | _, None => Err (BadRangeEnd b)
           end
       | None => match Atoi p with Some n => Ok (n, n) | None => Err (BadValue p) end
       end.

Definition parse_part (p : bytes) (fr : fieldRange) : result part field_error :=
  match p with
  | [] => Err EmptyElement
  | _ =>
      let! ps := split_step p in
      let! b := bounds ps.1 fr in
      if (b.1 <? fr_min fr) || (fr_max fr <? b.2) || (b.2 <? b.1) then Err (OutOfRange fr ps.1)
      else Ok {| lo := b.1; hi := b.2; step := ps.2 |}
  end.

(** [for v := lo; v <= hi; v += step], in 64 bits. *)
Fixpoint count_up (fuel : nat) (v hi step : Z) : option (list Z) :=
  match fuel with
  | O => None
  | S n => if v <=? hi then option_map (cons v) (count_up n (wrap64 (v + step)) hi step) else Some []
  end.

(** [count_up_total] shows that this is enough for every step. *)
Definition count_fuel : nat := 256.

Definition part_values (p : part) : list Z := default [] (count_up count_fuel (lo p) (hi p) (step p)).

Fixpoint parse_parts (ps : list bytes) (fr : fieldRange) (seen : gset Z) : result (gset Z) field_error :=
  match ps with
  | [] => Ok seen
  | p :: rest =>
      let! x := parse_part p fr in
      parse_parts rest fr (seen ∪ list_to_set (part_values x))
  end.

Definition parseField (s : bytes) (fr : fieldRange) : result (list Z) field_error :=
  match s with
  | [] => Err EmptyField
  | _ =>
      let! seen := parse_parts (split_on "," s) fr ∅ in
      Ok (sort_by Z.ltb (elements seen))
  end.

(** ** Expressions *)

Record CronSchedule := {
  expr : string;
  every : Z;
  minutes : list Z;
  hours : list Z;
  doms : list Z;
  months : list Z;
  dows : list Z;
  hasDOM : bool;
  hasDOW : bool
}.

Inductive cron_error :=
| EmptyExpression | EveryDuration (e : string) | EveryNotPositive | FieldCount (n : nat)
| FieldError (field : string) (e : field_error).

Definition alias (e : string) : string :=
  if str_eqb e "@hourly" then "0 * * * *"
  else if str_eqb e "@daily" || str_eqb e "@midnight" then "0 0 * * *"
  else if str_eqb e "@weekly" then "0 0 * * 0"
  else if str_eqb e "@monthly" then "0 0 1 * *"
  else if str_eqb e "@yearly" || str_eqb e "@annually" then "0 0 1 1 *"
  else e.

Definition in_field {A} (name : string) (r : result A field_error) : result A cron_error :=
  match r with Ok a => Ok a | Err e => Err (FieldError name e) end.

Definition restricted (f : bytes) : bool := negb (bool_decide (f = ["*"%char])).

Definition ParseCron (input : string) : result CronSchedule cron_error :=
  let e := trim_space input in
  if str_empty e then Err EmptyExpression
  else match strip_prefix (to_bytes "@every ") (to_bytes e) with
  | Some rest =>
      match ParseDuration (trim_space (of_bytes rest)) with
      | Err err => Err (EveryDuration err)
      | Ok d =>
          if d <=? 0 then Err EveryNotPositive
          else Ok {| expr := e; every := d; minutes := []; hours := []; doms := []; months := [];
                     dows := []; hasDOM := false; hasDOW := false |}
      end
  | None =>
      match fields (alias e) with
      | [f0; f1; f2; f3; f4] =>
          let! mi := in_field "minute" (parseField f0 rangeMinute) in
          let! h := in_field "hour" (parseField f1 rangeHour) in
          let! dm := in_field "day-of-month" (parseField f2 rangeDOM) in
          let! mo := in_field "month" (parseField f3 rangeMonth) in
          let! dw := in_field "day-of-week" (parseField f4 rangeDOW) in
          Ok {| expr := e; every := 0; minutes := mi; hours := h; doms := dm; months := mo; dows := dw;
                hasDOM := restricted f2; hasDOW := restricted f4 |}
      | fs => Err (FieldCount (length fs))
      end
  end.

(** ** The next firing time *)

Definition contains (xs : list Z) (v : Z) : bool := existsb (Z.eqb v) xs.

Definition matchDay (cs : CronSchedule) (t : Time) : bool :=
  let domHit := contains (doms cs) (Day t) in
  let dowHit := contains (dows cs) (Weekday t) in
  if hasDOM cs && hasDOW cs then domHit || dowHit
  else if hasDOM cs then domHit
  else if hasDOW cs then dowHit
  else true.

(** One round of the search: the time to return, or the next candidate. *)
Definition candidate (cs : CronSchedule) (limit t : Time) : Time + Time :=
  if limit <? t then inr 0
  else if negb (contains (months cs) (Month t)) then inl (Date (Year t) (Month t + 1) 1 0 0 0 0)
  else if negb (matchDay cs t) then inl (Date (Year t) (Month t) (Day t + 1) 0 0 0 0)
  else if negb (contains (hours cs) (Hour t)) then inl (Date (Year t) (Month t) (Day t) (Hour t + 1) 0 0 0)
  else if negb (contains (minutes cs) (Minute t)) then inl (t + minute)
  else inr t.

Definition search_limit (from : Time) : Time := AddDate 4 0 0 from.

Definition first_candidate (from : Time) : Time :=
  truncate_minute (from + (minute - Second from * second - Nanosecond from)).

(** Four years have fewer minutes than this. *)
Definition search_fuel : positive := 4194304.

(** The zero time stands for no firing time. *)
Definition Next (cs : CronSchedule) (from : Time) : Time :=
  if 0 <? every cs then from + every cs
  else match loop (candidate cs (search_limit from)) search_fuel (first_candidate from) with
       | inr t => t
       | inl _ => 0
       end.

(** ** The counting loop *)

(** Without overflow, in increasing order, every [step]-th value from [v] to [hi]. *)
Lemma count_up_spec fuel v hi step :
  in_int64 v → 0 < step → hi + step ≤ int64_max → hi - v + 2 ≤ Z.of_nat fuel → 0 < Z.of_nat fuel →
  ∃ l, count_up fuel v hi step = Some l ∧
    ∀ x, x ∈ l ↔ v ≤ x ≤ hi ∧ (step | x - v).
Proof.
  revert v. induction fuel as [|n IH]; intros v Hv Hs Hh Hf Hf0; [lia|].
  cbn [count_up]. destruct (Z.leb_spec v hi) as [Hle|Hgt].
  - rewrite wrap64_id by (unfold in_int64, int64_min in *; lia).
    destruct (IH (v + step)) as (l & -> & Hl); [unfold in_int64, int64_min in *; lia|lia..|].
    exists (v :: l). split; [done|]. intros x. rewrite elem_of_cons, Hl. split.
    + intros [->|[Hx [k Hk]]]; [split; [lia|]; exists 0; lia|]. split; [lia|]. exists (k + 1). lia.
    + intros [Hx [k Hk]]. destruct (decide (k = 0)) as [->|]; [left; lia|]. right.
      assert (0 < k) by nia. split; [nia|]. exists (k - 1). lia.
  - exists []. split; [done|]. intros x. rewrite elem_of_nil. split; [done|]. lia.
Qed.

(** A step near the largest integer makes the counter wrap; the loop still ends. *)
Lemma count_up_wraps fuel v hi step :
  -120 ≤ v ≤ 59 → hi ≤ 59 → int64_max - 60 < step ≤ int64_max →
  2 * Z.max 0 v + 2 ≤ Z.of_nat fuel → is_Some (count_up fuel v hi step).
Proof.
  unfold int64_max. revert v. induction fuel as [fuel IH] using lt_wf_ind. intros v Hv Hh Hs Hf.
  destruct fuel as [|[|n]]; [lia..|]. cbn [count_up].
  destruct (v <=? hi); [|by eexists]. unfold wrap64.
  destruct (Z.le_gt_cases (v + step) (2 ^ 63 - 1)) as [Hle|Hgt].
  - rewrite Z.mod_small by lia. destruct (Z.leb_spec (v + step + 2 ^ 63 - 2 ^ 63) hi); [lia|by eexists].
  - assert (E : (v + step + 2 ^ 63) `mod` 2 ^ 64 = v + step - 2 ^ 63).
    { symmetry. apply (Z.mod_unique _ _ 1); lia. }
    rewrite E. destruct (_ <=? hi); [|by eexists].
    rewrite Z.mod_small by lia.
    destruct (IH n ltac:(lia) (v + step - 2 ^ 63 - 2 ^ 63 + step + 2 ^ 63 - 2 ^ 63)) as [l Hl]; [lia..|].
    rewrite Hl. by eexists.
Qed.

(** The loop ends within its fuel for every step a field can have. *)
Lemma count_up_total p fr x :
  parse_part p fr = Ok x → 0 ≤ fr_min fr → fr_max fr ≤ 59 →
  is_Some (count_up count_fuel (lo x) (hi x) (step x)) ∧
  fr_min fr ≤ lo x ≤ hi x ∧ hi x ≤ fr_max fr ∧ 0 < step x ≤ int64_max.
Proof.
  intros Hp Hmin Hmax.
  assert (Hx : fr_min fr ≤ lo x ≤ hi x ∧ hi x ≤ fr_max fr ∧ 0 < step x ≤ int64_max).
  { unfold parse_part in Hp. destruct p as [|c p]; [done|].
    apply result_bind_Ok in Hp as ([before n] & Hstep & Hp).
    apply result_bind_Ok in Hp as ([a b] & Hb & Hp). simpl in *.
    destruct ((a <? fr_min fr) || (fr_max fr <? b) || (b <? a)) eqn:Hc; [done|].
    injection Hp as <-. simpl. rewrite !orb_false_iff, !Z.ltb_ge in Hc.
    split; [lia|]. split; [lia|].
    unfold split_step in Hstep. destruct (cut_at "/" (c :: p)) as [[x y]|].
    - unfold Atoi in Hstep. destruct (match y with "-"%char :: r => _ | _ => _ end) as [k|]; [|done].
      destruct ((int64_min <=? k) && (k <=? int64_max)) eqn:Hr; [|done].
      destruct (Z.leb_spec k 0); [done|]. injection Hstep as <- <-.
      rewrite andb_true_iff, !Z.leb_le in Hr. lia.
    - injection Hstep as <- <-. unfold int64_max. lia. }
  split; [|done]. assert (Hfuel : Z.of_nat count_fuel = 256) by done.
  destruct (Z.le_gt_cases (step x) (int64_max - 60)) as [Hle|Hgt].
  - destruct (count_up_spec count_fuel (lo x) (hi x) (step x)) as (l & -> & _); [|lia..|done].
    unfold in_int64, int64_min, int64_max in *. lia.
  - apply count_up_wraps; lia.
Qed.

(** ** What a field denotes *)

(** [v] is one of the values of the list element [p]. *)
Definition part_denotes (fr : fieldRange) (p : bytes) (v : Z) : Prop :=
  ∃ x, parse_part p fr = Ok x ∧ lo x ≤ v ≤ hi x ∧ (step x | v - lo x).

(** No step is so large that the counter of the loop wraps. *)
Definition modest_steps (fr : fieldRange) (s : bytes) : Prop :=
  ∀ p x, p ∈ split_on "," s → parse_part p fr = Ok x → step x ≤ int64_max - 60.

Definition plain_range (fr : fieldRange) : Prop := 0 ≤ fr_min fr ∧ fr_max fr ≤ 59.

Lemma part_values_spec p fr x v :
  plain_range fr → parse_part p fr = Ok x → step x ≤ int64_max - 60 →
  v ∈ part_values x ↔ part_denotes fr p v.
Proof.
  intros [Hmin Hmax] Hp Hs. destruct (count_up_total p fr x Hp Hmin Hmax) as (_ & Hlo & Hhi & Hst).
  assert (Hfuel : Z.of_nat count_fuel = 256) by done.
  destruct (count_up_spec count_fuel (lo x) (hi x) (step x)) as (l & Hl & Hin); [|lia..|].
  { unfold in_int64, int64_min, int64_max in *. lia. }
  unfold part_values. rewrite Hl. simpl. rewrite Hin. unfold part_denotes. split; [by eauto|].
  intros (y & Hy & Hb). rewrite Hp in Hy. by injection Hy as ->.
Qed.

Lemma parse_parts_spec ps fr seen s :
  plain_range fr → (∀ p x, p ∈ ps → parse_part p fr = Ok x → step x ≤ int64_max - 60) →
  parse_parts ps fr seen = Ok s →
  (∀ v, v ∈ s ↔ v ∈ seen ∨ ∃ p, p ∈ ps ∧ part_denotes fr p v) ∧
  (∀ p, p ∈ ps → ∃ x, parse_part p fr = Ok x).
Proof.
  intros Hfr. revert seen. induction ps as [|p ps IH]; intros seen Hst Hs; simpl in Hs.
  - injection Hs as <-. split; [|by intros p Hp%not_elem_of_nil].
    intros v. split; [by left|]. by intros [?|(p & Hp%not_elem_of_nil & _)].
  - apply result_bind_Ok in Hs as (x & Hp & Hs). apply IH in Hs as [Hin Hall].
    + split; [|intros q [->|Hq]%elem_of_cons; by eauto].
      intros v. rewrite Hin, elem_of_union, elem_of_list_to_set.
      rewrite (part_values_spec p fr x v) by (try done; by apply (Hst p); [left|]).
      rewrite exists_elem_of_cons. tauto.
    + intros q y Hq. apply Hst. by right.
Qed.

Lemma sorted_elements (s : gset Z) : StronglySorted Z.lt (sort_by Z.ltb (elements s)).
Proof.
  assert (Hs : StronglySorted (λ a b, (b <? a) = false) (sort_by Z.ltb (elements s))).
  { apply sort_by_sorted. split; [intros a b _ _|intros a b c _ _ _]; rewrite ?Z.ltb_ge, ?Z.ltb_lt; lia. }
  assert (Hd : NoDup (sort_by Z.ltb (elements s))) by (rewrite sort_by_perm; apply NoDup_elements).
  induction Hs as [|a l Hs IH Ha]; constructor; apply NoDup_cons in Hd as [Hn Hd]; [by apply IH|].
  rewrite Forall_forall in *. intros b Hb. specialize (Ha b Hb). apply Z.ltb_ge in Ha.
  destruct (decide (a = b)) as [->|]; [done|lia].
Qed.

Lemma split_on_nonempty c l : split_on c l ≠ [].
Proof. destruct l as [|a l]; simpl; [done|]. destruct (Ascii.eqb a c); [done|]. by destruct (split_on c l). Qed.

(** A field that parses is the strictly increasing list of exactly the values its
    comma-separated elements denote, all of them in the range of the field, and there
    is at least one; it parses exactly when every element does. *)
Theorem parseField_exact s fr out :
  plain_range fr → modest_steps fr s → parseField s fr = Ok out →
  StronglySorted Z.lt out ∧ out ≠ [] ∧
  (∀ v, v ∈ out ↔ ∃ p, p ∈ split_on "," s ∧ part_denotes fr p v) ∧
  (∀ v, v ∈ out → fr_min fr ≤ v ≤ fr_max fr) ∧
  (∀ p, p ∈ split_on "," s → ∃ x, parse_part p fr = Ok x).
Proof.
  intros Hfr Hm Hs. unfold parseField in Hs. destruct s as [|c s]; [done|].
  apply result_bind_Ok in Hs as (seen & Hps & Hs). injection Hs as <-.
  apply parse_parts_spec in Hps as [Hin Hall]; [|done|done].
  assert (Hv : ∀ v, v ∈ sort_by Z.ltb (elements seen) ↔ ∃ p, p ∈ split_on "," (c :: s) ∧ part_denotes fr p v).
  { intros v. rewrite elem_of_sort_by, elem_of_elements, Hin, elem_of_empty. tauto. }
  destruct Hfr as [Hmin Hmax]. split_and!; [apply sorted_elements| |done| |done].
  - destruct (split_on "," (c :: s)) as [|p ps] eqn:Hsp; [by destruct (split_on_nonempty "," (c :: s))|].
    destruct (Hall p) as [x Hx]; [by left|]. destruct (count_up_total p fr x Hx Hmin Hmax) as (_ & Hlo & _).
    assert (Hl : lo x ∈ sort_by Z.ltb (elements seen)).
    { apply Hv. exists p. split; [by left|]. exists x. split; [done|]. split; [lia|]. exists 0. lia. }
    intros E. rewrite E in Hl. by apply not_elem_of_nil in Hl.
  - intros v (p & Hp & x & Hx & Hb & _)%Hv. destruct (count_up_total p fr x Hx Hmin Hmax) as (_ & ? & ? & _). lia.
Qed.

(** A step near the largest integer slips past the range check: minute 5 alone, with
    such a step, also fires in minutes 1 and 3. *)
Example huge_step_leaves_the_range :
  parseField (to_bytes "5/9223372036854775807") rangeMinute =
  Ok [-9223372036854775808; -9223372036854775806; -9223372036854775804; -1; 1; 3; 5].
Proof. vm_compute. reflexivity. Qed.

(** ** The search finds the soonest match *)

Definition aligned (t : Time) : Prop := t `mod` minute = 0.

(** The schedule fires in the minute that starts at [t]. *)
Definition matches (cs : CronSchedule) (t : Time) : bool :=
  contains (months cs) (Month t) && matchDay cs t && contains (hours cs) (Hour t)
  && contains (minutes cs) (Minute t).

Lemma minute_pos : 0 < minute.
Proof. done. Qed.
Lemma hour_pos : 0 < hour.
Proof. done. Qed.
Lemma day_pos : 0 < day.
Proof. done. Qed.
#[local] Hint Resolve minute_pos hour_pos day_pos : core.

Lemma aligned_next a b : aligned a → aligned b → a < b → a + minute ≤ b.
Proof.
  unfold aligned. intros Ha Hb Hlt. pose proof minute_pos.
  pose proof (Z.div_mod a minute ltac:(lia)). pose proof (Z.div_mod b minute ltac:(lia)).
  assert (a / minute < b / minute) by nia. nia.
Qed.

Lemma aligned_days n : aligned (n * day).
Proof. unfold aligned. change day with (1440 * minute). by rewrite Z.mul_assoc, Z.mod_mul. Qed.

Lemma aligned_hours n t : aligned t → aligned (t + n * hour).
Proof. unfold aligned. change hour with (60 * minute). by rewrite Z.mul_assoc, Z.mod_add. Qed.

Lemma aligned_minute t : aligned t → aligned (t + minute).
Proof. unfold aligned. rewrite <- (Z.mul_1_l minute) at 2. by rewrite Z.mod_add. Qed.

Lemma day_of_bounds t : day_of t * day ≤ t < (day_of t + 1) * day.
Proof.
  unfold day_of. pose proof day_pos. pose proof (Z.div_mod t day ltac:(lia)).
  pose proof (Z.mod_pos_bound t day ltac:(lia)). nia.
Qed.

Lemma day_of_le t u : t ≤ u → day_of t ≤ day_of u.
Proof. intros. by apply Z.div_le_mono. Qed.

Lemma day_of_lt u n : u < n * day → day_of u < n.
Proof. intros. apply Z.div_lt_upper_bound; [done|]. by rewrite Z.mul_comm. Qed.

(** The candidates after a mismatch. *)
Lemma next_month t : Date (Year t) (Month t + 1) 1 0 0 0 0 = month_start (month_index t + 1) * day.
Proof.
  unfold Date. replace (12 * (Year t - 1) + (Month t + 1 - 1)) with (month_index t + 1)
    by (rewrite <- month_parts; lia). lia.
Qed.

Lemma next_day t : Date (Year t) (Month t) (Day t + 1) 0 0 0 0 = (day_of t + 1) * day.
Proof.
  unfold Date. rewrite month_parts. unfold Day.
  replace (month_start (month_index t) + _) with (day_of t + 1) by lia. lia.
Qed.

Lemma next_hour t :
  Date (Year t) (Month t) (Day t) (Hour t + 1) 0 0 0 = day_of t * day + (Hour t + 1) * hour.
Proof.
  unfold Date. rewrite month_parts. unfold Day.
  replace (month_start (month_index t) + _) with (day_of t) by lia. lia.
Qed.

Lemma hour_bounds t : 0 ≤ Hour t < 24 ∧ day_of t * day + Hour t * hour ≤ t < day_of t * day + (Hour t + 1) * hour.
Proof.
  unfold Hour, day_of. pose proof day_pos as Hd. pose proof hour_pos as Hh.
  pose proof (Z.div_mod t day ltac:(lia)) as D. pose proof (Z.mod_pos_bound t day Hd) as B.
  pose proof (Z.div_mod (t `mod` day) hour ltac:(lia)) as D'. pose proof (Z.mod_pos_bound (t `mod` day) hour Hh) as B'.
  assert (Hdh : day = 24 * hour) by done. split; nia.
Qed.

Lemma Hour_unique u n h : 0 ≤ h < 24 → n * day + h * hour ≤ u < n * day + (h + 1) * hour → Hour u = h ∧ day_of u = n.
Proof.
  intros Hh Hu. assert (Hdh : day = 24 * hour) by done. pose proof hour_pos.
  assert (Hn : day_of u = n).
  { unfold day_of. symmetry. apply (Z.div_unique _ _ _ (u - n * day)); [left|]; nia. }
  split; [|done]. pose proof (hour_bounds u) as [Hr Hb]. rewrite Hn in Hb. nia.
Qed.

(** A mismatch skips only minutes that do not match. *)
Lemma candidate_skips cs limit t t' :
  aligned t → candidate cs limit t = inl t' →
  t + minute ≤ t' ∧ aligned t' ∧ ∀ u, aligned u → t ≤ u < t' → matches cs u = false.
Proof.
  intros Ht. unfold candidate. destruct (limit <? t); [done|].
  pose proof (day_of_bounds t) as Hday. pose proof (hour_bounds t) as [Hh Hhour].
  destruct (contains (months cs) (Month t)) eqn:Hmo; simpl; [destruct (matchDay cs t) eqn:Hdy; simpl|].
  1: destruct (contains (hours cs) (Hour t)) eqn:Hho; simpl; [destruct (contains (minutes cs) (Minute t)) eqn:Hmi; simpl; [done|]|].
  - intros [= <-]. split; [done|]. split; [by apply aligned_minute|]. intros u Hu Hb.
    destruct (decide (t = u)) as [->|]; [unfold matches; by rewrite Hmi, andb_false_r|].
    pose proof (aligned_next t u Ht Hu). lia.
  - rewrite next_hour. intros [= <-].
    assert (Ha : aligned (day_of t * day + (Hour t + 1) * hour)) by by apply aligned_hours, aligned_days.
    split; [apply aligned_next; [done..|lia]|]. split; [done|]. intros u Hu Hb.
    destruct (Hour_unique u (day_of t) (Hour t)) as [E _]; [done|lia|].
    unfold matches. by rewrite E, Hho, andb_false_r.
  - rewrite next_day. intros [= <-].
    split; [apply aligned_next; [done|apply aligned_days|lia]|]. split; [apply aligned_days|]. intros u Hu Hb.
    assert (E : day_of u = day_of t) by (pose proof (day_of_le t u); pose proof (day_of_lt u (day_of t + 1)); lia).
    assert (Hm : matchDay cs u = matchDay cs t) by (unfold matchDay, Day, Weekday, month_index; by rewrite E).
    unfold matches. by rewrite Hm, Hdy, andb_false_r.
  - rewrite next_month. intros [= <-]. pose proof (month_of_spec (day_of t)) as Hs. fold (month_index t) in Hs.
    assert (Hlt : t < month_start (month_index t + 1) * day) by (pose proof day_pos; nia).
    split; [apply aligned_next; [done|apply aligned_days|done]|]. split; [apply aligned_days|]. intros u Hu Hb.
    assert (E : month_index u = month_index t).
    { apply month_of_unique. pose proof (day_of_le t u). pose proof (day_of_lt u (month_start (month_index t + 1))). lia. }
    unfold matches, Month. rewrite E. fold (Month t). by rewrite Hmo.
Qed.

Lemma candidate_continues cs limit t t' : candidate cs limit t = inl t' → t ≤ limit.
Proof. unfold candidate. by destruct (Z.ltb_spec limit t). Qed.

Lemma candidate_returns cs limit t r :
  candidate cs limit t = inr r → (limit < t ∧ r = 0) ∨ (t ≤ limit ∧ r = t ∧ matches cs t = true).
Proof.
  unfold candidate, matches. destruct (Z.ltb_spec limit t); [intros [= <-]; by left|].
  destruct (contains (months cs) (Month t)); cbn [negb andb]; [|done].
  destruct (matchDay cs t); cbn [negb andb]; [|done].
  destruct (contains (hours cs) (Hour t)); cbn [negb andb]; [|done].
  destruct (contains (minutes cs) (Minute t)); cbn [negb andb]; [|done].
  intros [= <-]. by right.
Qed.

(** The search starts at the first whole minute after [from]... *)
Lemma first_candidate_spec from :
  aligned (first_candidate from) ∧ from < first_candidate from ≤ from + minute.
Proof.
  unfold first_candidate, truncate_minute, Second, Nanosecond, aligned.
  pose proof (split_unit from 60 second eq_refl eq_refl) as D. change (60 * second) with minute in D.
  replace (from + _) with (from / minute * minute + 1 * minute).
  - rewrite <- Z.mul_add_distr_r, Z.mod_mul, Z.sub_0_r, Z.mod_mul by done.
    pose proof (Z.div_mod from minute ltac:(done)). pose proof (Z.mod_pos_bound from minute minute_pos). lia.
  - pose proof (Z.div_mod from minute ltac:(done)). lia.
Qed.

(** ... and gives up after four years. *)
Lemma search_limit_bound from : from ≤ search_limit from ≤ from + 1488 * day.
Proof.
  unfold search_limit. rewrite AddDate_years. change (12 * 4) with (Z.of_nat 48).
  pose proof (month_start_span (month_index from) 48) as Hs.
  pose proof (month_start_le (month_index from) (month_index from + Z.of_nat 48)) as Hl.
  generalize dependent (month_start (month_index from + Z.of_nat 48)).
  generalize (month_start (month_index from)). intros A B Hs Hl. pose proof day_pos.
  assert (0 ≤ (B - A) * day) by (apply Z.mul_nonneg_nonneg; lia).
  assert ((B - A) * day ≤ 1488 * day) by (apply Z.mul_le_mono_nonneg_r; lia). lia.
Qed.

(** What the search promises of its answer. *)
Definition soonest (cs : CronSchedule) (from t : Time) : Prop :=
  (t = 0 ∧ ∀ u, aligned u → from < u ≤ search_limit from → matches cs u = false) ∨
  (from < t ≤ search_limit from ∧ aligned t ∧ matches cs t = true ∧
   ∀ u, aligned u → from < u < t → matches cs u = false).

(** The minutes left to search. *)
Definition minutes_left (limit t : Time) : Z := Z.max 0 ((limit - t) / minute + 1).

Lemma minutes_left_step limit t t' :
  t ≤ limit → t + minute ≤ t' → 0 ≤ minutes_left limit t' < minutes_left limit t.
Proof.
  intros Hl Ht. unfold minutes_left.
  assert (Hd : (limit - t') / minute ≤ (limit - t + -1 * minute) / minute)
    by (apply Z.div_le_mono; [done|lia]).
  rewrite Z.div_add in Hd by done. pose proof (Z.div_pos (limit - t) minute ltac:(lia) minute_pos). lia.
Qed.

Lemma minutes_left_bound from t :
  from < t → minutes_left (search_limit from) t < Z.pos search_fuel.
Proof.
  intros Ht. pose proof (search_limit_bound from) as Hl. unfold minutes_left.
  assert (Hd : (search_limit from - t) / minute ≤ 1488 * 1440).
  { apply Z.div_le_upper_bound; [done|]. assert (day = 1440 * minute) by done. lia. }
  unfold search_fuel. lia.
Qed.

(** What holds of every candidate of the search. *)
Definition searched (cs : CronSchedule) (from t : Time) : Prop :=
  aligned t ∧ from < t ∧ ∀ u, aligned u → from < u < t → matches cs u = false.

Lemma searched_first cs from : searched cs from (first_candidate from).
Proof.
  destruct (first_candidate_spec from) as [Ha Hb]. split; [exact Ha|]. split; [lia|]. intros u Hu Hu'.
  pose proof (aligned_next u (first_candidate from) Hu Ha). lia.
Qed.

Lemma searched_skip cs from t t' :
  searched cs from t → t + minute ≤ t' → aligned t' →
  (∀ u, aligned u → t ≤ u < t' → matches cs u = false) → searched cs from t'.
Proof.
  intros (Hal & Hft & Hno) Hle Hal' Hskip. pose proof minute_pos. split; [exact Hal'|]. split; [lia|].
  intros u Hu Hb. destruct (Z.lt_ge_cases u t); [apply Hno|apply Hskip]; [exact Hu|lia|exact Hu|lia].
Qed.

Lemma search_step cs from t :
  searched cs from t →
  match candidate cs (search_limit from) t with
  | inl t' => searched cs from t' ∧
              0 ≤ minutes_left (search_limit from) t' < minutes_left (search_limit from) t
  | inr r => soonest cs from r
  end.
Proof.
  intros Hs. generalize (eq_refl (candidate cs (search_limit from) t)).
  generalize (candidate cs (search_limit from) t) at 1 3. intros [t'|r] Hc.
  - destruct (candidate_skips cs (search_limit from) t t' (proj1 Hs) (eq_sym Hc)) as (Hle & Hal' & Hskip).
    split; [by eapply searched_skip|]. apply minutes_left_step; [|exact Hle].
    exact (candidate_continues _ _ _ _ (eq_sym Hc)).
  - destruct Hs as (Hal & Hft & Hno). symmetry in Hc.
    apply candidate_returns in Hc as [[Hlt ->]|(Hge & -> & Hm)]; [left|right].
    + split; [reflexivity|]. intros u Hu Hb. apply Hno; [exact Hu|lia].
    + split; [lia|]. by split_and!.
Qed.

Lemma search_returns cs from :
  ∃ t, loop (candidate cs (search_limit from)) search_fuel (first_candidate from) = inr t ∧ soonest cs from t.
Proof.
  exact (loop_returns (candidate cs (search_limit from)) (searched cs from) (soonest cs from)
           (minutes_left (search_limit from)) (search_step cs from) search_fuel (first_candidate from)
           (searched_first cs from)
           (minutes_left_bound from (first_candidate from) (proj1 (proj2 (searched_first cs from))))).
Qed.

(** C27: the next firing time of a five-field schedule is the first whole minute after
    the reference time, up to four years ahead, whose month, day, hour and minute the
    schedule lists; the zero time means that there is none. *)
Theorem Next_soonest cs from : every cs ≤ 0 → soonest cs from (Next cs from).
Proof.
  intros He. unfold Next. destruct (Z.ltb_spec 0 (every cs)); [lia|].
  destruct (search_returns cs from) as (t & -> & Ht). exact Ht.
Qed.

(** ** Samples *)

Definition sample_cron : CronSchedule :=
  {| expr := "*/30 9 * * 1"; every := 0; minutes := [0; 30]; hours := [9];
     doms := seqZ 1 31; months := seqZ 1 12; dows := [1]; hasDOM := false; hasDOW := true |}.

Example sample_parses : ParseCron " */30 9 * * 1 " = Ok sample_cron.
Proof. vm_compute. reflexivity. Qed.

Lemma Next_soonest_witness :
  Next sample_cron (Date 2024 2 29 12 0 30 0) = Date 2024 3 4 9 0 0 0 ∧
  soonest sample_cron (Date 2024 2 29 12 0 30 0) (Next sample_cron (Date 2024 2 29 12 0 30 0)).
Proof. split; [vm_compute; reflexivity|]. apply Next_soonest. done. Defined.

Lemma parseField_exact_witness :
  StronglySorted Z.lt [1; 2; 3; 10; 20].
Proof.
  refine (proj1 (parseField_exact (to_bytes "10-20/10,1-3") rangeMinute [1; 2; 3; 10; 20] _ _ _)).
  - split; vm_compute; discriminate.
  - intros p x Hp Hx. change (split_on "," (to_bytes "10-20/10,1-3")) with [to_bytes "10-20/10"; to_bytes "1-3"] in Hp.
    apply elem_of_cons in Hp as [->|Hp]; [|apply elem_of_cons in Hp as [->|Hp]; [|by apply not_elem_of_nil in Hp]];
      vm_compute in Hx; injection Hx as <-; vm_compute; discriminate.
  - vm_compute. reflexivity.
Defined.

(** The next leap day may be eight years ahead, beyond the four years searched. *)
Example leap_day_out_of_reach :
  ∃ cs, ParseCron "0 0 29 2 *" = Ok cs ∧ Next cs (Date 2096 3 1 0 0 0 0) = 0 ∧
        matches cs (Date 2104 2 29 0 0 0 0) = true.
Proof. eexists. split; [vm_compute; reflexivity|]. split; vm_compute; reflexivity. Qed.
End Cron.
