(* ===== verification/Schedules.v ===== *)
(** * Sync schedules (admin/scheduler.go, admin/scheduler_handler.go)

    The scheduler's pass over the due rows, the writes of its error columns, and the
    upsert, read and delete of a schedule. Every database and Kafka call may fail,
    with or without effect. *)

From S2P Require Import Prelude GoString Effects Calendar GoText Cron.

Module Schedules.
Import Cron.

Record SyncSchedule := {
  ID : string;
  TenantID : string;
  SourceID : string;
  CronExpr : string;
  NextRunAt : Time;
  Enabled : bool;
  LastRunAt : Time;
  CreatedAt : Time;
  UpdatedAt : Time;
  LastError : string;
  LastErrorAt : Time
}.

(** The table by primary key, the events sent and the error counter. *)
Record World := {
  schedules : gmap string SyncSchedule;
  emitted : list (string * string);
  SchedulerErrorsTotal : Z
}.

Definition on_schedules (f : gmap string SyncSchedule → gmap string SyncSchedule) (s : World) : World :=
  {| schedules := f (schedules s); emitted := emitted s; SchedulerErrorsTotal := SchedulerErrorsTotal s |}.
Definition emit (row : SyncSchedule) (s : World) : World :=
  {| schedules := schedules s; emitted := emitted s ++ [(TenantID row, SourceID row)];
     SchedulerErrorsTotal := SchedulerErrorsTotal s |}.
Definition count_error (s : World) : World :=
  {| schedules := schedules s; emitted := emitted s; SchedulerErrorsTotal := SchedulerErrorsTotal s + 1 |}.

Inductive schedule_error :=
| ErrScheduleValidation (msg : string)
| ErrRecordNotFound
| ScheduleError (msg : string).

Definition error_text (e : schedule_error) : string :=
  match e with
  | ErrScheduleValidation m => str_app "scheduler: invalid schedule: " m
  | ErrRecordNotFound => "record not found"
  | ScheduleError m => m
  end.

Abbreviation M := (Eff World schedule_error) (only parsing).

Definition set_error (msg : string) (at_ now : Time) (r : SyncSchedule) : SyncSchedule :=
  {| ID := ID r; TenantID := TenantID r; SourceID := SourceID r; CronExpr := CronExpr r;
     NextRunAt := NextRunAt r; Enabled := Enabled r; LastRunAt := LastRunAt r; CreatedAt := CreatedAt r;
     UpdatedAt := now; LastError := msg; LastErrorAt := at_ |}.

Definition advance (next now : Time) (r : SyncSchedule) : SyncSchedule :=
  {| ID := ID r; TenantID := TenantID r; SourceID := SourceID r; CronExpr := CronExpr r;
     NextRunAt := next; Enabled := Enabled r; LastRunAt := now; CreatedAt := CreatedAt r;
     UpdatedAt := now; LastError := LastError r; LastErrorAt := LastErrorAt r |}.

Definition replan (expr : string) (next : Time) (enabled : bool) (now : Time) (r : SyncSchedule) : SyncSchedule :=
  {| ID := ID r; TenantID := TenantID r; SourceID := SourceID r; CronExpr := expr;
     NextRunAt := next; Enabled := enabled; LastRunAt := LastRunAt r; CreatedAt := CreatedAt r;
     UpdatedAt := now; LastError := LastError r; LastErrorAt := LastErrorAt r |}.

Section Scheduler.
Context `{Outside}.
(** The order in which the database returns the rows, and the text of a failed send. *)
Context (arrange : list SyncSchedule → list SyncSchedule) (emit_failed : string).

(** ** The pass *)

Definition is_due (now : Time) (r : SyncSchedule) : bool := Enabled r && (NextRunAt r <=? now)%Z.

Definition due_rows (now : Time) (t : gmap string SyncSchedule) : list SyncSchedule :=
  arrange (List.filter (is_due now) (snd <$> map_to_list t)).

(** A call whose error is only logged. *)
Definition attempt (m : M unit) : M (option schedule_error) := λ w,
  match m w with (Ok _, w') => (Ok None, w') | (Err e, w') => (Ok (Some e), w') end.

Definition truncate_1k (msg : string) : string := of_bytes (take 1024 (to_bytes msg)).

Definition recordScheduleError (id : string) (err : schedule_error) (now : Time) : M unit :=
  let@ _ := attempt (ewrite (ScheduleError "persist last_error")
                       (on_schedules (alter (set_error (truncate_1k (error_text err)) now now) id))) in
  eret tt.

Definition clearScheduleError (id : string) (now : Time) : M unit :=
  let@ _ := attempt (ewrite (ScheduleError "clear last_error") (on_schedules (alter (set_error "" 0 now) id))) in
  eret tt.

Definition failed (id : string) (err : schedule_error) (now : Time) : M unit := λ w,
  recordScheduleError id err now {| store := count_error (store w); calls_made := calls_made w |}.

Definition tick_row (now : Time) (row : SyncSchedule) : M unit :=
  match ParseCron (CronExpr row) with
  | Err _ => eret tt
  | Ok schedule =>
      let@ sent := attempt (ewrite (ScheduleError emit_failed) (emit row)) in
      match sent with
      | Some err => failed (ID row) err now
      | None =>
          let next := Next schedule now in
          if time_is_zero next then eret tt
          else
            let@ moved := attempt (ewrite (ScheduleError "advance next_run_at")
                                     (on_schedules (alter (advance next now) (ID row)))) in
            match moved with
            | Some err => failed (ID row) err now
            | None => clearScheduleError (ID row) now
            end
      end
  end.

Fixpoint tick_rows (now : Time) (due : list SyncSchedule) : M unit :=
  match due with
  | [] => eret tt
  | row :: rest => let@ _ := tick_row now row in tick_rows now rest
  end.

Definition Tick : M unit := λ w,
  let now := clock (calls_made w) 0 in
  (let@ due := eread (ScheduleError "list schedules") (λ s, due_rows now (schedules s)) in
   tick_rows now due) w.

(** ** The admin calls *)

Definition of_source (tenantID sourceID : string) (r : SyncSchedule) : bool :=
  str_eqb (TenantID r) tenantID && str_eqb (SourceID r) sourceID.

Definition by_id (a b : SyncSchedule) : bool := str_ltb (ID a) (ID b).

(** [First] orders by primary key. *)
Definition find_schedule (tenantID sourceID : string) (t : gmap string SyncSchedule) : option SyncSchedule :=
  head (sort_by by_id (List.filter (of_source tenantID sourceID) (snd <$> map_to_list t))).

Definition GetSchedule (tenantID sourceID : string) : M SyncSchedule :=
  let@ r := eread (ScheduleError "get schedule") (λ s, find_schedule tenantID sourceID (schedules s)) in
  match r with Some row => eret row | None => ethrow ErrRecordNotFound end.

Definition cron_message (e : cron_error) : string :=
  match e with
  | EmptyExpression => "cron: empty expression"
  | EveryDuration m => str_app "cron: @every: " m
  | EveryNotPositive => "cron: @every duration must be > 0"
  | FieldCount n => str_app "cron: expected 5 fields, got " (str_of_nat n)
  | FieldError f _ => str_app "cron: " f
  end.

(** [ulid.Make] names the row by the number of the insert. *)
Definition UpsertSchedule (ulid : nat → string) (tenantID sourceID expr : string) (enabled : bool) (now : Time)
    : M SyncSchedule :=
  if str_empty tenantID || str_empty sourceID then ethrow (ErrScheduleValidation "missing tenant/source")
  else match ParseCron expr with
  | Err e => ethrow (ErrScheduleValidation (cron_message e))
  | Ok cs =>
      let next := Next cs now in
      if time_is_zero next then ethrow (ErrScheduleValidation "cron expression yields no future fire")
      else
        let row id created :=
          {| ID := id; TenantID := tenantID; SourceID := sourceID; CronExpr := expr; NextRunAt := next;
             Enabled := enabled; LastRunAt := 0; CreatedAt := created; UpdatedAt := now;
             LastError := ""; LastErrorAt := 0 |} in
        let@ existing := eread (ScheduleError "find schedule") (λ s, find_schedule tenantID sourceID (schedules s)) in
        match existing with
        | None => λ w,
            let r := row (ulid (calls_made w)) now in
            (let@ _ := ewrite (ScheduleError "create schedule") (on_schedules <[ID r := r]>) in eret r) w
        | Some old =>
            let@ _ := ewrite (ScheduleError "update schedule")
                        (on_schedules (alter (replan expr next enabled now) (ID old))) in
            eret (row (ID old) (CreatedAt old))
        end
  end.

(** The DELETE endpoint; the number of rows removed tells 204 from 404. *)
Definition delete_schedule (tenantID sourceID : string) : M Z :=
  let@ n := ecall (ScheduleError "delete schedule")
              (λ s, (length (List.filter (of_source tenantID sourceID) (snd <$> map_to_list (schedules s))),
                     on_schedules (filter (λ kv, of_source tenantID sourceID kv.2 = false)) s)) in
  eret (if (n =? 0)%nat then 404%Z else 204%Z).

(** ** What a pass does *)

(** The columns a pass never touches. *)
Definition keeps (r r' : SyncSchedule) : Prop :=
  ID r' = ID r ∧ TenantID r' = TenantID r ∧ SourceID r' = SourceID r ∧ CronExpr r' = CronExpr r
  ∧ Enabled r' = Enabled r ∧ CreatedAt r' = CreatedAt r.

(** [next] is a later firing time of the expression of the row. *)
Definition follows (now : Time) (row : SyncSchedule) (next : Time) : Prop :=
  ∃ cs, ParseCron (CronExpr row) = Ok cs ∧ Next cs now = next ∧ next ≠ 0%Z.

(** Between the tables [t] and [t'] the rows keep their columns, and a firing time
    moves only where [P] holds of the row's id and new time. *)
Definition evolves (P : string → Time → Prop) (t t' : gmap string SyncSchedule) : Prop :=
  ∀ id, match t !! id, t' !! id with
        | Some r, Some r' => keeps r r' ∧ (NextRunAt r' = NextRunAt r ∨ P id (NextRunAt r'))
        | None, None => True
        | _, _ => False
        end.

Lemma evolves_refl P t : evolves P t t.
Proof. intros id. destruct (t !! id); [|done]. by split; [|left]. Qed.

Lemma evolves_trans P Q (R : string → Time → Prop) t1 t2 t3 :
  evolves P t1 t2 → evolves Q t2 t3 → (∀ i n, P i n → R i n) → (∀ i n, Q i n → R i n) → evolves R t1 t3.
Proof.
  intros H1 H2 HP HQ id. specialize (H1 id). specialize (H2 id).
  destruct (t1 !! id) as [a|], (t2 !! id) as [b|], (t3 !! id) as [c|]; try done.
  destruct H1 as [K1 N1], H2 as [K2 N2]. split; [unfold keeps in *; intuition congruence|].
  destruct N2 as [E|N2]; [|right; by apply HQ].
  rewrite E. destruct N1 as [->|N1]; [by left|right; by apply HP].
Qed.

Lemma evolves_alter (P : string → Time → Prop) f i t :
  (∀ r, keeps r (f r)) → (∀ r, NextRunAt (f r) = NextRunAt r ∨ P i (NextRunAt (f r))) →
  evolves P t (alter f i t).
Proof.
  intros Hk Hn id. rewrite lookup_alter. case_decide as E; [subst|].
  - destruct (t !! id) as [r|]; simpl; [|done]. by split.
  - destruct (t !! id); [|done]. by split; [|left].
Qed.

Lemma attempt_write err (f : World → World) w :
  ∃ o w', attempt (ewrite err f) w = (Ok o, w') ∧
    (store w' = f (store w) ∨ store w' = store w) ∧ (o = None → store w' = f (store w)) ∧
    (fate (calls_made w) = Performed → o = None) ∧ calls_made w' = S (calls_made w).
Proof.
  unfold attempt, ewrite, ecall. destruct (fate (calls_made w)); simpl;
    eexists _, _; (split; [reflexivity|]); simpl; naive_solver.
Qed.

(** The best-effort writes of the error columns. *)
Lemma error_write P id msg at_ now err w :
  ∃ w', (let@ _ := attempt (ewrite err (on_schedules (alter (set_error msg at_ now) id))) in eret tt) w = (Ok tt, w') ∧
    evolves P (schedules (store w)) (schedules (store w')) ∧ emitted (store w') = emitted (store w).
Proof.
  destruct (attempt_write err (on_schedules (alter (set_error msg at_ now) id)) w) as (o & w' & Hw & Hs & _).
  unfold ebind. rewrite Hw. exists w'. split; [done|].
  destruct Hs as [-> | ->]; simpl; [|by split; [apply evolves_refl|]].
  split; [|done]. apply evolves_alter; [done|by left].
Qed.

Lemma failed_spec P id err now w :
  ∃ w', failed id err now w = (Ok tt, w') ∧
    evolves P (schedules (store w)) (schedules (store w')) ∧ emitted (store w') = emitted (store w).
Proof. unfold failed, recordScheduleError. apply (error_write P id _ _ _ _ {| store := count_error (store w) |}). Qed.

Definition key (r : SyncSchedule) : string * string := (TenantID r, SourceID r).

(** One row: at most one event, and its firing time moves only after the event was
    sent. *)
Lemma tick_row_spec now row w :
  ∃ fired w', tick_row now row w = (Ok tt, w') ∧
    emitted (store w') = emitted (store w) ++ (key <$> fired) ∧
    (fired = [] ∨ fired = [row]) ∧
    (fired ≠ [] → ∃ cs, ParseCron (CronExpr row) = Ok cs) ∧
    evolves (λ id next, row ∈ fired ∧ id = ID row ∧ follows now row next)
      (schedules (store w)) (schedules (store w')).
Proof.
  unfold tick_row. destruct (ParseCron (CronExpr row)) as [cs|e] eqn:Hp.
  2:{ exists [], w. rewrite app_nil_r. split_and!; try done; [by left|apply evolves_refl]. }
  unfold ebind at 1.
  destruct (attempt_write (ScheduleError emit_failed) (emit row) w) as (o & w1 & -> & Hs & Ho & _).
  assert (Hfired : ∃ fired, emitted (store w1) = emitted (store w) ++ (key <$> fired) ∧
            (fired = [] ∨ fired = [row]) ∧ schedules (store w1) = schedules (store w) ∧ (o = None → fired = [row])).
  { destruct o as [e|].
    - destruct Hs as [-> | ->]; [exists [row]|exists []]; simpl; rewrite ?app_nil_r; naive_solver.
    - rewrite (Ho eq_refl). exists [row]. simpl. naive_solver. }
  destruct Hfired as (fired & He & Hor & Hsame & Hnone).
  set (P := λ id next, row ∈ fired ∧ id = ID row ∧ follows now row next).
  destruct o as [err|].
  - destruct (failed_spec P (ID row) err now w1) as (w2 & Hf & Hev & Hem).
    exists fired, w2. rewrite Hf, Hem, He. rewrite Hsame in Hev. split_and!; eauto.
  - specialize (Hnone eq_refl). destruct (time_is_zero (Next cs now)) eqn:Hz.
    { exists fired, w1. rewrite Hsame. split_and!; eauto. apply evolves_refl. }
    unfold ebind at 1.
    destruct (attempt_write (ScheduleError "advance next_run_at")
                (on_schedules (alter (advance (Next cs now) now) (ID row))) w1) as (o & w2 & -> & Hs2 & _ & _).
    assert (Hmove : evolves P (schedules (store w)) (schedules (store w2)) ∧ emitted (store w2) = emitted (store w1)).
    { rewrite <- Hsame. destruct Hs2 as [-> | ->]; simpl; [|by split; [apply evolves_refl|]].
      split; [|done]. apply evolves_alter; [done|]. intros r. right. split; [rewrite Hnone; by left|].
      split; [done|]. exists cs. split; [done|]. split; [done|]. by apply Z.eqb_neq. }
    destruct Hmove as [Hmove Hem2].
    assert (Hend : ∃ w3, (match o with Some err => failed (ID row) err now | None => clearScheduleError (ID row) now end) w2
                       = (Ok tt, w3) ∧
              evolves P (schedules (store w2)) (schedules (store w3)) ∧ emitted (store w3) = emitted (store w2)).
    { destruct o as [err|]; [apply failed_spec|apply error_write]. }
    destruct Hend as (w3 & -> & Hev & Hem3). exists fired, w3. rewrite Hem3, Hem2, He.
    split_and!; eauto. eapply evolves_trans; eauto.
Qed.

Lemma tick_rows_spec now rows w :
  ∃ fired w', tick_rows now rows w = (Ok tt, w') ∧
    emitted (store w') = emitted (store w) ++ (key <$> fired) ∧ fired `sublist_of` rows ∧
    (∀ row, row ∈ fired → ∃ cs, ParseCron (CronExpr row) = Ok cs) ∧
    evolves (λ id next, ∃ row, row ∈ fired ∧ id = ID row ∧ follows now row next)
      (schedules (store w)) (schedules (store w')).
Proof.
  revert w. induction rows as [|row rows IH]; intros w; simpl.
  { exists [], w. rewrite app_nil_r. split_and!; try done; [by intros ? ?%not_elem_of_nil|apply evolves_refl]. }
  destruct (tick_row_spec now row w) as (f1 & w1 & H1 & E1 & Hor & Hp1 & Hev1).
  destruct (IH w1) as (f2 & w2 & H2 & E2 & Hsub & Hp2 & Hev2).
  exists (f1 ++ f2), w2. unfold ebind. rewrite H1, H2. split_and!; [done| | | |].
  - by rewrite E2, E1, fmap_app, app_assoc.
  - destruct Hor as [-> | ->]; simpl; [by apply sublist_cons|by apply sublist_skip].
  - intros r [Hr|Hr]%elem_of_app; [|by apply Hp2].
    destruct Hor as [-> | ->]; [by apply not_elem_of_nil in Hr|]. apply list_elem_of_singleton in Hr as ->. by apply Hp1.
  - eapply evolves_trans; [exact Hev1|exact Hev2| |].
    + intros i n (? & ? & ?). exists row. set_solver.
    + intros i n (r & ? & ? & ?). exists r. set_solver.
Qed.

(** The next firing time lies ahead. *)
Lemma follows_later now row next : follows now row next → (now < next)%Z.
Proof.
  intros (cs & _ & <- & Hz). destruct (Z.lt_ge_cases 0 (every cs)) as [He|He].
  - unfold Next. rewrite (proj2 (Z.ltb_lt _ _) He). lia.
  - assert (Hs : soonest cs now (Next cs now)).
    { unfold Next in *. destruct (Z.ltb_spec 0 (every cs)); [lia|].
      destruct (search_returns cs now) as (t & Ht & Hs). by rewrite Ht in *. }
    destruct Hs as [[? _]|[? _]]; [done|lia].
Qed.

Definition wf (t : gmap string SyncSchedule) : Prop := keyed ID t.

Definition earlier (a b : SyncSchedule) : bool := (NextRunAt a <? NextRunAt b)%Z.
Hypothesis arrange_sorted : ∀ l, slice_sorted earlier l (arrange l).

Lemma elem_of_due now t r : wf t → r ∈ due_rows now t ↔ t !! ID r = Some r ∧ is_due now r = true.
Proof.
  intros Hwf. unfold due_rows. destruct (arrange_sorted (List.filter (is_due now) (snd <$> map_to_list t))) as [Hp _].
  rewrite Hp. by apply keyed_elem_of.
Qed.

Lemma due_distinct now t : wf t → NoDup (ID <$> due_rows now t).
Proof.
  intros Hwf. unfold due_rows. destruct (arrange_sorted (List.filter (is_due now) (snd <$> map_to_list t))) as [Hp _].
  rewrite Hp. by apply keyed_NoDup.
Qed.

Definition sent_in_order (fired : list SyncSchedule) : Prop :=
  StronglySorted (λ a b, earlier b a = false) fired.

(** C28: whatever fails, a pass sends at most one event per schedule, only for enabled
    schedules whose time has come, the longest overdue first; and a schedule's next
    run moves only if its event was sent in this pass, to the time [Next] gives for its
    expression from the start of the pass, which is later. The rows are under their
    ids, and the database sorts by the next run as asked. *)
Theorem Tick_fires_due w r w' :
  wf (schedules (store w)) → Tick w = (r, w') →
  let now := clock (calls_made w) 0 in
  ∃ fired, emitted (store w') = emitted (store w) ++ (key <$> fired) ∧
    NoDup (ID <$> fired) ∧ sent_in_order fired ∧
    (∀ row, row ∈ fired → schedules (store w) !! ID row = Some row ∧ Enabled row = true ∧ (NextRunAt row ≤ now)%Z) ∧
    evolves (λ id next, ∃ row, row ∈ fired ∧ id = ID row ∧ follows now row next ∧ (now < next)%Z)
      (schedules (store w)) (schedules (store w')).
Proof.
  intros Hwf Ht now. unfold Tick, ebind in Ht. fold now in Ht.
  destruct (eread (ScheduleError "list schedules") (λ s, due_rows now (schedules s)) w) as [[due|e] w1] eqn:Hr.
  2:{ injection Ht as <- <-. apply eread_store in Hr as ->. exists []. rewrite app_nil_r.
      split_and!; [done|apply NoDup_nil_2|constructor|by intros ? ?%not_elem_of_nil|apply evolves_refl]. }
  apply eread_Ok in Hr as [-> Hs]. rewrite <- Hs.
  destruct (tick_rows_spec now (due_rows now (schedules (store w1))) w1) as (fired & w2 & H2 & He & Hsub & Hp & Hev).
  rewrite <- Hs in Hwf. rewrite <- Hs, H2 in Ht. injection Ht as <- <-. exists fired. split; [done|]. split_and!.
  - eapply sublist_NoDup; [by apply (due_distinct now _ Hwf)|by apply fmap_sublist].
  - eapply sublist_sorted; [exact Hsub|].
    by destruct (arrange_sorted (List.filter (is_due now) (snd <$> map_to_list (schedules (store w1))))).
  - intros row Hrow. assert (Hd : row ∈ due_rows now (schedules (store w1))) by by eapply elem_of_sublist.
    apply (elem_of_due now _ _ Hwf) in Hd as [Hl [Hen Hle%Z.leb_le]%andb_true_iff]. done.
  - eapply evolves_trans; [exact Hev|apply (evolves_refl (λ _ _, False))| |done].
    intros i n (row & Hrow & Hi & Hf). exists row. split_and!; [done..|by eapply follows_later].
Qed.

(** *** A pass in which every call succeeds *)

Definition all_performed : Prop := ∀ n, fate n = Performed.

Lemma attempt_performed err (f : World → World) w :
  all_performed → ∃ w', attempt (ewrite err f) w = (Ok None, w') ∧ store w' = f (store w).
Proof.
  intros Hall. destruct (attempt_write err f w) as (o & w' & Hw & _ & Ho & Hp & _).
  rewrite (Hp (Hall _)) in *. exists w'. split; [done|by apply Ho].
Qed.

Lemma tick_row_performed now row cs w :
  all_performed → ParseCron (CronExpr row) = Ok cs →
  ∃ w', tick_row now row w = (Ok tt, w') ∧ emitted (store w') = emitted (store w) ++ [key row] ∧
    (Next cs now ≠ 0%Z → ∀ r', schedules (store w') !! ID row = Some r' → NextRunAt r' = Next cs now).
Proof.
  intros Hall Hp. unfold tick_row. rewrite Hp. unfold ebind at 1.
  destruct (attempt_performed (ScheduleError emit_failed) (emit row) w Hall) as (w1 & -> & E1).
  destruct (time_is_zero (Next cs now)) eqn:Hz.
  { exists w1. rewrite E1. split_and!; [done..|]. intros Hn. by apply Z.eqb_eq in Hz. }
  unfold ebind at 1.
  destruct (attempt_performed (ScheduleError "advance next_run_at")
              (on_schedules (alter (advance (Next cs now) now) (ID row))) w1 Hall) as (w2 & -> & E2).
  unfold clearScheduleError, ebind.
  destruct (attempt_performed (ScheduleError "clear last_error")
              (on_schedules (alter (set_error "" 0 now) (ID row))) w2 Hall) as (w3 & -> & E3).
  exists w3. rewrite E3, E2, E1. split_and!; [done..|]. intros _ r'. simpl.
  rewrite !lookup_alter_eq. intros (x & (y & _ & ->)%fmap_Some & ->)%fmap_Some. done.
Qed.

Definition parses (r : SyncSchedule) : bool := match ParseCron (CronExpr r) with Ok _ => true | Err _ => false end.

Lemma tick_rows_performed now rows w :
  all_performed → NoDup (ID <$> rows) →
  ∃ w', tick_rows now rows w = (Ok tt, w') ∧
    emitted (store w') = emitted (store w) ++ (key <$> List.filter parses rows) ∧
    ∀ row cs r', row ∈ rows → ParseCron (CronExpr row) = Ok cs → Next cs now ≠ 0%Z →
      schedules (store w') !! ID row = Some r' → NextRunAt r' = Next cs now.
Proof.
  intros Hall. revert w. induction rows as [|row rows IH]; intros w Hd; cbn [tick_rows List.filter].
  { exists w. rewrite app_nil_r. split_and!; [done..|]. by intros ? ? ? ?%not_elem_of_nil. }
  rewrite fmap_cons in Hd. apply NoDup_cons in Hd as [Hn Hd].
  assert (H1 : ∃ w1, tick_row now row w = (Ok tt, w1) ∧
            emitted (store w1) = emitted (store w) ++ (key <$> List.filter parses [row]) ∧
            ∀ cs r', ParseCron (CronExpr row) = Ok cs → Next cs now ≠ 0%Z →
              schedules (store w1) !! ID row = Some r' → NextRunAt r' = Next cs now).
  { simpl. unfold parses. destruct (ParseCron (CronExpr row)) as [cs|e] eqn:Hp.
    - destruct (tick_row_performed now row cs w Hall Hp) as (w1 & H1 & E1 & N1).
      exists w1. split_and!; [done..|]. intros cs' r' [= <-] Hz. by apply N1.
    - exists w. unfold tick_row. rewrite Hp, app_nil_r. done. }
  destruct H1 as (w1 & H1 & E1 & N1). destruct (IH w1 Hd) as (w2 & H2 & E2 & N2).
  exists w2. unfold ebind. rewrite H1, H2. split_and!; [done| |].
  - rewrite E2, E1. simpl. by destruct (parses row); simpl; rewrite <- app_assoc.
  - intros r cs r' [->|Hr]%elem_of_cons Hp Hz Hl; [|by eapply N2].
    destruct (tick_rows_spec now rows w1) as (fired & w2' & H2' & _ & Hsub & _ & Hev).
    rewrite H2 in H2'. injection H2' as <-. specialize (Hev (ID row)). rewrite Hl in Hev.
    destruct (schedules (store w1) !! ID row) as [x|] eqn:Hx; [|done].
    destruct Hev as [_ [->|(y & Hy & Ey & _)]]; [by apply N1|].
    destruct Hn. rewrite Ey. apply list_elem_of_fmap_2. by eapply elem_of_sublist.
Qed.

(** When every call succeeds, a pass sends an event for every due schedule whose
    expression parses, and leaves no schedule due but those whose expression does not
    parse or never fires again. *)
Theorem Tick_complete w r w' :
  all_performed → wf (schedules (store w)) → Tick w = (r, w') →
  let now := clock (calls_made w) 0 in
  r = Ok tt ∧
  emitted (store w') = emitted (store w) ++ (key <$> List.filter parses (due_rows now (schedules (store w)))) ∧
  ∀ id s, schedules (store w') !! id = Some s → is_due now s = true →
    match ParseCron (CronExpr s) with Ok cs => Next cs now = 0%Z | Err _ => True end.
Proof.
  intros Hall Hwf Ht now. unfold Tick, ebind in Ht. fold now in Ht.
  destruct (eread (ScheduleError "list schedules") (λ s, due_rows now (schedules s)) w) as [[due|e] w1] eqn:Hr;
    [|unfold eread, ecall in Hr; by rewrite (Hall _) in Hr].
  apply eread_Ok in Hr as [-> Hs]. pose proof (due_distinct now _ Hwf) as Hd.
  destruct (tick_rows_performed now (due_rows now (schedules (store w))) w1 Hall Hd) as (w2 & H2 & He & Hn).
  destruct (tick_rows_spec now (due_rows now (schedules (store w))) w1) as (fired & w2' & H2' & _ & Hsub & _ & Hev).
  rewrite H2 in Ht, H2'. injection Ht as <- <-. injection H2' as <-. rewrite Hs in *.
  split; [done|]. split; [done|]. intros id s Hl Hdue.
  specialize (Hev id). rewrite Hl in Hev. destruct (schedules (store w) !! id) as [s0|] eqn:H0; [|done].
  destruct Hev as [(Hid & _ & _ & Hexpr & Hen & _) Hnext]. destruct (ParseCron (CronExpr s)) as [cs|e] eqn:Hp; [|done].
  rewrite Hexpr in Hp. assert (Hid0 : ID s0 = id) by by apply Hwf.
  unfold is_due in Hdue. apply andb_true_iff in Hdue as [Hen' Hle%Z.leb_le].
  assert (Hd0 : s0 ∈ due_rows now (schedules (store w))).
  { apply elem_of_due; [done|]. rewrite Hid0. split; [done|]. unfold is_due.
    rewrite <- Hen, Hen'. simpl. destruct Hnext as [<-|(row & Hrow & _ & Hf)]; [by apply Z.leb_le|].
    pose proof (follows_later _ _ _ Hf). lia. }
  destruct (decide (Next cs now = 0%Z)) as [|Hz]; [done|].
  assert (Hnx : NextRunAt s = Next cs now) by (apply (Hn s0 cs s); [done..|by rewrite Hid0]).
  assert (Hf : follows now s0 (Next cs now)) by (exists cs; done).
  pose proof (follows_later _ _ _ Hf). lia.
Qed.

(** ** Planning a schedule *)

Lemma find_schedule_spec tenantID sourceID t r :
  wf t → find_schedule tenantID sourceID t = Some r →
  t !! ID r = Some r ∧ TenantID r = tenantID ∧ SourceID r = sourceID.
Proof.
  intros Hwf Hf. unfold find_schedule in Hf.
  assert (Hin : r ∈ sort_by by_id (List.filter (of_source tenantID sourceID) (snd <$> map_to_list t))).
  { destruct (sort_by _ _) as [|x l]; [done|]. injection Hf as ->. by left. }
  rewrite elem_of_sort_by, elem_of_filterb, list_elem_of_fmap in Hin.
  destruct Hin as [[->%str_eqb_eq ->%str_eqb_eq]%andb_true_iff ([i x] & -> & Hx%elem_of_map_to_list)].
  simpl. by rewrite (Hwf i x Hx).
Qed.

(** An upsert that succeeds leaves the schedule of the source with the given
    expression and its soonest firing time, and every other row as it was. *)
Theorem UpsertSchedule_plans ulid tenantID sourceID expr enabled now w row w' :
  wf (schedules (store w)) →
  UpsertSchedule ulid tenantID sourceID expr enabled now w = (Ok row, w') →
  (∀ id, id ≠ ID row → schedules (store w') !! id = schedules (store w) !! id) ∧
  ∃ s, schedules (store w') !! ID row = Some s ∧ ID s = ID row ∧ key s = (tenantID, sourceID) ∧
    CronExpr s = expr ∧ Enabled s = enabled ∧ follows now s (NextRunAt s) ∧ NextRunAt s = NextRunAt row.
Proof.
  intros Hwf. unfold UpsertSchedule. destruct (str_empty tenantID || str_empty sourceID); [done|].
  destruct (ParseCron expr) as [cs|e] eqn:Hp; [|done].
  destruct (time_is_zero (Next cs now)) eqn:Hz; [done|]. apply Z.eqb_neq in Hz.
  intros (old & w1 & [-> Hs]%eread_Ok & Hk)%ebind_Ok.
  destruct (find_schedule tenantID sourceID (schedules (store w))) as [old|] eqn:Hf.
  - apply find_schedule_spec in Hf as (Hl & <- & <-); [|done].
    apply ebind_Ok in Hk as (u & w2 & Hw%ewrite_Ok & Hk). injection Hk as <- <-. rewrite Hw. simpl.
    rewrite Hs. split; [intros id Hid; by rewrite lookup_alter_ne|].
    rewrite lookup_alter_eq, Hl. eexists. split; [reflexivity|]. simpl. split_and!; [done..| |done].
    exists cs. done.
  - cbv beta zeta in Hk. apply ebind_Ok in Hk as (u & w2 & Hw%ewrite_Ok & Hk). injection Hk as <- <-. rewrite Hw. simpl.
    rewrite Hs. split; [intros id Hid; by rewrite lookup_insert_ne|].
    rewrite lookup_insert_eq. eexists. split; [reflexivity|]. simpl. split_and!; [done..| |done].
    exists cs. done.
Qed.
End Scheduler.

(** ** Samples *)

Definition sample_row (id expr : string) (next : Time) : SyncSchedule :=
  {| ID := id; TenantID := "t"; SourceID := str_app "s" id; CronExpr := expr; NextRunAt := next;
     Enabled := true; LastRunAt := 0; CreatedAt := 0; UpdatedAt := 0; LastError := ""; LastErrorAt := 0 |}.

Definition sample_now : Time := Calendar.Date 2024 2 29 12 0 0 0.
Definition at_noon : Outside := {| fate := λ _, Performed; clock := λ _ _, sample_now |}.
Definition sample_arrange : list SyncSchedule → list SyncSchedule := sort_by earlier.

Lemma sample_arrange_sorted l : slice_sorted earlier l (sample_arrange l).
Proof.
  apply sort_by_slice_sorted. unfold earlier.
  split; [intros a b _ _|intros a b c _ _ _]; rewrite ?Z.ltb_ge, ?Z.ltb_lt; lia.
Qed.

Definition sample_world : Env World :=
  {| store := {| schedules := <["1"%string := sample_row "1" "0 * * * *" sample_now]>
                                {["2"%string := sample_row "2" "0 0 1 1 *" (sample_now + 1)]};
                 emitted := []; SchedulerErrorsTotal := 0 |}; calls_made := 0 |}.

Lemma sample_wf : wf (schedules (store sample_world)).
Proof. apply (bool_decide_unpack (map_Forall (λ id r, ID r = id) (schedules (store sample_world)))). by vm_compute. Qed.

Lemma Tick_fires_due_witness :
  ∃ fired, emitted (store (@Tick at_noon sample_arrange "down" sample_world).2) = key <$> fired ∧ NoDup (ID <$> fired).
Proof.
  destruct (@Tick at_noon sample_arrange "down" sample_world) as [r w'] eqn:Ht.
  destruct (@Tick_fires_due at_noon sample_arrange "down" sample_arrange_sorted sample_world r w' sample_wf Ht)
    as (fired & He & Hd & _). exists fired. split; [exact He|exact Hd].
Defined.

Lemma Tick_complete_witness :
  (@Tick at_noon sample_arrange "down" sample_world).1 = Ok tt.
Proof.
  destruct (@Tick at_noon sample_arrange "down" sample_world) as [r w'] eqn:Ht.
  refine (proj1 (@Tick_complete at_noon sample_arrange "down" sample_arrange_sorted sample_world r w' _ sample_wf Ht)).
  intros n. reflexivity.
Defined.

Example sample_tick :
  emitted (store (@Tick at_noon sample_arrange "down" sample_world).2) = [("t", "s1")%string].
Proof. vm_compute. reflexivity. Qed.

(** A schedule without a firing time within four years is sent but not moved, so it
    fires again on every pass: the leap day does so after February 2096. *)
Example leap_day_fires_every_pass :
  let o := {| fate := λ _, Performed; clock := λ n _, (Calendar.Date 2096 2 29 0 0 30 0 + Z.of_nat n * minute)%Z |} in
  let w := {| store := {| schedules := {["1"%string := sample_row "1" "0 0 29 2 *" (Calendar.Date 2096 2 29 0 0 0 0)]};
                          emitted := []; SchedulerErrorsTotal := 0 |}; calls_made := 0 |} in
  let tick := @Tick o sample_arrange "down" in
  length (emitted (store (tick (tick (tick w).2).2).2)) = 3.
Proof. vm_compute. reflexivity. Qed.
End Schedules.
