(* ===== verification/Idempotency.v ===== *)
(** * Idempotent admin requests (admin/idempotency.go)

    The middleware that stores the response of a mutating request under a key of the
    tenant, the method, the path and the client's header, and replays it. Redis calls
    may fail; then the request is executed as if the header were absent. *)

From Stdlib Require Import Ascii.
From S2P Require Import Prelude GoFloat GoString GoText Effects AuditTrail AuditIntegrity.

Module Idempotency.
Import AuditIntegrity.

Definition newline : ascii := "010"%char.
Definition nul : ascii := "000"%char.

Record cachedResponse := { status : Z; contentType : bytes; body : bytes }.

Definition encodeCachedResponse (r : cachedResponse) : bytes :=
  Itoa (status r) ++ [newline] ++ contentType r ++ [newline] ++ body r.

Definition decodeCachedResponse (b : bytes) : option cachedResponse :=
  match cut_at newline b with
  | Some ([], _) | None => None
  | Some (s, rest) =>
      match Atoi s, cut_at newline rest with
      | Some n, Some (ct, bd) => Some {| status := n; contentType := ct; body := bd |}
      | _, _ => None
      end
  end.

(** A response an HTTP handler can produce: header values have no line breaks. *)
Definition sendable (r : cachedResponse) : Prop := (0 ≤ status r ≤ int64_max)%Z ∧ newline ∉ contentType r.

Lemma decode_encode_eq r : sendable r → decodeCachedResponse (encodeCachedResponse r) = Some r.
Proof.
  intros [Hs Hc]. unfold decodeCachedResponse, encodeCachedResponse.
  assert (Hbig : (0 ≤ status r < 10 ^ 20)%Z) by (unfold int64_max in Hs; lia).
  change (Itoa (status r) ++ [newline] ++ ?x) with (Itoa (status r) ++ newline :: x).
  rewrite cut_at_app by (by apply Itoa_no).
  assert (Hne : Itoa (status r) ≠ []).
  { intros E. pose proof (number_Itoa (status r) Hbig) as Hn. by rewrite E in Hn. }
  destruct (Itoa (status r)) as [|c l] eqn:E; [done|]. rewrite <- E, Atoi_Itoa by done.
  change (contentType r ++ [newline] ++ ?x) with (contentType r ++ newline :: x).
  rewrite cut_at_app by done. by destruct r.
Qed.

(** A stored response is read back as it was. *)
Theorem decode_encode r : sendable r → decodeCachedResponse (encodeCachedResponse r) = Some r.
Proof. apply decode_encode_eq. Qed.

Definition idempotencyApplies (method : string) : bool :=
  str_eqb method "POST" || str_eqb method "PATCH" || str_eqb method "PUT" || str_eqb method "DELETE".

Section Middleware.
Context `{Outside} (sha256 : bytes → bytes) (prefix : string).
(** The application behind the middleware. *)
Context {App Payload : Type}.

Record request := {
  Method : string;
  Path : string;
  Tenant : option string;
  Header : string;
  payload : Payload
}.

Context (handler : request → App → cachedResponse * App).

(** [tenantIDFromContextOptional]. *)
Definition tenant_of (r : request) : string := default EmptyString (Tenant r).

Definition key_bytes (tenantID method path key : string) : bytes :=
  to_bytes tenantID ++ nul :: to_bytes method ++ nul :: to_bytes path ++ nul :: to_bytes key.

Definition buildIdempotencyKey (tenantID method path key : string) : string :=
  str_app prefix (of_bytes (":"%char :: hex (sha256 (key_bytes tenantID method path key)))).

(** The cache key of a request that opted in. *)
Definition cache_key (r : request) : option string :=
  let key := trim_space (Header r) in
  if idempotencyApplies (Method r) && negb (str_empty key)
  then Some (buildIdempotencyKey (tenant_of r) (Method r) (Path r) key)
  else None.

Record World := { app : App; cache : gmap string bytes }.

Definition set_app (a : App) (w : World) : World := {| app := a; cache := cache w |}.
Definition set_cache (f : gmap string bytes → gmap string bytes) (w : World) : World :=
  {| app := app w; cache := f (cache w) |}.

(** What a client receives. *)
Record outcome := { out_key : option string; response : cachedResponse; replayed : bool }.

(** [c.Next]: the handlers run. *)
Definition execute (r : request) (w : Env World) : cachedResponse * Env World :=
  let '(resp, a) := handler r (app (store w)) in
  (resp, {| store := set_app a (store w); calls_made := calls_made w |}).

Definition readCachedResponse (key : string) (w : Env World) : option cachedResponse * Env World :=
  match eread tt (λ s, cache s !! key) w with
  | (Ok (Some raw), w') => (decodeCachedResponse raw, w')
  | (_, w') => (None, w')
  end.

Definition put_new (key : string) (v : bytes) (c : gmap string bytes) : gmap string bytes :=
  match c !! key with Some _ => c | None => <[key := v]> c end.

Definition is_success (r : cachedResponse) : bool := ((200 <=? status r) && (status r <? 300))%Z.

Definition remember (key : string) (r : cachedResponse) (w : Env World) : Env World :=
  if is_success r
  then (ewrite (E := unit) tt (set_cache (put_new key (encodeCachedResponse r))) w).2
  else w.

Definition serve (r : request) (w : Env World) : outcome * Env World :=
  match cache_key r with
  | None =>
      let '(resp, w1) := execute r w in
      ({| out_key := None; response := resp; replayed := false |}, w1)
  | Some key =>
      match readCachedResponse key w with
      | (Some cached, w1) => ({| out_key := Some key; response := cached; replayed := true |}, w1)
      | (None, w1) =>
          let '(resp, w2) := execute r w1 in
          ({| out_key := Some key; response := resp; replayed := false |}, remember key resp w2)
      end
  end.

Fixpoint serve_all (rs : list request) (w : Env World) : list outcome * Env World :=
  match rs with
  | [] => ([], w)
  | r :: rest =>
      let '(o, w1) := serve r w in
      let '(os, w2) := serve_all rest w1 in
      (o :: os, w2)
  end.

(** ** Keys *)

Definition no_nul (s : string) : Prop := nul ∉ to_bytes s.

(** For a hash without collisions, requests share a cached response only when they
    agree on tenant, method, path and header, so no tenant sees another's response. *)
Theorem keys_separate_tenants t1 m1 p1 k1 t2 m2 p2 k2 :
  (∀ x y, sha256 x = sha256 y → x = y) →
  no_nul t1 → no_nul m1 → no_nul p1 → no_nul t2 → no_nul m2 → no_nul p2 →
  buildIdempotencyKey t1 m1 p1 k1 = buildIdempotencyKey t2 m2 p2 k2 →
  t1 = t2 ∧ m1 = m2 ∧ p1 = p2 ∧ k1 = k2.
Proof.
  intros Hsha Ht1 Hm1 Hp1 Ht2 Hm2 Hp2 E. unfold buildIdempotencyKey in E.
  apply (f_equal to_bytes) in E. rewrite !to_bytes_app, !to_of_bytes in E.
  apply app_inv_head in E. injection E as E. apply hex_inj, Hsha in E. rename E into E'. unfold key_bytes in E'.
  apply split_at in E' as [->%to_bytes_inj E']; [|done..].
  apply split_at in E' as [->%to_bytes_inj E']; [|done..].
  apply split_at in E' as [->%to_bytes_inj ->%to_bytes_inj]; [done|done..].
Qed.

(** ** Replays *)

Definition redis_up : Prop := ∀ n, fate n = Performed.
Definition well_behaved : Prop := ∀ r a, sendable (handler r a).1.

(** [K] holds the response [resp]. *)
Definition holds (K : string) (resp : cachedResponse) (w : Env World) : Prop :=
  cache (store w) !! K = Some (encodeCachedResponse resp).

Lemma serve_cases r w :
  redis_up →
  match cache_key r with
  | Some K =>
      match cache (store w) !! K ≫= decodeCachedResponse with
      | Some resp => (serve r w).1 = {| out_key := Some K; response := resp; replayed := true |} ∧
                     store (serve r w).2 = store w
      | None =>
          let '(resp, a) := handler r (app (store w)) in
          (serve r w).1 = {| out_key := Some K; response := resp; replayed := false |} ∧
          cache (store (serve r w).2) =
            (if is_success resp then put_new K (encodeCachedResponse resp) (cache (store w)) else cache (store w))
      end
  | None => out_key (serve r w).1 = None ∧ cache (store (serve r w).2) = cache (store w)
  end.
Proof.
  intros Hup. unfold serve. destruct (cache_key r) as [K|].
  2:{ unfold execute. destruct (handler r (app (store w))) as [resp a]. done. }
  unfold readCachedResponse, eread, ecall. rewrite (Hup (calls_made w)).
  destruct (cache (store w) !! K) as [raw|]; simpl; [destruct (decodeCachedResponse raw) as [resp|]; simpl; [done|]|];
    unfold execute, remember; simpl; destruct (handler r (app (store w))) as [resp a]; simpl;
    (split; [done|]); destruct (is_success resp); try done;
    unfold ewrite, ecall; simpl; by rewrite (Hup _).
Qed.

Lemma serve_keeps K resp r w :
  redis_up → sendable resp → holds K resp w →
  holds K resp (serve r w).2 ∧
  (out_key (serve r w).1 = Some K → response (serve r w).1 = resp ∧ replayed (serve r w).1 = true).
Proof.
  intros Hup Hs Hh. unfold holds in *. pose proof (serve_cases r w Hup) as Hc.
  destruct (cache_key r) as [K'|]; [|destruct Hc as [Ho Hk]; by rewrite Hk, Ho].
  destruct (decide (K' = K)) as [->|Hne].
  - rewrite Hh in Hc. simpl in Hc. rewrite decode_encode_eq in Hc by done. destruct Hc as [Ho Hk].
    by rewrite Hk, Ho.
  - destruct (cache (store w) !! K' ≫= decodeCachedResponse) as [resp'|].
    + destruct Hc as [Ho Hk]. rewrite Hk, Ho. split; [done|]. simpl. congruence.
    + destruct (handler r (app (store w))) as [resp' a]. destruct Hc as [Ho Hk]. rewrite Hk, Ho.
      split; [|simpl; congruence]. destruct (is_success resp'); [|done].
      unfold put_new. destruct (cache (store w) !! K'); [done|]. by rewrite lookup_insert_ne.
Qed.

Lemma serve_all_keeps K resp rs w o :
  redis_up → sendable resp → holds K resp w →
  o ∈ (serve_all rs w).1 → out_key o = Some K → response o = resp ∧ replayed o = true.
Proof.
  intros Hup Hs. revert w. induction rs as [|r rs IH]; intros w Hh Ho Hk; simpl in Ho; [by apply not_elem_of_nil in Ho|].
  pose proof (serve_keeps K resp r w Hup Hs Hh) as [Hh' Hr]. destruct (serve r w) as [o1 w1].
  specialize (IH w1 Hh'). destruct (serve_all rs w1) as [os w2].
  apply elem_of_cons in Ho as [->|Ho]; [by apply Hr|by apply IH].
Qed.

(** Every cached value is an encoded response. *)
Definition clean (w : Env World) : Prop :=
  ∀ K v, cache (store w) !! K = Some v → ∃ resp, sendable resp ∧ v = encodeCachedResponse resp.

Lemma serve_clean r w : redis_up → well_behaved → clean w → clean (serve r w).2.
Proof.
  intros Hup Hwb Hc K v. pose proof (serve_cases r w Hup) as Hs.
  destruct (cache_key r) as [K'|]; [|destruct Hs as [_ ->]; apply Hc].
  destruct (cache (store w) !! K' ≫= decodeCachedResponse) as [resp'|]; [destruct Hs as [_ ->]; apply Hc|].
  pose proof (Hwb r (app (store w))) as Hok. destruct (handler r (app (store w))) as [resp' a].
  destruct Hs as [_ ->]. destruct (is_success resp'); [|apply Hc]. unfold put_new.
  destruct (cache (store w) !! K'); [apply Hc|]. rewrite lookup_insert. case_decide; [|apply Hc].
  intros [= <-]. by exists resp'.
Qed.

(** A success with a key is stored under it. *)
Lemma serve_stores r w K :
  redis_up → well_behaved → clean w → out_key (serve r w).1 = Some K → is_success (response (serve r w).1) = true →
  holds K (response (serve r w).1) (serve r w).2 ∧ sendable (response (serve r w).1).
Proof.
  intros Hup Hwb Hcl Ho Hsucc. pose proof (serve_cases r w Hup) as Hs. unfold holds.
  destruct (cache_key r) as [K'|]; [|destruct Hs as [Hs _]; by rewrite Hs in Ho].
  destruct (cache (store w) !! K') as [v|] eqn:Hv; simpl in Hs.
  - destruct (Hcl K' v Hv) as (resp & Hsend & ->). rewrite decode_encode_eq in Hs by done.
    destruct Hs as [Es Ek]. rewrite Es in *. rewrite Ek. simpl in *. injection Ho as <-. done.
  - pose proof (Hwb r (app (store w))) as Hok. destruct (handler r (app (store w))) as [resp a].
    destruct Hs as [Es Ek]. rewrite Es in *. rewrite Ek. simpl in *. injection Ho as <-. rewrite Hsucc.
    unfold put_new. rewrite Hv, lookup_insert_eq. done.
Qed.

(** While Redis answers and keeps the entry, once a request has succeeded under a
    key every later request with that key gets the same response and its handler does
    not run. *)
Theorem success_is_replayed rs w i j oi oj K :
  redis_up → well_behaved → clean w →
  (serve_all rs w).1 !! i = Some oi → (serve_all rs w).1 !! j = Some oj → i < j →
  out_key oi = Some K → out_key oj = Some K → is_success (response oi) = true →
  response oj = response oi ∧ replayed oj = true.
Proof.
  intros Hup Hwb. revert w i j. induction rs as [|r rs IH]; intros w i j Hcl Hi Hj Hlt Ki Kj Hsucc; [done|].
  simpl in Hi, Hj. pose proof (serve_clean r w Hup Hwb Hcl) as Hcl1.
  pose proof (serve_stores r w K Hup Hwb Hcl) as Hst. destruct (serve r w) as [o1 w1]. simpl in Hst, Hcl1.
  specialize (IH w1). pose proof (serve_all_keeps K (response o1) rs w1 oj Hup) as Hkeep.
  destruct (serve_all rs w1) as [os w2]. simpl in *.
  destruct j as [|j]; [lia|]. destruct i as [|i].
  - injection Hi as <-. destruct (Hst Ki Hsucc) as [Hh Hsd]. apply Hkeep; [done..| |done].
    by eapply list_elem_of_lookup_2.
  - eapply (IH i j Hcl1 Hi Hj); [lia|done..].
Qed.
End Middleware.

(** ** Samples *)

(** A handler that counts its runs in the body. *)
Definition sample_handler (_ : request (Payload := unit)) (n : nat) : cachedResponse * nat :=
  ({| status := 201; contentType := to_bytes "application/json"; body := to_bytes (str_of_nat n) |}, S n).

Definition sample_request : request (Payload := unit) :=
  {| Method := "POST"; Path := "/v1/admin/sources"; Tenant := Some "t"; Header := " k1 "; payload := tt |}.

Definition sample_hash (x : bytes) : bytes := "h"%char :: x.
Definition empty_world : Env (World (App := nat)) := {| store := {| app := 0; cache := ∅ |}; calls_made := 0 |}.

Definition sample_run : list outcome :=
  (@serve_all calm sample_hash "idempotency" nat unit sample_handler [sample_request; sample_request] empty_world).1.

Lemma decode_encode_witness :
  decodeCachedResponse (encodeCachedResponse (sample_handler sample_request 7).1) = Some (sample_handler sample_request 7).1.
Proof. apply decode_encode. split; [split; vm_compute; discriminate|]. apply (bool_decide_unpack (newline ∉ _)). by vm_compute. Defined.

Lemma keys_separate_tenants_witness :
  buildIdempotencyKey sample_hash "idempotency" "a" "POST" "/p" "k"
  ≠ buildIdempotencyKey sample_hash "idempotency" "b" "POST" "/p" "k".
Proof.
  intros E. enough ("a" = "b")%string by discriminate.
  refine (proj1 (keys_separate_tenants sample_hash "idempotency" "a" "POST" "/p" "k" "b" "POST" "/p" "k" _ _ _ _ _ _ _ E));
    [by intros x y [= ->]|..]; apply (bool_decide_unpack (nul ∉ _)); by vm_compute.
Defined.

Lemma success_is_replayed_witness :
  match sample_run with [a; b] => response b = response a ∧ replayed b = true | _ => False end.
Proof.
  destruct sample_run as [|a [|b [|c l]]] eqn:E; [vm_compute in E; discriminate E..| |vm_compute in E; discriminate E].
  refine (@success_is_replayed calm sample_hash "idempotency" nat unit sample_handler [sample_request; sample_request]
    empty_world 0 1 a b (buildIdempotencyKey sample_hash "idempotency" "t" "POST" "/v1/admin/sources" "k1") _ _ _ _ _ _ _ _ _).
  - intros n. reflexivity.
  - intros r n. split; [split; vm_compute; discriminate|]. apply (bool_decide_unpack (newline ∉ _)). by vm_compute.
  - intros K v Hv. exfalso; exact (lookup_empty_Some (M := gmap string) K v Hv).
  - change (sample_run !! 0 = Some a). by rewrite E.
  - change (sample_run !! 1 = Some b). by rewrite E.
  - lia.
  - vm_compute in E. injection E as <- <-. reflexivity.
  - vm_compute in E. injection E as <- <-. reflexivity.
  - vm_compute in E. injection E as <- <-. reflexivity.
Defined.

(** Two requests that arrive together both look before either has finished: both run. *)
Example concurrent_requests_both_run :
  let look w := @readCachedResponse calm nat "k" w in
  let '(first, w1) := look empty_world in
  let '(second, w2) := look w1 in
  first = None ∧ second = None.
Proof. by vm_compute. Qed.
End Idempotency.
