(* ===== verification/AutoPause.v ===== *)
(** * Automatic pausing of failing sources (admin/source_auto_pause.go)

    The ring of buckets that counts attempts and errors over a sliding window is
    proved to count exactly the observations of the last buckets; the pausing protocol
    is an interleaving of the callers of [Record]. *)

From S2P Require Import Prelude GoFloat.

Module AutoPause.

Record SourceAutoPauseConfig := {
  WindowDuration : Z;
  WindowBuckets : Z;
  ErrorRateThreshold : float;
  MinSampleSize : Z;
  PauseCooldown : Z;
  ConsecutiveFailureThreshold : Z
}.

Definition NewSourceAutoPauser (c : SourceAutoPauseConfig) : SourceAutoPauseConfig :=
  let window := if (WindowDuration c <=? 0)%Z then (10 * minute)%Z else WindowDuration c in
  {| WindowDuration := window;
     WindowBuckets := if (WindowBuckets c <=? 0)%Z then 10%Z else WindowBuckets c;
     ErrorRateThreshold :=
       if f_leb (ErrorRateThreshold c) f_zero || f_geb (ErrorRateThreshold c) (f64_of_Z 1)
       then f64_const 1 2 else ErrorRateThreshold c;
     MinSampleSize := if (MinSampleSize c <=? 0)%Z then 20%Z else MinSampleSize c;
     PauseCooldown := if (PauseCooldown c <=? 0)%Z then window else PauseCooldown c;
     ConsecutiveFailureThreshold := ConsecutiveFailureThreshold c |}.

Record autoPauseBucket := { total : Z; errors : Z }.
Definition empty_bucket : autoPauseBucket := {| total := 0; errors := 0 |}.

Record autoPauseState := {
  buckets : list autoPauseBucket;
  cursor : nat;
  cursorTime : Time;
  lastPaused : Time;
  consecutiveFailures : Z;
  pendingPause : bool
}.

Section Detector.
Context (cfg : SourceAutoPauseConfig).

Definition n_buckets : nat := Z.to_nat (WindowBuckets cfg).
Definition bucketDur : Z := (WindowDuration cfg / WindowBuckets cfg)%Z.

Definition fresh (now : Time) : autoPauseState :=
  {| buckets := replicate n_buckets empty_bucket; cursor := 0; cursorTime := now; lastPaused := 0;
     consecutiveFailures := 0; pendingPause := false |}.

Definition with_ring (bs : list autoPauseBucket) (cur : nat) (at_ : Time) (s : autoPauseState) : autoPauseState :=
  {| buckets := bs; cursor := cur; cursorTime := at_; lastPaused := lastPaused s;
     consecutiveFailures := consecutiveFailures s; pendingPause := pendingPause s |}.

(** Move the cursor on, emptying the bucket it reaches. *)
Fixpoint roll (steps : nat) (bs : list autoPauseBucket) (cur : nat) : list autoPauseBucket * nat :=
  match steps with
  | O => (bs, cur)
  | S k => let cur' := ((cur + 1) mod n_buckets)%nat in roll k (<[cur' := empty_bucket]> bs) cur'
  end.

Definition advanceLocked (s : autoPauseState) (now : Time) : autoPauseState :=
  let elapsed := time_sub now (cursorTime s) in
  if (bucketDur <=? 0)%Z || (elapsed <? bucketDur)%Z then s
  else
    let steps := (elapsed / bucketDur)%Z in
    if (WindowBuckets cfg <=? steps)%Z
    then with_ring (replicate (length (buckets s)) empty_bucket) 0 now s
    else
      let '(bs, cur) := roll (Z.to_nat steps) (buckets s) (cursor s) in
      with_ring bs cur (cursorTime s + steps * bucketDur)%Z s.

Definition bump (ok : bool) (b : autoPauseBucket) : autoPauseBucket :=
  {| total := total b + 1; errors := if ok then errors b else (errors b + 1)%Z |}.

(** The counting part of [Record], under the lock. *)
Definition count_in (ok : bool) (s : autoPauseState) : autoPauseState :=
  {| buckets := alter (bump ok) (cursor s) (buckets s); cursor := cursor s; cursorTime := cursorTime s;
     lastPaused := lastPaused s;
     consecutiveFailures := if ok then 0 else (consecutiveFailures s + 1)%Z; pendingPause := pendingPause s |}.

Definition note (now : Time) (ok : bool) (s : option autoPauseState) : autoPauseState :=
  count_in ok (advanceLocked (default (fresh now) s) now).

Definition windowTotalsLocked (s : autoPauseState) : Z * Z :=
  foldl (λ acc b, (acc.1 + total b, acc.2 + errors b)%Z) (0, 0)%Z (buckets s).

Definition rateBreach (s : autoPauseState) : bool :=
  let '(n, e) := windowTotalsLocked s in
  (MinSampleSize cfg <=? n)%Z && f_geb (f64_div (f64_of_Z e) (f64_of_Z n)) (ErrorRateThreshold cfg).

Definition consecBreach (s : autoPauseState) : bool :=
  (0 <? ConsecutiveFailureThreshold cfg)%Z && (ConsecutiveFailureThreshold cfg <=? consecutiveFailures s)%Z.

Definition cooled (now : Time) (s : autoPauseState) : bool :=
  time_is_zero (lastPaused s) || (PauseCooldown cfg <=? time_sub now (lastPaused s))%Z.

Definition shouldPause (now : Time) (s : autoPauseState) : bool :=
  (rateBreach s || consecBreach s) && cooled now s && negb (pendingPause s).

Definition set_pending (p : bool) (s : autoPauseState) : autoPauseState :=
  {| buckets := buckets s; cursor := cursor s; cursorTime := cursorTime s; lastPaused := lastPaused s;
     consecutiveFailures := consecutiveFailures s; pendingPause := p |}.

Definition commit_pause (now : Time) (s : autoPauseState) : autoPauseState :=
  {| buckets := buckets s; cursor := cursor s; cursorTime := cursorTime s; lastPaused := now;
     consecutiveFailures := consecutiveFailures s; pendingPause := false |}.

(** The first critical section of [Record]: count, decide, and claim the pause. *)
Definition observe (now : Time) (ok : bool) (s : option autoPauseState) : autoPauseState * bool :=
  let s1 := note now ok s in
  if shouldPause now s1 then (set_pending true s1, true) else (s1, false).

(** ** The ring as the list of the last buckets, the current one first *)

Definition recent (bs : list autoPauseBucket) (cur : nat) : list autoPauseBucket :=
  (λ j, default empty_bucket (bs !! ((cur + n_buckets - j) mod n_buckets)%nat)) <$> seq 0 n_buckets.

Context (Hn : (0 < WindowBuckets cfg)%Z).

Lemma n_pos : 0 < n_buckets.
Proof. unfold n_buckets. lia. Qed.

Lemma recent_length bs cur : length (recent bs cur) = n_buckets.
Proof. unfold recent. by rewrite length_fmap, length_seq. Qed.

Lemma recent_lookup bs cur j :
  j < n_buckets → recent bs cur !! j = Some (default empty_bucket (bs !! ((cur + n_buckets - j) mod n_buckets)%nat)).
Proof. intros Hj. unfold recent. rewrite list_lookup_fmap, lookup_seq_lt by done. done. Qed.

(** The index of the bucket [j] before the cursor, after the cursor moved. *)
Lemma index_step cur j :
  0 < j ≤ n_buckets →
  (((cur + 1) mod n_buckets + n_buckets - j) mod n_buckets = (cur + n_buckets - (j - 1)) mod n_buckets)%nat.
Proof.
  intros Hj. pose proof n_pos.
  replace ((cur + 1) mod n_buckets + n_buckets - j)%nat with ((cur + 1) mod n_buckets + (n_buckets - j))%nat by lia.
  rewrite Nat.Div0.add_mod_idemp_l. f_equal. lia.
Qed.

Lemma index_inj cur i j :
  i < n_buckets → j < n_buckets →
  ((cur + n_buckets - i) mod n_buckets = (cur + n_buckets - j) mod n_buckets)%nat → i = j.
Proof.
  intros Hi Hj E. pose proof n_pos as Hp.
  pose proof (Nat.div_mod (cur + n_buckets - i) n_buckets ltac:(lia)) as D1.
  pose proof (Nat.div_mod (cur + n_buckets - j) n_buckets ltac:(lia)) as D2.
  rewrite E in D1. set (r := ((cur + n_buckets - j) mod n_buckets)%nat) in *.
  set (q1 := ((cur + n_buckets - i) / n_buckets)%nat) in *. set (q2 := ((cur + n_buckets - j) / n_buckets)%nat) in *.
  assert (q1 = q2); [|nia].
  destruct (Nat.lt_trichotomy q1 q2) as [Hq|[Hq|Hq]]; [|done|]; exfalso; nia.
Qed.

Lemma recent_step bs cur :
  length bs = n_buckets →
  recent (<[((cur + 1) mod n_buckets)%nat := empty_bucket]> bs) ((cur + 1) mod n_buckets)%nat
  = empty_bucket :: take (n_buckets - 1) (recent bs cur).
Proof.
  intros Hl. pose proof n_pos as Hp. pose proof (Nat.mod_upper_bound (cur + 1) n_buckets ltac:(lia)) as Hc.
  apply list_eq_same_length with (n := n_buckets); [|by rewrite recent_length|].
  { simpl. rewrite length_take, recent_length. lia. }
  intros j x y Hj Hx Hy. rewrite recent_lookup in Hx by done. injection Hx as <-.
  destruct j as [|j].
  - injection Hy as <-. replace ((cur + 1) mod n_buckets + n_buckets - 0)%nat
      with ((cur + 1) mod n_buckets + 1 * n_buckets)%nat by lia.
    rewrite Nat.Div0.mod_add, (Nat.mod_small _ _ Hc), list_lookup_insert_eq by lia. done.
  - simpl in Hy. rewrite lookup_take_lt, recent_lookup in Hy by lia. injection Hy as <-.
    rewrite index_step by lia. replace (S j - 1)%nat with j by lia.
    rewrite list_lookup_insert_ne; [done|]. intros E.
    assert (E' : ((cur + n_buckets - (n_buckets - 1)) mod n_buckets = (cur + n_buckets - j) mod n_buckets)%nat).
    { rewrite <- E. f_equal. lia. }
    apply index_inj in E'; lia.
Qed.

Lemma roll_spec k bs cur :
  length bs = n_buckets → cur < n_buckets → k ≤ n_buckets →
  length (roll k bs cur).1 = n_buckets ∧ (roll k bs cur).2 < n_buckets ∧
  recent (roll k bs cur).1 (roll k bs cur).2 = replicate k empty_bucket ++ take (n_buckets - k) (recent bs cur).
Proof.
  pose proof n_pos as Hp. revert bs cur. induction k as [|k IH]; intros bs cur Hl Hc Hk; simpl.
  - rewrite Nat.sub_0_r, take_ge by (by rewrite recent_length). done.
  - pose proof (Nat.mod_upper_bound (cur + 1) n_buckets ltac:(lia)) as Hc'.
    destruct (IH (<[((cur + 1) mod n_buckets)%nat := empty_bucket]> bs) ((cur + 1) mod n_buckets)%nat)
      as (H1 & H2 & H3); [by rewrite length_insert|done|lia|].
    split_and!; [done..|]. rewrite H3, recent_step by done.
    replace (n_buckets - k) with (S (n_buckets - S k)) by lia. rewrite firstn_cons, take_take.
    replace (Nat.min _ _) with (n_buckets - S k) by lia.
    by rewrite (cons_middle empty_bucket), app_assoc, <- replicate_S_end.
Qed.

(** The ring and the list have the same buckets. *)
Lemma recent_perm bs cur : length bs = n_buckets → recent bs cur ≡ₚ bs.
Proof.
  intros Hl. pose proof n_pos as Hp.
  assert (Hbs : bs = (λ i, default empty_bucket (bs !! i)) <$> seq 0 n_buckets).
  { apply list_eq. intros i. rewrite list_lookup_fmap. destruct (decide (i < n_buckets)) as [Hi|Hi].
    - rewrite lookup_seq_lt by done. simpl. destruct (lookup_lt_is_Some_2 bs i) as [b Hb]; [lia|]. by rewrite Hb.
    - rewrite lookup_seq_ge, lookup_ge_None_2 by lia. done. }
  rewrite Hbs at 2. unfold recent.
  assert (E : (λ j, default empty_bucket (bs !! ((cur + n_buckets - j) mod n_buckets)%nat)) <$> seq 0 n_buckets
            = (λ i, default empty_bucket (bs !! i)) <$> ((λ j, (cur + n_buckets - j) mod n_buckets) <$> seq 0 n_buckets)%nat)
    by by rewrite <- list_fmap_compose.
  rewrite E. apply fmap_Permutation, NoDup_Permutation_bis.
  - apply NoDup_ListNoDup, NoDup_alt. intros i j x Hi Hj. rewrite list_lookup_fmap in Hi, Hj.
    apply fmap_Some in Hi as (a & [Ha Ha']%lookup_seq & ->). apply fmap_Some in Hj as (b & [Hb Hb']%lookup_seq & E').
    simpl in *. subst. eapply index_inj; [..|exact E']; lia.
  - by rewrite length_fmap, !length_seq.
  - intros x (j & -> & _)%list_elem_of_In%list_elem_of_fmap. apply list_elem_of_In, elem_of_seq.
    pose proof (Nat.mod_upper_bound (cur + n_buckets - j) n_buckets). lia.
Qed.

(** ** Counting observations *)

Definition tally (P : Time * bool → bool) (obs : list (Time * bool)) : autoPauseBucket :=
  {| total := Z.of_nat (length (List.filter P obs));
     errors := Z.of_nat (length (List.filter (λ o, P o && negb o.2) obs)) |}.

Lemma tally_ext P Q obs : (∀ o, o ∈ obs → P o = Q o) → tally P obs = tally Q obs.
Proof.
  intros E. unfold tally. rewrite (List.filter_ext_in P Q) by (intros o Ho; by apply E, list_elem_of_In).
  rewrite (List.filter_ext_in (λ o, P o && negb o.2) (λ o, Q o && negb o.2)); [done|].
  intros o Ho%list_elem_of_In. by rewrite (E o Ho).
Qed.

Lemma tally_none P obs : (∀ o, o ∈ obs → P o = false) → tally P obs = empty_bucket.
Proof.
  intros E. rewrite (tally_ext P (λ _, false)) by done. unfold tally. simpl. by rewrite !filter_false_nil.
Qed.

Lemma tally_snoc P obs now ok :
  tally P (obs ++ [(now, ok)]) = if P (now, ok) then bump ok (tally P obs) else tally P obs.
Proof.
  unfold tally. rewrite !List.filter_app. simpl. destruct (P (now, ok)); simpl.
  - destruct ok; simpl; unfold bump; f_equal; rewrite !length_app; simpl; lia.
  - by rewrite !app_nil_r.
Qed.

Definition add_bucket (a b : autoPauseBucket) : autoPauseBucket :=
  {| total := total a + total b; errors := errors a + errors b |}.

Lemma bucket_eq a b : total a = total b → errors a = errors b → a = b.
Proof. destruct a, b. simpl. by intros -> ->. Qed.

Lemma sum_perm l k : l ≡ₚ k → foldr add_bucket empty_bucket l = foldr add_bucket empty_bucket k.
Proof. induction 1; simpl; [done|congruence| |congruence]. apply bucket_eq; simpl; lia. Qed.

Lemma tally_split P Q R obs :
  (∀ o, R o = P o || Q o) → (∀ o, P o && Q o = false) → tally R obs = add_bucket (tally P obs) (tally Q obs).
Proof.
  intros HR HD. unfold tally, add_bucket. simpl. induction obs as [|o obs IH]; [done|].
  simpl. rewrite HR. injection IH as IH1 IH2. specialize (HD o).
  destruct (P o), (Q o), (negb o.2); simpl in *; try done; f_equal; lia.
Qed.

(** How many buckets ago, seen from the start [at_] of the current one. *)
Definition age (at_ t : Time) : Z := (- ((t - at_) / bucketDur))%Z.

Context (Hd : (0 < bucketDur)%Z).

Lemma sum_tally at_ obs n :
  foldr add_bucket empty_bucket ((λ j, tally (λ o, (age at_ o.1 =? Z.of_nat j)%Z) obs) <$> seq 0 n)
  = tally (λ o, (0 <=? age at_ o.1)%Z && (age at_ o.1 <? Z.of_nat n)%Z) obs.
Proof.
  induction n as [|n IH].
  - symmetry. apply tally_none. intros o _.
    destruct (Z.leb_spec 0 (age at_ o.1)), (Z.ltb_spec (age at_ o.1) (Z.of_nat 0)); simpl; lia || done.
  - rewrite seq_S, Nat.add_0_l, fmap_app, foldr_app. cbn [fmap list_fmap foldr].
    rewrite (tally_split (λ o, (0 <=? age at_ o.1)%Z && (age at_ o.1 <? Z.of_nat n)%Z)
               (λ o, (age at_ o.1 =? Z.of_nat n)%Z)
               (λ o, (0 <=? age at_ o.1)%Z && (age at_ o.1 <? Z.of_nat (S n))%Z)).
    + rewrite <- IH. clear IH. generalize (tally (λ o, (age at_ o.1 =? Z.of_nat n)%Z) obs). intros x.
      induction ((λ j, tally (λ o, (age at_ o.1 =? Z.of_nat j)%Z) obs) <$> seq 0 n) as [|b l IH]; simpl.
      * apply bucket_eq; simpl; lia.
      * rewrite IH. apply bucket_eq; simpl; lia.
    + intros o. destruct (Z.leb_spec 0 (age at_ o.1)), (Z.ltb_spec (age at_ o.1) (Z.of_nat n)),
        (Z.ltb_spec (age at_ o.1) (Z.of_nat (S n))), (Z.eqb_spec (age at_ o.1) (Z.of_nat n)); simpl; done || lia.
    + intros o. destruct (Z.leb_spec 0 (age at_ o.1)), (Z.ltb_spec (age at_ o.1) (Z.of_nat n)),
        (Z.eqb_spec (age at_ o.1) (Z.of_nat n)); simpl; done || lia.
Qed.

Lemma totals_sum s :
  length (buckets s) = n_buckets →
  let b := foldr add_bucket empty_bucket (recent (buckets s) (cursor s)) in
  windowTotalsLocked s = (total b, errors b).
Proof.
  intros Hl b. assert (Hb : b = foldr add_bucket empty_bucket (buckets s)).
  { subst b. by apply sum_perm, recent_perm. }
  rewrite Hb. unfold windowTotalsLocked. clear b Hb Hl.
  assert (Hgen : ∀ l acc, foldl (λ acc b, (acc.1 + total b, acc.2 + errors b)%Z) acc l
             = ((acc.1 + total (foldr add_bucket empty_bucket l))%Z, (acc.2 + errors (foldr add_bucket empty_bucket l))%Z)).
  { induction l as [|x l IH]; intros [a e]; simpl; [f_equal; lia|]. rewrite IH. simpl. f_equal; lia. }
  rewrite Hgen. simpl. done.
Qed.

(** ** The ring tracks the observations *)

Definition slots (at_ : Time) (obs : list (Time * bool)) : list autoPauseBucket :=
  (λ j, tally (λ o, (age at_ o.1 =? Z.of_nat j)%Z) obs) <$> seq 0 n_buckets.

Record tracks (obs : list (Time * bool)) (s : autoPauseState) : Prop := {
  tr_len : length (buckets s) = n_buckets;
  tr_cur : cursor s < n_buckets;
  tr_old : ∀ o, o ∈ obs → (o.1 < cursorTime s + bucketDur)%Z;
  tr_slots : recent (buckets s) (cursor s) = slots (cursorTime s) obs
}.

Lemma slots_lookup at_ obs j :
  j < n_buckets → slots at_ obs !! j = Some (tally (λ o, (age at_ o.1 =? Z.of_nat j)%Z) obs).
Proof. intros Hj. unfold slots. by rewrite list_lookup_fmap, lookup_seq_lt. Qed.

Lemma age_nonneg at_ t : (t < at_ + bucketDur → 0 ≤ age at_ t)%Z.
Proof. intros Ht. unfold age. assert ((t - at_) / bucketDur < 1)%Z by (apply Z.div_lt_upper_bound; lia). lia. Qed.

Lemma age_shift at_ t k : age (at_ + k * bucketDur) t = (age at_ t + k)%Z.
Proof.
  unfold age. replace (t - (at_ + k * bucketDur))%Z with (t - at_ + - k * bucketDur)%Z by lia.
  rewrite Z.div_add by lia. lia.
Qed.

Lemma fresh_tracks now : tracks [] (fresh now).
Proof.
  pose proof n_pos as Hp. split; simpl; [by rewrite length_replicate|done|by intros ? ?%not_elem_of_nil|].
  apply list_eq. intros j. destruct (decide (j < n_buckets)) as [Hj|Hj].
  - rewrite recent_lookup, slots_lookup by done. f_equal.
    destruct (replicate n_buckets empty_bucket !! _) as [b|] eqn:Eb; [|done].
    by apply lookup_replicate in Eb as [-> _].
  - rewrite !lookup_ge_None_2; [done|unfold slots; rewrite length_fmap, length_seq; lia|rewrite recent_length; lia].
Qed.

(** The window after a long silence is empty. *)
Lemma reset_tracks obs s now :
  tracks obs s → (cursorTime s + WindowBuckets cfg * bucketDur ≤ now)%Z →
  tracks obs (with_ring (replicate (length (buckets s)) empty_bucket) 0 now s).
Proof.
  intros [Hl Hc Ho Hs] Hnow. pose proof (fresh_tracks now) as [_ _ _ Hf]. simpl in Hf.
  assert (0 ≤ WindowBuckets cfg * bucketDur)%Z by (apply Z.mul_nonneg_nonneg; lia).
  split; simpl; [by rewrite length_replicate|apply n_pos| |].
  - intros o Hin. specialize (Ho o Hin). lia.
  - rewrite Hl, Hf. unfold slots. apply list_fmap_ext. intros i j [-> Hj]%lookup_seq. symmetry. apply tally_none.
    intros o Hin. apply Z.eqb_neq. specialize (Ho o Hin). unfold age.
    assert ((o.1 - now) / bucketDur < 1 - WindowBuckets cfg)%Z by (apply Z.div_lt_upper_bound; [done|]; nia).
    unfold n_buckets in *. lia.
Qed.

(** Rolling by fewer steps than there are buckets drops the oldest. *)
Lemma roll_tracks obs s k :
  tracks obs s → k < n_buckets →
  tracks obs (let '(bs, cur) := roll k (buckets s) (cursor s) in
              with_ring bs cur (cursorTime s + Z.of_nat k * bucketDur)%Z s).
Proof.
  intros [Hl Hc Ho Hs] Hk. destruct (roll_spec k (buckets s) (cursor s)) as (H1 & H2 & H3); [done|done|lia|].
  destruct (roll k (buckets s) (cursor s)) as [bs cur]. simpl in *. split; simpl; [done|done| |].
  - intros o Hin. specialize (Ho o Hin). nia.
  - rewrite H3, Hs. apply list_eq. intros j. destruct (decide (j < n_buckets)) as [Hj|Hj].
    + rewrite slots_lookup by done. destruct (decide (j < k)) as [Hjk|Hjk].
      * rewrite lookup_app_l, lookup_replicate_2 by (rewrite ?length_replicate; lia). f_equal. symmetry.
        apply tally_none. intros o Hin. apply Z.eqb_neq. rewrite age_shift.
        pose proof (age_nonneg _ _ (Ho o Hin)). lia.
      * rewrite lookup_app_r, length_replicate, lookup_take_lt, slots_lookup by (rewrite ?length_replicate; lia).
        f_equal. apply tally_ext. intros o _. rewrite age_shift.
        destruct (Z.eqb_spec (age (cursorTime s) o.1) (Z.of_nat (j - k))),
          (Z.eqb_spec (age (cursorTime s) o.1 + Z.of_nat k) (Z.of_nat j)); done || lia.
    + rewrite !lookup_ge_None_2; [done|unfold slots; rewrite length_fmap, length_seq; lia|].
      rewrite length_app, length_replicate, length_take. unfold slots. rewrite length_fmap, length_seq. lia.
Qed.

Lemma advance_tracks obs s now :
  tracks obs s → (cursorTime s ≤ now)%Z → in_int64 (now - cursorTime s) →
  tracks obs (advanceLocked s now) ∧
  (cursorTime s ≤ cursorTime (advanceLocked s now) ≤ now ∧ now < cursorTime (advanceLocked s now) + bucketDur)%Z.
Proof.
  intros Ht Hle Hin. unfold advanceLocked. rewrite (time_sub_exact _ _ Hin).
  destruct (Z.leb_spec bucketDur 0); [lia|]. simpl.
  destruct (Z.ltb_spec (now - cursorTime s) bucketDur) as [Hlt|Hge]; [split; [done|lia]|].
  pose proof (Z.div_mod (now - cursorTime s) bucketDur ltac:(lia)) as D.
  pose proof (Z.mod_pos_bound (now - cursorTime s) bucketDur Hd) as B.
  set (k := ((now - cursorTime s) / bucketDur)%Z) in *.
  assert (0 ≤ k)%Z by (apply Z.div_pos; lia).
  destruct (Z.leb_spec (WindowBuckets cfg) k).
  - split; [apply reset_tracks; [done|nia]|simpl; lia].
  - pose proof (roll_tracks obs s (Z.to_nat k) Ht) as Hr. rewrite Z2Nat.id in Hr by lia.
    destruct (roll (Z.to_nat k) (buckets s) (cursor s)) as [bs cur].
    split; [apply Hr; unfold n_buckets; lia|]. simpl. nia.
Qed.

Lemma count_in_tracks obs s now ok :
  tracks obs s → (cursorTime s ≤ now < cursorTime s + bucketDur)%Z → tracks (obs ++ [(now, ok)]) (count_in ok s).
Proof.
  intros [Hl Hc Ho Hs] Hnow. pose proof n_pos as Hp. split; simpl; [by rewrite length_alter|done| |].
  - intros o [Hin| ->%list_elem_of_singleton]%elem_of_app; [by apply Ho|simpl; lia].
  - assert (Hage : age (cursorTime s) now = 0%Z) by (unfold age; rewrite Z.div_small by lia; done).
    apply list_eq. intros j. destruct (decide (j < n_buckets)) as [Hj|Hj].
    2:{ rewrite !lookup_ge_None_2; [done|unfold slots; rewrite length_fmap, length_seq; lia|rewrite recent_length; lia]. }
    rewrite recent_lookup, slots_lookup, tally_snoc by done. cbn [fst]. rewrite Hage.
    assert (Hold : default empty_bucket (buckets s !! ((cursor s + n_buckets - j) mod n_buckets)%nat)
                   = tally (λ o, (age (cursorTime s) o.1 =? Z.of_nat j)%Z) obs).
    { pose proof (recent_lookup (buckets s) (cursor s) j Hj) as E. rewrite Hs, slots_lookup in E by done.
      by injection E as E. }
    destruct j as [|j].
    + simpl. rewrite Nat.sub_0_r in *. replace ((cursor s + n_buckets) mod n_buckets)%nat with (cursor s) in *
        by (replace (cursor s + n_buckets)%nat with (cursor s + 1 * n_buckets)%nat by lia;
            by rewrite Nat.Div0.mod_add, Nat.mod_small).
      rewrite list_lookup_alter_eq. destruct (lookup_lt_is_Some_2 (buckets s) (cursor s)) as [b Hb]; [lia|].
      rewrite Hb in *. simpl in *. by rewrite Hold.
    + rewrite (proj2 (Z.eqb_neq 0 (Z.of_nat (S j)))) by lia. rewrite <- Hold.
      rewrite list_lookup_alter_ne; [done|]. intros E.
      assert (E' : ((cursor s + n_buckets - 0) mod n_buckets = (cursor s + n_buckets - S j) mod n_buckets)%nat).
      { rewrite <- E, Nat.sub_0_r. replace (cursor s + n_buckets)%nat with (cursor s + 1 * n_buckets)%nat by lia.
        by rewrite Nat.Div0.mod_add, Nat.mod_small. }
      apply index_inj in E'; lia.
Qed.

(** ** Theorems of the window *)

Definition run_obs (obs : list (Time * bool)) : option autoPauseState :=
  foldl (λ s o, Some (note o.1 o.2 s)) None obs.

(** Readings of a clock that does not go back, within the range of a duration. *)
Definition timely : list (Time * bool) → Prop :=
  StronglySorted (λ a b, (a.1 ≤ b.1)%Z ∧ in_int64 (b.1 - a.1)).

(** The failures since the last success, the list taken from its end. *)
Fixpoint streak (l : list (Time * bool)) : Z :=
  match l with (_, false) :: r => (1 + streak r)%Z | _ => 0%Z end.

Lemma advance_failures s now : consecutiveFailures (advanceLocked s now) = consecutiveFailures s.
Proof.
  unfold advanceLocked. destruct (_ || _); [done|]. destruct (_ <=? _)%Z; [done|]. by destruct (roll _ _ _).
Qed.

Lemma run_tracks obs now ok :
  timely (obs ++ [(now, ok)]) →
  ∃ s, run_obs (obs ++ [(now, ok)]) = Some s ∧ tracks (obs ++ [(now, ok)]) s ∧
    (cursorTime s ≤ now < cursorTime s + bucketDur)%Z ∧
    (∃ o, o ∈ obs ++ [(now, ok)] ∧ (o.1 ≤ cursorTime s)%Z) ∧
    consecutiveFailures s = streak (rev (obs ++ [(now, ok)])).
Proof.
  revert now ok. induction obs as [|[t b] obs IH] using rev_ind; intros now ok Ht.
  - destruct (advance_tracks [] (fresh now) now (fresh_tracks now)) as [Htr Hb];
      [done|unfold in_int64, int64_min, int64_max; simpl; lia|].
    exists (count_in ok (advanceLocked (fresh now) now)). cbn [cursorTime count_in].
    split; [done|]. split_and!; [apply (count_in_tracks []); [done|lia]|lia..| |].
    + exists (now, ok). simpl. split; [by left|]. simpl in Hb. lia.
    + simpl. rewrite advance_failures. by destruct ok.
  - apply StronglySorted_app in Ht as (H12 & Ht & _). destruct (IH t b Ht) as (s & Hr & Htr & Hb & (o & Ho & Hle) & Hf).
    destruct (H12 (t, b) (now, ok)) as [Hmono _]; [set_solver|by left|].
    destruct (H12 o (now, ok)) as [_ Hspan]; [done|by left|]. simpl in *.
    destruct (advance_tracks _ s now Htr) as [Htr' Hb']; [lia|unfold in_int64, int64_min in *; lia|].
    unfold run_obs. rewrite foldl_app. fold (run_obs (obs ++ [(t, b)])). rewrite Hr. simpl.
    exists (count_in ok (advanceLocked s now)). cbn [cursorTime count_in].
    split; [done|]. split_and!; [apply count_in_tracks; [done|lia]|lia..| |].
    + exists o. split; [set_solver|]. simpl. lia.
    + simpl. rewrite advance_failures, Hf, (rev_app_distr (obs ++ [(t, b)])). simpl. destruct ok; lia.
Qed.

(** On a clock that does not go back, the detector counts exactly the attempts and
    the failures since the start of its oldest bucket: all of the last
    (buckets - 1) intervals and none that is [buckets] intervals old; and the run
    length it keeps is the number of failures since the last success. *)
Theorem window_counts_recent obs now ok :
  timely (obs ++ [(now, ok)]) →
  ∃ s lo, run_obs (obs ++ [(now, ok)]) = Some s ∧
    (now - WindowBuckets cfg * bucketDur < lo ≤ now - (WindowBuckets cfg - 1) * bucketDur)%Z ∧
    windowTotalsLocked s =
      (Z.of_nat (length (List.filter (λ o, (lo <=? o.1)%Z) (obs ++ [(now, ok)]))),
       Z.of_nat (length (List.filter (λ o, (lo <=? o.1)%Z && negb o.2) (obs ++ [(now, ok)])))) ∧
    consecutiveFailures s = streak (rev (obs ++ [(now, ok)])).
Proof.
  intros Ht. destruct (run_tracks obs now ok Ht) as (s & Hr & Htr & Hb & _ & Hf).
  exists s, (cursorTime s - (WindowBuckets cfg - 1) * bucketDur)%Z. split; [done|]. split; [lia|]. split; [|done].
  rewrite (totals_sum s (tr_len _ _ Htr)), (tr_slots _ _ Htr). unfold slots. rewrite sum_tally.
  set (l := obs ++ [(now, ok)]) in *.
  assert (E : tally (λ o, (0 <=? age (cursorTime s) o.1)%Z && (age (cursorTime s) o.1 <? Z.of_nat n_buckets)%Z) l
            = tally (λ o, (cursorTime s - (WindowBuckets cfg - 1) * bucketDur <=? o.1)%Z) l).
  { apply tally_ext. intros o Ho. pose proof (age_nonneg _ _ (tr_old _ _ Htr o Ho)) as H0.
    rewrite (proj2 (Z.leb_le _ _) H0). simpl. unfold n_buckets. rewrite Z2Nat.id by lia. unfold age in *.
    pose proof (Z.div_mod (o.1 - cursorTime s) bucketDur ltac:(lia)) as D.
    pose proof (Z.mod_pos_bound (o.1 - cursorTime s) bucketDur Hd) as B.
    set (q := ((o.1 - cursorTime s) / bucketDur)%Z) in *.
    destruct (Z.ltb_spec (- q) (WindowBuckets cfg)),
      (Z.leb_spec (cursorTime s - (WindowBuckets cfg - 1) * bucketDur) o.1); try done; exfalso; nia. }
  rewrite E. done.
Qed.
End Detector.

(** ** The pausing protocol *)

Section Protocol.
Context (cfg : SourceAutoPauseConfig).

(** What a caller of [Record] is doing after it claimed the pause. *)
Inductive phase := Pausing | Auditing.

(** One source: its state, the callers between the critical sections, and the pauses
    that were committed. *)
Record Sys := { st : option autoPauseState; callers : gmap nat phase; committed : list Time }.

Inductive action :=
| Observe (caller : nat) (now : Time) (ok : bool)
| PauseReply (caller : nat) (ok : bool)
| AuditReply (caller : nat) (ok : bool) (now : Time).

Definition release (s : Sys) (i : nat) : Sys :=
  {| st := set_pending false <$> st s; callers := delete i (callers s); committed := committed s |}.

Definition act (s : Sys) (a : action) : option Sys :=
  match a with
  | Observe i now ok =>
      match callers s !! i with
      | Some _ => None
      | None =>
          let '(st', go) := observe cfg now ok (st s) in
          Some {| st := Some st'; callers := if go then <[i := Pausing]> (callers s) else callers s;
                  committed := committed s |}
      end
  | PauseReply i ok =>
      match callers s !! i with
      | Some Pausing =>
          Some (if ok then {| st := st s; callers := <[i := Auditing]> (callers s); committed := committed s |}
                else release s i)
      | _ => None
      end
  | AuditReply i ok now =>
      match callers s !! i with
      | Some Auditing =>
          Some (if ok then {| st := commit_pause now <$> st s; callers := delete i (callers s);
                              committed := committed s ++ [now] |}
                else release s i)
      | _ => None
      end
  end.

Definition start : Sys := {| st := None; callers := ∅; committed := [] |}.
Definition step (s s' : Sys) : Prop := ∃ a, act s a = Some s'.

Definition pending (s : Sys) : bool := match st s with Some x => pendingPause x | None => false end.

(** The flag is up exactly while one caller is pausing; the state remembers the last
    committed pause. *)
Definition exclusive (s : Sys) : Prop :=
  (if pending s then ∃ i p, callers s = {[i := p]} else callers s = ∅) ∧
  (∀ x, st s = Some x → lastPaused x = default 0%Z (last (committed s))) ∧
  (st s = None → committed s = []).

Lemma note_fields now ok o :
  pendingPause (note cfg now ok o) = (match o with Some x => pendingPause x | None => false end) ∧
  lastPaused (note cfg now ok o) = (match o with Some x => lastPaused x | None => 0%Z end).
Proof.
  unfold note, count_in. simpl. unfold advanceLocked.
  destruct (_ || _); [by destruct o|]. destruct (_ <=? _)%Z; [by destruct o|].
  destruct (roll _ _ _). by destruct o.
Qed.

Lemma exclusive_step s s' : exclusive s → step s s' → exclusive s'.
Proof.
  intros (Hp & Hl & Hn) [a Ha]. destruct a as [i now ok|i ok|i ok now]; simpl in Ha;
    destruct (callers s !! i) as [p|] eqn:Hi; try done.
  - unfold observe in Ha. pose proof (note_fields now ok (st s)) as [Hpn Hln].
    assert (Hlast : lastPaused (note cfg now ok (st s)) = default 0%Z (last (committed s))).
    { rewrite Hln. destruct (st s) as [x|]; [by apply Hl|]. by rewrite (Hn eq_refl). }
    destruct (shouldPause cfg now (note cfg now ok (st s))) eqn:Hgo; injection Ha as <-;
      unfold exclusive, pending; cbn [st callers committed pendingPause set_pending lastPaused].
    + assert (Hup : pending s = false).
      { unfold shouldPause in Hgo. rewrite !andb_true_iff, negb_true_iff in Hgo. destruct Hgo as [_ Hgo].
        unfold pending. by rewrite <- Hpn. }
      rewrite Hup in Hp. rewrite Hp. split; [exists i, Pausing; apply insert_empty|]. split; [|done]. by intros x [= <-].
    + rewrite Hpn. fold (pending s). split; [done|]. split; [|done]. by intros x [= <-].
  - destruct p; [|done]. injection Ha as <-. destruct (pending s) eqn:Hup; [|by rewrite Hp, lookup_empty in Hi].
    destruct Hp as (j & q & Hc). rewrite Hc in Hi. apply lookup_singleton_Some in Hi as [-> ->].
    destruct ok; unfold exclusive, pending in *; simpl.
    + rewrite Hup. split; [|done]. exists i, Auditing. rewrite Hc. apply insert_singleton_eq.
    + rewrite Hc, delete_singleton_eq. destruct (st s) as [x|] eqn:Hs; simpl; [|done].
      split; [done|]. split; [|done]. intros y [= <-]. exact (Hl x eq_refl).
  - destruct p; [done|]. injection Ha as <-. destruct (pending s) eqn:Hup; [|by rewrite Hp, lookup_empty in Hi].
    destruct Hp as (j & q & Hc). rewrite Hc in Hi. apply lookup_singleton_Some in Hi as [-> ->].
    unfold pending in Hup. destruct (st s) as [x|] eqn:Hs; [|done].
    destruct ok; unfold exclusive, pending; simpl; rewrite ?Hs, Hc, delete_singleton_eq; simpl.
    + split; [done|]. split; [|done]. intros y [= <-]. simpl. by rewrite last_snoc.
    + split; [done|]. split; [|done]. intros y [= <-]. exact (Hl x eq_refl).
Qed.

Lemma reachable_exclusive s : rtc step start s → exclusive s.
Proof.
  apply rtc_preserves; [intros x y Hx Hy; by eapply exclusive_step|]. by split; [|split].
Qed.

(** However calls of [Record] for one source interleave and whatever fails, at most
    one of them is pausing the source; and a call starts to pause only on a breach of
    a threshold, when no other is at it and the cooldown since the last committed
    pause is over. *)
Theorem pause_is_exclusive s i now ok s' :
  rtc step start s → act s (Observe i now ok) = Some s' → callers s' ≠ callers s →
  callers s = ∅ ∧ callers s' = {[i := Pausing]} ∧
  (rateBreach cfg (note cfg now ok (st s)) = true ∨ consecBreach cfg (note cfg now ok (st s)) = true) ∧
  match last (committed s) with
  | Some t => t = 0%Z ∨ (PauseCooldown cfg ≤ time_sub now t)%Z
  | None => True
  end.
Proof.
  intros Hr Ha Hne. pose proof (reachable_exclusive s Hr) as (Hp & Hl & Hn). simpl in Ha.
  destruct (callers s !! i) eqn:Hi; [done|]. unfold observe in Ha.
  destruct (shouldPause cfg now (note cfg now ok (st s))) eqn:Hgo; injection Ha as <-; [|done]. simpl in *.
  pose proof (note_fields now ok (st s)) as [Hpn Hln].
  unfold shouldPause in Hgo. rewrite !andb_true_iff, negb_true_iff, orb_true_iff in Hgo.
  destruct Hgo as [[Hb Hc] Hq]. unfold pending in Hp. rewrite <- Hpn, Hq in Hp. rewrite Hp.
  split_and!; [done|apply insert_empty|done|]. unfold cooled in Hc. rewrite Hln in Hc.
  destruct (st s) as [x|]; [|by rewrite (Hn eq_refl)]. rewrite (Hl x eq_refl) in Hc.
  destruct (last (committed s)) as [t|]; [|done]. simpl in Hc.
  apply orb_true_iff in Hc as [Hz%Z.eqb_eq|Hc%Z.leb_le]; [by left|by right].
Qed.
End Protocol.

(** ** Samples *)

Definition sample_cfg : SourceAutoPauseConfig :=
  NewSourceAutoPauser {| WindowDuration := 0; WindowBuckets := 0; ErrorRateThreshold := f_zero; MinSampleSize := 2;
                         PauseCooldown := 0; ConsecutiveFailureThreshold := 3 |}.

(** Minute 3 of year one, then 9 and 12 minutes later: the first attempt has left the
    window of ten minutes. *)
Definition sample_obs : list (Time * bool) := [(3 * minute, false); (12 * minute, false)]%Z.

Lemma window_counts_recent_witness :
  ∃ s lo, run_obs sample_cfg (sample_obs ++ [(15 * minute, true)%Z]) = Some s ∧
    (5 * minute < lo ≤ 6 * minute)%Z ∧ consecutiveFailures s = 0%Z.
Proof.
  destruct (window_counts_recent sample_cfg ltac:(done) ltac:(done) sample_obs (15 * minute) true) as (s & lo & H1 & H2 & _ & H4).
  - repeat constructor; vm_compute; discriminate.
  - exists s, lo. split; [exact H1|]. split; [|exact H4].
    change (WindowBuckets sample_cfg) with 10%Z in H2. change (bucketDur sample_cfg) with minute in H2. lia.
Defined.

Example sample_window :
  (windowTotalsLocked <$> run_obs sample_cfg (sample_obs ++ [(15 * minute, true)%Z])) = Some (2, 1)%Z.
Proof. vm_compute. reflexivity. Qed.

(** Two failures in a row breach the rate; the second caller claims the pause. *)
Definition one_failure : Sys := default start (act sample_cfg start (Observe 1 minute false)).
Definition two_failures : Sys := default start (act sample_cfg one_failure (Observe 2 (2 * minute) false)).

Lemma pause_is_exclusive_witness : callers two_failures = {[2 := Pausing]}.
Proof.
  refine (proj1 (proj2 (pause_is_exclusive sample_cfg one_failure 2 (2 * minute) false two_failures _ _ _))).
  - apply rtc_once. exists (Observe 1 minute false). vm_compute. reflexivity.
  - vm_compute. reflexivity.
  - intros E. vm_compute in E. discriminate E.
Defined.

(** A window shorter than a nanosecond per bucket never moves: the counts are kept
    forever. *)
Example tiny_window_never_moves :
  let cfg := NewSourceAutoPauser {| WindowDuration := 5; WindowBuckets := 10; ErrorRateThreshold := f_zero;
               MinSampleSize := 2; PauseCooldown := 0; ConsecutiveFailureThreshold := 0 |} in
  (windowTotalsLocked <$> run_obs cfg [(0, false); (hour, true)]%Z) = Some (2, 1)%Z.
Proof. vm_compute. reflexivity. Qed.
End AutoPause.
