(* ===== verification/Simulator.v ===== *)
(** * The policy simulator (policy/simulator.go, policy/simulator_diff.go)

    The what-if run of a draft against the live policy, the per-chunk diff and the
    per-tier data flow with its summary. The resolver, the retrieval pipeline and the
    order in which [sort.Slice] leaves equal elements are parameters. *)

From S2P Require Import Prelude GoFloat GoString Acl.

Module Simulator.
Import Snapshot.

Record SimRetrieveRequest := {
  s_TenantID : string; s_ChannelID : string; s_UserID : string; s_SkillID : string; s_Query : string; s_TopK : Z
}.

Record WhatIfRequest := { inner : SimRetrieveRequest; DraftPolicy : PolicySnapshot }.

Section Simulator.
Context {Meta : Type}.

Record RetrieveHit := {
  ID : string;
  Score : float;
  TenantID : string;
  SourceID : string;
  NamespaceID : string;
  DocumentID : string;
  BlockID : string;
  Title : string;
  URI : string;
  Path : string;
  PrivacyLabel : string;
  Connector : string;
  Sources : list string;
  Metadata : Meta
}.

Record HitDiff := {
  d_ID : string;
  LiveScore : float;
  DraftScore : float;
  LivePrivacyLabel : string;
  DraftPrivacyLabel : string
}.

Record WhatIfResult := {
  LiveResults : list RetrieveHit;
  DraftResults : list RetrieveHit;
  Added : list RetrieveHit;
  Removed : list RetrieveHit;
  Changed : list HitDiff
}.

Context (sort_hits : list RetrieveHit → list RetrieveHit) (sort_diffs : list HitDiff → list HitDiff).

(** ** The diff *)

(** [m[h.ID] = h] over the slice: the last hit with an id stays. *)
Definition by_id (l : list RetrieveHit) : gmap string RetrieveHit :=
  foldl (λ m h, <[ID h := h]> m) ∅ l.

Definition differs (lh h : RetrieveHit) : bool :=
  f_neqb (Score lh) (Score h) || negb (str_eqb (PrivacyLabel lh) (PrivacyLabel h)).

Definition hit_diff (lh h : RetrieveHit) : HitDiff :=
  {| d_ID := ID h; LiveScore := Score lh; DraftScore := Score h;
     LivePrivacyLabel := PrivacyLabel lh; DraftPrivacyLabel := PrivacyLabel h |}.

Definition missing_in (m : gmap string RetrieveHit) (h : RetrieveHit) : bool :=
  match m !! ID h with Some _ => false | None => true end.

Definition change_of (m : gmap string RetrieveHit) (h : RetrieveHit) : option HitDiff :=
  match m !! ID h with
  | Some lh => if differs lh h then Some (hit_diff lh h) else None
  | None => None
  end.

Definition diffHits (live draft : list RetrieveHit) : list RetrieveHit * list RetrieveHit * list HitDiff :=
  (sort_hits (List.filter (missing_in (by_id live)) draft),
   sort_hits (List.filter (missing_in (by_id draft)) live),
   sort_diffs (omap (change_of (by_id live)) draft)).

(** ** The runs *)

Context (Resolve : string → string → result PolicySnapshot string).
Context (Retriever : SimRetrieveRequest → PolicySnapshot → result (list RetrieveHit) string).

Definition wrap {A} (op : string) (r : result A string) : result A string :=
  match r with Ok a => Ok a | Err e => Err (str_app op e) end.

(** The two retrievals both reports start from. *)
Definition both_runs (name : string) (req : WhatIfRequest) : result (list RetrieveHit * list RetrieveHit) string :=
  let r := inner req in
  if str_empty (s_TenantID r) then Err (str_app "policy: " (str_app name " requires TenantID"))
  else if str_empty (s_Query r) then Err (str_app "policy: " (str_app name " requires Query"))
  else
    let! live := wrap "policy: resolve live snapshot: " (Resolve (s_TenantID r) (s_ChannelID r)) in
    let! liveHits := wrap "policy: live retrieval: " (Retriever r live) in
    let! draftHits := wrap "policy: draft retrieval: " (Retriever r (DraftPolicy req)) in
    Ok (liveHits, draftHits).

Definition WhatIf (req : WhatIfRequest) : result WhatIfResult string :=
  let! runs := both_runs "WhatIf" req in
  let '(liveHits, draftHits) := runs in
  let '(added, removed, changed) := diffHits liveHits draftHits in
  Ok {| LiveResults := liveHits; DraftResults := draftHits; Added := added; Removed := removed; Changed := changed |}.

(** ** Data flow *)

Record DataFlowDiff := {
  Live : gmap string Z;
  Draft : gmap string Z;
  Delta : gmap string Z;
  LiveTotal : Z;
  DraftTotal : Z;
  Summary : string
}.

Definition normalizeTier (label : string) : string := if str_empty label then "unknown" else label.

Definition tier_of (h : RetrieveHit) : string := normalizeTier (PrivacyLabel h).

(** [m[k]++]. *)
Definition increment (k : string) (m : gmap string Z) : gmap string Z :=
  <[k := (default 0 (m !! k) + 1)%Z]> m.

Definition count_tiers (l : list RetrieveHit) : gmap string Z := foldl (λ m h, increment (tier_of h) m) ∅ l.

Definition count_at (m : gmap string Z) (k : string) : Z := default 0%Z (m !! k).

Definition deltas (live draft : gmap string Z) : gmap string Z :=
  set_to_map (λ k, (k, (count_at draft k - count_at live k)%Z)) (dom live ∪ dom draft).

Definition percentChange (live draft : Z) : option Z :=
  if (live =? 0)%Z then None else Some (Z.abs (draft - live) * 100 / live)%Z.

(** Larger changes first, then tiers whose percentage can be computed, then by name. *)
Definition entry_less (live : gmap string Z) (a b : string * Z) : bool :=
  if (Z.abs a.2 =? Z.abs b.2)%Z
  then if Bool.eqb (0 <? count_at live a.1)%Z (0 <? count_at live b.1)%Z
       then str_ltb a.1 b.1
       else (0 <? count_at live a.1)%Z && negb (0 <? count_at live b.1)%Z
  else (Z.abs b.2 <? Z.abs a.2)%Z.

Definition str_of_Z (z : Z) : string := str_of_nat (Z.to_nat z).

(** [quote] is the verb [%q]. *)
Definition summary_text (quote : string → string) (live draft : gmap string Z) (top : string * Z) : string :=
  let direction := if (top.2 <? 0)%Z then "fewer"%string else "more"%string in
  let amount := match percentChange (count_at live top.1) (count_at draft top.1) with
                | Some p => str_app (str_of_Z p) "%"
                | None => str_of_Z (Z.abs top.2)
                end in
  str_app "draft routes " (str_app amount (str_app " " (str_app direction
    (str_app " matches through " (quote top.1))))).

Definition entries (delta : gmap string Z) : list (string * Z) :=
  List.filter (λ e, negb (e.2 =? 0)%Z) (map_to_list delta).

(** The order of the entries does not depend on the iteration over the map, since the
    tiers are distinct. *)
Definition summarizeDataFlow (quote : string → string) (live draft delta : gmap string Z) (liveTotal draftTotal : Z) : string :=
  match sort_by (entry_less live) (entries delta) with
  | [] => EmptyString
  | top :: _ =>
      if (Z.abs top.2 <=? 1)%Z && (1 <? liveTotal + draftTotal)%Z then EmptyString
      else summary_text quote live draft top
  end.

Definition BuildDataFlowDiff (quote : string → string) (live draft : list RetrieveHit) : DataFlowDiff :=
  let l := count_tiers live in
  let d := count_tiers draft in
  let delta := deltas l d in
  let lt := Z.of_nat (length live) in
  let dt := Z.of_nat (length draft) in
  {| Live := l; Draft := d; Delta := delta; LiveTotal := lt; DraftTotal := dt;
     Summary := summarizeDataFlow quote l d delta lt dt |}.

Definition SimulateDataFlow (quote : string → string) (req : WhatIfRequest) : result DataFlowDiff string :=
  let! runs := both_runs "SimulateDataFlow" req in
  Ok (BuildDataFlowDiff quote runs.1 runs.2).

(** ** The diff is exact *)

Definition id_less (a b : RetrieveHit) : bool := str_ltb (ID a) (ID b).
Definition diff_less (a b : HitDiff) : bool := str_ltb (d_ID a) (d_ID b).
Hypothesis sort_hits_sorted : ∀ l, slice_sorted id_less l (sort_hits l).
Hypothesis sort_diffs_sorted : ∀ l, slice_sorted diff_less l (sort_diffs l).

Lemma by_id_snoc l h : by_id (l ++ [h]) = <[ID h := h]> (by_id l).
Proof. unfold by_id. by rewrite foldl_app. Qed.

Lemma by_id_spec l k :
  match by_id l !! k with Some h => h ∈ l ∧ ID h = k | None => k ∉ ID <$> l end.
Proof.
  induction l as [|h l IH] using rev_ind.
  { unfold by_id. simpl. rewrite lookup_empty. apply not_elem_of_nil. }
  rewrite by_id_snoc, lookup_insert. case_decide as E.
  - split; [set_solver|done].
  - destruct (by_id l !! k) as [x|]; [set_solver|]. rewrite fmap_app, not_elem_of_app. split; [done|].
    simpl. set_solver.
Qed.

Lemma by_id_unique l h : NoDup (ID <$> l) → h ∈ l → by_id l !! ID h = Some h.
Proof.
  intros Hd Hh. pose proof (by_id_spec l (ID h)) as Hs.
  destruct (by_id l !! ID h) as [x|]; [|destruct Hs; by apply list_elem_of_fmap_2].
  destruct Hs as [Hx E]. f_equal.
  apply list_elem_of_lookup in Hx as [i Hi]. apply list_elem_of_lookup in Hh as [j Hj].
  assert (i = j) as ->; [|congruence].
  apply (NoDup_lookup _ i j (ID h) Hd); rewrite list_lookup_fmap, ?Hi, ?Hj; [by rewrite <- E|done].
Qed.

Lemma missing_spec l h : missing_in (by_id l) h = true ↔ ID h ∉ ID <$> l.
Proof.
  unfold missing_in. pose proof (by_id_spec l (ID h)) as Hs. destruct (by_id l !! ID h) as [x|]; [|done].
  destruct Hs as [Hx E]. split; [done|]. intros []. rewrite <- E. by apply list_elem_of_fmap_2.
Qed.

Lemma elem_of_sort_hits l h : h ∈ sort_hits l ↔ h ∈ l.
Proof. destruct (sort_hits_sorted l) as [Hp _]. by rewrite Hp. Qed.

(** For results without repeated ids, the what-if report lists as added exactly the
    draft hits the live policy does not return, as removed exactly the live hits the
    draft does not return, and as changed exactly the chunks both return with another
    score or label; so the draft's ids are the live ids without the removed and with
    the added ones. *)
Theorem WhatIf_exact req r :
  WhatIf req = Ok r → NoDup (ID <$> LiveResults r) → NoDup (ID <$> DraftResults r) →
  (∀ h, h ∈ Added r ↔ h ∈ DraftResults r ∧ ID h ∉ ID <$> LiveResults r) ∧
  (∀ h, h ∈ Removed r ↔ h ∈ LiveResults r ∧ ID h ∉ ID <$> DraftResults r) ∧
  (∀ d, d ∈ Changed r ↔ ∃ lh h, lh ∈ LiveResults r ∧ h ∈ DraftResults r ∧ ID lh = ID h ∧
                          differs lh h = true ∧ d = hit_diff lh h) ∧
  (list_to_set (ID <$> DraftResults r) : gset string)
    = (list_to_set (ID <$> LiveResults r) ∖ list_to_set (ID <$> Removed r)) ∪ list_to_set (ID <$> Added r).
Proof.
  unfold WhatIf. intros (runs & _ & Hr)%result_bind_Ok. destruct runs as [live draft]. unfold diffHits in Hr. injection Hr as <-. simpl.
  intros Hdl Hdd.
  assert (Ha : ∀ h, h ∈ sort_hits (List.filter (missing_in (by_id live)) draft) ↔ h ∈ draft ∧ ID h ∉ ID <$> live).
  { intros h. rewrite elem_of_sort_hits, elem_of_filterb, missing_spec. tauto. }
  assert (Hm : ∀ h, h ∈ sort_hits (List.filter (missing_in (by_id draft)) live) ↔ h ∈ live ∧ ID h ∉ ID <$> draft).
  { intros h. rewrite elem_of_sort_hits, elem_of_filterb, missing_spec. tauto. }
  split_and!; [done|done| |].
  - intros d. destruct (sort_diffs_sorted (omap (change_of (by_id live)) draft)) as [Hp _].
    rewrite Hp, list_elem_of_omap. unfold change_of. split.
    + intros (h & Hh & Hc). pose proof (by_id_spec live (ID h)) as Hs. destruct (by_id live !! ID h) as [lh|]; [|done].
      destruct (differs lh h) eqn:Hdf; [|done]. injection Hc as <-. destruct Hs as [Hl E]. by exists lh, h.
    + intros (lh & h & Hl & Hh & E & Hdf & ->). exists h. split; [done|].
      rewrite <- E, (by_id_unique live lh Hdl Hl), Hdf. done.
  - apply set_eq. intros k. rewrite elem_of_union, elem_of_difference, !elem_of_list_to_set, !list_elem_of_fmap.
    setoid_rewrite Ha. setoid_rewrite Hm. split.
    + intros (h & -> & Hh). destruct (decide (ID h ∈ ID <$> live)) as [Hl|Hl]; [left|right; by exists h].
      split; [by apply list_elem_of_fmap in Hl|]. intros (x & E & _ & Hx). destruct Hx. rewrite <- E. by apply list_elem_of_fmap_2.
    + intros [[(x & -> & Hx) Hn]|(h & -> & Hh & _)]; [|by exists h].
      destruct (decide (ID x ∈ ID <$> draft)) as [Hd|Hd]; [by apply list_elem_of_fmap in Hd|].
      destruct Hn. by exists x.
Qed.

(** A draft equal to the live policy shows no difference. *)
Theorem WhatIf_noop req r live :
  Resolve (s_TenantID (inner req)) (s_ChannelID (inner req)) = Ok live → DraftPolicy req = live →
  WhatIf req = Ok r → NoDup (ID <$> LiveResults r) → (∀ h, h ∈ LiveResults r → f_is_nan (Score h) = false) →
  Added r = [] ∧ Removed r = [] ∧ Changed r = [].
Proof.
  intros Hres Hd Hw Hnd Hnan. unfold WhatIf, both_runs in Hw. rewrite Hd, Hres in Hw.
  destruct (str_empty (s_TenantID (inner req))); [done|]. destruct (str_empty (s_Query (inner req))); [done|].
  simpl in Hw. destruct (Retriever (inner req) live) as [hits|e]; [|done]. simpl in Hw.
  unfold diffHits in Hw. injection Hw as <-. simpl in *.
  assert (Hf : List.filter (missing_in (by_id hits)) hits = []).
  { apply elem_of_nil_inv. intros h. rewrite elem_of_filterb, missing_spec. intros [Hn Hh].
    destruct Hn. by apply list_elem_of_fmap_2. }
  assert (Hs : sort_hits [] = []) by (destruct (sort_hits_sorted []) as [Hp _]; by apply Permutation_nil_r in Hp).
  rewrite Hf, Hs. split_and!; [done..|].
  assert (Ho : omap (change_of (by_id hits)) hits = []).
  { apply elem_of_nil_inv. intros d. rewrite list_elem_of_omap. intros (h & Hh & Hc). unfold change_of in Hc.
    rewrite (by_id_unique hits h Hnd Hh) in Hc. unfold differs, f_neqb in Hc.
    rewrite str_eqb_refl in Hc. simpl in Hc. rewrite orb_false_r in Hc.
    assert (E : SFeqb (Score h) (Score h) = true).
    { apply (f_eqb_refl (Score h) (Score h) (Score h)); by apply Hnan. }
    by rewrite E in Hc. }
  rewrite Ho. destruct (sort_diffs_sorted []) as [Hp _]. by apply Permutation_nil_r in Hp.
Qed.

(** ** The data flow adds up *)

Definition tally (k : string) (l : list RetrieveHit) : Z :=
  Z.of_nat (length (List.filter (λ h, str_eqb (tier_of h) k) l)).

Lemma count_tiers_spec l k : count_at (count_tiers l) k = tally k l ∧ (k ∈ dom (count_tiers l) ↔ k ∈ tier_of <$> l).
Proof.
  unfold count_tiers, tally. induction l as [|h l [IH IHd]] using rev_ind; [set_solver|].
  rewrite foldl_app, List.filter_app, fmap_app. simpl. unfold increment, count_at in *.
  rewrite dom_insert_L, lookup_insert. destruct (str_eqb (tier_of h) k) eqn:E.
  - apply str_eqb_eq in E as <-. rewrite decide_True by done. simpl in *. rewrite IH, length_app. simpl.
    split; [lia|]. set_solver.
  - apply str_eqb_neq in E. rewrite decide_False, app_nil_r by done. split; [done|]. set_solver.
Qed.

Lemma deltas_spec live draft k :
  count_at (deltas live draft) k = (count_at draft k - count_at live k)%Z ∧
  dom (deltas live draft) = dom live ∪ dom draft.
Proof.
  assert (Hl : ∀ j v, deltas live draft !! j = Some v ↔
             j ∈ dom live ∪ dom draft ∧ v = (count_at draft j - count_at live j)%Z).
  { intros j v. unfold deltas. rewrite lookup_set_to_map by naive_solver. naive_solver. }
  split.
  - unfold count_at at 1. destruct (deltas live draft !! k) as [v|] eqn:Hk; [by apply Hl in Hk as [_ ->]|].
    assert (Hn : k ∉ dom live ∪ dom draft).
    { intros Hin. assert (E : deltas live draft !! k = Some (count_at draft k - count_at live k)%Z) by by apply Hl.
      congruence. }
    apply not_elem_of_union in Hn as [H1%not_elem_of_dom H2%not_elem_of_dom]. unfold count_at. by rewrite H1, H2.
  - apply set_eq. intros j. rewrite elem_of_dom. split; [by intros [v [? _]%Hl]|].
    intros Hj. eexists. by apply Hl.
Qed.

Definition sum_over (ks : list string) (f : string → Z) : Z := foldr Z.add 0%Z (f <$> ks).

Lemma sum_over_sub ks f g : sum_over ks (λ k, (f k - g k)%Z) = (sum_over ks f - sum_over ks g)%Z.
Proof.
  unfold sum_over. induction ks as [|k ks IH]; [done|]. rewrite !fmap_cons. cbn [foldr]. rewrite IH. lia.
Qed.

Lemma tier_tallies_sum ks l :
  NoDup ks → (∀ h, h ∈ l → tier_of h ∈ ks) → sum_over ks (λ k, tally k l) = Z.of_nat (length l).
Proof.
  intros Hd. induction l as [|h l IH]; intros Hin.
  - unfold sum_over. clear Hd. induction ks as [|k ks IHk]; [done|]. rewrite fmap_cons. cbn [foldr].
    rewrite IHk; [done|]. by intros h Hh%not_elem_of_nil.
  - assert (E : sum_over ks (λ k, tally k (h :: l)) = (sum_over ks (λ k, tally k l) + 1)%Z).
    { assert (Hh : tier_of h ∈ ks) by (apply Hin; by left). clear IH Hin. unfold sum_over.
      induction ks as [|k ks IHk]; [by apply not_elem_of_nil in Hh|]. apply NoDup_cons in Hd as [Hk Hd].
      rewrite !fmap_cons. cbn [foldr]. unfold tally at 1. cbn [List.filter].
      destruct (decide (tier_of h = k)) as [<-|Hne].
      - rewrite str_eqb_refl. cbn [length].
        assert (Eks : (λ k', tally k' (h :: l)) <$> ks = (λ k', tally k' l) <$> ks).
        { apply list_fmap_ext. intros i k' Hk'%list_elem_of_lookup_2. unfold tally. simpl.
          rewrite (proj2 (str_eqb_neq (tier_of h) k')); [done|]. by intros <-. }
        rewrite Eks. unfold tally at 2. lia.
      - rewrite (proj2 (str_eqb_neq (tier_of h) k)) by done. apply elem_of_cons in Hh as [E|Hh]; [done|].
        rewrite IHk by done. unfold tally at 2. lia. }
    rewrite E, IH by set_solver. simpl. lia.
Qed.

(** The data-flow report counts every hit of both runs once in its tier, its deltas
    are the differences of the counts, and they add up to the difference of the
    totals. *)
Theorem BuildDataFlowDiff_balances quote live draft :
  let d := BuildDataFlowDiff quote live draft in
  (∀ k, count_at (Live d) k = tally k live ∧ count_at (Draft d) k = tally k draft ∧
        count_at (Delta d) k = (tally k draft - tally k live)%Z) ∧
  (∀ k, k ∈ dom (Delta d) ↔ k ∈ tier_of <$> (live ++ draft)) ∧
  sum_over (elements (dom (Delta d))) (count_at (Live d)) = LiveTotal d ∧
  sum_over (elements (dom (Delta d))) (count_at (Draft d)) = DraftTotal d ∧
  sum_over (elements (dom (Delta d))) (count_at (Delta d)) = (DraftTotal d - LiveTotal d)%Z.
Proof.
  intros d. subst d. simpl.
  pose proof (λ k, proj1 (count_tiers_spec live k)) as Hl. pose proof (λ k, proj1 (count_tiers_spec draft k)) as Hd.
  pose proof (λ k, proj1 (deltas_spec (count_tiers live) (count_tiers draft) k)) as Hdl.
  pose proof (proj2 (deltas_spec (count_tiers live) (count_tiers draft) "")) as Hdom.
  assert (Hk : ∀ k, k ∈ dom (deltas (count_tiers live) (count_tiers draft)) ↔ k ∈ tier_of <$> (live ++ draft)).
  { intros k. rewrite Hdom, elem_of_union, fmap_app, elem_of_app.
    by rewrite (proj2 (count_tiers_spec live k)), (proj2 (count_tiers_spec draft k)). }
  set (ks := elements (dom (deltas (count_tiers live) (count_tiers draft)))).
  assert (Hsum : ∀ l, (∀ h, h ∈ l → h ∈ live ++ draft) → sum_over ks (count_at (count_tiers l)) = Z.of_nat (length l)).
  { intros l Hsub. rewrite <- (tier_tallies_sum ks l); [|apply NoDup_elements|].
    - unfold sum_over. f_equal. apply list_fmap_ext. intros i k _. apply (proj1 (count_tiers_spec l k)).
    - intros h Hh. apply elem_of_elements, Hk, list_elem_of_fmap_2. by apply Hsub. }
  split_and!; [intros k; by rewrite Hdl, Hl, Hd|done|apply Hsum; set_solver|apply Hsum; set_solver|].
  rewrite <- (Hsum live), <- (Hsum draft), <- sum_over_sub by set_solver.
  unfold sum_over. f_equal. apply list_fmap_ext. intros i k _. apply Hdl.
Qed.

(** ** The summary names the largest shift *)

Lemma abs_weak_order (l : list (string * Z)) : weak_order_on (λ a b, Z.abs b.2 <? Z.abs a.2)%Z l.
Proof. split; [intros a b _ _|intros a b c _ _ _]; rewrite ?Z.ltb_ge, ?Z.ltb_lt; lia. Qed.

Lemma flag_weak_order {A} (f : A → bool) (l : list A) : weak_order_on (λ a b, f a && negb (f b)) l.
Proof. split; [intros a b _ _|intros a b c _ _ _]; destruct (f a), (f b); try destruct (f c); done. Qed.

Lemma entry_weak_order live (l : list (string * Z)) : weak_order_on (entry_less live) l.
Proof.
  apply (lex_weak_order (λ a b, Z.abs a.2 =? Z.abs b.2)%Z (λ a b, Z.abs b.2 <? Z.abs a.2)%Z
           (λ a b, if Bool.eqb (0 <? count_at live a.1)%Z (0 <? count_at live b.1)%Z then str_ltb a.1 b.1
                   else (0 <? count_at live a.1)%Z && negb (0 <? count_at live b.1)%Z)).
  - apply abs_weak_order.
  - intros a b _ _. rewrite Z.eqb_eq, !Z.ltb_ge. lia.
  - apply (lex_weak_order (λ a b, Bool.eqb (0 <? count_at live a.1)%Z (0 <? count_at live b.1)%Z)
             (λ a b, (0 <? count_at live a.1)%Z && negb (0 <? count_at live b.1)%Z) (λ a b, str_ltb a.1 b.1)).
    + apply flag_weak_order.
    + intros a b _ _. destruct (0 <? count_at live a.1)%Z, (0 <? count_at live b.1)%Z; simpl; naive_solver.
    + apply str_key_weak_order.
Qed.

(** A non-empty summary is about a tier whose change is at least as large as every
    other's; an empty one means that no tier changed, or none by more than one chunk. *)
Theorem summary_names_largest quote live draft :
  let d := BuildDataFlowDiff quote live draft in
  (∃ top, Delta d !! top.1 = Some top.2 ∧ top.2 ≠ 0%Z ∧ Summary d = summary_text quote (Live d) (Draft d) top ∧
     ∀ k v, Delta d !! k = Some v → (Z.abs v ≤ Z.abs top.2)%Z)
  ∨ (Summary d = EmptyString ∧ ∀ k v, Delta d !! k = Some v → (Z.abs v ≤ 1)%Z).
Proof.
  intros d. subst d. simpl. unfold summarizeDataFlow. set (delta := deltas _ _).
  assert (Hin : ∀ e, e ∈ sort_by (entry_less (count_tiers live)) (entries delta) ↔ delta !! e.1 = Some e.2 ∧ e.2 ≠ 0%Z).
  { intros [k v]. rewrite elem_of_sort_by. unfold entries. rewrite elem_of_filterb, elem_of_map_to_list, negb_true_iff, Z.eqb_neq.
    simpl. tauto. }
  pose proof (sort_by_sorted _ _ (entry_weak_order (count_tiers live) (entries delta))) as Hs.
  destruct (sort_by (entry_less (count_tiers live)) (entries delta)) as [|top rest] eqn:Es.
  - right. split; [done|]. intros k v Hk. destruct (decide (v = 0%Z)) as [->|Hv]; [done|].
    assert (Hx : (k, v) ∈ ([] : list (string * Z))) by by apply Hin. by apply not_elem_of_nil in Hx.
  - assert (Htop : delta !! top.1 = Some top.2 ∧ top.2 ≠ 0%Z) by (apply Hin; by left).
    assert (Hmax : ∀ k v, delta !! k = Some v → (Z.abs v ≤ Z.abs top.2)%Z).
    { intros k v Hk. destruct (decide (v = 0%Z)) as [->|Hv]; [simpl; lia|].
      assert (Hx : (k, v) ∈ top :: rest) by by apply Hin. apply elem_of_cons in Hx as [<-|Hx]; [done|].
      apply StronglySorted_inv in Hs as [_ Hf]. rewrite Forall_forall in Hf. specialize (Hf _ Hx).
      unfold entry_less in Hf. simpl in Hf. destruct (Z.eqb_spec (Z.abs v) (Z.abs top.2)) as [E|_]; [lia|].
      apply Z.ltb_ge in Hf. lia. }
    destruct ((Z.abs top.2 <=? 1)%Z && (1 <? Z.of_nat (length live) + Z.of_nat (length draft))%Z) eqn:Hc.
    + right. split; [done|]. apply andb_true_iff in Hc as [Hc%Z.leb_le _]. intros k v Hk. specialize (Hmax k v Hk). lia.
    + left. exists top. naive_solver.
Qed.
End Simulator.

(** ** Samples *)

Definition hit (id label : string) (score : Z) : RetrieveHit (Meta := unit) :=
  {| ID := id; Score := f32_of_Z score; TenantID := "t"; SourceID := ""; NamespaceID := ""; DocumentID := "";
     BlockID := ""; Title := ""; URI := ""; Path := ""; PrivacyLabel := label; Connector := ""; Sources := [];
     Metadata := tt |}.

Definition sample_sort : list (RetrieveHit (Meta := unit)) → list RetrieveHit := sort_by id_less.
Definition sample_sort_diffs : list HitDiff → list HitDiff := sort_by diff_less.

Lemma sample_sort_ok l : slice_sorted id_less l (sample_sort l).
Proof. apply sort_by_slice_sorted, str_key_weak_order. Qed.
Lemma sample_sort_diffs_ok l : slice_sorted diff_less l (sample_sort_diffs l).
Proof. apply sort_by_slice_sorted, str_key_weak_order. Qed.

(** A retriever that returns more under a policy whose mode is "remote". *)
Definition sample_retriever (_ : SimRetrieveRequest) (p : PolicySnapshot) : result (list RetrieveHit) string :=
  Ok (if str_eqb (EffectiveMode p) "remote" then [hit "b" "remote" 2; hit "c" "remote" 1]
      else [hit "a" "local-only" 2; hit "b" "local-only" 1]).

Definition sample_request : WhatIfRequest :=
  {| inner := {| s_TenantID := "t"; s_ChannelID := "c"; s_UserID := ""; s_SkillID := ""; s_Query := "q"; s_TopK := 5 |};
     DraftPolicy := {| EffectiveMode := "remote"; ACL := None; ChunkACL := None; Recipient := None;
                       DenyLocalRetrieval := false; NamespacePolicies := ∅ |} |}.

Definition sample_whatif : result WhatIfResult string :=
  WhatIf sample_sort sample_sort_diffs (λ _ _, Ok empty) sample_retriever sample_request.

Example sample_report :
  match sample_whatif with
  | Ok r => (ID <$> Added r, ID <$> Removed r, d_ID <$> Changed r) = (["c"], ["a"], ["b"])%string
  | Err _ => False
  end.
Proof. vm_compute. reflexivity. Qed.

Lemma WhatIf_exact_witness :
  match sample_whatif with
  | Ok r => hit "c" "remote" 1 ∈ Added r ∧ ID (hit "c" "remote" 1) ∉ ID <$> LiveResults r
  | Err _ => False
  end.
Proof.
  destruct sample_whatif as [r|e] eqn:E; [|vm_compute in E; discriminate E].
  assert (Hin : hit "c" "remote" 1 ∈ Added r) by (vm_compute in E; injection E as <-; left).
  split; [exact Hin|].
  refine (proj2 (proj1 (proj1 (@WhatIf_exact unit sample_sort sample_sort_diffs (λ _ _, Ok empty) sample_retriever
    sample_sort_ok sample_sort_diffs_ok sample_request r E _ _) (hit "c" "remote" 1)) Hin));
    vm_compute in E; injection E as <-; apply (bool_decide_unpack (NoDup _)); by vm_compute.
Defined.

(** The percentage is cut, not rounded to the nearest: two thirds are 66%. *)
Example percent_is_cut : percentChange 3 5 = Some 66%Z.
Proof. reflexivity. Qed.
End Simulator.
