(* ===== verification/Backfill.v ===== *)
(** * Backfill and reindex (pipeline/backfill.go, pipeline/reindex.go)

    The two orchestrators that turn one request into one event per document. The
    connector is a parameter; the rate controller and the producer are calls that may
    fail, with or without effect. *)

From Stdlib Require Import Ascii.
From S2P Require Import Prelude GoFloat GoString Effects PipelineTypes ChunkStores.

Module Backfill.

(** The events sent and the counters of the result. *)
Record World := { sent : list IngestEvent; Namespaces : Z; Documents : Z }.

Definition send (e : IngestEvent) (s : World) : World :=
  {| sent := sent s ++ [e]; Namespaces := Namespaces s; Documents := Documents s |}.
Definition count_document (s : World) : World :=
  {| sent := sent s; Namespaces := Namespaces s; Documents := Documents s + 1 |}.
Definition count_namespace (s : World) : World :=
  {| sent := sent s; Namespaces := Namespaces s + 1; Documents := Documents s |}.

Abbreviation M := (Eff World string) (only parsing).

(** A change of the result, which is no call. *)
Definition bump (f : World → World) : M unit := λ w, (Ok tt, {| store := f (store w); calls_made := calls_made w |}).

(** ** The scope filter *)

Definition star : ascii := "*"%char.

(** A scope that ends in a star, without it. *)
Definition prefix_of (scope : string) : option bytes :=
  match rev (to_bytes scope) with
  | c :: r => if Ascii.eqb c star then Some (rev r) else None
  | [] => None
  end.

Definition scope_admits (ns scope : string) : bool :=
  match prefix_of scope with
  | Some p => match strip_prefix p (to_bytes ns) with Some _ => true | None => false end
  | None => str_eqb ns scope
  end.

Definition buildScopeFilter (scopes : list string) (ns : string) : bool :=
  match scopes with [] => true | _ => existsb (scope_admits ns) scopes end.

Record BackfillRequest := { TenantID : string; SourceID : string; has_handle : bool; Scopes : list string }.

(** What an iterator yields, and the error it ends with. *)
Record listing := { docs : list string; ends : option string }.

Section Backfill.
Context `{Outside}.
(** The connector: its namespaces, and a page of a namespace by token. *)
Context (ListNamespaces : result (list string) string).
Context (ListDocuments : string → string → result listing string).
Context (paced : bool).

Definition event_of (req : BackfillRequest) (ns doc : string) : IngestEvent :=
  {| ev_Kind := EventDocumentChanged; ev_TenantID := TenantID req; ev_SourceID := SourceID req;
     ev_DocumentID := doc; ev_NamespaceID := ns; ev_FetchURL := ""; ev_Title := ""; ev_MIMEType := "";
     ev_ContentType := ""; ev_PrivacyLabel := ""; ev_PreviousHash := ""; ev_Metadata := ∅; ev_Force := false;
     ev_InlineContent := ""; ev_SyncMode := SyncModeBackfill; ev_RequestID := "" |}.

Definition wait : M unit := if paced then ewrite "rate: wait" (λ s, s) else eret tt.

Fixpoint drain (req : BackfillRequest) (ns : string) (ds : list string) : M unit :=
  match ds with
  | [] => eret tt
  | d :: rest =>
      let@ _ := wait in
      let@ _ := ewrite "backfill: emit" (send (event_of req ns d)) in
      let@ _ := bump count_document in
      drain req ns rest
  end.

(** The iterator has no token for a next page. *)
Definition drainIterator (req : BackfillRequest) (ns : string) (it : listing) : M (bool * string) :=
  let@ _ := drain req ns (docs it) in
  match ends it with
  | Some e => ethrow (str_app "backfill: iterator: " e)
  | None => eret (false, EmptyString)
  end.

Fixpoint runNamespace (fuel : nat) (req : BackfillRequest) (ns token : string) : M unit :=
  match fuel with
  | O => ethrow "out of fuel"%string
  | S k =>
      match ListDocuments ns token with
      | Err e => ethrow (str_app "backfill: list documents: " e)
      | Ok it =>
          let@ r := drainIterator req ns it in
          let '(more, next) := r in
          if negb more || str_empty next then eret tt else runNamespace k req ns next
      end
  end.

Fixpoint run_all (req : BackfillRequest) (nss : list string) : M unit :=
  match nss with
  | [] => eret tt
  | ns :: rest =>
      if buildScopeFilter (Scopes req) ns then
        let@ _ := bump count_namespace in
        let@ _ := runNamespace 1 req ns EmptyString in
        run_all req rest
      else run_all req rest
  end.

Definition Run (req : BackfillRequest) : M unit :=
  if str_empty (TenantID req) || str_empty (SourceID req) then ethrow "backfill: missing tenant/source"%string
  else if negb (has_handle req) then ethrow "backfill: missing connector handle"%string
  else match ListNamespaces with
  | Err e => ethrow (str_app "backfill: list namespaces: " e)
  | Ok nss => run_all req nss
  end.

(** One round is all the page loop ever takes. *)
Lemma runNamespace_one_page k req ns token w :
  runNamespace (S k) req ns token w = runNamespace 1 req ns token w.
Proof.
  simpl. destruct (ListDocuments ns token) as [it|e]; [|done]. unfold drainIterator, ebind.
  destruct (drain req ns (docs it) w) as [[u|e] w1]; [|done]. by destruct (ends it).
Qed.

(** ** What a run sends *)

(** The documents the connector lists for the namespaces in scope, in order, up to the
    first namespace whose listing fails. *)
Fixpoint expected (req : BackfillRequest) (nss : list string) : list IngestEvent :=
  match nss with
  | [] => []
  | ns :: rest =>
      if buildScopeFilter (Scopes req) ns then
        match ListDocuments ns EmptyString with
        | Ok it => (event_of req ns <$> docs it) ++ match ends it with None => expected req rest | Some _ => [] end
        | Err _ => []
        end
      else expected req rest
  end.

(** [n] of the events [es] were sent and counted; a failed call may have sent one more. *)
Record progress (es : list IngestEvent) (w w' : Env World) (complete : bool) : Prop := {
  pr_sent : ∃ k, sent (store w') = sent (store w) ++ take k es ∧ k ≤ length es ∧ (complete = true → k = length es) ∧
                 (Documents (store w') = Documents (store w) + Z.of_nat k
                  ∨ complete = false ∧ Documents (store w') = Documents (store w) + Z.of_nat k - 1)%Z
}.

Lemma progress_refl es w complete : (complete = true → es = []) → progress es w w complete.
Proof.
  intros Hc. split. exists 0. rewrite take_0, app_nil_r. split; [done|]. split; [lia|].
  split; [intros E; by rewrite (Hc E)|]. left. lia.
Qed.

Lemma drain_spec req ns ds w :
  let '(r, w') := drain req ns ds w in
  progress (event_of req ns <$> ds) w w' (match r with Ok _ => true | Err _ => false end).
Proof.
  revert w. induction ds as [|d ds IH]; intros w; cbn [drain]; [by apply progress_refl|].
  rewrite fmap_cons.
  assert (Hwait : ∀ w, let '(r, w1) := wait w in store w1 = store w).
  { intros v. unfold wait. destruct paced; [|done]. unfold ewrite, ecall. by destruct (fate (calls_made v)). }
  unfold ebind at 1. specialize (Hwait w). destruct (wait w) as [[u|e] w1].
  2:{ split. exists 0. rewrite Hwait, take_0, app_nil_r. split; [done|]. split; [lia|]. split; [done|]. left. lia. }
  unfold ebind at 1. unfold ewrite, ecall at 1. destruct (fate (calls_made w1)).
  - unfold ebind, bump. cbn [store calls_made]. specialize (IH {| store := count_document (send (event_of req ns d) (store w1));
                                                 calls_made := S (calls_made w1) |}).
    destruct (drain req ns ds _) as [r w']. destruct IH as [(k & Hs & Hk & Hc & Hd)].
    cbn [store sent Documents count_document send] in *.
    split. exists (S k). rewrite Hs, Hwait, <- app_assoc. cbn [app take length]. split; [done|]. split; [lia|].
    split; [intros E; by rewrite (Hc E)|]. rewrite Hwait in Hd. destruct r; [left; naive_solver lia|].
    destruct Hd as [Hd|[_ Hd]]; [left|right; split; [done|]]; lia.
  - cbn [store]. split. exists 0. rewrite take_0. cbn [store]. rewrite Hwait, app_nil_r. split; [done|]. split; [lia|]. split; [done|]. left. lia.
  - cbn [store]. split. exists 1. cbn [take store sent Documents send length]. rewrite take_0, Hwait. split; [done|]. split; [lia|]. split; [done|]. right. split; [done|lia].
Qed.

Lemma progress_app es1 es2 w w1 w2 c : progress es1 w w1 true → progress es2 w1 w2 c → progress (es1 ++ es2) w w2 c.
Proof.
  intros [(k1 & H1 & _ & Hc1 & Hd1)] [(k2 & H2 & Hk2 & Hc2 & Hd2)]. specialize (Hc1 eq_refl) as ->.
  split. exists (length es1 + k2). rewrite H2, H1, take_ge, <- app_assoc by done.
  rewrite take_app_add, length_app. split; [done|]. split; [lia|]. split; [intros E; rewrite (Hc2 E); lia|].
  destruct Hd1 as [Hd1|[? _]]; [|done]. destruct Hd2 as [Hd2|[? Hd2]]; [left|right; split; [done|]]; lia.
Qed.

Lemma progress_stop es1 es2 w w1 : progress es1 w w1 false → progress (es1 ++ es2) w w1 false.
Proof.
  intros [(k & H1 & Hk & _ & Hd)]. split. exists k. rewrite take_app_le by done. rewrite length_app.
  split; [done|]. split; [lia|]. done.
Qed.

Lemma progress_weaken es w w1 : progress es w w1 true → progress es w w1 false.
Proof. intros [(k & H1 & Hk & _ & [Hd|[? _]])]; [|done]. split. exists k. split_and!; [done|done|done|by left]. Qed.

Lemma run_all_spec req nss w :
  let '(r, w') := run_all req nss w in
  progress (expected req nss) w w' (match r with Ok _ => true | Err _ => false end).
Proof.
  revert w. induction nss as [|ns nss IH]; intros w; [by apply progress_refl|].
  cbn [run_all expected]. destruct (buildScopeFilter (Scopes req) ns); [|apply IH].
  unfold ebind, bump. cbn [store calls_made runNamespace].
  set (w0 := {| store := count_namespace (store w); calls_made := calls_made w |}).
  assert (Hsame : ∀ es w' c, progress es w0 w' c → progress es w w' c) by (intros es w' c [Hp]; by split).
  destruct (ListDocuments ns EmptyString) as [it|e]; [|simpl; by apply Hsame, progress_refl].
  unfold drainIterator, ebind. pose proof (drain_spec req ns (docs it) w0) as Hd.
  destruct (drain req ns (docs it) w0) as [[u|e] w1].
  - destruct (ends it) as [e|]; cbn [ethrow eret negb orb].
    + rewrite app_nil_r. by apply Hsame, progress_weaken.
    + specialize (IH w1). destruct (run_all req nss w1) as [r w2]. apply Hsame. by eapply progress_app.
  - apply Hsame. by apply progress_stop.
Qed.

(** A backfill sends, in order, the events of the documents the connector lists for
    the namespaces in scope: all of them when it succeeds, and a prefix when a call
    fails. Its counter says how many were confirmed; at most one more was sent. *)
Theorem Run_sends_prefix req nss w r w' :
  ListNamespaces = Ok nss → Run req w = (r, w') →
  ∃ k, sent (store w') = sent (store w) ++ take k (expected req nss) ∧
    (r = Ok tt → k = length (expected req nss) ∧
                 Documents (store w') = (Documents (store w) + Z.of_nat k)%Z) ∧
    (0 ≤ Z.of_nat k - (Documents (store w') - Documents (store w)) ≤ 1)%Z.
Proof.
  intros Hns Hr. unfold Run in Hr. rewrite Hns in Hr.
  assert (Hnone : ∀ e : string, (Err e, w) = (r, w') → ∃ k, sent (store w') = sent (store w) ++ take k (expected req nss) ∧
            (r = Ok tt → k = length (expected req nss) ∧ Documents (store w') = (Documents (store w) + Z.of_nat k)%Z) ∧
            (0 ≤ Z.of_nat k - (Documents (store w') - Documents (store w)) ≤ 1)%Z).
  { intros e [= <- <-]. exists 0. rewrite take_0, app_nil_r. split; [done|]. split; [done|]. lia. }
  destruct (str_empty (TenantID req) || str_empty (SourceID req)); [by eapply Hnone|].
  destruct (has_handle req); [|by cbn in Hr; eapply Hnone]. cbn [negb] in Hr.
  pose proof (run_all_spec req nss w) as Hp. rewrite Hr in Hp. destruct Hp as [(k & Hs & Hk & Hc & Hd)].
  exists k. split; [done|]. destruct r as [[]|e].
  - split; [intros _; split; [by apply Hc|]|]; destruct Hd as [Hd|[? _]]; done || lia.
  - split; [done|]. lia.
Qed.

(** A namespace is in scope when no scope is given, when one names it, or when one
    ending in a star is a prefix of it. *)
Theorem buildScopeFilter_spec scopes ns :
  buildScopeFilter scopes ns = true ↔
  scopes = [] ∨ (ns ∈ scopes ∧ prefix_of ns = None) ∨
  ∃ s p rest, s ∈ scopes ∧ to_bytes s = p ++ [star] ∧ to_bytes ns = p ++ rest.
Proof.
  assert (Hpre : ∀ s p, prefix_of s = Some p ↔ to_bytes s = p ++ [star]).
  { intros s p. unfold prefix_of. rewrite <- (rev_involutive (to_bytes s)) at 2.
    destruct (rev (to_bytes s)) as [|c r]; simpl; [split; [done|]; intros E; by destruct p|].
    destruct (Ascii.eqb_spec c star) as [->|Hc].
    - split; [by intros [= <-]|]. intros [E _]%app_inj_tail. by rewrite E.
    - split; [done|]. by intros [_ E]%app_inj_tail. }
  unfold buildScopeFilter. destruct scopes as [|s0 scopes]; [naive_solver|].
  set (l := s0 :: scopes). rewrite existsb_elem. split.
  - intros (s & Hs & Ha). right. unfold scope_admits in Ha. destruct (prefix_of s) as [p|] eqn:Hp.
    + right. destruct (strip_prefix p (to_bytes ns)) as [rest|] eqn:Hst; [|done].
      apply strip_prefix_spec in Hst. apply Hpre in Hp. by exists s, p, rest.
    + left. apply str_eqb_eq in Ha as ->. done.
  - intros [?|[[Hs Hn]|(s & p & rest & Hs & Hp & Hr)]]; [done|exists ns|exists s]; (split; [done|]); unfold scope_admits.
    + rewrite Hn. apply str_eqb_refl.
    + apply Hpre in Hp. rewrite Hp. by rewrite (proj2 (strip_prefix_spec p (to_bytes ns) rest) Hr).
Qed.
End Backfill.

(** ** Reindex *)

Record ReindexRequest := { r_TenantID : string; r_SourceID : string; r_NamespaceID : string; DryRun : bool }.

Record ReindexResult := { DocumentsEnumerated : Z; EventsEmitted : Z; EmitErrors : Z; res_DryRun : bool }.

Definition Validate (req : ReindexRequest) : option string :=
  if str_empty (r_TenantID req) then Some "reindex: missing tenant_id"%string
  else if str_empty (r_SourceID req) then Some "reindex: missing source_id"%string
  else None.

Definition owned (req : ReindexRequest) (c : ChunkStores.Chunk) : bool :=
  str_eqb (ChunkStores.ck_TenantID c) (r_TenantID req) && str_eqb (ChunkStores.ck_SourceID c) (r_SourceID req)
  && (str_empty (r_NamespaceID req) || str_eqb (ChunkStores.ck_NamespaceID c) (r_NamespaceID req)).

(** [SELECT DISTINCT document_id]; the order is the database's. *)
Definition ListDocuments_of (arrange : list string → list string) (req : ReindexRequest)
    (rows : gmap string ChunkStores.Chunk) : list string :=
  arrange (elements (list_to_set (ChunkStores.ck_DocumentID <$> List.filter (owned req) (snd <$> map_to_list rows)) : gset string)).

Definition reindex_event (req : ReindexRequest) (doc : string) : IngestEvent :=
  {| ev_Kind := EventReindex; ev_TenantID := r_TenantID req; ev_SourceID := r_SourceID req;
     ev_DocumentID := doc; ev_NamespaceID := r_NamespaceID req; ev_FetchURL := ""; ev_Title := ""; ev_MIMEType := "";
     ev_ContentType := ""; ev_PrivacyLabel := ""; ev_PreviousHash := ""; ev_Metadata := ∅; ev_Force := false;
     ev_InlineContent := ""; ev_SyncMode := ""; ev_RequestID := "" |}.

Section Reindex.
Context `{Outside}.
(** Whether the context is cancelled before the i-th document, and the documents. *)
Context (cancelled : nat → bool) (ListDocuments : ReindexRequest → result (list string) string).

Fixpoint emit_all (req : ReindexRequest) (i : nat) (ds : list string) (res : ReindexResult)
    : Env (list IngestEvent) → result ReindexResult (ReindexResult * string) * Env (list IngestEvent) := λ w,
  match ds with
  | [] => (Ok res, w)
  | d :: rest =>
      if cancelled i then (Err (res, "context canceled"%string), w)
      else
        let '(r, w1) := ewrite (E := unit) tt (λ s, s ++ [reindex_event req d]) w in
        let res' := match r with
                    | Ok _ => {| DocumentsEnumerated := DocumentsEnumerated res; EventsEmitted := EventsEmitted res + 1;
                                 EmitErrors := EmitErrors res; res_DryRun := res_DryRun res |}
                    | Err _ => {| DocumentsEnumerated := DocumentsEnumerated res; EventsEmitted := EventsEmitted res;
                                  EmitErrors := EmitErrors res + 1; res_DryRun := res_DryRun res |}
                    end in
        emit_all req (S i) rest res' w1
  end.

Definition Reindex (req : ReindexRequest) : Env (list IngestEvent) → result ReindexResult (ReindexResult * string) * Env (list IngestEvent) := λ w,
  let res0 := {| DocumentsEnumerated := 0; EventsEmitted := 0; EmitErrors := 0; res_DryRun := DryRun req |} in
  match Validate req with
  | Some e => (Err (res0, e), w)
  | None =>
      match ListDocuments req with
      | Err e => (Err (res0, str_app "reindex: enumerate: " e), w)
      | Ok ds =>
          let res := {| DocumentsEnumerated := Z.of_nat (length ds); EventsEmitted := 0; EmitErrors := 0;
                        res_DryRun := DryRun req |} in
          if DryRun req then (Ok res, w) else emit_all req 0 ds res w
      end
  end.

Lemma emit_all_spec req i ds res w :
  let '(r, w') := emit_all req i ds res w in
  match r with
  | Ok res' =>
      ∃ out, store w' = store w ++ (reindex_event req <$> out) ∧ out `sublist_of` ds ∧
        DocumentsEnumerated res' = DocumentsEnumerated res ∧
        (EventsEmitted res' + EmitErrors res' = EventsEmitted res + EmitErrors res + Z.of_nat (length ds))%Z ∧
        (EventsEmitted res' - EventsEmitted res ≤ Z.of_nat (length out) ≤ Z.of_nat (length ds))%Z
  | Err _ => ∃ j, i ≤ j ∧ cancelled j = true
  end.
Proof.
  revert i res w. induction ds as [|d ds IH]; intros i res w; cbn [emit_all].
  { exists []. rewrite app_nil_r. split_and!; [done|done|done|simpl; lia..]. }
  destruct (cancelled i) eqn:Hc; [by exists i|].
  unfold ewrite, ecall. destruct (fate (calls_made w)); cbv beta iota zeta;
    match goal with |- context [emit_all req (S i) ds ?res' ?w1] => specialize (IH (S i) res' w1);
      destruct (emit_all req (S i) ds res' w1) as [r w2] end;
    (destruct r as [res''|e]; [|destruct IH as (j & Hj & Hcj); exists j; split; [lia|done]]);
    destruct IH as (out & Hs & Hsub & He & Hsum & Hle); simpl in *.
  - exists (d :: out). rewrite Hs, <- app_assoc. split_and!; [done|by apply sublist_skip|done|lia|simpl; lia..].
  - exists out. split_and!; [done|by apply sublist_cons|done|lia..].
  - exists (d :: out). rewrite Hs, <- app_assoc. split_and!; [done|by apply sublist_skip|done|lia|simpl; lia..].
Qed.

(** A reindex that is not cancelled tries every document once: the events sent are
    those of a sublist of the documents, sent and failed add up, and a dry run sends
    nothing. *)
Theorem Reindex_accounts req ds w r w' :
  ListDocuments req = Ok ds → (∀ i, cancelled i = false) → Validate req = None → Reindex req w = (r, w') →
  ∃ res out, r = Ok res ∧ store w' = store w ++ (reindex_event req <$> out) ∧ out `sublist_of` ds ∧
    DocumentsEnumerated res = Z.of_nat (length ds) ∧
    (if DryRun req then out = [] ∧ EventsEmitted res = 0
     else EventsEmitted res + EmitErrors res = Z.of_nat (length ds) ∧ EventsEmitted res ≤ Z.of_nat (length out))%Z.
Proof.
  intros Hl Hc Hv Hr. unfold Reindex in Hr. rewrite Hv, Hl in Hr. destruct (DryRun req) eqn:Hd.
  - injection Hr as <- <-. eexists _, []. rewrite app_nil_r. split_and!; [done|done|apply sublist_nil_l|done|done|done].
  - pose proof (emit_all_spec req 0 ds {| DocumentsEnumerated := Z.of_nat (length ds); EventsEmitted := 0; EmitErrors := 0;
      res_DryRun := false |} w) as Hs. rewrite Hr in Hs. destruct r as [res|e].
    + destruct Hs as (out & Hst & Hsub & He & Hsum & Hle). simpl in *. exists res, out. split_and!; try done; lia.
    + destruct Hs as (j & _ & Hj). by rewrite Hc in Hj.
Qed.
End Reindex.

(** ** Samples *)

Definition sample_request : BackfillRequest := {| TenantID := "t"; SourceID := "s"; has_handle := true; Scopes := ["drive-*"] |}.
Definition sample_documents (ns token : string) : result listing string :=
  Ok (if str_empty token then {| docs := ["1"; "2"]; ends := None |} else {| docs := ["3"]; ends := None |}).
Definition no_events : Env World := {| store := {| sent := []; Namespaces := 0; Documents := 0 |}; calls_made := 0 |}.

Lemma Run_sends_prefix_witness :
  ∃ k, sent (store (@Run calm (Ok ["drive-a"; "mail"]%string) sample_documents true sample_request no_events).2)
       = take k (expected sample_documents sample_request ["drive-a"; "mail"]%string).
Proof.
  destruct (@Run calm (Ok ["drive-a"; "mail"]%string) sample_documents true sample_request no_events) as [r w'] eqn:Hr.
  destruct (@Run_sends_prefix calm (Ok ["drive-a"; "mail"]%string) sample_documents true sample_request _ no_events r w'
              eq_refl Hr) as (k & Hk & _). exists k. exact Hk.
Defined.

(** Only the first page of a namespace is ever read: document 3 is on the second. *)
Example second_page_not_read :
  ev_DocumentID <$> sent (store (@Run calm (Ok ["drive-a"]%string) sample_documents true sample_request no_events).2)
  = ["1"; "2"]%string.
Proof. vm_compute. reflexivity. Qed.
End Backfill.
