(* ===== verification/ApiKeys.v ===== *)
(** * API keys (admin/api_key_rotation.go, admin/api_key_sweeper.go)

    Rotation of a tenant's key with a grace period for the old one, and the sweeper
    that ends it. Every database call may fail, with or without effect; the hash, the
    source of randomness and the identifiers are parameters. *)

From S2P Require Import Prelude GoString PolicyDB Effects GoText AuditIntegrity.

Module ApiKeys.
Import AuditIntegrity.

Definition APIKeyStatusActive : string := "active".
Definition APIKeyStatusGrace : string := "grace".
Definition APIKeyStatusRevoked : string := "revoked".
Definition APIKeyStatusExpired : string := "expired".

Record APIKeyRow := {
  ID : string;
  TenantID : string;
  KeyHash : string;
  Status : string;
  CreatedAt : Time;
  DeactivatedAt : option Time;
  GraceUntil : option Time
}.

(** The tables and the two metrics. *)
Record World := {
  api_keys : gmap string APIKeyRow;
  audit_logs : list AuditLog;
  APIKeysExpiredTotal : Z;
  APIKeysGraceExpiringSoon : Z
}.

Definition on_keys (f : gmap string APIKeyRow → gmap string APIKeyRow) (s : World) : World :=
  {| api_keys := f (api_keys s); audit_logs := audit_logs s;
     APIKeysExpiredTotal := APIKeysExpiredTotal s; APIKeysGraceExpiringSoon := APIKeysGraceExpiringSoon s |}.
Definition log_event (a : AuditLog) (s : World) : World :=
  {| api_keys := api_keys s; audit_logs := audit_logs s ++ [a];
     APIKeysExpiredTotal := APIKeysExpiredTotal s; APIKeysGraceExpiringSoon := APIKeysGraceExpiringSoon s |}.
Definition count_expired (s : World) : World :=
  {| api_keys := api_keys s; audit_logs := audit_logs s;
     APIKeysExpiredTotal := APIKeysExpiredTotal s + 1; APIKeysGraceExpiringSoon := APIKeysGraceExpiringSoon s |}.
Definition set_soon (n : Z) (s : World) : World :=
  {| api_keys := api_keys s; audit_logs := audit_logs s;
     APIKeysExpiredTotal := APIKeysExpiredTotal s; APIKeysGraceExpiringSoon := n |}.

Abbreviation M := (Eff World string) (only parsing).

Definition set_status (st : string) (r : APIKeyRow) : APIKeyRow :=
  {| ID := ID r; TenantID := TenantID r; KeyHash := KeyHash r; Status := st; CreatedAt := CreatedAt r;
     DeactivatedAt := DeactivatedAt r; GraceUntil := GraceUntil r |}.

Definition is_active (tenantID : string) (r : APIKeyRow) : bool :=
  str_eqb (TenantID r) tenantID && str_eqb (Status r) APIKeyStatusActive.

(** The UPDATE of a rotation. *)
Definition to_grace (tenantID : string) (now graceUntil : Time) (r : APIKeyRow) : APIKeyRow :=
  if is_active tenantID r then
    {| ID := ID r; TenantID := TenantID r; KeyHash := KeyHash r; Status := APIKeyStatusGrace; CreatedAt := CreatedAt r;
       DeactivatedAt := Some now; GraceUntil := Some graceUntil |}
  else r.

(** The primary key and the unique index on the hash. *)
Definition taken (row : APIKeyRow) (t : gmap string APIKeyRow) : bool :=
  bool_decide (is_Some (t !! ID row)) || existsb (λ r, str_eqb (KeyHash r) (KeyHash row)) (snd <$> map_to_list t).

(** The two statements of the transaction; a violated constraint rolls both back. *)
Definition rotate_tx (tenantID : string) (now graceUntil : Time) (row : APIKeyRow) (t : gmap string APIKeyRow)
    : bool * gmap string APIKeyRow :=
  if taken row t then (false, t) else (true, <[ID row := row]> (to_grace tenantID now graceUntil <$> t)).

Definition grace_over (now : Time) (r : APIKeyRow) : bool :=
  str_eqb (Status r) APIKeyStatusGrace && match GraceUntil r with Some g => (g <? now)%Z | None => false end.

Definition expire (now : Time) (r : APIKeyRow) : APIKeyRow :=
  if grace_over now r then set_status APIKeyStatusExpired r else r.

Definition expiring_soon (now : Time) (within : Z) (r : APIKeyRow) : bool :=
  str_eqb (Status r) APIKeyStatusGrace &&
  match GraceUntil r with Some g => ((now <? g) && (g <=? now + within))%Z | None => false end.

Definition GraceExpiringSoonWindow : Z := hour.

(** The answers of the rotation endpoint. *)
Record APIKeyRotationResponse := {
  r_TenantID : string; APIKey : string; KeyID : string; r_CreatedAt : Time; r_GraceUntil : Time
}.
Inductive Response :=
| Unauthorized | BadRequest | Forbidden
| InternalError (what : string)
| Rotated (body : APIKeyRotationResponse).

Section Keys.
Context `{Outside}.
Context (sha256 : bytes → bytes) (Getenv : string → string).
(** The bytes of the n-th read of the random source, if it succeeds, and the n-th identifier. *)
Context (entropy : nat → option bytes) (ulid : nat → nat → string).
Context (has_audit : bool) (arrange : list APIKeyRow → list APIKeyRow).

Definition configured (name : string) (fallback : Z) : Z :=
  let raw := Getenv name in
  if str_empty raw then fallback
  else match ParseDuration raw with
       | Ok d => if (0 <? d)%Z then d else fallback
       | Err _ => fallback
       end.

Definition APIKeyGracePeriod : Z := configured "CONTEXT_ENGINE_API_KEY_GRACE_PERIOD" (24 * hour).
Definition APIKeySweepInterval : Z := configured "CONTEXT_ENGINE_API_KEY_SWEEP_INTERVAL" (5 * minute).

Definition hashAPIKey (raw : string) : string := of_bytes (hex (sha256 (to_bytes raw))).
Definition generateAPIKey (n : nat) : option string :=
  match entropy n with Some buf => Some (str_app "hf_" (of_bytes (hex buf))) | None => None end.

(** ** The store *)

Definition Insert (row : APIKeyRow) : M unit :=
  if str_empty (TenantID row) || str_empty (KeyHash row) then ethrow "api_keys: missing tenant_id or key_hash"%string
  else
    let@ ok := ecall "insert"%string (λ s, if taken row (api_keys s) then (false, s)
                                           else (true, on_keys (insert (ID row) row) s)) in
    if ok then eret tt else ethrow "duplicate key"%string.

Definition MoveActiveToGrace (tenantID : string) (graceUntil : Time) : M unit := λ w,
  (if str_empty tenantID then ethrow "api_keys: missing tenant_id"%string
   else ewrite "update"%string (on_keys (fmap (to_grace tenantID (clock (calls_made w) 0) graceUntil)))) w.

Definition Rotate (tenantID : string) (graceUntil : Time) (row : APIKeyRow) : M unit := λ w,
  (if str_empty tenantID then ethrow "api_keys: missing tenant_id"%string
   else if str_empty (TenantID row) || str_empty (KeyHash row)
   then ethrow "api_keys: missing tenant_id or key_hash on new row"%string
   else
     let now := clock (calls_made w) 1 in
     let@ ok := ecall "transaction"%string (λ s, let '(ok, t) := rotate_tx tenantID now graceUntil row (api_keys s) in
                                                 (ok, on_keys (λ _, t) s)) in
     if ok then eret tt else ethrow "duplicate key"%string) w.

Definition CountGraceExpiringSoon (now : Time) (within : Z) : M Z :=
  eread "count"%string (λ s, Z.of_nat (length (List.filter (expiring_soon now within) (snd <$> map_to_list (api_keys s))))).

Definition ExpireGrace (now : Time) : M (list APIKeyRow) :=
  ecall "expire"%string (λ s, (arrange (List.filter (grace_over now) (snd <$> map_to_list (api_keys s))),
                               on_keys (fmap (expire now)) s)).

(** ** The endpoint *)

(** The audit write is best effort. *)
Definition record_audit (a : AuditLog) : M unit := λ w,
  if has_audit then (Ok tt, (ewrite "audit"%string (log_event a) w).2) else (Ok tt, w).

Definition key_event (id tenantID actor action keyID : string) (at_ : Time) : AuditLog :=
  {| al_ID := id; al_TenantID := tenantID; al_ActorID := actor; al_Action := action; al_ResourceType := "api_key";
     al_ResourceID := keyID; al_Metadata := []; al_TraceID := ""; al_CreatedAt := at_ |}.

Definition new_row (tenantID raw id : string) (now : Time) : APIKeyRow :=
  {| ID := id; TenantID := tenantID; KeyHash := hashAPIKey raw; Status := APIKeyStatusActive; CreatedAt := now;
     DeactivatedAt := None; GraceUntil := None |}.

Record RotateRequest := { requester : string; param_tenant : string }.

Definition rotate (req : RotateRequest) (w : Env World) : Response * Env World :=
  let tenantID := param_tenant req in
  if str_empty (requester req) then (Unauthorized, w)
  else if str_empty tenantID then (BadRequest, w)
  else if negb (str_eqb tenantID (requester req)) then (Forbidden, w)
  else
    let now := clock (calls_made w) 0 in
    let grace := (now + APIKeyGracePeriod)%Z in
    match generateAPIKey (calls_made w) with
    | None => (InternalError "generate key", w)
    | Some raw =>
        let row := new_row tenantID raw (ulid (calls_made w) 0) now in
        match Rotate tenantID grace row w with
        | (Err _, w1) => (InternalError "rotate key", w1)
        | (Ok _, w1) =>
            let w2 := (record_audit (key_event (ulid (calls_made w1) 0) tenantID "" "api_key.rotated" (ID row) now) w1).2 in
            (Rotated {| r_TenantID := tenantID; APIKey := raw; KeyID := ID row; r_CreatedAt := now;
                        r_GraceUntil := grace |}, w2)
        end
    end.

(** ** The sweeper *)

Definition note_expired (r : APIKeyRow) : M unit := λ w,
  record_audit (key_event (ulid (calls_made w) 0) (TenantID r) "system" "api_key.expired" (ID r) (clock (calls_made w) 0))
    {| store := count_expired (store w); calls_made := calls_made w |}.

Fixpoint note_all (rows : list APIKeyRow) : M unit :=
  match rows with
  | [] => eret tt
  | r :: rest => let@ _ := note_expired r in note_all rest
  end.

(** A failed count leaves the gauge as it was. *)
Definition refresh (now : Time) : M unit := λ w,
  match CountGraceExpiringSoon now GraceExpiringSoonWindow w with
  | (Ok n, w1) => (Ok tt, {| store := set_soon n (store w1); calls_made := calls_made w1 |})
  | (Err _, w1) => (Ok tt, w1)
  end.

Definition SweepOnce : M Z := λ w,
  let now := clock (calls_made w) 0 in
  (let@ rows := ExpireGrace now in
   let@ _ := note_all rows in
   let@ _ := refresh now in
   eret (Z.of_nat (length rows))) w.

(** ** Rotation *)

Lemma record_audit_spec a w :
  (record_audit a w).1 = Ok tt ∧ api_keys (store (record_audit a w).2) = api_keys (store w).
Proof.
  unfold record_audit. destruct has_audit; [|done]. unfold ewrite, ecall. by destruct (fate (calls_made w)).
Qed.

(** The table after a rotation that took effect. *)
Definition rotated (tenantID : string) (now graceUntil : Time) (row : APIKeyRow) (t t' : gmap string APIKeyRow) : Prop :=
  t !! ID row = None ∧ t' = <[ID row := row]> (to_grace tenantID now graceUntil <$> t).

Lemma rotate_tx_spec tenantID now g row t :
  let '(ok, t') := rotate_tx tenantID now g row t in
  if ok then rotated tenantID now g row t t' else t' = t.
Proof.
  unfold rotate_tx, taken. destruct (bool_decide_reflect (is_Some (t !! ID row))) as [|Hn]; simpl; [done|].
  destruct (existsb _ _); [done|]. split; [|done]. by apply eq_None_not_Some.
Qed.

Lemma Rotate_spec tenantID g row w :
  let '(r, w') := Rotate tenantID g row w in
  match r with
  | Ok _ => ∃ now, rotated tenantID now g row (api_keys (store w)) (api_keys (store w'))
  | Err _ => api_keys (store w') = api_keys (store w)
             ∨ ∃ now, rotated tenantID now g row (api_keys (store w)) (api_keys (store w'))
  end.
Proof.
  unfold Rotate. destruct (str_empty tenantID); [by left|].
  destruct (str_empty (TenantID row) || str_empty (KeyHash row)); [by left|].
  unfold ebind, ecall. pose proof (rotate_tx_spec tenantID (clock (calls_made w) 1) g row (api_keys (store w))) as Ht.
  destruct (rotate_tx _ _ _ _ _) as [[] t]; destruct (fate (calls_made w)); simpl; eauto.
Qed.

(** Everything a call of the endpoint does to the table. *)
Lemma rotate_effect req w a w' :
  rotate req w = (a, w') →
  match a with
  | Rotated b =>
      requester req = r_TenantID b ∧ ∃ now, rotated (r_TenantID b) now (r_GraceUntil b)
        (new_row (r_TenantID b) (APIKey b) (KeyID b) (r_CreatedAt b)) (api_keys (store w)) (api_keys (store w'))
      ∧ r_GraceUntil b = (r_CreatedAt b + APIKeyGracePeriod)%Z
  | InternalError _ =>
      api_keys (store w') = api_keys (store w) ∨
      ∃ now g row, Status row = APIKeyStatusActive ∧ TenantID row = requester req ∧
        rotated (requester req) now g row (api_keys (store w)) (api_keys (store w'))
  | _ => w' = w
  end.
Proof.
  unfold rotate. destruct (str_empty (requester req)); [by intros [= <- <-]|].
  destruct (str_empty (param_tenant req)); [by intros [= <- <-]|].
  destruct (str_eqb (param_tenant req) (requester req)) eqn:Ht; [apply str_eqb_eq in Ht|by intros [= <- <-]].
  destruct (generateAPIKey _) as [raw|]; [|intros [= <- <-]; by left]. cbn [negb].
  match goal with |- context [Rotate ?t ?g ?row w] => pose proof (Rotate_spec t g row w) as Hr; destruct (Rotate t g row w) as [[u|e] w1] end.
  - intros [= <- <-]. destruct Hr as [now Hr]. cbn. split; [done|]. exists now.
    split; [|done]. by rewrite (proj2 (record_audit_spec _ w1)).
  - intros [= <- <-]. destruct Hr as [Hr|[now Hr]]; [by left|right]. rewrite <- Ht. exists now. do 2 eexists. split_and!; [| |exact Hr]; done.
Qed.

(** C26: a rotation is all or nothing. An answer with a key means that the tenant's one
    active row is the new one, that it stores the hash of the key handed out, and that
    every row active before is in grace until the deadline announced; an error leaves
    the table as it was, or with the whole rotation done when the reply of the commit was
    lost. No other row changes. *)
Theorem rotate_atomic req w a w' :
  rotate req w = (a, w') →
  let t := api_keys (store w) in let t' := api_keys (store w') in
  (∀ id r, t !! id = Some r → is_active (requester req) r = false → t' !! id = Some r) ∧
  match a with
  | Rotated b =>
      t !! KeyID b = None ∧
      (∃ row, t' !! KeyID b = Some row ∧ KeyHash row = hashAPIKey (APIKey b) ∧ Status row = APIKeyStatusActive) ∧
      ∀ id r, t !! id = Some r → is_active (requester req) r = true →
        ∃ r', t' !! id = Some r' ∧ Status r' = APIKeyStatusGrace ∧ GraceUntil r' = Some (r_GraceUntil b) ∧ KeyHash r' = KeyHash r
  | InternalError _ =>
      t' = t ∨ ∃ id r, t !! id = None ∧ t' !! id = Some r ∧ is_active (requester req) r = true
  | _ => w' = w
  end ∧
  (t' ≠ t → ∀ id1 id2 r1 r2, t' !! id1 = Some r1 → t' !! id2 = Some r2 →
     is_active (requester req) r1 = true → is_active (requester req) r2 = true → id1 = id2).
Proof.
  intros Hr t t'. pose proof (rotate_effect req w a w' Hr) as He. fold t t' in He.
  assert (Hrot : ∀ now g row, rotated (requester req) now g row t t' →
    (∀ id r, t !! id = Some r → t' !! id = Some (to_grace (requester req) now g r)) ∧
    (∀ id r, t' !! id = Some r → is_active (requester req) r = true → id = ID row)).
  { intros now g row [Hn ->]. split.
    - intros id r Hl. rewrite lookup_insert_ne by congruence. by rewrite lookup_fmap, Hl.
    - intros id r [[<- <-]|[Hne Hl]]%lookup_insert_Some Ha; [done|]. rewrite lookup_fmap, fmap_Some in Hl.
      destruct Hl as (r0 & _ & ->). unfold to_grace in Ha. destruct (is_active (requester req) r0) eqn:E; [|congruence].
      unfold is_active in Ha. simpl in Ha. by rewrite andb_false_r in Ha. }
  assert (Hkeep : ∀ now g row, rotated (requester req) now g row t t' →
    ∀ id r, t !! id = Some r → is_active (requester req) r = false → t' !! id = Some r).
  { intros now g row Hr' id r Hl Ha. rewrite (proj1 (Hrot _ _ _ Hr') id r Hl). unfold to_grace. by rewrite Ha. }
  assert (Hone : ∀ now g row, rotated (requester req) now g row t t' →
    ∀ id1 id2 r1 r2, t' !! id1 = Some r1 → t' !! id2 = Some r2 →
     is_active (requester req) r1 = true → is_active (requester req) r2 = true → id1 = id2).
  { intros now g row Hr' id1 id2 r1 r2 H1 H2 A1 A2. destruct (Hrot _ _ _ Hr') as [_ Ho].
    by rewrite (Ho _ _ H1 A1), (Ho _ _ H2 A2). }
  destruct a as [| | |what|b]; [assert (Ht : t' = t) by (unfold t, t'; by rewrite He); rewrite Ht; by split_and!..| |].
  - destruct He as [He|(now & g & row & Hs & Ht & He)]; [rewrite He; split_and!; [done|by left|done]|].
    split_and!; [by eapply Hkeep| |by intros _; eapply Hone]. right. exists (ID row), row. destruct He as [Hn He].
    split_and!; [done|rewrite He; by apply lookup_insert_eq|]. unfold is_active. by rewrite Ht, Hs, str_eqb_refl.
  - destruct He as (Hreq & now & He & Hg). rewrite <- Hreq in He.
    split_and!; [by eapply Hkeep| | | |by intros _; eapply Hone].
    + apply He.
    + destruct He as [_ He]. eexists. split; [rewrite He; by apply lookup_insert_eq|]. done.
    + intros id r Hl Ha. eexists. split; [by apply (proj1 (Hrot _ _ _ He))|]. unfold to_grace. by rewrite Ha.
Qed.

(** ** The life of a key *)

Lemma note_all_keys rows w : (note_all rows w).1 = Ok tt ∧ api_keys (store (note_all rows w).2) = api_keys (store w).
Proof.
  revert w. induction rows as [|r rows IH]; intros w; [done|]. cbn [note_all]. unfold ebind, note_expired.
  match goal with |- context [record_audit ?a ?v] => pose proof (record_audit_spec a v) as [Ho Hk]; destruct (record_audit a v) as [x w1] end.
  cbn in Ho, Hk. subst x. rewrite <- Hk. apply IH.
Qed.

Lemma refresh_keys now w : (refresh now w).1 = Ok tt ∧ api_keys (store (refresh now w).2) = api_keys (store w).
Proof. unfold refresh, CountGraceExpiringSoon, eread, ecall. by destruct (fate (calls_made w)). Qed.

(** A sweep whose transaction took effect, whether or not its reply arrived. *)
Lemma SweepOnce_keys w :
  let t := api_keys (store w) in let t' := api_keys (store (SweepOnce w).2) in
  t' = t ∨ t' = expire (clock (calls_made w) 0) <$> t.
Proof.
  unfold SweepOnce, ExpireGrace, ebind, ecall. destruct (fate (calls_made w)); [right|by left|by right].
  match goal with |- context [note_all ?rows ?v] => pose proof (note_all_keys rows v) as [Ho Hk]; destruct (note_all rows v) as [x w1] end.
  cbn in Ho, Hk. subst x. pose proof (refresh_keys (clock (calls_made w) 0) w1) as [Ho' Hk'].
  destruct (refresh _ w1) as [y w2]. cbn in Ho', Hk'. subst y. cbn. by rewrite Hk', Hk.
Qed.

Inductive op := ORotate (req : RotateRequest) | OSweep.

Definition exec (o : op) (w : Env World) : Env World :=
  match o with ORotate req => (rotate req w).2 | OSweep => (SweepOnce w).2 end.

Fixpoint run (ops : list op) (w : Env World) : Env World :=
  match ops with [] => w | o :: rest => run rest (exec o w) end.

(** The readings of the clock on which the sweeps of a run decide. *)
Fixpoint sweep_times (ops : list op) (w : Env World) : list Time :=
  match ops with
  | [] => []
  | o :: rest => match o with OSweep => [clock (calls_made w) 0] | _ => [] end ++ sweep_times rest (exec o w)
  end.

(** What may become of a row, given the sweeps. *)
Record aged (sweeps : list Time) (r r' : APIKeyRow) : Prop := {
  ag_key : ID r' = ID r ∧ TenantID r' = TenantID r ∧ KeyHash r' = KeyHash r;
  ag_status : Status r' = Status r
    ∨ Status r = APIKeyStatusActive ∧ (Status r' = APIKeyStatusGrace ∨ Status r' = APIKeyStatusExpired)
    ∨ Status r = APIKeyStatusGrace ∧ Status r' = APIKeyStatusExpired;
  ag_deadline : Status r ≠ APIKeyStatusActive → GraceUntil r' = GraceUntil r;
  ag_expired : Status r' = APIKeyStatusExpired → Status r ≠ APIKeyStatusExpired →
    ∃ g now, GraceUntil r' = Some g ∧ now ∈ sweeps ∧ (g < now)%Z
}.

Lemma aged_refl ts r : aged ts r r.
Proof. split; try done. by left. Qed.

Lemma aged_grace ts tenantID now g r : aged ts r (to_grace tenantID now g r).
Proof.
  unfold to_grace. destruct (is_active tenantID r) eqn:Ha; [|apply aged_refl].
  apply andb_true_iff in Ha as [_ Ha%str_eqb_eq]. split; simpl; try done. right. left. eauto.
Qed.

Lemma aged_expire ts now r : now ∈ ts → aged ts r (expire now r).
Proof.
  intros Hnow. unfold expire. destruct (grace_over now r) eqn:Hg; [|apply aged_refl].
  apply andb_true_iff in Hg as [Hs%str_eqb_eq Hg]. destruct (GraceUntil r) as [g|] eqn:Hu; [|done]. apply Z.ltb_lt in Hg.
  split; simpl; try done; [by right; right|]. intros _ _. rewrite Hu. eauto.
Qed.

Lemma aged_trans ts1 ts2 r1 r2 r3 : aged ts1 r1 r2 → aged ts2 r2 r3 → aged (ts1 ++ ts2) r1 r3.
Proof.
  intros [K1 S1 D1 E1] [K2 S2 D2 E2]. split.
  - naive_solver congruence.
  - destruct S1 as [S1|[[S1 S1']|[S1 S1']]], S2 as [S2|[[S2 S2']|[S2 S2']]]; try (rewrite S1 in S2); try (destruct S1' as [S1'|S1']; rewrite S1' in S2);
      try (rewrite S1' in S2); try discriminate S2; rewrite ?S2; auto.
  - intros Hn. rewrite D2; [by apply D1|]. intros Ha. destruct S1 as [S1|[[S1 S1']|[S1 S1']]]; [congruence|congruence|]. rewrite S1' in Ha. discriminate Ha.
  - intros H3 H1. destruct (decide (Status r2 = APIKeyStatusExpired)) as [H2|H2].
    + destruct (E1 H2 H1) as (g & now & Hg & Hin & Hlt). exists g, now. rewrite D2, elem_of_app; [auto|]. rewrite H2. discriminate.
    + destruct (E2 H3 H2) as (g & now & Hg & Hin & Hlt). exists g, now. rewrite elem_of_app. auto.
Qed.

Lemma exec_aged o w id r :
  api_keys (store w) !! id = Some r →
  ∃ r', api_keys (store (exec o w)) !! id = Some r' ∧ aged (sweep_times [o] w) r r'.
Proof.
  intros Hl. destruct o as [req|]; simpl.
  - destruct (rotate req w) as [a w'] eqn:Hr. pose proof (rotate_effect req w a w' Hr) as He. simpl.
    assert (Hrot : ∀ tenantID now g row, rotated tenantID now g row (api_keys (store w)) (api_keys (store w')) →
                   ∃ r', api_keys (store w') !! id = Some r' ∧ aged [] r r').
    { intros tn now g row [Hn ->]. eexists. rewrite lookup_insert_ne by congruence.
      rewrite lookup_fmap, Hl. split; [done|]. apply aged_grace. }
    assert (Hsame : api_keys (store w') = api_keys (store w) → ∃ r', api_keys (store w') !! id = Some r' ∧ aged [] r r').
    { intros ->. exists r. split; [done|]. apply aged_refl. }
    destruct a; try (by subst w'; apply Hsame).
    + destruct He as [He|(now & g & row & _ & _ & He)]; eauto.
    + destruct He as (_ & now & He & _). eauto.
  - destruct (SweepOnce_keys w) as [Hs|Hs]; rewrite Hs.
    + exists r. split; [done|]. apply aged_refl.
    + eexists. rewrite lookup_fmap, Hl. split; [done|]. apply aged_expire. set_solver.
Qed.

Lemma run_aged ops w id r :
  api_keys (store w) !! id = Some r →
  ∃ r', api_keys (store (run ops w)) !! id = Some r' ∧ aged (sweep_times ops w) r r'.
Proof.
  revert w r. induction ops as [|o ops IH]; intros w r Hl; [exists r; split; [done|apply aged_refl]|].
  destruct (exec_aged o w id r Hl) as (r1 & H1 & A1). destruct (IH _ _ H1) as (r2 & H2 & A2).
  exists r2. split; [done|]. cbn [sweep_times] in *. rewrite app_nil_r in A1. by eapply aged_trans.
Qed.

(** Whatever rotations and sweeps run, by whomever, and whatever fails, a key is
    never lost or reassigned, its status only moves forward from active to grace to
    expired, a grace deadline once set never changes, and a key is expired only by a
    sweep whose clock was past its deadline. *)
Theorem keys_age ops w id r :
  api_keys (store w) !! id = Some r →
  ∃ r', api_keys (store (run ops w)) !! id = Some r' ∧ aged (sweep_times ops w) r r'.
Proof. apply run_aged. Qed.

(** The sweep is exact: when the database answers, the rows past their deadline are
    expired and no others, the result and the counter are their number, and with a
    reachable audit log each is recorded once. *)
Theorem SweepOnce_exact w r w' :
  (∀ n, fate n = Performed) → (∀ l, arrange l ≡ₚ l) → SweepOnce w = (r, w') →
  let now := clock (calls_made w) 0 in
  let t := api_keys (store w) in
  let over := List.filter (grace_over now) (snd <$> map_to_list t) in
  r = Ok (Z.of_nat (length over)) ∧
  (∀ id k, api_keys (store w') !! id = Some k ↔ ∃ k0, t !! id = Some k0 ∧ k = expire now k0) ∧
  APIKeysExpiredTotal (store w') = (APIKeysExpiredTotal (store w) + Z.of_nat (length over))%Z ∧
  (has_audit = true → al_ResourceID <$> audit_logs (store w') ≡ₚ (al_ResourceID <$> audit_logs (store w)) ++ (ID <$> over)) ∧
  APIKeysGraceExpiringSoon (store w') =
    Z.of_nat (length (List.filter (expiring_soon now GraceExpiringSoonWindow) (snd <$> map_to_list (api_keys (store w'))))).
Proof.
  intros Hp Har Hs now t over.
  assert (Hnote : ∀ rows v, let v' := (note_all rows v).2 in
    APIKeysExpiredTotal (store v') = (APIKeysExpiredTotal (store v) + Z.of_nat (length rows))%Z ∧
    (has_audit = true → al_ResourceID <$> audit_logs (store v') = (al_ResourceID <$> audit_logs (store v)) ++ (ID <$> rows))).
  { intros rows. induction rows as [|k rows IH]; intros v; [simpl; split; [lia|]; by rewrite app_nil_r|].
    cbn [note_all]. unfold ebind, note_expired, record_audit. destruct has_audit.
    - unfold ewrite, ecall. rewrite Hp. simpl. match goal with |- context [note_all rows ?x] => destruct (IH x) as [H1 H2] end.
      split; [rewrite H1; simpl; lia|]. intros _. rewrite H2 by done. simpl. by rewrite fmap_app, <- app_assoc.
    - simpl. match goal with |- context [note_all rows ?x] => destruct (IH x) as [H1 _] end. split; [rewrite H1; simpl; lia|done]. }
  revert Hs. unfold SweepOnce, ExpireGrace, ebind, ecall. rewrite Hp.
  match goal with |- context [note_all ?rows ?v] => pose proof (note_all_keys rows v) as [Ho Hk]; specialize (Hnote rows v);
     destruct (note_all rows v) as [x w1]; pose proof (Har (List.filter (grace_over now) (snd <$> map_to_list t))) as Hrows end.
  cbn in Ho, Hk, Hnote. subst x. unfold refresh, CountGraceExpiringSoon, eread, ecall. rewrite Hp. cbn.
  fold now t over in Hnote, Hk, Hrows |- *. destruct Hnote as [Hn Ha]. rewrite Hk.
  intros [= <- <-]. cbn [store set_soon api_keys APIKeysExpiredTotal audit_logs APIKeysGraceExpiringSoon]. rewrite Hrows in Hn |- *.
  split_and!; [done| |done| |by rewrite Hk].
  - intros id k. rewrite Hk, lookup_fmap, fmap_Some. done.
  - intros E. rewrite (Ha E). by rewrite Hrows.
Qed.
End Keys.

(** ** Samples *)

Definition sample_hash (x : bytes) : bytes := x.
Definition sample_entropy (n : nat) : option bytes := Some (to_bytes (str_of_nat n)).
Definition sample_ulid (n k : nat) : string := str_app "id" (str_of_nat n).
Definition no_env (_ : string) : string := EmptyString.
Definition sample_old : APIKeyRow :=
  {| ID := "old"; TenantID := "t"; KeyHash := "h"; Status := APIKeyStatusActive; CreatedAt := 0; DeactivatedAt := None;
     GraceUntil := None |}.
Definition sample_keys : Env World :=
  {| store := {| api_keys := {[ "old"%string := sample_old ]}; audit_logs := []; APIKeysExpiredTotal := 0;
                 APIKeysGraceExpiringSoon := 0 |};
     calls_made := 0 |}.
(** A clock that jumps by half a day between calls. *)
Definition sample_days : Outside := {| fate := λ _, Performed; clock := λ n _, (Z.of_nat n * (12 * hour))%Z |}.
Definition sample_rotate : RotateRequest := {| requester := "t"; param_tenant := "t" |}.
Definition the_rotation : Response * Env World :=
  @rotate sample_days sample_hash no_env sample_entropy sample_ulid true sample_rotate sample_keys.

Lemma rotate_atomic_witness :
  match the_rotation.1 with
  | Rotated b => ∃ row, api_keys (store the_rotation.2) !! KeyID b = Some row ∧ KeyHash row = hashAPIKey sample_hash (APIKey b)
  | _ => False
  end.
Proof.
  pose proof (@rotate_atomic sample_days sample_hash no_env sample_entropy sample_ulid true sample_rotate sample_keys
                the_rotation.1 the_rotation.2 eq_refl) as (_ & Ha & _).
  assert (Hb : match the_rotation.1 with Rotated _ => true | _ => false end = true) by (vm_compute; reflexivity).
  revert Ha Hb. generalize the_rotation.1, the_rotation.2. intros [| | | |b] w2 Ha Hb; try discriminate.
  destruct Ha as (_ & (row & Hl & Hh & _) & _). by exists row.
Defined.

(** A rotation, then sweeps: the old key leaves grace with the first sweep past the deadline. *)
Definition sample_ops : list op := [ORotate sample_rotate; OSweep; OSweep].
Definition after (ops : list op) : Env World :=
  @run sample_days sample_hash no_env sample_entropy sample_ulid true id ops sample_keys.

Example one_sweep_keeps_grace : Status <$> api_keys (store (after (take 2 sample_ops))) !! "old"%string = Some APIKeyStatusGrace.
Proof. by vm_compute. Qed.

Lemma keys_age_witness :
  Status <$> api_keys (store (after sample_ops)) !! "old"%string = Some APIKeyStatusExpired ∧
  ∃ r', api_keys (store (after sample_ops)) !! "old"%string = Some r' ∧ ID r' = "old"%string.
Proof.
  split; [by vm_compute|].
  assert (H0 : api_keys (store sample_keys) !! "old"%string = Some sample_old) by reflexivity.
  destruct (@keys_age sample_days sample_hash no_env sample_entropy sample_ulid true id sample_ops sample_keys _ _ H0)
    as (r' & Hl & [(Hi & _) _ _ _]). exists r'. exact (conj Hl Hi).
Defined.

Lemma SweepOnce_exact_witness :
  (@SweepOnce sample_days sample_ulid true id (after (take 2 sample_ops))).1 = Ok 1%Z.
Proof.
  destruct (@SweepOnce sample_days sample_ulid true id (after (take 2 sample_ops))) as [r w'] eqn:E.
  destruct (@SweepOnce_exact sample_days sample_ulid true id _ r w' (λ _, eq_refl) (λ l, Permutation_refl l) E) as [Hr _].
  cbn [fst]. rewrite Hr. by vm_compute.
Defined.
End ApiKeys.
