(* ===== verification/GrpcPool.v ===== *)
(** * The gRPC pool (grpcpool/pool.go)

    A round-robin set of connections behind a circuit breaker. The critical sections
    run under the pool's lock; the gauge is written after the lock is released, so its
    writes are separate steps that other calls may overtake. *)

From S2P Require Import Prelude GoString.

Module GrpcPool.
Local Open Scope Z_scope.

Inductive State := StateClosed | StateOpen | StateHalfOpen.

#[export] Instance State_eq : EqDecision State.
Proof. solve_decision. Defined.

Record Config := { Target : string; Size : Z; Deadline : Z; Threshold : Z; OpenFor : Z }.

Definition defaults (c : Config) : Config :=
  {| Target := Target c;
     Size := if Size c <=? 0 then 4 else Size c;
     Deadline := Deadline c;
     Threshold := if Threshold c <=? 0 then 5 else Threshold c;
     OpenFor := if OpenFor c <=? 0 then 10 * second else OpenFor c |}.

Definition gaugeValueForState (s : State) : Z :=
  match s with StateClosed => 0 | StateHalfOpen => 1 | StateOpen => 2 end.

Section Pool.
Context {Conn : Type}.

Record Pool := {
  cfg : Config;
  conns : list Conn;
  idx : Z;                 (** a 64-bit counter *)
  state : State;
  failures : Z;
  openedAt : Time;
  trialInFlight : bool
}.

Definition with_breaker (st : State) (n : Z) (at_ : Time) (trial : bool) (p : Pool) : Pool :=
  {| cfg := cfg p; conns := conns p; idx := idx p; state := st; failures := n; openedAt := at_; trialInFlight := trial |}.

(** ** Construction *)

(** Connections dialled one after another; the first failure closes those made so far. *)
Fixpoint dial_from (dial : nat → result Conn string) (i k : nat) : list Conn * option string :=
  match k with
  | O => ([], None)
  | S k' =>
      match dial i with
      | Err e => ([], Some e)
      | Ok c => let '(cs, e) := dial_from dial (S i) k' in (c :: cs, e)
      end
  end.

(** The pool or an error, and the connections closed on the way. *)
Definition New (dial : nat → result Conn string) (config : Config) : result Pool string * list Conn :=
  if str_empty (Target config) then (Err "grpcpool: Target required"%string, [])
  else
    let c := defaults config in
    match dial_from dial 0 (Z.to_nat (Size c)) with
    | (cs, Some e) => (Err (str_app "grpcpool: dial " (str_app (Target c) (str_app ": " e))), cs)
    | (cs, None) =>
        (Ok {| cfg := c; conns := cs; idx := 0; state := StateClosed; failures := 0; openedAt := 0; trialInFlight := false |}, [])
    end.

(** [Close]: every connection is closed, the first error is reported, the pool is empty. *)
Definition Close (close_error : Conn → option string) (p : Pool) : option string * Pool :=
  (head (omap close_error (conns p)),
   {| cfg := cfg p; conns := []; idx := idx p; state := state p; failures := failures p; openedAt := openedAt p;
      trialInFlight := trialInFlight p |}).

(** ** The breaker: each function is one critical section, with the state it publishes. *)

Definition allow (now : Time) (p : Pool) : bool * Pool * option State :=
  match state p with
  | StateClosed => (true, p, None)
  | StateOpen =>
      if now - openedAt p <? OpenFor (cfg p) then (false, p, None)
      else (true, with_breaker StateHalfOpen (failures p) (openedAt p) true p, Some StateHalfOpen)
  | StateHalfOpen =>
      if trialInFlight p then (false, p, None)
      else (true, with_breaker StateHalfOpen (failures p) (openedAt p) true p, None)
  end.

Definition changed (before after : State) : option State := if decide (before = after) then None else Some after.

Definition report (success : bool) (now : Time) (p : Pool) : Pool * option State :=
  let wasHalfOpen := bool_decide (state p = StateHalfOpen) in
  if success then
    (with_breaker StateClosed 0 (openedAt p) (if wasHalfOpen then false else trialInFlight p) p,
     changed (state p) StateClosed)
  else
    let n := failures p + 1 in
    if wasHalfOpen then (with_breaker StateOpen n now false p, Some StateOpen)
    else if Threshold (cfg p) <=? n then (with_breaker StateOpen n now (trialInFlight p) p, changed (state p) StateOpen)
    else (with_breaker (state p) n (openedAt p) (trialInFlight p) p, None).

(** [State()], which moves an open breaker on when its time has come. *)
Definition read_state (now : Time) (p : Pool) : State * Pool * option State :=
  match state p with
  | StateOpen =>
      if OpenFor (cfg p) <=? now - openedAt p
      then (StateHalfOpen, with_breaker StateHalfOpen (failures p) (openedAt p) (trialInFlight p) p, Some StateHalfOpen)
      else (StateOpen, p, None)
  | s => (s, p, None)
  end.

(** What [Borrow] hands out: a connection and the deadline set on the context, an open
    circuit, or the panic of a remainder by zero. *)
Inductive borrowed :=
| Lent (conn : Conn) (deadline : option Time)
| ErrCircuitOpen
| DivideByZero.

Definition two64 : Z := 2 ^ 64.

Definition Borrow (now : Time) (p : Pool) : borrowed * Pool * option State :=
  match allow now p with
  | (false, p1, pub) => (ErrCircuitOpen, p1, pub)
  | (true, p1, pub) =>
      let i := (idx p1 + 1) mod two64 in
      let p2 := {| cfg := cfg p1; conns := conns p1; idx := i; state := state p1; failures := failures p1;
                   openedAt := openedAt p1; trialInFlight := trialInFlight p1 |} in
      let n := Z.of_nat (length (conns p1)) in
      match conns p1 !! Z.to_nat (((i - 1) mod two64) mod n) with
      | Some c => (Lent c (if 0 <? Deadline (cfg p1) then Some (now + Deadline (cfg p1)) else None), p2, pub)
      | None => (DivideByZero, p2, pub)
      end
  end.

(** ** Several callers *)

Record Sys := {
  pool : Pool;
  unpublished : list Z;      (** gauge writes of calls that have released the lock *)
  gauge : Z;
  reports : list bool;       (** the outcomes reported so far, in order *)
  lent : list Conn           (** the connections handed out, in order *)
}.

Inductive action :=
| ABorrow (now : Time)
| AReport (success : bool) (now : Time)
| AState (now : Time)
| APublish (i : nat).

Definition queue (pub : option State) (l : list Z) : list Z :=
  match pub with Some s => l ++ [gaugeValueForState s] | None => l end.

Definition act (a : action) (s : Sys) : Sys :=
  match a with
  | ABorrow now =>
      let '(b, p, pub) := Borrow now (pool s) in
      {| pool := p; unpublished := queue pub (unpublished s); gauge := gauge s; reports := reports s;
         lent := match b with Lent c _ => lent s ++ [c] | _ => lent s end |}
  | AReport ok now =>
      let '(p, pub) := report ok now (pool s) in
      {| pool := p; unpublished := queue pub (unpublished s); gauge := gauge s; reports := reports s ++ [ok]; lent := lent s |}
  | AState now =>
      let '(_, p, pub) := read_state now (pool s) in
      {| pool := p; unpublished := queue pub (unpublished s); gauge := gauge s; reports := reports s; lent := lent s |}
  | APublish i =>
      match unpublished s !! i with
      | Some v => {| pool := pool s; unpublished := take i (unpublished s) ++ drop (S i) (unpublished s); gauge := v;
                     reports := reports s; lent := lent s |}
      | None => s
      end
  end.

Definition start (p : Pool) : Sys := {| pool := p; unpublished := []; gauge := 0; reports := []; lent := [] |}.

Fixpoint run (l : list action) (s : Sys) : Sys :=
  match l with [] => s | a :: rest => run rest (act a s) end.

(** ** The breaker as a function of the reports *)

(** How many calls failed since the last success. *)
Fixpoint failed_since (acc : Z) (rs : list bool) : Z :=
  match rs with
  | [] => acc
  | true :: rest => failed_since 0 rest
  | false :: rest => failed_since (acc + 1) rest
  end.

Lemma failed_since_snoc acc rs ok : failed_since acc (rs ++ [ok]) = if ok then 0 else failed_since acc rs + 1.
Proof. revert acc. induction rs as [|[] rs IH]; intros acc; simpl; [by destruct ok|apply IH..]. Qed.

Lemma failed_since_nonneg acc rs : 0 ≤ acc → 0 ≤ failed_since acc rs.
Proof. revert acc. induction rs as [|[] rs IH]; intros acc Ha; simpl; [done|apply IH; lia..]. Qed.

Record tracks (threshold : Z) (s : Sys) : Prop := {
  tr_config : Threshold (cfg (pool s)) = threshold;
  tr_failures : failures (pool s) = failed_since 0 (reports s);
  tr_closed : state (pool s) = StateClosed ↔ failed_since 0 (reports s) < threshold;
  tr_trial : trialInFlight (pool s) = true → state (pool s) = StateHalfOpen
}.

Lemma allow_tracks now p ok p' pub :
  allow now p = (ok, p', pub) →
  cfg p' = cfg p ∧ conns p' = conns p ∧ idx p' = idx p ∧ failures p' = failures p ∧
  (state p' = StateClosed ↔ state p = StateClosed) ∧
  ((trialInFlight p = true → state p = StateHalfOpen) → trialInFlight p' = true → state p' = StateHalfOpen).
Proof.
  unfold allow. destruct (state p) eqn:Hs; [by intros [= <- <- <-]; rewrite Hs|..].
  - destruct (_ <? _); intros [= <- <- <-]; simpl; by rewrite ?Hs.
  - destruct (trialInFlight p); intros [= <- <- <-]; simpl; by rewrite ?Hs.
Qed.

Lemma tracks_step threshold a s : 0 < threshold → tracks threshold s → tracks threshold (act a s).
Proof.
  intros Hpos [Hc Hf Hs Ht]. destruct a as [now|ok now|now|i]; simpl.
  - unfold Borrow. destruct (allow now (pool s)) as [[ok p] pub] eqn:Ha.
    destruct (allow_tracks _ _ _ _ _ Ha) as (A1 & A2 & A3 & A4 & A5 & A6).
    destruct ok; [destruct (conns p !! _)|]; split; simpl; rewrite ?A1, ?A4, ?A5; auto.
  - pose proof (failed_since_nonneg 0 (reports s) ltac:(done)) as Hnn.
    unfold report. destruct ok.
    + split; simpl; rewrite ?failed_since_snoc; [done|done|by split|].
      destruct (bool_decide_reflect (state (pool s) = StateHalfOpen)) as [|Hn]; [done|]. intros E. by apply Ht in E.
    + destruct (bool_decide_reflect (state (pool s) = StateHalfOpen)) as [Hh|Hn]; simpl.
      * split; simpl; rewrite ?failed_since_snoc; [done|lia| |done].
        split; [done|]. intros E. assert (Hcl : state (pool s) = StateClosed) by (apply Hs; lia). congruence.
      * assert (Htr : trialInFlight (pool s) = false).
        { destruct (trialInFlight (pool s)); [|done]. by destruct Hn; apply Ht. }
        destruct (Z.leb_spec (Threshold (cfg (pool s))) (failures (pool s) + 1)) as [Hle|Hgt]; simpl; rewrite Htr.
        -- split; simpl; rewrite ?failed_since_snoc; [done|lia| |done]. split; [done|lia].
        -- split; simpl; rewrite ?failed_since_snoc; [done|lia| |done]. rewrite Hs. lia.
  - unfold read_state. destruct (state (pool s)) eqn:Hst; simpl; [by split; simpl; rewrite ?Hst| |by split; simpl; rewrite ?Hst].
    destruct (_ <=? _); split; simpl; rewrite ?Hst; auto. by rewrite <- Hs.
  - destruct (unpublished s !! i); by split.
Qed.

Lemma tracks_run threshold l s : 0 < threshold → tracks threshold s → tracks threshold (run l s).
Proof. intros Hpos. revert s. induction l as [|a l IH]; intros s Hs; [done|]. by apply IH, tracks_step. Qed.

Lemma tracks_start dial config p closed :
  New dial config = (Ok p, closed) → 0 < Threshold (cfg p) ∧ tracks (Threshold (cfg p)) (start p).
Proof.
  unfold New. destruct (str_empty _); [done|]. destruct (dial_from _ _ _) as [cs [e|]]; [done|].
  intros [= <- _]. simpl. assert (0 < (if Threshold config <=? 0 then 5 else Threshold config)) by (destruct (Z.leb_spec (Threshold config) 0); lia).
  split; [done|]. by split.
Qed.

(** ** Admission *)

Definition is_report (a : action) : bool := match a with AReport _ _ => true | _ => false end.

(** No call before [t]. *)
Definition before (t : Time) (a : action) : bool :=
  match a with ABorrow now | AState now => now <? t | _ => true end.

Lemma refused_step a s :
  is_report a = false →
  (state (pool s) = StateHalfOpen ∧ trialInFlight (pool s) = true ∨
   state (pool s) = StateOpen ∧ before (openedAt (pool s) + OpenFor (cfg (pool s))) a = true) →
  lent (act a s) = lent s ∧ pool (act a s) = pool s.
Proof.
  intros Ha Hs. destruct a as [now|ok now|now|i]; [| |..]; simpl in *; [|done|..].
  - unfold Borrow, allow. destruct Hs as [[-> ->]|[-> Hn]]; [done|].
    apply Z.ltb_lt in Hn. by rewrite (proj2 (Z.ltb_lt _ _)) by lia.
  - unfold read_state. destruct Hs as [[-> _]|[-> Hn]]; [done|].
    apply Z.ltb_lt in Hn. by rewrite (proj2 (Z.leb_gt _ _)) by lia.
  - by destruct (unpublished s !! i).
Qed.

(** An open breaker lends no connection until OpenFor has passed, and a half-open
    breaker lends none beside the trial, until an outcome is reported. *)
Theorem open_pool_lends_nothing l s :
  forallb (λ a, negb (is_report a)) l = true →
  (state (pool s) = StateHalfOpen ∧ trialInFlight (pool s) = true ∨
   state (pool s) = StateOpen ∧ forallb (before (openedAt (pool s) + OpenFor (cfg (pool s)))) l = true) →
  lent (run l s) = lent s ∧ pool (run l s) = pool s.
Proof.
  revert s. induction l as [|a l IH]; intros s Hl Hs; [done|]. simpl in Hl. apply andb_true_iff in Hl as [Ha%negb_true_iff Hl].
  destruct (refused_step a s Ha) as [E1 E2].
  { destruct Hs as [Hs|[Hs Hb]]; [by left|right]. split; [done|]. by apply andb_true_iff in Hb as [Hb _]. }
  simpl. rewrite <- E1, <- E2. apply IH; [done|]. rewrite E2.
  destruct Hs as [Hs|[Hs Hb]]; [by left|right]. split; [done|]. by apply andb_true_iff in Hb as [_ Hb].
Qed.

(** ** A tripped breaker *)

(** What calls may have got out of a tripped breaker before an outcome is reported:
    nothing, or one connection, for the trial that is then in flight. *)
Definition trial_at_most (s s' : Sys) : Prop :=
  lent s' = lent s ∧ state (pool s') ≠ StateClosed ∨
  ∃ c, lent s' = lent s ++ [c] ∧ state (pool s') = StateHalfOpen ∧ trialInFlight (pool s') = true.

Lemma trial_at_most_step s s' a :
  is_report a = false → trial_at_most s s' → trial_at_most s (act a s').
Proof.
  unfold trial_at_most. intros Ha [[Hl Hs]|(c & Hl & Hs & Ht)].
  - destruct a as [now|ok now|now|i]; [|done|..]; simpl.
    + unfold Borrow, allow. destruct (state (pool s')) eqn:E; [done|..].
      * destruct (_ <? _); simpl; [left; by rewrite E|].
        destruct (conns (pool s') !! _) as [c|]; simpl; [right; exists c; by rewrite Hl|by left].
      * destruct (trialInFlight (pool s')); simpl; [left; by rewrite E|].
        destruct (conns (pool s') !! _) as [c|]; simpl; [right; exists c; by rewrite Hl|by left].
    + unfold read_state. destruct (state (pool s')) eqn:E; [done|..]; [destruct (_ <=? _)|]; left; simpl; by rewrite ?E.
    + by destruct (unpublished s' !! i); left.
  - destruct (refused_step a s' Ha) as [E1 E2]; [by left|].
    right. exists c. by rewrite E1, E2.
Qed.

Lemma trial_at_most_run l s s' :
  forallb (λ a, negb (is_report a)) l = true → trial_at_most s s' → trial_at_most s (run l s').
Proof.
  revert s'. induction l as [|a l IH]; intros s' Hl Hs; [done|]. simpl in *.
  apply andb_true_iff in Hl as [Ha%negb_true_iff Hl]. by apply IH, trial_at_most_step.
Qed.

Lemma conns_step a s : conns (pool (act a s)) = conns (pool s) ∧ cfg (pool (act a s)) = cfg (pool s).
Proof.
  destruct a as [now|ok now|now|i]; simpl.
  - unfold Borrow. destruct (allow now (pool s)) as [[ok p] pub] eqn:Ha.
    destruct (allow_tracks _ _ _ _ _ Ha) as (A1 & A2 & _). destruct ok; [destruct (conns p !! _)|]; by rewrite ?A1, ?A2.
  - unfold report. by destruct ok; [|destruct (bool_decide _); [|destruct (_ <=? _)]].
  - unfold read_state. by destruct (state (pool s)); [|destruct (_ <=? _)|].
  - by destruct (unpublished s !! i).
Qed.

Lemma conns_run l s : conns (pool (run l s)) = conns (pool s) ∧ cfg (pool (run l s)) = cfg (pool s).
Proof.
  revert s. induction l as [|a l IH]; intros s; [done|]. simpl. destruct (IH (act a s)) as [-> ->]. apply conns_step.
Qed.

Lemma Borrow_lends now p :
  conns p ≠ [] → (∃ p' pub, allow now p = (true, p', pub)) → ∃ c d p' pub, Borrow now p = (Lent c d, p', pub).
Proof.
  intros Hne (p1 & pub & Ha). unfold Borrow. rewrite Ha.
  destruct (allow_tracks _ _ _ _ _ Ha) as (_ & A2 & _). rewrite A2.
  assert (Hlen : (0 < length (conns p))%nat) by (destruct (conns p); simpl; [done|lia]).
  destruct (lookup_lt_is_Some_2 (conns p)
    (Z.to_nat (((idx p1 + 1) mod two64 - 1) mod two64 mod Z.of_nat (length (conns p))))) as [c ->]; [|eauto].
  pose proof (Z.mod_pos_bound (((idx p1 + 1) mod two64 - 1) mod two64) (Z.of_nat (length (conns p)))). lia.
Qed.

(** ** Turns *)

(** The connections of [k] turns from the first. *)
Definition turns (cs : list Conn) (k : nat) : list Conn := omap (λ i, cs !! (i mod length cs)%nat) (seq 0 k).

Record in_turn (cs : list Conn) (s : Sys) : Prop := {
  it_conns : conns (pool s) = cs;
  it_idx : idx (pool s) = Z.of_nat (length (lent s));
  it_lent : lent s = turns cs (length (lent s))
}.

Lemma in_turn_step cs a s :
  cs ≠ [] → Z.of_nat (length (lent s)) + 1 < two64 → in_turn cs s → in_turn cs (act a s).
Proof.
  intros Hne Hb [Hc Hi Hl]. destruct a as [now|ok now|now|i]; simpl.
  - unfold Borrow. destruct (allow now (pool s)) as [[ok p] pub] eqn:Ha.
    destruct (allow_tracks _ _ _ _ _ Ha) as (A1 & A2 & A3 & A4 & _). destruct ok; [|split; simpl; congruence].
    rewrite A2, A3, Hc, Hi. rewrite (Z.mod_small (_ + 1)) by lia. rewrite Z.add_simpl_r, (Z.mod_small (Z.of_nat _)) by lia.
    rewrite <- Nat2Z.inj_mod, Nat2Z.id.
    assert (Hlen : (length (lent s) `mod` length cs < length cs)%nat) by (apply Nat.mod_upper_bound; by destruct cs).
    destruct (lookup_lt_is_Some_2 cs _ Hlen) as [c Hcl]. rewrite Hcl. split; simpl; [congruence|rewrite length_app; simpl; lia|].
    rewrite length_app. simpl. rewrite Hl at 1. unfold turns. rewrite seq_app, omap_app. f_equal. simpl. by rewrite Hcl.
  - destruct (report ok now (pool s)) as [p pub] eqn:Hr. revert Hr. unfold report.
    destruct ok; [|destruct (bool_decide _); [|destruct (_ <=? _)]]; intros [= <- <-]; by split.
  - unfold read_state. destruct (state (pool s)); [by split| |by split]. destruct (_ <=? _); by split.
  - destruct (unpublished s !! i); by split.
Qed.

Lemma lent_grows a s : (length (lent (act a s)) ≤ length (lent s) + 1)%nat.
Proof.
  destruct a as [now|ok now|now|i]; simpl.
  - destruct (Borrow now (pool s)) as [[[] ?] ?]; simpl; rewrite ?length_app; simpl; lia.
  - destruct (report ok now (pool s)). simpl. lia.
  - destruct (read_state now (pool s)) as [[] ?]. simpl. lia.
  - destruct (unpublished s !! i); simpl; lia.
Qed.

Lemma in_turn_run cs l s :
  cs ≠ [] → Z.of_nat (length (lent s) + length l) < two64 → in_turn cs s → in_turn cs (run l s).
Proof.
  intros Hne. revert s. induction l as [|a l IH]; intros s Hb Hs; [done|]. simpl in *.
  apply IH; [|apply in_turn_step; [done|lia|done]]. pose proof (lent_grows a s). lia.
Qed.

Lemma dial_from_spec dial i k cs : dial_from dial i k = (cs, None) → length cs = k.
Proof.
  revert i cs. induction k as [|k IH]; intros i cs; simpl; [by intros [= <-]|].
  destruct (dial i) as [c|e]; [|done]. destruct (dial_from dial (S i) k) as [cs' e'] eqn:E. intros [= <- ->].
  simpl. by rewrite (IH _ _ E).
Qed.

Lemma New_shape dial config p closed :
  New dial config = (Ok p, closed) → conns p ≠ [] ∧ idx p = 0 ∧ Z.of_nat (length (conns p)) = Size (cfg p).
Proof.
  unfold New. destruct (str_empty _); [done|]. destruct (dial_from _ _ _) as [cs [e|]] eqn:Hd; [done|].
  intros [= <- _]. apply dial_from_spec in Hd. cbn [conns idx cfg].
  assert (0 < Size (defaults config)) by (simpl; destruct (Z.leb_spec (Size config) 0); lia).
  split_and!; [|done|lia]. intros ->. cbn [length] in Hd. lia.
Qed.

(** C29: the breaker keeps its promise, in every interleaving of calls, outcomes,
    health checks and gauge writes on a pool that was constructed. Once Threshold
    calls in a row failed it is not closed. From an open or half-open breaker, and until an
    outcome is reported, at most one more connection is lent, for a trial, which leaves the
    breaker half-open with its trial in flight; none at all is lent by an open breaker as
    long as calls and checks come before OpenFor has passed, and a call that comes to an
    open breaker after that gets one. And the outcome reported to a half-open breaker
    decides: success closes it, failure opens it again from then on. *)
Theorem tripped_breaker_contract dial config p closed l :
  New dial config = (Ok p, closed) →
  let s := run l (start p) in
  (Threshold (cfg p) ≤ failed_since 0 (reports s) → state (pool s) ≠ StateClosed) ∧
  (∀ l', state (pool s) ≠ StateClosed → forallb (λ a, negb (is_report a)) l' = true →
     trial_at_most s (run l' s) ∧
     (state (pool s) = StateOpen → forallb (before (openedAt (pool s) + OpenFor (cfg (pool s)))) l' = true →
        lent (run l' s) = lent s ∧ state (pool (run l' s)) = StateOpen)) ∧
  (∀ now, state (pool s) = StateOpen → openedAt (pool s) + OpenFor (cfg (pool s)) ≤ now →
     ∃ c, lent (act (ABorrow now) s) = lent s ++ [c] ∧ state (pool (act (ABorrow now) s)) = StateHalfOpen) ∧
  (∀ ok now, state (pool s) = StateHalfOpen →
     let p' := pool (act (AReport ok now) s) in
     state p' = (if ok then StateClosed else StateOpen) ∧ trialInFlight p' = false ∧
     (ok = false → openedAt p' = now)).
Proof.
  intros Hnew s. destruct (tracks_start _ _ _ _ Hnew) as [Hpos Hs].
  destruct (tracks_run _ l _ Hpos Hs) as [_ _ Hcl _]. fold s in Hcl.
  destruct (New_shape _ _ _ _ Hnew) as (Hne & _).
  split_and!.
  - intros Hle E%Hcl. lia.
  - intros l' Hst Hl. split; [apply trial_at_most_run; [done|by left]|].
    intros Ho Hb. destruct (open_pool_lends_nothing l' s Hl) as [-> ->]; [by right|done].
  - intros now Ho Hle.
    assert (Ha : allow now (pool s) = (true, with_breaker StateHalfOpen (failures (pool s)) (openedAt (pool s)) true (pool s), Some StateHalfOpen)).
    { unfold allow. rewrite Ho. by rewrite (proj2 (Z.ltb_ge _ _)) by lia. }
    destruct (Borrow_lends now (pool s)) as (c & d & p' & pub & Hb).
    { destruct (conns_run l (start p)) as [E _]. fold s in E. by rewrite E. }
    { eauto. }
    exists c. simpl. rewrite Hb. simpl. split; [done|].
    unfold Borrow in Hb. rewrite Ha in Hb. destruct (conns _ !! _); [|done].
    by apply (f_equal (λ x, state x.1.2)) in Hb.
  - intros ok now Hh. simpl. unfold report. rewrite (bool_decide_eq_true_2 _ Hh). by destruct ok.
Qed.

(** The pool dials Size connections and lends them in turn: whatever else happens in
    between, the k-th connection lent is the one at position k modulo Size. *)
Theorem pool_takes_turns dial config p closed l :
  New dial config = (Ok p, closed) → Z.of_nat (length l) < two64 →
  let s := run l (start p) in
  Z.of_nat (length (conns p)) = Size (cfg p) ∧
  lent s = turns (conns p) (length (lent s)) ∧
  ∀ k c, lent s !! k = Some c → conns p !! (k mod length (conns p))%nat = Some c.
Proof.
  intros (Hne & Hi & Hsz)%New_shape Hb s.
  assert (Hs : in_turn (conns p) s) by (apply in_turn_run; [done|done|by split]).
  split_and!; [done|by apply Hs|]. intros k c. rewrite (it_lent _ _ Hs). unfold turns.
  generalize (length (lent s)). intros n.
  assert (Hall : omap (λ i, conns p !! (i mod length (conns p))%nat) (seq 0 n)
                 = (λ i, default c (conns p !! (i mod length (conns p))%nat)) <$> seq 0 n).
  { induction (seq 0 n) as [|i js IH]; [done|]. cbn [omap list_omap]. rewrite fmap_cons.
    destruct (lookup_lt_is_Some_2 (conns p) (i mod length (conns p))) as [x ->].
    - apply Nat.mod_upper_bound. by destruct (conns p).
    - simpl. by rewrite <- IH. }
  rewrite Hall, list_lookup_fmap. intros (i & Hi' & Hc)%fmap_Some. apply lookup_seq in Hi' as [-> Hk]. simpl in Hc.
  destruct (lookup_lt_is_Some_2 (conns p) (k mod length (conns p))) as [x Hx].
  - apply Nat.mod_upper_bound. by destruct (conns p).
  - rewrite Hx in Hc |- *. simpl in Hc. by rewrite Hc.
Qed.

(** A failed dial closes every connection made before it. *)
Theorem New_failure_closes dial config e closed :
  New dial config = (Err e, closed) →
  ∀ k, (k < length closed)%nat → ∃ c, dial k = Ok c ∧ closed !! k = Some c.
Proof.
  unfold New. destruct (str_empty _); [intros [= _ <-] k; simpl; lia|].
  destruct (dial_from _ _ _) as [cs [e'|]] eqn:Hd; [|done]. intros [= _ <-].
  assert (Hgen : ∀ k i cs e, dial_from dial i k = (cs, e) → ∀ j, (j < length cs)%nat → ∃ c, dial (i + j)%nat = Ok c ∧ cs !! j = Some c).
  { induction k as [|k IH]; intros i cs0 e0; simpl; [intros [= <- _] j; simpl; lia|].
    destruct (dial i) as [c|e1] eqn:Hc; [|intros [= <- _] j; simpl; lia].
    destruct (dial_from dial (S i) k) as [cs' e2] eqn:E. intros [= <- _] [|j] Hj; simpl in *.
    - exists c. by rewrite Nat.add_0_r.
    - destruct (IH _ _ _ E j ltac:(lia)) as (c' & Hc' & Hl). exists c'. by rewrite Nat.add_succ_r. }
  intros k Hk. exact (Hgen _ _ _ _ Hd k Hk).
Qed.
End Pool.
Arguments Pool : clear implicits.
Arguments Sys : clear implicits.

(** ** Samples *)

Definition sample_config : Config := {| Target := "docling:50051"; Size := 2; Deadline := 0; Threshold := 2; OpenFor := 10 |}.
Definition sample_dial (n : nat) : result nat string := Ok n.
Definition sample_pool : Pool nat :=
  {| cfg := sample_config; conns := [0; 1]%nat; idx := 0; state := StateClosed; failures := 0; openedAt := 0; trialInFlight := false |}.
Example sample_new : New sample_dial sample_config = (Ok sample_pool, []).
Proof. reflexivity. Qed.

Definition sample_trace : list action := [ABorrow 0; ABorrow 0; ABorrow 1; AReport false 2; AReport false 3; ABorrow 5; ABorrow 13].

(** Tripped by two failures, then a call too early, the trial, and a call beside it. *)
Lemma tripped_breaker_contract_witness :
  let s := run (take 5 sample_trace) (start sample_pool) in
  state (pool s) = StateOpen ∧ trial_at_most s (run [ABorrow 5; ABorrow 13; ABorrow 14] s) ∧
  length (lent (run [ABorrow 5; ABorrow 13; ABorrow 14] s)) = S (length (lent s)).
Proof.
  split; [reflexivity|split; [|reflexivity]].
  destruct (tripped_breaker_contract sample_dial sample_config sample_pool [] (take 5 sample_trace) sample_new)
    as (_ & H & _).
  apply H; [discriminate|reflexivity].
Defined.

Lemma open_pool_lends_nothing_witness :
  lent (run [ABorrow 14; AState 20] (run sample_trace (start sample_pool))) = lent (run sample_trace (start sample_pool)).
Proof. apply open_pool_lends_nothing; [reflexivity|]. left. by split. Defined.

Lemma pool_takes_turns_witness :
  lent (run sample_trace (start sample_pool)) = turns [0; 1]%nat 4.
Proof.
  destruct (pool_takes_turns sample_dial sample_config sample_pool [] sample_trace sample_new) as (_ & Ht & _); [by vm_compute|].
  exact Ht.
Defined.

(** Two gauge writes in the wrong order: the breaker is open and the gauge says closed. *)
Example gauge_overtaken :
  let s := run [AReport false 1; AReport false 2; AReport true 3; AReport false 4; AReport false 5;
                APublish 0; APublish 1; APublish 0] (start sample_pool) in
  state (pool s) = StateOpen ∧ unpublished s = [] ∧ gauge s = gaugeValueForState StateClosed.
Proof. by vm_compute. Qed.

(** A success reported late by a call made before the trip closes the breaker at once. *)
Example late_success_closes_pool :
  state (pool (run [ABorrow 0; AReport false 1; AReport false 2; AReport true 3] (start sample_pool))) = StateClosed.
Proof. reflexivity. Qed.
End GrpcPool.
