(* ===== verification/Notifications.v ===== *)
(** * Notifications (admin/notification.go, notification_gorm.go, notification_delivery_log.go,
      notification_retry_worker.go)

    Subscriptions, webhook delivery with its in-process retries, the delivery log, and
    the worker that retries failed rows. Database calls may fail, with or without
    effect; the answers of webhooks come from outside, by the number of the request. *)

From S2P Require Import Prelude GoString Effects.

Module Notifications.
Local Open Scope Z_scope.

Definition NotificationChannelWebhook : string := "webhook".
Definition NotificationChannelEmail : string := "email".

Record NotificationPreference := {
  ID : string; TenantID : string; EventType : string; Channel : string; Target : string;
  Enabled : bool; CreatedAt : Time; UpdatedAt : Time
}.

Definition Validate (n : NotificationPreference) : option string :=
  if str_empty (TenantID n) then Some "notification: missing tenant_id"%string
  else if str_empty (EventType n) then Some "notification: missing event_type"%string
  else if str_empty (Target n) then Some "notification: missing target"%string
  else if str_eqb (Channel n) NotificationChannelWebhook || str_eqb (Channel n) NotificationChannelEmail then None
  else Some "notification: invalid channel"%string.

Definition NotificationDeliveryStatusDelivered : string := "delivered".
Definition NotificationDeliveryStatusFailed : string := "failed".
Definition NotificationDeliveryStatusPending : string := "pending".

Section Values.
(** Values of the payload. *)
Context {V : Type}.

(** A payload that is a JSON object, or any other value. *)
Inductive Payload := PMap (m : gmap string V) | POther (v : V).

Record Body := { b_tenant_id : string; b_event_type : string; b_payload : Payload; b_ts : Time }.

Record NotificationDeliveryAttempt := {
  a_ID : string; a_TenantID : string; PreferenceID : string; a_EventType : string; a_Channel : string; a_Target : string;
  a_Payload : gmap string V; Status : string; Attempt : Z; ResponseCode : Z; ErrorMessage : string;
  NextRetryAt : option Time; a_CreatedAt : Time; a_UpdatedAt : Time
}.

Record DeliveryResult := { StatusCode : Z; Attempts : Z }.

(** The tables, the requests made and the pauses between them. *)
Record World := {
  preferences : gmap string NotificationPreference;
  delivery_log : gmap string NotificationDeliveryAttempt;
  posts : list (string * Body);
  slept : list Z
}.

Definition on_preferences f (s : World) : World :=
  {| preferences := f (preferences s); delivery_log := delivery_log s; posts := posts s; slept := slept s |}.
Definition on_log f (s : World) : World :=
  {| preferences := preferences s; delivery_log := f (delivery_log s); posts := posts s; slept := slept s |}.
Definition post (target : string) (b : Body) (s : World) : World :=
  {| preferences := preferences s; delivery_log := delivery_log s; posts := posts s ++ [(target, b)]; slept := slept s |}.
Definition sleep (d : Z) (s : World) : World :=
  {| preferences := preferences s; delivery_log := delivery_log s; posts := posts s; slept := slept s ++ [d] |}.

Abbreviation M := (Eff World string) (only parsing).

Definition isRetryableResponseCode (code : Z) : bool := if code =? 0 then true else (500 <=? code) || (code =? 429).

Section Delivery.
Context `{Outside}.
(** The status of the n-th request, if an answer came; whether a URL can be parsed;
    whether the context has ended after the n-th request. *)
Context (answer : nat → option Z) (bad_url : string → bool) (cancelled : nat → bool).
Context (values : V → bool) (text : string → V) (ulid : nat → string) (accepts : NotificationPreference → bool).
(** The order in which the database returns rows it is not told to order. *)
Context (arrange : list NotificationPreference → list NotificationPreference)
        (arrange_log : list NotificationDeliveryAttempt → list NotificationDeliveryAttempt).

(** ** Webhooks *)

Definition defaultWebhookBackoff : list Z := [second; 5 * second; 15 * second].

Definition permanent (code : Z) : bool := (400 <=? code) && (code <? 500) && negb (code =? 429).

(** The attempt numbered [attempt], with the pauses still to come. *)
Fixpoint send_loop (target : string) (b : Body) (attempt : Z) (backoff : list Z) (s : World)
    : DeliveryResult * option string * World :=
  let res code := {| StatusCode := code; Attempts := attempt |} in
  if bad_url target then (res 0, Some "parse url"%string, s)
  else
    let n := length (posts s) in
    let s1 := post target b s in
    let again code err :=
      match backoff with
      | [] => (res code, Some err, s1)
      | d :: rest =>
          if cancelled n then (res code, Some "context canceled"%string, s1)
          else send_loop target b (attempt + 1) rest (sleep d s1)
      end in
    match answer n with
    | None => again 0 "transport"%string
    | Some code =>
        if code <? 400 then (res code, None, s1)
        else if permanent code then (res code, Some "webhook returned an error"%string, s1)
        else again code "webhook returned an error"%string
    end.

Definition Send (backoff : option (list Z)) (target channel : string) (b : Body) (s : World)
    : DeliveryResult * option string * World :=
  if negb (str_eqb channel NotificationChannelWebhook)
  then ({| StatusCode := 0; Attempts := 0 |}, Some "webhook delivery only supports webhook channel"%string, s)
  else send_loop target b 1 (default defaultWebhookBackoff backoff) s.

(** ** Subscriptions *)

Definition pref_rows (keep : NotificationPreference → bool) (s : World) : list NotificationPreference :=
  arrange (List.filter keep (snd <$> map_to_list (preferences s))).

Definition older (a b : NotificationPreference) : bool := CreatedAt a <? CreatedAt b.

Definition List_ (tenantID : string) : M (list NotificationPreference) :=
  if str_empty tenantID then eret []
  else eread "list"%string (λ s, sort_by older (pref_rows (λ p, str_eqb (TenantID p) tenantID) s)).

Definition subscribed (tenantID eventType : string) (p : NotificationPreference) : bool :=
  str_eqb (TenantID p) tenantID && str_eqb (EventType p) eventType && Enabled p.

Definition ListByEvent (tenantID eventType : string) : M (list NotificationPreference) :=
  if str_empty tenantID || str_empty eventType then eret []
  else eread "list"%string (pref_rows (subscribed tenantID eventType)).

(** The id column is [char(26)]; what else the database checks of a row is a parameter. *)
Definition id_width : nat := 26.
Definition row_fits (p : NotificationPreference) : bool := (str_len (ID p) <=? id_width)%nat && accepts p.

Definition stamped (id : string) (now : Time) (p : NotificationPreference) : NotificationPreference :=
  {| ID := if str_empty (ID p) then str_app "notif-" id else ID p; TenantID := TenantID p; EventType := EventType p;
     Channel := Channel p; Target := Target p; Enabled := Enabled p;
     CreatedAt := if time_is_zero (CreatedAt p) then now else CreatedAt p; UpdatedAt := now |}.

Definition Create (p : NotificationPreference) : M NotificationPreference := λ w,
  match Validate p with
  | Some e => (Err e, w)
  | None =>
      let row := stamped (ulid (calls_made w)) (clock (calls_made w) 0) p in
      (let@ ok := ecall "insert"%string
                    (λ s, if row_fits row && bool_decide (preferences s !! ID row = None)
                          then (true, on_preferences (insert (ID row) row) s) else (false, s)) in
       if ok then eret row else ethrow "insert rejected"%string) w
  end.

Definition Delete (tenantID id : string) : M unit :=
  if str_empty tenantID || str_empty id then ethrow "notification_gorm: missing tenant/id"%string
  else
    let@ n := ecall "delete"%string
                (λ s, match preferences s !! id with
                      | Some p => if str_eqb (TenantID p) tenantID then (true, on_preferences (delete id) s) else (false, s)
                      | None => (false, s)
                      end) in
    if n then eret tt else ethrow "notification: not found"%string.

(** The endpoints: the tenant of the context owns what is created. *)
Inductive Response := Unauthorized | BadRequest (e : string) | NotFound (e : string) | InternalError (e : string)
| Listed (rows : list NotificationPreference) | Created (row : NotificationPreference) | NoContent.

Definition list_endpoint (tenantID : string) (w : Env World) : Response * Env World :=
  if str_empty tenantID then (Unauthorized, w)
  else match List_ tenantID w with (Ok rows, w1) => (Listed rows, w1) | (Err e, w1) => (InternalError e, w1) end.

Definition owned_by (tenantID : string) (p : NotificationPreference) : NotificationPreference :=
  {| ID := ID p; TenantID := tenantID; EventType := EventType p; Channel := Channel p; Target := Target p;
     Enabled := true; CreatedAt := CreatedAt p; UpdatedAt := UpdatedAt p |}.

Definition create_endpoint (tenantID : string) (body : option NotificationPreference) (w : Env World) : Response * Env World :=
  if str_empty tenantID then (Unauthorized, w)
  else match body with
  | None => (BadRequest "invalid JSON", w)
  | Some p => match Create (owned_by tenantID p) w with (Ok row, w1) => (Created row, w1) | (Err e, w1) => (BadRequest e, w1) end
  end.

Definition delete_endpoint (tenantID id : string) (w : Env World) : Response * Env World :=
  if str_empty tenantID then (Unauthorized, w)
  else match Delete tenantID id w with (Ok _, w1) => (NoContent, w1) | (Err e, w1) => (NotFound e, w1) end.

(** ** The delivery log *)

Definition Append (a : NotificationDeliveryAttempt) : M unit := λ w,
  (if str_empty (a_TenantID a) then ethrow "notification_log: missing tenant_id"%string
   else
     let id := if str_empty (a_ID a) then ulid (calls_made w) else a_ID a in
     let now := clock (calls_made w) 0 in
     let row := {| a_ID := id; a_TenantID := a_TenantID a; PreferenceID := PreferenceID a; a_EventType := a_EventType a;
                   a_Channel := a_Channel a; a_Target := a_Target a; a_Payload := a_Payload a; Status := Status a;
                   Attempt := Attempt a; ResponseCode := ResponseCode a; ErrorMessage := ErrorMessage a;
                   NextRetryAt := NextRetryAt a;
                   a_CreatedAt := if time_is_zero (a_CreatedAt a) then now else a_CreatedAt a;
                   a_UpdatedAt := clock (calls_made w) 1 |} in
     let@ ok := ecall "insert"%string
                  (λ s, match delivery_log s !! id with None => (true, on_log (insert id row) s) | Some _ => (false, s) end) in
     if ok then eret tt else ethrow "duplicate key"%string) w.

Definition log_limit (limit : Z) : nat := Z.to_nat (if (limit <=? 0) || (1000 <? limit) then 100 else limit).

Definition newer (a b : NotificationDeliveryAttempt) : bool := a_CreatedAt b <? a_CreatedAt a.

Definition List_log (tenantID : string) (limit : Z) : M (list NotificationDeliveryAttempt) :=
  if str_empty tenantID then ethrow "notification_log: missing tenant_id"%string
  else eread "list"%string (λ s, take (log_limit limit)
         (sort_by newer (List.filter (λ a, str_eqb (a_TenantID a) tenantID) (snd <$> map_to_list (delivery_log s))))).

Definition pending (now : Time) (a : NotificationDeliveryAttempt) : bool :=
  match NextRetryAt a with Some t => t <=? now | None => false end.

Definition ListPending (now : Time) (limit : Z) : M (list NotificationDeliveryAttempt) :=
  eread "list"%string (λ s, take (log_limit limit)
    (arrange_log (List.filter (pending now) (snd <$> map_to_list (delivery_log s))))).

Definition patch (a : NotificationDeliveryAttempt) (at_ : Time) (r : NotificationDeliveryAttempt) : NotificationDeliveryAttempt :=
  {| a_ID := a_ID r; a_TenantID := a_TenantID r; PreferenceID := PreferenceID r; a_EventType := a_EventType r;
     a_Channel := a_Channel r; a_Target := a_Target r; a_Payload := a_Payload r; Status := Status a;
     Attempt := Attempt a; ResponseCode := ResponseCode a; ErrorMessage := ErrorMessage a;
     NextRetryAt := NextRetryAt a; a_CreatedAt := a_CreatedAt r; a_UpdatedAt := at_ |}.

Definition UpdateAttempt (a : NotificationDeliveryAttempt) : M unit := λ w,
  (if str_empty (a_ID a) then ethrow "notification_log: missing id"%string
   else ewrite "update"%string (on_log (alter (patch a (clock (calls_made w) 0)) (a_ID a)))) w.

(** ** Dispatch *)

Definition on_store {A} (f : World → A * World) (w : Env World) : A * Env World :=
  let '(a, s) := f (store w) in (a, {| store := s; calls_made := calls_made w |}).

Definition ignore (m : M unit) (w : Env World) : Env World := (m w).2.

Definition payload_values (p : Payload) : list V := match p with PMap m => snd <$> map_to_list m | POther v => [v] end.
Definition Marshal (b : Body) : option Body := if forallb values (payload_values (b_payload b)) then Some b else None.

(** The payload kept in the log: the object, over the event type. *)
Definition logged_payload (eventType : string) (p : Payload) : gmap string V :=
  match p with
  | PMap m => m ∪ {[ "event_type"%string := text eventType ]}
  | POther _ => {[ "event_type"%string := text eventType ]}
  end.

Definition attempt_row (tenantID eventType : string) (p : NotificationPreference) (payload : gmap string V)
    (result : DeliveryResult) (err : option string) (now : Time) : NotificationDeliveryAttempt :=
  let failed := match err with Some _ => true | None => false end in
  {| a_ID := ""; a_TenantID := tenantID; PreferenceID := ID p; a_EventType := eventType; a_Channel := Channel p;
     a_Target := Target p; a_Payload := payload;
     Status := if failed then NotificationDeliveryStatusFailed else NotificationDeliveryStatusDelivered;
     Attempt := 1; ResponseCode := StatusCode result; ErrorMessage := default EmptyString err;
     NextRetryAt := if failed && isRetryableResponseCode (StatusCode result) then Some (now + minute) else None;
     a_CreatedAt := 0; a_UpdatedAt := 0 |}.

Fixpoint deliver (has_log : bool) (backoff : option (list Z)) (tenantID eventType : string) (b : Body) (payload : gmap string V)
    (subs : list NotificationPreference) (firstErr : option string) (w : Env World) : option string * Env World :=
  match subs with
  | [] => (firstErr, w)
  | p :: rest =>
      let '((result, derr), w1) := on_store (Send backoff (Target p) (Channel p) b) w in
      let firstErr' := match firstErr with Some e => Some e | None => derr end in
      let w2 := if has_log
                then ignore (Append (attempt_row tenantID eventType p payload result derr (clock (calls_made w1) 2))) w1
                else w1 in
      deliver has_log backoff tenantID eventType b payload rest firstErr' w2
  end.

Definition Dispatch (has_log : bool) (backoff : option (list Z)) (tenantID eventType : string) (payload : Payload)
    (w : Env World) : option string * Env World :=
  match ListByEvent tenantID eventType w with
  | (Err e, w1) => (Some e, w1)
  | (Ok [], w1) => (None, w1)
  | (Ok subs, w1) =>
      match Marshal {| b_tenant_id := tenantID; b_event_type := eventType; b_payload := payload; b_ts := clock (calls_made w1) 0 |} with
      | None => (Some "json: unsupported value"%string, w1)
      | Some b => deliver has_log backoff tenantID eventType b (logged_payload eventType payload) subs None w1
      end
  end.

(** ** The retry worker *)

Definition DefaultMaxRetryAttempts : Z := 5.
Definition NewNotificationRetryWorker (maxAttempts : Z) : Z := if maxAttempts <=? 0 then DefaultMaxRetryAttempts else maxAttempts.

Definition outcome_of (maxAttempts : Z) (a : NotificationDeliveryAttempt) (result : DeliveryResult) (derr : option string) (now : Time)
    : NotificationDeliveryAttempt :=
  let n := Attempt a + 1 in
  let final := negb (isRetryableResponseCode (StatusCode result)) || (maxAttempts <=? n) in
  {| a_ID := a_ID a; a_TenantID := a_TenantID a; PreferenceID := PreferenceID a; a_EventType := a_EventType a;
     a_Channel := a_Channel a; a_Target := a_Target a; a_Payload := a_Payload a;
     Status := match derr with
               | None => NotificationDeliveryStatusDelivered
               | Some _ => if final then NotificationDeliveryStatusFailed else NotificationDeliveryStatusPending
               end;
     Attempt := n; ResponseCode := StatusCode result; ErrorMessage := default EmptyString derr;
     NextRetryAt := match derr with None => None | Some _ => if final then None else Some (now + n * minute) end;
     a_CreatedAt := a_CreatedAt a; a_UpdatedAt := a_UpdatedAt a |}.

Definition retryOne (backoff : option (list Z)) (maxAttempts : Z) (a : NotificationDeliveryAttempt) (w : Env World) : Env World :=
  match Marshal {| b_tenant_id := a_TenantID a; b_event_type := a_EventType a; b_payload := PMap (a_Payload a); b_ts := clock (calls_made w) 0 |} with
  | None => w
  | Some b =>
      let '((result, derr), w1) := on_store (Send backoff (a_Target a) (a_Channel a) b) w in
      ignore (UpdateAttempt (outcome_of maxAttempts a result derr (clock (calls_made w1) 1))) w1
  end.

Fixpoint retry_all (backoff : option (list Z)) (maxAttempts : Z) (rows : list NotificationDeliveryAttempt) (w : Env World) : Env World :=
  match rows with [] => w | a :: rest => retry_all backoff maxAttempts rest (retryOne backoff maxAttempts a w) end.

(** The number of rows processed. *)
Definition Tick (backoff : option (list Z)) (maxAttempts : Z) (w : Env World) : nat * Env World :=
  match ListPending (clock (calls_made w) 0) 100 w with
  | (Err _, w1) => (0%nat, w1)
  | (Ok rows, w1) => (length rows, retry_all backoff maxAttempts rows w1)
  end.

(** ** Webhook delivery *)

Definition retryable (r : option Z) : bool :=
  match r with None => true | Some code => negb (code <? 400) && negb (permanent code) end.
Definition code_of (r : option Z) : Z := default 0 r.
Definition accepted (r : option Z) : bool := match r with Some code => code <? 400 | None => false end.

(** A delivery that made [k] requests from the [n]-th on. *)
Record delivery (target : string) (b : Body) (backoff : list Z) (k : nat) (res : DeliveryResult) (err : option string) (s s' : World) : Prop := {
  dv_count : (1 ≤ k ≤ S (length backoff))%nat;
  dv_posts : posts s' = posts s ++ replicate k (target, b);
  dv_slept : slept s' = slept s ++ take (pred k) backoff;
  dv_tables : preferences s' = preferences s ∧ delivery_log s' = delivery_log s;
  dv_retried : ∀ i, (i < pred k)%nat → retryable (answer (length (posts s) + i)) = true;
  dv_status : StatusCode res = code_of (answer (length (posts s) + pred k));
  dv_ok : err = None ↔ accepted (answer (length (posts s) + pred k)) = true;
  dv_stop : (k < S (length backoff))%nat →
    retryable (answer (length (posts s) + pred k)) = false ∨ cancelled (length (posts s) + pred k) = true
}.

Lemma delivery_one target b backoff res err s :
  StatusCode res = code_of (answer (length (posts s))) → (err = None ↔ accepted (answer (length (posts s))) = true) →
  (backoff ≠ [] → retryable (answer (length (posts s))) = false ∨ cancelled (length (posts s)) = true) →
  delivery target b backoff 1 res err s (post target b s).
Proof.
  intros Hc He Hs. split; simpl; rewrite ?Nat.add_0_r; try done; [lia|by rewrite take_0, app_nil_r|lia|].
  intros Hk. apply Hs. intros ->. simpl in Hk. lia.
Qed.

Lemma delivery_more target b d rest k res err s s' :
  cancelled (length (posts s)) = false → retryable (answer (length (posts s))) = true →
  delivery target b rest k res err (sleep d (post target b s)) s' → delivery target b (d :: rest) (S k) res err s s'.
Proof.
  intros Hc Ha [Hk Hp Hs Ht Hr Hst Ho Hstop]. simpl in *. rewrite length_app in *. simpl in *.
  assert (E : ∀ i, (length (posts s) + 1 + i)%nat = (length (posts s) + S i)%nat) by lia.
  assert (Ek : (length (posts s) + 1 + pred k)%nat = (length (posts s) + k)%nat) by lia. rewrite Ek in *.
  split; simpl; try done; [lia| | | |].
  - by rewrite Hp, <- app_assoc.
  - rewrite Hs, <- app_assoc. f_equal. destruct k; [lia|done].
  - intros [|i] Hi; [by rewrite Nat.add_0_r|]. rewrite <- E. apply Hr. lia.
  - intros Hl. apply Hstop. lia.
Qed.

Lemma send_loop_spec target b attempt backoff s res err s' :
  bad_url target = false → send_loop target b attempt backoff s = (res, err, s') →
  ∃ k, delivery target b backoff k res err s s' ∧ Attempts res = attempt + Z.of_nat k - 1.
Proof.
  intros Hu. revert attempt s. induction backoff as [|d rest IH]; intros attempt s; simpl; rewrite Hu;
    destruct (answer (length (posts s))) as [code|] eqn:Ha.
  1,3: destruct (code <? 400) eqn:H4; [|destruct (permanent code) eqn:Hp].
  all: try destruct (cancelled (length (posts s))) eqn:Hca.
  all: try (intros [= <- <- <-]; exists 1%nat; split; [|simpl; lia]; apply delivery_one; rewrite ?Ha; simpl;
            rewrite ?H4, ?Hp; by auto).
  all: intros (k & Hd & Hat)%IH; exists (S k); split; [|lia]; eapply delivery_more; [done| |exact Hd];
       rewrite Ha; simpl; by rewrite ?H4, ?Hp.
Qed.

(** Delivery to a webhook makes between one and one more requests than there are
    pauses, all with the same body; every request but the last failed in a way worth
    retrying; the pauses are the first of the schedule; delivery succeeds exactly when
    the last request was answered below 400, and gives up early only on a permanent
    error or a cancelled context. *)
Theorem Send_contract backoff target b s res err s' :
  bad_url target = false → Send backoff target NotificationChannelWebhook b s = (res, err, s') →
  ∃ k, delivery target b (default defaultWebhookBackoff backoff) k res err s s' ∧ Attempts res = Z.of_nat k.
Proof.
  unfold Send. simpl. intros Hu (k & Hd & Hk)%send_loop_spec; [|done]. exists k. split; [done|lia].
Qed.

(** ** The retry budget *)

(** How often the worker will still pick a row. *)
Definition budget (maxAttempts : Z) (a : NotificationDeliveryAttempt) : nat :=
  match NextRetryAt a with None => 0 | Some _ => Z.to_nat (Z.max 1 (maxAttempts - Attempt a)) end.

Definition total (maxAttempts : Z) (t : gmap string NotificationDeliveryAttempt) : nat :=
  sum_list_with (budget maxAttempts) (snd <$> map_to_list t).

Lemma total_delete maxA t id a : t !! id = Some a → total maxA t = (budget maxA a + total maxA (delete id t))%nat.
Proof. intros Hl. unfold total. by rewrite <- (map_to_list_delete t id a Hl). Qed.

Lemma total_alter maxA (f : NotificationDeliveryAttempt → NotificationDeliveryAttempt) t id a :
  t !! id = Some a → total maxA (alter f id t) = (budget maxA (f a) + total maxA (delete id t))%nat.
Proof.
  intros Hl. rewrite (total_delete maxA (alter f id t) id (f a)); [|by rewrite lookup_alter_eq, Hl].
  by rewrite delete_alter_eq.
Qed.

Lemma budget_spent maxA a res derr now at_ :
  NextRetryAt a ≠ None → (budget maxA (patch (outcome_of maxA a res derr now) at_ a) < budget maxA a)%nat.
Proof.
  intros Hn. unfold budget. destruct (NextRetryAt a) as [t|]; [|done]. simpl.
  destruct derr as [e|]; [|lia]. destruct (isRetryableResponseCode (StatusCode res)); simpl; [|lia].
  destruct (Z.leb_spec maxA (Attempt a + 1)); lia.
Qed.

Lemma Send_tables backoff target channel b s :
  delivery_log (Send backoff target channel b s).2 = delivery_log s ∧ preferences (Send backoff target channel b s).2 = preferences s.
Proof.
  unfold Send. destruct (str_eqb channel NotificationChannelWebhook); simpl; [|done].
  destruct (send_loop _ _ _ _ s) as [[res err] s'] eqn:E. destruct (bad_url target) eqn:Hu.
  - revert E. destruct (default defaultWebhookBackoff backoff); simpl; rewrite Hu; by intros [= <- <- <-].
  - apply send_loop_spec in E as (k & Hd & _); [|done]. by destruct (dv_tables _ _ _ _ _ _ _ _ Hd).
Qed.

(** The calls of a stretch that were refused without effect. *)
Definition refused (n : nat) : bool := match fate n with Refused => true | _ => false end.
Definition refusals (lo hi : nat) : nat := length (List.filter refused (seq lo (hi - lo))).

Lemma refusals_split lo mid hi :
  (lo ≤ mid ≤ hi)%nat → refusals lo hi = (refusals lo mid + refusals mid hi)%nat.
Proof.
  intros Hm. unfold refusals. replace (hi - lo)%nat with ((mid - lo) + (hi - mid))%nat by lia.
  rewrite seq_app, List.filter_app, length_app. by replace (lo + (mid - lo))%nat with mid by lia.
Qed.

Lemma refusals_one n : refusals n (S n) = if refused n then 1%nat else 0%nat.
Proof. unfold refusals. replace (S n - n)%nat with 1%nat by lia. simpl. by destruct (refused n). Qed.

(** The log after one retry. *)
Lemma retryOne_log backoff maxA a w :
  (∀ v, values v = true) → str_empty (a_ID a) = false →
  let w' := retryOne backoff maxA a w in
  calls_made w' = S (calls_made w) ∧
  ((∃ res derr now at_, delivery_log (store w')
      = alter (patch (outcome_of maxA a res derr now) at_) (a_ID a) (delivery_log (store w))) ∨
   refused (calls_made w) = true ∧ delivery_log (store w') = delivery_log (store w)).
Proof.
  intros Hv Hid. unfold retryOne, Marshal. simpl. rewrite (proj2 (forallb_forall values _)) by auto.
  unfold on_store. match goal with |- context [Send ?x ?t ?c ?b ?s] => destruct (Send_tables x t c b s) as [Hl _];
    destruct (Send x t c b s) as [[res derr] s'] end.
  simpl in Hl. unfold ignore, UpdateAttempt. simpl. rewrite Hid. unfold ewrite, ecall, refused. simpl.
  destruct (fate (calls_made w)); simpl; (split; [done|]); rewrite Hl;
    [left; do 4 eexists; reflexivity|right; done|left; do 4 eexists; reflexivity].
Qed.

Definition wf (t : gmap string NotificationDeliveryAttempt) : Prop := keyed a_ID t ∧ t !! EmptyString = None.

Lemma retry_all_budget backoff maxA rows w :
  (∀ v, values v = true) → wf (delivery_log (store w)) → NoDup (a_ID <$> rows) →
  (∀ a, a ∈ rows → delivery_log (store w) !! a_ID a = Some a ∧ NextRetryAt a ≠ None) →
  let w' := retry_all backoff maxA rows w in
  (length rows + total maxA (delivery_log (store w'))
   ≤ total maxA (delivery_log (store w)) + refusals (calls_made w) (calls_made w'))%nat ∧
  (calls_made w ≤ calls_made w')%nat ∧ wf (delivery_log (store w')).
Proof.
  intros Hv. revert w. induction rows as [|a rows IH]; intros w Hwf Hnd Hin;
    [by simpl; split_and!; [lia|lia|]|].
  rewrite fmap_cons in Hnd. apply NoDup_cons in Hnd as [Hni Hnd]. destruct Hwf as [Hk He].
  destruct (Hin a ltac:(set_solver)) as [Ha Hdue].
  assert (Hid : str_empty (a_ID a) = false) by (apply str_empty_false; intros E; rewrite E, He in Ha; discriminate).
  destruct (retryOne_log backoff maxA a w Hv Hid) as [Hc Hlog]. cbn [retry_all length].
  destruct (IH (retryOne backoff maxA a w)) as (Hle & Hcalls & Hwf'); [..|split_and!; [|lia|done]].
  - destruct Hlog as [(res & derr & now & at_ & ->)|[_ ->]]; [|done].
    split; [by apply keyed_alter|]. rewrite lookup_alter_ne; [done|]. by apply str_empty_false.
  - done.
  - intros x Hx. destruct Hlog as [(res & derr & now & at_ & ->)|[_ ->]]; [|apply Hin; set_solver].
    rewrite lookup_alter_ne; [apply Hin; set_solver|]. intros E. apply Hni. rewrite E. by apply list_elem_of_fmap_2.
  - rewrite (refusals_split _ (S (calls_made w))), refusals_one by lia. rewrite Hc in Hle.
    destruct Hlog as [(res & derr & now & at_ & Hlog)|[Hr Hlog]]; rewrite Hlog in Hle.
    + rewrite (total_alter maxA _ _ _ a Ha) in Hle. rewrite (total_delete maxA _ _ _ Ha).
      pose proof (budget_spent maxA a res derr now at_ Hdue). lia.
    + rewrite Hr. lia.
Qed.

(** Any number of passes, with the rows each processed. *)
Fixpoint ticks (backoff : option (list Z)) (maxA : Z) (n : nat) (w : Env World) : list nat * Env World :=
  match n with
  | O => ([], w)
  | S n' => let '(k, w1) := Tick backoff maxA w in let '(ks, w2) := ticks backoff maxA n' w1 in (k :: ks, w2)
  end.

Lemma Tick_budget backoff maxA w k w' :
  (∀ v, values v = true) → (∀ l, arrange_log l ≡ₚ l) → wf (delivery_log (store w)) →
  Tick backoff maxA w = (k, w') →
  (k ≤ 100)%nat ∧ (calls_made w ≤ calls_made w')%nat ∧
  (k + total maxA (delivery_log (store w'))
   ≤ total maxA (delivery_log (store w)) + refusals (calls_made w) (calls_made w'))%nat ∧ wf (delivery_log (store w')).
Proof.
  intros Hv Har Hwf. unfold Tick, ListPending, eread, ecall. destruct (fate (calls_made w)) eqn:Hf; cbn [fst snd].
  2,3: intros [= <- <-]; simpl; split_and!; try lia; done.
  intros [= <- <-]. split; [rewrite length_take; change (log_limit 100) with 100%nat; lia|].
  match goal with |- context [retry_all _ _ ?rows ?v] =>
    destruct (retry_all_budget backoff maxA rows v) as (Hle & Hc & Hwf'); [done|done| | |] end.
  - rewrite fmap_take. eapply sublist_NoDup; [|apply sublist_take]. rewrite (Har _). by apply keyed_NoDup, Hwf.
  - intros a (i & Ha%list_elem_of_lookup_2 & _)%elem_of_take. rewrite (Har _) in Ha. apply (keyed_elem_of a_ID) in Ha as [Hl Hpd]; [|by apply Hwf].
    split; [done|]. unfold pending in Hpd. by destruct (NextRetryAt a).
  - cbn [calls_made store] in Hle, Hc. split_and!; [lia| |done].
    rewrite (refusals_split _ (S (calls_made w))) by lia. lia.
Qed.

(** C30: the retries end. Over any number of passes the worker processes no more rows
    than the attempts left to the rows that wait, and one more for each database call of these
    passes that was refused without effect, since a row whose update is refused (the worker
    ignores the error) is picked again: a row that was written back as delivered,
    failed for good or out of attempts is never picked again. A pass takes at most 100
    rows. Payloads in the log can be encoded, as what was read from a JSON column can, rows
    are under their non-empty ids, and the database returns each matching row once. *)
Theorem retries_are_bounded backoff maxA n w ks w' :
  (∀ v, values v = true) → (∀ l, arrange_log l ≡ₚ l) → wf (delivery_log (store w)) →
  ticks backoff maxA n w = (ks, w') →
  (sum_list ks + total maxA (delivery_log (store w'))
   ≤ total maxA (delivery_log (store w)) + refusals (calls_made w) (calls_made w'))%nat ∧
  Forall (λ k, k ≤ 100)%nat ks.
Proof.
  intros Hv Har Hwf Hts.
  assert (Hgen : (calls_made w ≤ calls_made w')%nat ∧ (sum_list ks + total maxA (delivery_log (store w'))
    ≤ total maxA (delivery_log (store w)) + refusals (calls_made w) (calls_made w'))%nat ∧ Forall (λ k, k ≤ 100)%nat ks);
    [|by destruct Hgen as (_ & ? & ?)].
  revert w ks w' Hwf Hts. induction n as [|n IH]; intros w ks w' Hwf; simpl;
    [by intros [= <- <-]; simpl; split_and!; [lia|lia|]|].
  destruct (Tick backoff maxA w) as [k w1] eqn:Ht. destruct (ticks backoff maxA n w1) as [ks1 w2] eqn:Hts.
  intros [= <- <-]. destruct (Tick_budget _ _ _ _ _ Hv Har Hwf Ht) as (Hk & Hc & Hle & Hwf1).
  destruct (IH _ _ _ Hwf1 Hts) as (Hc2 & Hle2 & Hall). simpl. split_and!; [lia| |by constructor].
  rewrite (refusals_split _ (calls_made w1)) by lia. lia.
Qed.

(** ** Dispatch *)

Lemma on_store_Send backoff p b w res err w1 :
  on_store (Send backoff (Target p) (Channel p) b) w = ((res, err), w1) →
  calls_made w1 = calls_made w ∧ (∃ more, posts (store w1) = posts (store w) ++ more) ∧
  (Channel p = NotificationChannelWebhook → bad_url (Target p) = false →
   ∃ i, (length (posts (store w)) ≤ i)%nat ∧ posts (store w1) !! i = Some (Target p, b) ∧ (err = None ↔ accepted (answer i) = true)).
Proof.
  unfold on_store. destruct (Send backoff (Target p) (Channel p) b (store w)) as [[res' err'] s'] eqn:Hs. intros [= <- <- <-]. simpl.
  split; [done|]. revert Hs. unfold Send. destruct (str_eqb (Channel p) NotificationChannelWebhook) eqn:Hc; simpl.
  2:{ intros [= <- <- <-]. split; [by exists []; rewrite app_nil_r|]. intros E. by rewrite E in Hc. }
  destruct (bad_url (Target p)) eqn:Hu.
  { destruct (default defaultWebhookBackoff backoff); simpl; rewrite Hu; intros [= <- <- <-]; (split; [by exists []; rewrite app_nil_r|done]). }
  intros (k & [Hk Hpo _ _ _ _ Ho _] & _)%send_loop_spec; [|done]. split; [by eexists|]. intros _ _.
  exists (length (posts (store w)) + pred k)%nat. split_and!; [lia| |done].
  rewrite Hpo, lookup_app_r by lia. replace (_ - _)%nat with (pred k) by lia. apply lookup_replicate. split; [done|lia].
Qed.

Lemma Append_posts a w : posts (store (ignore (Append a) w)) = posts (store w).
Proof.
  unfold ignore, Append. destruct (str_empty (a_TenantID a)); [done|]. unfold ebind, ecall.
  destruct (delivery_log (store w) !! _); destruct (fate (calls_made w)); done.
Qed.

Lemma deliver_spec has_log backoff tenantID eventType b payload subs first w r w' :
  deliver has_log backoff tenantID eventType b payload subs first w = (r, w') →
  (∃ more, posts (store w') = posts (store w) ++ more) ∧ (r = None → first = None) ∧
  ∀ p, p ∈ subs → Channel p = NotificationChannelWebhook → bad_url (Target p) = false →
    ∃ i, (length (posts (store w)) ≤ i)%nat ∧ posts (store w') !! i = Some (Target p, b) ∧ (r = None → accepted (answer i) = true).
Proof.
  revert first w. induction subs as [|p subs IH]; intros first w; simpl.
  { intros [= <- <-]. split_and!; [by exists []; rewrite app_nil_r|done|set_solver]. }
  destruct (on_store _ w) as [[res err] w1] eqn:Hs. destruct (on_store_Send _ _ _ _ _ _ _ Hs) as (_ & [m1 H1] & Hp).
  set (w2 := if has_log then _ else w1). assert (E2 : posts (store w2) = posts (store w1)) by (unfold w2; destruct has_log; [apply Append_posts|done]).
  intros ([m2 H2] & Hf & Hin)%IH. rewrite E2, H1 in H2, Hin. rewrite <- app_assoc in H2.
  split_and!; [by eexists|intros E; specialize (Hf E); by destruct first|].
  intros q [->|Hq]%elem_of_cons Hc Hu.
  - destruct (Hp Hc Hu) as (i & Hi & Hl & Ho). exists i. split_and!; [done| |].
    + rewrite H2, app_assoc, <- H1. by apply lookup_app_l_Some.
    + intros E. specialize (Hf E). destruct first; [done|]. by apply Ho.
  - destruct (Hin q Hq Hc Hu) as (i & Hi & Hl & Ho). exists i. rewrite length_app in Hi. split_and!; [lia|done|done].
Qed.

(** An event reaches every subscriber. Once the subscriptions are read and the body
    is encoded, a request with that body goes to each enabled webhook of the tenant for
    the event, whatever happens to the others and to the log; a nil result means that
    each of them was accepted. *)
Theorem Dispatch_reaches_all has_log backoff tenantID eventType payload w r w' :
  fate (calls_made w) = Performed → (∀ v, values v = true) → (∀ l, arrange l ≡ₚ l) →
  str_empty tenantID = false → str_empty eventType = false →
  Dispatch has_log backoff tenantID eventType payload w = (r, w') →
  ∀ id p, preferences (store w) !! id = Some p → subscribed tenantID eventType p = true →
    Channel p = NotificationChannelWebhook → bad_url (Target p) = false →
  ∃ i b, (length (posts (store w)) ≤ i)%nat ∧ posts (store w') !! i = Some (Target p, b) ∧
    b_tenant_id b = tenantID ∧ b_event_type b = eventType ∧ b_payload b = payload ∧ (r = None → accepted (answer i) = true).
Proof.
  intros Hp Hv Har Ht He Hd id p Hl Hsub Hc Hu.
  assert (Hin : p ∈ pref_rows (subscribed tenantID eventType) (store w)).
  { unfold pref_rows. rewrite (Har _), elem_of_filterb. split; [done|]. apply list_elem_of_fmap. exists (id, p).
    split; [done|]. by apply elem_of_map_to_list. }
  revert Hd. unfold Dispatch, ListByEvent. rewrite Ht, He. simpl. unfold eread, ecall. rewrite Hp.
  destruct (pref_rows _ (store w)) as [|p0 ps] eqn:Hrows; [by apply not_elem_of_nil in Hin|]. rewrite <- Hrows in *.
  unfold Marshal. simpl. rewrite (proj2 (forallb_forall values _)) by auto.
  rewrite Hrows. intros (_ & _ & Hall)%deliver_spec. rewrite Hrows in Hin. destruct (Hall p Hin Hc Hu) as (i & Hi & Hlk & Ho).
  eexists i, _. split_and!; [exact Hi|exact Hlk|done..].
Qed.

(** A subscription posted without an id is never stored: the generated id is six
    bytes too long for its column. *)
Theorem Create_without_id_fails p w :
  ID p = EmptyString → (∀ n, str_len (ulid n) = id_width) →
  ∃ e, (Create p w).1 = Err e ∧ preferences (store (Create p w).2) = preferences (store w).
Proof.
  intros Hid Hu. unfold Create. destruct (Validate p) as [e|]; [by exists e|].
  unfold ebind, ecall, row_fits, stamped. rewrite Hid. cbn [str_empty ID].
  assert (Hw : (str_len (str_app "notif-" (ulid (calls_made w))) <=? id_width)%nat = false).
  { rewrite str_len_app, Hu. reflexivity. }
  rewrite Hw. cbn [andb]. destruct (fate (calls_made w)); by eexists.
Qed.
End Delivery.
End Values.

(** ** Samples *)

Definition sample_pref (id target channel : string) : NotificationPreference :=
  {| ID := id; TenantID := "t"; EventType := "source.connected"; Channel := channel; Target := target; Enabled := true;
     CreatedAt := 1; UpdatedAt := 1 |}.
Definition sample_world (prefs : list NotificationPreference) : Env (World (V := string)) :=
  {| store := {| preferences := list_to_map ((λ p, (ID p, p)) <$> prefs); delivery_log := ∅; posts := []; slept := [] |};
     calls_made := 0 |}.
(** The second request fails for good, the others are busy once and then accepted. *)
Definition sample_answer (n : nat) : option Z := match n with S O => Some 404 | O => Some 503 | _ => Some 200 end.
Definition sample_ulid (n : nat) : string := str_app "0000000000000000000000000" (str_of_nat (n mod 10)).
Definition all_urls (_ : string) : bool := false.
Definition running (_ : nat) : bool := false.
Definition sample_body : Body (V := string) := {| b_tenant_id := "t"; b_event_type := "e"; b_payload := PMap ∅; b_ts := 7 |}.

Definition the_send := Send sample_answer all_urls running None "https://a" NotificationChannelWebhook sample_body (store (sample_world [])).

Lemma Send_contract_witness :
  Attempts the_send.1.1 = 2 ∧ ∃ k, delivery sample_answer running "https://a" sample_body defaultWebhookBackoff k the_send.1.1 the_send.1.2 (store (sample_world [])) the_send.2.
Proof.
  split; [reflexivity|].
  destruct (Send_contract sample_answer all_urls running None "https://a" sample_body (store (sample_world [])) the_send.1.1 the_send.1.2 the_send.2 eq_refl eq_refl)
    as (k & Hd & _). by exists k.
Defined.

Definition sample_prefs : list NotificationPreference := [sample_pref "p1" "https://a" "webhook"; sample_pref "p2" "https://b" "webhook"].
Definition dispatched (answers : nat → option Z) (prefs : list NotificationPreference) (payload : Payload) :=
  @Dispatch string calm answers all_urls running (λ _, true) id sample_ulid id true (Some []) "t" "source.connected" payload (sample_world prefs).

Lemma Dispatch_reaches_all_witness :
  ∃ i b, posts (store (dispatched sample_answer sample_prefs (PMap ∅)).2) !! i = Some ("https://b"%string, b).
Proof.
  destruct (@Dispatch_reaches_all string calm sample_answer all_urls running (λ _, true) id sample_ulid id true (Some []) "t" "source.connected"
              (PMap ∅) (sample_world sample_prefs) (dispatched sample_answer sample_prefs (PMap ∅)).1 (dispatched sample_answer sample_prefs (PMap ∅)).2
              eq_refl (λ _, eq_refl) (λ l, Permutation_refl l) eq_refl eq_refl (surjective_pairing _) "p2" (sample_pref "p2" "https://b" "webhook")
              eq_refl eq_refl eq_refl eq_refl) as (i & b & _ & Hl & _).
  exists i, b. exact Hl.
Defined.

Lemma Create_without_id_fails_witness :
  (@Create string calm sample_ulid (λ _, true) (sample_pref "" "https://a" "webhook") (sample_world [])).1 = Err "insert rejected"%string.
Proof.
  assert (Hu : ∀ n, str_len (sample_ulid n) = id_width).
  { intros n. unfold sample_ulid. assert (Hn : (n mod 10 < 10)%nat) by (apply Nat.mod_upper_bound; lia).
    destruct (n mod 10)%nat as [|[|[|[|[|[|[|[|[|[|m]]]]]]]]]]; [reflexivity..|lia]. }
  destruct (@Create_without_id_fails string calm sample_ulid (λ _, true) (sample_pref "" "https://a" "webhook") (sample_world []) eq_refl Hu) as (e & He & _).
  reflexivity.
Defined.

(** Two failing rows, then passes until nothing is left. *)
Definition busy (_ : nat) : option Z := Some 503.
Definition backlog : Env (World (V := string)) := (dispatched busy sample_prefs (PMap ∅)).2.
(** The first write-back of the first pass is refused, so that row is picked once more. *)
Definition days_refused : Outside :=
  {| fate := λ n, if (n =? S (calls_made backlog))%nat then Refused else Performed; clock := λ n _, Z.of_nat n * hour |}.
Definition drained (n : nat) := @ticks string days_refused busy all_urls running (λ _, true) id (Some []) 3 n backlog.

Lemma retries_are_bounded_witness :
  (drained 5).1 = [2; 2; 1; 0; 0]%nat ∧
  (sum_list (drained 5).1 ≤ total 3 (delivery_log (store backlog)) +
     @refusals days_refused (calls_made backlog) (calls_made (drained 5).2))%nat.
Proof.
  split; [by vm_compute|].
  assert (Hwf : wf (delivery_log (store backlog))).
  { split; [|by vm_compute]. apply map_Forall_to_list. unfold backlog.
    apply (bool_decide_unpack (Forall (uncurry (λ id a, a_ID a = id)) _)). by vm_compute. }
  destruct (@retries_are_bounded string days_refused busy all_urls running (λ _, true) id (Some []) 3 5 backlog (drained 5).1 (drained 5).2
              (λ _, eq_refl) (λ l, Permutation_refl l) Hwf (surjective_pairing _)) as [Hle _].
  apply (Nat.le_trans _ _ _ (Nat.le_add_r _ _) Hle).
Defined.

(** An email subscription goes to the webhook sender, whose refusal counts as retryable. *)
Example email_is_retried :
  (λ a, (Status a, ResponseCode a, bool_decide (NextRetryAt a = None))) <$>
    (snd <$> map_to_list (delivery_log (store (dispatched busy [sample_pref "p" "ops@example.com" "email"] (PMap ∅)).2)))
  = [("failed"%string, 0, false)].
Proof. by vm_compute. Qed.

(** A payload that is not an object is not in the log, so a retry sends another body. *)
Example retry_loses_payload :
  (λ a, bool_decide (a_Payload a = {[ "event_type"%string := "source.connected"%string ]})) <$>
    (snd <$> map_to_list (delivery_log (store (dispatched busy [sample_pref "p" "https://a" "webhook"] (POther "text")).2)))
  = [true].
Proof. by vm_compute. Qed.
End Notifications.
