(* ===== verification/GoTime.v ===== *)
(** * Timestamps in text

    [time.Parse] and [Format] with the layouts the connectors use, [time.RFC3339] above
    all, and Unix time. *)

From Stdlib Require Import Ascii.
From S2P Require Import Prelude GoFloat GoString Calendar GoText.

Local Open Scope Z_scope.

Module GoTime.
Import Calendar.

(** ** Parsing *)

(** Exactly [n] digits. *)
Definition fixed (n : nat) (l : bytes) : option (Z * bytes) :=
  if (length l <? n)%nat then None
  else match number (take n l) with Some v => Some (v, drop n l) | None => None end.

(** [getnum] that is content with one digit. *)
Definition one_or_two (l : bytes) : option (Z * bytes) :=
  match l with
  | a :: b :: _ => match digit b with Some _ => fixed 2 l | None => fixed 1 l end
  | _ => fixed 1 l
  end.

Definition lit (c : ascii) (l : bytes) : option bytes :=
  match l with a :: r => if Ascii.eqb a c then Some r else None | [] => None end.

Definition within (lo hi : Z) (r : option (Z * bytes)) : option (Z * bytes) :=
  match r with Some (v, l) => if (lo <=? v) && (v <=? hi) then Some (v, l) else None | None => None end.

Fixpoint span_digits (l : bytes) : bytes * bytes :=
  match l with
  | a :: r => match digit a with Some _ => let '(x, y) := span_digits r in (a :: x, y) | None => ([], l) end
  | [] => ([], [])
  end.

(** A fraction of a second, of which nine digits count. *)
Definition fraction (l : bytes) : Z * bytes :=
  match l with
  | a :: r =>
      if Ascii.eqb a "."%char || Ascii.eqb a ","%char then
        match span_digits r with
        | ([], _) => (0, l)
        | (ds, rest) => let ds := take 9 ds in (default 0 (number ds) * 10 ^ Z.of_nat (9 - length ds), rest)
        end
      else (0, l)
  | [] => (0, l)
  end.

(** The offset in seconds. *)
Definition zone (l : bytes) : option (Z * bytes) :=
  match l with
  | [] => None
  | a :: r =>
      if Ascii.eqb a "Z"%char then Some (0, r)
      else
        let sign := if Ascii.eqb a "+"%char then Some 1 else if Ascii.eqb a "-"%char then Some (-1) else None in
        match sign, within 0 24 (fixed 2 r) with
        | Some s, Some (h, l1) =>
            match lit ":"%char l1 with
            | Some l2 => match within 0 60 (fixed 2 l2) with Some (m, l3) => Some (s * ((h * 60 + m) * 60), l3) | None => None end
            | None => None
            end
        | _, _ => None
        end
  end.

(** The offset of the layout [-0700]. *)
Definition zone4 (l : bytes) : option (Z * bytes) :=
  match l with
  | [] => None
  | a :: r =>
      let sign := if Ascii.eqb a "+"%char then Some 1 else if Ascii.eqb a "-"%char then Some (-1) else None in
      match sign, within 0 24 (fixed 2 r) with
      | Some s, Some (h, l1) =>
          match within 0 60 (fixed 2 l1) with Some (m, l2) => Some (s * ((h * 60 + m) * 60), l2) | None => None end
      | _, _ => None
      end
  end.

Definition days_in (y mo : Z) : Z := month_start (12 * (y - 1) + mo) - month_start (12 * (y - 1) + (mo - 1)).

Notation "'get' x 'from' m 'in' k" := (match m with Some x => k | None => None end)
  (at level 200, x pattern, m at level 100, k at level 200, only parsing).

(** What layouts differ in: the byte between date and time, what may follow the seconds,
    and the zone. *)
Record layout := { between : ascii; frac : bytes → option (Z * bytes); zoned : bytes → option (Z * bytes) }.

Definition parse_as (lay : layout) (l : bytes) : option Time :=
  get (y, l) from fixed 4 l in
  get l from lit "-"%char l in
  get (mo, l) from within 1 12 (fixed 2 l) in
  get l from lit "-"%char l in
  get (d, l) from fixed 2 l in
  get l from lit (between lay) l in
  get (h, l) from within 0 23 (one_or_two l) in
  get l from lit ":"%char l in
  get (mi, l) from within 0 59 (fixed 2 l) in
  get l from lit ":"%char l in
  get (s, l) from within 0 59 (fixed 2 l) in
  get (ns, l) from frac lay l in
  get (off, l) from zoned lay l in
  match l with
  | [] => if (1 <=? d) && (d <=? days_in y mo) then Some (Date y mo d h mi s ns - off * second) else None
  | _ => None
  end.

(** Exactly three digits behind the seconds. *)
Definition three_digits (l : bytes) : option (Z * bytes) :=
  match l with
  | a :: r => if Ascii.eqb a "."%char || Ascii.eqb a ","%char then get (v, l) from fixed 3 r in Some (v * 10 ^ 6, l) else None
  | [] => None
  end.

Definition rfc3339 : layout := {| between := "T"%char; frac := λ l, Some (fraction l); zoned := zone |}.
(** [2006-01-02T15:04:05.000Z07:00]. *)
Definition millis_layout : layout := {| between := "T"%char; frac := three_digits; zoned := zone |}.
(** [2006-01-02T15:04:05.000-0700]. *)
Definition jira_layout : layout := {| between := "T"%char; frac := three_digits; zoned := zone4 |}.
(** [2006-01-02 15:04:05], in UTC. *)
Definition date_time : layout := {| between := " "%char; frac := λ l, Some (fraction l); zoned := λ l, Some (0, l) |}.

Definition Parse (s : string) : option Time := parse_as rfc3339 (to_bytes s).

(** [updated, _ := time.Parse(...)]: the zero time when the text is not a timestamp. *)
Definition parse_or_zero (s : string) : Time := default 0 (Parse s).

(** ** Printing, in UTC *)

Definition digit_char (z : Z) : ascii := ascii_of_N (48 + Z.to_N (z `mod` 10)).
Definition pad2 (z : Z) : bytes := [digit_char (z / 10); digit_char z].
(** A year of up to four digits. *)
Definition pad4 (z : Z) : bytes := pad2 (z / 100) ++ pad2 z.

(** [2006-01-02 15:04]. *)
Definition Format_minutes (t : Time) : string :=
  of_bytes (pad4 (Year t) ++ ["-"%char] ++ pad2 (Month t) ++ ["-"%char] ++ pad2 (Day t) ++ [" "%char] ++ pad2 (Hour t) ++ [":"%char] ++ pad2 (Minute t)).

Definition format (mid : ascii) (t : Time) : bytes :=
  pad4 (Year t) ++ ["-"%char] ++ pad2 (Month t) ++ ["-"%char] ++ pad2 (Day t) ++ [mid] ++ pad2 (Hour t) ++ [":"%char]
  ++ pad2 (Minute t) ++ [":"%char] ++ pad2 (Second t).

Definition Format (t : Time) : string := of_bytes (format "T" t ++ ["Z"%char]).
Definition Format_date_time (t : Time) : string := of_bytes (format " " t).

(** ** Unix time *)

(** Seconds from the first of January of year 1 to the first of January 1970. *)
Definition epoch : Z := 62135596800.
Definition of_unix (s : Z) : Time := wrap64 (s + epoch) * second.
(** [time.UnixMilli] and its inverse; every int64 of milliseconds is a time. *)
Definition of_millis (ms : Z) : Time := ms * millisecond + epoch * second.
Definition UnixMilli (t : Time) : Z := t / millisecond - epoch * 1000.
Definition Unix (t : Time) : Z := t / second - epoch.

Example epoch_ok : of_unix 0 = Date 1970 1 1 0 0 0 0 ∧ Unix (Date 2024 1 1 0 0 0 5) = 1704067200.
Proof. vm_compute. split; reflexivity. Qed.

(** ** Reading back what was printed *)

Lemma pad2_read z : 0 ≤ z < 100 → number (pad2 z) = Some z ∧ is_Some (digit (digit_char z)).
Proof.
  intros Hz.
  assert (Hall : forallb (λ z, bool_decide (number (pad2 z) = Some z) && bool_decide (is_Some (digit (digit_char z))))
                   (seqZ 0 100) = true) by (vm_compute; reflexivity).
  rewrite forallb_forall in Hall. specialize (Hall z). rewrite andb_true_iff, !bool_decide_eq_true in Hall.
  apply Hall, list_elem_of_In, elem_of_seqZ. lia.
Qed.

Lemma pad4_read z : 0 ≤ z < 10000 → number (pad4 z) = Some z.
Proof.
  intros Hz.
  assert (Hall : forallb (λ z, bool_decide (number (pad4 z) = Some z)) (seqZ 0 10000) = true) by (vm_compute; reflexivity).
  rewrite forallb_forall in Hall. specialize (Hall z). rewrite bool_decide_eq_true in Hall.
  apply Hall, list_elem_of_In, elem_of_seqZ. lia.
Qed.

Lemma fixed_pad2 z r : 0 ≤ z < 100 → fixed 2 (pad2 z ++ r) = Some (z, r).
Proof.
  intros Hz. change (match number (pad2 z) with Some v => Some (v, r) | None => None end = Some (z, r)).
  by rewrite (proj1 (pad2_read z Hz)).
Qed.

Lemma fixed_pad4 z r : 0 ≤ z < 10000 → fixed 4 (pad4 z ++ r) = Some (z, r).
Proof.
  intros Hz. change (match number (pad4 z) with Some v => Some (v, r) | None => None end = Some (z, r)).
  by rewrite (pad4_read z Hz).
Qed.

Lemma one_or_two_pad2 z r : 0 ≤ z < 100 → one_or_two (pad2 z ++ r) = Some (z, r).
Proof.
  intros Hz. destruct (pad2_read z Hz) as [_ [d Hd]]. unfold one_or_two. cbn [pad2 app]. rewrite Hd.
  exact (fixed_pad2 z r Hz).
Qed.

Lemma within_Some lo hi v l : lo ≤ v ≤ hi → within lo hi (Some (v, l)) = Some (v, l).
Proof. intros H. unfold within. by rewrite (proj2 (Z.leb_le lo v)), (proj2 (Z.leb_le v hi)) by lia. Qed.

Lemma Day_in_month t : 1 ≤ Day t ≤ days_in (Year t) (Month t).
Proof.
  unfold Day, days_in. pose proof (month_of_spec (day_of t)) as H. pose proof (month_parts t) as E.
  replace (12 * (Year t - 1) + Month t) with (month_index t + 1) by lia. rewrite E. unfold month_index in *. lia.
Qed.

Lemma clock_parts t : 0 ≤ Hour t ≤ 23 ∧ 0 ≤ Minute t ≤ 59 ∧ 0 ≤ Second t ≤ 59.
Proof.
  destruct time_units as (Hd & Hh & Hm & Hs). unfold Hour, Minute, Second.
  pose proof (Z.mod_pos_bound t day ltac:(lia)). pose proof (Z.mod_pos_bound t hour ltac:(lia)).
  pose proof (Z.mod_pos_bound t minute ltac:(lia)).
  split_and!; first [apply Z.div_pos; lia|apply Z.lt_succ_r, Z.div_lt_upper_bound; lia].
Qed.

Lemma lit_eq c r : lit c (c :: r) = Some r.
Proof. unfold lit. by rewrite Ascii.eqb_refl. Qed.

Lemma parse_parts y mo d h mi s ns r :
  fraction r = (ns, ["Z"%char]) → 0 ≤ y < 10000 → 1 ≤ mo ≤ 12 → 1 ≤ d ≤ 31 → d ≤ days_in y mo → 0 ≤ h ≤ 23 → 0 ≤ mi ≤ 59 → 0 ≤ s ≤ 59 →
  parse_as rfc3339 (pad4 y ++ "-"%char :: pad2 mo ++ "-"%char :: pad2 d ++ "T"%char :: pad2 h ++ ":"%char :: pad2 mi ++ ":"%char :: pad2 s ++ r)
  = Some (Date y mo d h mi s ns).
Proof.
  intros Hr Hy Hmo Hd Hd' Hh Hmi Hs. unfold parse_as, rfc3339. cbn [between frac zoned].
  rewrite fixed_pad4, lit_eq, fixed_pad2, within_Some, lit_eq, fixed_pad2, lit_eq, one_or_two_pad2, within_Some, lit_eq,
    fixed_pad2, within_Some, lit_eq, fixed_pad2, within_Some by lia.
  rewrite Hr. change (zone ["Z"%char]) with (Some (0, @nil ascii)).
  cbv beta iota. rewrite (proj2 (Z.leb_le 1 _)), (proj2 (Z.leb_le d _)) by lia. cbn [andb]. f_equal. apply Z.sub_0_r.
Qed.

Lemma Date_shift y mo d h mi s n : Date y mo d h mi s 0 = Date y mo d h mi s n - n.
Proof. unfold Date. by rewrite Z.add_0_r, Z.add_simpl_r. Qed.

(** A timestamp printed and read back has lost its fraction of a second only. *)
Lemma parse_format t : 0 ≤ Year t < 10000 → Parse (Format t) = Some (t - Nanosecond t).
Proof.
  intros Hy. unfold Parse, Format. rewrite to_of_bytes.
  destruct (Day_in_month t). destruct (clock_parts t) as (Hh & Hm & Hs).
  unfold format. rewrite <- !app_assoc. etrans; [apply (parse_parts _ _ _ _ _ _ 0); auto using Month_range, Day_range|]. f_equal.
  by rewrite (Date_shift _ _ _ _ _ _ (Nanosecond t)), Date_parts.
Qed.

(** ** With the fraction *)

Fixpoint pad_digits (k : nat) (z : Z) : bytes := match k with O => [] | S k => pad_digits k (z / 10) ++ [digit_char z] end.
(** [k] digits without the zeros at the end. *)
Fixpoint trim_zeros (k : nat) (z : Z) : bytes :=
  match k with O => [] | S k' => if z `mod` 10 =? 0 then trim_zeros k' (z / 10) else pad_digits k z end.
Definition nanos (ns : Z) : bytes := if ns =? 0 then [] else "."%char :: trim_zeros 9 ns.
(** [time.RFC3339Nano]. *)
Definition Format_nano (t : Time) : string := of_bytes (format "T" t ++ nanos (Nanosecond t) ++ ["Z"%char]).

Lemma digit_char_read z : digit (digit_char z) = Some (z `mod` 10).
Proof.
  unfold digit_char. pose proof (Z.mod_pos_bound z 10 ltac:(lia)) as Hb. rewrite digit_of_value by lia. f_equal. lia.
Qed.

Lemma digits_app acc l k : digits acc (l ++ k) = digits acc l ≫= λ a, digits a k.
Proof. revert acc. induction l as [|c l IH]; intros acc; simpl; [done|]. destruct (digit c); [apply IH|done]. Qed.

Lemma pad_digits_read k z : 0 ≤ z < 10 ^ Z.of_nat k → digits 0 (pad_digits k z) = Some z.
Proof.
  revert z. induction k as [|k IH]; intros z Hz; [simpl in *; f_equal; lia|]. cbn [pad_digits]. rewrite digits_app.
  rewrite Nat2Z.inj_succ, Z.pow_succ_r in Hz by lia. rewrite IH by (split; [apply Z.div_pos; lia|apply Z.div_lt_upper_bound; lia]).
  cbn. rewrite digit_char_read. f_equal. symmetry. apply Z.div_mod. lia.
Qed.

Lemma pad_digits_span k z r : span_digits r = ([], r) → span_digits (pad_digits k z ++ r) = (pad_digits k z, r).
Proof.
  intros Hr. assert (Hs : ∀ l, Forall (λ c, is_Some (digit c)) l → span_digits (l ++ r) = (l, r)).
  { intros l Hl. induction Hl as [|c l [d Hd] _ IH]; simpl; [done|]. by rewrite Hd, IH. }
  apply Hs. clear. revert z. induction k as [|k IH]; intros z; simpl; [constructor|]. apply Forall_app. split; [apply IH|].
  constructor; [|constructor]. rewrite digit_char_read. done.
Qed.

Lemma length_pad_digits k z : length (pad_digits k z) = k.
Proof. revert z. induction k as [|k IH]; intros z; simpl; [done|]. rewrite length_app, IH. simpl. lia. Qed.

Lemma trim_zeros_spec k z : 0 < z < 10 ^ Z.of_nat k →
  ∃ j m, trim_zeros k z = pad_digits j m ∧ (0 < j ≤ k)%nat ∧ 0 ≤ m < 10 ^ Z.of_nat j ∧ m * 10 ^ Z.of_nat (k - j) = z.
Proof.
  revert z. induction k as [|k IH]; intros z Hz; [simpl in Hz; lia|]. cbn [trim_zeros].
  destruct (Z.eqb_spec (z `mod` 10) 0) as [E|E].
  - pose proof (Z.div_mod z 10 ltac:(lia)) as Hd. rewrite E in Hd. rewrite Nat2Z.inj_succ, Z.pow_succ_r in Hz by lia.
    destruct (IH (z / 10)) as (j & m & -> & Hj & Hm & Hv); [lia|]. exists j, m. split_and!; [done|lia|lia|lia|lia|].
    replace (S k - j)%nat with (S (k - j)) by lia. rewrite Nat2Z.inj_succ, Z.pow_succ_r by lia. lia.
  - exists (S k), z. split_and!; [done|lia|lia|lia|lia|]. rewrite Nat.sub_diag. simpl. lia.
Qed.

Lemma fraction_nanos ns : 0 ≤ ns < second → fraction (nanos ns ++ ["Z"%char]) = (ns, ["Z"%char]).
Proof.
  intros Hns. unfold nanos. destruct (Z.eqb_spec ns 0) as [->|Hne]; [done|].
  destruct (trim_zeros_spec 9 ns) as (j & m & E & Hj & Hm & Hv); [unfold second in Hns; simpl; lia|]. rewrite E.
  unfold fraction. cbn [app]. rewrite (pad_digits_span j m ["Z"%char]) by done. simpl (Ascii.eqb _ _). cbn [orb].
  pose proof (length_pad_digits j m) as Hl. destruct (pad_digits j m) as [|c l] eqn:Ep; [simpl in Hl; lia|]. rewrite <- Ep in *.
  rewrite take_ge by lia. rewrite Hl. f_equal. rewrite <- Hv. f_equal. rewrite Ep. unfold number. rewrite <- Ep, (pad_digits_read j m Hm). done.
Qed.

(** Printed with its fraction a timestamp reads back. *)
Lemma parse_format_nano t : 0 ≤ Year t < 10000 → Parse (Format_nano t) = Some t.
Proof.
  intros Hy. unfold Parse, Format_nano. rewrite to_of_bytes.
  destruct (Day_in_month t). destruct (clock_parts t) as (Hh & Hm & Hs). destruct time_units as (_ & _ & _ & Hsec).
  unfold format. rewrite <- !app_assoc.
  etrans; [apply (parse_parts _ _ _ _ _ _ (Nanosecond t)); auto using Month_range, Day_range|by rewrite Date_parts].
  apply fraction_nanos. unfold Nanosecond. by apply Z.mod_pos_bound.
Qed.

(** Cutting off the fraction of a second. *)
Lemma truncate_facts t :
  Year (t - Nanosecond t) = Year t ∧ Nanosecond (t - Nanosecond t) = 0 ∧ t - Nanosecond t ≤ t < t - Nanosecond t + second.
Proof.
  destruct time_units as (Hd & Hh & Hm & Hs). unfold Nanosecond. pose proof (Z.mod_pos_bound t second Hs) as Hb.
  split_and!; [|rewrite Zminus_mod_idemp_r, Z.sub_diag; by apply Z.mod_0_l; lia|lia|lia].
  unfold Year, month_index, day_of. do 3 f_equal.
  assert (E : t `mod` second ≤ t `mod` day).
  { rewrite <- (mod_mod_mul t 86400 second) by lia. replace (86400 * second) with day by lia. apply Z.mod_le; [|lia].
    apply Z.mod_pos_bound. lia. }
  rewrite (Z.div_mod t day) at 1 by lia. symmetry. apply (Z.div_unique _ _ _ (t `mod` day - t `mod` second)); [|lia].
  left. pose proof (Z.mod_pos_bound t day). lia.
Qed.

Lemma truncate_mono t n : t ≤ n → Nanosecond t = 0 → t ≤ n - Nanosecond n.
Proof.
  unfold Nanosecond. intros Hle Ht. destruct time_units as (_ & _ & _ & Hs).
  rewrite (Z.div_mod t second) by lia. rewrite (Z.div_mod n second) at 1 by lia.
  pose proof (Z.div_le_mono t n second Hs Hle). nia.
Qed.

Example parse_offset : Parse "2024-02-29T23:30:00.5+01:30" = Some (Date 2024 2 29 22 0 0 500000000).
Proof. vm_compute. reflexivity. Qed.
Example parse_no_such_day : Parse "2023-02-29T00:00:00Z" = None.
Proof. vm_compute. reflexivity. Qed.
End GoTime.
