(* ===== verification/Json.v ===== *)
(** * JSON, URLs and HTTP

    What the connectors use of Go's encoding/json, net/url, encoding/base64 and
    net/http: values and how they are decoded into structs, escaping, and requests
    whose answers come from outside. *)

From Stdlib Require Import Ascii.
From S2P Require Import Prelude GoFloat GoString GoText Effects.

Local Open Scope Z_scope.

Notation "'get' x 'from' m 'in' k" := (match m with Some x => k | None => None end)
  (at level 200, x pattern, m at level 100, k at level 200, only parsing).

(** ** Values *)

Inductive json :=
| JNull
| JBool (b : bool)
| JInt (z : Z)
| JFloat (f : float)
| JStr (s : string)
| JArr (l : list json)
| JObj (l : list (string * json)).

(** Bytes, by what the parser makes of them. *)
Inductive blob := NoBytes | Garbled | Parsed (j : json).

(** A decoder into a Go value; [None] is an [UnmarshalTypeError]. *)
Definition decoder (A : Type) : Type := json → option A.

(** A null leaves the zero value. *)
Definition d_str : decoder string := λ j, match j with JStr s => Some s | JNull => Some EmptyString | _ => None end.
Definition d_bool : decoder bool := λ j, match j with JBool b => Some b | JNull => Some false | _ => None end.
Definition d_int : decoder Z := λ j,
  match j with
  | JInt z => if (int64_min <=? z) && (z <=? int64_max) then Some z else None
  | JNull => Some 0
  | _ => None
  end.
Definition d_list {A} (d : decoder A) : decoder (list A) := λ j,
  match j with JArr l => mapM d l | JNull => Some [] | _ => None end.

(** Case folding as far as the letters of ASCII are concerned: the long s and the Kelvin
    sign fold to them too. *)
Definition fold_rune (r : N) : N :=
  if ((65 <=? r) && (r <=? 90))%N then (r + 32)%N else if (r =? 383)%N then 115%N else if (r =? 8490)%N then 107%N else r.

(** [strings.EqualFold], of which one side is ASCII. *)
Definition fold_eq (s t : string) : bool := bool_decide (fold_rune <$> runes (to_bytes s) = fold_rune <$> runes (to_bytes t)).

Definition lower_ascii (c : ascii) : ascii :=
  let b := byte_val c in if ((65 <=? b) && (b <=? 90))%N then ascii_of_N (b + 32) else c.

(** The last member whose name matches, without regard to case. *)
Definition member (name : string) (l : list (string * json)) : option json :=
  snd <$> last (List.filter (λ m, fold_eq m.1 name) l).

Definition d_field {A} (name : string) (d : decoder A) (zero : A) : decoder A := λ j,
  match j with
  | JObj l => match member name l with None | Some JNull => Some zero | Some v => d v end
  | JNull => Some zero
  | _ => None
  end.

Definition d_str_field (name : string) : decoder string := d_field name d_str EmptyString.
Definition d_int_field (name : string) : decoder Z := d_field name d_int 0.
Definition d_list_field {A} (name : string) (d : decoder A) : decoder (list A) := d_field name (d_list d) [].

(** An integer that was read fits its width. *)
Lemma d_int_field_range name j z : d_int_field name j = Some z → in_int64 z.
Proof.
  assert (Hz : in_int64 0) by (unfold in_int64, int64_min, int64_max; lia).
  unfold d_int_field, d_field. destruct j; try done; [by intros [= <-]|].
  destruct (member name l) as [[]|]; cbn; try done; try (by intros [= <-]).
  destruct (int64_min <=? z0)%Z eqn:E1; [|done]. destruct (z0 <=? int64_max)%Z eqn:E2; [|done].
  intros [= <-]. rewrite Z.leb_le in *. done.
Qed.

(** A map, as its members in order; a lookup finds the last one under exactly that name. *)
Definition d_map {A} (d : decoder A) : decoder (list (string * A)) := λ j,
  match j with
  | JObj l => mapM (λ m, get a from d m.2 in Some (m.1, a)) l
  | JNull => Some []
  | _ => None
  end.
Definition map_get {A} (zero : A) (k : string) (l : list (string * A)) : A :=
  default zero (snd <$> last (List.filter (λ m, str_eqb m.1 k) l)).

(** [Unmarshal] of bytes. *)
Definition decode {A} (d : decoder A) (b : blob) : option A := match b with Parsed j => d j | _ => None end.

(** [_ = json.Unmarshal(raw, &meta)], field by field: what cannot be read is left at its
    zero value, and so is everything when the bytes are not JSON. *)
Definition lenient {A} (d : decoder A) (zero : A) (b : blob) : A := default zero (decode d b).

(** ** Escaping *)

Definition hex_upper (n : N) : ascii := ascii_of_N (if (n <? 10)%N then 48 + n else 55 + n)%N.
Definition percent (c : ascii) : bytes := ["%"%char; hex_upper (N_of_ascii c / 16); hex_upper (N_of_ascii c mod 16)].

Definition unreserved (c : ascii) : bool :=
  let b := byte_val c in
  ((48 <=? b) && (b <=? 57) || (65 <=? b) && (b <=? 90) || (97 <=? b) && (b <=? 122))%N
  || existsb (Ascii.eqb c) ["-"; "_"; "."; "~"]%char.

Definition escape_query (c : ascii) : bytes :=
  if Ascii.eqb c " "%char then ["+"%char] else if unreserved c then [c] else percent c.
Definition escape_path (c : ascii) : bytes :=
  if unreserved c || existsb (Ascii.eqb c) ["$"; "&"; "+"; "="; ":"; "@"]%char then [c] else percent c.

Definition QueryEscape (s : string) : string := of_bytes (to_bytes s ≫= escape_query).
Definition PathEscape (s : string) : string := of_bytes (to_bytes s ≫= escape_path).

(** [url.Values.Encode]: sorted by key, the values of a key in the order they were added. *)
Definition EncodeValues (q : list (string * string)) : string :=
  str_join ((λ kv, str_app (QueryEscape kv.1) (str_app "=" (QueryEscape kv.2))) <$> sort_by (λ a b, str_ltb a.1 b.1) q) "&".
Definition Encode (q : gmap string string) : string := EncodeValues (map_to_list q).

Definition unhex_digit (c : ascii) : option N :=
  let b := N_of_ascii c in
  if ((48 <=? b) && (b <=? 57))%N then Some (b - 48)%N
  else if ((97 <=? b) && (b <=? 102))%N then Some (b - 87)%N
  else if ((65 <=? b) && (b <=? 70))%N then Some (b - 55)%N
  else None.

(** [strings.Contains], [strings.TrimPrefix], [strings.TrimSuffix]. *)
Fixpoint contains (k l : bytes) : bool :=
  match strip_prefix k l with Some _ => true | None => match l with [] => false | _ :: r => contains k r end end.
Definition Contains (s sub : string) : bool := contains (to_bytes sub) (to_bytes s).
(** A rune in lower case, as far as it is one of ASCII: the dotted I and the Kelvin sign
    are lowered to ASCII too. *)
Definition lowered (r : N) : ascii :=
  if ((65 <=? r) && (r <=? 90))%N then ascii_of_N (r + 32)
  else if (r =? 304)%N then "i"%char else if (r =? 8490)%N then "k"%char
  else ascii_of_N (if (r <? 128)%N then r else 255).
(** [strings.Contains(strings.ToLower(s), sub)] for a word [sub] of ASCII. *)
Definition lower_contains (s sub : string) : bool := contains (to_bytes sub) (lowered <$> runes (to_bytes s)).
Definition trim_prefix (p l : bytes) : bytes := default l (strip_prefix p l).
Definition trim_suffix (p l : bytes) : bytes := match strip_prefix (rev p) (rev l) with Some r => rev r | None => l end.

(** [strings.TrimRight(s, "/")]. *)
Fixpoint drop_slashes (l : bytes) : bytes :=
  match l with a :: r => if Ascii.eqb a "/"%char then drop_slashes r else l | [] => [] end.
Definition trim_slashes (s : string) : string := of_bytes (rev (drop_slashes (rev (to_bytes s)))).

(** [strconv.FormatInt] in base ten. *)
Definition decimal (n : N) : bytes := if (n =? 0)%N then ["0"%char] else digits_of 20 n [].
Definition FormatInt (z : Z) : string :=
  if z <? 0 then str_app "-" (of_bytes (decimal (Z.to_N (- z)))) else of_bytes (decimal (Z.to_N z)).

Lemma number_decimal n : (n < 10 ^ 20)%N → number (decimal n) = Some (Z.of_N n).
Proof.
  intros Hn. unfold decimal. destruct (N.eqb_spec n 0) as [->|Hz]; [done|].
  pose proof (digits_digits_of 20 n [] Hn) as Hd. unfold number.
  destruct (digits_of 20 n []) eqn:E; [|done]. exfalso. revert E. cbn [digits_of].
  rewrite (proj2 (N.eqb_neq n 0) Hz). by apply (digits_of_keeps 19).
Qed.

Lemma decimal_sign n : (n < 10 ^ 20)%N → Atoi (decimal n) = if Z.of_N n <=? int64_max then Some (Z.of_N n) else None.
Proof.
  intros Hn. pose proof (number_decimal n Hn) as Hd. unfold Atoi.
  destruct (decimal n) as [|[[] [] [] [] [] [] [] []] r]; try discriminate Hd; rewrite Hd;
    rewrite (proj2 (Z.leb_le int64_min _)) by (unfold int64_min; lia); done.
Qed.

Lemma FormatInt_nonempty z : FormatInt z ≠ EmptyString.
Proof.
  unfold FormatInt. destruct (z <? 0); [done|]. unfold decimal. destruct (N.eqb_spec (Z.to_N z) 0) as [E|E]; [done|].
  cbn [digits_of]. rewrite (proj2 (N.eqb_neq _ _) E). intros Hd. apply (f_equal to_bytes) in Hd. rewrite to_of_bytes in Hd.
  by apply (digits_of_keeps 19) in Hd.
Qed.

Lemma Atoi_range l z : Atoi l = Some z → in_int64 z.
Proof.
  unfold Atoi. set (v := match l with [] => _ | _ => _ end). destruct v as [n|]; [|done].
  destruct (int64_min <=? n) eqn:E1; [|done]. destruct (n <=? int64_max) eqn:E2; [|done]. intros [= <-].
  rewrite Z.leb_le in *. done.
Qed.

(** What [FormatInt] prints, [ParseInt] reads back. *)
Lemma Atoi_FormatInt z : in_int64 z → Atoi (to_bytes (FormatInt z)) = Some z.
Proof.
  unfold in_int64, int64_min, int64_max. intros Hz. unfold FormatInt. destruct (Z.ltb_spec z 0) as [Hn|Hn].
  - rewrite to_bytes_app, to_of_bytes. unfold Atoi. cbn [to_bytes String.list_ascii_of_string app].
    rewrite number_decimal by lia. cbn [option_map]. rewrite Z2N.id by lia. rewrite Z.opp_involutive.
    rewrite (proj2 (Z.leb_le int64_min z)), (proj2 (Z.leb_le z int64_max)) by (unfold int64_min, int64_max; lia). done.
  - rewrite to_of_bytes, decimal_sign by lia. rewrite Z2N.id by lia.
    by rewrite (proj2 (Z.leb_le z int64_max)) by (unfold int64_max; lia).
Qed.

(** [n, _ := strconv.ParseInt(s, 10, 64)]: zero for what is no number, the nearest end of
    the range for what is outside of it. *)
Definition ParseInt_lax (l : bytes) : Z :=
  let v := match l with
           | "-"%char :: r => option_map Z.opp (number r)
           | "+"%char :: r => number r
           | _ => number l
           end in
  match v with Some n => Z.max int64_min (Z.min n int64_max) | None => 0 end.

Lemma ParseInt_lax_range l : in_int64 (ParseInt_lax l).
Proof.
  unfold ParseInt_lax, in_int64, int64_min, int64_max.
  destruct (match l with [] => _ | _ => _ end); lia.
Qed.

Lemma ParseInt_lax_Atoi l z : Atoi l = Some z → ParseInt_lax l = z.
Proof.
  intros H. pose proof (Atoi_range l z H) as Hr. unfold ParseInt_lax. unfold Atoi in H.
  destruct (match l with [] => _ | _ => _ end) as [n|]; [|done]. unfold in_int64 in Hr.
  case_match; [|done]. injection H as ->. lia.
Qed.

Lemma ParseInt_lax_FormatInt z : in_int64 z → ParseInt_lax (to_bytes (FormatInt z)) = z.
Proof. intros Hz. by apply ParseInt_lax_Atoi, Atoi_FormatInt. Qed.

(** [base64.StdEncoding]. *)
Definition b64_char (n : N) : ascii :=
  ascii_of_N (if n <? 26 then 65 + n else if n <? 52 then 71 + n else if n <? 62 then n - 4 else if n =? 62 then 43 else 47)%N.
Fixpoint base64 (l : bytes) : bytes :=
  match l with
  | a :: b :: c :: r =>
      let v := (N_of_ascii a * 65536 + N_of_ascii b * 256 + N_of_ascii c)%N in
      b64_char (v / 262144) :: b64_char (v / 4096 mod 64) :: b64_char (v / 64 mod 64) :: b64_char (v mod 64) :: base64 r
  | [a; b] =>
      let v := (N_of_ascii a * 1024 + N_of_ascii b * 4)%N in
      [b64_char (v / 4096); b64_char (v / 64 mod 64); b64_char (v mod 64); "="%char]
  | [a] => let v := (N_of_ascii a * 16)%N in [b64_char (v / 64); b64_char (v mod 64); "="%char; "="%char]
  | [] => []
  end.

Example base64_sample : of_bytes (base64 (to_bytes "a@b.c/token:k")) = "YUBiLmMvdG9rZW46aw=="%string.
Proof. vm_compute. reflexivity. Qed.
Example encode_sample : Encode {[ "page" := "2"; "filter" := "a b&c" ]} = "filter=a+b%26c&page=2"%string.
Proof. vm_compute. reflexivity. Qed.

(** ** Requests *)

Record Request := { Method : string; URL : string; Authorization : string; ReqBody : option json }.
Record Response := { StatusCode : Z; Link : string; RetryAfter : string; RespBody : blob }.

(** The answer to the newest request, given those before it; [None] when none arrives. *)
Class Server := serve : list Request → option Response.

(** The errors of the connector package, with their text. *)
Inductive conn_error :=
| ErrInvalidConfig (what : string)
| ErrRateLimited (what : string)
| ErrNotSupported
| ErrEndOfPage
| Failed (what : string).

#[export] Instance conn_error_eq : EqDecision conn_error.
Proof. solve_decision. Defined.

(** The state of a client is the requests it has made. *)
Abbreviation Net := (Eff (list Request) conn_error) (only parsing).

Definition http `{Server} (who : string) (r : Request) : Net Response := λ w,
  let log := store w ++ [r] in
  let w' := {| store := log; calls_made := S (calls_made w) |} in
  match serve log with
  | Some resp => (Ok resp, w')
  | None => (Err (Failed (str_app who ": no response")), w')
  end.

(** A call whose error is not looked at. *)
Definition attempt {A} (m : Net A) : Net (option A) := λ w,
  match m w with (Ok a, w') => (Ok (Some a), w') | (Err _, w') => (Ok None, w') end.

Definition status_text (who what : string) (resp : Response) : string :=
  str_app who (str_app what (FormatInt (StatusCode resp))).

Definition expect_200 (who what : string) (resp : Response) : Net unit :=
  if StatusCode resp =? 200 then eret tt else ethrow (Failed (status_text who what resp)).

(** The check of the status in which too many requests is told apart, with its own text. *)
Definition expect (who limited what : string) (resp : Response) : Net unit :=
  if StatusCode resp =? 429 then ethrow (ErrRateLimited (status_text who limited resp)) else expect_200 who what resp.
Definition expect_ok (who what : string) (resp : Response) : Net unit := expect who what what resp.

Definition read_body {A} (who what : string) (d : decoder A) (resp : Response) : Net A :=
  match decode d (RespBody resp) with
  | Some a => eret a
  | None => ethrow (Failed (str_app who (str_app ": decode " what)))
  end.

Lemma http_log `{Server} who r w : store (http who r w).2 = store w ++ [r].
Proof. unfold http. by destruct (serve (store w ++ [r])). Qed.
