(* ===== verification/GoUrl.v ===== *)
(** * Page addresses

    [url.Parse] and [RequestURI], which the connectors use to follow the address of the
    next page that a service sends. *)

From Stdlib Require Import Ascii.
From S2P Require Import Prelude GoFloat GoString GoText Json.

Module GoUrl.

(** What net/url makes of a host in brackets, an IPv6 literal. *)
Class Bracketed := bracketed_host : bytes → bool.

Inductive mode := EncodePath | EncodeHost | EncodeUser | EncodeFragment.

Definition oneof (c : ascii) (s : string) : bool := existsb (Ascii.eqb c) (to_bytes s).
Definition quote_char : ascii := ascii_of_N 34.
Definition alnum (c : ascii) : bool :=
  let b := byte_val c in ((48 <=? b) && (b <=? 57) || (65 <=? b) && (b <=? 90) || (97 <=? b) && (b <=? 122))%N.

Definition shouldEscape (m : mode) (c : ascii) : bool :=
  if alnum c then false
  else if match m with EncodeHost => oneof c "!$&'()*+,;=:[]<>" || Ascii.eqb c quote_char | _ => false end then false
  else if oneof c "-_.~" then false
  else if oneof c "$&+,/:;=?@" then
    match m with EncodePath => Ascii.eqb c "?"%char | EncodeUser => oneof c "@/?:" | EncodeFragment => false | EncodeHost => true end
  else match m with EncodeFragment => negb (oneof c "!()*") | _ => true end.

(** [unescape]; [None] is an error. *)
Fixpoint unescape (m : mode) (l : bytes) : option bytes :=
  match l with
  | [] => Some []
  | c :: r =>
      if Ascii.eqb c "%"%char then
        match r with
        | a :: b :: r' =>
            get x from unhex_digit a in get y from unhex_digit b in
            match m with
            | EncodeHost => if ((x <? 8) && negb ((x =? 2) && (y =? 5)))%N then None
                            else get t from unescape m r' in Some (ascii_of_N (16 * x + y) :: t)
            | _ => get t from unescape m r' in Some (ascii_of_N (16 * x + y) :: t)
            end
        | _ => None
        end
      else match m with
      | EncodeHost => if (byte_val c <? 128)%N && shouldEscape m c then None else get t from unescape m r in Some (c :: t)
      | _ => get t from unescape m r in Some (c :: t)
      end
  end.

Definition escape (m : mode) (l : bytes) : bytes := l ≫= λ c, if shouldEscape m c then percent c else [c].

Definition validEncoded (l : bytes) : bool :=
  forallb (λ c, oneof c "!$&'()*+,;=:@[]%" || negb (shouldEscape EncodePath c)) l.

(** What [setPath] and [EscapedPath] make of a path together. *)
Definition escaped_path (p : bytes) : option bytes :=
  get path from unescape EncodePath p in
  Some (if negb (bool_decide (p = escape EncodePath path)) && validEncoded p then p
        else if bool_decide (path = to_bytes "*") then path else escape EncodePath path).

(** ** The parts of an address *)

Definition letter (c : ascii) : bool := let b := byte_val c in ((65 <=? b) && (b <=? 90) || (97 <=? b) && (b <=? 122))%N.

(** [getScheme]: the scheme and the rest; an address may not begin with a colon. *)
Fixpoint scheme_from (i : nat) (whole cur l : bytes) : option (bytes * bytes) :=
  match l with
  | [] => Some ([], whole)
  | c :: r =>
      if letter c then scheme_from (S i) whole (cur ++ [c]) r
      else if alnum c || oneof c "+-." then
        match i with O => Some ([], whole) | _ => scheme_from (S i) whole (cur ++ [c]) r end
      else if Ascii.eqb c ":"%char then match i with O => None | _ => Some (cur, r) end
      else Some ([], whole)
  end.
Definition getScheme (l : bytes) : option (bytes * bytes) := scheme_from O l [] l.

Definition cut (c : ascii) (l : bytes) : bytes * bytes := match cut_at c l with Some (a, b) => (a, b) | None => (l, []) end.

(** The last occurrence: what stands before it and behind it. *)
Definition cut_last (c : ascii) (l : bytes) : option (bytes * bytes) :=
  match cut_at c (rev l) with Some (a, b) => Some (rev b, rev a) | None => None end.

(** [validOptionalPort], behind the colon. *)
Definition digits_only (l : bytes) : bool := forallb (λ c, match digit c with Some _ => true | None => false end) l.

Definition host_ok `{Bracketed} (h : bytes) : bool :=
  match h with
  | c :: _ => if Ascii.eqb c "["%char then bracketed_host h
              else match cut_last ":"%char h with Some (_, port) => digits_only port | None => true end
                   && match unescape EncodeHost h with Some _ => true | None => false end
  | [] => true
  end.

Definition userinfo_ok (u : bytes) : bool :=
  forallb (λ c, alnum c || oneof c "-._:~!$&'()*+,;=%@") u
  && let '(name, pass) := cut ":"%char u in
     match unescape EncodeUser name, unescape EncodeUser pass with Some _, Some _ => true | _, _ => false end.

Definition authority_ok `{Bracketed} (a : bytes) : bool :=
  match cut_last "@"%char a with
  | Some (u, h) => host_ok h && userinfo_ok u
  | None => host_ok a
  end.

Definition control (c : ascii) : bool := ((byte_val c <? 32) || (byte_val c =? 127))%N.

(** The query is cut off, with its question mark: [RequestURI] prints it back, also when
    nothing follows it. *)
Definition split_query (l : bytes) : bytes * bytes :=
  match cut_at "?"%char l with Some (p, q) => (p, "?"%char :: q) | None => (l, []) end.

(** [url.Parse]: the path as it was written, empty when the rest is opaque, and the query
    with its question mark. *)
Definition Parse `{Bracketed} (raw : string) : option (bytes * bytes) :=
  let '(main, frag) := cut "#"%char (to_bytes raw) in
  if existsb control main then None
  else
    get _ from unescape EncodeFragment frag in
    if bool_decide (main = to_bytes "*") then Some (main, [])
    else
      get (scheme, rest) from getScheme main in
      let '(rest, query) := split_query rest in
      get path from
        match rest with
        | "/"%char :: rest1 =>
            let is_abs := match scheme with [] => false | _ => true end in
            let triple := match rest1 with "/"%char :: "/"%char :: _ => true | _ => false end in
            match rest1 with
            | "/"%char :: a =>
                if is_abs || negb triple then
                  let '(auth, p) := match cut_at "/"%char a with Some (x, y) => (x, "/"%char :: y) | None => (a, []) end in
                  if authority_ok auth then Some p else None
                else Some rest
            | _ => Some rest
            end
        | _ =>
            match scheme with
            | _ :: _ => Some []
            | [] => if existsb (Ascii.eqb ":"%char) (cut "/"%char rest).1 then None else Some rest
            end
        end in
      get _ from unescape EncodePath path in Some (path, query).

(** [u, err := url.Parse(raw)] followed by [u.Path] and [u.RequestURI()]: [None] is an
    error or an empty path. *)
Definition request_uri `{Bracketed} (raw : string) : option string :=
  get (path, query) from Parse raw in
  match path with
  | [] => None
  | _ => get e from escaped_path path in Some (of_bytes (e ++ query))
  end.

(** ** Values of a query *)

(** [QueryUnescape]. *)
Fixpoint query_unescape (l : bytes) : option bytes :=
  match l with
  | [] => Some []
  | c :: r =>
      if Ascii.eqb c "%"%char then
        match r with
        | a :: b :: r' =>
            get x from unhex_digit a in get y from unhex_digit b in get t from query_unescape r' in Some (ascii_of_N (16 * x + y) :: t)
        | _ => None
        end
      else get t from query_unescape r in Some ((if Ascii.eqb c "+"%char then " "%char else c) :: t)
  end.

(** One setting of a query; malformed ones are left out. *)
Definition query_pair (part : bytes) : option (bytes * bytes) :=
  match part with
  | [] => None
  | _ =>
      if existsb (Ascii.eqb ";"%char) part then None
      else let '(k, v) := cut "="%char part in
           get k' from query_unescape k in get v' from query_unescape v in Some (k', v')
  end.

(** [u.Query().Get(key)]. *)
Definition query_get (query : bytes) (key : string) : string :=
  match list_find (λ kv, kv.1 = to_bytes key) (omap query_pair (split_on "&"%char (trim_prefix (to_bytes "?") query))) with
  | Some (_, (_, v)) => of_bytes v
  | None => EmptyString
  end.

(** ** An ordinary address is followed to the letter *)

Definition plain (c : ascii) : bool := alnum c || oneof c "-_.~/".

Lemma cut_at_absent c l : existsb (Ascii.eqb c) l = false → cut_at c l = None.
Proof.
  induction l as [|a l IH]; [done|]. simpl. intros [Ha Hl]%orb_false_iff. rewrite Ascii.eqb_sym, Ha. by rewrite IH.
Qed.

Lemma cut_at_first c l r : existsb (Ascii.eqb c) l = false → cut_at c (l ++ c :: r) = Some (l, r).
Proof.
  induction l as [|a l IH]; simpl; [by rewrite Ascii.eqb_refl|]. intros [Ha Hl]%orb_false_iff.
  rewrite Ascii.eqb_sym, Ha. by rewrite IH.
Qed.

Definition host_char (c : ascii) : bool := alnum c || oneof c "-.".
Definition query_char (c : ascii) : bool := negb (control c) && negb (Ascii.eqb "#"%char c).

Ltac every_ascii c := destruct c as [[] [] [] [] [] [] [] []]; vm_compute; (discriminate || auto 12).

Lemma plain_facts c :
  plain c = true → Ascii.eqb c "%"%char = false ∧ shouldEscape EncodePath c = false ∧ Ascii.eqb "?"%char c = false ∧ query_char c = true.
Proof. every_ascii c. Qed.

Lemma host_facts c :
  host_char c = true → Ascii.eqb c "%"%char = false ∧ shouldEscape EncodeHost c = false ∧ Ascii.eqb "?"%char c = false
    ∧ query_char c = true ∧ Ascii.eqb "@"%char c = false ∧ Ascii.eqb ":"%char c = false ∧ Ascii.eqb "/"%char c = false ∧ Ascii.eqb c "["%char = false.
Proof. every_ascii c. Qed.

Lemma absent (c : ascii) (P : ascii → bool) l :
  (∀ x, P x = true → Ascii.eqb c x = false) → Forall (λ x, P x = true) l → existsb (Ascii.eqb c) l = false.
Proof. intros HP. induction 1 as [|x l Hx _ IH]; [done|]. simpl. by rewrite HP, IH. Qed.

Lemma unescape_plain p : Forall (λ c, plain c = true) p → unescape EncodePath p = Some p ∧ escape EncodePath p = p.
Proof.
  unfold escape. induction 1 as [|c p Hc _ [IH1 IH2]]; [done|]. destruct (plain_facts c Hc) as (H1 & H2 & _).
  split; [simpl; by rewrite H1, IH1|]. rewrite bind_cons, H2. simpl. by rewrite IH2.
Qed.

Lemma unescape_host h : Forall (λ c, host_char c = true) h → unescape EncodeHost h = Some h.
Proof.
  induction 1 as [|c h Hc _ IH]; [done|]. destruct (host_facts c Hc) as (H1 & H2 & _). simpl.
  by rewrite H1, H2, andb_false_r, IH.
Qed.

Lemma authority_plain `{Bracketed} h : Forall (λ c, host_char c = true) h → authority_ok h = true.
Proof.
  intros Hh. unfold authority_ok, cut_last. rewrite cut_at_absent; last first.
  { apply (absent _ host_char); [|by apply Forall_rev]. intros x Hx. by apply host_facts in Hx as (_ & _ & _ & _ & ? & _). }
  unfold host_ok. destruct h as [|c h]; [done|]. apply Forall_cons in Hh as Hc. destruct Hc as [Hc _].
  destruct (host_facts c Hc) as (_ & _ & _ & _ & _ & _ & _ & ->). rewrite (unescape_host _ Hh). unfold cut_last.
  rewrite cut_at_absent; [done|]. apply (absent _ host_char); [|by apply Forall_rev].
  intros x Hx. by apply host_facts in Hx as (_ & _ & _ & _ & _ & ? & _).
Qed.

Lemma query_chars l : Forall (λ c, query_char c = true) l → existsb (Ascii.eqb "#"%char) l = false ∧ existsb control l = false.
Proof.
  induction 1 as [|c l Hc _ [IH1 IH2]]; [done|]. unfold query_char in Hc.
  rewrite andb_true_iff, !negb_true_iff in Hc. destruct Hc as [H1 H2]. cbn [existsb]. by rewrite H1, H2, IH1, IH2.
Qed.

Lemma request_uri_plain `{Bracketed} host p query :
  Forall (λ c, host_char c = true) host → Forall (λ c, plain c = true) p → Forall (λ c, query_char c = true) query →
  request_uri (of_bytes (to_bytes "https://" ++ host ++ "/"%char :: p ++ "?"%char :: query))
  = Some (of_bytes ("/"%char :: p ++ "?"%char :: query)).
Proof.
  intros Hh Hp Hq. unfold request_uri, Parse. rewrite to_of_bytes. set (main := to_bytes "https://" ++ _).
  assert (Hall : Forall (λ c, query_char c = true) main).
  { unfold main. apply Forall_app. split; [repeat constructor|]. apply Forall_app. split.
    - eapply Forall_impl; [exact Hh|]. intros c Hc. by apply host_facts in Hc as (_ & _ & _ & ? & _).
    - apply Forall_cons. split; [done|]. apply Forall_app. split; [|by apply Forall_cons].
      eapply Forall_impl; [exact Hp|]. intros c Hc. by apply plain_facts in Hc as (_ & _ & _ & ?). }
  destruct (query_chars main Hall) as [Hhash Hctl]. unfold cut at 1. rewrite (cut_at_absent _ _ Hhash), Hctl.
  cbn [unescape]. rewrite bool_decide_false by (unfold main; discriminate).
  change (getScheme main) with (Some (to_bytes "https", to_bytes "//" ++ host ++ "/"%char :: p ++ "?"%char :: query)). cbv beta iota.
  unfold split_query. replace (to_bytes "//" ++ host ++ "/"%char :: p ++ "?"%char :: query)
    with ((to_bytes "//" ++ host ++ "/"%char :: p) ++ "?"%char :: query) by (rewrite <- !app_assoc; done).
  rewrite cut_at_first; last first.
  { rewrite !existsb_app. change (existsb (Ascii.eqb "?"%char) ("/"%char :: p)) with (existsb (Ascii.eqb "?"%char) p).
    rewrite (absent _ host_char host), (absent _ plain p); try done.
    - intros x Hx. by apply plain_facts in Hx as (_ & _ & ? & _).
    - intros x Hx. by apply host_facts in Hx as (_ & _ & ? & _). }
  cbn [to_bytes String.list_ascii_of_string app orb]. rewrite cut_at_first; last first.
  { apply (absent _ host_char); [|done]. intros x Hx. by apply host_facts in Hx as (_ & _ & _ & _ & _ & _ & ? & _). }
  rewrite (authority_plain _ Hh). unfold escaped_path.
  destruct (unescape_plain ("/"%char :: p)) as [Hu He]; [by apply Forall_cons|]. rewrite !Hu, He.
  rewrite bool_decide_true by done. cbn [negb andb]. by rewrite bool_decide_false.
Qed.

Definition no_brackets : Bracketed := λ _, false.
Example next_page : @request_uri no_brackets "https://acme.zendesk.com/api/v2/tickets.json?page=2&x=a%20b"
  = Some "/api/v2/tickets.json?page=2&x=a%20b"%string.
Proof. vm_compute. reflexivity. Qed.
Example next_cursor : (λ pq, query_get pq.2 "cursor") <$> @Parse no_brackets "/wiki/api/v2/pages?limit=100&cursor=a%2Bb" = Some "a+b"%string.
Proof. vm_compute. reflexivity. Qed.
Example opaque_address : @request_uri no_brackets "mailto:a@b" = None.
Proof. vm_compute. reflexivity. Qed.
End GoUrl.
