(* ===== verification/ConnectorBase.v ===== *)
(** * Connectors: the shared parts (connector/source_connector.go, registry.go, webhook_verify.go)

    The data connectors exchange with the engine, the registry, webhook signatures,
    and the document iterators, whose code is repeated in every connector with two
    versions of [Next]. Both are proved once, for any source of pages. *)

From Stdlib Require Import Ascii.
From S2P Require Import Prelude GoFloat GoString GoText Calendar GoTime Effects AuditIntegrity Json.

Module Connector.

Record ConnectorConfig := {
  Name : string; TenantID : string; SourceID : string; Settings : gmap string json; Credentials : blob
}.

Record Namespace := { ns_ID : string; ns_Name : string; Kind : string; ns_Metadata : gmap string string }.

Record DocumentRef := { NamespaceID : string; ID : string; ETag : string; UpdatedAt : Time }.
Definition no_ref : DocumentRef := {| NamespaceID := ""; ID := ""; ETag := ""; UpdatedAt := 0 |}.

#[export] Instance DocumentRef_eq : EqDecision DocumentRef.
Proof. solve_decision. Defined.

Record Document := {
  Ref : DocumentRef; MIMEType : string; Title : string; Author : string; Size : Z;
  CreatedAt : Time; d_UpdatedAt : Time; Metadata : gmap string string; Content : string
}.

Record ListOpts := { PageSize : Z; PageToken : string; Since : Time }.

Inductive ChangeKind := ChangeUnknown | ChangeUpserted | ChangeDeleted.
Record DocumentChange := { ch_Kind : ChangeKind; ch_Ref : DocumentRef }.

#[export] Instance ChangeKind_eq : EqDecision ChangeKind.
Proof. solve_decision. Defined.

(** The checks every connector makes before it looks at its own credentials. *)
Definition checked_config (cfg : ConnectorConfig) : result json conn_error :=
  if str_empty (TenantID cfg) then Err (ErrInvalidConfig "tenant_id required")
  else if str_empty (SourceID cfg) then Err (ErrInvalidConfig "source_id required")
  else match Credentials cfg with
  | NoBytes => Err (ErrInvalidConfig "credentials required")
  | Garbled => Err (ErrInvalidConfig "parse credentials")
  | Parsed j => Ok j
  end.

Definition parse_creds {A} (d : decoder A) (cfg : ConnectorConfig) : result A conn_error :=
  match checked_config cfg with
  | Err e => Err e
  | Ok j => match d j with Some c => Ok c | None => Err (ErrInvalidConfig "parse credentials") end
  end.

Definition require (ok : bool) (what : string) : result unit conn_error := if ok then Ok tt else Err (ErrInvalidConfig what).

(** A validated configuration, or the error of the validation. *)
Definition or_throw {S A} (r : result A conn_error) : Eff S conn_error A := match r with Ok a => eret a | Err e => ethrow e end.

(** The [do] of a connector whose requests carry no body. *)
Definition GET `{Server} (who base auth path : string) : Net Response :=
  http who {| Method := "GET"; URL := str_app (trim_slashes base) path; Authorization := auth; ReqBody := None |}.

(** The text of a fetch that failed. *)
Definition fetch_status (id : string) : string := str_app ": fetch " (str_app id " status=").

(** [if updated.IsZero() { updated = ref.UpdatedAt }]. *)
Definition or_known (updated : Time) (ref : DocumentRef) : Time := if time_is_zero updated then UpdatedAt ref else updated.

(** [pageOr]. *)
Definition pageOr (v def : Z) : Z := if (0 <? v)%Z then v else def.

(** ** The registry *)

Section Registry.
Context {Factory : Type}.

Inductive registry_error := InvalidName (what : string) | ErrAlreadyRegistered (name : string) | ErrNotRegistered (name : string).

(** A factory may be nil. *)
Definition RegisterSourceConnector (name : string) (factory : option Factory) (r : gmap string Factory)
    : option registry_error * gmap string Factory :=
  if str_empty name then (Some (InvalidName "empty name"), r)
  else match factory with
  | None => (Some (InvalidName "nil factory"), r)
  | Some f => match r !! name with
              | Some _ => (Some (ErrAlreadyRegistered name), r)
              | None => (None, <[name := f]> r)
              end
  end.

Definition GetSourceConnector (name : string) (r : gmap string Factory) : result Factory registry_error :=
  match r !! name with Some f => Ok f | None => Err (ErrNotRegistered name) end.

Definition ListSourceConnectors (r : gmap string Factory) : list string := sort_by str_ltb (fst <$> map_to_list r).

(** Registrations in any order: the first one under a name stays. *)
Fixpoint register_all (l : list (string * Factory)) (r : gmap string Factory) : gmap string Factory :=
  match l with
  | [] => r
  | (n, f) :: rest => register_all rest (RegisterSourceConnector n (Some f) r).2
  end.

Lemma register_all_lookup l r n f :
  n ≠ EmptyString → r !! n = Some f → register_all l r !! n = Some f.
Proof.
  intros Hn. revert r. induction l as [|[m g] l IH]; intros r Hr; [done|]. simpl. apply IH.
  unfold RegisterSourceConnector. destruct (str_empty m); [done|]. destruct (r !! m) eqn:E; [done|]. simpl.
  rewrite lookup_insert_ne; [done|]. congruence.
Qed.

(** The first registration under a name decides what the name denotes. *)
Theorem registry_first_wins l n :
  n ≠ EmptyString →
  GetSourceConnector n (register_all l ∅) =
    match list_find (λ x, x.1 = n) l with Some (_, (_, f)) => Ok f | None => Err (ErrNotRegistered n) end.
Proof.
  intros Hn. unfold GetSourceConnector.
  assert (Hgen : ∀ r, r !! n = None →
    register_all l r !! n = match list_find (λ x, x.1 = n) l with Some (_, (_, f)) => Some f | None => None end).
  { induction l as [|[m g] l IH]; intros r Hr; [done|]. simpl. unfold RegisterSourceConnector.
    destruct (decide (m = n)) as [->|Hne].
    - rewrite (proj2 (str_empty_false n) Hn), Hr. simpl. apply register_all_lookup; [done|]. apply lookup_insert_eq.
    - rewrite IH; [by destruct (list_find (λ x, x.1 = n) l) as [[? [? ?]]|]|].
      destruct (str_empty m); [done|]. destruct (r !! m) eqn:E; [done|]. simpl. by rewrite lookup_insert_ne. }
  rewrite Hgen by apply lookup_empty. by destruct (list_find _ l) as [[? [? ?]]|].
Qed.
End Registry.

(** ** Webhook signatures *)

Section Webhooks.
Inductive webhook_error := ErrWebhookSignatureMissing | ErrWebhookSignatureInvalid | ErrWebhookTokenInvalid.

(** The keyed hash, of the key and the payload. *)
Context (hmac : bytes → bytes → bytes).

(** [hex.DecodeString]. *)
Fixpoint DecodeString (l : bytes) : option bytes :=
  match l with
  | [] => Some []
  | a :: b :: r =>
      match unhex_digit a, unhex_digit b, DecodeString r with
      | Some x, Some y, Some rest => Some (ascii_of_N (16 * x + y) :: rest)
      | _, _, _ => None
      end
  | _ => None
  end.

Definition verifyHMAC (secret payload : bytes) (header prefix : string) : option webhook_error :=
  match secret with
  | [] => None
  | _ =>
      if str_empty header then Some ErrWebhookSignatureMissing
      else match DecodeString (trim_prefix (to_bytes prefix) (to_bytes (trim_space header))) with
      | None => Some ErrWebhookSignatureInvalid
      | Some expected => if bool_decide (expected = hmac secret payload) then None else Some ErrWebhookSignatureInvalid
      end
  end.

(** [SignHMACSHA256] and [SignHMACSHA1], with their prefixes. *)
Definition sign (prefix : string) (secret payload : bytes) : string :=
  str_app prefix (of_bytes (AuditIntegrity.hex (hmac secret payload))).

Definition VerifyTokenEqual (secret header : string) : option webhook_error :=
  if str_empty secret then None
  else if str_empty header then Some ErrWebhookSignatureMissing
  else if str_eqb secret header then None else Some ErrWebhookTokenInvalid.

(** The first value under the exact name, else under a name that differs in case only;
    [order] is the iteration order of the map. *)
Definition FirstHeader (order : list (string * list string)) (name : string) : string :=
  match list_find (λ h, h.1 = name ∧ h.2 ≠ []) order with
  | Some (_, (_, v :: _)) => v
  | _ => match list_find (λ h, fold_eq h.1 name = true ∧ h.2 ≠ []) order with
         | Some (_, (_, v :: _)) => v
         | _ => EmptyString
         end
  end.

Lemma unhex_hex_digit n : (n < 16)%N → unhex_digit (AuditIntegrity.hex_digit n) = Some n.
Proof.
  intros Hn. destruct n as [|p]; [done|]. do 4 (try destruct p as [p|p|]); try done; lia.
Qed.

Lemma DecodeString_hex l : DecodeString (AuditIntegrity.hex l) = Some l.
Proof.
  induction l as [|a l IH]; [done|]. unfold AuditIntegrity.hex in *. rewrite bind_cons. cbn [AuditIntegrity.hex_byte app DecodeString].
  pose proof (N_ascii_bounded a) as Ha. assert (E : N_of_ascii a = (16 * (N_of_ascii a / 16) + N_of_ascii a mod 16)%N) by (apply N.div_mod; done).
  rewrite !unhex_hex_digit; [|apply N.mod_lt; done|apply N.Div0.div_lt_upper_bound; lia].
  rewrite IH, <- E. by rewrite ascii_N_embedding.
Qed.
End Webhooks.

(** A printable byte is no part of white space at either end. *)
Lemma strip_space_plain b t : (33 ≤ b ≤ 126)%N → strip_space (b :: t) = None.
Proof.
  intros Hb. destruct b as [|p]; [lia|].
  do 7 (try (destruct p as [p|p|]; [| |try done; lia])); try done; try lia.
Qed.

Lemma strip_space_rev_plain b t : (33 ≤ b ≤ 126)%N → strip_space_rev (b :: t) = None.
Proof.
  intros Hb. destruct b as [|p]; [lia|].
  do 7 (try (destruct p as [p|p|]; [| |try lia])); try lia; try done; simpl.
  all: repeat (case_match; try done).
Qed.

Definition printable (c : ascii) : bool := ((33 <=? byte_val c) && (byte_val c <=? 126))%N.

Lemma trim_space_plain s :
  Forall (λ c, printable c = true) (to_bytes s) → trim_space s = s.
Proof.
  intros Hs. unfold trim_space.
  assert (Hr : ∀ (f : list N → option (list N)) n l, (∀ b t, (33 ≤ b ≤ 126)%N → f (b :: t) = None) →
    Forall (λ b, 33 ≤ b ≤ 126)%N l → f [] = None → strip_many f n l = l).
  { intros f n l Hf Hl H0. destruct n; simpl; [done|]. destruct l as [|b t]; [by rewrite H0|].
    rewrite Hf; [done|]. by apply Forall_cons in Hl as [? _]. }
  assert (Hb : Forall (λ b, 33 ≤ b ≤ 126)%N (byte_val <$> to_bytes s)).
  { apply Forall_fmap. eapply Forall_impl; [exact Hs|]. intros c Hc. unfold printable in Hc. simpl.
    rewrite andb_true_iff, !N.leb_le in Hc. lia. }
  rewrite (Hr strip_space _ _ strip_space_plain Hb eq_refl).
  rewrite (Hr strip_space_rev) by (auto using strip_space_rev_plain, Forall_rev).
  rewrite rev_involutive, <- list_fmap_compose. rewrite <- (of_to_bytes s) at 2. f_equal.
  rewrite <- (list_fmap_id (to_bytes s)) at 2. apply list_fmap_ext. intros i c _. simpl. apply ascii_N_embedding.
Qed.

Lemma hex_printable l : Forall (λ c, printable c = true) (AuditIntegrity.hex l).
Proof.
  apply Forall_forall. intros c [_ Hc]%(AuditIntegrity.hex_alphabet id). unfold printable, byte_val.
  rewrite andb_true_iff, !N.leb_le. lia.
Qed.

(** A webhook is accepted exactly when its header carries the signature of the
    payload under the shared secret. What [Sign] produces is accepted; and whatever is
    accepted, once trimmed and freed of its prefix, decodes to that signature. *)
Theorem webhook_signatures hmac secret payload prefix :
  secret ≠ [] → Forall (λ c, printable c = true) (to_bytes prefix) → prefix ≠ EmptyString →
  verifyHMAC hmac secret payload (sign hmac prefix secret payload) prefix = None ∧
  ∀ header, verifyHMAC hmac secret payload header prefix = None →
    DecodeString (trim_prefix (to_bytes prefix) (to_bytes (trim_space header))) = Some (hmac secret payload).
Proof.
  intros Hs Hp Hne. destruct secret as [|k secret]; [done|]. set (key := k :: secret). split.
  - unfold verifyHMAC, sign. cbn [key].
    assert (Hnon : str_empty (str_app prefix (of_bytes (AuditIntegrity.hex (hmac key payload)))) = false).
    { apply str_empty_false. intros E. apply (f_equal to_bytes) in E. rewrite to_bytes_app in E.
      destruct prefix as [|c p]; [done|]. by cbn in E. }
    fold key. rewrite Hnon. rewrite trim_space_plain.
    + rewrite to_bytes_app, to_of_bytes. unfold trim_prefix.
      rewrite (proj2 (strip_prefix_spec _ _ _) eq_refl). cbn. rewrite DecodeString_hex. by rewrite bool_decide_true.
    + rewrite to_bytes_app, to_of_bytes. apply Forall_app. split; [done|apply hex_printable].
  - intros header. unfold verifyHMAC. cbn [key]. fold key. destruct (str_empty header); [done|].
    destruct (DecodeString _) as [e|]; [|done]. case_bool_decide; [by subst e|done].
Qed.

(** ** Iterators *)

(** What one fetch brings: the page, the position behind it, whether it was the last,
    and the value [fetchPage] returns. *)
Record fetched (Src : Type) := { f_page : list DocumentRef; f_src : Src; f_done : bool; f_ret : bool }.
Arguments f_page {Src}.
Arguments f_src {Src}.
Arguments f_done {Src}.
Arguments f_ret {Src}.
Arguments Build_fetched {Src}.

(** The steps of a request that succeeded. *)
Ltac net_inv H := repeat (let a := fresh "a" in let w := fresh "w" in apply ebind_Ok in H as (a & w & _ & H); cbv beta in H).

(** A connector's [fetchPage]: it gives up only on an empty page. *)
Class PageSource (Src : Type) := {
  fetchPage : Src → Net (fetched Src);
  fetchPage_false : ∀ s w f w', fetchPage s w = (Ok f, w') → f_ret f = false → f_page f = []
}.

Section Iterator.
Context {Src : Type} `{PageSource Src}.

Record iter := { src : Src; page : list DocumentRef; pageIdx : nat; err : option conn_error; done : bool }.

(** [ListDocuments]. *)
Definition fresh (s : Src) : iter := {| src := s; page := []; pageIdx := 0; err := None; done := false |}.

(** The fields [fetchPage] sets, and its result. *)
Definition fetch_into (it : iter) (w : Env (list Request)) : bool * iter * Env (list Request) :=
  match fetchPage (src it) w with
  | (Ok f, w') => (f_ret f, {| src := f_src f; page := f_page f; pageIdx := 0; err := None; done := f_done f |}, w')
  | (Err e, w') => (false, {| src := src it; page := page it; pageIdx := pageIdx it; err := Some e; done := done it |}, w')
  end.

Definition advance (it : iter) : bool * iter :=
  if (pageIdx it <? length (page it))%nat
  then (true, {| src := src it; page := page it; pageIdx := S (pageIdx it); err := err it; done := done it |})
  else (false, it).

Definition fetch_and_advance (it : iter) (w : Env (list Request)) : bool * iter * Env (list Request) :=
  match fetch_into it w with
  | (true, it', w') => (advance it', w')
  | (false, it', w') => (false, it', w')
  end.

(** [Next] as most connectors have it. *)
Definition Next (it : iter) (w : Env (list Request)) : bool * iter * Env (list Request) :=
  match err it with
  | Some _ => (false, it, w)
  | None =>
      if (length (page it) <=? pageIdx it)%nat then
        if done it then (false, it, w) else fetch_and_advance it w
      else (advance it, w)
  end.

(** [Next] as twelve connectors have it: it looks at [done] first. *)
Definition Next_done_first (it : iter) (w : Env (list Request)) : bool * iter * Env (list Request) :=
  match err it with
  | Some _ => (false, it, w)
  | None =>
      if done it then (false, it, w)
      else if (length (page it) <=? pageIdx it)%nat then fetch_and_advance it w
      else (advance it, w)
  end.

Definition Doc (it : iter) : DocumentRef :=
  match pageIdx it with O => no_ref | S i => default no_ref (page it !! i) end.

Definition Err_ (it : iter) : option conn_error :=
  match err it with None => if done it then Some ErrEndOfPage else None | e => e end.

(** The loop of a caller: [for it.Next(ctx) { it.Doc() }], with the error it finds behind it. *)
Fixpoint drain (next : iter → Env (list Request) → bool * iter * Env (list Request)) (fuel : nat) (it : iter) (w : Env (list Request))
    : option (list DocumentRef * option conn_error * Env (list Request)) :=
  match fuel with
  | O => None
  | S n =>
      match next it w with
      | (false, it', w') => Some ([], Err_ it', w')
      | (true, it', w') =>
          match drain next n it' w' with
          | Some (ds, e, w'') => Some (Doc it' :: ds, e, w'')
          | None => None
          end
      end
  end.

(** ** What the server serves *)

(** How a listing ends: with its last page, with an error, or with an empty page that is
    not the last one. *)
Inductive ending := Finished | Broken (e : conn_error) | Gap.

Inductive serves : Src → Env (list Request) → list (list DocumentRef) → ending → Env (list Request) → Prop :=
| serves_last s w f w' : fetchPage s w = (Ok f, w') → f_done f = true → serves s w [f_page f] Finished w'
| serves_more s w f w' ps e w'' :
    fetchPage s w = (Ok f, w') → f_done f = false → f_page f ≠ [] → serves (f_src f) w' ps e w'' → serves s w (f_page f :: ps) e w''
| serves_gap s w f w' : fetchPage s w = (Ok f, w') → f_done f = false → f_page f = [] → serves s w [] Gap w'
| serves_error s w e w' : fetchPage s w = (Err e, w') → serves s w [] (Broken e) w'.

Definition reported (e : ending) : option conn_error :=
  match e with Finished => Some ErrEndOfPage | Broken e => Some e | Gap => None end.

(** An iterator on page [p], behind [i] of its documents. *)
Definition at_ (s : Src) (p : list DocumentRef) (d : bool) (i : nat) : iter :=
  {| src := s; page := p; pageIdx := i; err := None; done := d |}.

(** A [Next] that walks through the page walks to its end. *)
Lemma drain_page next s p d w fuel i :
  (∀ j, (j < length p)%nat → next (at_ s p d j) w = (true, at_ s p d (S j), w)) → (i ≤ length p)%nat →
  drain next (length p - i + fuel) (at_ s p d i) w =
  match drain next fuel (at_ s p d (length p)) w with
  | Some (ds, e, w') => Some (drop i p ++ ds, e, w')
  | None => None
  end.
Proof.
  intros Hnext. remember (length p - i)%nat as k eqn:Hk. revert i Hk. induction k as [|k IH]; intros i Hk Hi.
  - replace i with (length p) by lia. rewrite drop_all. by destruct (drain _ _ _ _) as [[[? ?] ?]|].
  - cbn [drain Nat.add]. rewrite Hnext by lia. rewrite IH by lia.
    destruct (drain _ fuel _ _) as [[[ds e] w']|]; [|done]. do 3 f_equal.
    destruct (lookup_lt_is_Some_2 p i) as [x Hx]; [lia|]. rewrite (drop_S p x i Hx). simpl. unfold Doc. simpl. by rewrite Hx.
Qed.

Lemma Next_inside s p d i w : (i < length p)%nat → Next (at_ s p d i) w = (true, at_ s p d (S i), w).
Proof.
  intros Hi. unfold Next, advance. simpl. by rewrite (proj2 (Nat.leb_gt _ _)), (proj2 (Nat.ltb_lt _ _)) by done.
Qed.

Lemma Next_done_first_inside s p i w : (i < length p)%nat → Next_done_first (at_ s p false i) w = (true, at_ s p false (S i), w).
Proof.
  intros Hi. unfold Next_done_first, advance. simpl. by rewrite (proj2 (Nat.leb_gt _ _)), (proj2 (Nat.ltb_lt _ _)) by done.
Qed.

(** The step from the end of one page to the first document of the next. *)
Lemma fetch_and_advance_spec it w f w' :
  fetchPage (src it) w = (Ok f, w') →
  fetch_and_advance it w = (match f_page f with [] => (false, at_ (f_src f) [] (f_done f) 0) | _ => (true, at_ (f_src f) (f_page f) (f_done f) 1) end, w').
Proof.
  intros Hf. unfold fetch_and_advance, fetch_into. rewrite Hf. destruct (f_ret f) eqn:Hr.
  - unfold advance. simpl. by destruct (f_page f).
  - by rewrite (fetchPage_false _ _ _ _ Hf Hr).
Qed.

Lemma fetch_and_advance_error it w e w' :
  fetchPage (src it) w = (Err e, w') →
  fetch_and_advance it w = (false, {| src := src it; page := page it; pageIdx := pageIdx it; err := Some e; done := done it |}, w').
Proof. intros Hf. unfold fetch_and_advance, fetch_into. by rewrite Hf. Qed.

Lemma Next_fetches s p w : Next (at_ s p false (length p)) w = fetch_and_advance (at_ s p false (length p)) w.
Proof. unfold Next. simpl. by rewrite Nat.leb_refl. Qed.

Lemma Next_done_first_fetches s p w :
  Next_done_first (at_ s p false (length p)) w = fetch_and_advance (at_ s p false (length p)) w.
Proof. unfold Next_done_first. simpl. by rewrite Nat.leb_refl. Qed.

(** Steps needed: one per document and one more. *)
Definition enough (ps : list (list DocumentRef)) : nat := S (S (length (concat ps))).

Lemma drain_serves s p w ps e w' fuel :
  serves s w ps e w' → (enough ps ≤ fuel)%nat →
  drain Next fuel (at_ s p false (length p)) w = Some (concat ps, reported e, w').
Proof.
  intros Hs. revert p fuel. induction Hs as [s w f w' Hf Hd|s w f w' ps e w'' Hf Hd Hne Hs IH|s w f w' Hf Hd Hp|s w e w' Hf];
    intros p fuel Hfuel; (destruct fuel as [|fuel]; [unfold enough in Hfuel; lia|]); cbn [drain]; rewrite Next_fetches.
  - rewrite (fetch_and_advance_spec (at_ s p false (length p)) w f w' Hf), Hd. destruct (f_page f) as [|d ds] eqn:Hp; [done|].
    unfold enough in Hfuel. simpl in Hfuel. rewrite app_nil_r in Hfuel.
    replace fuel with (length (d :: ds) - 1 + S (fuel - length (d :: ds)))%nat by (simpl; lia).
    rewrite drain_page; [|intros j Hj; by apply Next_inside|simpl; lia].
    cbn [drain]. unfold Next. cbn [err at_ page pageIdx done]. rewrite Nat.leb_refl. cbn. by rewrite !app_nil_r.
  - rewrite (fetch_and_advance_spec (at_ s p false (length p)) w f w' Hf), Hd. destruct (f_page f) as [|d ds] eqn:Hp; [done|].
    unfold enough in Hfuel. simpl in Hfuel. rewrite length_app in Hfuel.
    replace fuel with (length (d :: ds) - 1 + (fuel - (length (d :: ds) - 1)))%nat by (simpl; lia).
    rewrite drain_page; [|intros j Hj; by apply Next_inside|simpl; lia].
    rewrite IH; [|unfold enough; simpl; lia]. done.
  - by rewrite (fetch_and_advance_spec (at_ s p false (length p)) w f w' Hf), Hp, Hd.
  - by rewrite (fetch_and_advance_error (at_ s p false (length p)) w e w' Hf).
Qed.

(** C31: for the connectors whose [Next] hands out the rest of a page before it looks at
    [done] (Jira, Linear and most others; not the twelve that look at [done] first,
    which lose the rest of the last page): a caller that drains the iterator gets every
    document of every page the service gave, in order, and then learns how the listing ended:
    [ErrEndOfPage] behind the last page, the error of the fetch that failed, and nil
    when an empty page came that was not the last, although the listing is incomplete
    then. *)
Theorem drain_complete s w ps e w' :
  serves s w ps e w' → drain Next (enough ps) (fresh s) w = Some (concat ps, reported e, w').
Proof. intros Hs. by apply (drain_serves s [] w ps e w' (enough ps)). Qed.

(** The pages as the other [Next] gives them out: of the last page its first document only. *)
Fixpoint cut_last (ps : list (list DocumentRef)) (e : ending) : list DocumentRef :=
  match ps with
  | [] => []
  | [p] => match e with Finished => take 1 p | _ => p end
  | p :: rest => p ++ cut_last rest e
  end.

Lemma cut_last_cons p q rest e : cut_last (p :: q :: rest) e = p ++ cut_last (q :: rest) e.
Proof. done. Qed.

Lemma serves_nil s w e w' : serves s w [] e w' → e ≠ Finished.
Proof. by inversion 1. Qed.

Lemma drain_serves_done_first s p w ps e w' fuel :
  serves s w ps e w' → (enough ps ≤ fuel)%nat →
  drain Next_done_first fuel (at_ s p false (length p)) w = Some (cut_last ps e, reported e, w').
Proof.
  intros Hs. revert p fuel. induction Hs as [s w f w' Hf Hd|s w f w' ps e w'' Hf Hd Hne Hs IH|s w f w' Hf Hd Hp|s w e w' Hf];
    intros p fuel Hfuel; (destruct fuel as [|fuel]; [unfold enough in Hfuel; lia|]); cbn [drain]; rewrite Next_done_first_fetches.
  - rewrite (fetch_and_advance_spec (at_ s p false (length p)) w f w' Hf), Hd. destruct (f_page f) as [|d ds] eqn:Hp; [done|].
    destruct fuel as [|fuel]; [unfold enough in Hfuel; simpl in Hfuel; lia|]. by cbn.
  - rewrite (fetch_and_advance_spec (at_ s p false (length p)) w f w' Hf), Hd. destruct (f_page f) as [|d ds] eqn:Hp; [done|].
    unfold enough in Hfuel. simpl in Hfuel. rewrite length_app in Hfuel.
    replace fuel with (length (d :: ds) - 1 + (fuel - (length (d :: ds) - 1)))%nat by (simpl; lia).
    rewrite drain_page; [|intros j Hj; by apply Next_done_first_inside|simpl; lia].
    rewrite IH; [|unfold enough; simpl; lia]. destruct ps as [|q rest]; [|by rewrite cut_last_cons].
    apply serves_nil in Hs. simpl. rewrite app_nil_r. by destruct e.
  - by rewrite (fetch_and_advance_spec (at_ s p false (length p)) w f w' Hf), Hp, Hd.
  - by rewrite (fetch_and_advance_error (at_ s p false (length p)) w e w' Hf).
Qed.

(** The [Next] of twelve connectors loses documents: of the last page the caller sees
    only the first, while the end it learns of is the end of a complete listing. *)
Theorem done_first_loses_the_last_page s w ps e w' :
  serves s w ps e w' → drain Next_done_first (enough ps) (fresh s) w = Some (cut_last ps e, reported e, w').
Proof. intros Hs. by apply (drain_serves_done_first s [] w ps e w' (enough ps)). Qed.
End Iterator.
Arguments iter : clear implicits.

(** ** Loops over pages *)

Section Collect.
(** One round: what the page brought, and where the next one is. *)
Context {P A : Type} (round : P → Net (A * option P)).

(** The rounds until there is no next page; [None] when the fuel does not suffice. *)
Fixpoint collect (fuel : nat) (p : P) : Net (option (list A)) :=
  match fuel with
  | O => eret None
  | S n =>
      let@ r := round p in
      match r.2 with
      | None => eret (Some [r.1])
      | Some p' => let@ rest := collect n p' in eret (match rest with Some l => Some (r.1 :: l) | None => None end)
      end
  end.

(** The pages a server has from a place on, and the error that cuts them short. *)
Inductive chain : P → Env (list Request) → list A → option conn_error → Env (list Request) → Prop :=
| chain_last p w a w' : round p w = (Ok (a, None), w') → chain p w [a] None w'
| chain_more p w a p' w' l e w'' : round p w = (Ok (a, Some p'), w') → chain p' w' l e w'' → chain p w (a :: l) e w''
| chain_error p w e w' : round p w = (Err e, w') → chain p w [] (Some e) w'.

(** The loop ends with the pages and returns all of them, or the error. *)
Lemma collect_chain p w l e w' fuel :
  chain p w l e w' → (length l < fuel)%nat →
  collect fuel p w = (match e with None => Ok (Some l) | Some e => Err e end, w').
Proof.
  intros Hc. revert fuel. induction Hc as [p w a w' Hr|p w a p' w' l e w'' Hr Hc IH|p w e w' Hr]; intros fuel Hf;
    (destruct fuel as [|fuel]; [simpl in Hf; lia|]); cbn [collect]; unfold ebind; rewrite Hr; [done| |done].
  cbn [fst snd]. rewrite IH by (simpl in Hf; lia). by destruct e.
Qed.

(** Whatever the loop returned came from such pages. *)
Lemma collect_inv fuel p w l w' : collect fuel p w = (Ok (Some l), w') → chain p w l None w'.
Proof.
  revert p w l w'. induction fuel as [|fuel IH]; intros p w l w'; [done|]. cbn [collect].
  intros ([a [p'|]] & w1 & Hr & Hk)%ebind_Ok; simpl in Hk.
  - apply ebind_Ok in Hk as ([rest|] & w2 & Hc & Hk); [|done]. injection Hk as <- <-. eapply chain_more; [exact Hr|]. by apply IH.
  - injection Hk as <- <-. by apply chain_last.
Qed.

Lemma chain_Forall (Q : A → Prop) p w l e w' :
  (∀ p w a n w', round p w = (Ok (a, n), w') → Q a) → chain p w l e w' → Forall Q l.
Proof. intros HQ. induction 1; eauto. Qed.
End Collect.

(** ** Walks that stop early *)

Section Stopping.
(** The pages of a listing, and which of their items are fresh. *)
Context {P A : Type} (full : P → Net (list A * option P)) (is_fresh : A → bool).

(** A page without anything fresh on it, that is not empty. *)
Definition stale (items : list A) : bool :=
  match items, List.filter is_fresh items with _ :: _, [] => true | _, _ => false end.

(** The round that reports what is fresh, and does not go on behind a stale page where it
    [may] stop. *)
Definition stopping (may : P → list A → bool) (p : P) : Net (list A * option P) :=
  let@ r := full p in
  eret (List.filter is_fresh r.1, if may p r.1 && stale r.1 then None else r.2).

Lemma stale_spec items : stale items = true → items ≠ [] ∧ List.filter is_fresh items = [].
Proof. unfold stale. destruct items as [|a l]; [done|]. by destruct (List.filter is_fresh (a :: l)). Qed.

Lemma filter_stale l : Forall (λ x, is_fresh x = false) l → List.filter is_fresh l = [].
Proof. induction 1 as [|x l Hx _ IH]; [done|]. simpl. by rewrite Hx. Qed.

Lemma stale_below items rest (newer : A → A → Prop) :
  (∀ a b, newer a b → is_fresh b = true → is_fresh a = true) →
  StronglySorted newer (items ++ rest) → stale items = true → List.filter is_fresh rest = [].
Proof.
  intros Hn Hs (Hne & Hf)%stale_spec. destruct items as [|a l]; [done|]. simpl in Hs. apply StronglySorted_inv in Hs as [_ Hall].
  assert (Ha : is_fresh a = false) by (simpl in Hf; by destruct (is_fresh a)).
  apply filter_stale. apply Forall_app in Hall as [_ Hrest]. eapply Forall_impl; [exact Hrest|].
  intros b Hab. destruct (is_fresh b) eqn:Hb; [|done]. by rewrite (Hn a b Hab Hb) in Ha.
Qed.

(** When the items come with the fresh ones first, nothing is lost by stopping. *)
Lemma stopping_complete may (newer : A → A → Prop) p w pages w'' fuel :
  (∀ a b, newer a b → is_fresh b = true → is_fresh a = true) →
  chain full p w pages None w'' → StronglySorted newer (concat pages) → (length pages < fuel)%nat →
  ∃ l w', collect (stopping may) fuel p w = (Ok (Some l), w') ∧ concat l = List.filter is_fresh (concat pages).
Proof.
  intros Hn Hc. remember None as e eqn:He. revert fuel.
  induction Hc as [p w a w' Hr|p w a p' w' l e w'' Hr Hc IH|p w e w' Hr]; intros fuel Hs Hf; [| |done];
    (destruct fuel as [|fuel]; [simpl in Hf; lia|]).
  - exists [List.filter is_fresh a], w'. cbn [collect]. unfold ebind, stopping, ebind. rewrite Hr. simpl.
    rewrite !app_nil_r. by destruct (may p a && stale a).
  - destruct (may p a && stale a) eqn:Hst.
    + exists [List.filter is_fresh a], w'. cbn [collect]. unfold ebind, stopping, ebind. rewrite Hr. cbn [eret fst snd]. rewrite Hst.
      split; [done|]. cbn [concat]. rewrite List.filter_app, app_nil_r. apply andb_true_iff in Hst as [_ Hst].
      by rewrite (stale_below a (concat l) newer Hn Hs Hst), app_nil_r.
    + destruct (IH He fuel) as (l' & w3 & Hl & Hcc); [by eapply StronglySorted_app_1_r|simpl in Hf; lia|].
      exists (List.filter is_fresh a :: l'), w3. cbn [collect]. unfold ebind at 1, stopping at 1, ebind. rewrite Hr. cbn [eret fst snd].
      rewrite Hst, Hl. split; [done|]. cbn [concat]. by rewrite List.filter_app, Hcc.
Qed.
End Stopping.

(** ** Cursors *)

(** [if n > newCursor { newCursor = n }] over the items of a delta. *)
Definition latest (cursor : string) (l : list string) : string :=
  foldl (λ c x, if str_ltb c x then x else c) cursor l.

Lemma latest_spec cursor l :
  (latest cursor l = cursor ∨ latest cursor l ∈ l) ∧ str_ltb (latest cursor l) cursor = false ∧
  ∀ x, x ∈ l → str_ltb (latest cursor l) x = false.
Proof.
  unfold latest. induction l as [|y l IH] using rev_ind; simpl.
  { split_and!; [by left|apply str_ltb_irrefl|set_solver]. }
  rewrite foldl_app. simpl. set (c := foldl _ cursor l) in *. destruct IH as (H1 & H2 & H3).
  destruct (str_ltb c y) eqn:E.
  - split_and!; [right; set_solver| |].
    + destruct (str_ltb y cursor) eqn:E2; [|done]. rewrite (str_ltb_trans c y cursor) in H2; done.
    + intros x [Hx| ->%list_elem_of_singleton]%elem_of_app; [|apply str_ltb_irrefl].
      destruct (str_ltb y x) eqn:E2; [|done]. specialize (H3 x Hx). by rewrite (str_ltb_trans c y x) in H3.
  - split_and!; [destruct H1; [by left|right; set_solver]|done|].
    intros x [Hx| ->%list_elem_of_singleton]%elem_of_app; [by apply H3|done].
Qed.

(** The same with times. *)
Definition newest (cursor : Time) (l : list Time) : Time := foldl Z.max cursor l.

Lemma newest_spec cursor l :
  (newest cursor l = cursor ∨ newest cursor l ∈ l) ∧ (cursor ≤ newest cursor l)%Z ∧ ∀ x, x ∈ l → (x ≤ newest cursor l)%Z.
Proof.
  unfold newest. induction l as [|y l IH] using rev_ind; simpl; [split_and!; [by left|lia|set_solver]|].
  rewrite foldl_app. simpl. destruct IH as (H1 & H2 & H3). split_and!; [|lia|].
  - destruct (Z.max_spec (foldl Z.max cursor l) y) as [[_ ->]|[_ ->]]; [right; set_solver|].
    destruct H1; [by left|right; set_solver].
  - intros x [Hx| ->%list_elem_of_singleton]%elem_of_app; [specialize (H3 x Hx)|]; lia.
Qed.

(** ** Deltas by time *)

Definition upsert (ns id etag : string) (t : Time) : DocumentChange :=
  {| ch_Kind := ChangeUpserted; ch_Ref := {| NamespaceID := ns; ID := id; ETag := etag; UpdatedAt := t |} |}.
Definition changed_at (c : DocumentChange) : Time := UpdatedAt (ch_Ref c).

(** The [DeltaSync] whose cursor is a timestamp: an empty cursor is answered with the
    present, a cursor that is no timestamp with the error [bad]; otherwise the pages are walked,
    each from its [place], and the cursor moves to the newest change they hold. [None]
    when the fuel does not suffice. *)
Definition time_delta {P} (bad : string) (place : P) (round : Time → P → Net (list DocumentChange * option P))
    (now : Time) (fuel : nat) (cursor : string) : Net (option (list DocumentChange * string)) :=
  if str_empty cursor then eret (Some ([], GoTime.Format now))
  else match GoTime.Parse cursor with
  | None => ethrow (Failed bad)
  | Some t =>
      let@ r := collect (round t) fuel place in
      eret (match r with
            | Some pages => Some (concat pages, GoTime.Format (newest t (changed_at <$> concat pages)))
            | None => None
            end)
  end.

(** The cursor stands for a time not before the old one, and no change is newer. *)
Definition moves (t : Time) (changes : list DocumentChange) (cursor' : string) : Prop :=
  ∃ n, cursor' = GoTime.Format n ∧ (n = t ∨ ∃ c, c ∈ changes ∧ changed_at c = n) ∧ (t ≤ n)%Z ∧ ∀ c, c ∈ changes → (changed_at c ≤ n)%Z.

Lemma newest_moves t changes : moves t changes (GoTime.Format (newest t (changed_at <$> changes))).
Proof.
  destruct (newest_spec t (changed_at <$> changes)) as (H1 & H2 & H3). eexists. split_and!; [done| |done|].
  - destruct H1 as [H1|(c & Hc & Hin)%list_elem_of_fmap]; [by left|right; by exists c].
  - intros c Hc. apply H3. by apply list_elem_of_fmap_2.
Qed.

Section TimeDelta.
Context {P : Type} (bad : string) (place : P) (round : Time → P → Net (list DocumentChange * option P)).

Lemma time_delta_moves now fuel cursor t w changes cursor' w' :
  time_delta bad place round now fuel cursor w = (Ok (Some (changes, cursor')), w') → GoTime.Parse cursor = Some t →
  moves t changes cursor'.
Proof.
  unfold time_delta. intros Hd Hp. destruct (str_empty cursor) eqn:He; [apply str_empty_true in He as ->; discriminate Hp|].
  rewrite Hp in Hd. apply ebind_Ok in Hd as ([pages|] & w1 & _ & Hk); [|done]. injection Hk as <- <- <-. apply newest_moves.
Qed.

Lemma time_delta_bootstrap now fuel w changes cursor' w' :
  time_delta bad place round now fuel EmptyString w = (Ok (Some (changes, cursor')), w') → changes = [].
Proof. by intros [= <- _ _]. Qed.

(** A delta walks all the pages the service has for it and reports all their changes in
    order, with the cursor at the newest; when a page fails it reports the error of that
    page and no change at all, so the caller's cursor stays and nothing is skipped. *)
Theorem time_delta_complete now fuel cursor t w pages e w' :
  GoTime.Parse cursor = Some t → chain (round t) place w pages e w' → (length pages < fuel)%nat →
  time_delta bad place round now fuel cursor w =
  (match e with
   | None => Ok (Some (concat pages, GoTime.Format (newest t (changed_at <$> concat pages))))
   | Some e => Err e
   end, w').
Proof.
  intros Hp Hc Hf. unfold time_delta. destruct (str_empty cursor) eqn:He; [apply str_empty_true in He as ->; discriminate Hp|].
  rewrite Hp. unfold ebind. rewrite (collect_chain _ _ _ _ _ _ _ Hc Hf). by destruct e.
Qed.
End TimeDelta.

(** ** Deltas of one request *)

Definition after_cursor (t : Time) (c : DocumentChange) : bool := (t <? changed_at c)%Z.

(** [DeltaSync] of the connectors that ask once and keep what is behind the cursor. *)
Definition since_delta (bad : string) (ask : Time → Net (list DocumentChange)) (now : Time) (cursor : string)
    : Net (list DocumentChange * string) :=
  if str_empty cursor then eret ([], GoTime.Format now)
  else match GoTime.Parse cursor with
  | None => ethrow (Failed bad)
  | Some t =>
      let@ all := ask t in
      let out := List.filter (after_cursor t) all in
      eret (out, GoTime.Format (newest t (changed_at <$> out)))
  end.

Lemma since_delta_moves bad ask now cursor t w changes cursor' w' :
  since_delta bad ask now cursor w = (Ok (changes, cursor'), w') → GoTime.Parse cursor = Some t →
  moves t changes cursor' ∧ Forall (λ c, t < changed_at c)%Z changes.
Proof.
  unfold since_delta. intros Hd Hp. destruct (str_empty cursor) eqn:He; [apply str_empty_true in He as ->; discriminate Hp|].
  rewrite Hp in Hd. apply ebind_Ok in Hd as (all & w1 & _ & Hk). injection Hk as <- <- <-. split; [apply newest_moves|].
  apply Forall_forall. intros c [_ Hc]%list_elem_of_In%filter_In. by apply Z.ltb_lt.
Qed.

Lemma since_delta_bootstrap bad ask now w changes cursor' w' :
  since_delta bad ask now EmptyString w = (Ok (changes, cursor'), w') → changes = [].
Proof. by intros [= <- _ _]. Qed.

(** ** Following a source *)

(** What a connector promises to the engine that follows it with a timestamp cursor. *)
Class DeltaSyncer (C : Type) := {
  delta : Time → nat → C → Namespace → string → Net (option (list DocumentChange * string));
  delta_moves now fuel c ns cursor t w changes cursor' w' :
    delta now fuel c ns cursor w = (Ok (Some (changes, cursor')), w') → GoTime.Parse cursor = Some t → moves t changes cursor';
  (** An empty cursor is answered with a cursor, without history. *)
  delta_bootstrap now fuel c ns w changes cursor' w' :
    delta now fuel c ns EmptyString w = (Ok (Some (changes, cursor')), w') → changes = []
}.

(** A connector whose [DeltaSync] asks once. *)
Program Definition since_syncer {C} (sync : Time → C → Namespace → string → Net (list DocumentChange * string))
    (Hs : ∀ now c ns cursor t w changes cursor' w',
      sync now c ns cursor w = (Ok (changes, cursor'), w') → GoTime.Parse cursor = Some t → moves t changes cursor')
    (Hb : ∀ now c ns w changes cursor' w', sync now c ns EmptyString w = (Ok (changes, cursor'), w') → changes = []) : DeltaSyncer C :=
  {| delta now _ c ns cursor := let@ r := sync now c ns cursor in eret (Some r) |}.
Next Obligation.
  intros C sync Hs Hb now fuel c ns cursor t w changes cursor' w' ([ch cur] & w1 & Hd & Hk)%ebind_Ok Hp.
  injection Hk as -> -> ->. by eapply Hs.
Qed.
Next Obligation.
  intros C sync Hs Hb now fuel c ns w changes cursor' w' ([ch cur] & w1 & Hd & Hk)%ebind_Ok.
  injection Hk as -> -> ->. by eapply Hb.
Qed.

(** The engine's use of it: sync after sync, each from the cursor the last one returned. *)
Fixpoint follow (sync : Time → string → Net (option (list DocumentChange * string))) (times : list Time) (cursor : string)
    : Net (option (list DocumentChange * string)) :=
  match times with
  | [] => eret (Some ([], cursor))
  | now :: rest =>
      let@ r := sync now cursor in
      match r with
      | None => eret None
      | Some (changes, cursor1) =>
          let@ r' := follow sync rest cursor1 in
          eret (match r' with Some (more, cursor2) => Some (changes ++ more, cursor2) | None => None end)
      end
  end.

(** What every sync keeps, all of them keep. *)
Lemma follow_inv sync (I : string → Prop) (P : DocumentChange → Prop) (Q : string → DocumentChange → Prop) times cursor w changes cursor' w' :
  (∀ now cur w changes cur' w', I cur → sync now cur w = (Ok (Some (changes, cur')), w') → Forall P changes →
     I cur' ∧ Forall (Q cur') changes ∧ ∀ x, Q cur x → Q cur' x) →
  follow sync times cursor w = (Ok (Some (changes, cursor')), w') → I cursor → Forall P changes →
  I cursor' ∧ Forall (Q cursor') changes ∧ ∀ x, Q cursor x → Q cursor' x.
Proof.
  intros Hstep. revert cursor w changes. induction times as [|now times IH]; intros cursor w changes; cbn [follow].
  { intros [= <- <- <-] HI _. by split_and!. }
  intros ([[first cursor1]|] & w1 & Hd & Hk)%ebind_Ok HI HP; [|done].
  apply ebind_Ok in Hk as ([[more cursor2]|] & w2 & Hf & Hk); [|done]. injection Hk as <- <- <-. apply Forall_app in HP as [HP1 HP2].
  destruct (Hstep _ _ _ _ _ _ HI Hd HP1) as (HI1 & H1 & Hup1). destruct (IH _ _ _ Hf HI1 HP2) as (HI2 & H2 & Hup2).
  split_and!; [done| |auto]. apply Forall_app. split; [|done]. eapply Forall_impl; [exact H1|]. auto.
Qed.

Section Follow.
Context {C : Type} `{DeltaSyncer C} (c : C) (ns : Namespace) (fuel : nat).

(** A time the timestamps can print. *)
Definition printable_time (t : Time) : Prop := (0 ≤ Calendar.Year t < 10000)%Z.

Lemma moves_parse t changes cursor' :
  moves t changes cursor' → printable_time t → Calendar.Nanosecond t = 0%Z → (∀ x, x ∈ changes → printable_time (changed_at x)) →
  ∃ t', GoTime.Parse cursor' = Some t' ∧ printable_time t' ∧ Calendar.Nanosecond t' = 0%Z ∧ (t ≤ t')%Z ∧
    ∀ x, x ∈ changes → (changed_at x < t' + second)%Z.
Proof.
  intros (n & -> & Hn & Htn & Hall) Ht Hw Hx.
  assert (Hpn : printable_time n) by (destruct Hn as [->|(x & Hin & <-)]; auto).
  exists (n - Calendar.Nanosecond n)%Z. split; [by apply GoTime.parse_format|].
  destruct (GoTime.truncate_facts n) as (H1 & H2 & H3). split_and!; [unfold printable_time; by rewrite H1|done| |].
  - apply GoTime.truncate_mono; [done|done].
  - intros x Hin. specialize (Hall x Hin). lia.
Qed.

(** However often a source is followed, the cursor always reads as a time again, never
    goes back, and stands at most a second behind the newest change reported: what the
    syncs reported is behind the cursor, so the next one starts where they ended. *)
Theorem follow_forward times cursor t w changes cursor' w' :
  follow (λ now, delta now fuel c ns) times cursor w = (Ok (Some (changes, cursor')), w') → GoTime.Parse cursor = Some t →
  printable_time t → Calendar.Nanosecond t = 0%Z → (∀ x, x ∈ changes → printable_time (changed_at x)) →
  ∃ t', GoTime.Parse cursor' = Some t' ∧ (t ≤ t')%Z ∧ ∀ x, x ∈ changes → (changed_at x < t' + second)%Z.
Proof.
  intros Hf Hp Ht Hw Hx.
  destruct (follow_inv (λ now, delta now fuel c ns)
    (λ cur, ∃ u, GoTime.Parse cur = Some u ∧ printable_time u ∧ Calendar.Nanosecond u = 0%Z ∧ (t ≤ u)%Z)
    (λ x, printable_time (changed_at x)) (λ cur x, ∀ u, GoTime.Parse cur = Some u → (changed_at x < u + second)%Z) times cursor w changes cursor' w') as (HI & HQ & _);
    [|done|by exists t|by apply Forall_forall|].
  - intros now cur w1 ch cur' w2 (u & Hu & Hpr & Hns & Htu) Hd Hx1. rewrite Forall_forall in Hx1.
    destruct (moves_parse u ch cur' (delta_moves _ _ _ _ _ _ _ _ _ _ Hd Hu) Hpr Hns Hx1) as (v & Hv & Hpv & Hnv & Huv & Hall).
    split_and!.
    + exists v. split_and!; [done..|lia].
    + apply Forall_forall. intros x Hin v' Hv'. rewrite Hv in Hv'. injection Hv' as <-. auto.
    + intros x Hold v' Hv'. rewrite Hv in Hv'. injection Hv' as <-. specialize (Hold u Hu). lia.
  - destruct HI as (u & Hu & _ & _ & Htu). exists u. split_and!; [done..|]. intros x Hin. rewrite Forall_forall in HQ. by apply (HQ x Hin).
Qed.
End Follow.

(** ** Cursors that are ordered *)

(** Connectors whose cursors are compared as they are, as text or as numbers. *)
Class OrderedSyncer (C Pos : Type) := {
  position : string → option Pos;
  before : Pos → Pos → Prop;
  before_preorder :: PreOrder before;
  stamp : DocumentChange → Pos;
  osync : Time → C → Namespace → string → Net (list DocumentChange * string);
  osync_forward now c ns cursor p w changes cursor' w' :
    osync now c ns cursor w = (Ok (changes, cursor'), w') → cursor ≠ EmptyString → position cursor = Some p →
    ∃ p', position cursor' = Some p' ∧ cursor' ≠ EmptyString ∧ before p p' ∧ ∀ x, x ∈ changes → before (stamp x) p';
  osync_bootstrap now c ns w changes cursor' w' :
    osync now c ns EmptyString w = (Ok (changes, cursor'), w') → changes = []
}.

(** Cursors that are texts, the latest mark of a change. *)
Definition not_after (a b : string) : Prop := str_ltb b a = false.

#[export] Instance not_after_preorder : PreOrder not_after.
Proof.
  split; [exact str_ltb_irrefl|]. unfold not_after. intros a b c Hab Hbc. destruct (str_ltb c a) eqn:E; [|done].
  destruct (str_ltb a b) eqn:H; [by rewrite (str_ltb_trans c a b) in Hbc|].
  rewrite (str_ltb_total a b H Hab) in E. by rewrite E in Hbc.
Qed.

Lemma not_after_nonempty a b : not_after a b → a ≠ EmptyString → b ≠ EmptyString.
Proof. unfold not_after. intros Hab Ha ->. by destruct a. Qed.

Definition mark (c : DocumentChange) : string := ETag (ch_Ref c).

Program Definition text_syncer {C} (sync : Time → C → Namespace → string → Net (list DocumentChange * string))
    (Hs : ∀ now c ns cursor w changes cursor' w',
      sync now c ns cursor w = (Ok (changes, cursor'), w') → cursor ≠ EmptyString → cursor' = latest cursor (mark <$> changes))
    (Hb : ∀ now c ns w changes cursor' w', sync now c ns EmptyString w = (Ok (changes, cursor'), w') → changes = [])
    : OrderedSyncer C string :=
  {| position := Some; before := not_after; stamp := mark; osync := sync; osync_bootstrap := Hb |}.
Next Obligation.
  intros C sync Hs Hb now c ns cursor p w changes cursor' w' Hd Hne [= <-].
  pose proof (Hs _ _ _ _ _ _ _ _ Hd Hne) as Hc. destruct (latest_spec cursor (mark <$> changes)) as (_ & H2 & H3).
  exists cursor'. subst cursor'. split_and!; [done|by eapply not_after_nonempty|done|].
  intros x Hx. apply H3. by apply list_elem_of_fmap_2.
Qed.

(** Cursors that are numbers, the milliseconds of the newest change. *)
Program Definition millis_syncer {C} (sync : Time → C → Namespace → string → Net (list DocumentChange * string))
    (Hs : ∀ now c ns cursor w changes cursor' w',
      sync now c ns cursor w = (Ok (changes, cursor'), w') → cursor ≠ EmptyString →
      ∃ l, changed_at <$> changes = GoTime.of_millis <$> l ∧ Forall in_int64 l ∧
        cursor' = FormatInt (newest (ParseInt_lax (to_bytes cursor)) l))
    (Hb : ∀ now c ns w changes cursor' w', sync now c ns EmptyString w = (Ok (changes, cursor'), w') → changes = [])
    : OrderedSyncer C Time :=
  {| position c := Some (GoTime.of_millis (ParseInt_lax (to_bytes c))); before := Z.le; stamp := changed_at; osync := sync;
     osync_bootstrap := Hb |}.
Next Obligation.
  intros C sync Hs Hb now c ns cursor p w changes cursor' w' Hd Hne [= <-].
  destruct (Hs _ _ _ _ _ _ _ _ Hd Hne) as (l & Hl & Hr & ->).
  destruct (newest_spec (ParseInt_lax (to_bytes cursor)) l) as (H1 & H2 & H3).
  rewrite ParseInt_lax_FormatInt.
  2:{ destruct H1 as [->|Hin]; [apply ParseInt_lax_range|]. rewrite Forall_forall in Hr. by apply Hr. }
  eexists. split_and!; [done|apply FormatInt_nonempty|unfold GoTime.of_millis, millisecond; lia|].
  intros x Hx. apply (list_elem_of_fmap_2 changed_at) in Hx. rewrite Hl in Hx.
  apply list_elem_of_fmap in Hx as (ms & -> & Hin). specialize (H3 ms Hin). unfold GoTime.of_millis, millisecond. lia.
Qed.

Section Ordered.
Context {C Pos : Type} `{OrderedSyncer C Pos} (c : C) (ns : Namespace).

Definition once (now : Time) (cursor : string) : Net (option (list DocumentChange * string)) :=
  let@ r := osync now c ns cursor in eret (Some r).

(** Following such a source, the cursor never goes back and no change that was
    reported is ahead of it. *)
Theorem ordered_forward times cursor p w changes cursor' w' :
  follow once times cursor w = (Ok (Some (changes, cursor')), w') → cursor ≠ EmptyString → position cursor = Some p →
  ∃ p', position cursor' = Some p' ∧ before p p' ∧ ∀ x, x ∈ changes → before (stamp x) p'.
Proof.
  intros Hf Hne Hp.
  destruct (follow_inv once (λ cur, cur ≠ EmptyString ∧ ∃ q, position cur = Some q ∧ before p q)
    (λ _, True) (λ cur x, ∀ q, position cur = Some q → before (stamp x) q) times cursor w changes cursor' w') as ((_ & q & Hq & Hpq) & HQ & _); [|done| |by apply Forall_true|].
  - intros now cur w1 ch cur' w2 (Hn & q & Hq & Hpq) ([ch' cur''] & w3 & Hd & Hk)%ebind_Ok _. injection Hk as -> -> ->.
    destruct (osync_forward _ _ _ _ _ _ _ _ _ Hd Hn Hq) as (q' & Hq' & Hn' & Hle & Hall). split_and!.
    + done.
    + exists q'. split; [done|]. by trans q.
    + apply Forall_forall. intros x Hin v Hv. rewrite Hq' in Hv. injection Hv as <-. auto.
    + intros x Hold v Hv. rewrite Hq' in Hv. injection Hv as <-. trans q; auto.
  - split; [done|]. exists p. by split.
  - exists q. split_and!; [done..|]. intros x Hin. rewrite Forall_forall in HQ. by apply (HQ x Hin).
Qed.
End Ordered.
End Connector.
