(* ===== verification/IssueTrackers.v ===== *)
(** * Issue trackers: Linear, Asana and Trello (connector/linear, connector/asana, connector/trello)

    Each connector validates its credentials, lists its namespaces, pages through the
    documents of one, fetches a document and follows changes behind a cursor. Requests
    carry the exact URL; the services are parameters. *)

From Stdlib Require Import Ascii.
From S2P Require Import Prelude GoFloat GoString GoText Calendar GoTime Effects AuditIntegrity Json ConnectorBase.

(** ** Linear *)

Module Linear.
Import Connector.

Definition defaultBaseURL : string := "https://api.linear.app/graphql".

Record Creds := { APIKey : string; SigningSecret : string }.
Definition d_creds : decoder Creds := λ j,
  get k from d_str_field "api_key" j in get s from d_str_field "signing_secret" j in Some {| APIKey := k; SigningSecret := s |}.

Record connection := { tenantID : string; sourceID : string; apiKey : string; userID : string }.

Definition Validate (cfg : ConnectorConfig) : result Creds conn_error :=
  match parse_creds d_creds cfg with
  | Err e => Err e
  | Ok c => if str_empty (APIKey c) then Err (ErrInvalidConfig "api_key required") else Ok c
  end.

(** The errors a GraphQL answer carries: message and code. *)
Definition d_errors : decoder (list (string * string)) := d_list_field "errors" (λ j,
  get m from d_str_field "message" j in
  get c from d_field "extensions" (d_str_field "code") EmptyString j in Some (m, c)).

Section Linear.
Context `{Server} (baseURL : string).

Definition bearer (key : string) : string := if has_prefix key "lin_oauth_" then str_app "Bearer " key else key.

Definition query_body (q : string) (vars : list (string * json)) : json :=
  JObj (("query"%string, JStr q) :: match vars with [] => [] | _ => [("variables"%string, JObj vars)] end).

(** An answer with status 200 whose first error has the code RATELIMITED is a rate limit too. *)
Definition query {A} (conn : connection) (q : string) (vars : list (string * json)) (d : decoder A) : Net A :=
  let@ resp := http "linear" {| Method := "POST"; URL := baseURL; Authorization := bearer (apiKey conn);
                                ReqBody := Some (query_body q vars) |} in
  let@ _ := expect_ok "linear" ": status=" resp in
  match decode d_errors (RespBody resp) with
  | Some ((m, c) :: _) => if fold_eq c "RATELIMITED" then ethrow (ErrRateLimited m) else read_body "linear" "response" d resp
  | _ => read_body "linear" "response" d resp
  end.

(** An answer with errors in it, once decoded. *)
Definition with_errors {A} (d : decoder A) : decoder (A * list (string * string)) := λ j,
  get a from d j in get e from d_errors j in Some (a, e).

Definition no_errors {A} (what : string) (r : A * list (string * string)) : Net A :=
  match r.2 with (m, _) :: _ => ethrow (Failed (str_app what m)) | [] => eret r.1 end.

Definition Connect (cfg : ConnectorConfig) : Net connection :=
  let@ creds := or_throw (Validate cfg) in
  let conn := {| tenantID := TenantID cfg; sourceID := SourceID cfg; apiKey := APIKey creds; userID := "" |} in
  let@ r := query conn "query { viewer { id } }" []
              (with_errors (d_field "data" (d_field "viewer" (d_str_field "id") EmptyString) EmptyString)) in
  let@ id := no_errors "linear: viewer query failed: " r in
  eret {| tenantID := tenantID conn; sourceID := sourceID conn; apiKey := apiKey conn; userID := id |}.

(** [data.<outer>.<inner>.nodes], as these queries nest their answers. *)
Definition d_nodes {A} (outer inner : string) (d : decoder A) : decoder (list A) :=
  d_field "data" (d_field outer (d_field inner (d_list_field "nodes" d) []) []) [].

Definition d_team : decoder Namespace := λ j,
  get i from d_str_field "id" j in get k from d_str_field "key" j in get n from d_str_field "name" j in
  Some {| ns_ID := i; ns_Name := n; Kind := "team"; ns_Metadata := {[ "team_key"%string := k ]} |}.

Definition ListNamespaces (conn : connection) : Net (list Namespace) :=
  query conn "query { teams { nodes { id key name } } }" []
    (d_field "data" (d_field "teams" (d_list_field "nodes" d_team) []) []).

(** *** Issues of a team *)

Record issueIterator := { it_conn : connection; it_ns : Namespace; it_opts : ListOpts; cursor : string }.

Definition issues_query : string :=
  "query($teamId: String!, $first: Int!, $after: String, $filter: IssueFilter) { team(id: $teamId) { issues(first: $first, after: $after, filter: $filter) { pageInfo { hasNextPage endCursor } nodes { id identifier updatedAt } } } }".

Definition issue_vars (it : issueIterator) : list (string * json) :=
  let after := if str_empty (cursor it) then PageToken (it_opts it) else cursor it in
  (if str_empty after then [] else [("after"%string, JStr after)]) ++
  [("filter"%string, JObj (if time_is_zero (Since (it_opts it)) then []
                           else [("updatedAt"%string, JObj [("gte"%string, JStr (GoTime.Format (Since (it_opts it))))])]));
   ("first"%string, JInt (pageOr (PageSize (it_opts it)) 50)); ("teamId"%string, JStr (ns_ID (it_ns it)))].

Definition issue_ref (ns : string) (id updated : string) : DocumentRef :=
  {| NamespaceID := ns; ID := id; ETag := updated; UpdatedAt := GoTime.parse_or_zero updated |}.

Definition d_issue : decoder (string * string) := λ j,
  get i from d_str_field "id" j in get _ from d_str_field "identifier" j in get u from d_str_field "updatedAt" j in Some (i, u).

(** The page information and the issues. *)
Definition d_issues : decoder (bool * string * list (string * string)) :=
  let z := (false, EmptyString, []) in
  d_field "data" (d_field "team" (d_field "issues" (λ j,
    get h from d_field "pageInfo" (d_field "hasNextPage" d_bool false) false j in
    get e from d_field "pageInfo" (d_str_field "endCursor") EmptyString j in
    get ns from d_list_field "nodes" d_issue j in Some (h, e, ns)) z) z) z.

Definition fetch_issues (it : issueIterator) : Net (fetched issueIterator) :=
  let@ r := query (it_conn it) issues_query (issue_vars it) (with_errors d_issues) in
  let@ body := no_errors "linear: issues query failed: " r in
  let '(more, endCursor, nodes) := body in
  let page := (λ n, issue_ref (ns_ID (it_ns it)) n.1 n.2) <$> nodes in
  eret {| f_page := page;
          f_src := {| it_conn := it_conn it; it_ns := it_ns it; it_opts := it_opts it; cursor := if more then endCursor else cursor it |};
          f_done := negb more;
          f_ret := if more then true else match page with [] => false | _ => true end |}.

#[export] Instance issues : PageSource issueIterator.
Proof.
  refine {| fetchPage := fetch_issues |}. intros s w f w' Hf Hr. unfold fetch_issues in Hf.
  apply ebind_Ok in Hf as (r & w1 & _ & Hf). apply ebind_Ok in Hf as ([[more e] nodes] & w2 & _ & Hf).
  injection Hf as <- <-. simpl in *. destruct more; [done|]. by destruct (_ <$> nodes).
Defined.

Definition ListDocuments (conn : connection) (ns : Namespace) (opts : ListOpts) : iter issueIterator :=
  fresh {| it_conn := conn; it_ns := ns; it_opts := opts; cursor := "" |}.

(** The methods of its iterator. *)
Definition Next := @Connector.Next issueIterator issues.
Definition Doc := @Connector.Doc issueIterator.
Definition Err_ := @Connector.Err_ issueIterator.

(** *** One issue *)

Definition issue_query : string :=
  "query($id: String!) { issue(id: $id) { id identifier title description createdAt updatedAt creator { name email } } }".

Record issue := { i_id : string; identifier : string; title : string; description : string; createdAt : string; updatedAt : string; email : string }.
Definition no_issue : issue := {| i_id := ""; identifier := ""; title := ""; description := ""; createdAt := ""; updatedAt := ""; email := "" |}.

Definition d_full_issue : decoder issue := λ j,
  get i from d_str_field "id" j in get n from d_str_field "identifier" j in get t from d_str_field "title" j in
  get d from d_str_field "description" j in get c from d_str_field "createdAt" j in get u from d_str_field "updatedAt" j in
  get _ from d_field "creator" (d_str_field "name") EmptyString j in
  get e from d_field "creator" (d_str_field "email") EmptyString j in
  Some {| i_id := i; identifier := n; title := t; description := d; createdAt := c; updatedAt := u; email := e |}.

Definition FetchDocument (conn : connection) (ref : DocumentRef) : Net Document :=
  let@ i := query conn issue_query [("id"%string, JStr (ID ref))] (d_field "data" (d_field "issue" d_full_issue no_issue) no_issue) in
  if str_empty (i_id i) then ethrow (Failed (str_app "linear: issue " (str_app (ID ref) " not found")))
  else eret {| Ref := ref; MIMEType := "text/markdown"; Title := title i; Author := email i;
               Size := Z.of_nat (str_len (description i) + str_len (title i));
               CreatedAt := GoTime.parse_or_zero (createdAt i); d_UpdatedAt := GoTime.parse_or_zero (updatedAt i);
               Metadata := {[ "identifier"%string := identifier i ]}; Content := description i |}.

(** *** Changes *)

Definition newest_query : string :=
  "query($teamId: String!) { team(id: $teamId) { issues(first: 1, orderBy: updatedAt, sort: [{updatedAt: {order: Descending}}]) { nodes { id identifier updatedAt archivedAt } } } }".
Definition changes_query : string :=
  "query($teamId: String!, $filter: IssueFilter) { team(id: $teamId) { issues(first: 50, filter: $filter, orderBy: updatedAt) { nodes { id identifier updatedAt archivedAt } } } }".

Record node := { n_id : string; n_updated : string; n_archived : string }.
Definition d_node : decoder node := λ j,
  get i from d_str_field "id" j in get _ from d_str_field "identifier" j in
  get u from d_str_field "updatedAt" j in get a from d_str_field "archivedAt" j in
  Some {| n_id := i; n_updated := u; n_archived := a |}.

Definition node_change (ns : string) (n : node) : DocumentChange :=
  {| ch_Kind := if str_empty (n_archived n) then ChangeUpserted else ChangeDeleted; ch_Ref := issue_ref ns (n_id n) (n_updated n) |}.

Definition DeltaSync (conn : connection) (ns : Namespace) (cursor : string) : Net (list DocumentChange * string) :=
  let q := if str_empty cursor then newest_query else changes_query in
  let team := ("teamId"%string, JStr (ns_ID ns)) in
  let vars := if str_empty cursor then [team]
              else [("filter"%string, JObj [("updatedAt"%string, JObj [("gt"%string, JStr cursor)])]); team] in
  let@ r := query conn q vars (with_errors (d_nodes "team" "issues" d_node)) in
  let@ nodes := no_errors "linear: delta issues query failed: " r in
  eret (if str_empty cursor then [] else node_change (ns_ID ns) <$> nodes, latest cursor (n_updated <$> nodes)).

(** *** Webhooks *)

Definition d_event : decoder (string * string * node * string) := λ j,
  get a from d_str_field "action" j in get t from d_str_field "type" j in
  get i from d_field "data" (d_str_field "id") EmptyString j in
  get u from d_field "data" (d_str_field "updatedAt") EmptyString j in
  get tm from d_field "data" (d_field "team" (d_str_field "id") EmptyString) EmptyString j in
  Some (a, t, {| n_id := i; n_updated := u; n_archived := "" |}, tm).

Definition HandleWebhook (payload : blob) : result (list DocumentChange) conn_error :=
  match payload with
  | NoBytes => Err (Failed "linear: empty webhook payload")
  | _ =>
      match decode d_event payload with
      | None => Err (Failed "linear: decode webhook")
      | Some (action, type, n, team) =>
          if negb (str_eqb type "Issue") || str_empty (n_id n) then Ok []
          else Ok [{| ch_Kind := if str_eqb action "remove" then ChangeDeleted else ChangeUpserted;
                      ch_Ref := issue_ref team (n_id n) (n_updated n) |}]
      end
  end.

(** The header is compared as text, in lower case. *)
Definition VerifyWebhookRequest (hmac_sha256 : bytes → bytes → bytes) (signingSecret : string)
    (headers : list (string * list string)) (payload : bytes) : option webhook_error :=
  if str_empty signingSecret then None
  else
    let sig := trim_space (FirstHeader headers "Linear-Signature") in
    if str_empty sig then Some ErrWebhookSignatureMissing
    else if str_eqb (of_bytes (AuditIntegrity.hex (hmac_sha256 (to_bytes signingSecret) payload))) sig then None
    else Some ErrWebhookSignatureInvalid.

(** A delta never moves its cursor back, reports every issue the service lists behind
    it, in order and with the kind its archive mark says, and none of them is newer than
    the cursor it returns; the first call reports nothing and only finds the cursor. *)
Theorem DeltaSync_forward conn ns cursor w changes cursor' w' :
  DeltaSync conn ns cursor w = (Ok (changes, cursor'), w') →
  str_ltb cursor' cursor = false ∧
  (cursor = EmptyString → changes = []) ∧
  (∀ c, c ∈ changes → str_ltb cursor' (ETag (ch_Ref c)) = false ∧ NamespaceID (ch_Ref c) = ns_ID ns) ∧
  (cursor' = cursor ∨ cursor = EmptyString ∨ ∃ c, c ∈ changes ∧ ETag (ch_Ref c) = cursor').
Proof.
  unfold DeltaSync. intros (r & w1 & _ & Hr)%ebind_Ok. apply ebind_Ok in Hr as (nodes & w2 & _ & Hr).
  injection Hr as <- <- <-. destruct (latest_spec cursor (n_updated <$> nodes)) as (H1 & H2 & H3).
  split_and!; [done|by intros ->| |].
  - intros c Hc. destruct (str_empty cursor); [set_solver|]. apply list_elem_of_fmap in Hc as (n & -> & Hn).
    split; [|done]. apply (H3 (n_updated n)). by apply list_elem_of_fmap_2.
  - destruct H1 as [H1|H1]; [by left|right]. destruct (str_empty cursor) eqn:E; [left; by apply str_empty_true|right].
    apply list_elem_of_fmap in H1 as (n & Hn & Hin). exists (node_change (ns_ID ns) n). split; [by apply list_elem_of_fmap_2|done].
Qed.
End Linear.
End Linear.

(** ** Asana *)

Module Asana.
Import Connector.

Definition defaultBaseURL : string := "https://app.asana.com/api/1.0".

Record connection := { tenantID : string; sourceID : string; token : string; userGID : string }.

(** The access token. *)
Definition Validate (cfg : ConnectorConfig) : result string conn_error :=
  match parse_creds (d_str_field "access_token") cfg with
  | Err e => Err e
  | Ok t => if str_empty t then Err (ErrInvalidConfig "access_token required") else Ok t
  end.

Section Asana.
Context `{Server} (baseURL : string).

Definition do_ (conn : connection) (path : string) : Net Response :=
  http "asana" {| Method := "GET"; URL := str_app (trim_slashes baseURL) path;
                  Authorization := str_app "Bearer " (token conn); ReqBody := None |}.

Definition Connect (cfg : ConnectorConfig) : Net connection :=
  let@ t := or_throw (Validate cfg) in
  let conn := {| tenantID := TenantID cfg; sourceID := SourceID cfg; token := t; userGID := "" |} in
  let@ resp := do_ conn "/users/me" in
  let@ _ := expect_200 "asana" ": users/me status=" resp in
  let@ gid := read_body "asana" "users/me" (d_field "data" (d_str_field "gid") EmptyString) resp in
  eret {| tenantID := tenantID conn; sourceID := sourceID conn; token := t; userGID := gid |}.

Definition d_named : decoder (string * string) := λ j,
  get g from d_str_field "gid" j in get n from d_str_field "name" j in Some (g, n).

(** [next_page.offset]; a missing one ends the pages. *)
Definition next_offset (o : string) : option string := if str_empty o then None else Some o.

Definition project_ns (w p : string * string) : Namespace :=
  {| ns_ID := p.1; ns_Name := str_app w.2 (str_app "/" p.2); Kind := "project";
     ns_Metadata := {[ "workspace_gid"%string := w.1; "project_gid"%string := p.1 ]} |}.

(** A page of the projects of workspace [w] from an offset on. *)
Definition projects_page (conn : connection) (w : string * string) (offset : string) : Net (list Namespace * option string) :=
  let q := (if str_empty offset then id else insert "offset"%string offset)
             {[ "workspace"%string := w.1; "limit"%string := "100"%string ]} in
  let@ resp := do_ conn (str_app "/projects?" (Encode q)) in
  let@ _ := expect_200 "asana" ": projects status=" resp in
  let@ body := read_body "asana" "projects" (λ j,
    get ps from d_list_field "data" d_named j in
    get o from d_field "next_page" (d_str_field "offset") EmptyString j in Some (ps, o)) resp in
  eret (project_ns w <$> body.1, next_offset body.2).

Fixpoint all_projects (fuel : nat) (conn : connection) (ws : list (string * string)) : Net (option (list Namespace)) :=
  match ws with
  | [] => eret (Some [])
  | w :: rest =>
      let@ here := collect (projects_page conn w) fuel EmptyString in
      let@ more := all_projects fuel conn rest in
      eret (match here, more with Some a, Some b => Some (concat a ++ b) | _, _ => None end)
  end.

Definition ListNamespaces (fuel : nat) (conn : connection) : Net (option (list Namespace)) :=
  let@ resp := do_ conn "/workspaces" in
  let@ _ := expect_200 "asana" ": workspaces status=" resp in
  let@ ws := read_body "asana" "workspaces" (d_list_field "data" d_named) resp in
  all_projects fuel conn ws.

(** *** Tasks of a project *)

Record taskIterator := { it_conn : connection; it_ns : Namespace; it_opts : ListOpts; cursor : string }.

Definition tasks_values (it : taskIterator) : gmap string string :=
  let offset := if str_empty (cursor it) then PageToken (it_opts it) else cursor it in
  (if time_is_zero (Since (it_opts it)) then id else insert "modified_since"%string (GoTime.Format (Since (it_opts it))))
    ((if str_empty offset then id else insert "offset"%string offset)
       {[ "limit"%string := FormatInt (pageOr (PageSize (it_opts it)) 100);
          "opt_fields"%string := "gid,name,modified_at,created_at"%string ]}).

Definition task_ref (ns gid modified : string) : DocumentRef :=
  {| NamespaceID := ns; ID := gid; ETag := modified; UpdatedAt := GoTime.parse_or_zero modified |}.

Definition d_task : decoder (string * string) := λ j,
  get g from d_str_field "gid" j in get m from d_str_field "modified_at" j in Some (g, m).
Definition d_listed_task : decoder (string * string) := λ j, get _ from d_str_field "name" j in d_task j.

Definition fetch_tasks (it : taskIterator) : Net (fetched taskIterator) :=
  let@ resp := do_ (it_conn it) (str_app "/projects/" (str_app (ns_ID (it_ns it)) (str_app "/tasks?" (Encode (tasks_values it))))) in
  let@ _ := expect "asana" ": status=" ": tasks status=" resp in
  let@ body := read_body "asana" "tasks" (λ j,
    get ts from d_list_field "data" d_listed_task j in
    get o from d_field "next_page" (d_str_field "offset") EmptyString j in Some (ts, o)) resp in
  let page := (λ t, task_ref (ns_ID (it_ns it)) t.1 t.2) <$> body.1 in
  let last := str_empty body.2 in
  eret {| f_page := page;
          f_src := {| it_conn := it_conn it; it_ns := it_ns it; it_opts := it_opts it; cursor := if last then cursor it else body.2 |};
          f_done := last;
          f_ret := if last then match page with [] => false | _ => true end else true |}.

#[export] Instance tasks : PageSource taskIterator.
Proof.
  refine {| fetchPage := fetch_tasks |}. intros s w f w' Hf Hr. unfold fetch_tasks in Hf.
  apply ebind_Ok in Hf as (r & w1 & _ & Hf). apply ebind_Ok in Hf as (u & w2 & _ & Hf).
  apply ebind_Ok in Hf as (body & w3 & _ & Hf). injection Hf as <- <-. simpl in *.
  destruct (str_empty body.2); [|done]. by destruct (_ <$> body.1).
Defined.

Definition ListDocuments (conn : connection) (ns : Namespace) (opts : ListOpts) : iter taskIterator :=
  fresh {| it_conn := conn; it_ns := ns; it_opts := opts; cursor := "" |}.

(** The methods of its iterator. *)
Definition Next := @Connector.Next taskIterator tasks.
Definition Doc := @Connector.Doc taskIterator.
Definition Err_ := @Connector.Err_ taskIterator.

(** *** One task *)

Record task := { gid : string; name : string; notes : string; created_at : string; modified_at : string }.
Definition no_task : task := {| gid := ""; name := ""; notes := ""; created_at := ""; modified_at := "" |}.
Definition d_full_task : decoder task := λ j,
  get g from d_str_field "gid" j in get n from d_str_field "name" j in get o from d_str_field "notes" j in
  get c from d_str_field "created_at" j in get m from d_str_field "modified_at" j in
  Some {| gid := g; name := n; notes := o; created_at := c; modified_at := m |}.

Definition FetchDocument (conn : connection) (ref : DocumentRef) : Net Document :=
  let q := {[ "opt_fields"%string := "gid,name,notes,created_at,modified_at,assignee"%string ]} in
  let@ resp := do_ conn (str_app "/tasks/" (str_app (ID ref) (str_app "?" (Encode q)))) in
  let@ _ := expect_200 "asana" (str_app ": tasks/" (str_app (ID ref) " status=")) resp in
  let@ t := read_body "asana" "task" (d_field "data" d_full_task no_task) resp in
  eret {| Ref := ref; MIMEType := "text/plain"; Title := name t; Author := "";
          Size := Z.of_nat (str_len (notes t) + str_len (name t));
          CreatedAt := GoTime.parse_or_zero (created_at t); d_UpdatedAt := GoTime.parse_or_zero (modified_at t);
          Metadata := ∅; Content := notes t |}.

(** *** Changes *)

(** The workspace of a project is kept in the metadata of its namespace. *)
Definition search (conn : connection) (ns : Namespace) (why : string) (q : gmap string string) : Net (list (string * string)) :=
  let wgid := default EmptyString (ns_Metadata ns !! "workspace_gid"%string) in
  if str_empty wgid then ethrow (ErrInvalidConfig (str_app "asana: namespace metadata workspace_gid required for " why))
  else
    let@ resp := do_ conn (str_app "/workspaces/" (str_app wgid (str_app "/tasks/search?" (Encode q)))) in
    let@ _ := expect "asana" ": status=" ": workspace search status=" resp in
    read_body "asana" "workspace search" (d_list_field "data" d_task) resp.

Definition deltaSyncBootstrap (conn : connection) (ns : Namespace) : Net (list DocumentChange * string) :=
  let@ ts := search conn ns "delta bootstrap"
    {[ "projects.any"%string := ns_ID ns; "sort_by"%string := "modified_at"%string; "sort_ascending"%string := "false"%string;
       "limit"%string := "1"%string; "opt_fields"%string := "gid,modified_at"%string ]} in
  eret ([], match ts with t :: _ => t.2 | [] => EmptyString end).

Definition task_change (ns : string) (t : string * string) : DocumentChange :=
  {| ch_Kind := ChangeUpserted; ch_Ref := task_ref ns t.1 t.2 |}.

Definition deltaSyncSince (conn : connection) (ns : Namespace) (cursor : string) : Net (list DocumentChange * string) :=
  let@ ts := search conn ns "delta sync"
    {[ "projects.any"%string := ns_ID ns; "sort_by"%string := "modified_at"%string; "sort_ascending"%string := "true"%string;
       "modified_at.after"%string := cursor; "limit"%string := "100"%string; "opt_fields"%string := "gid,name,modified_at"%string ]} in
  eret (task_change (ns_ID ns) <$> ts, latest cursor (snd <$> ts)).

Definition DeltaSync (conn : connection) (ns : Namespace) (cursor : string) : Net (list DocumentChange * string) :=
  if str_empty cursor then deltaSyncBootstrap conn ns else deltaSyncSince conn ns cursor.

(** What a namespace must carry for its deltas. *)
Definition syncable (ws : list (string * string)) (n : Namespace) : Prop :=
  ∃ w, w ∈ ws ∧ ns_Metadata n !! "workspace_gid"%string = Some w.1 ∧ ns_Metadata n !! "project_gid"%string = Some (ns_ID n).

Lemma projects_page_syncable conn x o w l o' w' :
  projects_page conn x o w = (Ok (l, o'), w') → Forall (syncable [x]) l.
Proof.
  unfold projects_page. intros (r & w1 & _ & Hk)%ebind_Ok. apply ebind_Ok in Hk as (u & w2 & _ & Hk).
  apply ebind_Ok in Hk as (body & w3 & _ & Hk). injection Hk as <- <- <-. apply Forall_fmap, Forall_true. intros p.
  exists x. split; [set_solver|]. by split.
Qed.

Lemma projects_chain_syncable conn x o w ps e w' :
  chain (projects_page conn x) o w ps e w' → Forall (Forall (syncable [x])) ps.
Proof. induction 1; eauto using Forall_nil_2, Forall_cons_2, projects_page_syncable. Qed.

Lemma all_projects_syncable fuel conn ws w out w' :
  all_projects fuel conn ws w = (Ok (Some out), w') → Forall (syncable ws) out.
Proof.
  revert w out w'. induction ws as [|x ws IH]; intros w out w'; simpl; [by intros [= <- <-]|].
  intros ([a|] & w1 & Ha & Hk)%ebind_Ok; apply ebind_Ok in Hk as ([b|] & w2 & Hb & Hk); try done.
  injection Hk as <- <-. apply collect_inv, projects_chain_syncable in Ha. apply IH in Hb. apply Forall_app. split.
  - apply Forall_concat. eapply Forall_impl; [exact Ha|]. intros l Hl. eapply Forall_impl; [exact Hl|].
    intros n (y & Hy & Hm). exists y. split; [set_solver|done].
  - eapply Forall_impl; [exact Hb|]. intros n (y & Hy & Hm). exists y. split; [set_solver|done].
Qed.

(** What listing promises to change tracking: every namespace that was listed carries
    the workspace its deltas ask for, so [DeltaSync] of it is never refused as
    misconfigured. *)
Theorem listed_projects_can_sync fuel conn w out w' :
  ListNamespaces fuel conn w = (Ok (Some out), w') →
  ∃ ws, Forall (syncable ws) out ∧
    (Forall (λ x, x.1 ≠ EmptyString) ws → ∀ n c v why, n ∈ out → (DeltaSync conn n c v).1 ≠ Err (ErrInvalidConfig why)).
Proof.
  unfold ListNamespaces. intros (r & w1 & _ & Hk)%ebind_Ok. apply ebind_Ok in Hk as (u & w2 & _ & Hk).
  apply ebind_Ok in Hk as (ws & w3 & _ & Hk). exists ws. pose proof (all_projects_syncable _ _ _ _ _ _ Hk) as Hs.
  split; [done|]. intros Hne n c v why Hn. rewrite Forall_forall in Hs. destruct (Hs n Hn) as (x & Hx & Hm & _).
  rewrite Forall_forall in Hne. pose proof (Hne x Hx) as Hw.
  assert (Hsearch : ∀ why0 q v0, (search conn n why0 q v0).1 ≠ Err (ErrInvalidConfig why)).
  { intros why0 q v0. unfold search. rewrite Hm. simpl. rewrite (proj2 (str_empty_false x.1) Hw).
    unfold ebind, do_, http. destruct (serve _) as [resp|]; [|done]. unfold expect, expect_200.
    destruct (StatusCode resp =? 429)%Z; [done|]. destruct (StatusCode resp =? 200)%Z; [|done].
    unfold eret, read_body. by destruct (decode _ _). }
  unfold DeltaSync, deltaSyncBootstrap, deltaSyncSince, ebind. destruct (str_empty c);
    match goal with |- context [search conn n ?a ?q v] => pose proof (Hsearch a q v) as Hq; destruct (search conn n a q v) as [[ts|e] v1] end; try done; cbn; intros [= ->]; by apply Hq.
Qed.

Theorem Asana_DeltaSync_forward conn ns cursor w changes cursor' w' :
  DeltaSync conn ns cursor w = (Ok (changes, cursor'), w') → cursor ≠ EmptyString →
  str_ltb cursor' cursor = false ∧
  (∀ c, c ∈ changes → str_ltb cursor' (ETag (ch_Ref c)) = false ∧ NamespaceID (ch_Ref c) = ns_ID ns).
Proof.
  unfold DeltaSync. intros Hd Hne. rewrite (proj2 (str_empty_false cursor) Hne) in Hd. unfold deltaSyncSince in Hd.
  apply ebind_Ok in Hd as (ts & w1 & _ & Hd). injection Hd as <- <- <-.
  destruct (latest_spec cursor (snd <$> ts)) as (_ & H2 & H3). split; [done|].
  intros c (t & -> & Ht)%list_elem_of_fmap. split; [|done]. apply (H3 t.2). by apply list_elem_of_fmap_2.
Qed.
End Asana.
End Asana.

(** ** Trello *)

Module Trello.
Import Connector.

Definition defaultBaseURL : string := "https://api.trello.com".

Record Creds := { APIKey : string; Token : string; BoardID : string }.
Definition d_creds : decoder Creds := λ j,
  get k from d_str_field "api_key" j in get t from d_str_field "token" j in get b from d_str_field "board_id" j in
  Some {| APIKey := k; Token := t; BoardID := b |}.

Record connection := { tenantID : string; sourceID : string; base : string; apiKey : string; token : string; boardID : string }.

Definition Validate (cfg : ConnectorConfig) : result Creds conn_error :=
  match parse_creds d_creds cfg with
  | Err e => Err e
  | Ok c =>
      if str_empty (APIKey c) then Err (ErrInvalidConfig "api_key required")
      else if str_empty (Token c) then Err (ErrInvalidConfig "token required")
      else if str_empty (BoardID c) then Err (ErrInvalidConfig "board_id required")
      else Ok c
  end.

Section Trello.
Context `{Server} (baseURL : string).

Definition has_query (path : string) : bool := existsb (Ascii.eqb "?"%char) (to_bytes path).

(** The key and the token go into the URL. *)
Definition do_ (conn : connection) (path : string) : Net Response :=
  let sep := if has_query path then "&"%string else "?"%string in
  http "trello" {| Method := "GET";
    URL := str_app (trim_slashes (base conn)) (str_app path (str_app sep (str_app "key=" (str_app (QueryEscape (apiKey conn))
             (str_app "&token=" (QueryEscape (token conn)))))));
    Authorization := ""; ReqBody := None |}.

Definition Connect (cfg : ConnectorConfig) : Net connection :=
  let@ c := or_throw (Validate cfg) in
  let conn := {| tenantID := TenantID cfg; sourceID := SourceID cfg; base := baseURL; apiKey := APIKey c; token := Token c; boardID := BoardID c |} in
  let@ resp := do_ conn (str_app "/1/boards/" (PathEscape (boardID conn))) in
  let@ _ := expect "trello" ": status=" ": board status=" resp in
  eret conn.

Definition ListNamespaces (conn : connection) : list Namespace :=
  [{| ns_ID := boardID conn; ns_Name := boardID conn; Kind := "board"; ns_Metadata := ∅ |}].

Record cardEntry := { c_ID : string; c_Name : string; Desc : string; DateLastActivity : string }.
Definition d_card : decoder cardEntry := λ j,
  get i from d_str_field "id" j in get n from d_str_field "name" j in get d from d_str_field "desc" j in
  get a from d_str_field "dateLastActivity" j in
  Some {| c_ID := i; c_Name := n; Desc := d; DateLastActivity := a |}.

(** *** Cards: one page, with the iterator that looks at [done] first *)

Definition docIterator : Type := connection.

Definition card_ref (board : string) (c : cardEntry) : DocumentRef :=
  {| NamespaceID := board; ID := c_ID c; ETag := ""; UpdatedAt := GoTime.parse_or_zero (DateLastActivity c) |}.

Definition fetch_cards (conn : docIterator) : Net (fetched docIterator) :=
  let@ resp := do_ conn (str_app "/1/boards/" (str_app (PathEscape (boardID conn)) "/cards")) in
  let@ _ := expect_ok "trello" ": list status=" resp in
  let@ cards := read_body "trello" "list" (d_list d_card) resp in
  eret {| f_page := card_ref (boardID conn) <$> cards; f_src := conn; f_done := true; f_ret := true |}.

#[export] Instance cards : PageSource docIterator.
Proof.
  refine {| fetchPage := fetch_cards |}. intros s w f w' Hf Hr. unfold fetch_cards in Hf.
  apply ebind_Ok in Hf as (r & w1 & _ & Hf). apply ebind_Ok in Hf as (u & w2 & _ & Hf).
  apply ebind_Ok in Hf as (body & w3 & _ & Hf). by injection Hf as <- <-.
Defined.

Definition ListDocuments (conn : connection) : iter docIterator := fresh conn.

(** The methods of its iterator. *)
Definition Next := @Connector.Next_done_first docIterator cards.
Definition Doc := @Connector.Doc docIterator.
Definition Err_ := @Connector.Err_ docIterator.

Definition FetchDocument (conn : connection) (ref : DocumentRef) : Net Document :=
  let@ resp := do_ conn (str_app "/1/cards/" (PathEscape (ID ref))) in
  let@ _ := expect "trello" ": fetch status=" (str_app ": fetch " (str_app (ID ref) " status=")) resp in
  let@ c := read_body "trello" "card" d_card resp in
  let updated := GoTime.parse_or_zero (DateLastActivity c) in
  eret {| Ref := {| NamespaceID := boardID conn; ID := c_ID c; ETag := ""; UpdatedAt := updated |}; MIMEType := "text/markdown";
          Title := c_Name c; Author := ""; Size := Z.of_nat (str_len (Desc c)); CreatedAt := updated; d_UpdatedAt := updated;
          Metadata := ∅; Content := Desc c |}.

(** *** Changes *)

Definition d_action : decoder (string * Time) := λ j,
  get _ from d_str_field "id" j in get d from d_str_field "date" j in
  get c from d_field "data" (d_field "card" (d_str_field "id") EmptyString) EmptyString j in
  Some (c, GoTime.parse_or_zero d).

(** The first action of each card; actions without a card are skipped. *)
Fixpoint first_per_card (seen : gset string) (l : list (string * Time)) : list (string * Time) :=
  match l with
  | [] => []
  | a :: rest =>
      if str_empty a.1 || bool_decide (a.1 ∈ seen) then first_per_card seen rest
      else a :: first_per_card ({[ a.1 ]} ∪ seen) rest
  end.

Definition card_change (ns : string) (a : string * Time) : DocumentChange :=
  {| ch_Kind := ChangeUpserted; ch_Ref := {| NamespaceID := ns; ID := a.1; ETag := ""; UpdatedAt := a.2 |} |}.

Definition DeltaSync (now : Time) (conn : connection) (ns : Namespace) (cursor : string) : Net (list DocumentChange * string) :=
  if str_empty cursor then eret ([], GoTime.Format now)
  else match GoTime.Parse cursor with
  | None => ethrow (Failed (str_app "trello: bad cursor " cursor))
  | Some cursorTime =>
      let q := {[ "since"%string := cursor; "filter"%string := "updateCard,createCard"%string; "limit"%string := "100"%string ]} in
      let@ resp := do_ conn (str_app "/1/boards/" (str_app (PathEscape (boardID conn)) (str_app "/actions?" (Encode q)))) in
      let@ _ := expect "trello" ": status=" ": delta status=" resp in
      let@ actions := read_body "trello" "delta" (d_list d_action) resp in
      let firsts := first_per_card ∅ actions in
      eret (card_change (ns_ID ns) <$> firsts, GoTime.Format (newest cursorTime (snd <$> firsts)))
  end.

Lemma first_per_card_spec seen l :
  NoDup (first_per_card seen l).*1 ∧ ∀ c, c ∈ (first_per_card seen l).*1 ↔ c ∈ l.*1 ∧ c ≠ EmptyString ∧ c ∉ seen.
Proof.
  revert seen. induction l as [|a l IH]; intros seen; simpl; [split; [constructor|set_solver]|].
  destruct (str_empty a.1) eqn:He; simpl.
  { apply str_empty_true in He. destruct (IH seen) as [H1 H2]. split; [done|]. intros c. rewrite H2. set_solver. }
  apply str_empty_false in He. case_bool_decide as Hin.
  { destruct (IH seen) as [H1 H2]. split; [done|]. intros c. rewrite H2. set_solver. }
  destruct (IH ({[ a.1 ]} ∪ seen)) as [H1 H2]. rewrite fmap_cons. split.
  - constructor; [|done]. rewrite H2. set_solver.
  - intros c. rewrite !elem_of_cons, H2. destruct (decide (c = a.1)) as [->|Hne]; [split; [intros _; split_and!; [by left|done|done]|by left]|]. set_solver.
Qed.

(** A delta reports each card with an action once, and no other; the cursor does not go back. *)
Theorem Trello_DeltaSync_cards now conn ns cursor w changes cursor' w' t :
  DeltaSync now conn ns cursor w = (Ok (changes, cursor'), w') → GoTime.Parse cursor = Some t →
  NoDup (ID ∘ ch_Ref <$> changes) ∧
  ∃ newest, cursor' = GoTime.Format newest ∧ (t ≤ newest)%Z ∧ ∀ c, c ∈ changes → (UpdatedAt (ch_Ref c) ≤ newest)%Z.
Proof.
  unfold DeltaSync. intros Hd Hp. destruct (str_empty cursor) eqn:He; [apply str_empty_true in He as ->; discriminate Hp|].
  rewrite Hp in Hd. apply ebind_Ok in Hd as (r & w1 & _ & Hk). apply ebind_Ok in Hk as (u & w2 & _ & Hk).
  apply ebind_Ok in Hk as (actions & w3 & _ & Hk). injection Hk as <- <- <-.
  destruct (first_per_card_spec ∅ actions) as [Hnd _]. destruct (newest_spec t (first_per_card ∅ actions).*2) as (_ & H2 & H3).
  split; [by rewrite <- list_fmap_compose|]. eexists. split_and!; [done|done|].
  intros c (a & -> & Ha)%list_elem_of_fmap. apply (H3 a.2). by apply list_elem_of_fmap_2.
Qed.
End Trello.
End Trello.
