(* ===== verification/HelpDesks.v ===== *)
(** * Help desks: Zendesk, Freshdesk, Freshservice, Zoho Desk, PagerDuty and ServiceNow

    The connectors under connector/zendesk, freshdesk, freshservice, zoho_desk,
    pagerduty and servicenow: configuration, listing, fetching and change tracking.
    Freshdesk, Zendesk and ServiceNow walk their listings with the [Next] that looks at
    [done] first; the others use the common one. A cursor that is returned beside an
    error is not part of the model. *)

From Stdlib Require Import Ascii.
From S2P Require Import Prelude GoFloat GoString GoText Calendar GoTime Effects AuditIntegrity Json GoUrl ConnectorBase.

(** ** What tickets have in common *)

Module Ticket.
Import Connector.

Record entry := { id : string; subject : string; body : string; updated : string; created : string }.

(** The numeric id is printed where it is used. *)
Definition d_number_id : decoder string := λ j, get i from d_int_field "id" j in Some (FormatInt i).

(** The reference of a listed ticket, with its time if it can be read. *)
Definition ref (ns : string) (read : string → option Time) (t : entry) : DocumentRef :=
  {| NamespaceID := ns; ID := id t; ETag := ""; UpdatedAt := default 0%Z (read (updated t)) |}.

(** The document of a ticket: a time that cannot be read leaves the one of the reference. *)
Definition document (ns : string) (read : string → option Time) (known : DocumentRef) (t : entry) : Document :=
  let u := or_known (default 0%Z (read (updated t))) known in
  {| Ref := {| NamespaceID := ns; ID := id t; ETag := ""; UpdatedAt := u |}; MIMEType := "text/plain"; Title := subject t; Author := "";
     Size := Z.of_nat (str_len (body t)); CreatedAt := default 0%Z (read (created t)); d_UpdatedAt := u;
     Metadata := ∅; Content := body t |}.

(** The changes of a page: tickets whose time cannot be read are passed over. *)
Definition changes (ns : string) (read : string → option Time) (l : list entry) : list DocumentChange :=
  omap (λ t, match read (updated t) with Some u => Some (upsert ns (id t) "" u) | None => None end) l.

Definition namespace : Namespace := {| ns_ID := "tickets"; ns_Name := "Tickets"; Kind := "tickets"; ns_Metadata := ∅ |}.
End Ticket.

(** ** Zendesk *)

Module Zendesk.
Import Connector.

Record Credentials_ := { Subdomain : string; Email : string; APIToken : string; AccessToken : string }.
Definition d_creds : decoder Credentials_ := λ j,
  get s from d_str_field "subdomain" j in get e from d_str_field "email" j in
  get a from d_str_field "api_token" j in get t from d_str_field "access_token" j in
  Some {| Subdomain := s; Email := e; APIToken := a; AccessToken := t |}.

Record connection := { tenantID : string; sourceID : string; base : string; authHdr : string }.

Section Zendesk.
Context `{Server} `{GoUrl.Bracketed} (baseURL : string).

Definition Validate (cfg : ConnectorConfig) : result Credentials_ conn_error :=
  match parse_creds d_creds cfg with
  | Err e => Err e
  | Ok c =>
      if str_empty (Subdomain c) && str_empty baseURL then Err (ErrInvalidConfig "subdomain required")
      else if str_empty (APIToken c) && str_empty (AccessToken c) then Err (ErrInvalidConfig "api_token or access_token required")
      else if negb (str_empty (APIToken c)) && str_empty (Email c) then Err (ErrInvalidConfig "email required when api_token is set")
      else Ok c
  end.

Definition do_ (conn : connection) (path : string) : Net Response := GET "zendesk" (base conn) (authHdr conn) path.

Definition auth_of (c : Credentials_) : string :=
  if negb (str_empty (AccessToken c)) then str_app "Bearer " (AccessToken c)
  else str_app "Basic " (of_bytes (base64 (to_bytes (str_app (Email c) (str_app "/token:" (APIToken c)))))).

Definition Connect (cfg : ConnectorConfig) : Net connection :=
  let@ c := or_throw (Validate cfg) in
  let conn := {| tenantID := TenantID cfg; sourceID := SourceID cfg;
                 base := if str_empty baseURL then str_app "https://" (str_app (Subdomain c) ".zendesk.com") else baseURL;
                 authHdr := auth_of c |} in
  let@ resp := do_ conn "/api/v2/users/me.json" in
  let@ _ := expect "zendesk" ": status=" ": users/me status=" resp in
  eret conn.

Definition ListNamespaces : list Namespace := [Ticket.namespace].

(** [ticketEntry]; a listed ticket has no body. *)
Definition d_entry : decoder Ticket.entry := λ j,
  get i from Ticket.d_number_id j in get s from d_str_field "subject" j in
  get u from d_str_field "updated_at" j in get c from d_str_field "created_at" j in
  Some {| Ticket.id := i; Ticket.subject := s; Ticket.body := ""; Ticket.updated := u; Ticket.created := c |}.

(** The path of the next page, empty when there is none. *)
Definition next_path (raw : string) : string :=
  if str_empty raw then EmptyString else default EmptyString (GoUrl.request_uri raw).

Record docIterator := { it_conn : connection; nextPath : string }.

Definition fetch_tickets (it : docIterator) : Net (fetched docIterator) :=
  let path := if str_empty (nextPath it) then "/api/v2/tickets.json"%string else nextPath it in
  let@ resp := do_ (it_conn it) path in
  let@ _ := expect_ok "zendesk" ": list status=" resp in
  let@ body := read_body "zendesk" "list" (λ j,
    get ts from d_list_field "tickets" d_entry j in get n from d_str_field "next_page" j in Some (ts, n)) resp in
  let next := next_path body.2 in
  eret {| f_page := Ticket.ref "tickets" GoTime.Parse <$> body.1; f_src := {| it_conn := it_conn it; nextPath := next |};
          f_done := str_empty next; f_ret := true |}.

#[export] Instance tickets : PageSource docIterator.
Proof.
  refine {| fetchPage := fetch_tickets |}. intros s w f w' Hf Hr. unfold fetch_tickets in Hf. net_inv Hf. by injection Hf as <- <-.
Defined.

Definition ListDocuments (conn : connection) : iter docIterator := fresh {| it_conn := conn; nextPath := "" |}.

(** The methods of its iterator. *)
Definition Next := @Connector.Next_done_first docIterator tickets.
Definition Doc := @Connector.Doc docIterator.
Definition Err_ := @Connector.Err_ docIterator.

Definition d_ticket : decoder Ticket.entry := λ j,
  get i from Ticket.d_number_id j in get s from d_str_field "subject" j in get d from d_str_field "description" j in
  get u from d_str_field "updated_at" j in get c from d_str_field "created_at" j in
  Some {| Ticket.id := i; Ticket.subject := s; Ticket.body := d; Ticket.updated := u; Ticket.created := c |}.
Definition no_ticket : Ticket.entry := {| Ticket.id := "0"; Ticket.subject := ""; Ticket.body := ""; Ticket.updated := ""; Ticket.created := "" |}.

Definition FetchDocument (conn : connection) (ref : DocumentRef) : Net Document :=
  let@ resp := do_ conn (str_app "/api/v2/tickets/" (str_app (PathEscape (ID ref)) ".json")) in
  let@ _ := expect "zendesk" ": fetch status=" (fetch_status (ID ref)) resp in
  let@ t := read_body "zendesk" "ticket" (d_field "ticket" d_ticket no_ticket) resp in
  eret (Ticket.document "tickets" GoTime.Parse ref t).

(** *** Changes, behind a Unix time *)

Definition parseRetryAfter (v : string) : string :=
  if str_empty v then EmptyString else match Atoi (to_bytes v) with Some _ => str_app v "s" | None => v end.

Record delta_page := { p_tickets : list Ticket.entry; EndTime : Z; Count : Z; NextPage : string; EndOfStream : bool }.
Definition d_delta : decoder delta_page := λ j,
  get ts from d_list_field "tickets" d_entry j in get e from d_int_field "end_time" j in get c from d_int_field "count" j in
  get n from d_str_field "next_page" j in get s from d_field "end_of_stream" d_bool false j in
  Some {| p_tickets := ts; EndTime := e; Count := c; NextPage := n; EndOfStream := s |}.

Definition delta_round (conn : connection) (ns : Namespace) (path : string) : Net ((list DocumentChange * Z) * option string) :=
  let@ resp := do_ conn path in
  let@ _ := if (StatusCode resp =? 429)%Z
            then ethrow (ErrRateLimited (str_app (status_text "zendesk" ": status=" resp)
                                                 (str_app " retry_after=" (parseRetryAfter (RetryAfter resp)))))
            else expect_200 "zendesk" ": delta status=" resp in
  let@ p := read_body "zendesk" "delta" d_delta resp in
  let changes := (λ t, {| ch_Kind := ChangeUpserted; ch_Ref := Ticket.ref (ns_ID ns) GoTime.Parse t |}) <$> p_tickets p in
  eret ((changes, EndTime p),
        if EndOfStream p || (Count p <? 1000)%Z || str_empty (NextPage p) then None else GoUrl.request_uri (NextPage p)).

(** The last end time a page carried. *)
Definition advance_to (start : Z) (ends : list Z) : Z := foldl (λ n e, if (0 <? e)%Z then e else n) start ends.

Definition DeltaSync (now : Time) (fuel : nat) (conn : connection) (ns : Namespace) (cursor : string)
    : Net (option (list DocumentChange * string)) :=
  if str_empty cursor then eret (Some ([], FormatInt (GoTime.Unix now)))
  else match Atoi (to_bytes cursor) with
  | None => ethrow (Failed (str_app "zendesk: bad cursor " cursor))
  | Some start =>
      let@ r := collect (delta_round conn ns) fuel (str_app "/api/v2/incremental/tickets.json?start_time=" (FormatInt start)) in
      eret (match r with
            | Some pages => Some (concat (fst <$> pages), FormatInt (advance_to start (snd <$> pages)))
            | None => None
            end)
  end.

Lemma delta_round_range conn ns path w a n w' : delta_round conn ns path w = (Ok (a, n), w') → in_int64 a.2.
Proof.
  unfold delta_round. intros Hr. apply ebind_Ok in Hr as (resp & w1 & _ & Hr). apply ebind_Ok in Hr as (u & w2 & _ & Hr).
  apply ebind_Ok in Hr as (p & w3 & Hb & Hr). injection Hr as <- <- <-. unfold read_body in Hb.
  destruct (decode d_delta (RespBody resp)) as [q|] eqn:Hd; [|done]. injection Hb as <- <-.
  destruct (RespBody resp) as [| |j]; try done. cbn in Hd. unfold d_delta in Hd.
  destruct (d_list_field "tickets" d_entry j); [|done]. destruct (d_int_field "end_time" j) eqn:E; [|done].
  destruct (d_int_field "count" j); [|done]. destruct (d_str_field "next_page" j); [|done].
  destruct (d_field "end_of_stream" d_bool false j); [|done]. injection Hd as <-. by eapply d_int_field_range.
Qed.

Lemma advance_to_spec start ends :
  in_int64 start → Forall in_int64 ends →
  in_int64 (advance_to start ends) ∧ (advance_to start ends = start ∨ advance_to start ends ∈ ends).
Proof.
  intros Hs He. unfold advance_to. revert start Hs. induction He as [|e ends He _ IH]; intros start Hs; simpl; [by split; [|left]|].
  destruct (0 <? e)%Z; [destruct (IH e He) as [H1 [H2|H2]]|destruct (IH start Hs) as [H1 [H2|H2]]]; (split; [done|]).
  - right. rewrite H2. by left.
  - right. by right.
  - by left.
  - right. by right.
Qed.

(** The cursor a sync returns is one the next sync accepts, and stands where the service
    said its last page ended, or where it was. *)
Theorem Zendesk_cursor_reads_back now fuel conn ns cursor start w changes cursor' w' :
  DeltaSync now fuel conn ns cursor w = (Ok (Some (changes, cursor')), w') → Atoi (to_bytes cursor) = Some start →
  ∃ ends, Atoi (to_bytes cursor') = Some (advance_to start ends) ∧ (advance_to start ends = start ∨ advance_to start ends ∈ ends).
Proof.
  unfold DeltaSync. intros Hd Ha. destruct (str_empty cursor) eqn:He; [apply str_empty_true in He as ->; discriminate Ha|].
  pose proof (Atoi_range _ _ Ha) as Hs.
  rewrite Ha in Hd. apply ebind_Ok in Hd as ([pages|] & w1 & Hc & Hk); [|done]. injection Hk as <- <- <-.
  apply collect_inv, (chain_Forall _ (λ a, in_int64 a.2)) in Hc; [|intros; by eapply delta_round_range].
  destruct (advance_to_spec start (snd <$> pages) Hs) as [H1 H2]; [by apply Forall_fmap|].
  exists (snd <$> pages). split; [by apply Atoi_FormatInt|done].
Qed.
End Zendesk.
End Zendesk.

(** ** Freshdesk and Freshservice *)

(** The two connectors are the same code but for the host and the shape of an answer. *)
Module Fresh.
Import Connector.

Record Creds := { Domain : string; APIKey : string }.
Definition d_creds : decoder Creds := λ j,
  get d from d_str_field "domain" j in get k from d_str_field "api_key" j in Some {| Domain := d; APIKey := k |}.

Record connection := { tenantID : string; sourceID : string; base : string; authHdr : string }.

Definition d_entry : decoder Ticket.entry := λ j,
  get i from Ticket.d_number_id j in get s from d_str_field "subject" j in get d from d_str_field "description_text" j in
  get u from d_str_field "updated_at" j in get c from d_str_field "created_at" j in
  Some {| Ticket.id := i; Ticket.subject := s; Ticket.body := d; Ticket.updated := u; Ticket.created := c |}.

(** An absent header leaves the decision to the length of the page. *)
Definition linkHasNext (h : string) : bool := if str_empty h then true else contains (to_bytes "rel=" ++ [GoUrl.quote_char] ++ to_bytes "next" ++ [GoUrl.quote_char]) (to_bytes h).

Definition perPage : nat := 100.

Record docIterator := { it_conn : connection; nextPage : Z }.

Section Fresh.
Context `{Server} (who baseURL : string) (d_tickets : decoder (list Ticket.entry)) (d_ticket : decoder Ticket.entry).

Definition Validate (cfg : ConnectorConfig) : result Creds conn_error :=
  match parse_creds d_creds cfg with
  | Err e => Err e
  | Ok c =>
      if str_empty (Domain c) && str_empty baseURL then Err (ErrInvalidConfig "domain required")
      else if str_empty (APIKey c) then Err (ErrInvalidConfig "api_key required")
      else Ok c
  end.

Definition do_ (conn : connection) (path : string) : Net Response := GET who (base conn) (authHdr conn) path.

Definition Connect (cfg : ConnectorConfig) : Net connection :=
  let@ c := or_throw (Validate cfg) in
  let host := if str_empty baseURL then str_app "https://" (str_app (Domain c) (str_app "." (str_app who ".com"))) else baseURL in
  let conn := {| tenantID := TenantID cfg; sourceID := SourceID cfg; base := host;
                 authHdr := str_app "Basic " (of_bytes (base64 (to_bytes (str_app (APIKey c) ":X")))) |} in
  let@ resp := do_ conn "/api/v2/agents/me" in
  let@ _ := expect who ": status=" ": agents/me status=" resp in
  eret conn.

Definition last_page (resp : Response) (ts : list Ticket.entry) : bool := negb (linkHasNext (Link resp)) || (length ts <? perPage)%nat.

(** Pages are counted from one; the zero of a new iterator is the first. *)
Definition fetch_tickets (it : docIterator) : Net (fetched docIterator) :=
  let page := if (nextPage it =? 0)%Z then 1%Z else nextPage it in
  let q := {[ "per_page"%string := FormatInt 100; "page"%string := FormatInt page ]} in
  let@ resp := do_ (it_conn it) (str_app "/api/v2/tickets?" (Encode q)) in
  let@ _ := expect_ok who ": list status=" resp in
  let@ ts := read_body who "list" d_tickets resp in
  let final := last_page resp ts in
  eret {| f_page := Ticket.ref "tickets" GoTime.Parse <$> ts;
          f_src := {| it_conn := it_conn it; nextPage := if final then page else (page + 1)%Z |};
          f_done := final; f_ret := true |}.

Lemma fetch_tickets_ret s w f w' : fetch_tickets s w = (Ok f, w') → f_ret f = false → f_page f = [].
Proof. intros Hf. unfold fetch_tickets in Hf. net_inv Hf. by injection Hf as <- <-. Qed.

Definition FetchDocument (conn : connection) (ref : DocumentRef) : Net Document :=
  let@ resp := do_ conn (str_app "/api/v2/tickets/" (PathEscape (ID ref))) in
  let@ _ := expect who ": fetch status=" (fetch_status (ID ref)) resp in
  let@ t := read_body who "ticket" d_ticket resp in
  eret (Ticket.document "tickets" GoTime.Parse ref t).

Definition delta_round (conn : connection) (ns : Namespace) (cursor : string) (_ : Time) (page : Z) : Net (list DocumentChange * option Z) :=
  let q := {[ "updated_since"%string := cursor; "order_by"%string := "updated_at"%string; "order_type"%string := "asc"%string;
              "per_page"%string := FormatInt 100; "page"%string := FormatInt page ]} in
  let@ resp := do_ conn (str_app "/api/v2/tickets?" (Encode q)) in
  let@ _ := expect who ": status=" ": delta status=" resp in
  let@ ts := read_body who "delta" d_tickets resp in
  eret (Ticket.changes (ns_ID ns) GoTime.Parse ts, if last_page resp ts then None else Some (page + 1)%Z).

Definition DeltaSync (now : Time) (fuel : nat) (conn : connection) (ns : Namespace) (cursor : string)
    : Net (option (list DocumentChange * string)) :=
  time_delta (str_app who (str_app ": bad cursor " cursor)) 1%Z (delta_round conn ns cursor) now fuel cursor.
End Fresh.
End Fresh.

Module Freshdesk.
Import Connector.
Definition Name : string := "freshdesk".

Section Freshdesk.
Context `{Server} (baseURL : string).

(** A list is an array, a ticket an object. *)
Definition d_tickets : decoder (list Ticket.entry) := d_list Fresh.d_entry.
Definition d_ticket : decoder Ticket.entry := Fresh.d_entry.

Definition Validate := Fresh.Validate baseURL.
Definition Connect := Fresh.Connect Name baseURL.
Definition ListNamespaces : list Namespace := [Ticket.namespace].
#[export] Instance tickets : PageSource Fresh.docIterator :=
  {| fetchPage := Fresh.fetch_tickets Name d_tickets; fetchPage_false := Fresh.fetch_tickets_ret Name d_tickets |}.
Definition ListDocuments (conn : Fresh.connection) : iter Fresh.docIterator := fresh {| Fresh.it_conn := conn; Fresh.nextPage := 0 |}.

(** The methods of its iterator. *)
Definition Next := @Connector.Next_done_first Fresh.docIterator tickets.
Definition Doc := @Connector.Doc Fresh.docIterator.
Definition Err_ := @Connector.Err_ Fresh.docIterator.
Definition FetchDocument := Fresh.FetchDocument Name d_ticket.
Definition DeltaSync := Fresh.DeltaSync Name d_tickets.
End Freshdesk.
End Freshdesk.

Module Freshservice.
Import Connector.
Definition Name : string := "freshservice".

Section Freshservice.
Context `{Server} (baseURL : string).

(** Both come in an envelope. *)
Definition d_tickets : decoder (list Ticket.entry) := d_list_field "tickets" Fresh.d_entry.
Definition d_ticket : decoder Ticket.entry := d_field "ticket" Fresh.d_entry Zendesk.no_ticket.

Definition Validate := Fresh.Validate baseURL.
Definition Connect := Fresh.Connect Name baseURL.
Definition ListNamespaces : list Namespace := [Ticket.namespace].
#[export] Instance tickets : PageSource Fresh.docIterator :=
  {| fetchPage := Fresh.fetch_tickets Name d_tickets; fetchPage_false := Fresh.fetch_tickets_ret Name d_tickets |}.
Definition ListDocuments (conn : Fresh.connection) : iter Fresh.docIterator := fresh {| Fresh.it_conn := conn; Fresh.nextPage := 0 |}.

(** The methods of its iterator. *)
Definition Next := @Connector.Next Fresh.docIterator tickets.
Definition Doc := @Connector.Doc Fresh.docIterator.
Definition Err_ := @Connector.Err_ Fresh.docIterator.
Definition FetchDocument := Fresh.FetchDocument Name d_ticket.
Definition DeltaSync := Fresh.DeltaSync Name d_tickets.
End Freshservice.
End Freshservice.

(** ** Zoho Desk *)

Module ZohoDesk.
Import Connector.

Record Creds := { AccessToken : string; OrgID : string }.
Definition d_creds : decoder Creds := λ j,
  get t from d_str_field "access_token" j in get o from d_str_field "org_id" j in Some {| AccessToken := t; OrgID := o |}.

(** The organisation goes into a header of its own, which requests do not show here. *)
Record connection := { tenantID : string; sourceID : string; base : string; token : string; orgID : string }.

Definition Validate (cfg : ConnectorConfig) : result Creds conn_error :=
  match parse_creds d_creds cfg with
  | Err e => Err e
  | Ok c =>
      if str_empty (AccessToken c) then Err (ErrInvalidConfig "access_token required")
      else if str_empty (OrgID c) then Err (ErrInvalidConfig "org_id required")
      else Ok c
  end.

(** The second layout is tried when the first does not fit. *)
Definition parseZohoTime (s : string) : option Time :=
  if str_empty s then None
  else match GoTime.Parse s with
  | Some t => Some t
  | None => GoTime.parse_as GoTime.millis_layout (to_bytes s)
  end.

Definition d_entry : decoder Ticket.entry := λ j,
  get i from d_str_field "id" j in get s from d_str_field "subject" j in get d from d_str_field "description" j in
  get u from d_str_field "modifiedTime" j in get c from d_str_field "createdTime" j in
  Some {| Ticket.id := i; Ticket.subject := s; Ticket.body := d; Ticket.updated := u; Ticket.created := c |}.

Definition perPage : nat := 100.

Section ZohoDesk.
Context `{Server} (baseURL : string).

Definition do_ (conn : connection) (path : string) : Net Response := GET "zoho_desk" (base conn) (str_app "Zoho-oauthtoken " (token conn)) path.

Definition Connect (cfg : ConnectorConfig) : Net connection :=
  let@ c := or_throw (Validate cfg) in
  let conn := {| tenantID := TenantID cfg; sourceID := SourceID cfg; base := baseURL; token := AccessToken c; orgID := OrgID c |} in
  let@ resp := do_ conn "/api/v1/myinfo" in
  let@ _ := expect "zoho_desk" ": status=" ": myinfo status=" resp in
  eret conn.

Definition ListNamespaces : list Namespace := [Ticket.namespace].

(** A page of tickets: an empty body is an empty page, a 204 the end ([None]). *)
Definition read_page (limited failed what : string) (resp : Response) : Net (option (list Ticket.entry)) :=
  if (StatusCode resp =? 200)%Z then
    match RespBody resp with
    | NoBytes => eret (Some [])
    | _ => let@ ts := read_body "zoho_desk" what (d_list_field "data" d_entry) resp in eret (Some ts)
    end
  else if (StatusCode resp =? 429)%Z then ethrow (ErrRateLimited (status_text "zoho_desk" limited resp))
  else if (StatusCode resp =? 204)%Z then eret None
  else ethrow (Failed (status_text "zoho_desk" failed resp)).

Record docIterator := { it_conn : connection; from : Z }.

(** A 204 leaves the page as it was, at its end, so that no document is left of it. *)
Definition fetch_tickets (it : docIterator) : Net (fetched docIterator) :=
  let q := {[ "from"%string := FormatInt (from it); "limit"%string := FormatInt 100 ]} in
  let@ resp := do_ (it_conn it) (str_app "/api/v1/tickets?" (Encode q)) in
  let@ r := read_page ": list status=" ": list status=" "list" resp in
  eret match r with
  | None => {| f_page := []; f_src := it; f_done := true; f_ret := true |}
  | Some ts =>
      let short := (length ts <? perPage)%nat in
      {| f_page := Ticket.ref "tickets" parseZohoTime <$> ts;
         f_src := if short then it else {| it_conn := it_conn it; from := (from it + Z.of_nat (length ts))%Z |};
         f_done := short; f_ret := true |}
  end.

#[export] Instance tickets : PageSource docIterator.
Proof.
  refine {| fetchPage := fetch_tickets |}. intros s w f w' Hf Hr. unfold fetch_tickets in Hf. net_inv Hf.
  injection Hf as <- <-. by destruct a0.
Defined.

Definition ListDocuments (conn : connection) : iter docIterator := fresh {| it_conn := conn; from := 0 |}.

(** The methods of its iterator. *)
Definition Next := @Connector.Next docIterator tickets.
Definition Doc := @Connector.Doc docIterator.
Definition Err_ := @Connector.Err_ docIterator.

Definition FetchDocument (conn : connection) (ref : DocumentRef) : Net Document :=
  let@ resp := do_ conn (str_app "/api/v1/tickets/" (PathEscape (ID ref))) in
  let@ _ := expect "zoho_desk" ": fetch status=" (fetch_status (ID ref)) resp in
  let@ t := read_body "zoho_desk" "ticket" d_entry resp in
  eret (Ticket.document "tickets" parseZohoTime ref t).

Definition delta_round (conn : connection) (ns : Namespace) (cursor until : string) (_ : Time) (from : Z) : Net (list DocumentChange * option Z) :=
  let q := {[ "modifiedTimeRange"%string := str_app cursor (str_app "," until); "from"%string := FormatInt from;
              "limit"%string := FormatInt 100; "sortBy"%string := "modifiedTime"%string ]} in
  let@ resp := do_ conn (str_app "/api/v1/tickets?" (Encode q)) in
  let@ r := read_page ": status=" ": delta status=" "delta" resp in
  eret match r with
  | None => ([], None)
  | Some ts => (Ticket.changes (ns_ID ns) parseZohoTime ts,
                if (length ts <? perPage)%nat then None else Some (from + Z.of_nat (length ts))%Z)
  end.

(** The range ends at the time the sync begins. *)
Definition DeltaSync (now : Time) (fuel : nat) (conn : connection) (ns : Namespace) (cursor : string)
    : Net (option (list DocumentChange * string)) :=
  time_delta (str_app "zoho_desk: bad cursor " cursor) 0%Z (delta_round conn ns cursor (GoTime.Format now)) now fuel cursor.

#[export] Instance syncer : DeltaSyncer connection :=
  {| delta := DeltaSync; delta_moves now fuel c ns cursor t w ch cur' w' := time_delta_moves _ _ _ now fuel cursor t w ch cur' w';
     delta_bootstrap now fuel c ns w ch cur' w' := time_delta_bootstrap _ _ _ now fuel w ch cur' w' |}.
End ZohoDesk.
End ZohoDesk.

(** ** PagerDuty *)

Module PagerDuty.
Import Connector.

Record connection := { tenantID : string; sourceID : string; base : string; apiKey : string }.

Definition Validate (cfg : ConnectorConfig) : result string conn_error :=
  match parse_creds (d_str_field "api_key") cfg with
  | Err e => Err e
  | Ok k => if str_empty k then Err (ErrInvalidConfig "api_key required") else Ok k
  end.

(** An incident: the text is its summary, or its title when there is none. *)
Definition d_incident : decoder Ticket.entry := λ j,
  get i from d_str_field "id" j in get t from d_str_field "title" j in get s from d_str_field "summary" j in
  get _ from d_str_field "status" j in get c from d_str_field "created_at" j in get u from d_str_field "last_status_change_at" j in
  Some {| Ticket.id := i; Ticket.subject := t; Ticket.body := if str_empty s then t else s; Ticket.updated := u; Ticket.created := c |}.
Definition no_incident : Ticket.entry := {| Ticket.id := ""; Ticket.subject := ""; Ticket.body := ""; Ticket.updated := ""; Ticket.created := "" |}.

Definition d_page : decoder (list Ticket.entry * bool) := λ j,
  get ins from d_list_field "incidents" d_incident j in get m from d_field "more" d_bool false j in
  get _ from d_int_field "offset" j in get _ from d_int_field "limit" j in Some (ins, m).

Definition statuses : list (string * string) :=
  [("statuses[]", "resolved"); ("statuses[]", "triggered"); ("statuses[]", "acknowledged")]%string.

Section PagerDuty.
Context `{Server} (baseURL : string).

Definition do_ (conn : connection) (path : string) : Net Response := GET "pagerduty" (base conn) (str_app "Token token=" (apiKey conn)) path.

(** Keys without a user are tried on another address. *)
Definition Connect (cfg : ConnectorConfig) : Net connection :=
  let@ k := or_throw (Validate cfg) in
  let conn := {| tenantID := TenantID cfg; sourceID := SourceID cfg; base := baseURL; apiKey := k |} in
  let@ resp := do_ conn "/users/me" in
  if (StatusCode resp =? 429)%Z then ethrow (ErrRateLimited (status_text "pagerduty" ": status=" resp))
  else if (StatusCode resp =? 404)%Z || (StatusCode resp =? 401)%Z then
    let@ resp2 := do_ conn "/abilities" in
    let@ _ := expect "pagerduty" ": status=" ": abilities status=" resp2 in
    eret conn
  else
    let@ _ := expect_200 "pagerduty" ": users/me status=" resp in
    eret conn.

Definition ListNamespaces : list Namespace :=
  [{| ns_ID := "incidents"; ns_Name := "Incidents"; Kind := "incidents"; ns_Metadata := ∅ |}].

Record docIterator := { it_conn : connection; offset : Z }.

(** The next page begins behind this one; there is none when the service says so or sent nothing. *)
Definition next_offset (offset : Z) (p : list Ticket.entry * bool) : option Z :=
  if negb p.2 || match p.1 with [] => true | _ => false end then None else Some (offset + Z.of_nat (length p.1))%Z.

Definition fetch_incidents (it : docIterator) : Net (fetched docIterator) :=
  let q := [("limit", FormatInt 100); ("offset", FormatInt (offset it))]%string ++ statuses in
  let@ resp := do_ (it_conn it) (str_app "/incidents?" (EncodeValues q)) in
  let@ _ := expect_ok "pagerduty" ": list status=" resp in
  let@ p := read_body "pagerduty" "list" d_page resp in
  let next := next_offset (offset it) p in
  eret {| f_page := Ticket.ref "incidents" GoTime.Parse <$> p.1;
          f_src := {| it_conn := it_conn it; offset := default (offset it) next |};
          f_done := match next with None => true | Some _ => false end; f_ret := true |}.

#[export] Instance incidents : PageSource docIterator.
Proof.
  refine {| fetchPage := fetch_incidents |}. intros s w f w' Hf Hr. unfold fetch_incidents in Hf. net_inv Hf. by injection Hf as <- <-.
Defined.

Definition ListDocuments (conn : connection) : iter docIterator := fresh {| it_conn := conn; offset := 0 |}.

(** The methods of its iterator. *)
Definition Next := @Connector.Next docIterator incidents.
Definition Doc := @Connector.Doc docIterator.
Definition Err_ := @Connector.Err_ docIterator.

Definition FetchDocument (conn : connection) (ref : DocumentRef) : Net Document :=
  let@ resp := do_ conn (str_app "/incidents/" (PathEscape (ID ref))) in
  let@ _ := expect "pagerduty" ": fetch status=" (fetch_status (ID ref)) resp in
  let@ t := read_body "pagerduty" "incident" (d_field "incident" d_incident no_incident) resp in
  eret (Ticket.document "incidents" GoTime.Parse ref t).

(** Every page asks for changes up to the time [clock] shows then. *)
Definition delta_round (clock : Z → Time) (conn : connection) (ns : Namespace) (cursor : string) (_ : Time) (offset : Z)
    : Net (list DocumentChange * option Z) :=
  let q := [("since", cursor); ("until", GoTime.Format (clock offset)); ("limit", FormatInt 100); ("offset", FormatInt offset)]%string ++ statuses in
  let@ resp := do_ conn (str_app "/incidents?" (EncodeValues q)) in
  let@ _ := expect "pagerduty" ": status=" ": delta status=" resp in
  let@ p := read_body "pagerduty" "delta" d_page resp in
  eret (Ticket.changes (ns_ID ns) GoTime.Parse p.1, next_offset offset p).

Definition DeltaSync (clock : Z → Time) (now : Time) (fuel : nat) (conn : connection) (ns : Namespace) (cursor : string)
    : Net (option (list DocumentChange * string)) :=
  time_delta (str_app "pagerduty: bad cursor " cursor) 0%Z (delta_round clock conn ns cursor) now fuel cursor.
End PagerDuty.
End PagerDuty.

(** ** ServiceNow *)

Module ServiceNow.
Import Connector.

Record Creds := { Instance_ : string; Username : string; Password : string; AccessToken : string }.
Definition d_creds : decoder Creds := λ j,
  get i from d_str_field "instance" j in get u from d_str_field "username" j in
  get p from d_str_field "password" j in get t from d_str_field "access_token" j in
  Some {| Instance_ := i; Username := u; Password := p; AccessToken := t |}.

Record connection := { tenantID : string; sourceID : string; base : string; authHdr : string; table : string }.

Record recordEntry := { SysID : string; Number : string; ShortDesc : string; Description : string; SysUpdatedOn : string; SysCreatedOn : string }.
Definition d_record : decoder recordEntry := λ j,
  get i from d_str_field "sys_id" j in get n from d_str_field "number" j in get s from d_str_field "short_description" j in
  get d from d_str_field "description" j in get u from d_str_field "sys_updated_on" j in get c from d_str_field "sys_created_on" j in
  Some {| SysID := i; Number := n; ShortDesc := s; Description := d; SysUpdatedOn := u; SysCreatedOn := c |}.
Definition no_record : recordEntry := {| SysID := ""; Number := ""; ShortDesc := ""; Description := ""; SysUpdatedOn := ""; SysCreatedOn := "" |}.

(** Times without a zone; one that cannot be read is the zero time. *)
Definition parseSNTime (v : string) : Time := default 0%Z (GoTime.parse_as GoTime.date_time (to_bytes v)).

Definition limit : nat := 100.

(** The table is a setting, [incident] by default. *)
Definition table_of (cfg : ConnectorConfig) : string :=
  match Settings cfg !! "table"%string with
  | Some (JStr v) => if str_empty v then "incident"%string else v
  | _ => "incident"%string
  end.

Section ServiceNow.
Context `{Server} (baseURL : string).

Definition Validate (cfg : ConnectorConfig) : result Creds conn_error :=
  match parse_creds d_creds cfg with
  | Err e => Err e
  | Ok c =>
      if str_empty (Instance_ c) && str_empty baseURL then Err (ErrInvalidConfig "instance required")
      else if str_empty (AccessToken c) && (str_empty (Username c) || str_empty (Password c))
           then Err (ErrInvalidConfig "username+password or access_token required")
      else Ok c
  end.

Definition do_ (conn : connection) (path : string) : Net Response := GET "servicenow" (base conn) (authHdr conn) path.
Definition table_path (conn : connection) : string := str_app "/api/now/table/" (PathEscape (table conn)).

Definition Connect (cfg : ConnectorConfig) : Net connection :=
  let@ c := or_throw (Validate cfg) in
  let conn := {| tenantID := TenantID cfg; sourceID := SourceID cfg;
                 base := if str_empty baseURL then str_app "https://" (str_app (Instance_ c) ".service-now.com") else baseURL;
                 authHdr := if negb (str_empty (AccessToken c)) then str_app "Bearer " (AccessToken c)
                            else str_app "Basic " (of_bytes (base64 (to_bytes (str_app (Username c) (str_app ":" (Password c))))));
                 table := table_of cfg |} in
  let@ resp := do_ conn (str_app (table_path conn) "?sysparm_limit=1") in
  let@ _ := expect "servicenow" ": status=" (str_app ": table " (str_app (table conn) " status=")) resp in
  eret conn.

Definition ListNamespaces (conn : connection) : list Namespace :=
  [{| ns_ID := table conn; ns_Name := table conn; Kind := "table"; ns_Metadata := ∅ |}].

Record docIterator := { it_conn : connection; offset : Z }.

Definition d_records : decoder (list recordEntry) := d_list_field "result" d_record.

Definition fetch_records (it : docIterator) : Net (fetched docIterator) :=
  let q := {[ "sysparm_limit"%string := FormatInt 100; "sysparm_offset"%string := FormatInt (offset it) ]} in
  let@ resp := do_ (it_conn it) (str_app (table_path (it_conn it)) (str_app "?" (Encode q))) in
  let@ _ := expect_ok "servicenow" ": list status=" resp in
  let@ rs := read_body "servicenow" "list" d_records resp in
  let short := (length rs <? limit)%nat in
  eret {| f_page := (λ r, {| NamespaceID := table (it_conn it); ID := SysID r; ETag := ""; UpdatedAt := parseSNTime (SysUpdatedOn r) |}) <$> rs;
          f_src := {| it_conn := it_conn it; offset := if short then offset it else (offset it + Z.of_nat (length rs))%Z |};
          f_done := short; f_ret := true |}.

#[export] Instance records : PageSource docIterator.
Proof.
  refine {| fetchPage := fetch_records |}. intros s w f w' Hf Hr. unfold fetch_records in Hf. net_inv Hf. by injection Hf as <- <-.
Defined.

Definition ListDocuments (conn : connection) : iter docIterator := fresh {| it_conn := conn; offset := 0 |}.

(** The methods of its iterator. *)
Definition Next := @Connector.Next_done_first docIterator records.
Definition Doc := @Connector.Doc docIterator.
Definition Err_ := @Connector.Err_ docIterator.

Definition FetchDocument (conn : connection) (ref : DocumentRef) : Net Document :=
  let@ resp := do_ conn (str_app (table_path conn) (str_app "/" (PathEscape (ID ref)))) in
  let@ _ := expect "servicenow" ": fetch status=" (fetch_status (ID ref)) resp in
  let@ r := read_body "servicenow" "record" (d_field "result" d_record no_record) resp in
  let updated := or_known (parseSNTime (SysUpdatedOn r)) ref in
  eret {| Ref := {| NamespaceID := table conn; ID := SysID r; ETag := ""; UpdatedAt := updated |}; MIMEType := "text/plain";
          Title := if str_empty (ShortDesc r) then Number r else ShortDesc r; Author := "";
          Size := Z.of_nat (str_len (Description r)); CreatedAt := parseSNTime (SysCreatedOn r); d_UpdatedAt := updated;
          Metadata := {[ "number"%string := Number r ]}; Content := Description r |}.

(** *** Changes, behind a time in the service's own text *)

Definition record_change (ns : string) (r : recordEntry) : DocumentChange :=
  upsert ns (SysID r) "" (if str_empty (SysUpdatedOn r) then 0%Z else parseSNTime (SysUpdatedOn r)).

Definition delta_round (conn : connection) (cursor : string) (offset : Z) : Net (list recordEntry * option Z) :=
  let q := {[ "sysparm_query"%string := str_app "sys_updated_on>" (str_app cursor "^ORDERBYsys_updated_on");
              "sysparm_limit"%string := FormatInt 100; "sysparm_offset"%string := FormatInt offset ]} in
  let@ resp := do_ conn (str_app (table_path conn) (str_app "?" (Encode q))) in
  let@ _ := expect "servicenow" ": status=" ": delta status=" resp in
  let@ rs := read_body "servicenow" "delta" d_records resp in
  eret (rs, if (length rs <? limit)%nat then None else Some (offset + Z.of_nat (length rs))%Z).

Definition DeltaSync (now : Time) (fuel : nat) (conn : connection) (ns : Namespace) (cursor : string)
    : Net (option (list DocumentChange * string)) :=
  if str_empty cursor then eret (Some ([], GoTime.Format_date_time now))
  else
    let@ r := collect (delta_round conn cursor) fuel 0%Z in
    eret (match r with
          | Some pages => let rs := concat pages in Some (record_change (ns_ID ns) <$> rs, latest cursor (SysUpdatedOn <$> rs))
          | None => None
          end).

(** A delta reports every record of every page, and its cursor is the latest time among
    them and never before the old one. *)
Theorem ServiceNow_DeltaSync_exact now fuel conn ns cursor w pages w' :
  cursor ≠ EmptyString → chain (delta_round conn cursor) 0%Z w pages None w' → (length pages < fuel)%nat →
  ∃ cursor', DeltaSync now fuel conn ns cursor w = (Ok (Some (record_change (ns_ID ns) <$> concat pages, cursor')), w') ∧
    str_ltb cursor' cursor = false ∧ ∀ r, r ∈ concat pages → str_ltb cursor' (SysUpdatedOn r) = false.
Proof.
  intros Hne Hc Hf. unfold DeltaSync. rewrite (proj2 (str_empty_false cursor) Hne). unfold ebind.
  rewrite (collect_chain _ _ _ _ _ _ _ Hc Hf). eexists. split; [done|].
  destruct (latest_spec cursor (SysUpdatedOn <$> concat pages)) as (_ & H2 & H3). split; [done|].
  intros r Hr. apply H3. by apply list_elem_of_fmap_2.
Qed.
End ServiceNow.
End ServiceNow.

(** ** Intercom *)

Module Intercom.
Import Connector.

Record connection := { tenantID : string; sourceID : string; base : string; accessToken : string }.

Definition Validate (cfg : ConnectorConfig) : result string conn_error :=
  match parse_creds (d_str_field "access_token") cfg with
  | Err e => Err e
  | Ok t => if str_empty t then Err (ErrInvalidConfig "access_token required") else Ok t
  end.

Record convEntry := { c_ID : string; c_UpdatedAt : Z; c_CreatedAt : Z }.
Definition d_conv : decoder convEntry := λ j,
  get i from d_str_field "id" j in get u from d_int_field "updated_at" j in get c from d_int_field "created_at" j in
  Some {| c_ID := i; c_UpdatedAt := u; c_CreatedAt := c |}.

(** Two lists, of which a page carries one, and the position of the next page. *)
Record listResponse := { Conversations : list convEntry; Data : list convEntry; StartingAfter : string }.
Definition d_response : decoder listResponse := λ j,
  get c from d_list_field "conversations" d_conv j in get d from d_list_field "data" d_conv j in
  get n from d_field "pages" (d_field "next" (d_str_field "starting_after") EmptyString) EmptyString j in
  Some {| Conversations := c; Data := d; StartingAfter := n |}.

Definition first_of (a b : list convEntry) : list convEntry := match a with [] => b | _ => a end.

Definition time_of (u : Z) : Time := if (0 <? u)%Z then GoTime.of_unix u else 0%Z.
Definition conv_ref (ns : string) (r : convEntry) : DocumentRef :=
  {| NamespaceID := ns; ID := c_ID r; ETag := ""; UpdatedAt := time_of (c_UpdatedAt r) |}.

Definition with_after (q : gmap string string) (after : string) : gmap string string :=
  if str_empty after then q else <["starting_after"%string := after]> q.

Section Intercom.
(** The bytes an answer with this body had. *)
Context `{Server} (raw : blob → string) (baseURL : string).

Definition do_ (conn : connection) (path : string) : Net Response := GET "intercom" (base conn) (str_app "Bearer " (accessToken conn)) path.
Definition post (conn : connection) (path : string) (body : json) : Net Response :=
  http "intercom" {| Method := "POST"; URL := str_app (trim_slashes (base conn)) path;
                     Authorization := str_app "Bearer " (accessToken conn); ReqBody := Some body |}.

Definition Connect (cfg : ConnectorConfig) : Net connection :=
  let@ t := or_throw (Validate cfg) in
  let conn := {| tenantID := TenantID cfg; sourceID := SourceID cfg; base := baseURL; accessToken := t |} in
  let@ resp := do_ conn "/me" in
  let@ _ := expect "intercom" ": status=" ": /me status=" resp in
  eret conn.

Definition ListNamespaces : list Namespace :=
  [{| ns_ID := "conversations"; ns_Name := "Conversations"; Kind := "conversations"; ns_Metadata := ∅ |};
   {| ns_ID := "articles"; ns_Name := "Articles"; Kind := "articles"; ns_Metadata := ∅ |}].

Record docIterator := { it_conn : connection; it_ns : Namespace; startingAfter : string }.

Definition fetch_rows (it : docIterator) : Net (fetched docIterator) :=
  let q := with_after {[ "per_page"%string := "50"%string ]} (startingAfter it) in
  let@ resp := do_ (it_conn it) (str_app "/" (str_app (ns_ID (it_ns it)) (str_app "?" (Encode q)))) in
  let@ _ := expect_ok "intercom" ": list status=" resp in
  let@ body := read_body "intercom" "list" d_response resp in
  let final := str_empty (StartingAfter body) in
  eret {| f_page := conv_ref (ns_ID (it_ns it)) <$> first_of (Conversations body) (Data body);
          f_src := {| it_conn := it_conn it; it_ns := it_ns it; startingAfter := if final then startingAfter it else StartingAfter body |};
          f_done := final; f_ret := true |}.

#[export] Instance rows : PageSource docIterator.
Proof.
  refine {| fetchPage := fetch_rows |}. intros s w f w' Hf Hr. unfold fetch_rows in Hf. net_inv Hf. by injection Hf as <- <-.
Defined.

Definition ListDocuments (conn : connection) (ns : Namespace) : iter docIterator :=
  fresh {| it_conn := conn; it_ns := ns; startingAfter := "" |}.

(** The methods of its iterator. *)
Definition Next := @Connector.Next_done_first docIterator rows.
Definition Doc := @Connector.Doc docIterator.
Definition Err_ := @Connector.Err_ docIterator.

Definition FetchDocument (conn : connection) (ref : DocumentRef) : Net Document :=
  let@ resp := do_ conn (str_app "/" (str_app (NamespaceID ref) (str_app "/" (PathEscape (ID ref))))) in
  let@ _ := expect "intercom" ": fetch status=" (fetch_status (ID ref)) resp in
  let b := RespBody resp in
  let updated := GoTime.of_unix (lenient (d_int_field "updated_at") 0%Z b) in
  eret {| Ref := {| NamespaceID := NamespaceID ref; ID := lenient (d_str_field "id") EmptyString b; ETag := ""; UpdatedAt := updated |};
          MIMEType := "application/json"; Title := lenient (d_str_field "title") EmptyString b; Author := "";
          Size := Z.of_nat (str_len (raw b)); CreatedAt := GoTime.of_unix (lenient (d_int_field "created_at") 0%Z b);
          d_UpdatedAt := updated; Metadata := ∅; Content := raw b |}.

(** *** Changes, behind a Unix time *)

Definition conv_change (ns : string) (r : convEntry) : DocumentChange :=
  {| ch_Kind := ChangeUpserted; ch_Ref := conv_ref ns r |}.

Definition newest_of (since : Z) (rows : list convEntry) : Z := foldl Z.max since (c_UpdatedAt <$> rows).

(** One search; what it does not return in its first page is not asked for. *)
Definition deltaSyncSearch (conn : connection) (ns : Namespace) (since : Z) : Net (list DocumentChange * string) :=
  let q := JObj [("query"%string, JObj [("field"%string, JStr "updated_at"); ("operator"%string, JStr ">"); ("value"%string, JInt since)])] in
  let@ resp := post conn (str_app "/" (str_app (ns_ID ns) "/search")) q in
  let@ _ := expect "intercom" ": status=" ": delta status=" resp in
  let@ lr := read_body "intercom" "delta" d_response resp in
  let rows := first_of (Conversations lr) (Data lr) in
  eret (conv_change (ns_ID ns) <$> rows,
        FormatInt (newest_of since (List.filter (λ r, 0 <? c_UpdatedAt r)%Z rows))).

(** Where the walk over the articles stands: the next page, whether the rows came in
    descending order so far, and the time of the last row. *)
Record walk := { after : string; descending : bool; previous : Z }.

Definition see (m : bool * Z) (r : convEntry) : bool * Z := (m.1 && negb (m.2 <? c_UpdatedAt r)%Z, c_UpdatedAt r).

(** One page of the articles. *)
Definition articles_page (conn : connection) (ns : Namespace) (p : walk) : Net (list convEntry * option walk) :=
  let q := with_after {[ "per_page"%string := "100"%string; "order"%string := "desc"%string; "sort"%string := "updated_at"%string ]} (after p) in
  let@ resp := do_ conn (str_app "/" (str_app (ns_ID ns) (str_app "?" (Encode q)))) in
  let@ _ := expect "intercom" ": status=" ": articles delta status=" resp in
  let@ body := read_body "intercom" "articles" d_response resp in
  let rows := first_of (Data body) (Conversations body) in
  let '(desc, prev) := foldl see (descending p, previous p) rows in
  eret (rows, if str_empty (StartingAfter body) then None
              else Some {| after := StartingAfter body; descending := desc; previous := prev |}).

Definition newer_than (since : Z) (r : convEntry) : bool := (since <? c_UpdatedAt r)%Z.

(** Rows behind the cursor are passed over. A page of nothing else ends the walk, as long
    as all rows so far came in descending order. *)
Definition articles_round (conn : connection) (ns : Namespace) (since : Z) : walk → Net (list convEntry * option walk) :=
  stopping (articles_page conn ns) (newer_than since) (λ p rows, (foldl see (descending p, previous p) rows).1).

Definition deltaSyncArticles (fuel : nat) (conn : connection) (ns : Namespace) (since : Z) : Net (option (list DocumentChange * string)) :=
  let@ r := collect (articles_round conn ns since) fuel {| after := ""; descending := true; previous := int64_max |} in
  eret (match r with
        | Some pages =>
            let rows := concat pages in
            Some ((λ r, upsert (ns_ID ns) (c_ID r) "" (GoTime.of_unix (c_UpdatedAt r))) <$> rows, FormatInt (newest_of since rows))
        | None => None
        end).

Definition DeltaSync (now : Time) (fuel : nat) (conn : connection) (ns : Namespace) (cursor : string)
    : Net (option (list DocumentChange * string)) :=
  if str_empty cursor then eret (Some ([], FormatInt (GoTime.Unix now)))
  else match Atoi (to_bytes cursor) with
  | None => ethrow (Failed (str_app "intercom: bad cursor " cursor))
  | Some since =>
      if str_eqb (ns_ID ns) "conversations" then let@ r := deltaSyncSearch conn ns since in eret (Some r)
      else if str_eqb (ns_ID ns) "articles" then deltaSyncArticles fuel conn ns since
      else ethrow ErrNotSupported
  end.

(** The articles of a service that keeps to the order it was asked for: whatever their
    pages, the delta reports exactly those updated behind the cursor, although it stops
    at the first page that has none. *)
Theorem deltaSyncArticles_exact conn ns since fuel w pages w'' :
  chain (articles_page conn ns) {| after := ""; descending := true; previous := int64_max |} w pages None w'' →
  StronglySorted (λ a b, c_UpdatedAt b ≤ c_UpdatedAt a)%Z (concat pages) → (length pages < fuel)%nat →
  ∃ w', deltaSyncArticles fuel conn ns since w =
    (let rows := List.filter (newer_than since) (concat pages) in
     Ok (Some ((λ r, upsert (ns_ID ns) (c_ID r) "" (GoTime.of_unix (c_UpdatedAt r))) <$> rows, FormatInt (newest_of since rows))), w').
Proof.
  intros Hc Hs Hf. unfold deltaSyncArticles, articles_round.
  destruct (stopping_complete (articles_page conn ns) (newer_than since) (λ p rows, (foldl see (descending p, previous p) rows).1)
    _ _ _ _ _ fuel ltac:(unfold newer_than; intros a b Hab Hb; exact (proj2 (Z.ltb_lt _ _) (Z.lt_le_trans _ _ _ (proj1 (Z.ltb_lt _ _) Hb) Hab)))
    Hc Hs Hf) as (l & w' & Hl & <-).
  exists w'. unfold ebind. by rewrite Hl.
Qed.
End Intercom.
End Intercom.

(** ** Samples *)

Module HelpDeskSamples.
Import Connector.

Definition ok (link : string) (j : json) : option Response := Some {| StatusCode := 200; Link := link; RetryAfter := ""; RespBody := Parsed j |}.
Definition start : Env (list Request) := {| store := []; calls_made := 0 |}.

(** The ids a listing gave, and the error behind them. *)
Definition shown (r : option (list DocumentRef * option conn_error * Env (list Request))) : option (list string * option conn_error) :=
  match r with Some (ds, e, _) => Some (ID <$> ds, e) | None => None end.

(** Two tickets on one page. *)
Definition ticket (n : Z) (t : string) : json := JObj [("id"%string, JInt n); ("updated_at"%string, JStr t)].
Definition two_tickets : Server := λ _, ok "" (JArr [ticket 1 "2024-01-01T00:00:00Z"; ticket 2 "2024-01-02T00:00:00Z"]).
Definition desk : Fresh.connection := {| Fresh.tenantID := "t"; Fresh.sourceID := "s"; Fresh.base := "https://a.freshdesk.com"; Fresh.authHdr := "x" |}.

(** Of the two tickets the listing shows one. *)
Example freshdesk_loses_a_ticket :
  shown (drain (@Next_done_first _ (@Freshdesk.tickets two_tickets)) 9 (Freshdesk.ListDocuments desk) start)
  = Some (["1"%string], Some ErrEndOfPage).
Proof. vm_compute. reflexivity. Qed.

(** Freshservice has the other [Next] and shows both. *)
Definition two_in_envelope : Server := λ _, ok "" (JObj [("tickets"%string, JArr [ticket 1 ""; ticket 2 ""])]).
Example freshservice_shows_both :
  shown (drain (@Next _ (@Freshservice.tickets two_in_envelope)) 9 (Freshservice.ListDocuments desk) start)
  = Some (["1"; "2"]%string, Some ErrEndOfPage).
Proof. vm_compute. reflexivity. Qed.

(** A service that does not keep to the order: two stale articles first, a fresh one on
    the second page. *)
Definition article (i : string) (u : Z) : json := JObj [("id"%string, JStr i); ("updated_at"%string, JInt u)].
Definition shuffled : Server := λ log,
  match log with
  | [_] => ok "" (JObj [("data"%string, JArr [article "a" 30; article "b" 20]);
                        ("pages"%string, JObj [("next"%string, JObj [("starting_after"%string, JStr "p2")])])])
  | _ => ok "" (JObj [("data"%string, JArr [article "c" 100])])
  end.
Definition intercom : Intercom.connection := {| Intercom.tenantID := "t"; Intercom.sourceID := "s"; Intercom.base := "https://api.intercom.io"; Intercom.accessToken := "k" |}.
Definition articles : Namespace := {| ns_ID := "articles"; ns_Name := "Articles"; Kind := "articles"; ns_Metadata := ∅ |}.

(** The walk stops before it has seen that the order is broken: the article updated at 100
    is not reported, and not by any later sync either. *)
Example out_of_order_article_is_lost :
  (@Intercom.DeltaSync shuffled 0 9 intercom articles "50" start).1 = Ok (Some ([], "50"%string)).
Proof. vm_compute. reflexivity. Qed.
End HelpDeskSamples.
