(* ===== verification/Workspaces.v ===== *)
(** * Workspaces: Webex, Bitbucket and BookStack (connector/webex, connector/bitbucket, connector/bookstack)

    The three walk their listings with the [Next] that looks at [done] first. Webex and
    BookStack read newest first and stop where the cursor is reached; this is proved to
    lose nothing when the service keeps to that order. *)

From Stdlib Require Import Ascii.
From S2P Require Import Prelude GoFloat GoString GoText Calendar GoTime Effects AuditIntegrity Json GoUrl ConnectorBase.

(** ** Webex *)

Module Webex.
Import Connector.

Record Creds := { AccessToken : string; RoomID : string }.
Definition d_creds : decoder Creds := λ j,
  get t from d_str_field "access_token" j in get r from d_str_field "room_id" j in Some {| AccessToken := t; RoomID := r |}.

Record connection := { tenantID : string; sourceID : string; base : string; accessToken : string; roomID : string }.

Definition Validate (cfg : ConnectorConfig) : result Creds conn_error :=
  match parse_creds d_creds cfg with
  | Err e => Err e
  | Ok c =>
      if str_empty (AccessToken c) then Err (ErrInvalidConfig "access_token required")
      else if str_empty (RoomID c) then Err (ErrInvalidConfig "room_id required")
      else Ok c
  end.

Record messageEntry := { m_ID : string; Text : string; Created : string }.
Definition d_message : decoder messageEntry := λ j,
  get i from d_str_field "id" j in get t from d_str_field "text" j in get c from d_str_field "created" j in
  Some {| m_ID := i; Text := t; Created := c |}.
Definition d_items : decoder (list messageEntry) := d_list_field "items" d_message.

Section Webex.
Context `{Server} `{GoUrl.Bracketed} (baseURL : string).

Definition do_ (conn : connection) (path : string) : Net Response := GET "webex" (base conn) (str_app "Bearer " (accessToken conn)) path.

Definition Connect (cfg : ConnectorConfig) : Net connection :=
  let@ c := or_throw (Validate cfg) in
  let conn := {| tenantID := TenantID cfg; sourceID := SourceID cfg; base := baseURL; accessToken := AccessToken c; roomID := RoomID c |} in
  let@ resp := do_ conn "/v1/people/me" in
  let@ _ := expect "webex" ": status=" ": people/me status=" resp in
  eret conn.

Definition ListNamespaces (conn : connection) : list Namespace :=
  [{| ns_ID := roomID conn; ns_Name := roomID conn; Kind := "room"; ns_Metadata := ∅ |}].

(** *** The next page, from the Link header *)

Definition trim (l : bytes) : bytes := to_bytes (trim_space (of_bytes l)).
Definition rel_next : bytes := to_bytes "rel=" ++ [GoUrl.quote_char] ++ to_bytes "next" ++ [GoUrl.quote_char].
Definition is_rel_next (p : bytes) : bool := bool_decide (trim p = rel_next) || bool_decide (trim p = to_bytes "rel=next").

(** The address of one part of the header, if it is one of a next page. *)
Definition link_part (part : bytes) : option string :=
  match split_on ";"%char (trim part) with
  | raw :: ((_ :: _) as params) =>
      if existsb is_rel_next params
      then GoUrl.request_uri (of_bytes (trim_suffix (to_bytes ">") (trim_prefix (to_bytes "<") (trim raw))))
      else None
  | _ => None
  end.

Definition parseWebexNextLink (header : string) : string :=
  if str_empty header then EmptyString
  else default EmptyString (head (omap link_part (split_on ","%char (to_bytes header)))).

(** *** Messages *)

Record docIterator := { it_conn : connection; nextPath : string }.

Definition first_path (conn : connection) : string :=
  str_app "/v1/messages?" (Encode {[ "roomId"%string := roomID conn; "max"%string := "100"%string ]}).

Definition fetch_messages (it : docIterator) : Net (fetched docIterator) :=
  let path := if str_empty (nextPath it) then first_path (it_conn it) else nextPath it in
  let@ resp := do_ (it_conn it) path in
  let@ _ := expect_ok "webex" ": list status=" resp in
  let@ items := read_body "webex" "list" d_items resp in
  let next := parseWebexNextLink (Link resp) in
  eret {| f_page := (λ m, {| NamespaceID := roomID (it_conn it); ID := m_ID m; ETag := ""; UpdatedAt := GoTime.parse_or_zero (Created m) |}) <$> items;
          f_src := {| it_conn := it_conn it; nextPath := next |}; f_done := str_empty next; f_ret := true |}.

#[export] Instance messages : PageSource docIterator.
Proof.
  refine {| fetchPage := fetch_messages |}. intros s w f w' Hf Hr. unfold fetch_messages in Hf. net_inv Hf. by injection Hf as <- <-.
Defined.

Definition ListDocuments (conn : connection) : iter docIterator := fresh {| it_conn := conn; nextPath := "" |}.

(** The methods of its iterator. *)
Definition Next := @Connector.Next_done_first docIterator messages.
Definition Doc := @Connector.Doc docIterator.
Definition Err_ := @Connector.Err_ docIterator.

Definition FetchDocument (conn : connection) (ref : DocumentRef) : Net Document :=
  let@ resp := do_ conn (str_app "/v1/messages/" (PathEscape (ID ref))) in
  let@ _ := expect "webex" ": fetch status=" (fetch_status (ID ref)) resp in
  let@ m := read_body "webex" "msg" d_message resp in
  let updated := GoTime.parse_or_zero (Created m) in
  eret {| Ref := {| NamespaceID := roomID conn; ID := m_ID m; ETag := ""; UpdatedAt := updated |}; MIMEType := "text/plain";
          Title := m_ID m; Author := ""; Size := Z.of_nat (str_len (Text m)); CreatedAt := updated; d_UpdatedAt := updated;
          Metadata := ∅; Content := Text m |}.

(** *** Changes *)

(** One page of the room, newest message first. *)
Definition delta_page (conn : connection) (ns : Namespace) (path : string) : Net (list DocumentChange * option string) :=
  let@ resp := do_ conn path in
  let@ _ := expect "webex" ": status=" ": delta status=" resp in
  let@ items := read_body "webex" "delta" d_items resp in
  let next := parseWebexNextLink (Link resp) in
  eret ((λ m, upsert (ns_ID ns) (m_ID m) "" (GoTime.parse_or_zero (Created m))) <$> items, if str_empty next then None else Some next).

(** Messages that are not behind the cursor are passed over; a page of nothing else ends the walk. *)
Definition DeltaSync (now : Time) (fuel : nat) (conn : connection) (ns : Namespace) (cursor : string)
    : Net (option (list DocumentChange * string)) :=
  time_delta (str_app "webex: bad cursor " cursor) (first_path conn) (λ t, stopping (delta_page conn ns) (after_cursor t) (λ _ _, true)) now fuel cursor.

#[export] Instance webex_syncer : DeltaSyncer connection :=
  {| delta := DeltaSync; delta_moves now fuel c ns cursor t w ch cur' w' := time_delta_moves _ _ _ now fuel cursor t w ch cur' w';
     delta_bootstrap now fuel c ns w ch cur' w' := time_delta_bootstrap _ _ _ now fuel w ch cur' w' |}.

(** A room whose messages are served newest first: the delta reports exactly the
    messages behind the cursor, of all its pages, although it stops at the first page
    that has none; and the cursor moves to the newest of them. *)
Theorem Webex_DeltaSync_exact now fuel conn ns cursor t w pages w'' :
  GoTime.Parse cursor = Some t → chain (delta_page conn ns) (first_path conn) w pages None w'' →
  StronglySorted (λ a b, changed_at b ≤ changed_at a)%Z (concat pages) → (length pages < fuel)%nat →
  ∃ w', DeltaSync now fuel conn ns cursor w =
    (let changes := List.filter (after_cursor t) (concat pages) in
     Ok (Some (changes, GoTime.Format (newest t (changed_at <$> changes)))), w').
Proof.
  intros Hp Hc Hs Hf. unfold DeltaSync, time_delta.
  destruct (str_empty cursor) eqn:He; [apply str_empty_true in He as ->; discriminate Hp|]. rewrite Hp.
  destruct (stopping_complete (delta_page conn ns) (after_cursor t) (λ _ _, true) (λ a b, changed_at b ≤ changed_at a)%Z
    (first_path conn) w pages w'' fuel) as (l & w' & Hl & Hcc); [|done..|].
  { unfold after_cursor. intros a b Hab Hb. rewrite Z.ltb_lt in *. lia. }
  exists w'. unfold ebind. rewrite Hl. cbn. by rewrite Hcc.
Qed.
End Webex.
End Webex.

(** ** Bitbucket *)

Module Bitbucket.
Import Connector.

Record Creds := { Username : string; AppPassword : string; Workspace : string; Repo : string }.
Definition d_creds : decoder Creds := λ j,
  get u from d_str_field "username" j in get p from d_str_field "app_password" j in
  get w from d_str_field "workspace" j in get r from d_str_field "repo" j in
  Some {| Username := u; AppPassword := p; Workspace := w; Repo := r |}.

Record connection := { tenantID : string; sourceID : string; base : string; authHdr : string; workspace : string; repo : string }.

Definition Validate (cfg : ConnectorConfig) : result Creds conn_error :=
  match parse_creds d_creds cfg with
  | Err e => Err e
  | Ok c =>
      if str_empty (Username c) || str_empty (AppPassword c) then Err (ErrInvalidConfig "username + app_password required")
      else if str_empty (Workspace c) then Err (ErrInvalidConfig "workspace required")
      else if str_empty (Repo c) then Err (ErrInvalidConfig "repo required")
      else Ok c
  end.

Record prEntry := { pr_ID : Z; pr_Title : string; UpdatedOn : string; CreatedOn : string; State : string; Raw : string }.
Definition d_pr : decoder prEntry := λ j,
  get i from d_int_field "id" j in get t from d_str_field "title" j in get u from d_str_field "updated_on" j in
  get c from d_str_field "created_on" j in get s from d_str_field "state" j in
  get r from d_field "summary" (d_str_field "raw") EmptyString j in
  Some {| pr_ID := i; pr_Title := t; UpdatedOn := u; CreatedOn := c; State := s; Raw := r |}.
Definition d_page : decoder (list prEntry * string) := λ j,
  get v from d_list_field "values" d_pr j in get n from d_str_field "next" j in Some (v, n).

Section Bitbucket.
Context `{Server} `{GoUrl.Bracketed} (baseURL : string).

Definition do_ (conn : connection) (path : string) : Net Response := GET "bitbucket" (base conn) (authHdr conn) path.
Definition repo_path (conn : connection) : string :=
  str_app "/2.0/repositories/" (str_app (PathEscape (workspace conn)) (str_app "/" (PathEscape (repo conn)))).
Definition full_name (conn : connection) : string := str_app (workspace conn) (str_app "/" (repo conn)).

Definition Connect (cfg : ConnectorConfig) : Net connection :=
  let@ c := or_throw (Validate cfg) in
  let auth := str_app "Basic " (of_bytes (base64 (to_bytes (str_app (Username c) (str_app ":" (AppPassword c)))))) in
  let conn := {| tenantID := TenantID cfg; sourceID := SourceID cfg; base := baseURL; authHdr := auth;
                 workspace := Workspace c; repo := Repo c |} in
  let@ resp := do_ conn (repo_path conn) in
  let@ _ := expect "bitbucket" ": status=" ": repo status=" resp in
  eret conn.

Definition ListNamespaces (conn : connection) : list Namespace :=
  [{| ns_ID := full_name conn; ns_Name := repo conn; Kind := "pullrequests"; ns_Metadata := ∅ |}].

Record docIterator := { it_conn : connection; it_ns : Namespace; nextPath : string }.

Definition fetch_prs (it : docIterator) : Net (fetched docIterator) :=
  let path := if str_empty (nextPath it)
              then str_app (repo_path (it_conn it)) (str_app "/pullrequests?" (Encode {[ "pagelen"%string := "50"%string ]}))
              else nextPath it in
  let@ resp := do_ (it_conn it) path in
  let@ _ := expect_ok "bitbucket" ": list status=" resp in
  let@ body := read_body "bitbucket" "list" d_page resp in
  let next := if str_empty body.2 then EmptyString else default EmptyString (GoUrl.request_uri body.2) in
  eret {| f_page := (λ pr, {| NamespaceID := ns_ID (it_ns it); ID := FormatInt (pr_ID pr); ETag := "";
                              UpdatedAt := GoTime.parse_or_zero (UpdatedOn pr) |}) <$> body.1;
          f_src := {| it_conn := it_conn it; it_ns := it_ns it; nextPath := next |}; f_done := str_empty next; f_ret := true |}.

#[export] Instance prs : PageSource docIterator.
Proof.
  refine {| fetchPage := fetch_prs |}. intros s w f w' Hf Hr. unfold fetch_prs in Hf. net_inv Hf. by injection Hf as <- <-.
Defined.

Definition ListDocuments (conn : connection) (ns : Namespace) : iter docIterator := fresh {| it_conn := conn; it_ns := ns; nextPath := "" |}.

(** The methods of its iterator. *)
Definition Next := @Connector.Next_done_first docIterator prs.
Definition Doc := @Connector.Doc docIterator.
Definition Err_ := @Connector.Err_ docIterator.

Definition FetchDocument (conn : connection) (ref : DocumentRef) : Net Document :=
  let@ resp := do_ conn (str_app (repo_path conn) (str_app "/pullrequests/" (PathEscape (ID ref)))) in
  let@ _ := expect "bitbucket" ": fetch status=" (fetch_status (ID ref)) resp in
  let@ pr := read_body "bitbucket" "PR" d_pr resp in
  let updated := GoTime.parse_or_zero (UpdatedOn pr) in
  eret {| Ref := {| NamespaceID := full_name conn; ID := FormatInt (pr_ID pr); ETag := ""; UpdatedAt := updated |};
          MIMEType := "text/markdown"; Title := pr_Title pr; Author := ""; Size := Z.of_nat (str_len (Raw pr));
          CreatedAt := GoTime.parse_or_zero (CreatedOn pr); d_UpdatedAt := updated;
          Metadata := {[ "state"%string := State pr ]}; Content := Raw pr |}.

Definition quoted (s : string) : string := of_bytes (GoUrl.quote_char :: to_bytes s ++ [GoUrl.quote_char]).

Definition delta_path (conn : connection) (cursor : string) : string :=
  str_app (repo_path conn) (str_app "/pullrequests?" (Encode {[ "q"%string := str_app "updated_on>" (quoted cursor);
    "sort"%string := "updated_on"%string; "pagelen"%string := "50"%string; "state"%string := "OPEN"%string ]})).

Definition delta_round (conn : connection) (ns : Namespace) (_ : Time) (path : string) : Net (list DocumentChange * option string) :=
  let@ resp := do_ conn path in
  let@ _ := expect "bitbucket" ": status=" ": delta status=" resp in
  let@ body := read_body "bitbucket" "delta" d_page resp in
  eret ((λ pr, upsert (ns_ID ns) (FormatInt (pr_ID pr)) "" (GoTime.parse_or_zero (UpdatedOn pr))) <$> body.1,
        if str_empty body.2 then None else GoUrl.request_uri body.2).

Definition DeltaSync (now : Time) (fuel : nat) (conn : connection) (ns : Namespace) (cursor : string)
    : Net (option (list DocumentChange * string)) :=
  time_delta (str_app "bitbucket: bad cursor " cursor) (delta_path conn cursor) (delta_round conn ns) now fuel cursor.

#[export] Instance bitbucket_syncer : DeltaSyncer connection :=
  {| delta := DeltaSync; delta_moves now fuel c ns cursor t w ch cur' w' := time_delta_moves _ _ _ now fuel cursor t w ch cur' w';
     delta_bootstrap now fuel c ns w ch cur' w' := time_delta_bootstrap _ _ _ now fuel w ch cur' w' |}.
End Bitbucket.
End Bitbucket.

(** ** BookStack *)

Module BookStack.
Import Connector.

Record Creds := { BaseURL : string; TokenID : string; TokenSecret : string }.
Definition d_creds : decoder Creds := λ j,
  get b from d_str_field "base_url" j in get i from d_str_field "token_id" j in get s from d_str_field "token_secret" j in
  Some {| BaseURL := b; TokenID := i; TokenSecret := s |}.

Record connection := { tenantID : string; sourceID : string; base : string; tokenID : string; tokenSecret : string }.

Record pageEntry := { p_ID : Z; p_Name : string; BookID : Z; ChapterID : Z; p_UpdatedAt : string; p_CreatedAt : string; HTML : string }.
Definition d_page : decoder pageEntry := λ j,
  get i from d_int_field "id" j in get n from d_str_field "name" j in get b from d_int_field "book_id" j in
  get c from d_int_field "chapter_id" j in get u from d_str_field "updated_at" j in get cr from d_str_field "created_at" j in
  get h from d_str_field "html" j in
  Some {| p_ID := i; p_Name := n; BookID := b; ChapterID := c; p_UpdatedAt := u; p_CreatedAt := cr; HTML := h |}.
Definition d_pages : decoder (list pageEntry) := d_list_field "data" d_page.

Section BookStack.
Context `{Server} (baseURL : string).

Definition Validate (cfg : ConnectorConfig) : result Creds conn_error :=
  match parse_creds d_creds cfg with
  | Err e => Err e
  | Ok c =>
      if str_empty baseURL && str_empty (BaseURL c) then Err (ErrInvalidConfig "base_url required")
      else if str_empty (TokenID c) || str_empty (TokenSecret c) then Err (ErrInvalidConfig "token_id and token_secret required")
      else Ok c
  end.

Definition do_ (conn : connection) (path : string) : Net Response :=
  GET "bookstack" (base conn) (str_app "Token " (str_app (tokenID conn) (str_app ":" (tokenSecret conn)))) path.

Definition Connect (cfg : ConnectorConfig) : Net connection :=
  let@ c := or_throw (Validate cfg) in
  let conn := {| tenantID := TenantID cfg; sourceID := SourceID cfg; base := if str_empty baseURL then BaseURL c else baseURL;
                 tokenID := TokenID c; tokenSecret := TokenSecret c |} in
  let@ resp := do_ conn "/api/books?count=1" in
  let@ _ := expect "bookstack" ": status=" ": books status=" resp in
  eret conn.

Definition ListNamespaces : list Namespace := [{| ns_ID := "pages"; ns_Name := "Pages"; Kind := "wiki"; ns_Metadata := ∅ |}].

Definition docIterator : Type := connection.

(** One request, whatever the service leaves for further ones. *)
Definition fetch_pages (conn : docIterator) : Net (fetched docIterator) :=
  let@ resp := do_ conn "/api/pages?sort=-updated_at" in
  let@ _ := expect_ok "bookstack" ": list status=" resp in
  let@ ps := read_body "bookstack" "list" d_pages resp in
  eret {| f_page := (λ p, {| NamespaceID := "pages"; ID := FormatInt (p_ID p); ETag := ""; UpdatedAt := GoTime.parse_or_zero (p_UpdatedAt p) |}) <$> ps;
          f_src := conn; f_done := true; f_ret := true |}.

#[export] Instance wiki_pages : PageSource docIterator.
Proof.
  refine {| fetchPage := fetch_pages |}. intros s w f w' Hf Hr. unfold fetch_pages in Hf. net_inv Hf. by injection Hf as <- <-.
Defined.

Definition ListDocuments (conn : connection) : iter docIterator := fresh conn.

(** The methods of its iterator. *)
Definition Next := @Connector.Next_done_first docIterator wiki_pages.
Definition Doc := @Connector.Doc docIterator.
Definition Err_ := @Connector.Err_ docIterator.

Definition FetchDocument (conn : connection) (ref : DocumentRef) : Net Document :=
  let@ resp := do_ conn (str_app "/api/pages/" (PathEscape (ID ref))) in
  let@ _ := expect "bookstack" ": fetch status=" (fetch_status (ID ref)) resp in
  let@ p := read_body "bookstack" "page" d_page resp in
  let updated := or_known (GoTime.parse_or_zero (p_UpdatedAt p)) ref in
  eret {| Ref := {| NamespaceID := "pages"; ID := FormatInt (p_ID p); ETag := ""; UpdatedAt := updated |}; MIMEType := "text/html";
          Title := p_Name p; Author := ""; Size := Z.of_nat (str_len (HTML p)); CreatedAt := GoTime.parse_or_zero (p_CreatedAt p);
          d_UpdatedAt := updated;
          Metadata := {[ "book_id"%string := FormatInt (BookID p); "chapter_id"%string := FormatInt (ChapterID p) ]}; Content := HTML p |}.

(** *** Changes *)

(** The first call: the time of the page updated last, as the service prints it. *)
Definition bootstrap (now : Time) (conn : connection) : Net (list DocumentChange * string) :=
  let@ resp := do_ conn "/api/pages?sort=-updated_at&count=1" in
  let@ _ := expect_ok "bookstack" ": bootstrap status=" resp in
  let@ ps := read_body "bookstack" "bootstrap" d_pages resp in
  eret ([], match ps with [] => GoTime.Format now | p :: _ => p_UpdatedAt p end).

(** Pages whose time cannot be read are passed over; the first that is not behind the
    cursor ends the loop. *)
Fixpoint until_cursor (ns : string) (t : Time) (ps : list pageEntry) : list DocumentChange :=
  match ps with
  | [] => []
  | p :: rest =>
      match GoTime.Parse (p_UpdatedAt p) with
      | None => until_cursor ns t rest
      | Some u => if (t <? u)%Z then upsert ns (FormatInt (p_ID p)) "" u :: until_cursor ns t rest else []
      end
  end.

Definition delta_round (conn : connection) (ns : Namespace) (t : Time) (_ : unit) : Net (list DocumentChange * option unit) :=
  let@ resp := do_ conn "/api/pages?sort=-updated_at" in
  let@ _ := expect "bookstack" ": delta status=" ": delta status=" resp in
  let@ ps := read_body "bookstack" "delta" d_pages resp in
  eret (until_cursor (ns_ID ns) t ps, None).

Definition DeltaSync (now : Time) (fuel : nat) (conn : connection) (ns : Namespace) (cursor : string)
    : Net (option (list DocumentChange * string)) :=
  if str_empty cursor then let@ r := bootstrap now conn in eret (Some r)
  else time_delta (str_app "bookstack: bad cursor " cursor) tt (delta_round conn ns) now fuel cursor.

#[export] Instance bookstack_syncer : DeltaSyncer connection.
Proof.
  refine {| delta := DeltaSync |}.
  - intros now fuel c ns cursor t w ch cur' w' Hd Hp. unfold DeltaSync in Hd.
    destruct (str_empty cursor) eqn:He; [apply str_empty_true in He as ->; discriminate Hp|]. by eapply time_delta_moves.
  - intros now fuel c ns w ch cur' w' Hd. unfold DeltaSync in Hd. cbn [str_empty] in Hd. apply ebind_Ok in Hd as (r & w1 & Hb & Hk).
    injection Hk as -> <-. unfold bootstrap in Hb. net_inv Hb. by injection Hb as <- _.
Defined.

(** What is behind the cursor, of all pages whose time can be read. *)
Definition page_changes (ns : string) (t : Time) (ps : list pageEntry) : list DocumentChange :=
  omap (λ p, match GoTime.Parse (p_UpdatedAt p) with
             | Some u => if (t <? u)%Z then Some (upsert ns (FormatInt (p_ID p)) "" u) else None
             | None => None
             end) ps.

(** Pages come newest first, as far as their times can be read. *)
Definition newest_first (a b : pageEntry) : Prop :=
  ∀ u v, GoTime.Parse (p_UpdatedAt a) = Some u → GoTime.Parse (p_UpdatedAt b) = Some v → (v ≤ u)%Z.

Lemma page_changes_old ns t p u ps :
  GoTime.Parse (p_UpdatedAt p) = Some u → (u ≤ t)%Z → Forall (newest_first p) ps → page_changes ns t ps = [].
Proof.
  intros Hu Hle. induction 1 as [|q ps Hq _ IH]; [done|]. cbn. destruct (GoTime.Parse (p_UpdatedAt q)) as [v|] eqn:Hv; [|exact IH].
  specialize (Hq u v Hu Hv). rewrite (proj2 (Z.ltb_ge t v)) by lia. exact IH.
Qed.

(** Stopping at the first page that is not behind the cursor loses nothing when the
    service sorts as it was asked to. *)
Theorem until_cursor_exact ns t ps : StronglySorted newest_first ps → until_cursor ns t ps = page_changes ns t ps.
Proof.
  induction 1 as [|p ps _ IH Hp]; [done|]. cbn. destruct (GoTime.Parse (p_UpdatedAt p)) as [u|] eqn:Hu; [|exact IH].
  destruct (Z.ltb_spec t u) as [Hlt|Hge]; [by rewrite IH|]. symmetry. by eapply page_changes_old.
Qed.
End BookStack.
End BookStack.
