(* ===== verification/CodeHosts.v ===== *)
(** * Code and issue hosts: GitHub, GitLab and Jira (connector/github, connector/gitlab, connector/jira)

    Listing with the common [Next], documents that are the raw answer, deltas of one
    request, and webhooks with their signatures. *)

From Stdlib Require Import Ascii.
From S2P Require Import Prelude GoFloat GoString GoText Calendar GoTime Effects AuditIntegrity Json GoUrl ConnectorBase.

(** ** What the three have in common *)

Module Issue.
Import Connector.

(** An issue of a listing: its id and its time. *)
Definition ref (ns : string) (e : string * Time) : DocumentRef :=
  {| NamespaceID := ns; ID := e.1; ETag := ""; UpdatedAt := e.2 |}.

(** A page: a short one is the last, and a last one without issues is given up. *)
Definition page_of {Src} (ns : string) (es : list (string * Time)) (final : bool) (next : Src) : fetched Src :=
  {| f_page := ref ns <$> es; f_src := next; f_done := final;
     f_ret := negb (final && match es with [] => true | _ => false end) |}.

Lemma page_of_ret {Src} ns es final (next : Src) :
  f_ret (page_of ns es final next) = false → f_page (page_of ns es final next) = [].
Proof. cbn. destruct final; [|done]. by destruct es. Qed.

(** The document is the answer itself. *)
Definition document (raw : string) (ref : DocumentRef) (title author : string) (created updated : Time) (meta : gmap string string) : Document :=
  {| Ref := ref; MIMEType := "application/json"; Title := title; Author := author; Size := Z.of_nat (str_len raw);
     CreatedAt := created; d_UpdatedAt := updated; Metadata := meta; Content := raw |}.

(** The ids these services number their issues with. *)
Definition d_numbered (name : string) : decoder (string * Time) := λ j,
  get n from d_int_field name j in get u from d_str_field "updated_at" j in Some (FormatInt n, GoTime.parse_or_zero u).
End Issue.

(** ** GitHub *)

Module GitHub.
Import Connector.

Definition defaultBaseURL : string := "https://api.github.com".

Record Creds := { AccessToken : string; Owner : string }.
Definition d_creds : decoder Creds := λ j,
  get t from d_str_field "access_token" j in get o from d_str_field "owner" j in Some {| AccessToken := t; Owner := o |}.

Record connection := { tenantID : string; sourceID : string; accessToken : string; owner : string }.

Definition Validate (cfg : ConnectorConfig) : result Creds conn_error :=
  match parse_creds d_creds cfg with
  | Err e => Err e
  | Ok c => if str_empty (AccessToken c) then Err (ErrInvalidConfig "access_token required") else Ok c
  end.

Section GitHub.
Context `{Server} (raw : blob → string) (baseURL : string).

Definition do_ (conn : connection) (path : string) : Net Response := GET "github" baseURL (str_app "Bearer " (accessToken conn)) path.

(** Without an owner the login is asked for once more, and whatever goes wrong then leaves it empty. *)
Definition Connect (cfg : ConnectorConfig) : Net connection :=
  let@ c := or_throw (Validate cfg) in
  let conn := {| tenantID := TenantID cfg; sourceID := SourceID cfg; accessToken := AccessToken c; owner := Owner c |} in
  let@ resp := do_ conn "/user" in
  let@ _ := expect_200 "github" ": auth status=" resp in
  if str_empty (owner conn) then
    let@ again := attempt (do_ conn "/user") in
    let login := match again with Some r => lenient (d_str_field "login") EmptyString (RespBody r) | None => EmptyString end in
    eret {| tenantID := tenantID conn; sourceID := sourceID conn; accessToken := accessToken conn; owner := login |}
  else eret conn.

Definition d_repo : decoder Namespace := λ j,
  get f from d_str_field "full_name" j in get n from d_str_field "name" j in get p from d_field "private" d_bool false j in
  Some {| ns_ID := f; ns_Name := n; Kind := "repo"; ns_Metadata := {[ "private"%string := if p then "true"%string else "false"%string ]} |}.

Definition ListNamespaces (conn : connection) : Net (list Namespace) :=
  let@ resp := do_ conn "/user/repos?per_page=100&affiliation=owner" in
  let@ _ := expect_200 "github" ": list repos status=" resp in
  read_body "github" "repos" (d_list d_repo) resp.

Record docIterator := { it_conn : connection; it_ns : Namespace; pageNum : Z }.

Definition d_issue : decoder (string * Time) := λ j,
  get e from Issue.d_numbered "number" j in get _ from d_field "pull_request" (d_str_field "url") EmptyString j in Some e.

(** The page number is counted up before the request; an error is final, so nothing depends on it behind one. *)
Definition fetch_issues (it : docIterator) : Net (fetched docIterator) :=
  let n := (pageNum it + 1)%Z in
  let q := {[ "state"%string := "all"%string; "per_page"%string := "100"%string; "page"%string := FormatInt n ]} in
  let@ resp := do_ (it_conn it) (str_app "/repos/" (str_app (ns_ID (it_ns it)) (str_app "/issues?" (Encode q)))) in
  let@ _ := expect_ok "github" ": list issues status=" resp in
  let@ es := read_body "github" "issues" (d_list d_issue) resp in
  eret (Issue.page_of (ns_ID (it_ns it)) es (length es <? 100)%nat {| it_conn := it_conn it; it_ns := it_ns it; pageNum := n |}).

#[export] Instance issues : PageSource docIterator.
Proof.
  refine {| fetchPage := fetch_issues |}. intros s w f w' Hf. unfold fetch_issues in Hf. net_inv Hf.
  injection Hf as <- <-. apply Issue.page_of_ret.
Defined.

Definition ListDocuments (conn : connection) (ns : Namespace) : iter docIterator := fresh {| it_conn := conn; it_ns := ns; pageNum := 0 |}.

(** The methods of its iterator. *)
Definition Next := @Connector.Next docIterator issues.
Definition Doc := @Connector.Doc docIterator.
Definition Err_ := @Connector.Err_ docIterator.

Definition FetchDocument (conn : connection) (ref : DocumentRef) : Net Document :=
  let@ resp := do_ conn (str_app "/repos/" (str_app (NamespaceID ref) (str_app "/issues/" (ID ref)))) in
  let@ _ := expect_200 "github" ": get issue status=" resp in
  let b := RespBody resp in
  let text (name : string) := lenient (d_str_field name) EmptyString b in
  eret (Issue.document (raw b) ref (text "title"%string) (lenient (d_field "user" (d_str_field "login") EmptyString) EmptyString b)
          (GoTime.parse_or_zero (text "created_at"%string)) (GoTime.parse_or_zero (text "updated_at"%string))
          {[ "repo"%string := NamespaceID ref; "issue"%string := ID ref ]}).

Definition delta_ask (conn : connection) (ns : Namespace) (t : Time) : Net (list DocumentChange) :=
  let q := {[ "since"%string := GoTime.Format t; "state"%string := "all"%string; "per_page"%string := "100"%string ]} in
  let@ resp := do_ conn (str_app "/repos/" (str_app (ns_ID ns) (str_app "/issues?" (Encode q)))) in
  let@ _ := expect_200 "github" ": delta status=" resp in
  let@ es := read_body "github" "delta" (d_list (λ j, get e from Issue.d_numbered "number" j in get _ from d_str_field "state" j in Some e)) resp in
  eret ((λ e, upsert (ns_ID ns) e.1 "" e.2) <$> es).

Definition DeltaSync (now : Time) (conn : connection) (ns : Namespace) (cursor : string) : Net (list DocumentChange * string) :=
  since_delta "github: invalid cursor" (delta_ask conn ns) now cursor.

(** *** Webhooks *)

(** An object that may be absent. *)
Definition d_pointer {A} (name : string) (d : decoder A) : decoder (option A) := λ j,
  match j with
  | JObj l => match member name l with None | Some JNull => Some None | Some v => get a from d v in Some (Some a) end
  | JNull => Some None
  | _ => None
  end.

Definition d_event : decoder (string * option Z * option Z * string) := λ j,
  get a from d_str_field "action" j in get i from d_pointer "issue" (d_int_field "number") j in
  get p from d_pointer "pull_request" (d_int_field "number") j in
  get r from d_field "repository" (d_str_field "full_name") EmptyString j in Some (a, i, p, r).

(** The issue is looked at before the pull request; an event about neither changes nothing. *)
Definition HandleWebhook (payload : blob) : result (list DocumentChange) conn_error :=
  match decode d_event payload with
  | None => Err (Failed "github: webhook decode")
  | Some (action, issue, pull, repo) =>
      match match issue with Some n => Some n | None => pull end with
      | None => Ok []
      | Some n => Ok [{| ch_Kind := if fold_eq action "deleted" then ChangeDeleted else ChangeUpserted;
                         ch_Ref := {| NamespaceID := repo; ID := FormatInt n; ETag := ""; UpdatedAt := 0 |} |}]
      end
  end.

Definition VerifyWebhookRequest (hmac_sha256 : bytes → bytes → bytes) (secret : bytes) (headers : list (string * list string)) (payload : bytes)
    : option webhook_error :=
  match secret with
  | [] => None
  | _ => verifyHMAC hmac_sha256 secret payload (FirstHeader headers "X-Hub-Signature-256") "sha256="
  end.
End GitHub.
End GitHub.

(** ** GitLab *)

Module GitLab.
Import Connector.

Definition defaultBaseURL : string := "https://gitlab.com/api/v4".

Record Creds := { AccessToken : string; SiteURL : string }.
Definition d_creds : decoder Creds := λ j,
  get t from d_str_field "access_token" j in get s from d_str_field "site_url" j in Some {| AccessToken := t; SiteURL := s |}.

Record connection := { tenantID : string; sourceID : string; accessToken : string; base : string }.

Definition Validate (cfg : ConnectorConfig) : result Creds conn_error :=
  match parse_creds d_creds cfg with
  | Err e => Err e
  | Ok c => if str_empty (AccessToken c) then Err (ErrInvalidConfig "access_token required") else Ok c
  end.

Section GitLab.
Context `{Server} (raw : blob → string) (baseURL : string).

(** The token goes into a header of its own. *)
Definition do_ (conn : connection) (path : string) : Net Response :=
  GET "gitlab" (if str_empty (base conn) then baseURL else base conn) (accessToken conn) path.

(** A site of its own replaces the default address only. *)
Definition site_of (c : Creds) : string :=
  let site := trim_slashes baseURL in
  if negb (str_empty (SiteURL c)) && str_eqb site defaultBaseURL then str_app (trim_slashes (SiteURL c)) "/api/v4" else site.

Definition Connect (cfg : ConnectorConfig) : Net connection :=
  let@ c := or_throw (Validate cfg) in
  let conn := {| tenantID := TenantID cfg; sourceID := SourceID cfg; accessToken := AccessToken c; base := site_of c |} in
  let@ resp := do_ conn "/user" in
  let@ _ := expect_200 "gitlab" ": auth status=" resp in
  eret conn.

Definition d_project : decoder Namespace := λ j,
  get i from d_int_field "id" j in get p from d_str_field "path_with_namespace" j in get n from d_str_field "name" j in
  Some {| ns_ID := FormatInt i; ns_Name := n; Kind := "project"; ns_Metadata := {[ "path"%string := p ]} |}.

Definition ListNamespaces (conn : connection) : Net (list Namespace) :=
  let@ resp := do_ conn "/projects?membership=true&per_page=100" in
  let@ _ := expect_200 "gitlab" ": list projects status=" resp in
  read_body "gitlab" "projects" (d_list d_project) resp.

Record docIterator := { it_conn : connection; it_ns : Namespace; pageNum : Z }.

Definition fetch_issues (it : docIterator) : Net (fetched docIterator) :=
  let n := (pageNum it + 1)%Z in
  let q := {[ "per_page"%string := "100"%string; "page"%string := FormatInt n; "scope"%string := "all"%string ]} in
  let@ resp := do_ (it_conn it) (str_app "/projects/" (str_app (ns_ID (it_ns it)) (str_app "/issues?" (Encode q)))) in
  let@ _ := expect_ok "gitlab" ": list issues status=" resp in
  let@ es := read_body "gitlab" "issues" (d_list (Issue.d_numbered "iid")) resp in
  eret (Issue.page_of (ns_ID (it_ns it)) es (length es <? 100)%nat {| it_conn := it_conn it; it_ns := it_ns it; pageNum := n |}).

#[export] Instance issues : PageSource docIterator.
Proof.
  refine {| fetchPage := fetch_issues |}. intros s w f w' Hf. unfold fetch_issues in Hf. net_inv Hf.
  injection Hf as <- <-. apply Issue.page_of_ret.
Defined.

Definition ListDocuments (conn : connection) (ns : Namespace) : iter docIterator := fresh {| it_conn := conn; it_ns := ns; pageNum := 0 |}.

(** The methods of its iterator. *)
Definition Next := @Connector.Next docIterator issues.
Definition Doc := @Connector.Doc docIterator.
Definition Err_ := @Connector.Err_ docIterator.

Definition FetchDocument (conn : connection) (ref : DocumentRef) : Net Document :=
  let@ resp := do_ conn (str_app "/projects/" (str_app (NamespaceID ref) (str_app "/issues/" (ID ref)))) in
  let@ _ := expect_200 "gitlab" ": get issue status=" resp in
  let b := RespBody resp in
  let text (name : string) := lenient (d_str_field name) EmptyString b in
  eret (Issue.document (raw b) ref (text "title"%string) (lenient (d_field "author" (d_str_field "username") EmptyString) EmptyString b)
          (GoTime.parse_or_zero (text "created_at"%string)) (GoTime.parse_or_zero (text "updated_at"%string))
          {[ "project_id"%string := NamespaceID ref; "issue_iid"%string := ID ref ]}).

Definition delta_ask (conn : connection) (ns : Namespace) (t : Time) : Net (list DocumentChange) :=
  let q := {[ "updated_after"%string := GoTime.Format t; "per_page"%string := "100"%string; "scope"%string := "all"%string ]} in
  let@ resp := do_ conn (str_app "/projects/" (str_app (ns_ID ns) (str_app "/issues?" (Encode q)))) in
  let@ _ := expect_200 "gitlab" ": delta status=" resp in
  let@ es := read_body "gitlab" "delta" (d_list (λ j, get e from Issue.d_numbered "iid" j in get _ from d_str_field "state" j in Some e)) resp in
  eret ((λ e, upsert (ns_ID ns) e.1 "" e.2) <$> es).

Definition DeltaSync (now : Time) (conn : connection) (ns : Namespace) (cursor : string) : Net (list DocumentChange * string) :=
  since_delta "gitlab: invalid cursor" (delta_ask conn ns) now cursor.

Definition d_event : decoder (option (Z * string) * Z) := λ j,
  get _ from d_str_field "object_kind" j in
  get o from GitHub.d_pointer "object_attributes" (λ j, get i from d_int_field "iid" j in get a from d_str_field "action" j in Some (i, a)) j in
  get p from d_field "project" (d_int_field "id") 0%Z j in Some (o, p).

Definition HandleWebhook (payload : blob) : result (list DocumentChange) conn_error :=
  match decode d_event payload with
  | None => Err (Failed "gitlab: webhook decode")
  | Some (None, _) => Ok []
  | Some (Some (iid, action), project) =>
      if (iid =? 0)%Z then Ok []
      else Ok [{| ch_Kind := if fold_eq action "destroyed" then ChangeDeleted else ChangeUpserted;
                  ch_Ref := {| NamespaceID := FormatInt project; ID := FormatInt iid; ETag := ""; UpdatedAt := 0 |} |}]
  end.

Definition VerifyWebhookRequest (secret : string) (headers : list (string * list string)) : option webhook_error :=
  if str_empty secret then None else VerifyTokenEqual secret (FirstHeader headers "X-Gitlab-Token").
End GitLab.
End GitLab.

(** ** Jira *)

Module Jira.
Import Connector.

Record Creds := { Email : string; APIToken : string; SiteURL : string }.
Definition d_creds : decoder Creds := λ j,
  get e from d_str_field "email" j in get t from d_str_field "api_token" j in get s from d_str_field "site_url" j in
  Some {| Email := e; APIToken := t; SiteURL := s |}.

Record connection := { tenantID : string; sourceID : string; authHeader : string; siteURL : string }.

(** Jira's times; the zero time when they cannot be read. *)
Definition jira_time (s : string) : Time := default 0%Z (GoTime.parse_as GoTime.jira_layout (to_bytes s)).

Section Jira.
Context `{Server} (raw : blob → string) (baseURL : string).

Definition Validate (cfg : ConnectorConfig) : result Creds conn_error :=
  match parse_creds d_creds cfg with
  | Err e => Err e
  | Ok c =>
      if str_empty (Email c) || str_empty (APIToken c) then Err (ErrInvalidConfig "email and api_token required")
      else if str_empty (SiteURL c) && str_empty baseURL then Err (ErrInvalidConfig "site_url required")
      else Ok c
  end.

Definition do_ (conn : connection) (path : string) : Net Response := GET "jira" (siteURL conn) (authHeader conn) path.

Definition site_of (c : Creds) : string :=
  let site := trim_slashes baseURL in if str_empty site then trim_slashes (SiteURL c) else site.

Definition Connect (cfg : ConnectorConfig) : Net connection :=
  let@ c := or_throw (Validate cfg) in
  let conn := {| tenantID := TenantID cfg; sourceID := SourceID cfg;
                 authHeader := str_app "Basic " (of_bytes (base64 (to_bytes (str_app (Email c) (str_app ":" (APIToken c))))));
                 siteURL := site_of c |} in
  let@ resp := do_ conn "/rest/api/3/myself" in
  let@ _ := expect_200 "jira" ": auth status=" resp in
  eret conn.

Definition d_project : decoder Namespace := λ j,
  get i from d_str_field "id" j in get k from d_str_field "key" j in get n from d_str_field "name" j in
  Some {| ns_ID := k; ns_Name := n; Kind := "project"; ns_Metadata := {[ "project_id"%string := i ]} |}.

Definition ListNamespaces (conn : connection) : Net (list Namespace) :=
  let@ resp := do_ conn "/rest/api/3/project" in
  let@ _ := expect_200 "jira" ": list projects status=" resp in
  read_body "jira" "projects" (d_list d_project) resp.

Record docIterator := { it_conn : connection; it_ns : Namespace; startAt : Z }.

Definition d_issue : decoder (string * Time) := λ j,
  get k from d_str_field "key" j in get u from d_field "fields" (d_str_field "updated") EmptyString j in Some (k, jira_time u).
Definition d_search : decoder (Z * list (string * Time)) := λ j,
  get _ from d_int_field "startAt" j in get _ from d_int_field "maxResults" j in get t from d_int_field "total" j in
  get es from d_list_field "issues" d_issue j in Some (t, es).

(** The listing goes on until as many issues have been seen as the service counts. *)
Definition fetch_issues (it : docIterator) : Net (fetched docIterator) :=
  let q := {[ "jql"%string := str_app "project = " (str_app (ns_ID (it_ns it)) " ORDER BY updated DESC"); "startAt"%string := FormatInt (startAt it);
              "maxResults"%string := "100"%string; "fields"%string := "updated,summary,issuetype,status"%string ]} in
  let@ resp := do_ (it_conn it) (str_app "/rest/api/3/search?" (Encode q)) in
  let@ _ := expect_ok "jira" ": search status=" resp in
  let@ body := read_body "jira" "" d_search resp in
  let seen := (startAt it + Z.of_nat (length body.2))%Z in
  eret (Issue.page_of (ns_ID (it_ns it)) body.2 (body.1 <=? seen)%Z {| it_conn := it_conn it; it_ns := it_ns it; startAt := seen |}).

#[export] Instance issues : PageSource docIterator.
Proof.
  refine {| fetchPage := fetch_issues |}. intros s w f w' Hf. unfold fetch_issues in Hf. net_inv Hf.
  injection Hf as <- <-. apply Issue.page_of_ret.
Defined.

Definition ListDocuments (conn : connection) (ns : Namespace) : iter docIterator := fresh {| it_conn := conn; it_ns := ns; startAt := 0 |}.

(** The methods of its iterator. *)
Definition Next := @Connector.Next docIterator issues.
Definition Doc := @Connector.Doc docIterator.
Definition Err_ := @Connector.Err_ docIterator.

Definition FetchDocument (conn : connection) (ref : DocumentRef) : Net Document :=
  let@ resp := do_ conn (str_app "/rest/api/3/issue/" (PathEscape (ID ref))) in
  let@ _ := expect_200 "jira" ": get issue status=" resp in
  let b := RespBody resp in
  let field (name : string) := lenient (d_field "fields" (d_str_field name) EmptyString) EmptyString b in
  eret (Issue.document (raw b) ref (field "summary"%string) "" (jira_time (field "created"%string)) (jira_time (field "updated"%string))
          {[ "issue_key"%string := ID ref; "project"%string := NamespaceID ref ]}).

(** The query names the cursor to the minute; what is not behind it is dropped here. *)
Definition delta_ask (conn : connection) (ns : Namespace) (t : Time) : Net (list DocumentChange) :=
  let day := of_bytes (GoUrl.quote_char :: to_bytes (GoTime.Format_minutes t) ++ [GoUrl.quote_char]) in
  let jql := str_app "project = " (str_app (ns_ID ns) (str_app " AND updated >= " (str_app day " ORDER BY updated DESC"))) in
  let q := {[ "jql"%string := jql; "fields"%string := "updated,status"%string; "maxResults"%string := "100"%string ]} in
  let@ resp := do_ conn (str_app "/rest/api/3/search?" (Encode q)) in
  let@ _ := expect_200 "jira" ": delta status=" resp in
  let@ es := read_body "jira" "delta" (d_list_field "issues" (λ j,
    get e from d_issue j in
    get _ from d_field "fields" (d_field "status" (d_str_field "name") EmptyString) EmptyString j in Some e)) resp in
  eret ((λ e, upsert (ns_ID ns) e.1 "" e.2) <$> es).

Definition DeltaSync (now : Time) (conn : connection) (ns : Namespace) (cursor : string) : Net (list DocumentChange * string) :=
  since_delta "jira: invalid cursor" (delta_ask conn ns) now cursor.

Definition d_event : decoder (string * string) := λ j,
  get e from d_str_field "webhookEvent" j in get k from d_field "issue" (d_str_field "key") EmptyString j in Some (e, k).

(** The change carries the key of the issue only, without its project. *)
Definition HandleWebhook (payload : blob) : result (list DocumentChange) conn_error :=
  match decode d_event payload with
  | None => Err (Failed "jira: webhook decode")
  | Some (event, key) =>
      if str_empty key then Ok []
      else Ok [{| ch_Kind := if lower_contains event "deleted" then ChangeDeleted else ChangeUpserted;
                  ch_Ref := {| NamespaceID := ""; ID := key; ETag := ""; UpdatedAt := 0 |} |}]
  end.

(** The signature is looked for under two names. *)
Definition VerifyWebhookRequest (hmac_sha256 : bytes → bytes → bytes) (secret : bytes) (headers : list (string * list string)) (payload : bytes)
    : option webhook_error :=
  match secret with
  | [] => None
  | _ =>
      let first := FirstHeader headers "X-Atlassian-Webhook-Signature" in
      verifyHMAC hmac_sha256 secret payload (if str_empty first then FirstHeader headers "X-Hub-Signature-256" else first) "sha256="
  end.
End Jira.
End Jira.

(** ** Following them *)

Module CodeHostSyncers.
Import Connector.

Section Syncers.
Context `{Server}.

#[export] Instance github_syncer (baseURL : string) : DeltaSyncer GitHub.connection := since_syncer (GitHub.DeltaSync baseURL) ltac:(intros; by eapply since_delta_moves)
  ltac:(intros; by eapply since_delta_bootstrap).
#[export] Instance jira_syncer : DeltaSyncer Jira.connection := since_syncer Jira.DeltaSync ltac:(intros; by eapply since_delta_moves)
  ltac:(intros; by eapply since_delta_bootstrap).
#[export] Instance gitlab_syncer (baseURL : string) : DeltaSyncer GitLab.connection := since_syncer (GitLab.DeltaSync baseURL) ltac:(intros; by eapply since_delta_moves)
  ltac:(intros; by eapply since_delta_bootstrap).
End Syncers.
End CodeHostSyncers.

(** ** Samples *)

Module CodeHostSamples.
Import Connector.

Definition start : Env (list Request) := {| store := []; calls_made := 0 |}.
Definition gh_issue (n : Z) (t : string) : json := JObj [("number"%string, JInt n); ("updated_at"%string, JStr t)].

(** A repository with three changes, of which a page holds two. *)
Definition busy_repo : Server := λ log,
  let url := match last log with Some r => URL r | None => EmptyString end in
  Some {| StatusCode := 200; Link := ""; RetryAfter := "";
          RespBody := Parsed (JArr (if Contains url "page=2" then [gh_issue 3 "2024-01-02T00:00:00Z"]
                                    else if Contains url "since=2024-01-01" then [gh_issue 1 "2024-01-04T00:00:00Z"; gh_issue 2 "2024-01-03T00:00:00Z"]
                                    else [])) |}.
Definition gh : GitHub.connection := {| GitHub.tenantID := "t"; GitHub.sourceID := "s"; GitHub.accessToken := "k"; GitHub.owner := "o" |}.
Definition gh_repo : Namespace := {| ns_ID := "o/r"; ns_Name := "r"; Kind := "repo"; ns_Metadata := ∅ |}.

(** The second page is never asked for, but the cursor moves past it: two syncs in a row
    report the first page only, and the third issue is behind the cursor for good. *)
Example second_page_is_lost :
  match follow (λ now, @delta _ (@CodeHostSyncers.github_syncer busy_repo "https://api.github.com") now 1 gh gh_repo) [0; 0]%Z "2024-01-01T00:00:00Z" start with
  | (Ok (Some (changes, cursor)), w) => (ID ∘ ch_Ref <$> changes, cursor, length (store w))
  | _ => ([], EmptyString, 0)
  end = (["1"; "2"]%string, "2024-01-04T00:00:00Z"%string, 2).
Proof. vm_compute. reflexivity. Qed.

(** GitLab prints milliseconds, the cursor does not hold them: a change is reported again
    by every sync that follows, until a newer one moves the cursor a second on. *)
Definition ms_issue : Server := λ _,
  Some {| StatusCode := 200; Link := ""; RetryAfter := "";
          RespBody := Parsed (JArr [JObj [("iid"%string, JInt 5); ("updated_at"%string, JStr "2024-01-02T00:00:00.500Z")]]) |}.
Definition gl : GitLab.connection := {| GitLab.tenantID := "t"; GitLab.sourceID := "s"; GitLab.accessToken := "k"; GitLab.base := "https://gitlab.com/api/v4" |}.
Example change_is_reported_again :
  match follow (λ now, @delta _ (@CodeHostSyncers.gitlab_syncer ms_issue "") now 1 gl gh_repo) [0; 0; 0]%Z "2024-01-01T00:00:00Z" start with
  | (Ok (Some (changes, _)), _) => ID ∘ ch_Ref <$> changes
  | _ => []
  end = ["5"; "5"; "5"]%string.
Proof. vm_compute. reflexivity. Qed.

(** Too many requests: the listing says so, the delta does not. *)
Definition throttled : Server := λ _, Some {| StatusCode := 429; Link := ""; RetryAfter := "60"; RespBody := NoBytes |}.
Example rate_limit_of_a_listing :
  (@GitHub.fetch_issues throttled "" {| GitHub.it_conn := gh; GitHub.it_ns := gh_repo; GitHub.pageNum := 0 |} start).1
  = Err (ErrRateLimited "github: list issues status=429").
Proof. vm_compute. reflexivity. Qed.
Example rate_limit_of_a_delta :
  (@GitHub.DeltaSync throttled "" 0 gh gh_repo "2024-01-01T00:00:00Z" start).1 = Err (Failed "github: delta status=429").
Proof. vm_compute. reflexivity. Qed.

Example deleted_issue_event :
  GitHub.HandleWebhook (Parsed (JObj [("action"%string, JStr "deleted"); ("issue"%string, JObj [("number"%string, JInt 7)]);
                                      ("repository"%string, JObj [("full_name"%string, JStr "o/r")])]))
  = Ok [{| ch_Kind := ChangeDeleted; ch_Ref := {| NamespaceID := "o/r"; ID := "7"; ETag := ""; UpdatedAt := 0 |} |}].
Proof. vm_compute. reflexivity. Qed.

Example jira_time_sample : Jira.jira_time "2024-05-01T10:00:00.250+0200" = Calendar.Date 2024 5 1 8 0 0 250000000.
Proof. vm_compute. reflexivity. Qed.
End CodeHostSamples.
