(* ===== verification/Drives.v ===== *)
(** * File stores: Box, Dropbox and OneDrive (connector/box, connector/dropbox, connector/onedrive)

    Their pages hold folders too, which the listing leaves out, and their deltas follow a
    position that only the service understands. *)

From Stdlib Require Import Ascii.
From S2P Require Import Prelude GoFloat GoString GoText Calendar GoTime Effects AuditIntegrity Json ConnectorBase.

Module Token.
Import Connector.

(** The three are configured with an access token. *)
Record connection := { tenantID : string; sourceID : string; accessToken : string }.

Definition Validate (cfg : ConnectorConfig) : result string conn_error :=
  match parse_creds (d_str_field "access_token") cfg with
  | Err e => Err e
  | Ok t => if str_empty t then Err (ErrInvalidConfig "access_token required") else Ok t
  end.

Definition connect (cfg : ConnectorConfig) (t : string) : connection :=
  {| tenantID := TenantID cfg; sourceID := SourceID cfg; accessToken := t |}.

(** A path that is an address already is used as it is. *)
Definition target (base path : string) : string :=
  if has_prefix path "http://" || has_prefix path "https://" then path else str_app (trim_slashes base) path.

(** The documents of a page, which may be fewer than its entries; the last page is given
    up when there are none. *)
Definition page_of {Src} (refs : list DocumentRef) (final : bool) (next : Src) : fetched Src :=
  {| f_page := refs; f_src := next; f_done := final; f_ret := negb (final && match refs with [] => true | _ => false end) |}.

Lemma page_kept {Src} refs final (next : Src) : f_ret (page_of refs final next) = false → f_page (page_of refs final next) = [].
Proof. cbn. destruct final; [|done]. by destruct refs. Qed.

(** A file is fetched with two requests, for its description and for its content. *)
Record meta := { m_name : string; m_size : Z; m_mime : string; m_created : string; m_modified : string }.

Definition document (ref : DocumentRef) (m : meta) (content : string) (info : gmap string string) : Document :=
  {| Ref := ref; MIMEType := m_mime m; Title := m_name m; Author := ""; Size := m_size m;
     CreatedAt := GoTime.parse_or_zero (m_created m); d_UpdatedAt := GoTime.parse_or_zero (m_modified m); Metadata := info; Content := content |}.
End Token.

(** ** Box *)

Module Box.
Import Connector Token.

Definition defaultBaseURL : string := "https://api.box.com/2.0".

Section Box.
Context `{Server} (raw : blob → string) (baseURL : string).

Definition do_ (conn : connection) (path : string) : Net Response :=
  http "box" {| Method := "GET"; URL := target baseURL path; Authorization := str_app "Bearer " (accessToken conn); ReqBody := None |}.

Definition Connect (cfg : ConnectorConfig) : Net connection :=
  let@ t := or_throw (Validate cfg) in
  let conn := connect cfg t in
  let@ resp := do_ conn "/users/me" in
  let@ _ := expect_200 "box" ": auth status=" resp in
  eret conn.

Definition ListNamespaces : list Namespace := [{| ns_ID := "0"; ns_Name := "All Files"; Kind := "folder"; ns_Metadata := ∅ |}].

Record docIterator := { it_conn : connection; it_ns : string; offset : Z }.

Record entry := { e_type : string; e_id : string; e_etag : string; e_modified : string }.
Definition d_entry : decoder entry := λ j,
  get t from d_str_field "type" j in get i from d_str_field "id" j in get _ from d_str_field "name" j in
  get e from d_str_field "etag" j in get m from d_str_field "modified_at" j in
  Some {| e_type := t; e_id := i; e_etag := e; e_modified := m |}.
Definition d_page : decoder (Z * list entry) := λ j,
  get t from d_int_field "total_count" j in get es from d_list_field "entries" d_entry j in Some (t, es).

Definition file_refs (ns : string) (es : list entry) : list DocumentRef :=
  (λ e, {| NamespaceID := ns; ID := e_id e; ETag := e_etag e; UpdatedAt := GoTime.parse_or_zero (e_modified e) |})
    <$> List.filter (λ e, str_eqb (e_type e) "file") es.

Definition fetch_items (it : docIterator) : Net (fetched docIterator) :=
  let q := {[ "limit"%string := "100"%string; "offset"%string := FormatInt (offset it);
              "fields"%string := "id,name,etag,modified_at,size,type"%string ]} in
  let@ resp := do_ (it_conn it) (str_app "/folders/" (str_app (PathEscape (it_ns it)) (str_app "/items?" (Encode q)))) in
  let@ _ := expect_ok "box" ": list status=" resp in
  let@ body := read_body "box" "" d_page resp in
  let seen := (offset it + Z.of_nat (length body.2))%Z in
  eret (page_of (file_refs (it_ns it) body.2) (body.1 <=? seen)%Z {| it_conn := it_conn it; it_ns := it_ns it; offset := seen |}).

#[export] Instance items : PageSource docIterator.
Proof.
  refine {| fetchPage := fetch_items |}. intros s w f w' Hf. unfold fetch_items in Hf. net_inv Hf. injection Hf as <- <-. apply page_kept.
Defined.

Definition ListDocuments (conn : connection) (ns : Namespace) : iter docIterator :=
  fresh {| it_conn := conn; it_ns := if str_empty (ns_ID ns) then "0"%string else ns_ID ns; offset := 0 |}.

(** The methods of its iterator. *)
Definition Next := @Connector.Next docIterator items.
Definition Doc := @Connector.Doc docIterator.
Definition Err_ := @Connector.Err_ docIterator.

Definition d_meta : decoder meta := λ j,
  get n from d_str_field "name" j in get s from d_int_field "size" j in get c from d_str_field "created_at" j in
  get m from d_str_field "modified_at" j in
  Some {| m_name := n; m_size := s; m_mime := ""; m_created := c; m_modified := m |}.

Definition FetchDocument (conn : connection) (ref : DocumentRef) : Net Document :=
  let file := str_app "/files/" (PathEscape (ID ref)) in
  let@ metaResp := do_ conn file in
  let@ _ := expect_200 "box" ": get file status=" metaResp in
  let@ m := read_body "box" "meta" d_meta metaResp in
  let@ bodyResp := do_ conn (str_app file "/content") in
  let@ _ := expect_200 "box" ": download status=" bodyResp in
  eret (document ref m (raw (RespBody bodyResp)) {[ "file_id"%string := ID ref ]}).

(** *** Changes, behind a stream position *)

Definition d_event : decoder (string * string * string) := λ j,
  get e from d_str_field "event_type" j in get t from d_field "source" (d_str_field "type") EmptyString j in
  get i from d_field "source" (d_str_field "id") EmptyString j in Some (e, t, i).
Definition d_events : decoder (list (string * string * string) * Z) := λ j,
  get es from d_list_field "entries" d_event j in get n from d_int_field "next_stream_position" j in Some (es, n).

Definition event_change (e : string * string * string) : option DocumentChange :=
  let '(event, type, id) := e in
  if str_eqb type "file" then
    Some {| ch_Kind := if lower_contains event "delete" || lower_contains event "trash" then ChangeDeleted else ChangeUpserted;
            ch_Ref := {| NamespaceID := ""; ID := id; ETag := ""; UpdatedAt := 0 |} |}
  else None.

(** The first call asks for the present position; a position of zero leaves the cursor. *)
Definition DeltaSync (conn : connection) (cursor : string) : Net (list DocumentChange * string) :=
  let q := {[ "stream_position"%string := if str_empty cursor then "now"%string else cursor ]} in
  let@ resp := do_ conn (str_app "/events?" (Encode q)) in
  let@ _ := expect_200 "box" ": events status=" resp in
  let@ body := read_body "box" "events" d_events resp in
  eret (omap event_change body.1, if (body.2 =? 0)%Z && negb (str_empty cursor) then cursor else FormatInt body.2).
End Box.
End Box.

(** ** Dropbox *)

Module Dropbox.
Import Connector Token.

Definition defaultBaseURL : string := "https://api.dropboxapi.com/2".
Definition contentBaseURL : string := "https://content.dropboxapi.com/2".

Section Dropbox.
(** The header of a download that describes the file, parsed. *)
Context `{Server} (raw : blob → string) (api_result : Response → blob) (baseURL contentURL : string).

Definition post (conn : connection) (path : string) (body : option json) : Net Response :=
  http "dropbox" {| Method := "POST"; URL := str_app baseURL path; Authorization := str_app "Bearer " (accessToken conn); ReqBody := body |}.

Definition Connect (cfg : ConnectorConfig) : Net connection :=
  let@ t := or_throw (Validate cfg) in
  let conn := connect cfg t in
  let@ resp := post conn "/users/get_current_account" None in
  let@ _ := expect_200 "dropbox" ": auth status=" resp in
  eret conn.

Definition ListNamespaces : list Namespace := [{| ns_ID := ""; ns_Name := "Root"; Kind := "folder"; ns_Metadata := ∅ |}].

Record docIterator := { it_conn : connection; it_cursor : string }.

Definition whole_tree : json := JObj [("path"%string, JStr ""); ("recursive"%string, JBool true)].
Definition from_cursor (cursor : string) : json := JObj [("cursor"%string, JStr cursor)].

Record entry := { tag : string; e_id : string; rev : string; server_modified : string }.
Definition d_entry : decoder entry := λ j,
  get t from d_str_field ".tag" j in get i from d_str_field "id" j in get _ from d_str_field "name" j in
  get r from d_str_field "rev" j in get _ from d_str_field "content_hash" j in get m from d_str_field "server_modified" j in
  Some {| tag := t; e_id := i; rev := r; server_modified := m |}.
Definition d_page : decoder (list entry * string * bool) := λ j,
  get es from d_list_field "entries" d_entry j in get c from d_str_field "cursor" j in
  get m from d_field "has_more" d_bool false j in Some (es, c, m).

Definition file_refs (es : list entry) : list DocumentRef :=
  (λ e, {| NamespaceID := ""; ID := e_id e; ETag := rev e; UpdatedAt := GoTime.parse_or_zero (server_modified e) |})
    <$> List.filter (λ e, str_eqb (tag e) "file") es.

Definition fetch_entries (it : docIterator) : Net (fetched docIterator) :=
  let@ resp := if str_empty (it_cursor it) then post (it_conn it) "/files/list_folder" (Some whole_tree)
               else post (it_conn it) "/files/list_folder/continue" (Some (from_cursor (it_cursor it))) in
  let@ _ := expect_ok "dropbox" ": list status=" resp in
  let@ body := read_body "dropbox" "" d_page resp in
  let '(es, cursor, more) := body in
  eret (page_of (file_refs es) (negb more) {| it_conn := it_conn it; it_cursor := cursor |}).

#[export] Instance entries : PageSource docIterator.
Proof.
  refine {| fetchPage := fetch_entries |}. intros s w f w' Hf. unfold fetch_entries in Hf. net_inv Hf. destruct a1 as [[es c] m].
  injection Hf as <- <-. apply page_kept.
Defined.

Definition ListDocuments (conn : connection) : iter docIterator := fresh {| it_conn := conn; it_cursor := "" |}.

(** The methods of its iterator. *)
Definition Next := @Connector.Next docIterator entries.
Definition Doc := @Connector.Doc docIterator.
Definition Err_ := @Connector.Err_ docIterator.

(** The description comes in a header, of which what cannot be read is left out. *)
Definition FetchDocument (conn : connection) (ref : DocumentRef) : Net Document :=
  let@ resp := http "dropbox" {| Method := "POST"; URL := str_app contentURL "/files/download";
                                 Authorization := str_app "Bearer " (accessToken conn); ReqBody := None |} in
  let@ _ := expect_200 "dropbox" ": download status=" resp in
  let h := api_result resp in
  let text (name : string) := lenient (d_str_field name) EmptyString h in
  eret (document ref {| m_name := text "name"%string; m_size := lenient (d_int_field "size") 0%Z h; m_mime := "";
                        m_created := text "client_modified"%string; m_modified := text "server_modified"%string |}
          (raw (RespBody resp)) {[ "path"%string := ID ref ]}).

Definition entry_change (e : string * string) : DocumentChange :=
  {| ch_Kind := if str_eqb e.1 "deleted" then ChangeDeleted else ChangeUpserted;
     ch_Ref := {| NamespaceID := ""; ID := e.2; ETag := ""; UpdatedAt := 0 |} |}.

(** The first call fetches the latest cursor; each further one a page of changes and the
    cursor behind it. *)
Definition DeltaSync (conn : connection) (cursor : string) : Net (list DocumentChange * string) :=
  if str_empty cursor then
    let@ resp := post conn "/files/list_folder/get_latest_cursor" (Some whole_tree) in
    let@ _ := expect_200 "dropbox" ": latest_cursor status=" resp in
    let@ c := read_body "dropbox" "cursor" (d_str_field "cursor") resp in
    eret ([], c)
  else
    let@ resp := post conn "/files/list_folder/continue" (Some (from_cursor cursor)) in
    let@ _ := expect_200 "dropbox" ": continue status=" resp in
    let@ body := read_body "dropbox" "delta" (λ j,
      get es from d_list_field "entries" (λ j, get t from d_str_field ".tag" j in get i from d_str_field "id" j in Some (t, i)) j in
      get c from d_str_field "cursor" j in Some (es, c)) resp in
    eret (entry_change <$> body.1, if str_empty body.2 then cursor else body.2).
End Dropbox.
End Dropbox.

(** ** OneDrive *)

Module OneDrive.
Import Connector Token.

Definition defaultBaseURL : string := "https://graph.microsoft.com/v1.0".

Section OneDrive.
Context `{Server} (raw : blob → string) (baseURL : string).

Definition do_ (conn : connection) (path : string) : Net Response :=
  http "onedrive" {| Method := "GET"; URL := target baseURL path; Authorization := str_app "Bearer " (accessToken conn); ReqBody := None |}.

Definition Connect (cfg : ConnectorConfig) : Net connection :=
  let@ t := or_throw (Validate cfg) in
  let conn := connect cfg t in
  let@ resp := do_ conn "/me" in
  let@ _ := expect_200 "onedrive" ": auth status=" resp in
  eret conn.

Definition ListNamespaces : list Namespace := [{| ns_ID := "me"; ns_Name := "OneDrive"; Kind := "personal_drive"; ns_Metadata := ∅ |}].

Definition without_base (link : string) : string := of_bytes (trim_prefix (to_bytes baseURL) (to_bytes link)).

Record docIterator := { it_conn : connection; it_cursor : string }.

Definition d_item : decoder DocumentRef := λ j,
  get i from d_str_field "id" j in get _ from d_str_field "name" j in get e from d_str_field "eTag" j in
  get m from d_str_field "lastModifiedDateTime" j in
  Some {| NamespaceID := "me"; ID := i; ETag := e; UpdatedAt := GoTime.parse_or_zero m |}.

(** The children of the root, folders among them. *)
Definition fetch_children (it : docIterator) : Net (fetched docIterator) :=
  let@ resp := do_ (it_conn it) (if str_empty (it_cursor it) then "/me/drive/root/children"%string else it_cursor it) in
  let@ _ := expect_ok "onedrive" ": list status=" resp in
  let@ body := read_body "onedrive" "" (λ j,
    get v from d_list_field "value" d_item j in get n from d_str_field "@odata.nextLink" j in Some (v, n)) resp in
  eret (page_of body.1 (str_empty body.2)
          {| it_conn := it_conn it; it_cursor := if str_empty body.2 then it_cursor it else without_base body.2 |}).

#[export] Instance children : PageSource docIterator.
Proof.
  refine {| fetchPage := fetch_children |}. intros s w f w' Hf. unfold fetch_children in Hf. net_inv Hf. injection Hf as <- <-. apply page_kept.
Defined.

Definition ListDocuments (conn : connection) : iter docIterator := fresh {| it_conn := conn; it_cursor := "" |}.

(** The methods of its iterator. *)
Definition Next := @Connector.Next docIterator children.
Definition Doc := @Connector.Doc docIterator.
Definition Err_ := @Connector.Err_ docIterator.

Definition d_meta : decoder meta := λ j,
  get n from d_str_field "name" j in get s from d_int_field "size" j in
  get f from d_field "file" (d_str_field "mimeType") EmptyString j in
  get m from d_str_field "lastModifiedDateTime" j in get c from d_str_field "createdDateTime" j in
  Some {| m_name := n; m_size := s; m_mime := f; m_created := c; m_modified := m |}.

Definition FetchDocument (conn : connection) (ref : DocumentRef) : Net Document :=
  let item := str_app "/me/drive/items/" (PathEscape (ID ref)) in
  let@ metaResp := do_ conn item in
  let@ _ := expect_200 "onedrive" ": get item status=" metaResp in
  let@ m := read_body "onedrive" "meta" d_meta metaResp in
  let@ bodyResp := do_ conn (str_app item "/content") in
  let@ _ := expect_200 "onedrive" ": download status=" bodyResp in
  eret (document ref m (raw (RespBody bodyResp)) {[ "item_id"%string := ID ref ]}).

(** *** Changes: the cursor is the link the service gave *)

(** Any object under [deleted] marks a deletion. *)
Definition d_deleted : decoder bool := λ j,
  match j with
  | JObj l => match member "deleted" l with None | Some JNull => Some false | Some (JObj _) => Some true | _ => None end
  | JNull => Some false
  | _ => None
  end.

Definition d_change : decoder DocumentChange := λ j,
  get i from d_str_field "id" j in get d from d_deleted j in get m from d_str_field "lastModifiedDateTime" j in
  Some {| ch_Kind := if d then ChangeDeleted else ChangeUpserted;
          ch_Ref := {| NamespaceID := "me"; ID := i; ETag := ""; UpdatedAt := GoTime.parse_or_zero m |} |}.

(** The first link that is not empty. *)
Definition next_cursor (delta next cursor : string) : string :=
  if str_empty delta then (if str_empty next then cursor else next) else delta.

Definition DeltaSync (conn : connection) (cursor : string) : Net (list DocumentChange * string) :=
  let@ resp := do_ conn (if str_empty cursor then "/me/drive/root/delta"%string else without_base cursor) in
  let@ _ := expect_200 "onedrive" ": delta status=" resp in
  let@ body := read_body "onedrive" "delta" (λ j,
    get v from d_list_field "value" d_change j in get d from d_str_field "@odata.deltaLink" j in
    get n from d_str_field "@odata.nextLink" j in Some (v, d, n)) resp in
  let '(changes, deltaLink, nextLink) := body in
  eret (changes, next_cursor deltaLink nextLink cursor).
End OneDrive.
End OneDrive.

(** ** Positions *)

Module Positions.
Import Connector Token.

Section Positions.
Context `{Server} (baseURL : string).

(** A sync that began at a position ends at one: whatever the service leaves out of its
    answer, the next sync is not mistaken for a first one. *)
Theorem positions_are_kept conn cursor :
  cursor ≠ EmptyString →
  (∀ w changes cursor' w', Box.DeltaSync baseURL conn cursor w = (Ok (changes, cursor'), w') → cursor' ≠ EmptyString) ∧
  (∀ w changes cursor' w', Dropbox.DeltaSync baseURL conn cursor w = (Ok (changes, cursor'), w') → cursor' ≠ EmptyString) ∧
  (∀ w changes cursor' w', OneDrive.DeltaSync baseURL conn cursor w = (Ok (changes, cursor'), w') → cursor' ≠ EmptyString).
Proof.
  intros Hne. split_and!; intros w changes cursor' w' Hd.
  - unfold Box.DeltaSync in Hd. net_inv Hd. injection Hd as _ <- _.
    destruct ((a1.2 =? 0)%Z && negb (str_empty cursor)); [done|apply FormatInt_nonempty].
  - unfold Dropbox.DeltaSync in Hd. rewrite (proj2 (str_empty_false cursor) Hne) in Hd. net_inv Hd. injection Hd as _ <- _.
    destruct (str_empty a1.2) eqn:E; [done|by apply str_empty_false].
  - unfold OneDrive.DeltaSync in Hd. net_inv Hd. destruct a1 as [[ch d] n]. injection Hd as _ <- _. unfold OneDrive.next_cursor.
    destruct (str_empty d) eqn:Ed; [|by apply str_empty_false]. destruct (str_empty n) eqn:En; [done|by apply str_empty_false].
Qed.
End Positions.
End Positions.

(** ** Samples *)

Module DriveSamples.
Import Connector Token.

Definition start : Env (list Request) := {| store := []; calls_made := 0 |}.
Definition ok (j : json) : option Response := Some {| StatusCode := 200; Link := ""; RetryAfter := ""; RespBody := Parsed j |}.
Definition alice : connection := {| tenantID := "t"; sourceID := "s"; accessToken := "k" |}.
Definition root : Namespace := {| ns_ID := "0"; ns_Name := "All Files"; Kind := "folder"; ns_Metadata := ∅ |}.

Definition item (type id : string) : json := JObj [("type"%string, JStr type); ("id"%string, JStr id)].
(** A first page of a hundred folders, and a file behind them. *)
Definition folders_first : Server := λ log,
  match log with
  | [_] => ok (JObj [("total_count"%string, JInt 101); ("entries"%string, JArr (replicate 100 (item "folder" "d")))])
  | _ => ok (JObj [("total_count"%string, JInt 101); ("entries"%string, JArr [item "file" "f"])])
  end.

(** The listing ends at the page without files: no document, and no error either. *)
Example file_behind_folders_is_lost :
  match drain (@Next _ (@Box.items folders_first Box.defaultBaseURL)) 9 (Box.ListDocuments alice root) start with
  | Some (docs, e, w) => Some (docs, e, length (store w))
  | None => None
  end = Some ([], None, 1).
Proof. vm_compute. reflexivity. Qed.

(** The first sync of OneDrive reports what is already there. *)
Definition one_item : Server := λ _, ok (JObj [("value"%string, JArr [JObj [("id"%string, JStr "i1")]]); ("@odata.deltaLink"%string, JStr "L")]).
Example onedrive_backfills :
  match (@OneDrive.DeltaSync one_item OneDrive.defaultBaseURL alice "" start).1 with
  | Ok (changes, cursor) => (ID ∘ ch_Ref <$> changes, cursor)
  | Err _ => ([], EmptyString)
  end = (["i1"%string], "L"%string).
Proof. vm_compute. reflexivity. Qed.
End DriveSamples.
