(* ===== verification/Suites.v ===== *)
(** * Suites: HubSpot, Okta, Monday, ClickUp and Mattermost

    The connectors under connector/hubspot, okta, monday, clickup and mattermost. All
    five list with the common [Next] and follow changes with cursors that are compared
    as they are: texts in the first three, milliseconds in the last two. *)

From Stdlib Require Import Ascii.
From S2P Require Import Prelude GoFloat GoString GoText Calendar GoTime Effects AuditIntegrity Json ConnectorBase IssueTrackers.

(** ** What they have in common *)

Module Suite.
Import Connector.

(** A listing ends with [last]; an empty last page gives up at once. *)
Definition page_of {Src} (refs : list DocumentRef) (last : bool) (next : Src) : fetched Src :=
  {| f_page := refs; f_src := next; f_done := last; f_ret := if last then match refs with [] => false | _ => true end else true |}.

Lemma page_of_false {Src} refs last (next : Src) : f_ret (page_of refs last next) = false → f_page (page_of refs last next) = [].
Proof. simpl. destruct last; [by destruct refs|done]. Qed.

(** A reference whose time is its mark, if that can be read. *)
Definition ref_at (ns id updated : string) : DocumentRef :=
  {| NamespaceID := ns; ID := id; ETag := updated; UpdatedAt := GoTime.parse_or_zero updated |}.
Definition ref_ms (ns id etag : string) (ms : Z) : DocumentRef :=
  {| NamespaceID := ns; ID := id; ETag := etag; UpdatedAt := GoTime.of_millis ms |}.

Definition d_marked (field : string) : decoder (string * string) := λ j,
  get i from d_str_field "id" j in get u from d_str_field field j in Some (i, u).

(** [Document]s here carry the raw answer. *)
Definition document (raw : string) (ref : DocumentRef) (title author : string) (created updated : Time) (meta : gmap string string) : Document :=
  {| Ref := ref; MIMEType := "application/json"; Title := title; Author := author; Size := Z.of_nat (str_len raw);
     CreatedAt := created; d_UpdatedAt := updated; Metadata := meta; Content := raw |}.

(** The first of several texts that is not empty, else [last]. *)
Fixpoint first_text (l : list string) (last : string) : string :=
  match l with [] => last | s :: r => if str_empty s then first_text r last else s end.

(** The access token and, where the service is hosted by its owner, its address. *)
Definition required (field : string) (cfg : ConnectorConfig) : result string conn_error :=
  match parse_creds (d_str_field field) cfg with
  | Err e => Err e
  | Ok t => if str_empty t then Err (ErrInvalidConfig (str_app field " required")) else Ok t
  end.
Definition required_two (f1 f2 : string) (given : string) (cfg : ConnectorConfig) : result (string * string) conn_error :=
  match parse_creds (λ j, get a from d_str_field f1 j in get b from d_str_field f2 j in Some (a, b)) cfg with
  | Err e => Err e
  | Ok c =>
      if str_empty c.1 then Err (ErrInvalidConfig (str_app f1 " required"))
      else if str_empty given && str_empty c.2 then Err (ErrInvalidConfig (str_app f2 " required"))
      else Ok c
  end.
End Suite.

(** ** HubSpot *)

Module HubSpot.
Import Connector.

Definition defaultBaseURL : string := "https://api.hubapi.com".
Definition defaultObjects : list string := ["contacts"; "companies"; "deals"; "tickets"]%string.

Record connection := { tenantID : string; sourceID : string; token : string }.

Definition Validate : ConnectorConfig → result string conn_error := Suite.required "access_token".

Section HubSpot.
Context `{Server} (raw : blob → string) (baseURL : string) (objects : list string).

Definition do_ (conn : connection) (method path : string) (body : option json) : Net Response :=
  http "hubspot" {| Method := method; URL := str_app (trim_slashes baseURL) path;
                    Authorization := str_app "Bearer " (token conn); ReqBody := body |}.

Definition Connect (cfg : ConnectorConfig) : Net connection :=
  let@ t := or_throw (Validate cfg) in
  let conn := {| tenantID := TenantID cfg; sourceID := SourceID cfg; token := t |} in
  let@ resp := do_ conn "GET" "/integrations/v1/me" None in
  let@ _ := expect_200 "hubspot" ": /integrations/v1/me status=" resp in
  eret conn.

Definition ListNamespaces : list Namespace :=
  (λ o, {| ns_ID := o; ns_Name := o; Kind := "crm_object"; ns_Metadata := {[ "object_type"%string := o ]} |}) <$> objects.

(** *** Objects of a kind *)

Record crmIterator := { it_conn : connection; it_ns : Namespace; it_opts : ListOpts; cursor : string }.

Definition crm_values (it : crmIterator) : gmap string string :=
  let after := if str_empty (cursor it) then PageToken (it_opts it) else cursor it in
  (if str_empty after then id else insert "after"%string after)
    {[ "limit"%string := FormatInt (pageOr (PageSize (it_opts it)) 100) ]}.

(** The properties of a listed object must be texts. *)
Definition d_object : decoder (string * string) := λ j,
  get o from Suite.d_marked "updatedAt" j in get _ from d_field "Properties" (d_map d_str) [] j in Some o.
Definition d_objects : decoder (list (string * string) * string) := λ j,
  get rs from d_list_field "results" d_object j in
  get a from d_field "paging" (d_field "next" (d_str_field "after") EmptyString) EmptyString j in Some (rs, a).

Definition fetch_objects (it : crmIterator) : Net (fetched crmIterator) :=
  let@ resp := do_ (it_conn it) "GET" (str_app "/crm/v3/objects/" (str_app (ns_ID (it_ns it)) (str_app "?" (Encode (crm_values it))))) None in
  let@ _ := expect "hubspot" ": status=" ": crm objects status=" resp in
  let@ body := read_body "hubspot" "crm" d_objects resp in
  let last := str_empty body.2 in
  eret (Suite.page_of ((λ r, Suite.ref_at (ns_ID (it_ns it)) r.1 r.2) <$> body.1) last
          {| it_conn := it_conn it; it_ns := it_ns it; it_opts := it_opts it; cursor := if last then cursor it else body.2 |}).

#[export] Instance objects_of : PageSource crmIterator.
Proof.
  refine {| fetchPage := fetch_objects |}. intros s w f w' Hf. unfold fetch_objects in Hf. net_inv Hf.
  injection Hf as <- <-. apply Suite.page_of_false.
Defined.

Definition ListDocuments (conn : connection) (ns : Namespace) (opts : ListOpts) : iter crmIterator :=
  fresh {| it_conn := conn; it_ns := ns; it_opts := opts; cursor := "" |}.

(** The methods of its iterator. *)
Definition Next := @Connector.Next crmIterator objects_of.
Definition Doc := @Connector.Doc crmIterator.
Definition Err_ := @Connector.Err_ crmIterator.

(** *** One object *)

(** A property, read from whatever the answer holds: what is no text counts as missing. *)
Definition property (b : blob) (name : string) : string :=
  lenient (d_field "properties" (λ j, match j with JObj l => d_str (map_get JNull name l) | _ => None end) EmptyString) EmptyString b.

Definition FetchDocument (conn : connection) (ref : DocumentRef) : Net Document :=
  let@ resp := do_ conn "GET" (str_app "/crm/v3/objects/" (str_app (NamespaceID ref) (str_app "/" (ID ref)))) None in
  let@ _ := expect_200 "hubspot" ": get object status=" resp in
  let b := RespBody resp in
  let time (name : string) := GoTime.parse_or_zero (lenient (d_str_field name) EmptyString b) in
  eret (Suite.document (raw b) ref
          (Suite.first_text [property b "name"; property b "email"] (str_app (NamespaceID ref) (str_app "/" (ID ref)))) ""
          (time "createdAt"%string) (time "updatedAt"%string) {[ "object_type"%string := NamespaceID ref ]}).

(** *** Changes *)

Definition sorts (direction : string) : json :=
  JArr [JObj [("direction"%string, JStr direction); ("propertyName"%string, JStr "hs_lastmodifieddate")]].

Definition search_body (cursor : string) : json :=
  let props := ("properties"%string, JArr [JStr "hs_lastmodifieddate"]) in
  if str_empty cursor then JObj [("sorts"%string, sorts "DESCENDING"); props; ("limit"%string, JInt 1)]
  else JObj [("filterGroups"%string, JArr [JObj [("filters"%string, JArr [JObj
               [("propertyName"%string, JStr "hs_lastmodifieddate"); ("operator"%string, JStr "GT"); ("value"%string, JStr cursor)]])]]);
             ("sorts"%string, sorts "ASCENDING"); props; ("limit"%string, JInt 100)].

(** An object with its mark, the modification date where it has one. *)
Definition d_result : decoder (string * string * string) := λ j,
  get o from Suite.d_marked "updatedAt" j in
  get h from d_field "properties" (d_str_field "hs_lastmodifieddate") EmptyString j in
  Some (o.1, o.2, Suite.first_text [h] o.2).

Definition object_change (ns : string) (r : string * string * string) : DocumentChange :=
  upsert ns r.1.1 r.2 (GoTime.parse_or_zero r.1.2).

Definition DeltaSync (conn : connection) (ns : Namespace) (cursor : string) : Net (list DocumentChange * string) :=
  let@ resp := do_ conn "POST" (str_app "/crm/v3/objects/" (str_app (ns_ID ns) "/search")) (Some (search_body cursor)) in
  let@ _ := expect "hubspot" ": status=" ": search status=" resp in
  let@ rs := read_body "hubspot" "search" (d_list_field "results" d_result) resp in
  eret (if str_empty cursor then [] else object_change (ns_ID ns) <$> rs, latest cursor (snd <$> rs)).

#[export] Instance hubspot_syncer : OrderedSyncer connection string.
Proof.
  refine (text_syncer (λ _, DeltaSync) _ _); intros now c ns.
  - intros cursor w changes cursor' w' Hd Hne. unfold DeltaSync in Hd. net_inv Hd. injection Hd as <- <- <-.
    by rewrite (proj2 (str_empty_false cursor) Hne), <- list_fmap_compose.
  - intros w changes cursor' w' Hd. unfold DeltaSync in Hd. net_inv Hd. by injection Hd as <- _ _.
Defined.
End HubSpot.
End HubSpot.

(** ** Okta *)

Module Okta.
Import Connector.

Definition defaultPageSize : Z := 200.

Record connection := { tenantID : string; sourceID : string; token : string; conn_baseURL : string }.

(** [nextLink]: the target of the first part of the header that has the relation next. *)
Definition angle (c : ascii) : bool := Ascii.eqb c "<"%char || Ascii.eqb c ">"%char.
Fixpoint drop_angles (l : bytes) : bytes := match l with c :: r => if angle c then drop_angles r else l | [] => [] end.
Definition trim_angles (l : bytes) : bytes := rev (drop_angles (rev (drop_angles l))).

Definition link_target (part : bytes) : option string :=
  match split_on ";"%char (to_bytes (trim_space (of_bytes part))) with
  | target :: ((_ :: _) as params) =>
      if existsb (λ p, lower_contains (of_bytes p) (of_bytes (to_bytes "rel=" ++ [ascii_of_N 34] ++ to_bytes "next" ++ [ascii_of_N 34]))) params
      then Some (of_bytes (trim_angles target)) else None
  | _ => None
  end.
Definition nextLink (h : string) : string := default EmptyString (head (omap link_target (split_on ","%char (to_bytes h)))).

Section Okta.
Context `{Server} (raw : blob → string) (baseURL : string).

Definition Validate : ConnectorConfig → result (string * string) conn_error := Suite.required_two "api_token" "org_url" baseURL.

Definition doAbsolute (conn : connection) (target : string) : Net Response :=
  http "okta" {| Method := "GET"; URL := target; Authorization := str_app "SSWS " (token conn); ReqBody := None |}.
Definition do_ (conn : connection) (path : string) : Net Response := doAbsolute conn (str_app (trim_slashes (conn_baseURL conn)) path).

Definition Connect (cfg : ConnectorConfig) : Net connection :=
  let@ c := or_throw (Validate cfg) in
  let conn := {| tenantID := TenantID cfg; sourceID := SourceID cfg; token := c.1;
                 conn_baseURL := if str_empty baseURL then c.2 else baseURL |} in
  let@ resp := do_ conn "/api/v1/users/me" in
  let@ _ := expect "okta" ": status=" ": /users/me status=" resp in
  eret conn.

Definition ListNamespaces : list Namespace :=
  [{| ns_ID := "users"; ns_Name := "Users"; Kind := "users"; ns_Metadata := ∅ |};
   {| ns_ID := "groups"; ns_Name := "Groups"; Kind := "groups"; ns_Metadata := ∅ |}].

(** *** Users and groups *)

Record principalIterator := { it_conn : connection; it_ns : Namespace; nextURL : string; first : bool }.

Definition principals (ns : Namespace) (values : gmap string string) : string :=
  str_app "/api/v1/" (str_app (ns_ID ns) (str_app "?" (Encode values))).

(** Behind the last page there is nothing to ask for. *)
Definition fetch_principals (it : principalIterator) : Net (fetched principalIterator) :=
  if first it && str_empty (nextURL it) then eret {| f_page := []; f_src := it; f_done := true; f_ret := false |}
  else
    let@ resp := if first it then doAbsolute (it_conn it) (nextURL it)
                 else do_ (it_conn it) (principals (it_ns it) {[ "limit"%string := FormatInt defaultPageSize ]}) in
    let@ _ := expect "okta" ": status=" (str_app ": list " (str_app (ns_ID (it_ns it)) " status=")) resp in
    let@ body := match decode (d_list (Suite.d_marked "lastUpdated")) (RespBody resp) with
                 | Some l => eret l
                 | None => ethrow (Failed "okta: decode")
                 end in
    let next := nextLink (Link resp) in
    eret (Suite.page_of ((λ p, Suite.ref_at (ns_ID (it_ns it)) p.1 p.2) <$> body) (str_empty next)
            {| it_conn := it_conn it; it_ns := it_ns it; nextURL := next; first := true |}).

#[export] Instance principals_of : PageSource principalIterator.
Proof.
  refine {| fetchPage := fetch_principals |}. intros s w f w' Hf. unfold fetch_principals in Hf.
  destruct (first s && str_empty (nextURL s)); [by injection Hf as <- <-|]. net_inv Hf. injection Hf as <- <-. apply Suite.page_of_false.
Defined.

Definition ListDocuments (conn : connection) (ns : Namespace) : iter principalIterator :=
  fresh {| it_conn := conn; it_ns := ns; nextURL := ""; first := false |}.

(** The methods of its iterator. *)
Definition Next := @Connector.Next principalIterator principals_of.
Definition Doc := @Connector.Doc principalIterator.
Definition Err_ := @Connector.Err_ principalIterator.

Definition FetchDocument (conn : connection) (ref : DocumentRef) : Net Document :=
  let@ resp := do_ conn (str_app "/api/v1/" (str_app (NamespaceID ref) (str_app "/" (ID ref)))) in
  let@ _ := expect "okta" ": status=" (fetch_status (ID ref)) resp in
  let b := RespBody resp in
  let text (name : string) := lenient (d_str_field name) EmptyString b in
  let profile (name : string) := lenient (d_field "profile" (d_str_field name) EmptyString) EmptyString b in
  let full := trim_space (str_app (profile "firstName"%string) (str_app " " (profile "lastName"%string))) in
  eret (Suite.document (raw b) ref (Suite.first_text [profile "login"%string; profile "name"%string; full] (text "id"%string))
          (profile "email"%string) (GoTime.parse_or_zero (text "created"%string)) (GoTime.parse_or_zero (text "lastUpdated"%string))
          {[ "kind"%string := NamespaceID ref ]}).

(** *** Changes *)

Definition newest_values : gmap string string :=
  {[ "limit"%string := "1"%string; "sortBy"%string := "lastUpdated"%string; "sortOrder"%string := "desc"%string ]}.
Definition since_values (cursor : string) : gmap string string :=
  let quote := of_bytes [ascii_of_N 34] in
  {[ "filter"%string := str_app "lastUpdated gt " (str_app quote (str_app cursor quote)); "limit"%string := FormatInt defaultPageSize ]}.

Definition d_principal : decoder (string * string * string) := λ j,
  get p from Suite.d_marked "lastUpdated" j in get s from d_str_field "status" j in Some (p.1, p.2, s).

Definition principal_change (ns : string) (p : string * string * string) : DocumentChange :=
  {| ch_Kind := if fold_eq p.2 "DEPROVISIONED" then ChangeDeleted else ChangeUpserted; ch_Ref := Suite.ref_at ns p.1.1 p.1.2 |}.

Definition DeltaSync (now : Time) (conn : connection) (ns : Namespace) (cursor : string) : Net (list DocumentChange * string) :=
  if str_empty cursor then
    let@ resp := do_ conn (principals ns newest_values) in
    let@ _ := expect "okta" ": status=" ": bootstrap status=" resp in
    let@ l := read_body "okta" "bootstrap" (d_list (d_str_field "lastUpdated")) resp in
    eret ([], Suite.first_text (take 1 l) (GoTime.Format now))
  else
    let@ resp := do_ conn (principals ns (since_values cursor)) in
    let@ _ := expect "okta" ": status=" ": delta status=" resp in
    let@ l := read_body "okta" "delta" (d_list d_principal) resp in
    eret (principal_change (ns_ID ns) <$> l, latest cursor ((λ p, p.1.2) <$> l)).

#[export] Instance okta_syncer : OrderedSyncer connection string.
Proof.
  refine (text_syncer DeltaSync _ _); intros now c ns.
  - intros cursor w changes cursor' w' Hd Hne. unfold DeltaSync in Hd. rewrite (proj2 (str_empty_false cursor) Hne) in Hd.
    net_inv Hd. injection Hd as <- <- <-. by rewrite <- list_fmap_compose.
  - intros w changes cursor' w' Hd. unfold DeltaSync in Hd. cbn [str_empty] in Hd. net_inv Hd. by injection Hd as <- _ _.
Defined.
End Okta.
End Okta.

(** ** Monday *)

Module Monday.
Import Connector.

Definition defaultBaseURL : string := "https://api.monday.com/v2".

Record connection := { tenantID : string; sourceID : string; token : string }.

Definition Validate : ConnectorConfig → result string conn_error := Suite.required "api_token".

(** The errors of an answer, as far as they can be read. *)
Record gql_error := { Message : string; Code : string; Status : Z }.
Definition read_error (j : json) : gql_error :=
  {| Message := default EmptyString (d_str_field "message" j);
     Code := default EmptyString (d_field "extensions" (d_str_field "code") EmptyString j);
     Status := default 0%Z (d_field "extensions" (d_int_field "status_code") 0%Z j) |}.
Definition probe (b : blob) : list gql_error :=
  match b with
  | Parsed (JObj l) => match member "errors" l with Some (JArr es) => read_error <$> es | _ => [] end
  | _ => []
  end.

Definition throttles (e : gql_error) : bool :=
  (Status e =? 429)%Z || fold_eq (Code e) "ComplexityException" || fold_eq (Code e) "RateLimitExceeded"
  || lower_contains (Message e) "complexity budget".

Section Monday.
Context `{Server} (raw : blob → string) (baseURL : string).

Definition gql {A} (conn : connection) (query : string) (vars : list (string * json)) (d : decoder A) : Net A :=
  let@ resp := http "monday" {| Method := "POST"; URL := trim_slashes baseURL; Authorization := token conn;
    ReqBody := Some (JObj (("query"%string, JStr query) :: match vars with [] => [] | _ => [("variables"%string, JObj vars)] end)) |} in
  let b := RespBody resp in
  if (StatusCode resp =? 429)%Z then ethrow (ErrRateLimited (status_text "monday" ": status=" resp))
  else if negb (StatusCode resp =? 200)%Z
  then ethrow (Failed (str_app (status_text "monday" ": status=" resp) (str_app " body=" (raw b))))
  else match List.find throttles (probe b), probe b with
  | Some e, _ => ethrow (ErrRateLimited (str_app "monday: " (Message e)))
  | None, e :: _ => ethrow (Failed (str_app "monday: graphql errors: " (Message e)))
  | None, [] => match decode d b with Some a => eret a | None => ethrow (Failed "monday: decode") end
  end.

Definition Connect (cfg : ConnectorConfig) : Net connection :=
  let@ t := or_throw (Validate cfg) in
  let conn := {| tenantID := TenantID cfg; sourceID := SourceID cfg; token := t |} in
  let@ _ := gql conn "query{me{id}}" [] (d_field "data" (d_field "me" (d_str_field "id") EmptyString) EmptyString) in
  eret conn.

(** [data.boards], as these queries nest their answers. *)
Definition d_boards {A} (d : decoder A) : decoder (list A) := d_field "data" (d_list_field "boards" d) [].

Definition ListNamespaces (conn : connection) : Net (list Namespace) :=
  gql conn "query{boards(limit:500){id name}}" [] (d_boards (λ j,
    get i from d_str_field "id" j in get n from d_str_field "name" j in
    Some {| ns_ID := i; ns_Name := n; Kind := "board"; ns_Metadata := ∅ |})).

(** *** Items of a board *)

Record itemIterator := { it_conn : connection; it_ns : Namespace; cursor : string; first : bool }.

Definition itemsPage : Type := string * list (string * string).
Definition d_items : decoder itemsPage := λ j,
  get c from d_str_field "cursor" j in get l from d_list_field "items" (Suite.d_marked "updated_at") j in Some (c, l).
Definition no_items : itemsPage := (EmptyString, []).

(** A pointer: absent or null is nil. *)
Definition d_ptr {A} (d : decoder A) : decoder (option A) := λ j, get a from d j in Some (Some a).
Definition d_pages : decoder (option itemsPage * list (option itemsPage)) := d_field "data" (λ j,
  get bs from d_list_field "boards" (d_field "items_page" (d_ptr d_items) None) j in
  get n from d_field "next_items_page" (d_ptr d_items) None j in Some (n, bs)) (None, []).

Definition the_board (ns : Namespace) : string * json := ("id"%string, JArr [JStr (ns_ID ns)]).

(** The page of the answer: of the next-page query, else of the first board. *)
Definition page_in (r : option itemsPage * list (option itemsPage)) : option itemsPage :=
  match r with (Some p, _) => Some p | (None, Some p :: _) => Some p | _ => None end.

Definition fetch_items (it : itemIterator) : Net (fetched itemIterator) :=
  let@ r := if first it
    then gql (it_conn it) "query($c:String!){next_items_page(limit:100,cursor:$c){cursor items{id updated_at}}}" [("c"%string, JStr (cursor it))] d_pages
    else gql (it_conn it) "query($id:[ID!]){boards(ids:$id){items_page(limit:100){cursor items{id updated_at}}}}" [the_board (it_ns it)] d_pages in
  let at_ (c : string) := {| it_conn := it_conn it; it_ns := it_ns it; cursor := c; first := true |} in
  eret match page_in r with
  | None => {| f_page := []; f_src := at_ (cursor it); f_done := true; f_ret := false |}
  | Some (c, items) =>
      let last := str_empty c in
      Suite.page_of ((λ i, Suite.ref_at (ns_ID (it_ns it)) i.1 i.2) <$> items) last (at_ (if last then cursor it else c))
  end.

#[export] Instance items_of : PageSource itemIterator.
Proof.
  refine {| fetchPage := fetch_items |}. intros s w f w' Hf. unfold fetch_items in Hf.
  apply ebind_Ok in Hf as (r & w1 & _ & Hf). injection Hf as <- <-. destruct (page_in r) as [[c l]|]; [apply Suite.page_of_false|done].
Defined.

Definition ListDocuments (conn : connection) (ns : Namespace) : iter itemIterator :=
  fresh {| it_conn := conn; it_ns := ns; cursor := ""; first := false |}.

(** The methods of its iterator. *)
Definition Next := @Connector.Next itemIterator items_of.
Definition Doc := @Connector.Doc itemIterator.
Definition Err_ := @Connector.Err_ itemIterator.

(** *** One item *)

Record item := { i_id : string; name : string; created_at : string; updated_at : string; creator : string }.
Definition d_item : decoder item := λ j,
  get i from d_str_field "id" j in get n from d_str_field "name" j in get c from d_str_field "created_at" j in
  get u from d_str_field "updated_at" j in get a from d_field "creator" (d_str_field "name") EmptyString j in
  Some {| i_id := i; name := n; created_at := c; updated_at := u; creator := a |}.

(** The item is encoded again for the content. *)
Definition encoded (i : item) : blob :=
  Parsed (JObj [("id"%string, JStr (i_id i)); ("name"%string, JStr (name i)); ("created_at"%string, JStr (created_at i));
                ("updated_at"%string, JStr (updated_at i)); ("creator"%string, JObj [("name"%string, JStr (creator i))])]).

Definition FetchDocument (conn : connection) (ref : DocumentRef) : Net Document :=
  let@ l := gql conn "query($id:[ID!]!){items(ids:$id){id name created_at updated_at creator{name}}}"
              [("id"%string, JArr [JStr (ID ref)])] (d_field "data" (d_list_field "items" d_item) []) in
  match l with
  | [] => ethrow (Failed (str_app "monday: item not found: " (ID ref)))
  | i :: _ => eret (Suite.document (raw (encoded i)) ref (name i) (creator i) (GoTime.parse_or_zero (created_at i))
                      (GoTime.parse_or_zero (updated_at i)) {[ "board_id"%string := NamespaceID ref ]})
  end.

(** *** Changes *)

Definition newest_query : string := of_bytes (
  to_bytes "query($id:[ID!]){boards(ids:$id){items_page(limit:1,query_params:{order_by:[{column_id:" ++ [ascii_of_N 34] ++
  to_bytes "__last_updated__" ++ [ascii_of_N 34] ++ to_bytes ",direction:desc}]}){items{updated_at}}}}").
Definition changes_query : string := of_bytes (
  to_bytes "query($id:[ID!],$ts:CompareValue!){boards(ids:$id){items_page(limit:100,query_params:{rules:[{column_id:" ++ [ascii_of_N 34] ++
  to_bytes "__last_updated__" ++ [ascii_of_N 34] ++ to_bytes ",compare_value:$ts,operator:greater_than}],order_by:[{column_id:" ++ [ascii_of_N 34] ++
  to_bytes "__last_updated__" ++ [ascii_of_N 34] ++ to_bytes ",direction:asc}]}){cursor items{id updated_at}}}}").

(** Only the first board of the answer is looked at. *)
Definition first_board {A} (l : list (list A)) : list A := default [] (head l).

Definition DeltaSync (now : Time) (conn : connection) (ns : Namespace) (cursor : string) : Net (list DocumentChange * string) :=
  if str_empty cursor then
    let@ bs := gql conn newest_query [the_board ns] (d_boards (d_field "items_page" (d_list_field "items" (d_str_field "updated_at")) [])) in
    eret ([], default (GoTime.Format now) (head (first_board bs)))
  else
    let@ bs := gql conn changes_query [the_board ns; ("ts"%string, JStr cursor)] (d_boards (d_field "items_page" d_items no_items)) in
    let items := first_board (snd <$> bs) in
    eret ((λ i, upsert (ns_ID ns) i.1 i.2 (GoTime.parse_or_zero i.2)) <$> items, latest cursor (snd <$> items)).

#[export] Instance monday_syncer : OrderedSyncer connection string.
Proof.
  refine (text_syncer DeltaSync _ _); intros now c ns.
  - intros cursor w changes cursor' w' Hd Hne. unfold DeltaSync in Hd. rewrite (proj2 (str_empty_false cursor) Hne) in Hd.
    apply ebind_Ok in Hd as (bs & w1 & _ & Hd). injection Hd as <- <- <-. by rewrite <- list_fmap_compose.
  - intros w changes cursor' w' Hd. unfold DeltaSync in Hd. cbn [str_empty] in Hd. apply ebind_Ok in Hd as (bs & w1 & _ & Hd).
    by injection Hd as <- _ _.
Defined.

(** A refusal that any of the errors of an answer reveals to be a rate limit is reported
    as one, wherever in the list it stands. *)
Theorem gql_rate_limited {A} conn query vars (d : decoder A) w e w' :
  gql conn query vars d w = (Err e, w') → store w' = store w ++ [List.last (store w') {| Method := ""; URL := ""; Authorization := ""; ReqBody := None |}] ∧
  ∀ resp, serve (store w') = Some resp → StatusCode resp = 200%Z → Exists (λ x, throttles x = true) (probe (RespBody resp)) →
    ∃ m, e = ErrRateLimited m.
Proof.
  unfold gql. intros Hg. pose proof (http_log "monday") as Hlog.
  unfold ebind, http in Hg. set (r := {| Method := _ |}) in *.
  destruct (serve (store w ++ [r])) as [resp|] eqn:Hs.
  - assert (Hw : store w' = store w ++ [r]).
    { revert Hg. repeat case_match; intros Hg; try done; by injection Hg as _ <-. }
    rewrite Hw, List.last_last. split; [done|]. intros resp' Hr H200 Hex. rewrite Hs in Hr. injection Hr as <-.
    rewrite H200 in Hg. cbn in Hg. destruct (List.find throttles (probe (RespBody resp))) as [x|] eqn:Hf.
    + injection Hg as <- _. by eexists.
    + apply List.Exists_exists in Hex as (x & Hin & Hx). by rewrite (List.find_none _ _ Hf x Hin) in Hx.
  - injection Hg as _ <-. simpl. rewrite List.last_last. split; [done|]. intros resp Hr. by rewrite Hs in Hr.
Qed.
End Monday.
End Monday.

(** ** ClickUp *)

Module ClickUp.
Import Connector.

Definition defaultBaseURL : string := "https://api.clickup.com/api/v2".
Definition defaultPageSize : nat := 100.

Record connection := { tenantID : string; sourceID : string; apiKey : string; teamID : string }.

Definition Validate : ConnectorConfig → result (string * string) conn_error := Suite.required_two "api_key" "team_id" "".

Definition millis (s : string) : Z := ParseInt_lax (to_bytes s).

Section ClickUp.
Context `{Server} (raw : blob → string) (baseURL : string).

Definition do_ (conn : connection) (path : string) : Net Response := GET "clickup" baseURL (apiKey conn) path.

Definition Connect (cfg : ConnectorConfig) : Net connection :=
  let@ c := or_throw (Validate cfg) in
  let conn := {| tenantID := TenantID cfg; sourceID := SourceID cfg; apiKey := c.1; teamID := c.2 |} in
  let@ resp := do_ conn "/user" in
  let@ _ := expect "clickup" ": status=" ": /user status=" resp in
  eret conn.

(** *** Lists of all spaces *)

Record spaceLite := { s_ID : string; s_Name : string }.
Definition d_space : decoder spaceLite := λ j,
  get i from d_str_field "id" j in get n from d_str_field "name" j in Some {| s_ID := i; s_Name := n |}.

(** The members [what] of an answer. *)
Definition named_list (conn : connection) (what path : string) : Net (list spaceLite) :=
  let@ resp := do_ conn path in
  let@ _ := expect "clickup" ": status=" (str_app ": " (str_app what " status=")) resp in
  read_body "clickup" what (d_list_field what d_space) resp.

Definition fetchSpaces (conn : connection) : Net (list spaceLite) :=
  named_list conn "spaces" (str_app "/team/" (str_app (teamID conn) "/space?archived=false")).
Definition fetchLists (conn : connection) (spaceID : string) : Net (list spaceLite) :=
  named_list conn "lists" (str_app "/space/" (str_app spaceID "/list?archived=false")).

Definition list_ns (sp l : spaceLite) : Namespace :=
  {| ns_ID := s_ID l; ns_Name := s_Name l; Kind := "list"; ns_Metadata := {[ "space_id"%string := s_ID sp; "space_name"%string := s_Name sp ]} |}.

Fixpoint lists_of (conn : connection) (spaces : list spaceLite) : Net (list Namespace) :=
  match spaces with
  | [] => eret []
  | sp :: rest =>
      let@ lists := fetchLists conn (s_ID sp) in
      let@ more := lists_of conn rest in
      eret ((list_ns sp <$> lists) ++ more)
  end.
Definition ListNamespaces (conn : connection) : Net (list Namespace) :=
  let@ spaces := fetchSpaces conn in lists_of conn spaces.

(** *** Tasks of a list *)

Record taskIterator := { it_conn : connection; it_ns : Namespace; cursor : Z }.

Definition tasks_path (ns : Namespace) (values : gmap string string) : string :=
  str_app "/list/" (str_app (ns_ID ns) (str_app "/task?" (Encode (<["archived"%string := "false"%string]> values)))).
Definition task_ref (ns : string) (t : string * string) : DocumentRef := Suite.ref_ms ns t.1 t.2 (millis t.2).

Definition fetch_tasks (it : taskIterator) : Net (fetched taskIterator) :=
  let@ resp := do_ (it_conn it) (tasks_path (it_ns it) {[ "page"%string := FormatInt (cursor it) ]}) in
  let@ _ := expect "clickup" ": status=" ": tasks status=" resp in
  let@ body := read_body "clickup" "tasks" (λ j,
    get ts from d_list_field "tasks" (Suite.d_marked "date_updated") j in get l from d_field "last_page" d_bool false j in Some (ts, l)) resp in
  let last := body.2 || (length body.1 <? defaultPageSize)%nat in
  eret (Suite.page_of (task_ref (ns_ID (it_ns it)) <$> body.1) last
          {| it_conn := it_conn it; it_ns := it_ns it; cursor := if last then cursor it else wrap64 (cursor it + 1) |}).

#[export] Instance tasks : PageSource taskIterator.
Proof.
  refine {| fetchPage := fetch_tasks |}. intros s w f w' Hf. unfold fetch_tasks in Hf. net_inv Hf.
  injection Hf as <- <-. apply Suite.page_of_false.
Defined.

Definition ListDocuments (conn : connection) (ns : Namespace) : iter taskIterator := fresh {| it_conn := conn; it_ns := ns; cursor := 0 |}.

(** The methods of its iterator. *)
Definition Next := @Connector.Next taskIterator tasks.
Definition Doc := @Connector.Doc taskIterator.
Definition Err_ := @Connector.Err_ taskIterator.

Definition FetchDocument (conn : connection) (ref : DocumentRef) : Net Document :=
  let@ resp := do_ conn (str_app "/task/" (ID ref)) in
  let@ _ := expect "clickup" ": status=" ": get task status=" resp in
  let b := RespBody resp in
  let text (name : string) := lenient (d_str_field name) EmptyString b in
  eret (Suite.document (raw b) ref (text "name"%string) (lenient (d_field "creator" (d_str_field "username") EmptyString) EmptyString b)
          (GoTime.of_millis (millis (text "date_created"%string))) (GoTime.of_millis (millis (text "date_updated"%string)))
          {[ "list_id"%string := NamespaceID ref ]}).

(** *** Changes *)

(** The first call answers with the newest task of the first page, or with the present. *)
Definition or_now (now : Time) (ms : Z) : Z := if (ms =? 0)%Z then GoTime.UnixMilli now else ms.

Definition DeltaSync (now : Time) (conn : connection) (ns : Namespace) (cursor : string) : Net (list DocumentChange * string) :=
  if str_empty cursor then
    let@ resp := do_ conn (tasks_path ns {[ "page"%string := "0"%string; "order_by"%string := "updated"%string; "reverse"%string := "true"%string ]}) in
    let@ _ := expect "clickup" ": status=" ": bootstrap status=" resp in
    let@ ts := read_body "clickup" "bootstrap" (d_list_field "tasks" (d_str_field "date_updated")) resp in
    eret ([], FormatInt (or_now now (newest 0 (millis <$> ts))))
  else
    let@ resp := do_ conn (tasks_path ns {[ "date_updated_gt"%string := cursor; "order_by"%string := "updated"%string ]}) in
    let@ _ := expect "clickup" ": status=" ": delta status=" resp in
    let@ ts := read_body "clickup" "delta" (d_list_field "tasks" (Suite.d_marked "date_updated")) resp in
    eret ((λ t, {| ch_Kind := ChangeUpserted; ch_Ref := task_ref (ns_ID ns) t |}) <$> ts,
          FormatInt (newest (millis cursor) ((λ t, millis t.2) <$> ts))).

#[export] Instance clickup_syncer : OrderedSyncer connection Time.
Proof.
  refine (millis_syncer DeltaSync _ _); intros now c ns.
  - intros cursor w changes cursor' w' Hd Hne. unfold DeltaSync in Hd. rewrite (proj2 (str_empty_false cursor) Hne) in Hd.
    apply ebind_Ok in Hd as (resp & w1 & _ & Hd). apply ebind_Ok in Hd as (u & w2 & _ & Hd). apply ebind_Ok in Hd as (ts & w3 & _ & Hd).
    injection Hd as <- <- <-. exists ((λ t, millis t.2) <$> ts). split_and!; [by rewrite <- !list_fmap_compose| |done].
    apply Forall_fmap, Forall_true. intros t. apply ParseInt_lax_range.
  - intros w changes cursor' w' Hd. unfold DeltaSync in Hd. cbn [str_empty] in Hd. net_inv Hd. by injection Hd as <- _ _.
Defined.
End ClickUp.
End ClickUp.

(** ** Mattermost *)

Module Mattermost.
Import Connector.

Definition defaultPageSize : Z := 200.

Record connection := { tenantID : string; sourceID : string; token : string; conn_baseURL : string; userID : string }.

(** Posts come as their order and a map; a post that is missing in the map is empty. *)
Record post := { p_ID : string; UpdateAt : Z; DeleteAt : Z }.
Definition no_post : post := {| p_ID := ""; UpdateAt := 0; DeleteAt := 0 |}.
Definition d_posts (d : decoder post) : decoder (list post) := λ j,
  get order from d_list_field "order" d_str j in
  get posts from d_field "posts" (d_map d) [] j in
  Some ((λ id, map_get no_post id posts) <$> order).

Definition d_newest_post : decoder post := λ j, get u from d_int_field "update_at" j in Some {| p_ID := ""; UpdateAt := u; DeleteAt := 0 |}.
Definition d_listed_post : decoder post := λ j,
  get i from d_str_field "id" j in get u from d_int_field "update_at" j in Some {| p_ID := i; UpdateAt := u; DeleteAt := 0 |}.
Definition d_changed_post : decoder post := λ j,
  get p from d_listed_post j in get d from d_int_field "delete_at" j in Some {| p_ID := p_ID p; UpdateAt := UpdateAt p; DeleteAt := d |}.

Definition post_ref (ns : string) (p : post) : DocumentRef := Suite.ref_ms ns (p_ID p) (FormatInt (UpdateAt p)) (UpdateAt p).

Section Mattermost.
Context `{Server} (raw : blob → string) (baseURL : string).

Definition Validate : ConnectorConfig → result (string * string) conn_error := Suite.required_two "access_token" "base_url" baseURL.

Definition do_ (conn : connection) (path : string) : Net Response :=
  GET "mattermost" (conn_baseURL conn) (str_app "Bearer " (token conn)) path.

Definition Connect (cfg : ConnectorConfig) : Net connection :=
  let@ c := or_throw (Validate cfg) in
  let conn (user : string) := {| tenantID := TenantID cfg; sourceID := SourceID cfg; token := c.1;
                 conn_baseURL := if str_empty baseURL then c.2 else baseURL; userID := user |} in
  let@ resp := do_ (conn EmptyString) "/api/v4/users/me" in
  let@ _ := expect "mattermost" ": status=" ": /users/me status=" resp in
  let@ me := read_body "mattermost" "me" (d_str_field "id") resp in
  eret (conn me).

Definition d_channel : decoder Namespace := λ j,
  get i from d_str_field "id" j in get n from d_str_field "name" j in get d from d_str_field "display_name" j in
  get t from d_str_field "type" j in get m from d_str_field "team_id" j in
  Some {| ns_ID := i; ns_Name := d; Kind := "channel";
          ns_Metadata := {[ "team_id"%string := m; "channel_type"%string := t; "channel_name"%string := n ]} |}.
Definition ListNamespaces (conn : connection) : Net (list Namespace) :=
  let@ resp := do_ conn (str_app "/api/v4/users/" (str_app (userID conn) "/channels")) in
  let@ _ := expect "mattermost" ": status=" ": channels list status=" resp in
  read_body "mattermost" "channels" (d_list d_channel) resp.

(** *** Posts of a channel *)

Record postIterator := { it_conn : connection; it_ns : Namespace; it_opts : ListOpts; cursor : Z }.

Definition posts_path (ns : Namespace) (values : gmap string string) : string :=
  str_app "/api/v4/channels/" (str_app (ns_ID ns) (str_app "/posts?" (Encode values))).

Definition fetch_posts (it : postIterator) : Net (fetched postIterator) :=
  let size := pageOr (PageSize (it_opts it)) defaultPageSize in
  let@ resp := do_ (it_conn it) (posts_path (it_ns it) {[ "page"%string := FormatInt (cursor it); "per_page"%string := FormatInt size ]}) in
  let@ _ := expect "mattermost" ": status=" ": channel posts status=" resp in
  let@ ps := read_body "mattermost" "posts" (d_posts d_listed_post) resp in
  let last := (Z.of_nat (length ps) <? size)%Z in
  eret (Suite.page_of (post_ref (ns_ID (it_ns it)) <$> ps) last
          {| it_conn := it_conn it; it_ns := it_ns it; it_opts := it_opts it; cursor := if last then cursor it else wrap64 (cursor it + 1) |}).

#[export] Instance posts : PageSource postIterator.
Proof.
  refine {| fetchPage := fetch_posts |}. intros s w f w' Hf. unfold fetch_posts in Hf. net_inv Hf.
  injection Hf as <- <-. apply Suite.page_of_false.
Defined.

Definition ListDocuments (conn : connection) (ns : Namespace) (opts : ListOpts) : iter postIterator :=
  fresh {| it_conn := conn; it_ns := ns; it_opts := opts; cursor := 0 |}.

(** The methods of its iterator. *)
Definition Next := @Connector.Next postIterator posts.
Definition Doc := @Connector.Doc postIterator.
Definition Err_ := @Connector.Err_ postIterator.

(** The title is the message, cut behind its eightieth byte. *)
Definition title_of (message id : string) : string :=
  of_bytes (take 80 (to_bytes (Suite.first_text [trim_space message] id))).

Definition FetchDocument (conn : connection) (ref : DocumentRef) : Net Document :=
  let@ resp := do_ conn (str_app "/api/v4/posts/" (ID ref)) in
  let@ _ := expect "mattermost" ": status=" ": get post status=" resp in
  let b := RespBody resp in
  let text (name : string) := lenient (d_str_field name) EmptyString b in
  let time (name : string) := GoTime.of_millis (lenient (d_int_field name) 0%Z b) in
  eret (Suite.document (raw b) ref (title_of (text "message"%string) (text "id"%string)) (text "user_id"%string)
          (time "create_at"%string) (time "update_at"%string)
          {[ "channel_id"%string := text "channel_id"%string; "user_id"%string := text "user_id"%string ]}).

(** *** Changes *)

Definition post_change (ns : string) (p : post) : DocumentChange :=
  {| ch_Kind := if (0 <? DeleteAt p)%Z then ChangeDeleted else ChangeUpserted; ch_Ref := post_ref ns p |}.

Definition DeltaSync (now : Time) (conn : connection) (ns : Namespace) (cursor : string) : Net (list DocumentChange * string) :=
  if str_empty cursor then
    let@ resp := do_ conn (posts_path ns {[ "page"%string := "0"%string; "per_page"%string := "1"%string ]}) in
    let@ _ := expect "mattermost" ": status=" ": bootstrap posts status=" resp in
    let@ ps := read_body "mattermost" "bootstrap" (d_posts d_newest_post) resp in
    eret ([], FormatInt (ClickUp.or_now now (newest 0 (UpdateAt <$> ps))))
  else
    let@ resp := do_ conn (posts_path ns {[ "since"%string := cursor ]}) in
    let@ _ := expect "mattermost" ": status=" ": delta posts status=" resp in
    let@ ps := read_body "mattermost" "delta" (d_posts d_changed_post) resp in
    eret (post_change (ns_ID ns) <$> ps, FormatInt (newest (ClickUp.millis cursor) (UpdateAt <$> ps))).

(** Every time a post is read with fits its integer. *)
Definition post_fits (p : post) : Prop := in_int64 (UpdateAt p).

Lemma d_changed_post_fits j p : d_changed_post j = Some p → post_fits p.
Proof.
  unfold d_changed_post, d_listed_post. destruct (d_str_field "id" j); [|done].
  destruct (d_int_field "update_at" j) as [u|] eqn:E; [|done]. cbn. destruct (d_int_field "delete_at" j); [|done].
  intros [= <-]. by apply d_int_field_range in E.
Qed.

Lemma map_get_Forall {A} (P : A → Prop) zero k l : P zero → Forall (λ m, P m.2) l → P (map_get zero k l).
Proof.
  intros H0 Hl. unfold map_get. destruct (last (List.filter _ l)) as [[n a]|] eqn:E; [|done]. simpl.
  apply last_Some_elem_of, list_elem_of_In, filter_In in E as [Hin _]. rewrite Forall_forall in Hl. apply (Hl (n, a)). by apply list_elem_of_In.
Qed.

Lemma d_field_inv {A} name (d : decoder A) zero j a :
  d_field name d zero j = Some a → a = zero ∨ ∃ v, d v = Some a.
Proof.
  unfold d_field. destruct j as [| | | | | |l]; try done; [by intros [= <-]; left|].
  destruct (member name l) as [v|]; [|by intros [= <-]; left].
  destruct v; try (by intros [= <-]; left); intros Hd; right; eauto.
Qed.

Lemma d_map_Forall {A} (d : decoder A) (P : A → Prop) j l :
  (∀ j a, d j = Some a → P a) → d_map d j = Some l → Forall (λ m, P m.2) l.
Proof.
  intros Hd. unfold d_map. destruct j as [| | | | | |o]; try done; [by intros [= <-]|]. intros Hm%mapM_Some.
  apply Forall_forall. intros [n a] Hin. apply list_elem_of_lookup in Hin as [i Hi].
  destruct (Forall2_lookup_r _ _ _ _ _ Hm Hi) as ([k v] & _ & Hna). simpl in Hna.
  destruct (d v) eqn:E; [|done]. injection Hna as _ <-. eauto.
Qed.

Lemma d_posts_fit j ps : d_posts d_changed_post j = Some ps → Forall post_fits ps.
Proof.
  unfold d_posts. destruct (d_list_field "order" d_str j) as [order|]; [|done].
  destruct (d_field "posts" (d_map d_changed_post) [] j) as [m|] eqn:E; [|done]. intros [= <-].
  assert (Hm : Forall (λ x, post_fits x.2) m).
  { apply d_field_inv in E as [->|(v & E)]; [done|]. eapply d_map_Forall; [|exact E]. apply d_changed_post_fits. }
  apply Forall_fmap, Forall_true. intros id. apply (map_get_Forall post_fits); [|done].
  unfold post_fits, in_int64, int64_min, int64_max. simpl. lia.
Qed.

#[export] Instance mattermost_syncer : OrderedSyncer connection Time.
Proof.
  refine (millis_syncer DeltaSync _ _); intros now c ns.
  - intros cursor w changes cursor' w' Hd Hne. unfold DeltaSync in Hd. rewrite (proj2 (str_empty_false cursor) Hne) in Hd.
    apply ebind_Ok in Hd as (resp & w1 & _ & Hd). apply ebind_Ok in Hd as (u & w2 & _ & Hd). apply ebind_Ok in Hd as (ps & w3 & Hb & Hd).
    injection Hd as <- <- <-. exists (UpdateAt <$> ps). split_and!; [by rewrite <- !list_fmap_compose| |done].
    unfold read_body, decode in Hb. destruct (RespBody resp) as [| |j]; try done.
    destruct (d_posts d_changed_post j) as [qs|] eqn:E; [|done]. injection Hb as <- _. apply Forall_fmap. exact (d_posts_fit j qs E).
  - intros w changes cursor' w' Hd. unfold DeltaSync in Hd. cbn [str_empty] in Hd. net_inv Hd. by injection Hd as <- _ _.
Defined.
End Mattermost.
End Mattermost.

(** ** The issue trackers keep the same promise *)

Module TextSyncers.
Import Connector.

Section Text.
Context `{Server} (baseURL : string).

#[export] Instance linear_syncer : OrderedSyncer Linear.connection string.
Proof.
  refine (text_syncer (λ _, Linear.DeltaSync baseURL) _ _); intros now c ns.
  - intros cursor w changes cursor' w' Hd Hne. unfold Linear.DeltaSync in Hd. net_inv Hd. injection Hd as <- <- <-.
    by rewrite (proj2 (str_empty_false cursor) Hne), <- list_fmap_compose.
  - intros w changes cursor' w' Hd. unfold Linear.DeltaSync in Hd. net_inv Hd. by injection Hd as <- _ _.
Defined.

#[export] Instance asana_syncer : OrderedSyncer Asana.connection string.
Proof.
  refine (text_syncer (λ _, Asana.DeltaSync baseURL) _ _); intros now c ns.
  - intros cursor w changes cursor' w' Hd Hne. unfold Asana.DeltaSync, Asana.deltaSyncSince in Hd.
    rewrite (proj2 (str_empty_false cursor) Hne) in Hd. net_inv Hd. injection Hd as <- <- <-. by rewrite <- list_fmap_compose.
  - intros w changes cursor' w' Hd. unfold Asana.DeltaSync, Asana.deltaSyncBootstrap in Hd. cbn [str_empty] in Hd. net_inv Hd.
    by injection Hd as <- _ _.
Defined.
End Text.
End TextSyncers.

(** ** On concrete answers *)

Module SuiteSamples.
Import Connector.

Definition start : Env (list Request) := {| store := []; calls_made := 0 |}.
Definition ok (j : json) : option Response := Some {| StatusCode := 200; Link := ""; RetryAfter := ""; RespBody := Parsed j |}.

(** The link header of Okta: the relation next is found, the target keeps what stands
    between the angle brackets. *)
Example next_link :
  let q := of_bytes [ascii_of_N 34] in
  Okta.nextLink (str_app "<https://a.okta.com/api/v1/users?limit=200>; rel=" (str_app q (str_app "self" (str_app q
    (str_app ", <https://a.okta.com/api/v1/users?after=x>; REL=" (str_app q (str_app "next" q))))))) = "https://a.okta.com/api/v1/users?after=x"%string.
Proof. vm_compute. reflexivity. Qed.

(** A complexity error behind another error is a rate limit all the same. *)
Definition busy : Server := λ _, ok (JObj [("errors"%string, JArr
  [JObj [("message"%string, JStr "bad field")];
   JObj [("message"%string, JStr "Complexity budget exhausted")]])]).
Definition board : Namespace := {| ns_ID := "7"; ns_Name := "Board"; Kind := "board"; ns_Metadata := ∅ |}.
Definition monday : Monday.connection := {| Monday.tenantID := "t"; Monday.sourceID := "s"; Monday.token := "k" |}.

Example complexity_is_rate_limit :
  fst (Monday.ListNamespaces (H := busy) (λ _, EmptyString) Monday.defaultBaseURL monday start) =
  Err (ErrRateLimited "monday: Complexity budget exhausted").
Proof. vm_compute. reflexivity. Qed.

(** A channel listing that names a post its map lacks: the caller gets a reference to
    the empty id, dated 1970. *)
Definition gap_in_map : Server := λ _, ok (JObj [("order"%string, JArr [JStr "a"; JStr "b"]);
  ("posts"%string, JObj [("a"%string, JObj [("id"%string, JStr "a"); ("update_at"%string, JInt 5000)])])]).
Definition mattermost : Mattermost.connection :=
  {| Mattermost.tenantID := "t"; Mattermost.sourceID := "s"; Mattermost.token := "k"; Mattermost.conn_baseURL := "https://m"; Mattermost.userID := "u" |}.

Example missing_post_reported :
  match Mattermost.DeltaSync (H := gap_in_map) 0 mattermost board "3000" start with
  | (Ok (changes, cursor), _) => ((λ c, (ID (ch_Ref c), mark c)) <$> changes, cursor) = ([("a", "5000"); ("", "0")], "5000")%string
  | _ => False
  end.
Proof. vm_compute. reflexivity. Qed.

(** Titles are cut at a byte: a letter of two bytes at the end is halved. *)
Example title_is_cut :
  str_len (Mattermost.title_of (of_bytes (replicate 79 "a"%char ++ [ascii_of_N 195; ascii_of_N 169])) "id") = 80%nat ∧
  utf8_valid (to_bytes (Mattermost.title_of (of_bytes (replicate 79 "a"%char ++ [ascii_of_N 195; ascii_of_N 169])) "id")) = false.
Proof. vm_compute. split; reflexivity. Qed.

(** A cursor that is no number counts as zero, one that is too large as the largest. *)
Example lax_cursors : ClickUp.millis "soon" = 0%Z ∧ ClickUp.millis "99999999999999999999" = int64_max.
Proof. vm_compute. split; reflexivity. Qed.
End SuiteSamples.
