(* ===== verification/ConnectorSamples.v ===== *)
(** * Connectors on concrete services

    Small services on which the theorems about connectors apply. *)

From Stdlib Require Import Ascii.
From S2P Require Import Prelude GoFloat GoString GoText Calendar GoTime Effects AuditIntegrity Json GoUrl ConnectorBase IssueTrackers HelpDesks Workspaces CodeHosts Drives Suites.

Module ConnectorSamples.
Import Connector.

Definition start : Env (list Request) := {| store := []; calls_made := 0 |}.
Definition ok (link : string) (j : json) : option Response := Some {| StatusCode := 200; Link := link; RetryAfter := ""; RespBody := Parsed j |}.
Definition asked (log : list Request) : string := match last log with Some r => URL r | None => EmptyString end.

(** ** A listing of two pages *)

Definition jira_issue (key : string) : json := JObj [("key"%string, JStr key)].
Definition jira_server : Server := λ log,
  ok "" (JObj [("total"%string, JInt 3);
               ("issues"%string, JArr match log with [_] => [jira_issue "A-1"; jira_issue "A-2"] | _ => [jira_issue "A-3"] end)]).
Definition jira : Jira.connection := {| Jira.tenantID := "t"; Jira.sourceID := "s"; Jira.authHeader := "x"; Jira.siteURL := "https://a.atlassian.net" |}.
Definition project : Namespace := {| ns_ID := "A"; ns_Name := "A"; Kind := "project"; ns_Metadata := ∅ |}.
Definition jira_pages : PageSource Jira.docIterator := @Jira.issues jira_server.
Definition jira_src : Jira.docIterator := {| Jira.it_conn := jira; Jira.it_ns := project; Jira.startAt := 0 |}.

Lemma drain_complete_witness :
  ∃ ps w', ID <$> concat ps = ["A-1"; "A-2"; "A-3"]%string ∧ @drain _ (@Next _ jira_pages) (enough ps) (fresh jira_src) start = Some (concat ps, Some ErrEndOfPage, w').
Proof.
  eexists _, _. split; [|apply (@drain_complete _ jira_pages jira_src start _ Finished);
    eapply serves_more; [vm_compute; reflexivity|reflexivity|discriminate|eapply serves_last; [vm_compute; reflexivity|reflexivity]]].
  reflexivity.
Defined.

(** ** The listing that loses a ticket *)

Definition desk_pages : PageSource Fresh.docIterator := @Freshdesk.tickets HelpDeskSamples.two_tickets.
Definition desk_src : Fresh.docIterator := {| Fresh.it_conn := HelpDeskSamples.desk; Fresh.nextPage := 0 |}.

Lemma done_first_loses_the_last_page_witness :
  ∃ ps w', ID <$> concat ps = ["1"; "2"]%string ∧ ID <$> cut_last ps Finished = ["1"%string] ∧
    @drain _ (@Next_done_first _ desk_pages) (enough ps) (fresh desk_src) start = Some (cut_last ps Finished, Some ErrEndOfPage, w').
Proof.
  eexists _, _. split; [|split; [|apply (@done_first_loses_the_last_page _ desk_pages desk_src start _ Finished);
    eapply serves_last; [vm_compute; reflexivity|reflexivity]]]; reflexivity.
Defined.

(** ** Signatures *)

(** Not a hash, but enough to see that what was signed is accepted. *)
Definition sample_mac (key payload : bytes) : bytes := key ++ payload.

Lemma webhook_signatures_witness :
  verifyHMAC sample_mac (to_bytes "k") (to_bytes "body") (sign sample_mac "sha256=" (to_bytes "k") (to_bytes "body")) "sha256=" = None ∧
  verifyHMAC sample_mac (to_bytes "k") (to_bytes "body") "sha256=00" "sha256=" = Some ErrWebhookSignatureInvalid.
Proof.
  split; [|vm_compute; reflexivity].
  apply (webhook_signatures sample_mac (to_bytes "k") (to_bytes "body") "sha256="); [discriminate|repeat constructor|discriminate].
Defined.

(** ** A room of two pages, newest message first *)

Definition message (id created : string) : json := JObj [("id"%string, JStr id); ("created"%string, JStr created)].
Definition next_link : string := of_bytes (to_bytes "<https://webexapis.com/v1/messages?before=2>; " ++ Webex.rel_next).
Definition room_server : Server := λ log,
  if Contains (asked log) "before=2" then ok "" (JObj [("items"%string, JArr [message "m1" "2024-01-01T00:00:00Z"])])
  else ok next_link (JObj [("items"%string, JArr [message "m3" "2024-01-05T00:00:00Z"; message "m2" "2024-01-03T00:00:00Z"])]).
Definition webex : Webex.connection :=
  {| Webex.tenantID := "t"; Webex.sourceID := "s"; Webex.base := "https://webexapis.com"; Webex.accessToken := "k"; Webex.roomID := "R" |}.
Definition room : Namespace := {| ns_ID := "R"; ns_Name := "R"; Kind := "room"; ns_Metadata := ∅ |}.

Lemma Webex_DeltaSync_exact_witness :
  ∃ changes cursor w',
    ID ∘ ch_Ref <$> changes = ["m3"%string] ∧ cursor = "2024-01-05T00:00:00Z"%string ∧
    @Webex.DeltaSync room_server GoUrl.no_brackets 0 3 webex room "2024-01-04T00:00:00Z" start = (Ok (Some (changes, cursor)), w').
Proof.
  pose proof (@Webex.Webex_DeltaSync_exact room_server GoUrl.no_brackets 0 3 webex room "2024-01-04T00:00:00Z"
    (Calendar.Date 2024 1 4 0 0 0 0) start) as Hw.
  edestruct Hw as (w' & E).
  - vm_compute. reflexivity.
  - eapply chain_more; [vm_compute; reflexivity|]. eapply chain_last. vm_compute. reflexivity.
  - repeat constructor; vm_compute; discriminate.
  - simpl. lia.
  - eexists _, _, w'. split; [|split; [|exact E]]; vm_compute; reflexivity.
Defined.

(** ** Two syncs of one repository *)

Definition gh_syncer : DeltaSyncer GitHub.connection := @CodeHostSyncers.github_syncer CodeHostSamples.busy_repo "https://api.github.com".

Definition gh_sync (now : Time) : string → Net (option (list DocumentChange * string)) :=
  @delta _ gh_syncer now 1 CodeHostSamples.gh CodeHostSamples.gh_repo.

Lemma follow_forward_witness :
  ∃ changes cursor' w' t',
    follow gh_sync [0; 0]%Z "2024-01-01T00:00:00Z" start = (Ok (Some (changes, cursor')), w') ∧
    length changes = 2 ∧ GoTime.Parse cursor' = Some t' ∧ (Calendar.Date 2024 1 1 0 0 0 0 ≤ t')%Z ∧
    ∀ x, x ∈ changes → (changed_at x < t' + second)%Z.
Proof.
  eassert (Hf : follow gh_sync [0; 0]%Z "2024-01-01T00:00:00Z" start = (Ok (Some (_, _)), _))
    by (vm_compute; reflexivity).
  destruct (@follow_forward _ gh_syncer CodeHostSamples.gh CodeHostSamples.gh_repo 1 _ _ (Calendar.Date 2024 1 1 0 0 0 0) _ _ _ _ Hf) as (t' & Hp & Hle & Hall).
  - vm_compute. reflexivity.
  - vm_compute. split; congruence.
  - vm_compute. reflexivity.
  - intros x Hx. apply list_elem_of_In in Hx. destruct Hx as [<-|[<-|[]]]; vm_compute; split; congruence.
  - eexists _, _, _, t'. split; [exact Hf|]. split; [reflexivity|]. exact (conj Hp (conj Hle Hall)).
Defined.

(** ** A workspace with one project *)

Definition named (gid name : string) : json := JObj [("gid"%string, JStr gid); ("name"%string, JStr name)].
Definition asana_server : Server := λ log,
  ok "" (JObj [("data"%string, JArr (if Contains (asked log) "/projects" then [named "p1" "Plan"] else [named "w1" "Acme"]))]).
Definition asana : Asana.connection := {| Asana.tenantID := "t"; Asana.sourceID := "s"; Asana.token := "k"; Asana.userGID := "u" |}.

Lemma listed_projects_can_sync_witness :
  ∃ out w' ws, @Asana.ListNamespaces asana_server Asana.defaultBaseURL 2 asana start = (Ok (Some out), w') ∧
    ns_ID <$> out = ["p1"%string] ∧ Forall (Asana.syncable ws) out.
Proof.
  eassert (Hl : @Asana.ListNamespaces asana_server Asana.defaultBaseURL 2 asana start = (Ok (Some _), _)) by (vm_compute; reflexivity).
  destruct (@Asana.listed_projects_can_sync asana_server Asana.defaultBaseURL 2 asana _ _ _ Hl) as (ws & Hs & _).
  eexists _, _, ws. split; [exact Hl|]. split; [reflexivity|exact Hs].
Defined.

(** ** A delta whose second page fails *)

Definition ticket (n : Z) : json := JObj [("id"%string, JInt n); ("updated_at"%string, JStr "2024-01-02T00:00:00Z")].
Definition failing_server : Server := λ log,
  match log with
  | [_] => ok "" (JArr (ticket <$> seqZ 1 100))
  | _ => Some {| StatusCode := 500; Link := ""; RetryAfter := ""; RespBody := NoBytes |}
  end.

Lemma time_delta_complete_witness :
  ∃ w', time_delta "bad" 1%Z (@Fresh.delta_round failing_server "freshdesk" Freshdesk.d_tickets HelpDeskSamples.desk Ticket.namespace "2024-01-01T00:00:00Z")
    0 3 "2024-01-01T00:00:00Z" start = (Err (Failed "freshdesk: delta status=500"), w').
Proof.
  eexists. eapply (time_delta_complete "bad" 1%Z
    (@Fresh.delta_round failing_server "freshdesk" Freshdesk.d_tickets HelpDeskSamples.desk Ticket.namespace "2024-01-01T00:00:00Z")
    0 3 "2024-01-01T00:00:00Z" (Calendar.Date 2024 1 1 0 0 0 0) start _ (Some (Failed "freshdesk: delta status=500"))).
  - vm_compute. reflexivity.
  - eapply chain_more; [vm_compute; reflexivity|]. eapply chain_error. vm_compute. reflexivity.
  - vm_compute. lia.
Defined.
(** ** Two syncs of a list of tasks *)

Definition clickup_task (id ms : string) : json := JObj [("id"%string, JStr id); ("date_updated"%string, JStr ms)].
Definition clickup_server : Server := λ log,
  ok "" (JObj [("tasks"%string, JArr match log with [_] => [clickup_task "a" "2000"; clickup_task "b" "3000"] | _ => [clickup_task "a" "9000"] end)]).
Definition clickup : ClickUp.connection := {| ClickUp.tenantID := "t"; ClickUp.sourceID := "s"; ClickUp.apiKey := "k"; ClickUp.teamID := "1" |}.
Definition clickup_sync : OrderedSyncer ClickUp.connection Time := @ClickUp.clickup_syncer clickup_server ClickUp.defaultBaseURL.

Definition clickup_once (now : Time) : string → Net (option (list DocumentChange * string)) := @once _ _ clickup_sync clickup project now.

Lemma ordered_forward_witness :
  ∃ changes cursor' w' p', follow clickup_once [0; 1]%Z "1000" start = (Ok (Some (changes, cursor')), w') ∧ cursor' = "9000"%string ∧
    @position _ _ clickup_sync cursor' = Some p' ∧ @before _ _ clickup_sync (GoTime.of_millis 1000) p' ∧
    ∀ x, x ∈ changes → @before _ _ clickup_sync (@stamp _ _ clickup_sync x) p'.
Proof.
  eassert (Hf : follow clickup_once [0; 1]%Z "1000" start = (Ok (Some (_, _)), _)) by (vm_compute; reflexivity).
  destruct (@ordered_forward _ _ clickup_sync clickup project _ _ (GoTime.of_millis 1000) _ _ _ _ Hf) as (p' & H1 & H2 & H3).
  - discriminate.
  - vm_compute. reflexivity.
  - eexists _, _, _, p'. split; [exact Hf|]. split; [reflexivity|]. exact (conj H1 (conj H2 H3)).
Defined.
End ConnectorSamples.
