(* ===== verification/SemanticCache.v ===== *)
(** * The semantic cache (storage/redis_cache.go)

    Answers of the retrieval API are kept in Redis under a key of tenant, channel, query
    and scope, with an index from chunks and sources to the keys of the answers that hold
    them. The model has the commands the code sends, with the deadlines Redis gives its
    keys; every call may fail, and a pipeline may break off after some of its commands. *)

From Stdlib Require Import Ascii.
From S2P Require Import Prelude GoFloat GoString Match ScopeKey Effects AuditIntegrity.

Module SemanticCache.

(** ** Redis *)

Inductive value := Str (s : string) | SetOf (m : gset string).
(** A key without a deadline stays. *)
Record item := { val : value; dies : option Time }.
Abbreviation Redis := (gmap string item).

Definition alive (now : Time) (i : item) : bool := match dies i with None => true | Some d => (now <? d)%Z end.
Definition present (now : Time) (r : Redis) (k : string) : option item :=
  match r !! k with Some i => if alive now i then Some i else None | None => None end.

Definition GET (now : Time) (k : string) (r : Redis) : option string :=
  match present now r k with Some {| val := Str s |} => Some s | _ => None end.
Definition SMEMBERS (now : Time) (k : string) (r : Redis) : gset string :=
  match present now r k with Some {| val := SetOf m |} => m | _ => ∅ end.
Definition SET (now : Time) (k s : string) (life : option Z) (r : Redis) : Redis :=
  <[k := {| val := Str s; dies := (λ l, now + l)%Z <$> life |}]> r.
(** A key that holds no set is left alone. *)
Definition SADD (now : Time) (k m : string) (r : Redis) : Redis :=
  match present now r k with
  | Some {| val := SetOf s; dies := d |} => <[k := {| val := SetOf ({[m]} ∪ s); dies := d |}]> r
  | Some _ => r
  | None => <[k := {| val := SetOf {[m]}; dies := None |}]> r
  end.
Definition EXPIRE (now : Time) (k : string) (life : Z) (r : Redis) : Redis :=
  match present now r k with
  | Some i => if (life <=? 0)%Z then delete k r else <[k := {| val := val i; dies := Some (now + life)%Z |}]> r
  | None => r
  end.
Definition DEL (ks : list string) (r : Redis) : Redis := foldr delete r ks.

Inductive cache_error := ErrMissingTenantScope | ErrCanceled | ErrNilResult | Failed (what : string).

(** What the client makes of a duration: the life [SET] and [EXPIRE] give. *)
Class Lives := { set_life : Z → option Z; expire_life : Z → Z }.
(** How many commands of a pipeline that broke reached the server. *)
Class Pipes := reached : nat → nat.

Section Cache.
Context `{Out : Outside} `{Lv : Lives} `{Pp : Pipes}.
Context (sha256 : bytes → bytes) (marshal : CachedResult → option string) (unmarshal : string → option CachedResult).
Context (KeyPrefix : string) (DefaultTTL : Z) (TenantTTL : option (string → Z → Z)).

Abbreviation M := (Eff Redis cache_error) (only parsing).

(** Calls at the time Redis reads. *)
Definition redis_read {A} (what : string) (f : Time → Redis → A) : M A := λ w,
  eread (Failed what) (f (clock (calls_made w) 0)) w.
Definition redis_write (what : string) (f : Time → Redis → Redis) : M unit := λ w,
  ewrite (Failed what) (f (clock (calls_made w) 0)) w.
Definition Exec (what : string) (cmds : Time → list (Redis → Redis)) : M unit := λ w,
  let n := calls_made w in
  let run (l : list (Redis → Redis)) := foldl (λ r c, c r) (store w) l in
  let l := cmds (clock n 0) in
  match fate n with
  | Performed => (Ok tt, {| store := run l; calls_made := S n |})
  | Refused => (Err (Failed what), {| store := store w; calls_made := S n |})
  | ReplyLost => (Err (Failed what), {| store := run (take (reached n) l); calls_made := S n |})
  end.

(** ** Keys *)

Definition resolveTTL (tenantID : string) (ttl : Z) : Z :=
  let t := if (ttl =? 0)%Z then DefaultTTL else ttl in
  match TenantTTL with Some f => f tenantID t | None => t end.

Definition nul : bytes := [ascii_of_N 0].
Definition hashed (tenantID channelID : string) (emb : list float) (scopeHash : string) : bytes :=
  to_bytes tenantID ++ nul ++ to_bytes channelID ++ nul ++
  (emb ≫= λ v, rev (ScopeKey.be_bytes 4 (ScopeKey.f32_bits v))) ++ nul ++ to_bytes scopeHash.

Definition CacheKey (tenantID channelID : string) (emb : list float) (scopeHash : string) : string :=
  str_app KeyPrefix (str_app "cache:" (str_app tenantID (str_app ":"
    (of_bytes (AuditIntegrity.hex (sha256 (hashed tenantID channelID emb scopeHash))))))).
Definition sourceTagKey (tenantID sourceID : string) : string :=
  str_app KeyPrefix (str_app "cache-tag:source:" (str_app tenantID (str_app ":" sourceID))).
Definition memberKey (tenantID chunkID : string) : string :=
  str_app KeyPrefix (str_app "members:" (str_app tenantID (str_app ":" chunkID))).

(** The distinct values that are not empty, in order. *)
Fixpoint distinct (seen : list string) (l : list string) : list string :=
  match l with
  | [] => []
  | x :: r => if str_empty x || bool_decide (x ∈ seen) then distinct seen r else x :: distinct (x :: seen) r
  end.
Definition chunkIDs (hits : list CachedHit) : list string := distinct [] (k_ID <$> hits).
Definition sourceIDs (hits : list CachedHit) : list string := distinct [] (k_SourceID <$> hits).

(** ** Operations *)

(** The checks all operations begin with; [ctx] is the error of the context. *)
Definition guarded {A} (ctx : option cache_error) (tenantID : string) (k : M A) : M A :=
  if str_empty tenantID then ethrow ErrMissingTenantScope
  else match ctx with Some e => ethrow e | None => k end.

(** A corrupt entry counts as a miss. *)
Definition Get (ctx : option cache_error) (tenantID channelID : string) (emb : list float) (scopeHash : string) : M (option CachedResult) :=
  guarded ctx tenantID (
    let@ raw := redis_read "get" (λ now, GET now (CacheKey tenantID channelID emb scopeHash)) in
    eret (match raw with Some s => unmarshal s | None => None end)).

(** The fields [Set] fills in. *)
Definition completed (now : Time) (res : CachedResult) : CachedResult :=
  {| Hits := Hits res; CachedAt := if time_is_zero (CachedAt res) then now else CachedAt res;
     ChunkIDs := match ChunkIDs res with [] => chunkIDs (Hits res) | l => l end |}.

(** The sets an answer is entered in. *)
Definition tags (tenantID : string) (res : CachedResult) : list string :=
  (memberKey tenantID <$> ChunkIDs res) ++ (sourceTagKey tenantID <$> sourceIDs (Hits res)).

Definition set_commands (tenantID key payload : string) (res : CachedResult) (ttl : Z) (now : Time) : list (Redis → Redis) :=
  SET now key payload (set_life ttl) :: (tags tenantID res ≫= λ t, [SADD now t key; EXPIRE now t (expire_life ttl)]).

Definition Set_ (ctx : option cache_error) (now : Time) (tenantID channelID : string) (emb : list float) (scopeHash : string)
    (result : option CachedResult) (ttl : Z) : M unit :=
  guarded ctx tenantID
    match result with
    | None => ethrow ErrNilResult
    | Some r =>
        let res := completed now r in
        match marshal res with
        | None => ethrow (Failed "marshal")
        | Some payload =>
            Exec "set" (set_commands tenantID (CacheKey tenantID channelID emb scopeHash) payload res (resolveTTL tenantID ttl))
        end
    end.

(** The loop of both invalidations: the members of each set, which is deleted. *)
Fixpoint gather (what : string * string) (tagKeys : list string) (keys : gset string) : M (gset string) :=
  match tagKeys with
  | [] => eret keys
  | tk :: rest =>
      let@ members := redis_read what.1 (λ now, SMEMBERS now tk) in
      let@ _ := redis_write what.2 (λ _, DEL [tk]) in
      gather what rest (members ∪ keys)
  end.

Definition drop_tagged (what : string * string) (tagKeys : list string) : M unit :=
  let@ keys := gather what tagKeys ∅ in
  if bool_decide (keys = ∅) then eret tt else redis_write "del entries" (λ _, DEL (elements keys)).

Definition Invalidate (ctx : option cache_error) (tenantID : string) (ids : list string) : M unit :=
  guarded ctx tenantID match ids with [] => eret tt | _ => drop_tagged ("smembers", "del members")%string (memberKey tenantID <$> ids) end.
Definition InvalidateBySources (ctx : option cache_error) (tenantID : string) (ids : list string) : M unit :=
  guarded ctx tenantID match ids with [] => eret tt | _ => drop_tagged ("smembers tag", "del tag")%string (sourceTagKey tenantID <$> ids) end.

(** What the caller gets, and whether a refresh is started in the background. *)
Definition GetOrRefresh (ctx : option cache_error) (now : Time) (tenantID channelID : string) (emb : list float) (scopeHash : string)
    (staleAfter : Z) (can_refresh : bool) : M (option CachedResult * bool) :=
  let@ cached := Get ctx tenantID channelID emb scopeHash in
  eret (match cached with
        | Some c => (cached, can_refresh && (0 <? staleAfter)%Z && (staleAfter <=? time_sub now (CachedAt c))%Z)
        | None => (None, can_refresh)
        end).

(** The background refresh: what was rebuilt is stored, errors are dropped. *)
Definition refresh_entry {E} (now : Time) (tenantID channelID : string) (emb : list float) (scopeHash : string) (ttl : Z)
    (fresh : result (option CachedResult) E) : M unit := λ w,
  match fresh with
  | Ok (Some r) => (Ok tt, (Set_ None now tenantID channelID emb scopeHash (Some r) ttl w).2)
  | _ => (Ok tt, w)
  end.

(** ** Keys do not mix *)

Lemma key_split (a b : string) (x y : string) :
  str_app KeyPrefix (str_app a x) = str_app KeyPrefix (str_app b y) → to_bytes a ++ to_bytes x = to_bytes b ++ to_bytes y.
Proof. intros E. apply (f_equal to_bytes) in E. rewrite !to_bytes_app in E. by apply app_inv_head in E. Qed.

Definition is_entry (t k : string) : Prop := ∃ ch emb sc, k = CacheKey t ch emb sc.
Definition is_tag (k : string) : Prop := ∃ t x, k = memberKey t x ∨ k = sourceTagKey t x.

Lemma tag_not_entry k t : is_tag k → is_entry t k → False.
Proof. intros (u & x & [->| ->]) (ch & emb & sc & E); apply key_split in E; discriminate E. Qed.

Lemma tags_are_tags t res k : k ∈ tags t res → is_tag k.
Proof.
  unfold tags. intros [Hk|Hk]%elem_of_app; apply list_elem_of_fmap in Hk as (x & -> & _); exists t, x; [by left|by right].
Qed.

Lemma hex_length b : length (AuditIntegrity.hex b) = 2 * length b.
Proof.
  induction b as [|a b IH]; [done|]. unfold AuditIntegrity.hex in *. rewrite bind_cons, length_app, IH. simpl. lia.
Qed.

(** Every key of an entry names its tenant: entries of two tenants never share a key. *)
Lemma entry_tenant t u k : (∀ l, length (sha256 l) = 32) → is_entry t k → is_entry u k → t = u.
Proof.
  intros Hs (ch & emb & sc & ->) (ch' & emb' & sc' & E). apply key_split in E. apply app_inv_head in E.
  rewrite !to_bytes_app, !to_of_bytes in E.
  apply app_inj_2 in E as [E _]; [|rewrite !length_app, !hex_length, !Hs; done]. by apply to_bytes_inj.
Qed.

(** What adding to a set and renewing it leaves of the rest. *)
Lemma SADD_other now tag k r x : x ≠ tag → SADD now tag k r !! x = r !! x.
Proof.
  intros Hx. unfold SADD. destruct (present now r tag) as [[[s|m] d]|]; [done|by rewrite lookup_insert_ne|by rewrite lookup_insert_ne].
Qed.

Lemma EXPIRE_other now tag life r x : x ≠ tag → EXPIRE now tag life r !! x = r !! x.
Proof.
  intros Hx. unfold EXPIRE. destruct (present now r tag) as [i|]; [|done].
  destruct (life <=? 0)%Z; [by rewrite lookup_delete_ne|by rewrite lookup_insert_ne].
Qed.

Lemma add_tag_other now tag k life r x : x ≠ tag → EXPIRE now tag life (SADD now tag k r) !! x = r !! x.
Proof. intros Hx. by rewrite EXPIRE_other, SADD_other. Qed.

(** ** What is stored is read back *)

(** The encoding of answers is idealised: encoding/json replaces invalid UTF-8 and reads
    back the numbers of the metadata as floats. *)
Definition codec_ok : Prop := ∀ res s, marshal res = Some s → unmarshal s = Some res.

Lemma commands_keep now key life ts r x :
  x ∉ ts → foldl (λ r c, c r) r (ts ≫= λ t, [SADD now t key; EXPIRE now t life]) !! x = r !! x.
Proof.
  revert r. induction ts as [|t ts IH]; intros r Hx; [done|]. rewrite bind_cons, foldl_app. cbn [foldl].
  rewrite IH by set_solver. apply add_tag_other. set_solver.
Qed.

(** An answer that was stored is returned until its time is over, with its time and its
    chunks filled in; and the answers of other tenants are left as they are. *)
Theorem Get_returns_Set ctx tm t ch emb sc r ttl l w w' :
  (∀ x, length (sha256 x) = 32) → codec_ok → Set_ ctx tm t ch emb sc (Some r) ttl w = (Ok tt, w') → set_life (resolveTTL t ttl) = Some l →
  (fate (calls_made w') = Performed → (clock (calls_made w') 0 < clock (calls_made w) 0 + l)%Z →
    (Get None t ch emb sc w').1 = Ok (Some (completed tm r))) ∧
  ∀ u k, u ≠ t → is_entry u k → store w' !! k = store w !! k.
Proof.
  intros Hsha Hc Hs Hl. unfold Set_, guarded in Hs. destruct (str_empty t) eqn:Et; [done|]. destruct ctx; [done|].
  destruct (marshal (completed tm r)) as [payload|] eqn:Ep; [|done]. unfold Exec in Hs. destruct (fate (calls_made w)); try done.
  injection Hs as <-. cbn [store calls_made]. unfold set_commands. rewrite Hl. cbn [foldl].
  assert (Hkeep : ∀ u k, is_entry u k → k ∉ tags t (completed tm r))
    by (intros u k Hk Hin; eapply tag_not_entry; [by eapply tags_are_tags|exact Hk]).
  split.
  - intros Hf Hlt. unfold Get, guarded. rewrite Et. unfold ebind, redis_read, eread, ecall. cbn [store calls_made]. rewrite Hf. cbn [eret fst].
    unfold GET, present. rewrite commands_keep by (eapply Hkeep; by exists ch, emb, sc). unfold SET. rewrite lookup_insert_eq.
    unfold alive. simpl. rewrite (proj2 (Z.ltb_lt _ _)) by done. by rewrite (Hc _ _ Ep).
  - intros u k Hu Hk. rewrite commands_keep by (by eapply Hkeep). unfold SET. apply lookup_insert_ne. intros <-.
    apply Hu. eapply entry_tenant; [done|exact Hk|]. by exists ch, emb, sc.
Qed.
(** ** The index is complete *)

(** The sets live at least as long as the entries: [L] lies between their lives. *)
Context (L : Z) (HL : (0 < L)%Z).

(** An entry is in all its sets, which live as long as it does. *)
Definition in_sets (r : Redis) (k : string) (d : Time) (ts : list string) : Prop :=
  ∀ t, t ∈ ts → ∃ m d', r !! t = Some {| val := SetOf m; dies := d' |} ∧ k ∈ m ∧ match d' with Some x => (d ≤ x)%Z | None => True end.

(** All entries are, except that [skip] may be on its way, in the sets [sofar]. *)
Definition indexed_but (skip payload : string) (sofar : list string) (now : Time) (r : Redis) : Prop :=
  ∀ k raw e, r !! k = Some {| val := Str raw; dies := e |} →
    ∃ t res d, is_entry t k ∧ unmarshal raw = Some res ∧ e = Some d ∧ (k = skip → raw = payload) ∧
      ((now < d)%Z → (d ≤ now + L)%Z ∧ in_sets r k d (if decide (k = skip) then sofar else tags t res)).

Definition indexed (now : Time) (r : Redis) : Prop :=
  ∀ k raw e, r !! k = Some {| val := Str raw; dies := e |} →
    ∃ t res d, is_entry t k ∧ unmarshal raw = Some res ∧ e = Some d ∧
      ((now < d)%Z → (d ≤ now + L)%Z ∧ in_sets r k d (tags t res)).

Lemma indexed_later now now' r : indexed now r → (now ≤ now')%Z → indexed now' r.
Proof.
  intros Hi Hle k raw e Hk. destruct (Hi k raw e Hk) as (t & res & d & H1 & H2 & H3 & H4).
  exists t, res, d. split_and!; [done..|]. intros Hd. destruct H4 as [H4 H5]; [lia|]. split; [lia|done].
Qed.

Lemma set_opens now r k payload l t res :
  is_entry t k → unmarshal payload = Some res → (0 < l ≤ L)%Z → indexed now r →
  indexed_but k payload [] now (SET now k payload (Some l) r).
Proof.
  intros Hk Hp Hl Hi k' raw e. unfold SET. intros [[<- [= <- <-]]|[Hne He]]%lookup_insert_Some.
  - exists t, res, (now + l)%Z. split_and!; [done|done|done|done|]. intros _. split; [lia|]. rewrite decide_True by done. by intros x ?%elem_of_nil.
  - destruct (Hi k' raw e He) as (t' & res' & d & H1 & H2 & H3 & H4). exists t', res', d. split_and!; [done|done|done|congruence|].
    intros Hd. destruct (H4 Hd) as [H5 H6]. split; [done|]. rewrite decide_False by congruence. intros x Hx.
    destruct (H6 x Hx) as (m & d' & Hm & Hin). exists m, d'. split; [|done]. rewrite <- Hm. apply lookup_insert_ne. intros <-. eapply tag_not_entry; [by eapply tags_are_tags|exact Hk].
Qed.

Lemma add_tag_self now tag k life r :
  (0 < life)%Z → (∀ s d, r !! tag ≠ Some {| val := Str s; dies := d |}) →
  ∃ m, EXPIRE now tag life (SADD now tag k r) !! tag = Some {| val := SetOf m; dies := Some (now + life)%Z |} ∧ k ∈ m ∧
    ∀ m' d', r !! tag = Some {| val := SetOf m'; dies := d' |} → alive now {| val := SetOf m'; dies := d' |} = true → m' ⊆ m.
Proof.
  intros Hl Hs. unfold SADD, present. destruct (r !! tag) as [[[s|m] d]|] eqn:E.
  - by destruct (Hs s d).
  - destruct (alive now {| val := SetOf m; dies := d |}) eqn:Ea.
    + exists ({[k]} ∪ m). unfold EXPIRE, present. rewrite lookup_insert_eq. unfold alive in *. simpl in *. rewrite Ea.
      rewrite (proj2 (Z.leb_gt _ _)) by lia. rewrite lookup_insert_eq. split_and!; [done|set_solver|].
      intros m' d' [= <- <-] _. set_solver.
    + exists {[k]}. unfold EXPIRE, present. rewrite lookup_insert_eq. simpl. rewrite (proj2 (Z.leb_gt _ _)) by lia.
      rewrite lookup_insert_eq. split_and!; [done|set_solver|]. intros m' d' [= <- <-] Ha. congruence.
  - exists {[k]}. unfold EXPIRE, present. rewrite lookup_insert_eq. simpl. rewrite (proj2 (Z.leb_gt _ _)) by lia.
    rewrite lookup_insert_eq. split_and!; [done|set_solver|done].
Qed.

Lemma tag_is_no_entry skip payload sofar now r tag s d :
  indexed_but skip payload sofar now r → is_tag tag → r !! tag ≠ Some {| val := Str s; dies := d |}.
Proof. intros Hi Ht E. destruct (Hi _ _ _ E) as (t & _ & _ & He & _). by eapply tag_not_entry. Qed.

Lemma set_adds now r k payload tag sofar life :
  is_tag tag → (L ≤ life)%Z → indexed_but k payload sofar now r →
  indexed_but k payload (tag :: sofar) now (EXPIRE now tag life (SADD now tag k r)).
Proof.
  intros Ht Hlife Hi.
  destruct (add_tag_self now tag k life r) as (m & Hm & Hkm & Hold); [lia|intros s d; by eapply tag_is_no_entry|].
  intros k' raw e He. destruct (decide (k' = tag)) as [->|Hne]; [by rewrite Hm in He|].
  rewrite add_tag_other in He by done. destruct (Hi k' raw e He) as (t & res & d & H1 & H2 & H3 & Hraw & H4).
  exists t, res, d. split_and!; [done..|]. intros Hd. destruct (H4 Hd) as [H5 H6]. split; [done|].
  assert (Hkeep : in_sets (EXPIRE now tag life (SADD now tag k r)) k' d (if decide (k' = k) then sofar else tags t res)).
  { intros x Hx. destruct (H6 x Hx) as (mx & dx & Hmx & Hin & Hdx). destruct (decide (x = tag)) as [->|Hxt].
    - exists m, (Some (now + life)%Z). split_and!; [done| |lia]. apply (Hold mx dx Hmx); [|done].
      unfold alive. simpl. destruct dx as [y|]; [apply Z.ltb_lt; lia|done].
    - exists mx, dx. by rewrite add_tag_other. }
  destruct (decide (k' = k)) as [->|]; [|done]. intros x [->|Hx]%elem_of_cons; [|by apply Hkeep].
  exists m, (Some (now + life)%Z). split_and!; [done..|lia].
Qed.

Lemma set_adds_all now k payload life ts r sofar :
  Forall is_tag ts → (L ≤ life)%Z → indexed_but k payload sofar now r →
  indexed_but k payload (rev ts ++ sofar) now (foldl (λ r c, c r) r (ts ≫= λ t, [SADD now t k; EXPIRE now t life])).
Proof.
  intros Hts Hlife. revert r sofar. induction Hts as [|t ts Ht Hts IH]; intros r sofar Hi; [done|].
  rewrite bind_cons, foldl_app. cbn [foldl]. simpl rev. rewrite <- app_assoc. apply IH. by apply set_adds.
Qed.

(** A time to live under which the sets outlive the entries. *)
Definition steady (tenant : string) (ttl : Z) : Prop :=
  ∃ l, set_life (resolveTTL tenant ttl) = Some l ∧ (0 < l ≤ L)%Z ∧ (L ≤ expire_life (resolveTTL tenant ttl))%Z.

Lemma Set_indexed ctx tm tenant ch emb sc r ttl w w' :
  codec_ok → steady tenant ttl → Set_ ctx tm tenant ch emb sc r ttl w = (Ok tt, w') →
  indexed (clock (calls_made w) 0) (store w) → indexed (clock (calls_made w) 0) (store w') ∧ calls_made w' = S (calls_made w).
Proof.
  intros Hc (l & Hl & Hl1 & Hl2) Hs Hi. unfold Set_, guarded in Hs. destruct (str_empty tenant); [done|]. destruct ctx; [done|].
  destruct r as [r|]; [|done]. set (res := completed tm r) in *. destruct (marshal res) as [payload|] eqn:Ep; [|done].
  apply Hc in Ep. unfold Exec in Hs. destruct (fate (calls_made w)); try done. injection Hs as <-.
  split; [|done]. cbn [store]. unfold set_commands. rewrite Hl. cbn [foldl].
  set (key := CacheKey tenant ch emb sc). set (t0 := clock (calls_made w) 0) in *.
  assert (Hkey : is_entry tenant key) by by exists ch, emb, sc.
  pose proof (set_adds_all t0 key payload (expire_life (resolveTTL tenant ttl)) (tags tenant res) _ []
    (proj2 (Forall_forall _ _) (tags_are_tags tenant res)) Hl2 (set_opens t0 (store w) key payload l tenant res Hkey Ep Hl1 Hi)) as Hf.
  rewrite app_nil_r in Hf. intros k raw e He. destruct (Hf k raw e He) as (t & rs & d & H1 & H2 & H3 & Hraw & H4).
  destruct (decide (k = key)) as [->|].
  - rewrite (Hraw eq_refl), Ep in H2. injection H2 as <-. rewrite (Hraw eq_refl). exists tenant, res, d. split_and!; [done..|].
    intros Hd. destruct (H4 Hd) as [H5 H6]. split; [done|]. intros x Hx. apply H6.
    by apply list_elem_of_In, in_rev; rewrite rev_involutive; apply list_elem_of_In.
  - by exists t, rs, d.
Qed.

(** The sets hold keys of entries only. *)
Definition members_ok (r : Redis) : Prop :=
  ∀ k m d, r !! k = Some {| val := SetOf m; dies := d |} → ∀ x, x ∈ m → ∃ t, is_entry t x.

Lemma SET_members now k s l r : members_ok r → members_ok (SET now k s l r).
Proof. intros Hr k' m d. unfold SET. intros [[_ [=]]|[_ He]]%lookup_insert_Some. by apply (Hr k' m d). Qed.

Lemma present_lookup now r k i : present now r k = Some i → r !! k = Some i.
Proof. unfold present. destruct (r !! k) as [j|]; [|done]. destruct (alive now j); congruence. Qed.

Lemma SADD_members now tag k t r : is_entry t k → members_ok r → members_ok (SADD now tag k r).
Proof.
  intros Hk Hr. unfold SADD. destruct (present now r tag) as [[[s|m] d]|] eqn:E; [done| |]; intros k' m' d'.
  - apply present_lookup in E. intros [[_ [= <- <-]]|[_ He]]%lookup_insert_Some; [|by apply (Hr k' m' d')].
    intros x [->%elem_of_singleton|Hx]%elem_of_union; [by exists t|]. by eapply Hr.
  - intros [[_ [= <- <-]]|[_ He]]%lookup_insert_Some; [|by apply (Hr k' m' d')]. intros x ->%elem_of_singleton. by exists t.
Qed.

Lemma EXPIRE_members now tag life r : members_ok r → members_ok (EXPIRE now tag life r).
Proof.
  intros Hr. unfold EXPIRE. destruct (present now r tag) as [[v d]|] eqn:E; [|done]. apply present_lookup in E.
  destruct (life <=? 0)%Z; intros k' m' d'.
  - intros [_ He]%lookup_delete_Some. by apply (Hr k' m' d').
  - intros [[_ [= -> <-]]|[_ He]]%lookup_insert_Some; [|by apply (Hr k' m' d')]. by eapply Hr.
Qed.

Lemma commands_members now key payload t ts life l r :
  is_entry t key → members_ok r →
  members_ok (foldl (λ r c, c r) (SET now key payload l r) (ts ≫= λ t, [SADD now t key; EXPIRE now t life])).
Proof.
  intros Hk Hr. apply (SET_members now key payload l) in Hr. revert Hr. generalize (SET now key payload l r).
  induction ts as [|tag ts IH]; intros r' Hr'; [done|]. rewrite bind_cons, foldl_app. apply IH. cbn [foldl].
  by eapply EXPIRE_members, SADD_members.
Qed.

(** ** Invalidation *)

Context (Hclock : ∀ n, (clock n 0 ≤ clock (S n) 0)%Z).

Lemma clock_le n m : n ≤ m → (clock n 0 ≤ clock m 0)%Z.
Proof. induction 1 as [|m _ IH]; [lia|]. specialize (Hclock m). lia. Qed.

Lemma DEL_lookup ks r k : DEL ks r !! k = if decide (k ∈ ks) then None else r !! k.
Proof.
  unfold DEL in *. induction ks as [|x ks IH]; cbn [foldr]; [rewrite decide_False by set_solver; done|].
  destruct (decide (k = x)) as [->|Hne]; [rewrite lookup_delete_eq, decide_True by set_solver; done|].
  rewrite lookup_delete_ne, IH by done. destruct (decide (k ∈ ks)); [rewrite decide_True|rewrite decide_False]; set_solver.
Qed.

Lemma gather_spec what tks keys w keys' w' :
  gather what tks keys w = (Ok keys', w') →
  store w' = DEL (rev tks) (store w) ∧ calls_made w ≤ calls_made w' ∧ keys ⊆ keys' ∧
  (∀ tag m d, tag ∈ tks → store w !! tag = Some {| val := SetOf m; dies := d |} →
    match d with Some x => (clock (calls_made w') 0 < x)%Z | None => True end → m ⊆ keys') ∧
  (members_ok (store w) → (∀ x, x ∈ keys → ∃ t, is_entry t x) → ∀ x, x ∈ keys' → ∃ t, is_entry t x).
Proof.
  revert keys w. induction tks as [|tk tks IH]; intros keys w; cbn [gather].
  { intros [= <- <-]. split_and!; try done. intros tag m d Ht. by apply elem_of_nil in Ht. }
  intros (ms & w1 & Hr & Hk)%ebind_Ok. apply ebind_Ok in Hk as (u & w2 & Hw & Hk).
  unfold redis_read, eread, ecall in Hr. destruct (fate (calls_made w)); try done. injection Hr as <- <-.
  unfold redis_write, ewrite, ecall in Hw. cbn [store calls_made] in Hw. destruct (fate _); try done. injection Hw as <- <-.
  destruct (IH _ _ Hk) as (H1 & H2 & H3 & H4 & H5). cbn [store calls_made] in *. clear IH Hk.
  split_and!; [|lia|set_solver| |].
  - rewrite H1. apply map_eq. intros x. rewrite !DEL_lookup. cbn [rev].
    destruct (decide (x ∈ rev tks ++ [tk])) as [Hx|Hx]; rewrite elem_of_app, list_elem_of_singleton in Hx.
    + destruct (decide (x ∈ rev tks)); [done|]. destruct Hx as [?| ->]; [done|]. apply lookup_delete_eq.
    + rewrite decide_False by tauto. apply lookup_delete_ne. intros ->. tauto.
  - intros tag m d Ht Hm Hd. destruct (decide (tag = tk)) as [->|Hne].
    + trans (SMEMBERS (clock (calls_made w) 0) tk (store w) ∪ keys); [|done].
      unfold SMEMBERS, present. rewrite Hm. unfold alive. simpl. destruct d as [x|]; [|set_solver].
      assert (clock (calls_made w) 0 ≤ clock (calls_made w') 0)%Z by (apply clock_le; lia).
      rewrite (proj2 (Z.ltb_lt _ _)) by lia. set_solver.
    + apply (H4 tag m d); [set_solver| |done]. by rewrite lookup_delete_ne.
  - intros Hok Hkeys. apply H5.
    + intros k m d [_ Hk]%lookup_delete_Some. by apply (Hok k m d).
    + intros x [Hx|Hx]%elem_of_union; [|by apply Hkeys]. unfold SMEMBERS in Hx.
      destruct (present (clock (calls_made w) 0) (store w) tk) as [[[s|m] d]|] eqn:E; [set_solver| |set_solver].
      apply present_lookup in E. by eapply Hok.
Qed.

Definition good (w : Env Redis) : Prop := indexed (clock (calls_made w) 0) (store w) ∧ members_ok (store w).

(** What survives: entries whose sets were not dropped, and they are still in all of them. *)
Lemma drop_tagged_spec what tks w w' :
  drop_tagged what tks w = (Ok tt, w') → good w → Forall is_tag tks →
  good w' ∧
  ∀ k raw e, store w' !! k = Some {| val := Str raw; dies := e |} →
    ∃ t res d, is_entry t k ∧ unmarshal raw = Some res ∧ e = Some d ∧
      ((clock (calls_made w') 0 < d)%Z → ∀ tag, tag ∈ tags t res → tag ∉ tks).
Proof.
  intros (keys & w1 & Hg & Hk)%ebind_Ok [Hi Hok] Ht. destruct (gather_spec _ _ _ _ _ _ Hg) as (H1 & H2 & _ & H4 & H5).
  specialize (H5 Hok (λ x Hx, False_ind _ (not_elem_of_empty x Hx))).
  assert (Hw : calls_made w1 ≤ calls_made w' ∧ ∀ x, store w' !! x = if decide (x ∈ keys ∨ x ∈ tks) then None else store w !! x).
  { assert (Hrev : ∀ x, x ∈ rev tks ↔ x ∈ tks) by (intros x; rewrite !list_elem_of_In; symmetry; apply in_rev).
    case_bool_decide as Ek.
    - injection Hk as <-. split; [done|]. intros x. rewrite H1, DEL_lookup. subst keys.
      destruct (decide (x ∈ rev tks)) as [Hx|Hx]; [rewrite decide_True by (right; by apply Hrev); done|].
      rewrite decide_False; [done|]. intros [Hx'|Hx']; [set_solver|]. by apply Hx, Hrev.
    - unfold redis_write, ewrite, ecall in Hk. destruct (fate _); try done. injection Hk as <-. cbn [store calls_made]. split; [lia|].
      intros x. rewrite DEL_lookup, H1, DEL_lookup.
      destruct (decide (x ∈ elements keys)) as [A|A], (decide (x ∈ rev tks)) as [B|B], (decide (x ∈ keys ∨ x ∈ tks)) as [C|C];
        try done; exfalso; rewrite elem_of_elements in A; rewrite Hrev in B; tauto. }
  destruct Hw as [Hcalls Hlook]. pose proof (clock_le _ _ (Nat.le_trans _ _ _ H2 Hcalls)) as Hle. pose proof (clock_le _ _ Hcalls) as Hle1.
  assert (Hmain : ∀ k raw e, store w' !! k = Some {| val := Str raw; dies := e |} →
    ∃ t res d, is_entry t k ∧ unmarshal raw = Some res ∧ e = Some d ∧
      ((clock (calls_made w') 0 < d)%Z → (d ≤ clock (calls_made w') 0 + L)%Z ∧ in_sets (store w) k d (tags t res) ∧ ∀ tag, tag ∈ tags t res → tag ∉ tks)).
  { intros k raw e He. rewrite Hlook in He. destruct (decide _) as [|Hn]; [done|].
    destruct (Hi k raw e He) as (t & res & d & E1 & E2 & E3 & E4). exists t, res, d. split_and!; [done..|].
    intros Hd. destruct E4 as [E4 E5]; [lia|]. split_and!; [lia|done|]. intros tag Htag Hin.
    destruct (E5 tag Htag) as (m & d' & Hm & Hkm & Hd'). apply Hn. left. apply (H4 tag m d' Hin Hm); [|done].
    destruct d' as [x|]; [lia|done]. }
  split; [split|].
  - intros k raw e He. destruct (Hmain k raw e He) as (t & res & d & E1 & E2 & E3 & E4). exists t, res, d. split_and!; [done..|].
    intros Hd. destruct (E4 Hd) as (E5 & E6 & E7). split; [done|]. intros tag Htag. destruct (E6 tag Htag) as (m & d' & Hm & Hrest).
    exists m, d'. split; [|done]. rewrite Hlook, decide_False; [done|]. intros [Hx|Hx]; [|by apply (E7 tag)].
    destruct (H5 tag Hx) as [u Hu]. eapply tag_not_entry; [by eapply tags_are_tags|exact Hu].
  - intros k m d. rewrite Hlook. destruct (decide _); [done|]. apply Hok.
  - intros k raw e He. destruct (Hmain k raw e He) as (t & res & d & E1 & E2 & E3 & E4). exists t, res, d. split_and!; [done..|]. naive_solver.
Qed.

(** ** Histories *)

(** The operations that were carried out; one that changed nothing may have failed. *)
Inductive step : Env Redis → Env Redis → Prop :=
| step_set ctx tm t ch emb sc r ttl w w' : steady t ttl → Set_ ctx tm t ch emb sc r ttl w = (Ok tt, w') → step w w'
| step_invalidate ctx t ids w w' : Invalidate ctx t ids w = (Ok tt, w') → step w w'
| step_sources ctx t ids w w' : InvalidateBySources ctx t ids w = (Ok tt, w') → step w w'
| step_nothing w w' : store w' = store w → calls_made w ≤ calls_made w' → step w w'.

Lemma good_later w w' : good w → store w' = store w → calls_made w ≤ calls_made w' → good w'.
Proof.
  intros [Hi Hm] Es Hc. split; [|by rewrite Es]. rewrite Es. eapply indexed_later; [exact Hi|]. by apply clock_le.
Qed.

Lemma Set_good ctx tm t ch emb sc r ttl w w' :
  codec_ok → steady t ttl → Set_ ctx tm t ch emb sc r ttl w = (Ok tt, w') → good w → good w'.
Proof.
  intros Hc Hst Hs [Hi Hm]. destruct (Set_indexed _ _ _ _ _ _ _ _ _ _ Hc Hst Hs Hi) as [Hi' Hn]. split.
  - rewrite Hn. by eapply indexed_later.
  - unfold Set_, guarded in Hs. destruct (str_empty t); [done|]. destruct ctx; [done|]. destruct r as [r|]; [|done].
    destruct (marshal _) as [payload|]; [|done]. unfold Exec in Hs. destruct (fate (calls_made w)); try done. injection Hs as <-.
    cbn [store]. unfold set_commands. cbn [foldl]. apply (commands_members _ _ _ t); [by exists ch, emb, sc|done].
Qed.

Lemma memberKeys_tags t ids : Forall is_tag (memberKey t <$> ids).
Proof. apply Forall_fmap, Forall_true. intros x. exists t, x. by left. Qed.
Lemma sourceTagKeys_tags t ids : Forall is_tag (sourceTagKey t <$> ids).
Proof. apply Forall_fmap, Forall_true. intros x. exists t, x. by right. Qed.

(** An invalidation that reported success, as the dropping of its sets. *)
Lemma invalidation_good {A} ctx t what (ids : list A) f w w' :
  guarded ctx t (match ids with [] => eret tt | _ => drop_tagged what (f <$> ids) end) w = (Ok tt, w') →
  Forall is_tag (f <$> ids) → good w → good w'.
Proof.
  unfold guarded. destruct (str_empty t); [done|]. destruct ctx; [done|]. destruct ids as [|x ids]; [by intros [= <-]|].
  intros Hd Ht Hg. by destruct (drop_tagged_spec _ _ _ _ Hd Hg Ht).
Qed.

Lemma step_good w w' : codec_ok → step w w' → good w → good w'.
Proof.
  intros Hc [ctx tm t ch emb sc r ttl w1 w2 Hst Hs|ctx t ids w1 w2 Hd|ctx t ids w1 w2 Hd|w1 w2 Es Hn] Hg.
  - by eapply Set_good.
  - eapply invalidation_good; [exact Hd|apply memberKeys_tags|done].
  - eapply invalidation_good; [exact Hd|apply sourceTagKeys_tags|done].
  - by eapply good_later.
Qed.

Lemma empty_good n : good {| store := ∅; calls_made := n |}.
Proof. split; [intros k raw e He|intros k m d He]; cbn [store] in He; by rewrite lookup_empty in He. Qed.

Lemma reachable_good n w : codec_ok → rtc step {| store := ∅; calls_made := n |} w → good w.
Proof.
  intros Hc Hr. assert (Hg := empty_good n). revert Hg. induction Hr as [|w1 w2 w3 Hs _ IH]; [done|]. intros Hg. apply IH. by eapply step_good.
Qed.

Lemma distinct_elem seen l x : x ∈ distinct seen l ↔ x ∈ l ∧ x ≠ EmptyString ∧ x ∉ seen.
Proof.
  revert seen. induction l as [|y l IH]; intros seen; simpl; [set_solver|].
  destruct (str_empty y) eqn:Ey; simpl.
  - apply str_empty_true in Ey as ->. rewrite IH. set_solver.
  - apply str_empty_false in Ey. case_bool_decide as Hs.
    + rewrite IH. set_solver.
    + rewrite !elem_of_cons, IH, elem_of_cons. destruct (decide (x = y)) as [->|]; naive_solver.
Qed.

(** What a read returns is an entry whose sets are there. *)
Lemma Get_after_drop what tks w w' t ch emb sc res w'' :
  (∀ l, length (sha256 l) = 32) → drop_tagged what tks w = (Ok tt, w') → good w → Forall is_tag tks →
  Get None t ch emb sc w' = (Ok (Some res), w'') → ∀ tag, tag ∈ tags t res → tag ∉ tks.
Proof.
  intros Hsha Hd Hg Ht HG. destruct (drop_tagged_spec _ _ _ _ Hd Hg Ht) as [_ Hs].
  unfold Get, guarded in HG. destruct (str_empty t); [done|]. apply ebind_Ok in HG as (raw & w1 & Hr & HG).
  unfold redis_read, eread, ecall in Hr. destruct (fate (calls_made w')); try done. injection Hr as <- _.
  injection HG as HG _. unfold GET, present in HG.
  destruct (store w' !! CacheKey t ch emb sc) as [[[s|m] e]|] eqn:E; [| |done]; destruct (alive _ _) eqn:Ea; try done.
  destruct (Hs _ _ _ E) as (u & res' & d & E1 & E2 & -> & E4). rewrite HG in E2. injection E2 as <-.
  assert (u = t) as -> by (eapply entry_tenant; [done|exact E1|by exists ch, emb, sc]).
  apply E4. unfold alive in Ea. simpl in Ea. by apply Z.ltb_lt.
Qed.

(** C32: after a chunk was invalidated no answer that holds it is served, and after a source
    was invalidated none that holds a hit of it, whatever was stored and invalidated
    before by any tenant: provided those operations followed one another in time, none
    failed halfway, the sets of the index live as long as the answers, and an answer that
    was encoded decodes to itself (an idealisation of encoding/json, which changes invalid
    UTF-8 and the types of numbers in the metadata), every answer is found through every
    one of its chunks and sources. *)
Theorem invalidated_is_not_served n w w' t ids ch emb sc res w'' :
  (∀ l, length (sha256 l) = 32) → codec_ok → rtc step {| store := ∅; calls_made := n |} w →
  Get None t ch emb sc w' = (Ok (Some res), w'') →
  (Invalidate None t ids w = (Ok tt, w') → ∀ c, c ∈ ids → c ∉ ChunkIDs res) ∧
  (InvalidateBySources None t ids w = (Ok tt, w') → ∀ h, h ∈ Hits res → k_SourceID h ≠ EmptyString → k_SourceID h ∉ ids).
Proof.
  intros Hsha Hc Hr HG. apply (reachable_good n w Hc) in Hr.
  assert (Ht : str_empty t = false) by (unfold Get, guarded in HG; by destruct (str_empty t)).
  split; intros Hd; unfold Invalidate, InvalidateBySources, guarded in Hd; rewrite Ht in Hd;
    (destruct ids as [|i ids]; [intros c Hin; try set_solver; intros _; set_solver|]).
  - intros c Hin Hres.
    apply (Get_after_drop _ _ _ _ _ _ _ _ _ _ Hsha Hd Hr (memberKeys_tags t (i :: ids)) HG (memberKey t c)); [|by apply list_elem_of_fmap_2].
    apply elem_of_app. left. by apply list_elem_of_fmap_2.
  - intros h Hh Hne Hin.
    apply (Get_after_drop _ _ _ _ _ _ _ _ _ _ Hsha Hd Hr (sourceTagKeys_tags t (i :: ids)) HG (sourceTagKey t (k_SourceID h))); [|by apply list_elem_of_fmap_2].
    apply elem_of_app. right. apply list_elem_of_fmap_2, distinct_elem. split_and!; [by apply list_elem_of_fmap_2|done|set_solver].
Qed.

End Cache.
End SemanticCache.

(** ** On a concrete server *)

Module SemanticCacheSamples.
Import SemanticCache.

(** One second passes between calls; durations are whole seconds for [EXPIRE]. *)
Definition quiet : Outside := {| fate := λ _, Performed; clock := λ n _, (Z.of_nat n * second)%Z |}.
Definition failing (k : nat) : Outside := {| fate := λ n, if Nat.eqb n k then Refused else Performed; clock := λ n _, (Z.of_nat n * second)%Z |}.
Definition breaking (k : nat) : Outside := {| fate := λ n, if Nat.eqb n k then ReplyLost else Performed; clock := λ n _, (Z.of_nat n * second)%Z |}.
#[local] Instance lives : Lives := {| set_life := λ t, if (t <=? 0)%Z then None else Some t; expire_life := λ t, (t / second * second)%Z |}.
#[local] Instance first_only : Pipes := λ _, 1.

(** Not a hash, and an encoding of answers with one chunk. *)
Definition digest (l : bytes) : bytes := take 32 (rev l ++ replicate 32 "0"%char).
Definition answer (c : string) : CachedResult := {| Hits := []; CachedAt := 5; ChunkIDs := [c] |}.
Definition enc (r : CachedResult) : option string :=
  match r with {| Hits := []; CachedAt := 5; ChunkIDs := [c] |} => Some c | _ => None end.
Definition dec (s : string) : option CachedResult := Some (answer s).

Lemma digest_length l : length (digest l) = 32.
Proof. unfold digest. rewrite length_take, length_app, length_replicate. lia. Qed.

Lemma enc_dec : codec_ok enc dec.
Proof.
  intros [[|h hs] at_ ids] s He; simpl in He.
  - destruct at_ as [|p|]; try done. do 3 (destruct p as [p|p|]; try done). destruct ids as [|c [|]]; try done. by injection He as <-.
  - done.
Qed.

Definition ttl : Z := (60 * second)%Z.
Definition start : Env (gmap string item) := {| store := ∅; calls_made := 0 |}.

Definition put (o : Outside) (ch c : string) (t : Z) : Eff (gmap string item) cache_error unit :=
  @Set_ o lives first_only digest enc "hf:" ttl None None 5 "acme" ch [] "s" (Some (answer c)) t.
Definition drop (o : Outside) (c : string) : Eff (gmap string item) cache_error unit := @Invalidate o "hf:" None "acme" [c].
Definition look (o : Outside) (ch : string) : Eff (gmap string item) cache_error (option CachedResult) :=
  @Get o digest dec "hf:" None "acme" ch [] "s".

Definition held (r : result (option CachedResult) cache_error) : option (list string) :=
  match r with Ok (Some a) => Some (ChunkIDs a) | _ => None end.

Lemma invalidated_is_not_served_witness :
  let w := (put quiet "b" "c2" 0 (put quiet "a" "c1" 0 start).2).2 in
  held (look quiet "a" w).1 = Some ["c1"%string] ∧
  (drop quiet "c1" w).1 = Ok tt ∧ held (look quiet "a" (drop quiet "c1" w).2).1 = None ∧
  ∀ res w'', look quiet "b" (drop quiet "c1" w).2 = (Ok (Some res), w'') → "c1"%string ∉ ChunkIDs res.
Proof.
  split; [vm_compute; reflexivity|]. split; [vm_compute; reflexivity|]. split; [vm_compute; reflexivity|].
  intros res w'' Hl.
  apply (@invalidated_is_not_served quiet lives first_only digest enc dec "hf:" ttl None (60 * second)%Z eq_refl
    ltac:(intros n; unfold quiet, clock, second; lia) 0 (put quiet "b" "c2" 0 (put quiet "a" "c1" 0 start).2).2
    (drop quiet "c1" (put quiet "b" "c2" 0 (put quiet "a" "c1" 0 start).2).2).2 "acme" ["c1"%string] "b" [] "s" res w'' digest_length enc_dec); [|exact Hl|vm_compute; reflexivity|by left].
  assert (Hst : steady ttl None (60 * second) "acme" 0) by (exists (60 * second)%Z; split; [reflexivity|split; [|]; vm_compute; repeat split; discriminate]).
  assert (Hput : ∀ ch c w, (put quiet ch c 0 w).1 = Ok tt →
    @step quiet lives first_only digest enc "hf:" ttl None (60 * second) w (put quiet ch c 0 w).2).
  { intros ch c w Hok.
    refine (@step_set quiet lives first_only digest enc "hf:" ttl None (60 * second) None 5 "acme" ch [] "s" (Some (answer c)) 0 w _ Hst _).
    change (put quiet ch c 0 w = (Ok tt, (put quiet ch c 0 w).2)). rewrite <- Hok. apply surjective_pairing. }
  eapply rtc_l; [apply Hput; vm_compute; reflexivity|].
  eapply rtc_l; [apply Hput; vm_compute; reflexivity|]. apply rtc_refl.
Defined.

(** The sets are deleted before the entries: when the last call of an invalidation
    fails, repeating it reports success and the stale answer stays. *)
Example failed_invalidation_hides_entry :
  let w := (put (failing 3) "a" "c1" 0 start).2 in
  let w1 := (drop (failing 3) "c1" w).2 in
  (drop (failing 3) "c1" w).1 = Err (Failed "del entries") ∧ (drop (failing 3) "c1" w1).1 = Ok tt ∧
  held (look (failing 3) "a" (drop (failing 3) "c1" w1).2).1 = Some ["c1"%string].
Proof. vm_compute. repeat split. Qed.

(** The entry is written before the sets: a pipeline that breaks off leaves an answer no
    invalidation finds. *)
Example broken_pipeline_hides_entry :
  let w := (put (breaking 0) "a" "c1" 0 start).2 in
  (put (breaking 0) "a" "c1" 0 start).1 = Err (Failed "set") ∧ (drop (breaking 0) "c1" w).1 = Ok tt ∧
  held (look (breaking 0) "a" (drop (breaking 0) "c1" w).2).1 = Some ["c1"%string].
Proof. vm_compute. repeat split. Qed.

(** A second answer with a shorter life shortens the life of the set they share: the
    first one outlives it and cannot be invalidated. *)
Example shorter_life_hides_entry :
  let w := (put quiet "b" "c1" second (put quiet "a" "c1" ttl start).2).2 in
  (drop quiet "c1" (look quiet "a" w).2).1 = Ok tt ∧ held (look quiet "a" (drop quiet "c1" (look quiet "a" w).2).2).1 = Some ["c1"%string].
Proof. vm_compute. repeat split. Qed.

(** An answer stored between the reading and the deleting of a set is dropped from the
    index and stays in the cache. *)
Example interleaved_set_hides_entry :
  let tag := memberKey "hf:" "acme" "c1" in
  let w1 := (@redis_read quiet _ "smembers" (λ now, SMEMBERS now tag) start).2 in
  let w2 := (put quiet "a" "c1" 0 w1).2 in
  let w3 := (@redis_write quiet "del" (λ _, DEL [tag]) w2).2 in
  (drop quiet "c1" w3).1 = Ok tt ∧ held (look quiet "a" (drop quiet "c1" w3).2).1 = Some ["c1"%string].
Proof. vm_compute. repeat split. Qed.
End SemanticCacheSamples.
