(* ===== verification/WebhookRouter.v ===== *)
(** * The webhook router (admin/webhook_router.go)

    One entry for all connectors: the source is looked up, the connector is resolved, the
    request is verified and handed on, and every step is audited. Connectors are given by
    the interfaces they implement. *)

From Stdlib Require Import Ascii.
From S2P Require Import Prelude GoFloat GoString GoText Calendar GoTime Effects Sources AuditIntegrity Json ConnectorBase CodeHosts.

Module WebhookRouter.
Import Connector.

Definition Headers : Type := list (string * list string).

(** ** base64 *)

Definition unb64 (c : ascii) : option N :=
  let b := N_of_ascii c in
  if ((65 <=? b) && (b <=? 90))%N then Some (b - 65)%N
  else if ((97 <=? b) && (b <=? 122))%N then Some (b - 71)%N
  else if ((48 <=? b) && (b <=? 57))%N then Some (b + 4)%N
  else if (b =? 43)%N then Some 62%N else if (b =? 47)%N then Some 63%N else None.

Definition pad (c : ascii) : bool := Ascii.eqb c "="%char.

Fixpoint quanta (l : bytes) : option bytes :=
  match l with
  | [] => Some []
  | a :: b :: c :: d :: r =>
      get x from unb64 a in get y from unb64 b in
      if pad c && pad d && bool_decide (r = []) then Some [ascii_of_N (x * 4 + y / 16)]
      else get z from unb64 c in
        if pad d && bool_decide (r = []) then Some [ascii_of_N (x * 4 + y / 16); ascii_of_N (y mod 16 * 16 + z / 4)]
        else get u from unb64 d in get rest from quanta r in
          Some (ascii_of_N (x * 4 + y / 16) :: ascii_of_N (y mod 16 * 16 + z / 4) :: ascii_of_N (z mod 4 * 64 + u) :: rest)
  | _ => None
  end.

(** [base64.StdEncoding.DecodeString]: line ends are skipped. *)
Definition inline (c : ascii) : bool := negb (N_of_ascii c =? 10)%N && negb (N_of_ascii c =? 13)%N.
Definition b64_decode (l : bytes) : option bytes :=
  quanta (List.filter inline l).

Lemma unb64_char n : (n < 64)%N → unb64 (b64_char n) = Some n ∧ pad (b64_char n) = false ∧ N_of_ascii (b64_char n) ≠ 10%N ∧ N_of_ascii (b64_char n) ≠ 13%N.
Proof.
  intros Hn. destruct n as [|p]; [done|]. do 6 (destruct p as [p|p|]; [| |done]); lia.
Qed.

(** Three bytes as four digits. *)
Lemma digits_bytes a b c :
  (a < 256)%N → (b < 256)%N → (c < 256)%N →
  let v := (a * 65536 + b * 256 + c)%N in
  let x := (v / 262144)%N in let y := (v / 4096 mod 64)%N in let z := (v / 64 mod 64)%N in let u := (v mod 64)%N in
  (x < 64 ∧ y < 64 ∧ z < 64 ∧ u < 64 ∧ x * 4 + y / 16 = a ∧ y mod 16 * 16 + z / 4 = b ∧ z mod 4 * 64 + u = c)%N.
Proof.
  intros Ha Hb Hc. cbv zeta.
  assert (Hdm : ∀ d q r v, (v = d * q + r → r < d → v / d = q ∧ v mod d = r)%N)
    by (intros d q r v E Hr; split; symmetry; [by eapply N.div_unique|by eapply N.mod_unique]).
  pose proof (N.div_mod a 4 ltac:(done)) as Ea. pose proof (N.mod_lt a 4 ltac:(done)) as La.
  pose proof (N.div_mod b 16 ltac:(done)) as Eb. pose proof (N.mod_lt b 16 ltac:(done)) as Lb.
  pose proof (N.div_mod c 64 ltac:(done)) as Ec. pose proof (N.mod_lt c 64 ltac:(done)) as Lc.
  set (a1 := (a / 4)%N) in *. set (a0 := (a mod 4)%N) in *. set (b1 := (b / 16)%N) in *. set (b0 := (b mod 16)%N) in *.
  set (c1 := (c / 64)%N) in *. set (c0 := (c mod 64)%N) in *. set (v := (a * 65536 + b * 256 + c)%N).
  destruct (Hdm 262144 a1 (a0 * 65536 + b1 * 4096 + b0 * 256 + c1 * 64 + c0) v)%N as [-> _]; [subst v; lia|lia|].
  destruct (Hdm 4096 (a1 * 64 + (a0 * 16 + b1)) (b0 * 256 + c1 * 64 + c0) v)%N as [-> _]; [subst v; lia|lia|].
  destruct (Hdm 64 a1 (a0 * 16 + b1) (a1 * 64 + (a0 * 16 + b1)))%N as [_ ->]; [lia|lia|].
  destruct (Hdm 64 (a1 * 4096 + a0 * 1024 + b1 * 64 + (b0 * 4 + c1)) c0 v)%N as [-> ->]; [subst v; lia|lia|].
  destruct (Hdm 64 (a1 * 64 + a0 * 16 + b1) (b0 * 4 + c1) (a1 * 4096 + a0 * 1024 + b1 * 64 + (b0 * 4 + c1)))%N as [_ ->]; [lia|lia|].
  destruct (Hdm 16 a0 b1 (a0 * 16 + b1))%N as [-> ->]; [lia|lia|]. destruct (Hdm 4 b0 c1 (b0 * 4 + c1))%N as [-> ->]; [lia|lia|].
  split_and!; lia.
Qed.

Lemma quanta_digit3 a b c r :
  quanta (base64 (a :: b :: c :: r)) = get rest from quanta (base64 r) in Some (a :: b :: c :: rest).
Proof.
  cbn [base64]. set (v := (N_of_ascii a * 65536 + N_of_ascii b * 256 + N_of_ascii c)%N).
  destruct (digits_bytes (N_of_ascii a) (N_of_ascii b) (N_of_ascii c) (N_ascii_bounded a) (N_ascii_bounded b) (N_ascii_bounded c))
    as (Hx & Hy & Hz & Hu & E1 & E2 & E3). fold v in Hx, Hy, Hz, Hu, E1, E2, E3.
  cbn [quanta]. destruct (unb64_char _ Hx) as (-> & _). destruct (unb64_char _ Hy) as (-> & _).
  destruct (unb64_char _ Hz) as (-> & -> & _). destruct (unb64_char _ Hu) as (-> & -> & _). cbn [andb].
  rewrite E1, E2, E3, !ascii_N_embedding. done.
Qed.

Lemma quanta_base64 l : quanta (base64 l) = Some l.
Proof.
  assert (Hind : ∀ n l, length l < n → quanta (base64 l) = Some l).
  { induction n as [|n IH]; intros l' Hl; [lia|]. destruct l' as [|a [|b [|c r]]]; [done| | |].
    - cbn [base64]. set (v := (N_of_ascii a * 16)%N).
      destruct (digits_bytes (N_of_ascii a) 0 0 (N_ascii_bounded a) eq_refl eq_refl) as (Hx & Hy & _ & _ & E1 & _).
      assert (Ev : (N_of_ascii a * 65536 + 0 * 256 + 0 = v * 4096)%N) by lia. rewrite Ev in *.
      assert (H1 : (v * 4096 / 262144 = v / 64)%N) by (zify; Z.to_euclidean_division_equations; lia).
      assert (H2 : (v * 4096 / 4096 = v)%N) by (apply N.div_mul; done). rewrite H1, H2 in *.
      cbn [quanta]. destruct (unb64_char _ Hx) as (-> & _). destruct (unb64_char _ Hy) as (-> & _). cbn. by rewrite E1, ascii_N_embedding.
    - cbn [base64]. set (v := (N_of_ascii a * 1024 + N_of_ascii b * 4)%N).
      destruct (digits_bytes (N_of_ascii a) (N_of_ascii b) 0 (N_ascii_bounded a) (N_ascii_bounded b) eq_refl) as (Hx & Hy & Hz & _ & E1 & E2 & _).
      assert (Ev : (N_of_ascii a * 65536 + N_of_ascii b * 256 + 0 = v * 64)%N) by lia. rewrite Ev in *.
      assert (H1 : (v * 64 / 262144 = v / 4096)%N) by (zify; Z.to_euclidean_division_equations; lia).
      assert (H2 : (v * 64 / 4096 = v / 64)%N) by (zify; Z.to_euclidean_division_equations; lia).
      assert (H3 : (v * 64 / 64 = v)%N) by (apply N.div_mul; done). rewrite H1, H2, H3 in *.
      cbn [quanta]. destruct (unb64_char _ Hx) as (-> & _). destruct (unb64_char _ Hy) as (-> & _).
      destruct (unb64_char _ Hz) as (-> & -> & _). cbn [andb pad Ascii.eqb Bool.eqb bool_decide]. cbn. by rewrite E1, E2, !ascii_N_embedding.
    - rewrite quanta_digit3, IH by (simpl in Hl; lia). done. }
  apply (Hind (S (length l))). lia.
Qed.

Lemma inline_char n : (n < 64)%N → inline (b64_char n) = true.
Proof.
  intros Hn. destruct (unb64_char n Hn) as (_ & _ & H1 & H2). unfold inline.
  by rewrite (proj2 (N.eqb_neq _ _) H1), (proj2 (N.eqb_neq _ _) H2).
Qed.

Lemma base64_inline l : Forall (λ c, inline c = true) (base64 l).
Proof.
  assert (Hm : ∀ n, inline (b64_char (n mod 64)) = true) by (intros n; apply inline_char, N.mod_lt; done).
  assert (Hd : ∀ n d k, (n < k → k = 64 * d → d ≠ 0 → inline (b64_char (n / d)) = true)%N)
    by (intros n d k Hk -> Hd; apply inline_char, N.Div0.div_lt_upper_bound; lia).
  assert (Hind : ∀ n l, length l < n → Forall (λ c, inline c = true) (base64 l)).
  { induction n as [|n IH]; intros l' Hl; [lia|]. destruct l' as [|a [|b [|c r]]]; [done| | |]; cbn [base64].
    - pose proof (N_ascii_bounded a). repeat constructor; [apply (Hd _ 64 4096)%N; lia|apply Hm].
    - pose proof (N_ascii_bounded a). pose proof (N_ascii_bounded b).
      repeat constructor; [apply (Hd _ 4096 262144)%N; lia|apply Hm|apply Hm].
    - pose proof (N_ascii_bounded a). pose proof (N_ascii_bounded b). pose proof (N_ascii_bounded c).
      repeat apply Forall_cons_2; [apply (Hd _ 262144 16777216)%N; lia|apply Hm|apply Hm|apply Hm|]. apply IH. simpl in Hl. lia. }
  apply (Hind (S (length l))). lia.
Qed.

Lemma b64_decode_base64 l : b64_decode (base64 l) = Some l.
Proof.
  unfold b64_decode. rewrite (filter_true_id inline _ (base64_inline l)). apply quanta_base64.
Qed.

(** ** Credentials *)

(** The value under [credentials]: absent, bytes, a text, or a structure with its encoding. *)
Inductive stored := NoCredentials | Raw (b : bytes) | Text (s : string) | Structure (encoded : option bytes).

Definition DefaultCredentialExtractor (v : stored) : result bytes string :=
  match v with
  | NoCredentials => Ok []
  | Raw b => Ok b
  | Text s => Ok (default (to_bytes s) (b64_decode (to_bytes s)))
  | Structure (Some b) => Ok b
  | Structure None => Err "admin: marshal credentials"%string
  end.

(** What the storage layer keeps of credentials, the extractor gives back. *)
Lemma extractor_roundtrip b : DefaultCredentialExtractor (Text (of_bytes (base64 b))) = Ok b.
Proof. unfold DefaultCredentialExtractor. by rewrite to_of_bytes, b64_decode_base64. Qed.

(** ** Interfaces *)

(** The optional interfaces a connector implements, over its connections. *)
Record Receiver (Conn : Type) := {
  HandleWebhook : bytes → result (list DocumentChange) string;
  VerifyWebhookRequest : option (Headers → bytes → option string);
  HandleWebhookFor : option (Conn → Headers → bytes → result (list DocumentChange) string)
}.
Record SourceConnector (Conn : Type) := {
  Connect : ConnectorConfig → result Conn string;
  VerifyWebhookRequestFor : option (Conn → Headers → bytes → option string)
}.
Arguments HandleWebhook {Conn}.
Arguments VerifyWebhookRequest {Conn}.
Arguments HandleWebhookFor {Conn}.
Arguments Connect {Conn}.
Arguments VerifyWebhookRequestFor {Conn}.

Inductive resolve_error := ErrConnectorDoesNotReceiveWebhooks | ResolveFailed (what : string).
Inductive lookup_error := ErrSourceNotFound | LookupFailed (what : string).

(** A source as the router sees its configuration. *)
Record SourceSettings := { credentials : stored; settings : gmap string json }.
Definition Row : Type := Sources.Source (Config := SourceSettings).

(** ** Audit *)

Inductive reason := Signature | Handler | Connection.
Inductive note := Received (size : nat) | Processed (changes : nat) | Refused (why : reason) (error : string).
Record audit_row := { a_tenant : string; a_source : string; a_connector : string; a_note : note }.

Record answer := { status : Z; reported : option nat; text : string }.
Definition fail (code : Z) (what : string) : answer := {| status := code; reported := None; text := what |}.
Definition accepted (changes : list DocumentChange) : answer := {| status := 202; reported := Some (length changes); text := "ok" |}.

Section Router.
Context `{Outside} {Conn : Type}.
Context (Lookup : string → option Row * option lookup_error).
Context (Resolver : string → result (Receiver Conn) resolve_error) (SourceResolver : string → result (SourceConnector Conn) string).
Context (parse : bytes → blob).

(** The error of the audit store is not looked at. *)
Definition audit (src : Row) (connector : string) (n : note) (w : Env (list audit_row)) : Env (list audit_row) :=
  (ewrite (E := unit) tt (λ rows, rows ++ [{| a_tenant := Sources.TenantID src; a_source := Sources.ID src; a_connector := connector; a_note := n |}]) w).2.

(** An answer with the audit row that goes with it. *)
Definition settle (src : Row) (connector : string) (r : result (list DocumentChange) (reason * string * answer)) (w : Env (list audit_row))
    : answer * Env (list audit_row) :=
  match r with
  | Ok changes => (accepted changes, audit src connector (Processed (length changes)) w)
  | Err (why, e, a) => (a, audit src connector (Refused why e) w)
  end.

Definition unauthorized (e : string) : reason * string * answer := (Signature, e, fail 401 "signature verification failed").
Definition broken (what e : string) : reason * string * answer := (Connection, e, fail 500 (str_app what e)).
Definition rejected (e : string) : reason * string * answer := (Handler, e, fail 500 e).

(** [handlePerConnection]: verified and handled under the credentials of the source. *)
Definition handlePerConnection (src : Row) (connector : string) (headers : Headers) (body : bytes)
    (h : Conn → Headers → bytes → result (list DocumentChange) string) : result (list DocumentChange) (reason * string * answer) :=
  match SourceResolver connector with
  | Err e => Err (broken "resolve source connector: " e)
  | Ok factory =>
      match DefaultCredentialExtractor (credentials (Sources.SourceConfig src)) with
      | Err e => Err (broken "extract credentials: " e)
      | Ok creds =>
          match Connect factory {| Name := connector; TenantID := Sources.TenantID src; SourceID := Sources.ID src;
                                   Settings := settings (Sources.SourceConfig src); Credentials := parse creds |} with
          | Err e => Err (broken "connect: " e)
          | Ok conn =>
              match VerifyWebhookRequestFor factory ≫= λ v, v conn headers body with
              | Some e => Err (unauthorized e)
              | None => match h conn headers body with Err e => Err (rejected e) | Ok changes => Ok changes end
              end
          end
      end
  end.

(** The dispatch without a connection. *)
Definition handleStateless (rcv : Receiver Conn) (headers : Headers) (body : bytes) : result (list DocumentChange) (reason * string * answer) :=
  match VerifyWebhookRequest rcv ≫= λ v, v headers body with
  | Some e => Err (unauthorized e)
  | None => match HandleWebhook rcv body with Err e => Err (rejected e) | Ok changes => Ok changes end
  end.

(** The body may not be readable. A failing lookup without a row counts as a missing source. *)
Definition handle (connector sourceID : string) (headers : Headers) (body : result bytes string) (w : Env (list audit_row))
    : answer * Env (list audit_row) :=
  if str_empty connector || str_empty sourceID then (fail 400 "connector and source_id are required", w)
  else match Lookup sourceID with
  | (None, _) | (_, Some ErrSourceNotFound) => (fail 404 "source not found", w)
  | (Some _, Some (LookupFailed e)) => (fail 500 e, w)
  | (Some src, None) =>
      if negb (str_eqb (Sources.ConnectorType src) connector) then (fail 404 "source not found", w)
      else if negb (str_eqb (Sources.Status src) Sources.SourceStatusActive) then (fail 409 "source is not active", w)
      else match Resolver connector with
      | Err ErrConnectorDoesNotReceiveWebhooks => (fail 501 "admin: connector does not receive webhooks", w)
      | Err (ResolveFailed e) => (fail 500 e, w)
      | Ok rcv =>
          match body with
          | Err e => (fail 400 (str_app "read body: " e), w)
          | Ok b =>
              settle src connector
                (match HandleWebhookFor rcv with
                 | Some h => handlePerConnection src connector headers b h
                 | None => handleStateless rcv headers b
                 end) (audit src connector (Received (length b)) w)
          end
      end
  end.

(** ** What acceptance means *)

(** The request reached its handler: [b] is its body and [src] the source. *)
Definition dispatched (connector sourceID : string) (body : result bytes string) (src : Row) (rcv : Receiver Conn) (b : bytes) : Prop :=
  connector ≠ EmptyString ∧ sourceID ≠ EmptyString ∧ Lookup sourceID = (Some src, None) ∧
  Sources.ConnectorType src = connector ∧ Sources.Status src = Sources.SourceStatusActive ∧
  Resolver connector = Ok rcv ∧ body = Ok b.

Definition verdict (src : Row) (connector : string) (headers : Headers) (rcv : Receiver Conn) (b : bytes) : result (list DocumentChange) (reason * string * answer) :=
  match HandleWebhookFor rcv with Some h => handlePerConnection src connector headers b h | None => handleStateless rcv headers b end.

(** Either the request was turned away without a trace, or it was dispatched. *)
Lemma handle_cases connector sourceID headers body w :
  (∃ a, handle connector sourceID headers body w = (a, w) ∧ reported a = None ∧ status a ≠ 202%Z) ∨
  ∃ src rcv b, dispatched connector sourceID body src rcv b ∧
    handle connector sourceID headers body w =
    settle src connector (verdict src connector headers rcv b) (audit src connector (Received (length b)) w).
Proof.
  unfold handle. destruct (str_empty connector) eqn:Ec; [left; by eexists|]. destruct (str_empty sourceID) eqn:Es; [left; by eexists|].
  cbn [orb]. destruct (Lookup sourceID) as [[src|] [[|e]|]] eqn:El; try (left; by eexists).
  destruct (str_eqb (Sources.ConnectorType src) connector) eqn:Et; [|left; by eexists]. cbn [negb].
  destruct (str_eqb (Sources.Status src) Sources.SourceStatusActive) eqn:Ea; [|left; by eexists]. cbn [negb].
  destruct (Resolver connector) as [rcv|[|e]] eqn:Er; try (left; by eexists).
  destruct body as [b|e]; [|left; by eexists]. right. exists src, rcv, b. split; [|done].
  apply str_eqb_eq in Et, Ea. by rewrite str_empty_false in Ec, Es.
Qed.

(** A request that is let through was verified and taken. *)
Lemma verdict_Ok src connector headers rcv b changes :
  verdict src connector headers rcv b = Ok changes →
  match HandleWebhookFor rcv with
  | None => (∀ v, VerifyWebhookRequest rcv = Some v → v headers b = None) ∧ HandleWebhook rcv b = Ok changes
  | Some h => ∃ factory creds conn, SourceResolver connector = Ok factory ∧
      DefaultCredentialExtractor (credentials (Sources.SourceConfig src)) = Ok creds ∧
      Connect factory {| Name := connector; TenantID := Sources.TenantID src; SourceID := Sources.ID src;
                         Settings := settings (Sources.SourceConfig src); Credentials := parse creds |} = Ok conn ∧
      (∀ v, VerifyWebhookRequestFor factory = Some v → v conn headers b = None) ∧ h conn headers b = Ok changes
  end.
Proof.
  unfold verdict. destruct (HandleWebhookFor rcv) as [h|].
  - unfold handlePerConnection. destruct (SourceResolver connector) as [factory|e]; [|done].
    destruct (DefaultCredentialExtractor _) as [creds|e]; [|done]. destruct (Connect factory _) as [conn|e] eqn:Ec; [|done].
    destruct (VerifyWebhookRequestFor factory ≫= _) as [e|] eqn:Ev; [done|]. destruct (h conn headers b) as [l|e] eqn:Eh; [|done].
    intros [= <-]. exists factory, creds, conn. split_and!; try done. intros v Hv. by rewrite Hv in Ev.
  - unfold handleStateless. destruct (VerifyWebhookRequest rcv ≫= _) as [e|] eqn:Ev; [done|].
    destruct (HandleWebhook rcv b) as [l|e] eqn:Eh; [|done]. intros [= <-]. split; [|done]. intros v Hv. by rewrite Hv in Ev.
Qed.

Lemma verdict_Err src connector headers rcv b why e a :
  verdict src connector headers rcv b = Err (why, e, a) → reported a = None ∧ (status a = 401%Z ↔ why = Signature) ∧ (status a = 401 ∨ status a = 500)%Z.
Proof.
  unfold verdict, handlePerConnection, handleStateless. destruct (HandleWebhookFor rcv) as [h|].
  - destruct (SourceResolver connector) as [factory|]; [|intros [= <- <- <-]; split_and!; [done|done|by right]].
    destruct (DefaultCredentialExtractor _) as [creds|]; [|intros [= <- <- <-]; split_and!; [done|done|by right]].
    destruct (Connect factory _) as [conn|]; [|intros [= <- <- <-]; split_and!; [done|done|by right]].
    destruct (VerifyWebhookRequestFor factory ≫= _); [intros [= <- <- <-]; split_and!; [done|done|by left]|].
    destruct (h conn headers b); [done|]. intros [= <- <- <-]. split_and!; [done|done|by right].
  - destruct (VerifyWebhookRequest rcv ≫= _); [intros [= <- <- <-]; split_and!; [done|done|by left]|].
    destruct (HandleWebhook rcv b); [done|]. intros [= <- <- <-]. split_and!; [done|done|by right].
Qed.

(** A dispatched request is settled by its verdict. *)
Lemma handle_dispatched connector sourceID headers body src rcv b w :
  dispatched connector sourceID body src rcv b →
  handle connector sourceID headers body w =
  settle src connector (verdict src connector headers rcv b) (audit src connector (Received (length b)) w).
Proof.
  intros (Hc & Hs & Hl & Ht & Ha & Hr & ->). unfold handle.
  rewrite (proj2 (str_empty_false _) Hc), (proj2 (str_empty_false _) Hs), Hl, Ht, Ha, Hr. simpl.
  by rewrite !str_eqb_refl.
Qed.

(** C33: a webhook is accepted only for an active source of the connector named in the
    path and after the connector took it, and the answer reports the number of its
    changes; and when the connector has a signature check, its own or, for one
    that handles a source's connection, the one with the credentials of that source, only
    after the check passed on these very headers and this body. A dispatched request
    whose connector's own check fails is answered 401 and reports no changes. A connector
    without a check, or one whose check was given no secret and passes everything, is
    outside the claim. *)
Theorem accepted_is_verified connector sourceID headers body w a w' :
  handle connector sourceID headers body w = (a, w') →
  (status a = 202%Z →
   ∃ src rcv b changes, dispatched connector sourceID body src rcv b ∧ reported a = Some (length changes) ∧
    match HandleWebhookFor rcv with
    | None => (∀ v, VerifyWebhookRequest rcv = Some v → v headers b = None) ∧ HandleWebhook rcv b = Ok changes
    | Some h => ∃ factory creds conn, SourceResolver connector = Ok factory ∧
        DefaultCredentialExtractor (credentials (Sources.SourceConfig src)) = Ok creds ∧
        Connect factory {| Name := connector; TenantID := Sources.TenantID src; SourceID := Sources.ID src;
                           Settings := settings (Sources.SourceConfig src); Credentials := parse creds |} = Ok conn ∧
        (∀ v, VerifyWebhookRequestFor factory = Some v → v conn headers b = None) ∧ h conn headers b = Ok changes
    end) ∧
  (∀ src rcv b v, dispatched connector sourceID body src rcv b → HandleWebhookFor rcv = None →
     VerifyWebhookRequest rcv = Some v → v headers b ≠ None → status a = 401%Z ∧ reported a = None).
Proof.
  intros Hh. split.
  - intros Hst. destruct (handle_cases connector sourceID headers body w) as [(a' & E & _ & Hn)|(src & rcv & b & Hd & E)]; rewrite E in Hh.
    + injection Hh as -> _. done.
    + exists src, rcv, b. destruct (verdict src connector headers rcv b) as [changes|[[why e] a']] eqn:Ev.
      * injection Hh as <- _. exists changes. split_and!; [done|done|]. by apply (verdict_Ok src).
      * injection Hh as -> _. apply verdict_Err in Ev as (_ & _ & [Hs|Hs]); congruence.
  - intros src rcv b v Hd Hf Hv Hbad. rewrite (handle_dispatched _ _ _ _ _ _ _ _ Hd) in Hh.
    unfold verdict in Hh. rewrite Hf in Hh. unfold handleStateless in Hh. rewrite Hv in Hh. simpl in Hh.
    destruct (v headers b) as [e|]; [|done]. by injection Hh as <- _.
Qed.

Definition about (src : Row) (connector : string) (n : note) : audit_row :=
  {| a_tenant := Sources.TenantID src; a_source := Sources.ID src; a_connector := connector; a_note := n |}.

Lemma audit_spec src connector n w :
  calls_made (audit src connector n w) = S (calls_made w) ∧
  (store (audit src connector n w) = store w ∨ store (audit src connector n w) = store w ++ [about src connector n]) ∧
  (fate (calls_made w) = Performed → store (audit src connector n w) = store w ++ [about src connector n]).
Proof.
  unfold audit, ewrite, ecall, about. destruct (fate (calls_made w)); cbn; split_and!; auto; done.
Qed.

(** Whatever happens, only the source of the request is written about, and when the audit
    store takes the rows they say that it came and how it ended: processed with the
    number of changes when it was accepted, failed for its signature exactly when the
    answer is unauthorized. A request that was not dispatched leaves no trace. *)
Theorem webhooks_are_audited connector sourceID headers body w a w' :
  handle connector sourceID headers body w = (a, w') →
  store w' = store w ∧ status a ≠ 202%Z ∨
  ∃ src rcv b outcome, dispatched connector sourceID body src rcv b ∧
    (fate (calls_made w) = Performed → fate (S (calls_made w)) = Performed →
      store w' = store w ++ [about src connector (Received (length b)); about src connector outcome]) ∧
    (∃ rows, store w' = store w ++ rows ∧ Forall (λ r, r = about src connector (Received (length b)) ∨ r = about src connector outcome) rows) ∧
    match outcome with
    | Processed n => status a = 202%Z ∧ reported a = Some n
    | Refused why _ => status a ≠ 202%Z ∧ (status a = 401%Z ↔ why = Signature)
    | Received _ => False
    end.
Proof.
  intros Hh. destruct (handle_cases connector sourceID headers body w) as [(a' & E & _ & Hn)|(src & rcv & b & Hd & E)]; rewrite E in Hh.
  { injection Hh as -> <-. by left. }
  right. exists src, rcv, b.
  destruct (audit_spec src connector (Received (length b)) w) as (Hc & Hs & Hp). set (w1 := audit src connector (Received (length b)) w) in *.
  assert (Hrows : ∀ outcome, w' = audit src connector outcome w1 →
    (fate (calls_made w) = Performed → fate (S (calls_made w)) = Performed →
      store w' = store w ++ [about src connector (Received (length b)); about src connector outcome]) ∧
    (∃ rows, store w' = store w ++ rows ∧ Forall (λ r, r = about src connector (Received (length b)) ∨ r = about src connector outcome) rows)).
  { intros outcome ->. destruct (audit_spec src connector outcome w1) as (_ & Hs2 & Hp2). rewrite Hc in Hp2. split.
    - intros F1 F2. rewrite Hp2, Hp, <- app_assoc by done. done.
    - destruct Hs as [Hs|Hs], Hs2 as [Hs2|Hs2]; rewrite Hs2, Hs; [exists []|exists [about src connector outcome]
        |exists [about src connector (Received (length b))]|exists [about src connector (Received (length b)); about src connector outcome]];
        (split; [by rewrite ?app_nil_r, <- ?app_assoc|repeat constructor; tauto]). }
  destruct (verdict src connector headers rcv b) as [changes|[[why e] a']] eqn:Ev; injection Hh as <- <-.
  - exists (Processed (length changes)). destruct (Hrows (Processed (length changes)) eq_refl) as [Hr1 Hr2]. split_and!; done.
  - exists (Refused why e). destruct (Hrows (Refused why e) eq_refl) as [Hr1 Hr2]. apply verdict_Err in Ev as (_ & Hw & He).
    split_and!; try done. intros Hs'. destruct He; congruence.
Qed.
End Router.
End WebhookRouter.

(** ** GitHub behind the router *)

Module GitHubWebhooks.
Import Connector WebhookRouter.

Section GitHubWebhooks.
Context (hmac_sha256 : bytes → bytes → bytes) (parse : bytes → blob).

Definition webhook_text (e : webhook_error) : string :=
  match e with
  | ErrWebhookSignatureMissing => "webhook: signature header missing"
  | ErrWebhookSignatureInvalid => "webhook: signature mismatch"
  | ErrWebhookTokenInvalid => "webhook: token mismatch"
  end.
Definition error_text (e : conn_error) : string :=
  match e with ErrInvalidConfig s | ErrRateLimited s | Failed s => s | ErrNotSupported => "not supported" | ErrEndOfPage => "end of page" end.

(** The connector [New] makes with a webhook secret; it has no connection-aware handler. *)
Definition github (secret : bytes) : Receiver unit :=
  {| HandleWebhook body := match GitHub.HandleWebhook (parse body) with Ok l => Ok l | Err e => Err (error_text e) end;
     WebhookRouter.VerifyWebhookRequest := Some (λ headers body, webhook_text <$> GitHub.VerifyWebhookRequest hmac_sha256 secret headers body);
     HandleWebhookFor := None |}.

(** The factory in the registry calls [New] without options: there is no secret. *)
Definition registered : Receiver unit := github [].

(** With a secret, what the router accepts was signed with it. *)
Theorem github_accepts_signed `{Outside} Lookup Resolver SourceResolver secret sourceID headers body w a w' :
  secret ≠ [] → Resolver "github"%string = Ok (github secret) →
  handle Lookup Resolver SourceResolver parse "github" sourceID headers body w = (a, w') → status a = 202%Z →
  ∃ b, body = Ok b ∧
    DecodeString (trim_prefix (to_bytes "sha256=") (to_bytes (trim_space (FirstHeader headers "X-Hub-Signature-256")))) = Some (hmac_sha256 secret b).
Proof.
  intros Hs Hr Hh Hst.
  destruct (handle_cases Lookup Resolver SourceResolver parse "github" sourceID headers body w) as [(a' & E & _ & Hn)|(src & rcv & b & Hd & E)]; rewrite E in Hh.
  { by injection Hh as -> _. }
  destruct Hd as (_ & _ & _ & _ & _ & Hrcv & ->). rewrite Hr in Hrcv. injection Hrcv as <-. exists b. split; [done|].
  destruct (verdict _ _ src "github" headers (github secret) b) as [changes|[[why e] a']] eqn:Ev.
  - apply verdict_Ok in Ev as [Hv _]. specialize (Hv _ eq_refl). cbv beta in Hv. apply fmap_None in Hv.
    unfold GitHub.VerifyWebhookRequest in Hv. destruct secret as [|k secret]; [done|]. unfold verifyHMAC in Hv.
    destruct (str_empty _); [done|]. destruct (DecodeString _) as [x|]; [|done]. case_bool_decide as Hx; [by rewrite Hx|done].
  - injection Hh as -> _. apply verdict_Err in Ev as (_ & _ & [He|He]); congruence.
Qed.

(** Without one, nothing is rejected: every request to an active source that decodes is accepted. *)
Theorem registered_accepts_forged `{Outside} Lookup Resolver SourceResolver sourceID (src : Row) headers b changes w :
  sourceID ≠ EmptyString → Lookup sourceID = (Some src, None) → Sources.ConnectorType src = "github"%string →
  Sources.Status src = Sources.SourceStatusActive → Resolver "github"%string = Ok registered → GitHub.HandleWebhook (parse b) = Ok changes →
  status (handle Lookup Resolver SourceResolver parse "github" sourceID headers (Ok b) w).1 = 202%Z.
Proof.
  intros Hi Hl Ht Ha Hr Hc. unfold handle. rewrite (proj2 (str_empty_false sourceID) Hi), Hl, Ht, Ha, Hr. cbn -[GitHub.HandleWebhook]. by rewrite Hc.
Qed.
End GitHubWebhooks.

(** *** On a concrete source *)

Definition hooks : Row := {| Sources.ID := "s1"; Sources.TenantID := "acme"; Sources.ConnectorType := "github";
  Sources.SourceConfig := {| credentials := NoCredentials; settings := ∅ |}; Sources.Scopes := []; Sources.Status := "active";
  Sources.CreatedAt := 0; Sources.UpdatedAt := 0 |}.
Definition one_row (id : string) : option Row * option lookup_error :=
  if str_eqb id "s1" then (Some hooks, None) else (None, Some ErrSourceNotFound).
Definition mac (key payload : bytes) : bytes := key ++ payload.
Definition event : json := JObj [("action"%string, JStr "opened"); ("issue"%string, JObj [("number"%string, JInt 7)]);
  ("repository"%string, JObj [("full_name"%string, JStr "a/b")])].
Definition read (b : bytes) : blob := Parsed event.
Definition signed : Headers := [("X-Hub-Signature-256"%string, [sign mac "sha256=" (to_bytes "k") (to_bytes "{}")])].
Definition route (secret : bytes) (headers : Headers) : answer * Env (list audit_row) :=
  @handle calm unit one_row (λ _, Ok (github mac read secret)) (λ _, Err "none"%string) read "github" "s1" headers (Ok (to_bytes "{}"))
    {| store := []; calls_made := 0 |}.

Lemma accepted_is_verified_witness :
  let '(a, w') := route (to_bytes "k") signed in
  reported a = Some 1 ∧ ∃ src rcv b changes, dispatched one_row (λ _, Ok (github mac read (to_bytes "k"))) "github" "s1" (Ok (to_bytes "{}")) src rcv b ∧
    reported a = Some (length changes) ∧ HandleWebhook rcv b = Ok changes.
Proof.
  destruct (route (to_bytes "k") signed) as [a w'] eqn:E. pose proof E as E'. unfold route in E.
  assert (Ha : a = (route (to_bytes "k") signed).1) by (rewrite E'; reflexivity).
  assert (Hst : status a = 202%Z) by (rewrite Ha; vm_compute; reflexivity).
  destruct (@accepted_is_verified calm unit one_row (λ _, Ok (github mac read (to_bytes "k"))) (λ _, Err "none"%string) read
    "github" "s1" signed (Ok (to_bytes "{}")) {| store := []; calls_made := 0 |} a w' E) as [Hacc _].
  destruct (Hacc Hst) as (src & rcv & b & changes & Hd & Hr & Hm).
  split.
  - rewrite Ha. vm_compute. reflexivity.
  - exists src, rcv, b, changes. split; [exact Hd|]. split; [exact Hr|]. destruct Hd as (_ & _ & _ & _ & _ & Hrcv & _). injection Hrcv as <-.
    exact (proj2 Hm).
Defined.

Example forged_is_rejected_with_a_secret : status (route (to_bytes "k") []).1 = 401%Z.
Proof. vm_compute. reflexivity. Qed.
Example forged_is_accepted_as_registered : status (route [] []).1 = 202%Z.
Proof. vm_compute. reflexivity. Qed.
End GitHubWebhooks.
