(* ===== verification/Analytics.v ===== *)
(** * Query analytics (admin/query_analytics.go, admin/query_analytics_handler.go)

    The rows recorded for every retrieval, their listing and the ranking of the most
    frequent queries, on the database and in memory. The order in which the database
    returns rows of one instant, the order of Go's maps, SHA-256 and the identifiers
    are parameters; every database call may fail, with or without effect. *)

From Stdlib Require Import Ascii.
From S2P Require Import Prelude GoFloat GoString PolicyDB Effects GoText GoTime AuditIntegrity.

Module Analytics.

Record QueryAnalyticsRow := {
  ID : string;
  TenantID : string;
  row_hash : string;
  QueryText : string;
  TopK : Z;
  HitCount : Z;
  CacheHit : bool;
  LatencyMS : Z;
  BackendTimings : gmap string Z;
  ExperimentName : string;
  ExperimentArm : string;
  Source : string;
  Slow : bool;
  CreatedAt : Time
}.

Definition QueryAnalyticsSourceUser : string := "user".
Definition QueryAnalyticsSourceCacheWarm : string := "cache_warm".
Definition QueryAnalyticsSourceBatch : string := "batch".

Record QueryAnalyticsEvent := {
  e_TenantID : string;
  e_QueryText : string;
  e_TopK : Z;
  e_HitCount : Z;
  e_CacheHit : bool;
  e_LatencyMS : Z;
  e_BackendTimings : gmap string Z;
  e_ExperimentName : string;
  e_ExperimentArm : string;
  e_Source : string;
  e_Slow : bool;
  e_At : Time
}.

Record QueryAnalyticsQuery := { q_TenantID : string; Since : Time; Until : Time; Limit : Z; SlowOnly : bool }.

Record TopQuery := {
  QueryHash_ : string;
  SampleText : string;
  Count : Z;
  AvgLatencyMS : float;
  AvgHitCount : float;
  CacheHitPct : float
}.

(** ** The double loop both stores sort with *)

Section Exchange.
Context {A : Type} (less : A → A → bool).

(** The inner loop, at [out[i] = x]: whoever is less changes places with it. *)
Fixpoint sweep (x : A) (l : list A) : A * list A :=
  match l with
  | [] => (x, [])
  | y :: r =>
      if less y x then let '(m, r') := sweep y r in (m, x :: r')
      else let '(m, r') := sweep x r in (m, y :: r')
  end.
Fixpoint exchange (n : nat) (l : list A) : list A :=
  match n, l with
  | S n, x :: r => let '(m, r') := sweep x r in m :: exchange n r'
  | _, _ => l
  end.
Definition exchange_sort (l : list A) : list A := exchange (length l) l.

Lemma sweep_perm x l : (sweep x l).1 :: (sweep x l).2 ≡ₚ x :: l.
Proof.
  revert x. induction l as [|y l IH]; intros x; simpl; [done|].
  destruct (less y x).
  - specialize (IH y). destruct (sweep y l) as [m r]; simpl in *. by rewrite perm_swap, IH.
  - specialize (IH x). destruct (sweep x l) as [m r]; simpl in *. rewrite perm_swap, IH. apply perm_swap.
Qed.

Lemma sweep_least x l : weak_order_on less (x :: l) → Forall (λ y, less y (sweep x l).1 = false) (x :: l).
Proof.
  revert x. induction l as [|y l IH]; intros x [Has Htr]; simpl.
  { constructor; [|constructor]. destruct (less x x) eqn:E; [|done]. by rewrite (Has x x) in E; [|set_solver..]. }
  destruct (less y x) eqn:E.
  - assert (Hw : weak_order_on less (y :: l)) by (split; intros *; [intros ??; apply Has; by right|intros ???; apply Htr; by right]).
    specialize (IH y Hw). pose proof (sweep_perm y l) as Hp. destruct (sweep y l) as [m r]; simpl in *.
    constructor; [|done]. apply Forall_cons in IH as [Hy _].
    assert (Hm : m ∈ x :: y :: l) by (right; rewrite <- Hp; by left).
    apply (Htr m y x); [done|set_solver|set_solver|done|]. apply Has; [set_solver|set_solver|done].
  - assert (Hw : weak_order_on less (x :: l)).
    { split; intros *; [intros ??; apply Has; by apply elem_of_skip_second|intros ???; apply Htr; by apply elem_of_skip_second]. }
    specialize (IH x Hw). pose proof (sweep_perm x l) as Hp. destruct (sweep x l) as [m r]; simpl in *.
    apply Forall_cons in IH as [Hx Hl]. constructor; [done|]. constructor; [|done].
    assert (Hm : m ∈ x :: y :: l) by (apply elem_of_skip_second; rewrite <- Hp; by left).
    apply (Htr m x y); [done|set_solver|set_solver|done|done].
Qed.

(** It sorts. *)
Lemma exchange_slice_sorted n l : length l ≤ n → weak_order_on less l → slice_sorted less l (exchange n l).
Proof.
  revert l. induction n as [|n IH]; intros [|x l] Hn Hw; simpl in *; try lia; try (split; [done|constructor]).
  pose proof (sweep_perm x l) as Hp. pose proof (sweep_least x l Hw) as Hl. destruct (sweep x l) as [m r]; simpl in *.
  assert (Hlen : length r = length l) by (apply Permutation_length in Hp; simpl in Hp; lia).
  assert (Hwr : weak_order_on less r).
  { destruct Hw as [Has Htr]. split; intros *.
    - intros Ha Hb. apply Has; rewrite <- Hp; by right.
    - intros Ha Hb Hc. apply Htr; rewrite <- Hp; by right. }
  destruct (IH r ltac:(lia) Hwr) as [Hpr Hs]. split; [by rewrite Hpr|]. constructor; [done|].
  rewrite Hpr. rewrite <- Hp in Hl. by apply Forall_cons in Hl as [_ ?].
Qed.
End Exchange.

(** ** Ranking *)

(** The totals kept per query while the rows are read; each is a map in the code. *)
Record totals := { sample : string; seen : Z; latency : Z; hits : Z; cache_hits : Z }.
Definition add_row (g : gmap string totals) (r : QueryAnalyticsRow) : gmap string totals :=
  let e := default {| sample := QueryText r; seen := 0; latency := 0; hits := 0; cache_hits := 0 |} (g !! row_hash r) in
  <[row_hash r := {| sample := sample e; seen := seen e + 1; latency := wrap64 (latency e + LatencyMS r);
                     hits := wrap64 (hits e + HitCount r); cache_hits := if CacheHit r then cache_hits e + 1 else cache_hits e |}]> g.
Definition grouped (rows : list QueryAnalyticsRow) : gmap string totals := foldl add_row ∅ rows.

Definition averaged (h : string) (e : totals) : TopQuery :=
  {| QueryHash_ := h; SampleText := sample e; Count := seen e;
     AvgLatencyMS := f64_div (f64_of_Z (latency e)) (f64_of_Z (seen e));
     AvgHitCount := f64_div (f64_of_Z (hits e)) (f64_of_Z (seen e));
     CacheHitPct := f64_mul (f64_div (f64_of_Z (cache_hits e)) (f64_of_Z (seen e))) (f64_of_Z 100) |}.

(** More frequent first, then by hash. *)
Definition ranks_before (a b : TopQuery) : bool :=
  (Count b <? Count a)%Z || (Count a =? Count b)%Z && str_ltb (QueryHash_ a) (QueryHash_ b).

Definition aggregateTopQueries (iterate : list (string * totals) → list (string * totals)) (rows : list QueryAnalyticsRow) (limit : Z)
    : list TopQuery :=
  let limit := if (limit <=? 0)%Z then 20%Z else limit in
  take (Z.to_nat limit) (exchange_sort ranks_before ((λ '(h, e), averaged h e) <$> iterate (map_to_list (grouped rows)))).

(** ** The stores *)

Definition in_window (q : QueryAnalyticsQuery) (r : QueryAnalyticsRow) : bool :=
  str_eqb (TenantID r) (q_TenantID q) && (time_is_zero (Since q) || (Since q <=? CreatedAt r)%Z) &&
  (time_is_zero (Until q) || (CreatedAt r <=? Until q)%Z) && (negb (SlowOnly q) || Slow r).
Definition newer (a b : QueryAnalyticsRow) : bool := (CreatedAt b <? CreatedAt a)%Z.

(** The limit of a page: one that is too large counts as none given. *)
Definition page_limit (n : Z) : Z := if ((n <=? 0) || (1000 <? n))%Z then 100%Z else n.

Definition completed_row (id : string) (now : Time) (r : QueryAnalyticsRow) : QueryAnalyticsRow :=
  {| ID := if str_empty (ID r) then id else ID r; TenantID := TenantID r; row_hash := row_hash r; QueryText := QueryText r;
     TopK := TopK r; HitCount := HitCount r; CacheHit := CacheHit r; LatencyMS := LatencyMS r; BackendTimings := BackendTimings r;
     ExperimentName := ExperimentName r; ExperimentArm := ExperimentArm r; Source := Source r; Slow := Slow r;
     CreatedAt := if time_is_zero (CreatedAt r) then now else CreatedAt r |}.

Section Store.
Context `{Outside}.
Context (sha256 : bytes → bytes).
(** [ORDER BY created_at DESC], and the order of a map. *)
Context (order_by : list QueryAnalyticsRow → list QueryAnalyticsRow) (iterate : list (string * totals) → list (string * totals)).

Abbreviation M := (Eff (list QueryAnalyticsRow) string) (only parsing).

(** [id] is the identifier a row without one gets; the primary key is unique. *)
Definition Store_Record (id : string) (now : Time) (row : option QueryAnalyticsRow) : M unit :=
  match row with
  | None => ethrow "query_analytics: nil row"
  | Some r =>
      if str_empty (TenantID r) then ethrow "query_analytics: missing tenant_id"
      else
        let r := completed_row id now r in
        let@ fresh := ecall "create" (λ rows, if existsb (λ x, str_eqb (ID x) (ID r)) rows then (false, rows) else (true, rows ++ [r])) in
        if fresh then eret tt else ethrow "duplicate key"
  end.

Definition Store_List (q : QueryAnalyticsQuery) : M (list QueryAnalyticsRow) :=
  if str_empty (q_TenantID q) then ethrow "query_analytics: missing tenant_id"
  else eread "find" (λ rows, take (Z.to_nat (page_limit (Limit q))) (order_by (List.filter (in_window q) rows))).

Definition with_limit (n : Z) (q : QueryAnalyticsQuery) : QueryAnalyticsQuery :=
  {| q_TenantID := q_TenantID q; Since := Since q; Until := Until q; Limit := n; SlowOnly := false |}.

Definition TopQueries (q : QueryAnalyticsQuery) : M (list TopQuery) :=
  let@ rows := Store_List (with_limit 1000 q) in eret (aggregateTopQueries iterate rows (Limit q)).

(** ** In memory *)

Definition Memory_Record (id : string) (now : Time) (row : option QueryAnalyticsRow) (rows : list QueryAnalyticsRow)
    : result unit string * list QueryAnalyticsRow :=
  match row with
  | None => (Err "query_analytics: nil row"%string, rows)
  | Some r =>
      if str_empty (TenantID r) then (Err "query_analytics: missing tenant_id"%string, rows)
      else (Ok tt, rows ++ [completed_row id now r])
  end.
Definition Memory_List (q : QueryAnalyticsQuery) (rows : list QueryAnalyticsRow) : result (list QueryAnalyticsRow) string :=
  if str_empty (q_TenantID q) then Err "query_analytics: missing tenant_id"%string
  else
    let out := exchange_sort newer (List.filter (in_window q) rows) in
    Ok (if (0 <? Limit q)%Z then take (Z.to_nat (Limit q)) out else out).
Definition Memory_TopQueries (q : QueryAnalyticsQuery) (rows : list QueryAnalyticsRow) : result (list TopQuery) string :=
  let! rows := Memory_List (with_limit 10000 q) rows in Ok (aggregateTopQueries iterate rows (Limit q)).

(** ** The recorder *)

Definition QueryHash (query : string) : string := of_bytes (AuditIntegrity.hex (sha256 (to_bytes query))).
Definition queryTextTruncate : nat := 256.

Definition recorded (id : string) (now : Time) (evt : QueryAnalyticsEvent) : QueryAnalyticsRow :=
  {| ID := id; TenantID := e_TenantID evt; row_hash := QueryHash (e_QueryText evt);
     QueryText := of_bytes (take queryTextTruncate (to_bytes (e_QueryText evt)));
     TopK := e_TopK evt; HitCount := e_HitCount evt; CacheHit := e_CacheHit evt; LatencyMS := e_LatencyMS evt;
     BackendTimings := e_BackendTimings evt; ExperimentName := e_ExperimentName evt; ExperimentArm := e_ExperimentArm evt;
     Source := if str_eqb (e_Source evt) QueryAnalyticsSourceUser || str_eqb (e_Source evt) QueryAnalyticsSourceCacheWarm ||
                  str_eqb (e_Source evt) QueryAnalyticsSourceBatch then e_Source evt else QueryAnalyticsSourceUser;
     Slow := e_Slow evt; CreatedAt := if time_is_zero (e_At evt) then now else e_At evt |}.

(** An error is logged, never returned. *)
Definition Record_ (id : string) (now : Time) (evt : QueryAnalyticsEvent) (w : Env (list QueryAnalyticsRow)) : Env (list QueryAnalyticsRow) :=
  if str_empty (e_TenantID evt) then w else (Store_Record id now (Some (recorded id now evt)) w).2.

(** ** The endpoints *)

Definition parse_instant (name v : string) : result Time (Z * string) :=
  if str_empty v then Ok 0%Z
  else match GoTime.Parse v with Some t => Ok t | None => Err (400%Z, str_app name " must be RFC3339") end.

Definition parseQuery (tenantID : option string) (since until limit : string) : result QueryAnalyticsQuery (Z * string) :=
  match tenantID with
  | None => Err (401%Z, "missing tenant context"%string)
  | Some t =>
      let! s := parse_instant "since" since in
      let! u := parse_instant "until" until in
      let! n := if str_empty limit then Ok 0%Z
                else match Atoi (to_bytes limit) with
                     | Some n => if (n <? 0)%Z then Err (400%Z, "limit must be a non-negative integer"%string) else Ok n
                     | None => Err (400%Z, "limit must be a non-negative integer"%string)
                     end in
      Ok {| q_TenantID := t; Since := s; Until := u; Limit := n; SlowOnly := false |}
  end.

Definition answered {A} (m : M A) (w : Env (list QueryAnalyticsRow)) : result A (Z * string) * Env (list QueryAnalyticsRow) :=
  match m w with (Ok a, w') => (Ok a, w') | (Err e, w') => (Err (500%Z, e), w') end.

Definition list_queries (tenantID : option string) (since until limit : string) (w : Env (list QueryAnalyticsRow)) :=
  match parseQuery tenantID since until limit with Err e => (Err e, w) | Ok q => answered (Store_List q) w end.
Definition top_queries (tenantID : option string) (since until limit : string) (w : Env (list QueryAnalyticsRow)) :=
  match parseQuery tenantID since until limit with
  | Err e => (Err e, w)
  | Ok q => answered (TopQueries {| q_TenantID := q_TenantID q; Since := Since q; Until := Until q;
                                    Limit := if (Limit q =? 0)%Z then 20%Z else Limit q; SlowOnly := SlowOnly q |}) w
  end.
End Store.

(** ** Ranking: the totals are those of the rows *)

Definition of_hash (h : string) (rows : list QueryAnalyticsRow) : list QueryAnalyticsRow := List.filter (λ r, str_eqb (row_hash r) h) rows.

Lemma of_hash_snoc h rows r : of_hash h (rows ++ [r]) = of_hash h rows ++ (if str_eqb (row_hash r) h then [r] else []).
Proof. unfold of_hash. rewrite List.filter_app. simpl. by destruct (str_eqb (row_hash r) h). Qed.

Lemma grouped_spec rows h :
  match grouped rows !! h with
  | None => of_hash h rows = []
  | Some e => seen e = Z.of_nat (length (of_hash h rows)) ∧ (0 < seen e)%Z ∧ sample <$> Some e = QueryText <$> head (of_hash h rows)
  end.
Proof.
  unfold grouped. induction rows as [|r rows IH] using rev_ind; [simpl; by rewrite lookup_empty|].
  rewrite foldl_app, of_hash_snoc. simpl. unfold add_row at 1. destruct (decide (row_hash r = h)) as [<-|Hn].
  - rewrite lookup_insert_eq, str_eqb_refl. cbn [seen sample fmap option_fmap option_map].
    destruct (foldl add_row ∅ rows !! row_hash r) as [e|].
    + destruct IH as (Hs & Hp & Hf). rewrite length_app. simpl. split_and!; [lia|lia|].
      cbn in Hf. rewrite Hf. destruct (of_hash (row_hash r) rows); [simpl in Hs; lia|done].
    + rewrite IH. simpl. done.
  - rewrite lookup_insert_ne by done. rewrite (proj2 (str_eqb_neq _ _) Hn), app_nil_r. exact IH.
Qed.

Lemma ranks_before_weak l : weak_order_on ranks_before l.
Proof.
  assert (Hw : weak_order_on (λ a b : TopQuery, if (Count a =? Count b)%Z then str_ltb (QueryHash_ a) (QueryHash_ b) else (Count b <? Count a)%Z) l).
  { apply lex_weak_order; [|intros a b _ _; rewrite Z.eqb_eq, !Z.ltb_ge; lia|apply str_key_weak_order].
    split; intros *; rewrite ?Z.ltb_lt, ?Z.ltb_ge; lia. }
  assert (He : ∀ a b, ranks_before a b = (if (Count a =? Count b)%Z then str_ltb (QueryHash_ a) (QueryHash_ b) else (Count b <? Count a)%Z)).
  { intros a b. unfold ranks_before. destruct (Z.eqb_spec (Count a) (Count b)) as [->|]; [by rewrite Z.ltb_irrefl|by rewrite orb_false_r]. }
  destruct Hw as [Has Htr]. split; intros *; rewrite !He; [apply Has|apply Htr].
Qed.

(** All groups, before the cut. *)
Definition ranking (iterate : list (string * totals) → list (string * totals)) (rows : list QueryAnalyticsRow) : list TopQuery :=
  exchange_sort ranks_before ((λ '(h, e), averaged h e) <$> iterate (map_to_list (grouped rows))).

Lemma ranking_elem iterate rows t : (∀ l, iterate l ≡ₚ l) → t ∈ ranking iterate rows ↔ ∃ e, grouped rows !! QueryHash_ t = Some e ∧ t = averaged (QueryHash_ t) e.
Proof.
  intros Hi. unfold ranking, exchange_sort.
  rewrite (proj1 (exchange_slice_sorted ranks_before _ _ (le_n _) (ranks_before_weak _))), Hi, list_elem_of_fmap. split.
  - intros ([h e] & -> & He%elem_of_map_to_list). by exists e.
  - intros (e & He & Ht). exists (QueryHash_ t, e). split; [done|by apply elem_of_map_to_list].
Qed.

Lemma ranking_hashes iterate rows : (∀ l, iterate l ≡ₚ l) → NoDup (QueryHash_ <$> ranking iterate rows).
Proof.
  intros Hi. unfold ranking, exchange_sort.
  rewrite (proj1 (exchange_slice_sorted ranks_before _ _ (le_n _) (ranks_before_weak _))), Hi.
  rewrite <- list_fmap_compose. rewrite (list_fmap_ext _ fst); [apply NoDup_fst_map_to_list|]. by intros ? [h e] _.
Qed.

Lemma ranking_sorted iterate rows : StronglySorted (λ a b, ranks_before b a = false) (ranking iterate rows).
Proof. apply (proj2 (exchange_slice_sorted ranks_before _ _ (le_n _) (ranks_before_weak _))). Qed.

(** Equal rank is the same query. *)
Lemma ranking_total iterate rows a b :
  (∀ l, iterate l ≡ₚ l) → a ∈ ranking iterate rows → b ∈ ranking iterate rows → ranks_before a b = false → ranks_before b a = false → a = b.
Proof.
  intros Hi (e & He & Ha)%ranking_elem (e' & He' & Hb)%ranking_elem; [|done..]. unfold ranks_before.
  rewrite !orb_false_iff, !andb_false_iff, !Z.ltb_ge, !Z.eqb_neq. intros [H1 H2] [H3 H4].
  assert (Hh : QueryHash_ a = QueryHash_ b) by (apply str_ltb_total; [destruct H2; [lia|done]|destruct H4; [lia|done]]).
  rewrite Hh in *. congruence.
Qed.

Lemma ranking_iterate iterate iterate' rows : (∀ l, iterate l ≡ₚ l) → (∀ l, iterate' l ≡ₚ l) → ranking iterate rows = ranking iterate' rows.
Proof.
  intros Hi Hi'. apply (StronglySorted_unique_strong (λ a b, ranks_before b a = false)).
  - intros a b Ha Hb ? ?. apply (ranking_total iterate rows); [done|done| |done|done].
    apply ranking_elem; [done|]. by apply ranking_elem in Hb.
  - apply ranking_sorted.
  - apply ranking_sorted.
  - unfold ranking, exchange_sort. rewrite !(proj1 (exchange_slice_sorted ranks_before _ _ (le_n _) (ranks_before_weak _))).
    by rewrite Hi, Hi'.
Qed.

Lemma sorted_take_drop {A} (R : A → A → Prop) n l x y : StronglySorted R l → x ∈ take n l → y ∈ drop n l → R x y.
Proof.
  intros Hs Hx Hy. rewrite <- (take_drop n l) in Hs. apply StronglySorted_app in Hs as (H & _ & _). by apply H.
Qed.

Lemma elem_of_cut {A} n (l : list A) x : x ∈ l → x ∉ take n l → x ∈ drop n l ∧ length (take n l) = n.
Proof.
  intros Hx Hn. rewrite <- (take_drop n l) in Hx. apply elem_of_app in Hx as [?|Hx]; [done|]. split; [done|].
  rewrite length_take. assert (n < length l); [|lia]. destruct (decide (n < length l)); [done|]. rewrite drop_ge in Hx by lia. by apply not_elem_of_nil in Hx.
Qed.

(** The most frequent queries are exactly those: each is reported once with the number of
    its rows and the text of the first; a query that is left out is at most as frequent
    as every one reported, comes after it when equal, and the report is full then; the
    order of Go's maps does not matter. *)
Theorem top_queries_exact iterate rows limit :
  (∀ l, iterate l ≡ₚ l) →
  let n := Z.to_nat (if (limit <=? 0)%Z then 20%Z else limit) in
  let out := aggregateTopQueries iterate rows limit in
  NoDup (QueryHash_ <$> out) ∧ StronglySorted (λ a b, ranks_before b a = false) out ∧
  (∀ t, t ∈ out → Count t = Z.of_nat (length (of_hash (QueryHash_ t) rows)) ∧ Some (SampleText t) = QueryText <$> head (of_hash (QueryHash_ t) rows)) ∧
  (∀ r, r ∈ rows → row_hash r ∉ QueryHash_ <$> out →
     length out = n ∧ ∀ t, t ∈ out → let c := Z.of_nat (length (of_hash (row_hash r) rows)) in
       (c < Count t)%Z ∨ (c = Count t ∧ str_ltb (QueryHash_ t) (row_hash r) = true)) ∧
  (∀ iterate', (∀ l, iterate' l ≡ₚ l) → aggregateTopQueries iterate' rows limit = out).
Proof.
  intros Hi n out. assert (Hout : out = take n (ranking iterate rows)) by done.
  pose proof (ranking_hashes iterate rows Hi) as Hnd. pose proof (ranking_sorted iterate rows) as Hs.
  split_and!.
  - rewrite Hout. rewrite <- (take_drop n (ranking iterate rows)), fmap_app, NoDup_app in Hnd. tauto.
  - rewrite Hout. eapply sublist_sorted; [apply sublist_take|done].
  - intros t Ht. rewrite Hout in Ht. eapply elem_of_take in Ht as (i & Ht%list_elem_of_lookup_2 & _).
    apply ranking_elem in Ht as (e & He & Ht); [|done]. pose proof (grouped_spec rows (QueryHash_ t)) as Hg. rewrite He in Hg.
    destruct Hg as (Hc & _ & Hh). assert (E1 : Count t = seen e) by (by rewrite Ht).
    assert (E2 : SampleText t = sample e) by (by rewrite Ht). by rewrite E1, E2.
  - intros r Hr Hn. pose proof (grouped_spec rows (row_hash r)) as Hg.
    assert (Hin : r ∈ of_hash (row_hash r) rows) by (apply elem_of_filterb; by rewrite str_eqb_refl).
    destruct (grouped rows !! row_hash r) as [e|] eqn:He; [|rewrite Hg in Hin; by apply not_elem_of_nil in Hin].
    destruct Hg as (Hc & _ & _). set (x := averaged (row_hash r) e).
    assert (Hx : x ∈ ranking iterate rows) by (apply ranking_elem; [done|]; by exists e).
    assert (Hxn : x ∉ out) by (intros Hx'; apply Hn; by apply (list_elem_of_fmap_2 QueryHash_) in Hx').
    rewrite Hout in Hxn. destruct (elem_of_cut n _ x Hx Hxn) as [Hd Hl]. split; [by rewrite Hout|].
    intros t Ht c. assert (Hc' : c = Count x) by (unfold c; by rewrite <- Hc). rewrite Hc'.
    assert (Hne : QueryHash_ t ≠ row_hash r) by (intros E; apply Hn; rewrite <- E; by apply list_elem_of_fmap_2).
    rewrite Hout in Ht. pose proof (sorted_take_drop _ _ _ _ _ Hs Ht Hd) as Hr'. unfold ranks_before in Hr'.
    rewrite orb_false_iff, andb_false_iff, Z.ltb_ge, Z.eqb_neq in Hr'. destruct Hr' as [H1 H2].
    destruct (decide (Count x = Count t)) as [E|E]; [|left; lia]. right. split; [done|]. destruct H2 as [?|H2]; [lia|].
    destruct (str_ltb (QueryHash_ t) (row_hash r)) eqn:El; [done|]. destruct Hne. by apply str_ltb_total.
  - intros iterate' Hi'. rewrite Hout, (ranking_iterate iterate iterate' rows Hi Hi'). done.
Qed.

(** ** Listing *)

Lemma page_limit_range n : (1 ≤ page_limit n ≤ 1000)%Z.
Proof. unfold page_limit. destruct (Z.leb_spec n 0), (Z.ltb_spec 1000 n); simpl; lia. Qed.

Lemma Store_List_spec `{Outside} order_by q w out w' :
  (∀ l, slice_sorted newer l (order_by l)) → Store_List order_by q w = (Ok out, w') →
  store w' = store w ∧ (Z.of_nat (length out) ≤ page_limit (Limit q))%Z ∧ StronglySorted (λ a b, newer b a = false) out ∧
  (∀ r, r ∈ out → r ∈ store w ∧ in_window q r = true) ∧
  (∀ r, r ∈ store w → in_window q r = true → r ∉ out →
     Z.of_nat (length out) = page_limit (Limit q) ∧ ∀ x, x ∈ out → (CreatedAt r ≤ CreatedAt x)%Z).
Proof.
  intros Ho. unfold Store_List. destruct (str_empty _); [done|]. unfold eread, ecall.
  destruct (fate (calls_made w)); [|done..]. intros [= <- <-]. cbn [store]. pose proof (page_limit_range (Limit q)) as Hp.
  destruct (Ho (List.filter (in_window q) (store w))) as [Hperm Hs]. split_and!.
  - done.
  - rewrite length_take. lia.
  - eapply sublist_sorted; [apply sublist_take|done].
  - intros r Hr. eapply elem_of_take in Hr as (i & Hr%list_elem_of_lookup_2 & _). rewrite Hperm in Hr. apply elem_of_filterb in Hr. tauto.
  - intros r Hr Hw Hn. assert (Hin : r ∈ order_by (List.filter (in_window q) (store w))) by (rewrite Hperm; by apply elem_of_filterb).
    destruct (elem_of_cut _ _ _ Hin Hn) as [Hd Hl]. split; [rewrite Hl; lia|]. intros x Hx.
    pose proof (sorted_take_drop _ _ _ _ _ Hs Hx Hd) as Hlt. unfold newer in Hlt. by apply Z.ltb_ge in Hlt.
Qed.

(** A listing holds rows of the tenant in the window, at most a thousand of them, newest
    first; a row of the window that is missing is not newer than any that is there, and
    the page is full then. *)
Theorem listing_complete `{Outside} order_by q w out w' :
  (∀ l, slice_sorted newer l (order_by l)) → Store_List order_by q w = (Ok out, w') →
  store w' = store w ∧ (Z.of_nat (length out) ≤ page_limit (Limit q))%Z ∧ StronglySorted (λ a b, newer b a = false) out ∧
  (∀ r, r ∈ out → r ∈ store w ∧ in_window q r = true) ∧
  (∀ r, r ∈ store w → in_window q r = true → r ∉ out →
     Z.of_nat (length out) = page_limit (Limit q) ∧ ∀ x, x ∈ out → (CreatedAt r ≤ CreatedAt x)%Z).
Proof. apply Store_List_spec. Qed.

(** The text is cut at a byte: a letter of two bytes at the end is halved, and what is
    left is not the UTF-8 a text column takes. *)
Example text_is_cut (sha256 : bytes → bytes) :
  let evt := {| e_TenantID := "t"; e_QueryText := of_bytes (replicate 255 "a"%char ++ [ascii_of_N 195; ascii_of_N 169]); e_TopK := 10; e_HitCount := 0;
                e_CacheHit := false; e_LatencyMS := 1; e_BackendTimings := ∅; e_ExperimentName := ""; e_ExperimentArm := "";
                e_Source := "user"; e_Slow := false; e_At := 5 |} in
  utf8_valid (to_bytes (e_QueryText evt)) = true ∧ utf8_valid (to_bytes (QueryText (recorded sha256 "id" 7 evt))) = false.
Proof. vm_compute. split; reflexivity. Qed.
End Analytics.
