(* ===== verification/Experiments.v ===== *)
(** * Retrieval experiments

    admin/abtest.go, abtest_gorm.go, abtest_handler.go and abtest_results.go: the
    configured experiments, their stores, the router that assigns an arm, and the
    comparison of the arms; retrieval/abtest_router.go and abtest_apply.go: what the
    retrieval handler makes of the assignment. A nil and an empty configuration are
    read alike, so both are the empty map. *)

From Stdlib Require Import Ascii.
From S2P Require Import Prelude GoFloat GoString PolicyDB Effects ModelStages Acl Reranker Diversifier Handler Analytics.

Module Experiments.

Definition ABTestStatusDraft : string := "draft".
Definition ABTestStatusActive : string := "active".
Definition ABTestStatusEnded : string := "ended".

Inductive ABTestArm := ABTestArmControl | ABTestArmVariant.
Definition arm_name (a : ABTestArm) : string := match a with ABTestArmControl => "control" | ABTestArmVariant => "variant" end.

(** The dynamic types of a setting the handler tells apart. *)
Inductive setting :=
| SInt (n : Z)          (** int, int32, int64 *)
| SFloat32 (x : float)
| SFloat64 (x : float)
| SOther.
Abbreviation settings := (gmap string setting) (only parsing).

Record ABTestConfig := {
  TenantID : string;
  ExperimentName : string;
  Status : string;
  TrafficSplitPercent : Z;
  ControlConfig : gmap string setting;
  VariantConfig : gmap string setting;
  CreatedAt : Time;
  UpdatedAt : Time;
  StartAt : option Time;
  EndAt : option Time
}.

Definition Validate (c : option ABTestConfig) : result ABTestConfig string :=
  match c with
  | None => Err "ab test: nil config"%string
  | Some c =>
      if str_empty (TenantID c) then Err "ab test: missing tenant_id"%string
      else if str_empty (ExperimentName c) then Err "ab test: missing experiment_name"%string
      else if ((TrafficSplitPercent c <? 0) || (100 <? TrafficSplitPercent c))%Z then Err "ab test: traffic_split_percent must be 0..100"%string
      else if str_eqb (Status c) ABTestStatusDraft || str_eqb (Status c) ABTestStatusActive || str_eqb (Status c) ABTestStatusEnded then Ok c
      else Err "ab test: invalid status"%string
  end.

Definition timed (created updated : Time) (c : ABTestConfig) : ABTestConfig :=
  {| TenantID := TenantID c; ExperimentName := ExperimentName c; Status := Status c; TrafficSplitPercent := TrafficSplitPercent c;
     ControlConfig := ControlConfig c; VariantConfig := VariantConfig c; CreatedAt := created; UpdatedAt := updated;
     StartAt := StartAt c; EndAt := EndAt c |}.
Definition stamped (now : Time) (c : ABTestConfig) : ABTestConfig :=
  timed (if time_is_zero (CreatedAt c) then now else CreatedAt c) now c.

Definition not_found : string := "ab test: not found".

(** ** In memory *)

Module Memory.
Definition nul : ascii := ascii_of_N 0.
Definition prefix (tenantID : string) : string := str_app tenantID (String nul EmptyString).
Definition key (tenantID name : string) : string := str_app (prefix tenantID) name.
Definition has_prefix (p k : string) : bool := bool_decide (take (length (to_bytes p)) (to_bytes k) = to_bytes p).

Definition List_ (iterate : list (string * ABTestConfig) → list (string * ABTestConfig)) (tenantID : string) (rows : gmap string ABTestConfig)
    : list ABTestConfig :=
  snd <$> List.filter (λ kv, has_prefix (prefix tenantID) kv.1) (iterate (map_to_list rows)).
Definition Get (tenantID name : string) (rows : gmap string ABTestConfig) : result ABTestConfig string :=
  match rows !! key tenantID name with Some c => Ok c | None => Err not_found end.
Definition Upsert (now : Time) (cfg : option ABTestConfig) (rows : gmap string ABTestConfig) : result unit string * gmap string ABTestConfig :=
  match Validate cfg with
  | Err e => (Err e, rows)
  | Ok c => (Ok tt, <[key (TenantID c) (ExperimentName c) := stamped now c]> rows)
  end.
Definition Delete (tenantID name : string) (rows : gmap string ABTestConfig) : gmap string ABTestConfig := delete (key tenantID name) rows.
End Memory.

(** ** On the database *)

Module Gorm.
Record abtestRow := {
  row_tenant : string;
  row_name : string;
  row_status : string;
  row_split : Z;
  row_control : gmap string setting;
  row_variant : gmap string setting;
  row_start : option Time;
  row_end : option Time;
  row_created : Time;
  row_updated : Time
}.
Definition rowToABTest (r : abtestRow) : ABTestConfig :=
  {| TenantID := row_tenant r; ExperimentName := row_name r; Status := row_status r; TrafficSplitPercent := row_split r;
     ControlConfig := row_control r; VariantConfig := row_variant r; StartAt := row_start r; EndAt := row_end r;
     CreatedAt := row_created r; UpdatedAt := row_updated r |}.
Definition abtestToRow (c : ABTestConfig) : abtestRow :=
  {| row_tenant := TenantID c; row_name := ExperimentName c; row_status := Status c; row_split := TrafficSplitPercent c;
     row_control := ControlConfig c; row_variant := VariantConfig c; row_start := StartAt c; row_end := EndAt c;
     row_created := CreatedAt c; row_updated := UpdatedAt c |}.

(** The table by its primary key. *)
Abbreviation Table := (gmap (string * string) abtestRow) (only parsing).
Definition row_key (r : abtestRow) : string * string := (row_tenant r, row_name r).

(** The insert with its conflict clause, which leaves the creation time. *)
Definition on_conflict (r old : abtestRow) : abtestRow :=
  {| row_tenant := row_tenant old; row_name := row_name old; row_status := row_status r; row_split := row_split r;
     row_control := row_control r; row_variant := row_variant r; row_start := row_start r; row_end := row_end r;
     row_created := row_created old; row_updated := row_updated r |}.
Definition upsert_row (r : abtestRow) (t : Table) : Table :=
  <[row_key r := match t !! row_key r with Some old => on_conflict r old | None => r end]> t.

Section Store.
Context `{Outside}.
(** [ORDER BY experiment_name ASC] *)
Definition name_before (a b : abtestRow) : bool := str_ltb (row_name a) (row_name b).

Definition List_ (tenantID : string) : Eff Table string (list ABTestConfig) :=
  if str_empty tenantID then eret []
  else eread "find" (λ t, rowToABTest <$> sort_by name_before (List.filter (λ r, str_eqb (row_tenant r) tenantID) (snd <$> map_to_list t))).
Definition Get (tenantID name : string) : Eff Table string ABTestConfig :=
  if str_empty tenantID || str_empty name then ethrow "abtest_gorm: missing tenant/name"
  else
    let@ r := eread "first" (λ t, t !! (tenantID, name)) in
    match r with Some r => eret (rowToABTest r) | None => ethrow not_found end.
(** The configuration of the caller is stamped in place. *)
Definition Upsert (now : Time) (cfg : option ABTestConfig) : Eff Table string ABTestConfig :=
  match Validate cfg with
  | Err e => ethrow e
  | Ok c => let c := stamped now c in let@ _ := ewrite "create" (upsert_row (abtestToRow c)) in eret c
  end.
Definition Delete (tenantID name : string) : Eff Table string unit :=
  if str_empty tenantID || str_empty name then ethrow "abtest_gorm: missing tenant/name"
  else ewrite "delete" (delete (tenantID, name)).
End Store.
End Gorm.

(** ** Routing *)

Record ABTestRouteOutcome := { o_experiment : string; o_arm : ABTestArm; o_config : gmap string setting }.

Definition bucketHash (key : string) : Z := (Fallback.fnv32a (to_bytes key)) `mod` 100.
Definition uint32 (z : Z) : Z := z `mod` 2 ^ 32.

Definition arm_of (cfg : ABTestConfig) (bucketKey : string) : ABTestArm :=
  if (bucketHash bucketKey <? uint32 (TrafficSplitPercent cfg))%Z then ABTestArmVariant else ABTestArmControl.

(** [get] is the [Get] of the store; its errors count as no experiment. *)
Definition Route (get : string → string → result ABTestConfig string) (tenantID experimentName bucketKey : string) : option ABTestRouteOutcome :=
  if str_empty experimentName || str_empty tenantID then None
  else match get tenantID experimentName with
       | Err _ => None
       | Ok cfg =>
           if negb (str_eqb (Status cfg) ABTestStatusActive) then None
           else Some {| o_experiment := experimentName; o_arm := arm_of cfg bucketKey;
                        o_config := match arm_of cfg bucketKey with ABTestArmVariant => VariantConfig cfg | ABTestArmControl => ControlConfig cfg end |}
       end.

(** ** In the retrieval handler *)

Definition numericAsInt (v : setting) : option Z :=
  match v with SInt n => Some n | SFloat32 x => Some (int_of_f64 (f64_of_f32 x)) | SFloat64 x => Some (int_of_f64 x) | SOther => None end.
Definition numericAsFloat32 (v : setting) : option float :=
  match v with SInt n => Some (f32_of_Z n) | SFloat32 x => Some x | SFloat64 x => Some (f32_of_f64 x) | SOther => None end.

Definition tuned (topK : Z) (diversity : float) (req : Handler.RetrieveRequest) : Handler.RetrieveRequest :=
  {| Handler.Query := Handler.Query req; Handler.TopK := topK; Handler.rq_Sources := Handler.rq_Sources req; Handler.Channels := Handler.Channels req;
     Handler.Documents := Handler.Documents req; Handler.PrivacyMode := Handler.PrivacyMode req; Handler.SkillID := Handler.SkillID req;
     Handler.DeviceTier := Handler.DeviceTier req; Handler.Diversity := diversity; Handler.ExperimentName := Handler.ExperimentName req;
     Handler.ExperimentBucketKey := Handler.ExperimentBucketKey req |}.

Definition applyABTestConfig (req : Handler.RetrieveRequest) (cfg : gmap string setting) : Handler.RetrieveRequest :=
  tuned (default (Handler.TopK req) (cfg !! "top_k"%string ≫= numericAsInt)) (default (Handler.Diversity req) (cfg !! "diversity"%string ≫= numericAsFloat32)) req.

Definition resolveExperiment (router : option (string → string → string → option ABTestRouteOutcome)) (tenantID : string) (req : Handler.RetrieveRequest)
    : option ABTestRouteOutcome * Handler.RetrieveRequest :=
  match router with
  | None => (None, req)
  | Some route =>
      if str_empty (Handler.ExperimentName req) || str_empty tenantID then (None, req)
      else
        let bucket := if str_empty (Handler.ExperimentBucketKey req) then tenantID else Handler.ExperimentBucketKey req in
        match route tenantID (Handler.ExperimentName req) bucket with
        | None => (None, req)
        | Some o => (Some o, match o_arm o with ABTestArmVariant => applyABTestConfig req (o_config o) | ABTestArmControl => req end)
        end
  end.

(** The experiment and the arm written on a response. *)
Definition stampExperiment (o : option ABTestRouteOutcome) : string * string :=
  match o with Some o => (o_experiment o, arm_name (o_arm o)) | None => (EmptyString, EmptyString) end.

Section Retrieval.
Context `{Reranker} `{Diversifier} (cfg : Handler.HandlerConfig) (regexp_other : bytes → bytes → bool) (iterate : list Match.Match → list Match.Match).
Context (router : option (string → string → string → option ABTestRouteOutcome)).

(** The cache-aware entry point of the handler, with its routing. *)
Definition RetrieveWithSnapshotCached (tenantID : string) (req : Handler.RetrieveRequest) (snapshot : Snapshot.PolicySnapshot) (env : Handler.Environment)
    : result (Handler.RetrieveResponse * option Match.CachedResult * (string * string)) Handler.error :=
  if str_empty tenantID then Err Handler.MissingTenant
  else if str_empty (Handler.Query req) then Err Handler.MissingQuery
  else
    let '(route, req) := resolveExperiment router tenantID req in
    let! r := Handler.RetrieveWithSnapshotCached cfg regexp_other iterate tenantID req snapshot env in
    Ok (r, stampExperiment route).
End Retrieval.

(** ** Comparing the arms *)

Record ABTestArmResult := {
  Arm : string;
  Count : Z;
  AvgLatencyMS : float;
  AvgHitCount : float;
  CacheHitPercent : float;
  P50LatencyMS : float;
  P95LatencyMS : float
}.

(** [int(math.Ceil(x))] of a finite value that fits. *)
Definition int_ceil (x : float) : Z :=
  match x with
  | S754_finite s m e =>
      let z := signed_mantissa s m in
      let c := if (0 <=? e)%Z then (z * 2 ^ e)%Z else (- (- z / 2 ^ (- e)))%Z in
      if (int64_min <=? c)%Z && (c <=? int64_max)%Z then c else int64_min
  | S754_zero _ => 0
  | _ => int64_min
  end.

(** The nearest rank, kept within the list. *)
Definition rank_of (p : float) (n : nat) : nat :=
  let rank := int_ceil (f64_mul p (f64_of_Z (Z.of_nat n))) in
  let rank := if (rank <=? 0)%Z then 1%Z else rank in
  Z.to_nat (if (Z.of_nat n <? rank)%Z then Z.of_nat n else rank).
Definition percentile (vals : list float) (p : float) : float :=
  match vals with
  | [] => f_zero
  | _ => default f_zero (sort_by f_ltb vals !! (rank_of p (length vals) - 1)%nat)
  end.

Record bucket := { latencies : list float; b_hits : Z; cacheHits : Z; count : Z; latencySum : float }.

Definition arm_key (r : Analytics.QueryAnalyticsRow) : string :=
  if str_empty (Analytics.ExperimentArm r) then "control" else Analytics.ExperimentArm r.
Definition add_arm (experiment : string) (g : gmap string bucket) (r : Analytics.QueryAnalyticsRow) : gmap string bucket :=
  if negb (str_eqb (Analytics.ExperimentName r) experiment) then g
  else
    let b := default {| latencies := []; b_hits := 0; cacheHits := 0; count := 0; latencySum := f_zero |} (g !! arm_key r) in
    let ms := f64_of_Z (Analytics.LatencyMS r) in
    <[arm_key r := {| latencies := latencies b ++ [ms]; b_hits := wrap64 (b_hits b + Analytics.HitCount r);
                      cacheHits := if Analytics.CacheHit r then cacheHits b + 1 else cacheHits b; count := count b + 1;
                      latencySum := f64_add (latencySum b) ms |}]> g.
Definition by_arm (experiment : string) (rows : list Analytics.QueryAnalyticsRow) : gmap string bucket := foldl (add_arm experiment) ∅ rows.

Definition arm_result (arm : string) (b : bucket) : ABTestArmResult :=
  {| Arm := arm; Count := count b; AvgLatencyMS := f64_div (latencySum b) (f64_of_Z (count b));
     AvgHitCount := f64_div (f64_of_Z (b_hits b)) (f64_of_Z (count b));
     CacheHitPercent := f64_mul (f64_div (f64_of_Z (cacheHits b)) (f64_of_Z (count b))) (f64_of_Z 100);
     P50LatencyMS := percentile (latencies b) (f64_const 1 2); P95LatencyMS := percentile (latencies b) (f64_const 95 100) |}.

(** The order of the report. *)
Definition arm_before (a b : ABTestArmResult) : bool :=
  let ca := str_eqb (Arm a) "control" in
  let cb := str_eqb (Arm b) "control" in
  if ca && negb cb then true else if cb && negb ca then false else str_ltb (Arm a) (Arm b).

(** [list] is the listing of the analytics store, [slice_sort] Go's sort. *)
Definition Aggregate {W} (list : Analytics.QueryAnalyticsQuery → Eff W string (list Analytics.QueryAnalyticsRow))
    (iterate : Datatypes.list (string * bucket) → Datatypes.list (string * bucket)) (slice_sort : Datatypes.list ABTestArmResult → Datatypes.list ABTestArmResult)
    (tenantID experiment : string) (since until : Time) : Eff W string (Datatypes.list ABTestArmResult) :=
  if str_empty tenantID then ethrow "abtest_results: missing tenant_id"
  else if str_empty experiment then ethrow "abtest_results: missing experiment"
  else
    let@ rows := list {| Analytics.q_TenantID := tenantID; Analytics.Since := since; Analytics.Until := until; Analytics.Limit := 10000; Analytics.SlowOnly := false |} in
    eret (slice_sort ((λ '(arm, b), arm_result arm b) <$>
            List.filter (λ '(_, b), negb (count b =? 0)%Z) (iterate (map_to_list (by_arm experiment rows))))).

(** ** The stores keep tenants apart *)

Import Memory.

Lemma key_bytes t n : to_bytes (key t n) = to_bytes t ++ nul :: to_bytes n.
Proof. unfold key, prefix. rewrite !to_bytes_app. simpl. by rewrite <- app_assoc. Qed.

Lemma split_nul (a a' b b' : bytes) : nul ∉ a → nul ∉ a' → a ++ nul :: b = a' ++ nul :: b' → a = a' ∧ b = b'.
Proof.
  revert a'. induction a as [|x a IH]; intros [|y a'] Ha Ha' E; simpl in E.
  - by injection E.
  - injection E as <- _. set_solver.
  - injection E as -> _. set_solver.
  - injection E as -> E. destruct (IH a') as [-> ->]; [set_solver|set_solver|done|done].
Qed.

Definition nul_free (s : string) : Prop := nul ∉ to_bytes s.

Lemma key_inj t n t' n' : nul_free t → nul_free t' → key t n = key t' n' → t = t' ∧ n = n'.
Proof.
  intros Ht Ht' E. apply (f_equal to_bytes) in E. rewrite !key_bytes in E. apply split_nul in E as [E1 E2]; [|done..].
  split; by apply to_bytes_inj.
Qed.

(** Every row lies under its own key, and its tenant has no NUL. *)
Definition kept (rows : gmap string ABTestConfig) : Prop :=
  ∀ k c, rows !! k = Some c → k = key (TenantID c) (ExperimentName c) ∧ nul_free (TenantID c).

Lemma Validate_accepts c c' : Validate (Some c) = Ok c' → c' = c ∧ TenantID c ≠ EmptyString ∧ ExperimentName c ≠ EmptyString ∧ (0 ≤ TrafficSplitPercent c ≤ 100)%Z.
Proof.
  unfold Validate. destruct (str_empty (TenantID c)) eqn:Et; [done|]. destruct (str_empty (ExperimentName c)) eqn:En; [done|].
  destruct (Z.ltb_spec (TrafficSplitPercent c) 0); [done|]. destruct (Z.ltb_spec 100 (TrafficSplitPercent c)); [done|]. simpl.
  destruct (_ || _); [|done]. intros [= <-]. rewrite str_empty_false in Et, En. split_and!; [done|done|done|lia|lia].
Qed.

Lemma Upsert_kept now c rows r rows' : nul_free (TenantID c) → kept rows → Upsert now (Some c) rows = (r, rows') → kept rows'.
Proof.
  intros Hn Hk. unfold Upsert. destruct (Validate (Some c)) as [c'|e] eqn:Ev; intros [= <- <-]; [|done].
  apply Validate_accepts in Ev as (-> & _). intros k x. destruct (decide (k = key (TenantID c) (ExperimentName c))) as [->|Hne].
  - rewrite lookup_insert_eq. intros [= <-]. done.
  - rewrite lookup_insert_ne by done. apply Hk.
Qed.
Lemma Delete_kept t n rows : kept rows → kept (Delete t n rows).
Proof. intros Hk k c. unfold Delete. rewrite lookup_delete_Some. intros [_ H]. by apply Hk. Qed.

Lemma has_prefix_key t t' n : nul_free t → nul_free t' → has_prefix (prefix t) (key t' n) = true ↔ t = t'.
Proof.
  intros Ht Ht'. unfold has_prefix. rewrite bool_decide_eq_true. split.
  - intros E. pose proof (take_drop (length (to_bytes (prefix t))) (to_bytes (key t' n))) as E'.
    rewrite E, key_bytes in E'. unfold prefix in E' at 1. rewrite to_bytes_app, <- app_assoc in E'.
    apply split_nul in E' as [E' _]; [|done..]. by apply to_bytes_inj.
  - intros <-. unfold key. rewrite to_bytes_app. by rewrite take_app_length.
Qed.

(** The listing of a tenant holds its experiments and no others. *)
Theorem memory_listing_exact iterate t rows :
  (∀ l, iterate l ≡ₚ l) → kept rows → nul_free t →
  ∀ c, c ∈ List_ iterate t rows ↔ TenantID c = t ∧ Get t (ExperimentName c) rows = Ok c.
Proof.
  intros Hi Hk Ht c. unfold List_, Get. rewrite list_elem_of_fmap. split.
  - intros ([k x] & -> & Hx). apply elem_of_filterb in Hx as [Hp Hx]. rewrite Hi, elem_of_map_to_list in Hx. simpl in *.
    destruct (Hk k x Hx) as [-> Hn]. apply has_prefix_key in Hp as ->; [|done..]. by rewrite Hx.
  - intros [E Hg]. destruct (rows !! _) as [x|] eqn:Ex; [|done]. injection Hg as ->. exists (key t (ExperimentName c), c). split; [done|].
    apply elem_of_filterb. split; [|by rewrite Hi, elem_of_map_to_list]. simpl. by apply has_prefix_key.
Qed.

(** ** What the router needs of a store *)

(** All but the times. *)
Definition same_experiment (c c' : ABTestConfig) : Prop := c' = timed (CreatedAt c') (UpdatedAt c') c.

Class ABTestStore (S : Type) := {
  ab_ok : S → Prop;
  ab_tenant : string → Prop;     (** the tenants the store can tell apart *)
  ab_get : S → string → string → result ABTestConfig string;
  ab_upsert : Time → ABTestConfig → S → result S string;
  ab_upsert_get now c s s' : ab_ok s → ab_tenant (TenantID c) → ab_upsert now c s = Ok s' →
    ab_ok s' ∧ (0 ≤ TrafficSplitPercent c ≤ 100)%Z ∧ TenantID c ≠ EmptyString ∧ ExperimentName c ≠ EmptyString ∧
    ∃ c', ab_get s' (TenantID c) (ExperimentName c) = Ok c' ∧ same_experiment c c';
  ab_upsert_other now c s s' t n : ab_ok s → ab_tenant (TenantID c) → ab_tenant t → ab_upsert now c s = Ok s' →
    (t, n) ≠ (TenantID c, ExperimentName c) → ab_get s' t n = ab_get s t n
}.

#[refine] Instance memory_store : ABTestStore (gmap string ABTestConfig) := {|
  ab_ok := kept; ab_tenant := nul_free; ab_get rows t n := Get t n rows;
  ab_upsert now c rows := match Upsert now (Some c) rows with (Ok _, rows') => Ok rows' | (Err e, _) => Err e end
|}.
Proof.
  - intros now c s s' Hk Hn Hu. destruct (Upsert now (Some c) s) as [[]  rows'] eqn:E; [|done]. injection Hu as ->.
    split; [by eapply Upsert_kept|]. unfold Upsert in E. destruct (Validate (Some c)) as [c'|] eqn:Ev; [|done].
    injection E as _ <-. apply Validate_accepts in Ev as (-> & Ht & He & Hp). split_and!; [lia|lia|done|done|].
    exists (stamped now c). unfold Get. by rewrite lookup_insert_eq.
  - intros now c s s' t n Hk Hn Ht Hu Hne. unfold Upsert in Hu. destruct (Validate (Some c)) as [c'|] eqn:Ev; [|done].
    apply Validate_accepts in Ev as (-> & _). injection Hu as <-. unfold Get. rewrite lookup_insert_ne; [done|].
    intros E. apply key_inj in E as [E1 E2]; [|done..]. congruence.
Defined.

(** The rows of the table lie under their primary key. *)
Definition keyed_rows (t : Gorm.Table) : Prop := map_Forall (λ k r, Gorm.row_key r = k) t.

Definition gorm_get (s : Gorm.Table) (t n : string) : result ABTestConfig string :=
  if str_empty t || str_empty n then Err "abtest_gorm: missing tenant/name"%string
  else match s !! (t, n) with Some r => Ok (Gorm.rowToABTest r) | None => Err not_found end.
Definition gorm_upsert (now : Time) (c : ABTestConfig) (s : Gorm.Table) : result Gorm.Table string :=
  match Validate (Some c) with Ok c => Ok (Gorm.upsert_row (Gorm.abtestToRow (stamped now c)) s) | Err e => Err e end.

(** The calls of the store, when they succeed. *)
Lemma Gorm_Get_Ok `{Outside} t n w c w' : Gorm.Get t n w = (Ok c, w') → gorm_get (store w) t n = Ok c ∧ store w' = store w.
Proof.
  unfold Gorm.Get, gorm_get. destruct (_ || _); [done|]. unfold ebind, eread, ecall. destruct (fate _); [|done..].
  destruct (store w !! (t, n)); [|done]. by intros [= <- <-].
Qed.
Lemma Gorm_Upsert_Ok `{Outside} now c w c' w' : Gorm.Upsert now (Some c) w = (Ok c', w') → gorm_upsert now c (store w) = Ok (store w') ∧ c' = stamped now c.
Proof.
  unfold Gorm.Upsert, gorm_upsert. destruct (Validate (Some c)) as [x|] eqn:Ev; [|done]. apply Validate_accepts in Ev as (-> & _).
  unfold ebind, ewrite, ecall. destruct (fate _); [|done..]. by intros [= <- <-].
Qed.

#[refine] Instance gorm_store : ABTestStore Gorm.Table := {|
  ab_ok := keyed_rows; ab_tenant := λ _, True; ab_get := gorm_get; ab_upsert := gorm_upsert
|}.
Proof.
  - intros now c s s' Hk _. unfold gorm_upsert, gorm_get. destruct (Validate (Some c)) as [x|] eqn:Ev; [|done]. intros [= <-].
    apply Validate_accepts in Ev as (-> & Ht & He & Hp). split_and!; [|lia|lia|done|done|].
    + intros k r. unfold Gorm.upsert_row. destruct (decide (k = Gorm.row_key (Gorm.abtestToRow (stamped now c)))) as [->|Hne].
      * rewrite lookup_insert_eq. intros [= <-]. destruct (s !! _) as [old|] eqn:Eo; [|done]. exact (Hk _ _ Eo).
      * rewrite lookup_insert_ne by done. apply Hk.
    + rewrite (proj2 (str_empty_false _) Ht), (proj2 (str_empty_false _) He). cbn [orb].
      change (TenantID c, ExperimentName c) with (Gorm.row_key (Gorm.abtestToRow (stamped now c))).
      unfold Gorm.upsert_row. rewrite lookup_insert_eq. destruct (s !! _) as [old|] eqn:Eo; eexists; (split; [done|]); [|done].
      pose proof (Hk _ _ Eo) as E. unfold Gorm.row_key in E. simpl in E. injection E as E1 E2.
      unfold same_experiment, timed, Gorm.rowToABTest, Gorm.on_conflict. simpl. by rewrite E1, E2.
  - intros now c s s' t n Hk _ _. unfold gorm_upsert, gorm_get. destruct (Validate (Some c)) as [x|] eqn:Ev; [|done].
    apply Validate_accepts in Ev as (-> & _). intros [= <-] Hne. unfold Gorm.upsert_row.
    rewrite lookup_insert_ne; [done|]. unfold Gorm.row_key. simpl. congruence.
Defined.

(** ** Assignment *)

Lemma bucketHash_range k : (0 ≤ bucketHash k < 100)%Z.
Proof. unfold bucketHash. apply Z.mod_pos_bound. lia. Qed.

Lemma arm_of_variant cfg k : (0 ≤ TrafficSplitPercent cfg ≤ 100)%Z → arm_of cfg k = ABTestArmVariant ↔ (bucketHash k < TrafficSplitPercent cfg)%Z.
Proof.
  intros Hp. unfold arm_of, uint32. rewrite Z.mod_small by lia. destruct (Z.ltb_spec (bucketHash k) (TrafficSplitPercent cfg)); split; (done || lia).
Qed.

(** Of the hundred buckets as many as the percentage says belong to the variant. *)
Lemma variant_share p : (0 ≤ p ≤ 100)%Z → length (List.filter (λ b, (Z.of_nat b <? p)%Z) (seq 0 100)) = Z.to_nat p.
Proof.
  intros Hp. assert (Hall : Forall (λ p, length (List.filter (λ b, (Z.of_nat b <? Z.of_nat p)%Z) (seq 0 100)) = p) (seq 0 101)).
  { apply Forall_forall. intros q Hq. apply elem_of_seq in Hq. do 101 (destruct q as [|q]; [reflexivity|]). lia. }
  rewrite Forall_forall in Hall. rewrite <- (Hall (Z.to_nat p)) by (apply elem_of_seq; lia). by rewrite Z2Nat.id by lia.
Qed.

Lemma Route_active get t n k cfg :
  t ≠ EmptyString → n ≠ EmptyString → get t n = Ok cfg → Status cfg = ABTestStatusActive →
  ∃ o, Route get t n k = Some o ∧ o_experiment o = n ∧ o_arm o = arm_of cfg k.
Proof.
  intros Ht Hn Hg Hs. unfold Route. rewrite (proj2 (str_empty_false _) Ht), (proj2 (str_empty_false _) Hn), Hg, Hs, str_eqb_refl.
  by eexists.
Qed.

Lemma same_experiment_facts c c' : same_experiment c c' → Status c' = Status c ∧ TrafficSplitPercent c' = TrafficSplitPercent c.
Proof. intros E. by rewrite E. Qed.

(** Ramping up an active experiment moves no one back: a key of the variant stays there
    when the percentage is raised, whatever store holds the experiment; the variant is
    the keys whose bucket is below the percentage; no other experiment is touched. *)
Theorem ramp_up_is_sticky `{ABTestStore St} now now' c c' s s1 s2 k :
  ab_ok s → ab_tenant (TenantID c) → TenantID c' = TenantID c → ExperimentName c' = ExperimentName c →
  Status c = ABTestStatusActive → Status c' = ABTestStatusActive → (TrafficSplitPercent c ≤ TrafficSplitPercent c')%Z →
  ab_upsert now c s = Ok s1 → ab_upsert now' c' s1 = Ok s2 →
  (∃ o o', Route (ab_get s1) (TenantID c) (ExperimentName c) k = Some o ∧ Route (ab_get s2) (TenantID c) (ExperimentName c) k = Some o' ∧
     (o_arm o = ABTestArmVariant ↔ (bucketHash k < TrafficSplitPercent c)%Z) ∧ (o_arm o = ABTestArmVariant → o_arm o' = ABTestArmVariant)) ∧
  (∀ t n, ab_tenant t → (t, n) ≠ (TenantID c, ExperimentName c) → Route (ab_get s2) t n k = Route (ab_get s) t n k).
Proof.
  intros Hs Ht E1 E2 Ha Ha' Hp Hu Hu'. destruct (ab_upsert_get _ _ _ _ Hs Ht Hu) as (Hs1 & Hr & Hne & Hne' & d & Hd & Hsame).
  rewrite <- E1 in Ht. destruct (ab_upsert_get _ _ _ _ Hs1 Ht Hu') as (_ & Hr' & _ & _ & d' & Hd' & Hsame').
  rewrite E1 in Ht. apply same_experiment_facts in Hsame as [F1 F2], Hsame' as [F3 F4]. split.
  - destruct (Route_active (ab_get s1) _ _ k d Hne Hne' Hd) as (o & Ho & _ & Harm); [congruence|].
    rewrite E1, E2 in Hd'. destruct (Route_active (ab_get s2) _ _ k d' Hne Hne' Hd') as (o' & Ho' & _ & Harm'); [congruence|].
    exists o, o'. rewrite Harm, Harm', !arm_of_variant by lia. split_and!; [done|done|lia|lia].
  - intros t n Htn Hn. unfold Route. rewrite (ab_upsert_other now' c' s1 s2) by (done || (by rewrite E1) || (by rewrite E1, E2)).
    by rewrite (ab_upsert_other now c s s1).
Qed.

(** ** An experiment only tunes *)

Lemma resolveExperiment_tuned router t req : ∃ topK d, (resolveExperiment router t req).2 = tuned topK d req.
Proof.
  assert (Hid : req = tuned (Handler.TopK req) (Handler.Diversity req) req) by (by destruct req).
  unfold resolveExperiment. destruct router as [route|]; [|by do 2 eexists]. destruct (_ || _); [by do 2 eexists|].
  destruct (route _ _ _) as [o|]; [|by do 2 eexists]. destruct (o_arm o); by do 2 eexists.
Qed.

(** Whatever the router answers and the variant configures, no hit is returned that the
    policy denies to the caller, and no more than the handler's maximum. *)
Theorem experiments_stay_safe `{Reranker} `{Diversifier} cfg regexp_other iterate router tenantID req snapshot env resp write tag :
  (0 ≤ Handler.DefaultTopK cfg)%Z → (0 < Handler.MaxTopK cfg)%Z →
  (∀ c, Handler.e_cache env = Some (Some c) → PolicyGate.PolicyGate.distinct c) →
  RetrieveWithSnapshotCached cfg regexp_other iterate router tenantID req snapshot env = Ok (resp, write, tag) →
  ∃ topK mode, (Snapshot.EffectiveMode snapshot ≠ EmptyString → mode = Snapshot.EffectiveMode snapshot) ∧
    (∀ h, h ∈ Handler.r_Hits resp → Handler.clean cfg regexp_other mode snapshot (Handler.SkillID req) h) ∧
    (0 < topK → Z.of_nat (length (Handler.r_Hits resp)) ≤ topK ≤ Handler.MaxTopK cfg)%Z.
Proof.
  intros Hdk Hmk Hd. unfold RetrieveWithSnapshotCached. destruct (str_empty tenantID); [done|]. destruct (str_empty (Handler.Query req)); [done|].
  destruct (resolveExperiment_tuned router tenantID req) as (k & d & E). destruct (resolveExperiment router tenantID req) as [route req']. simpl in E. subst req'.
  destruct (Handler.RetrieveWithSnapshotCached _ _ _ _ _ _ _) as [[resp' write']|e] eqn:Er; [|done]. intros [= -> -> <-].
  destruct (Handler.RetrieveWithSnapshotCached_clean _ _ _ _ _ _ _ _ _ Hdk Hmk Hd Er) as (topK & mode & _ & Hm & Hc & Hl).
  exists topK, mode. done.
Qed.

(** ** The report *)

Definition of_arm (experiment arm : string) (rows : list Analytics.QueryAnalyticsRow) : list Analytics.QueryAnalyticsRow :=
  List.filter (λ r, str_eqb (Analytics.ExperimentName r) experiment && str_eqb (arm_key r) arm) rows.

Lemma by_arm_spec experiment rows arm :
  match by_arm experiment rows !! arm with
  | None => of_arm experiment arm rows = []
  | Some b => count b = Z.of_nat (length (of_arm experiment arm rows)) ∧ (0 < count b)%Z
  end.
Proof.
  unfold by_arm, of_arm. induction rows as [|r rows IH] using rev_ind; [simpl; by rewrite lookup_empty|].
  rewrite foldl_app, List.filter_app. simpl. unfold add_arm at 1.
  destruct (str_eqb (Analytics.ExperimentName r) experiment) eqn:Ee; simpl; [|by rewrite app_nil_r].
  destruct (decide (arm_key r = arm)) as [<-|Hn].
  - rewrite lookup_insert_eq, str_eqb_refl. cbn [count]. rewrite length_app.
    destruct (foldl (add_arm experiment) ∅ rows !! arm_key r) as [b|]; simpl; [lia|rewrite IH; simpl; lia].
  - rewrite lookup_insert_ne by done. rewrite (proj2 (str_eqb_neq _ _) Hn), app_nil_r. exact IH.
Qed.

Lemma arm_before_weak l : weak_order_on arm_before l.
Proof.
  split.
  - intros a b _ _. unfold arm_before. destruct (str_eqb (Arm a) "control"), (str_eqb (Arm b) "control"); simpl; try done; apply str_ltb_asym.
  - intros a b c Ha Hb Hc. pose proof (proj2 (str_key_weak_order Arm l) a b c Ha Hb Hc) as Ht. unfold arm_before.
    destruct (str_eqb (Arm a) "control") eqn:Ea, (str_eqb (Arm b) "control") eqn:Eb, (str_eqb (Arm c) "control") eqn:Ec; simpl; done.
Qed.

(** The parts of a list by distinct keys do not exceed it. *)
Lemma parts_length {A} (f : A → string) (g : A → bool) (ks : list string) (l : list A) :
  NoDup ks → sum_list ((λ k, length (List.filter (λ x, g x && str_eqb (f x) k) l)) <$> ks) ≤ length l.
Proof.
  intros Hnd. induction l as [|x l IH]; simpl.
  { induction ks as [|k ks IHk]; simpl; [done|]. apply NoDup_cons in Hnd as [_ Hnd]. by apply IHk. }
  assert (Hstep : sum_list ((λ k, length (if g x && str_eqb (f x) k then x :: List.filter (λ x, g x && str_eqb (f x) k) l else List.filter (λ x, g x && str_eqb (f x) k) l)) <$> ks)
    ≤ sum_list ((λ k, length (List.filter (λ x, g x && str_eqb (f x) k) l)) <$> ks) + (if bool_decide (f x ∈ ks) then 1 else 0)).
  { clear IH. induction ks as [|k ks IHk]; simpl; [lia|]. apply NoDup_cons in Hnd as [Hn Hnd]. specialize (IHk Hnd).
    destruct (g x && str_eqb (f x) k) eqn:E; simpl.
    - apply andb_true_iff in E as [_ E%str_eqb_eq]. subst k. rewrite bool_decide_false in IHk by done. rewrite bool_decide_true by set_solver. unfold fmap in IHk. lia.
    - destruct (decide (f x ∈ ks)) as [Hin|Hin]; [rewrite (bool_decide_true (f x ∈ k :: ks)) by set_solver; rewrite bool_decide_true in IHk by done; unfold fmap in IHk; lia|].
      rewrite bool_decide_false in IHk by done. unfold fmap in IHk. lia. }
  destruct (bool_decide (f x ∈ ks)); lia.
Qed.

Lemma Aggregate_Ok {W} list iterate slice_sort t e since until (w : Env W) out w' :
  Aggregate list iterate slice_sort t e since until w = (Ok out, w') →
  ∃ rows, list {| Analytics.q_TenantID := t; Analytics.Since := since; Analytics.Until := until; Analytics.Limit := 10000; Analytics.SlowOnly := false |} w = (Ok rows, w') ∧
    out = slice_sort ((λ '(arm, b), arm_result arm b) <$> List.filter (λ '(_, b), negb (count b =? 0)%Z) (iterate (map_to_list (by_arm e rows)))).
Proof.
  unfold Aggregate. destruct (str_empty t); [done|]. destruct (str_empty e); [done|]. unfold ebind.
  destruct (list _ w) as [[rows|] w1] eqn:El; [|done]. intros [= <- <-]. by exists rows.
Qed.

(** The arms of a report: each once, control first, with the number of its rows. *)
Lemma arms_spec iterate slice_sort e rows :
  (∀ l, iterate l ≡ₚ l) → (∀ l, slice_sorted arm_before l (slice_sort l)) →
  let out := slice_sort ((λ '(arm, b), arm_result arm b) <$> List.filter (λ '(_, b), negb (count b =? 0)%Z) (iterate (map_to_list (by_arm e rows)))) in
  NoDup (Arm <$> out) ∧ StronglySorted (λ a b, arm_before b a = false) out ∧
  (∀ a, a ∈ out → Count a = Z.of_nat (length (of_arm e (Arm a) rows))) ∧
  (∀ r, r ∈ rows → Analytics.ExperimentName r = e → arm_key r ∈ Arm <$> out).
Proof.
  intros Hi Hsort out. destruct (Hsort ((λ '(arm, b), arm_result arm b) <$> List.filter (λ '(_, b), negb (count b =? 0)%Z) (iterate (map_to_list (by_arm e rows))))) as [Hp Hs].
  assert (Hall : List.filter (λ '(_, b), negb (count b =? 0)%Z) (iterate (map_to_list (by_arm e rows))) = iterate (map_to_list (by_arm e rows))).
  { apply filter_true_id, Forall_forall. intros [arm b] Hb. rewrite Hi, elem_of_map_to_list in Hb.
    pose proof (by_arm_spec e rows arm) as Hc. rewrite Hb in Hc. apply negb_true_iff, Z.eqb_neq. lia. }
  fold out in Hp, Hs. rewrite Hall, Hi in Hp. split_and!.
  - rewrite Hp, <- list_fmap_compose, (list_fmap_ext _ fst); [apply NoDup_fst_map_to_list|]. by intros ? [arm b] _.
  - done.
  - intros a Ha. rewrite Hp in Ha. apply list_elem_of_fmap in Ha as ([arm b] & -> & Hb%elem_of_map_to_list).
    pose proof (by_arm_spec e rows arm) as Hc. rewrite Hb in Hc. apply Hc.
  - intros r Hr <-. pose proof (by_arm_spec (Analytics.ExperimentName r) rows (arm_key r)) as Hc.
    assert (Hin : r ∈ of_arm (Analytics.ExperimentName r) (arm_key r) rows) by (apply elem_of_filterb; by rewrite !str_eqb_refl).
    destruct (by_arm _ rows !! arm_key r) as [b|] eqn:Eb; [|rewrite Hc in Hin; by apply not_elem_of_nil in Hin].
    rewrite Hp, list_elem_of_fmap. exists (arm_result (arm_key r) b). split; [done|]. apply list_elem_of_fmap. exists (arm_key r, b).
    split; [done|by apply elem_of_map_to_list].
Qed.

Lemma sum_Count l : (∀ a, a ∈ l → (0 ≤ Count a)%Z) → Z.of_nat (sum_list ((λ a, Z.to_nat (Count a)) <$> l)) = foldr (λ a n, (Count a + n)%Z) 0%Z l.
Proof.
  induction l as [|a l IH]; intros Hl; simpl; [done|]. specialize (IH (λ a Ha, Hl a (list_elem_of_further _ _ _ Ha))).
  pose proof (Hl a (list_elem_of_here _ _)). unfold fmap in IH. lia.
Qed.

(** What the report counts: on the database the limit of ten thousand rows is out of
    range and becomes a hundred, so all arms together count at most a hundred of the
    newest rows of the tenant, whatever their experiment. *)
Theorem report_counts_a_hundred `{Outside} order_by iterate slice_sort t e since until w out w' :
  (∀ l, slice_sorted Analytics.newer l (order_by l)) → (∀ l, iterate l ≡ₚ l) → (∀ l, slice_sorted arm_before l (slice_sort l)) →
  Aggregate (Analytics.Store_List order_by) iterate slice_sort t e since until w = (Ok out, w') →
  (foldr (λ a n, (Count a + n)%Z) 0%Z out ≤ 100)%Z ∧
  ∃ rows, length rows ≤ 100 ∧ (∀ r, r ∈ rows → r ∈ store w ∧ Analytics.TenantID r = t) ∧
    NoDup (Arm <$> out) ∧ StronglySorted (λ a b, arm_before b a = false) out ∧
    (∀ a, a ∈ out → Count a = Z.of_nat (length (of_arm e (Arm a) rows))) ∧
    (∀ r, r ∈ rows → Analytics.ExperimentName r = e → arm_key r ∈ Arm <$> out).
Proof.
  intros Ho Hi Hs (rows & Hl & ->)%Aggregate_Ok. destruct (Analytics.Store_List_spec _ _ _ _ _ Ho Hl) as (_ & Hlen & _ & Hin & _).
  destruct (arms_spec iterate slice_sort e rows Hi Hs) as (Hnd & Hsrt & Hc & Hk).
  set (out := slice_sort _) in *. change (Analytics.page_limit _) with 100%Z in Hlen. split.
  - rewrite <- sum_Count by (intros a Ha; rewrite (Hc a Ha); lia).
    assert (E : (λ a, Z.to_nat (Count a)) <$> out = (λ k, length (of_arm e k rows)) <$> (Arm <$> out)).
    { rewrite <- list_fmap_compose. apply list_fmap_ext. intros i a Ha%list_elem_of_lookup_2. simpl. rewrite (Hc a Ha). lia. }
    rewrite E. pose proof (parts_length arm_key (λ r, str_eqb (Analytics.ExperimentName r) e) (Arm <$> out) rows Hnd) as Hp.
    unfold of_arm. lia.
  - exists rows. split_and!; [lia| |done|done|done|done]. intros r Hr. destruct (Hin r Hr) as [? Hw]. split; [done|].
    unfold Analytics.in_window in Hw. rewrite !andb_true_iff, str_eqb_eq in Hw. tauto.
Qed.
End Experiments.

(** ** Concrete experiments *)

Module ExperimentSamples.
Import Experiments.

Definition trial (tenant name : string) (split : Z) : ABTestConfig :=
  {| TenantID := tenant; ExperimentName := name; Status := ABTestStatusActive; TrafficSplitPercent := split; ControlConfig := ∅;
     VariantConfig := {["top_k"%string := SFloat64 (f64_of_Z (-1))]}; CreatedAt := 0; UpdatedAt := 0; StartAt := None; EndAt := Some 1%Z |}.

Lemma ramp_up_is_sticky_witness :
  ∃ o, Route (ab_get (<[Memory.key "acme" "mmr" := stamped 8 (trial "acme" "mmr" 60)]> (<[Memory.key "acme" "mmr" := stamped 7 (trial "acme" "mmr" 50)]> ∅)))
         "acme" "mmr" "user-1" = Some o ∧ o_arm o = ABTestArmVariant.
Proof.
  destruct (ramp_up_is_sticky 7 8 (trial "acme" "mmr" 50) (trial "acme" "mmr" 60) ∅
    (<[Memory.key "acme" "mmr" := stamped 7 (trial "acme" "mmr" 50)]> ∅)
    (<[Memory.key "acme" "mmr" := stamped 8 (trial "acme" "mmr" 60)]> (<[Memory.key "acme" "mmr" := stamped 7 (trial "acme" "mmr" 50)]> ∅)) "user-1") as [(o & o' & Ho & Ho' & Hv & Hst) _];
    [intros k c; by rewrite lookup_empty|vm_compute; set_solver|reflexivity..|vm_compute; discriminate|reflexivity|reflexivity|].
  exists o'. split; [exact Ho'|]. apply Hst, Hv. vm_compute. reflexivity.
Defined.

(** The bucket is taken of the key alone: with equal splits a user is in the variant of
    every experiment or of none. *)
Example arms_are_correlated k : arm_of (trial "acme" "mmr" 50) k = arm_of (trial "acme" "rerank" 50) k.
Proof. reflexivity. Qed.

(** A variant with a negative [top_k] fails every request of its arm. *)
Example negative_top_k_fails :
  let router := Some (Route (λ t n, Ok (trial t n 100))) in
  let req := {| Handler.Query := "q"; Handler.TopK := 5; Handler.rq_Sources := []; Handler.Channels := []; Handler.Documents := []; Handler.PrivacyMode := "";
                Handler.SkillID := "s"; Handler.DeviceTier := ""; Handler.Diversity := f_zero; Handler.ExperimentName := "mmr"; Handler.ExperimentBucketKey := "" |} in
  @RetrieveWithSnapshotCached Handler.the_reranker Handler.the_diversifier Handler.sample_cfg (λ _ _, false) id router "acme" req Snapshot.empty Handler.sample_env = Err Handler.BadTopK.
Proof. vm_compute. reflexivity. Qed.

(** In memory a tenant name with a NUL shows its experiments to the tenant before it. *)
Example nul_tenant_is_listed :
  let other := str_app "acme" (String Memory.nul "x") in
  (λ c, (TenantID c, ExperimentName c)) <$> Memory.List_ id "acme" (Memory.Upsert 7 (Some (trial other "mmr" 50)) ∅).2 = [(other, "mmr"%string)].
Proof. vm_compute. reflexivity. Qed.
End ExperimentSamples.
