(* ===== verification/TokenRefresh.v ===== *)
(** * Refreshing of OAuth tokens (admin/token_refresh.go)

    The worker that walks over the active sources and renews the access tokens that are
    about to expire, and the client that asks the authorization server. A source's
    config is a map of JSON values; the answers of authorization servers come from
    outside; the repository is the one of [Sources]. Values are immutable here, so the
    deep copy of a config is the config. *)

From Stdlib Require Import Ascii.
From S2P Require Import Prelude GoFloat GoString Effects GoText Calendar GoTime Json Sources.
Import Calendar.Calendar GoTime.GoTime.

Module TokenRefresh.

Definition RefreshWindow : Z := 5 * minute.

Record RefreshParams := { p_TokenURL : string; p_ClientID : string; p_ClientSecret : string; p_RefreshToken : string; p_Scope : string }.
Record RefreshResult := { AccessToken : string; RefreshToken : string; ExpiresAt : Time }.
Inductive refresh_error := RefreshValidationError (what : string) | TransportError (what : string).

(** ** The client *)

Record token_body := { b_access : string; b_refresh : string; b_expires_in : Z; b_expires_at : string; b_error : string }.
Definition empty_body : token_body := {| b_access := ""; b_refresh := ""; b_expires_in := 0; b_expires_at := ""; b_error := "" |}.
Definition d_body : decoder token_body := λ j,
  get a from d_str_field "access_token" j in
  get r from d_str_field "refresh_token" j in
  get n from d_int_field "expires_in" j in
  get e from d_str_field "expires_at" j in
  get x from d_str_field "error" j in
  Some {| b_access := a; b_refresh := r; b_expires_in := n; b_expires_at := e; b_error := x |}.

Definition set_unless_empty (k v : string) (m : gmap string string) : gmap string string := if str_empty v then m else <[k := v]> m.
Definition form (p : RefreshParams) : gmap string string :=
  set_unless_empty "scope" (p_Scope p) (set_unless_empty "client_secret" (p_ClientSecret p) (set_unless_empty "client_id" (p_ClientID p)
    (<["refresh_token" := p_RefreshToken p]> {["grant_type" := "refresh_token"]})))%string.

(** Both layouts of [time.Parse] take the same texts. *)
Definition expiry (now : Time) (b : token_body) : Time :=
  if negb (str_empty (b_expires_at b)) then parse_or_zero (b_expires_at b)
  else if (0 <? b_expires_in b)%Z then (now + wrap64 (b_expires_in b * second))%Z
  else 0%Z.

(** [exchange] answers the request with a status and a body, or fails. *)
Definition Refresh (exchange : string → gmap string string → result (Z * blob) string) (now : Time) (p : RefreshParams) : result RefreshResult refresh_error :=
  if str_empty (p_TokenURL p) then Err (RefreshValidationError "token_url required")
  else if str_empty (p_RefreshToken p) then Err (RefreshValidationError "refresh_token required")
  else match exchange (p_TokenURL p) (form p) with
       | Err e => Err (TransportError e)
       | Ok (status, raw) =>
           match (match raw with NoBytes => Some empty_body | Garbled => None | Parsed j => d_body j end) with
           | None => Err (TransportError "oauth: decode response")
           | Some b =>
               if (400 <=? status)%Z || negb (str_empty (b_error b)) then
                 Err (RefreshValidationError (if str_empty (b_error b) then str_app "http " (FormatInt status) else b_error b))
               else if str_empty (b_access b) then Err (RefreshValidationError "response missing access_token")
               else Ok {| AccessToken := b_access b; RefreshToken := if str_empty (b_refresh b) then p_RefreshToken p else b_refresh b;
                          ExpiresAt := expiry now b |}
           end
       end.

(** ** Credentials in a config *)

Abbreviation JSONMap := (gmap string json) (only parsing).
Definition obj_map (l : list (string * json)) : gmap string json := list_to_map (reverse l).

Record oauthCredentials := {
  c_AccessToken : string;
  c_RefreshToken : string;
  c_TokenURL : string;
  c_ClientID : string;
  c_ClientSecret : string;
  c_Scope : string;
  c_ExpiresAt : Time
}.

Section Worker.
Context (parse : bytes → blob).

(** The nested object, or the text of one. *)
Definition credentialsFromConfig (cfg : gmap string json) : option (gmap string json) :=
  match cfg !! "credentials"%string with
  | Some (JObj l) => Some (obj_map l)
  | Some (JStr s) => match parse (to_bytes s) with Parsed (JObj l) => Some (obj_map l) | _ => None end
  | _ => None
  end.

Definition stringField (m : gmap string json) (k : string) : string := match m !! k with Some (JStr s) => s | _ => EmptyString end.

Definition read_blob (c : gmap string json) : option oauthCredentials :=
  if str_empty (stringField c "refresh_token") || str_empty (stringField c "token_url") then None
  else Some {| c_AccessToken := stringField c "access_token"; c_RefreshToken := stringField c "refresh_token"; c_TokenURL := stringField c "token_url";
               c_ClientID := stringField c "client_id"; c_ClientSecret := stringField c "client_secret"; c_Scope := stringField c "scope";
               c_ExpiresAt := if str_empty (stringField c "expires_at") then 0%Z else parse_or_zero (stringField c "expires_at") |}.
Definition readOAuthCredentials (cfg : gmap string json) : option oauthCredentials :=
  match credentialsFromConfig cfg with None => None | Some c => read_blob c end.

Definition renewed_blob (res : RefreshResult) (c : gmap string json) : gmap string json :=
  let c := <["access_token"%string := JStr (AccessToken res)]> c in
  let c := if str_empty (RefreshToken res) then c else <["refresh_token"%string := JStr (RefreshToken res)]> c in
  <["expires_at"%string := JStr (Format_nano (ExpiresAt res))]> c.
Definition renewed (now : Time) (res : RefreshResult) (c cfg : gmap string json) : gmap string json :=
  <["credentials_rotated_at"%string := JStr (Format_nano now)]> (<["credentials"%string := JObj (map_to_list (renewed_blob res c))]> cfg).

(** ** A pass *)

Abbreviation Source := (Sources.Source (Config := gmap string json)) (only parsing).
Abbreviation W := (Env (gmap string (Sources.Source (Config := gmap string json)))) (only parsing).

(** What became of one source: the label of the metric, and of the statistics. *)
Inductive outcome := NotOAuth | Skipped | Failed_ (label : string) | Renewed (expires : Time).
Definition RefreshTokenStatusValidationError : string := "validation_error".
Definition RefreshTokenStatusTransportError : string := "transport_error".

Definition params (c : oauthCredentials) : RefreshParams :=
  {| p_TokenURL := c_TokenURL c; p_ClientID := c_ClientID c; p_ClientSecret := c_ClientSecret c; p_RefreshToken := c_RefreshToken c; p_Scope := c_Scope c |}.

Definition due (window : Z) (now : Time) (c : oauthCredentials) : bool :=
  negb (time_is_zero (c_ExpiresAt c) || (window <? time_sub (c_ExpiresAt c) now)%Z).

Context `{Outside} (window : Z).
(** The refresher, for the call with that number and place in the list. *)
Context (refresh : nat → nat → RefreshParams → result RefreshResult refresh_error).

Definition tick_source (now : Time) (i : nat) (s : Source) (w : W) : outcome * W :=
  match credentialsFromConfig (Sources.SourceConfig s) with
  | None => (NotOAuth, w)
  | Some blob =>
      match read_blob blob with
      | None => (NotOAuth, w)
      | Some c =>
          if negb (due window now c) then (Skipped, w)
          else match refresh (calls_made w) i (params c) with
               | Err (RefreshValidationError _) => (Failed_ RefreshTokenStatusValidationError, w)
               | Err (TransportError _) => (Failed_ RefreshTokenStatusTransportError, w)
               | Ok res =>
                   match Sources.UpdateConfig (Sources.TenantID s) (Sources.ID s) (renewed now res blob (Sources.SourceConfig s)) w with
                   | (Ok _, w') => (Renewed (ExpiresAt res), w')
                   | (Err _, w') => (Failed_ RefreshTokenStatusTransportError, w')
                   end
               end
      end
  end.

Fixpoint tick_rows (now : Time) (i : nat) (srcs : list Source) (w : W) : list (Source * outcome) * W :=
  match srcs with
  | [] => ([], w)
  | s :: r => let '(o, w1) := tick_source now i s w in let '(os, w2) := tick_rows now (S i) r w1 in ((s, o) :: os, w2)
  end.

Record TickStats := { Scanned : nat; Refreshed : nat; st_Skipped : nat; Errors : nat }.
Definition is_renewed (o : outcome) : bool := match o with Renewed _ => true | _ => false end.
Definition is_skipped (o : outcome) : bool := match o with NotOAuth | Skipped => true | _ => false end.
Definition is_failed (o : outcome) : bool := match o with Failed_ _ => true | _ => false end.
Definition counted (f : outcome → bool) (os : list (Source * outcome)) : nat := length (List.filter (λ x, f x.2) os).
Definition stats (os : list (Source * outcome)) : TickStats :=
  {| Scanned := length os; Refreshed := counted is_renewed os; st_Skipped := counted is_skipped os; Errors := counted is_failed os |}.

(** The audit rows: tenant, source, connector and the new expiry. *)
Record audit_row := { a_tenant : string; a_source : string; a_connector : string; a_expires : string }.
Definition audits (os : list (Source * outcome)) : list audit_row :=
  omap (λ x, match x.2 with
             | Renewed e => Some {| a_tenant := Sources.TenantID x.1; a_source := Sources.ID x.1; a_connector := Sources.ConnectorType x.1; a_expires := Format_nano e |}
             | _ => None
             end) os.

Definition Tick (w : W) : result (TickStats * list audit_row) string * W :=
  match Sources.ListAllActive w with
  | (Err _, w1) => (Err "admin: token refresh tick"%string, w1)
  | (Ok srcs, w1) => let '(os, w2) := tick_rows (clock (calls_made w1) 1) 0 srcs w1 in (Ok (stats os, audits os), w2)
  end.

(** ** What a renewal changes *)

Lemma obj_map_to_list (m : gmap string json) : obj_map (map_to_list m) = m.
Proof.
  unfold obj_map. rewrite <- (list_to_map_to_list m) at 2. apply list_to_map_proper; [|by rewrite reverse_Permutation].
  rewrite (fmap_Permutation fst _ _ (reverse_Permutation (map_to_list m))). apply NoDup_fst_map_to_list.
Qed.

Lemma stringField_insert m k k' s : stringField (<[k := JStr s]> m) k' = if str_eqb k k' then s else stringField m k'.
Proof.
  unfold stringField. destruct (str_eqb k k') eqn:E.
  - apply str_eqb_eq in E as ->. by rewrite lookup_insert_eq.
  - apply str_eqb_neq in E. by rewrite lookup_insert_ne.
Qed.

Lemma Format_nano_not_empty t : str_empty (Format_nano t) = false.
Proof. done. Qed.

(** Comparisons of field names. *)
Ltac eval_names :=
  repeat match goal with |- context [str_eqb ?a ?b] => let v := eval vm_compute in (str_eqb a b) in change (str_eqb a b) with v end; cbv iota; cbn [orb].

(** What was written is read back: the new tokens and the expiry, to the nanosecond, and
    the rest of the credentials as it was. *)
Lemma renewed_reads_back now res blob c cfg :
  read_blob blob = Some c → (0 ≤ Year (ExpiresAt res) < 10000)%Z →
  readOAuthCredentials (renewed now res blob cfg) =
    Some {| c_AccessToken := AccessToken res; c_RefreshToken := if str_empty (RefreshToken res) then c_RefreshToken c else RefreshToken res;
            c_TokenURL := c_TokenURL c; c_ClientID := c_ClientID c; c_ClientSecret := c_ClientSecret c; c_Scope := c_Scope c; c_ExpiresAt := ExpiresAt res |}.
Proof.
  intros Hr Hy. unfold readOAuthCredentials, credentialsFromConfig, renewed. rewrite lookup_insert_ne, lookup_insert_eq, obj_map_to_list by done.
  unfold read_blob in Hr |- *. destruct (str_empty (stringField blob "refresh_token")) eqn:E1; [done|].
  destruct (str_empty (stringField blob "token_url")) eqn:E2; [done|]. injection Hr as <-. unfold renewed_blob. cbn [c_RefreshToken c_TokenURL c_ClientID c_ClientSecret c_Scope].
  destruct (str_empty (RefreshToken res)) eqn:E3; rewrite !stringField_insert; eval_names; rewrite ?E1, ?E2, ?E3, Format_nano_not_empty;
    unfold parse_or_zero; by rewrite (parse_format_nano _ Hy).
Qed.

Lemma renewed_elsewhere now res blob cfg k :
  k ≠ "credentials"%string → k ≠ "credentials_rotated_at"%string → renewed now res blob cfg !! k = cfg !! k.
Proof. intros H1 H2. unfold renewed. by rewrite !lookup_insert_ne by done. Qed.

Lemma renewed_blob_elsewhere res blob k :
  k ≠ "access_token"%string → k ≠ "refresh_token"%string → k ≠ "expires_at"%string → renewed_blob res blob !! k = blob !! k.
Proof. intros H1 H2 H3. unfold renewed_blob. destruct (str_empty _); by rewrite !lookup_insert_ne by done. Qed.

(** ** A pass *)

Lemma counted_cons f x os : counted f (x :: os) = (if f x.2 then 1 else 0) + counted f os.
Proof. unfold counted. simpl. by destruct (f x.2). Qed.

(** Every source that was scanned was renewed, skipped or failed. *)
Lemma stats_account os : Scanned (stats os) = Refreshed (stats os) + st_Skipped (stats os) + Errors (stats os).
Proof.
  unfold stats; cbn [Scanned Refreshed st_Skipped Errors]. induction os as [|[s o] os IH]; [done|]. rewrite !counted_cons. simpl. rewrite IH. destruct o; simpl; lia.
Qed.

(** A source of which a renewal was written. *)
Definition renewal (now : Time) (res : RefreshResult) (s s' : Source) : Prop :=
  ∃ blob c n i u, credentialsFromConfig (Sources.SourceConfig s) = Some blob ∧ read_blob blob = Some c ∧ due window now c = true ∧
    refresh n i (params c) = Ok res ∧
    s' = Sources.amend (renewed now res blob (Sources.SourceConfig s)) (Sources.Scopes s) (Sources.Status s) u s.

(** The table after an update of one row. *)
Lemma UpdateConfig_table t id cfg (w : W) r w' (s : Source) :
  Sources.UpdateConfig t id cfg w = (r, w') → store w !! id = Some s → Sources.TenantID s = t →
  (store w' = store w ∧ (∀ x, r ≠ Ok x)) ∨ ∃ u, store w' = <[id := Sources.amend cfg (Sources.Scopes s) (Sources.Status s) u s]> (store w).
Proof.
  intros Hu Hs Ht. unfold Sources.UpdateConfig in Hu. destruct (_ || _); [injection Hu as <- <-; by left|].
  unfold ebind, Sources.update_where, ecall, Sources.owned in Hu. rewrite Hs, Ht, str_eqb_refl in Hu.
  destruct (negb (Sources.terminal s)), (fate (calls_made w)); injection Hu as <- <-; cbn [store]; eauto.
Qed.

Lemma tick_source_table now i s (w : W) o w' :
  tick_source now i s w = (o, w') → store w !! Sources.ID s = Some s →
  (store w' = store w ∧ is_renewed o = false) ∨
  ∃ res s', store w' = <[Sources.ID s := s']> (store w) ∧ renewal now res s s' ∧ (∀ e', o = Renewed e' → e' = ExpiresAt res).
Proof.
  unfold tick_source. intros Ht Hs. destruct (credentialsFromConfig _) as [blob|] eqn:Eb; [|injection Ht as <- <-; by left].
  destruct (read_blob blob) as [c|] eqn:Ec; [|injection Ht as <- <-; by left].
  destruct (due window now c) eqn:Ed; cbn [negb] in Ht; [|injection Ht as <- <-; by left].
  destruct (refresh (calls_made w) i (params c)) as [res|[]] eqn:Er; [|injection Ht as <- <-; by left..].
  destruct (Sources.UpdateConfig _ _ _ w) as [r w1] eqn:Eu.
  assert (E : w' = w1 ∧ (is_renewed o = true → ∃ x, r = Ok x) ∧ (∀ e', o = Renewed e' → e' = ExpiresAt res)).
  { destruct r as [x|]; injection Ht as <- <-; (split_and!; [done| |]); [by exists x|by intros e' [= <-]|done|done]. }
  destruct E as (-> & Hok & He). destruct (UpdateConfig_table _ _ _ _ _ _ s Eu Hs eq_refl) as [[Es Hn]|[u Es]].
  - left. split; [done|]. destruct (is_renewed o); [|done]. destruct (Hok eq_refl) as [x Hx]. by destruct (Hn x).
  - right. exists res. eexists. split; [exact Es|]. split; [|done]. by exists blob, c, (calls_made w), i, u.
Qed.

Lemma tick_rows_table now i srcs (w : W) os w' :
  NoDup (Sources.ID <$> srcs) → (∀ s, s ∈ srcs → store w !! Sources.ID s = Some s) → tick_rows now i srcs w = (os, w') →
  length os = length srcs ∧
  (∀ id, store w' !! id = store w !! id ∨
     ∃ res s s', s ∈ srcs ∧ Sources.ID s = id ∧ store w' !! id = Some s' ∧ renewal now res s s') ∧
  (∀ s e, (s, Renewed e) ∈ os → ∃ res s', store w' !! Sources.ID s = Some s' ∧ s ∈ srcs ∧ renewal now res s s' ∧ e = ExpiresAt res).
Proof.
  revert i w os. induction srcs as [|s srcs IH]; intros i w os Hnd Hin Ht; simpl in Ht.
  { injection Ht as <- <-. split_and!; [done|by left|]. intros s e Hx. by apply not_elem_of_nil in Hx. }
  destruct (tick_source now i s w) as [o w1] eqn:E1. destruct (tick_rows now (S i) srcs w1) as [os2 w2] eqn:E2. injection Ht as <- <-.
  rewrite fmap_cons in Hnd. apply NoDup_cons in Hnd as [Hn Hnd]. pose proof (Hin s (list_elem_of_here _ _)) as Hs.
  assert (Hstep : (store w1 = store w ∧ is_renewed o = false) ∨ ∃ res s', store w1 = <[Sources.ID s := s']> (store w) ∧ renewal now res s s' ∧ (∀ e', o = Renewed e' → e' = ExpiresAt res))
    by (by eapply tick_source_table).
  assert (Hother : ∀ id, id ≠ Sources.ID s → store w1 !! id = store w !! id).
  { intros id Hne. destruct Hstep as [[-> _]|(e & s' & -> & _)]; [done|]. by rewrite lookup_insert_ne. }
  destruct (IH (S i) w1 os2) as (Hl & Hall & Hren); [done| |done|].
  { intros x Hx. rewrite Hother; [apply Hin; by right|]. intros E. apply Hn. rewrite <- E. by apply list_elem_of_fmap_2. }
  assert (Hkeep : store w2 !! Sources.ID s = store w1 !! Sources.ID s).
  { destruct (Hall (Sources.ID s)) as [?|(e & x & x' & Hx & Ex & _)]; [done|]. destruct Hn. rewrite <- Ex. by apply list_elem_of_fmap_2. }
  split_and!.
  - simpl. by rewrite Hl.
  - intros id. destruct (decide (id = Sources.ID s)) as [->|Hne].
    + rewrite Hkeep. destruct Hstep as [[-> _]|(e & s' & -> & Hr & _)]; [by left|]. right. exists e, s, s'. rewrite lookup_insert_eq. split_and!; [by left|done..].
    + destruct (Hall id) as [->|(e & x & x' & Hx & Ex & H1 & H2)]; [left; by apply Hother|right]. exists e, x, x'. split_and!; [by right|done..].
  - intros x e [Ex|Hx]%elem_of_cons.
    + injection Ex as -> <-. destruct Hstep as [[_ Hf]|(e' & s' & Es & Hr & He)]; [done|]. rewrite Hkeep, Es, lookup_insert_eq.
      exists e', s'. split_and!; [done|by left|done|]. by apply He.
    + destruct (Hren x e Hx) as (res & x' & H1 & H2 & H3 & H4). exists res, x'. split_and!; [done|by right|done|done].
Qed.

Lemma NoDup_listing (t : gmap string Source) :
  keyed Sources.ID t → NoDup (Sources.ID <$> sort_by Sources.by_id (List.filter (λ s, str_eqb (Sources.Status s) Sources.SourceStatusActive) (Sources.table_rows t))).
Proof. intros Hk. rewrite sort_by_perm. by apply keyed_NoDup. Qed.

(** An active source, with the ids a row has, whose token is due and for which the
    token server answers. *)
Definition renewable (now : Time) (s : Source) : Prop :=
  Sources.TenantID s ≠ EmptyString ∧ Sources.ID s ≠ EmptyString ∧ Sources.Status s = Sources.SourceStatusActive ∧
  ∃ c, readOAuthCredentials (Sources.SourceConfig s) = Some c ∧ due window now c = true ∧
    ∀ n i, ∃ res, refresh n i (params c) = Ok res.

Lemma tick_source_renews now i s (w : W) o w' :
  (∀ n, fate n ≠ Refused) → renewable now s → store w !! Sources.ID s = Some s → tick_source now i s w = (o, w') →
  ∃ res s', store w' !! Sources.ID s = Some s' ∧ renewal now res s s'.
Proof.
  intros Hf (Ht & Hi & Ha & c & Hc & Hd & Hr) Hs. unfold tick_source. unfold readOAuthCredentials in Hc.
  destruct (credentialsFromConfig _) as [blob|] eqn:Eb; [|done]. rewrite Hc, Hd. cbn [negb].
  destruct (Hr (calls_made w) i) as [res Er]. rewrite Er.
  destruct (Sources.UpdateConfig _ _ _ w) as [r w1] eqn:Eu. intros E.
  assert (w' = w1) as -> by (destruct r; by injection E as _ <-).
  unfold Sources.UpdateConfig in Eu. rewrite (proj2 (str_empty_false _) Ht), (proj2 (str_empty_false _) Hi) in Eu. cbn [orb] in Eu.
  unfold ebind, Sources.update_where, ecall, Sources.owned in Eu. rewrite Hs, str_eqb_refl in Eu.
  assert (Hnt : Sources.terminal s = false) by (unfold Sources.terminal; by rewrite Ha).
  rewrite Hnt in Eu. cbn [negb] in Eu. specialize (Hf (calls_made w)).
  exists res. destruct (fate (calls_made w)); [|done|]; injection Eu as <- <-; cbn [store]; eexists;
    (split; [apply lookup_insert_eq|]); by exists blob, c, (calls_made w), i, (clock (calls_made w) 0).
Qed.

Lemma tick_rows_renews now i srcs (w : W) os w' :
  (∀ n, fate n ≠ Refused) → NoDup (Sources.ID <$> srcs) → (∀ s, s ∈ srcs → store w !! Sources.ID s = Some s) →
  tick_rows now i srcs w = (os, w') →
  ∀ s, s ∈ srcs → renewable now s → ∃ res s', store w' !! Sources.ID s = Some s' ∧ renewal now res s s'.
Proof.
  intros Hf. revert i w os. induction srcs as [|s srcs IH]; intros i w os Hnd Hin Ht x Hx Hr; [by apply not_elem_of_nil in Hx|]. simpl in Ht.
  destruct (tick_source now i s w) as [o w1] eqn:E1. destruct (tick_rows now (S i) srcs w1) as [os2 w2] eqn:E2. injection Ht as <- <-.
  rewrite fmap_cons in Hnd. apply NoDup_cons in Hnd as [Hn Hnd]. pose proof (Hin s (list_elem_of_here _ _)) as Hs.
  assert (Hin1 : ∀ y, y ∈ srcs → store w1 !! Sources.ID y = Some y).
  { intros y Hy. assert (Hne : Sources.ID y ≠ Sources.ID s) by (intros E; apply Hn; rewrite <- E; by apply list_elem_of_fmap_2).
    destruct (tick_source_table _ _ _ _ _ _ E1 Hs) as [[-> _]|(res & s' & -> & _)]; [|rewrite lookup_insert_ne by done]; apply Hin; by right. }
  apply elem_of_cons in Hx as [->|Hx]; [|by eapply IH].
  destruct (tick_source_renews _ _ _ _ _ _ Hf Hr Hs E1) as (res & s' & Hl & Hren). exists res, s'. split; [|done].
  destruct (tick_rows_table _ _ _ _ _ _ Hnd Hin1 E2) as (_ & Hall & _).
  destruct (Hall (Sources.ID s)) as [->|(e & y & y' & Hy & Ey & _)]; [done|]. destruct Hn. rewrite <- Ey. by apply list_elem_of_fmap_2.
Qed.

(** C34: a pass renews due tokens and touches nothing else. Every source scanned is counted
    once. A row of the table either stays or belongs to an active source whose token was
    about to expire, and then only its credentials, with the time of their rotation, and
    the time of the update change: reading the credentials back gives the new access token, the new refresh
    token when one was handed out and the old one otherwise, and the new expiry, provided that
    its year has four digits; the other fields of the credentials and every other setting are as they
    were. Every audit row stands for such a renewal. And if no database call is refused, every active
    source, with a tenant and an id, that has credentials which are due and for which the token
    server answers is renewed. The rows of the table are under their ids. *)
Theorem Tick_renews_due w st rows w' :
  keyed Sources.ID (store w) → Tick w = (Ok (st, rows), w') →
  let now := clock (S (calls_made w)) 1 in
  Scanned st = Refreshed st + st_Skipped st + Errors st ∧
  (∀ id, store w' !! id = store w !! id ∨
     ∃ res s s', store w !! id = Some s ∧ Sources.Status s = Sources.SourceStatusActive ∧ store w' !! id = Some s' ∧ renewal now res s s') ∧
  (∀ a, a ∈ rows → ∃ res s s', store w !! a_source a = Some s ∧ store w' !! a_source a = Some s' ∧ a_tenant a = Sources.TenantID s ∧ a_expires a = Format_nano (ExpiresAt res) ∧ renewal now res s s') ∧
  (∀ res s s', renewal now res s s' →
     Sources.TenantID s' = Sources.TenantID s ∧ Sources.Status s' = Sources.Status s ∧ Sources.Scopes s' = Sources.Scopes s ∧
     (∀ k, k ≠ "credentials"%string → k ≠ "credentials_rotated_at"%string → Sources.SourceConfig s' !! k = Sources.SourceConfig s !! k) ∧
     ((0 ≤ Year (ExpiresAt res) < 10000)%Z → ∃ c, readOAuthCredentials (Sources.SourceConfig s) = Some c ∧
        readOAuthCredentials (Sources.SourceConfig s') =
          Some {| c_AccessToken := AccessToken res;
                  c_RefreshToken := if str_empty (RefreshToken res) then c_RefreshToken c else RefreshToken res;
                  c_TokenURL := c_TokenURL c; c_ClientID := c_ClientID c; c_ClientSecret := c_ClientSecret c;
                  c_Scope := c_Scope c; c_ExpiresAt := ExpiresAt res |})) ∧
  ((∀ n, fate n ≠ Refused) → ∀ id s, store w !! id = Some s → renewable now s →
     ∃ res s', store w' !! id = Some s' ∧ renewal now res s s').
Proof.
  intros Hk Ht now. unfold Tick in Ht. destruct (Sources.ListAllActive w) as [[srcs|] w1] eqn:El; [|done].
  unfold Sources.ListAllActive, eread, ecall in El. destruct (fate (calls_made w)); [|done..]. injection El as <- <-. cbn [calls_made store] in Ht.
  destruct (tick_rows _ _ _ _) as [os w2] eqn:Er. injection Ht as <- <- <-. fold now in Er.
  assert (Hin : ∀ s, s ∈ sort_by Sources.by_id (List.filter (λ s, str_eqb (Sources.Status s) Sources.SourceStatusActive) (Sources.table_rows (store w))) →
    store w !! Sources.ID s = Some s ∧ Sources.Status s = Sources.SourceStatusActive).
  { intros s Hs. rewrite elem_of_sort_by in Hs. apply (keyed_elem_of Sources.ID _ _ _ Hk) in Hs as [Hs Ha]. by apply str_eqb_eq in Ha. }
  destruct (tick_rows_table _ _ _ {| store := store w; calls_made := S (calls_made w) |} _ _ (NoDup_listing _ Hk) (λ s Hs, proj1 (Hin s Hs)) Er) as (_ & Hall & Hren). split_and!.
  - apply stats_account.
  - intros id. destruct (Hall id) as [?|(e & s & s' & Hs & <- & H1 & H2)]; [by left|right]. exists e, s, s'. by destruct (Hin s Hs).
  - intros a Ha. unfold audits in Ha. apply list_elem_of_omap in Ha as ([s o] & Hs & E). simpl in E. destruct o; try done. injection E as <-.
    destruct (Hren s expires Hs) as (res & s' & H1 & H2 & H3 & ->). exists res, s, s'. simpl. by destruct (Hin s H2).
  - intros res s s' (blob & c & n & i & u & H1 & H2 & H3 & H4 & ->). cbn [Sources.TenantID Sources.Status Sources.Scopes Sources.SourceConfig Sources.amend].
    split_and!; [done..| |].
    + intros k. apply renewed_elsewhere.
    + intros Hy. exists c. unfold readOAuthCredentials at 1. rewrite H1. split; [done|]. by apply renewed_reads_back.
  - intros Hf id s Hs Hr. pose proof (Hk _ _ Hs) as E. simpl in E. rewrite <- E in Hs |- *.
    eapply (tick_rows_renews _ _ _ {| store := store w; calls_made := S (calls_made w) |} _ _ Hf (NoDup_listing _ Hk)
      (λ s Hs, proj1 (Hin s Hs)) Er); [|done].
    rewrite elem_of_sort_by. apply (keyed_elem_of Sources.ID _ _ _ Hk). split; [done|].
    destruct Hr as (_ & _ & -> & _). apply str_eqb_refl.
Qed.
End Worker.
End TokenRefresh.

(** ** A concrete source *)

Module TokenRefreshSamples.
Import TokenRefresh.

Definition at_ (h mi : Z) : Time := Date 2024 5 1 h mi 0 0.
Definition calm_at (k : nat) (t : Time) : Outside := {| fate := λ n, if Nat.eqb n k then Refused else Performed; clock := λ _ _, t |}.
Definition calm_noon : Outside := {| fate := λ _, Performed; clock := λ _ _, at_ 12 0 |}.
Definition no_parse (b : bytes) : blob := Garbled.

Definition blob (token expires : string) : gmap string json :=
  list_to_map [("access_token", JStr "a0"); ("refresh_token", JStr token); ("token_url", JStr "https://id"); ("expires_at", JStr expires)]%string.
Definition config (folder : string) : gmap string json :=
  list_to_map [("credentials", JObj (map_to_list (blob "r0" "2024-05-01T12:03:00Z"))); ("folder", JStr folder)]%string.
Definition drive (folder : string) : Sources.Source (Config := gmap string json) :=
  Sources.NewSource "s1" "acme" "google_drive" (config folder) [] 5%Z.
Definition start : Env (gmap string (Sources.Source (Config := gmap string json))) := {| store := {["s1"%string := drive "inbox"]}; calls_made := 0 |}.

(** A server that answers with those members. *)
Definition answer (l : list (string * json)) (n i : nat) (p : RefreshParams) : result RefreshResult refresh_error :=
  Refresh (λ _ _, Ok (200%Z, Parsed (JObj l))) (at_ 12 0) p.
Definition hourly : list (string * json) := [("access_token", JStr "a1"); ("refresh_token", JStr "r1"); ("expires_in", JInt 3600)]%string.

Definition pass (o : Outside) (l : list (string * json)) (w : Env (gmap string (Sources.Source (Config := gmap string json)))) :=
  @Tick no_parse o RefreshWindow (answer l) w.
(** The token and the expiry a source has now. *)
Definition held (w : Env (gmap string (Sources.Source (Config := gmap string json)))) : option (string * string * Time) :=
  store w !! "s1"%string ≫= λ s, readOAuthCredentials no_parse (Sources.SourceConfig s) ≫= λ c, Some (c_AccessToken c, c_RefreshToken c, c_ExpiresAt c).
Definition setting (k : string) (w : Env (gmap string (Sources.Source (Config := gmap string json)))) : option json :=
  store w !! "s1"%string ≫= λ s, Sources.SourceConfig s !! k.

Lemma Tick_renews_due_witness :
  ∃ st rows w', pass (calm_at 9 (at_ 12 0)) hourly start = (Ok (st, rows), w') ∧ Refreshed st = 1%nat ∧
    Scanned st = Refreshed st + st_Skipped st + Errors st ∧
    ∃ st2 rows2 w2, pass calm_noon hourly start = (Ok (st2, rows2), w2) ∧
      ∃ res s', store w2 !! "s1"%string = Some s' ∧
        @renewal no_parse RefreshWindow (answer hourly) (at_ 12 0) res (drive "inbox") s'.
Proof.
  assert (Hk : keyed Sources.ID (store start)).
  { intros i r Hi. cbn [store start] in Hi. apply lookup_singleton_Some in Hi as [<- <-]. reflexivity. }
  assert (H1 : match (pass (calm_at 9 (at_ 12 0)) hourly start).1 with Ok (st, _) => Refreshed st = 1%nat | Err _ => False end)
    by (vm_compute; reflexivity).
  destruct (pass (calm_at 9 (at_ 12 0)) hourly start) as [[[st rows]|e] w'] eqn:E; [|destruct H1].
  exists st, rows, w'. split; [reflexivity|]. split; [exact H1|].
  split; [exact (proj1 (@Tick_renews_due no_parse (calm_at 9 (at_ 12 0)) RefreshWindow (answer hourly) start st rows w' Hk E))|].
  assert (H2 : match (pass calm_noon hourly start).1 with Ok _ => True | Err _ => False end) by (vm_compute; exact I).
  destruct (pass calm_noon hourly start) as [[[st2 rows2]|e] w2] eqn:E2; [|destruct H2].
  exists st2, rows2, w2. split; [reflexivity|].
  destruct (@Tick_renews_due no_parse calm_noon RefreshWindow (answer hourly) start st2 rows2 w2 Hk E2) as (_ & _ & _ & _ & Hall).
  apply (Hall (λ n, ltac:(discriminate)) "s1"%string (drive "inbox") eq_refl).
  split; [discriminate|split; [discriminate|split; [reflexivity|]]].
  eexists. split; [vm_compute; reflexivity|]. split; [vm_compute; reflexivity|].
  intros n i. eexists. vm_compute. reflexivity.
Defined.

Example renewed_for_an_hour : held (pass (calm_at 9 (at_ 12 0)) hourly start).2 = Some ("a1"%string, "r1"%string, at_ 13 0).
Proof. vm_compute. reflexivity. Qed.

(** An answer without an expiry is stored as the year 1, which counts as no expiry: the
    token is never renewed again. *)
Definition no_expiry : list (string * json) := [("access_token", JStr "a1")]%string.
Example missing_expiry_ends_refreshing :
  let w := (pass (calm_at 9 (at_ 12 0)) no_expiry start).2 in
  held w = Some ("a1"%string, "r0"%string, 0%Z) ∧ setting "credentials" w ≠ None ∧
  match pass (calm_at 9 (at_ 23 0)) hourly w with (Ok (st, _), w') => st_Skipped st = 1%nat ∧ held w' = held w | _ => False end.
Proof. vm_compute. split; [reflexivity|]. split; [discriminate|]. split; reflexivity. Qed.

(** The server has handed out a new refresh token; when the update fails it is lost, and
    the source keeps the old one, which such servers no longer accept. *)
Example failed_update_loses_token :
  match pass (calm_at 1 (at_ 12 0)) hourly start with
  | (Ok (st, rows), w') => Errors st = 1%nat ∧ rows = [] ∧ held w' = Some ("a0"%string, "r0"%string, at_ 12 3)
  | _ => False
  end.
Proof. vm_compute. split_and!; reflexivity. Qed.

(** A rejection whose body is not JSON is counted as a failed transport. *)
Example rejection_without_json (p : RefreshParams) :
  p_TokenURL p ≠ EmptyString → p_RefreshToken p ≠ EmptyString → ∃ e, Refresh (λ _ _, Ok (400%Z, Garbled)) 0 p = Err (TransportError e).
Proof. intros H1 H2. unfold Refresh. rewrite (proj2 (str_empty_false _) H1), (proj2 (str_empty_false _) H2). by eexists. Qed.

(** The whole config is written as it was listed: a setting changed in between is undone. *)
Example concurrent_change_is_undone :
  let changed := {| store := {["s1"%string := drive "archive"]}; calls_made := 1 |} in
  setting "folder" changed = Some (JStr "archive") ∧
  setting "folder" (@tick_rows no_parse (calm_at 9 (at_ 12 0)) RefreshWindow (answer hourly) (at_ 12 0) 0 [drive "inbox"] changed).2 = Some (JStr "inbox").
Proof. vm_compute. split; reflexivity. Qed.
End TokenRefreshSamples.
