(* ===== verification/Graph.v ===== *)
(** * The graph of entities

    storage/falkordb.go: the client that writes a document's entities as Cypher
    statements and reads traversals; retrieval/storage_adapter.go: the graph backend of
    retrieval; pipeline/graphrag.go: the ingestion stage that extracts and writes. The
    graph engine is outside: the state is the sequence of statements it carried out, and
    any of them may fail. What the theorems show is that no text of a user or a document
    can change the structure of a statement, and that a tenant's statements go to the
    tenant's graph. Printing of floats and the table of printable characters are
    parameters. *)

From Stdlib Require Import Ascii.
From S2P Require Import Prelude GoFloat GoString Effects Json Match Acl PolicyGate PipelineTypes ModelStages AuditIntegrity.

Module Graph.

(** The property types of the store. *)
Inductive value := VNull | VStr (s : string) | VBool (b : bool) | VInt (z : Z) | VFloat (x : float).

(** What the client reads of an answer. *)
Inductive wire := WStr (s : string) | WFloat (x : float) | WInt (z : Z) | WList (l : list wire) | WOther.

Record FalkorNode := { n_ID : string; Label : string; n_DocumentID : string; n_Properties : gmap string value }.
Record FalkorEdge := { e_Source : string; Destination : string; Relation : string; e_DocumentID : string; e_Properties : gmap string value }.
Record FalkorMatch := { NodeID : string; m_Label : string; m_DocumentID : string; m_Score : float; m_Properties : gmap string wire }.

(** ** Statements *)

Definition quote : ascii := ascii_of_N 34.
Definition backslash : ascii := ascii_of_N 92.

(** [strings.Join] with a separator of one byte. *)
Fixpoint joined (sep : ascii) (l : list bytes) : bytes :=
  match l with [] => [] | [x] => x | x :: r => x ++ [sep] ++ joined sep r end.

Section Text.
Context (is_print : N → bool) (format_float : float → bytes).

Definition rune_width (r : N) : nat := if (r <? 128)%N then 1 else if (r <? 2048)%N then 2 else if (r <? 65536)%N then 3 else 4.
Fixpoint hex_of (digits : nat) (n : N) : bytes :=
  match digits with O => [] | S d => hex_of d (n / 16)%N ++ [AuditIntegrity.hex_digit (n mod 16)%N] end.

Definition escaped_rune (r : N) : bytes :=
  if ((r =? 34) || (r =? 92))%N then [backslash; ascii_of_N r]
  else if is_print r then Fallback.encode_rune r
  else match r with
       | 7%N => [backslash; "a"%char]
       | 8%N => [backslash; "b"%char]
       | 12%N => [backslash; "f"%char]
       | 10%N => [backslash; "n"%char]
       | 13%N => [backslash; "r"%char]
       | 9%N => [backslash; "t"%char]
       | 11%N => [backslash; "v"%char]
       | _ => if ((r <? 32) || (r =? 127))%N then [backslash; "x"%char] ++ hex_of 2 r
              else if (r <? 65536)%N then [backslash; "u"%char] ++ hex_of 4 r
              else [backslash; "U"%char] ++ hex_of 8 r
       end.

(** [strconv.Quote]; an invalid byte is printed as such. *)
Fixpoint quote_from (fuel : nat) (l : bytes) : bytes :=
  match fuel, l with
  | S f, c :: _ =>
      match decode_runes l with
      | (r, true) :: _ => escaped_rune r ++ quote_from f (drop (rune_width r) l)
      | _ => [backslash; "x"%char] ++ hex_of 2 (byte_val c) ++ quote_from f (drop 1 l)
      end
  | _, _ => []
  end.
Definition Quote (s : string) : bytes := [quote] ++ quote_from (length (to_bytes s)) (to_bytes s) ++ [quote].

Definition cypherValue (v : value) : bytes :=
  match v with
  | VNull => to_bytes "NULL"
  | VStr s => Quote s
  | VBool b => to_bytes (if b then "true" else "false")
  | VInt z => to_bytes (FormatInt z)
  | VFloat x => format_float x
  end.

Definition name_char (c : ascii) : bool :=
  let b := byte_val c in ((97 <=? b) && (b <=? 122) || (65 <=? b) && (b <=? 90) || (48 <=? b) && (b <=? 57) || (b =? 95))%N.
Definition sanitizeLabel (s : string) : bytes :=
  match List.filter name_char (to_bytes s) with [] => to_bytes "Item" | l => l end.

Definition cypherProps (p : gmap string value) : bytes :=
  ["{"%char] ++ joined "," (
    ((λ '(k, v), sanitizeLabel k ++ [":"%char] ++ cypherValue v) <$> sort_by (λ a b, str_ltb a.1 b.1) (map_to_list p))) ++ ["}"%char].

(** [b] over [a], without what is empty in [b]. *)
Definition kept_prop (v : value) : bool := match v with VNull => false | VStr s => negb (str_empty s) | _ => true end.
Definition mergeProps (a b : gmap string value) : gmap string value := filter (λ kv, kept_prop kv.2 = true) b ∪ a.

Definition idx (i : nat) : bytes := to_bytes (str_of_nat i).
Definition node_props (n : FalkorNode) : gmap string value :=
  mergeProps (n_Properties n) {["id"%string := VStr (n_ID n); "document_id"%string := VStr (n_DocumentID n)]}.
Definition node_text (i : nat) (n : FalkorNode) : bytes :=
  to_bytes "MERGE (n" ++ idx i ++ to_bytes ":" ++ sanitizeLabel (Label n) ++ to_bytes " {id:" ++ cypherValue (VStr (n_ID n)) ++ to_bytes "}) SET n" ++
  idx i ++ to_bytes " = " ++ cypherProps (node_props n).
Definition edge_props (e : FalkorEdge) : gmap string value := mergeProps (e_Properties e) {["document_id"%string := VStr (e_DocumentID e)]}.
Definition edge_text (i : nat) (e : FalkorEdge) : bytes :=
  to_bytes "MERGE (s" ++ idx i ++ to_bytes " {id:" ++ cypherValue (VStr (e_Source e)) ++ to_bytes "}) MERGE (d" ++ idx i ++ to_bytes " {id:" ++
  cypherValue (VStr (Destination e)) ++ to_bytes "}) MERGE (s" ++ idx i ++ to_bytes ")-[r" ++ idx i ++ to_bytes ":" ++ sanitizeLabel (Relation e) ++
  to_bytes " " ++ cypherProps (edge_props e) ++ to_bytes "]->(d" ++ idx i ++ to_bytes ")".

Definition node_ok (n : FalkorNode) : bool := negb (str_empty (n_ID n)) && negb (str_empty (Label n)).
Definition edge_ok (e : FalkorEdge) : bool := negb (str_empty (e_Source e)) && negb (str_empty (Destination e)) && negb (str_empty (Relation e)).

Fixpoint first_bad {A} (ok : A → bool) (i : nat) (l : list A) : option nat :=
  match l with [] => None | x :: r => if ok x then first_bad ok (S i) r else Some i end.

(** The clauses, each with a blank behind it of which the last is trimmed. *)
Definition statement (nodes : list FalkorNode) (edges : list FalkorEdge) : bytes :=
  joined " " (imap node_text nodes ++ imap edge_text edges).

Definition delete_text (docID : string) : bytes := to_bytes "MATCH (n {document_id:" ++ cypherValue (VStr docID) ++ to_bytes "}) DETACH DELETE n".
End Text.

(** ** Answers *)

Definition wire_str (w : wire) : option string := match w with WStr s => Some s | _ => None end.
Definition wire_score (w : wire) : option float := match w with WFloat x => Some (f32_of_f64 x) | WInt z => Some (f32_of_Z z) | _ => None end.

(** [RETURN n.id, n.label, score]. *)
Definition matchFromFlat (cells : list wire) : option FalkorMatch :=
  let id := default EmptyString (head cells ≫= wire_str) in
  if str_empty id then None
  else Some {| NodeID := id; m_Label := default EmptyString (cells !! 1 ≫= wire_str); m_DocumentID := "";
               m_Score := default f_zero (cells !! 2 ≫= wire_score); m_Properties := ∅ |}.

Definition read_prop (m : FalkorMatch) (kv : wire) : FalkorMatch :=
  match kv with
  | WList [WStr name; v] =>
      if str_empty name then m
      else {| NodeID := if str_eqb name "id" then default (NodeID m) (wire_str v) else NodeID m; m_Label := m_Label m;
              m_DocumentID := if str_eqb name "document_id" then default (m_DocumentID m) (wire_str v) else m_DocumentID m;
              m_Score := m_Score m; m_Properties := <[name := v]> (m_Properties m) |}
  | _ => m
  end.
Definition with_second (cell : option wire) (m : FalkorMatch) : FalkorMatch :=
  match cell with
  | Some (WStr v) => {| NodeID := NodeID m; m_Label := m_Label m; m_DocumentID := m_DocumentID m; m_Score := m_Score m; m_Properties := <["return_1"%string := WStr v]> (m_Properties m) |}
  | Some c => {| NodeID := NodeID m; m_Label := m_Label m; m_DocumentID := m_DocumentID m; m_Score := default (m_Score m) (wire_score c); m_Properties := m_Properties m |}
  | None => m
  end.
Definition matchFromCells (cells : list wire) : option FalkorMatch :=
  match cells with
  | WList (id :: labels :: props :: _) :: rest =>
      let m := {| NodeID := default EmptyString (wire_str id);
                  m_Label := match labels with WList (l :: _) => default EmptyString (wire_str l) | _ => EmptyString end;
                  m_DocumentID := ""; m_Score := f_zero; m_Properties := ∅ |} in
      let m := match props with WList ps => foldl read_prop m ps | _ => m end in
      Some (with_second (head rest) m)
  | _ => matchFromFlat cells
  end.
Definition parseTraverseResult (raw : wire) : list FalkorMatch :=
  match raw with
  | WList (_ :: WList body :: _) => omap (λ row, match row with WList (c :: cells) => matchFromCells (c :: cells) | _ => None end) body
  | _ => []
  end.

(** ** The client *)

Definition ErrMissingTenantScope : string := "storage: missing tenant_scope".

Section Client.
Context (is_print : N → bool) (format_float : float → bytes).
Context `{Outside} (GraphPrefix : string).
(** The statements carried out, each with its graph. *)
Abbreviation M := (Eff (list (string * bytes)) string) (only parsing).
(** The answer of the engine to a query, given what was carried out. *)
Context (engine : list (string * bytes) → string → bytes → wire).

Definition GraphFor (tenantID : string) : string := str_app GraphPrefix tenantID.
Definition graph_query (err tenantID : string) (text : bytes) : M unit := ewrite err (λ log, log ++ [(GraphFor tenantID, text)]).

Definition scoped {A} (ctx : option string) (tenantID : string) (k : M A) : M A :=
  if str_empty tenantID then ethrow ErrMissingTenantScope else match ctx with Some e => ethrow e | None => k end.

Definition WriteNodes (ctx : option string) (tenantID : string) (nodes : list FalkorNode) (edges : list FalkorEdge) : M unit :=
  scoped ctx tenantID (
    match nodes, edges with
    | [], [] => eret tt
    | _, _ =>
        match first_bad node_ok 0 nodes, first_bad edge_ok 0 edges with
        | Some i, _ => ethrow (str_app "falkordb: node " (str_app (str_of_nat i) ": ID and Label required"))
        | None, Some i => ethrow (str_app "falkordb: edge " (str_app (str_of_nat i) ": Source, Destination, Relation required"))
        | None, None => graph_query "falkordb: GRAPH.QUERY" tenantID (statement is_print format_float nodes edges)
        end
    end).

Definition DeleteByDocument (ctx : option string) (tenantID docID : string) : M unit :=
  scoped ctx tenantID (
    if str_empty docID then ethrow "falkordb: docID required"
    else graph_query "falkordb: delete" tenantID (delete_text is_print format_float docID)).

Definition traverse_text (query : string) (k : Z) : bytes :=
  trim_suffix (to_bytes ";") (to_bytes (trim_space query)) ++ to_bytes " LIMIT " ++ to_bytes (FormatInt (if (k <=? 0)%Z then 10%Z else k)).
Definition Traverse (ctx : option string) (tenantID query : string) (k : Z) : M (list FalkorMatch) :=
  scoped ctx tenantID (
    if str_empty query then ethrow "falkordb: empty query"
    else let@ raw := eread "falkordb: traverse" (λ log, engine log (GraphFor tenantID) (traverse_text query k)) in eret (parseTraverseResult raw)).

(** ** The backend of retrieval *)

Definition escape_char (c : ascii) : bytes := if Ascii.eqb c quote || Ascii.eqb c backslash then [backslash; c] else [c].
Definition literal (q : bytes) : bytes := [quote] ++ (q ≫= escape_char) ++ [quote].
Definition defaultGraphQuery (q : string) : bytes :=
  to_bytes "MATCH (n) WHERE n.title CONTAINS " ++ literal (to_bytes q) ++ to_bytes " OR n.name CONTAINS " ++ literal (to_bytes q) ++ to_bytes " RETURN n".

Definition prop_str (m : FalkorMatch) (k : string) : string := default EmptyString (m_Properties m !! k ≫= wire_str).
Definition graph_match (i : nat) (h : FalkorMatch) : Match.Match :=
  {| Match.ID := NodeID h; Match.Source := SourceGraph; Match.Score := m_Score h; Match.OriginalScore := f_zero; Match.Rank := Z.of_nat i + 1;
     Match.PrivacyLabel := prop_str h "privacy_label"; Match.IngestedAt := 0; Match.TenantID := ""; Match.SourceID := ""; Match.DocumentID := m_DocumentID h;
     Match.BlockID := ""; Match.Title := prop_str h "title"; Match.URI := prop_str h "uri"; Match.Text := ""; Match.Connector := ""; Match.Metadata := ∅; Match.Sources := [] |}.
Definition Adapter_Traverse (ctx : option string) (tenantID query : string) (k : Z) : M (list Match.Match) :=
  let@ hits := Traverse ctx tenantID (of_bytes (defaultGraphQuery query)) k in eret (imap graph_match hits).

(** ** Extraction *)

Record Node := { x_Id : string; x_Label : string; x_Name : string; Mentions : list string; x_Properties : gmap string string }.
Record Edge := { SourceId : string; DestinationId : string; x_Relation : string; Confidence : float; xe_Properties : gmap string string }.
Record ExtractResponse := { Nodes : list Node; Edges : list Edge }.

Definition labelFor (l : string) : string := if str_empty l then "Entity" else l.
Definition relationFor (r : string) : string := if str_empty r then "MENTIONED_WITH" else r.
Definition joinNonEmpty (xs : list string) : string := of_bytes (joined "," (to_bytes <$> List.filter (λ x, negb (str_empty x)) xs)).

(** The extractor's properties, without the names that are taken. *)
Definition other_props (taken : list string) (m : gmap string string) : gmap string value := VStr <$> filter (λ kv, kv.1 ∉ taken) m.
Definition project_node (documentID : string) (n : Node) : FalkorNode :=
  {| n_ID := x_Id n; Label := labelFor (x_Label n); n_DocumentID := documentID;
     n_Properties := other_props ["name"; "mentions"; "id"] (x_Properties n) ∪
       (<["name" := VStr (x_Name n)]> (match Mentions n with [] => ∅ | l => {["mentions" := VStr (joinNonEmpty l)]} end)) |}%string.
Definition project_edge (documentID : string) (e : Edge) : FalkorEdge :=
  {| e_Source := SourceId e; Destination := DestinationId e; Relation := relationFor (x_Relation e); e_DocumentID := documentID;
     e_Properties := other_props ["confidence"] (xe_Properties e) ∪
       (if f_gtb (Confidence e) f_zero then {["confidence" := VFloat (f64_of_f32 (Confidence e))]} else ∅) |}%string.
Definition projectGraphPayload (documentID : string) (resp : option ExtractResponse) : list FalkorNode * list FalkorEdge :=
  match resp with None => ([], []) | Some r => (project_node documentID <$> Nodes r, project_edge documentID <$> Edges r) end.

(** An error of the graph is logged, not returned. *)
Definition best_effort (m : M unit) : M unit := λ w, (Ok tt, (m w).2).

(** [extract] is the service: its answer, or [Err] when it fails. *)
Definition Enrich (ctx : option string) (extract : Document → list Block → result (option ExtractResponse) string) (doc : option Document) (blocks : list Block) : M unit :=
  match doc with
  | None => ethrow "graphrag: nil document"
  | Some doc =>
      if str_empty (doc_TenantID doc) then ethrow "graphrag: missing tenant id"
      else match blocks with
      | [] => eret tt
      | _ =>
          match extract doc blocks with
          | Err _ => eret tt
          | Ok resp =>
              best_effort (
                let@ _ := DeleteByDocument ctx (doc_TenantID doc) (doc_DocumentID doc) in
                let '(nodes, edges) := projectGraphPayload (doc_DocumentID doc) resp in
                match nodes, edges with [], [] => eret tt | _, _ => WriteNodes ctx (doc_TenantID doc) nodes edges end)
          end
      end
  end.
Definition Delete_subgraph (ctx : option string) (tenantID documentID : string) : M unit :=
  if str_empty tenantID then ethrow "graphrag: missing tenant id"
  else if str_empty documentID then ethrow "graphrag: missing document id"
  else best_effort (DeleteByDocument ctx tenantID documentID).
End Client.

(** ** The structure of a statement *)

(** Where a reader of the statement stands. *)
Inductive mode := Plain | Quoted | Escaped.

(** The text with the contents of its literals left out, and where it ends. *)
Fixpoint scan (m : mode) (l : bytes) : bytes * mode :=
  match l with
  | [] => ([], m)
  | c :: r =>
      match m with
      | Plain => let '(o, m') := scan (if Ascii.eqb c quote then Quoted else Plain) r in (c :: o, m')
      | Quoted =>
          if Ascii.eqb c backslash then scan Escaped r
          else if Ascii.eqb c quote then let '(o, m') := scan Plain r in (c :: o, m') else scan Quoted r
      | Escaped => scan Quoted r
      end
  end.

Lemma scan_app m a b : scan m (a ++ b) = ((scan m a).1 ++ (scan (scan m a).2 b).1, (scan (scan m a).2 b).2).
Proof.
  revert m. induction a as [|c a IH]; intros m; simpl; [by destruct (scan m b)|].
  destruct m; [rewrite IH; by destruct (scan _ a)| |apply IH].
  destruct (Ascii.eqb c backslash); [apply IH|]. destruct (Ascii.eqb c quote); [|apply IH]. rewrite IH. by destruct (scan Plain a).
Qed.

(** A text that is whole: whatever literal it opens it closes. *)
Definition whole (l : bytes) : Prop := (scan Plain l).2 = Plain.
Definition skeleton (l : bytes) : bytes := (scan Plain l).1.

Lemma whole_app a b : whole a → whole b → whole (a ++ b).
Proof. unfold whole. intros Ha Hb. by rewrite scan_app, Ha. Qed.
Lemma skeleton_app a b : whole a → skeleton (a ++ b) = skeleton a ++ skeleton b.
Proof. unfold whole, skeleton. intros Ha. by rewrite scan_app, Ha. Qed.

Definition unquoted (l : bytes) : Prop := quote ∉ l.
Lemma unquoted_scan l : unquoted l → scan Plain l = (l, Plain).
Proof.
  intros Hl. induction l as [|c l IH]; simpl; [done|].
  destruct (Ascii.eqb_spec c quote) as [->|Hc]; [destruct Hl; by left|]. rewrite IH; [done|]. intros H. apply Hl. by right.
Qed.
Lemma unquoted_whole l : unquoted l → whole l.
Proof. intros H. unfold whole. by rewrite unquoted_scan. Qed.

(** Bytes that mean nothing inside a literal. *)
Definition inert (c : ascii) : Prop := c ≠ quote ∧ c ≠ backslash.
Lemma inert_scan l : Forall inert l → scan Quoted l = ([], Quoted).
Proof.
  induction 1 as [|c l [H1 H2] _ IH]; simpl; [done|].
  destruct (Ascii.eqb_spec c backslash); [done|]. by destruct (Ascii.eqb_spec c quote).
Qed.

Lemma byte_inert n : (n < 256)%N → n ≠ 34%N → n ≠ 92%N → inert (ascii_of_N n).
Proof.
  intros H1 H2 H3. split; intros E; apply (f_equal N_of_ascii) in E; rewrite N_ascii_embedding in E by done; vm_compute in E; done.
Qed.

Lemma sum_inert a x : (93 ≤ a)%N → (a + x < 256)%N → inert (ascii_of_N (a + x)).
Proof. intros Ha Hx. pose proof (N.le_0_l x). apply byte_inert; lia. Qed.

Lemma hex_inert d n : Forall inert (hex_of d n).
Proof.
  revert n. induction d as [|d IH]; intros n; cbn [hex_of]; [constructor|]. apply Forall_app. split; [apply IH|]. constructor; [|constructor].
  unfold AuditIntegrity.hex_digit. pose proof (N.mod_lt n 16 ltac:(done)). pose proof (N.le_0_l (n mod 16)). destruct (N.ltb_spec (n mod 16) 10); apply byte_inert; lia.
Qed.

Lemma encode_inert r : r ≠ 34%N → r ≠ 92%N → Forall inert (Fallback.encode_rune r).
Proof.
  intros H1 H2. unfold Fallback.encode_rune. cbv zeta.
  match goal with |- context [if ?b then rune_error else r] => set (r' := if b then rune_error else r) end.
  assert (Hr : r' ≠ 34%N ∧ r' ≠ 92%N ∧ (r' ≤ 1114111)%N).
  { unfold r', rune_error. destruct (N.ltb_spec 1114111 r); simpl; [done|]. by destruct (_ && _). }
  destruct Hr as (Ha & Hb & Hc). clearbody r'.
  destruct (N.ltb_spec r' 128); [constructor; [apply byte_inert; lia|constructor]|].
  assert (Hm : ∀ x, (x mod 64 < 64)%N) by (intros x; by apply N.mod_lt).
  destruct (N.ltb_spec r' 2048) as [H3|H3].
  { pose proof (N.Div0.div_lt_upper_bound r' 64 32 ltac:(lia)). pose proof (Hm r').
    repeat (constructor; [apply sum_inert; lia|]); constructor. }
  destruct (N.ltb_spec r' 65536) as [H4|H4].
  { pose proof (N.Div0.div_lt_upper_bound r' 4096 16 ltac:(lia)). pose proof (Hm r'). pose proof (Hm (r' / 64)%N).
    repeat (constructor; [apply sum_inert; lia|]); constructor. }
  pose proof (N.Div0.div_lt_upper_bound r' 262144 5 ltac:(lia)). pose proof (Hm r'). pose proof (Hm (r' / 64)%N). pose proof (Hm (r' / 4096)%N).
  repeat (constructor; [apply sum_inert; lia|]); constructor.
Qed.

(** Two texts of one structure. *)
Definition alike (a b : bytes) : Prop := whole a ∧ whole b ∧ skeleton a = skeleton b.

Lemma alike_app a b a' b' : alike a a' → alike b b' → alike (a ++ b) (a' ++ b').
Proof. intros (H1 & H2 & H3) (H4 & H5 & H6). split_and!; [by apply whole_app..|]. by rewrite !skeleton_app, H3, H6. Qed.
Ltac by_parts := repeat match goal with |- alike (_ ++ _) (_ ++ _) => apply alike_app end.
Lemma alike_text l : unquoted l → alike l l.
Proof. intros H. split_and!; [by apply unquoted_whole..|done]. Qed.

Section Structure.
Context (is_print : N → bool) (format_float : float → bytes) (floats_plain : ∀ x, unquoted (format_float x)).

Lemma escape_then l : Forall inert l → ∀ c, scan Quoted (backslash :: c :: l) = ([], Quoted).
Proof. intros Hl c. simpl. by apply inert_scan. Qed.

Lemma escaped_rune_scan r : scan Quoted (escaped_rune is_print r) = ([], Quoted).
Proof.
  unfold escaped_rune. destruct (N.eqb_spec r 34) as [|H1]; [by apply (escape_then [])|]. destruct (N.eqb_spec r 92) as [|H2]; [by apply (escape_then [])|].
  cbn [orb]. destruct (is_print r); [apply inert_scan; by apply encode_inert|].
  assert (Hrest : scan Quoted (if ((r <? 32) || (r =? 127))%N then [backslash; "x"%char] ++ hex_of 2 r else if (r <? 65536)%N then [backslash; "u"%char] ++ hex_of 4 r
    else [backslash; "U"%char] ++ hex_of 8 r) = ([], Quoted)).
  { destruct (_ || _); [apply (escape_then (hex_of 2 r)), hex_inert|]. destruct (_ <? _)%N; apply escape_then, hex_inert. }
  destruct r as [|p]; [exact Hrest|]. repeat (destruct p as [p|p|]; try exact Hrest; try reflexivity).
Qed.

Lemma quote_from_scan fuel l : scan Quoted (quote_from is_print fuel l) = ([], Quoted).
Proof.
  revert l. induction fuel as [|fuel IH]; intros [|c l]; try done. cbn [quote_from].
  assert (Hbad : scan Quoted ([backslash; "x"%char] ++ hex_of 2 (byte_val c) ++ quote_from is_print fuel (drop 1 (c :: l))) = ([], Quoted)).
  { change (scan Quoted ((backslash :: "x"%char :: hex_of 2 (byte_val c)) ++ quote_from is_print fuel (drop 1 (c :: l))) = ([], Quoted)).
    by rewrite scan_app, (escape_then _ (hex_inert _ _)), IH. }
  destruct (decode_runes (c :: l)) as [|[r []] t]; [exact Hbad| |exact Hbad]. by rewrite scan_app, escaped_rune_scan, IH.
Qed.

(** A quoted text is one literal. *)
Lemma Quote_scan s : scan Plain (Quote is_print s) = ([quote; quote], Plain).
Proof. unfold Quote. cbn [app scan]. rewrite Ascii.eqb_refl, scan_app, quote_from_scan. reflexivity. Qed.

Lemma FormatInt_unquoted z : unquoted (to_bytes (FormatInt z)).
Proof.
  assert (Hd : ∀ fuel n acc, quote ∉ acc → quote ∉ digits_of fuel n acc).
  { intros fuel. induction fuel as [|fuel IH]; intros n acc Ha; simpl; [done|]. destruct (n =? 0)%N; [done|]. apply IH. intros [E|?]%elem_of_cons; [|done].
    apply (f_equal N_of_ascii) in E. pose proof (N.mod_lt n 10 ltac:(done)). pose proof (N.le_0_l (n `mod` 10)). rewrite N_ascii_embedding in E by lia.
    change (N_of_ascii quote) with 34%N in E. lia. }
  assert (Hdec : ∀ n, quote ∉ decimal n).
  { intros n. unfold decimal. destruct (n =? 0)%N; [by vm_compute; set_solver|]. apply Hd. set_solver. }
  unfold unquoted, FormatInt. destruct (z <? 0)%Z; [rewrite to_bytes_app|]; rewrite to_of_bytes; [|apply Hdec].
  intros [E|E]%elem_of_app; [vm_compute in E; set_solver|by apply (Hdec (Z.to_N (- z)))].
Qed.

Lemma sanitizeLabel_unquoted s : unquoted (sanitizeLabel s).
Proof.
  unfold unquoted, sanitizeLabel. destruct (List.filter name_char (to_bytes s)) as [|c l] eqn:E; [vm_compute; set_solver|].
  intros H. rewrite <- E in H. apply elem_of_filterb in H as [H _]. vm_compute in H. done.
Qed.
Lemma idx_unquoted i : unquoted (idx i).
Proof.
  unfold idx, unquoted. replace (to_bytes (str_of_nat i)) with (to_bytes (FormatInt (Z.of_nat i))); [apply FormatInt_unquoted|].
  unfold FormatInt, str_of_nat, decimal. rewrite (proj2 (Z.ltb_ge _ _)) by lia.
  replace (Z.to_N (Z.of_nat i)) with (N.of_nat i) by lia. by destruct i.
Qed.

(** *** Reading a statement *)

(** The structure with every word, a run of letters, digits and underscores, read as [x];
    the flag says whether the reader stands inside a word. *)
Fixpoint words (inside : bool) (l : bytes) : bytes :=
  match l with
  | [] => []
  | c :: r => if name_char c then (if inside then words true r else "x"%char :: words true r) else c :: words false r
  end.
Fixpoint ends (inside : bool) (l : bytes) : bool := match l with [] => inside | c :: r => ends (name_char c) r end.

Definition shape (l : bytes) : bytes := words false (skeleton l).

Lemma words_app b l r : words b (l ++ r) = words b l ++ words (ends b l) r.
Proof. revert b. induction l as [|c l IH]; intros b; simpl; [done|]. destruct (name_char c); [destruct b|]; simpl; by rewrite IH. Qed.
Lemma ends_app b l r : ends b (l ++ r) = ends (ends b l) r.
Proof. revert b. induction l as [|c l IH]; intros b; simpl; [done|apply IH]. Qed.

(** From [b] on, the text [l] is whole, reads as [o] and leaves the reader at [b']. *)
Definition reads (b : bool) (l o : bytes) (b' : bool) : Prop :=
  whole l ∧ words b (skeleton l) = o ∧ ends b (skeleton l) = b'.

Lemma reads_app b l o b1 l' o' b2 : reads b l o b1 → reads b1 l' o' b2 → reads b (l ++ l') (o ++ o') b2.
Proof.
  intros (W1 & <- & <-) (W2 & <- & <-). split_and!; [by apply whole_app|..]; rewrite skeleton_app by done;
    [by rewrite words_app|by rewrite ends_app].
Qed.

Lemma reads_text b l : unquoted l → reads b l (words b l) (ends b l).
Proof. intros Hl. unfold reads, skeleton. rewrite (unquoted_scan _ Hl). split_and!; [by apply unquoted_whole|done..]. Qed.

Lemma name_words b l : forallb name_char l = true → l ≠ [] → words b l = (if b then [] else ["x"%char]) ∧ ends b l = true.
Proof.
  revert b. induction l as [|c l IH]; intros b; [done|]. simpl. intros [Hc Hl]%andb_true_iff _. rewrite Hc.
  destruct l as [|d l]; [by destruct b|]. destruct (IH true Hl) as [-> ->]; [done|]. by destruct b.
Qed.

(** Whatever the text, a label, a relation or the name of a property is one word. *)
Lemma sanitizeLabel_word s : forallb name_char (sanitizeLabel s) = true ∧ sanitizeLabel s ≠ [].
Proof.
  unfold sanitizeLabel. destruct (List.filter name_char (to_bytes s)) as [|c l] eqn:E; [done|]. split; [|done].
  rewrite <- E. apply forallb_forall. intros x [_ Hx]%filter_In. done.
Qed.
Lemma reads_label s : reads false (sanitizeLabel s) ["x"%char] true.
Proof.
  destruct (sanitizeLabel_word s) as [H1 H2]. destruct (name_words false _ H1 H2) as [E1 E2].
  pose proof (reads_text false _ (sanitizeLabel_unquoted s)) as Hr. by rewrite E1, E2 in Hr.
Qed.

Lemma decimal_word n : forallb name_char (decimal n) = true ∧ decimal n ≠ [].
Proof.
  assert (Hd : ∀ fuel n acc, forallb name_char acc = true → forallb name_char (digits_of fuel n acc) = true).
  { intros fuel. induction fuel as [|fuel IH]; intros m acc Ha; simpl; [done|]. destruct (m =? 0)%N; [done|]. apply IH. simpl. rewrite Ha, andb_true_r.
    pose proof (N.mod_lt m 10 ltac:(done)). pose proof (N.le_0_l (m `mod` 10)). unfold name_char, byte_val. rewrite N_ascii_embedding by lia.
    rewrite (proj2 (N.leb_le 48 _)), (proj2 (N.leb_le _ 57)) by lia. simpl. by rewrite orb_true_r. }
  assert (Hn : ∀ fuel n acc, acc ≠ [] → digits_of fuel n acc ≠ []).
  { intros fuel. induction fuel as [|fuel IH]; intros m acc Ha; simpl; [done|]. destruct (m =? 0)%N; [done|]. by apply IH. }
  unfold decimal. destruct (N.eqb_spec n 0) as [->|Hn0]; [done|]. split; [by apply Hd|].
  cbn [digits_of]. rewrite (proj2 (N.eqb_neq _ _) Hn0). by apply (Hn 19).
Qed.

Definition sign (z : Z) : bytes := if (z <? 0)%Z then to_bytes "-" else [].
Lemma reads_int z : reads false (to_bytes (FormatInt z)) (sign z ++ ["x"%char]) true.
Proof.
  destruct (reads_text false _ (FormatInt_unquoted z)) as (W & H1 & H2).
  assert (E : words false (to_bytes (FormatInt z)) = sign z ++ ["x"%char] ∧ ends false (to_bytes (FormatInt z)) = true).
  { unfold FormatInt, sign. destruct (z <? 0)%Z; [rewrite to_bytes_app, words_app, ends_app|]; rewrite to_of_bytes;
      match goal with |- context [decimal ?n] => destruct (decimal_word n) as [D1 D2] end;
      destruct (name_words false _ D1 D2) as [Dw De]; try change (ends false (to_bytes "-")) with false; rewrite Dw, De; done. }
  destruct E as [E1 E2]. split_and!; [done|congruence..].
Qed.
Lemma reads_idx i : reads true (idx i) [] true.
Proof.
  assert (Hw : forallb name_char (idx i) = true ∧ idx i ≠ []).
  { unfold idx, str_of_nat. destruct (Nat.eqb_spec i 0) as [->|Hi]; rewrite to_of_bytes; [done|].
    pose proof (decimal_word (N.of_nat i)) as Hd. unfold decimal in Hd. by rewrite (proj2 (N.eqb_neq _ _)) in Hd by lia. }
  destruct (name_words true _ (proj1 Hw) (proj2 Hw)) as [E1 E2].
  pose proof (reads_text true (idx i) (idx_unquoted i)) as Hr. by rewrite E1, E2 in Hr.
Qed.
Lemma reads_literal b s : reads b (Quote is_print s) [quote; quote] false.
Proof. unfold reads, whole, skeleton. rewrite Quote_scan. by destruct b. Qed.

(** What a value reads as: a literal for a text, a word for the others. *)
Definition value_shape (v : value) : bytes :=
  match v with
  | VStr _ => [quote; quote]
  | VNull | VBool _ => ["x"%char]
  | VInt z => sign z ++ ["x"%char]
  | VFloat x => words false (format_float x)
  end.
Lemma reads_value v : ∃ b, reads false (cypherValue is_print format_float v) (value_shape v) b.
Proof.
  destruct v as [|s|x|z|x]; cbn [cypherValue value_shape].
  - exists true. apply (reads_text false (to_bytes "NULL")). vm_compute. set_solver.
  - eexists. apply reads_literal.
  - exists true. destruct x; [apply (reads_text false (to_bytes "true"))|apply (reads_text false (to_bytes "false"))]; vm_compute; set_solver.
  - eexists. apply reads_int.
  - eexists. apply reads_text, floats_plain.
Qed.

Definition props_shape (p : gmap string value) : bytes :=
  to_bytes "{" ++ joined "," ((λ '(_, v), to_bytes "x:" ++ value_shape v) <$> sort_by (λ a b, str_ltb a.1 b.1) (map_to_list p)) ++ to_bytes "}".
Definition node_shape (n : FalkorNode) : bytes :=
  to_bytes "x (x:x {x:" ++ [quote; quote] ++ to_bytes "}) x x = " ++ props_shape (node_props n).
Definition edge_shape (e : FalkorEdge) : bytes :=
  to_bytes "x (x {x:" ++ [quote; quote] ++ to_bytes "}) x (x {x:" ++ [quote; quote] ++ to_bytes "}) x (x)-[x:x " ++ props_shape (edge_props e) ++ to_bytes "]->(x)".
Definition statement_shape (nodes : list FalkorNode) (edges : list FalkorEdge) : bytes :=
  joined " " ((node_shape <$> nodes) ++ (edge_shape <$> edges)).

(** A symbol ends a word. *)
Lemma reads_symbol b c : name_char c = false → c ≠ quote → reads b [c] [c] false.
Proof.
  intros Hc Hq. assert (Hu : unquoted [c]) by (unfold unquoted; set_solver).
  pose proof (reads_text b [c] Hu) as H. simpl in H. by rewrite Hc in H.
Qed.

Lemma reads_joined sep ts os :
  name_char sep = false → sep ≠ quote → Forall2 (λ t o, ∃ b, reads false t o b) ts os →
  ∃ b, reads false (joined sep ts) (joined sep os) b.
Proof.
  intros Hn Hq. induction 1 as [|t o ts os [b Ht] Hrest IH]; [exists false; by apply reads_text; unfold unquoted; set_solver|].
  inversion Hrest; subst; [by exists b|]. destruct IH as [b' IH]. exists b'. cbn [joined] in *.
  eapply reads_app; [exact Ht|]. eapply reads_app; [by apply reads_symbol|exact IH].
Qed.

Lemma reads_props p : reads false (cypherProps is_print format_float p) (props_shape p) false.
Proof.
  unfold cypherProps, props_shape. eapply reads_app; [by apply reads_symbol|].
  destruct (reads_joined "," ((λ '(k, v), sanitizeLabel k ++ [":"%char] ++ cypherValue is_print format_float v) <$> sort_by (λ a b, str_ltb a.1 b.1) (map_to_list p))
    ((λ '(_, v), to_bytes "x:" ++ value_shape v) <$> sort_by (λ a b, str_ltb a.1 b.1) (map_to_list p))) as [b Hb]; [done|done| |].
  - apply Forall2_fmap, Forall_Forall2_diag, Forall_forall. intros [k v] _. destruct (reads_value v) as [b Hv]. exists b.
    apply (reads_app false _ ["x"%char] true); [apply reads_label|]. apply (reads_app true _ [":"%char] false); [by apply reads_symbol|done].
  - eapply reads_app; [exact Hb|]. by apply reads_symbol.
Qed.

(** Fixed text, and the words and literals between. *)
Lemma reads_fixed b t o b' : unquoted (to_bytes t) → words b (to_bytes t) = o → ends b (to_bytes t) = b' → reads b (to_bytes t) o b'.
Proof. intros Hu <- <-. by apply reads_text. Qed.
Ltac reads_next :=
  eapply reads_app;
    [first [apply reads_idx | apply reads_label | apply reads_literal | apply reads_props
           | apply reads_fixed; [by vm_compute; set_solver|reflexivity|reflexivity]]|].

Lemma reads_node i n : ∃ b, reads false (node_text is_print format_float i n) (node_shape n) b.
Proof.
  exists false. unfold node_text, node_shape. cbn [cypherValue].
  change (to_bytes "x (x:x {x:") with (to_bytes "x (x" ++ [] ++ to_bytes ":" ++ ["x"%char] ++ to_bytes " {x:").
  change (to_bytes "}) x x = ") with (to_bytes "}) x x" ++ [] ++ to_bytes " = ").
  rewrite <- !app_assoc. repeat reads_next. apply reads_props.
Qed.
Lemma reads_edge i e : ∃ b, reads false (edge_text is_print format_float i e) (edge_shape e) b.
Proof.
  exists false. unfold edge_text, edge_shape. cbn [cypherValue].
  change (to_bytes "x (x {x:") with (to_bytes "x (x" ++ [] ++ to_bytes " {x:").
  change (to_bytes "}) x (x {x:") with (to_bytes "}) x (x" ++ [] ++ to_bytes " {x:").
  change (to_bytes "}) x (x)-[x:x ") with (to_bytes "}) x (x" ++ [] ++ to_bytes ")-[x" ++ [] ++ to_bytes ":" ++ ["x"%char] ++ to_bytes " ").
  change (to_bytes "]->(x)") with (to_bytes "]->(x" ++ [] ++ to_bytes ")").
  rewrite <- !app_assoc. repeat reads_next. apply reads_fixed; [by vm_compute; set_solver|reflexivity|reflexivity].
Qed.
Lemma reads_delete docID :
  ∃ b, reads false (delete_text is_print format_float docID) (to_bytes "x (x {x:" ++ [quote; quote] ++ to_bytes "}) x x x") b.
Proof.
  exists true. unfold delete_text. cbn [cypherValue]. repeat reads_next. apply reads_fixed; [by vm_compute; set_solver|reflexivity|reflexivity].
Qed.

Lemma reads_imap {A} (f : nat → A → bytes) (g : A → bytes) l :
  (∀ i x, ∃ b, reads false (f i x) (g x) b) → Forall2 (λ t o, ∃ b, reads false t o b) (imap f l) (g <$> l).
Proof.
  revert f. induction l as [|x l IH]; intros f Hf; [constructor|]. rewrite fmap_cons, imap_cons. constructor; [apply Hf|]. apply IH. intros i y. apply (Hf (S i)).
Qed.

(** C35: no text taken from a document can change the structure of a statement. Read
    with the contents of its literals left out and every word (a run of letters, digits and
    underscores) as [x], the statement that writes any nodes and edges is, clause by clause,
    the one the code spells out: ids, document ids and text properties fill one literal each,
    and a label, a relation or the name of a property is one word, whatever it contains. The
    shape depends on the data only through the number of nodes, edges and properties, the kind of
    each value, the signs of integers, the text of floats, and the order of property names. Every literal that
    is opened is closed, and the same goes for the statement that deletes a document.
    Printed floats hold no quote. *)
Theorem statement_structure (nodes : list FalkorNode) (edges : list FalkorEdge) (docID : string) :
  whole (statement is_print format_float nodes edges) ∧
  shape (statement is_print format_float nodes edges) = statement_shape nodes edges ∧
  whole (delete_text is_print format_float docID) ∧
  shape (delete_text is_print format_float docID) = to_bytes "x (x {x:" ++ [quote; quote] ++ to_bytes "}) x x x".
Proof.
  destruct (reads_joined " " (imap (node_text is_print format_float) nodes ++ imap (edge_text is_print format_float) edges)
    ((node_shape <$> nodes) ++ (edge_shape <$> edges))) as (b & H1 & H2 & _); [done|done| |].
  { apply Forall2_app; apply reads_imap; [apply reads_node|apply reads_edge]. }
  destruct (reads_delete docID) as (b' & H3 & H4 & _). done.
Qed.
End Structure.

(** ** The query of retrieval *)

(** What a literal denotes: its escaped bytes. *)
Fixpoint unescape (l : bytes) : bytes :=
  match l with
  | [] => []
  | c :: r => if Ascii.eqb c backslash then match r with [] => [] | d :: r' => d :: unescape r' end else c :: unescape r
  end.

Lemma escape_cons c q : (c :: q) ≫= escape_char = escape_char c ++ (q ≫= escape_char).
Proof. done. Qed.
Lemma escape_one_scan c : scan Quoted (escape_char c) = ([], Quoted).
Proof.
  unfold escape_char. destruct (Ascii.eqb_spec c quote) as [->|Hq]; [done|]. destruct (Ascii.eqb_spec c backslash) as [->|Hb]; [done|].
  apply inert_scan. by constructor.
Qed.
Lemma escape_char_scan q : scan Quoted (q ≫= escape_char) = ([], Quoted).
Proof. induction q as [|c q IH]; [done|]. rewrite escape_cons, scan_app, escape_one_scan. cbn [fst snd]. by rewrite IH. Qed.
Lemma unescape_literal q : unescape (q ≫= escape_char) = q.
Proof.
  induction q as [|c q IH]; [done|]. rewrite escape_cons. unfold escape_char at 1.
  destruct (Ascii.eqb_spec c quote) as [->|Hq]; [by simpl; rewrite IH|]. destruct (Ascii.eqb_spec c backslash) as [->|Hb]; [by simpl; rewrite IH|].
  simpl. rewrite (proj2 (Ascii.eqb_neq _ _) Hb). by rewrite IH.
Qed.

(** The user's words are two literals of the query, each of which denotes them, and the
    query has the same structure whatever they are. *)
Theorem query_structure (q q' : string) :
  whole (defaultGraphQuery q) ∧ skeleton (defaultGraphQuery q) = skeleton (defaultGraphQuery q') ∧ unescape (to_bytes q ≫= escape_char) = to_bytes q.
Proof.
  assert (HL : ∀ b, alike (literal (to_bytes q)) (literal (to_bytes b))).
  { intros b. unfold alike, whole, skeleton, literal. cbn [app scan]. rewrite Ascii.eqb_refl, !scan_app, !escape_char_scan. done. }
  assert (HQ : alike (defaultGraphQuery q) (defaultGraphQuery q')).
  { unfold defaultGraphQuery. by_parts; first [apply HL | by apply alike_text; vm_compute; set_solver]. }
  destruct HQ as (? & _ & ?). split_and!; [done..|apply unescape_literal].
Qed.

(** ** Extraction is best effort, in order and in the tenant's graph *)

Section Enrichment.
Context (is_print : N → bool) (format_float : float → bytes) `{Outside} (GraphPrefix : string).

Definition in_graph (t : string) (text : bytes) : string * bytes := (GraphFor GraphPrefix t, text).

(** Of these statements, in this order, as many as were reached were carried out in the
    tenant's graph, and nothing else. *)
Definition carried (t : string) (texts : list bytes) (w w' : Env (list (string * bytes))) : Prop :=
  ∃ l, l `prefix_of` texts ∧ store w' = store w ++ (in_graph t <$> l).

Lemma carried_none t texts w : carried t texts w w.
Proof. exists []. split; [apply prefix_nil|]. by rewrite app_nil_r. Qed.
Lemma carried_more t texts more w w' : carried t texts w w' → carried t (texts ++ more) w w'.
Proof. intros (l & Hl & E). exists l. split; [by apply prefix_app_r|done]. Qed.

Lemma graph_query_carried err t text w : carried t [text] w (graph_query GraphPrefix err t text w).2.
Proof.
  unfold graph_query, ewrite, ecall. destruct (fate (calls_made w)); simpl; [by exists [text]| |by exists [text]].
  exists []. split; [apply prefix_nil|]. by rewrite app_nil_r.
Qed.
Lemma graph_query_done err t text w w' : graph_query GraphPrefix err t text w = (Ok tt, w') → store w' = store w ++ [in_graph t text].
Proof. unfold graph_query, ewrite, ecall. by destruct (fate (calls_made w)); intros [= <-]. Qed.

Lemma scoped_carried {A} ctx t texts (k : Eff (list (string * bytes)) string A) w : carried t texts w (k w).2 → carried t texts w (scoped ctx t k w).2.
Proof. intros Hk. unfold scoped. destruct (str_empty t); [apply carried_none|]. by destruct ctx; [apply carried_none|]. Qed.

Lemma DeleteByDocument_carried ctx t doc w :
  let text := delete_text is_print format_float doc in
  carried t [text] w (DeleteByDocument is_print format_float GraphPrefix ctx t doc w).2 ∧
  ∀ w', DeleteByDocument is_print format_float GraphPrefix ctx t doc w = (Ok tt, w') → store w' = store w ++ [in_graph t text].
Proof.
  simpl. split.
  - apply scoped_carried. destruct (str_empty doc); [apply carried_none|apply graph_query_carried].
  - intros w'. unfold DeleteByDocument, scoped. destruct (str_empty t); [done|]. destruct ctx; [done|]. destruct (str_empty doc); [done|]. apply graph_query_done.
Qed.

Lemma WriteNodes_carried ctx t nodes edges w :
  carried t [statement is_print format_float nodes edges] w (WriteNodes is_print format_float GraphPrefix ctx t nodes edges w).2.
Proof.
  apply scoped_carried. destruct (decide (nodes = [] ∧ edges = [])) as [[-> ->]|Hne]; [apply carried_none|].
  assert (Hif : ∀ {A} (x y : A), match nodes, edges with [], [] => x | _, _ => y end = y) by (intros; destruct nodes, edges; naive_solver).
  rewrite Hif. destruct (first_bad node_ok 0 nodes); [apply carried_none|]. destruct (first_bad edge_ok 0 edges); [apply carried_none|].
  apply graph_query_carried.
Qed.

(** The stage reports no failure of the service or the graph. The statements it carries
    out are the deletion of the document and then what the service answered, or only the
    first of these, or none: nothing is written beside an old subgraph, all of it is in
    the graph of the document's tenant, and a failed extraction changes nothing. *)
Theorem Enrich_contract ctx extract (doc : Document) blocks w :
  doc_TenantID doc ≠ EmptyString →
  let '(r, w') := Enrich is_print format_float GraphPrefix ctx extract (Some doc) blocks w in
  r = Ok tt ∧
  match extract doc blocks with
  | Err _ => w' = w
  | Ok resp =>
      let '(nodes, edges) := projectGraphPayload (doc_DocumentID doc) resp in
      carried (doc_TenantID doc) [delete_text is_print format_float (doc_DocumentID doc); statement is_print format_float nodes edges] w w'
  end.
Proof.
  intros Ht. unfold Enrich. rewrite (proj2 (str_empty_false _) Ht). destruct blocks as [|b bs].
  { split; [done|]. destruct (extract doc []); [|done]. destruct (projectGraphPayload _ _). apply carried_none. }
  destruct (extract doc (b :: bs)) as [resp|e]; [|done]. unfold best_effort. split; [done|].
  destruct (projectGraphPayload (doc_DocumentID doc) resp) as [nodes edges].
  destruct (DeleteByDocument_carried ctx (doc_TenantID doc) (doc_DocumentID doc) w) as [HD HDone]. unfold ebind.
  destruct (DeleteByDocument _ _ _ _ _ _ w) as [[[]|e] w1]; cbn [snd] in *; [|by apply (carried_more _ [_] [_])].
  specialize (HDone w1 eq_refl). destruct (decide (nodes = [] ∧ edges = [])) as [[-> ->]|Hne]; [by apply (carried_more _ [_] [_])|].
  assert (Hif : ∀ {A} (x y : A), match nodes, edges with [], [] => x | _, _ => y end = y) by (intros; destruct nodes, edges; naive_solver).
  rewrite Hif. destruct (WriteNodes_carried ctx (doc_TenantID doc) nodes edges w1) as (l & Hl & E).
  exists (delete_text is_print format_float (doc_DocumentID doc) :: l). split; [by apply prefix_cons|]. by rewrite E, HDone, <- app_assoc.
Qed.
End Enrichment.
End Graph.

(** ** On concrete inputs *)

Module GraphSamples.
Import Snapshot Graph.

Definition ascii_print (r : N) : bool := ((32 <=? r) && (r <? 127))%N.
Definition no_floats (x : float) : bytes := to_bytes "0.5".

(** A text that tries to close its literal, and a label and a property name that try to
    close their clause. *)
Definition hostile : FalkorNode :=
  {| n_ID := of_bytes (to_bytes "a" ++ [quote] ++ to_bytes "}) DETACH DELETE n //" ++ [backslash]);
     Label := "Person) DETACH DELETE n //"; n_DocumentID := "d1";
     n_Properties := {["p:1}) DELETE n //"%string := VStr "v"]} |}.

Lemma statement_structure_witness :
  whole (statement ascii_print no_floats [hostile] []) ∧
  shape (statement ascii_print no_floats [hostile] []) =
    to_bytes "x (x:x {x:" ++ [quote; quote] ++ to_bytes "}) x x = {x:" ++ [quote; quote] ++ to_bytes ",x:" ++ [quote; quote] ++
    to_bytes ",x:" ++ [quote; quote] ++ to_bytes "}".
Proof.
  assert (Hf : ∀ x, unquoted (no_floats x)) by (intros x; vm_compute; set_solver).
  destruct (@statement_structure ascii_print no_floats Hf [hostile] [] "d1") as (H1 & H2 & _).
  split; [exact H1|]. rewrite H2. vm_compute. reflexivity.
Defined.

(** A statement as it is sent. *)
Example statement_text :
  of_bytes (statement ascii_print no_floats
    [{| n_ID := "e1"; Label := "Person"; n_DocumentID := "d1"; n_Properties := {["name"%string := VStr "Ada"]} |}] []) =
  of_bytes (to_bytes "MERGE (n0:Person {id:" ++ [quote] ++ to_bytes "e1" ++ [quote] ++ to_bytes "}) SET n0 = {document_id:" ++ [quote] ++ to_bytes "d1" ++ [quote] ++
    to_bytes ",id:" ++ [quote] ++ to_bytes "e1" ++ [quote] ++ to_bytes ",name:" ++ [quote] ++ to_bytes "Ada" ++ [quote] ++ to_bytes "}").
Proof. vm_compute. reflexivity. Qed.

(** A hit of the graph names no source: a rule that denies one lets it through. *)
Definition denies_source (s : string) : PolicySnapshot :=
  {| EffectiveMode := ""; ACL := Some {| ACL.TenantID := "acme"; ACL.ChannelID := "";
       ACL.Rules := [{| ACL.SourceID := s; ACL.NamespaceID := ""; ACL.PathGlob := ""; ACL.Action := "deny"; ACL.ComputeTier := "" |}] |};
     ChunkACL := None; Recipient := None; DenyLocalRetrieval := false; NamespacePolicies := ∅ |}.
Example source_rule_spares_graph_hits (i : nat) (h : FalkorMatch) :
  PolicyGate.admitted (λ _ _, false) (denies_source "drive-1") (graph_match i h) = true.
Proof. reflexivity. Qed.
End GraphSamples.
