(* ===== verification/Batch.v ===== *)
(** * Batch retrieval

    retrieval/batch_handler.go and retrieval/payload_validator.go: the checks on a
    request and on a batch, the endpoint, and [RunBatch], which runs the sub-requests on
    goroutines of which a semaphore admits a bounded number at a time. The order in which
    they start, read the semantic cache, finish and fill it is a step relation over the
    shared cache, which the other users of the cache change in between; what the policy
    resolver, the embedder and the backends answer to a sub-request is a parameter. The
    [explain] flag and the trace id are left out. *)

From S2P Require Import Prelude GoFloat GoString GoText Match Acl PrivacyMode PolicyGate Pins Reranker Diversifier Handler ScopeKey SemanticCache Experiments.

Module Batch.
Import Snapshot Handler.

Definition DefaultBatchMaxParallel : Z := 8.
Definition MaxBatchSize : Z := 32.
Definition MaxRetrieveTopK : Z := 1000.
Definition MaxRetrieveStringLen : Z := 4096.
Definition MaxRetrieveSliceLen : Z := 256.

Record BatchRequest := { Requests : list RetrieveRequest; MaxParallel : Z }.

(** ** Validation *)

Record PayloadFieldError := { Field : string; Message : string }.
(** [None] is a nil error. *)
Abbreviation PayloadError := (list PayloadFieldError).
Definition rejected (errs : PayloadError) : option PayloadError := match errs with [] => None | _ => Some errs end.

Definition check (bad : bool) (field msg : string) : PayloadError := if bad then [{| Field := field; Message := msg |}] else [].
Definition indexed (name : string) (i : nat) : string := str_app name (str_app "[" (str_app (str_of_nat i) "]")).
Definition too_long (s : string) : bool := (MaxRetrieveStringLen <? Z.of_nat (length (to_bytes s)))%Z.
Definition too_many {A} (l : list A) : bool := (MaxRetrieveSliceLen <? Z.of_nat (length l))%Z.
(** The loop ends at the first entry that is too long. *)
Fixpoint long_source (i : nat) (l : list string) : PayloadError :=
  match l with [] => [] | s :: r => if too_long s then [{| Field := indexed "sources" i; Message := "too long" |}] else long_source (S i) r end.

Definition ValidateRetrieveRequest (req : option RetrieveRequest) : option PayloadError :=
  match req with
  | None => Some [{| Field := ""; Message := "request body is required" |}]
  | Some req =>
      rejected (
        check (str_empty (trim_space (Query req))) "query" "must not be empty" ++
        check (too_long (Query req)) "query" "exceeds 4096 chars" ++
        check (TopK req <? 0)%Z "top_k" "must be >= 0" ++
        check (MaxRetrieveTopK <? TopK req)%Z "top_k" "must be <= 1000" ++
        check (f_ltb (Diversity req) f_zero || f_gtb (Diversity req) (f32_of_Z 1)) "diversity" "must be in [0, 1]" ++
        long_source 0 (rq_Sources req) ++
        check (too_many (rq_Sources req)) "sources" "too many entries (>256)" ++
        check (too_many (Channels req)) "channels" "too many entries (>256)" ++
        check (too_many (Documents req)) "document_ids" "too many entries (>256)" ++
        check (too_long (PrivacyMode req)) "privacy_mode" "too long" ++
        check (too_long (SkillID req)) "skill_id" "too long" ++
        check (too_long (DeviceTier req)) "device_tier" "too long")
  end.

Definition nested (i : nat) (f : PayloadFieldError) : PayloadFieldError :=
  {| Field := str_app (indexed "requests" i) (str_app "." (Field f)); Message := Message f |}.
Definition ValidateBatchRequest (req : option BatchRequest) : option PayloadError :=
  match req with
  | None => Some [{| Field := ""; Message := "request body is required" |}]
  | Some req =>
      rejected (
        check (length (Requests req) =? 0)%nat "requests" "must not be empty" ++
        check (MaxBatchSize <? Z.of_nat (length (Requests req)))%Z "requests" "too many entries (>32)" ++
        check (MaxParallel req <? 0)%Z "max_parallel" "must be >= 0" ++
        concat (imap (λ i r, nested i <$> default [] (ValidateRetrieveRequest (Some r))) (Requests req)))
  end.

Definition Error_text (p : PayloadError) : string :=
  match p with [] => "invalid payload" | _ => str_join ((λ f, str_app (Field f) (str_app ": " (Message f))) <$> p) "; " end.
Definition CodeInvalidPayload : string := "ERR_INVALID_PAYLOAD".
Definition CodeInvalidRequestBody : string := "ERR_INVALID_REQUEST_BODY".
Record PayloadErrorBody := { Code : string; b_Error : string; b_Fields : list PayloadFieldError }.
(** The body does not parse, or it does not validate. *)
Definition BuildPayloadErrorBody (err : string + PayloadError) : PayloadErrorBody :=
  match err with
  | inr p => {| Code := CodeInvalidPayload; b_Error := Error_text p; b_Fields := p |}
  | inl msg => {| Code := CodeInvalidRequestBody; b_Error := msg; b_Fields := [] |}
  end.

Lemma rejected_None errs : rejected errs = None ↔ errs = [].
Proof. by destruct errs. Qed.
Lemma check_nil bad field msg : check bad field msg = [] ↔ bad = false.
Proof. by destruct bad. Qed.
Lemma too_long_false s : too_long s = false ↔ (Z.of_nat (length (to_bytes s)) ≤ 4096)%Z.
Proof. unfold too_long, MaxRetrieveStringLen. apply Z.ltb_ge. Qed.
Lemma too_many_false {A} (l : list A) : too_many l = false ↔ length l ≤ 256.
Proof. unfold too_many, MaxRetrieveSliceLen. rewrite Z.ltb_ge. lia. Qed.
Lemma long_source_nil i l : long_source i l = [] ↔ Forall (λ s, (Z.of_nat (length (to_bytes s)) ≤ 4096)%Z) l.
Proof.
  revert i. induction l as [|s l IH]; intros i; cbn [long_source]; [done|]. rewrite Forall_cons. destruct (too_long s) eqn:E.
  - split; [done|]. intros [Hs _]. apply too_long_false in Hs. congruence.
  - rewrite IH. apply too_long_false in E. naive_solver.
Qed.

(** A request is accepted exactly when every field is within its bounds. *)
Theorem ValidateRetrieveRequest_exact req :
  ValidateRetrieveRequest (Some req) = None ↔
  trim_space (Query req) ≠ EmptyString ∧ (0 ≤ TopK req ≤ 1000)%Z ∧
  (f_ltb (Diversity req) f_zero = false ∧ f_gtb (Diversity req) (f32_of_Z 1) = false) ∧
  Forall (λ s, (Z.of_nat (length (to_bytes s)) ≤ 4096)%Z) (rq_Sources req ++ [Query req; PrivacyMode req; SkillID req; DeviceTier req]) ∧
  (length (rq_Sources req) ≤ 256 ∧ length (Channels req) ≤ 256 ∧ length (Documents req) ≤ 256).
Proof.
  cbn [ValidateRetrieveRequest]. rewrite rejected_None, !app_nil, !check_nil, long_source_nil, !too_long_false, !too_many_false, !Z.ltb_ge, orb_false_iff, str_empty_false.
  rewrite Forall_app, !Forall_cons, Forall_nil. unfold MaxRetrieveTopK. naive_solver lia.
Qed.

(** ** A sub-request *)

Inductive item_error := QueryRequired | PolicyResolveFailed | RetrieveFailed (e : Handler.error).
Record BatchResultItem := { Index : nat; outcome : result RetrieveResponse item_error }.

(** A response without a mode is reported under the strictest one. *)
Definition with_mode (resp : RetrieveResponse) : RetrieveResponse :=
  if str_empty (p_PrivacyMode (Policy resp))
  then {| r_Hits := r_Hits resp;
          Policy := {| Applied := Applied (Policy resp); Degraded := Degraded (Policy resp); BlockedCount := BlockedCount (Policy resp); CacheHit := CacheHit (Policy resp);
                       p_PrivacyMode := PrivacyMode.PrivacyModeNoAI |};
          PreferLocal := PreferLocal resp; LocalShardVersion := LocalShardVersion resp; PreferLocalReason := PreferLocalReason resp |}
  else resp.

Section Run.
Context `{Reranker} `{Diversifier} (cfg : HandlerConfig) (regexp_other : bytes → bytes → bool) (iterate : list Match.Match → list Match.Match).
Context (router : option (string → string → string → option Experiments.ABTestRouteOutcome)).
(** What the resolver, and everything else outside but the cache, answers to a sub-request. *)
Context (resolve : nat → string → string → result PolicySnapshot unit) (envs : nat → Environment).
(** The digests and the prefix of the cache's keys, and the embedding of a query. *)
Context (sha256_hex : bytes → string) (sha256 : bytes → bytes) (KeyPrefix : string) (vec : nat → list float).
(** [cfg.Cache != nil], and [cfg.CacheWarmOnMiss]. *)
Context (caching warm : bool).

(** The entry of the semantic cache that a sub-request reads and fills. *)
Definition cache_key (tenantID : string) (index : nat) (sub : RetrieveRequest) : option string :=
  match resolve index tenantID (firstNonEmpty (Channels sub)) with
  | Err _ => None
  | Ok snapshot =>
      let req := (Experiments.resolveExperiment router tenantID sub).2 in
      match resolveTopKAndPrivacy cfg req snapshot with
      | Err _ => None
      | Ok (topK, privacyMode) =>
          Some (SemanticCache.CacheKey sha256 KeyPrefix tenantID (firstNonEmpty (Channels req)) (vec index) (ScopeKey.scopeHashFor sha256_hex req topK privacyMode))
      end
  end.

(** [cached] is what the cache answered to its read. *)
Definition sees (index : nat) (cached : option Match.CachedResult) : Environment :=
  {| e_embed := e_embed (envs index); e_answers := e_answers (envs index); e_cache := if caching then Some cached else None; e_shard := e_shard (envs index) |}.
(** The item, and the entry that is written to the cache. *)
Definition runOne (tenantID : string) (index : nat) (sub : RetrieveRequest) (cached : option Match.CachedResult) : BatchResultItem * option Match.CachedResult :=
  if str_empty (Query sub) then ({| Index := index; outcome := Err QueryRequired |}, None)
  else match resolve index tenantID (firstNonEmpty (Channels sub)) with
       | Err _ => ({| Index := index; outcome := Err PolicyResolveFailed |}, None)
       | Ok snapshot =>
           match Experiments.RetrieveWithSnapshotCached cfg regexp_other iterate router tenantID sub snapshot (sees index cached) with
           | Err e => ({| Index := index; outcome := Err (RetrieveFailed e) |}, None)
           | Ok (resp, write, _) => ({| Index := index; outcome := Ok (with_mode resp) |}, write)
           end
       end.

(** ** The goroutines *)

Definition parallel (req : BatchRequest) : nat :=
  let p := if (MaxParallel req <=? 0)%Z then DefaultBatchMaxParallel else MaxParallel req in
  min (Z.to_nat p) (length (Requests req)).

(** The loop's counter; the goroutines that hold the semaphore, before and after they read
    the cache; what each read; the slots; the cache, and the writes that are still to
    reach it. *)
Record state := {
  next : nat;
  started : list nat;
  reading : list nat;
  seen : gmap nat (option Match.CachedResult);
  slots : list (option BatchResultItem);
  cache : gmap string Match.CachedResult;
  warming : list (string * Match.CachedResult)
}.
Definition running (s : state) : list nat := started s ++ reading s.
Definition init (cache : gmap string Match.CachedResult) (req : BatchRequest) : state :=
  {| next := 0; started := []; reading := []; seen := ∅; slots := replicate (length (Requests req)) None; cache := cache; warming := [] |}.
Definition without (idx : nat) (l : list nat) : list nat := List.filter (λ j, negb (Nat.eqb j idx)) l.

Definition launch (req : BatchRequest) (s : state) : option state :=
  if decide (next s < length (Requests req) ∧ length (running s) < parallel req)
  then Some {| next := S (next s); started := next s :: started s; reading := reading s; seen := seen s; slots := slots s; cache := cache s; warming := warming s |} else None.
(** The read; one that fails, or that misses, gives nothing. *)
Definition look (tenantID : string) (req : BatchRequest) (fails : bool) (idx : nat) (s : state) : option state :=
  if decide (idx ∈ started s)
  then let got := if fails then None else match Requests req !! idx ≫= cache_key tenantID idx with Some k => cache s !! k | None => None end in
       Some {| next := next s; started := without idx (started s); reading := idx :: reading s; seen := <[idx := got]> (seen s); slots := slots s; cache := cache s; warming := warming s |}
  else None.
(** The rest of the goroutine. The entry is written before it ends, if the write succeeds;
    with [CacheWarmOnMiss] it is left to another goroutine. *)
Definition finish (tenantID : string) (req : BatchRequest) (fails : bool) (idx : nat) (s : state) : option state :=
  match decide (idx ∈ reading s), Requests req !! idx with
  | left _, Some sub =>
      let '(item, write) := runOne tenantID idx sub (default None (seen s !! idx)) in
      let entry := match cache_key tenantID idx sub, write with Some k, Some c => [(k, c)] | _, _ => [] end in
      Some {| next := next s; started := started s; reading := without idx (reading s); seen := seen s; slots := <[idx := Some item]> (slots s);
              cache := if warm || fails then cache s else foldr (λ e, <[e.1 := e.2]>) (cache s) entry;
              warming := if warm then entry ++ warming s else warming s |}
  | _, _ => None
  end.
(** A write that was left to a goroutine of its own succeeds or fails. *)
Definition land (fails : bool) (i : nat) (s : state) : option state :=
  match warming s !! i with
  | Some (k, c) =>
      Some {| next := next s; started := started s; reading := reading s; seen := seen s; slots := slots s;
              cache := if fails then cache s else <[k := c]> (cache s); warming := delete i (warming s) |}
  | None => None
  end.

Inductive step (tenantID : string) (req : BatchRequest) : state → state → Prop :=
| step_launch s s' : launch req s = Some s' → step tenantID req s s'
| step_look fails idx s s' : look tenantID req fails idx s = Some s' → step tenantID req s s'
| step_finish fails idx s s' : finish tenantID req fails idx s = Some s' → step tenantID req s s'
| step_land fails i s s' : land fails i s = Some s' → step tenantID req s s'.

(** [wg.Wait] returns. *)
Definition waited (req : BatchRequest) (s : state) : Prop := next s = length (Requests req) ∧ running s = [].

(** One schedule of the goroutines: each runs to its end before the next one starts. *)
Fixpoint in_turn (tenantID : string) (req : BatchRequest) (fuel : nat) (s : state) : state :=
  match fuel with
  | O => s
  | S fuel =>
      match (launch req s ≫= look tenantID req false (next s)) ≫= finish tenantID req false (next s) with
      | Some s' => in_turn tenantID req fuel s'
      | None => s
      end
  end.
Definition RunBatch (cache : gmap string Match.CachedResult) (tenantID : string) (req : BatchRequest) : list (option BatchResultItem) :=
  slots (in_turn tenantID req (length (Requests req)) (init cache req)).

(** ** The endpoint *)

Inductive batch_response := Unauthorized | BadRequest (body : PayloadErrorBody) | RequestEntityTooLarge | BatchOK (items : list (option BatchResultItem)).
(** [run] are the slots some schedule leaves behind. *)
Definition retrieveBatch (run : string → BatchRequest → list (option BatchResultItem)) (tenantID : option string) (body : result BatchRequest string) : batch_response :=
  match tenantID with
  | None => Unauthorized
  | Some tenantID =>
      match body with
      | Err e => BadRequest (BuildPayloadErrorBody (inl e))
      | Ok req =>
          if (MaxBatchSize <? Z.of_nat (length (Requests req)))%Z then RequestEntityTooLarge
          else match ValidateBatchRequest (Some req) with
               | Some p => BadRequest (BuildPayloadErrorBody (inr p))
               | None => BatchOK (run tenantID req)
               end
      end
  end.

(** ** Schedules

    The other requests of the service use the same cache: an entry under [k] that is not of
    this batch satisfies [foreign k]. *)

Context (foreign : string → Match.CachedResult → Prop).

Definition fits (cache0 cache : gmap string Match.CachedResult) : Prop := ∀ k c, cache !! k = Some c → cache0 !! k = Some c ∨ foreign k c.
Definition set_cache (cache : gmap string Match.CachedResult) (s : state) : state :=
  {| next := next s; started := started s; reading := reading s; seen := seen s; slots := slots s; cache := cache; warming := warming s |}.
(** Steps of the batch, which are counted, among expiries, invalidations and writes of others. *)
Inductive schedule (tenantID : string) (req : BatchRequest) : nat → state → state → Prop :=
| schedule_done s : schedule tenantID req 0 s s
| schedule_step n s s1 s' : step tenantID req s s1 → schedule tenantID req n s1 s' → schedule tenantID req (S n) s s'
| schedule_others n s c s' : fits (cache s) c → schedule tenantID req n (set_cache c s) s' → schedule tenantID req n s s'.

(** [c] is what sub-request [j] writes under [k]. *)
Definition writes (tenantID : string) (req : BatchRequest) (j : nat) (k : string) (c : Match.CachedResult) : Prop :=
  ∃ sub, Requests req !! j = Some sub ∧ cache_key tenantID j sub = Some k ∧ (runOne tenantID j sub None).2 = Some c.
Definition ended (s : state) (j : nat) : Prop := j < next s ∧ j ∉ running s.
Definition supplied (tenantID : string) (req : BatchRequest) (s : state) (k : string) (c : Match.CachedResult) : Prop :=
  foreign k c ∨ ∃ j, ended s j ∧ writes tenantID req j k c.
(** What sub-request [i] may have read. *)
Definition read_ok (tenantID : string) (req : BatchRequest) (i : nat) (got : option Match.CachedResult) : Prop :=
  ∀ c, got = Some c → ∃ sub k, Requests req !! i = Some sub ∧ cache_key tenantID i sub = Some k ∧ (foreign k c ∨ ∃ j, j ≠ i ∧ writes tenantID req j k c).

Record inv (tenantID : string) (req : BatchRequest) (s : state) : Prop := {
  i_next : next s ≤ length (Requests req);
  i_running : length (running s) ≤ parallel req;
  i_nodup : NoDup (running s);
  i_below : ∀ j, j ∈ running s → j < next s;
  i_length : length (slots s) = length (Requests req);
  i_slots : ∀ j sub, ended s j → Requests req !! j = Some sub →
    ∃ got, slots s !! j = Some (Some (runOne tenantID j sub got).1) ∧ read_ok tenantID req j got;
  i_seen : ∀ j got, seen s !! j = Some got → read_ok tenantID req j got;
  i_cache : ∀ k c, cache s !! k = Some c → supplied tenantID req s k c;
  i_warming : ∀ k c, (k, c) ∈ warming s → supplied tenantID req s k c
}.

Lemma inv_init tenantID req cache0 : (∀ k c, cache0 !! k = Some c → foreign k c) → inv tenantID req (init cache0 req).
Proof.
  intros Hf. split; cbn; [lia|lia|constructor|set_solver|apply length_replicate|by intros j sub [? _]; cbn in *; lia|done| |set_solver].
  intros k c Hk. left. by apply Hf.
Qed.

Lemma without_spec idx l j : j ∈ without idx l ↔ j ∈ l ∧ j ≠ idx.
Proof. unfold without. rewrite elem_of_filterb. by destruct (Nat.eqb_spec j idx); naive_solver. Qed.
Lemma without_nodup idx l : NoDup l → NoDup (without idx l).
Proof. intros Hd. apply NoDup_ListNoDup, List.NoDup_filter, NoDup_ListNoDup, Hd. Qed.
Lemma filter_drops {A} (f : A → bool) (x : A) l : x ∈ l → f x = false → length (List.filter f l) < length l.
Proof.
  intros Hx Hf. pose proof (filter_split_length f l) as E. assert (Hin : x ∈ List.filter (λ x, negb (f x)) l) by (apply elem_of_filterb; by rewrite Hf).
  destruct (List.filter (λ x, negb (f x)) l) as [|y l']; [by apply elem_of_nil in Hin|]. cbn [length] in E. lia.
Qed.
Lemma without_shorter idx l : idx ∈ l → length (without idx l) < length l.
Proof. intros Hi. apply filter_drops with idx; [done|]. by rewrite Nat.eqb_refl. Qed.

(** An entry is written on a miss only. *)
Lemma runOne_write tenantID j sub got c : (runOne tenantID j sub got).2 = Some c → got = None.
Proof.
  unfold runOne. destruct (str_empty (Query sub)); [done|]. destruct (resolve _ _ _) as [snapshot|]; [|done].
  destruct (Experiments.RetrieveWithSnapshotCached _ _ _ _ _ _ _ _) as [[[resp write] tag]|] eqn:E; [|done]. cbn [snd]. intros ->. revert E.
  unfold Experiments.RetrieveWithSnapshotCached. destruct (str_empty tenantID); [done|]. destruct (str_empty (Query sub)); [done|].
  destruct (Experiments.resolveExperiment _ _ _) as [route req]. unfold RetrieveWithSnapshotCached. destruct (str_empty tenantID); [done|].
  destruct (str_empty (Query req)); [done|]. destruct (resolveTopKAndPrivacy _ _ _) as [[topK mode]|]; [|done]. cbn [result_bind]. destruct (negb _); [done|].
  unfold sees. cbn [e_cache]. destruct caching; [destruct got; [done|done]|]. destruct (runPipelineFromVec _ _ _ _ _ _ _ _); done.
Qed.
Lemma runOne_writes tenantID req j sub got k c :
  Requests req !! j = Some sub → cache_key tenantID j sub = Some k → (runOne tenantID j sub got).2 = Some c → writes tenantID req j k c.
Proof. intros Hj Hk Hw. pose proof (runOne_write _ _ _ _ _ Hw) as ->. by exists sub. Qed.

Lemma supplied_mono tenantID req s s' k c : (∀ j, ended s j → ended s' j) → supplied tenantID req s k c → supplied tenantID req s' k c.
Proof. intros He [Hf|(j & Hj & Hw)]; [by left|]. right. exists j. split; [by apply He|done]. Qed.

Lemma inv_launch tenantID req s s' : inv tenantID req s → launch req s = Some s' → inv tenantID req s'.
Proof.
  intros [H1 H2 H3 H4 H5 H6 H7 H8 H9]. unfold launch. case_decide as Hd; [|done]. intros [= <-]. destruct Hd as [Hd1 Hd2].
  set (s' := Build_state _ _ _ _ _ _ _). assert (He : ∀ j, ended s j ↔ ended s' j).
  { intros j. unfold ended, running. cbn. rewrite not_elem_of_cons. split; [intros [? ?]; split_and!; [lia|lia|done]|].
    intros (? & ? & ?). split; [lia|done]. }
  split; [cbn; lia|cbn; unfold running in Hd2; lia| | |done| |done| |].
  - cbn. constructor; [|done]. intros Hin%H4. lia.
  - intros j. cbn. intros [->|Hj%H4]%elem_of_cons; cbn; lia.
  - intros j sub Hj%He. by apply H6.
  - intros k c Hk. eapply supplied_mono; [|by apply H8]. intros j. by apply He.
  - intros k c Hk. eapply supplied_mono; [|by apply H9]. intros j. by apply He.
Qed.

Lemma inv_look tenantID req fails idx s s' : inv tenantID req s → look tenantID req fails idx s = Some s' → inv tenantID req s'.
Proof.
  intros [H1 H2 H3 H4 H5 H6 H7 H8 H9]. unfold look. case_decide as Hd; [|done]. intros [= <-].
  set (s' := Build_state _ _ _ _ _ _ _). assert (Hp : running s' ≡ₚ running s).
  { unfold running. cbn. unfold running in H3. apply NoDup_Permutation; [|done|].
    - apply NoDup_app in H3 as (Ha & Hb & Hc). apply NoDup_app. split_and!; [by apply without_nodup| |constructor; [by apply Hb|done]].
      intros j [Hj Hne]%without_spec [->|Hj']%elem_of_cons; [done|]. by apply (Hb j).
    - intros j. rewrite !elem_of_app, elem_of_cons, without_spec. destruct (decide (j = idx)) as [->|]; naive_solver. }
  assert (He : ∀ j, ended s j ↔ ended s' j) by (intros j; unfold ended; by rewrite Hp).
  split; [done|by rewrite Hp|by rewrite Hp| |done| | | |].
  - intros j. rewrite Hp. apply H4.
  - intros j sub Hj%He. by apply H6.
  - intros j got. unfold s'. cbn [seen]. rewrite lookup_insert_Some. intros [[<- <-]|[_ Hj]]; [|by apply H7].
    intros c. destruct fails; [done|]. destruct (Requests req !! idx) as [sub|] eqn:Es; [|done]. cbn [mbind option_bind].
    destruct (cache_key tenantID idx sub) as [k|] eqn:Ek; [|done]. intros [Hf|(j & [_ Hj] & Hw)]%H8; exists sub, k; (split_and!; [done|done|]); [by left|].
    right. exists j. split; [|done]. intros ->. apply Hj. unfold running. apply elem_of_app. by left.
  - intros k c Hk. eapply supplied_mono; [|by apply H8]. intros j. by apply He.
  - intros k c Hk. eapply supplied_mono; [|by apply H9]. intros j. by apply He.
Qed.

Lemma inv_finish tenantID req fails idx s s' : inv tenantID req s → finish tenantID req fails idx s = Some s' → inv tenantID req s'.
Proof.
  intros [H1 H2 H3 H4 H5 H6 H7 H8 H9]. unfold finish. case_decide as Hd; [|done]. destruct (Requests req !! idx) as [sub|] eqn:Es; [|done].
  destruct (runOne tenantID idx sub (default None (seen s !! idx))) as [item write] eqn:Er. intros [= <-].
  set (s' := Build_state _ _ _ _ _ _ _). assert (Hin : idx ∈ running s) by (apply elem_of_app; by right).
  assert (Hsub : ∀ j, j ∈ running s' ↔ j ∈ running s ∧ j ≠ idx).
  { intros j. unfold running in *. cbn. rewrite !elem_of_app, without_spec. apply NoDup_app in H3 as (_ & Hb & _).
    split; [|naive_solver]. intros [Hj|[Hj Hne]]; [|naive_solver]. split; [by left|]. intros ->. by apply (Hb idx). }
  assert (Hnew : ended s' idx) by (split; [by apply H4|rewrite Hsub; naive_solver]).
  assert (He : ∀ j, ended s j → ended s' j) by (intros j [Hj Hn]; split; [done|rewrite Hsub; naive_solver]).
  assert (Hent : ∀ k c, (k, c) ∈ match cache_key tenantID idx sub, write with Some k, Some c => [(k, c)] | _, _ => [] end → supplied tenantID req s' k c).
  { intros k c. destruct (cache_key tenantID idx sub) as [k'|] eqn:Ek; [|set_solver]. destruct write as [c'|]; [|set_solver].
    rewrite list_elem_of_singleton. intros [= -> ->]. right. exists idx. split; [done|]. eapply (runOne_writes _ _ _ _ _ _ _ Es Ek). by rewrite Er. }
  split; [done| | | | | |done| |].
  - unfold running in *. cbn. rewrite length_app in *. pose proof (without_shorter _ _ Hd). lia.
  - unfold running in *. cbn. apply NoDup_app in H3 as (Ha & Hb & Hc). apply NoDup_app. split_and!; [done| |by apply without_nodup].
    intros j Hj [Hj' _]%without_spec. by apply (Hb j).
  - intros j [Hj _]%Hsub. by apply H4.
  - unfold s'. cbn. by rewrite length_insert.
  - intros j sub' Hj Hj'. unfold s'. cbn [slots]. destruct (decide (j = idx)) as [->|Hne].
    + rewrite list_lookup_insert_eq by (rewrite H5; by eapply lookup_lt_Some). rewrite Es in Hj'. injection Hj' as <-.
      exists (default None (seen s !! idx)). rewrite Er. split; [done|]. destruct (seen s !! idx) as [got|] eqn:Eg; [by apply H7|done].
    + rewrite list_lookup_insert_ne by done. apply H6; [|done]. destruct Hj as [Hj Hn]. split; [done|]. intros Hr. apply Hn, Hsub. done.
  - intros k c. unfold s'. cbn [cache]. destruct (warm || fails); [intros Hk%H8; by eapply supplied_mono|].
    destruct (cache_key tenantID idx sub) as [k'|]; [destruct write as [c'|]|]; cbn; try (intros Hk%H8; by eapply supplied_mono).
    rewrite lookup_insert_Some. intros [[<- <-]|[_ Hk%H8]]; [apply Hent; set_solver|by eapply supplied_mono].
  - intros k c. unfold s'. cbn [warming]. destruct warm; [rewrite elem_of_app; intros [Hk|Hk]; [by apply Hent|]|intros Hk]; (eapply supplied_mono; [exact He|by apply H9]).
Qed.

Lemma inv_land tenantID req fails i s s' : inv tenantID req s → land fails i s = Some s' → inv tenantID req s'.
Proof.
  intros [H1 H2 H3 H4 H5 H6 H7 H8 H9]. unfold land. destruct (warming s !! i) as [[k c]|] eqn:Ew; [|done]. intros [= <-].
  split; try done.
  - intros k' c'. cbn [cache]. destruct fails; [apply H8|]. rewrite lookup_insert_Some. intros [[<- <-]|[_ Hk]]; [|by apply H8].
    apply H9. by eapply list_elem_of_lookup_2.
  - intros k' c'. cbn [warming]. intros Hk. apply H9. rewrite (delete_Permutation _ _ _ Ew). by right.
Qed.

Lemma inv_step tenantID req s s' : inv tenantID req s → step tenantID req s s' → inv tenantID req s'.
Proof. intros Hi Hst. destruct Hst; eauto using inv_launch, inv_look, inv_finish, inv_land. Qed.

Lemma inv_others tenantID req s c : inv tenantID req s → fits (cache s) c → inv tenantID req (set_cache c s).
Proof.
  intros [H1 H2 H3 H4 H5 H6 H7 H8 H9] Hf. split; try done. intros k e. cbn [cache set_cache]. intros [Hk|Hk]%Hf; [by apply H8|by left].
Qed.

Lemma inv_schedule tenantID req n s s' : inv tenantID req s → schedule tenantID req n s s' → inv tenantID req s'.
Proof. intros Hi Hs. induction Hs; eauto using inv_step, inv_others. Qed.

(** A sub-request costs at most a launch, a read, an end and a write left behind. *)
Definition work (req : BatchRequest) (s : state) : nat :=
  4 * (length (Requests req) - next s) + 3 * length (started s) + 2 * length (reading s) + length (warming s).

Lemma step_work tenantID req s s' : step tenantID req s s' → S (work req s') ≤ work req s.
Proof.
  unfold work. intros [s0 s1 E|fails idx s0 s1 E|fails idx s0 s1 E|fails i s0 s1 E].
  - unfold launch in E. case_decide as Hd; [|done]. injection E as <-. cbn. lia.
  - unfold look in E. case_decide as Hd; [|done]. injection E as <-. cbn. pose proof (without_shorter _ _ Hd). lia.
  - unfold finish in E. case_decide as Hd; [|done]. destruct (Requests req !! idx) as [sub|]; [|done]. destruct (runOne _ _ _ _) as [item write]. injection E as <-.
    cbn [next started reading warming]. pose proof (without_shorter _ _ Hd). destruct warm; [rewrite length_app|lia].
    assert (length match cache_key tenantID idx sub, write with Some k, Some c => [(k, c)] | _, _ => [] end ≤ 1); [|lia].
    destruct (cache_key tenantID idx sub); [destruct write|]; cbn; lia.
  - unfold land in E. destruct (warming s0 !! i) as [[k c]|] eqn:Ew; [|done]. injection E as <-. cbn. pose proof (lookup_lt_Some _ _ _ Ew).
    rewrite length_delete by (by eexists). lia.
Qed.
Lemma schedule_work tenantID req n s s' : schedule tenantID req n s s' → n + work req s' ≤ work req s.
Proof.
  induction 1 as [s|n s s1 s' Hst _ IH|n s c s' _ _ IH]; [lia| |exact IH]. pose proof (step_work _ _ _ _ Hst). lia.
Qed.

Lemma step_progress tenantID req s : inv tenantID req s → waited req s ∨ ∃ s', step tenantID req s s'.
Proof.
  intros Hi. destruct (started s) as [|j l] eqn:Ea; [|right; eexists; apply (step_look _ _ false j); unfold look; rewrite decide_True by (rewrite Ea; left); done].
  destruct (reading s) as [|j l] eqn:Eb.
  - destruct (decide (next s = length (Requests req))) as [|Hn]; [left; split; [done|unfold running; by rewrite Ea, Eb]|]. right. pose proof (i_next _ _ _ Hi).
    assert (1 ≤ parallel req).
    { unfold parallel, DefaultBatchMaxParallel. destruct (Z.leb_spec (MaxParallel req) 0); lia. }
    eexists. apply step_launch. unfold launch. rewrite decide_True by (unfold running; rewrite Ea, Eb; cbn; lia). done.
  - assert (Hj : j < length (Requests req)).
    { pose proof (i_next _ _ _ Hi). pose proof (i_below _ _ _ Hi j) as Hb. unfold running in Hb. rewrite Ea, Eb in Hb. specialize (Hb ltac:(left)). lia. }
    apply lookup_lt_is_Some in Hj as [sub Es]. right. destruct (runOne tenantID j sub (default None (seen s !! j))) as [item write] eqn:Er.
    eexists. apply (step_finish _ _ false j). unfold finish. rewrite Es, Er. by case_decide as Hd; [|destruct Hd; rewrite Eb; left].
Qed.

Lemma waited_slots tenantID req s i sub : inv tenantID req s → waited req s → Requests req !! i = Some sub →
  ∃ got, slots s !! i = Some (Some (runOne tenantID i sub got).1) ∧ read_ok tenantID req i got.
Proof.
  intros Hi [Hn Hr] Hs. apply (i_slots _ _ _ Hi); [|done]. split; [rewrite Hn; by eapply lookup_lt_Some|rewrite Hr; apply not_elem_of_nil].
Qed.

(** C36: the goroutines of a batch share the semantic cache with each other and with the rest
    of the service. Whatever the entries in it, however the goroutines are scheduled, and
    whichever of their reads and writes of the cache fail: no more of them run at a time
    than the batch allows; the batch cannot get stuck, and makes at most four steps per
    sub-request (its start, its read of the cache, its end, and the write it may leave to
    another goroutine); and when it has ended, the slot of each sub-request holds the answer
    to that sub-request, under its own index, for what it read from the cache. That is
    nothing, or an entry under its own key that some other user of the cache left there or
    that another sub-request of the batch computed and wrote under the same key. *)
Theorem batch_schedules tenantID req cache0 n s :
  (∀ k c, cache0 !! k = Some c → foreign k c) →
  schedule tenantID req n (init cache0 req) s →
  n ≤ 4 * length (Requests req) ∧ length (running s) ≤ parallel req ∧
  (waited req s ∨ ∃ s', step tenantID req s s') ∧
  (waited req s → length (slots s) = length (Requests req) ∧
   ∀ i sub, Requests req !! i = Some sub →
     ∃ got, slots s !! i = Some (Some (runOne tenantID i sub got).1) ∧
       ∀ c, got = Some c → ∃ k, cache_key tenantID i sub = Some k ∧
         (foreign k c ∨ ∃ j other, j ≠ i ∧ Requests req !! j = Some other ∧ cache_key tenantID j other = Some k ∧ (runOne tenantID j other None).2 = Some c)).
Proof.
  intros Hf Hs. pose proof (schedule_work _ _ _ _ _ Hs) as Hw. apply inv_schedule in Hs; [|by apply inv_init].
  split_and!; [unfold work in Hw; cbn in Hw; lia|by apply i_running in Hs|by apply step_progress|].
  intros Hwait. split; [by apply i_length in Hs|]. intros i sub Hi. destruct (waited_slots _ _ _ _ _ Hs Hwait Hi) as (got & Hg & Hr).
  exists got. split; [done|]. intros c Hc. destruct (Hr c Hc) as (sub' & k & Hi' & Hk & Ho). assert (sub' = sub) as -> by congruence. exists k. split; [done|].
  destruct Ho as [Ho|(j & Hne & other & Hj & Hkj & Hwj)]; [by left|]. right. by exists j, other.
Qed.

(** The sequential schedule is one of them. *)
Lemma in_turn_schedule tenantID req fuel s : ∃ n, schedule tenantID req n s (in_turn tenantID req fuel s).
Proof.
  revert s. induction fuel as [|fuel IH]; intros s; cbn [in_turn]; [eexists; apply schedule_done|].
  destruct (launch req s) as [s1|] eqn:E1; [|eexists; apply schedule_done]. cbn [mbind option_bind].
  destruct (look tenantID req false (next s) s1) as [s2|] eqn:E2; [|eexists; apply schedule_done]. cbn [mbind option_bind].
  destruct (finish tenantID req false (next s) s2) as [s3|] eqn:E3; [|eexists; apply schedule_done]. destruct (IH s3) as [n Hn].
  exists (S (S (S n))). by econstructor; [eapply step_launch|econstructor; [eapply step_look|econstructor; [eapply step_finish|]]].
Qed.
Lemma in_turn_waited tenantID req fuel s : inv tenantID req s → running s = [] → length (Requests req) ≤ next s + fuel → waited req (in_turn tenantID req fuel s).
Proof.
  revert s. induction fuel as [|fuel IH]; intros s Hi Hr Hn; cbn [in_turn].
  { split; [|done]. pose proof (i_next _ _ _ Hi). lia. }
  destruct (decide (next s = length (Requests req))) as [He|He].
  { unfold launch. rewrite decide_False by lia. done. }
  pose proof (i_next _ _ _ Hi). assert (Hlt : next s < length (Requests req)) by lia. apply lookup_lt_is_Some in Hlt as [sub Es].
  destruct (proj1 (app_nil _ _) Hr) as [Ha Hb].
  destruct (launch req s) as [s1|] eqn:E1; cycle 1.
  { exfalso. unfold launch in E1. rewrite decide_True in E1; [done|]. split; [lia|]. unfold running. rewrite Ha, Hb. cbn.
    unfold parallel, DefaultBatchMaxParallel. destruct (Z.leb_spec (MaxParallel req) 0); lia. }
  assert (Hi1 : inv tenantID req s1) by (by eapply inv_launch). unfold launch in E1. case_decide; [|done]. injection E1 as <-. cbn [mbind option_bind].
  destruct (look tenantID req false (next s) _) as [s2|] eqn:E2; cycle 1.
  { exfalso. unfold look in E2. rewrite decide_True in E2 by (cbn; left). done. }
  assert (Hi2 : inv tenantID req s2) by (by eapply inv_look). unfold look in E2. case_decide; [|done]. injection E2 as <-. cbn [mbind option_bind].
  destruct (finish tenantID req false (next s) _) as [s3|] eqn:E3; cycle 1.
  { exfalso. unfold finish in E3. rewrite Es in E3. destruct (runOne _ _ _ _) in E3. case_decide as Hd; [done|]. apply Hd. cbn. left. }
  assert (Hi3 : inv tenantID req s3) by (by eapply inv_finish). unfold finish in E3. rewrite Es in E3. destruct (runOne _ _ _ _) in E3. case_decide; [|done]. injection E3 as <-.
  apply IH; [done| |cbn; lia]. unfold running. cbn. by rewrite Ha, Hb, Nat.eqb_refl.
Qed.

(** ** Safety of the endpoint *)

Lemma with_mode_hits resp : r_Hits (with_mode resp) = r_Hits resp.
Proof. unfold with_mode. by destruct (str_empty _). Qed.
Lemma with_mode_named resp : p_PrivacyMode (Policy (with_mode resp)) ≠ EmptyString.
Proof. unfold with_mode. destruct (str_empty (p_PrivacyMode (Policy resp))) eqn:E; [done|]. by apply str_empty_false. Qed.

(** What a sub-request writes has distinct ids. *)
Lemma runOne_distinct tenantID j sub got c : (∀ l, iterate l ≡ₚ l) → (runOne tenantID j sub got).2 = Some c → PolicyGate.distinct c.
Proof.
  intros Hit. unfold runOne. destruct (str_empty (Query sub)); [done|]. destruct (resolve _ _ _) as [snapshot|]; [|done].
  destruct (Experiments.RetrieveWithSnapshotCached _ _ _ _ _ _ _ _) as [[[resp write] tag]|] eqn:E; [|done]. cbn [snd]. intros ->. revert E.
  unfold Experiments.RetrieveWithSnapshotCached. destruct (str_empty tenantID); [done|]. destruct (str_empty (Query sub)); [done|].
  destruct (Experiments.resolveExperiment _ _ _) as [route req]. unfold RetrieveWithSnapshotCached. destruct (str_empty tenantID); [done|].
  destruct (str_empty (Query req)); [done|]. destruct (resolveTopKAndPrivacy _ _ _) as [[topK mode]|]; [|done]. cbn [result_bind]. destruct (negb _); [done|].
  unfold sees. cbn [e_cache e_answers]. destruct caching; [|destruct (runPipelineFromVec _ _ _ _ _ _ _ _); done]. destruct got; [done|].
  destruct (runPipelineFromVec _ _ _ _ _ _ _ _) as [r|] eqn:Ep; [|done]. cbn [result_bind]. destruct (negb _); [|done]. intros [= _ <- _].
  destruct (runPipeline_accounts _ _ _ _ _ _ _ _ _ Hit Ep) as (_ & Hd & _). unfold PolicyGate.distinct, cachedFromResponse. cbn [Match.Hits].
  by rewrite <- list_fmap_compose.
Qed.

Lemma runOne_clean tenantID i sub got resp :
  (0 ≤ DefaultTopK cfg)%Z → (0 < MaxTopK cfg)%Z → (∀ c, got = Some c → PolicyGate.distinct c) →
  outcome (runOne tenantID i sub got).1 = Ok resp →
  p_PrivacyMode (Policy resp) ≠ EmptyString ∧
  ∃ snapshot mode, resolve i tenantID (firstNonEmpty (Channels sub)) = Ok snapshot ∧
    (EffectiveMode snapshot ≠ EmptyString → mode = EffectiveMode snapshot) ∧
    ∀ h, h ∈ r_Hits resp → clean cfg regexp_other mode snapshot (SkillID sub) h.
Proof.
  intros Hdk Hmk Hd. unfold runOne. destruct (str_empty (Query sub)); [done|].
  destruct (resolve i tenantID (firstNonEmpty (Channels sub))) as [snapshot|]; [|done].
  destruct (Experiments.RetrieveWithSnapshotCached _ _ _ _ _ _ _ _) as [[[resp' write] tag]|e] eqn:Er; [|done]. intros [= <-]. split; [apply with_mode_named|].
  destruct (Experiments.experiments_stay_safe _ _ _ _ _ _ _ (sees i got) _ _ _ Hdk Hmk ltac:(unfold sees; cbn; destruct caching; naive_solver) Er) as (topK & mode & Hm & Hc & _).
  exists snapshot, mode. rewrite with_mode_hits. done.
Qed.

Lemma runOne_index tenantID i sub got : Index (runOne tenantID i sub got).1 = i.
Proof. unfold runOne. destruct (str_empty _); [done|]. destruct (resolve _ _ _); [|done]. by destruct (Experiments.RetrieveWithSnapshotCached _ _ _ _ _ _ _ _) as [[[??]?]|]. Qed.

(** However it is scheduled, an accepted batch answers every sub-request under its own
    index: with an error, or with hits of which each is admitted by the policy that was
    resolved for the channel of that sub-request, whoever computed them, under a mode that
    is never empty. *)
Theorem batch_is_safe tenantID req cache0 n s items :
  (0 ≤ DefaultTopK cfg)%Z → (0 < MaxTopK cfg)%Z → (∀ l, iterate l ≡ₚ l) →
  (∀ k c, foreign k c → PolicyGate.distinct c) → (∀ k c, cache0 !! k = Some c → foreign k c) →
  schedule tenantID req n (init cache0 req) s → waited req s →
  retrieveBatch (λ _ _, slots s) (Some tenantID) (Ok req) = BatchOK items →
  (1 ≤ length (Requests req) ≤ 32) ∧ length items = length (Requests req) ∧
    ∀ i sub, Requests req !! i = Some sub →
      ∃ item, items !! i = Some (Some item) ∧ Index item = i ∧
        ∀ resp, outcome item = Ok resp → p_PrivacyMode (Policy resp) ≠ EmptyString ∧
          ∃ snapshot mode, resolve i tenantID (firstNonEmpty (Channels sub)) = Ok snapshot ∧
            (EffectiveMode snapshot ≠ EmptyString → mode = EffectiveMode snapshot) ∧
            ∀ h, h ∈ r_Hits resp → clean cfg regexp_other mode snapshot (SkillID sub) h.
Proof.
  intros Hdk Hmk Hit Hfd Hf Hs Hw. unfold retrieveBatch.
  destruct (Z.ltb_spec MaxBatchSize (Z.of_nat (length (Requests req)))) as [|Hmax]; [done|].
  destruct (ValidateBatchRequest (Some req)) as [p|] eqn:Ev; [done|]. intros [= <-]. apply inv_schedule in Hs; [|by apply inv_init].
  split; [split; [|by unfold MaxBatchSize in Hmax; lia]|].
  { cbn [ValidateBatchRequest] in Ev. destruct (Requests req); [done|cbn; lia]. }
  split; [by apply i_length in Hs|]. intros i sub Hi. destruct (waited_slots _ _ _ _ _ Hs Hw Hi) as (got & Hg & Hr).
  eexists. split; [exact Hg|]. split; [apply runOne_index|]. intros resp. apply runOne_clean; [done|done|]. intros c Hc.
  destruct (Hr c Hc) as (_ & k & _ & _ & [Ho|(j & _ & other & _ & _ & Hwj)]); [by eapply Hfd|]. by eapply runOne_distinct.
Qed.
End Run.
End Batch.

(** ** On concrete inputs *)

Module BatchSamples.
Import Snapshot Handler Batch.

Definition asked (query : string) : RetrieveRequest :=
  {| Query := query; TopK := 0; rq_Sources := []; Channels := []; Documents := []; PrivacyMode := ""; SkillID := "s"; DeviceTier := ""; Diversity := f_zero;
     ExperimentName := ""; ExperimentBucketKey := "" |}.
Definition twice : BatchRequest := {| Requests := [asked "a"; asked "b"; asked "a"]; MaxParallel := 2 |}.
Definition open_policy (i : nat) (t c : string) : result PolicySnapshot unit := if Nat.eqb i 1 then Err tt else Ok Snapshot.empty.
(** The backends find nothing for the third sub-request. *)
Definition answers (i : nat) : Environment :=
  {| e_embed := true; e_answers := if Nat.eqb i 2 then [] else e_answers sample_env; e_cache := Some None; e_shard := None |}.
Definition hex (l : bytes) : string := of_bytes (take 8 l).
Definition embedding (i : nat) : list float := [].
Definition run (cache : gmap string Match.CachedResult) (req : BatchRequest) : list (option BatchResultItem) :=
  @RunBatch the_reranker the_diversifier sample_cfg (λ _ _, false) id None open_policy answers hex id "hf:" embedding true false cache "t" req.
Definition finished : state :=
  @in_turn the_reranker the_diversifier sample_cfg (λ _ _, false) id None open_policy answers hex id "hf:" embedding true false "t" twice 3 (init ∅ twice).
Definition nobody (k : string) (c : Match.CachedResult) : Prop := False.

Definition hit_ids (i : option BatchResultItem) : list string := match i with Some {| outcome := Ok r |} => h_ID <$> r_Hits r | _ => [] end.

(** The third sub-request asks what the first asked, and is served from the entry that the
    first one wrote: the backends would have given it nothing. *)
Lemma batch_schedules_witness :
  waited twice finished ∧ length (slots finished) = 3 ∧
  match slots finished with
  | [Some a; Some b; Some c] => hit_ids (Some c) = hit_ids (Some a) ∧ length (hit_ids (Some c)) = 2 ∧ outcome b = Err PolicyResolveFailed ∧ Index c = 2
  | _ => False
  end.
Proof.
  destruct (@in_turn_schedule the_reranker the_diversifier sample_cfg (λ _ _, false) id None open_policy answers hex id "hf:"%string embedding true false nobody "t"%string twice 3 (init ∅ twice))
    as [n Hn].
  destruct (@batch_schedules the_reranker the_diversifier sample_cfg (λ _ _, false) id None open_policy answers hex id "hf:"%string embedding true false nobody "t"%string twice ∅ n _
    ltac:(intros k c E; rewrite lookup_empty in E; discriminate E) Hn) as (_ & _ & _ & Hw).
  assert (Hwait : waited twice finished) by (split; vm_compute; reflexivity).
  split; [exact Hwait|]. split; [exact (proj1 (Hw Hwait))|]. vm_compute. split_and!; reflexivity.
Defined.

(** Two goroutines run at once, and both read before either writes. *)
Example both_miss :
  let look := @look sample_cfg None open_policy hex id "hf:" embedding "t" twice false in
  match ((launch twice (init ∅ twice) ≫= launch twice) ≫= look 0) ≫= look 1 with
  | Some s => running s = [1; 0] ∧ seen s !! 0 = Some None ∧ launch twice s = None
  | None => False
  end.
Proof. vm_compute. split_and!; reflexivity. Qed.

Example batch_items :
  match retrieveBatch (λ _ req, run ∅ req) (Some "t"%string) (Ok twice) with
  | BatchOK [Some a; Some b; Some c] => Index c = 2 ∧ outcome b = Err PolicyResolveFailed ∧ match outcome a with Ok r => length (r_Hits r) = 2 | _ => False end
  | _ => False
  end.
Proof. vm_compute. split_and!; reflexivity. Qed.

Definition fields_of (r : option PayloadError) : list string := match r with Some l => Field <$> l | None => [] end.
Example rejected_fields :
  fields_of (ValidateBatchRequest (Some {| Requests := [asked "a"; asked " "]; MaxParallel := -1 |})) = ["max_parallel"; "requests[1].query"]%string.
Proof. vm_compute. reflexivity. Qed.

(** A batch applies no pins and shares its cache entries with the single endpoint, which
    applies them before it writes an entry and not when it reads one: after a batch asked
    the query, the pinned chunk is gone. *)
Definition pin : Pins.Pin := {| Pins.ChunkID := "pinned"; Pins.Position := 0 |}.
Definition single (cache : option CachedResult) : list string :=
  match @retrieve the_reranker the_diversifier sample_cfg (λ _ _, false) id id (Some "t"%string) (asked "a") (Ok Snapshot.empty)
          {| e_embed := true; e_answers := e_answers sample_env; e_cache := Some cache; e_shard := None |} [pin] with
  | OK resp _ => h_ID <$> r_Hits resp
  | _ => []
  end.
Example batch_fill_hides_pins :
  match Experiments.RetrieveWithSnapshotCached (H := the_reranker) (H0 := the_diversifier) sample_cfg (λ _ _, false) id None "t" (asked "a") Snapshot.empty sample_env with
  | Ok (_, Some entry, _) => "pinned"%string ∈ single None ∧ "pinned"%string ∉ single (Some entry) ∧ single (Some entry) ≠ []
  | _ => False
  end.
Proof. vm_compute. split_and!; [set_solver|set_solver|discriminate]. Qed.

(** The name of an experiment, which is recorded, has no bound. *)
Example experiment_name_is_unbounded (name : string) :
  ValidateRetrieveRequest (Some {| Query := "a"; TopK := 0; rq_Sources := []; Channels := []; Documents := []; PrivacyMode := ""; SkillID := ""; DeviceTier := "";
    Diversity := f_zero; ExperimentName := name; ExperimentBucketKey := "" |}) = None.
Proof. reflexivity. Qed.
End BatchSamples.
