(* ===== verification/Synonyms.v ===== *)
(** * Synonyms of a tenant

    retrieval/query_expander.go: the expansion of a query by the synonyms of its words
    and the in-memory store; retrieval/synonym_store_gorm.go: the table behind it;
    admin/synonyms_handler.go: the endpoints that read and replace a tenant's synonyms;
    [expandQuery] of retrieval/abtest_apply.go. The code iterates over maps: an input map
    is a list of its entries, without duplicate keys, in the order the iteration takes. *)

From Stdlib Require Import Ascii.
From S2P Require Import Prelude GoString GoText Effects Diversifier ModelStages.

Module Synonyms.

Section Text.
Context `{Unicode}.
(** The representative of a rune among those that differ in case only. *)
Context (fold : N → N).

Definition ToLower (s : string) : string := of_bytes (lower_runes s ≫= Fallback.encode_rune).
Definition EqualFold (s t : string) : bool := bool_decide (fold <$> runes (to_bytes s) = fold <$> runes (to_bytes t)).
(** The words of a query. *)
Definition words (query : string) : list string := (λ tok, of_bytes (tok ≫= Fallback.encode_rune)) <$> MMR.fields [] (runes (to_bytes query)).

(** ** Expansion *)

Definition appended (limit : nat) (key : string) (alts : list string) (additions : list string) : list string :=
  foldl (λ acc alt, if (limit <=? length acc)%nat then acc
                    else if str_empty alt || EqualFold alt key then acc else acc ++ [alt]) additions alts.
Fixpoint expand_words (limit : nat) (syns : gmap string (list string)) (toks : list string) (additions : list string) : list string :=
  match toks with
  | [] => additions
  | tok :: rest =>
      let key := ToLower tok in
      match syns !! key with
      | None => expand_words limit syns rest additions
      | Some alts =>
          let additions := appended limit key alts additions in
          if (limit <=? length additions)%nat then additions else expand_words limit syns rest additions
      end
  end.

(** [appendLimit] with its default. *)
Definition NewSynonymExpander (appendLimit : Z) : nat := if (appendLimit <=? 0)%Z then 4 else Z.to_nat appendLimit.

(** The expanded query and the error that comes beside it; [got] is the store's answer. *)
Definition Expand (limit : nat) (tenantID query : string) (got : result (gmap string (list string)) string) : string * option string :=
  if str_empty tenantID || str_empty (trim_space query) then (query, None)
  else match got with
       | Err e => (query, Some e)
       | Ok syns =>
           if decide (syns = ∅) then (query, None)
           else match expand_words limit syns (words query) [] with
                | [] => (query, None)
                | additions => (str_app query (str_app " " (str_join additions " ")), None)
                end
       end.

(** The handler's fallback. *)
Definition expandQuery (expander : option (string → string → string * option string)) (tenantID query : string) : string :=
  match expander with
  | None => query
  | Some f => match f tenantID query with (exp, None) => if str_empty exp then query else exp | (_, Some _) => query end
  end.

Definition term_key (term : string) : string := ToLower (trim_space term).
End Text.

(** ** Stores *)

Module Memory.
Section Store.
Context `{Unicode}.
Abbreviation Data := (gmap string (gmap string (list string))) (only parsing).
Definition Get (tenantID : string) (s : Data) : gmap string (list string) := default ∅ (s !! tenantID).
(** A later entry of one key replaces an earlier one. *)
Definition Set_ (tenantID : string) (synonyms : option (list (string * list string))) (s : Data) : Data :=
  match synonyms with
  | None => delete tenantID s
  | Some l => <[tenantID := foldl (λ m kv, <[term_key kv.1 := kv.2]> m) ∅ l]> s
  end.
End Store.
End Memory.

Module Gorm.
Abbreviation Table := (gmap (string * string) (list string)) (only parsing).
Definition of_tenant (tenantID : string) (t : Table) : gmap string (list string) :=
  list_to_map (omap (λ '(k, v), if str_eqb k.1 tenantID then Some (k.2, v) else None) (map_to_list t)).
Definition new_rows `{Unicode} (synonyms : list (string * list string)) : list (string * list string) :=
  List.filter (λ kv, negb (str_empty kv.1)) ((λ kv, (term_key kv.1, kv.2)) <$> synonyms).
Definition replaced (tenantID : string) (rows : list (string * list string)) (t : Table) : Table :=
  list_to_map ((λ kv, ((tenantID, kv.1), kv.2)) <$> rows) ∪ filter (λ kv, kv.1.1 ≠ tenantID) t.
(** Two rows with one primary key. *)
Definition clash (rows : list (string * list string)) : bool := negb (bool_decide (NoDup rows.*1)).

Section Store.
Context `{Unicode} `{Outside}.
Abbreviation M := (Eff (gmap (string * string) (list string)) string) (only parsing).
Definition Get (tenantID : string) : M (gmap string (list string)) :=
  if str_empty tenantID then eret ∅ else eread "db" (of_tenant tenantID).
(** The transaction deletes the tenant's rows and creates the new ones, or does nothing. *)
Definition Set_ (tenantID : string) (synonyms : list (string * list string)) : M unit :=
  if str_empty tenantID then ethrow "synonym_store_gorm: missing tenant_id"
  else let rows := new_rows synonyms in
       if clash rows then ethrow "duplicate key value violates unique constraint"
       else ewrite "db" (replaced tenantID rows).
End Store.
End Gorm.

(** ** Endpoints *)

Section Endpoints.
Context `{Unicode} `{Outside}.
Abbreviation M := (Eff (gmap (string * string) (list string)) string) (only parsing).
Inductive response := Unauthorized | BadRequest | InternalServerError (e : string) | Listed (m : gmap string (list string)) | Replaced (keys : nat).
Definition list_synonyms (tenantID : option string) : M response :=
  match tenantID with
  | None => eret Unauthorized
  | Some t => λ w, match Gorm.Get t w with (Ok m, w') => (Ok (Listed m), w') | (Err e, w') => (Ok (InternalServerError e), w') end
  end.
(** The rows handed to the audit log; its failure is ignored. *)
Record audit_row := { a_tenant : string; a_actor : string; a_keys : nat }.
(** [None] is a body without synonyms. *)
Definition set_synonyms (tenantID : option string) (actorID : string) (body : option (list (string * list string))) : M (response * list audit_row) :=
  match tenantID, body with
  | None, _ => eret (Unauthorized, [])
  | _, None => eret (BadRequest, [])
  | Some t, Some l => λ w,
      match Gorm.Set_ t l w with
      | (Ok _, w') => (Ok (Replaced (length l), [{| a_tenant := t; a_actor := actorID; a_keys := length l |}]), w')
      | (Err e, w') => (Ok (InternalServerError e, []), w')
      end
  end.
End Endpoints.

Section Expansion.
Context `{Unicode} (fold : N → N).

(** ** The loops add the first synonyms of the words *)

Definition alternatives (key : string) (alts : list string) : list string := List.filter (λ alt, negb (str_empty alt || EqualFold fold alt key)) alts.
Definition all_alternatives (syns : gmap string (list string)) (toks : list string) : list string :=
  toks ≫= λ tok, alternatives (ToLower tok) (default [] (syns !! ToLower tok)).

Lemma appended_cons limit key alt alts acc :
  appended fold limit key (alt :: alts) acc =
  appended fold limit key alts (if (limit <=? length acc)%nat then acc else if str_empty alt || EqualFold fold alt key then acc else acc ++ [alt]).
Proof. done. Qed.
Lemma alternatives_cons key alt alts :
  alternatives key (alt :: alts) = if str_empty alt || EqualFold fold alt key then alternatives key alts else alt :: alternatives key alts.
Proof. unfold alternatives. simpl. by destruct (_ || _). Qed.

Lemma appended_take limit key alts acc : length acc ≤ limit → appended fold limit key alts acc = take limit (acc ++ alternatives key alts).
Proof.
  revert acc. induction alts as [|alt alts IH]; intros acc Hl; [by rewrite app_nil_r, take_ge|].
  rewrite appended_cons, alternatives_cons. destruct (Nat.leb_spec limit (length acc)) as [Hle|Hlt].
  - rewrite IH by done. by rewrite !take_app_le by lia.
  - destruct (str_empty alt || EqualFold fold alt key); [by apply IH|].
    rewrite IH by (rewrite length_app; simpl; lia). by rewrite <- app_assoc.
Qed.

Lemma expand_words_take limit syns toks acc : length acc ≤ limit → expand_words fold limit syns toks acc = take limit (acc ++ all_alternatives syns toks).
Proof.
  revert acc. induction toks as [|tok toks IH]; intros acc Hl; cbn [expand_words].
  { by rewrite app_nil_r, take_ge. }
  change (all_alternatives syns (tok :: toks)) with (alternatives (ToLower tok) (default [] (syns !! ToLower tok)) ++ all_alternatives syns toks).
  destruct (syns !! ToLower tok) as [alts|]; cbn [default]; [|by apply IH]. rewrite appended_take by done. rewrite app_assoc.
  set (l := acc ++ alternatives (ToLower tok) alts). destruct (Nat.leb_spec limit (length (take limit l))) as [Hle|Hlt].
  - rewrite (take_app_le l); [done|]. rewrite length_take in Hle. lia.
  - rewrite length_take in Hlt. rewrite IH by (rewrite length_take; lia). by rewrite (take_ge l) by lia.
Qed.

(** The expansion is additive: the query as it was, followed by the first [limit]
    synonyms of its words, in their order, over the whole query. *)
Theorem Expand_exact limit tenantID query syns :
  tenantID ≠ EmptyString → trim_space query ≠ EmptyString →
  Expand fold limit tenantID query (Ok syns) =
    (match take limit (all_alternatives syns (words query)) with
     | [] => query
     | l => str_app query (str_app " " (str_join l " "))
     end, None).
Proof.
  intros Ht Hq. unfold Expand. rewrite (proj2 (str_empty_false _) Ht), (proj2 (str_empty_false _) Hq). cbn [orb].
  case_decide as Hs.
  - subst syns. assert (E : all_alternatives ∅ (words query) = []); [|by rewrite E, take_nil].
    unfold all_alternatives. induction (words query) as [|t l IH]; [done|]. cbn. by rewrite lookup_empty.
  - rewrite expand_words_take by (simpl; lia). simpl. by destruct (take limit _).
Qed.

(** ** What a store promises *)

Definition normalised (l : list (string * list string)) : list (string * list string) := (λ kv, (term_key kv.1, kv.2)) <$> l.
(** Terms that stay distinct and are not blank. *)
Definition proper (l : list (string * list string)) : Prop := NoDup (normalised l).*1 ∧ EmptyString ∉ (normalised l).*1.

Class SynonymStore (S : Type) := {
  syn_get : string → S → gmap string (list string);
  syn_set : string → list (string * list string) → S → result S string;
  syn_set_get t l s : t ≠ EmptyString → proper l → ∃ s', syn_set t l s = Ok s' ∧ syn_get t s' = list_to_map (normalised l);
  syn_set_other t t' l s s' : t ≠ t' → syn_set t l s = Ok s' → syn_get t' s' = syn_get t' s
}.

Lemma foldl_insert_fresh (l : list (string * list string)) (m : gmap string (list string)) :
  NoDup (normalised l).*1 → foldl (λ m kv, <[term_key kv.1 := kv.2]> m) m l = list_to_map (normalised l) ∪ m.
Proof.
  revert m. induction l as [|[k v] l IH]; intros m Hl; cbn; [by rewrite (left_id_L ∅ _)|]. cbn in Hl. apply NoDup_cons in Hl as [Hk Hl].
  rewrite IH by done. rewrite <- insert_union_r by (by apply not_elem_of_list_to_map_1). by rewrite insert_union_l.
Qed.

#[export, program] Instance memory_synonyms : SynonymStore (gmap string (gmap string (list string))) := {|
  syn_get := Memory.Get; syn_set t l s := Ok (Memory.Set_ t (Some l) s) |}.
Next Obligation.
  intros t l s _ [Hl _]. eexists. split; [done|]. unfold Memory.Get, Memory.Set_. rewrite lookup_insert_eq. cbn. by rewrite foldl_insert_fresh, (right_id_L ∅ _).
Qed.
Next Obligation. intros t t' l s s' Hne [= <-]. unfold Memory.Get, Memory.Set_. by rewrite lookup_insert_ne. Qed.

Lemma of_tenant_lookup (t k : string) (tbl : gmap (string * string) (list string)) : Gorm.of_tenant t tbl !! k = tbl !! (t, k).
Proof.
  unfold Gorm.of_tenant. set (l := omap _ _).
  assert (Hin : ∀ v, (k, v) ∈ l ↔ tbl !! (t, k) = Some v).
  { intros v. unfold l. rewrite list_elem_of_omap. split.
    - intros ([[t' k'] v'] & Hk & E). apply elem_of_map_to_list in Hk. simpl in E. destruct (str_eqb t' t) eqn:Et; [|done]. apply str_eqb_eq in Et. by simplify_eq.
    - intros Hk. exists ((t, k), v). split; [by apply elem_of_map_to_list|]. simpl. by rewrite str_eqb_refl. }
  assert (Hu : ∀ v v', (k, v) ∈ l → (k, v') ∈ l → v = v') by (intros v v' ?%Hin ?%Hin; congruence).
  destruct (tbl !! (t, k)) as [v|] eqn:E.
  - apply elem_of_list_to_map_1'; [|by apply Hin]. intros v' Hv'. by apply Hu; [apply Hin|].
  - apply not_elem_of_list_to_map_1. intros ([k' v] & -> & Hv)%list_elem_of_fmap. apply Hin in Hv. simpl in *. congruence.
Qed.

Lemma new_rows_proper l : proper l → Gorm.new_rows l = normalised l.
Proof.
  intros [_ He]. unfold Gorm.new_rows. fold (normalised l). induction (normalised l) as [|[k v] rows IH]; [done|].
  rewrite fmap_cons in He. apply not_elem_of_cons in He as [Hk Hl]. cbn [List.filter fst] in *. rewrite (proj2 (str_empty_false k)) by done. cbn [negb]. by rewrite IH.
Qed.

Definition gorm_set (t : string) (l : list (string * list string)) (tbl : gmap (string * string) (list string)) : result (gmap (string * string) (list string)) string :=
  if str_empty t then Err "synonym_store_gorm: missing tenant_id"
  else if Gorm.clash (Gorm.new_rows l) then Err "duplicate key value violates unique constraint"
  else Ok (Gorm.replaced t (Gorm.new_rows l) tbl).

#[export, program] Instance gorm_synonyms : SynonymStore (gmap (string * string) (list string)) := {|
  syn_get := Gorm.of_tenant; syn_set := gorm_set |}.
Next Obligation.
  intros t l s Ht Hl. unfold gorm_set. rewrite (proj2 (str_empty_false _) Ht), new_rows_proper by done. unfold Gorm.clash. rewrite bool_decide_true by apply Hl.
  eexists. split; [done|]. apply map_eq. intros k. rewrite of_tenant_lookup. unfold Gorm.replaced. rewrite lookup_union, map_lookup_filter_None_2 by (right; naive_solver).
  rewrite (right_id_L None _). generalize (normalised l). clear. intros rows. induction rows as [|[k' v] rows IH]; [done|]. cbn.
  destruct (decide (k = k')) as [->|Hne]; [by rewrite !lookup_insert_eq|]. by rewrite !lookup_insert_ne by congruence.
Qed.
Next Obligation.
  intros t t' l s s' Hne. unfold gorm_set. destruct (str_empty t); [done|]. destruct (Gorm.clash _); [done|]. intros [= <-]. apply map_eq. intros k.
  rewrite !of_tenant_lookup. unfold Gorm.replaced. rewrite lookup_union, not_elem_of_list_to_map_1, (left_id_L None _).
  - rewrite map_lookup_filter. destruct (s !! (t', k)); [|done]. simpl. by rewrite option_guard_True.
  - rewrite <- list_fmap_compose. intros (kv & E & _)%list_elem_of_fmap. simpl in E. naive_solver.
Qed.

(** The table of the database is changed as the interface says, or not at all. *)
Lemma Set_table `{Outside} t l w :
  store (Gorm.Set_ t l w).2 = store w ∨ gorm_set t l (store w) = Ok (store (Gorm.Set_ t l w).2).
Proof.
  unfold Gorm.Set_, gorm_set. destruct (str_empty t); [by left|]. destruct (Gorm.clash _); [by left|]. unfold ewrite, ecall. destruct (fate (calls_made w)); auto.
Qed.

(** What an administrator stores for a tenant, in whichever store and case, extends the
    queries of that tenant: every synonym of a word of the query is appended when the
    limit leaves room for all of them. *)
Theorem stored_synonyms_expand {T} `{SynonymStore T} t l (s : T) limit query term alts alt tok :
  t ≠ EmptyString → proper l → trim_space query ≠ EmptyString →
  (term, alts) ∈ l → alt ∈ alternatives (term_key term) alts → tok ∈ words query → ToLower tok = term_key term →
  ∃ s' additions, syn_set t l s = Ok s' ∧
    (length (all_alternatives (syn_get t s') (words query)) ≤ limit →
     alt ∈ additions ∧ Expand fold limit t query (Ok (syn_get t s')) = (str_app query (str_app " " (str_join additions " ")), None)).
Proof.
  intros Ht Hl Hq Hin Halt Htok Hk. destruct (syn_set_get t l s Ht Hl) as (s' & Hs & Hg).
  set (syns := list_to_map (normalised l) : gmap string (list string)) in *. exists s', (all_alternatives syns (words query)). rewrite Hg. split; [done|]. intros Hlim.
  assert (Hsyn : syns !! term_key term = Some alts).
  { apply elem_of_list_to_map_1; [apply Hl|]. apply list_elem_of_fmap. by exists (term, alts). }
  assert (Ha : alt ∈ all_alternatives syns (words query)).
  { apply list_elem_of_bind. exists tok. split; [|done]. by rewrite Hk, Hsyn. }
  split; [done|]. rewrite Expand_exact, take_ge by done. by destruct (all_alternatives syns (words query)); [set_solver|].
Qed.
End Expansion.
End Synonyms.

(** ** On concrete inputs *)

Module SynonymSamples.
Import Synonyms.
#[local] Existing Instance ascii_tables.
Definition stored (l : list (string * list string)) : gmap string (list string) := Memory.Get "acme" (Memory.Set_ "acme" (Some l) ∅).

Example vpn_is_expanded : Expand id 4 "acme" "Reset VPN" (Ok (stored [(" vpn ", ["tunnel"; ""; "VPN-Gate"])]%string)) = ("Reset VPN tunnel VPN-Gate"%string, None).
Proof. vm_compute. reflexivity. Qed.

(** The limit counts over the query, not over each word. *)
Example limit_is_per_query :
  Expand id 1 "acme" "vpn wifi" (Ok (stored [("vpn", ["tunnel"]); ("wifi", ["wlan"])]%string)) = ("vpn wifi tunnel"%string, None).
Proof. vm_compute. reflexivity. Qed.

(** A term of several words is stored, but no query is looked up by more than a word. *)
Example phrases_are_never_expanded :
  stored [("single sign on", ["sso"])]%string !! "single sign on"%string = Some ["sso"%string] ∧
  Expand id 4 "acme" "single sign on" (Ok (stored [("single sign on", ["sso"])]%string)) = ("single sign on"%string, None).
Proof. vm_compute. split; reflexivity. Qed.

(** Two spellings of a term make the database refuse the whole set; the store the tests use takes it. *)
Definition spellings : list (string * list string) := [("VPN", ["tunnel"]); ("vpn", ["gateway"])]%string.
Example spellings_are_refused :
  (Gorm.Set_ (H0 := calm) "acme" spellings {| store := ∅; calls_made := 0 |}).1 = Err "duplicate key value violates unique constraint"%string ∧
  stored spellings !! "vpn"%string = Some ["gateway"%string].
Proof. vm_compute. split; reflexivity. Qed.
End SynonymSamples.

