(* ===== verification/Microsoft.v ===== *)
(** * The connectors of Microsoft Graph

    connector/sharepoint/sharepoint.go, teams/teams.go, outlook/outlook.go and
    entra_id/entra_id.go: pages end with a link to the next one, and a change feed with
    the link that is the next cursor. The first two read one page of changes per call,
    the other two walk over the pages, of which there may be fifty. *)

From Stdlib Require Import Ascii.
From S2P Require Import Prelude GoString GoText Calendar GoTime Effects Json ConnectorBase Drives Suites.

Module OData.
Import Connector Token.

Definition defaultBaseURL : string := "https://graph.microsoft.com/v1.0".

(** A pointer to a struct without fields: any object, or nothing. *)
Definition d_flag (name : string) : decoder bool :=
  d_field name (λ j, match j with JObj _ => Some true | JNull => Some false | _ => None end) false.
Definition d_pointer (name : string) : decoder (option bool) :=
  d_field name (λ j, match j with JBool b => Some (Some b) | JNull => Some None | _ => None end) None.

Definition d_page {A} (d : decoder A) : decoder (list A * string) := λ j,
  get v from d_list_field "value" d j in get n from d_str_field "@odata.nextLink" j in Some (v, n).
Definition d_feed {A} (d : decoder A) : decoder (list A * string * string) := λ j,
  get v from d_list_field "value" d j in get e from d_str_field "@odata.deltaLink" j in
  get n from d_str_field "@odata.nextLink" j in Some (v, e, n).

Definition deleted_if (b : bool) : ChangeKind := if b then ChangeDeleted else ChangeUpserted.
Definition ref_of (ns id etag modified : string) : DocumentRef :=
  {| NamespaceID := ns; ID := id; ETag := etag; UpdatedAt := GoTime.parse_or_zero modified |}.
Definition changed (ns id modified : string) (gone : bool) : DocumentChange := {| ch_Kind := deleted_if gone; ch_Ref := ref_of ns id "" modified |}.

Section Requests.
Context `{Server}.

Definition get_ (who base token path : string) : Net Response :=
  http who {| Method := "GET"; URL := target base path; Authorization := str_app "Bearer " token; ReqBody := None |}.

(** *** Pages whose link is kept as it is *)

Record linked (C : Type) := { it_conn : C; it_ns : Namespace; nextURL : string; first : bool }.
#[global] Arguments it_conn {C} _.
#[global] Arguments it_ns {C} _.
#[global] Arguments nextURL {C} _.
#[global] Arguments first {C} _.

Definition fetch_linked {C} (who what decoded : string) (ask : C → string → Net Response) (start : C → Namespace → string) (d : Namespace → decoder DocumentRef) (it : linked C)
    : Net (fetched (linked C)) :=
  if first it && str_empty (nextURL it) then eret {| f_page := []; f_src := it; f_done := true; f_ret := false |}
  else
    let@ resp := ask (it_conn it) (if first it then nextURL it else start (it_conn it) (it_ns it)) in
    let@ _ := expect_ok who what resp in
    let@ body := read_body who decoded (d_page (d (it_ns it))) resp in
    eret (page_of body.1 (str_empty body.2)
            {| it_conn := it_conn it; it_ns := it_ns it; nextURL := if str_empty body.2 then nextURL it else body.2; first := true |}).

Lemma fetch_linked_empty {C} who what decoded (ask : C → string → Net Response) start d it w f w' :
  fetch_linked who what decoded ask start d it w = (Ok f, w') → f_ret f = false → f_page f = [].
Proof.
  unfold fetch_linked. destruct (first it && str_empty (nextURL it)); [by intros [= <- _]|]. intros Hf. net_inv Hf. injection Hf as <- _. apply page_kept.
Qed.

(** *** The walk over a change feed *)

Definition maxDeltaPages : nat := 50.
(** The cursor when the service gives none. *)
Definition kept (cursor path : string) : string := if str_empty cursor then path else cursor.

Fixpoint feed (who : string) (ask : string → Net (list DocumentChange * string * string)) (cursor : string) (fuel : nat) (path : string) (acc : list DocumentChange)
    : Net (list DocumentChange * string) :=
  match fuel with
  | O => ethrow (Failed (str_app who ": delta exceeded 50 pages without terminal deltaLink"))
  | S fuel =>
      let@ body := ask path in
      let '(changes, deltaLink, nextLink) := body in
      let acc := if str_empty cursor then acc else acc ++ changes in
      if negb (str_empty deltaLink) then eret (acc, deltaLink)
      else if str_empty nextLink then eret (acc, kept cursor path)
      else feed who ask cursor fuel nextLink acc
  end.

(** What a walk meets: its pages of changes and the cursor it ends with, or an error. *)
Inductive walk (ask : string → Net (list DocumentChange * string * string)) (cursor : string)
    : string → Env (list Request) → list (list DocumentChange) → result string conn_error → Env (list Request) → Prop :=
| walk_delta p w c d n w' : ask p w = (Ok (c, d, n), w') → d ≠ EmptyString → walk ask cursor p w [c] (Ok d) w'
| walk_last p w c w' : ask p w = (Ok (c, EmptyString, EmptyString), w') → walk ask cursor p w [c] (Ok (kept cursor p)) w'
| walk_error p w e w' : ask p w = (Err e, w') → walk ask cursor p w [[]] (Err e) w'
| walk_next p w c n w1 ps r w' : ask p w = (Ok (c, EmptyString, n), w1) → n ≠ EmptyString → walk ask cursor n w1 ps r w' → walk ask cursor p w (c :: ps) r w'.

Lemma walk_feed who ask cursor p w ps r w' fuel acc :
  walk ask cursor p w ps r w' → length ps ≤ fuel →
  feed who ask cursor fuel p acc w =
    (match r with Ok link => Ok (acc ++ (if str_empty cursor then [] else concat ps), link) | Err e => Err e end, w').
Proof.
  intros Hw. revert fuel acc. induction Hw as [p w c d n w' E Hd|p w c w' E|p w e w' E|p w c n w1 ps r w' E Hn _ IH]; intros [|fuel] acc Hl; simpl in Hl; try lia;
    cbn [feed]; unfold ebind; rewrite E.
  - rewrite (proj2 (str_empty_false d) Hd). cbn. rewrite app_nil_r. by destruct (str_empty cursor); rewrite ?app_nil_r.
  - cbn. rewrite app_nil_r. by destruct (str_empty cursor); rewrite ?app_nil_r.
  - done.
  - cbn [str_empty negb]. rewrite (proj2 (str_empty_false n) Hn), IH by lia. destruct r; [|done].
    destruct (str_empty cursor); [done|]. cbn [concat]. by rewrite <- app_assoc.
Qed.

(** A feed reports the changes of all its pages and the cursor the service gave with the
    last one, or the error of the page that failed, as long as it has no more pages than
    the bound; the first sync reports none and only takes the cursor. *)
Theorem feed_complete who ask cursor p w ps r w' :
  walk ask cursor p w ps r w' → length ps ≤ maxDeltaPages →
  feed who ask cursor maxDeltaPages p [] w =
    (match r with Ok link => Ok (if str_empty cursor then [] else concat ps, link) | Err e => Err e end, w').
Proof. intros Hw Hl. by rewrite (walk_feed who ask cursor p w ps r w' maxDeltaPages [] Hw Hl). Qed.

(** *** One page of a feed *)

Definition one_page (who : string) (without_base : string → string) (token : string → Net Response) (d : decoder DocumentChange) (start cursor : string) : Net (list DocumentChange * string) :=
  let@ resp := token (if str_empty cursor then start else without_base cursor) in
  let@ _ := expect_200 who ": delta status=" resp in
  let@ body := read_body who "delta" (d_feed d) resp in
  let '(changes, deltaLink, nextLink) := body in
  eret (changes, OneDrive.next_cursor deltaLink nextLink cursor).

(** A link of the service, relative to the base. *)
Definition without_base (base link : string) : string := of_bytes (trim_prefix (to_bytes base) (to_bytes link)).

(** Pages whose link is made relative. *)
Record children_of := { c_conn : connection; c_ns : Namespace; c_cursor : string }.
Definition fetch_children (who what decoded base : string) (ask : connection → string → Net Response) (start : string) (d : decoder DocumentRef) (it : children_of)
    : Net (fetched children_of) :=
  let@ resp := ask (c_conn it) (if str_empty (c_cursor it) then start else c_cursor it) in
  let@ _ := expect_ok who what resp in
  let@ body := read_body who decoded (d_page d) resp in
  eret (page_of body.1 (str_empty body.2)
          {| c_conn := c_conn it; c_ns := c_ns it; c_cursor := if str_empty body.2 then c_cursor it else without_base base body.2 |}).
Lemma fetch_children_empty who what decoded base ask start d it w f w' :
  fetch_children who what decoded base ask start d it w = (Ok f, w') → f_ret f = false → f_page f = [].
Proof. unfold fetch_children. intros Hf. net_inv Hf. injection Hf as <- _. apply page_kept. Qed.
End Requests.
End OData.

(** ** SharePoint *)

Module SharePoint.
Import Connector Token OData.

Section SharePoint.
Context `{Server} (raw : blob → string) (baseURL : string).

Definition do_ (conn : connection) (path : string) : Net Response := get_ "sharepoint" baseURL (accessToken conn) path.

Definition Connect (cfg : ConnectorConfig) : Net connection :=
  let@ t := or_throw (Validate cfg) in
  let conn := connect cfg t in
  let@ resp := do_ conn "/me" in
  let@ _ := expect_200 "sharepoint" ": auth check status=" resp in
  eret conn.

Definition d_site : decoder Namespace := λ j,
  get i from d_str_field "id" j in get n from d_str_field "displayName" j in get u from d_str_field "webUrl" j in
  Some {| ns_ID := i; ns_Name := n; Kind := "site"; ns_Metadata := {[ "web_url"%string := u ]} |}.
Definition ListNamespaces (conn : connection) : Net (list Namespace) :=
  let@ resp := do_ conn "/sites?search=*" in
  let@ _ := expect_200 "sharepoint" ": list sites status=" resp in
  read_body "sharepoint" "sites" (d_list_field "value" d_site) resp.

Definition site_path (id rest : string) : string := str_app "/sites/" (str_app (PathEscape id) rest).
Definition d_item (ns : string) : decoder DocumentRef := λ j,
  get i from d_str_field "id" j in get _ from d_str_field "name" j in get e from d_str_field "eTag" j in
  get m from d_str_field "lastModifiedDateTime" j in Some (ref_of ns i e m).

Definition fetch_items (it : children_of) : Net (fetched children_of) :=
  fetch_children "sharepoint" ": list children status=" "children" baseURL do_ (site_path (ns_ID (c_ns it)) "/drive/root/children") (d_item (ns_ID (c_ns it))) it.
#[export] Instance items : PageSource children_of.
Proof. refine {| fetchPage := fetch_items |}. intros s w f w' Hf. exact (fetch_children_empty _ _ _ _ _ _ _ _ _ _ _ Hf). Defined.

Definition ListDocuments (conn : connection) (ns : Namespace) : iter children_of := fresh {| c_conn := conn; c_ns := ns; c_cursor := "" |}.
(** The methods of its iterator. *)
Definition Next := @Connector.Next children_of items.
Definition Doc := @Connector.Doc children_of.
Definition Err_ := @Connector.Err_ children_of.

Definition d_author : decoder string := λ j,
  get e from d_field "createdBy" (d_field "user" (d_str_field "email") EmptyString) EmptyString j in
  get n from d_field "createdBy" (d_field "user" (d_str_field "displayName") EmptyString) EmptyString j in
  Some (if str_empty e then n else e).
Definition FetchDocument (conn : connection) (ref : DocumentRef) : Net Document :=
  let item := site_path (NamespaceID ref) (str_app "/drive/items/" (PathEscape (ID ref))) in
  let@ metaResp := do_ conn item in
  let@ _ := expect_200 "sharepoint" ": get item status=" metaResp in
  let@ m := read_body "sharepoint" "meta" (λ j, get m from OneDrive.d_meta j in get a from d_author j in Some (m, a)) metaResp in
  let@ bodyResp := do_ conn (str_app item "/content") in
  let@ _ := if (StatusCode bodyResp =? 302)%Z then eret tt else expect_200 "sharepoint" ": download status=" bodyResp in
  eret {| Ref := ref; MIMEType := m_mime m.1; Title := m_name m.1; Author := m.2; Size := m_size m.1;
          CreatedAt := GoTime.parse_or_zero (m_created m.1); d_UpdatedAt := GoTime.parse_or_zero (m_modified m.1);
          Metadata := {[ "item_id"%string := ID ref; "site_id"%string := NamespaceID ref ]}; Content := raw (RespBody bodyResp) |}.

Definition d_change (ns : string) : decoder DocumentChange := λ j,
  get i from d_str_field "id" j in get d from d_flag "deleted" j in get m from d_str_field "lastModifiedDateTime" j in Some (changed ns i m d).
Definition DeltaSync (conn : connection) (ns : Namespace) (cursor : string) : Net (list DocumentChange * string) :=
  one_page "sharepoint" (without_base baseURL) (do_ conn) (d_change (ns_ID ns)) (site_path (ns_ID ns) "/drive/root/delta") cursor.
End SharePoint.
End SharePoint.

(** ** Teams *)

Module Teams.
Import Connector Token OData.

(** [strings.SplitN(nsID, "/", 2)]: a namespace is a team and a channel. *)
Definition splitChannel (nsID : string) : string * string :=
  match cut_at "/"%char (to_bytes nsID) with Some (t, c) => (of_bytes t, of_bytes c) | None => (nsID, EmptyString) end.
Definition bad_namespace : string := "teams: namespace must encode team_id/channel_id".
Definition channel_path (team channel rest : string) : string :=
  str_app "/teams/" (str_app (PathEscape team) (str_app "/channels/" (str_app (PathEscape channel) rest))).

Section Teams.
Context `{Server} (raw : blob → string) (baseURL : string).

Definition do_ (conn : connection) (path : string) : Net Response := get_ "teams" baseURL (accessToken conn) path.

Definition Connect (cfg : ConnectorConfig) : Net connection :=
  let@ t := or_throw (Validate cfg) in
  let conn := connect cfg t in
  let@ resp := do_ conn "/me" in
  let@ _ := expect_200 "teams" ": auth status=" resp in
  eret conn.

Definition d_named : decoder (string * string) := λ j, get i from d_str_field "id" j in get n from d_str_field "displayName" j in Some (i, n).
Definition channel_ns (team channel : string * string) : Namespace :=
  {| ns_ID := str_app team.1 (str_app "/" channel.1); ns_Name := str_app team.2 (str_app "#" channel.2); Kind := "channel";
     ns_Metadata := {[ "team_id"%string := team.1; "channel_id"%string := channel.1 ]} |}.
(** The status of the answer about a team's channels is not looked at. *)
Fixpoint channels (conn : connection) (teams : list (string * string)) : Net (list Namespace) :=
  match teams with
  | [] => eret []
  | t :: rest =>
      let@ resp := do_ conn (str_app "/teams/" (str_app (PathEscape t.1) "/channels")) in
      let@ cs := read_body "teams" "channels" (d_list_field "value" d_named) resp in
      let@ more := channels conn rest in
      eret ((channel_ns t <$> cs) ++ more)
  end.
Definition ListNamespaces (conn : connection) : Net (list Namespace) :=
  let@ resp := do_ conn "/me/joinedTeams" in
  let@ _ := expect_200 "teams" ": list teams status=" resp in
  let@ teams := read_body "teams" "teams" (d_list_field "value" d_named) resp in
  channels conn teams.

Definition d_message (ns : string) : decoder DocumentRef := λ j,
  get i from d_str_field "id" j in get m from d_str_field "lastModifiedDateTime" j in get e from d_str_field "etag" j in Some (ref_of ns i e m).
Definition fetch_messages (it : children_of) : Net (fetched children_of) :=
  let '(team, channel) := splitChannel (ns_ID (c_ns it)) in
  if str_empty channel then ethrow (Failed bad_namespace)
  else fetch_children "teams" ": list messages status=" "" baseURL do_ (channel_path team channel "/messages") (d_message (ns_ID (c_ns it))) it.
#[export] Instance messages : PageSource children_of.
Proof.
  refine {| fetchPage := fetch_messages |}. intros s w f w' Hf. unfold fetch_messages in Hf. destruct (splitChannel _) as [team channel].
  destruct (str_empty channel); [done|]. exact (fetch_children_empty _ _ _ _ _ _ _ _ _ _ _ Hf).
Defined.

Definition ListDocuments (conn : connection) (ns : Namespace) : iter children_of := fresh {| c_conn := conn; c_ns := ns; c_cursor := "" |}.
(** The methods of its iterator. *)
Definition Next := @Connector.Next children_of messages.
Definition Doc := @Connector.Doc children_of.
Definition Err_ := @Connector.Err_ children_of.

Definition FetchDocument (conn : connection) (ref : DocumentRef) : Net Document :=
  let '(team, channel) := splitChannel (NamespaceID ref) in
  if str_empty channel then ethrow (Failed bad_namespace)
  else
    let@ resp := do_ conn (channel_path team channel (str_app "/messages/" (PathEscape (ID ref)))) in
    let@ _ := expect_200 "teams" ": get message status=" resp in
    let b := RespBody resp in
    let text (name : string) := lenient (d_str_field name) EmptyString b in
    eret (Suite.document (raw b) ref (text "subject"%string) (lenient (d_field "from" (d_field "user" (d_str_field "displayName") EmptyString) EmptyString) EmptyString b)
            (GoTime.parse_or_zero (text "createdDateTime"%string)) (GoTime.parse_or_zero (text "lastModifiedDateTime"%string))
            {[ "team_id"%string := team; "channel_id"%string := channel; "message_id"%string := ID ref ]}).

Definition d_change (ns : string) : decoder DocumentChange := λ j,
  get i from d_str_field "id" j in get d from d_flag "deletedDateTime" j in get m from d_str_field "lastModifiedDateTime" j in Some (changed ns i m d).
Definition DeltaSync (conn : connection) (ns : Namespace) (cursor : string) : Net (list DocumentChange * string) :=
  let '(team, channel) := splitChannel (ns_ID ns) in
  if str_empty channel then ethrow (Failed bad_namespace)
  else one_page "teams" (without_base baseURL) (do_ conn) (d_change (ns_ID ns)) (channel_path team channel "/messages/delta") cursor.

(** *** Notifications *)

Definition inside (name p : string) : option string :=
  let open := str_app name "(" in
  if has_prefix p open then Some (of_bytes (trim_suffix (to_bytes ")") (trim_prefix (to_bytes open) (to_bytes p)))) else None.
(** Of several parts with one name the last counts. *)
Definition resource_part (acc : string * string * string) (p : bytes) : string * string * string :=
  let '(t, c, m) := acc in
  let p := of_bytes p in
  match inside "teams" p with
  | Some v => (v, c, m)
  | None => match inside "channels" p with
            | Some v => (t, v, m)
            | None => match inside "messages" p with Some v => (t, c, v) | None => acc end
            end
  end.
Definition parseTeamsResource (res : string) : string * string * string :=
  foldl resource_part (EmptyString, EmptyString, EmptyString) (split_on "/"%char (replace_all (to_bytes "'") [] (to_bytes res))).

Definition d_notice : decoder (string * string) := λ j, get k from d_str_field "changeType" j in get r from d_str_field "resource" j in Some (k, r).
Definition notice_change (n : string * string) : option DocumentChange :=
  let '(t, c, m) := parseTeamsResource n.2 in
  if str_empty m then None
  else Some {| ch_Kind := deleted_if (fold_eq n.1 "deleted"); ch_Ref := {| NamespaceID := str_app t (str_app "/" c); ID := m; ETag := ""; UpdatedAt := 0 |} |}.
Definition HandleWebhook (payload : blob) : result (list DocumentChange) conn_error :=
  match decode (d_list_field "value" d_notice) payload with
  | None => Err (Failed "teams: webhook decode")
  | Some l => Ok (omap notice_change l)
  end.
Definition VerifyWebhookRequest (secret : string) (headers : list (string * list string)) : option webhook_error :=
  if str_empty secret then None else VerifyTokenEqual secret (FirstHeader headers "Authorization").
End Teams.
End Teams.

(** ** Outlook *)

Module Outlook.
Import Connector OData.

Record connection := { tenantID : string; sourceID : string; token : string; user : string }.
Definition userPath (c : connection) : string := if str_empty (user c) then "/me" else str_app "/users/" (PathEscape (user c)).

Section Outlook.
Context `{Server} (raw : blob → string) (baseURL : string).

Definition Validate (cfg : ConnectorConfig) : result (string * string) conn_error :=
  match parse_creds (λ j, get t from d_str_field "access_token" j in get u from d_str_field "user_id" j in Some (t, u)) cfg with
  | Err e => Err e
  | Ok c => if str_empty c.1 then Err (ErrInvalidConfig "access_token required") else Ok c
  end.
Definition do_ (conn : connection) (path : string) : Net Response := get_ "outlook" baseURL (token conn) path.

Definition Connect (cfg : ConnectorConfig) : Net connection :=
  let@ c := or_throw (Validate cfg) in
  let conn := {| tenantID := TenantID cfg; sourceID := SourceID cfg; token := c.1; user := c.2 |} in
  let@ resp := do_ conn (userPath conn) in
  let@ _ := expect "outlook" ": status=" (str_app ": " (str_app (userPath conn) " status=")) resp in
  eret conn.

Definition d_folder : decoder Namespace := λ j,
  get i from d_str_field "id" j in get n from d_str_field "displayName" j in Some {| ns_ID := i; ns_Name := n; Kind := "folder"; ns_Metadata := ∅ |}.
Definition ListNamespaces (conn : connection) : Net (list Namespace) :=
  let@ resp := do_ conn (str_app (userPath conn) "/mailFolders") in
  let@ _ := expect_ok "outlook" ": folders status=" resp in
  read_body "outlook" "folders" (d_list_field "value" d_folder) resp.

Definition folder_path (conn : connection) (ns : Namespace) (rest : string) : string :=
  str_app (userPath conn) (str_app "/mailFolders/" (str_app (PathEscape (ns_ID ns)) rest)).
Definition d_message (ns : Namespace) : decoder DocumentRef := λ j,
  get i from d_str_field "id" j in get m from d_str_field "lastModifiedDateTime" j in Some (ref_of (ns_ID ns) i "" m).
Definition fetch_messages : linked connection → Net (fetched (linked connection)) :=
  fetch_linked "outlook" ": list status=" "list" do_ (λ c ns, folder_path c ns "/messages?$top=50") d_message.
#[export] Instance messages : PageSource (linked connection).
Proof. refine {| fetchPage := fetch_messages |}. intros s w f w' Hf. exact (fetch_linked_empty _ _ _ _ _ _ _ _ _ _ Hf). Defined.

Definition ListDocuments (conn : connection) (ns : Namespace) : iter (linked connection) := fresh {| it_conn := conn; it_ns := ns; nextURL := ""; first := false |}.
(** The methods of its iterator. *)
Definition Next := @Connector.Next (linked connection) messages.
Definition Doc := @Connector.Doc (linked connection).
Definition Err_ := @Connector.Err_ (linked connection).

(** The title is cut behind its two hundredth byte. *)
Definition title_of (subject preview : string) : string := of_bytes (take 200 (to_bytes (Suite.first_text [subject] preview))).
Definition FetchDocument (conn : connection) (ref : DocumentRef) : Net Document :=
  let@ resp := do_ conn (str_app (userPath conn) (str_app "/messages/" (PathEscape (ID ref)))) in
  let@ _ := expect "outlook" ": fetch status=" (fetch_status (ID ref)) resp in
  let b := RespBody resp in
  let text (name : string) := lenient (d_str_field name) EmptyString b in
  let received := GoTime.parse_or_zero (text "receivedDateTime"%string) in
  let modified := GoTime.parse_or_zero (text "lastModifiedDateTime"%string) in
  let updated := if time_is_zero modified then received else modified in
  eret (Suite.document (raw b) {| NamespaceID := NamespaceID ref; ID := text "id"%string; ETag := ""; UpdatedAt := updated |}
          (title_of (text "subject"%string) (text "bodyPreview"%string))
          (lenient (d_field "from" (d_field "emailAddress" (d_str_field "address") EmptyString) EmptyString) EmptyString b)
          received updated {[ "folder_id"%string := NamespaceID ref ]}).

Definition d_change (ns : string) : decoder DocumentChange := λ j,
  get i from d_str_field "id" j in get d from d_flag "@removed" j in get m from d_str_field "lastModifiedDateTime" j in Some (changed ns i m d).
Definition ask_delta (conn : connection) (ns : Namespace) (path : string) : Net (list DocumentChange * string * string) :=
  let@ resp := do_ conn path in
  let@ _ := expect_ok "outlook" ": delta status=" resp in
  read_body "outlook" "delta" (d_feed (d_change (ns_ID ns))) resp.
Definition DeltaSync (conn : connection) (ns : Namespace) (cursor : string) : Net (list DocumentChange * string) :=
  feed "outlook" (ask_delta conn ns) cursor maxDeltaPages (if str_empty cursor then folder_path conn ns "/messages/delta?$deltatoken=latest" else cursor) [].
End Outlook.
End Outlook.

(** ** Entra ID *)

Module EntraID.
Import Connector Token OData.

Section EntraID.
Context `{Server} (raw : blob → string) (baseURL : string).

Definition do_ (conn : connection) (path : string) : Net Response := get_ "entra_id" baseURL (accessToken conn) path.

Definition Connect (cfg : ConnectorConfig) : Net connection :=
  let@ t := or_throw (Validate cfg) in
  let conn := connect cfg t in
  let@ resp := do_ conn "/organization?$top=1" in
  let@ _ := expect "entra_id" ": status=" ": /organization status=" resp in
  eret conn.

Definition ListNamespaces : list Namespace := Okta.ListNamespaces.

Definition under (ns : Namespace) (rest : string) : string := str_app "/" (str_app (ns_ID ns) rest).
Definition d_principal (ns : Namespace) : decoder DocumentRef := λ j,
  get i from d_str_field "id" j in get _ from d_str_field "displayName" j in get _ from d_str_field "userPrincipalName" j in get _ from d_str_field "mail" j in
  get _ from d_pointer "accountEnabled" j in get _ from d_str_field "createdDateTime" j in get _ from d_str_field "deletedDateTime" j in
  Some {| NamespaceID := ns_ID ns; ID := i; ETag := ""; UpdatedAt := 0 |}.
(** The texts of its errors name the namespace. *)
Definition fetch_principals (it : linked connection) : Net (fetched (linked connection)) :=
  fetch_linked "entra_id" (str_app ": list " (str_app (ns_ID (it_ns it)) " status=")) (ns_ID (it_ns it)) do_ (λ _ ns, under ns "?$top=100") d_principal it.
#[export] Instance principals : PageSource (linked connection).
Proof. refine {| fetchPage := fetch_principals |}. intros s w f w' Hf. exact (fetch_linked_empty _ _ _ _ _ _ _ _ _ _ Hf). Defined.

Definition ListDocuments (conn : connection) (ns : Namespace) : iter (linked connection) := fresh {| it_conn := conn; it_ns := ns; nextURL := ""; first := false |}.
(** The methods of its iterator. *)
Definition Next := @Connector.Next (linked connection) principals.
Definition Doc := @Connector.Doc (linked connection).
Definition Err_ := @Connector.Err_ (linked connection).

Definition FetchDocument (conn : connection) (ref : DocumentRef) : Net Document :=
  let@ resp := do_ conn (str_app "/" (str_app (NamespaceID ref) (str_app "/" (PathEscape (ID ref))))) in
  let@ _ := expect "entra_id" ": fetch status=" (fetch_status (ID ref)) resp in
  let b := RespBody resp in
  let text (name : string) := lenient (d_str_field name) EmptyString b in
  let created := GoTime.parse_or_zero (text "createdDateTime"%string) in
  eret (Suite.document (raw b) ref (Suite.first_text [text "displayName"%string; text "userPrincipalName"%string] (text "id"%string)) (text "mail"%string)
          created created {[ "kind"%string := NamespaceID ref ]}).

Definition d_change (ns : string) : decoder DocumentChange := λ j,
  get i from d_str_field "id" j in get a from d_pointer "accountEnabled" j in get d from d_flag "@removed" j in
  get _ from d_str_field "displayName" j in get _ from d_str_field "userPrincipalName" j in
  Some {| ch_Kind := deleted_if (d || match a with Some false => true | _ => false end); ch_Ref := {| NamespaceID := ns; ID := i; ETag := ""; UpdatedAt := 0 |} |}.
Definition ask_delta (conn : connection) (ns : Namespace) (path : string) : Net (list DocumentChange * string * string) :=
  let@ resp := do_ conn path in
  let@ _ := expect_ok "entra_id" ": delta status=" resp in
  read_body "entra_id" "delta" (d_feed (d_change (ns_ID ns))) resp.
Definition DeltaSync (conn : connection) (ns : Namespace) (cursor : string) : Net (list DocumentChange * string) :=
  feed "entra_id" (ask_delta conn ns) cursor maxDeltaPages (if str_empty cursor then under ns "/delta?$deltatoken=latest" else cursor) [].
End EntraID.
End EntraID.

(** ** On concrete services *)

Module MicrosoftSamples.
Import Connector Token OData.

Definition start : Env (list Request) := {| store := []; calls_made := 0 |}.
Definition answer (status : Z) (j : json) : option Response := Some {| StatusCode := status; Link := ""; RetryAfter := ""; RespBody := Parsed j |}.
Definition alice : connection := {| tenantID := "t"; sourceID := "s"; accessToken := "k" |}.
Definition general : Namespace := {| ns_ID := "team/chan"; ns_Name := ""; Kind := "channel"; ns_Metadata := ∅ |}.
Definition ids (r : result (list DocumentChange * string) conn_error) : result (list string * string) conn_error :=
  match r with Ok (l, c) => Ok (ID ∘ ch_Ref <$> l, c) | Err e => Err e end.

(** The deletion of a message carries a time, and is read into a struct: the whole page
    of changes is refused, and with it every later sync from that cursor. *)
Definition message (id : string) (deleted : json) : json := JObj [("id"%string, JStr id); ("deletedDateTime"%string, deleted)].
Definition chat (deleted : json) : Server := λ _, answer 200 (JObj [("value"%string, JArr [message "m1" JNull; message "m2" deleted]); ("@odata.deltaLink"%string, JStr "L2")]).
Example deleted_message_stops_the_feed :
  ids (Teams.DeltaSync (H := chat JNull) defaultBaseURL alice general "L1" start).1 = Ok (["m1"; "m2"]%string, "L2"%string) ∧
  ids (Teams.DeltaSync (H := chat (JStr "2024-05-01T12:00:00Z")) defaultBaseURL alice general "L1" start).1 = Err (Failed "teams: decode delta").
Proof. vm_compute. split; reflexivity. Qed.

(** A refusal for one team's channels reads as a team without channels. *)
Definition refusing : Server := λ log,
  match log with
  | [_] => answer 200 (JObj [("value"%string, JArr [JObj [("id"%string, JStr "team")]])])
  | _ => answer 403 (JObj [("error"%string, JObj [("code"%string, JStr "Forbidden")])])
  end.
Example refused_channels_vanish : (Teams.ListNamespaces (H := refusing) defaultBaseURL alice start).1 = Ok [].
Proof. vm_compute. reflexivity. Qed.

Example teams_resource : Teams.parseTeamsResource "teams('t1')/channels('c1')/messages('m1')" = ("t1", "c1", "m1")%string.
Proof. vm_compute. reflexivity. Qed.

(** Two pages of a mailbox's changes. *)
Definition mailbox : Server := λ log,
  match log with
  | [_] => answer 200 (JObj [("value"%string, JArr [JObj [("id"%string, JStr "a")]]); ("@odata.nextLink"%string, JStr "N")])
  | _ => answer 200 (JObj [("value"%string, JArr [JObj [("id"%string, JStr "b"); ("@removed"%string, JObj [])]]); ("@odata.deltaLink"%string, JStr "D")])
  end.
Definition bob : Outlook.connection := {| Outlook.tenantID := "t"; Outlook.sourceID := "s"; Outlook.token := "k"; Outlook.user := "" |}.
Definition inbox : Namespace := {| ns_ID := "inbox"; ns_Name := ""; Kind := "folder"; ns_Metadata := ∅ |}.
Lemma feed_complete_witness :
  ∃ changes w', Outlook.DeltaSync (H := mailbox) defaultBaseURL bob inbox "C" start = (Ok (changes, "D"%string), w') ∧ (ID ∘ ch_Ref <$> changes) = ["a"; "b"]%string.
Proof.
  unfold Outlook.DeltaSync. cbn [str_empty].
  rewrite (feed_complete "outlook" (Outlook.ask_delta (H := mailbox) defaultBaseURL bob inbox) "C" "C" start
    [[changed "inbox" "a" "" false]; [changed "inbox" "b" "" true]] (Ok "D"%string)
    (Outlook.ask_delta (H := mailbox) defaultBaseURL bob inbox "N" (Outlook.ask_delta (H := mailbox) defaultBaseURL bob inbox "C" start).2).2).
  - eexists _, _. split; [reflexivity|vm_compute; reflexivity].
  - eapply walk_next; [vm_compute; reflexivity|discriminate|]. eapply walk_delta; [vm_compute; reflexivity|discriminate].
  - vm_compute. lia.
Defined.
End MicrosoftSamples.
