(* ===== verification/Chats.v ===== *)
(** * Chat connectors

    connector/slack/slack.go, discord/discord.go and kchat/kchat.go, against an arbitrary
    service. Slack and KChat sign their webhooks together with the time of the request,
    which may be five minutes off. [Subscribe] (not supported) and [Disconnect] (nothing
    to do) are left out. *)

From Stdlib Require Import Ascii.
From S2P Require Import Prelude GoString GoText Calendar GoTime Effects Json ConnectorBase Suites.
From S2P Require AuditIntegrity.

Module Chat.
Import Connector.

(** [self] is the team or user the token belongs to. *)
Record connection := { tenantID : string; sourceID : string; token : string; self : string }.
Definition connect (cfg : ConnectorConfig) (t self : string) : connection :=
  {| tenantID := TenantID cfg; sourceID := SourceID cfg; token := t; self := self |}.
(** The credentials with the optional secret beside the token. *)
Definition Validate (field : string) (cfg : ConnectorConfig) : result string conn_error :=
  match parse_creds (λ j, get t from d_str_field field j in get _ from d_str_field "signing_secret" j in Some t) cfg with
  | Err e => Err e
  | Ok t => if str_empty t then Err (ErrInvalidConfig (str_app field " required")) else Ok t
  end.

Record msgIterator := { it_conn : connection; it_ns : Namespace; it_opts : ListOpts; cursor : string }.
Definition moved (it : msgIterator) (c : string) : msgIterator := {| it_conn := it_conn it; it_ns := it_ns it; it_opts := it_opts it; cursor := c |}.
(** The cursor of an earlier page, else the token of the caller. *)
Definition with_cursor (name : string) (it : msgIterator) (q : gmap string string) : gmap string string :=
  if negb (str_empty (cursor it)) then <[name := cursor it]> q
  else if negb (str_empty (PageToken (it_opts it))) then <[name := PageToken (it_opts it)]> q else q.

Definition channel_kind (private : bool) : string := if private then "private_channel" else "public_channel".
Definition d_channel : decoder Namespace := λ j,
  get i from d_str_field "id" j in get n from d_str_field "name" j in get p from d_field "is_private" d_bool false j in
  Some {| ns_ID := i; ns_Name := n; Kind := channel_kind p; ns_Metadata := ∅ |}.

Definition document (ref : DocumentRef) (author text : string) (created updated : Time) (meta : gmap string string) : Document :=
  {| Ref := ref; MIMEType := "text/plain"; Title := str_app "Message from " author; Author := author; Size := Z.of_nat (str_len text);
     CreatedAt := created; d_UpdatedAt := updated; Metadata := meta; Content := text |}.

(** ** Signatures with a time *)

Section Signed.
Context (hmac : bytes → bytes → bytes).

Definition timestampSkew : Z := 5 * minute.
Definition stamped (version ts : string) (payload : bytes) : bytes := to_bytes version ++ to_bytes ":" ++ to_bytes ts ++ to_bytes ":" ++ payload.
Definition signature (version : string) (secret : bytes) (ts : string) (payload : bytes) : string :=
  str_app version (str_app "=" (of_bytes (AuditIntegrity.AuditIntegrity.hex (hmac secret (stamped version ts payload))))).

(** Seconds between the clock and the time of the request, at most those of the skew. *)
Definition in_time (skew : Z) (now : Time) (ts : Z) : bool :=
  let delta := wrap64 (GoTime.Unix now - ts) in negb ((skew ÷ second <? delta) || (delta <? - (skew ÷ second)))%Z.

Definition verify (version sig_header ts_header : string) (skew : Z) (now : Time) (secret : bytes) (headers : list (string * list string)) (payload : bytes) : option webhook_error :=
  match secret with
  | [] => None
  | _ =>
      let sig := trim_space (FirstHeader headers sig_header) in
      let ts := trim_space (FirstHeader headers ts_header) in
      if str_empty sig || str_empty ts then Some ErrWebhookSignatureMissing
      else match Atoi (to_bytes ts) with
           | None => Some ErrWebhookSignatureInvalid
           | Some parsed =>
               if negb (in_time skew now parsed) then Some ErrWebhookSignatureInvalid
               else if str_eqb (signature version secret ts payload) sig then None else Some ErrWebhookSignatureInvalid
           end
  end.

(** The subtraction may wrap, but never into the window. *)
Lemma in_time_spec skew now ts :
  (0 ≤ skew < 2 ^ 62)%Z → (0 ≤ GoTime.Unix now < 2 ^ 62)%Z → in_int64 ts →
  in_time skew now ts = true ↔ (- (skew / second) ≤ GoTime.Unix now - ts ≤ skew / second)%Z.
Proof.
  intros Hs Hn Ht. unfold in_time. cbv zeta. rewrite Z.quot_div_nonneg by (unfold second; lia).
  assert (Hd : (0 ≤ skew / second < 2 ^ 62)%Z) by (split; [apply Z.div_pos; unfold second; lia|apply Z.div_lt_upper_bound; unfold second; lia]).
  set (k := (skew / second)%Z) in *. set (d := (GoTime.Unix now - ts)%Z). unfold in_int64, int64_min, int64_max in Ht.
  assert (Hw : ((- 2 ^ 63 ≤ d < 2 ^ 63)%Z ∧ wrap64 d = d) ∨ ((2 ^ 63 ≤ d)%Z ∧ (wrap64 d < - k)%Z)).
  { destruct (Z_lt_le_dec d (2 ^ 63)) as [Hlt|Hge].
    - left. split; [unfold d in *; lia|]. apply wrap64_id. unfold in_int64, int64_min, int64_max, d in *. lia.
    - right. split; [done|]. unfold wrap64. replace ((d + 2 ^ 63) `mod` 2 ^ 64)%Z with (d + 2 ^ 63 - 2 ^ 64)%Z; [unfold d in *; lia|].
      apply (Z.mod_unique _ _ 1); unfold d in *; lia. }
  rewrite negb_true_iff, orb_false_iff, !Z.ltb_ge. destruct Hw as [[_ ->]|[Hbig Hw]]; unfold d in *; lia.
Qed.

Lemma verify_accepts version sh th skew now secret headers payload :
  secret ≠ [] →
  verify version sh th skew now secret headers payload = None ↔
  ∃ ts parsed, ts = trim_space (FirstHeader headers th) ∧ Atoi (to_bytes ts) = Some parsed ∧ in_time skew now parsed = true ∧
    trim_space (FirstHeader headers sh) = signature version secret ts payload.
Proof.
  intros Hs. unfold verify. destruct secret as [|k secret]; [done|]. set (key := k :: secret).
  set (ts := trim_space (FirstHeader headers th)). set (sig := trim_space (FirstHeader headers sh)). split.
  - destruct (str_empty sig || str_empty ts); [done|]. destruct (Atoi (to_bytes ts)) as [parsed|] eqn:Ep; [|done].
    destruct (in_time skew now parsed) eqn:Et; [|done]. cbn [negb]. destruct (str_eqb _ _) eqn:Es; [|done]. apply str_eqb_eq in Es. eauto 6.
  - intros (ts' & parsed & -> & Ep & Et & Es).
    assert (Hts : str_empty ts = false) by (apply str_empty_false; intros E; rewrite E in Ep; done).
    assert (Hsig : str_empty sig = false).
    { apply str_empty_false. rewrite Es. unfold signature. intros E. apply (f_equal to_bytes) in E. rewrite !to_bytes_app in E. destruct (to_bytes version); discriminate E. }
    rewrite Hts, Hsig. cbn [orb]. rewrite Ep, Et. cbn [negb]. by rewrite Es, str_eqb_refl.
Qed.

(** A signed request is accepted exactly when its header is the signature of its time and
    payload under the secret and that time is within the skew of the clock: what was
    recorded cannot be replayed later. *)
Theorem timed_signatures version sh th skew now secret headers payload :
  secret ≠ [] → (0 ≤ skew < 2 ^ 62)%Z → (0 ≤ GoTime.Unix now < 2 ^ 62)%Z →
  verify version sh th skew now secret headers payload = None ↔
  ∃ ts parsed, ts = trim_space (FirstHeader headers th) ∧ Atoi (to_bytes ts) = Some parsed ∧
    (- (skew / second) ≤ GoTime.Unix now - parsed ≤ skew / second)%Z ∧
    trim_space (FirstHeader headers sh) = signature version secret ts payload.
Proof.
  intros Hs Hk Hn. rewrite verify_accepts by done. split; intros (ts & parsed & Hts & Ep & Et & Es); exists ts, parsed;
    pose proof (in_time_spec skew now parsed Hk Hn (Atoi_range _ _ Ep)); naive_solver.
Qed.
End Signed.
End Chat.

(** ** Slack *)

Module Slack.
Import Connector Chat.

Definition defaultBaseURL : string := "https://slack.com/api".

(** Whole seconds before the first dot. *)
Definition slackTSToTime (ts : string) : Time :=
  match Atoi (match cut_at "."%char (to_bytes ts) with Some (s, _) => s | None => to_bytes ts end) with
  | Some s => GoTime.of_unix s
  | None => 0
  end.

Section Slack.
Context `{Server} (baseURL : string).

Definition do_ (conn : connection) (path : string) : Net Response := GET "slack" baseURL (str_app "Bearer " (token conn)) path.

(** Slack reports errors in the body; the status is not looked at. *)
Definition d_ok {A} (d : decoder A) : decoder (bool * string * A) := λ j,
  get o from d_field "ok" d_bool false j in get e from d_str_field "error" j in get a from d j in Some (o, e, a).
Definition ok_body {A} (decoded what : string) (d : decoder A) (resp : Response) : Net A :=
  let@ b := read_body "slack" decoded (d_ok d) resp in
  if b.1.1 then eret b.2 else ethrow (Failed (str_app what b.1.2)).

Definition Connect (cfg : ConnectorConfig) : Net connection :=
  let@ t := or_throw (Validate "bot_token" cfg) in
  let@ resp := do_ (connect cfg t "") "/auth.test" in
  let@ team := ok_body "auth.test" "slack: auth.test failed: " (d_str_field "team_id") resp in
  eret (connect cfg t team).

Definition d_next : decoder string := d_field "response_metadata" (d_str_field "next_cursor") EmptyString.
Definition d_listed : decoder Namespace := λ j, get c from d_channel j in get _ from d_field "is_archived" d_bool false j in Some c.
Definition channels_page (conn : connection) (after : string) : Net (list Namespace * option string) :=
  let q : gmap string string := {[ "types"%string := "public_channel,private_channel"%string; "limit"%string := "200"%string; "exclude_archived"%string := "true"%string ]} in
  let@ resp := do_ conn (str_app "/conversations.list?" (Encode (if str_empty after then q else <["cursor"%string := after]> q))) in
  let@ b := ok_body "channels" "slack: conversations.list: " (λ j, get c from d_list_field "channels" d_listed j in get n from d_next j in Some (c, n)) resp in
  eret (b.1, if str_empty b.2 then None else Some b.2).
Definition ListNamespaces (fuel : nat) (conn : connection) : Net (option (list Namespace)) :=
  let@ pages := collect (channels_page conn) fuel EmptyString in eret (@concat Namespace <$> pages).

Definition message_ref (ns ts : string) : DocumentRef := {| NamespaceID := ns; ID := ts; ETag := ts; UpdatedAt := slackTSToTime ts |}.
Definition d_message (ns : string) : decoder DocumentRef := λ j,
  get t from d_str_field "ts" j in get _ from d_str_field "user" j in Some (message_ref ns t).
(** [strconv.FormatFloat(float64(s), 'f', 6, 64)] for the seconds of a time. *)
Definition oldest (since : Time) : string := str_app (FormatInt (GoTime.Unix since)) ".000000".
Definition history_values (it : msgIterator) : gmap string string :=
  let q : gmap string string := {[ "channel"%string := ns_ID (it_ns it); "limit"%string := FormatInt (pageOr (PageSize (it_opts it)) 100) ]} in
  let q := with_cursor "cursor" it q in
  if time_is_zero (Since (it_opts it)) then q else <["oldest"%string := oldest (Since (it_opts it))]> q.
(** Two ways to say that there were too many requests. *)
Definition history_error (e : string) : conn_error :=
  let text := str_app "slack: conversations.history: " e in if str_eqb e "ratelimited" then ErrRateLimited text else Failed text.
Definition fetch_history (it : msgIterator) : Net (fetched msgIterator) :=
  let@ resp := do_ (it_conn it) (str_app "/conversations.history?" (Encode (history_values it))) in
  if (StatusCode resp =? 429)%Z then ethrow (ErrRateLimited (status_text "slack" ": conversations.history status=" resp))
  else
    let@ b := read_body "slack" "history" (d_ok (λ j,
      get m from d_list_field "messages" (d_message (ns_ID (it_ns it))) j in get h from d_field "has_more" d_bool false j in get n from d_next j in Some (m, h, n))) resp in
    let '(ok, e, (refs, more, next)) := b in
    if negb ok then ethrow (history_error e)
    else let last := str_empty next || negb more in
         eret (Suite.page_of refs last (if last then it else moved it next)).
#[export] Instance history : PageSource msgIterator.
Proof.
  refine {| fetchPage := fetch_history |}. intros s w f w' Hf. unfold fetch_history in Hf. apply ebind_Ok in Hf as (resp & w1 & _ & Hf).
  destruct (StatusCode resp =? 429)%Z; [done|]. apply ebind_Ok in Hf as ([[ok e] [[refs more] next]] & w2 & _ & Hf). destruct (negb ok); [done|].
  injection Hf as <- _. apply Suite.page_of_false.
Defined.

Definition ListDocuments (conn : connection) (ns : Namespace) (opts : ListOpts) : iter msgIterator :=
  fresh {| it_conn := conn; it_ns := ns; it_opts := opts; cursor := "" |}.
(** The methods of its iterator. *)
Definition Next := @Connector.Next msgIterator history.
Definition Doc := @Connector.Doc msgIterator.
Definition Err_ := @Connector.Err_ msgIterator.

Definition d_full : decoder (string * string * string) := λ j,
  get t from d_str_field "ts" j in get u from d_str_field "user" j in get x from d_str_field "text" j in Some (t, u, x).
Definition FetchDocument (conn : connection) (ref : DocumentRef) : Net Document :=
  let@ resp := do_ conn (str_app "/conversations.history?" (Encode {[ "channel"%string := NamespaceID ref; "latest"%string := ID ref; "oldest"%string := ID ref;
                                                                      "inclusive"%string := "true"%string; "limit"%string := "1"%string ]})) in
  let@ l := ok_body "message" "slack: conversations.history: " (d_list_field "messages" d_full) resp in
  match l with
  | [] => ethrow (Failed (str_app "slack: message " (str_app (ID ref) " not found")))
  | (ts, user, text) :: _ =>
      let t := slackTSToTime ts in
      eret (document ref user text t t {[ "channel_id"%string := NamespaceID ref; "ts"%string := ts; "team_id"%string := self conn ]})
  end.

(** *** Webhooks *)

(** A raw member: its text, or nothing when it is absent. *)
Definition d_raw (name : string) : decoder (option json) := λ j, match j with JObj l => Some (member name l) | JNull => Some None | _ => None end.
Definition d_envelope : decoder (string * option json) := λ j,
  get t from d_str_field "type" j in get _ from d_str_field "challenge" j in get e from d_raw "event" j in Some (t, e).
Record event := { ev_Type : string; Channel : string; Ts : string; DeletedTs : string; Subtype : string; PreviousTs : string }.
Definition d_event : decoder event := λ j,
  get t from d_str_field "type" j in get c from d_str_field "channel" j in get ts from d_str_field "ts" j in get d from d_str_field "deleted_ts" j in
  get s from d_str_field "subtype" j in get p from d_field "previous_message" (d_str_field "ts") EmptyString j in
  Some {| ev_Type := t; Channel := c; Ts := ts; DeletedTs := d; Subtype := s; PreviousTs := p |}.
Definition event_changes (ev : event) : list DocumentChange :=
  if negb (str_eqb (ev_Type ev) "message") then []
  else if str_eqb (Subtype ev) "message_deleted" then
    let ts := Suite.first_text [DeletedTs ev] (PreviousTs ev) in
    if str_empty ts then [] else [{| ch_Kind := ChangeDeleted; ch_Ref := message_ref (Channel ev) ts |}]
  else if str_empty (Ts ev) || str_empty (Channel ev) then []
  else [{| ch_Kind := ChangeUpserted; ch_Ref := message_ref (Channel ev) (Ts ev) |}].
Definition HandleWebhook (payload : blob) : result (list DocumentChange) conn_error :=
  match payload with
  | NoBytes => Err (Failed "slack: empty webhook payload")
  | _ =>
      match decode d_envelope payload with
      | None => Err (Failed "slack: decode webhook")
      | Some (t, e) =>
          if negb (str_eqb t "event_callback") then Ok []
          else match e ≫= d_event with
               | None => Err (Failed "slack: decode inner event")
               | Some ev => Ok (event_changes ev)
               end
      end
  end.
Definition VerifyWebhookRequest (hmac : bytes → bytes → bytes) : Z → Time → bytes → list (string * list string) → bytes → option webhook_error :=
  verify hmac "v0" "X-Slack-Signature" "X-Slack-Request-Timestamp".
End Slack.
End Slack.

(** ** KChat *)

Module KChat.
Import Connector Chat.

Definition defaultBaseURL : string := "https://kchat.internal/api/v1".

Section KChat.
Context `{Server} (baseURL : string).

Definition do_ (conn : connection) (path : string) : Net Response := GET "kchat" baseURL (str_app "Bearer " (token conn)) path.

Definition Connect (cfg : ConnectorConfig) : Net connection :=
  let@ t := or_throw (Validate "api_token" cfg) in
  let@ resp := do_ (connect cfg t "") "/users.me" in
  let@ _ := expect_200 "kchat" ": auth check failed: status=" resp in
  let@ user := read_body "kchat" "users.me" (d_str_field "id") resp in
  eret (connect cfg t user).

Definition channels_page (conn : connection) (after : string) : Net (list Namespace * option string) :=
  let q : gmap string string := {[ "limit"%string := "200"%string ]} in
  let@ resp := do_ conn (str_app "/channels.list?" (Encode (if str_empty after then q else <["cursor"%string := after]> q))) in
  let@ _ := expect_200 "kchat" ": channels.list status=" resp in
  let@ b := read_body "kchat" "channels" (λ j, get c from d_list_field "channels" d_channel j in get n from d_str_field "next_cursor" j in Some (c, n)) resp in
  eret (b.1, if str_empty b.2 then None else Some b.2).
Definition ListNamespaces (fuel : nat) (conn : connection) : Net (option (list Namespace)) :=
  let@ pages := collect (channels_page conn) fuel EmptyString in eret (@concat Namespace <$> pages).

Definition message_ref (ns id updated : string) : DocumentRef := {| NamespaceID := ns; ID := id; ETag := id; UpdatedAt := GoTime.parse_or_zero updated |}.
Definition d_message (ns : string) : decoder DocumentRef := λ j,
  get i from d_str_field "id" j in get _ from d_str_field "author" j in get u from d_str_field "updated_at" j in Some (message_ref ns i u).
Definition history_values (it : msgIterator) : gmap string string :=
  let q : gmap string string := {[ "channel"%string := ns_ID (it_ns it); "limit"%string := FormatInt (pageOr (PageSize (it_opts it)) 100) ]} in
  let q := with_cursor "cursor" it q in
  if time_is_zero (Since (it_opts it)) then q else <["since"%string := GoTime.Format (Since (it_opts it))]> q.
Definition fetch_history (it : msgIterator) : Net (fetched msgIterator) :=
  let@ resp := do_ (it_conn it) (str_app "/channels.history?" (Encode (history_values it))) in
  let@ _ := expect "kchat" ": status=" ": channels.history status=" resp in
  let@ b := read_body "kchat" "history" (λ j, get m from d_list_field "messages" (d_message (ns_ID (it_ns it))) j in get n from d_str_field "next_cursor" j in Some (m, n)) resp in
  eret (Suite.page_of b.1 (str_empty b.2) (if str_empty b.2 then it else moved it b.2)).
#[export] Instance history : PageSource msgIterator.
Proof. refine {| fetchPage := fetch_history |}. intros s w f w' Hf. unfold fetch_history in Hf. net_inv Hf. injection Hf as <- _. apply Suite.page_of_false. Defined.

Definition ListDocuments (conn : connection) (ns : Namespace) (opts : ListOpts) : iter msgIterator :=
  fresh {| it_conn := conn; it_ns := ns; it_opts := opts; cursor := "" |}.
(** The methods of its iterator. *)
Definition Next := @Connector.Next msgIterator history.
Definition Doc := @Connector.Doc msgIterator.
Definition Err_ := @Connector.Err_ msgIterator.

Record message := { m_ID : string; m_Author : string; m_Text : string; m_Created : string; m_Updated : string }.
Definition d_full : decoder message := λ j,
  get i from d_str_field "id" j in get a from d_str_field "author" j in get x from d_str_field "text" j in
  get c from d_str_field "created_at" j in get u from d_str_field "updated_at" j in
  Some {| m_ID := i; m_Author := a; m_Text := x; m_Created := c; m_Updated := u |}.
Definition FetchDocument (conn : connection) (ref : DocumentRef) : Net Document :=
  let@ resp := do_ conn (str_app "/messages.get?" (Encode {[ "channel"%string := NamespaceID ref; "id"%string := ID ref ]})) in
  let@ _ := expect_200 "kchat" ": messages.get status=" resp in
  let@ m := read_body "kchat" "message" d_full resp in
  eret (document ref (m_Author m) (m_Text m) (GoTime.parse_or_zero (m_Created m)) (GoTime.parse_or_zero (m_Updated m))
          {[ "channel_id"%string := NamespaceID ref; "message_id"%string := m_ID m ]}).

Definition d_change (ns : string) : decoder DocumentChange := λ j,
  get k from d_str_field "kind" j in get i from d_str_field "id" j in get u from d_str_field "updated_at" j in
  Some {| ch_Kind := if str_eqb k "deleted" then ChangeDeleted else ChangeUpserted; ch_Ref := message_ref ns i u |}.
Definition DeltaSync (conn : connection) (ns : Namespace) (cursor : string) : Net (list DocumentChange * string) :=
  let q : gmap string string := {[ "channel"%string := ns_ID ns ]} in
  let@ resp := do_ conn (str_app "/channels.changes?" (Encode (if str_empty cursor then q else <["cursor"%string := cursor]> q))) in
  let@ _ := expect "kchat" ": status=" ": channels.changes status=" resp in
  let@ b := read_body "kchat" "changes" (λ j, get c from d_str_field "cursor" j in get l from d_list_field "changes" (d_change (ns_ID ns)) j in Some (l, c)) resp in
  eret b.

Definition d_event : decoder (string * string * (string * string)) := λ j,
  get t from d_str_field "type" j in get c from d_str_field "channel" j in
  get m from d_field "message" (λ j, get i from d_str_field "id" j in get u from d_str_field "updated_at" j in Some (i, u)) (EmptyString, EmptyString) j in
  Some (t, c, m).
Definition HandleWebhook (payload : blob) : result (list DocumentChange) conn_error :=
  match payload with
  | NoBytes => Err (Failed "kchat: empty webhook payload")
  | _ =>
      match decode d_event payload with
      | None => Err (Failed "kchat: decode webhook")
      | Some (t, channel, (id, updated)) =>
          let named := negb (str_empty id || str_empty channel) in
          Ok (if (str_eqb t "message.created" || str_eqb t "message.updated") && named then [{| ch_Kind := ChangeUpserted; ch_Ref := message_ref channel id updated |}]
              else if str_eqb t "message.deleted" && named then [{| ch_Kind := ChangeDeleted; ch_Ref := message_ref channel id EmptyString |}]
              else [])
      end
  end.
Definition VerifyWebhookRequest (hmac : bytes → bytes → bytes) : Z → Time → bytes → list (string * list string) → bytes → option webhook_error :=
  verify hmac "v1" "X-KChat-Signature" "X-KChat-Request-Timestamp".
End KChat.
End KChat.

(** ** Discord *)

Module Discord.
Import Connector Chat.

Definition defaultBaseURL : string := "https://discord.com/api/v10".

Section Discord.
Context `{Server} (baseURL : string).

Definition Validate : ConnectorConfig → result string conn_error := Suite.required "bot_token".
Definition do_ (conn : connection) (path : string) : Net Response := GET "discord" baseURL (str_app "Bot " (token conn)) path.

Definition Connect (cfg : ConnectorConfig) : Net connection :=
  let@ t := or_throw (Validate cfg) in
  let@ resp := do_ (connect cfg t "") "/users/@me" in
  let@ _ := expect_200 "discord" ": users/@me status=" resp in
  let@ bot := read_body "discord" "users/@me" (d_str_field "id") resp in
  eret (connect cfg t bot).

Definition d_guild : decoder (string * string) := λ j, get i from d_str_field "id" j in get n from d_str_field "name" j in Some (i, n).
Definition d_guild_channel : decoder (string * string * Z) := λ j, get g from d_guild j in get t from d_int_field "type" j in Some (g, t).
(** Text, announcement and forum channels. *)
Definition is_text (t : Z) : bool := ((t =? 0) || (t =? 5) || (t =? 15))%Z.
Definition channel_ns (g : string * string) (c : string * string * Z) : Namespace :=
  {| ns_ID := c.1.1; ns_Name := str_app g.2 (str_app "/" c.1.2); Kind := "text_channel"; ns_Metadata := {[ "guild_id"%string := g.1 ]} |}.
Fixpoint guild_channels (conn : connection) (guilds : list (string * string)) : Net (list Namespace) :=
  match guilds with
  | [] => eret []
  | g :: rest =>
      let@ r := do_ conn (str_app "/guilds/" (str_app g.1 "/channels")) in
      let@ _ := expect_200 "discord" ": list channels status=" r in
      let@ cs := read_body "discord" "channels" (d_list d_guild_channel) r in
      let@ more := guild_channels conn rest in
      eret ((channel_ns g <$> List.filter (λ c, is_text c.2) cs) ++ more)
  end.
Definition guilds_page (conn : connection) (after : string) : Net (list Namespace * option string) :=
  let q : gmap string string := {[ "limit"%string := "100"%string ]} in
  let@ resp := do_ conn (str_app "/users/@me/guilds?" (Encode (if str_empty after then q else <["after"%string := after]> q))) in
  let@ _ := expect_200 "discord" ": list guilds status=" resp in
  let@ guilds := read_body "discord" "guilds" (d_list d_guild) resp in
  let@ out := guild_channels conn guilds in
  eret (out, match last guilds with Some g => if (length guilds <? 100)%nat then None else Some g.1 | None => None end).
Definition ListNamespaces (fuel : nat) (conn : connection) : Net (option (list Namespace)) :=
  let@ pages := collect (guilds_page conn) fuel EmptyString in eret (@concat Namespace <$> pages).

Definition d_message (ns : string) : decoder DocumentRef := λ j,
  get i from d_str_field "id" j in get e from d_str_field "edited_timestamp" j in get t from d_str_field "timestamp" j in
  Some (Suite.ref_at ns i (Suite.first_text [e] t)).
(** The listing ends at an empty page. *)
Definition fetch_messages (it : msgIterator) : Net (fetched msgIterator) :=
  let q := with_cursor "before" it {[ "limit"%string := FormatInt (pageOr (PageSize (it_opts it)) 100) ]} in
  let@ resp := do_ (it_conn it) (str_app "/channels/" (str_app (ns_ID (it_ns it)) (str_app "/messages?" (Encode q)))) in
  let@ _ := expect "discord" ": status=" ": messages status=" resp in
  let@ refs := read_body "discord" "messages" (d_list (d_message (ns_ID (it_ns it)))) resp in
  eret (match last refs with
        | None => {| f_page := []; f_src := it; f_done := true; f_ret := false |}
        | Some r => {| f_page := refs; f_src := moved it (ID r); f_done := false; f_ret := true |}
        end).
#[export] Instance messages : PageSource msgIterator.
Proof.
  refine {| fetchPage := fetch_messages |}. intros s w f w' Hf. unfold fetch_messages in Hf. net_inv Hf. injection Hf as <- _. by destruct (last _).
Defined.

Definition ListDocuments (conn : connection) (ns : Namespace) (opts : ListOpts) : iter msgIterator :=
  fresh {| it_conn := conn; it_ns := ns; it_opts := opts; cursor := "" |}.
(** The methods of its iterator. *)
Definition Next := @Connector.Next msgIterator messages.
Definition Doc := @Connector.Doc msgIterator.
Definition Err_ := @Connector.Err_ msgIterator.

Record message := { m_Content : string; m_Timestamp : string; m_Edited : string; m_Username : string }.
Definition d_full : decoder message := λ j,
  get _ from d_str_field "id" j in get c from d_str_field "content" j in get t from d_str_field "timestamp" j in get e from d_str_field "edited_timestamp" j in
  get u from d_field "author" (d_str_field "username") EmptyString j in
  Some {| m_Content := c; m_Timestamp := t; m_Edited := e; m_Username := u |}.
Definition FetchDocument (conn : connection) (ref : DocumentRef) : Net Document :=
  let@ resp := do_ conn (str_app "/channels/" (str_app (NamespaceID ref) (str_app "/messages/" (ID ref)))) in
  let@ _ := expect_200 "discord" ": get message status=" resp in
  let@ m := read_body "discord" "message" d_full resp in
  eret (document ref (m_Username m) (m_Content m) (GoTime.parse_or_zero (m_Timestamp m)) (GoTime.parse_or_zero (Suite.first_text [m_Edited m] (m_Timestamp m))) ∅).

(** The cursor is the greatest identifier, compared as text. *)
Definition DeltaSync (conn : connection) (ns : Namespace) (cursor : string) : Net (list DocumentChange * string) :=
  let q : gmap string string := {[ "limit"%string := "100"%string ]} in
  let@ resp := do_ conn (str_app "/channels/" (str_app (ns_ID ns) (str_app "/messages?" (Encode (if str_empty cursor then q else <["after"%string := cursor]> q))))) in
  let@ _ := expect "discord" ": status=" ": messages status=" resp in
  let@ refs := read_body "discord" "messages" (d_list (d_message (ns_ID ns))) resp in
  eret (if str_empty cursor then [] else (λ r, {| ch_Kind := ChangeUpserted; ch_Ref := r |}) <$> refs, latest cursor (ID <$> refs)).
End Discord.
End Discord.

(** ** On concrete services *)

Module ChatSamples.
Import Connector Chat.

Definition start : Env (list Request) := {| store := []; calls_made := 0 |}.
Definition answer (j : json) : option Response := Some {| StatusCode := 200; Link := ""; RetryAfter := ""; RespBody := Parsed j |}.
Definition bot : connection := {| tenantID := "t"; sourceID := "s"; token := "k"; self := "u" |}.
Definition general : Namespace := {| ns_ID := "c1"; ns_Name := ""; Kind := "channel"; ns_Metadata := ∅ |}.

(** A request signed at noon, ten minutes later. *)
Definition toy_hmac (key payload : bytes) : bytes := key ++ payload.
Definition secret : bytes := to_bytes "key".
Definition body : bytes := to_bytes "{}".
Definition noon : Time := Calendar.Date 2024 5 1 12 0 0 0.
Definition headers : list (string * list string) :=
  [("X-Slack-Signature", [signature toy_hmac "v0" secret "1714564800" body]); ("X-Slack-Request-Timestamp", ["1714564800"])]%string.

Lemma timed_signatures_witness :
  Slack.VerifyWebhookRequest toy_hmac timestampSkew noon secret headers body = None ∧
  Slack.VerifyWebhookRequest toy_hmac timestampSkew (noon + 10 * minute)%Z secret headers body ≠ None.
Proof.
  unfold Slack.VerifyWebhookRequest. split.
  - apply (proj2 (timed_signatures toy_hmac "v0" "X-Slack-Signature" "X-Slack-Request-Timestamp" timestampSkew noon secret headers body
      ltac:(discriminate) ltac:(vm_compute; split; congruence) ltac:(vm_compute; split; congruence))).
    exists "1714564800"%string, 1714564800%Z. vm_compute. split; [reflexivity|]. split; [reflexivity|]. split; [split; discriminate|reflexivity].
  - intros Hv. apply (proj1 (timed_signatures toy_hmac "v0" "X-Slack-Signature" "X-Slack-Request-Timestamp" timestampSkew (noon + 10 * minute)%Z secret headers body
      ltac:(discriminate) ltac:(vm_compute; split; congruence) ltac:(vm_compute; split; congruence))) in Hv as (ts & parsed & -> & Hp & [_ Hd] & _).
    vm_compute in Hp. injection Hp as <-. vm_compute in Hd. apply Hd. reflexivity.
Defined.

(** The event of an edit has its own time; the message it is about is under another name
    that is not read: the change names a message that does not exist. *)
Definition edited : json :=
  JObj [("type", JStr "event_callback"); ("event", JObj [("type", JStr "message"); ("subtype", JStr "message_changed"); ("channel", JStr "c1"); ("ts", JStr "1714564900.000200");
    ("message", JObj [("ts", JStr "1714564800.000100")])])]%string.
Example edit_names_its_event :
  Slack.HandleWebhook (Parsed edited) = Ok [{| ch_Kind := ChangeUpserted; ch_Ref := Slack.message_ref "c1" "1714564900.000200" |}].
Proof. vm_compute. reflexivity. Qed.

(** Identifiers grew from eighteen to nineteen digits; as texts the longer ones come
    first: the cursor stays, and every sync reports the same messages. *)
Definition growing_ids : Server := λ _, answer (JArr [JObj [("id"%string, JStr "1000000000000000001")]]).
Example longer_id_keeps_the_cursor :
  match (Discord.DeltaSync (H := growing_ids) Discord.defaultBaseURL bot general "999999999999999999" start).1 with
  | Ok (changes, cursor) => (ID ∘ ch_Ref <$> changes, cursor)
  | Err _ => ([], EmptyString)
  end = (["1000000000000000001"%string], "999999999999999999"%string).
Proof. vm_compute. reflexivity. Qed.

(** An answer without a cursor ends the feed: the next call starts over without history. *)
Definition cursorless : Server := λ _, answer (JObj [("changes"%string, JArr [])]).
Example kchat_loses_its_cursor :
  match (KChat.DeltaSync (H := cursorless) KChat.defaultBaseURL bot general "c9" start).1 with Ok (_, cursor) => cursor | Err _ => "c9"%string end = EmptyString.
Proof. vm_compute. reflexivity. Qed.
End ChatSamples.
