(* ===== verification/Google.v ===== *)
(** * The connectors of Google

    connector/googledrive/googledrive.go and shared_drives.go, gmail/gmail.go and
    google_workspace/google_workspace.go, against an arbitrary service. Their cursors are
    a page token, a history number and a time. *)

From Stdlib Require Import Ascii.
From S2P Require Import Prelude GoString GoText Calendar GoTime Effects Json ConnectorBase Drives Suites.

Module GoogleAPI.
Import Connector.

(** A link to the next page is a token. *)
Definition next_of (token : string) : option string := if str_empty token then None else Some token.
Definition with_token (token : string) (q : gmap string string) : gmap string string := if str_empty token then q else <["pageToken"%string := token]> q.
Definition bare_ref (ns id : string) : DocumentRef := {| NamespaceID := ns; ID := id; ETag := ""; UpdatedAt := 0 |}.

(** Listings that remember whether they have begun. *)
Record tokenIterator (C : Type) := { it_conn : C; it_ns : Namespace; token_ : string; first : bool }.
#[global] Arguments it_conn {C} _.
#[global] Arguments it_ns {C} _.
#[global] Arguments token_ {C} _.
#[global] Arguments first {C} _.

Definition fetch_tokens {C} (ask : C → Namespace → string → Net (list DocumentRef * string)) (it : tokenIterator C) : Net (fetched (tokenIterator C)) :=
  if first it && str_empty (token_ it) then eret {| f_page := []; f_src := it; f_done := true; f_ret := false |}
  else
    let@ b := ask (it_conn it) (it_ns it) (token_ it) in
    eret (Suite.page_of b.1 (str_empty b.2) {| it_conn := it_conn it; it_ns := it_ns it; token_ := b.2; first := true |}).
Lemma fetch_tokens_empty {C} (ask : C → Namespace → string → Net (list DocumentRef * string)) it w f w' :
  fetch_tokens ask it w = (Ok f, w') → f_ret f = false → f_page f = [].
Proof.
  unfold fetch_tokens. destruct (first it && str_empty (token_ it)); [by intros [= <- _]|]. intros Hf. net_inv Hf. injection Hf as <- _. apply Suite.page_of_false.
Qed.
End GoogleAPI.

(** ** Google Drive *)

Module GoogleDrive.
Import Connector Token GoogleAPI.

Definition defaultBaseURL : string := "https://www.googleapis.com/drive/v3".

Section GoogleDrive.
Context `{Server} (raw : blob → string) (baseURL : string).

Definition Validate (cfg : ConnectorConfig) : result string conn_error :=
  match parse_creds (λ j, get t from d_str_field "access_token" j in get _ from d_str_field "refresh_token" j in get _ from d_str_field "token_uri" j in
                          get _ from d_str_field "expiry" j in Some t) cfg with
  | Err e => Err e
  | Ok t => if str_empty t then Err (ErrInvalidConfig "access_token required") else Ok t
  end.
Definition do_ (conn : connection) (path : string) : Net Response := GET "googledrive" baseURL (str_app "Bearer " (accessToken conn)) path.

Definition Connect (cfg : ConnectorConfig) : Net connection :=
  let@ t := or_throw (Validate cfg) in
  let conn := connect cfg t in
  let@ resp := do_ conn "/about?fields=user" in
  let@ _ := expect_200 "googledrive" ": auth check failed: status=" resp in
  eret conn.

Definition d_drive : decoder Namespace := λ j,
  get i from d_str_field "id" j in get n from d_str_field "name" j in
  Some {| ns_ID := i; ns_Name := n; Kind := "shared_drive"; ns_Metadata := {[ "drive_id"%string := i ]} |}.
Definition drives_page (conn : connection) (token : string) : Net (list Namespace * option string) :=
  let@ resp := do_ conn (str_app "/drives?" (Encode (with_token token {[ "pageSize"%string := "100"%string ]}))) in
  let@ _ := expect "googledrive" ": listing drives: status=" ": list drives status=" resp in
  let@ b := read_body "googledrive" "drives" (λ j, get n from d_str_field "nextPageToken" j in get d from d_list_field "drives" d_drive j in Some (d, n)) resp in
  eret (b.1, next_of b.2).
Definition my_drive : Namespace := {| ns_ID := "my-drive"; ns_Name := "My Drive"; Kind := "my_drive"; ns_Metadata := ∅ |}.
Definition ListNamespaces (fuel : nat) (conn : connection) : Net (option (list Namespace)) :=
  let@ pages := collect (drives_page conn) fuel EmptyString in eret ((λ l, my_drive :: @concat Namespace l) <$> pages).
(** The variant for shared drives. *)
Definition SharedDrives_ListNamespaces (fuel : nat) (conn : connection) : Net (option (list Namespace)) :=
  let@ all := ListNamespaces fuel conn in eret (List.filter (λ n, str_eqb (Kind n) "shared_drive") <$> all).

(** *** Files of a drive *)

Record docIterator := { it_conn : connection; it_ns : Namespace; it_opts : ListOpts; cursor : string }.
Definition drive_values (ns : Namespace) (q : gmap string string) : gmap string string :=
  if str_eqb (ns_ID ns) "my-drive" then q
  else <["driveId"%string := ns_ID ns]> (<["includeItemsFromAllDrives"%string := "true"%string]> (<["supportsAllDrives"%string := "true"%string]> q)).
Definition files_values (it : docIterator) : gmap string string :=
  let q : gmap string string :=
    {[ "fields"%string := "nextPageToken,files(id,name,mimeType,modifiedTime,size,version)"%string;
       "pageSize"%string := FormatInt (pageOr (PageSize (it_opts it)) 100); "orderBy"%string := "modifiedTime desc"%string ]} in
  let q := with_token (if str_empty (cursor it) then PageToken (it_opts it) else cursor it) q in
  let q := <["corpora"%string := if str_eqb (ns_ID (it_ns it)) "my-drive" then "user"%string else "drive"%string]> (drive_values (it_ns it) q) in
  if time_is_zero (Since (it_opts it)) then q
  else <["q"%string := str_app "modifiedTime > '" (str_app (GoTime.Format (Since (it_opts it))) "'")]> q.
Definition d_file (ns : string) : decoder DocumentRef := λ j,
  get i from d_str_field "id" j in get _ from d_str_field "name" j in get _ from d_str_field "mimeType" j in get m from d_str_field "modifiedTime" j in
  get _ from d_str_field "size" j in get v from d_str_field "version" j in
  Some {| NamespaceID := ns; ID := i; ETag := v; UpdatedAt := GoTime.parse_or_zero m |}.
Definition fetch_files (it : docIterator) : Net (fetched docIterator) :=
  let@ resp := do_ (it_conn it) (str_app "/files?" (Encode (files_values it))) in
  let@ _ := expect_ok "googledrive" ": list files status=" resp in
  let@ b := read_body "googledrive" "files" (λ j, get n from d_str_field "nextPageToken" j in get f from d_list_field "files" (d_file (ns_ID (it_ns it))) j in Some (f, n)) resp in
  eret (Suite.page_of b.1 (str_empty b.2)
          {| it_conn := it_conn it; it_ns := it_ns it; it_opts := it_opts it; cursor := if str_empty b.2 then cursor it else b.2 |}).
#[export] Instance files : PageSource docIterator.
Proof. refine {| fetchPage := fetch_files |}. intros s w f w' Hf. unfold fetch_files in Hf. net_inv Hf. injection Hf as <- _. apply Suite.page_of_false. Defined.

Definition ListDocuments (conn : connection) (ns : Namespace) (opts : ListOpts) : iter docIterator :=
  fresh {| it_conn := conn; it_ns := ns; it_opts := opts; cursor := "" |}.
(** The methods of its iterator. *)
Definition Next := @Connector.Next docIterator files.
Definition Doc := @Connector.Doc docIterator.
Definition Err_ := @Connector.Err_ docIterator.

Definition d_owner : decoder (string * string) := λ j, get e from d_str_field "emailAddress" j in get n from d_str_field "displayName" j in Some (e, n).
Definition d_meta : decoder (meta * list (string * string)) := λ j,
  get _ from d_str_field "id" j in get n from d_str_field "name" j in get t from d_str_field "mimeType" j in get s from d_str_field "size" j in
  get m from d_str_field "modifiedTime" j in get c from d_str_field "createdTime" j in get o from d_list_field "owners" d_owner j in
  Some ({| m_name := n; m_size := ParseInt_lax (to_bytes s); m_mime := t; m_created := c; m_modified := m |}, o).
Definition owner_of (owners : list (string * string)) : string :=
  match owners with [] => EmptyString | o :: _ => Suite.first_text [trim_space o.1] o.2 end.
Definition file_path (ref : DocumentRef) (rest : string) : string := str_app "/files/" (str_app (PathEscape (ID ref)) rest).
Definition FetchDocument (conn : connection) (ref : DocumentRef) : Net Document :=
  let@ metaResp := do_ conn (file_path ref "?fields=id,name,mimeType,size,modifiedTime,createdTime,owners(emailAddress,displayName)") in
  let@ _ := expect_200 "googledrive" ": get file status=" metaResp in
  let@ m := read_body "googledrive" "meta" d_meta metaResp in
  let@ bodyResp := do_ conn (file_path ref "?alt=media") in
  let@ _ := expect_200 "googledrive" ": download status=" bodyResp in
  eret {| Ref := ref; MIMEType := m_mime m.1; Title := m_name m.1; Author := owner_of m.2; Size := m_size m.1;
          CreatedAt := GoTime.parse_or_zero (m_created m.1); d_UpdatedAt := GoTime.parse_or_zero (m_modified m.1);
          Metadata := {[ "file_id"%string := ID ref; "drive_namespace"%string := NamespaceID ref ]}; Content := raw (RespBody bodyResp) |}.

(** *** Changes *)

Definition d_change (ns : string) : decoder DocumentChange := λ j,
  get i from d_str_field "fileId" j in get r from d_field "removed" d_bool false j in
  get _ from d_field "file" (d_str_field "id") EmptyString j in get m from d_field "file" (d_str_field "modifiedTime") EmptyString j in
  Some {| ch_Kind := if r then ChangeDeleted else ChangeUpserted; ch_Ref := {| NamespaceID := ns; ID := i; ETag := ""; UpdatedAt := GoTime.parse_or_zero m |} |}.
Definition DeltaSync (conn : connection) (ns : Namespace) (cursor : string) : Net (list DocumentChange * string) :=
  if str_empty cursor then
    let@ resp := do_ conn "/changes/startPageToken" in
    let@ _ := expect_ok "googledrive" ": startPageToken status=" resp in
    let@ t := read_body "googledrive" "startPageToken" (d_str_field "startPageToken") resp in
    eret ([], t)
  else
    let q := drive_values ns {[ "pageToken"%string := cursor;
      "fields"%string := "nextPageToken,newStartPageToken,changes(fileId,removed,file(id,modifiedTime))"%string ]} in
    let@ resp := do_ conn (str_app "/changes?" (Encode q)) in
    let@ _ := expect_ok "googledrive" ": changes status=" resp in
    let@ b := read_body "googledrive" "changes" (λ j,
      get n from d_str_field "nextPageToken" j in get s from d_str_field "newStartPageToken" j in get c from d_list_field "changes" (d_change (ns_ID ns)) j in Some (c, n, s)) resp in
    eret (b.1.1, Suite.first_text [b.1.2; b.2] cursor).
End GoogleDrive.
End GoogleDrive.

(** ** Gmail *)

Module Gmail.
Import Connector Token GoogleAPI.

Definition defaultBaseURL : string := "https://gmail.googleapis.com/gmail/v1".
Definition defaultPageSize : Z := 100.

Section Gmail.
Context `{Server} (raw : blob → string) (baseURL : string).

Definition do_ (conn : connection) (path : string) : Net Response := GET "gmail" baseURL (str_app "Bearer " (accessToken conn)) path.

Definition Connect (cfg : ConnectorConfig) : Net connection :=
  let@ t := or_throw (Token.Validate cfg) in
  let conn := connect cfg t in
  let@ resp := do_ conn "/users/me/profile" in
  let@ _ := expect "gmail" ": status=" ": /profile status=" resp in
  eret conn.

Definition d_label : decoder Namespace := λ j,
  get i from d_str_field "id" j in get n from d_str_field "name" j in get t from d_str_field "type" j in
  Some {| ns_ID := i; ns_Name := n; Kind := "label"; ns_Metadata := {[ "label_type"%string := t ]} |}.
Definition ListNamespaces (conn : connection) : Net (list Namespace) :=
  let@ resp := do_ conn "/users/me/labels" in
  let@ _ := expect "gmail" ": status=" ": labels status=" resp in
  read_body "gmail" "labels" (d_list_field "labels" d_label) resp.

Definition d_message (ns : string) : decoder DocumentRef := λ j,
  get i from d_str_field "id" j in get _ from d_str_field "threadId" j in Some (bare_ref ns i).
Definition ask_messages (conn : connection) (ns : Namespace) (token : string) : Net (list DocumentRef * string) :=
  let q := with_token token {[ "labelIds"%string := ns_ID ns; "maxResults"%string := FormatInt defaultPageSize ]} in
  let@ resp := do_ conn (str_app "/users/me/messages?" (Encode q)) in
  let@ _ := expect "gmail" ": status=" ": messages list status=" resp in
  read_body "gmail" "messages" (λ j, get m from d_list_field "messages" (d_message (ns_ID ns)) j in get n from d_str_field "nextPageToken" j in Some (m, n)) resp.
#[export] Instance messages : PageSource (tokenIterator connection).
Proof. refine {| fetchPage := fetch_tokens ask_messages |}. intros s w f w' Hf. exact (fetch_tokens_empty _ _ _ _ _ Hf). Defined.

Definition ListDocuments (conn : connection) (ns : Namespace) : iter (tokenIterator connection) := fresh {| it_conn := conn; it_ns := ns; token_ := ""; first := false |}.
(** The methods of its iterator. *)
Definition Next := @Connector.Next (tokenIterator connection) messages.
Definition Doc := @Connector.Doc (tokenIterator connection).
Definition Err_ := @Connector.Err_ (tokenIterator connection).

Definition d_header : decoder (string * string) := λ j, get n from d_str_field "name" j in get v from d_str_field "value" j in Some (n, v).
(** [strings.ToLower] of a header's name against a name in lower case. *)
Definition is_named (name : string) (h : string * string) : bool := bool_decide (lowered <$> runes (to_bytes h.1) = to_bytes name).
Definition header (name : string) (hs : list (string * string)) : string := default EmptyString (snd <$> last (List.filter (is_named name) hs)).
Definition FetchDocument (conn : connection) (ref : DocumentRef) : Net Document :=
  let q := EncodeValues [("format", "metadata"); ("metadataHeaders", "Subject"); ("metadataHeaders", "From")]%string in
  let@ resp := do_ conn (str_app "/users/me/messages/" (str_app (ID ref) (str_app "?" q))) in
  let@ _ := expect "gmail" ": status=" ": fetch message status=" resp in
  let b := RespBody resp in
  let text (name : string) := lenient (d_str_field name) EmptyString b in
  let hs := lenient (d_field "payload" (d_list_field "headers" d_header) []) [] b in
  let updated := GoTime.of_millis (ParseInt_lax (to_bytes (text "internalDate"%string))) in
  eret (Suite.document (raw b) {| NamespaceID := NamespaceID ref; ID := text "id"%string; ETag := text "historyId"%string; UpdatedAt := updated |}
          (of_bytes (take 200 (to_bytes (Suite.first_text [header "subject" hs] (text "snippet"%string))))) (header "from" hs) updated updated
          {[ "history_id"%string := text "historyId"%string; "label_id"%string := NamespaceID ref ]}).

(** *** Changes *)

Definition d_moved : decoder string := d_field "message" (d_str_field "id") EmptyString.
Definition history_change (k : ChangeKind) (ns entry id : string) : DocumentChange :=
  {| ch_Kind := k; ch_Ref := {| NamespaceID := ns; ID := id; ETag := entry; UpdatedAt := 0 |} |}.
Definition d_entry (ns : string) : decoder (list DocumentChange) := λ j,
  get i from d_str_field "id" j in get a from d_list_field "messagesAdded" d_moved j in get d from d_list_field "messagesDeleted" d_moved j in
  Some ((history_change ChangeUpserted ns i <$> a) ++ (history_change ChangeDeleted ns i <$> d)).
(** The answer may say that there is a further page; it is not looked at. *)
Definition DeltaSync (conn : connection) (ns : Namespace) (cursor : string) : Net (list DocumentChange * string) :=
  if str_empty cursor then
    let@ resp := do_ conn "/users/me/profile" in
    let@ _ := expect "gmail" ": status=" ": bootstrap status=" resp in
    let@ h := read_body "gmail" "bootstrap" (d_str_field "historyId") resp in
    eret ([], Suite.first_text [h] "1")
  else
    let q := EncodeValues [("historyTypes", "messageAdded"); ("historyTypes", "messageDeleted"); ("labelId", ns_ID ns); ("startHistoryId", cursor)]%string in
    let@ resp := do_ conn (str_app "/users/me/history?" q) in
    let@ _ := expect "gmail" ": status=" ": history status=" resp in
    let@ b := read_body "gmail" "history" (λ j, get h from d_list_field "history" (d_entry (ns_ID ns)) j in get n from d_str_field "historyId" j in Some (h, n)) resp in
    eret (@concat DocumentChange b.1, Suite.first_text [b.2] cursor).
End Gmail.
End Gmail.

(** ** Google Workspace *)

Module Workspace.
Import Connector GoogleAPI.

Definition defaultBaseURL : string := "https://admin.googleapis.com/admin/directory/v1".
Definition defaultCustomer : string := "my_customer".
Definition defaultPageSize : Z := 200.
Definition maxDeltaPages : nat := 50.

Record connection := { tenantID : string; sourceID : string; token : string; customer : string }.

(** Throttling is a status of its own, or a refusal that gives it as a reason. *)
Definition throttle_reasons : list string := ["userRateLimitExceeded"; "quotaExceeded"; "rateLimitExceeded"]%string.
Definition isRateLimited (resp : Response) : bool :=
  if (StatusCode resp =? 429)%Z then true
  else if (StatusCode resp =? 403)%Z then
    match decode (d_field "error" (d_list_field "errors" (d_str_field "reason")) []) (RespBody resp) with
    | Some reasons => existsb (λ r, existsb (str_eqb r) throttle_reasons) reasons
    | None => false
    end
  else false.
Definition expect_ws (limited what : string) (resp : Response) : Net unit :=
  if isRateLimited resp then ethrow (ErrRateLimited (status_text "google_workspace" limited resp)) else expect_200 "google_workspace" what resp.

Section Workspace.
Context `{Server} (raw : blob → string) (baseURL : string).

Definition Validate (cfg : ConnectorConfig) : result (string * string) conn_error :=
  match parse_creds (λ j, get t from d_str_field "access_token" j in get c from d_str_field "customer" j in Some (t, c)) cfg with
  | Err e => Err e
  | Ok c => if str_empty c.1 then Err (ErrInvalidConfig "access_token required") else Ok c
  end.
Definition do_ (conn : connection) (path : string) : Net Response := GET "google_workspace" baseURL (str_app "Bearer " (token conn)) path.

Definition Connect (cfg : ConnectorConfig) : Net connection :=
  let@ c := or_throw (Validate cfg) in
  let conn := {| tenantID := TenantID cfg; sourceID := SourceID cfg; token := c.1; customer := Suite.first_text [c.2] defaultCustomer |} in
  let@ resp := do_ conn (str_app "/users?customer=" (str_app (QueryEscape (customer conn)) "&maxResults=1")) in
  let@ _ := expect_ws ": status=" ": /users status=" resp in
  eret conn.

Definition ListNamespaces : list Namespace := Okta.ListNamespaces.

Definition principals (ns : Namespace) (q : gmap string string) : string := str_app "/" (str_app (ns_ID ns) (str_app "?" (Encode q))).
(** Both lists are decoded, one of them is used. *)
Definition d_user : decoder (string * bool) := λ j,
  get i from d_str_field "id" j in get _ from d_str_field "primaryEmail" j in get s from d_field "suspended" d_bool false j in get _ from d_str_field "creationTime" j in Some (i, s).
Definition d_listed_user : decoder (string * bool) := λ j, get u from d_user j in get _ from d_str_field "lastLoginTime" j in Some u.
Definition d_group : decoder (string * bool) := λ j, get i from d_str_field "id" j in get _ from d_str_field "email" j in Some (i, false).
Definition d_listed_group : decoder (string * bool) := λ j,
  get g from d_group j in get _ from d_str_field "name" j in get _ from d_str_field "description" j in Some g.
Definition d_principals (user group : decoder (string * bool)) (ns : Namespace) : decoder (list (string * bool) * string) := λ j,
  get u from d_list_field "users" user j in get g from d_list_field "groups" group j in get n from d_str_field "nextPageToken" j in
  Some (if str_eqb (ns_ID ns) "users" then u else g, n).

Definition ask_principals (conn : connection) (ns : Namespace) (t : string) : Net (list DocumentRef * string) :=
  let q := with_token t {[ "customer"%string := customer conn; "maxResults"%string := FormatInt defaultPageSize ]} in
  let@ resp := do_ conn (principals ns q) in
  let what := str_app ": list " (str_app (ns_ID ns) " status=") in
  let@ _ := expect_ws what what resp in
  let@ b := read_body "google_workspace" (ns_ID ns) (d_principals d_listed_user d_listed_group ns) resp in
  eret ((λ p, bare_ref (ns_ID ns) p.1) <$> b.1, b.2).
#[export] Instance listed : PageSource (tokenIterator connection).
Proof. refine {| fetchPage := fetch_tokens ask_principals |}. intros s w f w' Hf. exact (fetch_tokens_empty _ _ _ _ _ Hf). Defined.

Definition ListDocuments (conn : connection) (ns : Namespace) : iter (tokenIterator connection) := fresh {| it_conn := conn; it_ns := ns; token_ := ""; first := false |}.
(** The methods of its iterator. *)
Definition Next := @Connector.Next (tokenIterator connection) listed.
Definition Doc := @Connector.Doc (tokenIterator connection).
Definition Err_ := @Connector.Err_ (tokenIterator connection).

(** The name of a user is an object, that of a group a text. *)
Definition name_of (b : blob) : string :=
  match b with
  | Parsed (JObj l) =>
      match member "name" l with
      | Some n => match d_str_field "fullName" n with
                  | Some full => if str_empty full then default EmptyString (d_str n) else full
                  | None => default EmptyString (d_str n)
                  end
      | None => EmptyString
      end
  | _ => EmptyString
  end.
Definition FetchDocument (conn : connection) (ref : DocumentRef) : Net Document :=
  let@ resp := do_ conn (str_app "/" (str_app (NamespaceID ref) (str_app "/" (PathEscape (ID ref))))) in
  let@ _ := expect_ws ": fetch status=" (fetch_status (ID ref)) resp in
  let b := RespBody resp in
  let text (name : string) := lenient (d_str_field name) EmptyString b in
  let created := GoTime.parse_or_zero (text "creationTime"%string) in
  eret (Suite.document (raw b) ref (Suite.first_text [text "primaryEmail"%string; text "email"%string; name_of b] (text "id"%string)) (text "primaryEmail"%string)
          created created {[ "kind"%string := NamespaceID ref ]}).

(** *** Changes: the cursor is the time at which the walk ended *)

Definition principal_change (ns : string) (p : string * bool) : DocumentChange :=
  {| ch_Kind := if p.2 then ChangeDeleted else ChangeUpserted; ch_Ref := bare_ref ns p.1 |}.
Definition delta_values (conn : connection) (ns : Namespace) (cursor t : string) : gmap string string :=
  let q : gmap string string := {[ "customer"%string := customer conn; "maxResults"%string := FormatInt defaultPageSize; "updatedMin"%string := cursor ]} in
  with_token t (if str_eqb (ns_ID ns) "users" then <["query"%string := "email:* "%string]> q else q).
Definition delta_page (conn : connection) (ns : Namespace) (cursor t : string) : Net (list DocumentChange * option string) :=
  let@ resp := do_ conn (principals ns (delta_values conn ns cursor t)) in
  let@ _ := expect_ws ": delta status=" ": delta status=" resp in
  let@ b := read_body "google_workspace" "delta" (d_principals d_user d_group ns) resp in
  eret (principal_change (ns_ID ns) <$> b.1, next_of b.2).
Definition DeltaSync (now : Time) (conn : connection) (ns : Namespace) (cursor : string) : Net (list DocumentChange * string) :=
  if str_empty cursor then
    let q : gmap string string := {[ "customer"%string := customer conn; "orderBy"%string := "email"%string; "sortOrder"%string := "DESCENDING"%string; "maxResults"%string := "1"%string ]} in
    let@ resp := do_ conn (principals ns q) in
    let@ _ := expect_ws ": bootstrap status=" ": bootstrap status=" resp in
    eret ([], GoTime.Format now)
  else
    let@ pages := collect (delta_page conn ns cursor) maxDeltaPages EmptyString in
    match pages with
    | Some l => eret (@concat DocumentChange l, GoTime.Format now)
    | None => ethrow (Failed (str_app "google_workspace: delta exceeded max pages (50) for updatedMin=" (str_app cursor "; reduce sync window")))
    end.

(** A sync reports the changes of all pages the service has, or the error that cut them
    short, when there are fewer than fifty; with more than fifty it fails and keeps nothing. *)
Theorem Workspace_DeltaSync_complete now conn ns cursor w pages e w' :
  cursor ≠ EmptyString → chain (delta_page conn ns cursor) EmptyString w pages e w' → S (length pages) ≤ maxDeltaPages →
  DeltaSync now conn ns cursor w =
    (match e with None => Ok (concat pages, GoTime.Format now) | Some err => Err err end, w').
Proof.
  intros Hc Hch Hl. unfold DeltaSync. rewrite (proj2 (str_empty_false cursor) Hc). unfold ebind. rewrite (collect_chain _ _ _ _ _ _ maxDeltaPages Hch) by lia. by destruct e.
Qed.
End Workspace.
End Workspace.

(** ** On concrete services *)

Module GoogleSamples.
Import Connector Token GoogleAPI.

Definition start : Env (list Request) := {| store := []; calls_made := 0 |}.
Definition answer (status : Z) (j : json) : option Response := Some {| StatusCode := status; Link := ""; RetryAfter := ""; RespBody := Parsed j |}.
Definition alice : connection := {| tenantID := "t"; sourceID := "s"; accessToken := "k" |}.
Definition place (id : string) : Namespace := {| ns_ID := id; ns_Name := ""; Kind := ""; ns_Metadata := ∅ |}.
Definition seen (r : result (list DocumentChange * string) conn_error) : option (list string * string) :=
  match r with Ok (l, c) => Some (ID ∘ ch_Ref <$> l, c) | Err _ => None end.

(** A history of two pages: the first is read, and the cursor moves behind the second. *)
Definition added (id : string) : json := JObj [("messagesAdded"%string, JArr [JObj [("message"%string, JObj [("id"%string, JStr id)])]])].
Definition long_history : Server := λ log,
  match log with
  | [_] => answer 200 (JObj [("history"%string, JArr [added "m1"]); ("nextPageToken"%string, JStr "P"); ("historyId"%string, JStr "90")])
  | _ => answer 200 (JObj [("history"%string, JArr [added "m2"]); ("historyId"%string, JStr "90")])
  end.
Example second_page_of_history_is_lost :
  match Gmail.DeltaSync (H := long_history) Gmail.defaultBaseURL alice (place "INBOX") "10" start with
  | (r, w) => (seen r, length (store w))
  end = (Some (["m1"%string], "90"%string), 1).
Proof. vm_compute. reflexivity. Qed.

(** The first token of a shared drive is asked for without naming the drive. *)
Definition tokens : Server := λ _, answer 200 (JObj [("startPageToken"%string, JStr "1")]).
Example start_token_names_no_drive :
  URL <$> store (GoogleDrive.DeltaSync (H := tokens) GoogleDrive.defaultBaseURL alice (place "drive-1") "" start).2 =
  ["https://www.googleapis.com/drive/v3/changes/startPageToken"]%string.
Proof. vm_compute. reflexivity. Qed.

(** Whatever the service answered, the next sync asks for changes after the end of this
    one: what was changed while the pages were read is not asked for again. *)
Definition director : Workspace.connection := {| Workspace.tenantID := "t"; Workspace.sourceID := "s"; Workspace.token := "k"; Workspace.customer := "c" |}.
Definition quiet : Server := λ _, answer 200 (JObj [("users"%string, JArr [])]).
Definition noon (m : Z) : Time := Calendar.Date 2024 5 1 12 m 0 0.
Example cursor_is_the_end_of_the_walk :
  seen (Workspace.DeltaSync (H := quiet) Workspace.defaultBaseURL (noon 7) director (place "users") "2024-05-01T12:00:00Z" start).1 = Some ([], "2024-05-01T12:07:00Z"%string).
Proof. vm_compute. reflexivity. Qed.

(** A refusal that names a quota is a throttle, another one is not. *)
Definition refused (reason : string) : Server := λ _, answer 403 (JObj [("error"%string, JObj [("errors"%string, JArr [JObj [("reason"%string, JStr reason)]])])]).
Example quota_is_a_throttle :
  (Workspace.DeltaSync (H := refused "quotaExceeded") Workspace.defaultBaseURL 0 director (place "users") "c" start).1 = Err (ErrRateLimited "google_workspace: delta status=403") ∧
  (Workspace.DeltaSync (H := refused "forbidden") Workspace.defaultBaseURL 0 director (place "users") "c" start).1 = Err (Failed "google_workspace: delta status=403").
Proof. vm_compute. split; reflexivity. Qed.
End GoogleSamples.
