(* ===== verification/Evaluation.v ===== *)
(** * Evaluation of retrieval

    eval/eval.go and metrics.go: labelled suites and the four metrics; runner.go: the run
    of a suite against the retriever ([Retriever] of the code, an argument here);
    store.go and handler.go: the stored suites and the endpoints ([Suites]);
    retrieval/feedback_handler.go and eval/feedback.go: relevance signals and the cases
    made of them ([Feedback]). The logarithm of the standard library is an argument of
    the metrics. *)

From Stdlib Require Import Ascii.
From S2P Require Import Prelude GoFloat GoString Effects.

Module Evaluation.

(** ** Suites *)

Record EvalCase := {
  Query : string;
  ExpectedChunkIDs : list string;
  ExpectedMinScore : float;
  TopK : Z;
  SkillID : string;
  PrivacyMode : string
}.
Record EvalSuite := { Name : string; TenantID : string; Cases : list EvalCase; DefaultK : Z }.

Definition itoa (i : Z) : string :=
  if (i =? 0)%Z then "0"%string
  else let digits := digits_of 20 (Z.to_N (Z.abs i)) [] in of_bytes (if (i <? 0)%Z then "-"%char :: digits else digits).

Definition ErrEmptySuite : string := "eval: suite has no cases".
Fixpoint bad_case (i : Z) (cases : list EvalCase) : option string :=
  match cases with
  | [] => None
  | c :: rest =>
      if str_empty (trim_space (Query c)) then Some (str_app "eval: case[" (str_app (itoa i) "] missing Query"))
      else bad_case (i + 1) rest
  end.
(** The first violation. *)
Definition Validate (s : EvalSuite) : option string :=
  if str_empty (trim_space (Name s)) then Some "eval: suite Name is required"%string
  else if str_empty (trim_space (TenantID s)) then Some "eval: suite TenantID is required"%string
  else match Cases s with [] => Some ErrEmptySuite | cases => bad_case 0 cases end.

Definition defaultK : Z := 10.
Definition EffectiveK (s : EvalSuite) (c : EvalCase) : Z :=
  if (0 <? TopK c)%Z then TopK c else if (0 <? DefaultK s)%Z then DefaultK s else defaultK.

(** ** Metrics *)

Record Metrics := { PrecisionAtK : float; RecallAtK : float; MRR : float; NDCG : float }.
Definition no_metrics : Metrics := {| PrecisionAtK := f_zero; RecallAtK := f_zero; MRR := f_zero; NDCG := f_zero |}.

(** [1.0 / float64(n)] *)
Definition reciprocal (n : Z) : float := f64_div (f64_of_Z 1) (f64_of_Z n).
Definition min_ (a b : Z) : Z := if (a <? b)%Z then a else b.

Record tally := { hits : Z; mrr : float; dcg : float }.

Section Metrics.
Context (Log2 : float → float).

Definition gain (i : Z) : float := f64_div (f64_of_Z 1) (Log2 (f64_of_Z (i + 2))).
Fixpoint scan (expectedSet : gset string) (i : Z) (ids : list string) (t : tally) : tally :=
  match ids with
  | [] => t
  | id :: rest =>
      scan expectedSet (i + 1) rest
        (if bool_decide (id ∈ expectedSet) then
           {| hits := hits t + 1;
              mrr := if f_eqb (mrr t) f_zero then reciprocal (i + 1) else mrr t;
              dcg := f64_add (dcg t) (gain i) |}
         else t)
  end.
Definition idealDCG (k : Z) : float :=
  if (k <=? 0)%Z then f_zero else foldl (λ v i, f64_add v (gain (Z.of_nat i))) f_zero (seq 0 (Z.to_nat k)).

Definition cut (k : Z) (retrievedIDs : list string) : Z :=
  if ((k <=? 0) || (Z.of_nat (length retrievedIDs) <? k))%Z then Z.of_nat (length retrievedIDs) else k.
Definition ComputeMetrics (retrievedIDs expectedIDs : list string) (k : Z) : Metrics :=
  let k := cut k retrievedIDs in
  match expectedIDs with
  | [] => {| PrecisionAtK := f_zero; RecallAtK := f64_of_Z 1; MRR := f_zero; NDCG := f_zero |}
  | _ =>
      let t := scan (list_to_set expectedIDs) 0 (take (Z.to_nat k) retrievedIDs) {| hits := 0; mrr := f_zero; dcg := f_zero |} in
      let idcg := idealDCG (min_ k (Z.of_nat (length expectedIDs))) in
      {| PrecisionAtK := if (0 <? k)%Z then f64_div (f64_of_Z (hits t)) (f64_of_Z k) else f_zero;
         RecallAtK := f64_div (f64_of_Z (hits t)) (f64_of_Z (Z.of_nat (length expectedIDs)));
         MRR := mrr t;
         NDCG := if f_gtb idcg f_zero then f64_div (dcg t) idcg else f_zero |}
  end.

Definition total (f : Metrics → float) (items : list Metrics) : float := foldl (λ acc it, f64_add acc (f it)) f_zero items.
Definition AggregateMetrics (items : list Metrics) : Metrics :=
  match items with
  | [] => no_metrics
  | _ =>
      let count := total (λ _, f64_of_Z 1) items in
      if f_eqb count f_zero then no_metrics
      else {| PrecisionAtK := f64_div (total PrecisionAtK items) count; RecallAtK := f64_div (total RecallAtK items) count;
              MRR := f64_div (total MRR items) count; NDCG := f64_div (total NDCG items) count |}
  end.

(** ** Runs *)

Record RetrieveRequest := { req_TenantID : string; req_Query : string; req_TopK : Z; req_SkillID : string; req_PrivacyMode : string }.
Record RetrieveHit := { ID : string; Score : float }.
Record EvalCaseResult := {
  res_Query : string;
  Expected : list string;
  Returned : list string;
  K : Z;
  res_Metrics : Metrics;
  TopScore : float;
  res_Duration : Z;
  Error : string
}.
Record EvalReport := {
  SuiteName : string;
  rep_TenantID : string;
  StartedAt : Time;
  CompletedAt : Time;
  Duration : Z;
  rep_K : Z;
  rep_Cases : list EvalCaseResult;
  Aggregate : Metrics;
  FailedCases : Z
}.

(** What the n-th call of the retriever returns, whether the context has ended when it is
    asked after the n-th case, and the readings of the clock: the start, two for each
    case, the end. *)
Record world := {
  Retrieve : nat → RetrieveRequest → list RetrieveHit * option string;
  ctx_Err : nat → option string;
  time_Now : nat → Time
}.

(** A case: its result, and its metrics when it was scored. *)
Definition run_case (w : world) (suite : EvalSuite) (n : nat) (c : EvalCase) : EvalCaseResult * option Metrics :=
  let k := EffectiveK suite c in
  let '(found, e) := Retrieve w n {| req_TenantID := TenantID suite; req_Query := Query c; req_TopK := k; req_SkillID := SkillID c; req_PrivacyMode := PrivacyMode c |} in
  let ids := ID <$> found in
  let topScore := match found with [] => f_zero | h :: _ => Score h end in
  let result_of (ms : Metrics) (err : string) :=
    {| res_Query := Query c; Expected := ExpectedChunkIDs c; Returned := ids; K := k; res_Metrics := ms; TopScore := topScore;
       res_Duration := time_sub (time_Now w (2 * n + 2)) (time_Now w (2 * n + 1)); Error := err |} in
  match e with
  | Some e => (result_of no_metrics e, None)
  | None =>
      if f_gtb (ExpectedMinScore c) f_zero && f_ltb topScore (ExpectedMinScore c)
      then (result_of no_metrics "top score below expected_min_score"%string, None)
      else let ms := ComputeMetrics ids (ExpectedChunkIDs c) k in (result_of ms EmptyString, Some ms)
  end.

(** The cases run so far, in order. *)
Fixpoint run_cases (w : world) (suite : EvalSuite) (n : nat) (cases : list EvalCase) (done_ : list (EvalCaseResult * option Metrics))
    : list (EvalCaseResult * option Metrics) * option string :=
  match cases with
  | [] => (done_, None)
  | c :: rest =>
      let r := run_case w suite n c in
      match r.2, ctx_Err w n with
      | Some _, Some e => (done_ ++ [r], Some e)
      | _, _ => run_cases w suite (S n) rest (done_ ++ [r])
      end
  end.

Definition report_of (w : world) (suite : EvalSuite) (ran : list (EvalCaseResult * option Metrics)) (aggregate : Metrics) : EvalReport :=
  let completed := time_Now w (2 * length ran + 1) in
  {| SuiteName := Name suite; rep_TenantID := TenantID suite; StartedAt := time_Now w 0; CompletedAt := completed;
     Duration := time_sub completed (time_Now w 0); rep_K := if (DefaultK suite =? 0)%Z then defaultK else DefaultK suite;
     rep_Cases := fst <$> ran; Aggregate := aggregate; FailedCases := Z.of_nat (length (List.filter (λ r, match r.2 with None => true | _ => false end) ran)) |}.

(** The report and the error beside it; [None] is no retriever. *)
Definition Run (w : option world) (suite : EvalSuite) : option EvalReport * option string :=
  match w with
  | None => (None, Some "eval: Run requires a Retriever"%string)
  | Some w =>
      match Validate suite with
      | Some e => (None, Some e)
      | None =>
          match run_cases w suite 0 (Cases suite) [] with
          | (ran, Some e) => (Some (report_of w suite ran no_metrics), Some e)
          | (ran, None) => (Some (report_of w suite ran (AggregateMetrics (omap snd ran))), None)
          end
      end
  end.

(** ** A run covers its suite *)

Lemma run_cases_live w suite n cases ran :
  (∀ n, ctx_Err w n = None) → run_cases w suite n cases ran = (ran ++ imap (λ i, run_case w suite (n + i)) cases, None).
Proof.
  intros Hctx. revert n ran. induction cases as [|c cases IH]; intros n ran; simpl; [by rewrite app_nil_r|]. rewrite Hctx.
  replace (run_case w suite (n + 0)) with (run_case w suite n) by (by rewrite Nat.add_0_r).
  assert (E : imap ((λ i, run_case w suite (n + i)) ∘ S) cases = imap (λ i, run_case w suite (S n + i)) cases).
  { apply imap_ext. intros i x _. simpl. by rewrite Nat.add_succ_r. }
  rewrite E. destruct (run_case w suite n c).2; by rewrite IH, <- app_assoc.
Qed.

(** With a live context every case is run once, in order; the report counts the failed
    ones, and averages the metrics of exactly the others. *)
Theorem Run_complete w suite :
  Validate suite = None → (∀ n, ctx_Err w n = None) →
  let ran := imap (run_case w suite) (Cases suite) in
  ∃ report, Run (Some w) suite = (Some report, None) ∧ rep_Cases report = fst <$> ran ∧
    (length (omap snd ran) + Z.to_nat (FailedCases report) = length (Cases suite))%nat ∧
    Aggregate report = AggregateMetrics (omap snd ran).
Proof.
  intros Hv Hctx. cbv zeta. set (ran := imap (run_case w suite) (Cases suite)).
  exists (report_of w suite ran (AggregateMetrics (omap snd ran))).
  unfold Run. rewrite Hv, run_cases_live by done. simpl. fold ran. repeat split.
  rewrite Nat2Z.id. transitivity (length ran); [|apply length_imap]. clearbody ran. induction ran as [|[r [ms|]] ran IH]; [done|..]; unfold omap in *; simpl in *; lia.
Qed.

(** ** What the metrics measure *)

Definition relevant (expectedIDs : list string) (id : string) : bool := bool_decide (id ∈ expectedIDs).
(** The rank, from 0, of the first relevant result. *)
Definition first_relevant (expectedIDs ids : list string) : option nat := fst <$> list_find (λ id, relevant expectedIDs id = true) ids.

Lemma scan_hits es i ids t : hits (scan es i ids t) = (hits t + Z.of_nat (length (List.filter (λ id, bool_decide (id ∈ es)) ids)))%Z.
Proof.
  revert i t. induction ids as [|id ids IH]; intros i t; simpl; [lia|]. rewrite IH. destruct (bool_decide (id ∈ es)); simpl; lia.
Qed.

(** No reciprocal of a rank up to 1000 is zero: a set rank is not overwritten. *)
Lemma reciprocal_nonzero n : (1 ≤ n ≤ 1000)%Z → f_eqb (reciprocal n) f_zero = false.
Proof.
  assert (H : forallb (λ m, negb (f_eqb (reciprocal (Z.of_nat m)) f_zero)) (seq 1 1000) = true) by (vm_compute; reflexivity).
  intros Hn. rewrite forallb_forall in H. specialize (H (Z.to_nat n)). rewrite Z2Nat.id in H by lia.
  apply negb_true_iff, H, in_seq. lia.
Qed.

Lemma scan_mrr_set es i ids t : f_eqb (mrr t) f_zero = false → mrr (scan es i ids t) = mrr t.
Proof.
  revert i t. induction ids as [|id ids IH]; intros i t Ht; simpl; [done|]. destruct (bool_decide (id ∈ es)); [|by apply IH].
  rewrite IH; simpl; by rewrite Ht.
Qed.

Lemma relevant_set expected id : relevant expected id = bool_decide (id ∈ (list_to_set expected : gset string)).
Proof. unfold relevant. apply bool_decide_ext. set_solver. Qed.

Lemma scan_mrr expected i ids t :
  mrr t = f_zero → (0 ≤ i)%Z → (i + Z.of_nat (length ids) ≤ 1000)%Z →
  mrr (scan (list_to_set expected) i ids t) =
    match first_relevant expected ids with Some r => reciprocal (i + Z.of_nat r + 1) | None => f_zero end.
Proof.
  revert i t. induction ids as [|id ids IH]; intros i t Ht Hi Hl; [done|]. cbn [length] in Hl.
  unfold first_relevant. cbn [scan list_find]. rewrite <- relevant_set. destruct (relevant expected id) eqn:Er.
  - rewrite (decide_True (P := true = true)) by done. cbn [fmap option_fmap option_map fst].
    assert (E : f_eqb (mrr t) f_zero = true) by (by rewrite Ht). rewrite E.
    rewrite scan_mrr_set; [simpl; f_equal; lia|]. simpl. apply reciprocal_nonzero. lia.
  - rewrite (decide_False (P := false = true)) by done. rewrite IH by (done || lia). unfold first_relevant.
    destruct (list_find _ ids) as [[r x]|]; simpl; [|done]. f_equal. lia.
Qed.

(** Precision and recall divide the number of relevant results among the first k by k and
    by the size of the label; the reciprocal rank is that of the first relevant result.
    Without repeated results, that number is at most k and at most the number of labels,
    so both ratios are of a smaller by a larger number. *)
Theorem ComputeMetrics_exact retrieved expected k :
  expected ≠ [] → length retrieved ≤ 1000 →
  let n := cut k retrieved in
  let top := take (Z.to_nat n) retrieved in
  let h := Z.of_nat (length (List.filter (relevant expected) top)) in
  let m := ComputeMetrics retrieved expected k in
  (0 ≤ h ≤ n)%Z ∧ (NoDup retrieved → h ≤ Z.of_nat (length expected))%Z ∧
  PrecisionAtK m = (if (0 <? n)%Z then f64_div (f64_of_Z h) (f64_of_Z n) else f_zero) ∧
  RecallAtK m = f64_div (f64_of_Z h) (f64_of_Z (Z.of_nat (length expected))) ∧
  MRR m = match first_relevant expected top with Some r => reciprocal (Z.of_nat r + 1) | None => f_zero end.
Proof.
  intros He Hl n top h m.
  assert (Hn : (0 ≤ n ≤ Z.of_nat (length retrieved))%Z) by (unfold n, cut; destruct (_ || _) eqn:E; lia).
  assert (Hc : length (List.filter (relevant expected) top) ≤ length top) by (apply List.filter_length_le).
  assert (Ht : length top = Z.to_nat n) by (unfold top; rewrite length_take; lia).
  assert (Hh : hits (scan (list_to_set expected) 0 top {| hits := 0; mrr := f_zero; dcg := f_zero |}) = h).
  { rewrite scan_hits. cbn [hits]. rewrite Z.add_0_l. unfold h. do 2 f_equal. apply filter_ext. intros id. symmetry. apply relevant_set. }
  unfold m, ComputeMetrics. fold n. fold top. destruct expected as [|e es]; [done|]. cbn [PrecisionAtK RecallAtK MRR]. rewrite Hh.
  repeat split; [lia|lia| |].
  - intros Hd. unfold h. apply Nat2Z.inj_le. apply NoDup_incl_length.
    + apply List.NoDup_filter, NoDup_ListNoDup. rewrite <- (take_drop (Z.to_nat n) retrieved) in Hd. by apply NoDup_app in Hd as [? _].
    + intros x [_ Hx]%filter_In. unfold relevant in Hx. apply bool_decide_eq_true in Hx. by apply list_elem_of_In.
  - rewrite scan_mrr; [|done|lia|lia]. destruct (first_relevant _ _); [|done]. f_equal; lia.
Qed.
End Metrics.
End Evaluation.

(** ** Stored suites and the endpoints *)

Module Suites.
Import Evaluation.

(** [Corpus] is the JSON of the cases; it is kept as the cases it decodes to. *)
Record SuiteRow := {
  row_ID : string;
  row_TenantID : string;
  row_Name : string;
  Corpus : list EvalCase;
  row_DefaultK : Z;
  CreatedAt : Time;
  UpdatedAt : Time
}.
(** [json.Marshal] refuses a number that is not finite. *)
Definition finite (x : float) : bool := match x with SpecFloat.S754_nan | SpecFloat.S754_infinity _ => false | _ => true end.
Definition encodable (cases : list EvalCase) : bool := forallb (λ c, finite (ExpectedMinScore c)) cases.
Definition rowToSuite (row : SuiteRow) : EvalSuite :=
  {| Name := row_Name row; TenantID := row_TenantID row; Cases := Corpus row; DefaultK := row_DefaultK row |}.

Record audit_row := { a_tenant : string; a_actor : string; a_suite : string; a_k : Z; a_cases : nat; a_failed : Z; a_metrics : Metrics; a_duration : Z }.
(** The table by its unique index, and the audit log. *)
Record Store := { suites : gmap (string * string) SuiteRow; audit_log : list audit_row }.
Definition put (row : SuiteRow) (s : Store) : Store := {| suites := <[(row_TenantID row, row_Name row) := row]> (suites s); audit_log := audit_log s |}.
Definition log (a : audit_row) (s : Store) : Store := {| suites := suites s; audit_log := audit_log s ++ [a] |}.

Definition ErrSuiteNotFound : string := "eval: suite not found".

Section Repository.
Context `{Outside}.
Abbreviation M := (Eff Store string) (only parsing).

Definition find_row (tenantID name : string) (s : Store) : option SuiteRow := suites s !! (tenantID, name).
(** [newID] and [now] are the identifier minted and the time read. *)
Definition Save (newID : string) (now : Time) (suite : EvalSuite) : M unit :=
  match Validate suite with
  | Some e => ethrow e
  | None =>
      if negb (encodable (Cases suite)) then ethrow "eval: marshal corpus"
      else
        let row id created := {| row_ID := id; row_TenantID := TenantID suite; row_Name := Name suite; Corpus := Cases suite;
                                 row_DefaultK := DefaultK suite; CreatedAt := created; UpdatedAt := now |} in
        let@ existing := emap_err (str_app "eval: lookup suite: ") (eread "find" (find_row (TenantID suite) (Name suite))) in
        match existing with
        | Some old => if str_empty (row_ID old) then ewrite "create" (put (row newID now)) else ewrite "save" (put (row (row_ID old) (CreatedAt old)))
        | None => ewrite "create" (put (row newID now))
        end
  end.
Definition Get (tenantID name : string) : M EvalSuite :=
  let@ found := eread "find" (find_row tenantID name) in
  match found with
  | Some row => if str_empty (row_ID row) then ethrow ErrSuiteNotFound else eret (rowToSuite row)
  | None => ethrow ErrSuiteNotFound
  end.
Definition List_ (tenantID : string) : M (list EvalSuite) :=
  eread "find" (λ s, rowToSuite <$> sort_by (λ a b, str_ltb (row_Name a) (row_Name b)) (List.filter (λ r, str_eqb (row_TenantID r) tenantID) (snd <$> map_to_list (suites s)))).

(** ** Endpoints *)

Record runRequest := { SuiteName_ : string; Suite_ : option EvalSuite }.
Inductive response :=
| Status (code : Z) (e : string)
| Created (s : EvalSuite)
| Found (s : EvalSuite)
| Listed (l : list EvalSuite)
| Report (r : EvalReport).

(** An error of the repository becomes a status. *)
Definition on_error {A} (m : M A) (status : string → Z) (k : A → M response) : M response := λ w,
  match m w with (Ok a, w') => k a w' | (Err e, w') => (Ok (Status (status e) e), w') end.
(** [_ = Audit.Create(...)] *)
Definition best_effort (m : M unit) : M unit := λ w, (Ok tt, (m w).2).
Definition with_tenant (tenantID : string) (s : EvalSuite) : EvalSuite := {| Name := Name s; TenantID := tenantID; Cases := Cases s; DefaultK := DefaultK s |}.

Definition resolveSuite (tenantID : string) (body : runRequest) : M EvalSuite :=
  match Suite_ body with
  | Some s => eret s
  | None => if str_empty (SuiteName_ body) then ethrow "eval: run requires suite_name or suite" else Get tenantID (SuiteName_ body)
  end.
(** [None] is no tenant in the context, or a body that does not bind. *)
Definition run (Log2 : float → float) (w : world) (audited : bool) (tenantID : option string) (actorID : string) (body : option runRequest) : M response :=
  match tenantID, body with
  | None, _ => eret (Status 401 "missing tenant context")
  | _, None => eret (Status 400 "bind")
  | Some tenantID, Some body =>
      on_error (resolveSuite tenantID body) (λ e, if str_eqb e ErrSuiteNotFound then 404%Z else 400%Z) (λ suite,
      let suite := with_tenant tenantID suite in
      match Validate suite with
      | Some e => eret (Status 400 e)
      | None =>
          match Run Log2 (Some w) suite with
          | (_, Some e) => eret (Status 500 e)
          | (None, None) => eret (Status 500 EmptyString)
          | (Some report, None) =>
              let@ _ := (if audited then
                           best_effort (ewrite "audit" (log {| a_tenant := tenantID; a_actor := actorID; a_suite := Name suite; a_k := rep_K report;
                             a_cases := length (rep_Cases report); a_failed := FailedCases report; a_metrics := Aggregate report; a_duration := (Duration report `quot` millisecond)%Z |}))
                         else eret tt) in
              eret (Report report)
          end
      end)
  end.
Definition upsertSuite (newID : string) (now : Time) (tenantID : option string) (body : option EvalSuite) : M response :=
  match tenantID, body with
  | None, _ => eret (Status 401 "missing tenant context")
  | _, None => eret (Status 400 "bind")
  | Some tenantID, Some suite =>
      let suite := with_tenant tenantID suite in
      match Validate suite with
      | Some e => eret (Status 400 e)
      | None => on_error (Save newID now suite) (λ _, 500%Z) (λ _, eret (Created suite))
      end
  end.
Definition getSuite (tenantID : option string) (name : string) : M response :=
  match tenantID with
  | None => eret (Status 401 "missing tenant context")
  | Some tenantID =>
      if str_empty name then eret (Status 400 "missing suite name")
      else on_error (Get tenantID name) (λ e, if str_eqb e ErrSuiteNotFound then 404%Z else 500%Z) (λ suite, eret (Found suite))
  end.
Definition listSuites (tenantID : option string) : M response :=
  match tenantID with
  | None => eret (Status 401 "missing tenant context")
  | Some tenantID => on_error (List_ tenantID) (λ _, 500%Z) (λ l, eret (Listed l))
  end.

(** ** A saved suite is the suite that is read *)

(** Every stored row has an identifier. *)
Definition identified (s : Store) : Prop := map_Forall (λ _ row, row_ID row ≠ EmptyString) (suites s).

Lemma put_lookup row s : find_row (row_TenantID row) (row_Name row) (put row s) = Some row.
Proof. unfold find_row, put. simpl. apply lookup_insert_eq. Qed.

(** What one successful write under a suite's key leaves for the next read. *)
Lemma Get_put row s n :
  row_ID row ≠ EmptyString → fate n = Performed →
  (Get (row_TenantID row) (row_Name row) {| store := put row s; calls_made := n |}).1 = Ok (rowToSuite row).
Proof.
  intros Hid Hf. unfold Get, ebind, eread, ecall. cbn [store calls_made]. rewrite Hf, put_lookup. by rewrite (proj2 (str_empty_false _) Hid).
Qed.

(** A save that reports success is read back, as it was given; the row keeps the
    identifier and the creation time it had; the suites of other tenants, and of other
    names, are untouched. *)
Theorem Save_Get newID now suite w w' :
  newID ≠ EmptyString → identified (store w) → Save newID now suite w = (Ok tt, w') →
  identified (store w') ∧
  (fate (calls_made w') = Performed → (Get (TenantID suite) (Name suite) w').1 = Ok suite) ∧
  (∀ k, k ≠ (TenantID suite, Name suite) → suites (store w') !! k = suites (store w) !! k) ∧
  (∀ old, suites (store w) !! (TenantID suite, Name suite) = Some old →
     ∃ row, suites (store w') !! (TenantID suite, Name suite) = Some row ∧ row_ID row = row_ID old ∧ CreatedAt row = CreatedAt old).
Proof.
  intros Hnew Hids. unfold Save. destruct (Validate suite) as [e|]; [done|]. destruct (encodable _); [|done]. cbn [negb].
  unfold ebind, emap_err, eread, ecall. destruct (fate (calls_made w)); [|done..]. cbn [fst snd].
  set (row id created := {| row_ID := id; row_TenantID := TenantID suite; row_Name := Name suite; Corpus := Cases suite;
                            row_DefaultK := DefaultK suite; CreatedAt := created; UpdatedAt := now |}).
  assert (Hput : ∀ id created n, id ≠ EmptyString →
    (∀ old, suites (store w) !! (TenantID suite, Name suite) = Some old → id = row_ID old ∧ created = CreatedAt old) →
    let w' := {| store := put (row id created) (store w); calls_made := n |} in
    identified (store w') ∧ (fate (calls_made w') = Performed → (Get (TenantID suite) (Name suite) w').1 = Ok suite) ∧
    (∀ k, k ≠ (TenantID suite, Name suite) → suites (store w') !! k = suites (store w) !! k) ∧
    (∀ old, suites (store w) !! (TenantID suite, Name suite) = Some old →
       ∃ row, suites (store w') !! (TenantID suite, Name suite) = Some row ∧ row_ID row = row_ID old ∧ CreatedAt row = CreatedAt old)).
  { intros id created n Hid Hold. cbn [store calls_made]. split; [by apply map_Forall_insert_2|]. split.
    - intros Hf. etransitivity; [exact (Get_put (row id created) (store w) n Hid Hf)|]. unfold rowToSuite. by destruct suite.
    - split; [intros k Hk; by apply lookup_insert_ne|]. intros old Ho. exists (row id created). split; [apply lookup_insert_eq|].
      destruct (Hold old Ho) as [-> ->]. done. }
  unfold find_row. destruct (suites (store w) !! _) as [old|] eqn:E.
  - pose proof (Hids _ _ E) as Hid. cbn beta in Hid. rewrite (proj2 (str_empty_false _) Hid). unfold ewrite, ecall. cbn [store calls_made].
    destruct (fate (S (calls_made w))); [|done..]. intros [= <-]. apply Hput; [done|]. naive_solver.
  - unfold ewrite, ecall. cbn [store calls_made]. destruct (fate (S (calls_made w))); [|done..]. intros [= <-]. apply Hput; [done|]. naive_solver.
Qed.
End Repository.
End Suites.

(** ** Relevance feedback *)

Module Feedback.

Record FeedbackEvent := {
  ID : string;
  TenantID : string;
  QueryID : string;
  ChunkID : string;
  UserID : string;
  Relevant : bool;
  Note : string;
  CreatedAt : Time
}.
Record audit_row := { a_tenant : string; a_user : string; a_chunk : string; a_query : string; a_relevant : bool }.
Record Store := { events : gmap string FeedbackEvent; audit_log : list audit_row }.
Definition put (e : FeedbackEvent) (s : Store) : Store := {| events := <[ID e := e]> (events s); audit_log := audit_log s |}.
Definition log (a : audit_row) (s : Store) : Store := {| events := events s; audit_log := audit_log s ++ [a] |}.

Record FeedbackFilter := { f_TenantID : string; f_QueryID : string; f_ChunkID : string; f_Limit : Z; f_Cursor : string }.
Definition page_limit (l : Z) : Z := let l := if (l <=? 0)%Z then 200%Z else l in if (1000 <? l)%Z then 1000%Z else l.
Definition selected (f : FeedbackFilter) (e : FeedbackEvent) : bool :=
  str_eqb (TenantID e) (f_TenantID f) && (str_empty (f_QueryID f) || str_eqb (QueryID e) (f_QueryID f))
  && (str_empty (f_ChunkID f) || str_eqb (ChunkID e) (f_ChunkID f)) && (str_empty (f_Cursor f) || str_ltb (ID e) (f_Cursor f)).
(** [ORDER BY id DESC] *)
Definition newer (a b : FeedbackEvent) : bool := str_ltb (ID b) (ID a).

Definition minted (newID : string) (now : Time) (e : FeedbackEvent) : FeedbackEvent :=
  {| ID := if str_empty (ID e) then newID else ID e; TenantID := TenantID e; QueryID := QueryID e; ChunkID := ChunkID e; UserID := UserID e;
     Relevant := Relevant e; Note := Note e; CreatedAt := if time_is_zero (CreatedAt e) then now else CreatedAt e |}.

Section Repository.
Context `{Outside}.
Abbreviation M := (Eff Store string) (only parsing).

(** The event of the caller is completed in place; a second row with one identifier is
    refused by the primary key. *)
Definition Create (newID : string) (now : Time) (e : option FeedbackEvent) : M FeedbackEvent :=
  match e with
  | None => ethrow "feedback: nil event"
  | Some e =>
      if str_empty (TenantID e) then ethrow "feedback: missing tenant_id"
      else if str_empty (QueryID e) then ethrow "feedback: missing query_id"
      else if str_empty (ChunkID e) then ethrow "feedback: missing chunk_id"
      else
        let e := minted newID now e in
        let@ fresh := ecall "create" (λ s, match events s !! ID e with Some _ => (false, s) | None => (true, put e s) end) in
        if fresh then eret e else ethrow "duplicate key value violates unique constraint"
  end.
Definition ListByTenant (f : FeedbackFilter) : M (list FeedbackEvent) :=
  if str_empty (f_TenantID f) then ethrow "feedback: missing tenant_id"
  else eread "find" (λ s, take (Z.to_nat (page_limit (f_Limit f))) (sort_by newer (List.filter (selected f) (snd <$> map_to_list (events s))))).

Record FeedbackRequest := { req_QueryID : string; req_ChunkID : string; req_Relevant : option bool; req_Note : string }.
Inductive response := Status (code : Z) (e : string) | Stored (id : string) (created : Time).
(** [binding:"required"] refuses empty strings and a missing flag. *)
Definition bound (r : FeedbackRequest) : bool :=
  negb (str_empty (req_QueryID r)) && negb (str_empty (req_ChunkID r)) && bool_decide (is_Some (req_Relevant r)).
Definition submit (newID : string) (now : Time) (tenantID : option string) (userID : string) (body : option FeedbackRequest) : M response := λ w,
  match tenantID, body with
  | None, _ => (Ok (Status 401 "missing tenant context"), w)
  | _, None => (Ok (Status 400 "bind"), w)
  | Some tenantID, Some req =>
      if negb (bound req) then (Ok (Status 400 "bind"), w)
      else if str_empty (trim_space (req_QueryID req)) || str_empty (trim_space (req_ChunkID req)) then (Ok (Status 400 "query_id and chunk_id required"), w)
      else match req_Relevant req with
           | None => (Ok (Status 400 "relevant must be set"), w)
           | Some relevant =>
               let e := {| ID := EmptyString; TenantID := tenantID; QueryID := trim_space (req_QueryID req); ChunkID := trim_space (req_ChunkID req);
                           UserID := userID; Relevant := relevant; Note := req_Note req; CreatedAt := 0 |} in
               match Create newID now (Some e) w with
               | (Err msg, w') => (Ok (Status 500 msg), w')
               | (Ok e, w') =>
                   (Ok (Stored (ID e) (CreatedAt e)),
                    (ewrite (E := string) "audit" (log {| a_tenant := tenantID; a_user := userID; a_chunk := ChunkID e; a_query := QueryID e; a_relevant := Relevant e |}) w').2)
               end
           end
  end.

(** An accepted signal is one new row of the caller's tenant; a row that is there is
    never changed, whatever the caller sends and whatever fails. *)
Theorem submit_appends newID now tenantID userID body w r w' :
  submit newID now tenantID userID body w = (Ok r, w') →
  events (store w) ⊆ events (store w') ∧
  (∀ id created, r = Stored id created → ∃ t req e, tenantID = Some t ∧ body = Some req ∧
     events (store w) !! id = None ∧ events (store w') = <[id := e]> (events (store w)) ∧
     TenantID e = t ∧ UserID e = userID ∧ QueryID e = trim_space (req_QueryID req) ∧ ChunkID e = trim_space (req_ChunkID req) ∧ Some (Relevant e) = req_Relevant req).
Proof.
  unfold submit. destruct tenantID as [t|]; [|intros [= <- <-]; by split]. destruct body as [req|]; [|intros [= <- <-]; by split].
  destruct (bound req); cbn [negb]; [|intros [= <- <-]; by split]. destruct (_ || _); [intros [= <- <-]; by split|].
  destruct (req_Relevant req) as [rel|] eqn:Er; [|intros [= <- <-]; by split].
  set (e := {| ID := EmptyString; TenantID := t; QueryID := trim_space (req_QueryID req) |}).
  assert (Hlog : ∀ a (u : Env Store), events (store (ewrite (E := string) "audit" (log a) u).2) = events (store u)).
  { intros a u. unfold ewrite, ecall. by destruct (fate _). }
  unfold Create. destruct (str_empty (TenantID e)); [intros [= <- <-]; by split|]. destruct (str_empty (QueryID e)); [intros [= <- <-]; by split|].
  destruct (str_empty (ChunkID e)); [intros [= <- <-]; by split|]. unfold ebind, ecall. set (e' := minted newID now e).
  destruct (events (store w) !! ID e') as [old|] eqn:E, (fate (calls_made w)); cbn [fst snd store]; intros [= <- <-]; (split; [|try naive_solver]); rewrite ?Hlog; try done; try (by apply insert_subseteq).
  intros id created [= <- <-]. exists t, req, e'. rewrite Er. done.
Qed.
End Repository.

(** ** Cases from feedback *)

Record FeedbackRow := { r_TenantID : string; r_QueryID : string; r_Query : string; r_ChunkID : string; r_Relevant : bool; r_SkillID : string }.
Record bucket := { query : string; skill : string; expected : gset string; anyPos : bool }.
Definition no_bucket : bucket := {| query := EmptyString; skill := EmptyString; expected := ∅; anyPos := false |}.
Definition add_row (r : FeedbackRow) (b : bucket) : bucket :=
  {| query := if str_empty (trim_space (r_Query r)) then query b else r_Query r;
     skill := if str_empty (r_SkillID r) then skill b else r_SkillID r;
     expected := if r_Relevant r && negb (str_empty (r_ChunkID r)) then {[r_ChunkID r]} ∪ expected b else expected b;
     anyPos := anyPos b || r_Relevant r |}.
Definition add_to (m : gmap string bucket) (r : FeedbackRow) : gmap string bucket :=
  let qid := trim_space (r_QueryID r) in
  if str_empty qid then m else <[qid := add_row r (default no_bucket (m !! qid))]> m.
Definition byQuery (rows : list FeedbackRow) : gmap string bucket := foldl add_to ∅ rows.
Definition usable (b : bucket) : bool := anyPos b && negb (str_empty (query b)).
Definition case_of (b : bucket) : Evaluation.EvalCase :=
  {| Evaluation.Query := query b; Evaluation.ExpectedChunkIDs := sort_by str_ltb (elements (expected b)); Evaluation.ExpectedMinScore := f_zero; Evaluation.TopK := 0;
     Evaluation.SkillID := skill b; Evaluation.PrivacyMode := EmptyString |}.
Definition keys (m : gmap string bucket) : list string :=
  sort_by str_ltb (fst <$> List.filter (λ kb, usable kb.2) (map_to_list m)).
Definition CasesFromFeedback (rows : list FeedbackRow) : list Evaluation.EvalCase :=
  let m := byQuery rows in omap (λ k, case_of <$> m !! k) (keys m).

(** [list] is the provider's answer; the suite is extended in place. *)
Definition AugmentSuiteWithFeedback (provider : option (string → result (list FeedbackRow) string)) (suite : option Evaluation.EvalSuite)
    : option string * option Evaluation.EvalSuite :=
  match provider, suite with
  | None, _ => (Some "eval: AugmentSuiteWithFeedback requires a FeedbackProvider"%string, suite)
  | _, None => (Some "eval: AugmentSuiteWithFeedback requires a suite"%string, None)
  | Some p, Some s =>
      if str_empty (Evaluation.TenantID s) then (Some "eval: AugmentSuiteWithFeedback requires suite.TenantID"%string, Some s)
      else match p (Evaluation.TenantID s) with
           | Err e => (Some e, Some s)
           | Ok rows =>
               match CasesFromFeedback rows with
               | [] => (None, Some s)
               | cases => (None, Some {| Evaluation.Name := Evaluation.Name s; Evaluation.TenantID := Evaluation.TenantID s; Evaluation.Cases := Evaluation.Cases s ++ cases; Evaluation.DefaultK := Evaluation.DefaultK s |})
               end
           end
  end.

(** ** A case per query with ground truth *)

Definition of_query (k : string) (r : FeedbackRow) : Prop := trim_space (r_QueryID r) = k.
(** Some row marks the chunk as relevant to the query; some row has the text of the query. *)
Definition marked (rows : list FeedbackRow) (k x : string) : Prop := Exists (λ r, of_query k r ∧ r_Relevant r = true ∧ r_ChunkID r = x) rows.
Definition positive (rows : list FeedbackRow) (k : string) : Prop := Exists (λ r, of_query k r ∧ r_Relevant r = true) rows.
Definition worded (rows : list FeedbackRow) (k : string) : Prop := Exists (λ r, of_query k r ∧ trim_space (r_Query r) ≠ EmptyString) rows.
Definition described (rows : list FeedbackRow) (k : string) (b : bucket) : Prop :=
  (∀ x, x ∈ expected b ↔ marked rows k x ∧ x ≠ EmptyString) ∧ (anyPos b = true ↔ positive rows k) ∧ (query b ≠ EmptyString ↔ worded rows k).

Lemma Exists_snoc {A} (P : A → Prop) l x : Exists P (l ++ [x]) ↔ Exists P l ∨ P x.
Proof. rewrite Exists_app, Exists_cons, Exists_nil. tauto. Qed.

Lemma described_add rows k b r : of_query k r → described rows k b → described (rows ++ [r]) k (add_row r b).
Proof.
  intros Hk (He & Ha & Hq). unfold described, marked, positive, worded in *. cbn [expected anyPos query add_row]. repeat setoid_rewrite Exists_snoc. split; [|split].
  - intros x. destruct (r_Relevant r), (str_empty (r_ChunkID r)) eqn:Ec; cbn [andb negb].
    + apply str_empty_true in Ec. rewrite He, Ec. naive_solver.
    + apply str_empty_false in Ec. rewrite elem_of_union, elem_of_singleton, He. naive_solver.
    + rewrite He. naive_solver.
    + rewrite He. naive_solver.
  - rewrite orb_true_iff, Ha. naive_solver.
  - destruct (str_empty (trim_space (r_Query r))) eqn:Eq.
    + apply str_empty_true in Eq. rewrite Hq, Eq. naive_solver.
    + apply str_empty_false in Eq. split; [naive_solver|]. intros _ E. rewrite E in Eq. by apply Eq.
Qed.
Lemma described_skip rows k b r : ¬ of_query k r → described rows k b → described (rows ++ [r]) k b.
Proof. intros Hk (He & Ha & Hq). unfold described, marked, positive, worded in *. repeat setoid_rewrite Exists_snoc. naive_solver. Qed.

Lemma byQuery_described rows k : k ≠ EmptyString → described rows k (default no_bucket (byQuery rows !! k)).
Proof.
  intros Hk. induction rows as [|r rows IH] using rev_ind.
  - unfold described, marked, positive, worded. repeat setoid_rewrite Exists_nil. cbn. set_solver.
  - unfold byQuery. rewrite foldl_snoc. fold (byQuery rows). unfold add_to. destruct (str_empty (trim_space (r_QueryID r))) eqn:E.
    + apply described_skip; [|done]. apply str_empty_true in E. unfold of_query. congruence.
    + destruct (decide (trim_space (r_QueryID r) = k)) as [Eq|Hne].
      * rewrite Eq, lookup_insert_eq. by apply described_add.
      * rewrite lookup_insert_ne by done. by apply described_skip.
Qed.
Lemma byQuery_key rows k b : byQuery rows !! k = Some b → k ≠ EmptyString.
Proof.
  revert k b. induction rows as [|r rows IH] using rev_ind; intros k b; [done|]. unfold byQuery. rewrite foldl_snoc. fold (byQuery rows). unfold add_to.
  destruct (str_empty (trim_space (r_QueryID r))) eqn:E; [apply IH|]. apply str_empty_false in E. rewrite lookup_insert_Some. naive_solver.
Qed.

Lemma elem_of_keys m k : k ∈ keys m ↔ ∃ b, m !! k = Some b ∧ usable b = true.
Proof.
  unfold keys. rewrite elem_of_sort_by, list_elem_of_fmap. split.
  - intros ([k' b] & -> & H). apply list_elem_of_In, filter_In in H as [H Hu]. exists b. split; [|done]. by apply elem_of_map_to_list, list_elem_of_In.
  - intros (b & Hb & Hu). exists (k, b). split; [done|]. apply list_elem_of_In, filter_In. split; [|done]. by apply list_elem_of_In, elem_of_map_to_list.
Qed.

(** [c] is what the rows say of the query [k]. *)
Definition ground_truth (rows : list FeedbackRow) (k : string) (c : Evaluation.EvalCase) : Prop :=
  Evaluation.Query c ≠ EmptyString ∧ ∀ x, x ∈ Evaluation.ExpectedChunkIDs c ↔ marked rows k x ∧ x ≠ EmptyString.

(** The cases are exactly those of the queries that have a text and a positive signal:
    each such query has a case, no other has one, and a case expects precisely the
    chunks some row marked as relevant to its query. *)
Theorem CasesFromFeedback_exact rows :
  (∀ c, c ∈ CasesFromFeedback rows → ∃ k, k ≠ EmptyString ∧ positive rows k ∧ worded rows k ∧ ground_truth rows k c) ∧
  (∀ k, k ≠ EmptyString → positive rows k → worded rows k → ∃ c, c ∈ CasesFromFeedback rows ∧ ground_truth rows k c).
Proof.
  assert (Hcase : ∀ k b, k ≠ EmptyString → byQuery rows !! k = Some b → query b ≠ EmptyString → ground_truth rows k (case_of b)).
  { intros k b Hk Hb Hq. destruct (byQuery_described rows k Hk) as [He _]. rewrite Hb in He. cbn in He. split; [done|]. intros x.
    cbn [Evaluation.ExpectedChunkIDs case_of]. by rewrite elem_of_sort_by, elem_of_elements. }
  split.
  - intros c (k & Hk & Hc)%list_elem_of_omap. apply elem_of_keys in Hk as (b & Hb & Hu). rewrite Hb in Hc. injection Hc as <-.
    pose proof (byQuery_key _ _ _ Hb) as Hne. destruct (byQuery_described rows k Hne) as (_ & Ha & Hq). rewrite Hb in Ha, Hq. cbn in Ha, Hq.
    unfold usable in Hu. apply andb_true_iff in Hu as [Hp Hw]. apply negb_true_iff, str_empty_false in Hw. exists k. naive_solver.
  - intros k Hk Hp Hw. destruct (byQuery_described rows k Hk) as (_ & Ha & Hq). destruct (byQuery rows !! k) as [b|] eqn:Hb; cbn in Ha, Hq; [|by apply Ha in Hp].
    exists (case_of b). split; [|by apply Hcase; [..|apply Hq]]. apply list_elem_of_omap. exists k. rewrite Hb. split; [|done]. apply elem_of_keys. exists b.
    split; [done|]. unfold usable. rewrite (proj2 Ha Hp). apply negb_true_iff, str_empty_false, Hq, Hw.
Qed.

(** The columns of an event, as a row: a stored event has no text and no skill. *)
Definition projected (e : FeedbackEvent) : FeedbackRow :=
  {| r_TenantID := TenantID e; r_QueryID := QueryID e; r_Query := EmptyString; r_ChunkID := ChunkID e; r_Relevant := Relevant e; r_SkillID := EmptyString |}.
(** So no stored signal ever becomes a case. *)
Theorem stored_events_make_no_case es : CasesFromFeedback (projected <$> es) = [].
Proof.
  destruct (CasesFromFeedback (projected <$> es)) as [|c l] eqn:E; [done|]. exfalso.
  destruct (proj1 (CasesFromFeedback_exact (projected <$> es)) c) as (k & _ & _ & Hw & _); [rewrite E; set_solver|].
  apply Exists_exists in Hw as (r & Hr & _ & Hq). apply list_elem_of_fmap in Hr as (e & -> & _). by apply Hq.
Qed.
End Feedback.

(** ** On concrete inputs *)

Module EvaluationSamples.
Import Evaluation.

(** A logarithm, exact on the powers of two used below. *)
Definition log2 (x : float) : float := f64_of_Z (Z.log2 (int_of_f64 x)).

Example itoa_prints : itoa <$> [0; 7; 120; -45]%Z = ["0"; "7"; "120"; "-45"]%string.
Proof. vm_compute. reflexivity. Qed.

(** Ten results are asked for and one comes back: the precision is 1, not 1/10. *)
Example precision_divides_by_what_came :
  PrecisionAtK (ComputeMetrics log2 ["a"]%string ["a"; "b"]%string 10) = f64_of_Z 1.
Proof. vm_compute. reflexivity. Qed.

(** A result that comes twice is counted twice: recall is 2. *)
Example repeated_results_exceed_one :
  RecallAtK (ComputeMetrics log2 ["a"; "a"]%string ["a"]%string 10) = f64_of_Z 2.
Proof. vm_compute. reflexivity. Qed.

(** The average divides by the cases whose value is zero too. *)
Example zeros_are_averaged :
  RecallAtK (AggregateMetrics [no_metrics; {| PrecisionAtK := f64_of_Z 1; RecallAtK := f64_of_Z 1; MRR := f64_of_Z 1; NDCG := f64_of_Z 1 |}]) = f64_const 1 2.
Proof. vm_compute. reflexivity. Qed.

Definition asked (q : string) (min : float) : EvalCase := {| Query := q; ExpectedChunkIDs := ["a"]%string; ExpectedMinScore := min; TopK := 0; SkillID := ""; PrivacyMode := "" |}.
Definition suite : EvalSuite := {| Name := "golden"; TenantID := "acme"; Cases := [asked "vpn" f_zero; asked "wifi" f_zero]; DefaultK := 0 |}.
(** The first call answers, the second fails. *)
Definition half : world := {|
  Retrieve n _ := if (n =? 0)%nat then ([{| ID := "a"; Score := f64_of_Z 1 |}], None) else ([], Some "down"%string);
  ctx_Err _ := None; time_Now n := Z.of_nat n |}.

Lemma Run_complete_witness : ∃ report, Run log2 (Some half) suite = (Some report, None) ∧ rep_Cases report = fst <$> imap (run_case log2 half suite) (Cases suite) ∧
  (length (omap snd (imap (run_case log2 half suite) (Cases suite))) + Z.to_nat (FailedCases report) = 2)%nat ∧
  Aggregate report = AggregateMetrics (omap snd (imap (run_case log2 half suite) (Cases suite))).
Proof. apply (Run_complete log2 half suite); [vm_compute|]; reflexivity. Defined.

(** A failed case leaves the average as it is. *)
Example failures_are_not_averaged :
  match Run log2 (Some half) suite with
  | (Some r, None) => FailedCases r = 1%Z ∧ RecallAtK (Aggregate r) = f64_of_Z 1
  | _ => False
  end.
Proof. vm_compute. split; reflexivity. Qed.

(** A context that ends during the first failed case is not noticed: every later case
    fails, and the run reports no error. *)
Example cancelled_run_succeeds :
  match Run log2 (Some {| Retrieve _ _ := ([], Some "context canceled"%string); ctx_Err _ := Some "context canceled"%string; time_Now n := Z.of_nat n |}) suite with
  | (Some r, None) => FailedCases r = 2%Z
  | _ => False
  end.
Proof. vm_compute. reflexivity. Qed.

(** A database that does not answer is the caller's fault in one endpoint and the
    server's in the other. *)
Definition broken : Outside := {| fate := λ _, Refused; clock := λ n _, Z.of_nat n |}.
Example refused_read_is_a_bad_request :
  let w := {| store := {| Suites.suites := ∅; Suites.audit_log := [] |}; calls_made := 0 |} in
  (Suites.run (H := broken) log2 half true (Some "acme"%string) "u" (Some {| Suites.SuiteName_ := "golden"; Suites.Suite_ := None |}) w).1 = Ok (Suites.Status 400 "find") ∧
  (Suites.getSuite (H := broken) (Some "acme"%string) "golden" w).1 = Ok (Suites.Status 500 "find").
Proof. vm_compute. split; reflexivity. Qed.
End EvaluationSamples.
