(* ===== verification/Migrations.v ===== *)
(** * Schema migrations

    migrate/runner.go: the files of a directory in the order of their numbers, and the
    runner that applies those the tracking table does not name, each in a transaction of
    its own. The SQL engine is the argument [exec], which also says whether the statements
    of a file end the transaction they run in, as a COMMIT among them does; the directory is
    the list of its entries as [os.ReadDir] gives them. *)

From Stdlib Require Import Ascii.
From S2P Require Import Prelude GoString GoText Effects AuditIntegrity.

Module Migrations.

Record SchemaMigration := { m_Version : Z; m_Name : string; AppliedAt : Time; Checksum : string }.
Record Migration := { Version : Z; Name : string; Path : string; SQL : string }.

(** An entry of the directory, and what reading it gives. *)
Record DirEntry := { file_Name : string; IsDir : bool; content : result string string }.

Inductive error :=
| ReadDir (e : string)
| NotNumbered (name : string)
| NotNumeric (name : string)
| DuplicateVersion (v : Z) (a b : string)
| ReadFile (path e : string)
| Bootstrap
| LoadApplied
| Statement
| InMigration (v : Z) (name : string) (e : error).

(** ** Checksums *)

Definition fnv_step (h : Z) (c : ascii) : Z := (Z.lxor h (Z.of_N (N_of_ascii c)) * 1099511628211) `mod` 2 ^ 64.
Fixpoint hex_digits (fuel : nat) (n : N) (acc : bytes) : bytes :=
  match fuel with
  | O => acc
  | S k => if (n =? 0)%N then acc else hex_digits k (n / 16)%N (AuditIntegrity.hex_digit (n `mod` 16)%N :: acc)
  end.
(** [strconv.FormatUint(h, 16)] *)
Definition format_hex (z : Z) : string := if (z =? 0)%Z then "0"%string else of_bytes (hex_digits 16 (Z.to_N z) []).
Definition checksum (sql : string) : string := format_hex (foldl fnv_step 1469598103934665603%Z (to_bytes sql)).

(** ** The directory *)

(** The name cut at its first underscore, which is not its first byte. *)
Definition numbered (name : string) : option (bytes * bytes) :=
  match cut_at "_"%char (to_bytes name) with
  | Some ([], _) | None => None
  | Some p => Some p
  end.
Definition sql_suffix : bytes := to_bytes ".sql".
Definition has_sql (l : bytes) : bool := bool_decide (drop (length l - 4) l = sql_suffix).
Definition trim_sql (l : bytes) : bytes := if has_sql l then take (length l - 4) l else l.

Definition validateName (name : string) : option error :=
  match numbered name with
  | None => Some (NotNumbered name)
  | Some (prefix, _) => match Atoi prefix with None => Some (NotNumeric name) | Some _ => None end
  end.
Definition parseName (filename : string) : result (Z * string) error :=
  match numbered filename with
  | None => Err (NotNumbered filename)
  | Some (prefix, rest) =>
      match Atoi prefix with
      | None => Err (NotNumeric filename)
      | Some version => Ok (version, of_bytes (trim_sql rest))
      end
  end.

Fixpoint collect (dir : string) (entries : list DirEntry) (seen : gmap Z string) (out : list Migration) : result (list Migration) error :=
  match entries with
  | [] => Ok out
  | e :: rest =>
      if IsDir e || negb (has_sql (to_bytes (file_Name e))) then collect dir rest seen out
      else match validateName (file_Name e) with
           | Some err => Err err
           | None =>
               let! p := parseName (file_Name e) in
               let '(v, name) := p in
               match seen !! v with
               | Some existing => Err (DuplicateVersion v existing (file_Name e))
               | None =>
                   let path := str_app dir (str_app "/" (file_Name e)) in
                   match content e with
                   | Err msg => Err (ReadFile path msg)
                   | Ok body => collect dir rest (<[v := file_Name e]> seen) (out ++ [{| Version := v; Name := name; Path := path; SQL := body |}])
                   end
               end
           end
  end.
Definition lower (a b : Migration) : bool := (Version a <? Version b)%Z.
Definition discover (dir : string) (entries : result (list DirEntry) string) : result (list Migration) error :=
  match entries with
  | Err e => Err (ReadDir e)
  | Ok l => let! out := collect dir l ∅ [] in Ok (sort_by lower out)
  end.

(** ** The runner *)

Section Runner.
(** The database after the statements, and whether they ended the transaction they were
    given in: what is done then stays done, and what follows commits on its own. *)
Context {D : Type} (exec : string → D → option (D * bool)).

(** The database and the tracking table by its primary key. *)
Record Store := { data : D; applied : gmap Z SchemaMigration }.
Abbreviation M := (Eff Store error) (only parsing).

(** The row that records a migration; its primary key is the version. *)
Definition record (now : Time) (m : Migration) (s : Store) : option Store :=
  match applied s !! Version m with
  | None => Some {| data := data s; applied := <[Version m := {| m_Version := Version m; m_Name := Name m; AppliedAt := now; Checksum := checksum (SQL m) |}]> (applied s) |}
  | Some _ => None
  end.
(** The transaction: the statements and the row that records them, or nothing. *)
Definition transact (now : Time) (m : Migration) (s : Store) : option Store :=
  match exec (SQL m) (data s) with
  | Some (d, false) => record now m {| data := d; applied := applied s |}
  | _ => None
  end.
(** Statements that end the transaction are committed before there is a row. *)
Definition commit_early (m : Migration) (s : Store) : option Store :=
  match exec (SQL m) (data s) with
  | Some (d, true) => Some {| data := d; applied := applied s |}
  | _ => None
  end.
Definition pending_of (all : list Migration) (s : Store) : list Migration :=
  List.filter (λ m, match applied s !! Version m with None => true | Some _ => false end) all.

Section Calls.
Context `{Outside}.

Definition applyOne (m : Migration) : M unit := λ w,
  let now := clock (calls_made w) 0 in
  (let@ early := ecall Statement (λ s, match commit_early m s with Some s' => (true, s') | None => (false, s) end) in
   let@ ok := ecall Statement (λ s, match (if early : bool then record now m s else transact now m s) with Some s' => (true, s') | None => (false, s) end) in
   if ok then eret tt else ethrow Statement) w.
Definition Pending (dir : string) (entries : result (list DirEntry) string) : M (list Migration) :=
  match discover dir entries with
  | Err e => ethrow e
  | Ok all =>
      let@ _ := ewrite Bootstrap id in
      eread LoadApplied (pending_of all)
  end.
Fixpoint apply_all (l : list Migration) : M unit :=
  match l with
  | [] => eret tt
  | m :: rest => let@ _ := emap_err (InMigration (Version m) (Name m)) (applyOne m) in apply_all rest
  end.
Definition Apply (dir : string) (entries : result (list DirEntry) string) : M (list Migration) :=
  let@ pending := Pending dir entries in
  let@ _ := apply_all pending in
  eret pending.
Definition DryRun (dir : string) (entries : result (list DirEntry) string) : M (list Migration) := Pending dir entries.
End Calls.

(** Several processes at once: each reads what is pending and then works through its
    list; a statement that fails, or whose answer is lost, ends the process. The flag of a
    process says that the statements of its first file are committed, and not yet the row. *)
Record conf := { shared : Store; processes : gmap nat (bool * list Migration) }.
Inductive step (all : list Migration) : conf → conf → Prop :=
| step_read c i :
    step all c {| shared := shared c; processes := <[i := (false, pending_of all (shared c))]> (processes c) |}
| step_apply c i m rest now s' :
    processes c !! i = Some (false, m :: rest) → transact now m (shared c) = Some s' →
    step all c {| shared := s'; processes := <[i := (false, rest)]> (processes c) |}
| step_lost c i m rest now s' :
    processes c !! i = Some (false, m :: rest) → transact now m (shared c) = Some s' →
    step all c {| shared := s'; processes := delete i (processes c) |}
| step_early c i m rest s' :
    processes c !! i = Some (false, m :: rest) → commit_early m (shared c) = Some s' →
    step all c {| shared := s'; processes := <[i := (true, m :: rest)]> (processes c) |}
| step_record c i m rest now s' :
    processes c !! i = Some (true, m :: rest) → record now m (shared c) = Some s' →
    step all c {| shared := s'; processes := <[i := (false, rest)]> (processes c) |}
| step_fail c i early m rest :
    processes c !! i = Some (early, m :: rest) →
    step all c {| shared := shared c; processes := delete i (processes c) |}.

(** No file commits or rolls back the transaction it runs in. *)
Definition contained (all : list Migration) : Prop := ∀ m d d' early, m ∈ all → exec (SQL m) d = Some (d', early) → early = false.

(** ** Versions are distinct and ascending *)

Definition ascending : list Migration → Prop := StronglySorted (λ a b, (Version a < Version b)%Z).

Lemma collect_distinct dir entries seen out all :
  NoDup (Version <$> out) → (∀ m, m ∈ out → is_Some (seen !! Version m)) →
  collect dir entries seen out = Ok all → NoDup (Version <$> all).
Proof.
  revert seen out. induction entries as [|e entries IH]; intros seen out Hd Hs; cbn [collect]; [by intros [= <-]|].
  destruct (IsDir e || _); [by apply IH|]. destruct (validateName (file_Name e)); [done|]. destruct (parseName (file_Name e)) as [[v name]|]; [|done].
  cbn [result_bind]. destruct (seen !! v) eqn:E; [done|]. destruct (content e) as [body|]; [|done]. apply IH.
  - rewrite fmap_app. apply NoDup_app. split; [done|]. split; [|apply NoDup_singleton]. intros x (m & -> & Hm)%list_elem_of_fmap Hx.
    apply list_elem_of_singleton in Hx. cbn in Hx. destruct (Hs m Hm) as [? Hm']. congruence.
  - intros m [Hm| ->%list_elem_of_singleton]%elem_of_app; cbn; [|rewrite lookup_insert_eq; by eexists].
    rewrite lookup_insert_is_Some'. right. by apply Hs.
Qed.

Lemma lower_weak_order l : weak_order_on lower l.
Proof. unfold lower. split; intros; lia. Qed.

Lemma sorted_ascending l : NoDup (Version <$> l) → ascending (sort_by lower l).
Proof.
  intros Hd. pose proof (sort_by_sorted lower l (lower_weak_order l)) as Hs.
  assert (Hd' : NoDup (Version <$> sort_by lower l)) by (by rewrite (sort_by_perm lower l)).
  unfold ascending. induction Hs as [|a l' Hs IH Hf]; [constructor|]. cbn in Hd'. apply NoDup_cons in Hd' as [Hn Hd']. constructor; [by apply IH|].
  rewrite Forall_forall in Hf |- *. intros b Hb. specialize (Hf b Hb). unfold lower in Hf. assert (Version a ≠ Version b); [|lia].
  intros E. apply Hn. rewrite E. by apply list_elem_of_fmap_2.
Qed.

Lemma discover_ascending dir entries all : discover dir entries = Ok all → ascending all.
Proof.
  unfold discover. destruct entries as [l|]; [|done]. destruct (collect dir l ∅ []) as [out|] eqn:E; [|done]. intros [= <-].
  apply sorted_ascending. eapply collect_distinct; [| |exact E]; [constructor|set_solver].
Qed.

Lemma ascending_distinct all : ascending all → NoDup (Version <$> all).
Proof.
  induction 1 as [|a l Hs IH Hf]; cbn; constructor; [|done]. intros (b & E & Hb)%list_elem_of_fmap. rewrite Forall_forall in Hf. specialize (Hf b Hb). lia.
Qed.

(** ** The tracking table names a prefix *)

Fixpoint run (l : list Migration) (d : D) : option D :=
  match l with [] => Some d | m :: rest => match exec (SQL m) d with Some (d', _) => run rest d' | None => None end end.
(** The first [n] migrations, each executed once and in order, and no other. *)
Definition at_ (d0 : D) (all : list Migration) (n : nat) (s : Store) : Prop :=
  n ≤ length all ∧ (∀ v, is_Some (applied s !! v) ↔ v ∈ Version <$> take n all) ∧ run (take n all) d0 = Some (data s).

Lemma run_after l l' d d' : run l d = Some d' → run (l ++ l') d = run l' d'.
Proof. revert d. induction l as [|m l IH]; intros d; cbn; [by intros [= ->]|]. destruct (exec (SQL m) d) as [[d1 e]|]; [by apply IH|done]. Qed.

Section Prefix.
Context (d0 : D) (all : list Migration).
Hypothesis sorted : ascending all.
Hypothesis plain : contained all.

Lemma recorded n s k m : at_ d0 all n s → all !! k = Some m → (is_Some (applied s !! Version m) ↔ k < n).
Proof using sorted.
  intros (Hn & Ha & _) Hk. rewrite Ha. split.
  - intros (m' & E & (k' & Hk')%list_elem_of_lookup)%list_elem_of_fmap. apply lookup_take_Some in Hk' as [Hk' Hlt].
    assert (k = k'); [|lia]. pose proof (ascending_distinct all sorted) as Hd.
    apply (NoDup_lookup (Version <$> all) _ _ (Version m) Hd); rewrite list_lookup_fmap; [by rewrite Hk|by rewrite Hk', E].
  - intros Hlt. apply list_elem_of_fmap_2, list_elem_of_lookup. exists k. by apply lookup_take_Some.
Qed.

Lemma pending_drop n s : at_ d0 all n s → pending_of all s = drop n all.
Proof using sorted.
  intros Hs. unfold pending_of. pose proof (λ k m, recorded n s k m Hs) as Hr. destruct Hs as (Hn & _ & _).
  rewrite <- (take_drop n all) at 1. rewrite List.filter_app.
  assert (E1 : List.filter (λ m, match applied s !! Version m with None => true | Some _ => false end) (take n all) = []).
  { destruct (List.filter _ (take n all)) as [|m l] eqn:E; [done|]. exfalso. assert (Hin : In m (m :: l)) by (by left). rewrite <- E in Hin.
    apply filter_In in Hin as [Hin Hb]. apply list_elem_of_In, list_elem_of_lookup in Hin as [k Hk]. apply lookup_take_Some in Hk as [Hk Hlt].
    destruct (proj2 (Hr k m Hk) Hlt) as [r Er]. by rewrite Er in Hb. }
  assert (E2 : ∀ k, n ≤ k → List.filter (λ m, match applied s !! Version m with None => true | Some _ => false end) (drop k all) = drop k all).
  { intros k. remember (length (drop k all)) as len eqn:El. revert k El. induction len as [|len IH]; intros k El Hk.
    { by destruct (drop k all). }
    destruct (all !! k) as [m|] eqn:Em; [|apply lookup_ge_None in Em; rewrite length_drop in El; lia].
    rewrite (drop_S _ _ _ Em) in El |- *. cbn [List.filter]. destruct (applied s !! Version m) as [r|] eqn:Er.
    - assert (k < n); [|lia]. apply (Hr k m Em). by rewrite Er.
    - f_equal. apply IH; [cbn in El; lia|lia]. }
  by rewrite E1, E2.
Qed.

(** A transaction commits exactly the next migration: one that is already recorded
    is refused by the primary key. *)
Lemma transact_next n s k m now s' :
  at_ d0 all n s → all !! k = Some m → k ≤ n → transact now m s = Some s' → k = n ∧ at_ d0 all (S n) s'.
Proof using sorted.
  intros Hs Hk Hle. unfold transact. destruct (exec (SQL m) (data s)) as [[d []]|] eqn:Ed; [done| |done]. unfold record. cbn [applied data].
  destruct (applied s !! Version m) as [r|] eqn:Er; [done|]. intros [= <-].
  assert (k = n) as ->.
  { destruct (decide (k < n)) as [Hlt|]; [|lia]. apply (recorded n s k m Hs Hk) in Hlt as [? ?]. congruence. }
  split; [done|]. destruct Hs as (Hn & Ha & Hrun). pose proof (lookup_lt_Some _ _ _ Hk) as Hlen. split; [lia|]. cbn [applied data]. rewrite (take_S_r _ _ _ Hk). split.
  - intros v. rewrite fmap_app, elem_of_app, <- Ha, lookup_insert_is_Some'. cbn. rewrite list_elem_of_singleton. naive_solver.
  - rewrite (run_after _ _ _ _ Hrun). cbn. by rewrite Ed.
Qed.

Lemma not_early m s : m ∈ all → commit_early m s = None.
Proof using plain. intros Hm. unfold commit_early. destruct (exec (SQL m) (data s)) as [[d []]|] eqn:E; [|done|done]. by apply plain in E. Qed.

(** Each process is at a place of the list that is not beyond the tracking table's. *)
Definition placed (n : nat) (c : conf) : Prop :=
  ∃ n', n ≤ n' ∧ at_ d0 all n' (shared c) ∧ ∀ i early l, processes c !! i = Some (early, l) → early = false ∧ ∃ k, k ≤ n' ∧ l = drop k all.

Lemma placed_one n' c i m rest now s' k :
  at_ d0 all n' (shared c) → k ≤ n' → m :: rest = drop k all → processes c !! i = Some (false, m :: rest) → transact now m (shared c) = Some s' →
  at_ d0 all (S n') s' ∧ rest = drop (S n') all.
Proof using sorted.
  intros Hs Hk E Hi Ht. assert (Em : all !! k = Some m) by (rewrite <- (Nat.add_0_r k), <- lookup_drop, <- E; done).
  destruct (transact_next _ _ _ _ _ _ Hs Em Hk Ht) as [-> Hs']. split; [done|]. rewrite (drop_S _ _ _ Em) in E. by injection E.
Qed.
Lemma drop_elem k (m : Migration) rest : m :: rest = drop k all → m ∈ all.
Proof. intros E. rewrite <- (take_drop k all), <- E. set_solver. Qed.

Lemma placed_step n c c' : placed n c → step all c c' → placed n c'.
Proof using sorted plain.
  intros (n1 & Hn1 & Hs1 & Hl) Hstep.
  destruct Hstep as [c i|c i m rest now s' Hi Ht|c i m rest now s' Hi Ht|c i m rest s' Hi Ht|c i m rest now s' Hi Ht|c i early m rest Hi]; unfold placed; cbn [shared processes].
  - exists n1. split_and!; [done|done|]. intros j e l. rewrite lookup_insert_Some. intros [[<- [= <- <-]]|[_ Hj]]; [|by apply (Hl j)].
    split; [done|]. exists n1. split; [done|]. by apply pending_drop.
  - destruct (Hl i _ _ Hi) as (_ & k & Hk & E). destruct (placed_one _ _ _ _ _ _ _ _ Hs1 Hk E Hi Ht) as [Hs' ->]. exists (S n1). split_and!; [lia|done|]. intros j e l.
    rewrite lookup_insert_Some. intros [[<- [= <- <-]]|[_ Hj]]; [split; [done|by exists (S n1)]|]. destruct (Hl j e l Hj) as (? & k' & ? & ->). split; [done|]. exists k'. split; [lia|done].
  - destruct (Hl i _ _ Hi) as (_ & k & Hk & E). destruct (placed_one _ _ _ _ _ _ _ _ Hs1 Hk E Hi Ht) as [Hs' _]. exists (S n1). split_and!; [lia|done|]. intros j e l Hj.
    apply lookup_delete_Some in Hj as [_ Hj]. destruct (Hl j e l Hj) as (? & k' & ? & ->). split; [done|]. exists k'. split; [lia|done].
  - destruct (Hl i _ _ Hi) as (_ & k & Hk & E). by rewrite (not_early m (shared c) (drop_elem _ _ _ E)) in Ht.
  - by destruct (Hl i _ _ Hi).
  - exists n1. split_and!; [done|done|]. intros j e l Hj. apply lookup_delete_Some in Hj as [_ Hj]. by apply (Hl j).
Qed.

(** C37: processes run over one and the same list of files, none of which has a COMMIT or
    ROLLBACK of its own, and start on a database at which a first part of the list was
    applied, the empty one included. With any number of processes, in any interleaving and
    with any failures, the database is always the result of a first part of the list, each
    file executed once and in order, and the tracking table names exactly these. Two files
    of the repository have a COMMIT of their own, for which this fails
    ([own_commit_runs_twice]); so it does when a file with a lower number is added later
    ([late_file_runs_last]). *)
Theorem migrations_run_once c c' n :
  at_ d0 all n (shared c) → processes c = ∅ → rtc (step all) c c' → ∃ n', n ≤ n' ∧ at_ d0 all n' (shared c').
Proof using sorted plain.
  intros Hs Hp Hr. assert (H0 : placed n c) by (exists n; rewrite Hp; set_solver).
  assert (placed n c') as (n' & ? & ? & _); [|by exists n']. clear Hs Hp. induction Hr; eauto using placed_step.
Qed.

(** One run: it moves forward through the list, an error leaves a prefix from which the
    next run goes on, and success means that all are applied. *)
Lemma apply_all_forward `{Outside} n w r w' :
  at_ d0 all n (store w) → apply_all (drop n all) w = (r, w') → ∃ n', n ≤ n' ∧ at_ d0 all n' (store w') ∧ (r = Ok tt → n' = length all).
Proof using sorted plain.
  remember (length (drop n all)) as len eqn:El. revert n w El. induction len as [|len IH]; intros n w El Hs.
  { destruct (drop n all) eqn:Ed; [|done]. intros [= <- <-]. exists n. split_and!; [done|done|]. intros _. destruct Hs as [Hn _].
    apply (f_equal length) in Ed. rewrite length_drop in Ed. cbn in Ed. lia. }
  destruct (all !! n) as [m|] eqn:Em; [|apply lookup_ge_None in Em; rewrite length_drop in El; lia].
  rewrite (drop_S _ _ _ Em) in El |- *. cbn [apply_all length] in El |- *. unfold ebind at 1, emap_err, applyOne, ebind at 1, ecall.
  rewrite (not_early m (store w) (list_elem_of_lookup_2 _ _ _ Em)). cbn [fst snd].
  destruct (fate (calls_made w)); cbn [fst snd]; [|by intros [= <- <-]; exists n|by intros [= <- <-]; exists n].
  unfold ebind at 1. cbn [store calls_made]. destruct (transact _ m (store w)) as [s'|] eqn:Et.
  - destruct (transact_next _ _ _ _ _ _ Hs Em (Nat.le_refl n) Et) as [_ Hs']. destruct (fate (S (calls_made w))); cbn [fst snd].
    + unfold eret. intros Hr. destruct (IH (S n) {| store := s'; calls_made := S (S (calls_made w)) |} ltac:(lia) Hs' Hr) as (n' & ? & ? & ?). exists n'. split; [lia|done].
    + intros [= <- <-]. exists n. done.
    + intros [= <- <-]. exists (S n). split; [lia|done].
  - destruct (fate (S (calls_made w))); cbn; intros [= <- <-]; by exists n.
Qed.
End Prefix.

Theorem Apply_forward `{Outside} dir entries all d0 n w r w' :
  discover dir entries = Ok all → contained all → at_ d0 all n (store w) → Apply dir entries w = (r, w') →
  ∃ n', n ≤ n' ∧ at_ d0 all n' (store w') ∧ (∀ l, r = Ok l → n' = length all ∧ l = drop n all).
Proof.
  intros Hd Hc Hs. pose proof (discover_ascending _ _ _ Hd) as Hsort. unfold Apply, Pending. rewrite Hd. unfold ebind, ewrite, eread, ecall.
  destruct (fate (calls_made w)); cbn [store]; try (intros [= <- <-]; exists n; split; [done|]; split; [done|]; intros ?; discriminate).
  unfold id. cbn [store calls_made]. destruct (fate (S (calls_made w))); try (intros [= <- <-]; exists n; split; [done|]; split; [done|]; intros ?; discriminate).
  rewrite (pending_drop d0 all Hsort n (store w) Hs). set (w2 := Build_Env _ _). destruct (apply_all (drop n all) w2) as [[[]|e] w3] eqn:Ea.
  - intros [= <- <-]. destruct (apply_all_forward d0 all Hsort Hc n w2 _ _ Hs Ea) as (n' & ? & ? & Hok). exists n'. split_and!; [done|done|]. intros l [= <-]. split; [by apply Hok|done].
  - intros [= <- <-]. destruct (apply_all_forward d0 all Hsort Hc n w2 _ _ Hs Ea) as (n' & ? & ? & Hok). exists n'. split_and!; [done|done|]. intros l ?. discriminate.
Qed.
End Runner.
End Migrations.

(** ** On a concrete directory *)

Module MigrationSamples.
Import Migrations.

Definition file (name sql : string) : DirEntry := {| file_Name := name; IsDir := false; content := Ok sql |}.
Definition directory : list DirEntry :=
  [file "002_sources.sql" "b"; file "010_retention.sql" "c"; file "1_audit.sql" "a"; {| file_Name := "rollback"; IsDir := true; content := Err "dir"%string |}; file "README.md" ""].
(** A database that keeps the statements it ran, and refuses one. *)
Definition exec (sql : string) (d : list string) : option (list string * bool) :=
  if str_eqb sql "bad" then None else Some (d ++ [sql], str_eqb sql "BEGIN; d; COMMIT;").
Definition empty : Store (D := list string) := {| data := []; applied := ∅ |}.

Example versions_are_numeric :
  match discover "migrations" (Ok directory) with Ok l => (λ m, (Version m, Name m, SQL m)) <$> l = [(1%Z, "audit", "a"); (2%Z, "sources", "b"); (10%Z, "retention", "c")]%string | Err _ => False end.
Proof. vm_compute. reflexivity. Qed.

Example duplicate_versions_are_refused :
  discover "migrations" (Ok [file "001_a.sql" "a"; file "1_b.sql" "b"]) = Err (DuplicateVersion 1 "001_a.sql" "1_b.sql").
Proof. vm_compute. reflexivity. Qed.

Definition all : list Migration := match discover "migrations" (Ok directory) with Ok l => l | Err _ => [] end.
Definition start : conf (D := list string) := {| shared := empty; processes := ∅ |}.
(** Both processes read, both try the first migration. *)
Definition raced : conf (D := list string) :=
  {| shared := {| data := ["a"%string]; applied := {[1%Z := {| m_Version := 1; m_Name := "audit"; AppliedAt := 5; Checksum := checksum "a" |}]} |};
     processes := delete 1%nat (<[0%nat := (false, drop 1 all)]> (<[1%nat := (false, all)]> (<[0%nat := (false, all)]> ∅))) |}.

Lemma empty_at : at_ exec [] all 0 empty.
Proof. split_and!; [lia| |reflexivity]. intros v. cbn. rewrite lookup_empty. split; [by intros []|set_solver]. Qed.
Definition first : Migration := {| Version := 1; Name := "audit"; Path := "migrations/1_audit.sql"; SQL := "a" |}.
Lemma all_first : all = first :: drop 1 all.
Proof. vm_compute. reflexivity. Qed.
Lemma all_pending : pending_of all empty = all.
Proof. vm_compute. reflexivity. Qed.
Definition both : conf (D := list string) := {| shared := empty; processes := <[1%nat := (false, all)]> (<[0%nat := (false, all)]> ∅) |}.
Lemma start_both : rtc (step exec all) start both.
Proof.
  pose proof (step_read exec all start 0) as H0. cbn [shared processes start] in H0. rewrite all_pending in H0.
  pose proof (step_read exec all {| shared := empty; processes := <[0%nat := (false, all)]> ∅ |} 1) as H1. cbn [shared processes] in H1. rewrite all_pending in H1.
  eapply rtc_l; [exact H0|]. eapply rtc_l; [exact H1|]. apply rtc_refl.
Qed.
Lemma start_raced : rtc (step exec all) start raced.
Proof.
  transitivity both; [apply start_both|].
  eapply rtc_l; [apply (step_apply exec all both 0 first (drop 1 all) 5 (shared raced)); [cbn; by rewrite <- all_first|vm_compute; reflexivity]|].
  eapply rtc_l; [apply (step_fail exec all _ 1 false first (drop 1 all)); cbn; by rewrite <- all_first|]. apply rtc_refl.
Qed.
Lemma all_ascending : ascending all.
Proof. apply (discover_ascending "migrations" (Ok directory)). vm_compute. reflexivity. Qed.

Lemma all_contained : contained exec all.
Proof.
  intros m d d' early Hm. assert (Hl : Forall (λ m, str_eqb (SQL m) "BEGIN; d; COMMIT;" = false) all) by (vm_compute; repeat constructor).
  rewrite Forall_forall in Hl. specialize (Hl m Hm). unfold exec. destruct (str_eqb (SQL m) "bad"); [done|]. rewrite Hl. by intros [= _ <-].
Qed.

Lemma migrations_run_once_witness : ∃ n', 0 ≤ n' ∧ at_ exec [] all n' (shared raced).
Proof. apply (migrations_run_once exec [] all all_ascending all_contained start raced 0); [exact empty_at|reflexivity|exact start_raced]. Defined.

(** A run that stopped at a failing file is taken up by the next. *)
Example failed_run_resumes :
  let w0 := {| store := empty; calls_made := 0 |} in
  let bad := [file "001_a.sql" "a"; file "002_b.sql" "bad"; file "003_c.sql" "c"] in
  let w1 := (Apply (H := calm) exec "migrations" (Ok bad) w0).2 in
  data (store w1) = ["a"%string] ∧
  data (store (Apply (H := calm) exec "migrations" (Ok [file "001_a.sql" "a"; file "002_b.sql" "b"; file "003_c.sql" "c"]) w1).2) = ["a"; "b"; "c"]%string.
Proof. vm_compute. split; reflexivity. Qed.

(** A file that commits for itself, as 042 and 043 do: when the row cannot be written, its
    statements stay, and the next run executes them again. *)
Example own_commit_runs_twice :
  let own := [file "042_d.sql" "BEGIN; d; COMMIT;"] in
  let fails := {| fate := λ n, if Nat.eqb n 3 then Refused else Performed; clock := λ _ _, 0%Z |} in
  let r1 := Apply (H := fails) exec "migrations" (Ok own) {| store := empty; calls_made := 0 |} in
  r1.1 = Err (InMigration 42 "d" Statement) ∧ data (store r1.2) = ["BEGIN; d; COMMIT;"%string] ∧
  data (store (Apply (H := calm) exec "migrations" (Ok own) {| store := store r1.2; calls_made := 0 |}).2) = ["BEGIN; d; COMMIT;"; "BEGIN; d; COMMIT;"]%string.
Proof. vm_compute. split_and!; reflexivity. Qed.

(** A file with a lower number that arrives late runs after the higher ones. *)
Example late_file_runs_last :
  let w1 := (Apply (H := calm) exec "migrations" (Ok [file "002_b.sql" "b"]) {| store := empty; calls_made := 0 |}).2 in
  data (store (Apply (H := calm) exec "migrations" (Ok [file "001_a.sql" "a"; file "002_b.sql" "b"]) w1).2) = ["b"; "a"]%string.
Proof. vm_compute. reflexivity. Qed.
End MigrationSamples.
