(* ===== verification/SourceAdmin.v ===== *)
(** * Source management and access

    admin/rbac.go ([Rbac]): the gate in front of the admin endpoints;
    credential/encryption.go ([Credential]): the sealing of connector credentials, with
    AES-GCM as the class [AEAD] and the random source as an argument, what it read or its
    error;
    admin/health.go ([Health]): the health rows of sources and the status derived from
    them; admin/source_handler.go and admin/pagination.go ([SourceHandler]): the
    endpoints that connect, change, remove and show sources, over the repository of
    [Sources]; admin/credential_rotation.go ([Rotation]): the swap of a source's
    credentials. Rows handed to the audit log and events handed to the producer are
    returned beside the answer; their failures are ignored by the code. *)

From Stdlib Require Import Ascii.
From S2P Require Import Prelude GoString GoText Effects Sources Json ConnectorBase.

(** ** Roles *)

Module Rbac.
Abbreviation Role := string (only parsing).
Definition RoleAdmin : Role := "admin".
Definition RoleViewer : Role := "viewer".
Definition RoleSuperAdmin : Role := "super_admin".
Definition RoleAnonymous : Role := "".

Definition roleSatisfies (have need : Role) : bool :=
  if str_eqb have need then true
  else if str_eqb need RoleViewer then str_eqb have RoleAdmin || str_eqb have RoleSuperAdmin
  else if str_eqb need RoleAdmin then str_eqb have RoleSuperAdmin
  else false.
Definition RoleAllowed (r : Role) : bool := str_eqb r RoleAdmin || str_eqb r RoleViewer || str_eqb r RoleSuperAdmin.

(** The dynamic types of a context value the code tells apart. *)
Inductive ctx_value := CRole (r : Role) | CString (s : string) | COther.
Record Request := { Method : string; ctx_role : option ctx_value; role_header : string }.

(** The role and the flag beside it. *)
Definition RoleFromContext (c : Request) : Role * bool :=
  match ctx_role c with
  | None => if str_empty (role_header c) then (RoleAnonymous, false) else (role_header c, true)
  | Some (CRole r) | Some (CString r) => (r, true)
  | Some COther => (RoleAnonymous, false)
  end.

Inductive verdict := Abort401 | Abort403 (required_role actor_role : Role) | Next.
Definition RequireRole (need : Role) (c : Request) : verdict :=
  let (have, ok) := RoleFromContext c in
  if negb ok || str_eqb have RoleAnonymous then Abort401
  else if negb (roleSatisfies have need) then Abort403 need have
  else Next.

Definition mutating (method : string) : bool := existsb (str_eqb method) ["POST"; "PUT"; "PATCH"; "DELETE"]%string.
Definition MethodRBAC (c : Request) : verdict := RequireRole (if mutating (Method c) then RoleAdmin else RoleViewer) c.

(** ** The hierarchy *)

(** The rank of a role, 0 for one the code does not document. *)
Definition rank (r : Role) : nat :=
  if str_eqb r RoleSuperAdmin then 3 else if str_eqb r RoleAdmin then 2 else if str_eqb r RoleViewer then 1 else 0.

Ltac role_cases :=
  repeat match goal with
  | |- context [str_eqb ?a ?b] => let E := fresh "E" in destruct (str_eqb a b) eqn:E; [apply str_eqb_eq in E; subst; try discriminate|apply str_eqb_neq in E; try congruence]
  end.

Lemma rank_allowed r : RoleAllowed r = true ↔ 0 < rank r.
Proof. unfold RoleAllowed, rank. role_cases; simpl; split; (done || lia). Qed.

(** On the documented roles the check is the order super_admin > admin > viewer. *)
Theorem roleSatisfies_ranked have need : RoleAllowed need = true → roleSatisfies have need = (rank need <=? rank have)%nat.
Proof. unfold RoleAllowed, roleSatisfies, rank. role_cases; simpl; done || congruence. Qed.

(** A request reaches a gated handler exactly when it carries a documented role that is
    high enough: any for reading, admin or super_admin for changing. In particular a
    request without a role, and one with an unknown role, is refused. *)
Theorem MethodRBAC_exact c :
  MethodRBAC c = Next ↔
  (RoleFromContext c).2 = true ∧ (if mutating (Method c) then 2 else 1) ≤ rank (RoleFromContext c).1.
Proof.
  unfold MethodRBAC, RequireRole. destruct (RoleFromContext c) as [have ok]. cbn [fst snd].
  set (need := if mutating (Method c) then RoleAdmin else RoleViewer).
  assert (Hr : rank need = (if mutating (Method c) then 2 else 1)) by (unfold need; by destruct (mutating _)).
  assert (Ha : RoleAllowed need = true) by (unfold need; by destruct (mutating _)).
  rewrite <- Hr, roleSatisfies_ranked by done. apply rank_allowed in Ha. destruct ok; cbn [negb orb]; [|naive_solver].
  destruct (str_eqb have RoleAnonymous) eqn:E.
  - apply str_eqb_eq in E as ->. split; [done|]. intros [_ Hle]. change (rank RoleAnonymous) with 0 in Hle. lia.
  - destruct (Nat.leb_spec (rank need) (rank have)); simpl; split; (naive_solver lia).
Qed.
End Rbac.

(** ** Credentials *)

(** What the standard library's AES-GCM computes for a key of 16, 24 or 32 bytes: sealing
    appends a tag of 16 bytes, and opening recomputes it. *)
Class AEAD := {
  seal : bytes → bytes → bytes → bytes;
  open_ : bytes → bytes → bytes → option bytes;
  seal_length k n p : length (seal k n p) = length p + 16;
  open_exact k n b p : open_ k n b = Some p ↔ b = seal k n p
}.

Module Credential.
Definition DEKSize : nat := 32.
Definition NonceSize : nat := 12.
Definition TagSize : nat := 16.
Definition Overhead : nat := NonceSize + TagSize.

Inductive error :=
| ErrInvalidDEK
| ErrCiphertextTooShort
| ErrDecryptionFailed
| ErrRandom (e : string)
| ErrCipher
| ErrNil
| ErrEmptyPlaintext
| ErrEmptyCiphertext.

Definition GenerateDEK (random : nat → result bytes string) : result bytes error :=
  match random DEKSize with Ok dek => Ok dek | Err e => Err (ErrRandom e) end.

(** [aes.NewCipher] takes three key sizes. *)
Definition newGCM (dek : bytes) : result bytes error :=
  if existsb (Nat.eqb (length dek)) [16; 24; 32] then Ok dek else Err ErrCipher.

Section Envelope.
Context `{AEAD}.

Definition Encrypt (random : nat → result bytes string) (plaintext dek : bytes) : result bytes error :=
  if negb (length dek =? DEKSize)%nat then Err ErrInvalidDEK
  else
    let! gcm := newGCM dek in
    match random NonceSize with
    | Err e => Err (ErrRandom e)
    | Ok nonce => Ok (nonce ++ seal gcm nonce plaintext)
    end.
Definition Decrypt (ciphertext dek : bytes) : result bytes error :=
  if negb (length dek =? DEKSize)%nat then Err ErrInvalidDEK
  else if (length ciphertext <? Overhead)%nat then Err ErrCiphertextTooShort
  else
    let! gcm := newGCM dek in
    match open_ gcm (take NonceSize ciphertext) (drop NonceSize ciphertext) with
    | None => Err ErrDecryptionFailed
    | Some plain => Ok plain
    end.

Record ConnectorCredential := {
  TenantID : string;
  SourceID : string;
  ConnectorName : string;
  Plaintext : bytes;
  Ciphertext : bytes
}.
Definition with_texts (p c : bytes) (cred : ConnectorCredential) : ConnectorCredential :=
  {| TenantID := TenantID cred; SourceID := SourceID cred; ConnectorName := ConnectorName cred; Plaintext := p; Ciphertext := c |}.

(** What a call leaves: its error, the credential, and the bytes of the array the
    plaintext was in, which the caller may hold too. *)
Record left := { err : option error; cred : option ConnectorCredential; array : bytes }.
Definition unchanged (e : error) (c : ConnectorCredential) : left := {| err := Some e; cred := Some c; array := Plaintext c |}.
Definition zeros (n : nat) : bytes := repeat Ascii.zero n.

Definition EncryptCredential (random : nat → result bytes string) (c : option ConnectorCredential) (dek : bytes) : left :=
  match c with
  | None => {| err := Some ErrNil; cred := None; array := [] |}
  | Some c =>
      if (length (Plaintext c) =? 0)%nat then unchanged ErrEmptyPlaintext c
      else match Encrypt random (Plaintext c) dek with
           | Err e => unchanged e c
           | Ok ct => {| err := None; cred := Some (with_texts [] ct c); array := zeros (length (Plaintext c)) |}
           end
  end.
Definition DecryptCredential (c : option ConnectorCredential) (dek : bytes) : left :=
  match c with
  | None => {| err := Some ErrNil; cred := None; array := [] |}
  | Some c =>
      if (length (Ciphertext c) =? 0)%nat then unchanged ErrEmptyCiphertext c
      else match Decrypt (Ciphertext c) dek with
           | Err e => unchanged e c
           | Ok pt => {| err := None; cred := Some (with_texts pt (Ciphertext c) c); array := pt |}
           end
  end.

(** ** Round trip and authenticity *)

(** The random source fills what it is asked for. *)
Definition fills (random : nat → result bytes string) : Prop := ∀ n b, random n = Ok b → length b = n.

Lemma newGCM_dek dek : length dek = DEKSize → newGCM dek = Ok dek.
Proof. unfold newGCM. by intros ->. Qed.

(** Decryption gives back exactly what some nonce sealed under this key: nothing else,
    shortened, altered or sealed under another key, is accepted. *)
Theorem Decrypt_exact ct dek p :
  Decrypt ct dek = Ok p ↔ length dek = DEKSize ∧ ∃ nonce, length nonce = NonceSize ∧ ct = nonce ++ seal dek nonce p.
Proof.
  unfold Decrypt. destruct (Nat.eqb_spec (length dek) DEKSize) as [Hk|Hk]; cbn [negb]; [|naive_solver].
  rewrite newGCM_dek by done. cbn [result_bind]. destruct (Nat.ltb_spec (length ct) Overhead) as [Hs|Hs].
  - split; [done|]. intros (_ & nonce & Hn & ->). rewrite length_app, seal_length, Hn in Hs. unfold Overhead, NonceSize, TagSize in Hs. lia.
  - split.
    + destruct (open_ dek _ _) as [q|] eqn:E; [|done]. intros [= ->]. apply open_exact in E. split; [done|].
      exists (take NonceSize ct). rewrite <- E, take_drop, length_take. split; [|done]. unfold Overhead, NonceSize, TagSize in *. lia.
    + intros (_ & nonce & Hn & ->). rewrite take_app_length', drop_app_length' by done. by rewrite (proj2 (open_exact _ _ _ p) eq_refl).
Qed.

(** A sealed credential opens again to its plaintext, whatever the random source read:
    the sealed form keeps the identifying fields, is 28 bytes longer than the plaintext,
    holds no plaintext and leaves only zeros where the plaintext was. *)
Theorem credential_roundtrip random c dek nonce :
  fills random → random NonceSize = Ok nonce → Plaintext c ≠ [] → length dek = DEKSize →
  ∃ ct, EncryptCredential random (Some c) dek = {| err := None; cred := Some (with_texts [] ct c); array := zeros (length (Plaintext c)) |} ∧
    length ct = length (Plaintext c) + Overhead ∧
    DecryptCredential (Some (with_texts [] ct c)) dek = {| err := None; cred := Some (with_texts (Plaintext c) ct c); array := Plaintext c |}.
Proof.
  intros Hf Hr Hp Hk. set (ct := nonce ++ seal dek nonce (Plaintext c)). exists ct.
  assert (Hl : length ct = length (Plaintext c) + Overhead).
  { unfold ct. rewrite length_app, seal_length, (Hf _ _ Hr). unfold Overhead, TagSize. lia. }
  repeat split; [|done|].
  - unfold EncryptCredential, Encrypt. rewrite Hk, newGCM_dek by done. cbn. rewrite Hr. by destruct (Plaintext c).
  - unfold DecryptCredential. cbn [Ciphertext with_texts]. destruct (Nat.eqb_spec (length ct) 0) as [E|_]; [unfold Overhead, NonceSize in Hl; lia|].
    by rewrite (proj2 (Decrypt_exact ct dek (Plaintext c))) by eauto using Hf.
Qed.

(** A failed call changes nothing, so that it can be tried again. *)
Lemma EncryptCredential_error random c dek e :
  err (EncryptCredential random (Some c) dek) = Some e → EncryptCredential random (Some c) dek = unchanged e c.
Proof. unfold EncryptCredential. destruct (_ =? _)%nat; [by intros [= <-]|]. destruct (Encrypt _ _ _); [done|by intros [= <-]]. Qed.

(** The tenant is stored beside the ciphertext and is not part of what is authenticated:
    the bytes of one tenant's row open in a row of any other. *)
Theorem tenant_is_not_bound c dek t :
  err (DecryptCredential (Some c) dek) = None →
  err (DecryptCredential (Some {| TenantID := t; SourceID := SourceID c; ConnectorName := ConnectorName c; Plaintext := Plaintext c; Ciphertext := Ciphertext c |}) dek) = None.
Proof. unfold DecryptCredential. cbn [Ciphertext]. destruct (_ =? _)%nat; [done|]. by destruct (Decrypt _ _). Qed.
End Envelope.
End Credential.

(** ** On concrete inputs *)

Module AccessSamples.
Import Rbac Credential.

(** A cipher with the shape of the real one: the tag is cut from the key. *)
#[program] Definition toy_aead : AEAD := {|
  seal k n p := p ++ take 16 (k ++ zeros 16);
  open_ k n b := if decide (drop (length b - 16) b = take 16 (k ++ zeros 16)) then Some (take (length b - 16) b) else None |}.
Next Obligation. intros k n p. cbn beta. rewrite length_app, length_take, length_app. unfold zeros. rewrite repeat_length. lia. Qed.
Next Obligation.
  intros k n b p. cbn beta. set (tag := take 16 (k ++ zeros 16)).
  assert (Ht : length tag = 16) by (unfold tag, zeros; rewrite length_take, length_app, repeat_length; lia).
  split.
  - case_decide as E; [|done]. intros [= <-]. by rewrite <- E, take_drop.
  - intros ->. rewrite length_app, Ht. replace (length p + 16 - 16) with (length p) by lia. rewrite drop_app_length, take_app_length. by rewrite decide_True.
Qed.
#[local] Existing Instance toy_aead.

Definition random (n : nat) : result bytes string := Ok (repeat (ascii_of_N 7) n).
Definition dek : bytes := repeat (ascii_of_N 9) 32.
Definition token : ConnectorCredential := {| TenantID := "acme"; SourceID := "s1"; ConnectorName := "slack"; Plaintext := to_bytes "xoxb"; Ciphertext := [] |}.

Lemma credential_roundtrip_witness : ∃ ct, EncryptCredential random (Some token) dek = {| err := None; cred := Some (with_texts [] ct token); array := zeros 4 |} ∧
  length ct = 4 + Overhead ∧ DecryptCredential (Some (with_texts [] ct token)) dek = {| err := None; cred := Some (with_texts (to_bytes "xoxb") ct token); array := to_bytes "xoxb" |}.
Proof.
  apply (credential_roundtrip random token dek (repeat (ascii_of_N 7) 12)); [|done..].
  intros n b [= <-]. apply repeat_length.
Defined.

Definition request (method role : string) : Request := {| Method := method; ctx_role := Some (CString role); role_header := "" |}.
Example viewers_read_only :
  MethodRBAC <$> [request "GET" "viewer"; request "POST" "viewer"; request "DELETE" "super_admin"; request "GET" "root"; request "GET" ""]
  = [Next; Abort403 RoleAdmin RoleViewer; Next; Abort403 RoleViewer "root"; Abort401].
Proof. reflexivity. Qed.

(** The header decides when nothing wrote a role into the context, and only then. *)
Example header_is_a_fallback :
  MethodRBAC {| Method := "POST"; ctx_role := None; role_header := "admin" |} = Next ∧
  MethodRBAC {| Method := "POST"; ctx_role := Some COther; role_header := "admin" |} = Abort401.
Proof. done. Qed.
End AccessSamples.

(** ** Health of a source *)

Module Health.
Definition HealthStatusUnknown : string := "unknown".
Definition HealthStatusHealthy : string := "healthy".
Definition HealthStatusDegraded : string := "degraded".
Definition HealthStatusFailing : string := "failing".

Record Health := {
  h_TenantID : string;
  h_SourceID : string;
  LastSuccessAt : option Time;
  LastFailureAt : option Time;
  Lag : Z;
  ErrorCount : Z;
  Status : string;
  UpdatedAt : Time
}.
Record HealthThresholds := { LagWarn : Z; LagAlert : Z; ErrorWarn : Z; ErrorAlert : Z; StaleSuccess : Z }.
Definition DefaultThresholds : HealthThresholds := {| LagWarn := 100; LagAlert := 1000; ErrorWarn := 5; ErrorAlert := 25; StaleSuccess := 24 * hour |}.
(** All-zero thresholds are replaced. *)
Definition NewHealthRepository (thr : HealthThresholds) : HealthThresholds :=
  if ((LagWarn thr =? 0) && (LagAlert thr =? 0) && (ErrorWarn thr =? 0) && (ErrorAlert thr =? 0) && (StaleSuccess thr =? 0))%Z then DefaultThresholds else thr.

Definition DeriveStatus (h : option Health) (thr : HealthThresholds) (now : Time) : string :=
  match h with
  | None => HealthStatusUnknown
  | Some h =>
      match LastSuccessAt h, LastFailureAt h with
      | None, None => HealthStatusUnknown
      | success, _ =>
          if ((0 <? ErrorAlert thr) && (ErrorAlert thr <=? ErrorCount h))%Z then HealthStatusFailing
          else if ((0 <? LagAlert thr) && (LagAlert thr <=? Lag h))%Z then HealthStatusFailing
          else if (0 <? StaleSuccess thr)%Z && match success with Some t => (StaleSuccess thr <? time_sub now t)%Z | None => false end then HealthStatusFailing
          else if ((0 <? ErrorWarn thr) && (ErrorWarn thr <=? ErrorCount h))%Z then HealthStatusDegraded
          else if ((0 <? LagWarn thr) && (LagWarn thr <=? Lag h))%Z then HealthStatusDegraded
          else HealthStatusHealthy
      end
  end.

Definition fresh_row (tenantID sourceID : string) : Health :=
  {| h_TenantID := tenantID; h_SourceID := sourceID; LastSuccessAt := None; LastFailureAt := None; Lag := 0; ErrorCount := 0; Status := HealthStatusUnknown; UpdatedAt := 0 |}.
Definition with_status (thr : HealthThresholds) (now : Time) (h : Health) : Health :=
  {| h_TenantID := h_TenantID h; h_SourceID := h_SourceID h; LastSuccessAt := LastSuccessAt h; LastFailureAt := LastFailureAt h; Lag := Lag h; ErrorCount := ErrorCount h;
     Status := DeriveStatus (Some h) thr now; UpdatedAt := now |}.

(** What the three recorders change. *)
Inductive observation := Success | Failure | SetLag_ (lag : Z).
Definition mutate (o : observation) (now : Time) (h : Health) : Health :=
  match o with
  | Success => {| h_TenantID := h_TenantID h; h_SourceID := h_SourceID h; LastSuccessAt := Some now; LastFailureAt := LastFailureAt h; Lag := Lag h; ErrorCount := 0; Status := Status h; UpdatedAt := UpdatedAt h |}
  | Failure => {| h_TenantID := h_TenantID h; h_SourceID := h_SourceID h; LastSuccessAt := LastSuccessAt h; LastFailureAt := Some now; Lag := Lag h; ErrorCount := wrap64 (ErrorCount h + 1); Status := Status h; UpdatedAt := UpdatedAt h |}
  | SetLag_ lag => {| h_TenantID := h_TenantID h; h_SourceID := h_SourceID h; LastSuccessAt := LastSuccessAt h; LastFailureAt := LastFailureAt h; Lag := lag; ErrorCount := ErrorCount h; Status := Status h; UpdatedAt := UpdatedAt h |}
  end.

Section Repository.
Context `{Outside} (thr : HealthThresholds).
Abbreviation Table := (gmap (string * string) Health) (only parsing).
Abbreviation M := (Eff (gmap (string * string) Health) string) (only parsing).

Definition observed (o : observation) (now : Time) (tenantID sourceID : string) (t : gmap (string * string) Health) : gmap (string * string) Health :=
  <[(tenantID, sourceID) := with_status thr now (mutate o now (default (fresh_row tenantID sourceID) (t !! (tenantID, sourceID))))]> t.
(** One transaction. *)
Definition upsert (tenantID sourceID : string) (o : observation) : M unit := λ w,
  if str_empty tenantID || str_empty sourceID then (Err "admin: missing tenant/source"%string, w)
  else ewrite "admin: save health"%string (observed o (clock (calls_made w) 0) tenantID sourceID) w.
Definition RecordSuccess (tenantID sourceID : string) : M unit := upsert tenantID sourceID Success.
Definition RecordFailure (tenantID sourceID : string) : M unit := upsert tenantID sourceID Failure.
Definition SetLag (tenantID sourceID : string) (lag : Z) : M unit := upsert tenantID sourceID (SetLag_ (if (lag <? 0)%Z then 0%Z else lag)).
Definition Get (tenantID sourceID : string) : M (option Health) :=
  if str_empty tenantID || str_empty sourceID then ethrow "admin: missing tenant/source"
  else eread "admin: get health" (λ t, t !! (tenantID, sourceID)).
Definition ListByTenant (tenantID : string) : M (list Health) :=
  if str_empty tenantID then ethrow "admin: missing tenant"
  else eread "admin: list health" (λ t, sort_by (λ a b, str_ltb (h_SourceID a) (h_SourceID b)) (List.filter (λ h, str_eqb (h_TenantID h) tenantID) (snd <$> map_to_list t))).

(** ** What the rows say *)

(** A row of its key, with the status its counters had when it was written. *)
Definition settled (k : string * string) (h : Health) : Prop :=
  k = (h_TenantID h, h_SourceID h) ∧ Status h = DeriveStatus (Some h) thr (UpdatedAt h).

Lemma with_status_settled now h : settled (h_TenantID h, h_SourceID h) (with_status thr now h).
Proof. done. Qed.
Lemma mutate_key o now h : (h_TenantID (mutate o now h), h_SourceID (mutate o now h)) = (h_TenantID h, h_SourceID h).
Proof. by destruct o. Qed.

Lemma observed_settled o now tn sid t : map_Forall settled t → map_Forall settled (observed o now tn sid t).
Proof.
  intros Ht. apply map_Forall_insert_2; [|done]. set (h := default _ _).
  assert (Hk : (h_TenantID h, h_SourceID h) = (tn, sid)).
  { unfold h. destruct (t !! (tn, sid)) as [x|] eqn:E; [|done]. by destruct (Ht _ _ E) as [-> _]. }
  rewrite <- Hk, <- (mutate_key o now h). apply with_status_settled.
Qed.

(** However the recorders are called and fail, every row carries the status of its own
    counters at the time of its last update. *)
Theorem health_is_derived (calls : list (string * string * observation)) w :
  map_Forall settled (store w) → map_Forall settled (store (foldl (λ w c, (upsert c.1.1 c.1.2 c.2 w).2) w calls)).
Proof.
  revert w. induction calls as [|[[tn sid] o] calls IH]; intros w Hw; [done|]. cbn [foldl]. apply IH. cbn [fst snd]. unfold upsert. destruct (_ || _); [done|].
  unfold ewrite, ecall. destruct (fate (calls_made w)); cbn [store snd]; [by apply observed_settled|done|by apply observed_settled].
Qed.

(** The failures behind the last success. *)
Definition streak (os : list observation) : nat :=
  foldl (λ n o, match o with Success => 0 | Failure => S n | SetLag_ _ => n end) 0 os.

(** After any observations of a source, its error count is the number of failures since
    its last success. *)
Theorem errors_count_the_streak (os : list (observation * Time)) tn sid t :
  t !! (tn, sid) = None → (Z.of_nat (length os) < 2 ^ 63)%Z → os ≠ [] →
  ∃ h, foldl (λ t o, observed o.1 o.2 tn sid t) t os !! (tn, sid) = Some h ∧ ErrorCount h = Z.of_nat (streak (fst <$> os)).
Proof.
  intros Ht. assert (Hstreak : ∀ l : list (observation * Time), streak (fst <$> l) ≤ length l).
  { intros l. induction l as [|[o x] l IH] using rev_ind; [done|]. unfold streak in *. rewrite fmap_app, foldl_app, length_app. simpl. destruct o; lia. }
  induction os as [|[o now] os IH] using rev_ind; intros Hlen Hne; [done|]. rewrite length_app in Hlen. cbn [length] in Hlen.
  rewrite foldl_app, fmap_app. cbn [foldl fst snd]. set (t' := foldl _ t os) in *. eexists. split; [apply lookup_insert_eq|].
  assert (Hprev : ErrorCount (default (fresh_row tn sid) (t' !! (tn, sid))) = Z.of_nat (streak (fst <$> os))).
  { destruct (decide (os = [])) as [->|Hos]; [unfold t'; cbn; by rewrite Ht|]. destruct IH as (h & -> & E); [lia|done|done]. }
  unfold streak in *. rewrite foldl_app. cbn [foldl]. unfold with_status. cbn [ErrorCount].
  destruct o; cbn; [done| |exact Hprev]. rewrite Hprev. rewrite wrap64_id; [lia|]. unfold in_int64, int64_min, int64_max. pose proof (Hstreak os). lia.
Qed.
End Repository.
End Health.

(** ** Endpoints *)

Module SourceHandler.
Import Sources.

Definition MaxPageLimit : Z := 200.
Definition parsePageLimit (raw : string) : result Z string :=
  if str_empty raw then Ok 0%Z
  else match Atoi (to_bytes raw) with
       | Some n => if (n <? 0)%Z then Err "limit must be a non-negative integer"%string else Ok (if (MaxPageLimit <? n)%Z then MaxPageLimit else n)
       | None => Err "limit must be a non-negative integer"%string
       end.

Definition ActionSourceConnected : string := "source.connected".
Definition ActionSourcePaused : string := "source.paused".
Definition ActionSourceResumed : string := "source.resumed".
Definition ActionSourceReScoped : string := "source.re_scoped".
Definition ActionSourcePurged : string := "source.purged".
Definition ActionReindexRequested : string := "reindex.requested".
Definition ActionSourceCredentialsRotated : string := "source.credentials_rotated".

Section Handlers.
Context {Config : Type} `{Outside}.
Abbreviation M := (Eff (gmap string (Source (Config := Config))) (source_error)) (only parsing).

Record audit_row := { a_tenant : string; a_actor : string; a_action : string; a_source : string }.
(** Tenant, source and connector of a kick-off event. *)
Record kickoff := { k_tenant : string; k_source : string; k_connector : string }.
Inductive body := Error (e : string) | Row (s : Source (Config := Config)) | Page (l : list (Source (Config := Config))) (next : string).
Record answer := { status : Z; payload : body; audits : list audit_row; kickoffs : list kickoff }.
Definition refused (status : Z) (e : string) : answer := {| status := status; payload := Error e; audits := []; kickoffs := [] |}.
Definition missing_tenant : answer := refused 401 "missing tenant context".
Definition text (e : source_error) : string :=
  match e with ErrSourceNotFound => "admin: source not found" | ErrSourceTerminal => "admin: source is in a terminal status" | SourceError msg => msg end.

Definition on_result {A} (m : M A) (failed : source_error → answer) (k : A → answer) : M answer := λ w,
  match m w with (Ok a, w') => (Ok (k a), w') | (Err e, w') => (Ok (failed e), w') end.

Record ConnectRequest := { ConnectorType_ : string; Config_ : Config; Scopes_ : list string; Credentials_ : blob }.
(** [validate] is the connector's own check of name, tenant, source, settings and
    credentials; [newID] and [now] are minted. *)
Definition connect (validate : string → string → string → Config → blob → option string) (newID : string) (now : Time) (tenantID : option string) (actorID : string)
    (req : option ConnectRequest) : M answer :=
  match tenantID, req with
  | None, _ => eret missing_tenant
  | _, None => eret (refused 400 "invalid request body")
  | Some tenantID, Some req =>
      if str_empty (ConnectorType_ req) then eret (refused 400 "connector_type required")
      else
        let src := NewSource newID tenantID (ConnectorType_ req) (Config_ req) (Scopes_ req) now in
        match validate (ConnectorType_ req) tenantID newID (Config_ req) (Credentials_ req) with
        | Some e => eret (refused 400 (str_app "validate: " e))
        | None =>
            on_result (Create src) (λ e, refused 500 (str_app "persist: " (text e))) (λ _,
              {| status := 201; payload := Row src; audits := [{| a_tenant := tenantID; a_actor := actorID; a_action := ActionSourceConnected; a_source := newID |}];
                 kickoffs := [{| k_tenant := tenantID; k_source := newID; k_connector := ConnectorType_ req |}] |})
        end
  end.

Definition patch (tenantID : option string) (actorID id : string) (req : option UpdatePatch) : M answer :=
  match tenantID with
  | None => eret missing_tenant
  | Some tenantID =>
      if str_empty id then eret (refused 400 "id required")
      else match req with
      | None => eret (refused 400 "invalid request body")
      | Some req =>
          on_result (Update tenantID id req)
            (λ e, match e with
                  | ErrSourceNotFound => refused 404 "source not found"
                  | ErrSourceTerminal => refused 409 "source is in a terminal status (removing/removed); cannot be patched"
                  | SourceError msg => refused 400 msg
                  end)
            (λ updated,
              let row action := {| a_tenant := tenantID; a_actor := actorID; a_action := action; a_source := id |} in
              {| status := 200; payload := Row updated;
                 audits := match p_Status req with
                           | Some st => if str_eqb st SourceStatusPaused then [row ActionSourcePaused] else if str_eqb st SourceStatusActive then [row ActionSourceResumed] else []
                           | None => []
                           end ++ match p_Scopes req with Some _ => [row ActionSourceReScoped] | None => [] end;
                 kickoffs := match p_Scopes req with Some _ => [{| k_tenant := tenantID; k_source := id; k_connector := ConnectorType updated |}] | None => [] end |})
      end
  end.

Definition delete_source (tenantID : option string) (actorID id : string) : M answer :=
  match tenantID with
  | None => eret missing_tenant
  | Some tenantID =>
      if str_empty id then eret (refused 400 "id required")
      else on_result (MarkRemoving tenantID id)
             (λ e, match e with ErrSourceNotFound => refused 404 "source not found" | _ => refused 500 (text e) end)
             (λ updated, {| status := 202; payload := Row updated;
                            audits := [{| a_tenant := tenantID; a_actor := actorID; a_action := ActionSourcePurged; a_source := id |}]; kickoffs := [] |})
  end.

Definition list_sources (tenantID : option string) (limit status_ cursor : string) : M answer :=
  match tenantID with
  | None => eret missing_tenant
  | Some tenantID =>
      match parsePageLimit limit with
      | Err e => eret (refused 400 e)
      | Ok n => on_result (List_ {| f_TenantID := tenantID; f_Status := status_; f_PageSize := n; f_Cursor := cursor |}) (λ e, refused 500 (text e))
                  (λ res, {| status := 200; payload := Page res.1 res.2; audits := []; kickoffs := [] |})
      end
  end.
Definition get_source (tenantID : option string) (id : string) : M answer :=
  match tenantID with
  | None => eret missing_tenant
  | Some tenantID =>
      on_result (Get tenantID id) (λ e, match e with ErrSourceNotFound => refused 404 "source not found" | _ => refused 500 (text e) end)
        (λ src, {| status := 200; payload := Row src; audits := []; kickoffs := [] |})
  end.

(** *** Many sources at once *)

Inductive BulkSourceAction := Pause | Resume | Disconnect | Reindex | RotateCreds.
(** What the re-index and rotation services answer, when they are wired. *)
Record services := { reindexer : option (string → string → option string); rotator : option (string → string → option string) }.
Definition status_patch (st : string) : UpdatePatch := {| p_Status := Some st; p_Scopes := None |}.
Definition outside (s : option (string → string → option string)) (missing : string) (tenantID sourceID : string) : M unit :=
  match s with None => ethrow (SourceError missing) | Some f => match f tenantID sourceID with None => eret tt | Some e => ethrow (SourceError e) end end.
Definition apply_action (sv : services) (tenantID sourceID : string) (action : BulkSourceAction) : M unit :=
  match action with
  | Pause => let@ _ := Update tenantID sourceID (status_patch SourceStatusPaused) in eret tt
  | Resume => let@ _ := Update tenantID sourceID (status_patch SourceStatusActive) in eret tt
  | Disconnect => let@ _ := MarkRemoving tenantID sourceID in eret tt
  | Reindex => outside (reindexer sv) "reindex not configured" tenantID sourceID
  | RotateCreds => outside (rotator sv) "rotate-credentials not configured" tenantID sourceID
  end.
Definition audit_action (action : BulkSourceAction) : string :=
  match action with Pause => ActionSourcePaused | Resume => ActionSourceResumed | Disconnect => ActionSourcePurged | Reindex => ActionReindexRequested | RotateCreds => ActionSourceCredentialsRotated end.

Record BulkSourceResult := { SourceID : string; OK : bool; Error_ : string }.
(** One goroutine: its result and the row it handed to the audit log. *)
Definition bulk_one (sv : services) (tenantID actor : string) (action : BulkSourceAction) (sid : string) (w : Env (gmap string Source))
    : BulkSourceResult * list audit_row * Env (gmap string Source) :=
  match apply_action sv tenantID sid action w with
  | (Ok _, w') => ({| SourceID := sid; OK := true; Error_ := EmptyString |}, [{| a_tenant := tenantID; a_actor := actor; a_action := audit_action action; a_source := sid |}], w')
  | (Err e, w') => ({| SourceID := sid; OK := false; Error_ := text e |}, [], w')
  end.
(** The goroutines in the order in which they get through, each under its index. *)
Fixpoint bulk_run (sv : services) (tenantID actor : string) (action : BulkSourceAction) (order : list (nat * string))
    (slots : list (option BulkSourceResult)) (rows : list audit_row) (w : Env (gmap string Source)) : list (option BulkSourceResult) * list audit_row * Env (gmap string Source) :=
  match order with
  | [] => (slots, rows, w)
  | (i, sid) :: rest =>
      let '(r, a, w') := bulk_one sv tenantID actor action sid w in
      bulk_run sv tenantID actor action rest (<[i := Some r]> slots) (rows ++ a) w'
  end.
Record BulkSourceResponse := { Total : nat; OKs : nat; Failed : nat; Results : list (option BulkSourceResult); bulk_audits : list audit_row }.
Definition is_ok (r : option BulkSourceResult) : bool := match r with Some r => OK r | None => false end.
Definition actions : list (string * BulkSourceAction) :=
  [("pause", Pause); ("resume", Resume); ("disconnect", Disconnect); ("reindex", Reindex); ("rotate-credentials", RotateCreds)]%string.
Definition parse_action (sv : services) (name : string) : result BulkSourceAction string :=
  match list_find (λ p, p.1 = name) actions with
  | Some (_, (_, Reindex)) => match reindexer sv with None => Err "reindex action not configured"%string | Some _ => Ok Reindex end
  | Some (_, (_, RotateCreds)) => match rotator sv with None => Err "rotate-credentials action not configured"%string | Some _ => Ok RotateCreds end
  | Some (_, (_, a)) => Ok a
  | None => Err "invalid action"%string
  end.
(** [schedule] is the order the goroutines take. *)
Definition bulk (sv : services) (schedule : list (nat * string) → list (nat * string)) (tenantID : option string) (actor : string) (req : option (string * list string))
    (w : Env (gmap string Source)) : result BulkSourceResponse (Z * string) * Env (gmap string Source) :=
  match tenantID, req with
  | None, _ => (Err (401%Z, "missing tenant context"%string), w)
  | _, None => (Err (400%Z, "bind"%string), w)
  | Some tenantID, Some (action, ids) =>
      match parse_action sv action with
      | Err e => (Err (400%Z, e), w)
      | Ok action =>
          if (length ids =? 0)%nat then (Err (400%Z, "source_ids cannot be empty"%string), w)
          else if (200 <? length ids)%nat then (Err (400%Z, "max 200 source_ids per request"%string), w)
          else
            let '(slots, rows, w') := bulk_run sv tenantID actor action (schedule (imap pair ids)) (replicate (length ids) None) [] w in
            (Ok {| Total := length slots; OKs := length (List.filter is_ok slots); Failed := length (List.filter (λ r, negb (is_ok r)) slots); Results := slots; bulk_audits := rows |}, w')
      end
  end.

(** ** A request stays in its tenant *)

(** A row that was changed, removed or added belongs to the tenant, before and after. *)
Definition owned_by (tn : string) (row : option (Source (Config := Config))) : Prop := match row with Some s => TenantID s = tn | None => True end.
Definition foreign_kept (tn : string) (t t' : gmap string (Source (Config := Config))) : Prop :=
  ∀ id, t' !! id = t !! id ∨ owned_by tn (t !! id) ∧ owned_by tn (t' !! id).
Definition contained {A} (tn : string) (m : M A) : Prop := ∀ w, foreign_kept tn (store w) (store (m w).2).

Lemma foreign_refl tn t : foreign_kept tn t t.
Proof. intros id. by left. Qed.
Lemma foreign_trans tn a b c : foreign_kept tn a b → foreign_kept tn b c → foreign_kept tn a c.
Proof. intros H1 H2 id. destruct (H1 id) as [E1|[? ?]], (H2 id) as [E2|[? ?]]; rewrite ?E2, ?E1 in *; auto. Qed.
Lemma contained_ret {A} tn (a : A) : contained tn (eret a).
Proof. intros w. apply foreign_refl. Qed.
Lemma contained_throw {A} tn e : contained tn (ethrow (A := A) e).
Proof. intros w. apply foreign_refl. Qed.
Lemma contained_bind {A B} tn (m : M A) (k : A → M B) : contained tn m → (∀ a, contained tn (k a)) → contained tn (ebind m k).
Proof. intros Hm Hk w. unfold ebind. specialize (Hm w). destruct (m w) as [[a|e] w1]; [|done]. eapply foreign_trans; [exact Hm|apply Hk]. Qed.
Lemma contained_call {A} tn err (f : gmap string Source → A * gmap string Source) : (∀ t, foreign_kept tn t (f t).2) → contained tn (ecall err f).
Proof.
  intros Hf w. unfold ecall. specialize (Hf (store w)). destruct (f (store w)). destruct (fate (calls_made w)); cbn; [done|apply foreign_refl|done].
Qed.
Lemma contained_read {A} tn err (f : gmap string Source → A) : contained tn (eread err f).
Proof. apply contained_call. intros t. apply foreign_refl. Qed.
Lemma foreign_insert tn t id s : owned_by tn (t !! id) → TenantID s = tn → foreign_kept tn t (<[id := s]> t).
Proof. intros Ho Hs id'. destruct (decide (id' = id)) as [->|Hne]; [right; by rewrite lookup_insert_eq|left; by rewrite lookup_insert_ne]. Qed.
Lemma contained_update tn err id P f : (∀ now s, TenantID (f now s) = TenantID s) → contained tn (update_where (Config := Config) err tn id P f).
Proof.
  intros Hf w. unfold update_where. apply contained_call. intros t. unfold owned. destruct (t !! id) as [s|] eqn:E; [|apply foreign_refl].
  destruct (str_eqb (TenantID s) tn) eqn:Et; [|apply foreign_refl]. apply str_eqb_eq in Et. destruct (P s); [|apply foreign_refl]. cbn.
  apply foreign_insert; [by rewrite E|by rewrite Hf].
Qed.
Lemma contained_result {A} tn (m : M A) failed k : contained tn m → contained tn (on_result m failed k).
Proof. intros Hm w. specialize (Hm w). unfold on_result. by destruct (m w) as [[a|e] w1]. Qed.

#[local] Hint Resolve contained_ret contained_throw contained_bind contained_read contained_update contained_result : contained.
#[local] Hint Extern 5 (contained _ (if ?b then _ else _)) => destruct b : contained.
#[local] Hint Extern 5 (contained _ (match ?b with _ => _ end)) => destruct b : contained.

Lemma contained_Get tn id : contained tn (Get (Config := Config) tn id).
Proof. unfold Get, found. auto with contained. Qed.
#[local] Hint Resolve contained_Get : contained.
Lemma contained_Update tn id p : contained tn (Update (Config := Config) tn id p).
Proof. unfold Update. destruct (_ || _); [auto with contained|]. destruct (negb _); [auto with contained|]. apply contained_bind; [auto with contained|]. intros []; auto with contained. Qed.
Lemma contained_MarkRemoving tn id : contained tn (MarkRemoving (Config := Config) tn id).
Proof. unfold MarkRemoving. auto with contained. Qed.
Lemma contained_Create tn s : TenantID s = tn → contained tn (Create (Config := Config) s).
Proof.
  intros Ht. unfold Create. destruct (Validate s); [|auto with contained]. apply contained_bind; [|intros []; auto with contained]. apply contained_call. intros t.
  destruct (t !! ID s) eqn:E; [apply foreign_refl|]. apply foreign_insert; [by rewrite E|done].
Qed.
#[local] Hint Resolve contained_Update contained_MarkRemoving contained_Create : contained.

Inductive request :=
| RConnect (newID : string) (now : Time) (req : option ConnectRequest)
| RPatch (id : string) (req : option UpdatePatch)
| RDelete (id : string)
| RList (limit status_ cursor : string)
| RGet (id : string).
Definition serve validate (tenantID : option string) (actorID : string) (r : request) : M answer :=
  match r with
  | RConnect newID now req => connect validate newID now tenantID actorID req
  | RPatch id req => patch tenantID actorID id req
  | RDelete id => delete_source tenantID actorID id
  | RList l st c => list_sources tenantID l st c
  | RGet id => get_source tenantID id
  end.

Lemma serve_contained validate tn actor r : contained tn (serve validate (Some tn) actor r).
Proof.
  destruct r as [newID now [req|]|id [req|]|id|l st c|id]; cbn [serve]; unfold connect, patch, delete_source, list_sources, get_source, List_; auto with contained.
Qed.
Lemma bulk_one_contained sv tn actor action sid w : foreign_kept tn (store w) (store (bulk_one sv tn actor action sid w).2).
Proof.
  assert (Hc : contained tn (apply_action sv tn sid action)) by (destruct action; cbn [apply_action]; unfold outside; auto 10 with contained).
  specialize (Hc w). unfold bulk_one. by destruct (apply_action sv tn sid action w) as [[a|e] w1].
Qed.
Lemma bulk_run_contained sv tn actor action order slots rows w : foreign_kept tn (store w) (store (bulk_run sv tn actor action order slots rows w).2).
Proof.
  revert slots rows w. induction order as [|[i sid] order IH]; intros slots rows w; cbn [bulk_run]; [apply foreign_refl|].
  pose proof (bulk_one_contained sv tn actor action sid w) as H1. destruct (bulk_one sv tn actor action sid w) as [[r a] w1]. eapply foreign_trans; [exact H1|apply IH].
Qed.

Lemma bulk_contained sv schedule tn actor breq w : foreign_kept tn (store w) (store (bulk sv schedule (Some tn) actor breq w).2).
Proof.
  unfold bulk. destruct breq as [[action ids]|]; [|apply foreign_refl]. destruct (parse_action sv action) as [a|]; [|apply foreign_refl].
  destruct (_ =? _)%nat; [apply foreign_refl|]. destruct (_ <? _)%nat; [apply foreign_refl|].
  pose proof (bulk_run_contained sv tn actor a (schedule (imap pair ids)) (replicate (length ids) None) [] w) as Hb.
  by destruct (bulk_run _ _ _ _ _ _ _ _) as [[slots rows] w'].
Qed.

(** C38: whatever a caller sends to the endpoints of sources, one at a time or in bulk, and
    however the database fails: without a tenant the table stays as it is; with one, every
    id of the table either has the row it had, or no row of another tenant before and no
    row of another tenant after, so that rows of others are neither changed nor removed and
    a new row is the caller's. *)
Theorem requests_stay_in_their_tenant validate sv schedule tn actor r breq w t' :
  t' = store (serve validate tn actor r w).2 ∨ t' = store (bulk sv schedule tn actor breq w).2 →
  match tn with
  | None => t' = store w
  | Some tn => ∀ id, t' !! id = store w !! id ∨
      (∀ s, store w !! id = Some s → TenantID s = tn) ∧ (∀ s, t' !! id = Some s → TenantID s = tn)
  end.
Proof.
  intros Ht. destruct tn as [tn|]; [|by destruct Ht as [->| ->], r].
  assert (Hk : foreign_kept tn (store w) t') by (destruct Ht as [->| ->]; [apply serve_contained|apply bulk_contained]).
  intros id. destruct (Hk id) as [E|[H1 H2]]; [by left|]. right. split; intros s Es; rewrite Es in *; done.
Qed.

(** *** What is stored of a connection *)

(** The credentials of the request reach the connector's check and nothing else: two
    requests that pass it and differ in them leave the same row and the same answer. *)
Theorem credentials_are_not_stored validate newID now tn actor ty cfg scopes c1 c2 w :
  (∀ t, validate ty t newID cfg c1 = validate ty t newID cfg c2) →
  connect validate newID now tn actor (Some {| ConnectorType_ := ty; Config_ := cfg; Scopes_ := scopes; Credentials_ := c1 |}) w =
  connect validate newID now tn actor (Some {| ConnectorType_ := ty; Config_ := cfg; Scopes_ := scopes; Credentials_ := c2 |}) w.
Proof. intros Hv. unfold connect. destruct tn; [|done]. cbn [ConnectorType_ Config_ Scopes_ Credentials_]. by rewrite Hv. Qed.
End Handlers.
End SourceHandler.

(** ** Rotation of credentials *)

Module Rotation.
Import Sources.

Definition CredentialGracePeriod : Z := hour.

Section Rotate.
(** The values of a configuration: bytes and times are written into it as JSON. *)
Context {V : Type} (of_blob : bytes → V) (of_time : Time → V) `{Outside}.
Abbreviation Row := (Source (Config := gmap string V)) (only parsing).

Inductive rotate_error := OfSource (e : source_error) | ErrCredentialValidation (e : string).
Abbreviation M := (Eff (gmap string (Source (Config := gmap string V))) rotate_error) (only parsing).
Record CredentialRotateRequest := { Credentials : bytes; Reason : string }.
Record CredentialRotateResponse := { SourceID : string; RotatedAt : Time; PreviousExpiryAt : Time }.
Record audit_row := { a_tenant : string; a_actor : string; a_source : string; a_reason : string; a_previous_expires : Time; a_rotated_at : Time }.

(** A JSON null is read as a value that is there but nil. *)
Context (is_nil : V → bool).
Definition stashed (expiry : Time) (cfg : gmap string V) : gmap string V :=
  match cfg !! "credentials"%string with
  | Some existing => if is_nil existing then cfg else <["previous_credentials_expires_at"%string := of_time expiry]> (<["previous_credentials"%string := existing]> cfg)
  | None => cfg
  end.
Definition rotated (rotatedAt : Time) (credentials : bytes) (cfg : gmap string V) : gmap string V :=
  <["credentials_rotated_at"%string := of_time rotatedAt]> (<["credentials"%string := of_blob credentials]> (stashed (rotatedAt + CredentialGracePeriod) cfg)).

(** The call of the repository inside the rotation. *)
Definition of_repo {A} (m : Eff (gmap string Row) source_error A) : M A := λ w,
  match m w with (Ok a, w') => (Ok a, w') | (Err e, w') => (Err (OfSource e), w') end.

Definition Rotate (validate : string → string → string → gmap string V → bytes → option string) (rotatedAt : Time) (actor tenantID sourceID : string) (req : CredentialRotateRequest)
    : M (CredentialRotateResponse * audit_row) :=
  let@ src := of_repo (Get tenantID sourceID) in
  if terminal src then ethrow (OfSource ErrSourceTerminal)
  else match validate (ConnectorType src) tenantID (ID src) (SourceConfig src) (Credentials req) with
  | Some e => ethrow (ErrCredentialValidation e)
  | None =>
      let cfg := rotated rotatedAt (Credentials req) (SourceConfig src) in
      let@ n := of_repo (update_where "admin: update credentials" tenantID sourceID (λ s, negb (terminal s)) (λ _ s, amend cfg (Scopes s) (Status s) rotatedAt s)) in
      if n then
        let expiry := (rotatedAt + CredentialGracePeriod)%Z in
        eret ({| SourceID := sourceID; RotatedAt := rotatedAt; PreviousExpiryAt := expiry |},
              {| a_tenant := tenantID; a_actor := actor; a_source := sourceID; a_reason := Reason req; a_previous_expires := expiry; a_rotated_at := rotatedAt |})
      else ethrow (OfSource ErrSourceNotFound)
  end.

Inductive answer := Refused (status : Z) | Rotated (r : CredentialRotateResponse) (a : audit_row).
Definition handle validate (rotatedAt : Time) (tenantID : option string) (actor id : string) (req : option CredentialRotateRequest) : M answer :=
  match tenantID with
  | None => eret (Refused 401)
  | Some tenantID =>
      if str_empty id then eret (Refused 400)
      else match req with
      | None => eret (Refused 400)
      | Some req =>
          if (length (Credentials req) =? 0)%nat then eret (Refused 400)
          else λ w, match Rotate validate rotatedAt actor tenantID id req w with
                    | (Ok (r, a), w') => (Ok (Rotated r a), w')
                    | (Err (OfSource ErrSourceNotFound), w') => (Ok (Refused 404), w')
                    | (Err (OfSource ErrSourceTerminal), w') => (Ok (Refused 409), w')
                    | (Err (ErrCredentialValidation _), w') => (Ok (Refused 400), w')
                    | (Err (OfSource (SourceError _)), w') => (Ok (Refused 500), w')
                    end
      end
  end.

(** Every setting but the four of the rotation is kept. *)
Lemma rotated_other at_ creds cfg k :
  k ∉ ["credentials"; "previous_credentials"; "previous_credentials_expires_at"; "credentials_rotated_at"]%string → rotated at_ creds cfg !! k = cfg !! k.
Proof.
  intros Hk. repeat (apply not_elem_of_cons in Hk as [? Hk]). unfold rotated, stashed. rewrite !lookup_insert_ne by done.
  destruct (cfg !! "credentials"%string) as [v|]; [|done]. destruct (is_nil v); [done|]. by rewrite !lookup_insert_ne by done.
Qed.

(** A rotation replaces the credentials of one open source and keeps the old ones
    beside them; every other setting of it and every other source stay. An error leaves
    everything as it was, unless the answer to the write itself was lost. *)
Theorem Rotate_contract validate at_ actor tn id req w r w' :
  (∀ n, fate n ≠ ReplyLost) → Rotate validate at_ actor tn id req w = (r, w') →
  match r with
  | Err _ => store w' = store w
  | Ok (resp, _) =>
      ∃ s, store w !! id = Some s ∧ TenantID s = tn ∧ terminal s = false ∧ validate (ConnectorType s) tn (ID s) (SourceConfig s) (Credentials req) = None ∧
        store w' = <[id := amend (rotated at_ (Credentials req) (SourceConfig s)) (Scopes s) (Status s) at_ s]> (store w) ∧ PreviousExpiryAt resp = (at_ + hour)%Z
  end.
Proof.
  intros Hfate. unfold Rotate, of_repo, ebind at 1, Get. destruct (str_empty tn || str_empty id); [by intros [= <- <-]|].
  unfold ebind at 1, eread, ecall. pose proof (Hfate (calls_made w)) as F1. destruct (fate (calls_made w)); [|by intros [= <- <-]|done].
  unfold found. destruct (owned tn id (store w)) as [s|] eqn:Eo; [|by intros [= <- <-]]. unfold eret at 1.
  assert (Hs : store w !! id = Some s ∧ TenantID s = tn).
  { unfold owned in Eo. destruct (store w !! id) as [x|]; [|done]. destruct (str_eqb (TenantID x) tn) eqn:Et; [|done]. apply str_eqb_eq in Et. by simplify_eq. }
  destruct (terminal s) eqn:Et; [by intros [= <- <-]|]. destruct (validate _ _ _ _ _) eqn:Ev; [by intros [= <- <-]|].
  unfold ebind, update_where, ecall. cbn [store calls_made]. rewrite Eo, Et. cbn [negb].
  pose proof (Hfate (S (calls_made w))) as F2. destruct (fate (S (calls_made w))); [|by intros [= <- <-]|done]. intros [= <- <-]. exists s. destruct Hs. done.
Qed.
End Rotate.
End Rotation.

(** ** On concrete inputs *)

Module SourceAdminSamples.
Import Health.

(** The last success of a source is two days old and nothing was recorded since: the
    stored status, which the endpoint returns, is that of two days ago. *)
Definition quiet_table : gmap (string * string) Health := observed DefaultThresholds Success 0 "acme" "s1" ∅.
Example silence_stays_healthy :
  (Status <$> quiet_table !! ("acme", "s1")%string) = Some HealthStatusHealthy ∧
  DeriveStatus (quiet_table !! ("acme", "s1")%string) DefaultThresholds (48 * hour) = HealthStatusFailing.
Proof. vm_compute. split; reflexivity. Qed.

(** A backlog without a first sync is not a failure. *)
Example backlog_before_first_sync :
  (Status <$> observed DefaultThresholds (SetLag_ 5000) 0 "acme" "s1" ∅ !! ("acme", "s1")%string) = Some HealthStatusUnknown.
Proof. vm_compute. reflexivity. Qed.

(** A rotation that has read the row writes the whole configuration back: what was
    changed in between is undone. *)
Definition rotated_text : Time → bytes → gmap string string → gmap string string := Rotation.rotated of_bytes (λ _, "now"%string) (λ _, false).
Definition configured (channel : string) : Sources.Source := Sources.NewSource "a1" "acme" "slack" ({["channel" := channel]} : gmap string string)%string [] 1.
Definition now_changed : Env (gmap string (Sources.Source (Config := gmap string string))) := {| store := {["a1"%string := configured "new"]}; calls_made := 1 |}.
Example rotation_undoes_a_change :
  let cfg := rotated_text 0 (to_bytes "token") (Sources.SourceConfig (configured "old")) in
  let w' := (Sources.update_where (H := calm) "admin: update credentials" "acme" "a1" (λ s, negb (Sources.terminal s)) (λ _ s, Sources.amend cfg (Sources.Scopes s) (Sources.Status s) 0 s) now_changed).2 in
  (store w' !! "a1"%string ≫= λ s, Sources.SourceConfig s !! "channel"%string) = Some "old"%string.
Proof. vm_compute. reflexivity. Qed.

Import Sources SourceHandler.
Definition tables : Env (gmap string (Source (Config := unit))) :=
  {| store := {["a1" := NewSource "a1" "acme" "slack" tt [] 1; "b1" := NewSource "b1" "beta" "slack" tt [] 1]}; calls_made := 0 |}.
Definition no_services : services := {| reindexer := None; rotator := None |}.

(** A bulk request that names a source of another tenant. *)
Example bulk_isolates_errors :
  match bulk (H := calm) no_services id (Some "acme"%string) "u" (Some ("pause", ["b1"; "a1"])%string) tables with
  | (Ok r, w') => (Total r, OKs r, Failed r) = (2, 1, 1) ∧ a_source <$> bulk_audits r = ["a1"%string] ∧ (Sources.Status <$> store w' !! "b1"%string) = Some "active"%string
  | _ => False
  end.
Proof. vm_compute. repeat split; reflexivity. Qed.

(** Beta's source is out of reach of acme, whose own is removed and whose new one is its own. *)
Definition after_delete : gmap string (Source (Config := unit)) :=
  store (bulk (H := calm) no_services id (Some "acme"%string) "u" (Some ("disconnect", ["b1"; "a1"])%string) tables).2.
Definition after_connect : gmap string (Source (Config := unit)) :=
  store (serve (H := calm) (λ _ _ _ _ _, None) (Some "acme"%string) "u" (RConnect "c1" 7 (Some {| ConnectorType_ := "slack"; Config_ := tt; Scopes_ := []; Credentials_ := NoBytes |})) tables).2.
Lemma requests_stay_in_their_tenant_witness :
  after_delete !! "b1"%string = store tables !! "b1"%string ∧ after_delete !! "a1"%string ≠ store tables !! "a1"%string ∧
  is_Some (after_connect !! "c1"%string) ∧ ∀ s, after_connect !! "c1"%string = Some s → TenantID s = "acme"%string.
Proof.
  pose proof (requests_stay_in_their_tenant (H := calm) (λ _ _ _ _ _, None) no_services id (Some "acme"%string) "u" (RDelete "b1") (Some ("disconnect", ["b1"; "a1"])%string)
    tables after_delete (or_intror eq_refl) "b1"%string) as Hb.
  pose proof (requests_stay_in_their_tenant (H := calm) (λ _ _ _ _ _, None) no_services id (Some "acme"%string) "u" (RConnect "c1" 7 (Some {| ConnectorType_ := "slack"; Config_ := tt; Scopes_ := []; Credentials_ := NoBytes |})) None
    tables after_connect (or_introl eq_refl) "c1"%string) as Hc.
  split; [|split; [|split]].
  - destruct Hb as [E|[H1 _]]; [exact E|]. exfalso. specialize (H1 _ eq_refl). discriminate H1.
  - vm_compute. discriminate.
  - vm_compute. eexists. reflexivity.
  - destruct Hc as [E|[_ H2]]; [|exact H2]. exfalso. vm_compute in E. discriminate E.
Defined.
End SourceAdminSamples.
